(* ===== verification/_CoqProject ===== *)
-Q . S2P
Prelude.v
RustStr.v
Store.v
Sched.v
World.v
UpdateCommon.v
PushAgent.v
Updater.v
Upnp.v
Van.v
TermBuffer.v
Terminal.v
LoginFailures.v
Heartbeat.v
Cleanup.v
Service.v
Server.v
Login.v
LoginSpec.v
FileLog.v
Cm.v
Auth.v
Data.v
Handshake.v
F32.v
VideoQos.v
Portable.v
Downloader.v
Session.v
SessionSpec.v
Handler.v
Connect.v
Mediator.v
Firewall.v
Probe.v
Video.v
Transfer.v
ClipFile.v
Fuse.v
Remote.v
Rounds.v
Enigo.v
Input.v
Upload.v
Privacy.v
Forward.v
Sync.v
