(* ===== verification/Prelude.v ===== *)
(** * ChainRemote: a verification library (root file)

    ChainRemote is a remote-support program built on RustDesk.  A technician at
    the headquarters controls the customers' cash registers.  On each register
    runs an agent, a Windows service with several threads; the technician runs
    the same program as an app with windows:

    - the register's _server_ accepts connections, decides who may log in, works
      on the messages of whoever did, and feeds the connections from services
      (screen, sound, cursor, terminal); a process with the customer's window,
      the _connection manager_, shows them and lets the customer decide;
    - the register's _background threads_ report to the headquarters and carry
      out what the answer asks, install releases, watch the payment daemon, keep
      the firewall off and open a port on the router;
    - the technician's _app_ logs in at the panel, lists the customers, connects
      to a register directly or over a relay, exchanges keys, answers the login,
      shows the screens, transfers files and pastes what was copied.

    Threads and processes share small statics, channels, markers in the
    configuration and a few files.  This library translates these parts from the
    Rust sources into functions on explicit states and proves what makes them
    correct.  A loop or a thread is given by its steps, and a run is any sequence
    (or, where there are several threads, any interleaving) of them.

    ** Files, in the order of dependence

    Shared:
    - [Prelude]: machine integers ([Int]), [result] with [let?], tactics.
    - [RustStr]: the [&str] methods in use, on UTF-8 bytes.
    - [Store]: what is relied on of code outside the repository, as classes:
      [LocalConfig] (the option store of the [hbb_common] submodule) and
      [Sha256] (the [sha2] crate), each with an implementation for witnesses.
    - [World]: the state-passing style of the threads: a configuration, a
      component's statics and the trace of what was asked and done; [evolves]
      frames what a step may add, [guarded] says what held when an event was
      added, [last_asked] what the latest answer to a question was.
    - [F32]: Rust's [f32] on the Standard Library's IEEE 754 specification.

    The register's background threads:
    - [Sched]: the scheduled-access window of [chainremote_sched.rs] ([Sched])
      and the grace after a remote restart of [server/connection.rs]
      ([Grace]).  The state is the content of the marker file; reading, writing
      and removing it may fail.
    - [UpdateCommon]: [chainremote_update_common.rs], versions and file digests.
    - [PushAgent]: [chainremote_push_agent.rs]; [tick] is a poll, [polls] the
      thread, [obtain], [ready] and [install] are stretches of [tick].
    - [Updater]: [chainremote_updater.rs]; [loop_tick] is a round of the thread,
      [manual_step], [push_step] and [scheduled_step] its three occasions.
    - [Upnp]: [chainremote_upnp.rs]; [step] is one atomic step of one thread.
    - [Van]: [chainremote_van.rs]; [tick] is an observation, [recover] the
      restart, [watch] the thread.
    - [Heartbeat], [Cleanup]: [chainremote_heartbeat.rs]; a report and its
      answer ([send_heartbeat]), the thread ([run_loop], [rounds]); deleting
      old files in a tree of folders.
    - [Firewall]: [chainremote_firewall.rs]; the panel's switch, a round of the
      watch, Windows' own changes and restarts are the steps.

    The register's server:
    - [TermBuffer], [Terminal]: [server/terminal_service.rs]; the output buffer,
      a session's polling and window-size signals, opening and reconnecting,
      the registry of services.
    - [LoginFailures]: the counters of failed passwords of
      [server/connection.rs]; [Race] interleaves the stages of several attempts.
    - [Service], [Server]: [server/service.rs] and [server.rs].  [Subscriber] is
      what a service asks of its subscribers, [ServiceI] what the server asks of
      a service; both kinds of subscriber and the service itself are instances,
      and [Server] is proved against the interface.
    - [Login], [LoginSpec]: the login of [server/connection.rs] up to the
      decision, and its contract.
    - [FileLog]: the record of removed files of [server/connection.rs].
    - [Session], [SessionSpec]: everything else an open connection does: the
      peer's messages, the manager's data, the timers and the end.  [prim] is
      an elementary change; who may make which one is written down once.
    - [Mediator]: [rendezvous_mediator.rs]; the loops over UDP and TCP, the
      registration of the register's number and key, the answers to those who
      ask for it, the outer loop and the listener for direct access.
    - [Cm]: [ui_cm_interface.rs], the connection manager.
    - [VideoQos]: [server/video_qos.rs], frames per second and bitrate.
    - [Enigo], [Input]: [libs/enigo] and [server/input_service.rs] on Windows;
      [Device] is the library's pair of traits, [windows_device] its
      implementation, and [Input] plays key and mouse events on any device.
    - [Handshake]: the key exchange of [client.rs] and [server.rs], both ends,
      and the one with the rendezvous server of [common.rs].

    The technician's app:
    - [Auth], [Data]: [chainremote_auth.rs] and [chainremote_data.rs]; the login
      at the panel, the folder of records per account, the customer lists and
      the reports of sessions.
    - [Handler]: [LoginConfigHandler] of [client.rs], the options and the
      password of a session.
    - [Connect]: [Client::start] of [client.rs] and [chainremote_direct.rs]; an
      asynchronous function is a tree of its waits, [select_ok] interleaves.
    - [Probe]: [chainremote_probe.rs], composed of [Connect] and [Handler].
    - [Video]: the frames' way through [client/io_loop.rs] and the thread per
      display of [client.rs].
    - [Transfer]: the file jobs of [client/io_loop.rs].
    - [Remote]: the loop of [client/io_loop.rs] that joins [Handler], [Video] and
      [Transfer] with the rest of a session: the answer to the login, permissions,
      the clipboard, voice calls, notices and the end.  [fine] says what one turn
      may add to the trace; it composes, and every handler has it.
    - [Rounds]: [ConnectionRoundState] of [ui_session_interface.rs], what keeps
      the loops of successive connections apart.
    - [ClipFile], [Fuse]: copied files: [clipboard_file.rs] and [libs/clipboard];
      the copying side writes a table and serves contents, the pasting side
      mounts the table as a file system.
    - [Upload]: [hbbs_http/record_upload.rs], the upload of recordings; [Sync]:
      [hbbs_http/sync.rs], the turns in which a register reports to a panel.
    - [Forward]: [port_forward.rs], a port of the technician's machine that stands
      for one behind the register, with the register's end of it
      ([server/connection.rs]) and the listeners of a session.
    - [Privacy]: [privacy_mode.rs], its two implementations on Windows, the hooks
      of the input, and what connections and the register's keyboard do with
      them.  [PrivacyModeLaws] is what an implementation promises; the theorems
      are proved against it and each implementation has an instance.
    - [Downloader]: [hbbs_http/downloader.rs], downloads in the background.
    - [Portable]: [libs/portable], the packer, its reader and the launcher.

    ** What the theorems show

    - Who gets in.  [LoginSpec.login_refines]: the login handler authorises
      exactly when [login_spec], one boolean over six ways in, says so;
      [click_mode_needs_consent]: a register that asks for a click is entered
      without one only over an already authorised connection that claims the
      same id, within the grace of a restart or within a window a customer
      granted; [Login.password_accepted_iff] and
      [LoginFailures.brute_force_bound]: what a password is compared with and,
      while no two attempts overlap, how often an address may try;
      [Sched.open_only_by_recent_grant]: an open window goes back to a grant of
      at most a day ago, written to the disk and not cancelled there since;
      [Cm.only_clicks_admit]: in the manager only the customer's clicks and a
      finished login admit anybody; [Mediator.guests_as_asked]: apart from
      direct access nobody is connected but as the rendezvous server asked, under
      the permissions it named, and [only_confirmed_registers] under which number
      and key a register names itself.
    - What a connection may do.  [SessionSpec.effects_are_permitted]: each
      effect that a permission governs is allowed by the permissions of the
      moment, and [unguarded] lists those that none governs;
      [subscriptions_follow_permissions], [no_stale_blocks] and
      [session_closes_once]: the services, what is written, and the end.
    - What gets installed.  [PushAgent.install_only_when_allowed] and
      [Updater.update_only_verified]: every guard of the code was passed, on the
      latest answers, when an installer starts; [no_second_installer] and
      [eligible_push_is_installed]: one at a time, and eventually.
    - What is touched on the register.  [Van.kill_only_when_safe]: the payment
      daemon is killed only after two looks in a row at an idle, bad process and
      is restarted at once; [Cleanup.cleanup_exact]: which files go.
    - What is pressed on the register.  [Input.nothing_stays_down]: a raw
      or named key that went down is on the list of keys to release until it is
      up, and is up at the end, but for a few events that are named; [lights_are_put_back]; [Enigo.written_is_typed].
      [Privacy.nothing_left_on]: while no connection owns privacy mode the
      screen is the customer's and the input free once the hooks' thread is gone; [granted_alone]: it has one owner
      at a time.
    - What reaches whom.  [Service.service_is_its_views]: under any interleaving
      a service is, for each connection, a three-state automaton;
      [Server.subscriptions_exact]; [TermBuffer.history_is_last_lines] and
      [Terminal.reconnect_replays_then_streams]: a terminal's history is the last
      lines of its output, and a reconnection shows the newest of it and what
      is in the channel;
      [VideoQos.controller_well_formed]; [Video.frames_in_order] and
      [recording_follows].
    - How the app connects.  [Handshake.key_only_for_the_register] and
      [handshake_agrees]: whose key is used, and that both ends agree;
      [Handler.password_order] and [options_agree]; [Connect.retry_granted_rarely];
      [Auth.records_follow_account]; [Mediator.restart_takes_effect] and
      [registers_regularly]; [Sync.beats_are_paced]: when a register reports to a
      panel.
    - What a session does at the technician's.  [Remote.microphone_by_request]:
      the microphone is open only for calls that were asked for, and closes with
      the call or the loop; [links_of_the_tables]: no link of a register's making
      is shown; [farewell_once] and [silence_ends]: how a connection ends;
      [Rounds.rounds_apart]: a connection that ends late does not speak for the
      one after it.
    - What files do.  [Transfer.write_orders_are_for_new_files],
      [folder_removal_ends] and [unsafe_list_ends_download];
      [ClipFile.listing_is_read_back] and [serving_is_plain],
      [Fuse.tree_mirrors_table], [handles_are_open_files] and, from one machine's
      listing to a read on the other, [paste_reads_the_file];
      [Portable.pack_unpack]; [Upload.recording_arrives]: what is sent of a
      recording is the recording, but for what is rewritten behind its header; [Forward.tunnel_is_transparent]: a forwarded
      program talks to its service as if it were connected to it.
    - What does not hold.  [TermBuffer.append_can_hang] is a reachable input on
      which the trimming loop of the terminal never ends.  Other lemmas named
      after what they exhibit ([ClipFile.beyond_two_gib], [long_name_panics],
      [next_file_spoils], [Fuse.late_answer_taken] and the like) run the
      translated code on an input where it does not do what is meant.

    ** Fuel and bounds

    Loops of the program are structural recursions where they can be.
    [hash_loop] has one round more than the file has bytes, each successful
    read taking at least one ([hash_loop_spec]); [trim] in [TermBuffer] one
    round more than there are lines, and [trim_none] shows that a loop not done
    by then never ends, for any number of rounds; [split_str] one per
    character; [dec_go] one per binary digit; [nap_loop] one per slice;
    [clean_dir] recurses on the folder, with the depth limit of the code.
    [Portable]'s reader has one round more than the blob has bytes
    ([read_total]).  [Transfer.drain] has a turn per file and
    [folder_removal_ends] shows they are enough.  The collecting of files in
    [ClipFile] recurses on the depth of the folders; the searches by halves in
    [Fuse] on the length of the list.  Retries are the code's: ten warm
    connections, three attempts at a relay or a hole, three at a read of a
    pasted file.  Threads are given as their first [n] rounds, for every [n].
    Integers have the width and the wrap-around of the release profile.

    ** What stands for the outside

    Clocks, HTTP, processes, sessions, files and the operating system's answers
    are fields of an [env] per component or come with the step, so that two
    questions may be answered differently.  Code outside [src] is a class with
    the laws relied on and an instance for the witnesses: the protocol's
    messages, the sodium primitives, the stored peer configurations, the jobs of
    the [fs] library, [crossbeam]'s bounded queue, UTF-16, Brotli and MD5.

    ** What is not modelled

    The operating-system layers (platform, virtual displays and the system's
    clipboard), codecs and capture, the sockets, generated bridges, user interfaces, translations, the plugin
    framework and the third-party crates: they are calls to systems whose code is
    not in the repository and compute little of their own.  The migration from an
    older installation and the two-factor enrolment are chains of such calls.

    Left: privacy modes and keyboards other than those of Windows, and the
    accounts of the upstream panel ([hbbs_http/account.rs]). *)

From Stdlib Require Export ZArith Lia Bool.
From stdpp Require Export prelude gmap strings list option fin_maps.

#[export] Set Default Goal Selector "!".

(** ** Machine integers

    A [w]-bit unsigned integer is a [Z]; the release profile of the program
    ([src/Cargo.toml], no [overflow-checks]) wraps on overflow. *)
Module Int.
Definition wrap (w z : Z) : Z := Z.modulo z (2 ^ w).
Definition u32_max : Z := 2 ^ 32 - 1.
Definition u64_max : Z := 2 ^ 64 - 1.
Definition in_u (w z : Z) : Prop := (0 <= z < 2 ^ w)%Z.

(** Rust's [saturating_sub] on unsigned integers. *)
Definition saturating_sub (a b : Z) : Z := Z.max 0 (a - b).

(** Reinterpretation of the low [w] bits as a two's complement integer. *)
Definition to_signed (w z : Z) : Z :=
  let u := wrap w z in if (u <? 2 ^ (w - 1))%Z then u else (u - 2 ^ w)%Z.

Lemma wrap_small w z : in_u w z -> wrap w z = z.
Proof. intros H. unfold wrap. by apply Z.mod_small. Qed.

Lemma wrap_in w z : (0 <= w)%Z -> in_u w (wrap w z).
Proof. intros H. unfold wrap, in_u. apply Z.mod_pos_bound. lia. Qed.

Lemma to_signed_small w z : (0 < w)%Z -> (0 <= z < 2 ^ (w - 1))%Z -> to_signed w z = z.
Proof.
  intros Hw Hz. assert (2 ^ w = 2 * 2 ^ (w - 1))%Z as E by (rewrite <- Z.pow_succ_r by lia; f_equal; lia).
  unfold to_signed. rewrite wrap_small by (unfold in_u; lia). by rewrite (proj2 (Z.ltb_lt _ _)) by lia.
Qed.
End Int.

(** ** Fallible computations: Rust's [Result] *)
Inductive result (A E : Type) : Type :=
  | Ok (a : A)
  | Err (e : E).
Arguments Ok {A E} _.
Arguments Err {A E} _.

Definition is_ok {A E} (r : result A E) : bool :=
  match r with Ok _ => true | Err _ => false end.

(** Rust's [?]: the error of [m] is the error of the whole computation. *)
Declare Scope rust_scope.
Delimit Scope rust_scope with rust.
Notation "'let?' x ':=' m 'in' k" :=
  (match m with Ok x => k | Err e => Err e end)
  (at level 10, x name, m at level 100, k at level 200,
   format "'[v' 'let?'  x  ':='  m  'in' '/' k ']'") : rust_scope.
Open Scope rust_scope.

Definition result_to_option {A E} (r : result A E) : option A :=
  match r with Ok a => Some a | Err _ => None end.

(** ** Boolean goals

    [bool_prop] turns boolean comparisons of [Z] into propositions, the common
    first step before [lia]. *)
Ltac bool_prop :=
  repeat match goal with
  | H : context [(_ && _)%bool = true] |- _ => rewrite andb_true_iff in H
  | H : context [(_ && _)%bool = false] |- _ => rewrite andb_false_iff in H
  | H : context [(_ || _)%bool = true] |- _ => rewrite orb_true_iff in H
  | H : context [(_ || _)%bool = false] |- _ => rewrite orb_false_iff in H
  | H : context [negb _ = true] |- _ => rewrite negb_true_iff in H
  | H : context [negb _ = false] |- _ => rewrite negb_false_iff in H
  | H : (_ <? _)%Z = true |- _ => apply Z.ltb_lt in H
  | H : (_ <? _)%Z = false |- _ => apply Z.ltb_ge in H
  | H : (_ <=? _)%Z = true |- _ => apply Z.leb_le in H
  | H : (_ <=? _)%Z = false |- _ => apply Z.leb_gt in H
  | H : (_ >=? _)%Z = _ |- _ => rewrite Z.geb_leb in H
  | H : (_ >? _)%Z = _ |- _ => rewrite Z.gtb_ltb in H
  | H : (_ =? _)%Z = true |- _ => apply Z.eqb_eq in H
  | H : (_ =? _)%Z = false |- _ => apply Z.eqb_neq in H
  | |- (_ && _)%bool = true => apply andb_true_intro; split
  | |- (_ <? _)%Z = true => apply Z.ltb_lt
  | |- (_ <? _)%Z = false => apply Z.ltb_ge
  | |- (_ <=? _)%Z = true => apply Z.leb_le
  | |- (_ <=? _)%Z = false => apply Z.leb_gt
  | |- (_ =? _)%Z = true => apply Z.eqb_eq
  | |- (_ =? _)%Z = false => apply Z.eqb_neq
  end.

(** Case analysis on the innermost [match]/[if] scrutinee of the goal or of a
    hypothesis, remembering the equation. *)
Ltac case_inner t :=
  lazymatch t with
  | context [match ?x with _ => _ end] => case_inner x
  | _ => let E := fresh "Hc" in destruct t eqn:E
  end.
Ltac case_goal :=
  match goal with |- context [match ?x with _ => _ end] => case_inner x end.
Ltac case_hyp H :=
  match type of H with context [match ?x with _ => _ end] => case_inner x end.

(** ** Reachability *)
Section reach.
Context {S : Type} (step : S -> S -> Prop).

(** Every invariant of the start state that the steps preserve holds in all
    reachable states. *)
Lemma rtc_invariant (I : S -> Prop) s s' :
  (forall a b, I a -> step a b -> I b) -> rtc step s s' -> I s -> I s'.
Proof. intros Hstep. induction 1; eauto. Qed.
End reach.

(** ** Lists *)
Section lists.
Context {A : Type}.
Implicit Types l : list A.

Definition sum_with (f : A -> Z) l : Z := foldr (λ x s, (f x + s)%Z) 0%Z l.

Lemma sum_with_app f l k : sum_with f (l ++ k) = (sum_with f l + sum_with f k)%Z.
Proof. induction l as [|x l IH]; simpl; [lia | rewrite IH; lia]. Qed.

Lemma sum_with_nonneg f l : (forall x, (0 <= f x)%Z) -> (0 <= sum_with f l)%Z.
Proof. intros H. induction l as [|x l IH]; simpl; [lia | specialize (H x); lia]. Qed.

(** [retain] of Rust's [Vec] and [HashMap] keeps the elements on which the
    predicate answers [true]. *)
Definition retain (p : A -> bool) l : list A := List.filter p l.

Lemma retain_In p l x : In x (retain p l) <-> In x l /\ p x = true.
Proof. apply List.filter_In. Qed.

Lemma existsb_false p l : existsb p l = false <-> forall x, In x l -> p x = false.
Proof.
  induction l as [|x l IH]; simpl.
  - split; [intros _ y [] | done].
  - rewrite orb_false_iff, IH. split.
    + intros [H1 H2] y [<-|Hy]; auto.
    + intros H. split; auto.
Qed.
End lists.
