(* ===== verification/RustStr.v ===== *)
(** * Rust strings

    A [&str] is a [string] holding its UTF-8 bytes.  The operations below are
    the [core::str] methods the program uses.  [trim] removes the Unicode
    [White_Space] characters by their UTF-8 encodings, so it agrees with Rust
    on every valid UTF-8 string; splitting, prefixes and digit tests only look
    for ASCII characters, for which byte-wise and character-wise agree.

    The integer parsers follow [core::num]: an optional ['+'], then at least
    one digit, and an error on overflow. *)

From Stdlib Require Import Ascii.
From S2P Require Import Prelude.
#[local] Open Scope Z_scope.
#[global] Arguments String.append !_ _ / : simpl nomatch.

Definition byte_of (c : ascii) : Z := Z.of_N (N_of_ascii c).
Definition is_ascii_digit (c : ascii) : bool := (48 <=? byte_of c) && (byte_of c <=? 57).
Definition is_ascii_hexdigit (c : ascii) : bool :=
  is_ascii_digit c || ((65 <=? byte_of c) && (byte_of c <=? 70))
  || ((97 <=? byte_of c) && (byte_of c <=? 102)).

Fixpoint all_chars (p : ascii -> bool) (s : string) : bool :=
  match s with EmptyString => true | String c s => p c && all_chars p s end.
Fixpoint take_while (p : ascii -> bool) (s : string) : string :=
  match s with
  | EmptyString => EmptyString
  | String c s => if p c then String c (take_while p s) else EmptyString
  end.

Definition str_len (s : string) : Z := Z.of_nat (String.length s).
Definition is_empty (s : string) : bool := match s with EmptyString => true | _ => false end.

(** ** Trimming *)

(** The number of bytes of the white-space character a string starts with (0:
    none), by the UTF-8 encodings of U+0009..U+000D, U+0020, U+0085, U+00A0,
    U+1680, U+2000..U+200A, U+2028, U+2029, U+202F, U+205F and U+3000. *)
Definition ws3 (a b c : Z) : bool :=
  ((a =? 0xE1) && (b =? 0x9A) && (c =? 0x80))
  || ((a =? 0xE2) && (b =? 0x80)
      && (((0x80 <=? c) && (c <=? 0x8A)) || (c =? 0xA8) || (c =? 0xA9) || (c =? 0xAF)))
  || ((a =? 0xE2) && (b =? 0x81) && (c =? 0x9F))
  || ((a =? 0xE3) && (b =? 0x80) && (c =? 0x80)).
Definition ws2 (a b : Z) : bool := (a =? 0xC2) && ((b =? 0x85) || (b =? 0xA0)).
Definition ws1 (a : Z) : bool := ((9 <=? a) && (a <=? 13)) || (a =? 32).

Fixpoint trim_start (s : string) : string :=
  match s with
  | String a s1 =>
      if ws1 (byte_of a) then trim_start s1 else
      match s1 with
      | String b s2 =>
          if ws2 (byte_of a) (byte_of b) then trim_start s2 else
          match s2 with
          | String c s3 =>
              if ws3 (byte_of a) (byte_of b) (byte_of c) then trim_start s3 else s
          | EmptyString => s
          end
      | EmptyString => s
      end
  | EmptyString => s
  end.

(** The same from the end, on the reversed bytes. *)
Fixpoint trim_start_rev (s : string) : string :=
  match s with
  | String a s1 =>
      if ws1 (byte_of a) then trim_start_rev s1 else
      match s1 with
      | String b s2 =>
          if ws2 (byte_of b) (byte_of a) then trim_start_rev s2 else
          match s2 with
          | String c s3 =>
              if ws3 (byte_of c) (byte_of b) (byte_of a) then trim_start_rev s3 else s
          | EmptyString => s
          end
      | EmptyString => s
      end
  | EmptyString => s
  end.
Definition trim_end (s : string) : string := String.rev (trim_start_rev (String.rev s)).
Definition trim (s : string) : string := trim_end (trim_start s).

(** ** Splitting *)

(** [s.split(c)]: always at least one piece. *)
Fixpoint split (c : ascii) (s : string) : list string :=
  match s with
  | EmptyString => [EmptyString]
  | String a s =>
      if Ascii.eqb a c then EmptyString :: split c s
      else match split c s with
           | p :: ps => String a p :: ps
           | [] => [String a EmptyString]
           end
  end.

(** [s.split_once(c)] *)
Fixpoint split_once (c : ascii) (s : string) : option (string * string) :=
  match s with
  | EmptyString => None
  | String a s =>
      if Ascii.eqb a c then Some (EmptyString, s)
      else match split_once c s with
           | Some (l, r) => Some (String a l, r)
           | None => None
           end
  end.

(** [s.splitn(n, c)] for [n > 0]: at most [n] pieces, the last one unsplit. *)
Fixpoint splitn (n : nat) (c : ascii) (s : string) : list string :=
  match n with
  | O => []
  | S O => [s]
  | S n => match split_once c s with
           | Some (l, r) => l :: splitn n c r
           | None => [s]
           end
  end.

(** [s.rsplit(c).next()]: the piece after the last separator. *)
Definition rsplit_first (c : ascii) (s : string) : string := List.last (split c s) EmptyString.

(** [s.lines()]: split at ["\n"], a trailing empty line left out, and a ["\r"]
    at the end of a line removed. *)
Definition newline : ascii := ascii_of_N 10.
Definition strip_cr (s : string) : string :=
  match String.rev s with
  | String a r => if byte_of a =? 13 then String.rev r else s
  | EmptyString => s
  end.
Fixpoint drop_last_empty (l : list string) : list string :=
  match l with
  | [] => []
  | [EmptyString] => []
  | x :: l => x :: drop_last_empty l
  end.
Definition lines (s : string) : list string := map strip_cr (drop_last_empty (split newline s)).

(** [s.split_whitespace()], [cur] being the word read so far. *)
Definition flush_word (cur : string) (ws : list string) : list string :=
  if is_empty cur then ws else cur :: ws.
Fixpoint split_ws_go (s cur : string) : list string :=
  match s with
  | EmptyString => flush_word cur []
  | String a s1 =>
      let other := split_ws_go s1 (cur +:+ String a EmptyString) in
      if ws1 (byte_of a) then flush_word cur (split_ws_go s1 EmptyString) else
      match s1 with
      | String b s2 =>
          if ws2 (byte_of a) (byte_of b) then flush_word cur (split_ws_go s2 EmptyString) else
          match s2 with
          | String c s3 =>
              if ws3 (byte_of a) (byte_of b) (byte_of c)
              then flush_word cur (split_ws_go s3 EmptyString) else other
          | EmptyString => other
          end
      | EmptyString => other
      end
  end.
Definition split_whitespace (s : string) : list string := split_ws_go s EmptyString.

(** [trim_start_matches(c)], [trim_end_matches(c)] and [trim_matches(c)]. *)
Fixpoint trim_start_char (c : ascii) (s : string) : string :=
  match s with
  | String a r => if Ascii.eqb a c then trim_start_char c r else s
  | EmptyString => s
  end.
Definition trim_end_char (c : ascii) (s : string) : string :=
  String.rev (trim_start_char c (String.rev s)).
Definition trim_char (c : ascii) (s : string) : string := trim_end_char c (trim_start_char c s).

(** ** Prefixes and search *)
Fixpoint strip_prefix (p s : string) : option string :=
  match p, s with
  | EmptyString, _ => Some s
  | String a p, String b s => if Ascii.eqb a b then strip_prefix p s else None
  | _, EmptyString => None
  end.
Definition starts_with (p s : string) : bool :=
  match strip_prefix p s with Some _ => true | None => false end.
Definition ends_with (p s : string) : bool := starts_with (String.rev p) (String.rev s).

(** [s.find(p)], as the text before the first match and the text from it on. *)
Fixpoint find_split (p s : string) : option (string * string) :=
  if starts_with p s then Some (EmptyString, s)
  else match s with
       | EmptyString => None
       | String a s' =>
           match find_split p s' with
           | Some (l, r) => Some (String a l, r)
           | None => None
           end
       end.
Definition contains (p s : string) : bool :=
  match find_split p s with Some _ => true | None => false end.

(** [s.split(p)] for a non-empty pattern; the length of [s] bounds the number
    of matches. *)
Fixpoint split_str_go (fuel : nat) (p s : string) : list string :=
  match fuel with
  | O => [s]
  | S fuel =>
      match find_split p s with
      | Some (l, r) => match strip_prefix p r with
                       | Some r => l :: split_str_go fuel p r
                       | None => [s]
                       end
      | None => [s]
      end
  end.
Definition split_str (p s : string) : list string := split_str_go (String.length s) p s.

(** [to_ascii_lowercase] *)
Definition lower_char (c : ascii) : ascii :=
  if (65 <=? byte_of c) && (byte_of c <=? 90)
  then ascii_of_N (Z.to_N (byte_of c + 32)) else c.
Fixpoint to_ascii_lowercase (s : string) : string :=
  match s with
  | EmptyString => EmptyString
  | String c s => String (lower_char c) (to_ascii_lowercase s)
  end.
Definition eq_ignore_ascii_case (a b : string) : bool :=
  String.eqb (to_ascii_lowercase a) (to_ascii_lowercase b).

(** ** Numbers *)
Definition digit_val (c : ascii) : Z := byte_of c - 48.

(** The digits left to right; [None] on a character that is not a digit or when
    the value exceeds [max]. *)
Fixpoint parse_digits (max acc : Z) (s : string) : option Z :=
  match s with
  | EmptyString => Some acc
  | String c s =>
      if is_ascii_digit c then
        let acc' := acc * 10 + digit_val c in
        if acc' <=? max then parse_digits max acc' s else None
      else None
  end.
Definition parse_uint (max : Z) (s : string) : option Z :=
  match s with
  | EmptyString => None
  | String c r =>
      if Ascii.eqb c "+"%char then
        match r with EmptyString => None | _ => parse_digits max 0 r end
      else parse_digits max 0 s
  end.
Definition parse_u16 : string -> option Z := parse_uint (2 ^ 16 - 1).
Definition parse_u32 : string -> option Z := parse_uint Int.u32_max.
Definition parse_u64 : string -> option Z := parse_uint Int.u64_max.

(** [to_string] of an unsigned integer: decimal, no leading zero.  The fuel is
    the number of binary digits, at least the number of decimal ones. *)
Definition digit_char (d : Z) : ascii := ascii_of_N (Z.to_N (48 + d)).
Fixpoint dec_go (fuel : nat) (n : Z) (acc : string) : string :=
  match fuel with
  | O => acc
  | S f =>
      let acc := String (digit_char (n mod 10)) acc in
      if n / 10 =? 0 then acc else dec_go f (n / 10) acc
  end.
Definition to_string (n : Z) : string := dec_go (S (Z.to_nat (Z.log2 n))) n EmptyString.

(** ** Lemmas *)

Lemma string_app_assoc (a b c : string) : (a +:+ b) +:+ c = a +:+ (b +:+ c).
Proof. induction a as [|x a IH]; simpl; [done | by f_equal]. Qed.

Lemma all_chars_app p a b : all_chars p (a +:+ b) = all_chars p a && all_chars p b.
Proof. induction a as [|x a IH]; simpl; [done | by rewrite IH, andb_assoc]. Qed.

Lemma all_chars_impl (p q : ascii -> bool) s :
  (forall c, p c = true -> q c = true) -> all_chars p s = true -> all_chars q s = true.
Proof.
  intros Hpq. induction s as [|c s IH]; simpl; [done|].
  rewrite !andb_true_iff. intros [H1 H2]. split; [by apply Hpq | by apply IH].
Qed.

Definition no_char (c : ascii) (s : string) : bool := all_chars (λ a, negb (Ascii.eqb a c)) s.

(** *** Splitting at a separator *)
Lemma split_once_app c l r :
  no_char c l = true -> split_once c (l +:+ String c r) = Some (l, r).
Proof.
  unfold no_char. induction l as [|a l IH]; simpl.
  - by rewrite Ascii.eqb_refl.
  - rewrite andb_true_iff, negb_true_iff. intros [-> H]. by rewrite (IH H).
Qed.

Lemma split_once_None c s : no_char c s = true -> split_once c s = None.
Proof.
  unfold no_char. induction s as [|a s IH]; simpl; [done|].
  rewrite andb_true_iff, negb_true_iff. intros [-> H]. by rewrite (IH H).
Qed.

Lemma split_once_no_char c s l r : split_once c s = Some (l, r) ->
  s = l +:+ String c r /\ no_char c l = true.
Proof.
  unfold no_char. revert l r. induction s as [|a s IH]; intros l r; simpl; [done|].
  destruct (Ascii.eqb a c) eqn:Ea.
  - intros [= <- <-]. apply Ascii.eqb_eq in Ea as ->. done.
  - destruct (split_once c s) as [[l' r']|]; [|done]. intros [= <- <-].
    destruct (IH l' r' eq_refl) as [-> Hl]. simpl. rewrite Ea. done.
Qed.

(** Three fields joined by a separator come back, whatever the last one is. *)
Lemma splitn3_join c x y z :
  no_char c x = true -> no_char c y = true ->
  splitn 3 c (x +:+ String c (y +:+ String c z)) = [x; y; z].
Proof. intros Hx Hy. simpl. by rewrite split_once_app, split_once_app. Qed.

(** *** Decimal numbers *)
Lemma byte_of_ascii z : 0 <= z < 256 -> byte_of (ascii_of_N (Z.to_N z)) = z.
Proof. intros H. unfold byte_of. rewrite N_ascii_embedding; lia. Qed.

Lemma byte_of_range c : 0 <= byte_of c < 256.
Proof. unfold byte_of. pose proof (N_ascii_bounded c). lia. Qed.

Lemma digit_char_spec d : 0 <= d < 10 ->
  is_ascii_digit (digit_char d) = true /\ digit_val (digit_char d) = d.
Proof.
  intros H. unfold is_ascii_digit, digit_val, digit_char.
  rewrite byte_of_ascii by lia. split; [bool_prop|]; lia.
Qed.

Lemma dec_go_digits f n s : 0 <= n ->
  all_chars is_ascii_digit s = true -> all_chars is_ascii_digit (dec_go f n s) = true.
Proof.
  revert n s. induction f as [|f IH]; intros n s Hn Hs; simpl; [done|].
  assert (Hd : all_chars is_ascii_digit (String (digit_char (n mod 10)) s) = true).
  { simpl. rewrite Hs. destruct (digit_char_spec (n mod 10)) as [-> _]; [|done].
    apply Z.mod_pos_bound. lia. }
  destruct (n / 10 =? 0); [done|]. apply IH; [|done]. apply Z.div_pos; lia.
Qed.

Lemma dec_go_nonempty f n s : (0 < f)%nat \/ s <> EmptyString -> dec_go f n s <> EmptyString.
Proof.
  revert n s. induction f as [|f IH]; intros n s H; simpl.
  - destruct H as [H|H]; [lia | done].
  - destruct (n / 10 =? 0); [done|]. apply IH. by right.
Qed.

Lemma parse_digits_dec_go max f n s :
  0 <= n <= max -> n < 10 ^ Z.of_nat f -> (0 < f)%nat ->
  parse_digits max 0 (dec_go f n s) = parse_digits max n s.
Proof.
  revert n s. induction f as [|f IH]; intros n s Hn Hf Hpos; [lia|]. simpl.
  assert (Hm : 0 <= n mod 10 < 10) by (apply Z.mod_pos_bound; lia).
  destruct (digit_char_spec _ Hm) as [Hd Hv].
  pose proof (Z.div_mod n 10 ltac:(lia)) as Hdm.
  destruct (n / 10 =? 0) eqn:E.
  - bool_prop. cbn [parse_digits]. rewrite Hd, Hv.
    replace (0 * 10 + n mod 10) with n by lia.
    by replace (n <=? max) with true by (symmetry; bool_prop; lia).
  - bool_prop. rewrite Nat2Z.inj_succ, Z.pow_succ_r in Hf by lia.
    assert (0 <= n / 10) by (apply Z.div_pos; lia).
    assert (n / 10 < 10 ^ Z.of_nat f) by (apply Z.div_lt_upper_bound; lia).
    rewrite IH; [|lia|lia|]; cycle 1.
    { destruct f; [|lia]. simpl in *. lia. }
    cbn [parse_digits]. rewrite Hd, Hv. replace (n / 10 * 10 + n mod 10) with n by lia.
    by replace (n <=? max) with true by (symmetry; bool_prop; lia).
Qed.

Lemma to_string_digits n : 0 <= n -> all_chars is_ascii_digit (to_string n) = true.
Proof. intros H. by apply dec_go_digits. Qed.

Lemma to_string_nonempty n : to_string n <> EmptyString.
Proof. apply dec_go_nonempty. lia. Qed.

Lemma digit_not c d : is_ascii_digit d = false -> is_ascii_digit c = true ->
  negb (Ascii.eqb c d) = true.
Proof.
  intros Hd Hc. apply negb_true_iff, Ascii.eqb_neq. intros ->. congruence.
Qed.

Lemma to_string_no_char n c : 0 <= n -> is_ascii_digit c = false ->
  no_char c (to_string n) = true.
Proof.
  intros Hn Hc. unfold no_char. eapply all_chars_impl; [|by apply to_string_digits].
  intros d Hd. by apply digit_not.
Qed.

Lemma parse_uint_digits max s :
  all_chars is_ascii_digit s = true -> s <> EmptyString ->
  parse_uint max s = parse_digits max 0 s.
Proof.
  destruct s as [|c s]; [done|]. intros Hd _. simpl in Hd.
  apply andb_true_iff in Hd as [Hc _]. unfold parse_uint.
  assert (H : negb (Ascii.eqb c "+"%char) = true) by (by apply digit_not).
  apply negb_true_iff in H. by rewrite H.
Qed.

(** Printing an unsigned integer and parsing it back is the identity. *)
Lemma parse_to_string max n : 0 <= n <= max -> parse_uint max (to_string n) = Some n.
Proof.
  intros H. rewrite parse_uint_digits;
    [|apply to_string_digits; lia|apply to_string_nonempty].
  unfold to_string. rewrite parse_digits_dec_go; [done|lia| |lia].
  rewrite Nat2Z.inj_succ, Z2Nat.id by apply Z.log2_nonneg.
  destruct (Z.eq_dec n 0) as [->|Hn]; [done|].
  apply Z.lt_le_trans with (2 ^ Z.succ (Z.log2 n)); [apply Z.log2_spec; lia|].
  apply Z.pow_le_mono_l. lia.
Qed.

Lemma parse_digits_bound max acc s n :
  0 <= acc <= max -> parse_digits max acc s = Some n -> 0 <= n <= max.
Proof.
  revert acc. induction s as [|c s IH]; intros acc Ha; cbn [parse_digits].
  - intros [= <-]. done.
  - destruct (is_ascii_digit c) eqn:Ed; [|done].
    destruct (_ <=? max) eqn:E; [|done]. apply IH.
    unfold is_ascii_digit, digit_val in *. bool_prop. lia.
Qed.

(** A parsed integer fits its type. *)
Lemma parse_uint_bound max s n : 0 <= max -> parse_uint max s = Some n -> 0 <= n <= max.
Proof.
  intros Hm. destruct s as [|c s]; [done|]. unfold parse_uint.
  destruct (Ascii.eqb c "+"%char).
  - destruct s; [done|]. apply parse_digits_bound. lia.
  - apply parse_digits_bound. lia.
Qed.

(** *** Trimming leaves strings with printable ASCII ends alone *)
Definition plain_char (c : ascii) : bool := (33 <=? byte_of c) && (byte_of c <=? 127).

Lemma plain_not_ws c : plain_char c = true ->
  ws1 (byte_of c) = false /\ (forall b, ws2 (byte_of c) b = false) /\
  (forall b, ws2 b (byte_of c) = false) /\
  (forall a b, ws3 (byte_of c) a b = false) /\ (forall a b, ws3 a b (byte_of c) = false).
Proof.
  unfold plain_char. intros H. bool_prop.
  unfold ws1, ws2, ws3. repeat split; intros; lia.
Qed.

Lemma trim_start_plain c s : plain_char c = true -> trim_start (String c s) = String c s.
Proof.
  intros H. destruct (plain_not_ws c H) as (H1 & H2 & _ & H3 & _). simpl. rewrite H1.
  destruct s as [|b s]; [done|]. rewrite H2. destruct s as [|d s]; [done|]. by rewrite H3.
Qed.

Lemma trim_start_rev_plain c s :
  plain_char c = true -> trim_start_rev (String c s) = String c s.
Proof.
  intros H. destruct (plain_not_ws c H) as (H1 & _ & H2 & _ & H3). simpl. rewrite H1.
  destruct s as [|b s]; [done|]. rewrite H2. destruct s as [|d s]; [done|]. by rewrite H3.
Qed.

Lemma rev_app_spec a b : String.rev_app a b = String.rev a +:+ b.
Proof.
  unfold String.rev. revert b. induction a as [|x a IH]; intros b; simpl; [done|].
  rewrite IH, (IH (String x "")), string_app_assoc. done.
Qed.

Lemma rev_snoc a c : String.rev (a +:+ String c "") = String c (String.rev a).
Proof.
  unfold String.rev at 1. revert c.
  assert (H : forall a b c, String.rev_app (a +:+ String c "") b
    = String c (String.rev_app a b)).
  { clear a. intros a. induction a as [|x a IH]; intros b c; simpl; [done|]. by rewrite IH. }
  intros c. by rewrite H.
Qed.

Lemma rev_cons c a : String.rev (String c a) = String.rev a +:+ String c "".
Proof. unfold String.rev at 1. simpl. by rewrite rev_app_spec. Qed.

Lemma rev_involutive s : String.rev (String.rev s) = s.
Proof. induction s as [|c s IH]; [done|]. rewrite rev_cons, rev_snoc. by rewrite IH. Qed.

Lemma trim_plain c m d : plain_char c = true -> plain_char d = true ->
  trim (String c (m +:+ String d "")) = String c (m +:+ String d "").
Proof.
  intros Hc Hd. unfold trim. rewrite trim_start_plain by done. unfold trim_end.
  change (String c (m +:+ String d "")) with (String c m +:+ String d "").
  rewrite rev_snoc, trim_start_rev_plain by done.
  rewrite rev_cons, rev_involutive. done.
Qed.

Lemma string_last s : s <> EmptyString -> exists m c, s = m +:+ String c "".
Proof.
  induction s as [|c s IH]; [done|]. intros _. destruct s as [|d s].
  - by exists EmptyString, c.
  - destruct IH as (m & e & ->); [done|]. by exists (String c m), e.
Qed.

Lemma digit_plain c : is_ascii_digit c = true -> plain_char c = true.
Proof. unfold is_ascii_digit, plain_char. intros H. bool_prop; lia. Qed.

(** *** Prefixes *)
Lemma strip_prefix_app p s : strip_prefix p (p +:+ s) = Some s.
Proof. induction p as [|c p IH]; simpl; [done|]. by rewrite Ascii.eqb_refl. Qed.

Lemma strip_prefix_Some p s r : strip_prefix p s = Some r -> s = p +:+ r.
Proof.
  revert s. induction p as [|c p IH]; intros s; simpl.
  - intros [= ->]. done.
  - destruct s as [|d s]; [done|]. destruct (Ascii.eqb c d) eqn:E; [|done].
    apply Ascii.eqb_eq in E as ->. intros H. simpl. f_equal. auto.
Qed.

Lemma str_app_inj_l p a b : p +:+ a = p +:+ b -> a = b.
Proof. induction p as [|c p IH]; simpl; [done|]. intros [= H]. auto. Qed.

Create Rewrite HintDb rust_str.
Create HintDb rust_str.
#[export] Hint Rewrite string_app_assoc all_chars_app : rust_str.
#[export] Hint Resolve to_string_digits to_string_nonempty digit_plain : rust_str.

Example parse_u32_ex : map parse_u32 ["0"; "+7"; "4294967295"; "4294967296"; ""; "+"; "-1"; "1x"]
  = [Some 0; Some 7; Some 4294967295; None; None; None; None; None].
Proof. vm_compute. reflexivity. Qed.

Example trim_ex : (trim "  1.3.7 ", split "."%char "1..5", splitn 3 "|"%char "a|b|c|d")
  = ("1.3.7", ["1"; ""; "5"], ["a"; "b"; "c|d"]).
Proof. vm_compute. reflexivity. Qed.

Example lines_ex :
  let crlf := String (ascii_of_N 13) (String newline EmptyString) in
  (lines ("a b" +:+ crlf +:+ "c" +:+ crlf), lines EmptyString, split_whitespace "  TCP   [::]:27015 x ")
  = (["a b"; "c"], [], ["TCP"; "[::]:27015"; "x"]).
Proof. vm_compute. reflexivity. Qed.

Example split_str_ex : (split_str "<>" "a<>b<<>", rsplit_first ":"%char "[::]:27015")
  = (["a"; "b<"; ""], "27015").
Proof. vm_compute. reflexivity. Qed.
