(* ===== verification/Store.v ===== *)
(** * Interfaces to the code outside the repository

    [LocalConfig] of the [hbb_common] submodule is a string store: an option
    that was never set, or was set to the empty string, reads back as the empty
    string.  The components use it through this interface; [gmap_config] is an
    implementation, used by the witnesses.

    [Sha256] is the incremental hasher of the [sha2] crate, its digest as bytes
    and through the [hex] encoder: hashing a file in pieces is hashing its contents. *)

From Stdlib Require Import Strings.Byte.
From S2P Require Import Prelude RustStr.

Class LocalConfig (C : Type) := {
  get_option : string -> C -> string;
  set_option : string -> string -> C -> C;
  get_set_eq k v c : get_option k (set_option k v c) = v;
  get_set_ne k k' v c : k <> k' -> get_option k' (set_option k v c) = get_option k' c;
}.

Definition gmap_get (k : string) (m : gmap string string) : string := default "" (m !! k).

#[export] Instance gmap_config : LocalConfig (gmap string string).
Proof.
  refine {| get_option := gmap_get; set_option := λ k v m, <[k := v]> m |}; unfold gmap_get.
  - intros k v m. by rewrite lookup_insert_eq.
  - intros k k' v m H. by rewrite lookup_insert_ne.
Defined.

Class Sha256 := {
  sha_state : Type;
  sha_new : sha_state;
  sha_update : sha_state -> list byte -> sha_state;
  sha_hex : sha_state -> string;
  sha_bytes : sha_state -> list byte;
  sha_update_nil s : sha_update s [] = s;
  sha_update_app s a b : sha_update (sha_update s a) b = sha_update s (a ++ b);
}.

(** The digest of a whole file, in hexadecimal. *)
Definition sha256_hex `{Sha256} (data : list byte) : string := sha_hex (sha_update sha_new data).

(** A stand-in hasher for the witnesses: 62 zeros and the length's last two
    hexadecimal digits. *)
Definition toy_hex_digit (n : nat) : Ascii.ascii :=
  Ascii.ascii_of_nat (if Nat.ltb n 10 then 48 + n else 87 + n).
Definition toy_hex (n : nat) : string :=
  (fix go k := match k with O => EmptyString | S k => String (toy_hex_digit 0) (go k) end) 62
  +:+ String (toy_hex_digit (Nat.modulo (Nat.div n 16) 16))
        (String (toy_hex_digit (Nat.modulo n 16)) EmptyString).
#[export] Instance toy_sha : Sha256.
Proof.
  refine {| sha_state := list byte; sha_new := []; sha_update := app;
            sha_hex := λ d, toy_hex (length d); sha_bytes := λ d, d |}.
  - intros s. apply app_nil_r.
  - intros s a b. by rewrite app_assoc.
Defined.

Section store_lemmas.
Context {C : Type} `{!LocalConfig C}.

(** The value an option holds after a sequence of writes. *)
Definition set_all (kvs : list (string * string)) (c : C) : C :=
  foldl (λ c kv, set_option kv.1 kv.2 c) c kvs.

Lemma get_set k k' v c :
  get_option k' (set_option k v c) = if decide (k = k') then v else get_option k' c.
Proof. case_decide as E; [subst; apply get_set_eq | by apply get_set_ne]. Qed.
End store_lemmas.

Create Rewrite HintDb store.
#[export] Hint Rewrite @get_set_eq : store.

(** Reading an option through a chain of writes to literal keys. *)
Ltac store_simpl :=
  repeat first
    [ rewrite get_set_eq
    | rewrite get_set_ne by (first [done | discriminate | congruence]) ].
