(* ===== verification/Sched.v ===== *)
(** * The scheduled-access window ([src/src/chainremote_sched.rs]) and the
      restart grace ([src/src/server/connection.rs])

    Two markers on disk can let a technician in without a click on the
    customer's side: the window a customer granted and, after a remote restart,
    the grace of the technician who restarted the machine.  Both live in a file
    outside the program's configuration, so the state here is the content of
    that file.  Times are seconds; every operation takes the clock it reads and
    what the file system does to it. *)

From Stdlib Require Import Ascii.
From S2P Require Import Prelude RustStr.
#[local] Open Scope Z_scope.

Module Sched.
(** [i64] arithmetic of the release build. *)
Definition i64 (z : Z) : Z := Int.to_signed 64 z.

Definition MAX_WINDOW_SECS : Z := 24 * 60 * 60.
Definition IDLE_CLOSE_SECS : Z := 15 * 60.

Record SchedWindow := mkWindow {
  start : Z;
  end_ : Z;
  granted_at : Z;
  label : string;
  last_session_end : option Z;
  in_session : bool;
}.

(** The content of the marker file: [None] when it is absent or does not parse. *)
Abbreviation store := (option SchedWindow).

(** What the file system does to one operation.  None of them reports an error:
    [write] swallows a failure of the directory, of the serialisation and of
    [fs::write], which truncates the file before it writes (so that an attempt
    can also leave a file that does not parse), and [clear] one of [remove_file]. *)
Inductive outcome : Type := Done | Failed | Torn.
Record disk := mkDisk { reads : bool; writes : outcome; removes : bool }.
Definition fine : disk := mkDisk true Done true.

Definition read (d : disk) (s : store) : option SchedWindow := if reads d then s else None.
Definition write (d : disk) (w : SchedWindow) (s : store) : store :=
  match writes d with Done => Some w | Failed => s | Torn => None end.
Definition clear (d : disk) (s : store) : store := if removes d then None else s.

(** [grant]: the window it writes (the log line it returns is left out). *)
Definition granted_window (now st en hq_now : Z) (lbl : string) : SchedWindow :=
  let local_now := now in
  let skew := i64 (hq_now - local_now) in
  let w := mkWindow (i64 (st - skew)) (i64 (en - skew)) local_now lbl None false in
  let cap := i64 (local_now + MAX_WINDOW_SECS) in
  let w := if end_ w >? cap
           then mkWindow (start w) cap (granted_at w) (label w) (last_session_end w) (in_session w)
           else w in
  if start w <? local_now
  then mkWindow local_now (end_ w) (granted_at w) (label w) (last_session_end w) (in_session w)
  else w.
Definition grant (d : disk) (now st en hq_now : Z) (lbl : string) (s : store) : store :=
  write d (granted_window now st en hq_now lbl) s.

Definition is_open (d : disk) (t : Z) (s : store) : bool * store :=
  match read d s with
  | None => (false, s)
  | Some w =>
      if (t <? start w) || (t >=? end_ w) then
        (false, if t >=? end_ w then clear d s else s)
      else if i64 (t - granted_at w) >=? MAX_WINDOW_SECS then (false, clear d s)
      else if negb (in_session w) then
        match last_session_end w with
        | Some last => if i64 (t - last) >=? IDLE_CLOSE_SECS then (false, clear d s) else (true, s)
        | None => (true, s)
        end
      else (true, s)
  end.

Definition status (d : disk) (t : Z) (s : store) : option SchedWindow * store :=
  match read d s with
  | None => (None, s)
  | Some w =>
      if t >=? end_ w then (None, clear d s)
      else if i64 (t - granted_at w) >=? MAX_WINDOW_SECS then (None, clear d s)
      else (Some w, s)
  end.

(** The clock is read again after [status]. *)
Definition is_active_now (d : disk) (t t' : Z) (s : store) : bool * store :=
  let '(o, s) := status d t s in
  (match o with Some w => t' >=? start w | None => false end, s).

(** The two session notes read the file, change the window and write it back. *)
Inductive note : Type := Started | Ended (t : Z).
Definition noted (n : note) (w : SchedWindow) : SchedWindow :=
  match n with
  | Started => mkWindow (start w) (end_ w) (granted_at w) (label w) (last_session_end w) true
  | Ended t => mkWindow (start w) (end_ w) (granted_at w) (label w) (Some t) false
  end.
Definition note_session_start (d : disk) (s : store) : store :=
  match read d s with Some w => write d (noted Started w) s | None => s end.
Definition note_session_end (d : disk) (t : Z) (s : store) : store :=
  match read d s with Some w => write d (noted (Ended t) w) s | None => s end.

(** The marker's operations as steps.  The service, the window process and the
    tray share the file and nothing locks it, so the two halves of a session
    note are steps of their own: [ORead] takes the window a note has read,
    [OWrite i n] writes the [i]-th window taken back with its note, whatever
    happened to the file in between. *)
Inductive op : Type :=
  | OGrant (d : disk) (now st en hq_now : Z) (lbl : string)
  | OIsOpen (d : disk) (t : Z)
  | OStatus (d : disk) (t : Z)
  | ORead (d : disk)
  | OWrite (d : disk) (i : nat) (n : note)
  | OClear (d : disk).

Record marker := mkMarker { file : store; held : list SchedWindow }.
Definition exec (o : op) (m : marker) : marker :=
  let s := file m in
  match o with
  | OGrant d now st en hq_now lbl => mkMarker (grant d now st en hq_now lbl s) (held m)
  | OIsOpen d t => mkMarker (is_open d t s).2 (held m)
  | OStatus d t => mkMarker (status d t s).2 (held m)
  | ORead d => mkMarker s (held m ++ option_list (read d s))
  | OWrite d i n =>
      match held m !! i with
      | Some w => mkMarker (write d (noted n w) s) (held m)
      | None => m
      end
  | OClear d => mkMarker (clear d s) (held m)
  end.
(** From an absent file. *)
Definition after (ops : list op) : marker := foldl (λ m o, exec o m) (mkMarker None []) ops.

(** A note nothing comes between is its two steps. *)
Lemma note_start_steps d m : held m = [] -> note_session_start d (file m)
  = file (exec (OWrite d 0 Started) (exec (ORead d) m)).
Proof. intros H. simpl. rewrite H. unfold note_session_start. by destruct (read d (file m)). Qed.
Lemma note_end_steps d t m : held m = [] -> note_session_end d t (file m)
  = file (exec (OWrite d 0 (Ended t)) (exec (ORead d) m)).
Proof. intros H. simpl. rewrite H. unfold note_session_end. by destruct (read d (file m)). Qed.

(** A clock value of the program: [d.as_secs() as i64]. *)
Definition clock (t : Z) : Prop := 0 <= t < 2 ^ 62.
Definition op_clock (o : op) : Prop :=
  match o with
  | OGrant _ t _ _ _ _ | OIsOpen _ t | OStatus _ t | OWrite _ _ (Ended t) => clock t
  | OWrite _ _ Started | ORead _ | OClear _ => True
  end.

(** What the code promises of a stored window: it lies inside the 24 hours
    after the grant. *)
Definition wf (w : SchedWindow) : Prop :=
  clock (granted_at w) /\ granted_at w <= start w
  /\ end_ w <= granted_at w + MAX_WINDOW_SECS
  /\ match last_session_end w with Some l => clock l | None => True end.
Definition wf_store (s : store) : Prop := match s with Some w => wf w | None => True end.
Definition wf_marker (m : marker) : Prop := wf_store (file m) /\ Forall wf (held m).

(** The specification of [is_open]: one predicate, no state. *)
Definition open_spec (t : Z) (s : store) : bool :=
  match s with
  | Some w =>
      (start w <=? t) && (t <? end_ w)
      && (in_session w || match last_session_end w with
                          | Some l => t - l <? IDLE_CLOSE_SECS
                          | None => true
                          end)
  | None => false
  end.

Lemma i64_small z : - 2 ^ 63 <= z < 2 ^ 63 -> i64 z = z.
Proof.
  intros H. unfold i64, Int.to_signed, Int.wrap.
  change (2 ^ (64 - 1)) with (2 ^ 63).
  destruct (Z.neg_nonneg_cases z).
  - rewrite (Z.mod_eq z (2 ^ 64)) by lia.
    replace (z / 2 ^ 64) with (-1).
    + destruct (Z.ltb_spec (z - 2 ^ 64 * -1) (2 ^ 63)); lia.
    + apply Z.div_unique with (z + 2 ^ 64); lia.
  - rewrite Z.mod_small by lia. destruct (Z.ltb_spec z (2 ^ 63)); lia.
Qed.

Lemma i64_clock_diff a b : clock a -> clock b -> i64 (a - b) = a - b.
Proof. unfold clock. intros. apply i64_small. lia. Qed.

Lemma i64_cap t : clock t -> i64 (t + MAX_WINDOW_SECS) = t + MAX_WINDOW_SECS.
Proof. unfold clock, MAX_WINDOW_SECS. intros. apply i64_small. lia. Qed.

Lemma granted_wf now st en hq lbl : clock now -> wf (granted_window now st en hq lbl).
Proof.
  intros Hc. unfold granted_window. rewrite i64_cap by done.
  set (a := i64 (st - _)). set (b := i64 (en - _)). simpl.
  destruct (b >? _) eqn:E1; simpl; destruct (a <? now) eqn:E2; simpl;
    repeat split; bool_prop; simpl; unfold clock in *; try lia; done.
Qed.
Lemma granted_at_now now st en hq lbl :
  granted_at (granted_window now st en hq lbl) = now /\ label (granted_window now st en hq lbl) = lbl.
Proof. unfold granted_window. simpl. by repeat case_goal. Qed.

Lemma write_wf d w s : wf w -> wf_store s -> wf_store (write d w s).
Proof. intros. unfold write. by destruct (writes d). Qed.
Lemma clear_wf d s : wf_store s -> wf_store (clear d s).
Proof. unfold clear. by destruct (removes d). Qed.
Lemma grant_wf d now st en hq lbl s : clock now -> wf_store s -> wf_store (grant d now st en hq lbl s).
Proof. intros. apply write_wf; [by apply granted_wf | done]. Qed.

(** Looking at the file leaves it or removes it. *)
Lemma is_open_file d t s : (is_open d t s).2 = s \/ (is_open d t s).2 = None.
Proof. unfold is_open, clear. repeat case_goal; auto. Qed.
Lemma status_file d t s : (status d t s).2 = s \/ (status d t s).2 = None.
Proof. unfold status, clear. repeat case_goal; auto. Qed.

Lemma exec_wf o m : op_clock o -> wf_marker m -> wf_marker (exec o m).
Proof.
  intros Ho [Hs Hh]. destruct o; simpl in *.
  - split; [by apply grant_wf | done].
  - split; [|done]. simpl. by destruct (is_open_file d t (file m)) as [-> | ->].
  - split; [|done]. simpl. by destruct (status_file d t (file m)) as [-> | ->].
  - split; [done|]. simpl. apply Forall_app. split; [done|]. unfold read.
    destruct (reads d), (file m); simpl; auto using Forall_nil, Forall_singleton, Forall_cons_2.
  - destruct (held m !! i) as [w|] eqn:E; [|done]. split; [|done]. simpl.
    apply write_wf; [|done]. pose proof (Forall_lookup_1 _ _ _ _ Hh E) as Hw.
    unfold wf in *. destruct n; simpl; tauto.
  - split; [by apply clear_wf | done].
Qed.

Lemma after_snoc ops o : after (ops ++ [o]) = exec o (after ops).
Proof. unfold after. by rewrite foldl_app. Qed.

Lemma after_wf ops : Forall op_clock ops -> wf_marker (after ops).
Proof.
  induction ops as [|o ops IH] using rev_ind; intros H; [by split|].
  apply Forall_app in H as [H1 H2]. inversion H2; subst. rewrite after_snoc.
  apply exec_wf; [done | by apply IH].
Qed.

Lemma is_open_eq d t s : reads d = true -> clock t -> wf_store s ->
  (is_open d t s).1 = open_spec t s.
Proof.
  intros Hd Ht Hs. unfold is_open, open_spec, read. rewrite Hd. destruct s as [w|]; [|done].
  destruct Hs as (Hg & Hsg & Hend & Hl).
  rewrite i64_clock_diff by done. rewrite !Z.geb_leb.
  destruct (Z.ltb_spec t (start w)), (Z.leb_spec (start w) t),
    (Z.leb_spec (end_ w) t), (Z.ltb_spec t (end_ w)); simpl; try lia; try done.
  destruct (Z.leb_spec MAX_WINDOW_SECS (t - granted_at w)); simpl; [lia|].
  destruct (in_session w); simpl; [done|].
  destruct (last_session_end w) as [l|]; [|done].
  rewrite i64_clock_diff, Z.geb_leb by done.
  destruct (Z.leb_spec IDLE_CLOSE_SECS (t - l)), (Z.ltb_spec (t - l) IDLE_CLOSE_SECS);
    simpl; try lia; done.
Qed.

(** A file that is not read is a closed window. *)
Lemma is_open_reads d t s : (is_open d t s).1 = true -> reads d = true.
Proof. unfold is_open, read. by destruct (reads d). Qed.
Lemma is_open_true d t s : clock t -> wf_store s -> (is_open d t s).1 = true ->
  exists w, s = Some w /\ open_spec t s = true /\ granted_at w <= t < granted_at w + MAX_WINDOW_SECS.
Proof.
  intros Ht Hs H. rewrite is_open_eq in H; [|by eapply is_open_reads|done..].
  destruct s as [w|]; [|done]. exists w. split_and!; [done..| |]; simpl in H; bool_prop;
    destruct Hs as (_ & ? & ? & _); lia.
Qed.

(** *** Where an open window comes from *)

(** A session note of [later] wrote back, in full, a window that had been read
    when the operations [past] were done. *)
Definition written_back (past later : list op) : Prop :=
  exists d i n, In (OWrite d i n) later /\ writes d = Done /\ (i < length (held (after past)))%nat.
(** The operation ends the window in the file: a new grant that gets as far as
    the file, a cancellation that removes it. *)
Definition ends_window (o : op) : bool :=
  match o with
  | OGrant d _ _ _ _ _ => match writes d with Failed => false | _ => true end
  | OClear d => removes d
  | _ => false
  end.
(** [w] is, but for its notes, what one grant of [ops] wrote, and what ended it
    since came before a note [excused] by [P]. *)
Definition lineage (P : list op -> list op -> Prop) (ops : list op) (w : SchedWindow) : Prop :=
  exists ops1 d g st en hq lbl ops2, ops = ops1 ++ OGrant d g st en hq lbl :: ops2
  /\ writes d = Done
  /\ (let w0 := granted_window g st en hq lbl in
      start w = start w0 /\ end_ w = end_ w0 /\ granted_at w = g /\ label w = lbl)
  /\ (forall a o b, ops2 = a ++ o :: b -> ends_window o = true ->
        P (ops1 ++ OGrant d g st en hq lbl :: a) b).
Definition in_hand (i : nat) (past later : list op) : Prop :=
  written_back past later \/ (i < length (held (after past)))%nat.

Lemma written_back_snoc past later o : written_back past later -> written_back past (later ++ [o]).
Proof. intros (d & i & n & H & ? & ?). exists d, i, n. split; [apply in_or_app; by left | done]. Qed.

(** Where [ops2 ++ [o]] can be cut. *)
Lemma snoc_cut {A} (l : list A) o a x b : l ++ [o] = a ++ x :: b ->
  (b = [] /\ x = o /\ a = l) \/ exists b', b = b' ++ [o] /\ l = a ++ x :: b'.
Proof.
  destruct b as [|y b _] using rev_ind; intros H.
  - apply app_inj_tail in H as [-> ->]. by left.
  - right. exists b. rewrite app_comm_cons, app_assoc in H. by apply app_inj_tail in H as [-> ->].
Qed.

Lemma lineage_snoc (P Q : list op -> list op -> Prop) ops o w w' :
  start w' = start w /\ end_ w' = end_ w /\ granted_at w' = granted_at w /\ label w' = label w ->
  (forall past later, P past later -> Q past (later ++ [o])) ->
  (ends_window o = true -> Q ops []) ->
  lineage P ops w -> lineage Q (ops ++ [o]) w'.
Proof.
  intros (E1 & E2 & E3 & E4) HPQ Ho (ops1 & d & g & st & en & hq & lbl & ops2 & -> & Hw & (F1 & F2 & F3 & F4) & H).
  exists ops1, d, g, st, en, hq, lbl, (ops2 ++ [o]).
  split; [by rewrite <- app_assoc|]. split; [done|]. split; [simpl; repeat split; congruence|].
  intros a x b [(-> & -> & ->)|(b' & -> & ->)]%snoc_cut Hx; [by apply Ho|].
  by eapply HPQ, H.
Qed.

Lemma held_grows o m i : (i < length (held m))%nat -> (i < length (held (exec o m)))%nat.
Proof. destruct o; simpl; try done; [rewrite length_app; lia | by case_goal]. Qed.

(** One step keeps where the windows come from. *)
Lemma origin_step o ops :
  (forall w, file (after ops) = Some w -> lineage written_back ops w) ->
  (forall i w, held (after ops) !! i = Some w -> lineage (in_hand i) ops w) ->
  (forall w, file (after (ops ++ [o])) = Some w -> lineage written_back (ops ++ [o]) w)
  /\ (forall i w, held (after (ops ++ [o])) !! i = Some w -> lineage (in_hand i) (ops ++ [o]) w).
Proof.
  intros Hf Hh. rewrite after_snoc.
  assert (Keep : forall w, ends_window o = false -> file (after ops) = Some w ->
    lineage written_back (ops ++ [o]) w).
  { intros w Ho H. apply (lineage_snoc written_back _ ops o w); [done|intros; by apply written_back_snoc|congruence|by apply Hf]. }
  assert (Hold : forall i w, held (after ops) !! i = Some w -> lineage (in_hand i) (ops ++ [o]) w).
  { intros i w H. apply (lineage_snoc (in_hand i) _ ops o w); [done|..|by apply Hh].
    - intros past later [?|?]; [left; by apply written_back_snoc | by right].
    - intros _. right. by eapply lookup_lt_Some. }
  destruct o as [d g st en hq lbl|d t|d t|d|d i n|d]; simpl; (split; [intros w H|try exact Hold]).
  - unfold grant, write in H. destruct (writes d) eqn:Ed; [|by apply Keep; [simpl; by rewrite Ed|]|done].
    injection H as <-. exists ops, d, g, st, en, hq, lbl, []. split; [done|]. split; [done|].
    split; [by repeat split; try apply granted_at_now|]. by intros [|? ?] ? ? ?.
  - destruct (is_open_file d t (file (after ops))) as [E|E]; rewrite E in H; [by apply Keep|done].
  - destruct (status_file d t (file (after ops))) as [E|E]; rewrite E in H; [by apply Keep|done].
  - by apply Keep.
  - intros i w H. apply lookup_app_Some in H as [H|[Hi H]]; [by apply Hold|].
    unfold read in H. destruct (reads d); [|done]. destruct (file (after ops)) as [w'|] eqn:E; [|done].
    destruct (i - _)%nat; simpl in H; [|done]. injection H as <-.
    apply (lineage_snoc written_back _ ops _ w'); [done|..|done|by apply Hf].
    intros past later ?. left. by apply written_back_snoc.
  - destruct (held (after ops) !! i) as [w'|] eqn:E; [|by apply Keep]. simpl in H.
    unfold write in H. destruct (writes d) eqn:Ed; [|by apply Keep|done]. injection H as <-.
    apply (lineage_snoc (in_hand i) _ ops _ w'); [by destruct n|..|done|by apply Hh].
    intros past later [?|?]; [by apply written_back_snoc|]. exists d, i, n.
    split; [apply in_or_app; right; by left|done].
  - intros i' w H. destruct (held (after ops) !! i); by apply Hold.
  - unfold clear in H. destruct (removes d) eqn:Ed; [done|]. by apply Keep.
Qed.

Lemma origin ops :
  (forall w, file (after ops) = Some w -> lineage written_back ops w)
  /\ (forall i w, held (after ops) !! i = Some w -> lineage (in_hand i) ops w).
Proof.
  induction ops as [|o ops [IH1 IH2]] using rev_ind; [split; [done | by intros [|i]]|].
  by apply origin_step.
Qed.

(** C3: nobody gets in through the window unless the customer granted it, and
    never later than 24 hours after that grant.  Whatever the grants, looks,
    session notes and cancellations did to an absent marker, in whatever order
    the processes came to it, whichever reads, writes and removals failed and
    however the clock ran: when [is_open] answers [true], there is a grant that
    reached the file, made at or before the current time and less than 24 hours
    ago, inside whose capped interval the time lies.  A later grant that reached
    the file, or a later cancellation that removed it, can only have been undone
    by a session note that had read the window before and wrote it back after;
    without such a note the window was not cancelled since. *)
Theorem open_only_by_recent_grant ops d t :
  Forall op_clock ops -> clock t -> (is_open d t (file (after ops))).1 = true ->
  exists ops1 d' g st en hq lbl ops2,
    ops = ops1 ++ OGrant d' g st en hq lbl :: ops2 /\ writes d' = Done
    /\ g <= t < g + MAX_WINDOW_SECS
    /\ start (granted_window g st en hq lbl) <= t < end_ (granted_window g st en hq lbl)
    /\ forall a o b, ops2 = a ++ o :: b -> ends_window o = true ->
         written_back (ops1 ++ OGrant d' g st en hq lbl :: a) b.
Proof.
  intros Hops Ht H. pose proof (after_wf ops Hops) as [Hwf _].
  destruct (is_open_true _ _ _ Ht Hwf H) as (w & E & Ho & Hg). clear H.
  destruct (proj1 (origin ops) w E) as (o1 & d' & g & st & en & hq & lbl & o2 & -> & Hd & (E1 & E2 & E3 & _) & Hend).
  exists o1, d', g, st, en, hq, lbl, o2. rewrite E in Ho. unfold open_spec in Ho. bool_prop.
  split; [done|]. split; [done|]. split; [lia|]. split; [lia | exact Hend].
Qed.

(** A marker that is read is decided by [open_spec]: the promised interval, and
    no 15 quiet minutes since the last session.  The check for 24 hours since
    the grant never decides anything, because the stored end is already capped
    by it. *)
Theorem is_open_decision ops d t :
  Forall op_clock ops -> clock t -> reads d = true ->
  (is_open d t (file (after ops))).1 = open_spec t (file (after ops)).
Proof. intros Hops Ht Hd. apply is_open_eq; [done..|]. by apply after_wf. Qed.

Definition demo : list op :=
  [OGrant fine 1000 1100 5000 1000 "t"; OIsOpen fine 1050; ORead fine; OWrite fine 0 Started;
   ORead fine; OWrite fine 1 (Ended 1200)].

(** A session ends while the window is cancelled: the note, which had read the
    window, writes it back, and the window is open again. *)
Example cancelled_window_returns :
  (is_open fine 2000 (file (after (demo ++ [OClear fine])))).1 = false
  /\ (is_open fine 2000 (file (after (demo ++ [ORead fine; OClear fine; OWrite fine 2 (Ended 1900)])))).1 = true.
Proof. vm_compute. done. Qed.
(** A cancellation whose removal fails changes nothing, and nobody is told. *)
Example unremoved_window_stays :
  (is_open fine 2000 (file (after (demo ++ [OClear (mkDisk true Done false)])))).1 = true.
Proof. reflexivity. Qed.

Lemma open_only_by_recent_grant_witness :
  exists ops1 d' g st en hq lbl ops2,
    demo = ops1 ++ OGrant d' g st en hq lbl :: ops2 /\ writes d' = Done
    /\ g <= 2000 < g + MAX_WINDOW_SECS
    /\ start (granted_window g st en hq lbl) <= 2000 < end_ (granted_window g st en hq lbl)
    /\ forall a o b, ops2 = a ++ o :: b -> ends_window o = true ->
         written_back (ops1 ++ OGrant d' g st en hq lbl :: a) b.
Proof.
  apply (open_only_by_recent_grant demo fine 2000);
    [repeat constructor; unfold op_clock, clock; lia | unfold clock; lia | vm_compute; reflexivity].
Defined.

Lemma is_open_decision_witness :
  (is_open fine 2000 (file (after demo))).1 = open_spec 2000 (file (after demo)).
Proof.
  apply (is_open_decision demo fine 2000);
    [repeat constructor; unfold op_clock, clock; lia | unfold clock; lia | reflexivity].
Defined.
End Sched.

(** ** The restart grace

    [set_restart_reconnect_grace] and [consume_restart_reconnect_grace]: the
    file holds ["<operator>:<expiry>"], [""] standing for an absent or
    unreadable file. *)
Module Grace.
Definition GRACE_SECS : Z := 300.

Definition set_restart_reconnect_grace (now : Z) (operator_id : string) : string :=
  let exp := Int.wrap 64 (now + GRACE_SECS) in
  operator_id +:+ String ":"%char (to_string exp).

Definition consume_restart_reconnect_grace (now : Z) (operator_id : string) (file : string)
  : bool * string :=
  let v := trim file in
  if is_empty v then (false, file) else
  match split_once ":"%char v with
  | Some (gid, gexp) =>
      let exp := default 0 (parse_u64 gexp) in
      if now >? exp then (false, "")
      else if negb (is_empty gid) && String.eqb gid operator_id then (true, file)
      else (false, file)
  | None => (false, file)
  end.

(** An operator id the marker can carry. *)
Definition plain_id (s : string) : bool :=
  no_char ":"%char s && match s with String c _ => plain_char c | _ => false end.

Lemma trim_marker now op : plain_id op = true -> 0 <= now < 2 ^ 62 ->
  trim (set_restart_reconnect_grace now op) = set_restart_reconnect_grace now op.
Proof.
  unfold plain_id, set_restart_reconnect_grace. rewrite andb_true_iff. intros [_ Hc] Hn.
  rewrite Int.wrap_small by (unfold Int.in_u, GRACE_SECS; lia).
  destruct op as [|c op]; [done|].
  destruct (string_last _ (to_string_nonempty (now + GRACE_SECS))) as (m & d & Hd).
  pose proof (to_string_digits (now + GRACE_SECS) ltac:(unfold GRACE_SECS; lia)) as Hdig.
  rewrite Hd in Hdig |- *. rewrite all_chars_app in Hdig. apply andb_true_iff in Hdig as [_ Hdd].
  simpl in Hdd. rewrite andb_true_r in Hdd. simpl.
  replace (op +:+ String ":" (m +:+ String d "")) with ((op +:+ String ":" m) +:+ String d "")
    by (by rewrite string_app_assoc).
  by apply trim_plain; [|apply digit_plain].
Qed.

(** The grace admits exactly the operator who set it, for five minutes:
    reading a marker written by [op] at [now] answers [true] for [op'] at
    [t] if and only if [op' = op] and [t] is not past the expiry, and the
    marker stays for further attempts; in particular an empty operator id
    never matches. *)
Theorem grace_roundtrip now t op op' :
  plain_id op = true -> 0 <= now < 2 ^ 62 ->
  consume_restart_reconnect_grace t op' (set_restart_reconnect_grace now op)
  = if now + GRACE_SECS <? t then (false, "")
    else (String.eqb op op', set_restart_reconnect_grace now op).
Proof.
  intros Hop Hn. unfold consume_restart_reconnect_grace. rewrite trim_marker by done.
  unfold plain_id in Hop. apply andb_true_iff in Hop as [Hc Hp].
  destruct (is_empty (set_restart_reconnect_grace now op)) eqn:E.
  { unfold set_restart_reconnect_grace in E. by destruct op. }
  unfold set_restart_reconnect_grace at 1. rewrite split_once_app by done.
  assert (Hin : Int.in_u 64 (now + GRACE_SECS)) by (unfold Int.in_u, GRACE_SECS; lia).
  rewrite Int.wrap_small by done. unfold parse_u64.
  rewrite parse_to_string by (unfold Int.u64_max, Int.in_u in *; lia). simpl.
  rewrite Z.gtb_ltb. destruct (_ <? t); [done|].
  destruct op as [|c op]; [done|]. simpl is_empty. cbn [negb andb].
  by destruct (String.eqb _ _).
Qed.

Lemma grace_roundtrip_witness :
  consume_restart_reconnect_grace 1200 "123456789" (set_restart_reconnect_grace 1000 "123456789")
  = (true, set_restart_reconnect_grace 1000 "123456789").
Proof. apply (grace_roundtrip 1000 1200 "123456789" "123456789"); [reflexivity | lia]. Defined.

Example grace_empty_operator :
  (consume_restart_reconnect_grace 10 "" ":4000000000").1 = false
  /\ (consume_restart_reconnect_grace 1301 "AB1" (set_restart_reconnect_grace 1000 "AB1")) = (false, "").
Proof. vm_compute. done. Qed.
End Grace.
