(* ===== verification/World.v ===== *)
(** * Effects: a configuration, a component's own state and a trace

    The background threads of the program read clocks, call HTTP services,
    start processes and keep markers in [LocalConfig].  Their operations are
    functions on a [world]: the configuration, the component's state and the
    trace of what was done to or asked of the outside, newest event first.
    An answer of the outside is a function of the length of the trace, and
    [ask] extends the trace, so no two queries share an answer. *)

From S2P Require Import Prelude RustStr Store.

Record world (C St Ev : Type) := mkWorld { cfg : C; st : St; trace : list Ev }.
Arguments mkWorld {C St Ev} _ _ _.
Arguments cfg {C St Ev} _.
Arguments st {C St Ev} _.
Arguments trace {C St Ev} _.

Section world.
Context {C St Ev : Type} `{!LocalConfig C}.
Implicit Types w : world C St Ev.

Definition clk w : nat := length (trace w).
Definition log (ev : Ev) w : world C St Ev := mkWorld (cfg w) (st w) (ev :: trace w).
Definition ask {A} (q : nat -> A) (ev : Ev) w : A * world C St Ev := (q (clk w), log ev w).
Definition get (k : string) w : string := get_option k (cfg w).
Definition put (k v : string) w : world C St Ev :=
  mkWorld (set_option k v (cfg w)) (st w) (trace w).
Definition upd (f : St -> St) w : world C St Ev := mkWorld (cfg w) (f (st w)) (trace w).

Lemma get_put k k' v w : get k' (put k v w) = if decide (k = k') then v else get k' w.
Proof. unfold get, put. simpl. apply get_set. Qed.
Lemma get_put_eq k v w : get k (put k v w) = v.
Proof. apply get_set_eq. Qed.
Lemma get_put_ne k k' v w : k <> k' -> get k' (put k v w) = get k' w.
Proof. apply get_set_ne. Qed.
Lemma get_log k ev w : get k (log ev w) = get k w.
Proof. done. Qed.
Lemma get_upd k f w : get k (upd f w) = get k w.
Proof. done. Qed.

(** [evolves P K w w']: between [w] and [w'] only events satisfying [P] were
    added and only options whose key satisfies [K] were written. *)
Inductive evolves (P : Ev -> Prop) (K : string -> Prop) w : world C St Ev -> Prop :=
  | ev_refl : evolves P K w w
  | ev_log ev w' : P ev -> evolves P K w w' -> evolves P K w (log ev w')
  | ev_put k v w' : K k -> evolves P K w w' -> evolves P K w (put k v w')
  | ev_upd f w' : evolves P K w w' -> evolves P K w (upd f w').

Lemma evolves_trans P K w1 w2 w3 : evolves P K w1 w2 -> evolves P K w2 w3 -> evolves P K w1 w3.
Proof. intros H. induction 1; by try constructor. Qed.

Lemma evolves_weaken (P P' : Ev -> Prop) (K K' : string -> Prop) w w' :
  (forall ev, P ev -> P' ev) -> (forall k, K k -> K' k) -> evolves P K w w' -> evolves P' K' w w'.
Proof. intros HP HK. induction 1; try constructor; auto. Qed.

Lemma evolves_trace P K w w' : evolves P K w w' ->
  exists evs, trace w' = evs ++ trace w /\ Forall P evs.
Proof.
  induction 1 as [|ev w' HP _ (evs & E & Hf)|k v w' HK _ IH|f w' _ IH]; simpl;
    [by exists []| |exact IH|exact IH].
  exists (ev :: evs). rewrite E. split; [done|]. by constructor.
Qed.

Lemma evolves_get P K w w' k : evolves P K w w' -> ~ K k -> get k w' = get k w.
Proof.
  intros H Hk. induction H as [|ev w' HP _ IH|k' v w' HK _ IH|f w' _ IH]; try done.
  rewrite get_put_ne; [done|]. by intros ->.
Qed.

Lemma evolves_clk P K w w' : evolves P K w w' -> (clk w <= clk w')%nat.
Proof. unfold clk. induction 1; simpl; lia. Qed.
(** [guarded G base tr]: [tr] extends [base], and each event added satisfied
    [G] in the trace it was added to. *)
Inductive guarded (G : list Ev -> Ev -> Prop) (base : list Ev) : list Ev -> Prop :=
  | g_refl : guarded G base base
  | g_cons ev tr : G tr ev -> guarded G base tr -> guarded G base (ev :: tr).

Lemma guarded_trans G b m t : guarded G b m -> guarded G m t -> guarded G b t.
Proof. intros H. induction 1; by try constructor. Qed.

Lemma guarded_evolves (G : list Ev -> Ev -> Prop) P K w w' : evolves P K w w' ->
  (forall tr ev, P ev -> G tr ev) -> guarded G (trace w) (trace w').
Proof. intros H HG. induction H; simpl; try done; constructor; auto. Qed.

Lemma guarded_impl (G G' : list Ev -> Ev -> Prop) (Q : Ev -> Prop) base tr :
  (forall tr ev, G tr ev -> Q ev) ->
  (forall evs ev, Forall Q evs -> G (evs ++ base) ev -> G' (evs ++ base) ev) ->
  guarded G base tr -> guarded G' base tr.
Proof.
  intros HQ H Hg.
  assert (X : exists evs, tr = evs ++ base /\ Forall Q evs /\ guarded G' base tr); [|by destruct X as (? & _ & _ & ?)].
  induction Hg as [|ev tr Hev _ (evs & -> & F & IH)]; [exists []; by repeat constructor|].
  exists (ev :: evs). split; [done|]. split; constructor; eauto.
Qed.

Lemma guarded_split G base tr : guarded G base tr -> exists evs, tr = evs ++ base /\
  forall t1 ev t2, evs = t1 ++ ev :: t2 -> G (t2 ++ base) ev.
Proof.
  induction 1 as [|ev tr Hev _ (evs & -> & IH)]; [exists []; by split; [|intros [] ? ?]|].
  exists (ev :: evs). split; [done|]. intros [|x t1] y t2; simpl; intros [= -> ->]; [done|by eapply IH].
Qed.

(** Of the questions and actions since the trace was [base], the last [ev]
    came when the trace had a length satisfying [P]: the answer then was the
    environment's value at that length. *)
Definition last_asked (ev : Ev) (P : nat -> Prop) (base tr : list Ev) : Prop :=
  exists t1 t2, tr = t1 ++ ev :: t2 ++ base /\ ~ In ev t1 /\ P (length (t2 ++ base)).

Lemma last_asked_now ev (P : nat -> Prop) evs base :
  P (length (evs ++ base)) -> last_asked ev P base (ev :: evs ++ base).
Proof. intros H. exists [], evs. split; [done|]. by split; [intros []|]. Qed.

Lemma last_asked_app ev P base evs tr : ~ In ev evs -> last_asked ev P base tr ->
  last_asked ev P base (evs ++ tr).
Proof.
  intros Hn (t1 & t2 & -> & H1 & H2). exists (evs ++ t1), t2. rewrite <- app_assoc.
  split; [done|]. split; [|done]. by intros [H|H]%in_app_iff.
Qed.

Lemma last_asked_evolves P' K ev P base w w' : evolves P' K w w' -> ~ P' ev ->
  last_asked ev P base (trace w) -> last_asked ev P base (trace w').
Proof.
  intros (evs & -> & H)%evolves_trace Hn. apply last_asked_app. rewrite List.Forall_forall in H. auto.
Qed.

Lemma last_asked_base ev P b evs tr : last_asked ev P (evs ++ b) tr -> last_asked ev P b tr.
Proof.
  intros (t1 & t2 & -> & H1 & H2). exists t1, (t2 ++ evs). rewrite <- !app_assoc. done.
Qed.
End world.

Create HintDb world.
#[export] Hint Constructors evolves : world.

(** Unfolds the pair-returning steps of an operation and splits on the
    outcomes, so that the remaining goal talks about an explicit chain of
    [log]s, [put]s and [upd]s. *)
Ltac world_cases := unfold ask; repeat (case_goal; simpl).
