(* ===== verification/UpdateCommon.v ===== *)
(** * Versions and file digests ([src/src/chainremote_update_common.rs])

    The checks both update channels share: parsing and comparing version
    strings, recognising a well-formed SHA-256, and checking a downloaded file
    against it. *)

From Stdlib Require Import Ascii Strings.Byte.
From S2P Require Import Prelude RustStr Store.
#[local] Open Scope Z_scope.

Module UpdateCommon.
Definition version : Type := Z * Z * Z.

Definition of_option {A} (o : option A) : result A string :=
  match o with Some a => Ok a | None => Err "parse" end.

Definition parse_version (s : string) : result version string :=
  let parts := split "."%char (trim s) in
  match parts with
  | p0 :: p1 :: p2 :: _ =>
      let? major := of_option (parse_u32 p0) in
      let? minor := of_option (parse_u32 p1) in
      let build_str := take_while is_ascii_digit p2 in
      let? build := (if is_empty build_str then Ok 0 else of_option (parse_u32 build_str)) in
      Ok (major, minor, build)
  | _ => Err ("malformed version: " +:+ s)
  end.

(** Rust's tuple order. *)
Definition is_newer (a b : version) : bool :=
  let '(a1, a2, a3) := a in
  let '(b1, b2, b3) := b in
  (b1 <? a1) || ((a1 =? b1) && ((b2 <? a2) || ((a2 =? b2) && (b3 <? a3)))).

Definition is_newer_str (a b : string) : result bool string :=
  let? va := parse_version a in
  let? vb := parse_version b in
  Ok (is_newer va vb).

Definition is_valid_sha256_hex (expected_hex : string) : bool :=
  let t := trim expected_hex in
  (str_len t =? 64) && all_chars is_ascii_hexdigit t.

Inductive verify_error : Type :=
  | VInvalid
  | VIo
  | VMismatch (expected got : string).

Section verify.
Context `{Sha256}.

(** [file.read] into the 8192-byte buffer: how many bytes come back at a
    position of the file, or an I/O error. *)
Variable read_len : list byte -> nat -> option nat.

(** The read loop; the outer [None] is fuel running out. *)
Fixpoint hash_loop (fuel : nat) (data : list byte) (pos : nat) (hasher : sha_state)
  : option (result sha_state verify_error) :=
  match fuel with
  | O => None
  | S fuel =>
      match read_len data pos with
      | None => Some (Err VIo)
      | Some O => Some (Ok hasher)
      | Some n => hash_loop fuel data (pos + n)
                    (sha_update hasher (take n (drop pos data)))
      end
  end.

(** [to_lowercase] acts on ASCII hexadecimal digits only here, where it is
    [to_ascii_lowercase].  The result and the file afterwards; [rm_ok] is whether removing it
    succeeds (its error is dropped). *)
Definition verify_sha256 (rm_ok : bool) (file : option (list byte)) (expected_hex : string)
  : option (result unit verify_error * option (list byte)) :=
  if negb (is_valid_sha256_hex expected_hex) then Some (Err VInvalid, file) else
  match file with
  | None => Some (Err VIo, file)
  | Some data =>
      match hash_loop (S (length data)) data 0 sha_new with
      | None => None
      | Some (Err e) => Some (Err e, file)
      | Some (Ok hasher) =>
          let got := sha_hex hasher in
          let expected := to_ascii_lowercase (trim expected_hex) in
          if negb (String.eqb got expected)
          then Some (Err (VMismatch expected got), if rm_ok then None else file)
          else Some (Ok tt, file)
      end
  end.

(** What [Read::read] guarantees: at most the buffer, never past the end,
    and 0 exactly at the end. *)
Definition reader_ok : Prop :=
  forall data pos n, read_len data pos = Some n ->
    Z.of_nat n <= 8192 /\ (pos + n <= Nat.max pos (length data))%nat
    /\ (n = O <-> (length data <= pos)%nat).
Definition reader_total : Prop := forall data pos, read_len data pos <> None.

Lemma hash_loop_spec fuel data pos st :
  reader_ok -> (length data - pos < fuel)%nat ->
  (exists e, hash_loop fuel data pos st = Some (Err e) /\ ~ reader_total)
  \/ hash_loop fuel data pos st = Some (Ok (sha_update st (drop pos data))).
Proof.
  intros Hr. revert pos st. induction fuel as [|fuel IH]; intros pos st Hf; [lia|]. simpl.
  destruct (read_len data pos) as [n|] eqn:E.
  - destruct (Hr _ _ _ E) as (_ & Hn & H0). destruct n as [|n].
    + right. rewrite drop_ge by (apply H0; done). by rewrite sha_update_nil.
    + assert (~ (length data <= pos)%nat) by (intros Hx; apply H0 in Hx; done).
      destruct (IH (pos + S n)%nat (sha_update st (take (S n) (drop pos data))))
        as [(e & ? & ?)|IHr]; [lia|left; by exists e|right].
      rewrite IHr, sha_update_app. do 3 f_equal.
      rewrite <- (take_drop (S n) (drop pos data)) at 2. by rewrite drop_drop.
  - left. exists VIo. split; [done|]. intros Ht. by apply (Ht data pos).
Qed.
(** A file whose digest is the expected one. *)
Definition digest_ok (sha_hex : string) (data : list byte) : Prop :=
  is_valid_sha256_hex sha_hex = true /\ sha256_hex data = to_ascii_lowercase (trim sha_hex).

Lemma verify_sha256_ok rm file x f : reader_ok ->
  verify_sha256 rm file x = Some (Ok tt, f) ->
  exists data, f = Some data /\ digest_ok x data.
Proof.
  intros Hr. unfold verify_sha256, digest_ok.
  destruct (is_valid_sha256_hex x); cbn [negb]; [|done].
  destruct file as [data|]; [|done].
  destruct (hash_loop_spec (S (length data)) data 0 sha_new Hr)
    as [(er & -> & _)| ->]; [lia|done|].
  rewrite drop_0. fold (sha256_hex data).
  destruct (String.eqb_spec (sha256_hex data) (to_ascii_lowercase (trim x))); simpl; [|done].
  intros [= <-]. by exists data.
Qed.
Lemma verify_sha256_accepts rm data x : reader_ok -> reader_total -> digest_ok x data ->
  verify_sha256 rm (Some data) x = Some (Ok tt, Some data).
Proof.
  intros Hr Ht [Hv Hd]. unfold verify_sha256. rewrite Hv. cbn [negb].
  destruct (hash_loop_spec (S (length data)) data 0 sha_new Hr) as [(er & _ & Hn)| ->]; [lia|done|].
  rewrite drop_0. fold (sha256_hex data). by rewrite Hd, String.eqb_refl.
Qed.
End verify.

(** A reader that fills the buffer. *)
Definition full_reader (data : list byte) (pos : nat) : option nat :=
  Some (Z.to_nat (Z.min 8192 (Z.of_nat (length data - pos)))).
Lemma full_reader_ok : reader_ok full_reader.
Proof. intros data pos n [= <-]. lia. Qed.
Lemma full_reader_total : reader_total full_reader.
Proof. done. Qed.

(** *** Order of versions *)
Lemma is_newer_irrefl a : is_newer a a = false.
Proof. destruct a as [[a1 a2] a3]. simpl. rewrite !Z.ltb_irrefl. by rewrite !andb_false_r. Qed.

Lemma is_newer_total a b : a = b \/ is_newer a b = true \/ is_newer b a = true.
Proof.
  destruct a as [[a1 a2] a3], b as [[b1 b2] b3]. simpl.
  destruct (Z.ltb_spec b1 a1), (Z.ltb_spec a1 b1), (Z.eqb_spec a1 b1), (Z.eqb_spec b1 a1),
    (Z.ltb_spec b2 a2), (Z.ltb_spec a2 b2), (Z.eqb_spec a2 b2), (Z.eqb_spec b2 a2),
    (Z.ltb_spec b3 a3), (Z.ltb_spec a3 b3); simpl; subst; try lia; auto.
  left. repeat f_equal; lia.
Qed.

Lemma is_newer_asym a b : is_newer a b = true -> is_newer b a = false.
Proof. destruct a as [[a1 a2] a3], b as [[b1 b2] b3]. simpl. intros H. bool_prop; lia. Qed.

Lemma is_newer_trans a b c : is_newer a b = true -> is_newer b c = true -> is_newer a c = true.
Proof.
  destruct a as [[a1 a2] a3], b as [[b1 b2] b3], c as [[c1 c2] c3]. simpl.
  rewrite !orb_true_iff, !andb_true_iff, !orb_true_iff, !andb_true_iff,
    !Z.ltb_lt, !Z.eqb_eq. lia.
Qed.

(** *** Printing and parsing *)
Definition version_string (v : version) : string :=
  let '(a, b, c) := v in
  to_string a +:+ String "."%char (to_string b +:+ String "."%char (to_string c)).

Lemma split_app c l r : no_char c l = true ->
  split c (l +:+ String c r) = l :: split c r.
Proof.
  unfold no_char. induction l as [|a l IH]; simpl.
  - by rewrite Ascii.eqb_refl.
  - rewrite andb_true_iff, negb_true_iff. intros [-> H]. by rewrite (IH H).
Qed.

Lemma split_no_char c s : no_char c s = true -> split c s = [s].
Proof.
  unfold no_char. induction s as [|a s IH]; simpl; [done|].
  rewrite andb_true_iff, negb_true_iff. intros [-> H]. by rewrite (IH H).
Qed.

Lemma take_while_app p a r : all_chars p a = true ->
  match r with String c _ => p c = false | EmptyString => True end ->
  take_while p (a +:+ r) = a.
Proof.
  induction a as [|c a IH]; simpl.
  - intros _. destruct r as [|d r]; [done|]. simpl. by intros ->.
  - rewrite andb_true_iff. intros [-> H] Hr. f_equal. auto.
Qed.

Lemma split_prefix c a r : no_char c a = true ->
  exists hd tl, split c r = hd :: tl /\ split c (a +:+ r) = (a +:+ hd) :: tl.
Proof.
  unfold no_char. intros H. destruct (split c r) as [|hd tl] eqn:E.
  { exfalso. destruct r; simpl in E; [done|]. by repeat case_hyp E. }
  exists hd, tl. split; [done|]. induction a as [|x a IH]; simpl; [done|].
  simpl in H. apply andb_true_iff in H as [Hx H]. apply negb_true_iff in Hx.
  by rewrite Hx, (IH H).
Qed.

(** Suffixes such as ["-rc1"]. *)
Definition plain_suffix (sfx : string) : bool :=
  all_chars plain_char sfx
  && match sfx with String c _ => negb (is_ascii_digit c) | EmptyString => true end.

Lemma split_suffix sfx hd tl : plain_suffix sfx = true -> split "."%char sfx = hd :: tl ->
  match hd with String c _ => is_ascii_digit c = false | EmptyString => True end.
Proof.
  destruct sfx as [|c r]; simpl; [by intros _ [= <- <-]|].
  unfold plain_suffix. simpl. rewrite !andb_true_iff, negb_true_iff. intros [_ Hc].
  destruct (Ascii.eqb c "."); [by intros [= <- <-]|].
  destruct (split "." r); by intros [= <- <-].
Qed.

Lemma plain_last a sfx : a <> EmptyString -> all_chars is_ascii_digit a = true ->
  all_chars plain_char sfx = true ->
  exists m d, a +:+ sfx = m +:+ String d "" /\ plain_char d = true.
Proof.
  intros Ha Hd Hs. destruct (string_last (a +:+ sfx)) as (m & d & E); [by destruct a|].
  exists m, d. split; [done|].
  assert (H : all_chars plain_char (a +:+ sfx) = true).
  { rewrite all_chars_app, Hs, andb_true_r. eapply all_chars_impl; [|exact Hd]. apply digit_plain. }
  rewrite E, all_chars_app in H. simpl in H. bool_prop. tauto.
Qed.

Lemma trim_version n x a sfx : 0 <= n -> a <> EmptyString ->
  all_chars is_ascii_digit a = true -> all_chars plain_char sfx = true ->
  let s := to_string n +:+ (x +:+ (a +:+ sfx)) in trim s = s.
Proof.
  intros Hn Ha Hd Hs. destruct (plain_last _ _ Ha Hd Hs) as (m & d & -> & Hpd).
  pose proof (to_string_digits n Hn) as Hdn. pose proof (to_string_nonempty n) as Hne.
  destruct (to_string n) as [|c s]; [done|]. simpl in *. bool_prop. destruct Hdn as [Hc _].
  replace (s +:+ (x +:+ (m +:+ String d ""))) with ((s +:+ (x +:+ m)) +:+ String d "")
    by (by rewrite !string_app_assoc).
  apply trim_plain; [by apply digit_plain | done].
Qed.

Definition in_version (v : version) : Prop :=
  let '(a, b, c) := v in Int.in_u 32 a /\ Int.in_u 32 b /\ Int.in_u 32 c.

Lemma parse_u32_to_string n : Int.in_u 32 n -> parse_u32 (to_string n) = Some n.
Proof. intros H. apply parse_to_string. unfold Int.in_u, Int.u32_max in *. lia. Qed.

(** Printing a version and parsing it gives the version back, with or
    without a suffix such as ["-rc1"] or [".2"] behind the build number. *)
Theorem version_roundtrip v sfx :
  in_version v -> plain_suffix sfx = true ->
  parse_version (version_string v +:+ sfx) = Ok v.
Proof.
  destruct v as [[a b] c]. intros (Ha & Hb & Hc) Hs.
  assert (Hp : all_chars plain_char sfx = true) by (unfold plain_suffix in Hs; bool_prop; tauto).
  unfold parse_version, version_string, Int.in_u in *. rewrite string_app_assoc. simpl.
  rewrite string_app_assoc. simpl.
  pose proof (trim_version a (String "." (to_string b +:+ ".")) (to_string c) sfx) as Ht.
  simpl in Ht. rewrite string_app_assoc in Ht. simpl in Ht.
  rewrite Ht; [|lia|apply to_string_nonempty|apply to_string_digits; lia|done].
  rewrite split_app by (apply to_string_no_char; [lia|done]).
  rewrite split_app by (apply to_string_no_char; [lia|done]).
  destruct (split_prefix "."%char (to_string c) sfx) as (hd & tl & E1 & E2);
    [apply to_string_no_char; [lia|done]|].
  rewrite E2, !parse_u32_to_string by done. simpl.
  rewrite take_while_app; [|apply to_string_digits; lia|by apply (split_suffix _ _ _ Hs E1)].
  rewrite parse_u32_to_string by done.
  pose proof (to_string_nonempty c). by destruct (to_string c).
Qed.

(** The version guard is a strict total order on parsed versions: never
    newer than itself, never newer in both directions, transitive, and of two
    different versions one is newer. *)
Theorem is_newer_str_order a b c va vb vc :
  parse_version a = Ok va -> parse_version b = Ok vb -> parse_version c = Ok vc ->
  is_newer_str a a = Ok false
  /\ (is_newer_str a b = Ok true -> is_newer_str b a = Ok false)
  /\ (is_newer_str a b = Ok true -> is_newer_str b c = Ok true -> is_newer_str a c = Ok true)
  /\ (va = vb \/ is_newer_str a b = Ok true \/ is_newer_str b a = Ok true).
Proof.
  unfold is_newer_str. intros -> -> ->. rewrite is_newer_irrefl. split; [done|].
  split; [intros [= H]; by rewrite is_newer_asym|]. split.
  - intros [= H1] [= H2]. by rewrite (is_newer_trans va vb vc).
  - destruct (is_newer_total va vb) as [->|[->| ->]]; auto.
Qed.

(** What [verify_sha256] decides, on every branch: a malformed expected
    digest is rejected without touching the file, a missing file is an error,
    and otherwise the digest of the whole contents (read in pieces of any
    size) decides, a wrong file being removed. *)
Theorem verify_sha256_spec `{Sha256} read_len rm_ok file hex :
  reader_ok read_len -> reader_total read_len ->
  verify_sha256 read_len rm_ok file hex
  = Some (if is_valid_sha256_hex hex then
            match file with
            | None => (Err VIo, None)
            | Some data =>
                if String.eqb (sha256_hex data) (to_ascii_lowercase (trim hex))
                then (Ok tt, Some data)
                else (Err (VMismatch (to_ascii_lowercase (trim hex)) (sha256_hex data)),
                      if rm_ok then None else Some data)
            end
          else (Err VInvalid, file)).
Proof.
  intros Hr Ht. unfold verify_sha256. destruct (is_valid_sha256_hex hex); cbn [negb]; [|done].
  destruct file as [data|]; [|done].
  destruct (hash_loop_spec read_len (S (length data)) data 0 sha_new Hr)
    as [(e & _ & Hnt)| ->]; [lia|done|].
  rewrite drop_0. fold (sha256_hex data). by destruct (String.eqb _ _).
Qed.

Lemma version_roundtrip_witness : parse_version (version_string (1, 4, 141) +:+ "-rc1") = Ok (1, 4, 141).
Proof. apply (version_roundtrip (1, 4, 141) "-rc1"); [repeat split; lia | reflexivity]. Defined.

Lemma is_newer_str_order_witness :
  is_newer_str "1.4.20" "1.4.20" = Ok false
  /\ (is_newer_str "1.4.20" "1.4.19" = Ok true -> is_newer_str "1.4.19" "1.4.20" = Ok false)
  /\ (is_newer_str "1.4.20" "1.4.19" = Ok true -> is_newer_str "1.4.19" "1.3.99-x" = Ok true ->
      is_newer_str "1.4.20" "1.3.99-x" = Ok true)
  /\ ((1, 4, 20) = (1, 4, 19) \/ is_newer_str "1.4.20" "1.4.19" = Ok true
      \/ is_newer_str "1.4.19" "1.4.20" = Ok true).
Proof.
  apply (is_newer_str_order "1.4.20" "1.4.19" "1.3.99-x" (1, 4, 20) (1, 4, 19) (1, 3, 99)); reflexivity.
Defined.

Lemma verify_sha256_spec_witness :
  let data := [x61; x62] in
  verify_sha256 full_reader true (Some data) (toy_hex 2) = Some (Ok tt, Some data)
  /\ verify_sha256 full_reader true (Some data) (toy_hex 3)
     = Some (Err (VMismatch (toy_hex 3) (toy_hex 2)), None)
  /\ verify_sha256 full_reader true (Some data) "deadbeef" = Some (Err VInvalid, Some data).
Proof.
  split; [|split].
  - exact (verify_sha256_spec full_reader true (Some [x61; x62]) (toy_hex 2)
             full_reader_ok full_reader_total).
  - exact (verify_sha256_spec full_reader true (Some [x61; x62]) (toy_hex 3)
             full_reader_ok full_reader_total).
  - exact (verify_sha256_spec full_reader true (Some [x61; x62]) "deadbeef"
             full_reader_ok full_reader_total).
Defined.
End UpdateCommon.
