(* ===== verification/PushAgent.v ===== *)
(** * The push agent ([src/src/chainremote_push_agent.rs])

    A customer's machine polls for a version the headquarters pushed, and
    installs it silently when the version, the business hours, the random
    delay, the absence of remote sessions and the digest of the downloaded file
    all allow it; the result is reported back.

    The state is the program's configuration ([LocalConfig], an interface), the
    two files of the pending directory and the trace of everything the program
    did to the outside.  Whatever the outside answers (clock, hour, HTTP, file
    system, sessions, the installer) comes from an environment indexed by the
    length of the trace, and every such query extends the trace, so no answer
    is shared between two queries. *)

From Stdlib Require Import Ascii Strings.Byte.
From S2P Require Import Prelude RustStr Store World UpdateCommon.
Import UpdateCommon.
#[local] Open Scope Z_scope.

Module PushAgent.
Definition CHAINREMOTE_VERSION : string := "1.4.141".
Definition POLL_INTERVAL : Z := 60 * 5.
Definition FIRST_DELAY : Z := 60 * 3.
Definition TOKEN_KEY : string := "chainremote-heartbeat-token".
Definition FIRST_SEEN_PREFIX : string := "push-first-seen:".
Definition REPORT_RETRY : nat := 3.
Definition REPORT_RETRY_DELAY : Z := 3.
Definition DL_ATTEMPT_PREFIX : string := "push-dl-attempt:".
Definition DL_MAX_ATTEMPTS : Z := 5.
Definition VERIFY_PREFIX : string := "push-verify:".
Definition INSTALL_VERIFY_SECS : Z := 30 * 60.
Definition PENDING_REPORT_KEY : string := "push-pending-report".
(** The option keys of a push ([format!("{}{}", PREFIX, push_id)]). *)
Definition first_seen_key (push_id : string) : string := FIRST_SEEN_PREFIX +:+ push_id.
Definition dl_attempt_key (push_id : string) : string := DL_ATTEMPT_PREFIX +:+ push_id.
Definition verify_key (push_id : string) : string := VERIFY_PREFIX +:+ push_id.
Arguments first_seen_key : simpl never.
Arguments dl_attempt_key : simpl never.
Arguments verify_key : simpl never.

Record PendingResponse := mkPending {
  p_id : option string;
  target_version : string;
  asset_url : string;
  asset_sha256 : string;
  asset_size : Z;
  window_start_hour : Z;
  window_end_hour : Z;
  randomize_max_sec : Z;
}.
Definition default_end_hour : Z := 7.
Definition default_randomize_max_sec : Z := 25200.

(** The JSON body: every field may be missing. *)
Record body := mkBody {
  b_id : option string;
  b_target_version : option string;
  b_asset_url : option string;
  b_asset_sha256 : option string;
  b_asset_size : option Z;
  b_window_start_hour : option Z;
  b_window_end_hour : option Z;
  b_randomize_max_sec : option Z;
}.
Definition pending_of_body (b : body) : PendingResponse := {|
  p_id := b_id b;
  target_version := default EmptyString (b_target_version b);
  asset_url := default EmptyString (b_asset_url b);
  asset_sha256 := default EmptyString (b_asset_sha256 b);
  asset_size := default 0 (b_asset_size b);
  window_start_hour := default 0 (b_window_start_hour b);
  window_end_hour := default default_end_hour (b_window_end_hour b);
  randomize_max_sec := default default_randomize_max_sec (b_randomize_max_sec b);
|}.

(** What the program does to or asks of the outside, oldest last. *)
Inductive event : Type :=
  | EGetId
  | ENow
  | EHour
  | EAlive
  | EFetch (remote_id token : string)
  | EReport (id status reason : string)   (** [report_status] from [finish_report] *)
  | EFlush (id status reason : string)    (** [report_status] from [flush_pending_report] *)
  | ESleep (secs : Z)
  | EMkdir
  | EVerify
  | EDownload (url : string)
  | EWriteTmp
  | ERemove
  | ERename
  | EInstall (id : string) (contents : option (list byte)) (launched : bool).

Inductive dl_write := WOk | WFail (rest : option (list byte)).

(** The environment.  [http_fetch] is the response of the pending endpoint
    (an error covers a failed request, a bad status and a bad body);
    [http_report] whether a report was accepted; [http_get] the bytes of a
    download. *)
Record env := mkEnv {
  get_id : nat -> string;
  now : nat -> Z;
  hour : nat -> Z;
  alive_conns : nat -> list Z;
  http_fetch : nat -> result body string;
  http_report : nat -> result unit string;
  http_get : nat -> result (list byte) string;
  mkdir : nat -> result unit string;
  write_tmp : nat -> dl_write;
  rm_ok : nat -> bool;
  rename : nat -> result unit string;
  read_len : list byte -> nat -> option nat;
  spawn_silent_install : nat -> result unit string;
  is_valid_custom_id : string -> bool;
  default_hash : string -> Z;
  show_verify : verify_error -> string;
}.

(** The two files of the pending directory. *)
Record files := mkFiles { pending_file : option (list byte); partial_file : option (list byte) }.
Definition set_pending (f : option (list byte)) (s : files) : files := mkFiles f (partial_file s).
Definition set_partial (f : option (list byte)) (s : files) : files := mkFiles (pending_file s) f.

Section agent.
Context {C : Type} `{!LocalConfig C} {sha : Sha256} (e : env).

Abbreviation world := (World.world C files event).

Definition in_window (h start_hour end_hour : Z) : bool :=
  if start_hour <=? end_hour then (start_hour <=? h) && (h <? end_hour)
  else (start_hour <=? h) || (h <? end_hour).
Definition within_business_window (start_hour end_hour : Z) (w : world) : bool * world :=
  let '(h, w) := ask (hour e) EHour w in (in_window h start_hour end_hour, w).

Definition now_epoch_sec (w : world) : Z * world := ask (now e) ENow w.

Definition first_seen_at (push_id : string) (now_epoch : Z) (w : world) : Z * world :=
  let key := first_seen_key push_id in
  let stored := get key w in
  match (if negb (is_empty stored) then parse_u64 stored else None) with
  | Some v => (v, w)
  | None => (now_epoch, put key (to_string now_epoch) w)
  end.

Definition bump_dl_attempt (push_id : string) (w : world) : Z * world :=
  let key := dl_attempt_key push_id in
  let n := Int.wrap 32 (default 0 (parse_u32 (get key w)) + 1) in
  (n, put key (to_string n) w).

Definition clear_dl_attempt (push_id : string) : world -> world :=
  put (dl_attempt_key push_id) EmptyString.
Definition set_install_verify (push_id : string) (deadline_epoch : Z) : world -> world :=
  put (verify_key push_id) (to_string deadline_epoch).
Definition get_install_verify (push_id : string) (w : world) : option Z :=
  parse_u64 (get (verify_key push_id) w).
Definition clear_install_verify (push_id : string) : world -> world :=
  put (verify_key push_id) EmptyString.
Definition clear_first_seen (push_id : string) : world -> world :=
  put (first_seen_key push_id) EmptyString.

Definition compute_delay (push_id : string) (max_sec : Z) : Z :=
  if max_sec =? 0 then 0 else default_hash e push_id mod max_sec.

Definition fetch_pending (remote_id token : string) (w : world)
  : result PendingResponse string * world :=
  let is_legacy_numeric_id := negb (is_empty remote_id) && all_chars is_ascii_digit remote_id in
  if negb is_legacy_numeric_id && negb (is_valid_custom_id e remote_id)
  then (Err ("remote_id has unrecognized/unsafe format: " +:+ remote_id), w)
  else
    let '(r, w) := ask (http_fetch e) (EFetch remote_id token) w in
    (let? b := r in Ok (pending_of_body b), w).

Definition report_status (ev : event) (w : world) : result unit string * world :=
  ask (http_report e) ev w.

Definition save_pending_report (push_id status reason : string) : world -> world :=
  put PENDING_REPORT_KEY
    (push_id +:+ String "|"%char (status +:+ String "|"%char reason)).
Definition clear_pending_report : world -> world :=
  put PENDING_REPORT_KEY EmptyString.

(** The attempts still to make; sleeping between two of them. *)
Fixpoint report_loop (attempts : nat) (push_id status reason : string) (w : world)
  : bool * world :=
  match attempts with
  | O => (false, w)
  | S rest =>
      let '(r, w) := report_status (EReport push_id status reason) w in
      if is_ok r then (true, clear_pending_report w)
      else report_loop rest push_id status reason
             (match rest with O => w | _ => log (ESleep REPORT_RETRY_DELAY) w end)
  end.

Definition finish_report (push_id status reason : string) (w : world) : world :=
  let w := clear_first_seen push_id w in
  let w := clear_dl_attempt push_id w in
  let w := clear_install_verify push_id w in
  let '(sent, w) := report_loop REPORT_RETRY push_id status reason w in
  if sent then w else save_pending_report push_id status reason w.

Definition flush_pending_report (w : world) : world :=
  let raw := get PENDING_REPORT_KEY w in
  if is_empty raw then w else
  match splitn 3 "|"%char raw with
  | [id; status; reason] =>
      let '(r, w) := report_status (EFlush id status reason) w in
      if is_ok r then clear_pending_report w else w
  | _ => clear_pending_report w
  end.

Definition ensure_pending_dir (w : world) : result unit string * world := ask (mkdir e) EMkdir w.

Definition download_to (url : string) (w : world) : result unit string * world :=
  let '(r, w) := ask (http_get e) (EDownload url) w in
  match r with
  | Err x => (Err x, w)
  | Ok bytes =>
      let '(wr, w) := ask (write_tmp e) EWriteTmp w in
      match wr with
      | WFail rest => (Err "write", upd (set_partial rest) w)
      | WOk =>
          let w := upd (set_partial (Some bytes)) w in
          let w := match pending_file (st w) with
                   | Some old => let '(ok, w) := ask (rm_ok e) ERemove w in
                                 if (ok : bool) then upd (set_pending None) w else w
                   | None => w
                   end in
          let '(rn, w) := ask (rename e) ERename w in
          match rn with
          | Err x => (Err x, w)
          | Ok _ => (Ok tt, upd (set_partial None) (upd (set_pending (Some bytes)) w))
          end
      end
  end.

(** [verify_sha256] on the pending file.  Its fuel is never exhausted
    ([hash_loop_spec]), so the third case does not occur. *)
Definition verify (expected : string) (w : world) : result unit verify_error * world :=
  let '(ok, w) := ask (rm_ok e) EVerify w in
  match verify_sha256 (read_len e) ok (pending_file (st w)) expected with
  | Some (r, f) => (r, upd (set_pending f) w)
  | None => (Err VIo, w)
  end.

Definition spawn (push_id : string) (w : world) : result unit string * world :=
  let r := spawn_silent_install e (clk w) in
  (r, log (EInstall push_id (pending_file (st w)) (is_ok r)) w).

(** The download, its verification, and the message of whichever failed. *)
Definition download_and_verify (p : PendingResponse) (w : world) : result unit string * world :=
  let '(r, w) := download_to (asset_url p) w in
  match r with
  | Err x => (Err ("download failed: " +:+ x), w)
  | Ok _ =>
      let '(r, w) := verify (asset_sha256 p) w in
      match r with
      | Err x => (Err ("sha mismatch (manifest expected=" +:+ trim (asset_sha256 p) +:+ "): "
                       +:+ show_verify e x), w)
      | Ok _ => (Ok tt, w)
      end
  end.

(** The file is there and right, or is fetched; [false]: the tick ends. *)
Definition obtain (p : PendingResponse) (push_id : string) (w : world) : bool * world :=
  let '(valid, w) :=
    match pending_file (st w) with
    | Some _ => let '(r, w) := verify (asset_sha256 p) w in (is_ok r, w)
    | None => (false, w)
    end in
  if (valid : bool) then (true, w) else
  let '(outcome, w) := download_and_verify p w in
  match outcome with
  | Ok _ => (true, clear_dl_attempt push_id w)
  | Err msg =>
      let '(n, w) := bump_dl_attempt push_id w in
      if n <? DL_MAX_ATTEMPTS then (false, w)
      else (false, finish_report push_id "failed"
                     (msg +:+ " (after " +:+ to_string n +:+ " attempts)") w)
  end.

Definition install (push_id : string) (w : world) : world :=
  let '(r, w) := spawn push_id w in
  match r with
  | Ok _ => let '(t, w) := now_epoch_sec w in
            set_install_verify push_id (Int.wrap 64 (t + INSTALL_VERIFY_SECS)) w
  | Err msg => finish_report push_id "failed" msg w
  end.

(** The guards between a newer version and the download. *)
Definition ready (p : PendingResponse) (push_id : string) (w : world) : bool * world :=
  let '(inside, w) := within_business_window (window_start_hour p) (window_end_hour p) w in
  if negb inside then (false, w) else
  let '(now_epoch, w) := now_epoch_sec w in
  let '(first_seen, w) := first_seen_at push_id now_epoch w in
  let delay := compute_delay push_id (randomize_max_sec p) in
  let ready_at := Int.wrap 64 (first_seen + delay) in
  if now_epoch <? ready_at then (false, w) else
  let '(alive, w) := ask (alive_conns e) EAlive w in
  (match alive with [] => true | _ => false end, w).

Definition process (p : PendingResponse) (push_id : string) (w : world) : result unit string * world :=
  match is_newer_str (target_version p) CHAINREMOTE_VERSION with
  | Ok false => (Ok tt, finish_report push_id "applied" "already up to date" w)
  | Err _ => (Ok tt, finish_report push_id "failed" "unparseable target_version" w)
  | Ok true =>
      match get_install_verify push_id w with
      | Some deadline =>
          let '(t, w) := now_epoch_sec w in
          if t <? deadline then (Ok tt, w)
          else (Ok tt, finish_report push_id "failed"
                         ("installer ran but version is still v" +:+ CHAINREMOTE_VERSION
                          +:+ " after " +:+ to_string INSTALL_VERIFY_SECS +:+ "s") w)
      | None =>
          if negb (is_valid_sha256_hex (asset_sha256 p))
          then (Ok tt, finish_report push_id "failed" "invalid asset_sha256 in push manifest" w)
          else
            let '(go, w) := ready p push_id w in
            if negb go then (Ok tt, w) else
            let '(r, w) := ensure_pending_dir w in
            match r with
            | Err x => (Err x, w)
            | Ok _ =>
                let '(have, w) := obtain p push_id w in
                (Ok tt, if (have : bool) then install push_id w else w)
            end
      end
  end.

Definition tick (w : world) : result unit string * world :=
  let '(remote_id, w) := ask (get_id e) EGetId w in
  if is_empty remote_id then (Err "remote_id empty (hbbs registration pending)", w) else
  let token := get TOKEN_KEY w in
  if is_empty token
  then (Err "no heartbeat token yet (waiting for heartbeat module to register)", w)
  else
    let w := flush_pending_report w in
    let '(r, w) := fetch_pending remote_id token w in
    match r with
    | Err x => (Err x, w)
    | Ok p => match p_id p with
              | None => (Ok tt, w)
              | Some push_id => process p push_id w
              end
    end.

(** [start_in_service]'s thread, [n] rounds of it: an error of a tick is
    logged and the loop goes on.  Only the agent build runs it. *)
Fixpoint polls (n : nat) (w : world) : world :=
  match n with
  | O => w
  | S n => polls n (log (ESleep POLL_INTERVAL) (tick w).2)
  end.
Definition start_in_service (is_incoming_only : bool) (n : nat) (w : world) : world :=
  if is_incoming_only then polls n (log (ESleep FIRST_DELAY) w) else w.

(** Different keys: the prefixes already differ. *)
Ltac keys :=
  unfold first_seen_key, dl_attempt_key, verify_key, FIRST_SEEN_PREFIX, DL_ATTEMPT_PREFIX, VERIFY_PREFIX, PENDING_REPORT_KEY, TOKEN_KEY;
  simpl; congruence.

(** *** What each operation adds to the trace and writes to the options *)
Definition plain_ev (ev : event) : Prop :=
  match ev with EInstall _ _ _ | EReport _ _ _ | EFetch _ _ => False | _ => True end.
Definition quiet_ev (ev : event) : Prop :=
  match ev with EInstall _ _ _ | EFetch _ _ => False | _ => True end.
Definition not_verify_key (k : string) : Prop := forall id, k <> verify_key id.
Abbreviation plain := (evolves (C:=C) (St:=files) plain_ev not_verify_key).
Abbreviation quiet := (evolves (C:=C) (St:=files) quiet_ev (λ _, True)).

Lemma plain_quiet w w' : plain w w' -> quiet w w'.
Proof. apply evolves_weaken; [by intros [] | done]. Qed.

Lemma nvk_first id : not_verify_key (first_seen_key id).
Proof. intros id'. keys. Qed.
Lemma nvk_dl id : not_verify_key (dl_attempt_key id).
Proof. intros id'. keys. Qed.
Lemma nvk_report : not_verify_key PENDING_REPORT_KEY.
Proof. intros id'. keys. Qed.
#[local] Hint Resolve nvk_first nvk_dl nvk_report plain_quiet : world.
#[local] Hint Extern 1 (plain_ev _) => exact I : world.
#[local] Hint Extern 1 (quiet_ev _) => exact I : world.

Ltac by_cases := world_cases; eauto 12 with world.

Lemma flush_plain w : plain w (flush_pending_report w).
Proof. unfold flush_pending_report, report_status, clear_pending_report. by_cases. Qed.
Lemma first_seen_plain id t w : plain w (first_seen_at id t w).2.
Proof. unfold first_seen_at. by_cases. Qed.
Lemma bump_plain id w : plain w (bump_dl_attempt id w).2.
Proof. unfold bump_dl_attempt. eauto with world. Qed.
(** Downloading and verifying write no option at all. *)
Definition io_ev (ev : event) : Prop :=
  match ev with
  | EVerify | EDownload _ | EWriteTmp | ERemove | ERename => True
  | _ => False
  end.
Abbreviation io := (evolves (C:=C) (St:=files) io_ev (λ _, False)).
#[local] Hint Extern 1 (io_ev _) => exact I : world.
Lemma io_plain w w' : io w w' -> plain w w'.
Proof. apply evolves_weaken; [by intros []|done]. Qed.
#[local] Hint Resolve io_plain : world.
Lemma download_io u w : io w (download_to u w).2.
Proof. unfold download_to. by_cases. Qed.
Lemma verify_io x w : io w (verify x w).2.
Proof. unfold verify. by_cases. Qed.
Lemma download_verify_io p w : io w (download_and_verify p w).2.
Proof.
  unfold download_and_verify. pose proof (download_io (asset_url p) w) as H.
  destruct (download_to _ w) as [[|] w1]; simpl in *; [|done].
  pose proof (verify_io (asset_sha256 p) w1) as H1.
  destruct (verify _ w1) as [[|] w2]; simpl in *; by eapply evolves_trans.
Qed.

Lemma ready_plain p id w : plain w (ready p id w).2.
Proof.
  unfold ready, within_business_window, now_epoch_sec, ask. simpl.
  destruct (in_window _ _ _); simpl; [|eauto with world].
  set (w1 := log ENow _). pose proof (first_seen_plain id (now e (clk (log EHour w))) w1) as H.
  destruct (first_seen_at _ _ w1) as [fs w2]. simpl in H.
  assert (plain w w2) by (eapply evolves_trans; [|exact H]; unfold w1; eauto with world).
  by_cases.
Qed.

Lemma report_loop_spec n id s r w :
  let '(sent, w') := report_loop n id s r w in
  evolves (λ ev, plain_ev ev \/ ev = EReport id s r) (λ k, k = PENDING_REPORT_KEY) w w'
  /\ (n <> O -> In (EReport id s r) (trace w')).
Proof.
  revert w. induction n as [|n IH]; intros w; simpl; [by split; [apply ev_refl|]|].
  destruct (is_ok _); simpl.
  - split; [|by left]. apply ev_put; [done|]. apply ev_log; [by right|]. apply ev_refl.
  - set (w1 := match n with O => _ | _ => _ end). specialize (IH w1).
    assert (Hw : evolves (λ ev, plain_ev ev \/ ev = EReport id s r)
                   (λ k, k = PENDING_REPORT_KEY) w w1).
    { unfold w1. destruct n; repeat (apply ev_log; [first [by left | by right]|]); apply ev_refl. }
    destruct (report_loop n id s r w1) as [sent w2]. destruct IH as [H1 H2].
    split; [by eapply evolves_trans|]. intros _. destruct n; [|by apply H2].
    destruct (evolves_trace _ _ _ _ H1) as (evs & -> & _). apply in_app_iff. right. by left.
Qed.

(** A report ends a push: its three markers are cleared, at least one report
    was sent, and nothing else happened. *)
Lemma finish_report_spec id s r w : let w' := finish_report id s r w in
  evolves (λ ev, plain_ev ev \/ ev = EReport id s r)
    (λ k, not_verify_key k \/ k = verify_key id) w w'
  /\ (exists evs, trace w' = evs ++ trace w /\ In (EReport id s r) evs)
  /\ get (verify_key id) w' = EmptyString
  /\ get (dl_attempt_key id) w' = EmptyString.
Proof.
  unfold finish_report.
  set (w3 := clear_install_verify id (clear_dl_attempt id (clear_first_seen id w))).
  set (K := λ k, not_verify_key k \/ k = verify_key id).
  assert (H0 : evolves (λ ev, plain_ev ev \/ ev = EReport id s r) K w w3).
  { unfold w3, clear_install_verify, clear_dl_attempt, clear_first_seen, K.
    repeat (apply ev_put; [by auto with world|]). apply ev_refl. }
  pose proof (report_loop_spec REPORT_RETRY id s r w3) as H.
  assert (Hl : exists evs, trace (report_loop REPORT_RETRY id s r w3).2 = evs ++ trace w3
                           /\ In (EReport id s r) evs).
  { simpl. destruct (is_ok _); simpl; [eexists [_]; split; [done|by left]|].
    destruct (is_ok _); simpl; [eexists [_;_;_]; split; [done|by left]|].
    destruct (is_ok _); simpl; eexists [_;_;_;_;_]; (split; [done|by left]). }
  destruct (report_loop _ _ _ _ w3) as [sent w4]. destruct H as [H1 _]. simpl in Hl.
  destruct Hl as (evs & Ht & Hin).
  assert (Hk : forall k, k <> PENDING_REPORT_KEY ->
            get k (if sent then w4 else save_pending_report id s r w4) = get k w3).
  { intros k Hne. transitivity (get k w4).
    - destruct sent; [done|]. unfold save_pending_report. by rewrite get_put_ne.
    - by apply (evolves_get _ _ _ _ _ H1). }
  split; [|split; [|split]].
  - assert (evolves (λ ev, plain_ev ev \/ ev = EReport id s r) K w w4).
    { eapply evolves_trans; [exact H0|]. eapply evolves_weaken; [| |exact H1]; [done|].
      intros k ->. left. apply nvk_report. }
    destruct sent; [done|]. apply ev_put; [left; apply nvk_report|done].
  - exists evs. split; [|done]. destruct sent; exact Ht.
  - rewrite Hk by keys. apply get_put_eq.
  - rewrite Hk by keys.
    unfold w3, clear_install_verify. rewrite get_put_ne by keys. apply get_put_eq.
Qed.

Lemma finish_report_In ev id s r w :
  In ev (trace w) -> In ev (trace (finish_report id s r w)).
Proof.
  destruct (finish_report_spec id s r w) as (_ & (evs & -> & _) & _).
  intros H. apply in_app_iff. by right.
Qed.

Lemma finish_report_quiet id s r w : quiet w (finish_report id s r w).
Proof.
  destruct (finish_report_spec id s r w) as [H _]. eapply evolves_weaken; [| |exact H]; [|done].
  intros ev [H'| ->]; [|done]. by destruct ev.
Qed.

(** *** The digest *)
Lemma verify_ok x w w' : reader_ok (read_len e) -> verify x w = (Ok tt, w') ->
  exists data, pending_file (st w') = Some data /\ digest_ok x data.
Proof.
  intros Hr. unfold verify. simpl.
  destruct (verify_sha256 _ _ _ _) as [[r f]|] eqn:E; [|done].
  intros [= -> <-]. simpl. by eapply verify_sha256_ok.
Qed.

(** The ways [obtain] ends: with a verified file, or after a failure counted
    by the attempt counter, which reports from the fifth on. *)
Definition attempts (id : string) (w : world) : Z :=
  default 0 (parse_u32 (get (dl_attempt_key id) w)).

Lemma obtain_cases p id w : exists w0, io w w0 /\
  let n := Int.wrap 32 (attempts id w + 1) in
  let w1 := put (dl_attempt_key id) (to_string n) w0 in
  ((obtain p id w = (true, w0) \/ obtain p id w = (true, clear_dl_attempt id w0))
    /\ exists wv, (verify (asset_sha256 p) wv = (Ok tt, w0)))
  \/ (n < DL_MAX_ATTEMPTS /\ obtain p id w = (false, w1))
  \/ (DL_MAX_ATTEMPTS <= n /\ exists msg, obtain p id w = (false, finish_report id "failed" msg w1)).
Proof.
  unfold obtain. pose proof (verify_io (asset_sha256 p) w) as Hv.
  set (v := match pending_file (st w) with Some _ => _ | None => _ end).
  assert (Hv2 : io w v.2 /\ (v.1 = true -> exists wv, verify (asset_sha256 p) wv = (Ok tt, v.2))).
  { unfold v. destruct (pending_file _); [|by split; [apply ev_refl|]].
    destruct (verify _ w) as [[[]|er] w1] eqn:E; simpl in *; split; eauto. done. }
  destruct Hv2 as [Hv2 Hv3]. destruct v as [[|] w3]; simpl in Hv2, Hv3; [exists w3; auto 6|].
  pose proof (download_verify_io p w3) as Hdv. unfold download_and_verify in *.
  destruct (download_to _ w3) as [[u|msg] w4]; simpl in Hdv.
  - destruct (verify _ w4) as [[[]|er] w5] eqn:Ev; simpl in Hdv.
    + exists w5. split; [by eapply evolves_trans|]. left. eauto.
    + exists w5. split; [by eapply evolves_trans|]. right. unfold bump_dl_attempt, attempts.
      rewrite (evolves_get _ _ _ _ _ Hdv), (evolves_get _ _ _ _ _ Hv2) by auto.
      destruct (_ <? _) eqn:En; bool_prop; eauto.
  - exists w4. split; [by eapply evolves_trans|]. right. unfold bump_dl_attempt, attempts.
    rewrite (evolves_get _ _ _ _ _ Hdv), (evolves_get _ _ _ _ _ Hv2) by auto.
    destruct (_ <? _) eqn:En; bool_prop; eauto.
Qed.

Lemma obtain_plain p id w : exists w1, plain w w1 /\
  (obtain p id w = (true, w1) \/ obtain p id w = (false, w1)
   \/ exists msg, obtain p id w = (false, finish_report id "failed" msg w1)).
Proof.
  destruct (obtain_cases p id w) as (w0 & Hp & [[[E|E] _]|[[_ E]|[_ E]]]).
  - exists w0. auto with world.
  - eexists. split; [|by left]. unfold clear_dl_attempt. auto with world.
  - eexists. split; [|by right; left]. auto with world.
  - eexists. split; [|by right; right]. auto with world.
Qed.

Lemma obtain_quiet p id w : quiet w (obtain p id w).2.
Proof.
  destruct (obtain_plain p id w) as (w1 & Hp & [-> |[-> |(msg & ->)]]); simpl;
    [by apply plain_quiet..|].
  eapply evolves_trans; [by apply plain_quiet|]. apply finish_report_quiet.
Qed.

Lemma obtain_ok p id w w' : reader_ok (read_len e) -> obtain p id w = (true, w') ->
  (exists evs, trace w' = evs ++ trace w /\ Forall io_ev evs)
  /\ exists data, pending_file (st w') = Some data /\ digest_ok (asset_sha256 p) data.
Proof.
  intros Hr H. destruct (obtain_cases p id w) as (w0 & Hio & [[Hc (wv & Hv)]|[[_ E]|[_ (m & E)]]]);
    [|congruence..].
  apply evolves_trace in Hio. destruct (verify_ok _ _ _ Hr Hv) as (data & ? & ?).
  destruct Hc as [E|E]; rewrite E in H; injection H as <-; eauto.
Qed.

(** *** When an installer may start *)

(** When the installer of push [id] starts on the file [contents], in the tick
    that began in [w]: the push answered last has this id, a newer version, and
    no earlier installer of it awaits judgement; the hour asked for last is in
    the window, the time asked for last is after the random delay since the push
    was first seen, the last look at the sessions showed none, and the file has
    the pushed digest. *)
Definition guards (p : PendingResponse) (w : world) (tr : list event) (id : string)
    (contents : option (list byte)) : Prop :=
  p_id p = Some id
  /\ is_newer_str (target_version p) CHAINREMOTE_VERSION = Ok true
  /\ get_install_verify id w = None
  /\ last_asked EHour (λ k, in_window (hour e k) (window_start_hour p) (window_end_hour p) = true)
       (trace w) tr
  /\ last_asked ENow (λ k, exists first_seen,
       (parse_u64 (get (first_seen_key id) w) = Some first_seen \/ first_seen = now e k)
       /\ Int.wrap 64 (first_seen + compute_delay id (randomize_max_sec p)) <= now e k) (trace w) tr
  /\ last_asked EAlive (λ k, alive_conns e k = []) (trace w) tr
  /\ (exists data, contents = Some data /\ digest_ok (asset_sha256 p) data).
Definition install_allowed (w : world) (tr : list event) (id : string)
    (contents : option (list byte)) : Prop :=
  exists remote_id token b,
    last_asked (EFetch remote_id token) (λ k, http_fetch e k = Ok b) (trace w) tr
    /\ guards (pending_of_body b) w tr id contents.

(** Every installer started since [w] on has the guards of [p] behind it. *)
Definition guard_ev (p : PendingResponse) (w : world) (tr : list event) (ev : event) : Prop :=
  match ev with
  | EInstall id contents _ => guards p w tr id contents
  | EFetch _ _ => False
  | _ => True
  end.
Abbreviation ok_install p w w' := (guarded (guard_ev p w) (trace w) (trace w')).

Lemma quiet_ok p w w1 w2 : quiet w1 w2 -> guarded (guard_ev p w) (trace w1) (trace w2).
Proof. intros H. eapply guarded_evolves; [exact H|]. by intros ? []. Qed.

(** The three questions of [ready], in their order. *)
Lemma ready_true p id w w' : ready p id w = (true, w') ->
  trace w' = EAlive :: ENow :: EHour :: trace w
  /\ in_window (hour e (clk w)) (window_start_hour p) (window_end_hour p) = true
  /\ (exists first_seen,
       (parse_u64 (get (first_seen_key id) w) = Some first_seen \/ first_seen = now e (S (clk w)))
       /\ Int.wrap 64 (first_seen + compute_delay id (randomize_max_sec p)) <= now e (S (clk w)))
  /\ alive_conns e (S (S (clk w))) = [].
Proof.
  unfold ready, within_business_window, now_epoch_sec, ask, clk.
  cbn -[first_seen_at compute_delay]. destruct (in_window _ _ _) eqn:Ew; [|done].
  cbn -[first_seen_at compute_delay].
  destruct (first_seen_at _ _ _) as [fs w2] eqn:Ef.
  destruct (_ <? Int.wrap 64 _) eqn:Et; [done|]. intros H.
  destruct (alive_conns _ _) eqn:Ea; [|done]. injection H as <-.
  unfold first_seen_at in Ef. rewrite !get_log in Ef. simpl.
  assert (Ht : trace w2 = ENow :: EHour :: trace w) by (repeat case_hyp Ef; by injection Ef as _ <-).
  rewrite Ht in Ea |- *. do 2 (split; [done|]). split; [|exact Ea]. bool_prop. exists fs. split; [|done].
  destruct (negb _); [destruct (parse_u64 _)|]; injection Ef as <- _; auto.
Qed.

Lemma process_install p id w : reader_ok (read_len e) -> p_id p = Some id ->
  ok_install p w (process p id w).2.
Proof.
  intros Hr Hid. unfold process.
  destruct (is_newer_str _ _) as [[|]|] eqn:En; [|apply quiet_ok, finish_report_quiet..].
  destruct (get_install_verify id w) as [d|] eqn:Ed.
  { apply (quiet_ok _ _ w). unfold now_epoch_sec, ask. destruct (_ <? d); simpl.
    - auto with world.
    - eapply evolves_trans; [|apply finish_report_quiet]. auto with world. }
  destruct (negb _); [apply quiet_ok, finish_report_quiet|].
  pose proof (ready_plain p id w) as Hp. destruct (ready p id w) as [go w1] eqn:Eg. simpl in Hp.
  destruct go; cbn [negb]; [|by apply quiet_ok, plain_quiet].
  destruct (ready_true _ _ _ _ Eg) as (Ht1 & H1 & H2 & H3).
  unfold ensure_pending_dir, ask.
  destruct (mkdir e _); [|apply (quiet_ok _ _ w (log EMkdir w1)); auto with world].
  pose proof (obtain_quiet p id (log EMkdir w1)) as Hq.
  destruct (obtain p id _) as [have w2] eqn:Eo. simpl in Hq.
  assert (quiet w w2) as Hw2.
  { eapply evolves_trans; [|exact Hq]. auto with world. }
  destruct have; [|by apply quiet_ok].
  destruct (obtain_ok _ _ _ _ Hr Eo) as (Hio & data & Hf & Hd).
  assert (Hg : guards p w (trace w2) id (pending_file (st w2))).
  { assert (La : forall ev P, ~ io_ev ev -> last_asked ev P (trace w) (EMkdir :: trace w1) ->
      last_asked ev P (trace w) (trace w2)).
    { intros ev P Hn. destruct Hio as (evs & -> & F). apply last_asked_app.
      rewrite List.Forall_forall in F. auto. }
    do 3 (split; [done|]). rewrite Ht1 in La. unfold clk in *. split; [|split; [|split; [|by exists data]]];
      (apply La; [exact (λ x, x)|]).
    - exists [EMkdir; EAlive; ENow], []. simpl. intuition done.
    - exists [EMkdir; EAlive], [EHour]. simpl. intuition done.
    - exists [EMkdir], [ENow; EHour]. simpl. intuition done. }
  unfold install, spawn. cbn [fst snd].
  set (w3 := log (EInstall id _ _) w2).
  assert (Hi : ok_install p w w3) by (apply g_cons; [exact Hg|by apply quiet_ok]).
  eapply guarded_trans; [exact Hi|]. destruct (spawn_silent_install e (clk w2)).
  - apply (quiet_ok _ _ w3). unfold now_epoch_sec, ask, set_install_verify. auto with world.
  - apply (quiet_ok _ _ w3), finish_report_quiet.
Qed.

Lemma flush_get w k : k <> PENDING_REPORT_KEY ->
  get k (flush_pending_report w) = get k w.
Proof.
  intros Hk. unfold flush_pending_report, report_status, clear_pending_report.
  world_cases; rewrite ?get_put_ne; by rewrite ?get_log.
Qed.

(** Seen from the start of the tick, which only flushed a report before. *)
Lemma guards_earlier p w w' evs tr id c : trace w' = evs ++ trace w ->
  (forall k, k <> PENDING_REPORT_KEY -> get k w' = get k w) ->
  guards p w' tr id c -> guards p w tr id c.
Proof.
  intros Ht Hg. unfold guards, get_install_verify.
  rewrite (Hg (verify_key id)), (Hg (first_seen_key id)), Ht by keys.
  intros (? & ? & ? & H1%last_asked_base & H2%last_asked_base & H3%last_asked_base & ?). done.
Qed.

(** C4: an installer only ever starts on the push the headquarters answered
    last, for a version newer than the running one, inside the business
    hours, after the random delay, with no remote session at the last look, and
    on a file whose SHA-256 is the pushed one; and never while an earlier
    installer of the same push awaits its judgement. *)
Theorem install_only_when_allowed w :
  reader_ok (read_len e) ->
  exists evs, trace (tick w).2 = evs ++ trace w /\
  forall t1 id contents launched t2, evs = t1 ++ EInstall id contents launched :: t2 ->
  install_allowed w (t2 ++ trace w) id contents.
Proof.
  intros Hr.
  assert (H : guarded (λ tr ev, match ev with
      | EInstall id c _ => install_allowed w tr id c | _ => True end) (trace w) (trace (tick w).2)).
  2:{ destruct (guarded_split _ _ _ H) as (evs & Ht & F). exists evs. split; [done|].
      intros t1 id c l t2 ->. exact (F t1 _ t2 eq_refl). }
  assert (Hq : forall w', quiet w w' -> guarded (λ tr ev, match ev with
      | EInstall id c _ => install_allowed w tr id c | _ => True end) (trace w) (trace w')).
  { intros w' Hw. eapply guarded_evolves; [exact Hw|]. by intros ? []. }
  unfold tick, ask. destruct (is_empty _); [apply Hq; simpl; auto with world|].
  destruct (is_empty _); [apply Hq; simpl; auto with world|].
  pose proof (flush_plain (log EGetId w)) as Hf. pose proof (flush_get (log EGetId w)) as Hfg.
  set (w1 := flush_pending_report (log EGetId w)) in *.
  assert (H1 : quiet w w1) by (apply plain_quiet; eapply evolves_trans; [|exact Hf]; auto with world).
  unfold fetch_pending, ask. destruct (negb _ && _); [apply Hq, H1|].
  set (rid := get_id e (clk w)). set (tok := get TOKEN_KEY _).
  set (w2 := log (EFetch rid tok) w1).
  assert (H2 : guarded (λ tr ev, match ev with
      | EInstall id c _ => install_allowed w tr id c | _ => True end) (trace w) (trace w2)).
  { apply g_cons; [done|]. apply Hq, H1. }
  destruct (http_fetch e (clk w1)) as [b|] eqn:Eb; [|exact H2].
  destruct (p_id (pending_of_body b)) as [id|] eqn:Eid; [|exact H2].
  eapply guarded_trans; [exact H2|]. destruct (evolves_trace _ _ _ _ H1) as (evs & Ht & _).
  assert (L : last_asked (EFetch rid tok) (λ k, http_fetch e k = Ok b) (trace w) (trace w2)).
  { simpl. unfold clk in Eb. rewrite Ht in Eb |- *. by apply last_asked_now. }
  apply (guarded_impl (guard_ev (pending_of_body b) w2) _ (λ ev, ev <> EFetch rid tok));
    [by intros ? []| |by apply process_install].
  intros evs' [| | | | | | | | | | | | | |i c l] Hn Hev; try done.
  exists rid, tok, b. split.
  { apply last_asked_app; [|exact L]. intros Hin. rewrite List.Forall_forall in Hn. by apply Hn in Hin. }
  apply (guards_earlier _ w w2 (EFetch rid tok :: evs)); [simpl; by rewrite Ht| |exact Hev].
  intros k Hk. unfold w2. rewrite get_log. apply (Hfg k Hk).
Qed.

(** *** One installer at a time *)

(** The last thing that happened to this push, newest event first, was a
    launched installer and not a report. *)
Fixpoint launched_open (id : string) (tr : list event) : bool :=
  match tr with
  | [] => false
  | EInstall id' _ true :: tr => String.eqb id' id || launched_open id tr
  | EReport id' _ _ :: tr => negb (String.eqb id' id) && launched_open id tr
  | _ :: tr => launched_open id tr
  end.
Definition no_overlap (tr : list event) : Prop :=
  forall t1 id c l t2, tr = t1 ++ EInstall id c l :: t2 -> launched_open id t2 = false.
Definition one_installer (w : world) : Prop :=
  no_overlap (trace w) /\
  forall id, launched_open id (trace w) = true -> get_install_verify id w <> None.

Lemma no_overlap_cons ev tr : no_overlap tr ->
  (forall id c l, ev = EInstall id c l -> launched_open id tr = false) -> no_overlap (ev :: tr).
Proof.
  intros H Hev [|x t1] id c l t2; simpl; intros [= -> ->]; [by eapply Hev|]. by eapply H.
Qed.

Lemma no_overlap_app evs tr : Forall quiet_ev evs -> no_overlap tr -> no_overlap (evs ++ tr).
Proof.
  induction 1 as [|ev evs Hev _ IH]; intros H; simpl; [done|].
  apply no_overlap_cons; [by apply IH|]. by intros ? ? ? ->.
Qed.

Lemma launched_open_plain id evs tr : Forall plain_ev evs ->
  launched_open id (evs ++ tr) = launched_open id tr.
Proof. induction 1 as [|ev evs Hev _ IH]; simpl; [done|]. by destruct ev. Qed.

Lemma launched_open_report id id' s r evs tr :
  Forall (λ ev, plain_ev ev \/ ev = EReport id s r) evs -> id' <> id ->
  launched_open id' (evs ++ tr) = launched_open id' tr.
Proof.
  intros H Hne. induction H as [|ev evs [Hev| ->] _ IH]; simpl; [done|by destruct ev|].
  apply not_eq_sym, String.eqb_neq in Hne. by rewrite Hne.
Qed.

Lemma launched_open_reported id s r evs tr :
  Forall (λ ev, plain_ev ev \/ ev = EReport id s r) evs -> In (EReport id s r) evs ->
  launched_open id (evs ++ tr) = false.
Proof.
  induction 1 as [|ev evs [Hev| ->] _ IH]; simpl; [done| |by rewrite String.eqb_refl].
  intros [->|Hin]; [done|]. specialize (IH Hin). by destruct ev.
Qed.

Lemma one_installer_plain w w' : plain w w' -> one_installer w -> one_installer w'.
Proof.
  intros Hp [H1 H2]. destruct (evolves_trace _ _ _ _ Hp) as (evs & Ht & Hf).
  unfold one_installer. rewrite Ht. split.
  - apply no_overlap_app; [|done]. eapply Forall_impl; [exact Hf|]. by intros [].
  - intros id. rewrite launched_open_plain by done. intros Hl. unfold get_install_verify.
    rewrite (evolves_get _ _ _ _ (verify_key id) Hp); [by apply H2|]. intros H. by apply (H id).
Qed.

Lemma verify_key_inj id id' : verify_key id = verify_key id' -> id = id'.
Proof. apply str_app_inj_l. Qed.

Lemma one_installer_report id s r w : one_installer w -> one_installer (finish_report id s r w).
Proof.
  intros [H1 H2]. destruct (finish_report_spec id s r w) as (He & (evs & Ht & Hin) & _ & _).
  destruct (evolves_trace _ _ _ _ He) as (evs' & Ht' & Hf).
  assert (evs' = evs) as -> by (rewrite Ht in Ht'; by apply app_inv_tail in Ht').
  unfold one_installer. rewrite Ht. split.
  - apply no_overlap_app; [|done]. eapply Forall_impl; [exact Hf|].
    intros ev [Hev| ->]; [by destruct ev|done].
  - intros id' Hl. destruct (decide (id' = id)) as [->|Hne].
    + by rewrite (launched_open_reported _ s r) in Hl.
    + rewrite (launched_open_report id _ s r) in Hl by done. unfold get_install_verify.
      rewrite (evolves_get _ _ _ _ (verify_key id') He); [by apply H2|].
      intros [H|H]; [by apply (H id')|]. by apply verify_key_inj in H.
Qed.

Lemma wrap_parse_u64 z : parse_u64 (to_string (Int.wrap 64 z)) = Some (Int.wrap 64 z).
Proof.
  apply parse_to_string. pose proof (Int.wrap_in 64 z ltac:(lia)) as H.
  unfold Int.in_u, Int.u64_max in *. lia.
Qed.

Lemma one_installer_install id w : get_install_verify id w = None ->
  one_installer w -> one_installer (install id w).
Proof.
  intros Hn [H1 H2]. assert (Hl : launched_open id (trace w) = false).
  { destruct (launched_open id (trace w)) eqn:E; [|done]. by apply H2 in E. }
  unfold install, spawn. simpl.
  set (w1 := log (EInstall _ _ _) w).
  assert (no_overlap (trace w1)).
  { apply no_overlap_cons; [done|]. by intros ? ? ? [= <- _ _]. }
  destruct (spawn_silent_install e (clk w)) eqn:Es; simpl.
  - split; simpl.
    + apply no_overlap_cons; [done|]. done.
    + intros id'. unfold get_install_verify, set_install_verify, w1. rewrite get_put, !get_log.
      case_decide as E; [by rewrite wrap_parse_u64|]. simpl.
      destruct (String.eqb_spec id id') as [->|]; [done|]. apply H2.
  - apply one_installer_report. split; [done|]. intros id'. unfold w1. simpl. apply H2.
Qed.

Lemma one_installer_process p id w : one_installer w -> one_installer (process p id w).2.
Proof.
  intros H. unfold process.
  destruct (is_newer_str _ _) as [[|]|]; [|by apply one_installer_report..].
  destruct (get_install_verify id w) as [d|] eqn:Ed.
  { unfold now_epoch_sec, ask. assert (one_installer (log ENow w)).
    { eapply one_installer_plain; [|exact H]. auto with world. }
    destruct (_ <? d); simpl; [done|]. by apply one_installer_report. }
  destruct (negb _); [by apply one_installer_report|].
  pose proof (ready_plain p id w) as Hp. destruct (ready p id w) as [go w1]. simpl in Hp.
  destruct go; cbn [negb]; [|by eapply one_installer_plain].
  assert (Hp1 : plain w (log EMkdir w1)) by auto with world.
  unfold ensure_pending_dir, ask.
  destruct (mkdir e _); [|by eapply one_installer_plain]. simpl.
  set (w2 := log EMkdir w1) in *.
  assert (Hd : get_install_verify id w2 = None).
  { unfold get_install_verify. rewrite (evolves_get _ _ _ _ _ Hp1); [done|].
    intros Hk. by apply (Hk id). }
  assert (H2 : one_installer w2) by (by eapply one_installer_plain).
  destruct (obtain_plain p id w2) as (w3 & H3 & [-> |[-> |(msg & ->)]]); simpl; cycle 1.
  { by eapply one_installer_plain. }
  { apply one_installer_report. by eapply one_installer_plain. }
  apply one_installer_install.
  - unfold get_install_verify. rewrite (evolves_get _ _ _ _ _ H3); [done|].
    intros Hk. by apply (Hk id).
  - by eapply one_installer_plain.
Qed.

Lemma one_installer_tick w : one_installer w -> one_installer (tick w).2.
Proof.
  intros H. unfold tick, ask.
  assert (H1 : one_installer (log EGetId w)) by (eapply one_installer_plain; [|exact H]; auto with world).
  destruct (is_empty _); [done|]. destruct (is_empty _); [done|].
  set (w1 := flush_pending_report _).
  assert (H2 : one_installer w1) by (eapply one_installer_plain; [apply flush_plain|done]).
  set (rid := get_id e _). set (tok := get TOKEN_KEY _).
  assert (H3 : one_installer (fetch_pending rid tok w1).2).
  { unfold fetch_pending, ask. destruct (negb _ && _); [exact H2|]. destruct H2 as [O1 O2].
    split; [by apply no_overlap_cons|exact O2]. }
  destruct (fetch_pending rid tok w1) as [r w2].
  destruct r as [p|]; [|done]. destruct (p_id p); [|done]. by apply one_installer_process.
Qed.

(** C6: the service never starts a second installer for a push while the
    first one is undecided: in everything the polling thread ever does, two
    installers of the same push, the first of which launched, are separated
    by a report on that push. *)
Theorem no_second_installer n w t1 id contents launched t2 :
  trace w = [] ->
  trace (start_in_service true n w) = t1 ++ EInstall id contents launched :: t2 ->
  launched_open id t2 = false.
Proof.
  intros Hw.
  assert (H : one_installer (log (ESleep FIRST_DELAY) w)).
  { eapply (one_installer_plain w); [auto with world|]. unfold one_installer. rewrite Hw.
    split; [by intros [|]|done]. }
  simpl. revert H. generalize (log (ESleep FIRST_DELAY) w). clear w Hw.
  induction n as [|n IH]; intros w H; simpl.
  - intros Ht. by eapply H.
  - apply IH. eapply one_installer_plain; [|by apply one_installer_tick]. auto with world.
Qed.

(** *** Failed downloads *)

(** A failed download is retried: the first four failures of a push only
    count, the fifth one reports it as failed and starts the count afresh. *)
Theorem download_failure_policy p id w :
  attempts id w + 1 < 2 ^ 32 -> 0 <= attempts id w ->
  (obtain p id w).1 = false ->
  exists evs, trace (obtain p id w).2 = evs ++ trace w /\
  if attempts id w + 1 <? DL_MAX_ATTEMPTS
  then attempts id (obtain p id w).2 = attempts id w + 1
       /\ (forall i s r, ~ In (EReport i s r) evs)
  else attempts id (obtain p id w).2 = 0 /\ exists r, In (EReport id "failed" r) evs.
Proof.
  intros Hn Hn0. assert (Hi : Int.in_u 32 (attempts id w + 1)) by (unfold Int.in_u; lia).
  destruct (obtain_cases p id w) as (w0 & Hp & H). rewrite Int.wrap_small in H by done.
  set (n := attempts id w + 1) in *. cbv zeta in H.
  destruct (evolves_trace _ _ _ _ Hp) as (evs & Ht & Hf).
  destruct H as [[[-> | ->] _]|[[Hlt ->]|[Hge (msg & ->)]]]; [done..| |]; intros _; simpl.
  - exists evs. split; [done|]. rewrite (proj2 (Z.ltb_lt _ _) Hlt). split.
    + unfold attempts. rewrite get_put_eq. unfold parse_u32. rewrite parse_to_string; [done|].
      unfold Int.in_u, Int.u32_max in *. lia.
    + intros i s r Hin. rewrite List.Forall_forall in Hf. by apply Hf in Hin.
  - rewrite (proj2 (Z.ltb_ge _ _) Hge).
    destruct (finish_report_spec id "failed" msg (put (dl_attempt_key id) (to_string n) w0))
      as (_ & (evs' & Ht' & Hin) & _ & Hd).
    exists (evs' ++ evs). split; [by rewrite Ht', <- app_assoc, <- Ht|].
    unfold attempts. rewrite Hd. split; [done|]. exists msg. apply in_app_iff. by left.
Qed.

(** A result is never lost: either one of the three attempts to report
    it was accepted, or from then on every flush sends exactly this report
    (whatever characters its reason holds) until one is accepted. *)
Theorem unsent_report_is_resent id status reason w :
  no_char "|"%char id = true -> no_char "|"%char status = true ->
  let w' := finish_report id status reason w in
  (exists k, (clk w <= k < clk w')%nat /\ is_ok (http_report e k) = true
             /\ get PENDING_REPORT_KEY w' = EmptyString)
  \/ forall w2, get PENDING_REPORT_KEY w2 = get PENDING_REPORT_KEY w' ->
       flush_pending_report w2 =
       let w3 := log (EFlush id status reason) w2 in
       if is_ok (http_report e (clk w2)) then clear_pending_report w3 else w3.
Proof.
  intros Hi Hs. unfold finish_report.
  set (w3 := clear_install_verify id _).
  assert (Hc : clk w3 = clk w) by done.
  assert (H : forall n w0, (report_loop n id status reason w0).1 = true ->
    exists k, (clk w0 <= k < clk (report_loop n id status reason w0).2)%nat /\ is_ok (http_report e k) = true
      /\ get PENDING_REPORT_KEY (report_loop n id status reason w0).2 = EmptyString).
  { induction n as [|n IH]; intros w0; simpl; [done|]. destruct (is_ok _) eqn:Eo; simpl.
    - intros _. exists (clk w0). unfold clear_pending_report. rewrite get_put_eq. unfold clk. simpl.
      split; [lia|done].
    - intros Hr. destruct (IH _ Hr) as (k & Hk & ? & ?). exists k. split; [|done].
      split; [|apply Hk]. destruct Hk as [Hk _]. destruct n; unfold clk in *; simpl in Hk; lia. }
  specialize (H REPORT_RETRY w3). destruct (report_loop _ _ _ _ w3) as [[|] w4]; simpl in *.
  - left. destruct (H eq_refl) as (k & Hk & ? & ?). exists k. rewrite Hc in Hk. done.
  - right. intros w2 Hg. unfold flush_pending_report. rewrite Hg.
    unfold save_pending_report. rewrite get_put_eq.
    rewrite splitn3_join by done. by destruct id.
Qed.

Lemma compute_delay_bound id m : 0 <= default_hash e id -> 0 <= m -> 0 <= compute_delay id m <= m.
Proof.
  intros Hh Hm. unfold compute_delay. destruct (Z.eqb_spec m 0) as [->|]; [lia|].
  pose proof (Z.mod_pos_bound (default_hash e id) m ltac:(lia)). lia.
Qed.

(** *** An eligible push is installed *)
Record favourable (w : world) (b : body) (id : string) (data : list byte) (first_seen : Z) : Prop := {
  f_reader : reader_ok (read_len e) /\ reader_total (read_len e);
  f_id : forall k, is_empty (get_id e k) = false /\ is_valid_custom_id e (get_id e k) = true;
  f_token : is_empty (get TOKEN_KEY w) = false;
  f_fetch : forall k, http_fetch e k = Ok b;
  f_push : b_id b = Some id;
  f_newer : is_newer_str (target_version (pending_of_body b)) CHAINREMOTE_VERSION = Ok true;
  f_none : get_install_verify id w = None;
  f_hour : forall k, in_window (hour e k) (window_start_hour (pending_of_body b))
                       (window_end_hour (pending_of_body b)) = true;
  f_seen : parse_u64 (get (first_seen_key id) w) = Some first_seen;
  f_hash : 0 <= default_hash e id /\ 0 <= randomize_max_sec (pending_of_body b);
  f_now : forall k, first_seen + randomize_max_sec (pending_of_body b) <= now e k < 2 ^ 64;
  f_alive : forall k, alive_conns e k = [];
  f_mkdir : forall k, mkdir e k = Ok tt;
  f_get : forall k, http_get e k = Ok data;
  f_write : forall k, write_tmp e k = WOk;
  f_rename : forall k, rename e k = Ok tt;
  f_digest : digest_ok (asset_sha256 (pending_of_body b)) data;
}.

Lemma download_verify_succeeds p w data :
  reader_ok (read_len e) -> reader_total (read_len e) ->
  (forall k, http_get e k = Ok data) -> (forall k, write_tmp e k = WOk) ->
  (forall k, rename e k = Ok tt) -> digest_ok (asset_sha256 p) data ->
  (download_and_verify p w).1 = Ok tt.
Proof.
  intros Hr Ht Hg Hw Hn [Hv Hd]. unfold download_and_verify, download_to, ask.
  rewrite Hg, Hw, Hn. simpl. unfold verify. simpl. unfold verify_sha256.
  rewrite Hv. cbn [negb].
  destruct (hash_loop_spec (read_len e) (S (length data)) data 0 sha_new Hr)
    as [(er & _ & Hn')| ->]; [lia|done|].
  rewrite drop_0. fold (sha256_hex data). rewrite Hd, String.eqb_refl. done.
Qed.

Lemma first_seen_ready p id w s m : parse_u64 (get (first_seen_key id) w) = Some s ->
  0 <= default_hash e id -> 0 <= m -> randomize_max_sec p = m ->
  (forall k, in_window (hour e k) (window_start_hour p) (window_end_hour p) = true) ->
  (forall k, s + m <= now e k < 2 ^ 64) -> (forall k, alive_conns e k = []) ->
  ready p id w = (true, log EAlive (log ENow (log EHour w))).
Proof.
  intros Hs Hh Hm Hpm Hhour Hnow Ha. unfold ready, within_business_window, ask.
  rewrite Hhour. unfold now_epoch_sec, ask, first_seen_at. cbn [negb].
  rewrite !get_log, Hs.
  replace (if negb (is_empty (get (first_seen_key id) w)) then Some s else None) with (Some s).
  2: { destruct (get (first_seen_key id) w); [done|]. done. }
  set (k := clk (log EHour w)). pose proof (Hnow k).
  pose proof (compute_delay_bound id m Hh Hm). rewrite Hpm.
  assert (0 <= s) by (eapply parse_uint_bound in Hs; unfold Int.u64_max in *; lia).
  rewrite Int.wrap_small by (unfold Int.in_u; lia).
  destruct (Z.ltb_spec (now e k) (s + compute_delay id m)); [lia|]. simpl. by rewrite Ha.
Qed.

(** C8: an eligible push does get installed: when the polling thread finds a
    newer version inside the business hours, the maximal random delay has
    passed since the push was first seen, nobody is connected and the
    download delivers the pushed file, that very tick starts the installer
    on a file with the pushed digest. *)
Theorem eligible_push_is_installed w b id data first_seen :
  favourable w b id data first_seen ->
  exists contents launched, digest_ok (asset_sha256 (pending_of_body b)) contents /\
    In (EInstall id (Some contents) launched) (trace (tick w).2).
Proof.
  intros F. destruct (f_reader _ _ _ _ _ F) as [Hr Ht].
  destruct (f_hash _ _ _ _ _ F) as [Hh Hm].
  unfold tick, ask. destruct (f_id _ _ _ _ _ F (clk w)) as [-> Hv].
  rewrite get_log, (f_token _ _ _ _ _ F).
  set (w1 := flush_pending_report _).
  assert (Hg : forall k, k <> PENDING_REPORT_KEY -> get k w1 = get k w)
    by (intros k Hk; unfold w1; by rewrite flush_get).
  unfold fetch_pending. rewrite Hv, andb_false_r. unfold ask. rewrite (f_fetch _ _ _ _ _ F).
  simpl p_id. rewrite (f_push _ _ _ _ _ F). set (w2 := log _ w1).
  unfold process. rewrite (f_newer _ _ _ _ _ F).
  unfold get_install_verify, w2. rewrite get_log, Hg by keys.
  fold (get_install_verify id w). rewrite (f_none _ _ _ _ _ F). fold w2.
  destruct (f_digest _ _ _ _ _ F) as [Hsha Hd]. rewrite Hsha. cbn [negb].
  assert (Hs2 : parse_u64 (get (first_seen_key id) w2) = Some first_seen).
  { unfold w2. rewrite get_log, Hg by keys. apply (f_seen _ _ _ _ _ F). }
  rewrite (first_seen_ready _ _ _ _ _ Hs2 Hh Hm eq_refl (f_hour _ _ _ _ _ F)
             (f_now _ _ _ _ _ F) (f_alive _ _ _ _ _ F)).
  cbn [negb]. unfold ensure_pending_dir, ask. rewrite (f_mkdir _ _ _ _ _ F).
  set (w3 := log EMkdir _). set (p := pending_of_body b) in *.
  destruct (obtain p id w3) as [have w4] eqn:Eo.
  assert (have = true) as ->.
  { unfold obtain in Eo. destruct (match pending_file (st w3) with Some _ => _ | None => _ end)
      as [[|] w5]; [by injection Eo as <- _|].
    pose proof (download_verify_succeeds p w5 data Hr Ht (f_get _ _ _ _ _ F)
      (f_write _ _ _ _ _ F) (f_rename _ _ _ _ _ F) (conj Hsha Hd)) as Hok.
    destruct (download_and_verify p w5) as [o w6]. simpl in Hok. subst o. by injection Eo as <- _. }
  destruct (obtain_ok _ _ _ _ Hr Eo) as (_ & c & Hf & Hdc).
  exists c, (is_ok (spawn_silent_install e (clk w4))). split; [exact Hdc|].
  unfold install, spawn. rewrite Hf.
  destruct (spawn_silent_install e (clk w4)) as [|msg]; [right; by left|].
  by apply finish_report_In; left.
Qed.
End agent.

(** *** A concrete machine: the push ["p1"] was first seen at 1000000, it is
    three in the morning and everything outside works. *)
Definition demo_body : body :=
  mkBody (Some "p1") (Some "1.4.200") (Some "https://api.626.kr/x.exe") (Some (toy_hex 1))
    (Some 1) None None None.
Definition demo_env : env := {|
  get_id := λ _, "123456789"; now := λ _, 5000000; hour := λ _, 3;
  alive_conns := λ _, []; http_fetch := λ _, Ok demo_body; http_report := λ _, Ok tt;
  http_get := λ _, Ok [x61]; mkdir := λ _, Ok tt; write_tmp := λ _, WOk; rm_ok := λ _, true;
  rename := λ _, Ok tt; read_len := full_reader; spawn_silent_install := λ _, Ok tt;
  is_valid_custom_id := λ _, true; default_hash := λ _, 100; show_verify := λ _, "digest";
|}.
Definition demo_cfg : gmap string string :=
  <[TOKEN_KEY := "tok"]> (<[first_seen_key "p1" := "1000000"]> ∅).
Definition demo_world : World.world (gmap string string) files event :=
  mkWorld demo_cfg (mkFiles None None) [].
(** The same machine with a server that refuses reports, and with a download
    that fails. *)
Definition deaf_env : env := {|
  get_id := λ _, "123456789"; now := λ _, 5000000; hour := λ _, 3;
  alive_conns := λ _, []; http_fetch := λ _, Ok demo_body; http_report := λ _, Err "HTTP 500";
  http_get := λ _, Err "timeout"; mkdir := λ _, Ok tt; write_tmp := λ _, WOk; rm_ok := λ _, true;
  rename := λ _, Ok tt; read_len := full_reader; spawn_silent_install := λ _, Ok tt;
  is_valid_custom_id := λ _, true; default_hash := λ _, 100; show_verify := λ _, "digest";
|}.

Lemma install_only_when_allowed_witness :
  exists evs, trace (tick demo_env demo_world).2 = evs ++ trace demo_world
  /\ In (EInstall "p1" (Some [x61]) true) evs
  /\ forall t1 id contents launched t2, evs = t1 ++ EInstall id contents launched :: t2 ->
     install_allowed demo_env demo_world (t2 ++ trace demo_world) id contents.
Proof.
  destruct (install_only_when_allowed demo_env demo_world full_reader_ok) as (evs & T & H).
  exists evs. split; [exact T|]. split; [|exact H]. rewrite app_nil_r in T. rewrite <- T. vm_compute. tauto.
Defined.

Lemma no_second_installer_witness :
  launched_open "p1" (drop 6 (trace (start_in_service demo_env true 2 demo_world))) = true
  /\ launched_open "p1" (drop 7 (trace (start_in_service demo_env true 2 demo_world))) = false.
Proof.
  split; [vm_compute; reflexivity|].
  apply (no_second_installer demo_env 2 demo_world
           (take 6 (trace (start_in_service demo_env true 2 demo_world))) "p1" (Some [x61]) true);
    vm_compute; reflexivity.
Defined.

Lemma download_failure_policy_witness :
  exists evs, trace (obtain deaf_env (pending_of_body demo_body) "p1" demo_world).2
              = evs ++ trace demo_world /\
  if attempts "p1" demo_world + 1 <? DL_MAX_ATTEMPTS
  then attempts "p1" (obtain deaf_env (pending_of_body demo_body) "p1" demo_world).2
       = attempts "p1" demo_world + 1
       /\ (forall i s r, ~ In (EReport i s r) evs)
  else attempts "p1" (obtain deaf_env (pending_of_body demo_body) "p1" demo_world).2 = 0
       /\ exists r, In (EReport "p1" "failed" r) evs.
Proof.
  apply (download_failure_policy deaf_env (pending_of_body demo_body) "p1" demo_world);
    vm_compute; by (reflexivity || discriminate).
Defined.

Lemma unsent_report_is_resent_witness :
  let w' := finish_report deaf_env "p1" "failed" "a|b" demo_world in
  flush_pending_report deaf_env w' = log (EFlush "p1" "failed" "a|b") w'.
Proof.
  destruct (unsent_report_is_resent deaf_env "p1" "failed" "a|b" demo_world eq_refl eq_refl)
    as [(k & _ & H & _)|H]; [discriminate H|].
  exact (H _ eq_refl).
Defined.

Lemma demo_favourable :
  favourable demo_env demo_world demo_body "p1" [x61] 1000000.
Proof.
  split; try done.
  - split; [exact full_reader_ok | exact full_reader_total].
Qed.

Lemma eligible_push_is_installed_witness :
  exists contents launched, digest_ok (asset_sha256 (pending_of_body demo_body)) contents /\
    In (EInstall "p1" (Some contents) launched) (trace (tick demo_env demo_world).2).
Proof.
  exact (eligible_push_is_installed demo_env demo_world demo_body "p1" [x61] 1000000 demo_favourable).
Defined.
End PushAgent.
