(* ===== verification/Updater.v ===== *)
(** * The headquarters' own updater ([src/src/chainremote_updater.rs])

    A thread of the service that looks for a newer release on three occasions
    (somebody asks for it, the headquarters changed its push signal, a day or a
    retry interval went by), downloads and verifies it and starts the installer
    unless a remote session is running.  The loop's local variables and the two
    files of the pending directory are the state; clock (milliseconds), HTTP,
    file system, sessions and the process launcher answer through an
    environment.  The update log is left out. *)

From Stdlib Require Import Ascii Strings.Byte.
From S2P Require Import Prelude RustStr Store World UpdateCommon.
Import UpdateCommon.
#[local] Open Scope Z_scope.

Module Updater.
Definition CHAINREMOTE_VERSION : string := "1.4.141".
Definition FULL_CHECK_INTERVAL : Z := 60 * 60 * 24 * 1000.
Definition PUSH_POLL_INTERVAL : Z := 60 * 5 * 1000.
Definition DEFERRED_RETRY_INTERVAL : Z := 60 * 15 * 1000.
Definition FIRST_CHECK_DELAY : Z := 60 * 5 * 1000.
Definition TICK_INTERVAL : Z := 2 * 1000.

Record LatestRelease := mkRelease { version : string; url : string; sha256 : string }.
Record PushSignal := mkPush { push_version : string; timestamp : string }.
Inductive CycleResult : Type := Applied | AlreadyLatest | Deferred.

Inductive event : Type :=
  | EFlag | ERemoveFlag | EInstant | EPushPoll | ELatest | EMkdir | EDownload (url : string)
  | EWriteTmp | ERemove | ERename | EVerify | EAlive | ESession
  | EInstall (contents : option (list byte)) (sid : Z)
  | ESleep (ms : Z).

Inductive dl_write := WOk | WFail (rest : option (list byte)).

(** [parse_dual] and [parse_flat]: the two shapes of the manifest.
    [launch_privileged_process]: [Ok true] is a null handle. *)
Record env := mkEnv {
  is_incoming_only : bool;
  flag_exists : nat -> bool;
  instant : nat -> Z;
  http_push : nat -> option PushSignal;
  http_latest : nat -> result string string;
  parse_dual : string -> option (LatestRelease * LatestRelease);
  parse_flat : string -> option LatestRelease;
  mkdir : nat -> result unit string;
  http_get : nat -> result (list byte) string;
  write_tmp : nat -> dl_write;
  rm_ok : nat -> bool;
  rename : nat -> result unit string;
  read_len : list byte -> nat -> option nat;
  alive_conns : nat -> list Z;
  current_session_id : nat -> Z;
  process_session_id : nat -> option Z;
  launch : nat -> result bool string;
  show_verify : verify_error -> string;
}.

Record updater := mkUpdater {
  pending_file : option (list byte); partial_file : option (list byte);
  last_full_check : option Z; last_deferred_retry : option Z;
  last_push_timestamp : option string; last_push_poll : option Z;
}.
Definition initial : updater := mkUpdater None None None None None None.
Definition set_pending v s := mkUpdater v (partial_file s) (last_full_check s) (last_deferred_retry s)
  (last_push_timestamp s) (last_push_poll s).
Definition set_partial v s := mkUpdater (pending_file s) v (last_full_check s) (last_deferred_retry s)
  (last_push_timestamp s) (last_push_poll s).
Definition set_full v s := mkUpdater (pending_file s) (partial_file s) v (last_deferred_retry s)
  (last_push_timestamp s) (last_push_poll s).
Definition set_retry v s := mkUpdater (pending_file s) (partial_file s) (last_full_check s) v
  (last_push_timestamp s) (last_push_poll s).
Definition set_stamp v s := mkUpdater (pending_file s) (partial_file s) (last_full_check s) (last_deferred_retry s)
  v (last_push_poll s).
Definition set_poll v s := mkUpdater (pending_file s) (partial_file s) (last_full_check s) (last_deferred_retry s)
  (last_push_timestamp s) v.

Section updater.
Context {C : Type} {lc : LocalConfig C} {sha : Sha256} (e : env).

Abbreviation world := (World.world C updater event).

(** *** One cycle *)
Definition fetch_latest (w : world) : result LatestRelease string * world :=
  let '(r, w) := ask (http_latest e) ELatest w in
  (let? body := r in
   match parse_dual e body with
   | Some (hq, agent) => Ok (if is_incoming_only e then agent else hq)
   | None => match parse_flat e body with
             | Some release => Ok release
             | None => Err "latest.json parse fail"
             end
   end, w).

Definition ensure_pending_dir (w : world) : result unit string * world := ask (mkdir e) EMkdir w.

Definition download_to (u : string) (w : world) : result unit string * world :=
  let '(r, w) := ask (http_get e) (EDownload u) w in
  match r with
  | Err x => (Err x, w)
  | Ok bytes =>
      let '(wr, w) := ask (write_tmp e) EWriteTmp w in
      match wr with
      | WFail rest => (Err "write", upd (set_partial rest) w)
      | WOk =>
          let w := upd (set_partial (Some bytes)) w in
          let w := match pending_file (st w) with
                   | Some _ => let '(ok, w) := ask (rm_ok e) ERemove w in
                               if (ok : bool) then upd (set_pending None) w else w
                   | None => w
                   end in
          let '(rn, w) := ask (rename e) ERename w in
          match rn with
          | Err x => (Err x, w)
          | Ok _ => (Ok tt, upd (set_partial None) (upd (set_pending (Some bytes)) w))
          end
      end
  end.

Definition verify (expected : string) (w : world) : result unit verify_error * world :=
  let '(ok, w) := ask (rm_ok e) EVerify w in
  match verify_sha256 (read_len e) ok (pending_file (st w)) expected with
  | Some (r, f) => (r, upd (set_pending f) w)
  | None => (Err VIo, w)
  end.

Definition NO_SESSION : Z := 2 ^ 32 - 1.
Definition spawn_silent_install (w : world) : result unit string * world :=
  let '(sid, w) := ask (current_session_id e) ESession w in
  let '(sid, w) :=
    if sid =? NO_SESSION then ask (process_session_id e) ESession w else (Some sid, w) in
  match sid with
  | None => (Err "no active console session and failed to get service session id", w)
  | Some sid =>
      let r := launch e (clk w) in
      let w := log (EInstall (pending_file (st w)) sid) w in
      match r with
      | Err x => (Err x, w)
      | Ok is_null => if (is_null : bool) then (Err "launch_privileged_process returned null handle", w) else (Ok tt, w)
      end
  end.

(** The pending file is there and right, or is fetched. *)
Definition obtain (latest : LatestRelease) (w : world) : result unit string * world :=
  let '(valid, w) :=
    match pending_file (st w) with
    | Some _ => let '(r, w) := verify (sha256 latest) w in (is_ok r, w)
    | None => (false, w)
    end in
  if (valid : bool) then (Ok tt, w) else
  let '(r, w) := download_to (url latest) w in
  match r with
  | Err x => (Err x, w)
  | Ok _ => let '(r, w) := verify (sha256 latest) w in
            (match r with Ok _ => Ok tt | Err x => Err (show_verify e x) end, w)
  end.

Definition apply_release (latest : LatestRelease) (w : world) : result CycleResult string * world :=
  let '(r, w) := ensure_pending_dir w in
  match r with
  | Err x => (Err x, w)
  | Ok _ =>
      let '(r, w) := obtain latest w in
      match r with
      | Err x => (Err x, w)
      | Ok _ =>
          let '(alive, w) := ask (alive_conns e) EAlive w in
          match alive with
          | _ :: _ => (Ok Deferred, w)
          | [] => let '(r, w) := spawn_silent_install w in
                  (let? _ := r in Ok Applied, w)
          end
      end
  end.

Definition check_and_apply_once (w : world) : result CycleResult string * world :=
  let '(r, w) := fetch_latest w in
  match r with
  | Err x => (Err x, w)
  | Ok latest =>
      match is_newer_str (version latest) CHAINREMOTE_VERSION with
      | Err x => (Err x, w)
      | Ok false => (Ok AlreadyLatest, w)
      | Ok true => apply_release latest w
      end
  end.

(** *** The loop: each step answers whether the thread ends *)
Definition elapsed_at_least (d : Z) (t : option Z) (dflt : bool) (w : world) : bool * world :=
  match t with
  | Some t => let '(now, w) := ask (instant e) EInstant w in (d <=? Int.saturating_sub now t, w)
  | None => (dflt, w)
  end.
Definition stamp (set : option Z -> updater -> updater) (w : world) : world :=
  let '(now, w) := ask (instant e) EInstant w in upd (set (Some now)) w.

Definition manual_step (w : world) : bool * world :=
  let '(flag, w) := ask (flag_exists e) EFlag w in
  if negb flag then (false, w) else
  let '(r, w) := check_and_apply_once (log ERemoveFlag w) in
  match r with
  | Ok Applied => (true, w)
  | Ok AlreadyLatest => (false, stamp set_full w)
  | Ok Deferred => (false, stamp set_retry w)
  | Err _ => (false, w)
  end.

Definition push_step (w : world) : bool * world :=
  let '(need, w) := elapsed_at_least PUSH_POLL_INTERVAL (last_push_poll (st w)) true w in
  if negb need then (false, w) else
  let '(push, w) := ask (http_push e) EPushPoll (stamp set_poll w) in
  match push with
  | None => (false, w)
  | Some p =>
      if negb (is_empty (timestamp p)) && negb (is_empty (push_version p))
         && negb (bool_decide (last_push_timestamp (st w) = Some (timestamp p)))
      then
        let '(r, w) := check_and_apply_once (upd (set_stamp (Some (timestamp p))) w) in
        match r with Ok Applied => (true, w) | _ => (false, w) end
      else (false, w)
  end.

Definition scheduled_step (w : world) : bool * world :=
  let '(need_full, w) := elapsed_at_least FULL_CHECK_INTERVAL (last_full_check (st w)) true w in
  let '(need_retry, w) := elapsed_at_least DEFERRED_RETRY_INTERVAL (last_deferred_retry (st w)) false w in
  if need_full || need_retry then
    let '(r, w) := check_and_apply_once w in
    match r with
    | Ok Applied => (true, w)
    | Ok AlreadyLatest => (false, upd (set_retry None) (stamp set_full w))
    | Ok Deferred => (false, stamp set_retry w)
    | Err _ => (false, stamp set_retry (stamp set_full w))
    end
  else (false, w).

Definition loop_tick (w : world) : bool * world :=
  let '(stop, w) := manual_step w in
  if (stop : bool) then (true, w) else
  let '(stop, w) := push_step w in
  if (stop : bool) then (true, w) else
  let '(stop, w) := scheduled_step w in
  if (stop : bool) then (true, w) else (false, log (ESleep TICK_INTERVAL) w).

(** [n] rounds of the thread; [true]: it ended. *)
Fixpoint ticks (n : nat) (w : world) : bool * world :=
  match n with
  | O => (false, w)
  | S n => let '(stop, w) := loop_tick w in if (stop : bool) then (true, w) else ticks n w
  end.
Definition start_in_service (n : nat) (w : world) : bool * world :=
  if is_incoming_only e then (true, w) else ticks n (log (ESleep FIRST_CHECK_DELAY) w).

(** *** Which installer may start *)
Definition channel (body : string) : option LatestRelease :=
  match parse_dual e body with
  | Some (hq, agent) => Some (if is_incoming_only e then agent else hq)
  | None => parse_flat e body
  end.

(** When [EInstall] comes: the manifest fetched last named for this build's
    channel a release newer than this one, the file has its digest, and the
    sessions were asked for after that and there was none. *)
Definition install_ok (base tr : list event) (contents : option (list byte)) : Prop :=
  exists body rel data,
    last_asked ELatest (λ k, http_latest e k = Ok body) base tr /\ channel body = Some rel
    /\ is_newer_str (version rel) CHAINREMOTE_VERSION = Ok true
    /\ contents = Some data /\ digest_ok (sha256 rel) data
    /\ last_asked EAlive (λ k, alive_conns e k = []) base tr.
Definition ok_event (base tr : list event) (ev : event) : Prop :=
  match ev with EInstall contents _ => install_ok base tr contents | _ => True end.
Definition quiet_ev (ev : event) : Prop :=
  match ev with EInstall _ _ => False | _ => True end.
(** Fetching and checking the file: no manifest, no sessions, no installer. *)
Definition io_ev (ev : event) : Prop :=
  match ev with EInstall _ _ | ELatest | EAlive => False | _ => True end.
Abbreviation quiet := (evolves (C:=C) (St:=updater) quiet_ev (λ _, False)).
Abbreviation io := (evolves (C:=C) (St:=updater) io_ev (λ _, False)).
Abbreviation safe base w w' := (guarded (ok_event base) (trace w) (trace w')).
#[local] Hint Extern 1 (quiet_ev _) => exact I : world.
#[local] Hint Extern 1 (io_ev _) => exact I : world.

Lemma quiet_safe base w w' : quiet w w' -> safe base w w'.
Proof. intros H. eapply guarded_evolves; [exact H|]. by intros ? []. Qed.
Lemma io_quiet w w' : io w w' -> quiet w w'.
Proof. apply evolves_weaken; [by intros []|done]. Qed.

Lemma fetch_file_io u w : io w (download_to u w).2.
Proof. unfold download_to. world_cases; eauto 12 with world. Qed.
Lemma check_file_io x w : io w (verify x w).2.
Proof. unfold verify. world_cases; eauto with world. Qed.

Lemma verify_gives x w w' : reader_ok (read_len e) -> verify x w = (Ok tt, w') ->
  exists data, pending_file (st w') = Some data /\ digest_ok x data.
Proof.
  intros Hr. unfold verify. simpl.
  destruct (verify_sha256 _ _ _ _) as [[r f]|] eqn:E; [|done].
  intros [= -> <-]. simpl. by eapply verify_sha256_ok.
Qed.

Lemma obtain_spec rel w : reader_ok (read_len e) -> io w (obtain rel w).2
  /\ ((obtain rel w).1 = Ok tt ->
      exists data, pending_file (st (obtain rel w).2) = Some data /\ digest_ok (sha256 rel) data).
Proof.
  intros Hr. unfold obtain.
  assert (Hv : let '(ok, w1) := match pending_file (st w) with
      | Some _ => let '(r, w1) := verify (sha256 rel) w in (is_ok r, w1) | None => (false, w) end in
    io w w1 /\ (ok = true -> exists data, pending_file (st w1) = Some data /\ digest_ok (sha256 rel) data)).
  { destruct (pending_file (st w)); [|split; [apply ev_refl|done]].
    pose proof (check_file_io (sha256 rel) w) as H. destruct (verify _ w) as [[[]|x] w1] eqn:E; (split; [exact H|]); [|done].
    intros _. by eapply verify_gives. }
  destruct (match pending_file (st w) with Some _ => _ | None => _ end) as [ok w1]. destruct Hv as [H1 Hok].
  destruct ok; [split; [done|]; intros _; by apply Hok|].
  pose proof (fetch_file_io (url rel) w1) as Hd. destruct (download_to (url rel) w1) as [[[]|x] w2]; simpl in Hd;
    [|split; [by eapply evolves_trans|done]].
  pose proof (check_file_io (sha256 rel) w2) as Hw. destruct (verify _ w2) as [r w3] eqn:E. simpl in *.
  split; [eapply evolves_trans; [exact H1|]; by eapply evolves_trans|].
  destruct r as [[]|]; [|done]. intros _. by eapply verify_gives.
Qed.

(** The installer's launch: an [EInstall] on the pending file, or nothing. *)
Lemma spawn_safe base w : install_ok base (trace w) (pending_file (st w)) ->
  safe base w (spawn_silent_install w).2.
Proof.
  intros H. unfold spawn_silent_install, ask.
  assert (Hs : forall n tr, install_ok base tr (pending_file (st w)) -> guarded (ok_event base) (trace w) tr ->
    guarded (ok_event base) (trace w) (repeat ESession n ++ tr)
    /\ install_ok base (repeat ESession n ++ tr) (pending_file (st w))).
  { induction n as [|n IH]; intros tr Ht Hg; [done|]. destruct (IH tr Ht Hg) as [G (b & rel & d & L & Hc & Hn & Hp & Hd & A)].
    simpl. split; [by constructor|]. exists b, rel, d.
    split; [by apply (last_asked_app ELatest _ _ [ESession]); [intros [|[]]|]|]. do 4 (split; [done|]).
    by apply (last_asked_app EAlive _ _ [ESession]); [intros [|[]]|]. }
  assert (H0 : guarded (ok_event base) (trace w) (trace w)) by constructor.
  destruct (Hs 1%nat _ H H0) as [G1 I1]. destruct (Hs 2%nat _ H H0) as [G2 I2].
  destruct (_ =? NO_SESSION); [destruct (process_session_id e _)|].
  - destruct (launch e _) as [[]|]; by constructor.
  - done.
  - destruct (launch e _) as [[]|]; by constructor.
Qed.

Lemma apply_safe base evs body rel w : reader_ok (read_len e) -> trace w = evs ++ base ->
  last_asked ELatest (λ k, http_latest e k = Ok body) base (trace w) -> channel body = Some rel ->
  is_newer_str (version rel) CHAINREMOTE_VERSION = Ok true -> safe base w (apply_release rel w).2.
Proof.
  intros Hr Ht Hb Hc Hn. unfold apply_release, ensure_pending_dir, ask.
  assert (H0 : io w (log EMkdir w)) by eauto with world.
  destruct (mkdir e (clk w)); [|by apply quiet_safe, io_quiet].
  destruct (obtain_spec rel (log EMkdir w) Hr) as [Ho Hd]. destruct (obtain rel _) as [r w1]. simpl in Ho, Hd.
  assert (H1 : io w w1) by by eapply evolves_trans.
  destruct r as [[]|]; [|by apply quiet_safe, io_quiet]. destruct (Hd eq_refl) as (data & Hp & Hg).
  assert (H2 : safe base w (log EAlive w1)) by (apply quiet_safe, ev_log; [done|]; by apply io_quiet).
  destruct (alive_conns e (clk w1)) eqn:Ea; [|exact H2].
  pose proof (spawn_safe base (log EAlive w1)) as Hs. destruct (spawn_silent_install _) as [r w2].
  simpl in Hs. eapply guarded_trans; [exact H2|]. apply Hs. exists body, rel, data.
  pose proof (last_asked_evolves _ _ ELatest _ _ _ _ H1 (λ x : io_ev ELatest, x) Hb) as L.
  split; [by apply (last_asked_app ELatest _ _ [EAlive]); [intros [|[]]|]|]. do 4 (split; [done|]).
  destruct (evolves_trace _ _ _ _ H1) as (evs1 & Ht1 & _). unfold clk in Ea.
  rewrite Ht1, Ht, app_assoc in *. by apply last_asked_now.
Qed.

Lemma cycle_safe base evs w : reader_ok (read_len e) -> trace w = evs ++ base ->
  safe base w (check_and_apply_once w).2.
Proof.
  intros Hr Ht. unfold check_and_apply_once, fetch_latest, ask. set (w1 := log ELatest w).
  assert (H1 : safe base w w1) by (apply quiet_safe; unfold w1; eauto with world).
  destruct (http_latest e (clk w)) as [body|] eqn:Eb; [|done].
  assert (Hc : forall rel, channel body = Some rel ->
    safe base w (match is_newer_str (version rel) CHAINREMOTE_VERSION with
            | Ok true => apply_release rel w1 | Ok false => (Ok AlreadyLatest, w1) | Err x => (Err x, w1) end).2).
  { intros rel Hrel. destruct (is_newer_str _ _) as [[]|] eqn:En; [|done|done].
    eapply guarded_trans; [exact H1|]. apply (apply_safe base (ELatest :: evs) body); try done; simpl; rewrite Ht; [done|].
    apply last_asked_now. unfold clk in Eb. by rewrite Ht in Eb. }
  unfold channel in Hc. destruct (parse_dual e body) as [[hq agent]|]; [by apply Hc|].
  destruct (parse_flat e body) as [rel|]; [by apply Hc|done].
Qed.

(** The loop's own steps ask for the time and little else. *)
Lemma stamp_quiet set w : quiet w (stamp set w).
Proof. unfold stamp, ask. eauto with world. Qed.
Lemma elapsed_quiet d t b w : quiet w (elapsed_at_least d t b w).2.
Proof. unfold elapsed_at_least, ask. destruct t; simpl; eauto with world. Qed.

(** Some quiet steps, a cycle, some quiet steps. *)
Lemma around_cycle base evs w w1 w2 : reader_ok (read_len e) -> trace w = evs ++ base ->
  quiet w w1 -> quiet (check_and_apply_once w1).2 w2 -> safe base w w2.
Proof.
  intros Hr Ht H1 H2. destruct (evolves_trace _ _ _ _ H1) as (evs1 & Ht1 & _).
  eapply guarded_trans; [by apply quiet_safe|]. eapply guarded_trans; [|by apply quiet_safe].
  apply (cycle_safe base (evs1 ++ evs)); [done|]. by rewrite Ht1, Ht, app_assoc.
Qed.

Lemma manual_safe base evs w : reader_ok (read_len e) -> trace w = evs ++ base -> safe base w (manual_step w).2.
Proof.
  intros Hr Ht. unfold manual_step, ask. destruct (flag_exists e (clk w)); cbn [negb];
    [|apply quiet_safe; simpl; eauto with world].
  pose proof (around_cycle base evs w (log ERemoveFlag (log EFlag w))) as H.
  destruct (check_and_apply_once _) as [r w1]. simpl in H.
  assert (Hq : quiet w (log ERemoveFlag (log EFlag w))) by eauto with world.
  destruct r as [[]|]; cbn [snd]; apply H; try done; (apply stamp_quiet || apply ev_refl).
Qed.

Lemma push_safe base evs w : reader_ok (read_len e) -> trace w = evs ++ base -> safe base w (push_step w).2.
Proof.
  intros Hr Ht. unfold push_step, ask.
  pose proof (elapsed_quiet PUSH_POLL_INTERVAL (last_push_poll (st w)) true w) as H0.
  destruct (elapsed_at_least _ _ _ w) as [[] w1]; simpl in H0 |- *; [|by apply quiet_safe].
  set (w2 := log EPushPoll (stamp set_poll w1)).
  assert (H2 : quiet w w2) by (apply ev_log; [done|]; eapply evolves_trans; [exact H0|apply stamp_quiet]).
  destruct (http_push e _) as [p|]; [|by apply quiet_safe]. destruct (_ && _); [|by apply quiet_safe].
  set (w3 := upd (set_stamp (Some (timestamp p))) w2).
  pose proof (around_cycle base evs w w3) as H. destruct (check_and_apply_once w3) as [r w4]. simpl in H.
  destruct r as [[]|]; cbn [snd]; apply H; try done; (by apply ev_upd) || apply ev_refl.
Qed.

Lemma scheduled_safe base evs w : reader_ok (read_len e) -> trace w = evs ++ base -> safe base w (scheduled_step w).2.
Proof.
  intros Hr Ht. unfold scheduled_step.
  pose proof (elapsed_quiet FULL_CHECK_INTERVAL (last_full_check (st w)) true w) as H0.
  destruct (elapsed_at_least FULL_CHECK_INTERVAL _ _ w) as [f w1]. simpl in H0.
  pose proof (elapsed_quiet DEFERRED_RETRY_INTERVAL (last_deferred_retry (st w1)) false w1) as H1.
  destruct (elapsed_at_least DEFERRED_RETRY_INTERVAL _ _ w1) as [r w2]. simpl in H1.
  assert (H2 : quiet w w2) by by eapply evolves_trans. destruct (f || r); [|by apply quiet_safe].
  pose proof (around_cycle base evs w w2) as H. destruct (check_and_apply_once w2) as [o w3]. simpl in H.
  destruct o as [[]|]; cbn [snd]; apply H; try done.
  - apply ev_refl.
  - apply ev_upd, stamp_quiet.
  - apply stamp_quiet.
  - eapply evolves_trans; apply stamp_quiet.
Qed.

(** Chains the steps of one round. *)
Lemma safe_step base evs (w w1 w2 : world) : trace w = evs ++ base -> safe base w w1 ->
  (forall evs1, trace w1 = evs1 ++ base -> safe base w1 w2) -> safe base w w2.
Proof.
  intros Ht H1 H2. eapply guarded_trans; [exact H1|]. destruct (guarded_split _ _ _ H1) as (evs1 & E & _).
  apply (H2 (evs1 ++ evs)). by rewrite E, Ht, app_assoc.
Qed.

Lemma loop_safe base evs w : reader_ok (read_len e) -> trace w = evs ++ base -> safe base w (loop_tick w).2.
Proof.
  intros Hr Ht. unfold loop_tick. pose proof (manual_safe base evs w Hr Ht) as H1.
  destruct (manual_step w) as [[] w1]; [done|]. eapply safe_step; [exact Ht|exact H1|]. intros evs1 Ht1.
  pose proof (push_safe base evs1 w1 Hr Ht1) as H2. destruct (push_step w1) as [[] w2]; [done|].
  eapply safe_step; [exact Ht1|exact H2|]. intros evs2 Ht2.
  pose proof (scheduled_safe base evs2 w2 Hr Ht2) as H3. destruct (scheduled_step w2) as [[] w3]; [done|].
  by constructor.
Qed.

Lemma ticks_safe base evs n w : reader_ok (read_len e) -> trace w = evs ++ base -> safe base w (ticks n w).2.
Proof.
  intros Hr. revert evs w. induction n as [|n IH]; intros evs w Ht; cbn [ticks]; [constructor|].
  pose proof (loop_safe base evs w Hr Ht) as H. destruct (loop_tick w) as [[] w1]; [done|].
  eapply safe_step; [exact Ht|exact H|]. intros evs1 Ht1. by eapply IH.
Qed.

(** C9: the updater starts an installer only for a release of this build's own
    channel that is newer than the running version, as the manifest fetched
    last said, on a file with the published digest, and when the last look at
    the remote sessions showed none; and on a customer's build it starts none
    at all. *)
Theorem update_only_verified n w : reader_ok (read_len e) ->
  exists evs, trace (start_in_service n w).2 = evs ++ trace w
  /\ forall t1 contents sid t2, evs = t1 ++ EInstall contents sid :: t2 ->
     is_incoming_only e = false /\ install_ok (trace w) (t2 ++ trace w) contents.
Proof.
  intros Hr. unfold start_in_service. destruct (is_incoming_only e) eqn:Ei; [by exists []; split; [|intros []]|].
  assert (H : safe (trace w) w (ticks n (log (ESleep FIRST_CHECK_DELAY) w)).2).
  { apply (guarded_trans _ _ (trace (log (ESleep FIRST_CHECK_DELAY) w)));
      [apply (quiet_safe (trace w) w); eauto with world|].
    by apply (ticks_safe _ [ESleep FIRST_CHECK_DELAY]). }
  destruct (guarded_split _ _ _ H) as (evs & T & F). exists evs. split; [done|].
  intros t1 contents sid t2 ->. split; [done|]. exact (F t1 _ t2 eq_refl).
Qed.

(** *** A machine in use *)

(** A new release, already downloaded, and a remote session that goes on. *)
Record in_use (rel : LatestRelease) (data : list byte) : Prop := {
  u_flag : forall k, flag_exists e k = false;
  u_push : forall k, http_push e k = None;
  u_latest : exists body, (forall k, http_latest e k = Ok body) /\ channel body = Some rel;
  u_newer : is_newer_str (version rel) CHAINREMOTE_VERSION = Ok true;
  u_mkdir : forall k, mkdir e k = Ok tt;
  u_reader : reader_ok (read_len e) /\ reader_total (read_len e);
  u_digest : digest_ok (sha256 rel) data;
  u_alive : forall k, alive_conns e k <> [];
}.

Definition count (p : event -> bool) (w : world) : nat := length (List.filter p (trace w)).
Definition is_latest (ev : event) : bool := match ev with ELatest => true | _ => false end.
Definition is_verify (ev : event) : bool := match ev with EVerify => true | _ => false end.

(** One more request and one more hashing of the file. *)
Definition one_cycle (w w' : world) : Prop :=
  count is_latest w' = S (count is_latest w) /\ count is_verify w' = S (count is_verify w)
  /\ pending_file (st w') = pending_file (st w) /\ last_full_check (st w') = last_full_check (st w).
Definition no_cycle (w w' : world) : Prop :=
  count is_latest w' = count is_latest w /\ count is_verify w' = count is_verify w
  /\ pending_file (st w') = pending_file (st w) /\ last_full_check (st w') = last_full_check (st w).

Lemma cycle_deferred rel data w : in_use rel data -> pending_file (st w) = Some data ->
  exists w', check_and_apply_once w = (Ok Deferred, w') /\ one_cycle w w'.
Proof.
  intros U Hp. destruct (u_latest _ _ U) as (body & Hb & Hc). destruct (u_reader _ _ U) as [Hr Ht].
  unfold check_and_apply_once, fetch_latest, ask. rewrite Hb.
  assert (E : (match parse_dual e body with
     | Some (hq, agent) => Ok (if is_incoming_only e then agent else hq)
     | None => match parse_flat e body with Some release => Ok release | None => Err "latest.json parse fail" end
     end) = Ok rel).
  { unfold channel in Hc. destruct (parse_dual e body) as [[hq agent]|]; [by injection Hc as ->|]. by rewrite Hc. }
  rewrite E, (u_newer _ _ U). unfold apply_release, ensure_pending_dir, ask. rewrite (u_mkdir _ _ U).
  unfold obtain. cbn [log st]. rewrite Hp. unfold verify, ask. cbn [log st]. rewrite Hp.
  rewrite verify_sha256_accepts by (done || apply U). cbn [is_ok].
  destruct (alive_conns e _) eqn:Ea; [by apply (u_alive _ _ U) in Ea|].
  eexists. split; [reflexivity|]. unfold one_cycle, count. simpl. by rewrite Hp.
Qed.

Lemma no_cycle_trans w1 w2 w3 : no_cycle w1 w2 -> no_cycle w2 w3 -> no_cycle w1 w3.
Proof. unfold no_cycle. intros (? & ? & ? & ?) (? & ? & ? & ?). repeat split; congruence. Qed.

Lemma quiet_steps rel data w : in_use rel data ->
  exists w1 w2, manual_step w = (false, w1) /\ push_step w1 = (false, w2) /\ no_cycle w w2.
Proof.
  intros U. unfold manual_step, ask. rewrite (u_flag _ _ U). cbn [negb].
  assert (H : exists w2, push_step (log EFlag w) = (false, w2) /\ no_cycle w w2).
  { unfold push_step, elapsed_at_least, stamp, ask. destruct (last_push_poll _); [destruct (_ <=? _)|]; cbn [negb];
      rewrite ?(u_push _ _ U); eexists; (split; [reflexivity|done]). }
  destruct H as (w2 & E & H). eauto.
Qed.

Lemma tick_in_use rel data w : in_use rel data -> pending_file (st w) = Some data ->
  last_full_check (st w) = None -> exists w', loop_tick w = (false, w') /\ one_cycle w w'.
Proof.
  intros U Hp Hf. unfold loop_tick. destruct (quiet_steps rel data w U) as (w1 & w2 & -> & -> & N).
  destruct N as (N1 & N2 & N3 & N4). unfold scheduled_step, elapsed_at_least. rewrite N4, Hf. cbv beta iota.
  destruct (match last_deferred_retry (st w2) with Some _ => _ | None => _ end) as [b w3] eqn:E.
  assert (Hn : no_cycle w2 w3).
  { destruct (last_deferred_retry (st w2)); [unfold ask in E|]; by injection E as <- <-. }
  destruct Hn as (M1 & M2 & M3 & M4). cbn [orb].
  destruct (cycle_deferred rel data w3 U) as (w4 & -> & (K1 & K2 & K3 & K4)); [congruence|].
  eexists. split; [reflexivity|]. unfold one_cycle, stamp, ask, count in *. simpl.
  split; [congruence|]. split; [congruence|]. split; congruence.
Qed.

(** On a machine in use, an update that waits is not retried every fifteen
    minutes: as long as no cycle has ended otherwise since the service started,
    every two-second round asks the server for the manifest again and hashes
    the whole installer again. *)
Theorem deferred_update_hammers rel data n w : in_use rel data ->
  pending_file (st w) = Some data -> last_full_check (st w) = None ->
  (ticks n w).1 = false
  /\ count is_latest (ticks n w).2 = (n + count is_latest w)%nat
  /\ count is_verify (ticks n w).2 = (n + count is_verify w)%nat.
Proof.
  intros U. revert w. induction n as [|n IH]; intros w Hp Hf; [done|]. cbn [ticks].
  destruct (tick_in_use rel data w U Hp Hf) as (w1 & -> & (K1 & K2 & K3 & K4)).
  destruct (IH w1) as (E1 & E2 & E3); [congruence|congruence|]. rewrite E1, E2, E3, K1, K2.
  split; [done|]. lia.
Qed.
End updater.

(** *** A session on the first day *)
Definition demo_release : LatestRelease := mkRelease "1.5.0" "https://x" (toy_hex 2).
Definition demo_env_with (sessions : list Z) : env := {|
  is_incoming_only := false; flag_exists := λ _, false; instant := λ k, Z.of_nat k;
  http_push := λ _, None; http_latest := λ _, Ok "m";
  parse_dual := λ _, Some (demo_release, demo_release); parse_flat := λ _, None;
  mkdir := λ _, Ok tt; http_get := λ _, Err "off"; write_tmp := λ _, WOk; rm_ok := λ _, true;
  rename := λ _, Ok tt; read_len := full_reader; alive_conns := λ _, sessions;
  current_session_id := λ _, 1; process_session_id := λ _, None; launch := λ _, Ok false;
  show_verify := λ _, "sha";
|}.
Definition demo_env : env := demo_env_with [7].
Definition idle_env : env := demo_env_with [].
Definition demo_data : list byte := [x61; x62].
Definition demo_world : World.world (gmap string string) updater event :=
  mkWorld ∅ (set_pending (Some demo_data) initial) [].

Lemma demo_in_use : in_use demo_env demo_release demo_data.
Proof.
  split; try done; [by exists "m"|split; [exact full_reader_ok|exact full_reader_total]].
Qed.
Lemma deferred_update_hammers_witness :
  (ticks demo_env 5 demo_world).1 = false
  /\ count is_latest (ticks demo_env 5 demo_world).2 = (5 + 0)%nat
  /\ count is_verify (ticks demo_env 5 demo_world).2 = (5 + 0)%nat.
Proof.
  apply (deferred_update_hammers demo_env demo_release demo_data 5 demo_world demo_in_use); reflexivity.
Defined.

Lemma update_only_verified_witness : exists evs,
  trace (start_in_service idle_env 2 demo_world).2 = evs ++ trace demo_world
  /\ In (EInstall (Some demo_data) 1) evs
  /\ forall t1 contents sid t2, evs = t1 ++ EInstall contents sid :: t2 ->
     is_incoming_only idle_env = false
     /\ install_ok idle_env (trace demo_world) (t2 ++ trace demo_world) contents.
Proof.
  destruct (update_only_verified idle_env 2 demo_world full_reader_ok) as (evs & T & H).
  exists evs. split; [exact T|]. split; [|exact H]. rewrite app_nil_r in T. rewrite <- T. vm_compute. tauto.
Defined.
End Updater.
