(* ===== verification/Upnp.v ===== *)
(** * Opening a port on the router ([src/src/chainremote_upnp.rs])

    The heartbeat's answer switches the forwarding on and off; a thread per
    switching on finds the router and asks it for the mapping, and another one
    renews the lease while the switch is on.  The statics are a record with the
    threads' program counters; every atomic access, every conversation with
    the router and every start of a thread is one step, and a run is any
    sequence of steps of any threads.  What the router and the resolver answer
    in a step comes with the step; a reply's text is read by the translated
    parsers.  Reading the socket ([http_request] from the address lookup on) is
    [exchange]. *)

From Stdlib Require Import Ascii.
From S2P Require Import Prelude RustStr.
#[local] Open Scope Z_scope.

Module Upnp.
Definition LEASE_SECS : Z := 3600.
Definition RENEW_SECS : Z := LEASE_SECS / 2.

(** What the network answers in one step.  [replies]: what the four calls of
    [recv_from] give, [None] an error. *)
Record net := mkNet {
  ssdp_sent : bool;
  replies : list (option string);
  exchange : string -> string -> option string;   (** host and port, request *)
  local_addr : string -> option string;           (** host and port *)
  direct_port_option : string;
  RENDEZVOUS_PORT : Z;
}.

(** ** Text *)
Definition quote : ascii := ascii_of_N 34.
Definition quoted (s : string) : string := String quote (s +:+ String quote EmptyString).
Definition crlf : string := String (ascii_of_N 13) (String (ascii_of_N 10) EmptyString).
Definition concat_str (l : list string) : string := foldr (λ a b, a +:+ b) EmptyString l.
(** [s.split('/').next()], [split] being never empty. *)
Definition host_of (rest : string) : string := hd rest (split "/"%char rest).

Definition join_url (base path : string) : string :=
  if starts_with "http" path then path else
  let rest := default base (strip_prefix "http://" base) in
  let hostport := host_of rest in
  if starts_with "/" path then "http://" +:+ hostport +:+ path
  else "http://" +:+ hostport +:+ "/" +:+ path.

Definition http_request (n : net) (url method extra : string) (body : option string) : option string :=
  rest ← strip_prefix "http://" url;
  let '(hostport, path) := match find_split "/" rest with Some p => p | None => (rest, "/") end in
  let payload := default EmptyString body in
  exchange n hostport (concat_str
    [method; " "; path; " HTTP/1.1"; crlf; "Host: "; hostport; crlf; "Connection: close"; crlf;
     "Content-Length: "; to_string (str_len payload); crlf; extra; crlf; payload]).
Definition http_get (n : net) (url : string) : option string := http_request n url "GET" EmptyString None.

(** The URL of the first reply with a location line. *)
Definition location_of_line (line : string) : option string :=
  if starts_with "location:" (to_ascii_lowercase line) then
    match splitn 2 ":"%char line with
    | _ :: v :: _ => let v := trim v in if starts_with "http" v then Some v else None
    | _ => None
    end
  else None.
Fixpoint first_some {A B} (f : A -> option B) (l : list A) : option B :=
  match l with
  | [] => None
  | a :: l => match f a with Some b => Some b | None => first_some f l end
  end.
Fixpoint read_replies (rounds : nat) (rs : list (option string)) : option string :=
  match rounds, rs with
  | S rounds, Some text :: rs =>
      match first_some location_of_line (lines text) with
      | Some v => Some v
      | None => read_replies rounds rs
      end
  | _, _ => None
  end.
Definition discover (n : net) : option string :=
  if ssdp_sent n then read_replies 4 (replies n) else None.

Definition SERVICES : list string :=
  ["urn:schemas-upnp-org:service:WANIPConnection:1"; "urn:schemas-upnp-org:service:WANPPPConnection:1";
   "urn:schemas-upnp-org:service:WANIPConnection:2"].
Definition between (start fin s : string) : option string :=
  '(_, r) ← find_split start s; after ← strip_prefix start r; '(path, _) ← find_split fin after; Some path.
Definition control_of (location xml service : string) : option (string * string) :=
  '(_, tail) ← find_split service xml;
  path ← between "<controlURL>" "</controlURL>" tail;
  Some (join_url location (trim path), service).
Definition control_url (n : net) (location : string) : option (string * string) :=
  xml ← http_get n location; first_some (control_of location xml) SERVICES.

Definition envelope (body : string) : string := concat_str
  ["<?xml version="; quoted "1.0"; "?><s:Envelope xmlns:s="; quoted "http://schemas.xmlsoap.org/soap/envelope/";
   " s:encodingStyle="; quoted "http://schemas.xmlsoap.org/soap/encoding/"; "><s:Body>"; body; "</s:Body></s:Envelope>"].
Definition soap_action (service action : string) : string := concat_str
  ["SOAPAction: "; quoted (concat_str [service; "#"; action]); crlf; "Content-Type: text/xml; charset="; quoted "utf-8"; crlf].

Definition get_external_ip (n : net) (url service : string) : option string :=
  let body := envelope (concat_str ["<u:GetExternalIPAddress xmlns:u="; quoted service; "/>"]) in
  resp ← http_request n url "POST" (soap_action service "GetExternalIPAddress") (Some body);
  ip ← between "<NewExternalIPAddress>" "</NewExternalIPAddress>" resp;
  let ip := trim ip in
  if is_empty ip || String.eqb ip "0.0.0.0" then None else Some ip.

Definition local_ip_for (n : net) (url : string) : option string :=
  rest ← strip_prefix "http://" url; local_addr n (host_of rest).

(** [str::parse::<i32>]; a lone sign is an error. *)
Definition parse_i32 (s : string) : option Z :=
  match s with
  | String c r =>
      if Ascii.eqb c "-"%char then
        match r with EmptyString => None | _ => Z.opp <$> parse_digits (2 ^ 31) 0 r end
      else parse_uint (2 ^ 31 - 1) s
  | EmptyString => None
  end.
Definition get_direct_port (n : net) : Z :=
  let port := default 0 (parse_i32 (direct_port_option n)) in
  if port <=? 0 then RENDEZVOUS_PORT n + 2 else port.

Record mapping := mkMapping { m_url : string; m_service : string; m_local_ip : string; m_port : Z }.
Definition add_mapping (n : net) (m : mapping) : bool :=
  let p := to_string (m_port m) in
  let body := envelope (concat_str
    ["<u:AddPortMapping xmlns:u="; quoted (m_service m); "><NewRemoteHost></NewRemoteHost><NewExternalPort>"; p;
     "</NewExternalPort><NewProtocol>TCP</NewProtocol><NewInternalPort>"; p; "</NewInternalPort><NewInternalClient>";
     m_local_ip m; "</NewInternalClient><NewEnabled>1</NewEnabled>";
     "<NewPortMappingDescription>ChainRemote</NewPortMappingDescription><NewLeaseDuration>";
     to_string LEASE_SECS; "</NewLeaseDuration></u:AddPortMapping>"]) in
  match http_request n (m_url m) "POST" (soap_action (m_service m) "AddPortMapping") (Some body) with
  | Some resp => contains "AddPortMappingResponse" resp && negb (contains "UPnPError" resp)
  | None => false
  end.

Definition probe (n : net) : string :=
  match discover n with
  | None => "no"
  | Some location =>
      match control_url n location with
      | None => "found"
      | Some (url, service) => match get_external_ip n url service with None => "found" | Some _ => "yes" end
      end
  end.
(** What [open_async] finds out before it asks for the mapping. *)
Definition survey (n : net) : option (string * mapping) :=
  location ← discover n;
  '(url, service) ← control_url n location;
  external_ip ← get_external_ip n url service;
  local_ip ← local_ip_for n url;
  Some (external_ip, mkMapping url service local_ip (Int.wrap 16 (get_direct_port n))).

(** ** The statics and the threads *)

(** [set_enabled]'s remaining steps in the heartbeat's thread. *)
Inductive heart_pc := HIdle | HOption (on : bool) | HOpen | HClearOpened | HClearEndpoint.
(** A thread of [open_async], the next thing it does. *)
Inductive open_pc := OSwap | OLook | OAdd (external_ip : string) (m : mapping)
  | OPublish (external_ip : string) (m : mapping) | ORenew (m : mapping) | OReset | ODone.
(** A thread of [spawn_renew]. *)
Inductive renew_pc := RSleep (m : mapping) | RCheck (m : mapping) | RMap (m : mapping) | RDone.
(** What the program did outside: the option it handed to the other process,
    the mappings it asked for. *)
Inductive event := EDirectServer (v : string) | ESleep (secs : Z) | EAddMapping (m : mapping) (granted : bool).

Record upnp := mkUpnp {
  ENABLED : bool; OPENED : bool; ENDPOINT : option string; RESULT : option string;
  heart : heart_pc; openers : list open_pc; renewers : list renew_pc; did : list event;
}.
Definition initial : upnp := mkUpnp false false None None HIdle [] [] [].
Definition is_enabled (s : upnp) : bool := ENABLED s.
Definition endpoint (s : upnp) : string := default EmptyString (ENDPOINT s).
Definition result (s : upnp) : string := default EmptyString (RESULT s).

Definition set_ENABLED v s := mkUpnp v (OPENED s) (ENDPOINT s) (RESULT s) (heart s) (openers s) (renewers s) (did s).
Definition set_OPENED v s := mkUpnp (ENABLED s) v (ENDPOINT s) (RESULT s) (heart s) (openers s) (renewers s) (did s).
Definition set_ENDPOINT v s := mkUpnp (ENABLED s) (OPENED s) v (RESULT s) (heart s) (openers s) (renewers s) (did s).
Definition set_RESULT v s := mkUpnp (ENABLED s) (OPENED s) (ENDPOINT s) v (heart s) (openers s) (renewers s) (did s).
Definition set_heart v s := mkUpnp (ENABLED s) (OPENED s) (ENDPOINT s) (RESULT s) v (openers s) (renewers s) (did s).
Definition set_openers v s := mkUpnp (ENABLED s) (OPENED s) (ENDPOINT s) (RESULT s) (heart s) v (renewers s) (did s).
Definition set_renewers v s := mkUpnp (ENABLED s) (OPENED s) (ENDPOINT s) (RESULT s) (heart s) (openers s) v (did s).
Definition emit ev s := mkUpnp (ENABLED s) (OPENED s) (ENDPOINT s) (RESULT s) (heart s) (openers s) (renewers s) (ev :: did s).

Inductive label :=
  | LSet (on : bool)            (** the heartbeat calls [set_enabled] *)
  | LHeart                      (** and goes on with it *)
  | LOpener (i : nat) (n : net)
  | LRenewer (i : nat) (n : net)
  | LProbe (n : net).           (** the thread of [probe_async] ends *)

Definition set_enabled (on : bool) (s : upnp) : upnp :=
  match heart s with
  | HIdle => let was := ENABLED s in
             let s := set_ENABLED on s in
             if Bool.eqb was on then s else set_heart (HOption on) s
  | _ => s
  end.
Definition heart_step (s : upnp) : upnp :=
  match heart s with
  | HIdle => s
  | HOption on => set_heart (if on then HOpen else HClearOpened)
                    (emit (EDirectServer (if on then "Y" else EmptyString)) s)
  | HOpen => set_heart HIdle (set_openers (openers s ++ [OSwap]) s)
  | HClearOpened => set_heart HClearEndpoint (set_OPENED false s)
  | HClearEndpoint => set_heart HIdle (set_ENDPOINT None s)
  end.

Definition open_async (n : net) (pc : open_pc) (s : upnp) : open_pc * upnp :=
  match pc with
  | OSwap => (if OPENED s then ODone else OLook, set_OPENED true s)
  | OLook => match survey n with
             | Some (ip, m) => (OAdd ip m, s)
             | None => (OReset, s)
             end
  | OAdd ip m => let granted := add_mapping n m in
                 (if granted then OPublish ip m else OReset, emit (EAddMapping m granted) s)
  | OPublish ip m => (ORenew m, set_ENDPOINT (Some (ip +:+ ":" +:+ to_string (m_port m))) s)
  | ORenew m => (ODone, set_renewers (renewers s ++ [RSleep m]) s)
  | OReset => (ODone, set_OPENED false s)
  | ODone => (ODone, s)
  end.
Definition spawn_renew (n : net) (pc : renew_pc) (s : upnp) : renew_pc * upnp :=
  match pc with
  | RSleep m => (RCheck m, emit (ESleep RENEW_SECS) s)
  | RCheck m => (if ENABLED s then RMap m else RDone, s)
  | RMap m => (RSleep m, emit (EAddMapping m (add_mapping n m)) s)
  | RDone => (RDone, s)
  end.

Definition step (s : upnp) (l : label) : upnp :=
  match l with
  | LSet on => set_enabled on s
  | LHeart => heart_step s
  | LOpener i n => match openers s !! i with
                   | Some pc => let '(pc, s) := open_async n pc s in set_openers (<[i := pc]> (openers s)) s
                   | None => s
                   end
  | LRenewer i n => match renewers s !! i with
                    | Some pc => let '(pc, s) := spawn_renew n pc s in set_renewers (<[i := pc]> (renewers s)) s
                    | None => s
                    end
  | LProbe n => set_RESULT (Some (probe n)) s
  end.
Definition run (ls : list label) (s : upnp) : upnp := foldl step s ls.

(** *** Requests still to come

    A thread that is before its request, or a renewal past its look at the
    switch, still asks for one mapping; any other thread asks for none. *)
Definition is_request (ev : event) : bool := match ev with EAddMapping _ _ => true | _ => false end.
Definition requests (s : upnp) : nat := length (List.filter is_request (did s)).
Definition heart_owes (h : heart_pc) : nat := match h with HOption true | HOpen => 1 | _ => 0 end.
Definition opener_owes (pc : open_pc) : nat := match pc with OSwap | OLook | OAdd _ _ => 1 | _ => 0 end.
Definition renewer_owes (pc : renew_pc) : nat := match pc with RMap _ => 1 | _ => 0 end.
Definition owed (s : upnp) : nat :=
  heart_owes (heart s) + sum_list_with opener_owes (openers s) + sum_list_with renewer_owes (renewers s).

Lemma sum_insert {A} (f : A -> nat) l i x y : l !! i = Some y ->
  (sum_list_with f (<[i := x]> l) + f y = sum_list_with f l + f x)%nat.
Proof.
  revert i. induction l as [|a l IH]; intros [|i]; simpl; try done.
  - intros [= ->]. lia.
  - intros H. specialize (IH _ H). lia.
Qed.

Definition is_on (l : label) : bool := match l with LSet true => true | _ => false end.

Lemma step_off s l : ENABLED s = false -> is_on l = false ->
  ENABLED (step s l) = false /\ (requests (step s l) + owed (step s l) <= requests s + owed s)%nat.
Proof.
  intros He Hl. destruct l as [[]| |i n|i n|n]; try done; unfold step.
  - unfold set_enabled. destruct (heart s) eqn:Eh; by rewrite ?He.
  - unfold heart_step, requests, owed. destruct (heart s) as [|[]| | |] eqn:Eh; simpl; (split; [done|]);
      rewrite ?Eh; simpl; rewrite ?sum_list_with_app; simpl; lia.
  - destruct (openers s !! i) as [pc|] eqn:Ei; [|done].
    pose proof (λ x, sum_insert opener_owes _ _ x _ Ei) as Hs.
    destruct pc; unfold open_async, requests, owed; simpl;
      [specialize (Hs (if OPENED s then ODone else OLook))|specialize (Hs (match survey n with Some (ip, m) => OAdd ip m | None => OReset end))
      |specialize (Hs (if add_mapping n m then OPublish external_ip m else OReset))|specialize (Hs (ORenew m))
      |specialize (Hs ODone)|specialize (Hs ODone)|specialize (Hs ODone)]; simpl in *;
      repeat case_match; simplify_eq; simpl in *; rewrite ?sum_list_with_app; simpl; (split; [done|lia]).
  - destruct (renewers s !! i) as [pc|] eqn:Ei; [|done].
    pose proof (λ x, sum_insert renewer_owes _ _ x _ Ei) as Hs.
    destruct pc as [m|m|m|]; unfold spawn_renew, requests, owed; simpl; rewrite ?He;
      [specialize (Hs (RCheck m))|specialize (Hs RDone)|specialize (Hs (RSleep m))|specialize (Hs RDone)];
      simpl in *; (split; [done|lia]).
Qed.

(** Threads that may still ask for a mapping one day; each began with a
    switching on. *)
Definition opener_lives (pc : open_pc) : nat := match pc with ODone => 0 | _ => 1 end.
Definition renewer_lives (pc : renew_pc) : nat := match pc with RDone => 0 | _ => 1 end.
Definition live (s : upnp) : nat :=
  heart_owes (heart s) + sum_list_with opener_lives (openers s) + sum_list_with renewer_lives (renewers s).
Definition switched_on (ls : list label) : nat := length (List.filter is_on ls).

Lemma sum_le {A} (f g : A -> nat) l : (forall a, f a <= g a)%nat -> (sum_list_with f l <= sum_list_with g l)%nat.
Proof. intros H. induction l as [|a l IH]; simpl; [lia|]. specialize (H a). lia. Qed.

Lemma owed_live s : (owed s <= live s)%nat.
Proof.
  unfold owed, live. pose proof (sum_le opener_owes opener_lives (openers s)) as H1.
  pose proof (sum_le renewer_owes renewer_lives (renewers s)) as H2.
  assert (forall a, opener_owes a <= opener_lives a)%nat by (intros []; simpl; lia).
  assert (forall a, renewer_owes a <= renewer_lives a)%nat by (intros []; simpl; lia).
  specialize (H1 ltac:(done)). specialize (H2 ltac:(done)). lia.
Qed.

Lemma step_live s l : (live (step s l) <= live s + (if is_on l then 1 else 0))%nat.
Proof.
  destruct l as [on| |i n|i n|n]; unfold step; simpl is_on.
  - unfold set_enabled, live. destruct (heart s) eqn:Eh, on; simpl; try lia;
      destruct (ENABLED s); simpl; rewrite ?Eh; simpl; lia.
  - unfold heart_step, live. destruct (heart s) as [|[]| | |] eqn:Eh; simpl; rewrite ?Eh; simpl;
      rewrite ?sum_list_with_app; simpl; lia.
  - destruct (openers s !! i) as [pc|] eqn:Ei; [|lia].
    pose proof (λ x, sum_insert opener_lives _ _ x _ Ei) as Hs. assert (Hl : forall x, (opener_lives x <= 1)%nat) by (intros []; simpl; lia).
    destruct pc; unfold open_async, live; simpl; repeat case_match; simplify_eq; simpl in *;
      rewrite ?sum_list_with_app; simpl;
      match goal with |- context [<[i := ?x]> _] => specialize (Hs x); specialize (Hl x) end; simpl in *; lia.
  - destruct (renewers s !! i) as [pc|] eqn:Ei; [|lia].
    pose proof (λ x, sum_insert renewer_lives _ _ x _ Ei) as Hs. assert (Hl : forall x, (renewer_lives x <= 1)%nat) by (intros []; simpl; lia).
    destruct pc; unfold spawn_renew, live; simpl;
      match goal with |- context [<[i := ?x]> _] => specialize (Hs x); specialize (Hl x) end; simpl in *; lia.
  - unfold live. simpl. lia.
Qed.

Lemma run_live ls s : (live (run ls s) <= live s + switched_on ls)%nat.
Proof.
  revert s. induction ls as [|l ls IH]; intros s; simpl; [unfold switched_on; simpl; lia|].
  specialize (IH (step s l)). pose proof (step_live s l) as H.
  unfold run, switched_on in *. simpl. destruct (is_on l); simpl; lia.
Qed.

Lemma run_off ls s : ENABLED s = false -> Forall (λ l, is_on l = false) ls ->
  ENABLED (run ls s) = false /\ (requests (run ls s) + owed (run ls s) <= requests s + owed s)%nat.
Proof.
  intros He H. revert s He. induction H as [|l ls Hl _ IH]; intros s He; [done|].
  destruct (step_off s l He Hl) as [H1 H2]. destruct (IH _ H1) as [H3 H4]. unfold run in *. simpl. split; [done|lia].
Qed.

Lemma run_steps_app ls ls' s : run (ls ++ ls') s = run ls' (run ls s).
Proof. apply foldl_app. Qed.

(** Once the switch is off, the forwarding ends: however the threads
    interleave and whatever the router answers, at most one more mapping is
    asked for by each thread that was past its look at the switch, and there
    are never more of these than switchings on before.  In particular no port
    is ever opened before the headquarters switched it on. *)
Theorem mappings_stop ls ls' :
  ENABLED (run ls initial) = false -> Forall (λ l, is_on l = false) ls' ->
  (requests (run (ls ++ ls') initial) <= requests (run ls initial) + owed (run ls initial))%nat
  /\ (owed (run ls initial) <= switched_on ls)%nat
  /\ ENABLED (run (ls ++ ls') initial) = false.
Proof.
  intros He H. rewrite run_steps_app. destruct (run_off ls' _ He H) as [H1 H2].
  split; [lia|]. split; [|done]. pose proof (owed_live (run ls initial)).
  pose proof (run_live ls initial) as L. change (live initial) with O in L. lia.
Qed.

(** *** Switching on *)

Lemma step_opener s i n pc : openers s !! i = Some pc ->
  step s (LOpener i n) = let '(pc, s) := open_async n pc s in set_openers (<[i := pc]> (openers s)) s.
Proof. intros H. unfold step. by rewrite H. Qed.
Lemma step_renewer s i n pc : renewers s !! i = Some pc ->
  step s (LRenewer i n) = let '(pc, s) := spawn_renew n pc s in set_renewers (<[i := pc]> (renewers s)) s.
Proof. intros H. unfold step. by rewrite H. Qed.

(** A renewer that sleeps asks for the mapping again in three steps. *)
Definition renewing (j : nat) (m : mapping) (s : upnp) : Prop :=
  ENABLED s = true /\ renewers s !! j = Some (RSleep m).
Lemma renew_cycle j m n s : renewing j m s ->
  let s' := run [LRenewer j n; LRenewer j n; LRenewer j n] s in
  renewing j m s' /\ requests s' = S (requests s) /\ ENDPOINT s' = ENDPOINT s.
Proof.
  intros [He Hj]. assert (Hlt : (j < length (renewers s))%nat) by by eapply lookup_lt_Some.
  unfold run. cbn [foldl]. rewrite (step_renewer s j n _ Hj). cbv beta iota zeta delta [spawn_renew].
  set (s1 := set_renewers _ _).
  assert (H1 : renewers s1 !! j = Some (RCheck m)) by (unfold s1; simpl; by rewrite list_lookup_insert_eq).
  rewrite (step_renewer s1 j n _ H1). cbv beta iota zeta delta [spawn_renew].
  replace (ENABLED s1) with true by done. set (s2 := set_renewers _ _).
  assert (H2 : renewers s2 !! j = Some (RMap m)).
  { unfold s2. simpl. rewrite list_lookup_insert_eq; [done|]. by rewrite length_insert. }
  rewrite (step_renewer s2 j n _ H2). cbv beta iota zeta delta [spawn_renew].
  split; [split; [done|]|done]. simpl. rewrite list_lookup_insert_eq; [done|]. by rewrite !length_insert.
Qed.

Fixpoint renew_rounds (k : nat) (j : nat) (n : net) : list label :=
  match k with O => [] | S k => [LRenewer j n; LRenewer j n; LRenewer j n] ++ renew_rounds k j n end.
Lemma renew_many k j m n s : renewing j m s ->
  let s' := run (renew_rounds k j n) s in
  ENABLED s' = true /\ requests s' = (k + requests s)%nat /\ ENDPOINT s' = ENDPOINT s.
Proof.
  revert s. induction k as [|k IH]; intros s H; [by destruct H|]. cbn [renew_rounds].
  destruct (renew_cycle j m n s H) as (H1 & H2 & H3). destruct (IH _ H1) as (H4 & H5 & H6).
  rewrite run_steps_app, H5, H6, H2. split; [done|]. split; [lia|done].
Qed.

(** The schedule of a switching on: the heartbeat's thread, then the opener. *)
Definition on_schedule (i : nat) (n : net) : list label :=
  [LSet true; LHeart; LHeart; LOpener i n; LOpener i n; LOpener i n; LOpener i n; LOpener i n].

Lemma on_spec n ip m s : ENABLED s = false -> OPENED s = false -> heart s = HIdle ->
  survey n = Some (ip, m) -> add_mapping n m = true ->
  let s' := run (on_schedule (length (openers s)) n) s in
  ENDPOINT s' = Some (ip +:+ ":" +:+ to_string (m_port m)) /\ requests s' = S (requests s)
  /\ renewing (length (renewers s)) m s'.
Proof.
  intros He Ho Hh Hs Ha. set (i := length (openers s)).
  assert (E3 : run [LSet true; LHeart; LHeart] s
    = set_heart HIdle (set_openers (openers s ++ [OSwap]) (set_heart HOpen (emit (EDirectServer "Y")
        (set_heart (HOption true) (set_ENABLED true s)))))).
  { unfold run. cbn [foldl step]. unfold set_enabled. by rewrite Hh, He. }
  unfold on_schedule. change (run _ s) with (run [LOpener i n; LOpener i n; LOpener i n; LOpener i n; LOpener i n]
    (run [LSet true; LHeart; LHeart] s)). rewrite E3. set (s3 := set_heart HIdle _).
  assert (Hpc : forall (pc : open_pc) s0, openers s0 = <[i := pc]> (openers s3) -> openers s0 !! i = Some pc).
  { intros pc s0 ->. apply list_lookup_insert_eq. unfold s3. simpl. rewrite length_app. simpl. lia. }
  assert (Hins : forall pc pc' s0, openers s0 = <[i := pc]> (openers s3) -> <[i := pc']> (openers s0) = <[i := pc']> (openers s3)).
  { intros pc pc' s0 ->. by rewrite list_insert_insert_eq. }
  assert (H3 : openers s3 !! i = Some OSwap).
  { unfold s3, i. simpl. rewrite lookup_app_r by lia. by rewrite Nat.sub_diag. }
  unfold run. cbn [foldl].
  rewrite (step_opener s3 i n _ H3). cbn [open_async]. replace (OPENED s3) with false by done. cbv beta iota zeta.
  set (s4 := set_openers _ _). assert (O4 : openers s4 = <[i := OLook]> (openers s3)) by done.
  rewrite (step_opener s4 i n _ (Hpc _ _ O4)). cbn [open_async]. rewrite Hs. cbv beta iota zeta.
  set (s5 := set_openers _ _). assert (O5 : openers s5 = <[i := OAdd ip m]> (openers s3)) by by eapply Hins.
  rewrite (step_opener s5 i n _ (Hpc _ _ O5)). cbn [open_async]. rewrite Ha. cbv beta iota zeta.
  set (s6 := set_openers _ _). assert (O6 : openers s6 = <[i := OPublish ip m]> (openers s3)) by by eapply Hins.
  rewrite (step_opener s6 i n _ (Hpc _ _ O6)). cbn [open_async]. cbv beta iota zeta.
  set (s7 := set_openers _ _). assert (O7 : openers s7 = <[i := ORenew m]> (openers s3)) by by eapply Hins.
  rewrite (step_opener s7 i n _ (Hpc _ _ O7)). cbn [open_async]. cbv beta iota zeta.
  split; [done|]. split; [done|]. split; [done|]. simpl. rewrite lookup_app_r by lia. by rewrite Nat.sub_diag.
Qed.

(** Where the router cooperates, switching on works: the port is asked for
    once, the outside address is reported as the router named it, and the
    lease is renewed in every later period. *)
Theorem switch_on_opens n ip m s k : ENABLED s = false -> OPENED s = false -> heart s = HIdle ->
  survey n = Some (ip, m) -> add_mapping n m = true ->
  let s' := run (on_schedule (length (openers s)) n ++ renew_rounds k (length (renewers s)) n) s in
  endpoint s' = ip +:+ ":" +:+ to_string (m_port m) /\ is_enabled s' = true
  /\ requests s' = (1 + k + requests s)%nat.
Proof.
  intros He Ho Hh Hs Ha. destruct (on_spec n ip m s He Ho Hh Hs Ha) as (H1 & H2 & H3).
  destruct (renew_many k _ m n _ H3) as (H4 & H5 & H6). cbv zeta. rewrite run_steps_app.
  unfold endpoint, is_enabled. rewrite H6, H1, H5, H2. split; [done|]. split; [exact H4|lia].
Qed.

(** A switching on whose only attempt failed is not repeated: until the switch
    was off again, whatever the heartbeat says, no port is asked for and no
    address reported. *)
Definition gave_up (s : upnp) : Prop := ENABLED s = true /\ heart s = HIdle
  /\ Forall (λ pc, pc = ODone) (openers s) /\ Forall (λ pc, pc = RDone) (renewers s).
Definition is_off (l : label) : bool := match l with LSet false => true | _ => false end.

Lemma gave_up_step s l : gave_up s -> is_off l = false ->
  gave_up (step s l) /\ did (step s l) = did s /\ ENDPOINT (step s l) = ENDPOINT s.
Proof.
  intros (He & Hh & Ho & Hr) Hl. destruct l as [[]| |i n|i n|n]; try done; unfold step.
  - unfold set_enabled. rewrite Hh, He. by destruct s; simpl in *; subst.
  - unfold heart_step. by rewrite Hh.
  - destruct (openers s !! i) as [pc|] eqn:Ei; [|done].
    rewrite (proj1 (Forall_lookup _ _) Ho _ _ Ei). simpl. split; [|done].
    split; [done|]. split; [done|]. split; [|done]. by apply Forall_insert.
  - destruct (renewers s !! i) as [pc|] eqn:Ei; [|done].
    rewrite (proj1 (Forall_lookup _ _) Hr _ _ Ei). simpl. split; [|done].
    split; [done|]. split; [done|]. split; [done|]. by apply Forall_insert.
Qed.

Theorem failed_opening_not_retried s ls : gave_up s -> Forall (λ l, is_off l = false) ls ->
  requests (run ls s) = requests s /\ ENDPOINT (run ls s) = ENDPOINT s.
Proof.
  intros Hg H. revert s Hg. induction H as [|l ls Hl _ IH]; intros s Hg; [done|].
  destruct (gave_up_step s l Hg Hl) as (H1 & H2 & H3). destruct (IH _ H1) as [H4 H5].
  unfold run in *. simpl. rewrite H4, H5. unfold requests. by rewrite H2, H3.
Qed.

(** *** A router *)
Definition demo_location : string := concat_str
  ["HTTP/1.1 200 OK"; crlf; "LOCATION: http://192.168.0.1:5000/desc.xml"; crlf; crlf].
Definition demo_xml : string := concat_str
  ["<serviceType>urn:schemas-upnp-org:service:WANPPPConnection:1</serviceType>";
   "<controlURL> /ctl </controlURL>"].
Definition demo_net (open : bool) : net := {|
  ssdp_sent := true; replies := [Some demo_location];
  exchange := λ host req,
    if starts_with "GET /desc.xml " req then Some demo_xml
    else if contains "GetExternalIPAddress" req
    then Some "<NewExternalIPAddress>203.0.113.9</NewExternalIPAddress>"
    else if open then Some "<u:AddPortMappingResponse/>" else Some "<UPnPError>718</UPnPError>";
  local_addr := λ _, Some "192.168.0.7"; direct_port_option := ""; RENDEZVOUS_PORT := 21116;
|}.
Definition demo_mapping : mapping := mkMapping "http://192.168.0.1:5000/ctl"
  "urn:schemas-upnp-org:service:WANPPPConnection:1" "192.168.0.7" 21118.
Example demo_survey : survey (demo_net true) = Some ("203.0.113.9", demo_mapping) /\ probe (demo_net true) = "yes".
Proof. vm_compute. done. Qed.

Lemma switch_on_opens_witness :
  let s' := run (on_schedule 0 (demo_net true) ++ renew_rounds 2 0 (demo_net true)) initial in
  endpoint s' = "203.0.113.9" +:+ ":" +:+ to_string 21118 /\ is_enabled s' = true /\ requests s' = (1 + 2 + 0)%nat.
Proof.
  apply (switch_on_opens (demo_net true) "203.0.113.9" demo_mapping initial 2); vm_compute; reflexivity.
Defined.

Definition off_schedule : list label := [LSet false; LHeart; LHeart; LHeart].
Definition demo_on : list label := on_schedule 0 (demo_net true) ++ off_schedule.
Lemma mappings_stop_witness :
  let renew := [LRenewer 0 (demo_net true); LRenewer 0 (demo_net true); LRenewer 0 (demo_net true)] in
  (requests (run (demo_on ++ renew) initial) <= requests (run demo_on initial) + owed (run demo_on initial))%nat
  /\ (owed (run demo_on initial) <= switched_on demo_on)%nat
  /\ ENABLED (run (demo_on ++ renew) initial) = false.
Proof. apply mappings_stop; [vm_compute; reflexivity|]. repeat constructor. Defined.

Lemma failed_opening_not_retried_witness :
  let s := run (on_schedule 0 (demo_net false)) initial in
  requests (run [LSet true; LHeart] s) = requests s /\ ENDPOINT (run [LSet true; LHeart] s) = ENDPOINT s.
Proof.
  apply failed_opening_not_retried; [|by repeat constructor].
  repeat split; vm_compute; repeat constructor.
Defined.

(** The address stays reported when the switch goes off while the opener waits
    for the router, and when the router refuses to renew the lease. *)
Example off_during_opening_keeps_endpoint :
  let o := LOpener 0 (demo_net true) in
  let s := run ([LSet true; LHeart; LHeart; o; o; o] ++ off_schedule ++ [o; o]
                ++ [LRenewer 0 (demo_net true); LRenewer 0 (demo_net true)]) initial in
  is_enabled s = false /\ renewers s = [RDone] /\ openers s = [ODone] /\ endpoint s = "203.0.113.9:21118".
Proof. vm_compute. done. Qed.
Example failed_renewal_keeps_endpoint :
  let r := LRenewer 0 (demo_net false) in
  endpoint (run (on_schedule 0 (demo_net true) ++ [r; r; r; r; r; r]) initial) = "203.0.113.9:21118".
Proof. vm_compute. done. Qed.
(** Off and on again within a period: two threads renew the same mapping. *)
Example two_renewers :
  let s := run (on_schedule 0 (demo_net true) ++ off_schedule ++ on_schedule 1 (demo_net true)
                ++ [LRenewer 0 (demo_net true); LRenewer 0 (demo_net true);
                    LRenewer 1 (demo_net true); LRenewer 1 (demo_net true)]) initial in
  renewers s = [RMap demo_mapping; RMap demo_mapping].
Proof. vm_compute. done. Qed.
End Upnp.
