(* ===== verification/Van.v ===== *)
(** * The card-payment daemon watch ([src/src/chainremote_van.rs])

    The watch thread observes whether a payment daemon listens on its port and
    restarts it when it stopped.  The statics of the module are the record
    [van]; outputs of [netstat], [tasklist] and [wmic], the monotonic clock,
    file existence and process control come from an environment.  The parsers
    of those outputs are translated.  A poisoned lock does not occur (the
    program aborts on panic); log lines are left out. *)

From Stdlib Require Import Ascii.
From S2P Require Import Prelude RustStr Store World.
#[local] Open Scope Z_scope.

Module Van.
Record Daemon := mkDaemon {
  d_kind : string;
  d_process : string;
  d_port : Z;
  fallbacks : list string;
}.
Definition DAEMONS : list Daemon :=
  [mkDaemon "ksnet" "KSCAT.exe" 27015
     ["C:\KSCAT\KSCAT.exe"; "C:\Program Files\KSCAT\KSCAT.exe";
      "C:\Program Files (x86)\KSCAT\KSCAT.exe"; "C:\KSNET\KSCAT.exe"; "D:\KSCAT\KSCAT.exe"]].

Definition WATCH_INTERVAL : Z := 30.
Definition START_GRACE : Z := 60.
Definition MAX_FAILURES : Z := 3.
Definition BAD_STREAK_NEEDED : Z := 2.
Definition KIND_CACHE_KEY : string := "chainremote-van-kind".
Definition PATH_CACHE_KEY : string := "chainremote-van-path".

(** The statics. *)
Record van := mkVan {
  KIND : string;
  RESTARTED_PENDING : bool;
  LAST_OK : bool;
  EVER_OK : bool;
  WAITING_LOGGED : bool;
  GAVE_UP : bool;
  NOT_INSTALLED : bool;
  FAILURES : Z;
  BAD_STREAK : Z;
  QUIET_UNTIL : option Z;
}.
Definition initial : van := mkVan EmptyString false false false false false false 0 0 None.

Definition set_KIND v s := mkVan v (RESTARTED_PENDING s) (LAST_OK s) (EVER_OK s) (WAITING_LOGGED s)
  (GAVE_UP s) (NOT_INSTALLED s) (FAILURES s) (BAD_STREAK s) (QUIET_UNTIL s).
Definition set_RESTARTED_PENDING v s := mkVan (KIND s) v (LAST_OK s) (EVER_OK s) (WAITING_LOGGED s)
  (GAVE_UP s) (NOT_INSTALLED s) (FAILURES s) (BAD_STREAK s) (QUIET_UNTIL s).
Definition set_LAST_OK v s := mkVan (KIND s) (RESTARTED_PENDING s) v (EVER_OK s) (WAITING_LOGGED s)
  (GAVE_UP s) (NOT_INSTALLED s) (FAILURES s) (BAD_STREAK s) (QUIET_UNTIL s).
Definition set_EVER_OK v s := mkVan (KIND s) (RESTARTED_PENDING s) (LAST_OK s) v (WAITING_LOGGED s)
  (GAVE_UP s) (NOT_INSTALLED s) (FAILURES s) (BAD_STREAK s) (QUIET_UNTIL s).
Definition set_WAITING_LOGGED v s := mkVan (KIND s) (RESTARTED_PENDING s) (LAST_OK s) (EVER_OK s) v
  (GAVE_UP s) (NOT_INSTALLED s) (FAILURES s) (BAD_STREAK s) (QUIET_UNTIL s).
Definition set_GAVE_UP v s := mkVan (KIND s) (RESTARTED_PENDING s) (LAST_OK s) (EVER_OK s)
  (WAITING_LOGGED s) v (NOT_INSTALLED s) (FAILURES s) (BAD_STREAK s) (QUIET_UNTIL s).
Definition set_NOT_INSTALLED v s := mkVan (KIND s) (RESTARTED_PENDING s) (LAST_OK s) (EVER_OK s)
  (WAITING_LOGGED s) (GAVE_UP s) v (FAILURES s) (BAD_STREAK s) (QUIET_UNTIL s).
Definition set_FAILURES v s := mkVan (KIND s) (RESTARTED_PENDING s) (LAST_OK s) (EVER_OK s)
  (WAITING_LOGGED s) (GAVE_UP s) (NOT_INSTALLED s) v (BAD_STREAK s) (QUIET_UNTIL s).
Definition set_BAD_STREAK v s := mkVan (KIND s) (RESTARTED_PENDING s) (LAST_OK s) (EVER_OK s)
  (WAITING_LOGGED s) (GAVE_UP s) (NOT_INSTALLED s) (FAILURES s) v (QUIET_UNTIL s).
Definition set_QUIET_UNTIL v s := mkVan (KIND s) (RESTARTED_PENDING s) (LAST_OK s) (EVER_OK s)
  (WAITING_LOGGED s) (GAVE_UP s) (NOT_INSTALLED s) (FAILURES s) (BAD_STREAK s) v.

Inductive event : Type :=
  | ENetstat
  | ETasklist
  | EWmic
  | EInstant
  | EExists (path : string)
  | EKill (pid : Z)
  | ESleep (secs : Z)
  | ELaunch (path : string) (launched : bool).

Record env := mkEnv {
  netstat : nat -> option string;
  tasklist : nat -> option string;
  wmic : nat -> option string;
  instant : nat -> Z;
  exists_ : nat -> string -> bool;
  taskkill : nat -> bool;
  get_current_session_id : nat -> Z;
  run_exe_in_session : nat -> bool;
}.

Section van.
Context {C : Type} `{!LocalConfig C} (e : env).
Abbreviation world := (World.world C van event).

Definition set_kind (kind : string) (w : world) : world :=
  let kind := trim kind in
  let w := if negb (String.eqb (KIND (st w)) kind)
           then upd (λ s, set_FAILURES 0 (set_NOT_INSTALLED false (set_WAITING_LOGGED false
                  (set_EVER_OK false (set_GAVE_UP false (set_KIND kind s)))))) w
           else w in
  if negb (String.eqb (get KIND_CACHE_KEY w) kind) then put KIND_CACHE_KEY kind w else w.

Definition is_on (w : world) : bool := negb (is_empty (KIND (st w))).
Definition current_ok (w : world) : option bool :=
  if negb (is_on w) then None
  else if LAST_OK (st w) then Some true
  else if negb (EVER_OK (st w)) && negb (NOT_INSTALLED (st w)) then None
  else Some false.
Definition gave_up (w : world) : bool := GAVE_UP (st w).
Definition not_installed (w : world) : bool := NOT_INSTALLED (st w).
Definition peek_restarted (w : world) : bool := RESTARTED_PENDING (st w).
Definition clear_restarted (w : world) : world := upd (set_RESTARTED_PENDING false) w.

Definition current_daemon (w : world) : option Daemon :=
  if is_empty (KIND (st w)) then None
  else List.find (λ d, String.eqb (d_kind d) (KIND (st w))) DAEMONS.

(** *** Reading the outputs *)
Record PortState := mkPort { listening : bool; established : Z }.

Definition port_line (port : Z) (s : PortState) (line : string) : PortState :=
  match split_whitespace line with
  | f0 :: f1 :: _ :: f3 :: _ =>
      if negb (eq_ignore_ascii_case f0 "TCP") then s else
      match parse_u16 (rsplit_first ":"%char f1) with
      | None => s
      | Some p =>
          if negb (p =? port) then s
          else if eq_ignore_ascii_case f3 "LISTENING" then mkPort true (established s)
          else if eq_ignore_ascii_case f3 "ESTABLISHED" then mkPort (listening s) (established s + 1)
          else s
      end
  | _ => s
  end.
Definition read_netstat (port : Z) (out : string) : PortState :=
  foldl (port_line port) (mkPort false 0) (lines out).
Definition probe_port (port : Z) (w : world) : option PortState * world :=
  let '(out, w) := ask (netstat e) ENetstat w in
  (read_netstat port <$> out, w).

Definition quote : ascii := ascii_of_N 34.
Definition quote_comma_quote : string := String quote (String ","%char (String quote EmptyString)).
Fixpoint pid_in_lines (name : string) (ls : list string) : option Z :=
  match ls with
  | [] => None
  | line :: ls =>
      match split_str quote_comma_quote line with
      | [] => pid_in_lines name ls
      | img :: rest =>
          if negb (eq_ignore_ascii_case (trim_start_char quote img) name) then pid_in_lines name ls else
          match rest with
          | p :: _ => match parse_u32 (trim_char quote p) with
                      | Some pid => Some pid
                      | None => pid_in_lines name ls
                      end
          | [] => pid_in_lines name ls
          end
      end
  end.
Definition find_pid (name : string) (w : world) : option Z * world :=
  let '(out, w) := ask (tasklist e) ETasklist w in
  (match out with Some o => pid_in_lines name (lines o) | None => None end, w).

(** *** The path of the daemon *)
Definition path_exists (p : string) (w : world) : bool * world :=
  (exists_ e (clk w) p, log (EExists p) w).

Definition cached_path (w : world) : option string * world :=
  let cached := get PATH_CACHE_KEY w in
  if is_empty cached then (None, w) else
  let '(ex, w) := path_exists cached w in
  (if (ex : bool) then Some cached else None, w).

Fixpoint first_existing (ps : list string) (w : world) : option string * world :=
  match ps with
  | [] => (None, w)
  | p :: ps =>
      let '(ex, w) := path_exists p w in
      if (ex : bool) then (Some p, put PATH_CACHE_KEY p w) else first_existing ps w
  end.
Definition daemon_path (d : Daemon) (w : world) : option string * world :=
  let '(c, w) := cached_path w in
  match c with
  | Some p => (Some p, w)
  | None => first_existing (fallbacks d) w
  end.

Definition wmic_path (d : Daemon) (out : string) : option string :=
  List.find (λ t, ends_with (to_ascii_lowercase (d_process d)) (to_ascii_lowercase t))
    (map trim (lines out)).
Definition cache_path_if_missing (d : Daemon) (w : world) : world :=
  let '(c, w) := cached_path w in
  match c with
  | Some _ => w
  | None =>
      let '(out, w) := ask (wmic e) EWmic w in
      match out with
      | None => w
      | Some out => match wmic_path d out with
                    | Some t => put PATH_CACHE_KEY t w
                    | None => w
                    end
      end
  end.

(** *** Recovery *)
Definition note_failure (w : world) : world :=
  let n := Int.wrap 32 (FAILURES (st w) + 1) in
  let w := upd (set_FAILURES n) w in
  if MAX_FAILURES <=? n then upd (set_GAVE_UP true) w else w.

Definition in_quiet_period (w : world) : bool * world :=
  match QUIET_UNTIL (st w) with
  | None => (false, w)
  | Some t => let '(now, w) := ask (instant e) EInstant w in (now <? t, w)
  end.
Definition set_quiet (dur : Z) (w : world) : world :=
  let '(now, w) := ask (instant e) EInstant w in upd (set_QUIET_UNTIL (Some (now + dur))) w.

Definition u32_MAX : Z := 2 ^ 32 - 1.
Definition launch_in_user_session (exe : string) (w : world) : bool * world :=
  let r := negb (get_current_session_id e (clk w) =? u32_MAX) && run_exe_in_session e (clk w) in
  (r, log (ELaunch exe r) w).
Definition kill (pid : Z) (w : world) : bool * world := ask (taskkill e) (EKill pid) w.

Definition recover (d : Daemon) (w : world) : world :=
  let '(pid, w) := find_pid (d_process d) w in
  let w := match pid with Some _ => cache_path_if_missing d w | None => w end in
  let '(path, w) := daemon_path d w in
  match pid, path with
  | None, None => upd (λ s, set_GAVE_UP true (set_NOT_INSTALLED true s)) w
  | Some _, None => note_failure w
  | _, Some path =>
      let w := match pid with
               | Some pid => log (ESleep 2) (kill pid w).2
               | None => w
               end in
      let '(launched, w) := launch_in_user_session path w in
      if (launched : bool) then set_quiet START_GRACE (upd (set_RESTARTED_PENDING true) w)
      else note_failure w
  end.

Definition tick (d : Daemon) (w : world) : world :=
  let '(probe, w) := probe_port (d_port d) w in
  match probe with
  | None => upd (set_BAD_STREAK 0) w
  | Some state =>
      if listening state then
        cache_path_if_missing d
          (upd (λ s, set_EVER_OK true (set_NOT_INSTALLED false (set_GAVE_UP false
             (set_BAD_STREAK 0 (set_FAILURES 0 (set_LAST_OK true s)))))) w)
      else
        let w := upd (set_LAST_OK false) w in
        if established state >? 0 then upd (set_BAD_STREAK 0) w
        else if GAVE_UP (st w) then w
        else
          let '(quiet, w) := in_quiet_period w in
          if (quiet : bool) then w else
          let '(pid, w) := find_pid (d_process d) w in
          if match pid with Some _ => negb (EVER_OK (st w)) | None => false end
          then upd (set_WAITING_LOGGED true) w
          else
            let streak := Int.wrap 32 (BAD_STREAK (st w) + 1) in
            let w := upd (set_BAD_STREAK streak) w in
            if streak <? BAD_STREAK_NEEDED then w
            else recover d (upd (set_BAD_STREAK 0) w)
  end.

(** The thread [start_watch] spawns, after arming from the cache. *)
Definition arm (w : world) : world :=
  let cached := get KIND_CACHE_KEY w in
  if is_empty cached then w else upd (set_KIND cached) w.
Definition watch_round (w : world) : world :=
  let w := log (ESleep WATCH_INTERVAL) w in
  match current_daemon w with Some d => tick d w | None => w end.
Fixpoint watch (n : nat) (w : world) : world :=
  match n with O => w | S n => watch n (watch_round w) end.
Definition start_watch (n : nat) (w : world) : world := watch n (arm w).

(** *** What the helpers do to the outside *)
Definition calm_ev (ev : event) : Prop :=
  match ev with EKill _ | ELaunch _ _ => False | _ => True end.
Abbreviation calm := (evolves (C:=C) (St:=van) calm_ev (λ k, k = PATH_CACHE_KEY)).
#[local] Hint Extern 1 (calm_ev _) => exact I : world.
Ltac calm_cases := world_cases; eauto 10 with world.
(** Looking for the program's file: no process list. *)
Definition look_ev (ev : event) : Prop :=
  match ev with EExists _ | EWmic => True | _ => False end.
Abbreviation look := (evolves (C:=C) (St:=van) look_ev (λ k, k = PATH_CACHE_KEY)).
#[local] Hint Extern 1 (look_ev _) => exact I : world.
Lemma look_calm w w' : look w w' -> calm w w'.
Proof. apply evolves_weaken; [by intros []|done]. Qed.

Lemma find_pid_calm n w : calm w (find_pid n w).2.
Proof. unfold find_pid. calm_cases. Qed.
Lemma cached_path_look w : look w (cached_path w).2.
Proof. unfold cached_path, path_exists. calm_cases. Qed.
Lemma first_existing_look ps w : look w (first_existing ps w).2.
Proof.
  revert w. induction ps as [|p ps IH]; intros w; simpl; [auto with world|].
  destruct (exists_ e _ _); simpl; [auto with world|].
  eapply evolves_trans; [|apply IH]. auto with world.
Qed.
Lemma daemon_path_look d w : look w (daemon_path d w).2.
Proof.
  unfold daemon_path. pose proof (cached_path_look w) as H.
  destruct (cached_path w) as [[p|] w1]; [done|].
  eapply evolves_trans; [exact H|]. apply first_existing_look.
Qed.
Lemma cache_path_look d w : look w (cache_path_if_missing d w).
Proof.
  unfold cache_path_if_missing. pose proof (cached_path_look w) as H.
  destruct (cached_path w) as [[p|] w1]; simpl in *; [done|].
  repeat (case_goal; simpl); auto with world.
Qed.

(** The helpers leave the statics alone. *)
Lemma find_pid_st n w : st (find_pid n w).2 = st w.
Proof. done. Qed.
Lemma cached_path_st w : st (cached_path w).2 = st w.
Proof. unfold cached_path. by case_goal. Qed.
Lemma first_existing_st ps w : st (first_existing ps w).2 = st w.
Proof.
  revert w. induction ps as [|p ps IH]; intros w; simpl; [done|].
  destruct (exists_ e _ _); [done|]. by rewrite IH.
Qed.
Lemma daemon_path_st d w : st (daemon_path d w).2 = st w.
Proof.
  unfold daemon_path. rewrite <- (cached_path_st w).
  destruct (cached_path w) as [[p|] w1]; [done|]. apply first_existing_st.
Qed.
Lemma cache_path_st d w : st (cache_path_if_missing d w) = st w.
Proof.
  unfold cache_path_if_missing. rewrite <- (cached_path_st w).
  destruct (cached_path w) as [[p|] w1]; simpl; [done|]. by repeat case_goal.
Qed.

(** A path that was found: its existence was the last thing asked. *)
Definition just_seen (p : string) (w w' : world) : Prop :=
  exists evs, trace w' = EExists p :: evs ++ trace w /\ exists_ e (length (evs ++ trace w)) p = true.

Lemma just_seen_later p w w1 w' : look w w1 -> just_seen p w1 w' -> just_seen p w w'.
Proof.
  intros (evs & Ht & _)%evolves_trace (evs' & Ht' & He). rewrite Ht in *.
  exists (evs' ++ evs). by rewrite <- app_assoc.
Qed.
Lemma first_existing_exists ps w p w' : first_existing ps w = (Some p, w') -> just_seen p w w'.
Proof.
  revert w. induction ps as [|q ps IH]; intros w; simpl; [done|].
  destruct (exists_ e (clk w) q) eqn:E; [intros [= <- <-]; by exists []|].
  intros H%IH. eapply just_seen_later; [|exact H]. auto with world.
Qed.
Lemma daemon_path_exists d w p w' : daemon_path d w = (Some p, w') -> just_seen p w w'.
Proof.
  unfold daemon_path, cached_path, path_exists. destruct (is_empty _).
  - apply first_existing_exists.
  - simpl. destruct (exists_ e _ _) eqn:E; [intros [= <- <-]; by exists []|].
    intros H%first_existing_exists. eapply just_seen_later; [|exact H]. auto with world.
Qed.

(** *** Recovery *)
Definition running (d : Daemon) (k : nat) : option Z :=
  match tasklist e k with Some o => pid_in_lines (d_process d) (lines o) | None => None end.

(** What surrounds a kill, with [t1] after it and [tr] before it: the process
    list asked for last showed this process as the daemon, the program's file
    was there when last asked for, and two seconds later it is launched. *)
Definition kill_ok (d : Daemon) (base tr : list event) (pid : Z) (t1 : list event) : Prop :=
  last_asked ETasklist (λ k, running d k = Some pid) base tr
  /\ exists path launched t3, t1 = t3 ++ [ELaunch path launched; ESleep 2]
     /\ last_asked (EExists path) (λ k, exists_ e k path = true) base tr.

Lemma only_kill t evs pid t1 pid' t2 : Forall (λ ev, forall q, ev <> EKill q) t ->
  Forall calm_ev evs -> t ++ EKill pid :: evs = t1 ++ EKill pid' :: t2 -> t1 = t /\ pid' = pid /\ t2 = evs.
Proof.
  intros Ht Hevs. revert t1. induction Ht as [|ev t Hev _ IH]; intros [|x t1]; simpl.
  - by intros [= <- <-].
  - intros [= <- ->]. apply Forall_app in Hevs as [_ H]. by inversion H.
  - intros [= -> _]. by destruct (Hev pid').
  - intros [= -> H]. by destruct (IH _ H) as (-> & -> & ->).
Qed.

Lemma calm_no_kill evs t1 pid t2 : Forall calm_ev evs -> evs <> t1 ++ EKill pid :: t2.
Proof. intros H ->. apply Forall_app in H as [_ H]. by inversion H. Qed.

(** A kill before calm events came from what follows them. *)
Lemma split_app_calm evs evs1 t1 pid t2 : Forall calm_ev evs1 -> evs ++ evs1 = t1 ++ EKill pid :: t2 ->
  exists t2', t2 = t2' ++ evs1 /\ evs = t1 ++ EKill pid :: t2'.
Proof.
  intros Hc. revert t1. induction evs as [|ev evs IH]; intros t1; simpl.
  - intros H. by eapply calm_no_kill in H.
  - destruct t1 as [|x t1]; simpl; intros [= -> H]; [by exists evs|].
    destruct (IH _ H) as (t2' & -> & ->). by exists t2'.
Qed.

Lemma recover_spec d w : exists evs, trace (recover d w) = evs ++ trace w /\
  forall t1 pid t2, evs = t1 ++ EKill pid :: t2 -> kill_ok d (trace w) (t2 ++ trace w) pid t1.
Proof.
  unfold recover, find_pid, ask. fold (running d (clk w)).
  set (w1 := log ETasklist w). set (pid := running d (clk w)).
  set (w2 := match pid with Some _ => cache_path_if_missing d w1 | None => w1 end).
  assert (H2 : look w1 w2) by (unfold w2; destruct pid; [apply cache_path_look|apply ev_refl]).
  pose proof (daemon_path_look d w2) as H3. pose proof (daemon_path_exists d w2) as Hex.
  destruct (daemon_path d w2) as [path w3]. simpl in H3.
  assert (H4 : look w1 w3) by by eapply evolves_trans.
  destruct (evolves_trace _ _ _ _ H4) as (evs & Ht & Hf). simpl in Ht.
  assert (Hf' : Forall calm_ev (evs ++ [ETasklist])).
  { apply Forall_app. split; [|by constructor]. eapply Forall_impl; [exact Hf|]. by intros []. }
  assert (Ht' : trace w3 = (evs ++ [ETasklist]) ++ trace w) by by rewrite Ht, <- app_assoc.
  assert (Hq : forall t (w' : world), Forall calm_ev t \/ (exists p l, t = [ELaunch p l] \/ t = [EInstant; ELaunch p l]) ->
    trace w' = t ++ trace w3 -> exists evs', trace w' = evs' ++ trace w /\
    forall t1 q t2, evs' = t1 ++ EKill q :: t2 -> kill_ok d (trace w) (t2 ++ trace w) q t1).
  { intros t w' Hc Hw. exists (t ++ evs ++ [ETasklist]). split; [by rewrite Hw, Ht', app_assoc|].
    intros t1 q t2 Heq. exfalso. destruct Hc as [Hc|(p & l & [->| ->])].
    - eapply (calm_no_kill (t ++ evs ++ [ETasklist])); [by apply Forall_app|exact Heq].
    - destruct t1 as [|x t1]; [discriminate|]. injection Heq as _ Heq. by eapply calm_no_kill in Heq.
    - destruct t1 as [|x [|y t1]]; [discriminate|discriminate|]. injection Heq as _ _ Heq. by eapply calm_no_kill in Heq. }
  destruct path as [path|].
  2:{ destruct pid; apply (Hq []); try (by left; constructor); [|done]. unfold note_failure. by case_goal. }
  destruct pid as [q|] eqn:Ep.
  2:{ unfold launch_in_user_session, set_quiet, note_failure, ask. destruct (_ && _); cbv beta iota zeta.
      - apply (Hq [EInstant; ELaunch path true]); [|done]. right. eauto.
      - apply (Hq [ELaunch path false]); [right; eauto|]. by case_goal. }
  destruct (Hex path w3 eq_refl) as (evs3 & Ht3 & He3).
  assert (Hko : forall t3 l, kill_ok d (trace w) ((evs ++ [ETasklist]) ++ trace w) q (t3 ++ [ELaunch path l; ESleep 2])).
  { intros t3 l. split.
    - rewrite <- app_assoc. apply last_asked_app; [|by apply (last_asked_now _ _ [])].
      intros Hin. rewrite List.Forall_forall in Hf. by apply Hf in Hin.
    - exists path, l, t3. split; [done|]. rewrite <- Ht', Ht3.
      destruct (evolves_trace _ _ _ _ H2) as (evs2 & Ht2 & _). simpl in Ht2. rewrite Ht2 in *.
      exists [], (evs3 ++ evs2 ++ [ETasklist]). rewrite <- !app_assoc. simpl.
      split; [done|]. by split; [intros []|]. }
  unfold launch_in_user_session, set_quiet, note_failure, kill, ask. cbn [fst snd].
  assert (Hk : forall t l (w' : world), t = [] \/ t = [EInstant] ->
    trace w' = t ++ [ELaunch path l; ESleep 2] ++ EKill q :: trace w3 ->
    exists evs', trace w' = evs' ++ trace w /\
    forall t1 q' t2, evs' = t1 ++ EKill q' :: t2 -> kill_ok d (trace w) (t2 ++ trace w) q' t1).
  { intros t l w' Hc Hw. exists ((t ++ [ELaunch path l; ESleep 2]) ++ EKill q :: evs ++ [ETasklist]). split.
    - rewrite Hw, Ht'. rewrite <- !app_assoc. simpl. by rewrite <- !app_assoc.
    - intros t1 q' t2 Heq. apply only_kill in Heq as (-> & -> & ->); [apply Hko| |done].
      destruct Hc as [->| ->]; repeat (constructor; try discriminate). }
  destruct (_ && _); cbv beta iota zeta.
  - apply (Hk [EInstant] true); [by right|done].
  - apply (Hk [] false); [by left|]. by case_goal.
Qed.

(** The observation a tick judges by. *)
Definition port_closed (d : Daemon) (w : world) : Prop :=
  exists out, netstat e (clk w) = Some out
    /\ listening (read_netstat (d_port d) out) = false
    /\ established (read_netstat (d_port d) out) <= 0.

Lemma in_quiet_spec w : let '(quiet, w') := in_quiet_period w in
  calm w w' /\ st w' = st w /\
  (quiet = false -> forall t, QUIET_UNTIL (st w) = Some t -> t <= instant e (clk w))
  /\ clk w' = (clk w + match QUIET_UNTIL (st w) with Some _ => 1 | None => 0 end)%nat.
Proof.
  unfold in_quiet_period. destruct (QUIET_UNTIL (st w)) as [t|]; simpl; [|split; [auto with world|split; [done|split; [done|lia]]]].
  split; [auto with world|]. split; [done|]. split; [|unfold clk; simpl; lia].
  intros H t' [= <-]. by bool_prop.
Qed.

(** When a tick asks for the process list before its judgement: after the
    ports and, in a quiet period, the time. *)
Definition first_look (w : world) : nat :=
  clk w + match QUIET_UNTIL (st w) with Some _ => 2 | None => 1 end.

(** A tick either stays calm, or all its guards passed and it recovers. *)
Lemma tick_cases d w :
  (calm w (tick d w) /\ (GAVE_UP (st (tick d w)) = true -> GAVE_UP (st w) = true)) \/
  exists w1, tick d w = recover d w1 /\ calm w w1 /\ port_closed d w
    /\ GAVE_UP (st w) = false
    /\ (forall t, QUIET_UNTIL (st w) = Some t -> t <= instant e (S (clk w)))
    /\ (EVER_OK (st w) = true \/ running d (first_look w) = None)
    /\ BAD_STREAK_NEEDED <= Int.wrap 32 (BAD_STREAK (st w) + 1)
    /\ FAILURES (st w1) = FAILURES (st w) /\ GAVE_UP (st w1) = GAVE_UP (st w)
    /\ BAD_STREAK (st w1) = 0.
Proof.
  unfold tick, probe_port, ask. destruct (netstat e (clk w)) as [out|] eqn:En; simpl;
    [|left; split; [auto with world|done]].
  destruct (listening _) eqn:El.
  { left. rewrite cache_path_st. split; [|done].
    eapply evolves_trans; [|apply look_calm, cache_path_look]. auto with world. }
  destruct (established _ >? 0) eqn:Ee; [left; split; [auto with world|done]|]. simpl.
  destruct (GAVE_UP (st w)) eqn:Eg; [left; split; [auto with world|done]|].
  set (w0 := upd (set_LAST_OK false) (log ENetstat w)).
  assert (H0 : calm w w0) by (unfold w0; auto with world).
  pose proof (in_quiet_spec w0) as Hq. destruct (in_quiet_period w0) as [quiet w2].
  destruct Hq as (Hc & Hst & Hq & Hk). assert (calm w w2) by (by eapply evolves_trans).
  assert (Hg2 : GAVE_UP (st w2) = false) by (by rewrite Hst).
  destruct quiet; [left; split; [done|congruence]|]. simpl. rewrite !Hst. simpl.
  set (pid := match tasklist e _ with Some _ => _ | None => _ end).
  destruct (match pid with Some _ => _ | None => _ end) eqn:Ep; [left; simpl; split; [auto 8 with world|congruence]|].
  destruct (_ <? BAD_STREAK_NEEDED) eqn:Es; [left; simpl; split; [auto 8 with world|congruence]|]. right. bool_prop.
  eexists. split; [reflexivity|]. split; [auto 10 with world|]. split; [by exists out|].
  split; [done|]. split; [by apply Hq|]. simpl. rewrite Hst. split; [|done].
  destruct (EVER_OK (st w)) eqn:Eo; [by left|right].
  assert (first_look w = clk w2) as -> by (rewrite Hk; unfold first_look, clk; simpl; destruct (QUIET_UNTIL _); lia).
  change (pid = None). clearbody pid. by destruct pid.
Qed.

(** *** Two looks *)

(** Between two rounds the panel may name another kind and the service may
    report the restart. *)
Inductive act : Type := Round | Kind (kind : string) | Reported.
Definition do (a : act) (w : world) : world :=
  match a with Round => watch_round w | Kind kind => set_kind kind w | Reported => clear_restarted w end.
Definition after (acts : list act) (w : world) : world := foldl (λ w a, do a w) w acts.

(** The look at the ports numbered [k] succeeded and found the daemon's port
    closed with no connection on it. *)
Definition bad_at (d : Daemon) (k : nat) : Prop :=
  exists out, netstat e k = Some out
    /\ listening (read_netstat (d_port d) out) = false
    /\ established (read_netstat (d_port d) out) <= 0.

Lemma recover_streak d w : BAD_STREAK (st (recover d w)) = BAD_STREAK (st w).
Proof.
  unfold recover. pose proof (find_pid_st (d_process d) w) as H1.
  destruct (find_pid _ w) as [pid w1]. simpl in H1.
  set (w2 := match pid with Some _ => cache_path_if_missing d w1 | None => w1 end).
  assert (H2 : st w2 = st w) by (unfold w2; destruct pid; rewrite ?cache_path_st; done).
  pose proof (daemon_path_st d w2) as H3. destruct (daemon_path d w2) as [path w3]. simpl in H3.
  assert (H : st w3 = st w) by congruence. unfold note_failure, launch_in_user_session, set_quiet, kill, ask.
  destruct pid, path; cbn [fst snd]; repeat case_goal; simpl; by rewrite H.
Qed.

(** A streak that goes on is a look just now that was bad. *)
Lemma tick_streak d w : BAD_STREAK (st (tick d w)) <> 0 ->
  last_asked ENetstat (bad_at d) (trace w) (trace (tick d w)).
Proof.
  unfold tick, probe_port, ask. destruct (netstat e (clk w)) as [out|] eqn:En; simpl; [|done].
  destruct (listening _) eqn:El; [by rewrite cache_path_st|].
  destruct (established _ >? 0) eqn:Ee; [done|]. simpl. bool_prop.
  assert (Hb : bad_at d (clk w)) by (by exists out).
  assert (Hl : forall evs, ~ In ENetstat evs -> last_asked ENetstat (bad_at d) (trace w) (evs ++ ENetstat :: trace w)).
  { intros evs H. apply last_asked_app; [done|]. by apply (last_asked_now _ _ []). }
  destruct (GAVE_UP (st w)); [intros _; apply (Hl []); by intros []|].
  set (w0 := upd (set_LAST_OK false) (log ENetstat w)).
  assert (Hq : exists evs, (evs = [] \/ evs = [EInstant]) /\ trace (in_quiet_period w0).2 = evs ++ ENetstat :: trace w).
  { unfold in_quiet_period. destruct (QUIET_UNTIL _); simpl; eauto. }
  destruct (in_quiet_period w0) as [quiet w2]. destruct Hq as (evs & Hevs & Ht). simpl in Ht.
  assert (Hin : ~ In ENetstat evs) by (destruct Hevs as [-> | ->]; simpl; intuition discriminate).
  destruct quiet; [intros _; rewrite Ht; by apply Hl|]. simpl.
  repeat (case_goal; simpl); intros Hz; try (by rewrite recover_streak in Hz);
    rewrite Ht; apply (Hl (ETasklist :: evs)); simpl; intuition discriminate.
Qed.

(** [set_kind] and the report leave the streak alone and look at nothing. *)
Lemma do_streak a w d : In d DAEMONS -> BAD_STREAK (st (do a w)) <> 0 ->
  last_asked ENetstat (bad_at d) (trace w) (trace (do a w))
  \/ (BAD_STREAK (st w) <> 0 /\ exists evs, trace (do a w) = evs ++ trace w /\ ~ In ENetstat evs).
Proof.
  intros Hd. destruct a as [|kind|]; simpl.
  - unfold watch_round, current_daemon. set (w0 := log (ESleep WATCH_INTERVAL) w).
    assert (Hno : BAD_STREAK (st w) <> 0 -> last_asked ENetstat (bad_at d) (trace w) (trace w0)
      \/ BAD_STREAK (st w) <> 0 /\ exists evs, trace w0 = evs ++ trace w /\ ~ In ENetstat evs).
    { intros H. right. split; [done|]. exists [ESleep WATCH_INTERVAL]. split; [done|]. simpl. intuition discriminate. }
    destruct (is_empty _); [exact Hno|]. destruct (List.find _ DAEMONS) as [d'|] eqn:Ef; [|exact Hno].
    apply List.find_some in Ef as [[<-|[]] _]. destruct Hd as [<-|[]].
    intros H%tick_streak. left. by apply (last_asked_base _ _ (trace w) [ESleep WATCH_INTERVAL]).
  - intros H. right. unfold set_kind in *. split.
    + revert H. by repeat (case_goal; simpl).
    + repeat (case_goal; simpl); exists []; split; simpl; tauto.
  - intros H. right. split; [exact H|]. exists []. split; simpl; tauto.
Qed.

Lemma after_streak acts w0 d : In d DAEMONS -> BAD_STREAK (st w0) = 0 ->
  (exists evs, trace (after acts w0) = evs ++ trace w0)
  /\ (BAD_STREAK (st (after acts w0)) <> 0 ->
      last_asked ENetstat (bad_at d) (trace w0) (trace (after acts w0))).
Proof.
  intros Hd H0. induction acts as [|a acts [[evs IH1] IH2]] using rev_ind; [split; [by exists []|done]|].
  unfold after in *. rewrite foldl_app. simpl. set (w := foldl _ w0 acts) in *.
  assert (Ht : exists evs', trace (do a w) = evs' ++ trace w).
  { destruct a; simpl; [|by unfold set_kind; repeat case_goal; exists []|by exists []].
    unfold watch_round. destruct (current_daemon _) as [d'|]; [|by exists [ESleep WATCH_INTERVAL]].
    destruct (tick_cases d' (log (ESleep WATCH_INTERVAL) w)) as [[H _]|(w1 & -> & H & _)];
      destruct (evolves_trace _ _ _ _ H) as (evs' & E & _); simpl in E.
    - exists (evs' ++ [ESleep WATCH_INTERVAL]). by rewrite E, <- app_assoc.
    - destruct (recover_spec d' w1) as (evs2 & -> & _). exists (evs2 ++ evs' ++ [ESleep WATCH_INTERVAL]).
      rewrite E, <- !app_assoc. done. }
  split.
  - destruct Ht as [evs' ->]. exists (evs' ++ evs). by rewrite IH1, app_assoc.
  - intros [H|(Hz & evs' & -> & Hin)]%(do_streak a w d Hd).
    + rewrite IH1 in H. by eapply last_asked_base.
    + apply last_asked_app; [done|]. by apply IH2.
Qed.


(** *** Debouncing *)

(** A tick that could not observe, found the daemon listening, or found a
    connection on its port. *)
Definition not_bad (d : Daemon) (w : world) : Prop :=
  match netstat e (clk w) with
  | None => True
  | Some out => listening (read_netstat (d_port d) out) = true
                \/ 0 < established (read_netstat (d_port d) out)
  end.

Lemma not_bad_streak d w : not_bad d w -> BAD_STREAK (st (tick d w)) = 0.
Proof.
  unfold not_bad, tick, probe_port, ask. destruct (netstat e (clk w)) as [out|]; simpl; [|done].
  destruct (listening _); [by rewrite cache_path_st|].
  intros [|H]; [done|]. rewrite (proj2 (Z.gtb_lt _ _) H). done.
Qed.

(** A single bad observation never touches the daemon: after a tick that
    found nothing wrong (or could not tell), the next tick neither kills nor
    launches anything, whatever it observes. *)
Theorem one_observation_never_recovers d w w2 :
  not_bad d w -> st w2 = st (tick d w) -> calm w2 (tick d w2).
Proof.
  intros Hn Hst. pose proof (not_bad_streak d w Hn) as Hz.
  destruct (tick_cases d w2) as [[H _]|(w1 & _ & _ & _ & _ & _ & _ & Hs & _)]; [done|].
  rewrite Hst, Hz in Hs. done.
Qed.

(** A daemon found listening rearms the watch completely: failures and the
    given-up state are forgotten, the panel shows it healthy, and nothing is
    touched. *)
Theorem healthy_rearms d w out :
  netstat e (clk w) = Some out -> listening (read_netstat (d_port d) out) = true ->
  let w' := tick d w in
  calm w w' /\ gave_up w' = false /\ not_installed w' = false
  /\ FAILURES (st w') = 0 /\ BAD_STREAK (st w') = 0 /\ EVER_OK (st w') = true
  /\ current_ok w' = if is_on w then Some true else None.
Proof.
  intros Hn Hl. unfold tick, probe_port, ask. rewrite Hn. simpl. rewrite Hl. cbv zeta.
  set (w1 := upd _ _). split.
  - eapply evolves_trans; [|apply look_calm, cache_path_look]. unfold w1. auto with world.
  - unfold gave_up, not_installed, current_ok, is_on. rewrite cache_path_st. simpl.
    by destruct (is_empty (KIND (st w))).
Qed.

(** *** Giving up *)
Definition only_watching (ev : event) : Prop :=
  match ev with ENetstat | ESleep _ => True | _ => False end.

#[local] Hint Extern 1 (only_watching _) => exact I : world.

Lemma gave_up_tick d w : GAVE_UP (st w) = true ->
  (forall out, netstat e (clk w) = Some out -> listening (read_netstat (d_port d) out) = false) ->
  evolves only_watching (λ _, False) w (tick d w)
  /\ GAVE_UP (st (tick d w)) = true /\ KIND (st (tick d w)) = KIND (st w).
Proof.
  intros Hg Hl. unfold tick, probe_port, ask.
  destruct (netstat e (clk w)) as [out|] eqn:E; simpl.
  - rewrite (Hl out eq_refl). destruct (_ >? 0); simpl; rewrite ?Hg; simpl; split; eauto with world.
  - split; eauto with world.
Qed.

(** Having given up, the watch takes its hands off completely: as long as
    the daemon does not come back, it does nothing but look, for ever. *)
Theorem gave_up_hands_off n w :
  GAVE_UP (st w) = true ->
  (forall k out d, netstat e k = Some out -> listening (read_netstat (d_port d) out) = false) ->
  evolves only_watching (λ _, False) w (watch n w) /\ GAVE_UP (st (watch n w)) = true.
Proof.
  intros Hg Hl. revert w Hg. induction n as [|n IH]; intros w Hg; simpl; [split; [apply ev_refl|done]|].
  assert (H : evolves only_watching (λ _, False) w (watch_round w) /\ GAVE_UP (st (watch_round w)) = true).
  { unfold watch_round. destruct (current_daemon _) as [d|].
    - destruct (gave_up_tick d (log (ESleep WATCH_INTERVAL) w) Hg) as (H1 & H2 & _).
      { intros out. apply Hl. }
      split; [|done]. eapply evolves_trans; [|exact H1]. apply ev_log; [exact I|apply ev_refl].
    - split; [apply ev_log; [exact I|apply ev_refl]|done]. }
  destruct H as [H1 H2]. destruct (IH _ H2) as [H3 H4]. split; [|done]. by eapply evolves_trans.
Qed.

(** The launcher works and the program file is where it should be. *)
Definition launches_work : Prop :=
  (forall k, get_current_session_id e k <> u32_MAX) /\ (forall k, run_exe_in_session e k = true)
  /\ (forall k p, exists_ e k p = true).

Lemma launches_work_path d w : launches_work -> fallbacks d <> [] ->
  exists p w', daemon_path d w = (Some p, w').
Proof.
  intros (_ & _ & Hp) Hf. unfold daemon_path, cached_path, path_exists.
  destruct (is_empty _); simpl; rewrite ?Hp; [|by eexists _, _].
  destruct (fallbacks d) as [|q qs]; [done|]. simpl. rewrite Hp. by eexists _, _.
Qed.

Lemma recover_never_counts d w : launches_work -> fallbacks d <> [] ->
  FAILURES (st (recover d w)) = FAILURES (st w) /\ GAVE_UP (st (recover d w)) = GAVE_UP (st w).
Proof.
  intros Hl Hf. unfold recover. pose proof (find_pid_st (d_process d) w) as H1.
  destruct (find_pid _ w) as [pid w1]. simpl in H1.
  set (w2 := match pid with Some _ => cache_path_if_missing d w1 | None => w1 end).
  assert (H2 : st w2 = st w) by (unfold w2; destruct pid; rewrite ?cache_path_st; done).
  pose proof (daemon_path_st d w2) as H3.
  destruct (launches_work_path d w2 Hl Hf) as (p & w3 & E). rewrite E in H3 |- *. simpl in H3.
  unfold launch_in_user_session. destruct Hl as (Hs & Hr & _).
  assert (H : forall w4 : world, st w4 = st w ->
    let r := (let '(launched, w5) := (negb (get_current_session_id e (clk w4) =? u32_MAX)
        && run_exe_in_session e (clk w4), log (ELaunch p (negb (get_current_session_id e (clk w4) =? u32_MAX)
        && run_exe_in_session e (clk w4))) w4) in
      if launched then set_quiet START_GRACE (upd (set_RESTARTED_PENDING true) w5) else note_failure w5) in
    FAILURES (st r) = FAILURES (st w) /\ GAVE_UP (st r) = GAVE_UP (st w)).
  { intros w4 H4. rewrite Hr, (proj2 (Z.eqb_neq _ _) (Hs (clk w4))). simpl. by rewrite H4. }
  destruct pid; apply H; simpl; congruence.
Qed.

(** A restart whose program starts but never opens its port is not counted
    as a failure: as long as launching itself works, the watch never gives up,
    however often it restarts the daemon in vain. *)
Theorem vain_restarts_never_give_up n w :
  launches_work -> GAVE_UP (st w) = false ->
  GAVE_UP (st (watch n w)) = false.
Proof.
  intros Hl. revert w. induction n as [|n IH]; intros w Hg; simpl; [done|]. apply IH.
  unfold watch_round. destruct (current_daemon _) as [d|] eqn:Ed; [|done].
  assert (Hf : fallbacks d <> []).
  { unfold current_daemon in Ed. destruct (is_empty _); [done|].
    apply List.find_some in Ed as [[<-|[]] _]. done. }
  set (w0 := log _ w). destruct (tick_cases d w0) as [Hc|(w1 & -> & _ & _ & _ & _ & _ & _ & _ & Hw1 & _)].
  - destruct Hc as [_ Hc]. destruct (GAVE_UP (st (tick d w0))); [|done]. rewrite <- Hg. symmetry. by apply Hc.
  - destruct (recover_never_counts d w1 Hl Hf) as [_ ->]. by rewrite Hw1.
Qed.
End van.

(** *** Concrete machines *)
Definition crlf : string := String (ascii_of_N 13) (String newline EmptyString).
Definition netstat_line (addr state : string) : string :=
  "  TCP    " +:+ addr +:+ "   0.0.0.0:0   " +:+ state +:+ crlf.
Definition tasklist_line : string :=
  String quote ("KSCAT.exe" +:+ quote_comma_quote +:+ "3384" +:+ quote_comma_quote +:+ "Console"
    +:+ String quote crlf).

(** Healthy for the first observations, then the port is closed; the process
    stays. *)
Definition stopping_env : env := {|
  netstat := λ k, Some (if Nat.ltb k 4 then netstat_line "[::]:27015" "LISTENING"
                        else netstat_line "0.0.0.0:135" "LISTENING");
  tasklist := λ _, Some tasklist_line; wmic := λ _, None; instant := λ k, Z.of_nat k * 90;
  exists_ := λ _ _, true; taskkill := λ _, true; get_current_session_id := λ _, 1;
  run_exe_in_session := λ _, true |}.
Definition start_world : World.world (gmap string string) van event := mkWorld ∅ (set_KIND "ksnet" initial) [].
Definition is_kill (ev : event) : bool := match ev with EKill _ => true | _ => false end.
Definition is_launch (ev : event) : bool := match ev with ELaunch _ _ => true | _ => false end.
Definition count (p : event -> bool) (tr : list event) : nat := length (List.filter p tr).

(** The watch does restart a stopped daemon, and restarts it again and again
    when that does not help. *)
Example stopped_daemon_is_restarted :
  count is_kill (trace (watch stopping_env 3 start_world)) = 1%nat
  /\ count is_launch (trace (watch stopping_env 40 start_world)) = 19%nat
  /\ gave_up (watch stopping_env 40 start_world) = false.
Proof. vm_compute. done. Qed.

(** The third round kills: the port was closed in the second and in the third. *)
Definition ksnet : Daemon := List.hd (mkDaemon EmptyString EmptyString 0 []) DAEMONS.
Definition two_rounds : World.world (gmap string string) van event :=
  log (ESleep WATCH_INTERVAL) (after stopping_env [Round; Round] start_world).

(** The process list fails once and then works: a process that only waits for
    its reader is killed although it was never healthy. *)
Definition blind_env : env := {|
  netstat := λ k, Some EmptyString; tasklist := λ k, if Nat.ltb k 6 then None else Some tasklist_line;
  wmic := λ _, None; instant := λ _, 0; exists_ := λ _ _, true; taskkill := λ _, true;
  get_current_session_id := λ _, 1; run_exe_in_session := λ _, true |}.
Example blind_process_list_kills :
  let w := watch blind_env 2 start_world in
  count is_kill (trace w) = 1%nat /\ EVER_OK (st w) = false.
Proof. vm_compute. done. Qed.

Lemma one_observation_never_recovers_witness :
  let d := mkDaemon "ksnet" "KSCAT.exe" 27015 [] in
  evolves calm_ev (λ k, k = PATH_CACHE_KEY) (tick stopping_env d start_world)
    (tick stopping_env d (tick stopping_env d start_world)).
Proof.
  apply (one_observation_never_recovers stopping_env (mkDaemon "ksnet" "KSCAT.exe" 27015 []) start_world).
  - left. vm_compute. reflexivity.
  - reflexivity.
Defined.

Lemma healthy_rearms_witness :
  current_ok (tick stopping_env (mkDaemon "ksnet" "KSCAT.exe" 27015 []) start_world) = Some true.
Proof.
  destruct (healthy_rearms stopping_env (mkDaemon "ksnet" "KSCAT.exe" 27015 []) start_world
    (netstat_line "[::]:27015" "LISTENING") eq_refl ltac:(vm_compute; reflexivity))
    as (_ & _ & _ & _ & _ & _ & H). exact H.
Defined.

Definition silent_env : env := {|
  netstat := λ _, Some EmptyString; tasklist := λ _, None; wmic := λ _, None; instant := λ _, 0;
  exists_ := λ _ _, true; taskkill := λ _, true; get_current_session_id := λ _, 1;
  run_exe_in_session := λ _, true |}.
Lemma gave_up_hands_off_witness :
  GAVE_UP (st (watch silent_env 5 (upd (set_GAVE_UP true) start_world))) = true.
Proof.
  apply (gave_up_hands_off silent_env 5 (upd (set_GAVE_UP true) start_world) eq_refl).
  intros k out d [= <-]. reflexivity.
Defined.

Lemma vain_restarts_never_give_up_witness :
  GAVE_UP (st (watch silent_env 50 start_world)) = false.
Proof.
  apply (vain_restarts_never_give_up silent_env 50 start_world); [|reflexivity].
  split; [discriminate|]. split; reflexivity.
Defined.
End Van.
