(* ===== verification/TermBuffer.v ===== *)
(** * The terminal's output buffer ([OutputBuffer] of
      [src/src/server/terminal_service.rs])

    The history of a terminal, kept as lines for replay on reconnection.
    [usize] is 64 bits wide and wraps (the release profile has no overflow
    checks).  The trimming [while] loop pops one line per round; once no line
    is left its condition no longer changes, so one round more than there are
    lines decides whether it returns: [None] is a loop that never ends, which
    [trim_none] states for every number of rounds. *)

From Stdlib Require Import Strings.Byte.
From S2P Require Import Prelude.
#[local] Open Scope Z_scope.

Module OutputBuffer.
Definition MAX_OUTPUT_BUFFER_SIZE : Z := 1024 * 1024.
Definition MAX_BUFFER_LINES : Z := 10000.

Definition usize (z : Z) : Z := Int.wrap 64 z.
Definition len {A} (l : list A) : Z := Z.of_nat (length l).
Definition nl : byte := x0a.

Record OutputBuffer := mkBuf {
  lines : list (list byte);
  total_size : Z;
  last_line_incomplete : bool;
}.
Definition new : OutputBuffer := mkBuf [] 0 false.

Definition is_nl (b : byte) : bool := Byte.eqb b nl.

(** [data.iter().position(|&b| b == b'\n')], as the bytes up to and including
    the newline and the bytes after it. *)
Fixpoint split_at_nl (data : list byte) : option (list byte * list byte) :=
  match data with
  | [] => None
  | b :: data =>
      if is_nl b then Some ([b], data)
      else match split_at_nl data with
           | Some (l, r) => Some (b :: l, r)
           | None => None
           end
  end.

(** [remaining.split(|&b| b == b'\n')]: never empty. *)
Fixpoint split_nl (data : list byte) : list (list byte) :=
  match data with
  | [] => [[]]
  | b :: data =>
      if is_nl b then [] :: split_nl data
      else match split_nl data with
           | p :: ps => (b :: p) :: ps
           | [] => [[b]]
           end
  end.

Definition ends_with_newline (data : list byte) : bool :=
  match last data with Some b => is_nl b | None => false end.

(** The lines the loop over the pieces pushes, and whether it marks the last
    one incomplete. *)
Fixpoint line_pieces (ends : bool) (pieces : list (list byte)) : list (list byte) * bool :=
  match pieces with
  | [] => ([], false)
  | [line] =>
      match line with
      | [] => ([], false)
      | _ => ([if ends then line ++ [nl] else line], negb ends)
      end
  | line :: pieces =>
      let '(ls, inc) := line_pieces ends pieces in ((line ++ [nl]) :: ls, inc)
  end.

Definition too_big (b : OutputBuffer) : bool :=
  (MAX_OUTPUT_BUFFER_SIZE <? total_size b) || (MAX_BUFFER_LINES <? len (lines b)).

(** One round of the [while] loop's body. *)
Definition pop_front (b : OutputBuffer) : OutputBuffer :=
  match lines b with
  | removed :: ls => mkBuf ls (usize (total_size b - len removed)) (last_line_incomplete b)
  | [] => b
  end.
Fixpoint trim (rounds : nat) (b : OutputBuffer) : option OutputBuffer :=
  if too_big b then
    match rounds with O => None | S rounds => trim rounds (pop_front b) end
  else Some b.

(** [list::back_mut] *)
Definition extend_last (ls : list (list byte)) (data : list byte) : option (list (list byte)) :=
  match last ls with
  | Some l => Some (removelast ls ++ [l ++ data])
  | None => None
  end.

Definition process (remaining : list byte) (b : OutputBuffer) : OutputBuffer :=
  let '(ls, inc) := line_pieces (ends_with_newline remaining) (split_nl remaining) in
  mkBuf (lines b ++ ls) (usize (total_size b + len (concat ls))) (inc || last_line_incomplete b).

Definition append (data : list byte) (b : OutputBuffer) : option OutputBuffer :=
  if len data =? 0 then Some b else
  let finish remaining b :=
    let b := process remaining b in trim (S (length (lines b))) b in
  if last_line_incomplete b then
    match last (lines b) with
    | None => finish data b
    | Some _ =>
        match split_at_nl data with
        | Some (upto, rest) =>
            finish rest (mkBuf (default [] (extend_last (lines b) upto)) (total_size b) false)
        | None =>
            Some (mkBuf (default [] (extend_last (lines b) data)) (usize (total_size b + len data)) true)
        end
    end
  else finish data b.

(** *** Replay *)
Definition is_continuation (b : byte) : bool := Z.land (Z.of_N (Byte.to_N b)) 192 =? 128.
Fixpoint skip_continuation (skipped : nat) (l : list byte) : list byte :=
  match skipped, l with
  | S skipped, b :: r => if is_continuation b then skip_continuation skipped r else l
  | _, _ => l
  end.

(** The chunks collected from the newest line backwards (newest first). *)
Fixpoint recent_chunks (max_bytes size : Z) (rev_lines : list (list byte)) : list (list byte) :=
  match rev_lines with
  | [] => []
  | line :: older =>
      if max_bytes <? size + len line then
        if (size =? 0) && (max_bytes <? len line) then
          match skip_continuation 3 (drop (Z.to_nat (len line - max_bytes)) line) with
          | [] => []
          | tail => [tail]
          end
        else []
      else line :: recent_chunks max_bytes (size + len line) older
  end.
Definition get_recent (max_bytes : Z) (b : OutputBuffer) : list byte :=
  if max_bytes =? 0 then [] else concat (rev (recent_chunks max_bytes 0 (rev (lines b)))).

(** *** The trimming loop *)
Lemma trim_mono n m b b' : (n <= m)%nat -> trim n b = Some b' -> trim m b = Some b'.
Proof.
  revert m b. induction n as [|n IH]; intros m b Hm; destruct m as [|m]; simpl; [done| |lia|];
    destruct (too_big b); try done. apply IH. lia.
Qed.

(** [None] with one round more than there are lines means: never. *)
Lemma trim_none b : trim (S (length (lines b))) b = None -> forall n, trim n b = None.
Proof.
  remember (length (lines b)) as k eqn:Ek. revert b Ek. induction k as [|k IH]; intros b Ek.
  - simpl. assert (Hp : pop_front b = b) by (unfold pop_front; by destruct (lines b)).
    rewrite Hp. destruct (too_big b) eqn:Et; [|done]. intros _ n.
    induction n as [|n IHn]; simpl; rewrite Et; [done|]. by rewrite Hp.
  - intros H n. destruct n as [|n]; simpl in *; destruct (too_big b); try done.
    apply IH; [|exact H]. unfold pop_front. destruct (lines b); simpl in *; [done|]. by injection Ek.
Qed.

(** *** Contents *)
Lemma split_at_nl_app data l r : split_at_nl data = Some (l, r) -> data = l ++ r.
Proof.
  revert l r. induction data as [|b data IH]; intros l r; simpl; [done|].
  destruct (is_nl b); [by intros [= <- <-]|].
  destruct (split_at_nl data) as [[l' r']|]; [|done]. intros [= <- <-]. simpl. f_equal. by apply IH.
Qed.

Lemma is_nl_eq b : is_nl b = true -> b = nl.
Proof. apply byte_dec_bl. Qed.

Lemma split_nl_cons data : exists p ps, split_nl data = p :: ps.
Proof.
  induction data as [|b data (p & ps & E)]; simpl; [by eexists _, _|].
  destruct (is_nl b); [by eexists _, _|]. rewrite E. by eexists _, _.
Qed.

Lemma line_pieces_cons ends x y ps : line_pieces ends (x :: y :: ps)
  = (((x ++ [nl]) :: (line_pieces ends (y :: ps)).1), (line_pieces ends (y :: ps)).2).
Proof. change (line_pieces ends (x :: y :: ps)) with
  (let '(ls, inc) := line_pieces ends (y :: ps) in ((x ++ [nl]) :: ls, inc)).
  by destruct (line_pieces ends (y :: ps)). Qed.

Lemma extend_last_concat ls data ls' : extend_last ls data = Some ls' ->
  concat ls' = concat ls ++ data.
Proof.
  unfold extend_last. destruct (last ls) as [l|] eqn:E; [|done]. intros [= <-].
  apply last_Some in E as [ls0 ->]. rewrite removelast_last, !concat_app. simpl.
  by rewrite !app_nil_r, app_assoc.
Qed.

Lemma len_app {A} (l k : list A) : len (l ++ k) = len l + len k.
Proof. unfold len. rewrite length_app. lia. Qed.
Lemma len_nonneg {A} (l : list A) : 0 <= len l.
Proof. unfold len. lia. Qed.

(** *** What the buffer holds

    The lines of a text, each with its newline: the reference the buffer is
    compared with. *)
Fixpoint text_lines (text : list byte) : list (list byte) :=
  match text with
  | [] => []
  | b :: text =>
      if is_nl b then [b] :: text_lines text
      else match text_lines text with
           | l :: ls => (b :: l) :: ls
           | [] => [[b]]
           end
  end.
Definition unfinished (text : list byte) : bool :=
  match last text with Some b => negb (is_nl b) | None => false end.
(** A list of lines that has to lose one. *)
Definition over (ls : list (list byte)) : Prop :=
  MAX_OUTPUT_BUFFER_SIZE < len (concat ls) \/ MAX_BUFFER_LINES < len ls.

Definition appends (chunks : list (list byte)) : option OutputBuffer :=
  foldl (λ ob data, match ob with Some b => append data b | None => None end) (Some new) chunks.
Lemma appends_snoc chunks data : appends (chunks ++ [data])
  = match appends chunks with Some b => append data b | None => None end.
Proof. unfold appends. by rewrite foldl_app. Qed.

Lemma text_lines_concat text : concat (text_lines text) = text.
Proof.
  induction text as [|b text IH]; [done|]. simpl. destruct (is_nl b); simpl; [by rewrite IH|].
  destruct (text_lines text); simpl in *; by rewrite <- IH.
Qed.
Lemma text_lines_nil text : text_lines text = [] -> text = [].
Proof. intros E. by rewrite <- (text_lines_concat text), E. Qed.
Lemma unfinished_cons b text : text <> [] -> unfinished (b :: text) = unfinished text.
Proof. by destruct text. Qed.

(** A text after a finished one starts a line of its own. *)
Lemma text_lines_app text data : unfinished text = false ->
  text_lines (text ++ data) = text_lines text ++ text_lines data.
Proof.
  induction text as [|b text IH]; [done|]. intros Hu. destruct text as [|c text].
  { unfold unfinished in Hu. simpl in *. by destruct (is_nl b). }
  rewrite unfinished_cons in Hu by done. specialize (IH Hu). cbn [app text_lines] in *.
  destruct (is_nl b); [by rewrite IH|]. rewrite IH.
  by destruct (is_nl c); [|destruct (text_lines text)].
Qed.
Lemma split_at_nl_none l : Forall (λ b, is_nl b = false) l -> split_at_nl l = None.
Proof. induction 1 as [|b l Hb _ IH]; [done|]. simpl. by rewrite Hb, IH. Qed.
Lemma text_lines_split data :
  text_lines data = match split_at_nl data with
    | Some (upto, rest) => upto :: text_lines rest
    | None => match data with [] => [] | _ => [data] end end.
Proof.
  induction data as [|b data IH]; [done|]. simpl. destruct (is_nl b); [done|]. rewrite IH.
  destruct (split_at_nl data) as [[??]|]; [done|]. by destruct data.
Qed.
Lemma split_at_nl_skip l data : Forall (λ b, is_nl b = false) l ->
  split_at_nl (l ++ data) = (λ '(upto, rest), (l ++ upto, rest)) <$> split_at_nl data.
Proof.
  induction 1 as [|b l Hb _ IH]; simpl; [by destruct (split_at_nl data) as [[]|]|].
  rewrite Hb, IH. by destruct (split_at_nl data) as [[]|].
Qed.
(** An unfinished text is a finished one and one piece of a line, with which a
    text after it goes on. *)
Lemma unfinished_split text : unfinished text = true ->
  exists pre l, text = pre ++ l /\ unfinished pre = false /\ l <> [] /\ Forall (λ b, is_nl b = false) l.
Proof.
  induction text as [|b text IH] using rev_ind; [done|]. unfold unfinished at 1. rewrite last_snoc.
  intros Hb%negb_true_iff. destruct (unfinished text) eqn:Eu.
  - destruct (IH eq_refl) as (pre & l & -> & Hp & _ & Hf). exists pre, (l ++ [b]).
    split_and!; [by rewrite app_assoc|done|by destruct l|]. apply Forall_app; auto.
  - exists text, [b]. auto.
Qed.
Lemma text_lines_last text : unfinished text = true ->
  exists ls l, text_lines text = ls ++ [l] /\ forall data, text_lines (text ++ data)
    = ls ++ match split_at_nl data with
            | Some (upto, rest) => (l ++ upto) :: text_lines rest | None => [l ++ data] end.
Proof.
  intros (pre & l & -> & Hp & Hne & Hf)%unfinished_split. exists (text_lines pre), l.
  rewrite text_lines_app, (text_lines_split l), split_at_nl_none by done.
  split; [by destruct l|]. intros data.
  rewrite <- app_assoc, text_lines_app, (text_lines_split (l ++ data)), split_at_nl_skip by done.
  destruct (split_at_nl data) as [[??]|]; [done|]. by destruct l.
Qed.
Lemma unfinished_app text data : data <> [] -> unfinished (text ++ data) = unfinished data.
Proof.
  intros Hd. unfold unfinished. destruct data as [|b data] using rev_ind; [done|].
  by rewrite app_assoc, !last_snoc.
Qed.

(** The pieces of a chunk are its lines. *)
Lemma line_pieces_lines d ends :
  (d <> [] -> ends = negb (unfinished d)) ->
  line_pieces ends (split_nl d) = (text_lines d, unfinished d).
Proof.
  induction d as [|b d IH]; intros He; [done|].
  assert (Hd : d <> [] -> ends = negb (unfinished d))
    by (intros Hne; rewrite He, unfinished_cons by done; done).
  specialize (IH Hd). destruct (split_nl_cons d) as (p & ps & E).
  cbn [split_nl text_lines]. rewrite E in *. destruct (is_nl b) eqn:Eb.
  - rewrite line_pieces_cons, IH. apply is_nl_eq in Eb as ->. f_equal. by destruct d.
  - destruct d as [|c d].
    { injection E as <- <-. rewrite He by done. unfold unfinished. simpl. by rewrite Eb. }
    rewrite unfinished_cons by done.
    destruct (text_lines (c :: d)) as [|l ls] eqn:El; [by apply text_lines_nil in El|].
    destruct ps as [|q ps].
    + destruct p as [|x p]; [done|].
      cbn [line_pieces] in IH |- *. injection IH as <- <- <-. by destruct ends.
    + rewrite line_pieces_cons in IH |- *. injection IH as <- <- <-. done.
Qed.
Lemma ends_unfinished d : d <> [] -> ends_with_newline d = negb (unfinished d).
Proof.
  unfold ends_with_newline, unfinished. destruct d as [|b d] using rev_ind; [done|].
  rewrite last_snoc. by rewrite negb_involutive.
Qed.
Lemma process_lines d b : process d b
  = mkBuf (lines b ++ text_lines d) (usize (total_size b + len d)) (unfinished d || last_line_incomplete b).
Proof.
  unfold process. rewrite line_pieces_lines by apply ends_unfinished. by rewrite text_lines_concat.
Qed.

(** Once the size wrapped below zero, every line goes and the loop never ends. *)
Lemma trim_underflow n ls d f :
  0 < d -> d + len (concat ls) < 2 ^ 62 -> trim n (mkBuf ls (2 ^ 64 - d) f) = None.
Proof.
  revert ls d. induction n as [|n IH]; intros ls d Hd Hb;
    (assert (Ht : too_big (mkBuf ls (2 ^ 64 - d) f) = true);
      [unfold too_big, MAX_OUTPUT_BUFFER_SIZE; simpl total_size;
       pose proof (len_nonneg (concat ls)); apply orb_true_iff; left; bool_prop; lia|]);
    simpl; rewrite Ht; [done|].
  unfold pop_front. simpl. destruct ls as [|r ls]; [by apply IH|].
  simpl in Hb. rewrite len_app in Hb.
  pose proof (len_nonneg (concat ls)). pose proof (len_nonneg r).
  replace (usize (2 ^ 64 - d - len r)) with (2 ^ 64 - (d + len r)).
  - apply IH; lia.
  - unfold usize. rewrite Int.wrap_small by (unfold Int.in_u; lia). lia.
Qed.

(** *** What [append] keeps *)
Lemma trim_exact n b b' :
  0 <= total_size b <= len (concat (lines b)) -> len (concat (lines b)) < 2 ^ 61 ->
  trim n b = Some b' ->
  exists m, (m <= length (lines b))%nat /\ lines b' = drop m (lines b)
    /\ 0 <= total_size b' /\ total_size b' = total_size b - len (concat (take m (lines b)))
    /\ last_line_incomplete b' = last_line_incomplete b /\ too_big b' = false
    /\ (m = 0%nat \/ MAX_OUTPUT_BUFFER_SIZE + len (concat (take (m - 1) (lines b))) < total_size b
        \/ MAX_BUFFER_LINES < len (drop (m - 1) (lines b))).
Proof.
  revert b. induction n as [|n IH]; intros b Hs Hl; simpl; destruct (too_big b) eqn:Et; try done;
    [intros [= <-]; exists O; rewrite take_0, drop_0; split_and!; auto; unfold len; simpl; lia| |
     intros [= <-]; exists O; rewrite take_0, drop_0; split_and!; auto; unfold len; simpl; lia].
  destruct b as [ls t f]. unfold pop_front. cbn [lines total_size last_line_incomplete] in *.
  destruct ls as [|r ls].
  { change (len (concat [])) with 0 in Hs. unfold too_big in Et. cbn [lines total_size] in Et.
    change (len (@nil (list byte))) with 0 in Et. unfold MAX_OUTPUT_BUFFER_SIZE, MAX_BUFFER_LINES in Et.
    bool_prop. lia. }
  cbn [concat] in Hs, Hl. rewrite len_app in Hs, Hl. pose proof (len_nonneg r). pose proof (len_nonneg (concat ls)).
  destruct (Z.leb_spec (len r) t) as [Hr|Hr].
  2:{ replace (usize (t - len r)) with (2 ^ 64 - (len r - t)).
      - rewrite trim_underflow by lia. done.
      - unfold usize, Int.wrap. apply Z.mod_unique_pos with (-1); lia. }
  unfold usize. rewrite Int.wrap_small by (unfold Int.in_u; lia). intros Hn.
  apply IH in Hn; cbn [lines total_size last_line_incomplete] in *; [|lia|lia].
  destruct Hn as (m & Hm & Hd & Hp & Ht & Hf & Hb & Hk).
  cbn [lines total_size last_line_incomplete] in *.
  exists (S m). rewrite Nat.sub_succ, Nat.sub_0_r. cbn [drop take length concat]. rewrite len_app.
  split_and!; [lia|done|done|lia|done|done|]. right.
  destruct m as [|m]; [|rewrite Nat.sub_succ, Nat.sub_0_r in Hk; cbn [take drop concat] in *].
  - unfold too_big in Et. bool_prop. change (len (concat (take 0 (r :: ls)))) with 0. simpl drop. simpl in Et. lia.
  - rewrite len_app. destruct Hk as [?|[?|?]]; [lia|left; lia|by right].
Qed.

Lemma over_app ls ks : over ls -> over (ls ++ ks).
Proof.
  unfold over. rewrite concat_app, !len_app. pose proof (len_nonneg (concat ks)). pose proof (len_nonneg ks). lia.
Qed.
Lemma over_longer ls l x r : len l <= len x -> over (ls ++ [l]) -> over (ls ++ x :: r).
Proof.
  intros Hl Ho. change (x :: r) with ([x] ++ r). rewrite app_assoc. apply over_app. revert Ho.
  unfold over. rewrite !concat_app, !len_app. simpl. rewrite !len_app. unfold len in *. simpl. lia.
Qed.
Lemma over_later k text data :
  (k < length (text_lines text))%nat -> over (drop k (text_lines text)) -> over (drop k (text_lines (text ++ data))).
Proof.
  intros Hk Ho. destruct (unfinished text) eqn:Eu.
  - destruct (text_lines_last text Eu) as (ls & l & El & Hd). rewrite Hd. rewrite El in *.
    rewrite length_app in Hk. simpl in Hk. rewrite drop_app_le in Ho |- * by lia.
    destruct (split_at_nl data) as [[??]|]; (eapply over_longer; [|exact Ho]); rewrite len_app;
      match goal with |- context [_ + len ?x] => pose proof (len_nonneg x) end; lia.
  - rewrite text_lines_app, drop_app_le by (done || lia). by apply over_app.
Qed.
Lemma over_text text data : over (text_lines text) -> over (text_lines (text ++ data)).
Proof.
  intros Ho. apply (over_later 0); [|done]. destruct (text_lines text); [|simpl; lia].
  unfold over, len, MAX_OUTPUT_BUFFER_SIZE, MAX_BUFFER_LINES in Ho. simpl in Ho. lia.
Qed.
Lemma last_line_short text l : last (text_lines text) = Some l -> len l <= len text.
Proof.
  intros [ls E]%last_Some. rewrite <- (text_lines_concat text), E, concat_app, len_app. simpl.
  rewrite app_nil_r. pose proof (len_nonneg (concat ls)). lia.
Qed.

(** The buffer [b] after the output [text]. *)
Record holds (text : list byte) (b : OutputBuffer) : Prop := mkHolds {
  held_lines : exists n, (n <= length (text_lines text))%nat /\ lines b = drop n (text_lines text)
    /\ (n = 0%nat \/ over (drop (n - 1) (text_lines text)));
  held_flag : last_line_incomplete b = unfinished text;
  held_last : unfinished text = true -> lines b <> [];
  held_size : 0 <= total_size b <= len (concat (lines b));
  held_count : len (lines b) <= MAX_BUFFER_LINES;
}.

Lemma finish_holds text d n b b' :
  last_line_incomplete b = false -> (n <= length (text_lines text))%nat ->
  lines b ++ text_lines d = drop n (text_lines text) ->
  n = 0%nat \/ over (drop (n - 1) (text_lines text)) ->
  0 <= total_size b <= len (concat (lines b)) -> unfinished text = unfinished d ->
  len d <= MAX_OUTPUT_BUFFER_SIZE -> len text < 2 ^ 61 ->
  trim (S (length (lines (process d b)))) (process d b) = Some b' -> holds text b'.
Proof.
  intros Hf Hn Hl Ho Hs Hu Hd Ht. rewrite process_lines, Hf, orb_false_r, Hl. cbn [lines].
  assert (Hc : len (concat (lines b)) + len d = len (concat (drop n (text_lines text))))
    by (by rewrite <- Hl, concat_app, len_app, text_lines_concat).
  assert (Hm : len (concat (drop n (text_lines text))) <= len text).
  { rewrite <- (text_lines_concat text) at 2. rewrite <- (take_drop n (text_lines text)) at 2.
    rewrite concat_app, len_app. pose proof (len_nonneg (concat (take n (text_lines text)))). lia. }
  pose proof (len_nonneg d). unfold usize. rewrite Int.wrap_small by (unfold Int.in_u; lia).
  intros H'. apply trim_exact in H'; cbn [lines total_size last_line_incomplete] in *; [|lia|lia].
  destruct H' as (m & Hml & Em & Hp & Et & Ef & Eb & Hk). rewrite drop_drop in Em. rewrite length_drop in Hml.
  unfold too_big in Eb. bool_prop.
  assert (Hsz : len (concat (drop n (text_lines text)))
    = len (concat (take m (drop n (text_lines text)))) + len (concat (lines b')))
    by (by rewrite Em, <- drop_drop, <- len_app, <- concat_app, take_drop).
  split; [|by rewrite Ef| |lia|lia].
  - exists (n + m)%nat. split; [lia|]. split; [done|]. destruct m as [|m]; [by rewrite Nat.add_0_r|right].
    replace (n + S m - 1)%nat with (n + m)%nat by lia. rewrite Nat.sub_succ, Nat.sub_0_r, drop_drop in Hk.
    destruct Hk as [?|[Hk|Hk]]; [lia|left|by right].
    rewrite <- drop_drop. rewrite <- (take_drop m (drop n (text_lines text))), concat_app, len_app in Hc. lia.
  - intros Eu Hnil. rewrite Hu in Eu. destruct (text_lines d) as [|l ls _] eqn:El using rev_ind;
      [by apply text_lines_nil in El as ->|].
    pose proof (last_line_short d l) as Hsh. rewrite El, last_snoc in Hsh. specialize (Hsh eq_refl).
    rewrite Hnil in Em. pose proof (f_equal length Em) as Hln. rewrite length_drop in Hln. simpl in Hln.
    assert (Hall : (m = S (length (lines b ++ ls)))%nat).
    { pose proof (f_equal length Hl) as Hq. rewrite length_drop, !length_app in Hq. simpl in Hq.
      rewrite length_app. lia. }
    rewrite app_assoc in Hl. rewrite <- Hl in Hk, Hc. rewrite concat_app, len_app in Hc. simpl in Hc.
    rewrite app_nil_r in Hc. rewrite Hall, Nat.sub_succ, Nat.sub_0_r, take_app_length, drop_app_length in Hk.
    unfold MAX_BUFFER_LINES in Hk. unfold len in Hk at 3. simpl in Hk. lia.
Qed.

Lemma unfinished_after data : data <> [] ->
  unfinished data = match split_at_nl data with Some (_, rest) => unfinished rest | None => true end.
Proof.
  induction data as [|b data IH]; [done|]. intros _. destruct data as [|c data].
  { unfold unfinished. simpl. by destruct (is_nl b). }
  rewrite unfinished_cons by done. change (split_at_nl (b :: c :: data)) with
    (if is_nl b then Some ([b], c :: data) else
       match split_at_nl (c :: data) with Some (l, r) => Some (b :: l, r) | None => None end).
  destruct (is_nl b); [done|]. rewrite IH by done. by destruct (split_at_nl (c :: data)) as [[]|].
Qed.

(** [append] either only goes on with the last line, or splits what is left of
    the data into lines and trims. *)
Record to_trim (text : list byte) (n : nat) (d : list byte) (b : OutputBuffer) : Prop := mkToTrim {
  trim_flag : last_line_incomplete b = false;
  trim_from : (n <= length (text_lines text))%nat;
  trim_lines : lines b ++ text_lines d = drop n (text_lines text);
  trim_over : n = 0%nat \/ over (drop (n - 1) (text_lines text));
  trim_size : 0 <= total_size b <= len (concat (lines b));
  trim_end : unfinished text = unfinished d;
}.
Lemma append_cases text data b :
  holds text b -> data <> [] -> len (text ++ data) < 2 ^ 61 ->
  (exists b', append data b = Some b' /\ holds (text ++ data) b')
  \/ exists n d b1, append data b = trim (S (length (lines (process d b1)))) (process d b1)
       /\ to_trim (text ++ data) n d b1 /\ len d <= len data.
Proof.
  intros [(n & Hn & Hl & Ho) Hf Hla Hs Hc] Hdn Ht. unfold append.
  destruct (Z.eqb_spec (len data) 0) as [E|Hne]; [by destruct data|].
  assert (Ho' : n = 0%nat \/ over (drop (n - 1) (text_lines (text ++ data)))).
  { destruct Ho as [?|Ho]; [by left|]. destruct n as [|n]; [by left|right]. apply over_later; [lia|done]. }
  rewrite Hf. destruct (unfinished text) eqn:Eu.
  - specialize (Hla eq_refl). destruct (text_lines_last text Eu) as (ls & l & El & Hdl).
    specialize (Hdl data). rewrite El, length_app in Hn. simpl in Hn.
    assert (Hnl : (n <= length ls)%nat).
    { destruct (decide (n = length ls + 1)%nat) as [->|]; [|lia]. rewrite El, drop_ge in Hl; [done|].
      rewrite length_app. simpl. lia. }
    rewrite El, drop_app_le in Hl by lia.
    unfold extend_last. rewrite !Hl, last_snoc, removelast_last. rewrite Hl, concat_app, len_app in Hs.
    simpl in Hs. rewrite app_nil_r in Hs. destruct (split_at_nl data) as [[upto rest]|] eqn:Es.
    + right. apply split_at_nl_app in Es as Ed. cbn [default id].
      pose proof (len_nonneg upto). eexists n, rest, _. split; [reflexivity|]. split.
      * split; cbn [last_line_incomplete lines total_size]; [done|rewrite Hdl, length_app; lia| |done| |].
        -- by rewrite Hdl, drop_app_le, <- app_assoc by lia.
        -- rewrite concat_app, len_app. simpl. rewrite app_nil_r, len_app. lia.
        -- by rewrite unfinished_app, (unfinished_after data), Es by done.
      * rewrite Ed, len_app. lia.
    + left. eexists. split; [reflexivity|]. rewrite len_app in Ht. pose proof (len_nonneg text).
      pose proof (len_nonneg data).
      assert (Hb : len (concat (drop n ls)) + len l <= len text).
      { rewrite <- (text_lines_concat text) at 1. rewrite El, concat_app, len_app. simpl. rewrite app_nil_r.
        rewrite <- (take_drop n ls) at 2. rewrite concat_app, len_app.
        pose proof (len_nonneg (concat (take n ls))). lia. }
      unfold usize. rewrite Int.wrap_small by (unfold Int.in_u; lia).
      split; cbn [lines total_size last_line_incomplete default id].
      * exists n. rewrite Hdl, length_app, drop_app_le by lia. split; [lia|]. split; [done|]. by rewrite <- Hdl.
      * by rewrite unfinished_app, unfinished_after, Es.
      * by destruct (drop n ls).
      * rewrite concat_app, len_app. simpl. rewrite app_nil_r, len_app. lia.
      * rewrite Hl in Hc. unfold len in *. rewrite length_app in *. simpl in *. lia.
  - right. exists n, data, b. split; [done|]. split; [split; try done|lia].
    + rewrite text_lines_app, length_app by done. lia.
    + by rewrite text_lines_app, drop_app_le, Hl by done.
    + by apply unfinished_app.
Qed.

Lemma append_holds text data b b' :
  holds text b -> len data <= MAX_OUTPUT_BUFFER_SIZE -> len (text ++ data) < 2 ^ 61 ->
  append data b = Some b' -> holds (text ++ data) b'.
Proof.
  intros Hh Hd Ht Ha. destruct (decide (data = [])) as [->|Hne].
  { unfold append in Ha. simpl in Ha. injection Ha as <-. by rewrite app_nil_r. }
  destruct (append_cases text data b Hh Hne Ht) as [(b2 & E & ?)|(n & d & b1 & E & [] & ?)]; [congruence|].
  rewrite E in Ha. eapply (finish_holds _ d n b1); eauto. lia.
Qed.

(** It returns when everything printed so far fits. *)
Lemma append_returns text data b : holds text b ->
  ~ over (text_lines (text ++ data)) -> len (text ++ data) < 2 ^ 61 -> is_Some (append data b).
Proof.
  intros Hh Hno Ht. destruct (decide (data = [])) as [->|Hne]; [by eexists|].
  destruct (append_cases text data b Hh Hne Ht) as [(b2 & E & _)|(n & d & b1 & -> & [_ _ Hl _ Hs _] & _)];
    [by rewrite E|]. rewrite process_lines. cbn [lines]. rewrite Hl.
  set (L := text_lines (text ++ data)) in *.
  assert (Hm : len (concat (lines b1)) + len d <= len (concat L) /\ len (drop n L) <= len L).
  { split; [|unfold len; rewrite length_drop; lia].
    rewrite <- (text_lines_concat d) at 1. rewrite <- len_app, <- concat_app, Hl.
    rewrite <- (take_drop n L) at 2. rewrite concat_app, len_app. pose proof (len_nonneg (concat (take n L))). lia. }
  unfold over in Hno. unfold L in Hno at 1. unfold L in Hm at 1. rewrite text_lines_concat in Hno, Hm.
  pose proof (len_nonneg d). unfold usize. rewrite Int.wrap_small by (unfold Int.in_u; lia).
  assert (E : too_big (mkBuf (drop n L) (total_size b1 + len d) (unfinished d || last_line_incomplete b1)) = false)
    by (unfold too_big; cbn [lines total_size]; apply orb_false_iff; split; apply Z.ltb_ge; lia).
  simpl. rewrite E. by eexists.
Qed.

Lemma appends_hold chunks b :
  Forall (λ c, len c <= MAX_OUTPUT_BUFFER_SIZE) chunks -> len (concat chunks) < 2 ^ 61 ->
  appends chunks = Some b -> holds (concat chunks) b.
Proof.
  revert b. induction chunks as [|data chunks IH] using rev_ind; intros b Hf Hl.
  { intros [= <-]. split; try done. exists O. auto. }
  rewrite appends_snoc, concat_app in *. cbn [concat] in *. rewrite app_nil_r in *.
  apply Forall_app in Hf as [Hf [Hd _]%Forall_cons_1]. rewrite len_app in Hl. pose proof (len_nonneg data).
  destruct (appends chunks) as [b0|]; [|done].
  apply append_holds; [apply IH; [done|lia|done]|done|rewrite len_app; lia].
Qed.

(** C17: as long as [append] returns, the history of a terminal is exactly the
    last lines of what the terminal printed, and a line leaves it only when
    that line and those after it are over 1 MiB or over 10000 lines: nothing is
    lost in the middle, cut, duplicated or reordered, output that fits is kept
    whole, and at most 10000 lines are kept.  For pieces of output of at most
    1 MiB (the reader thread hands over 4 KiB at most) and less than [2^61]
    bytes of output in all. *)
Theorem history_is_last_lines chunks b :
  Forall (λ c, len c <= MAX_OUTPUT_BUFFER_SIZE) chunks -> len (concat chunks) < 2 ^ 61 ->
  appends chunks = Some b ->
  exists n, lines b = drop n (text_lines (concat chunks))
    /\ (n = 0%nat \/ over (drop (n - 1) (text_lines (concat chunks))))
    /\ (~ over (text_lines (concat chunks)) -> n = 0%nat)
    /\ len (lines b) <= MAX_BUFFER_LINES.
Proof.
  intros Hf Hl Ha. destruct (appends_hold chunks b Hf Hl Ha) as [(n & Hn & El & Ho) _ _ _ Hc].
  exists n. split_and!; [done|done| |done]. intros Hno. destruct Ho as [?|Ho]; [done|]. destruct Hno.
  revert Ho. unfold over. rewrite <- (take_drop (n - 1) (text_lines (concat chunks))) at 3 4.
  rewrite concat_app, !len_app. pose proof (len_nonneg (concat (take (n - 1) (text_lines (concat chunks))))).
  pose proof (len_nonneg (take (n - 1) (text_lines (concat chunks)))). lia.
Qed.


(** *** Replay *)
Lemma skip_continuation_suffix n l : exists pre, l = pre ++ skip_continuation n l.
Proof.
  revert l. induction n as [|n IH]; intros [|b l]; simpl; try by exists [].
  destruct (is_continuation b); [|by exists []]. destruct (IH l) as (pre & E).
  exists (b :: pre). simpl. by f_equal.
Qed.

Lemma concat_rev_cons {A} (x : list A) xs : concat (rev (x :: xs)) = concat (rev xs) ++ x.
Proof. simpl. rewrite concat_app. simpl. by rewrite app_nil_r. Qed.

Lemma recent_suffix m s rl : 0 <= s <= m ->
  exists pre, concat (rev rl) = pre ++ concat (rev (recent_chunks m s rl))
    /\ s + len (concat (rev (recent_chunks m s rl))) <= m.
Proof.
  revert s. induction rl as [|line older IH]; intros s Hs.
  { exists []. simpl. split; [done|]. unfold len. simpl. lia. }
  cbn [recent_chunks]. destruct (Z.ltb_spec m (s + len line)) as [Hl|Hl].
  - destruct ((s =? 0) && _) eqn:E.
    + apply andb_true_iff in E as [Es El]. bool_prop. subst s.
      set (l := drop _ line).
      destruct (skip_continuation_suffix 3 l) as (pre & Ep).
      assert (Hll : len (skip_continuation 3 l) <= m).
      { assert (H : len l <= m) by (unfold l, len in *; rewrite length_drop; lia).
        rewrite Ep, len_app in H. pose proof (len_nonneg pre). lia. }
      assert (Hc : concat (rev (line :: older))
                   = (concat (rev older) ++ take (Z.to_nat (len line - m)) line ++ pre)
                     ++ skip_continuation 3 l).
      { rewrite concat_rev_cons, <- !app_assoc. f_equal. rewrite <- Ep. unfold l.
        by rewrite take_drop. }
      eexists. rewrite Hc. destruct (skip_continuation 3 l) as [|b tl].
      * split; [done|]. simpl. unfold len. simpl. lia.
      * simpl. rewrite app_nil_r. split; [done|]. lia.
    + exists (concat (rev (line :: older))). simpl. rewrite app_nil_r. split; [done|].
      unfold len. simpl. lia.
  - destruct (IH (s + len line)) as (pre & E & Hb); [pose proof (len_nonneg line); lia|].
    exists pre. rewrite !concat_rev_cons, E, app_assoc. split; [done|]. rewrite len_app. lia.
Qed.

Lemma recent_all m s rl : s + len (concat (rev rl)) <= m -> recent_chunks m s rl = rl.
Proof.
  revert s. induction rl as [|line older IH]; intros s H; [done|].
  rewrite concat_rev_cons, len_app in H. cbn [recent_chunks].
  pose proof (len_nonneg (concat (rev older))).
  destruct (Z.ltb_spec m (s + len line)); [lia|]. f_equal. apply IH. lia.
Qed.

(** A replay is always the newest part of the history, at most as long as
    asked for, and the whole history when it fits. *)
Theorem get_recent_suffix m b :
  0 <= m ->
  exists older, concat (lines b) = older ++ get_recent m b
    /\ len (get_recent m b) <= m
    /\ (len (concat (lines b)) <= m -> get_recent m b = concat (lines b)).
Proof.
  intros Hm. unfold get_recent. destruct (Z.eqb_spec m 0) as [->|Hne].
  - exists (concat (lines b)). rewrite app_nil_r. split; [done|]. split; [done|].
    intros H. destruct (concat (lines b)); [done|]. unfold len in H. simpl in H. lia.
  - destruct (recent_suffix m 0 (rev (lines b))) as (pre & E & Hl); [lia|].
    rewrite rev_involutive in E. exists pre. split; [done|]. split; [lia|].
    intros Hf. rewrite recent_all; [by rewrite rev_involutive|]. rewrite rev_involutive. lia.
Qed.

(** The newest part of a text, by whole lines: its last lines as long as they
    fit into [m] bytes, or, when not even the last line does, the end of that
    line, up to three bytes short of [m] so as not to begin inside a
    character. *)
Definition newest (m : Z) (text h : list byte) : Prop :=
  len h <= m
  /\ ((exists k, h = concat (drop k (text_lines text))
         /\ (k = 0%nat \/ m < len (concat (drop (k - 1) (text_lines text)))))
      \/ (exists older cut, text_lines text = older ++ [cut ++ h] /\ m < len (cut ++ h) /\ m - 3 <= len h)).

Lemma recent_lines m s ls : 0 < s <= m ->
  exists k, (k <= length ls)%nat /\ rev (recent_chunks m s (rev ls)) = drop k ls
    /\ (k = 0%nat \/ m < s + len (concat (drop (k - 1) ls))).
Proof.
  revert s. induction ls as [|x ls IH] using rev_ind; intros s Hs; [exists O; auto|].
  rewrite rev_app_distr, length_app. cbn [rev app recent_chunks length]. pose proof (len_nonneg x).
  destruct (Z.ltb_spec m (s + len x)) as [Hl|Hl].
  - destruct (Z.eqb_spec s 0); [lia|]. exists (length ls + 1)%nat. split; [lia|].
    split; [by rewrite (drop_ge (ls ++ [x])) by (rewrite length_app; simpl; lia)|right].
    rewrite Nat.add_sub, drop_app_length. simpl. by rewrite app_nil_r.
  - destruct (IH (s + len x)) as (k & Hk & E & Ho); [lia|]. exists k. split; [lia|].
    cbn [rev]. rewrite E, drop_app_le by lia. split; [done|]. destruct Ho as [?|Ho]; [by left|right].
    rewrite drop_app_le, concat_app, len_app by lia. simpl. rewrite app_nil_r. lia.
Qed.
Lemma skip_continuation_few n l : exists pre, l = pre ++ skip_continuation n l /\ len pre <= Z.of_nat n.
Proof.
  revert l. induction n as [|n IH]; intros [|b l]; simpl; try by exists [].
  destruct (is_continuation b); [|by exists []]. destruct (IH l) as (pre & E & Hl).
  exists (b :: pre). split; [simpl; by f_equal|]. unfold len in *. simpl. lia.
Qed.

Lemma lines_nonempty text : Forall (λ l, l <> []) (text_lines text).
Proof.
  induction text as [|b text IH]; [constructor|]. simpl. destruct (is_nl b); [by constructor|].
  destruct IH; by repeat constructor.
Qed.
Lemma over_long text n : over (drop n (text_lines text)) ->
  MAX_BUFFER_LINES < len (concat (drop n (text_lines text))).
Proof.
  intros [Ho|Ho]; [unfold MAX_OUTPUT_BUFFER_SIZE, MAX_BUFFER_LINES in *; lia|].
  eapply Z.lt_le_trans; [exact Ho|]. clear Ho.
  pose proof (Forall_drop _ n _ (lines_nonempty text)) as Hf. induction Hf as [|l ls Hl _ IH]; [done|].
  simpl. rewrite len_app. assert (1 <= len l) by (unfold len; destruct l; simpl; [done|lia]).
  unfold len in *. simpl in *. lia.
Qed.

Lemma get_recent_newest m text b : holds text b -> 3 < m <= MAX_BUFFER_LINES -> newest m text (get_recent m b).
Proof.
  intros [(n & Hn & El & Ho) _ _ _ _] Hm. unfold get_recent. rewrite El.
  destruct (Z.eqb_spec m 0) as [|_]; [lia|]. pose proof (lines_nonempty text) as Hf.
  split.
  { destruct (recent_suffix m 0 (rev (drop n (text_lines text)))) as (_ & _ & ?); lia. }
  set (L := text_lines text) in *. assert (Ho' : n = 0%nat \/ m < len (concat (drop (n - 1) L))).
  { destruct Ho as [?|Ho%over_long]; [by left|right]. fold L in Ho. lia. }
  clear Ho El. destruct (decide (n = length L)) as [->|Hne].
  { left. exists (length L). rewrite drop_all. split; [done|]. exact Ho'. }
  destruct L as [|x L0 _] using rev_ind; [simpl in *; lia|]. rewrite length_app in *. simpl in Hn, Hne.
  rewrite drop_app_le, rev_app_distr by lia. cbn [rev app recent_chunks]. rewrite Z.add_0_l, Z.eqb_refl.
  apply Forall_app in Hf as [_ [Hx _]%Forall_cons_1].
  assert (0 < len x) by (unfold len; destruct x; simpl; [done|lia]).
  destruct (Z.ltb_spec m (len x)) as [Hl|Hl]; cbn [andb].
  - right. destruct (skip_continuation_few 3 (drop (Z.to_nat (len x - m)) x)) as (pre & Ep & Hp).
    set (t := skip_continuation 3 _) in *.
    assert (Hlt : len pre + len t = m) by (rewrite <- len_app, <- Ep; unfold len in *; rewrite length_drop; lia).
    exists L0, (take (Z.to_nat (len x - m)) x ++ pre).
    clearbody t. destruct t as [|c t]; [unfold len in Hlt at 2; simpl in Hlt; lia|].
    cbn [rev app concat]. rewrite app_nil_r.
    rewrite <- app_assoc, <- Ep, take_drop. split; [done|]. split; [done|]. lia.
  - left. cbn [rev]. destruct (recent_lines m (len x) (drop n L0)) as (k & Hk & E & Hmk); [lia|].
    rewrite length_drop in Hk. exists (n + k)%nat. rewrite E, drop_drop.
    rewrite !drop_app_le by lia. split; [done|]. destruct k as [|k].
    { rewrite Nat.add_0_r. by rewrite drop_app_le in Ho' by lia. }
    right. destruct Hmk as [?|Hmk]; [lia|]. rewrite drop_drop in Hmk.
    replace (n + S k - 1)%nat with (n + (S k - 1))%nat by lia.
    rewrite concat_app, len_app. cbn [concat]. rewrite app_nil_r. lia.
Qed.

(** *** Where the accounting fails *)
(** If the lines that must go to get down to the line limit are longer than the
    counted size, the size wraps. *)
Lemma trim_overrun n pre post t f :
  0 <= t < len (concat pre) -> len (concat (pre ++ post)) < 2 ^ 61 -> MAX_BUFFER_LINES <= len post ->
  trim n (mkBuf (pre ++ post) t f) = None.
Proof.
  intros Ht Hb Hp. revert n t Ht Hb. induction pre as [|r pre IH]; intros n t Ht Hb;
    [unfold len in Ht; simpl in Ht; lia|].
  assert (Hbig : too_big (mkBuf ((r :: pre) ++ post) t f) = true).
  { unfold too_big. apply orb_true_iff. right. bool_prop. simpl lines. unfold len in *.
    simpl. rewrite length_app. lia. }
  destruct n as [|n]; cbn [trim]; rewrite Hbig; [done|]. unfold pop_front. simpl.
  simpl in Ht, Hb. rewrite len_app in Ht, Hb. pose proof (len_nonneg r).
  pose proof (len_nonneg (concat (pre ++ post))).
  assert (Hpp : len (concat (pre ++ post)) = len (concat pre) + len (concat post))
    by (by rewrite concat_app, len_app).
  pose proof (len_nonneg (concat post)).
  destruct (Z.leb_spec (len r) t).
  - unfold usize. rewrite Int.wrap_small by (unfold Int.in_u; lia). apply IH; lia.
  - replace (usize (t - len r)) with (2 ^ 64 - (len r - t)); [apply trim_underflow; lia|].
    unfold usize, Int.wrap. apply Z.mod_unique_pos with (-1); lia.
Qed.

(** A chunk of [n] newlines adds [n] one-byte lines. *)
Lemma split_nl_newlines n : split_nl (repeat nl n) = repeat [] (S n).
Proof. induction n as [|n IH]; [done|]. cbn [repeat split_nl]. rewrite IH. done. Qed.
Lemma line_pieces_newlines n ends : line_pieces ends (repeat [] (S n)) = (repeat [nl] n, false).
Proof.
  induction n as [|n IH]; [done|]. change (repeat [] (S (S n))) with ([] :: [] :: repeat (@nil byte) n).
  rewrite line_pieces_cons. change ([] :: repeat [] n) with (repeat (@nil byte) (S n)). by rewrite IH.
Qed.
Lemma concat_newlines n : len (concat (repeat [nl] n)) = Z.of_nat n.
Proof. induction n as [|n IH]; [done|]. simpl. unfold len in *. simpl. lia. Qed.

Lemma process_newlines n b :
  process (repeat nl n) b
  = mkBuf (lines b ++ repeat [nl] n) (usize (total_size b + Z.of_nat n)) (last_line_incomplete b).
Proof.
  unfold process. rewrite split_nl_newlines, line_pieces_newlines. by rewrite concat_newlines.
Qed.

Lemma append_newlines n b : n <> O -> last_line_incomplete b = false ->
  append (repeat nl n) b = trim (S (length (lines (process (repeat nl n) b)))) (process (repeat nl n) b).
Proof.
  intros Hn Hi. unfold append. rewrite Hi.
  destruct (Z.eqb_spec (len (repeat nl n)) 0) as [E|]; [|done].
  unfold len in E. rewrite repeat_length in E. lia.
Qed.

Lemma append_newlines_fits n b : n <> O -> last_line_incomplete b = false ->
  0 <= total_size b -> total_size b + Z.of_nat n <= MAX_OUTPUT_BUFFER_SIZE ->
  len (lines b) + Z.of_nat n <= MAX_BUFFER_LINES ->
  append (repeat nl n) b
  = Some (mkBuf (lines b ++ repeat [nl] n) (total_size b + Z.of_nat n) false).
Proof.
  intros Hn Hi H0 Ht Hl. rewrite append_newlines, process_newlines, Hi by done.
  unfold usize. rewrite Int.wrap_small by (unfold Int.in_u, MAX_OUTPUT_BUFFER_SIZE in *; lia).
  assert (too_big (mkBuf (lines b ++ repeat [nl] n) (total_size b + Z.of_nat n) false) = false) as E.
  { unfold too_big. simpl. rewrite len_app. unfold len in *. rewrite repeat_length.
    apply orb_false_iff. split; bool_prop; lia. }
  simpl. by rewrite E.
Qed.

Definition half_line : list byte := [x61].
Definition rest_of_line : list byte := repeat x62 (Z.to_nat 4095) ++ [nl].
Definition K : nat := Z.to_nat 4096.
Definition newlines : list byte := repeat nl K.
Definition three_lines : list (list byte) :=
  [half_line; rest_of_line; half_line; rest_of_line; half_line; rest_of_line].
Definition long_line : list byte := half_line ++ rest_of_line.
Lemma three_lines_counted : appends three_lines = Some (mkBuf [long_line; long_line; long_line] 3 false).
Proof. vm_compute. reflexivity. Qed.

(** Three lines whose bytes were not counted, then three chunks of newlines. *)
Lemma hang_core (k m : nat) (l : list byte) :
  Z.of_nat k = 4096 -> Z.of_nat m = 10000 -> len l = 4097 ->
  exists b1 b2,
    append (repeat nl k) (mkBuf [l; l; l] 3 false) = Some b1
    /\ append (repeat nl k) b1 = Some b2
    /\ append (repeat nl k) b2 = None
    /\ forall rounds, trim rounds (process (repeat nl k) b2) = None.
Proof.
  intros Hk Hm Hl. assert (Hk0 : k <> O) by lia.
  set (b0 := mkBuf [l; l; l] 3 false).
  set (b1 := mkBuf (lines b0 ++ repeat [nl] k) (3 + Z.of_nat k) false).
  set (b2 := mkBuf (lines b1 ++ repeat [nl] k) (3 + Z.of_nat k + Z.of_nat k) false).
  assert (Hn : forall n, trim n (process (repeat nl k) b2) = None).
  { intros n. rewrite process_newlines. cbn [lines b2 b1 b0 total_size last_line_incomplete].
    unfold usize. rewrite Int.wrap_small by (unfold Int.in_u; lia).
    assert (E : (([l; l; l] ++ repeat [nl] k) ++ repeat [nl] k) ++ repeat [nl] k
              = ([l; l; l] ++ repeat [nl] (3 * k - m)) ++ repeat [nl] m).
    { rewrite <- !app_assoc, <- !repeat_app. do 2 f_equal. lia. }
    rewrite E.
    assert (Hc : len (concat ([l; l; l] ++ repeat [nl] (3 * k - m))) = 3 * 4097 + Z.of_nat (3 * k - m)).
    { rewrite concat_app, len_app, concat_newlines. cbn [concat]. rewrite !len_app, Hl.
      change (len (@nil byte)) with 0. lia. }
    apply trim_overrun.
    - rewrite Hc. lia.
    - rewrite concat_app, len_app, Hc, concat_newlines. lia.
    - unfold len, MAX_BUFFER_LINES. rewrite repeat_length. lia. }
  exists b1, b2. split; [|split; [|split; [|done]]].
  - apply append_newlines_fits; try done;
      unfold MAX_OUTPUT_BUFFER_SIZE, MAX_BUFFER_LINES, len; simpl; lia.
  - apply append_newlines_fits; try done; cbn [total_size b1 lines b0];
      unfold MAX_OUTPUT_BUFFER_SIZE, MAX_BUFFER_LINES, len;
      rewrite ?length_app, ?repeat_length; simpl; lia.
  - rewrite append_newlines by done. apply Hn.
Qed.

(** C22: [append] can hang for ever: the bytes that complete an unfinished line
    are not counted, so trimming subtracts more than was added, the unsigned
    size wraps around, every line is dropped and the loop still wants less.
    Reads of at most 4096 bytes, as the reader thread makes, are enough. *)
Theorem append_can_hang :
  exists chunks data b,
    Forall (λ c, len c <= 4096) (data :: chunks)
    /\ appends chunks = Some b
    /\ append data b = None
    /\ forall rounds, trim rounds (process data b) = None.
Proof.
  destruct (hang_core (Z.to_nat 4096) (Z.to_nat 10000) long_line)
    as (b1 & b2 & H1 & H2 & H3 & H4); [lia|lia|vm_compute; reflexivity|].
  exists ((three_lines ++ [newlines]) ++ [newlines]), newlines, b2.
  split; [repeat constructor; by vm_compute|].
  split; [|split; [exact H3|exact H4]].
  rewrite !appends_snoc, three_lines_counted. unfold newlines, K. rewrite H1. exact H2.
Qed.

(** A line that never ends is never trimmed: whatever its size, output
    without a newline is kept completely. *)
Theorem unfinished_line_grows data b l :
  last_line_incomplete b = true -> last (lines b) = Some l -> split_at_nl data = None ->
  exists b', append data b = Some b' /\ concat (lines b') = concat (lines b) ++ data
    /\ length (lines b') = length (lines b).
Proof.
  intros Hi Hl Hs. unfold append. rewrite Hi, Hl, Hs.
  destruct (len data =? 0) eqn:E.
  { bool_prop. exists b. destruct data; [by rewrite app_nil_r|]. unfold len in E. simpl in E. lia. }
  assert (He : extend_last (lines b) data = Some (removelast (lines b) ++ [l ++ data]))
    by (unfold extend_last; by rewrite Hl).
  rewrite He. eexists. split; [done|]. cbn [default lines id]. split; [by apply extend_last_concat|].
  apply last_Some in Hl as [ls ->]. rewrite removelast_last, !length_app. done.
Qed.

Lemma history_is_last_lines_witness :
  exists n, [[x61; x62; nl]; [x63]] = drop n (text_lines [x61; x62; nl; x63])
    /\ (n = 0%nat \/ over (drop (n - 1) (text_lines [x61; x62; nl; x63])))
    /\ (~ over (text_lines [x61; x62; nl; x63]) -> n = 0%nat)
    /\ 2 <= MAX_BUFFER_LINES.
Proof.
  apply (history_is_last_lines [[x61]; [x62; nl; x63]] (mkBuf [[x61; x62; nl]; [x63]] 2 true)).
  - by repeat constructor; vm_compute.
  - done.
  - vm_compute. reflexivity.
Defined.

Lemma get_recent_suffix_witness :
  exists older, [x61; nl; x62; x63] = older ++ get_recent 3 (mkBuf [[x61; nl]; [x62; x63]] 4 true)
    /\ len (get_recent 3 (mkBuf [[x61; nl]; [x62; x63]] 4 true)) <= 3
    /\ (4 <= 3 -> get_recent 3 (mkBuf [[x61; nl]; [x62; x63]] 4 true) = [x61; nl; x62; x63]).
Proof. apply (get_recent_suffix 3 (mkBuf [[x61; nl]; [x62; x63]] 4 true)). lia. Defined.

Lemma unfinished_line_grows_witness :
  exists b', append (repeat x62 9) (mkBuf [[x61]] 1 true) = Some b'
    /\ concat (lines b') = [x61] ++ repeat x62 9 /\ length (lines b') = 1%nat.
Proof. apply (unfinished_line_grows (repeat x62 9) (mkBuf [[x61]] 1 true) [x61]); reflexivity. Defined.
End OutputBuffer.
