(* ===== verification/Terminal.v ===== *)
(** * Terminal sessions and services ([src/src/server/terminal_service.rs])

    The build for Linux (no helper process).  The registry of services, the
    terminals of a service and the list of children to reap are one state; the
    bounded channels to and from the reader and writer threads are lists of
    chunks.  Time, the PTY, child processes and threads answer through
    arguments.  The iteration order of a [HashMap] is the one of
    [map_to_list]; nothing stated here depends on it.

    [read_outputs] returns [None] when buffering never returns
    ([OutputBuffer.append]). *)

From Stdlib Require Import Ascii Strings.Byte.
From S2P Require Import Prelude RustStr TermBuffer.
Import OutputBuffer.
#[local] Open Scope Z_scope.

Module Terminal.
Definition MAX_SERVICES : Z := 100.
Definition SERVICE_IDLE_TIMEOUT : Z := 3600.
Definition CHANNEL_BUFFER_SIZE : nat := 500.
Definition COMPRESS_THRESHOLD : Z := 512.
Definition DEFAULT_RECONNECT_BUFFER_BYTES : Z := 8 * 1024.
Definition MAX_SIGWINCH_PHASE_ATTEMPTS : Z := 3.

Inductive SigwinchPhase : Type :=
  | Idle
  | TempResize (retries : Z)
  | Restore (retries : Z).
#[export] Instance SigwinchPhase_eq_dec : EqDecision SigwinchPhase.
Proof. solve_decision. Defined.
Inductive SigwinchAction : Type := ATempResize | ARestore.
Inductive SessionState : Type :=
  | Closed
  | Active (pending_buffer : option (list byte)) (sigwinch : SigwinchPhase).

Record TerminalSession := mkSession {
  s_created_at : Z;
  s_last_activity : Z;
  pty_pair : bool;
  child : option Z;
  input_tx : option (list (list byte));
  output_rx : option (list (list byte));
  exiting : bool;
  reader_thread : bool;
  writer_thread : bool;
  output_buffer : OutputBuffer;
  title : string;
  pid : Z;
  rows : Z;
  cols : Z;
  closed_message_sent : bool;
  state : SessionState;
}.

Definition i32_to_string (z : Z) : string :=
  if z <? 0 then "-" +:+ to_string (- z) else to_string z.
Definition new_session (now terminal_id rows cols : Z) : TerminalSession :=
  mkSession now now false None None None false false false OutputBuffer.new
    ("Terminal " +:+ i32_to_string terminal_id) 0 rows cols false Closed.

Definition set_activity t s := mkSession (s_created_at s) t (pty_pair s) (child s) (input_tx s)
  (output_rx s) (exiting s) (reader_thread s) (writer_thread s) (output_buffer s) (title s) (pid s)
  (rows s) (cols s) (closed_message_sent s) (state s).
Definition set_child c s := mkSession (s_created_at s) (s_last_activity s) (pty_pair s) c (input_tx s)
  (output_rx s) (exiting s) (reader_thread s) (writer_thread s) (output_buffer s) (title s) (pid s)
  (rows s) (cols s) (closed_message_sent s) (state s).
Definition set_input i s := mkSession (s_created_at s) (s_last_activity s) (pty_pair s) (child s) i
  (output_rx s) (exiting s) (reader_thread s) (writer_thread s) (output_buffer s) (title s) (pid s)
  (rows s) (cols s) (closed_message_sent s) (state s).
Definition set_output o s := mkSession (s_created_at s) (s_last_activity s) (pty_pair s) (child s)
  (input_tx s) o (exiting s) (reader_thread s) (writer_thread s) (output_buffer s) (title s) (pid s)
  (rows s) (cols s) (closed_message_sent s) (state s).
Definition set_buffer b s := mkSession (s_created_at s) (s_last_activity s) (pty_pair s) (child s)
  (input_tx s) (output_rx s) (exiting s) (reader_thread s) (writer_thread s) b (title s) (pid s)
  (rows s) (cols s) (closed_message_sent s) (state s).
Definition set_size r c s := mkSession (s_created_at s) (s_last_activity s) (pty_pair s) (child s)
  (input_tx s) (output_rx s) (exiting s) (reader_thread s) (writer_thread s) (output_buffer s) (title s)
  (pid s) r c (closed_message_sent s) (state s).
Definition set_closed_sent b s := mkSession (s_created_at s) (s_last_activity s) (pty_pair s) (child s)
  (input_tx s) (output_rx s) (exiting s) (reader_thread s) (writer_thread s) (output_buffer s) (title s)
  (pid s) (rows s) (cols s) b (state s).
Definition set_state x s := mkSession (s_created_at s) (s_last_activity s) (pty_pair s) (child s)
  (input_tx s) (output_rx s) (exiting s) (reader_thread s) (writer_thread s) (output_buffer s) (title s)
  (pid s) (rows s) (cols s) (closed_message_sent s) x.

(** [TerminalSession::stop] (also run by [Drop]): the session afterwards and
    the child handed to the reaper. *)
Definition stop (s : TerminalSession) : TerminalSession * option Z :=
  (mkSession (s_created_at s) (s_last_activity s) false None None None true false false
     (output_buffer s) (title s) (pid s) (rows s) (cols s) (closed_message_sent s) Closed,
   child s).

(** *** The reader thread and its channel *)

(** [try_send]: the queue of a connected channel, [None] once the receiver is
    gone.  [elapsed]: five seconds since the last warning. *)
Definition try_send_output (elapsed : bool) (data : list byte) (ch : option (list (list byte)))
    (drop_count : Z) : bool * option (list (list byte)) * Z :=
  match ch with
  | None => (true, None, drop_count)
  | Some q =>
      if (length q <? CHANNEL_BUFFER_SIZE)%nat then (false, Some (q ++ [data]), 0)
      else (false, Some q, if elapsed then 0 else Int.wrap 64 (drop_count + 1))
  end.

Inductive read_result := ReadEof | ReadData (data : list byte) | ReadWouldBlock | ReadError.

(** One round of the reader's loop; [true]: it breaks. *)
Definition reader_step (exiting elapsed : bool) (r : read_result) (ch : option (list (list byte)))
    (drop_count : Z) : bool * option (list (list byte)) * Z :=
  match r with
  | ReadEof | ReadError => (true, ch, drop_count)
  | ReadData data => if exiting then (true, ch, drop_count) else try_send_output elapsed data ch drop_count
  | ReadWouldBlock => (exiting, ch, drop_count)
  end.

(** *** Services *)
Record PersistentTerminalService := mkService {
  service_id : string;
  sessions : gmap Z TerminalSession;
  created_at : Z;
  last_activity : Z;
  is_persistent : bool;
  needs_session_sync : bool;
  is_specified_user : bool;
}.
Definition new_service (now : Z) (id : string) (persistent specified : bool) : PersistentTerminalService :=
  mkService id ∅ now now persistent false specified.
Definition set_sessions m v := mkService (service_id v) m (created_at v) (last_activity v)
  (is_persistent v) (needs_session_sync v) (is_specified_user v).
Definition set_sync b v := mkService (service_id v) (sessions v) (created_at v) (last_activity v)
  (is_persistent v) b (is_specified_user v).
Definition set_service_activity t v := mkService (service_id v) (sessions v) (created_at v) t
  (is_persistent v) (needs_session_sync v) (is_specified_user v).

Definition reset_status (persistent : bool) (v : PersistentTerminalService) : PersistentTerminalService :=
  mkService (service_id v) (set_state Closed <$> sessions v) (created_at v) (last_activity v)
    persistent true (is_specified_user v).

Definition get_terminal_buffer (id max_bytes : Z) (v : PersistentTerminalService) : option (list byte) :=
  (λ s, get_recent max_bytes (output_buffer s)) <$> (sessions v !! id).
Definition get_terminal_info (id : Z) (v : PersistentTerminalService) : option (Z * Z * list byte) :=
  (λ s, (rows s, cols s, get_recent DEFAULT_RECONNECT_BUFFER_BYTES (output_buffer s))) <$> (sessions v !! id).
Definition has_active_terminals (v : PersistentTerminalService) : bool := negb (bool_decide (sessions v = ∅)).

(** [TERMINAL_SERVICES] and [TERMINAL_TASKS]. *)
Record registry := mkRegistry {
  services : gmap string PersistentTerminalService;
  tasks : list Z;
}.
Definition map_size {A} (m : gmap string A) : Z := Z.of_nat (size m).

Definition get_or_create_service (now : Z) (id : string) (persistent specified : bool) (g : registry)
  : result unit string * registry :=
  let known := match services g !! id with Some _ => true | None => false end in
  if negb known && (MAX_SERVICES <=? map_size (services g))
  then (Err "Maximum number of terminal services (100) reached", g)
  else
    let v := default (new_service now id persistent specified) (services g !! id) in
    (Ok tt, mkRegistry (<[id := reset_status persistent v]> (services g)) (tasks g)).

Definition children (m : gmap Z TerminalSession) : list Z :=
  omap (λ kv, (stop kv.2).2) (map_to_list m).

Definition remove_service (id : string) (g : registry) : registry :=
  match services g !! id with
  | Some v => mkRegistry (delete id (services g)) (tasks g ++ children (sessions v))
  | None => g
  end.

Definition expired (now : Z) (v : PersistentTerminalService) : bool :=
  (negb (is_persistent v) && (SERVICE_IDLE_TIMEOUT <? now - last_activity v))
  || (is_persistent v && bool_decide (sessions v = ∅)
      && (SERVICE_IDLE_TIMEOUT * 2 <? now - last_activity v)).
Definition cleanup_inactive_services (now : Z) (g : registry) : registry :=
  let to_remove := map fst (List.filter (λ kv, expired now kv.2) (map_to_list (services g))) in
  foldl (λ g id, remove_service id g) g to_remove.

Inductive wait_result := Exited | Running | WaitError.
(** [try_wait] of every child: the exited ones and the failing ones leave. *)
Fixpoint check_zombie_terminals (try_wait : Z -> wait_result) (ts : list Z) : list Z :=
  match ts with
  | [] => []
  | t :: ts => match try_wait t with
               | Running => t :: check_zombie_terminals try_wait ts
               | Exited | WaitError => check_zombie_terminals try_wait ts
               end
  end.

Definition set_persistent (id : string) (persistent : bool) (g : registry) : result unit string * registry :=
  match services g !! id with
  | Some v => (Ok tt, mkRegistry (<[id := mkService (service_id v) (sessions v) (created_at v)
                (last_activity v) persistent (needs_session_sync v) (is_specified_user v)]> (services g)) (tasks g))
  | None => (Err ("Service " +:+ id +:+ " not found"), g)
  end.

Record TerminalServiceProxy := mkProxy { p_service_id : string; p_persistent : bool }.
Definition new_proxy (id : string) (persistent : option bool) (g : registry) : TerminalServiceProxy :=
  mkProxy id (default (match services g !! id with Some v => is_persistent v | None => false end) persistent).

Definition on_disconnect (p : TerminalServiceProxy) (g : registry) : registry :=
  if negb (p_persistent p) then remove_service (p_service_id p) g else g.

(** *** Actions of the client *)
Record Opened := mkOpened {
  o_terminal_id : Z; o_success : bool; o_message : string; o_pid : Z; o_service_id : string;
  persistent_sessions : list Z;
}.
Inductive response : Type :=
  | RData (terminal_id : Z) (data : list byte) (compressed : bool)
  | RClosed (terminal_id exit_code : Z)
  | ROpened (o : Opened)
  | RError (message : string).

Inductive action : Type :=
  | AOpen (terminal_id rows cols : Z)
  | AResize (terminal_id rows cols : Z)
  | AData (terminal_id : Z) (data : list byte)
  | AClose (terminal_id : Z)
  | AOther.

(** What the PTY library answers when a terminal is created. *)
Record pty_env := mkPty {
  openpty : result unit string;
  spawn_command : result Z string;
  take_writer : result unit string;
  try_clone_reader : result unit string;
  process_id : option Z;
  pty_resize : result unit string;
  kill : result unit string;
  input_send_ok : bool;
}.

Definition min_key (m : gmap Z TerminalSession) : option Z :=
  match (map_to_list m).*1 with [] => None | k :: ks => Some (foldr Z.min k ks) end.

(** The first reconnection takes over the terminal with the lowest id. *)
Definition remap (id : Z) (v : PersistentTerminalService) : PersistentTerminalService :=
  match sessions v !! id with
  | Some _ => v
  | None =>
      if needs_session_sync v && negb (bool_decide (sessions v = ∅)) then
        match min_key (sessions v) with
        | Some lowest =>
            match sessions v !! lowest with
            | Some s => set_sessions (<[id := s]> (delete lowest (sessions v))) v
            | None => v
            end
        | None => v
        end
      else v
  end.

Definition u16 (z : Z) : Z := Int.wrap 16 z.

Definition reconnect (svc_id : string) (id : Z) (s : TerminalSession) (v : PersistentTerminalService)
  : response * PersistentTerminalService :=
  let buffer := get_recent DEFAULT_RECONNECT_BUFFER_BYTES (output_buffer s) in
  let pending := match buffer with [] => None | _ => Some buffer end in
  let s := set_state (Active pending (TempResize MAX_SIGWINCH_PHASE_ATTEMPTS)) s in
  let v := set_sessions (<[id := s]> (sessions v)) v in
  let others := if needs_session_sync v && (1 <? Z.of_nat (size (sessions v)))
                then List.filter (λ k, negb (k =? id)) (map_to_list (sessions v)).*1 else [] in
  (ROpened (mkOpened id true "Reconnected to existing terminal" (pid s) svc_id others), set_sync false v).

Definition open_new (e : pty_env) (now id r c : Z) (v : PersistentTerminalService)
  : result response string * PersistentTerminalService :=
  let s := new_session now id (u16 r) (u16 c) in
  match openpty e with
  | Err x => (Err x, v)
  | Ok _ =>
  match spawn_command e with
  | Err x => (Err x, v)
  | Ok ch =>
  match take_writer e with
  | Err x => (Err x, v)
  | Ok _ =>
  match try_clone_reader e with
  | Err x => (Err x, v)
  | Ok _ =>
      let p := default 0 (process_id e) in
      let s := mkSession now now true (Some ch) (Some []) (Some []) false true true (output_buffer s)
                 (title s) p (rows s) (cols s) false (Active None Idle) in
      let others := if needs_session_sync v then (map_to_list (sessions v)).*1 else [] in
      let o := mkOpened id true "Terminal opened" p (service_id v) others in
      (Ok (ROpened o), set_sessions (<[id := s]> (sessions v)) (set_sync false v))
  end end end end.

Definition handle_open (e : pty_env) (now : Z) (svc_id : string) (id r c : Z)
    (v : PersistentTerminalService) : result (option response) string * PersistentTerminalService :=
  let v := remap id v in
  match sessions v !! id with
  | Some s => let '(resp, v) := reconnect svc_id id s v in (Ok (Some resp), v)
  | None =>
      let '(o, v) := open_new e now id r c v in
      (match o with Ok resp => Ok (Some resp) | Err x => Err x end, v)
  end.

Definition resize_pty (e : pty_env) (s : TerminalSession) : result unit string :=
  if pty_pair s then pty_resize e else Ok tt.
Definition handle_resize (e : pty_env) (now id r c : Z) (v : PersistentTerminalService)
  : result (option response) string * PersistentTerminalService :=
  match sessions v !! id with
  | None => (Ok None, v)
  | Some s =>
      let s := set_size (u16 r) (u16 c) (set_activity now s) in
      (match resize_pty e s with Ok _ => Ok None | Err x => Err x end,
       set_sessions (<[id := s]> (sessions v)) v)
  end.

Definition handle_data (e : pty_env) (now id : Z) (data : list byte) (v : PersistentTerminalService)
  : result (option response) string * PersistentTerminalService :=
  match sessions v !! id with
  | None => (Ok None, v)
  | Some s =>
      let s := set_activity now s in
      let s := match input_tx s with
               | Some q => set_input (Some (if input_send_ok e then q ++ [data] else q)) s
               | None => s
               end in
      (Ok None, set_sessions (<[id := s]> (sessions v)) v)
  end.

(** The result, the service and the child given to the reaper.  The removed
    session is dropped, which stops it. *)
Definition handle_close (e : pty_env) (id : Z) (v : PersistentTerminalService)
  : result (option response) string * PersistentTerminalService * list Z :=
  match sessions v !! id with
  | None => (Ok None, v, [])
  | Some s =>
      let v := set_sessions (delete id (sessions v)) v in
      match child s with
      | Some ch => match kill e with
                   | Err x => (Err x, v, [])
                   | Ok _ => (Ok (Some (RClosed id (-1))), v, [ch])
                   end
      | None => (Ok (Some (RClosed id 0)), v, [])
      end
  end.

Definition handle_action (e : pty_env) (now : Z) (p : TerminalServiceProxy) (a : action) (g : registry)
  : result (option response) string * registry :=
  match services g !! p_service_id p with
  | None => (Ok (Some (RError ("Terminal service " +:+ p_service_id p +:+ " not found"))), g)
  | Some v =>
      let v := set_service_activity now v in
      let '(r, v, reap) :=
        match a with
        | AOpen id r c => let '(x, v) := handle_open e now (p_service_id p) id r c v in (x, v, [])
        | AResize id r c => let '(x, v) := handle_resize e now id r c v in (x, v, [])
        | AData id d => let '(x, v) := handle_data e now id d v in (x, v, [])
        | AClose id => handle_close e id v
        | AOther => (Ok None, v, [])
        end in
      (r, mkRegistry (<[p_service_id p := v]> (services g)) (tasks g ++ reap))
  end.

(** *** Polling the outputs *)
Record poll_env := mkPoll {
  is_finished : Z -> bool;
  busy : Z -> bool;
  resize_ok : Z -> Z -> Z -> bool;
  exit_status : Z -> option Z;
}.

Definition target_rows (rows : Z) (a : SigwinchAction) : Z :=
  match a with
  | ATempResize => if 2 <? rows then Z.max 0 (rows - 1) else Z.min (2 ^ 16 - 1) (rows + 1)
  | ARestore => rows
  end.

(** The result and the resize requests made to the PTY. *)
Definition do_sigwinch_resize (e : poll_env) (id rows cols : Z) (pty : bool) (a : SigwinchAction)
  : bool * list (Z * Z) :=
  if (rows =? 0) || (cols =? 0) then (false, [])
  else if pty then (resize_ok e id (target_rows rows a) cols, [(target_rows rows a, cols)])
  else (false, []).

(** The action due in a phase, with one retry spent. *)
Definition sigwinch_action (p : SigwinchPhase) : option SigwinchAction * SigwinchPhase :=
  match p with
  | TempResize retries => if retries =? 0 then (None, Idle) else (Some ATempResize, TempResize (retries - 1))
  | Restore retries => if retries =? 0 then (None, Idle) else (Some ARestore, Restore (retries - 1))
  | Idle => (None, Idle)
  end.
Definition sigwinch_done (a : SigwinchAction) (ok : bool) (p : SigwinchPhase) : SigwinchPhase :=
  if ok then match a with ATempResize => Restore MAX_SIGWINCH_PHASE_ATTEMPTS | ARestore => Idle end else p.

Section poll.
(** [hbb_common::compress]. *)
Variable compress : list byte -> list byte.

Definition create_terminal_data_response (id : Z) (data : list byte) : response :=
  if COMPRESS_THRESHOLD <? len data then
    let compressed := compress data in
    if len compressed <? len data then RData id compressed true else RData id data false
  else RData id data false.

Fixpoint buffer_all (ds : list (list byte)) (b : OutputBuffer) : option OutputBuffer :=
  match ds with
  | [] => Some b
  | d :: ds => match append d b with Some b => buffer_all ds b | None => None end
  end.

(** One session of one poll: responses, whether its reader just ended, the
    PTY resizes, and the session. *)
Definition poll_session (e : poll_env) (now id : Z) (s : TerminalSession)
  : option (list response * bool * list (Z * Z) * TerminalSession) :=
  let should_send_closed := negb (closed_message_sent s) && reader_thread s && is_finished e id in
  let s := if should_send_closed then set_closed_sent true s else s in
  let received_data := default [] (output_rx s) in
  let s := match output_rx s with Some _ => set_output (Some []) s | None => s end in
  let s := match received_data with [] => s | _ => set_activity now s end in
  match buffer_all received_data (output_buffer s) with
  | None => None
  | Some b =>
      let s := set_buffer b s in
      match state s with
      | Closed => Some ([], should_send_closed, [], s)
      | Active pending_buffer sigwinch =>
          let history := match pending_buffer with
                         | Some (x :: xs) => [create_terminal_data_response id (x :: xs)]
                         | _ => []
                         end in
          let '(act, sigwinch) := sigwinch_action sigwinch in
          let '(sigwinch, resizes) :=
            match act with
            | None => (sigwinch, [])
            | Some a => let '(ok, rs) := do_sigwinch_resize e id (rows s) (cols s) (pty_pair s) a in
                        (sigwinch_done a ok sigwinch, rs)
            end in
          Some (history ++ map (create_terminal_data_response id) received_data,
                should_send_closed, resizes, set_state (Active None sigwinch) s)
      end
  end.

Fixpoint poll_all (e : poll_env) (now : Z) (l : list (Z * TerminalSession))
    (v : PersistentTerminalService) : option (list response * list Z * PersistentTerminalService) :=
  match l with
  | [] => Some ([], [], v)
  | (id, s) :: l =>
      if busy e id then poll_all e now l v else
      match poll_session e now id s with
      | None => None
      | Some (rs, closed, _, s) =>
          match poll_all e now l (set_sessions (<[id := s]> (sessions v)) v) with
          | None => None
          | Some (rs', closed', v) => Some (rs ++ rs', (if closed then [id] else []) ++ closed', v)
          end
      end
  end.

(** The announcement of a terminal whose reader ended: its exit code, the
    service, and the child for the reaper. *)
Definition close_terminal (e : poll_env) (persistent : bool) (id : Z) (v : PersistentTerminalService)
  : response * PersistentTerminalService * list Z :=
  match sessions v !! id with
  | None => (RClosed id 0, v, [])
  | Some s =>
      let code := match child s with Some ch => default 0 (exit_status e ch) | None => 0 end in
      (RClosed id code,
       set_sessions (if persistent then <[id := set_child None s]> (sessions v)
                     else delete id (sessions v)) v,
       match child s with Some ch => [ch] | None => [] end)
  end.
Fixpoint close_all (e : poll_env) (persistent : bool) (ids : list Z) (v : PersistentTerminalService)
  : list response * PersistentTerminalService * list Z :=
  match ids with
  | [] => ([], v, [])
  | id :: ids =>
      let '(r, v, reap) := close_terminal e persistent id v in
      let '(rs, v, reaps) := close_all e persistent ids v in (r :: rs, v, reap ++ reaps)
  end.

Definition read_outputs (e : poll_env) (now : Z) (p : TerminalServiceProxy) (g : registry)
  : option (list response * registry) :=
  match services g !! p_service_id p with
  | None => Some ([], g)
  | Some v =>
      match poll_all e now (map_to_list (sessions v)) v with
      | None => None
      | Some (rs, closed, v) =>
          let '(rs', v, reap) := close_all e (p_persistent p) closed v in
          Some (rs ++ rs', mkRegistry (<[p_service_id p := v]> (services g)) (tasks g ++ reap))
      end
  end.

(** The end of [run]'s loop. *)
Definition run_end (id : string) (g : registry) : registry :=
  match services g !! id with
  | Some v => if negb (is_persistent v) then remove_service id g else g
  | None => g
  end.
End poll.

(** *** Streaming *)
Section stream.
Variable compress decompress : list byte -> list byte.
Hypothesis decompress_compress : forall d, decompress (compress d) = d.

(** What the client shows for a response. *)
Definition payload (r : response) : list byte :=
  match r with RData _ d compressed => if compressed then decompress d else d | _ => [] end.

Lemma payload_data id d : payload (create_terminal_data_response compress id d) = d.
Proof.
  unfold create_terminal_data_response. destruct (_ <? len d); [|done].
  destruct (_ <? len d); simpl; [by apply decompress_compress|done].
Qed.

Lemma payload_all id ds :
  concat (map payload (map (create_terminal_data_response compress id) ds)) = concat ds.
Proof. induction ds as [|d ds IH]; simpl; [done|]. by rewrite payload_data, IH. Qed.

(** The facts about a poll of an active session that the theorems share. *)
Lemma poll_active e now id s pending sw out :
  state s = Active pending sw -> poll_session compress e now id s = Some out ->
  let '(rs, closed, resizes, s') := out in
  concat (map payload rs) = default [] pending ++ concat (default [] (output_rx s))
  /\ output_rx s' = option_map (λ _, []) (output_rx s)
  /\ rows s' = rows s /\ cols s' = cols s /\ pty_pair s' = pty_pair s
  /\ buffer_all (default [] (output_rx s)) (output_buffer s) = Some (output_buffer s')
  /\ let '(act, sw1) := sigwinch_action sw in
     match act with
     | None => resizes = [] /\ state s' = Active None sw1
     | Some a => let '(ok, rz) := do_sigwinch_resize e id (rows s) (cols s) (pty_pair s) a in
                 resizes = rz /\ state s' = Active None (sigwinch_done a ok sw1)
     end.
Proof.
  intros Hst. unfold poll_session.
  set (s1 := if (_ : bool) then set_closed_sent true s else s).
  assert (H1 : state s1 = state s /\ output_rx s1 = output_rx s /\ output_buffer s1 = output_buffer s
    /\ rows s1 = rows s /\ cols s1 = cols s /\ pty_pair s1 = pty_pair s) by (unfold s1; by case_goal).
  destruct H1 as (E1 & E2 & E3 & E4 & E5 & E6). clearbody s1. rewrite E2.
  set (s2 := match default [] (output_rx s) with [] => _ | _ => _ end).
  assert (H2 : state s2 = state s /\ output_rx s2 = option_map (λ _, []) (output_rx s)
    /\ output_buffer s2 = output_buffer s /\ rows s2 = rows s /\ cols s2 = cols s /\ pty_pair s2 = pty_pair s).
  { unfold s2. destruct (output_rx s) as [[|q qs]|]; simpl; repeat split; congruence. }
  destruct H2 as (F1 & F2 & F3 & F4 & F5 & F6). clearbody s2. rewrite F3.
  destruct (buffer_all _ _) as [b|] eqn:Eb; [|done]. simpl. rewrite F1, Hst, F4, F5, F6.
  assert (Hh : concat (map payload (match pending with
      | Some (x :: xs) => [create_terminal_data_response compress id (x :: xs)] | _ => [] end
      ++ map (create_terminal_data_response compress id) (default [] (output_rx s))))
    = default [] pending ++ concat (default [] (output_rx s))).
  { rewrite map_app, concat_app, payload_all. f_equal.
    destruct pending as [[|x xs]|]; simpl; try done. by rewrite payload_data, app_nil_r. }
  destruct (sigwinch_action sw) as [[a|] sw1].
  - destruct (do_sigwinch_resize _ _ _ _ _ a) as [ok rz]. intros [= <-]. simpl.
    split; [exact Hh|]. by rewrite F2, F4, F5, F6.
  - intros [= <-]. simpl. split; [exact Hh|]. by rewrite F2, F4, F5, F6.
Qed.

Lemma buffer_all_appends printed ds b :
  appends printed = Some b -> buffer_all ds b = appends (printed ++ ds).
Proof.
  unfold appends. rewrite foldl_app. intros ->. revert b. induction ds as [|d ds IH]; intros b; [done|].
  simpl. destruct (append d b) as [b'|]; [apply IH|]. clear IH. by induction ds.
Qed.
Lemma poll_returns e now id s b :
  buffer_all (default [] (output_rx s)) (output_buffer s) = Some b ->
  is_Some (poll_session compress e now id s).
Proof.
  intros Hb. unfold poll_session.
  set (s1 := if (_ : bool) then set_closed_sent true s else s).
  assert (E : output_rx s1 = output_rx s /\ output_buffer s1 = output_buffer s) by (unfold s1; by case_goal).
  destruct E as [E1 E2]. clearbody s1. rewrite E1.
  set (s2 := match default [] (output_rx s) with [] => _ | _ => _ end).
  assert (E3 : output_buffer s2 = output_buffer s)
    by (unfold s2; by destruct (output_rx s) as [[|q qs]|]).
  clearbody s2. rewrite E3, Hb. destruct (state _) as [|pb sw]; [by eexists|].
  destruct (sigwinch_action sw) as [[a|] sw1]; [destruct (do_sigwinch_resize _ _ _ _ _ a)|]; by eexists.
Qed.
Lemma appends_return printed ds b :
  Forall (λ c, len c <= MAX_OUTPUT_BUFFER_SIZE) (printed ++ ds) ->
  len (concat (printed ++ ds)) < 2 ^ 61 -> ~ over (text_lines (concat (printed ++ ds))) ->
  appends printed = Some b -> is_Some (appends (printed ++ ds)).
Proof.
  induction ds as [|d ds IH] using rev_ind; intros Hf Hl Ho Hb; [by rewrite app_nil_r, Hb|].
  rewrite app_assoc in *. rewrite (concat_app (printed ++ ds)) in Hl, Ho. simpl in Hl, Ho. rewrite app_nil_r in Hl, Ho.
  apply Forall_app in Hf as [Hf _]. pose proof Hl as Hl'. rewrite len_app in Hl'. pose proof (len_nonneg d).
  destruct IH as [b1 E]; try done; [lia| |].
  { intros Ho1. by apply Ho, over_text. }
  rewrite appends_snoc, E. apply (append_returns (concat (printed ++ ds))); [|done|done].
  apply appends_hold; [done|lia|done].
Qed.

(** C30: a client that reconnects to a terminal sees, with the first poll that
    returns, the newest history and then everything that is in the terminal's
    channel, in order, each byte once: the history it sees is the end of what
    the polls before have read (by whole lines as long as they fit into 8 KiB,
    or the end of the last line), the channel is empty afterwards, and the
    history now holds what was read, too.  The poll returns whenever all of
    that still fits into the history; beyond that the trimming may hang. *)
Theorem reconnect_replays_then_streams e now svc id s v printed :
  Forall (λ c, len c <= MAX_OUTPUT_BUFFER_SIZE) (printed ++ default [] (output_rx s)) ->
  len (concat (printed ++ default [] (output_rx s))) < 2 ^ 61 ->
  appends printed = Some (output_buffer s) ->
  exists s1 history, sessions (reconnect svc id s v).2 !! id = Some s1
    /\ newest DEFAULT_RECONNECT_BUFFER_BYTES (concat printed) history
    /\ (forall rs ended resizes s2,
          poll_session compress e now id s1 = Some (rs, ended, resizes, s2) ->
          concat (map payload rs) = history ++ concat (default [] (output_rx s))
          /\ default [] (output_rx s2) = []
          /\ appends (printed ++ default [] (output_rx s)) = Some (output_buffer s2))
    /\ (~ over (text_lines (concat (printed ++ default [] (output_rx s)))) ->
        is_Some (poll_session compress e now id s1)).
Proof.
  intros Hf Hl Hp. set (history := get_recent DEFAULT_RECONNECT_BUFFER_BYTES (output_buffer s)).
  set (s1 := set_state (Active (match history with [] => None | _ => Some history end)
               (TempResize MAX_SIGWINCH_PHASE_ATTEMPTS)) s).
  exists s1, history. split; [|split; [|split]].
  - unfold reconnect. cbn [snd set_sync set_sessions sessions]. by rewrite lookup_insert_eq.
  - rewrite Forall_app in Hf. rewrite concat_app, len_app in Hl.
    pose proof (len_nonneg (concat (default [] (output_rx s)))).
    apply get_recent_newest; [apply appends_hold; [apply Hf|lia|done]|done].
  - intros rs ended rz s2 H. pose proof (poll_active e now id s1 _ _ _ eq_refl H) as Hpo.
    destruct Hpo as (Hc & Ho & _ & _ & _ & Hb & _). split; [|split; [rewrite Ho; simpl; by destruct (output_rx s)|]].
    + rewrite Hc. f_equal. by destruct history.
    + rewrite <- Hb. symmetry. by apply buffer_all_appends.
  - intros Ho. destruct (appends_return _ _ _ Hf Hl Ho Hp) as [b Hb].
    rewrite <- (buffer_all_appends _ _ _ Hp) in Hb. by apply (poll_returns _ _ _ _ b).
Qed.

(** *** The two-phase resize *)
Fixpoint polls (es : list poll_env) (now id : Z) (s : TerminalSession)
  : option (list (Z * Z) * TerminalSession) :=
  match es with
  | [] => Some ([], s)
  | e :: es =>
      match poll_session compress e now id s with
      | None => None
      | Some (_, _, rz, s) => match polls es now id s with
                              | None => None
                              | Some (rz', s) => Some (rz ++ rz', s)
                              end
      end
  end.

(** Polls left, and resizes left, in a phase. *)
Definition phase_polls (p : SigwinchPhase) : Z :=
  match p with Idle => 0 | Restore r => r + 1 | TempResize r => r + 1 + MAX_SIGWINCH_PHASE_ATTEMPTS end.
Definition phase_resizes (p : SigwinchPhase) : Z :=
  match p with Idle => 0 | Restore r => r | TempResize r => r + MAX_SIGWINCH_PHASE_ATTEMPTS end.
Definition phase_ok (p : SigwinchPhase) : Prop :=
  match p with Idle => True | Restore r | TempResize r => 0 <= r end.

Lemma phase_step sw a sw1 ok : phase_ok sw -> sigwinch_action sw = (a, sw1) ->
  let sw2 := match a with Some a => sigwinch_done a ok sw1 | None => sw1 end in
  phase_ok sw2 /\ (sw <> Idle -> phase_polls sw2 < phase_polls sw) /\ (sw = Idle -> sw2 = Idle)
  /\ phase_resizes sw2 + (match a with Some _ => 1 | None => 0 end) <= phase_resizes sw.
Proof.
  unfold sigwinch_action, MAX_SIGWINCH_PHASE_ATTEMPTS.
  destruct sw as [|r|r]; simpl; intros Hok; [by intros [= <- <-]| |];
    destruct (Z.eqb_spec r 0); intros [= <- <-]; simpl; unfold sigwinch_done, phase_polls, phase_resizes,
      MAX_SIGWINCH_PHASE_ATTEMPTS; try destruct ok; simpl; repeat split; try lia; done.
Qed.

Lemma polls_idle es now id s pending sw rz s' :
  state s = Active pending sw -> phase_ok sw -> polls es now id s = Some (rz, s') ->
  exists pending' sw', state s' = Active pending' sw' /\ phase_ok sw'
    /\ (phase_polls sw <= Z.of_nat (length es) -> sw' = Idle)
    /\ Z.of_nat (length rz) + phase_resizes sw' <= phase_resizes sw
    /\ Forall (λ rc, rc.2 = cols s /\ (rc.1 = rows s \/ rc.1 = target_rows (rows s) ATempResize)) rz.
Proof.
  revert s pending sw rz. induction es as [|e es IH]; intros s pending sw rz Hst Hok; cbn [polls].
  - intros [= <- <-]. exists pending, sw. split; [done|]. split; [done|]. split; [|split; [simpl; lia|constructor]].
    destruct sw; simpl in *; unfold MAX_SIGWINCH_PHASE_ATTEMPTS; [done|lia|lia].
  - destruct (poll_session compress e now id s) as [[[[rs cl] rz1] s1]|] eqn:Ep; [|done].
    pose proof (poll_active e now id s pending sw _ Hst Ep) as (_ & _ & Hr & Hc & _ & _ & Hsw).
    destruct (sigwinch_action sw) as [a sw1] eqn:Ea.
    destruct (polls es now id s1) as [[rz2 s2]|] eqn:E2; [|done]. intros [= <- <-].
    assert (Hx : exists ok, state s1 = Active None (match a with Some a => sigwinch_done a ok sw1 | None => sw1 end)
      /\ Z.of_nat (length rz1) <= (match a with Some _ => 1 | None => 0 end)
      /\ Forall (λ rc, rc.2 = cols s /\ (rc.1 = rows s \/ rc.1 = target_rows (rows s) ATempResize)) rz1).
    { destruct a as [a|].
      - unfold do_sigwinch_resize in Hsw. destruct (_ || _); [|destruct (pty_pair s)];
          destruct Hsw as [-> ->]; eexists; (split; [done|]); simpl; (split; [lia|]);
          first [by constructor | constructor; [split; [done|]; destruct a; simpl; auto | by constructor]].
      - destruct Hsw as [-> ->]. exists true. repeat constructor. simpl. lia. }
    destruct Hx as (ok & Hs1 & Hl1 & Hf1).
    destruct (phase_step sw a sw1 ok Hok Ea) as (Hok2 & Hlt & Hi & Hre).
    destruct (IH s1 _ _ _ Hs1 Hok2 E2) as (p' & sw' & Hst' & Hok' & Hidle & Hlen & Hf2).
    exists p', sw'. split; [done|]. split; [done|]. split.
    + intros Hb. apply Hidle. destruct (decide (sw = Idle)) as [->|Hne].
      * rewrite Hi by done. simpl. lia.
      * specialize (Hlt Hne). simpl length in Hb. lia.
    + rewrite length_app. split; [lia|]. apply Forall_app. split; [done|]. by rewrite Hr, Hc in Hf2.
Qed.

(** The redraw sequence of a reconnection always ends: whatever the PTY
    answers, after seven polls no resize is pending, at most six were asked
    for, and each asked for the session's own size or one row off it. *)
Theorem sigwinch_ends es now id s pending rz s' :
  state s = Active pending (TempResize MAX_SIGWINCH_PHASE_ATTEMPTS) ->
  polls es now id s = Some (rz, s') -> (7 <= length es)%nat ->
  (exists p, state s' = Active p Idle) /\ (length rz <= 6)%nat
  /\ Forall (λ rc, rc.2 = cols s /\ (rc.1 = rows s \/ rc.1 = target_rows (rows s) ATempResize)) rz.
Proof.
  intros Hst Hp Hl.
  destruct (polls_idle es now id s pending _ rz s' Hst ltac:(done) Hp)
    as (p & sw & Hs & Hok & Hi & Hre & Hf).
  unfold phase_polls, phase_resizes, MAX_SIGWINCH_PHASE_ATTEMPTS in *.
  rewrite Hi in * by lia. split; [by exists p|]. split; [lia|done].
Qed.
End stream.

(** *** Reconnecting under another id *)
Lemma foldr_min_in k ks : In (foldr Z.min k ks) (k :: ks) /\ Forall (λ x, foldr Z.min k ks <= x) (k :: ks).
Proof.
  induction ks as [|x ks [IH1 IH2]]; simpl; [split; [by left|repeat constructor; lia]|].
  apply Forall_cons in IH2 as [Hk Hks]. split.
  - destruct (Z.min_spec x (foldr Z.min k ks)) as [[_ ->]|[_ ->]]; [by right; left|].
    destruct IH1 as [<-|IH1]; [by left|by right; right].
  - repeat constructor; try lia. eapply Forall_impl; [exact Hks|]. simpl. lia.
Qed.

Lemma min_key_spec m : m <> ∅ -> exists k s,
  min_key m = Some k /\ m !! k = Some s /\ forall k' s', m !! k' = Some s' -> k <= k'.
Proof.
  intros Hm. unfold min_key. destruct (map_to_list m) as [|[k0 s0] l] eqn:E.
  { by apply map_to_list_empty_iff in E. }
  cbn [fmap list_fmap fst]. destruct (foldr_min_in k0 (l.*1)) as [Hin Hall].
  set (k := foldr Z.min k0 l.*1) in *.
  assert (Hk : In k (map_to_list m).*1) by (by rewrite E).
  apply list_elem_of_In, list_elem_of_fmap in Hk as ([k1 s1] & -> & Hin1).
  apply elem_of_map_to_list in Hin1. exists k1, s1. split; [done|]. split; [done|].
  intros k' s' Hk'. rewrite Forall_forall in Hall. apply Hall.
  apply elem_of_map_to_list in Hk'. rewrite E in Hk'.
  change (k0 :: l.*1) with (((k0, s0) :: l).*1). by apply (list_elem_of_fmap_2 fst _ (k', s')).
Qed.

(** Reconnecting with an id the server does not know takes over the
    surviving terminal with the lowest id: it keeps its process and its
    history, every other terminal stays where it was, the client is told
    exactly the others, and no new terminal is created. *)
Theorem reconnect_takes_lowest e now svc id r c v :
  sessions v !! id = None -> sessions v <> ∅ -> needs_session_sync v = true ->
  exists lowest s resp v',
    sessions v !! lowest = Some s /\ (forall k s', sessions v !! k = Some s' -> lowest <= k)
    /\ handle_open e now svc id r c v = (Ok (Some (ROpened resp)), v')
    /\ o_pid resp = pid s /\ o_success resp = true
    /\ (exists s', sessions v' !! id = Some s' /\ child s' = child s
          /\ output_buffer s' = output_buffer s /\ output_rx s' = output_rx s)
    /\ sessions v' !! lowest = None
    /\ (forall k, k <> id -> k <> lowest -> sessions v' !! k = sessions v !! k)
    /\ (forall k, In k (persistent_sessions resp) <-> k <> id /\ is_Some (sessions v' !! k))
    /\ needs_session_sync v' = false.
Proof.
  intros Hid Hne Hsync. destruct (min_key_spec _ Hne) as (lowest & s & Hm & Hs & Hmin).
  assert (Hl : lowest <> id) by congruence.
  set (m := <[id := s]> (delete lowest (sessions v))).
  assert (Hr : remap id v = set_sessions m v).
  { unfold remap. rewrite Hid, Hsync, Hm, Hs. by rewrite bool_decide_eq_false_2. }
  unfold handle_open. rewrite Hr. cbn [sessions set_sessions]. unfold m at 1.
  rewrite lookup_insert_eq. unfold reconnect.
  cbn [sessions set_sessions needs_session_sync set_sync]. rewrite Hsync.
  set (s' := set_state _ s). set (m' := <[id := s']> m).
  eexists lowest, s, _, _. split; [done|]. split; [done|]. split; [reflexivity|].
  cbn [o_pid o_success persistent_sessions needs_session_sync set_sync sessions set_sessions].
  split; [done|]. split; [done|]. unfold m', m.
  split; [exists s'; rewrite lookup_insert_eq; done|].
  split; [by rewrite !lookup_insert_ne, lookup_delete_eq|].
  split; [intros k H1 H2; by rewrite !lookup_insert_ne, lookup_delete_ne|]. split; [|done].
  fold m. fold m'. intros k. destruct (Z.ltb_spec 1 (Z.of_nat (size m'))) as [Hsz|Hsz]; cbn [andb].
  - rewrite List.filter_In, negb_true_iff, Z.eqb_neq.
    rewrite <- list_elem_of_In, list_elem_of_fmap. split.
    + intros [([k' s2] & -> & Hin) Hk]. apply elem_of_map_to_list in Hin. split; [done|by eexists].
    + intros [Hk [s2 Hk2]]. split; [|done]. exists (k, s2). split; [done|]. by apply elem_of_map_to_list.
  - split; [done|]. intros [Hk [s2 Hk2]]. exfalso.
    assert (Hsub : 2 <= Z.of_nat (size m')); [|lia].
    assert (Hd : delete id m' !! k = Some s2) by (by rewrite lookup_delete_ne).
    assert (H1 : size (delete id m') = Nat.pred (size m')).
    { apply map_size_delete_Some. unfold m'. rewrite lookup_insert_eq. by eexists. }
    assert (H2 : size (delete id m') <> O) by (apply map_size_non_empty_iff; intros He; by rewrite He in Hd).
    lia.
Qed.

(** *** The registry *)
Inductive rop : Type :=
  | RCreate (now : Z) (id : string) (persistent specified : bool)
  | RRemove (id : string)
  | RCleanup (now : Z)
  | RPersist (id : string) (persistent : bool)
  | RAction (e : pty_env) (now : Z) (p : TerminalServiceProxy) (a : action)
  | RPoll (e : poll_env) (now : Z) (p : TerminalServiceProxy)
  | RDisconnect (p : TerminalServiceProxy)
  | RRunEnd (id : string).

Section registry.
Variable compress : list byte -> list byte.

Definition rexec (g : registry) (o : rop) : registry :=
  match o with
  | RCreate now id persistent specified => (get_or_create_service now id persistent specified g).2
  | RRemove id => remove_service id g
  | RCleanup now => cleanup_inactive_services now g
  | RPersist id persistent => (set_persistent id persistent g).2
  | RAction e now p a => (handle_action e now p a g).2
  | RPoll e now p => match read_outputs compress e now p g with Some (_, g) => g | None => g end
  | RDisconnect p => on_disconnect p g
  | RRunEnd id => run_end id g
  end.

Lemma remove_service_size id g : map_size (services (remove_service id g)) <= map_size (services g).
Proof.
  unfold remove_service, map_size. destruct (services g !! id); simpl; [|lia].
  rewrite map_size_delete. destruct (services g !! id); simpl; lia.
Qed.

Lemma foldl_remove_size ids g :
  map_size (services (foldl (λ g id, remove_service id g) g ids)) <= map_size (services g).
Proof.
  revert g. induction ids as [|id ids IH]; intros g; simpl; [lia|].
  specialize (IH (remove_service id g)). pose proof (remove_service_size id g). lia.
Qed.

Lemma insert_known_size id v v' (m : gmap string PersistentTerminalService) :
  m !! id = Some v -> map_size (<[id := v']> m) = map_size m.
Proof. intros H. unfold map_size. rewrite map_size_insert, H. done. Qed.

Lemma rexec_bounded g o :
  map_size (services g) <= MAX_SERVICES -> map_size (services (rexec g o)) <= MAX_SERVICES.
Proof.
  intros H. destruct o; simpl.
  - unfold get_or_create_service. destruct (services g !! id) as [v|] eqn:E; simpl.
    + by erewrite insert_known_size.
    + destruct (Z.leb_spec MAX_SERVICES (map_size (services g))); simpl; [done|].
      unfold map_size in *. rewrite map_size_insert_None by done. lia.
  - pose proof (remove_service_size id g). lia.
  - unfold cleanup_inactive_services. pose proof (foldl_remove_size
      (map fst (List.filter (λ kv, expired now kv.2) (map_to_list (services g)))) g). lia.
  - unfold set_persistent. destruct (services g !! id) eqn:E; simpl; [|done].
    by erewrite insert_known_size.
  - unfold handle_action. destruct (services g !! _) eqn:E; simpl; [|done].
    destruct (match a with AOpen _ _ _ => _ | _ => _ end) as [[r v'] reap]. simpl.
    by erewrite insert_known_size.
  - unfold read_outputs. destruct (services g !! _) eqn:E; simpl; [|done].
    destruct (poll_all _ _ _ _ _) as [[[rs cl] v]|]; [|done].
    destruct (close_all _ _ _ _) as [[rs' v'] reap]. simpl. by erewrite insert_known_size.
  - unfold on_disconnect. pose proof (remove_service_size (p_service_id p) g).
    destruct (negb _); lia.
  - unfold run_end. pose proof (remove_service_size id g).
    destruct (services g !! id); [|done]. destruct (negb _); lia.
Qed.

(** There are never more than 100 terminal services, whatever clients,
    polls, disconnections and clean-ups do; a client of an existing service is
    never refused. *)
Theorem services_bounded ops :
  map_size (services (foldl rexec (mkRegistry ∅ []) ops)) <= MAX_SERVICES
  /\ forall now id persistent specified g v, services g !! id = Some v ->
       is_ok (get_or_create_service now id persistent specified g).1 = true.
Proof.
  split.
  - assert (H : forall g, map_size (services g) <= MAX_SERVICES ->
      map_size (services (foldl rexec g ops)) <= MAX_SERVICES).
    { induction ops as [|o ops IH]; intros g Hg; simpl; [done|]. apply IH. by apply rexec_bounded. }
    by apply H.
  - intros now id persistent specified g v Hv. unfold get_or_create_service. by rewrite Hv.
Qed.
End registry.

(** *** Clean-up *)
Lemma remove_service_lookup id id' g :
  services (remove_service id g) !! id' = if decide (id = id') then None else services g !! id'.
Proof.
  unfold remove_service. destruct (services g !! id) eqn:E; simpl; case_decide as Hd; subst; try done.
  - by rewrite lookup_delete_eq.
  - by rewrite lookup_delete_ne.
Qed.

Lemma foldl_remove_lookup ids id g :
  services (foldl (λ g id, remove_service id g) g ids) !! id
  = if decide (id ∈ ids) then None else services g !! id.
Proof.
  revert g. induction ids as [|i ids IH]; intros g; simpl; [done|].
  rewrite IH, remove_service_lookup. repeat case_decide; try done; set_solver.
Qed.

Lemma remove_service_tasks id g x : In x (tasks g) -> In x (tasks (remove_service id g)).
Proof.
  unfold remove_service. destruct (services g !! id); simpl; [|done].
  intros H. apply in_app_iff. by left.
Qed.
Lemma foldl_remove_tasks ids g x : In x (tasks g) -> In x (tasks (foldl (λ g id, remove_service id g) g ids)).
Proof. revert g. induction ids as [|i ids IH]; intros g; simpl; [done|]. intros H. by apply IH, remove_service_tasks. Qed.

Lemma children_in k s m c : m !! k = Some s -> child s = Some c -> In c (children m).
Proof.
  intros Hk Hc. unfold children. apply list_elem_of_In, list_elem_of_omap. exists (k, s).
  split; [by apply elem_of_map_to_list|]. exact Hc.
Qed.

Lemma foldl_remove_children ids id g v k s c : In id ids ->
  services g !! id = Some v -> sessions v !! k = Some s -> child s = Some c ->
  In c (tasks (foldl (λ g id, remove_service id g) g ids)).
Proof.
  revert g. induction ids as [|i ids IH]; intros g Hin Hv Hk Hc; simpl; [done|].
  destruct (decide (i = id)) as [->|Hne].
  - apply foldl_remove_tasks. unfold remove_service. rewrite Hv. simpl. apply in_app_iff. right.
    by eapply children_in.
  - destruct Hin as [|Hin]; [done|]. apply IH; try done.
    rewrite remove_service_lookup. by case_decide.
Qed.

(** A clean-up removes exactly the expired services (a non-persistent one
    idle for an hour, a persistent one without terminals idle for two), leaves
    every other service untouched, and hands every shell of a removed service
    to the reaper. *)
Theorem cleanup_removes_expired now g id v :
  services g !! id = Some v ->
  services (cleanup_inactive_services now g) !! id = (if expired now v then None else Some v)
  /\ (forall k s c, expired now v = true -> sessions v !! k = Some s -> child s = Some c ->
       In c (tasks (cleanup_inactive_services now g))).
Proof.
  intros Hv. unfold cleanup_inactive_services.
  set (ids := map fst _).
  assert (Hin : In id ids <-> expired now v = true).
  { unfold ids. rewrite in_map_iff. split.
    - intros ([k v'] & <- & Hf). apply List.filter_In in Hf as [Hl He].
      apply list_elem_of_In, elem_of_map_to_list in Hl. simpl in *. congruence.
    - intros He. exists (id, v). split; [done|]. apply List.filter_In. split; [|done].
      by apply list_elem_of_In, elem_of_map_to_list. }
  split.
  - rewrite foldl_remove_lookup. destruct (expired now v).
    + rewrite decide_True; [done|]. by apply list_elem_of_In, Hin.
    + rewrite decide_False; [done|]. intros H. by apply list_elem_of_In, Hin in H.
  - intros k s c He Hk Hc. eapply foldl_remove_children; try done. by apply Hin.
Qed.

(** *** Concrete terminals *)
Definition demo_session : TerminalSession :=
  mkSession 0 0 true (Some 77) (Some []) (Some [[x62; x63]]) false true true
    (mkBuf [[x61; nl]] 2 false) "Terminal 2" 77 24 80 false Closed.
Definition demo_service : PersistentTerminalService :=
  mkService "ts_1" {[2 := demo_session; 5 := demo_session]} 0 0 true true false.
Definition demo_poll : poll_env := mkPoll (λ _, false) (λ _, false) (λ _ _ _, true) (λ _, None).
Definition demo_pty : pty_env := mkPty (Ok tt) (Ok 99) (Ok tt) (Ok tt) (Some 99) (Ok tt) (Ok tt) true.
Definition demo_active : TerminalSession :=
  set_state (Active (Some [x61; nl]) (TempResize MAX_SIGWINCH_PHASE_ATTEMPTS)) demo_session.

Lemma reconnect_replays_then_streams_witness :
  exists s1 history, sessions (reconnect "ts_1" 2 demo_session demo_service).2 !! 2 = Some s1
    /\ newest DEFAULT_RECONNECT_BUFFER_BYTES [x61; nl] history
    /\ (forall rs ended resizes s2,
          poll_session id demo_poll 9 2 s1 = Some (rs, ended, resizes, s2) ->
          concat (map (payload id) rs) = history ++ [x62; x63]
          /\ default [] (output_rx s2) = []
          /\ appends [[x61; nl]; [x62; x63]] = Some (output_buffer s2))
    /\ (~ over (text_lines [x61; nl; x62; x63]) -> is_Some (poll_session id demo_poll 9 2 s1)).
Proof.
  apply (reconnect_replays_then_streams id id (λ _, eq_refl) demo_poll 9 "ts_1" 2
    demo_session demo_service [[x61; nl]]).
  - by repeat constructor; vm_compute.
  - done.
  - vm_compute. reflexivity.
Defined.

Lemma sigwinch_ends_witness :
  exists rz s', polls id (replicate 7 demo_poll) 9 2 demo_active = Some (rz, s')
    /\ exists p, state s' = Active p Idle.
Proof.
  eexists _, _. split; [vm_compute; reflexivity|].
  refine (proj1 (sigwinch_ends id id (λ _, eq_refl) (replicate 7 demo_poll) 9 2 demo_active
    (Some [x61; nl]) _ _ eq_refl _ _)).
  - vm_compute. reflexivity.
  - simpl. lia.
Defined.

Lemma reconnect_takes_lowest_witness :
  exists resp v', handle_open demo_pty 9 "ts_1" 1 24 80 demo_service = (Ok (Some (ROpened resp)), v')
    /\ o_pid resp = 77.
Proof.
  destruct (reconnect_takes_lowest demo_pty 9 "ts_1" 1 24 80 demo_service)
    as (lowest & s & resp & v' & Hs & Hmin & Ho & Hp & _); [reflexivity|discriminate|reflexivity|].
  exists resp, v'. split; [exact Ho|]. rewrite Hp.
  assert (E : forall k x, sessions demo_service !! k = Some x -> pid x = 77).
  { intros k x Hk. unfold demo_service in Hk. simpl in Hk.
    apply lookup_insert_Some in Hk as [[_ <-]|[_ Hk]]; [reflexivity|].
    apply lookup_singleton_Some in Hk as [_ <-]. reflexivity. }
  exact (E _ _ Hs).
Defined.

Lemma services_bounded_witness :
  is_ok (get_or_create_service 5 "ts_1" true false (mkRegistry {["ts_1" := demo_service]} [])).1 = true.
Proof.
  apply (proj2 (services_bounded id [])) with demo_service. reflexivity.
Defined.

Lemma cleanup_removes_expired_witness :
  services (cleanup_inactive_services 8000 (mkRegistry {["ts_1" := demo_service]} [])) !! "ts_1"
  = Some demo_service.
Proof.
  exact (proj1 (cleanup_removes_expired 8000 (mkRegistry {["ts_1" := demo_service]} []) "ts_1"
           demo_service eq_refl)).
Defined.
End Terminal.
