(* ===== verification/LoginFailures.v ===== *)
(** * Login throttling ([check_failure] and [update_failure] of
      [src/src/server/connection.rs])

    Wrong passwords are counted per address and, for IPv6, per /64, /56 and /48
    network.  The keys of the map are texts in the program; here they are the
    address or masked network with its prefix length, which those texts
    determine.  Counters are [i32]. *)

From S2P Require Import Prelude.
#[local] Open Scope Z_scope.

Module Failures.
Inductive ip : Type := V4 (a : Z) | V6 (a : Z).
#[export] Instance ip_eq_dec : EqDecision ip.
Proof. solve_decision. Defined.

(** Version 6?, address or network, prefix length. *)
Definition key : Type := bool * Z * Z.
Definition full_key (i : ip) : key :=
  match i with V4 a => (false, a, 32) | V6 a => (true, a, 128) end.

Definition mask_u128 (addr prefix : Z) : Z :=
  let mask := if (prefix =? 0) || (128 <? prefix) then 0
              else Int.wrap 128 (Z.shiftl (2 ^ 128 - 1) (128 - prefix)) in
  Z.land addr mask.
Definition get_ipv6_prefixes (i : ip) : option (key * key * key) :=
  match i with
  | V4 _ => None
  | V6 a => Some ((true, mask_u128 a 64, 64), (true, mask_u128 a 56, 56), (true, mask_u128 a 48, 48))
  end.

(** The minute of the last failure, the failures in it, and all failures. *)
Definition counts : Type := Z * Z * Z.
Abbreviation fmap := (gmap key counts).
Definition i32 (z : Z) : Z := Int.to_signed 32 z.
Definition lookup0 (k : key) (m : fmap) : counts := default (0, 0, 0) (m !! k).

Definition bump (cur : counts) (time : Z) : counts :=
  let '(c0, c1, c2) := cur in
  if c0 =? time then (c0, i32 (c1 + 1), i32 (c2 + 1)) else (time, 1, i32 (c2 + 1)).

Definition update_failure (failure : counts) (time : Z) (remove : bool) (i : ip) (m : fmap) : fmap :=
  if remove then
    if negb (failure.1.1 =? 0) then
      match get_ipv6_prefixes i with
      | Some (p64, p56, p48) => delete (full_key i) (delete p48 (delete p56 (delete p64 m)))
      | None => delete (full_key i) m
      end
    else m
  else
    match get_ipv6_prefixes i with
    | Some (p64, p56, p48) =>
        let one m k := <[k := bump (lookup0 k m) time]> m in
        <[full_key i := bump failure time]> (foldl one m [p64; p56; p48])
    | None => <[full_key i := bump failure time]> m
    end.

Inductive refusal : Type :=
  | IPv6Prefix (prefix_num : Z)
  | ThirtyAttempts
  | WithinOneMinute.

Definition check_failure_ipv6_prefix (prefix : key) (thresh : Z) (m : fmap) : option counts :=
  let failure_prefix := lookup0 prefix m in
  if thresh <? failure_prefix.2 then Some failure_prefix else None.

(** The verdict on the address's own counts. *)
Definition own_refusal (time : Z) (failure : counts) : option refusal :=
  if 30 <? failure.2 then Some ThirtyAttempts
  else if (time =? failure.1.1) && (6 <? failure.1.2) then Some WithinOneMinute
  else None.

(** The counts and the minute for [update_failure], and why the attempt is
    refused, if it is. *)
Definition check_failure (now_ms : Z) (i : ip) (m : fmap) : counts * Z * option refusal :=
  let time := i32 (now_ms / 60000) in
  let own :=
    let failure := lookup0 (full_key i) m in (failure, time, own_refusal time failure) in
  match get_ipv6_prefixes i with
  | None => own
  | Some (p64, p56, p48) =>
      match check_failure_ipv6_prefix p64 60 m with
      | Some f => (f, time, Some (IPv6Prefix 64))
      | None =>
      match check_failure_ipv6_prefix p56 80 m with
      | Some f => (f, time, Some (IPv6Prefix 56))
      | None =>
      match check_failure_ipv6_prefix p48 100 m with
      | Some f => (f, time, Some (IPv6Prefix 48))
      | None => own
      end end end
  end.

(** One login with a password: refused, or evaluated and counted. *)
Record attempt := mkAttempt { a_ms : Z; a_ip : ip; a_ok : bool }.
Definition a_time (a : attempt) : Z := i32 (a_ms a / 60000).
Definition try_login (a : attempt) (m : fmap) : bool * fmap :=
  let '(f, t, refused) := check_failure (a_ms a) (a_ip a) m in
  match refused with
  | Some _ => (false, m)
  | None => (true, update_failure f t (a_ok a) (a_ip a) m)
  end.

(** *** Small counters *)
Lemma i32_small z : 0 <= z < 2 ^ 31 -> i32 z = z.
Proof.
  intros H. unfold i32, Int.to_signed, Int.wrap. change (2 ^ (32 - 1)) with (2 ^ 31).
  rewrite Z.mod_small by lia. destruct (Z.ltb_spec z (2 ^ 31)); lia.
Qed.
End Failures.

(** *** Logins of several connections

    [check_failure] takes the lock of the counters once for every prefix and
    once for the address, [update_failure] takes it again, after the password
    was evaluated, with the counts that were read before.  In between, other
    connections go on.  A login in flight is at one of the five places where it
    takes the lock. *)
Module Race.
Import Failures.

Inductive stage : Type := Prefix64 | Prefix56 | Prefix48 | Own | Count (failure : counts).
Record flight := mkFlight { f_attempt : attempt; f_stage : stage }.
Definition start (a : attempt) : flight :=
  mkFlight a (match get_ipv6_prefixes (a_ip a) with Some _ => Prefix64 | None => Own end).

(** The counters after the next section under the lock, the login if it goes
    on, and whether its password is evaluated then. *)
Definition advance (f : flight) (m : fmap) : fmap * option flight * bool :=
  let a := f_attempt f in
  let prefix (key : key) (thresh : Z) (s : stage) :=
    match check_failure_ipv6_prefix key thresh m with
    | Some _ => (m, None, false)
    | None => (m, Some (mkFlight a s), false)
    end in
  let own :=
    let failure := lookup0 (full_key (a_ip a)) m in
    match own_refusal (a_time a) failure with
    | Some _ => (m, None, false)
    | None => (m, Some (mkFlight a (Count failure)), true)
    end in
  match f_stage f, get_ipv6_prefixes (a_ip a) with
  | Prefix64, Some (p64, _, _) => prefix p64 60 Prefix56
  | Prefix56, Some (_, p56, _) => prefix p56 80 Prefix48
  | Prefix48, Some (_, _, p48) => prefix p48 100 Own
  | Count failure, _ => (update_failure failure (a_time a) (a_ok a) (a_ip a) m, None, false)
  | _, _ => own
  end.

Record race := mkRace { table : fmap; flights : list flight; guessed : list attempt }.
Inductive event : Type :=
  | Begin (a : attempt)               (** a login comes in *)
  | Go (n : nat).                     (** the [n]-th login in flight goes on *)
Definition step (s : race) (ev : event) : race :=
  match ev with
  | Begin a => mkRace (table s) (flights s ++ [start a]) (guessed s)
  | Go n =>
      match flights s !! n with
      | None => s
      | Some f =>
          let '(m, r, evaluated) := advance f (table s) in
          mkRace m (take n (flights s) ++ option_list r ++ drop (S n) (flights s))
            (if evaluated then guessed s ++ [f_attempt f] else guessed s)
      end
  end.
Definition run (l : list event) : race := foldl step (mkRace ∅ [] []) l.

(** A login that nothing comes between is [check_failure] and [update_failure]. *)
Lemma go_alone f m g : step (mkRace m [f] g) (Go 0)
  = mkRace (advance f m).1.1 (option_list (advance f m).1.2)
      (if (advance f m).2 then g ++ [f_attempt f] else g).
Proof. cbn [step flights table guessed lookup list_lookup]. destruct (advance f m) as [[m' r] b]. simpl. by rewrite app_nil_r. Qed.
Lemma go_none n m g : foldl step (mkRace m [] g) (repeat (Go 0) n) = mkRace m [] g.
Proof. by induction n. Qed.
Lemma own_alone a m g n : foldl step (mkRace m [mkFlight a Own] g) (Go 0 :: Go 0 :: repeat (Go 0) n)
  = let failure := lookup0 (full_key (a_ip a)) m in
    match own_refusal (a_time a) failure with
    | Some _ => mkRace m [] g
    | None => mkRace (update_failure failure (a_time a) (a_ok a) (a_ip a) m) [] (g ++ [a])
    end.
Proof.
  change (foldl step ?s (?a :: ?b :: ?l)) with (foldl step (step (step s a) b) l).
  rewrite go_alone. unfold advance. cbn [f_stage f_attempt].
  set (c := lookup0 (full_key (a_ip a)) m). cbv zeta.
  destruct (own_refusal (a_time a) c); simpl option_list; cbn [fst snd].
  - apply (go_none (Datatypes.S n)).
  - rewrite go_alone. unfold advance. cbn [f_stage f_attempt fst snd]. apply go_none.
Qed.
Lemma prefix_alone key thresh s0 s1 a m g l :
  advance (mkFlight a s0) m = match check_failure_ipv6_prefix key thresh m with
                              | Some _ => (m, None, false)
                              | None => (m, Some (mkFlight a s1), false)
                              end ->
  foldl step (mkRace m [mkFlight a s0] g) (Go 0 :: l)
  = match check_failure_ipv6_prefix key thresh m with
    | Some _ => foldl step (mkRace m [] g) l
    | None => foldl step (mkRace m [mkFlight a s1] g) l
    end.
Proof. intros H. cbn [foldl]. rewrite go_alone, H. by destruct (check_failure_ipv6_prefix key thresh m). Qed.
Lemma uninterrupted a m g :
  foldl step (mkRace m [] g) (Begin a :: repeat (Go 0) 5)
  = mkRace (try_login a m).2 [] (if (try_login a m).1 then g ++ [a] else g).
Proof.
  change (foldl step (mkRace m [] g) (Begin a :: repeat (Go 0) 5))
    with (foldl step (mkRace m [start a] g) (repeat (Go 0) 5)).
  unfold try_login, check_failure, start. fold (a_time a). cbn [repeat].
  destruct (get_ipv6_prefixes (a_ip a)) as [[[p64 p56] p48]|] eqn:Ep.
  - rewrite (prefix_alone p64 60 Prefix64 Prefix56) by (unfold advance; cbn [f_stage f_attempt]; by rewrite Ep).
    destruct (check_failure_ipv6_prefix p64 60 m); [apply (go_none 4)|].
    rewrite (prefix_alone p56 80 Prefix56 Prefix48) by (unfold advance; cbn [f_stage f_attempt]; by rewrite Ep).
    destruct (check_failure_ipv6_prefix p56 80 m); [apply (go_none 3)|].
    rewrite (prefix_alone p48 100 Prefix48 Own) by (unfold advance; cbn [f_stage f_attempt]; by rewrite Ep).
    destruct (check_failure_ipv6_prefix p48 100 m); [apply (go_none 2)|].
    etrans; [apply (own_alone a m g 0)|]. cbv zeta. by case_match.
  - etrans; [apply (own_alone a m g 3)|]. cbv zeta. by case_match.
Qed.

(** *** Counting *)
Lemma bump_total c t : 0 <= c.2 < 2 ^ 31 - 1 -> (bump c t).2 = c.2 + 1.
Proof. destruct c as [[c0 c1] c2]. simpl. intros H. destruct (c0 =? t); simpl; apply i32_small; lia. Qed.

(** The network /64 of an address, as a key. *)
Definition net64 (a : Z) : key := (true, mask_u128 a 64, 64).

Definition in_net (p : key) (i : ip) : Prop := match i with V6 a => net64 a = p | V4 _ => False end.
#[export] Instance in_net_dec p i : Decision (in_net p i).
Proof. unfold in_net. destruct i; apply _. Defined.

Lemma lookup0_insert k v m : lookup0 k (<[k := v]> m) = v.
Proof. unfold lookup0. by rewrite lookup_insert_eq. Qed.
Lemma lookup0_insert_ne k k' v m : k <> k' -> lookup0 k' (<[k := v]> m) = lookup0 k' m.
Proof. intros H. unfold lookup0. by rewrite lookup_insert_ne. Qed.
Lemma lookup0_delete_ne k k' m : k <> k' -> lookup0 k' (delete k m) = lookup0 k' m.
Proof. intros H. unfold lookup0. by rewrite lookup_delete_ne. Qed.

(** What counting a login does to the counter of a key. *)
Lemma update_v4 f t ok i m x : ok = false \/ i <> V4 x ->
  lookup0 (full_key (V4 x)) (update_failure f t ok i m)
  = if decide (i = V4 x) then bump f t else lookup0 (full_key (V4 x)) m.
Proof.
  intros H. unfold update_failure. destruct i as [y|y]; cbn [get_ipv6_prefixes foldl].
  - destruct (decide (V4 y = V4 x)) as [[= ->]|Hne].
    + destruct H as [-> |?]; [|done]. by rewrite lookup0_insert.
    + assert (Hk : full_key (V4 y) <> full_key (V4 x)) by (intros [= ->]; done).
      destruct ok; [destruct (negb _); [by rewrite lookup0_delete_ne|done]|by rewrite lookup0_insert_ne].
  - rewrite decide_False by done. destruct ok; [destruct (negb _); [|done]|];
      by rewrite ?lookup0_delete_ne, ?lookup0_insert_ne.
Qed.

Lemma update_net f t ok i m x : ok = false \/ ~ in_net (net64 x) i ->
  lookup0 (net64 x) (update_failure f t ok i m)
  = if decide (in_net (net64 x) i) then bump (lookup0 (net64 x) m) t else lookup0 (net64 x) m.
Proof.
  intros H. unfold update_failure. destruct i as [y|y]; cbn [get_ipv6_prefixes foldl in_net].
  - rewrite decide_False by (by intros []). destruct ok; [destruct (negb _); [|done]|];
      by rewrite ?lookup0_delete_ne, ?lookup0_insert_ne.
  - fold (net64 y). cbn [in_net] in H. destruct (decide (net64 y = net64 x)) as [He|He].
    + destruct H as [-> |?]; [|done]. rewrite <- He, !(lookup0_insert_ne _ (net64 y)) by done. by rewrite lookup0_insert.
    + destruct ok.
      * destruct (negb _); [|done]. by rewrite !lookup0_delete_ne by (done || (intros E; by apply He)).
      * by rewrite !lookup0_insert_ne by (done || (intros E; by apply He)).
Qed.

Definition from (x : Z) (a : attempt) : bool := bool_decide (a_ip a = V4 x).
Definition from_net (p : key) (a : attempt) : bool := bool_decide (in_net p (a_ip a)).
Definition countZ {A} (p : A -> bool) (l : list A) : Z := Z.of_nat (length (List.filter p l)).

Lemma countZ_app {A} (p : A -> bool) l k : countZ p (l ++ k) = countZ p l + countZ p k.
Proof. unfold countZ. rewrite List.filter_app, length_app. lia. Qed.
Lemma countZ_one {A} (p : A -> bool) a : countZ p [a] = if p a then 1 else 0.
Proof. unfold countZ. simpl. by destruct (p a). Qed.
Lemma countZ_cons {A} (p : A -> bool) a l : countZ p (a :: l) = (if p a then 1 else 0) + countZ p l.
Proof. by rewrite <- countZ_one, <- countZ_app. Qed.
Lemma countZ_nil {A} (p : A -> bool) : countZ p [] = 0.
Proof. done. Qed.
Lemma countZ_none {A} (p : A -> bool) l a : countZ p l <= 0 -> In a l -> p a = false.
Proof.
  intros H Ha. destruct (p a) eqn:E; [|done]. assert (Hin : In a (List.filter p l)) by by apply List.filter_In.
  unfold countZ in H. destruct (List.filter p l); [done|simpl in H; lia].
Qed.
Lemma countZ_nonneg {A} (p : A -> bool) l : 0 <= countZ p l.
Proof. unfold countZ. lia. Qed.
Lemma countZ_cut {A} (p : A -> bool) l n f : l !! n = Some f ->
  countZ p l = countZ p (take n l) + (if p f then 1 else 0) + countZ p (drop (S n) l).
Proof. intros H. rewrite <- (take_drop_middle l n f H) at 1. rewrite cons_middle, !countZ_app, countZ_one. lia. Qed.
Lemma countZ_le {A} (p q : A -> bool) l : (forall a, p a = true -> q a = true) -> countZ p l <= countZ q l.
Proof.
  intros H. induction l as [|a l IH]; [done|]. change (a :: l) with ([a] ++ l). rewrite !countZ_app, !countZ_one.
  specialize (H a). destruct (p a), (q a); lia || by destruct (H eq_refl).
Qed.

(** The logins of [p] that are in flight; there are never more than [k]. *)
Definition at_once (p : attempt -> bool) (k : Z) (l : list event) : Prop :=
  forall l1 l2, l = l1 ++ l2 -> countZ (λ f, p (f_attempt f)) (flights (run l1)) <= k.
Definition begun (l : list event) : list attempt := omap (λ ev, match ev with Begin a => Some a | Go _ => None end) l.
Definition counting (p : attempt -> bool) (f : flight) : bool :=
  p (f_attempt f) && match f_stage f with Count _ => true | _ => false end.

Lemma run_snoc l ev : run (l ++ [ev]) = step (run l) ev.
Proof. unfold run. by rewrite foldl_app. Qed.
Lemma at_once_snoc p k l ev : at_once p k (l ++ [ev]) -> at_once p k l.
Proof. intros H l1 l2 ->. apply (H l1 (l2 ++ [ev])). by rewrite app_assoc. Qed.
Lemma at_once_now p k l : at_once p k l -> countZ (λ f, p (f_attempt f)) (flights (run l)) <= k.
Proof. intros H. apply (H l []). by rewrite app_nil_r. Qed.

(** Every login in flight has begun. *)
Lemma advance_attempt f m m' g b : advance f m = (m', Some g, b) -> f_attempt g = f_attempt f.
Proof. unfold advance. repeat case_match; intros; by simplify_eq/=. Qed.
Lemma flights_begun l f : In f (flights (run l)) -> In (f_attempt f) (begun l).
Proof.
  revert f. induction l as [|ev l IH] using rev_ind; intros f; [done|]. rewrite run_snoc.
  unfold begun. rewrite omap_app, in_app_iff. fold (begun l). destruct ev as [a|n]; simpl.
  - intros [H|[<-|[]]]%in_app_iff; [left; by apply IH|by right; left].
  - left. destruct (flights (run l) !! n) as [f0|] eqn:E; [|by apply IH]. revert H.
    destruct (advance f0 (table (run l))) as [[m r] b] eqn:Ea. simpl.
    assert (H0 : In (f_attempt f0) (begun l)) by (apply IH; by eapply list_elem_of_In, list_elem_of_lookup_2).
    intros [H|[H|H]%in_app_iff]%in_app_iff.
    + apply IH. rewrite <- (take_drop n (flights (run l))). apply in_app_iff. by left.
    + destruct r as [g|]; [|done]. destruct H as [<-|[]]. by rewrite (advance_attempt _ _ _ _ _ Ea).
    + apply IH. rewrite <- (take_drop (S n) (flights (run l))). apply in_app_iff. by right.
Qed.

(** *** A network: its counter is raised under one lock *)
Definition past64 (p : key) (f : flight) : bool :=
  from_net p (f_attempt f) && match f_stage f with Prefix64 => false | _ => true end.

Lemma net_inv y k l : let p := net64 y in 1 <= k <= 2 ^ 30 ->
  (forall a, In a (begun l) -> in_net p (a_ip a) -> a_ok a = false) ->
  at_once (from_net p) k l ->
  let s := run l in
  0 <= (lookup0 p (table s)).2
  /\ (lookup0 p (table s)).2 + countZ (past64 p) (flights s) <= 60 + k
  /\ countZ (from_net p) (guessed s) = (lookup0 p (table s)).2 + countZ (counting (from_net p)) (flights s).
Proof.
  cbv zeta. intros Hk. induction l as [|ev l IH] using rev_ind; intros Hl Hc.
  { change (lookup0 (net64 y) (table (run []))) with (lookup0 (net64 y) ∅). unfold lookup0. rewrite lookup_empty.
    unfold countZ. simpl. lia. }
  assert (Hl' : forall a, In a (begun l) -> in_net (net64 y) (a_ip a) -> a_ok a = false).
  { intros a Ha. apply Hl. unfold begun. rewrite omap_app. apply in_app_iff. by left. }
  pose proof (at_once_now _ _ _ (at_once_snoc _ _ _ _ Hc)) as Hn.
  destruct (IH Hl' (at_once_snoc _ _ _ _ Hc)) as (I0 & I1 & I2). clear IH Hc Hl.
  rewrite run_snoc. pose proof (flights_begun l) as Hb. set (s := run l) in *. clearbody s.
  destruct ev as [a|n]; simpl.
  { rewrite !countZ_app, !countZ_one. unfold past64 at 2, counting at 2, start. simpl.
    destruct (from_net (net64 y) a) eqn:Ea; simpl; [|lia]. unfold from_net in Ea.
    apply bool_decide_eq_true in Ea. destruct (a_ip a); [done|]. simpl. lia. }
  destruct (flights s !! n) as [f|] eqn:Ef; [|done].
  assert (Hw : in_net (net64 y) (a_ip (f_attempt f)) -> a_ok (f_attempt f) = false).
  { apply Hl', Hb. by eapply list_elem_of_In, list_elem_of_lookup_2. }
  rewrite (countZ_cut _ _ _ _ Ef) in I1. rewrite (countZ_cut _ _ _ _ Ef) in I2. rewrite (countZ_cut _ _ _ _ Ef) in Hn.

  pose proof (countZ_le (past64 (net64 y)) (λ f, from_net (net64 y) (f_attempt f)) (take n (flights s))) as L1.
  pose proof (countZ_le (past64 (net64 y)) (λ f, from_net (net64 y) (f_attempt f)) (drop (S n) (flights s))) as L2.
  specialize (L1 ltac:(by intros g [? _]%andb_prop)). specialize (L2 ltac:(by intros g [? _]%andb_prop)).
  pose proof (countZ_nonneg (past64 (net64 y)) (take n (flights s))).
  pose proof (countZ_nonneg (past64 (net64 y)) (drop (S n) (flights s))).
  destruct f as [a st]. cbn [f_attempt f_stage] in *.
  unfold advance. cbn [f_attempt f_stage].
  destruct (decide (in_net (net64 y) (a_ip a))) as [Hin|Hin].
  - assert (Ha : from_net (net64 y) a = true) by by apply bool_decide_eq_true_2.
    assert (P : forall st, past64 (net64 y) (mkFlight a st) = match st with Prefix64 => false | _ => true end)
      by (intros u; unfold past64; cbn [f_attempt f_stage]; by rewrite Ha).
    assert (C : forall st, counting (from_net (net64 y)) (mkFlight a st) = match st with Count _ => true | _ => false end)
      by (intros u; unfold counting; cbn [f_attempt f_stage]; by rewrite Ha).
    rewrite Ha, ?P, ?C in *. destruct (a_ip a) as [z|z] eqn:Ei; [done|]. cbn [get_ipv6_prefixes].
    cbn [in_net] in Hin. fold (net64 z). rewrite Hin.
    destruct st as [| | | |c]; unfold check_failure_ipv6_prefix;
      [destruct (60 <? _) eqn:E60|destruct (80 <? _)|destruct (100 <? _)|destruct (own_refusal _ _)|];
      simpl; rewrite ?countZ_app, ?countZ_cons, ?countZ_nil, ?P, ?C, ?Ha; bool_prop; try lia.
    rewrite update_net by (left; by apply Hw). cbn [in_net]. rewrite decide_True by done.
    rewrite bump_total by lia. lia.
  - assert (Ha : from_net (net64 y) a = false) by by apply bool_decide_eq_false_2.
    assert (P : forall st, past64 (net64 y) (mkFlight a st) = false)
      by (intros u; unfold past64; cbn [f_attempt f_stage]; by rewrite Ha).
    assert (C : forall st, counting (from_net (net64 y)) (mkFlight a st) = false)
      by (intros u; unfold counting; cbn [f_attempt f_stage]; by rewrite Ha).
    rewrite Ha, ?P, ?C in *.
    assert (Hu : forall c, lookup0 (net64 y) (update_failure c (a_time a) (a_ok a) (a_ip a) (table s))
      = lookup0 (net64 y) (table s)) by (intros c; rewrite update_net by auto; by rewrite decide_False by done).
    repeat case_match; simplify_eq/=; rewrite ?Hu, ?countZ_app, ?countZ_cons, ?countZ_nil, ?P, ?C, ?Ha; try lia.
Qed.

(** *** An address: its counter is raised from a copy, so one login at a time *)
Section one_address.
Context (x : Z) (mu : counts -> Z) (N : Z) (timely : Z -> Prop).
Hypothesis N_nonneg : 0 <= N.
Hypothesis mu_none : mu (0, 0, 0) = 0.
Hypothesis mu_own : forall c t, timely t -> own_refusal t c = None -> 0 <= mu c -> mu c <= N - 1.
Hypothesis mu_bump : forall c t, timely t -> 0 <= mu c <= N - 1 -> mu (bump c t) = mu c + 1.

Definition mine (f : flight) : bool := from x (f_attempt f).
Definition own_counts (s : race) : counts := lookup0 (full_key (V4 x)) (table s).
Definition counted_ok (s : race) : Prop :=
  0 <= mu (own_counts s)
  /\ mu (own_counts s) + countZ (counting (from x)) (flights s) <= N
  /\ countZ (from x) (guessed s) = mu (own_counts s) + countZ (counting (from x)) (flights s)
  /\ forall f c, In f (flights s) -> mine f = true -> f_stage f = Count c -> c = own_counts s.

Lemma counting_mine a st : from x a = true ->
  counting (from x) (mkFlight a st) = match st with Count _ => true | _ => false end.
Proof. intros H. unfold counting. cbn [f_attempt f_stage]. by rewrite H. Qed.
Lemma counting_other f : mine f = false -> counting (from x) f = false.
Proof. intros H. unfold counting. fold (mine f). by rewrite H. Qed.
Lemma counting_none l : countZ mine l <= 0 -> countZ (counting (from x)) l = 0.
Proof.
  intros H. pose proof (countZ_le (counting (from x)) mine l ltac:(by intros f [? _]%andb_prop)).
  pose proof (countZ_nonneg (counting (from x)) l). lia.
Qed.

Lemma counted_begin a s : counted_ok s -> counted_ok (step s (Begin a)).
Proof.
  intros (I0 & I1 & I2 & I3). unfold counted_ok, own_counts in *. cbn [step table flights guessed].
  assert (Hs : forall c, f_stage (start a) <> Count c) by (intros c; unfold start; cbn [f_stage]; by case_match).
  rewrite countZ_app, countZ_one. replace (counting (from x) (start a)) with false.
  - split_and!; [done|lia|lia|]. intros f c [Hf|[<-|[]]]%in_app_iff Hx Hf'; [by eapply I3|by apply Hs in Hf'].
  - unfold counting. destruct (f_stage (start a)) eqn:E; rewrite ?andb_false_r; try done. by destruct (Hs failure).
Qed.

(** The only login of the address in flight goes on. *)
Lemma counted_mine l1 a st l2 m g : let s := mkRace m (l1 ++ mkFlight a st :: l2) g in
  a_ip a = V4 x -> a_ok a = false -> timely (a_time a) -> countZ mine (flights s) <= 1 -> counted_ok s ->
  let '(m', r, b) := advance (mkFlight a st) m in
  counted_ok (mkRace m' (l1 ++ option_list r ++ l2) (if b then g ++ [a] else g)).
Proof.
  cbv zeta. intros Hx Hok Ht Hn (I0 & I1 & I2 & I3). unfold counted_ok, own_counts in *. cbn [table flights guessed] in *.
  assert (Ha : from x a = true) by by apply bool_decide_eq_true_2.
  rewrite countZ_app, countZ_cons in Hn. change (mine (mkFlight a st)) with (from x a) in Hn. rewrite Ha in Hn.
  pose proof (countZ_nonneg mine l1). pose proof (countZ_nonneg mine l2).
  assert (Z1 : countZ (counting (from x)) l1 = 0) by (apply counting_none; lia).
  assert (Z2 : countZ (counting (from x)) l2 = 0) by (apply counting_none; lia).
  assert (Alone : forall f, In f l1 \/ In f l2 -> mine f <> true).
  { intros f [Hf|Hf] E; eapply (countZ_none mine) in Hf; try lia; congruence. }
  rewrite countZ_app, countZ_cons, counting_mine, Z1, Z2 in I1, I2 by done.
  set (c := lookup0 (full_key (V4 x)) m) in *.
  assert (Count_case : forall c0, st = Count c0 -> counted_ok (mkRace
    (update_failure c0 (a_time a) (a_ok a) (a_ip a) m) (l1 ++ l2) g)).
  { intros c0 ->. assert (c0 = c) as ->.
    { apply (I3 (mkFlight a (Count c0))); [apply in_app_iff; right; by left|done|done]. }
    unfold counted_ok, own_counts. cbn [table flights guessed].
    rewrite update_v4, decide_True, mu_bump, countZ_app, Z1, Z2 by (done || lia || by left).
    split_and!; [lia|lia|lia|]. intros f c' Hf Hm. apply in_app_iff in Hf. by apply Alone in Hm. }
  unfold advance. cbn [f_attempt f_stage]. rewrite Hx in *. cbn [get_ipv6_prefixes] in *. fold c.
  destruct st as [| | | |c0]; [..|by apply Count_case]; cbv iota in I1, I2;
    (destruct (own_refusal (a_time a) c) eqn:Eo; unfold counted_ok, own_counts; cbn [table flights guessed]; fold c;
     [simpl option_list; rewrite app_nil_l, countZ_app, Z1, Z2; split_and!; try lia; intros f c' Hf Hm; apply in_app_iff in Hf; by apply Alone in Hm|]);
    (pose proof (mu_own c _ Ht Eo I0); rewrite !countZ_app, countZ_one, Ha, Z1; simpl option_list;
     rewrite countZ_one, counting_mine, Z2 by done; split_and!; try lia;
     intros f c' [Hf|[<-|Hf]]%in_app_iff Hm; [by destruct (Alone f); auto|by intros [= <-]|by destruct (Alone f); auto]).
Qed.

(** Another address's login goes on. *)
Lemma counted_other l1 f l2 m g : let s := mkRace m (l1 ++ f :: l2) g in
  mine f = false -> counted_ok s ->
  let '(m', r, b) := advance f m in
  counted_ok (mkRace m' (l1 ++ option_list r ++ l2) (if b then g ++ [f_attempt f] else g)).
Proof.
  cbv zeta. intros Ha (I0 & I1 & I2 & I3). unfold counted_ok, own_counts in *. cbn [table flights guessed] in *.
  rewrite countZ_app, countZ_cons, counting_other in I1, I2 by done.
  assert (Hne : a_ip (f_attempt f) <> V4 x) by (unfold mine, from in Ha; by apply bool_decide_eq_false in Ha).
  destruct (advance f m) as [[m' r] b] eqn:Eadv. cbn [table flights guessed].
  assert (Hm : lookup0 (full_key (V4 x)) m' = lookup0 (full_key (V4 x)) m
    /\ match r with Some f' => f_attempt f' = f_attempt f | None => True end).
  { revert Eadv. unfold advance. repeat case_match; intros; simplify_eq/=; auto.
    split; [|done]. change (false, x, 32) with (full_key (V4 x)). rewrite update_v4 by auto. by rewrite decide_False by done. }
  destruct Hm as [-> Hr].
  replace (countZ (from x) (if b then g ++ [f_attempt f] else g)) with (countZ (from x) g)
    by (destruct b; [|done]; rewrite countZ_app, countZ_one; fold (mine f); rewrite Ha; lia).
  assert (Hr0 : countZ (counting (from x)) (option_list r) = 0).
  { destruct r as [f'|]; [|done]. simpl option_list. rewrite countZ_one, counting_other; [done|]. unfold mine. by rewrite Hr. }
  rewrite !countZ_app, Hr0. split_and!; [done|lia|lia|].
  intros f' c' [Hf|[Hf|Hf]%in_app_iff]%in_app_iff Hx Hs.
  - apply (I3 f'); [apply in_app_iff; by left|done|done].
  - destruct r as [f0|]; [|done]. destruct Hf as [<-|[]]. unfold mine in *. congruence.
  - apply (I3 f'); [apply in_app_iff; right; by right|done|done].
Qed.

Lemma counted l :
  (forall a, In a (begun l) -> a_ip a = V4 x -> a_ok a = false /\ timely (a_time a)) ->
  at_once (from x) 1 l -> counted_ok (run l).
Proof.
  induction l as [|ev l IH] using rev_ind; intros Hl Hc.
  { unfold counted_ok, own_counts. cbn [run foldl table flights guessed]. unfold lookup0. rewrite lookup_empty.
    simpl default. rewrite mu_none. rewrite !countZ_nil. split_and!; lia || done. }
  assert (Hl' : forall a, In a (begun l) -> a_ip a = V4 x -> a_ok a = false /\ timely (a_time a)).
  { intros a Ha. apply Hl. unfold begun. rewrite omap_app. apply in_app_iff. by left. }
  pose proof (at_once_now _ _ _ (at_once_snoc _ _ _ _ Hc)) as Hn.
  pose proof (IH Hl' (at_once_snoc _ _ _ _ Hc)) as I. clear IH Hc Hl.
  rewrite run_snoc. pose proof (flights_begun l) as Hb. destruct (run l) as [m fl g].
  destruct ev as [a|n]; [by apply counted_begin|]. cbn [step table flights guessed] in *.
  destruct (fl !! n) as [f|] eqn:Ef; [|done].
  assert (Hin : In f fl) by (by eapply list_elem_of_In, list_elem_of_lookup_2).
  pose proof (take_drop_middle fl n f Ef) as E. rewrite <- E in Hn, I.
  assert (R : let '(m', r, b) := advance f m in
    counted_ok (mkRace m' (take n fl ++ option_list r ++ drop (S n) fl) (if b then g ++ [f_attempt f] else g))).
  { destruct (mine f) eqn:Hm; [|by apply counted_other].
    destruct f as [a st]. assert (Hx : a_ip a = V4 x) by (by apply bool_decide_eq_true in Hm).
    destruct (Hl' a (Hb _ Hin) Hx). by apply counted_mine. }
  by destruct (advance f m) as [[m' r] b].
Qed.
End one_address.

(** The failures of a key in the minute [t]. *)
Definition in_minute (t : Z) (c : counts) : Z := if c.1.1 =? t then c.1.2 else 0.
Lemma bump_minute t c : 0 <= in_minute t c <= 6 -> in_minute t (bump c t) = in_minute t c + 1.
Proof.
  destruct c as [[c0 c1] c2]. unfold in_minute, bump. cbn [fst snd].
  destruct (Z.eqb_spec c0 t) as [->|Hne]; cbn [fst snd]; rewrite Z.eqb_refl; [|done].
  intros H. apply i32_small. lia.
Qed.


(** Forty wrong guesses in a minute, one after another: seven are evaluated. *)
Definition guess : attempt := mkAttempt 60000000 (V4 1) false.
Definition guesses : list event := concat (repeat [Begin guess; Go 0; Go 0] 40).
Lemma guesses_wrong a : In a (begun guesses) -> a = guess.
Proof. vm_compute begun. simpl. intuition. Qed.
Lemma at_once_check p k l :
  forallb (λ n, countZ (λ f, p (f_attempt f)) (flights (run (take n l))) <=? k) (List.seq 0 (Datatypes.S (length l))) = true ->
  at_once p k l.
Proof.
  intros H l1 l2 ->. rewrite List.forallb_forall in H. specialize (H (length l1)).
  rewrite take_app_length in H. apply Z.leb_le, H, in_seq. rewrite length_app. lia.
Qed.


(** Seven are evaluated, one more than the name of the alarm says. *)
Example seven_in_a_minute : countZ (from 1) (guessed (run guesses)) = 7.
Proof. vm_compute. reflexivity. Qed.
(** Overlapping logins of an address are counted once, and one that began
    early takes the counter back: of three connections that check before any of
    them counts, three passwords are evaluated and one failure is stored. *)
Example parallel_attempts_count_once :
  let s := run [Begin guess; Begin guess; Begin guess; Go 0; Go 1; Go 2; Go 0; Go 0; Go 0] in
  countZ (from 1) (guessed s) = 3 /\ flights s = [] /\ lookup0 (full_key (V4 1)) (table s) = (1000, 1, 1).
Proof. vm_compute. done. Qed.
(** So one login held back between its check and its count lets more than
    seven be evaluated in a minute. *)
Example held_back_login_resets :
  let one := [Begin guess; Go 1; Go 1] in
  countZ (from 1) (guessed (run ([Begin guess; Go 0] ++ concat (repeat one 10) ++ [Go 0]
    ++ concat (repeat [Begin guess; Go 0; Go 0] 10)))) = 14.
Proof. vm_compute. reflexivity. Qed.
End Race.
