(* ===== verification/Heartbeat.v ===== *)
(** * The heartbeat of a customer's machine ([src/src/chainremote_heartbeat.rs])

    Every ten minutes (every minute while a scheduled window is pending) the
    agent reports its state to the server, with a token it registers itself and
    renews when the server refuses it, and carries out what the answer asks:
    the firewall, payment-daemon and port-forwarding switches, closing the
    scheduled window, cleaning the disk.  What the other threads show (firewall,
    payment daemon, window) and what the disk and the server answer is the
    environment.  The fields of the report that describe the machine (version,
    operating system, NAT) are left out, and so are the folder scans behind
    [temp_scan] and [top_scan]. *)

From Stdlib Require Import Sorting.Sorted.
From S2P Require Import Prelude RustStr Store Sched World.
#[local] Open Scope Z_scope.

Module Heartbeat.
Definition FIRST_DELAY : Z := 60 * 2.
Definition HEARTBEAT_INTERVAL : Z := 60 * 10.
Definition SCHED_INTERVAL : Z := 60.
Definition TOKEN_KEY : string := "chainremote-heartbeat-token".
Definition CLEANUP_DONE_KEY : string := "chainremote-cleanup-done".
Definition SCHED_CLOSE_DONE_KEY : string := "chainremote-sched-close-done".
Definition CLEANUP_RESULT_KEY : string := "chainremote-cleanup-result".
Definition AUTO_CLEAN_THRESHOLD : Z := 5 * 1024 * 1024 * 1024.
Definition AUTO_CLEAN_MIN_INTERVAL_SECS : Z := 24 * 3600.
Definition AUTOCLEAN_AT_KEY : string := "chainremote-autoclean-at".
Definition SLICE : Z := 10.
Definition LOW_BYTES : Z := 20 * 1024 * 1024 * 1024.
Definition REMEASURE_SECS : Z := 6 * 3600.
Definition TOP_N : nat := 8.
Definition MIN_REPORT_BYTES : Z := 200 * 1024 * 1024.

(** What the answer to a heartbeat may ask. *)
Record Resp := mkResp {
  cleanup : string; firewall_control : bool; van_watch : string;
  support_name : string; upnp_enabled : bool; sched_close : string;
}.
Inductive BeatOutcome : Type := BeatOk (cleanup : option string) | AuthRejected.

(** The report.  An absent field is [None]; [vanOk = Some None] is an explicit
    null. *)
Record report := mkReport {
  cleanupResult : option string;
  disk : option (Z * Z); tempBytes : option Z; topDirs : option (list (string * Z));
  firewallEnabled : option bool; firewallDisarmed : bool;
  vanOk : option (option bool); vanGaveUp : option bool; vanMissing : option bool; vanRestarted : bool;
  schedOpenUntil : option Z;
}.

(** A response: its status and body (the default one where it does not parse). *)
Abbreviation reply := (result (Z * Resp) string).
Definition is_success (status : Z) : bool := (200 <=? status) && (status <? 300).

Inductive event : Type :=
  | EGetId
  | ERegister (remote_id : string)
  | EEnroll (remote_id slug key : string)
  | EBeat (token : string) (body : report) (r : reply)
  | EFirewallControl (on : bool)
  | EVanKind (kind : string)
  | EUpnpEnabled (on : bool)
  | ESchedClear
  | ECleanup (auto : option Z)     (** with the recycle bin, or of its own accord at this time *)
  | EScan
  | EWriteSupport (name : string)
  | ESleep (secs : Z)
  | EAsk.                          (** a clock, the disk, another thread's state *)

Record env := mkEnv {
  get_id : nat -> string;
  enroll_slug : string; enroll_key : string;
  http_register : nat -> result string string;
  http_enroll : nat -> result string string;
  http_beat : nat -> string -> reply;      (** depends on the token sent *)
  now : nat -> option Z; utc_now : nat -> string;
  disk_info : nat -> option (Z * Z);
  temp_scan : nat -> Z; top_scan : nat -> list (string * Z);
  run_disk_cleanup : nat -> Z * Z * Z;
  cleanup_json : Z * Z * Z -> string -> bool -> string;
  fw_enabled : nat -> option bool; fw_raised : nat -> bool;
  van_is_on : nat -> bool; van_ok : nat -> option bool; van_gave_up : nat -> bool;
  van_missing : nat -> bool; van_raised : nat -> bool;
  sched_status : nat -> option Sched.SchedWindow;
  write_ok : nat -> bool;
  show_status : Z -> string;
}.

(** The process-wide state the thread keeps, and the two flags other threads
    raise ([DISARMED_PENDING], [RESTARTED_PENDING]). *)
Record beat := mkBeat {
  SCHED_JUST_CLEARED : bool;
  TEMP_MEASURED_AT : Z; TEMP_MEASURED_VAL : option Z; TOPDIRS_MEASURED_AT : Z;
  fw_disarmed : bool; van_restarted : bool;
  support_file : string;
}.
Definition initial : beat := mkBeat false 0 None 0 false false EmptyString.
Definition set_cleared v s := mkBeat v (TEMP_MEASURED_AT s) (TEMP_MEASURED_VAL s) (TOPDIRS_MEASURED_AT s)
  (fw_disarmed s) (van_restarted s) (support_file s).
Definition set_temp t v s := mkBeat (SCHED_JUST_CLEARED s) t v (TOPDIRS_MEASURED_AT s)
  (fw_disarmed s) (van_restarted s) (support_file s).
Definition set_topdirs t s := mkBeat (SCHED_JUST_CLEARED s) (TEMP_MEASURED_AT s) (TEMP_MEASURED_VAL s) t
  (fw_disarmed s) (van_restarted s) (support_file s).
Definition set_fw v s := mkBeat (SCHED_JUST_CLEARED s) (TEMP_MEASURED_AT s) (TEMP_MEASURED_VAL s)
  (TOPDIRS_MEASURED_AT s) v (van_restarted s) (support_file s).
Definition set_van v s := mkBeat (SCHED_JUST_CLEARED s) (TEMP_MEASURED_AT s) (TEMP_MEASURED_VAL s)
  (TOPDIRS_MEASURED_AT s) (fw_disarmed s) v (support_file s).
Definition set_support v s := mkBeat (SCHED_JUST_CLEARED s) (TEMP_MEASURED_AT s) (TEMP_MEASURED_VAL s)
  (TOPDIRS_MEASURED_AT s) (fw_disarmed s) (van_restarted s) v.

Section heartbeat.
Context {C : Type} `{!LocalConfig C} (e : env).

Abbreviation world := (World.world C beat event).

(** *** The disk *)
Definition remeasure_temp_now (w : world) : Z * world :=
  let '(total, w) := ask (temp_scan e) EScan w in
  let '(t, w) := ask (now e) EAsk w in
  (total, upd (set_temp (default 0 t) (Some total)) w).

Definition measured_temp_bytes (disk_free : Z) (w : world) : option Z * world :=
  let '(t, w) := ask (now e) EAsk w in
  match t with
  | None => (None, w)
  | Some now =>
      let last := TEMP_MEASURED_AT (st w) in
      if (disk_free <? LOW_BYTES) && ((last =? 0) || (Int.saturating_sub now last >=? REMEASURE_SECS))
      then let '(v, w) := remeasure_temp_now w in (Some v, w)
      else (TEMP_MEASURED_VAL (st w), w)
  end.

(** [sort_by] on the sizes, largest first; equal sizes keep their order. *)
Fixpoint insert_desc (x : string * Z) (l : list (string * Z)) : list (string * Z) :=
  match l with
  | [] => [x]
  | y :: l' => if x.2 >=? y.2 then x :: l else y :: insert_desc x l'
  end.
Definition sort_desc (l : list (string * Z)) : list (string * Z) := foldr insert_desc [] l.

Definition measured_top_dirs (disk_free : Z) (w : world) : option (list (string * Z)) * world :=
  let '(t, w) := ask (now e) EAsk w in
  match t with
  | None => (None, w)
  | Some now =>
      let last := TOPDIRS_MEASURED_AT (st w) in
      if (disk_free >=? LOW_BYTES) || (negb (last =? 0) && (Int.saturating_sub now last <? REMEASURE_SECS))
      then (None, w)
      else
        let '(all, w) := ask (top_scan e) EScan (upd (set_topdirs now) w) in
        let found := take TOP_N (sort_desc (retain (λ d, d.2 >=? MIN_REPORT_BYTES) all)) in
        (match found with [] => None | _ => Some found end, w)
  end.

(** *** What the other threads show *)
Definition peek_disarmed (w : world) : bool * world :=
  let '(raised, w) := ask (fw_raised e) EAsk w in
  let w := upd (set_fw (fw_disarmed (st w) || raised)) w in
  (fw_disarmed (st w), w).
Definition peek_restarted (w : world) : bool * world :=
  let '(raised, w) := ask (van_raised e) EAsk w in
  let w := upd (set_van (van_restarted (st w) || raised)) w in
  (van_restarted (st w), w).

Definition disk_fields (w : world) : option (Z * Z) * option Z * option (list (string * Z)) * world :=
  let '(d, w) := ask (disk_info e) EAsk w in
  match d with
  | None => (None, None, None, w)
  | Some (total, free) =>
      let '(t, w) := measured_temp_bytes free w in
      let '(dirs, w) := measured_top_dirs free w in
      (Some (total, free), t, dirs, w)
  end.
Definition van_fields (w : world) : option (option bool) * option bool * option bool * bool * world :=
  let '(on, w) := ask (van_is_on e) EAsk w in
  let '(nulled, w) :=
    if (on : bool) then let '(ok, w) := ask (van_ok e) EAsk w in
                        (match ok with None => true | Some _ => false end, w)
    else (false, w) in
  let '(ok, w) := ask (van_ok e) EAsk w in
  let '(vok, vgave, vmiss, w) :=
    match ok with
    | Some b => let '(g, w) := ask (van_gave_up e) EAsk w in
                let '(m, w) := ask (van_missing e) EAsk w in
                (Some (Some b), Some g, Some m, w)
    | None => if (nulled : bool) then (Some None, Some false, Some false, w) else (None, None, None, w)
    end in
  let '(restarted, w) := peek_restarted w in
  (vok, vgave, vmiss, restarted, w).

(** The body of the report. *)
Definition build (cleanup_result : option string) (w : world) : report * world :=
  let '(d, t, dirs, w) := disk_fields w in
  match cleanup_result with
  | Some r => (mkReport (Some r) d t dirs None false None None None false None, w)
  | None =>
      let '(fw, w) := ask (fw_enabled e) EAsk w in
      let '(disarmed, w) := peek_disarmed w in
      let '(vok, vgave, vmiss, restarted, w) := van_fields w in
      let '(s, w) := ask (sched_status e) EAsk w in
      (mkReport None d t dirs fw disarmed vok vgave vmiss restarted
         (Some match s with Some x => Sched.end_ x | None => 0 end), w)
  end.

Definition handle_sched_close (requested_at : string) (w : world) : world :=
  if String.eqb (get SCHED_CLOSE_DONE_KEY w) requested_at then w
  else put SCHED_CLOSE_DONE_KEY requested_at (upd (set_cleared true) (log ESchedClear w)).

Definition cache_support (name : string) (w : world) : world :=
  if negb (is_empty name) && negb (String.eqb (trim (support_file (st w))) name) then
    let '(ok, w) := ask (write_ok e) (EWriteSupport name) w in
    if (ok : bool) then upd (set_support name) w else w
  else w.

(** What an accepted report is answered with is carried out, and the flags the
    report carried are taken down. *)
Definition obey (body : report) (r : Resp) (w : world) : world :=
  let w := log (EUpnpEnabled (upnp_enabled r))
             (log (EVanKind (van_watch r)) (log (EFirewallControl (firewall_control r)) w)) in
  let w := if negb (is_empty (sched_close r)) then handle_sched_close (sched_close r) w else w in
  let w := cache_support (support_name r) w in
  let w := if firewallDisarmed body then upd (set_fw false) w else w in
  if vanRestarted body then upd (set_van false) w else w.

Definition send_heartbeat (token : string) (cleanup_result : option string) (w : world)
  : result BeatOutcome string * world :=
  let '(body, w) := build cleanup_result w in
  let r := http_beat e (clk w) token in
  let w := log (EBeat token body r) w in
  match r with
  | Err x => (Err x, w)
  | Ok (status, resp) =>
      if is_success status then
        (Ok (BeatOk (if negb (is_empty (cleanup resp)) then Some (cleanup resp) else None)), obey body resp w)
      else if (status =? 401) || (status =? 403) then (Ok AuthRejected, w)
      else (Err ("heartbeat HTTP " +:+ show_status e status), w)
  end.

(** *** Cleaning the disk *)
Definition handle_cleanup_request (token requested_at : string) (w : world) : world :=
  if String.eqb (get CLEANUP_DONE_KEY w) requested_at then
    let last := get CLEANUP_RESULT_KEY w in
    if negb (is_empty last) then (send_heartbeat token (Some last) w).2 else w
  else
    let '(counts, w) := ask (run_disk_cleanup e) (ECleanup None) w in
    let '(_, w) := remeasure_temp_now w in
    let '(at_, w) := ask (utc_now e) EAsk w in
    let result := cleanup_json e counts at_ false in
    let w := put CLEANUP_RESULT_KEY result (put CLEANUP_DONE_KEY requested_at w) in
    (send_heartbeat token (Some result) w).2.

Definition maybe_auto_cleanup (token : string) (w : world) : world :=
  let '(d, w) := ask (disk_info e) EAsk w in
  match d with
  | None => w
  | Some (_, free) =>
      if free >=? AUTO_CLEAN_THRESHOLD then w else
      let '(t, w) := ask (now e) EAsk w in
      match t with
      | None => w
      | Some now =>
          let last := default 0 (parse_u64 (get AUTOCLEAN_AT_KEY w)) in
          if Int.saturating_sub now last <? AUTO_CLEAN_MIN_INTERVAL_SECS then w else
          let w := put AUTOCLEAN_AT_KEY (to_string now) w in
          let '(counts, w) := ask (run_disk_cleanup e) (ECleanup (Some now)) w in
          let '(_, w) := remeasure_temp_now w in
          let '(at_, w) := ask (utc_now e) EAsk w in
          let result := cleanup_json e counts at_ true in
          (send_heartbeat token (Some result) (put CLEANUP_RESULT_KEY result w)).2
      end
  end.

(** *** The tick and the loop *)
Definition acquire_token (remote_id : string) (w : world) : result string string * world :=
  if negb (is_empty (enroll_slug e)) && negb (is_empty (enroll_key e))
  then ask (http_enroll e) (EEnroll remote_id (enroll_slug e) (enroll_key e)) w
  else ask (http_register e) (ERegister remote_id) w.

Definition after_beat (token : string) (req : option string) (w : world) : world :=
  maybe_auto_cleanup token (match req with Some r => handle_cleanup_request token r w | None => w end).

Definition tick (w : world) : result unit string * world :=
  let '(remote_id, w) := ask (get_id e) EGetId w in
  if is_empty remote_id then (Err "remote_id empty (hbbs registration pending)", w) else
  let stored := get TOKEN_KEY w in
  let '(token, w) :=
    if is_empty stored then
      let '(r, w) := acquire_token remote_id w in
      (r, match r with Ok t => put TOKEN_KEY t w | Err _ => w end)
    else (Ok stored, w) in
  match token with
  | Err x => (Err x, w)
  | Ok token =>
      let '(outcome, w) := send_heartbeat token None w in
      match outcome with
      | Err x => (Err x, w)
      | Ok (BeatOk req) => (Ok tt, after_beat token req w)
      | Ok AuthRejected =>
          let '(r, w) := acquire_token remote_id (put TOKEN_KEY EmptyString w) in
          match r with
          | Err x => (Err x, w)
          | Ok fresh =>
              let '(outcome, w) := send_heartbeat fresh None (put TOKEN_KEY fresh w) in
              match outcome with
              | Err x => (Err x, w)
              | Ok (BeatOk req) => (Ok tt, after_beat fresh req w)
              | Ok AuthRejected => (Err "heartbeat auth rejected even after fresh register", w)
              end
          end
      end
  end.

(** [nap_watching_sched]: [n] slices of at most ten seconds, cut short when a
    window appears where none was. *)
Fixpoint nap_loop (n : nat) (had_sched : bool) (left : Z) (w : world) : world :=
  match n with
  | O => w
  | S n =>
      if left <=? 0 then w else
      let this := if left <? SLICE then left else SLICE in
      let w := log (ESleep this) w in
      if had_sched then nap_loop n had_sched (left - this) w
      else
        let '(s, w) := ask (sched_status e) EAsk w in
        match s with
        | Some _ => w
        | None => nap_loop n had_sched (left - this) w
        end
  end.
Definition nap_watching_sched (total : Z) (w : world) : world :=
  let '(s, w) := ask (sched_status e) EAsk w in
  nap_loop (Z.to_nat (total / SLICE + 1)) (match s with Some _ => true | None => false end) total w.

Definition choose_nap (w : world) : Z * world :=
  let just_cleared := SCHED_JUST_CLEARED (st w) in
  let w := upd (set_cleared false) w in
  if (just_cleared : bool) then (SCHED_INTERVAL, w)
  else
    let '(s, w) := ask (sched_status e) EAsk w in
    (match s with Some _ => SCHED_INTERVAL | None => HEARTBEAT_INTERVAL end, w).

Fixpoint rounds (n : nat) (w : world) : world :=
  match n with
  | O => w
  | S n => let '(nap, w) := choose_nap (tick w).2 in rounds n (nap_watching_sched nap w)
  end.
Definition run_loop (n : nat) (w : world) : world := rounds n (log (ESleep FIRST_DELAY) w).

(** *** What each operation does to the outside and to the options *)
Definition noclean (ev : event) : Prop := match ev with ECleanup _ => False | _ => True end.
Abbreviation calm := (evolves (C:=C) (St:=beat) noclean (λ k, k = SCHED_CLOSE_DONE_KEY)).
Abbreviation still := (evolves (C:=C) (St:=beat) noclean (λ _, False)).
Lemma still_calm w w' : still w w' -> calm w w'.
Proof. by apply evolves_weaken. Qed.
#[local] Hint Resolve still_calm : world.
#[local] Hint Extern 1 (noclean _) => exact I : world.

Lemma remeasure_still w : still w (remeasure_temp_now w).2.
Proof. unfold remeasure_temp_now. world_cases; eauto with world. Qed.
Lemma disk_still w : still w (disk_fields w).2.
Proof.
  unfold disk_fields, measured_temp_bytes, measured_top_dirs, remeasure_temp_now.
  world_cases; eauto 12 with world.
Qed.
Lemma peek_still w : still w (peek_disarmed w).2 /\ still w (peek_restarted w).2.
Proof. unfold peek_disarmed, peek_restarted. split; world_cases; eauto with world. Qed.
Lemma van_still w : still w (van_fields w).2.
Proof. unfold van_fields, peek_restarted. world_cases; eauto 12 with world. Qed.
Lemma build_still r w : still w (build r w).2.
Proof.
  unfold build. pose proof (disk_still w) as H. destruct (disk_fields w) as [[[d t] dirs] w1]. simpl in H.
  destruct r; [done|]. unfold ask. pose proof (proj1 (peek_still (log EAsk w1))) as Hd.
  destruct (peek_disarmed _) as [dis w2]. simpl in Hd. pose proof (van_still w2) as Hv.
  destruct (van_fields w2) as [[[[vo vg] vm] rs] w3]. simpl in *.
  apply ev_log; [done|]. eapply evolves_trans; [exact H|].
  eapply evolves_trans; [|exact Hv]. eapply evolves_trans; [|exact Hd]. eauto with world.
Qed.
Lemma obey_calm b r w : calm w (obey b r w).
Proof. unfold obey, handle_sched_close, cache_support. world_cases; eauto 12 with world. Qed.
Lemma send_calm t r w : calm w (send_heartbeat t r w).2.
Proof.
  unfold send_heartbeat. pose proof (build_still r w) as H. destruct (build r w) as [b w1]. simpl in H.
  assert (H1 : forall x, calm w (log (EBeat t b x) w1)) by (intros x; apply ev_log; [done|]; by apply still_calm).
  destruct (http_beat _ _ _) as [[s resp]|x]; simpl; [|done].
  destruct (is_success s); simpl; [eapply evolves_trans; [apply H1|]; apply obey_calm|].
  destruct (_ || _); apply H1.
Qed.
Lemma acquire_still id w : still w (acquire_token id w).2.
Proof. unfold acquire_token. world_cases; eauto with world. Qed.
Lemma choose_still w : still w (choose_nap w).2.
Proof. unfold choose_nap. world_cases; eauto with world. Qed.
Lemma nap_loop_still n b l w : still w (nap_loop n b l w).
Proof.
  revert l w. induction n as [|n IH]; intros l w; simpl; [apply ev_refl|].
  repeat case_goal; (eapply evolves_trans; [|apply IH]) || idtac; unfold ask; simpl; eauto with world.
Qed.
Lemma nap_still l w : still w (nap_watching_sched l w).
Proof. unfold nap_watching_sched, ask. eapply evolves_trans; [|apply nap_loop_still]. eauto with world. Qed.

(** *** One cleaning per request *)
Definition is_manual (ev : event) : bool := match ev with ECleanup None => true | _ => false end.
Definition manuals (w : world) : nat := length (List.filter is_manual (trace w)).

Lemma noclean_manuals K w w' : evolves noclean K w w' -> manuals w' = manuals w.
Proof. induction 1 as [|ev w' Hp _ IH| |]; [done| |done|done]. unfold manuals in *. simpl. by destruct ev. Qed.

Lemma calm_done w w' : calm w w' -> get CLEANUP_DONE_KEY w' = get CLEANUP_DONE_KEY w.
Proof. intros H. by apply (evolves_get _ _ _ _ _ H). Qed.

(** Nothing was cleaned by hand and the note of the last request is as before. *)
Definition unasked (w w' : world) : Prop :=
  manuals w' = manuals w /\ get CLEANUP_DONE_KEY w' = get CLEANUP_DONE_KEY w.
Lemma calm_unasked w w' : calm w w' -> unasked w w'.
Proof. intros H. split; [by eapply noclean_manuals | by apply calm_done]. Qed.
Lemma unasked_trans w1 w2 w3 : unasked w1 w2 -> unasked w2 w3 -> unasked w1 w3.
Proof. intros [? ?] [? ?]. split; congruence. Qed.
Lemma put_unasked k v w : k <> CLEANUP_DONE_KEY -> unasked w (put k v w).
Proof. intros H. split; [done|]. by rewrite get_put_ne. Qed.

Lemma auto_unasked t w : unasked w (maybe_auto_cleanup t w).
Proof.
  unfold maybe_auto_cleanup, ask. destruct (disk_info _ _) as [[tot free]|]; [|done].
  destruct (_ >=? _); [done|]. destruct (now _ _) as [now0|]; [|done]. destruct (_ <? _); [done|].
  set (w1 := log (ECleanup _) _). pose proof (remeasure_still w1) as H1.
  destruct (remeasure_temp_now w1) as [v w2]. simpl in H1.
  apply unasked_trans with (log EAsk w2).
  { apply unasked_trans with w1; [split; [done|]; unfold w1; rewrite get_log, get_put_ne by done; done|].
    apply calm_unasked. apply ev_log; [done|]. by apply still_calm. }
  eapply unasked_trans; [by apply (put_unasked CLEANUP_RESULT_KEY)|]. apply calm_unasked, send_calm.
Qed.

(** A request that was carried out is not carried out again. *)
Lemma cleanup_request_once t r w : let w' := handle_cleanup_request t r w in
  get CLEANUP_DONE_KEY w' = r
  /\ manuals w' = ((if decide (get CLEANUP_DONE_KEY w = r) then 0 else 1) + manuals w)%nat.
Proof.
  unfold handle_cleanup_request. destruct (String.eqb_spec (get CLEANUP_DONE_KEY w) r) as [E|E].
  - rewrite decide_True by done. case_goal; [|done].
    destruct (calm_unasked _ _ (send_calm t (Some (get CLEANUP_RESULT_KEY w)) w)) as [H1 H2].
    cbv zeta. by rewrite H1, H2.
  - rewrite decide_False by done. unfold ask. set (w1 := log (ECleanup None) w).
    pose proof (calm_unasked _ _ (still_calm _ _ (remeasure_still w1))) as [H1 _].
    destruct (remeasure_temp_now w1) as [v w2]. cbn [snd] in H1.
    set (w3 := put CLEANUP_RESULT_KEY _ _). set (res := Some _).
    destruct (calm_unasked _ _ (send_calm t res w3)) as [H2 H3]. cbv zeta. rewrite H2, H3.
    split; [unfold w3; rewrite get_put_ne by done; apply get_put_eq|].
    change (manuals w3) with (manuals w2). by rewrite H1.
Qed.

Definition asks_only (r : string) : Prop :=
  forall k t s resp, http_beat e k t = Ok (s, resp) -> cleanup resp = EmptyString \/ cleanup resp = r.

Lemma send_request t cr w c : (send_heartbeat t cr w).1 = Ok (BeatOk (Some c)) ->
  c <> EmptyString /\ exists k tk s resp, http_beat e k tk = Ok (s, resp) /\ cleanup resp = c.
Proof.
  unfold send_heartbeat. destruct (build cr w) as [b w1].
  destruct (http_beat _ _ _) as [[s resp]|x] eqn:E; [|done]. destruct (is_success s); [|by destruct (_ || _)].
  destruct (is_empty (cleanup resp)) eqn:Ee; [done|]. intros [= <-].
  split; [intros H; by rewrite H in Ee|]. eauto 10.
Qed.

(** What the pieces of a round preserve, the whole loop preserves. *)
Section preserve.
Context (I : world -> Prop) (Q : string -> Prop).
Context (calm_I : forall w w', calm w w' -> I w -> I w')
  (token_I : forall v w, I w -> I (put TOKEN_KEY v w))
  (request_I : forall t c w, Q c -> I w -> I (handle_cleanup_request t c w))
  (auto_I : forall t w, I w -> I (maybe_auto_cleanup t w))
  (asked : forall k t s resp, http_beat e k t = Ok (s, resp) -> cleanup resp <> EmptyString -> Q (cleanup resp)).

Lemma send_I t cr w : I w -> I (send_heartbeat t cr w).2.
Proof. intros H. by eapply calm_I; [apply send_calm|]. Qed.

Lemma after_I t cr w w1 q : send_heartbeat t cr w = (Ok (BeatOk q), w1) -> I w1 -> I (after_beat t q w1).
Proof.
  intros E H. unfold after_beat. apply auto_I. destruct q as [c|]; [|done].
  destruct (send_request t cr w c) as (Hne & k & tk & s & resp & Hh & <-); [by rewrite E|].
  apply request_I; [by eapply asked|done].
Qed.

Lemma acquire_I id w : I w -> I (acquire_token id w).2.
Proof. intros H. by eapply calm_I; [apply still_calm, acquire_still|]. Qed.

Lemma tick_I w : I w -> I (tick w).2.
Proof.
  intros H. unfold tick, ask. set (w1 := log EGetId w). set (id := get_id e _). clearbody id.
  assert (H1 : I w1) by (eapply calm_I; [|exact H]; unfold w1; eauto with world).
  destruct (is_empty id); [done|].
  destruct (if is_empty (get TOKEN_KEY w1) then _ else _) as [tk w2] eqn:E.
  assert (H2 : I w2).
  { destruct (is_empty (get TOKEN_KEY w1)); [|by injection E as <- <-].
    pose proof (acquire_I id w1 H1) as H3. destruct (acquire_token id w1) as [a w3].
    destruct a; injection E as <- <-; [by apply token_I|done]. }
  destruct tk as [tk|x]; [|done].
  pose proof (send_I tk None w2 H2) as H3. destruct (send_heartbeat tk None w2) as [o w3] eqn:Es.
  destruct o as [[q|]|x]; [by eapply after_I| |done].
  pose proof (acquire_I id _ (token_I EmptyString w3 H3)) as H5.
  destruct (acquire_token id (put TOKEN_KEY EmptyString w3)) as [a w5]. destruct a as [fresh|x]; [|done].
  pose proof (send_I fresh None _ (token_I fresh w5 H5)) as H7.
  destruct (send_heartbeat fresh None (put TOKEN_KEY fresh w5)) as [o w7] eqn:Es2.
  destruct o as [[q|]|x]; [by eapply after_I|done|done].
Qed.

Lemma rounds_I n w : I w -> I (rounds n w).
Proof.
  revert w. induction n as [|n IH]; intros w H; [done|]. cbn [rounds].
  pose proof (choose_still (tick w).2) as Hc. destruct (choose_nap (tick w).2) as [nap w1]. simpl in Hc.
  apply IH. eapply calm_I; [apply still_calm, nap_still|].
  eapply calm_I; [apply still_calm, Hc|]. by apply tick_I.
Qed.

Lemma run_loop_I n w : I w -> I (run_loop n w).
Proof. intros H. apply rounds_I. eapply calm_I; [|exact H]. eauto with world. Qed.
End preserve.

Section once.
Context (r : string) (w0 : world) (Hr : asks_only r).

(** What a run may have done by hand since [w0]. *)
Definition at_most_once (w : world) : Prop :=
  (manuals w = manuals w0 /\ get CLEANUP_DONE_KEY w = get CLEANUP_DONE_KEY w0)
  \/ (manuals w = S (manuals w0) /\ get CLEANUP_DONE_KEY w = r /\ get CLEANUP_DONE_KEY w0 <> r).

Lemma once_unasked w w' : unasked w w' -> at_most_once w -> at_most_once w'.
Proof. intros [E1 E2]. unfold at_most_once. by rewrite E1, E2. Qed.
Lemma once_calm w w' : calm w w' -> at_most_once w -> at_most_once w'.
Proof. intros H. by apply once_unasked, calm_unasked. Qed.

Lemma once_request t c w : c = r -> at_most_once w -> at_most_once (handle_cleanup_request t c w).
Proof.
  intros -> H. destruct (cleanup_request_once t r w) as [E1 E2]. unfold at_most_once.
  rewrite E1, E2. destruct H as [[H1 H2]|(H1 & H2 & H3)].
  - rewrite H1. case_decide as Ed; [left; split; [done|congruence] | right; split; [done|split; [done|congruence]]].
  - rewrite H1, decide_True by done. by right.
Qed.

Lemma once_loop n w : at_most_once w -> at_most_once (run_loop n w).
Proof.
  apply (run_loop_I at_most_once (λ c, c = r)).
  - apply once_calm.
  - intros v w'. by apply once_unasked, put_unasked.
  - intros t c w'. apply once_request.
  - intros t w'. apply once_unasked, auto_unasked.
  - intros k t s resp Hh Hne. by destruct (Hr _ _ _ _ Hh).
Qed.
End once.

(** A cleaning the server asks for is carried out at most once, however
    often the request comes down (it stays in the server's queue until the
    result arrives), whatever fails in between and for however many rounds:
    with the bin at most once more than before, and not at all when the
    request is the one already noted as done. *)
Theorem cleanup_once r n w : asks_only r ->
  (manuals (run_loop n w) <= (if decide (get CLEANUP_DONE_KEY w = r) then 0 else 1) + manuals w)%nat.
Proof.
  intros Hr. assert (H : at_most_once r w (run_loop n w)).
  { apply once_loop; [done|]. by left. }
  destruct H as [[H _]|(H & _ & Hn)]; [|rewrite decide_False by done]; lia.
Qed.

(** *** Cleaning of its own accord *)
Definition auto_of (ev : event) : option Z := match ev with ECleanup a => a | _ => None end.
Definition autos (w : world) : list Z := omap auto_of (trace w).
Definition gap (later earlier : Z) : Prop := earlier + AUTO_CLEAN_MIN_INTERVAL_SECS <= later.

(** The times of the cleanings, newest first, with a day between neighbours;
    the newest is the one noted. *)
Definition spaced (w : world) : Prop :=
  Sorted gap (autos w)
  /\ match autos w with t :: _ => Int.in_u 64 t /\ get AUTOCLEAN_AT_KEY w = to_string t | [] => True end.

Definition noauto (ev : event) : Prop := auto_of ev = None.
Lemma noauto_autos K w w' : evolves noauto K w w' -> autos w' = autos w.
Proof. induction 1 as [|ev w' Hp _ IH| |]; [done| |done|done]. unfold autos in *. simpl. by rewrite Hp. Qed.

Definition unnoted (w w' : world) : Prop :=
  autos w' = autos w /\ get AUTOCLEAN_AT_KEY w' = get AUTOCLEAN_AT_KEY w.
Lemma unnoted_spaced w w' : unnoted w w' -> spaced w -> spaced w'.
Proof. intros [E1 E2]. unfold spaced. by rewrite E1, E2. Qed.
Lemma noauto_unnoted (K : string -> Prop) w w' : evolves noauto K w w' -> ~ K AUTOCLEAN_AT_KEY -> unnoted w w'.
Proof. intros H HK. split; [by eapply noauto_autos | by eapply evolves_get]. Qed.
Lemma calm_unnoted w w' : calm w w' -> unnoted w w'.
Proof.
  intros H. apply (noauto_unnoted (λ k, k = SCHED_CLOSE_DONE_KEY)); [|done].
  eapply evolves_weaken; [| |exact H]; [by intros []|done].
Qed.
Lemma unnoted_trans w1 w2 w3 : unnoted w1 w2 -> unnoted w2 w3 -> unnoted w1 w3.
Proof. intros [? ?] [? ?]. split; congruence. Qed.
Lemma put_unnoted k v w : k <> AUTOCLEAN_AT_KEY -> unnoted w (put k v w).
Proof. intros H. split; [done|]. by rewrite get_put_ne. Qed.

Lemma request_unnoted t r w : unnoted w (handle_cleanup_request t r w).
Proof.
  unfold handle_cleanup_request. destruct (String.eqb _ _).
  { case_goal; [apply calm_unnoted, send_calm|done]. }
  unfold ask. set (w1 := log (ECleanup None) w). pose proof (remeasure_still w1) as H1.
  destruct (remeasure_temp_now w1) as [v w2]. cbn [snd] in H1.
  eapply unnoted_trans; [|apply calm_unnoted, send_calm].
  eapply unnoted_trans; [|by apply put_unnoted]. eapply unnoted_trans; [|by apply put_unnoted].
  apply unnoted_trans with w1; [done|]. apply calm_unnoted. apply ev_log; [done|]. by apply still_calm.
Qed.

Lemma auto_spaced t w : (forall k t0, now e k = Some t0 -> Int.in_u 64 t0) -> spaced w ->
  spaced (maybe_auto_cleanup t w).
Proof.
  intros Hnow [Hs Hl]. unfold maybe_auto_cleanup, ask. destruct (disk_info _ _) as [[tot free]|]; [|done].
  destruct (_ >=? _); [done|]. destruct (now _ _) as [now0|] eqn:En; [|done].
  destruct (_ <? _) eqn:Et; [done|]. apply Hnow in En. rewrite !get_log in Et. apply Z.ltb_ge in Et.
  set (w1 := log (ECleanup _) _). pose proof (remeasure_still w1) as H1.
  destruct (remeasure_temp_now w1) as [v w2]. cbn [snd] in H1.
  eapply unnoted_spaced; [apply calm_unnoted, send_calm|].
  eapply unnoted_spaced; [by apply put_unnoted|].
  eapply unnoted_spaced; [apply calm_unnoted; apply ev_log; [done|]; apply still_calm, H1|].
  assert (Ha : autos w1 = now0 :: autos w) by done. unfold spaced. rewrite Ha. split.
  - constructor; [done|]. destruct (autos w) as [|l ls]; [done|]. constructor. destruct Hl as [Hu Hg].
    rewrite Hg in Et. unfold parse_u64 in Et. unfold Int.in_u in Hu. 
    rewrite parse_to_string in Et by (unfold Int.u64_max; lia). simpl in Et.
    unfold gap, Int.saturating_sub, AUTO_CLEAN_MIN_INTERVAL_SECS in *. lia.
  - split; [done|]. unfold w1. rewrite get_log. apply get_put_eq.
Qed.

(** The agent cleans the disk of its own accord at most once a day: in any
    run, whatever the disk, the server and the clock answer, the clock readings
    at which it did are at least 24 hours apart from one to the next, even if
    the clock was set back in between. *)
Theorem auto_cleanup_once_a_day n w :
  (forall k t, now e k = Some t -> Int.in_u 64 t) -> autos w = [] ->
  Sorted gap (autos (run_loop n w)).
Proof.
  intros Hnow H0. assert (H : spaced (run_loop n w)); [|apply H].
  apply (run_loop_I spaced (λ _, True)); [| | | |done|].
  - intros w1 w2 Hc. by apply unnoted_spaced, calm_unnoted.
  - intros v w1. by apply unnoted_spaced, put_unnoted.
  - intros t c w1 _. apply unnoted_spaced, request_unnoted.
  - intros t w1. by apply auto_spaced.
  - unfold spaced. rewrite H0. by split; [constructor|].
Qed.

(** *** Recovering the token *)
Abbreviation tokenless := (evolves (C:=C) (St:=beat) (λ _, True) (λ k, k <> TOKEN_KEY)).
Lemma calm_tokenless w w' : calm w w' -> tokenless w w'.
Proof. apply evolves_weaken; [done|]. by intros k ->. Qed.

Lemma request_tokenless t r w : tokenless w (handle_cleanup_request t r w).
Proof.
  unfold handle_cleanup_request. destruct (String.eqb _ _).
  { case_goal; [apply calm_tokenless, send_calm|apply ev_refl]. }
  unfold ask. set (w1 := log (ECleanup None) w). pose proof (remeasure_still w1) as H1.
  destruct (remeasure_temp_now w1) as [v w2]. cbn [snd] in H1.
  eapply evolves_trans; [|apply calm_tokenless, send_calm].
  do 2 (apply ev_put; [done|]). apply ev_log; [done|].
  eapply evolves_trans; [|apply calm_tokenless, still_calm, H1]. apply ev_log; [done|apply ev_refl].
Qed.

Lemma auto_tokenless t w : tokenless w (maybe_auto_cleanup t w).
Proof.
  assert (Ha : tokenless w (log EAsk w)) by (apply ev_log; [done|apply ev_refl]).
  unfold maybe_auto_cleanup, ask. destruct (disk_info _ _) as [[tot free]|]; [|done].
  destruct (_ >=? _); [done|]. set (w0 := log EAsk w) in *.
  assert (Ha2 : tokenless w (log EAsk w0)) by by apply ev_log.
  destruct (now _ _) as [now0|]; [|done]. destruct (_ <? _); [done|].
  set (w1 := log (ECleanup _) _). pose proof (remeasure_still w1) as H1.
  destruct (remeasure_temp_now w1) as [v w2]. cbn [snd] in H1.
  eapply evolves_trans; [|apply calm_tokenless, send_calm].
  apply ev_put; [done|]. apply ev_log; [done|].
  eapply evolves_trans; [|apply calm_tokenless, still_calm, H1].
  unfold w1. apply ev_log; [done|]. by apply ev_put.
Qed.

Lemma after_token t q w : get TOKEN_KEY (after_beat t q w) = get TOKEN_KEY w.
Proof.
  apply (evolves_get (λ _, True) (λ k, k <> TOKEN_KEY)); [|by intros H]. unfold after_beat.
  eapply evolves_trans; [|apply auto_tokenless]. destruct q; [apply request_tokenless|apply ev_refl].
Qed.

(** A server that knows this machine under [good] only, and tells it. *)
Record server_knows (good : string) : Prop := {
  k_id : forall k, is_empty (get_id e k) = false;
  k_good : is_empty good = false;
  k_register : forall k, http_register e k = Ok good;
  k_enroll : forall k, http_enroll e k = Ok good;
  k_accepts : forall k, exists s resp, http_beat e k good = Ok (s, resp) /\ is_success s = true;
  k_rejects : forall k t, t <> good -> exists s resp, http_beat e k t = Ok (s, resp) /\ (s = 401 \/ s = 403);
}.

Lemma send_accepted good cr w : server_knows good ->
  exists q w', send_heartbeat good cr w = (Ok (BeatOk q), w') /\ calm w w'.
Proof.
  intros K. pose proof (send_calm good cr w) as Hc. revert Hc. unfold send_heartbeat.
  destruct (build cr w) as [b w1]. destruct (k_accepts _ K (clk w1)) as (s & resp & -> & ->). eauto.
Qed.

Lemma send_rejected good t cr w : server_knows good -> t <> good ->
  exists w', send_heartbeat t cr w = (Ok AuthRejected, w') /\ calm w w'.
Proof.
  intros K Ht. pose proof (send_calm t cr w) as Hc. revert Hc. unfold send_heartbeat.
  destruct (build cr w) as [b w1]. destruct (k_rejects _ K (clk w1) t Ht) as (s & resp & -> & Hs).
  destruct Hs as [-> | ->]; simpl; eauto.
Qed.

Lemma acquire_good good id w : server_knows good -> exists w', acquire_token id w = (Ok good, w').
Proof.
  intros K. unfold acquire_token, ask.
  destruct (_ && _); [rewrite (k_enroll _ K)|rewrite (k_register _ K)]; eauto.
Qed.

Lemma calm_token w w' : calm w w' -> get TOKEN_KEY w' = get TOKEN_KEY w.
Proof. intros H. by apply (evolves_get _ _ _ _ _ H). Qed.

(** The machine recovers its token by itself in one tick: whatever token is
    stored (none, the right one, or one the server has since replaced), if the
    server hands out its token on registration and accepts only that one, the
    tick succeeds and the server's token is stored. *)
Theorem token_recovered good w : server_knows good ->
  (tick w).1 = Ok tt /\ get TOKEN_KEY (tick w).2 = good.
Proof.
  intros K. unfold tick, ask. rewrite (k_id _ K). set (w1 := log EGetId w). set (id := get_id e _).
  destruct (String.eqb_spec (get TOKEN_KEY w1) good) as [Eg|Eg].
  - rewrite Eg, (k_good _ K). destruct (send_accepted good None w1 K) as (q & w2 & -> & Hc).
    split; [done|]. cbn [snd]. by rewrite after_token, (calm_token _ _ Hc).
  - destruct (is_empty (get TOKEN_KEY w1)).
    + destruct (acquire_good good id w1 K) as (w2 & ->).
      destruct (send_accepted good None (put TOKEN_KEY good w2) K) as (q & w3 & -> & Hc).
      split; [done|]. cbn [snd]. rewrite after_token, (calm_token _ _ Hc). apply get_put_eq.
    + destruct (send_rejected good (get TOKEN_KEY w1) None w1 K Eg) as (w2 & -> & _).
      destruct (acquire_good good id (put TOKEN_KEY EmptyString w2) K) as (w3 & ->).
      destruct (send_accepted good None (put TOKEN_KEY good w3) K) as (q & w4 & -> & Hc).
      split; [done|]. cbn [snd]. rewrite after_token, (calm_token _ _ Hc). apply get_put_eq.
Qed.

(** *** Nothing raised is lost *)
Definition carries (f : report -> bool) (ev : event) : bool :=
  match ev with EBeat _ b (Ok (s, _)) => is_success s && f b | _ => false end.

(** A raised flag is still up, or an accepted report carried it. *)
Definition kept (w w' : world) : Prop :=
  exists evs, trace w' = evs ++ trace w
  /\ (fw_disarmed (st w) = true -> fw_disarmed (st w') = true \/ existsb (carries firewallDisarmed) evs = true)
  /\ (van_restarted (st w) = true -> van_restarted (st w') = true \/ existsb (carries vanRestarted) evs = true).

Lemma kept_refl w : kept w w.
Proof. exists []. eauto. Qed.
Lemma kept_trans w1 w2 w3 : kept w1 w2 -> kept w2 w3 -> kept w1 w3.
Proof.
  intros (e1 & T1 & F1 & V1) (e2 & T2 & F2 & V2). exists (e2 ++ e1).
  rewrite T2, T1, <- app_assoc, !existsb_app, !orb_true_iff. split; [done|]. split; [clear V1 V2|clear F1 F2]; tauto.
Qed.
Lemma kept_log ev w w' : kept w w' -> kept w (log ev w').
Proof.
  intros (evs & T & F & V). exists (ev :: evs). simpl. rewrite T, !orb_true_iff. split; [done|]. split; tauto.
Qed.
Lemma kept_put k v w w' : kept w w' -> kept w (put k v w').
Proof. intros (evs & T & F & V). by exists evs. Qed.
Lemma kept_upd f w w' : kept w w' ->
  (fw_disarmed (st w') = true -> fw_disarmed (f (st w')) = true) ->
  (van_restarted (st w') = true -> van_restarted (f (st w')) = true) -> kept w (upd f w').
Proof. intros (evs & T & F & V) Hf Hv. exists evs. split; [done|]. cbn [upd st]. split; tauto. Qed.

Ltac kept := repeat first
  [ apply kept_refl | apply kept_log | apply kept_put
  | apply kept_upd; [| by simpl; intros -> | by simpl; intros ->] ].

Lemma remeasure_kept w : kept w (remeasure_temp_now w).2.
Proof. unfold remeasure_temp_now. world_cases; kept. Qed.
Lemma disk_kept w : kept w (disk_fields w).2.
Proof. unfold disk_fields, measured_temp_bytes, measured_top_dirs, remeasure_temp_now. world_cases; kept. Qed.
Lemma disarmed_kept w : kept w (peek_disarmed w).2.
Proof. unfold peek_disarmed. world_cases; kept. Qed.
Lemma van_kept w : kept w (van_fields w).2.
Proof. unfold van_fields, peek_restarted. world_cases; kept. Qed.
Lemma build_kept r w : kept w (build r w).2.
Proof.
  unfold build. pose proof (disk_kept w) as H. destruct (disk_fields w) as [[[d t] dirs] w1]. simpl in H.
  destruct r; [done|]. unfold ask. pose proof (disarmed_kept (log EAsk w1)) as Hd.
  destruct (peek_disarmed _) as [dis w2]. pose proof (van_kept w2) as Hv.
  destruct (van_fields w2) as [[[[vo vg] vm] rs] w3]. simpl in *. apply kept_log.
  eapply kept_trans; [exact H|]. eapply kept_trans; [|exact Hv]. eapply kept_trans; [|exact Hd]. kept.
Qed.

Lemma obey_fields b r w :
  fw_disarmed (st (obey b r w)) = (if firewallDisarmed b then false else fw_disarmed (st w))
  /\ van_restarted (st (obey b r w)) = (if vanRestarted b then false else van_restarted (st w))
  /\ exists evs, trace (obey b r w) = evs ++ trace w.
Proof.
  unfold obey, handle_sched_close, cache_support, ask.
  repeat (case_goal; simpl; try (split; [done|split; [done|]]); try (by eexists (_ :: _ :: _ :: _ :: _ :: []));
    try (by eexists (_ :: _ :: _ :: _ :: [])); try (by eexists (_ :: _ :: _ :: []))).
Qed.

Lemma send_kept t r w : kept w (send_heartbeat t r w).2.
Proof.
  unfold send_heartbeat. pose proof (build_kept r w) as H. destruct (build r w) as [b w1]. cbn [snd] in H.
  destruct (http_beat _ _ _) as [[s resp]|x]; [|by apply kept_log].
  destruct (is_success s) eqn:Es; [|by destruct (_ || _); apply kept_log].
  eapply kept_trans; [exact H|]. cbn [snd].
  destruct (obey_fields b resp (log (EBeat t b (Ok (s, resp))) w1)) as (Hf & Hv & evs & T).
  exists (evs ++ [EBeat t b (Ok (s, resp))]). rewrite T, <- app_assoc. split; [done|].
  rewrite Hf, Hv, !existsb_app. cbn [existsb carries]. rewrite Es. cbn [log st].
  split; intros ->; [destruct (firewallDisarmed b)|destruct (vanRestarted b)]; rewrite ?orb_true_r; auto.
Qed.

Lemma request_kept t r w : kept w (handle_cleanup_request t r w).
Proof.
  unfold handle_cleanup_request. destruct (String.eqb _ _).
  { case_goal; [apply send_kept|apply kept_refl]. }
  unfold ask. set (w1 := log (ECleanup None) w). pose proof (remeasure_kept w1) as H1.
  destruct (remeasure_temp_now w1) as [v w2]. cbn [snd] in H1.
  eapply kept_trans; [|apply send_kept]. kept. eapply kept_trans; [|exact H1]. unfold w1. kept.
Qed.

Lemma auto_kept t w : kept w (maybe_auto_cleanup t w).
Proof.
  unfold maybe_auto_cleanup, ask. destruct (disk_info _ _) as [[tot free]|]; [|kept].
  destruct (_ >=? _); [kept|]. destruct (now _ _) as [now0|]; [|kept]. destruct (_ <? _); [kept|].
  set (w1 := log (ECleanup _) _). pose proof (remeasure_kept w1) as H1.
  destruct (remeasure_temp_now w1) as [v w2]. cbn [snd] in H1.
  eapply kept_trans; [|apply send_kept]. kept. eapply kept_trans; [|exact H1]. unfold w1. kept.
Qed.

Lemma after_kept t q w : kept w (after_beat t q w).
Proof.
  unfold after_beat. eapply kept_trans; [|apply auto_kept]. destruct q; [apply request_kept|apply kept_refl].
Qed.

Lemma acquire_kept id w : kept w (acquire_token id w).2.
Proof. unfold acquire_token, ask. destruct (_ && _); kept. Qed.

(** Sending with some token and what follows an accepted report. *)
Lemma beat_kept tk w w0 : kept w0 w -> let '(o, w1) := send_heartbeat tk None w in
  kept w0 w1 /\ match o with Ok (BeatOk q) => kept w0 (after_beat tk q w1) | _ => True end.
Proof.
  intros H. pose proof (send_kept tk None w) as Hs. destruct (send_heartbeat tk None w) as [o w1]. simpl in Hs.
  assert (Hk : kept w0 w1) by by eapply kept_trans. split; [done|]. destruct o as [[q|]|]; try done.
  eapply kept_trans; [exact Hk|apply after_kept].
Qed.

Lemma tick_kept w : kept w (tick w).2.
Proof.
  unfold tick, ask. set (w1 := log EGetId w). set (id := get_id e _).
  assert (H1 : kept w w1) by (unfold w1; kept).
  destruct (is_empty id); [done|].
  destruct (if is_empty (get TOKEN_KEY w1) then _ else _) as [tk w2] eqn:E.
  assert (H2 : kept w w2).
  { destruct (is_empty (get TOKEN_KEY w1)); [|by injection E as <- <-].
    pose proof (acquire_kept id w1) as Ha. destruct (acquire_token id w1) as [a w3]. simpl in Ha.
    assert (kept w w3) by by eapply kept_trans. destruct a; injection E as <- <-; [by apply kept_put|done]. }
  destruct tk as [tk|x]; [|done]. pose proof (beat_kept tk w2 w H2) as H3.
  destruct (send_heartbeat tk None w2) as [o w3]. destruct H3 as [H3 H3'].
  destruct o as [[q|]|x]; [done| |done].
  pose proof (acquire_kept id (put TOKEN_KEY EmptyString w3)) as Ha.
  destruct (acquire_token id (put TOKEN_KEY EmptyString w3)) as [a w5]. simpl in Ha.
  assert (H5 : kept w w5) by (eapply kept_trans; [by apply kept_put|exact Ha]).
  destruct a as [fresh|x]; [|done].
  pose proof (beat_kept fresh (put TOKEN_KEY fresh w5) w ltac:(by apply kept_put)) as H6.
  destruct (send_heartbeat fresh None _) as [o w6]. destruct H6 as [H6 H6']. by destruct o as [[q|]|x].
Qed.

Lemma choose_kept w : kept w (choose_nap w).2.
Proof. unfold choose_nap, ask. repeat case_goal; kept. Qed.
Lemma nap_loop_kept n b l w w0 : kept w0 w -> kept w0 (nap_loop n b l w).
Proof.
  revert l w. induction n as [|n IH]; intros l w H; simpl; [done|]. unfold ask.
  repeat case_goal; try done; try (apply IH); by repeat apply kept_log.
Qed.
Lemma nap_kept l w : kept w (nap_watching_sched l w).
Proof. unfold nap_watching_sched, ask. apply nap_loop_kept. kept. Qed.

(** What the watching threads raised reaches the server: over any number of
    rounds, a firewall switch-off or a daemon restart that was pending at the
    start is still pending at the end, or was carried by a report the server
    accepted; failed reports and the follow-up reports of cleanings (which do
    not carry it) lose nothing. *)
Theorem raised_is_reported n w : exists evs, trace (rounds n w) = evs ++ trace w
  /\ (fw_disarmed (st w) = true ->
      fw_disarmed (st (rounds n w)) = true \/ existsb (carries firewallDisarmed) evs = true)
  /\ (van_restarted (st w) = true ->
      van_restarted (st (rounds n w)) = true \/ existsb (carries vanRestarted) evs = true).
Proof.
  enough (kept w (rounds n w)) by done. revert w. induction n as [|n IH]; intros w; [apply kept_refl|].
  cbn [rounds]. pose proof (choose_kept (tick w).2) as Hc. destruct (choose_nap (tick w).2) as [nap w1].
  eapply kept_trans; [apply tick_kept|]. eapply kept_trans; [exact Hc|].
  eapply kept_trans; [apply nap_kept|apply IH].
Qed.

(** *** Napping *)
Definition slept_of (ev : event) : Z := match ev with ESleep s => s | _ => 0 end.
Definition slept (w : world) : Z := sum_with slept_of (trace w).

Lemma nap_loop_all n b left w : left <= SLICE * Z.of_nat n -> 0 <= left ->
  (b = false -> forall i, (1 <= i)%nat -> SLICE * (Z.of_nat i - 1) < left -> sched_status e (clk w + 2 * i - 1)%nat = None) ->
  slept (nap_loop n b left w) = left + slept w.
Proof.
  revert left w. induction n as [|n IH]; intros left w Hn H0 Hq; cbn [nap_loop]; [lia|].
  destruct (Z.leb_spec left 0); [lia|]. set (this := if left <? SLICE then left else SLICE).
  assert (Ht : 0 < this <= SLICE /\ this <= left /\ left - this <= SLICE * Z.of_nat n)
    by (unfold this, SLICE in *; destruct (Z.ltb_spec left 10); lia).
  assert (Hs : slept (log (ESleep this) w) = this + slept w) by done.
  destruct b.
  - rewrite IH, Hs by (done || lia). lia.
  - unfold ask. assert (Hc : clk (log (ESleep this) w) = S (clk w)) by done.
    pose proof (Hq eq_refl 1%nat ltac:(lia) ltac:(unfold SLICE in *; lia)) as Hq1.
    replace (clk w + 2 * 1 - 1)%nat with (clk (log (ESleep this) w)) in Hq1 by (rewrite Hc; lia).
    rewrite Hq1. rewrite IH.
    + change (slept (log EAsk (log (ESleep this) w))) with (0 + slept (log (ESleep this) w)). rewrite Hs. lia.
    + lia.
    + lia.
    + intros _ i Hi Hl.
      replace (clk (log EAsk (log (ESleep this) w)) + 2 * i - 1)%nat with (clk w + 2 * S i - 1)%nat
        by (unfold clk; simpl; lia).
      apply Hq; [done|lia|]. assert (SLICE <= left \/ i = 0%nat) by (unfold this, SLICE in *; destruct (Z.ltb_spec left 10); lia).
      unfold this, SLICE in *. destruct (Z.ltb_spec left 10); lia.
Qed.

Lemma nap_loop_wakes n left w j s : left <= SLICE * Z.of_nat n -> (1 <= j)%nat -> SLICE * Z.of_nat j <= left ->
  (forall i, (1 <= i < j)%nat -> sched_status e (clk w + 2 * i - 1)%nat = None) ->
  sched_status e (clk w + 2 * j - 1)%nat = Some s ->
  slept (nap_loop n false left w) = SLICE * Z.of_nat j + slept w.
Proof.
  revert left w j. induction n as [|n IH]; intros left w j Hn Hj Hl Hq Hs; cbn [nap_loop]; [unfold SLICE in *; lia|].
  assert (SLICE <= left) by (unfold SLICE in *; lia).
  destruct (Z.leb_spec left 0); [unfold SLICE in *; lia|]. destruct (Z.ltb_spec left SLICE); [lia|]. unfold ask.
  set (w1 := log (ESleep SLICE) w). assert (Hc : clk w1 = S (clk w)) by done.
  assert (Hw : slept w1 = SLICE + slept w) by done.
  destruct (decide (j = 1%nat)) as [->|Hj1].
  - replace (clk w + 2 * 1 - 1)%nat with (clk w1) in Hs by (rewrite Hc; lia). rewrite Hs.
    change (slept (log EAsk w1)) with (0 + slept w1). rewrite Hw. lia.
  - pose proof (Hq 1%nat ltac:(lia)) as Hq1. replace (clk w + 2 * 1 - 1)%nat with (clk w1) in Hq1 by (rewrite Hc; lia).
    rewrite Hq1. rewrite (IH _ _ (j - 1)%nat).
    + change (slept (log EAsk w1)) with (0 + slept w1). rewrite Hw. unfold SLICE in *. lia.
    + unfold SLICE in *. lia.
    + lia.
    + unfold SLICE in *. lia.
    + intros i Hi. rewrite <- (Hq (S i)) by lia. f_equal. unfold clk. simpl. unfold w1. simpl. lia.
    + rewrite <- Hs. f_equal. unfold clk, w1. simpl. lia.
Qed.

(** The nap lasts exactly as long as chosen, unless no window was pending
    when it began and one appears: then it ends with the ten-second slice
    during which that happened, so that a cancelled window is noticed soon. *)
Theorem nap_wakes_for_window total w : 0 <= total ->
  (sched_status e (clk w) <> None
   \/ (forall i, (1 <= i)%nat -> SLICE * (Z.of_nat i - 1) < total -> sched_status e (clk w + 2 * i)%nat = None)
   -> slept (nap_watching_sched total w) = total + slept w)
  /\ (forall j s, (1 <= j)%nat -> SLICE * Z.of_nat j <= total ->
      (forall i, (i < j)%nat -> sched_status e (clk w + 2 * i)%nat = None) ->
      sched_status e (clk w + 2 * j)%nat = Some s ->
      slept (nap_watching_sched total w) = SLICE * Z.of_nat j + slept w).
Proof.
  intros H0. unfold nap_watching_sched, ask.
  assert (Hf : total <= SLICE * Z.of_nat (Z.to_nat (total / SLICE + 1))).
  { unfold SLICE. pose proof (Z.div_mod total 10 ltac:(lia)). pose proof (Z.mod_pos_bound total 10 ltac:(lia)). lia. }
  assert (Hc : clk (log EAsk w) = S (clk w)) by done.
  split.
  - intros Hs. rewrite nap_loop_all; [done|done|done|].
    intros Hb i Hi Hl. destruct (sched_status e (clk w)) eqn:E; [done|].
    destruct Hs as [Hs|Hs]; [done|]. rewrite <- (Hs i) by done. f_equal. rewrite Hc. lia.
  - intros j s Hj Hl Hq Hs. replace (clk w) with (clk w + 2 * 0)%nat at 1 by lia. rewrite (Hq 0%nat) by lia.
    rewrite (nap_loop_wakes _ _ _ j s); [done|done|done|done| |].
    + intros i Hi. rewrite <- (Hq i) by lia. f_equal. rewrite Hc. lia.
    + rewrite <- Hs. f_equal. rewrite Hc. lia.
Qed.
End heartbeat.

(** *** A server that keeps asking, on a full disk *)
Definition demo_resp : Resp := mkResp "2026-08-01" false EmptyString EmptyString false EmptyString.
Definition demo_window : Sched.SchedWindow := Sched.mkWindow 0 100 0 EmptyString None false.
Definition demo_env (window : nat -> option Sched.SchedWindow) : env := {|
  get_id := λ _, "100"; enroll_slug := EmptyString; enroll_key := EmptyString;
  http_register := λ _, Ok "tok"; http_enroll := λ _, Ok "tok";
  http_beat := λ _ t, if String.eqb t "tok" then Ok (200, demo_resp) else Ok (403, demo_resp);
  now := λ _, Some 1000000; utc_now := λ _, "now";
  disk_info := λ _, Some (100, 50); temp_scan := λ _, 7; top_scan := λ _, [];
  run_disk_cleanup := λ _, (1, 2, 3); cleanup_json := λ _ _ _, "{}";
  fw_enabled := λ _, Some true; fw_raised := λ _, false;
  van_is_on := λ _, false; van_ok := λ _, None; van_gave_up := λ _, false;
  van_missing := λ _, false; van_raised := λ _, false;
  sched_status := window; write_ok := λ _, true; show_status := λ s, to_string s;
|}.
Definition calm_env : env := demo_env (λ _, None).
Definition demo_world : World.world (gmap string string) beat event :=
  mkWorld {[ TOKEN_KEY := "old" ]} (set_van true initial) [].

Lemma cleanup_once_witness :
  (manuals (run_loop calm_env 3 demo_world)
   <= (if decide (get CLEANUP_DONE_KEY demo_world = "2026-08-01") then 0 else 1) + manuals demo_world)%nat
  /\ manuals (run_loop calm_env 3 demo_world) = 1%nat.
Proof.
  split; [|vm_compute; reflexivity].
  apply (cleanup_once calm_env "2026-08-01" 3 demo_world).
  intros k t s resp. simpl. destruct (String.eqb t "tok"); intros [= <- <-]; by right.
Defined.

Lemma auto_cleanup_once_a_day_witness :
  Sorted gap (autos (run_loop calm_env 3 demo_world)) /\ autos (run_loop calm_env 3 demo_world) = [1000000].
Proof.
  split; [|vm_compute; reflexivity].
  apply (auto_cleanup_once_a_day calm_env 3 demo_world); [|reflexivity].
  intros k t H. injection H as <-. unfold Int.in_u. lia.
Defined.

Lemma demo_knows : server_knows calm_env "tok".
Proof.
  split; try done.
  - intros k. by exists 200, demo_resp.
  - intros k t Ht. exists 403, demo_resp. simpl. destruct (String.eqb_spec t "tok"); [done|]. by split; [|right].
Qed.
Lemma token_recovered_witness :
  (tick calm_env demo_world).1 = Ok tt /\ get TOKEN_KEY (tick calm_env demo_world).2 = "tok".
Proof. apply (token_recovered calm_env "tok" demo_world). exact demo_knows. Defined.

Lemma raised_is_reported_witness : exists evs,
  trace (rounds calm_env 1 demo_world) = evs ++ []
  /\ (van_restarted (st (rounds calm_env 1 demo_world)) = true \/ existsb (carries vanRestarted) evs = true).
Proof.
  destruct (raised_is_reported calm_env 1 demo_world) as (evs & T & _ & V). exists evs. split; [exact T|].
  apply V. reflexivity.
Defined.

Lemma nap_wakes_for_window_witness :
  slept (nap_watching_sched calm_env 600 demo_world) = 600 + 0
  /\ slept (nap_watching_sched (demo_env (λ k, if Nat.eqb k 4 then Some demo_window else None)) 600 demo_world)
     = SLICE * 2 + 0.
Proof.
  split.
  - apply (proj1 (nap_wakes_for_window calm_env 600 demo_world ltac:(lia))). right. done.
  - apply (proj2 (nap_wakes_for_window (demo_env (λ k, if Nat.eqb k 4 then Some demo_window else None))
        600 demo_world ltac:(lia)) 2%nat demo_window); [lia|unfold SLICE; lia| |reflexivity].
    intros i Hi. destruct i as [|[|i]]; [reflexivity|reflexivity|lia].
Defined.
End Heartbeat.
