(* ===== verification/Cleanup.v ===== *)
(** * Cleaning temporary folders ([run_disk_cleanup] and [clean_dir] of
      [src/src/chainremote_heartbeat.rs])

    A folder is the list of its entries.  What the system answers for an entry
    is part of it: whether its metadata can be read, when a file was modified
    (if that is known), whether it is in use, whether a folder can be listed
    and removed.  Counters are [u64]. *)

From S2P Require Import Prelude.
#[local] Open Scope Z_scope.

Module Cleanup.
#[warnings="-register-all"]
Inductive entry : Type :=
  | Unreadable                                       (** no metadata *)
  | File (modified : option Z) (len : Z) (in_use : bool)
  | Dir (listable removable : bool) (kids : list entry).

Record counts := mkCounts { freed : Z; deleted : Z; skipped : Z }.
Definition u64 (z : Z) : Z := Int.wrap 64 z.
Definition skip1 (c : counts) : counts := mkCounts (freed c) (deleted c) (u64 (skipped c + 1)).
Definition free1 (len : Z) (c : counts) : counts := mkCounts (u64 (freed c + len)) (u64 (deleted c + 1)) (skipped c).

Definition MAX_DEPTH : Z := 16.

(** One entry of a folder at [depth]: what is left of it. *)
Fixpoint clean_entry (cutoff depth : Z) (x : entry) (c : counts) {struct x} : option entry * counts :=
  match x with
  | Unreadable => (Some x, skip1 c)
  | File modified len in_use =>
      if match modified with Some m => cutoff <=? m | None => true end then (Some x, skip1 c)
      else if in_use then (Some x, skip1 c)
      else (None, free1 len c)
  | Dir listable removable kids =>
      let '(kids', c) :=
        if (MAX_DEPTH <? depth + 1) || negb listable then (kids, c)
        else (fix go (l : list entry) (c : counts) : list entry * counts :=
                match l with
                | [] => ([], c)
                | x :: l =>
                    let '(y, c) := clean_entry cutoff (depth + 1) x c in
                    let '(l, c) := go l c in
                    (match y with Some y => y :: l | None => l end, c)
                end) kids c in
      (match kids' with [] => if removable then None else Some (Dir listable removable []) | _ => Some (Dir listable removable kids') end, c)
  end.
Fixpoint clean_entries (cutoff depth : Z) (l : list entry) (c : counts) : list entry * counts :=
  match l with
  | [] => ([], c)
  | x :: l =>
      let '(y, c) := clean_entry cutoff depth x c in
      let '(l, c) := clean_entries cutoff depth l c in
      (match y with Some y => y :: l | None => l end, c)
  end.
Definition clean_dir (cutoff depth : Z) (listable : bool) (l : list entry) (c : counts) : list entry * counts :=
  if (MAX_DEPTH <? depth) || negb listable then (l, c) else clean_entries cutoff depth l c.

(** [bin]: the size and number of items of the recycle bin, where it answers.
    The folders are those of [temp_dirs]. *)
Fixpoint clean_all (cutoff : Z) (dirs : list (bool * list entry)) (c : counts) : list (list entry) * counts :=
  match dirs with
  | [] => ([], c)
  | (listable, d) :: dirs =>
      let '(d, c) := clean_dir cutoff 0 listable d c in
      let '(ds, c) := clean_all cutoff dirs c in
      (d :: ds, c)
  end.
Definition run_disk_cleanup (now : Z) (include_recycle_bin : bool) (bin : option (Z * Z))
    (dirs : list (bool * list entry)) : list (list entry) * counts :=
  let cutoff := now - 3600 in
  let '(dirs, c) := clean_all cutoff dirs (mkCounts 0 0 0) in
  (dirs, match bin with
         | Some (size, items) => if include_recycle_bin
                                 then mkCounts (u64 (freed c + size)) (u64 (deleted c + items)) (skipped c) else c
         | None => c
         end).

(** ** What is deleted *)
Definition doomed (cutoff : Z) (x : entry) : bool :=
  match x with File (Some m) _ in_use => (m <? cutoff) && negb in_use | _ => false end.

(** The files below an entry (and what cannot be read), each with whether the
    cleaning gets there: through folders that can be listed, at most sixteen
    deep. *)
Fixpoint leaves (reached : bool) (depth : Z) (x : entry) : list (bool * entry) :=
  match x with
  | Dir listable _ kids =>
      let r := reached && negb ((MAX_DEPTH <? depth + 1) || negb listable) in
      concat (map (leaves r (depth + 1)) kids)
  | _ => [(reached, x)]
  end.
Definition all_leaves (reached : bool) (depth : Z) (l : list entry) : list (bool * entry) :=
  concat (map (leaves reached depth) l).

Definition gone (cutoff : Z) (p : bool * entry) : bool := p.1 && doomed cutoff p.2.
Definition len_of (x : entry) : Z := match x with File _ n _ => n | _ => 0 end.
Definition freed_by (cutoff : Z) (l : list (bool * entry)) : Z :=
  sum_with (λ p, if gone cutoff p then len_of p.2 else 0) l.
Definition deleted_by (cutoff : Z) (l : list (bool * entry)) : Z :=
  sum_with (λ p, if gone cutoff p then 1 else 0) l.
Definition skipped_by (cutoff : Z) (l : list (bool * entry)) : Z :=
  sum_with (λ p, if p.1 && negb (doomed cutoff p.2) then 1 else 0) l.

(** [c'] counts what happened to [l] on top of [c]. *)
Definition tallied (cutoff : Z) (l : list (bool * entry)) (c c' : counts) : Prop :=
  u64 (freed c') = u64 (freed c + freed_by cutoff l)
  /\ u64 (deleted c') = u64 (deleted c + deleted_by cutoff l)
  /\ u64 (skipped c') = u64 (skipped c + skipped_by cutoff l).

Lemma u64_add a b : u64 (u64 a + b) = u64 (a + b).
Proof. unfold u64, Int.wrap. by rewrite Zplus_mod_idemp_l. Qed.
Lemma u64_idem a : u64 (u64 a) = u64 a.
Proof. rewrite <- (Z.add_0_r (u64 a)) at 1. by rewrite u64_add, Z.add_0_r. Qed.
Lemma u64_add_eq a b n : u64 a = u64 b -> u64 (a + n) = u64 (b + n).
Proof. intros H. by rewrite <- (u64_add a), H, u64_add. Qed.

Lemma tallied_nil cutoff c : tallied cutoff [] c c.
Proof. unfold tallied, freed_by, deleted_by, skipped_by. simpl. by rewrite !Z.add_0_r. Qed.
Lemma tallied_app cutoff l k c1 c2 c3 :
  tallied cutoff l c1 c2 -> tallied cutoff k c2 c3 -> tallied cutoff (l ++ k) c1 c3.
Proof.
  intros (A1 & A2 & A3) (B1 & B2 & B3). unfold tallied, freed_by, deleted_by, skipped_by in *.
  rewrite !sum_with_app, !Z.add_assoc, B1, B2, B3.
  split; [|split]; by apply u64_add_eq.
Qed.

Section entry_ind.
Context (P : entry -> Prop).
Context (HU : P Unreadable) (HF : forall m n b, P (File m n b))
  (HD : forall a b kids, Forall P kids -> P (Dir a b kids)).
Fixpoint entry_ind' (x : entry) : P x :=
  match x with
  | Unreadable => HU
  | File m n b => HF m n b
  | Dir a b kids =>
      HD a b kids ((fix go (l : list entry) : Forall P l :=
         match l with [] => List.Forall_nil P | y :: l => List.Forall_cons P y l (entry_ind' y) (go l) end) kids)
  end.
End entry_ind.

(** The inner loop of [clean_entry] is [clean_entries]. *)
Lemma clean_entry_dir cutoff depth a b kids c :
  clean_entry cutoff depth (Dir a b kids) c =
  let '(kids', c) := clean_dir cutoff (depth + 1) a kids c in
  (match kids' with [] => if b then None else Some (Dir a b []) | _ => Some (Dir a b kids') end, c).
Proof.
  assert (E : forall l c, (fix go (l : list entry) (c : counts) : list entry * counts :=
      match l with
      | [] => ([], c)
      | x :: l => let '(y, c) := clean_entry cutoff (depth + 1) x c in
                  let '(l, c) := go l c in (match y with Some y => y :: l | None => l end, c)
      end) l c = clean_entries cutoff (depth + 1) l c).
  { induction l as [|x l IH]; intros c0; simpl; [done|]. destruct (clean_entry _ _ x c0). by rewrite IH. }
  simpl. unfold clean_dir. destruct (_ || _); [done|]. by rewrite E.
Qed.

(** What is left keeps every leaf that is not gone, in order. *)
Definition remains (cutoff depth : Z) (before : list (bool * entry)) (after : list entry) : Prop :=
  all_leaves true depth after = List.filter (λ p, negb (gone cutoff p)) before.

Lemma unreached_kept cutoff l : Forall (λ p : bool * entry, p.1 = false) l ->
  List.filter (λ p, negb (gone cutoff p)) l = l /\ freed_by cutoff l = 0 /\ deleted_by cutoff l = 0
  /\ skipped_by cutoff l = 0.
Proof.
  induction 1 as [|[r x] l Hr _ IH]; [done|]. simpl in Hr. subst r.
  destruct IH as (E & F & D & S). unfold freed_by, deleted_by, skipped_by in *. simpl. by rewrite E, F, D, S.
Qed.

Lemma leaves_unreached depth x : Forall (λ p : bool * entry, p.1 = false) (leaves false depth x).
Proof.
  revert depth. induction x as [| |a b kids IH] using entry_ind'; intros depth; simpl; [by repeat constructor..|].
  induction IH as [|x l Hx _ IHl]; simpl; [constructor|]. apply Forall_app. auto.
Qed.
Lemma all_unreached depth l : Forall (λ p : bool * entry, p.1 = false) (all_leaves false depth l).
Proof.
  unfold all_leaves. induction l as [|x l IH]; simpl; [constructor|]. apply Forall_app. split; [apply leaves_unreached|done].
Qed.

Definition option_list (y : option entry) : list entry := match y with Some y => [y] | None => [] end.

(** An entry is cleaned as promised, at any depth. *)
Definition entry_ok (cutoff : Z) (x : entry) : Prop := forall depth c,
  let '(y, c') := clean_entry cutoff depth x c in
  remains cutoff depth (leaves true depth x) (option_list y) /\ tallied cutoff (leaves true depth x) c c'.

Lemma entries_ok cutoff l : Forall (entry_ok cutoff) l -> forall depth c,
  let '(l', c') := clean_entries cutoff depth l c in
  remains cutoff depth (all_leaves true depth l) l' /\ tallied cutoff (all_leaves true depth l) c c'.
Proof.
  induction 1 as [|x l Hx _ IH]; intros depth c; simpl; [split; [done|apply tallied_nil]|].
  specialize (Hx depth c). destruct (clean_entry cutoff depth x c) as [y c1]. destruct Hx as [R1 T1].
  specialize (IH depth c1). destruct (clean_entries cutoff depth l c1) as [l' c2]. destruct IH as [R2 T2].
  unfold remains, all_leaves in *. simpl. split; [|by eapply tallied_app].
  rewrite List.filter_app, <- R1, <- R2. destruct y; simpl; [by rewrite app_nil_r|done].
Qed.

Lemma one_leaf cutoff x c c' : tallied cutoff [(true, x)] c c' <->
  u64 (freed c') = u64 (freed c + if doomed cutoff x then len_of x else 0)
  /\ u64 (deleted c') = u64 (deleted c + if doomed cutoff x then 1 else 0)
  /\ u64 (skipped c') = u64 (skipped c + if doomed cutoff x then 0 else 1).
Proof.
  unfold tallied, freed_by, deleted_by, skipped_by, gone. simpl. rewrite !Z.add_0_r.
  by destruct (doomed cutoff x).
Qed.

Lemma entries_dir_ok cutoff a l : Forall (entry_ok cutoff) l -> forall depth c,
  let r := negb ((MAX_DEPTH <? depth) || negb a) in
  let '(l', c') := clean_dir cutoff depth a l c in
  all_leaves r depth l' = List.filter (λ p, negb (gone cutoff p)) (all_leaves r depth l)
  /\ tallied cutoff (all_leaves r depth l) c c'.
Proof.
  intros Hl depth c. unfold clean_dir. destruct (_ || negb a); cbn [negb]; [|by apply entries_ok].
  destruct (unreached_kept cutoff _ (all_unreached depth l)) as (E & F & D & S). split; [by rewrite E|].
  unfold tallied. by rewrite F, D, S, !Z.add_0_r.
Qed.

Lemma every_entry_ok cutoff x : entry_ok cutoff x.
Proof.
  induction x as [|m n b|a b kids IH] using entry_ind'; intros depth c.
  - simpl. split; [done|]. rewrite one_leaf. simpl. by rewrite !Z.add_0_r, u64_idem.
  - simpl. destruct m as [m|]; [|split; [done|]; rewrite one_leaf; simpl; by rewrite !Z.add_0_r, u64_idem].
    rewrite Z.leb_antisym. destruct (m <? cutoff) eqn:Em; cbn [negb]; [destruct b|];
      (split; [unfold remains, gone; simpl; by rewrite Em|]); rewrite one_leaf; simpl; rewrite Em; simpl;
      by rewrite ?Z.add_0_r, ?u64_idem.
  - rewrite clean_entry_dir. pose proof (entries_dir_ok cutoff a kids IH (depth + 1) c) as H. cbv zeta in H.
    destruct (clean_dir cutoff (depth + 1) a kids c) as [kids' c']. destruct H as [R T].
    split; [|exact T]. unfold remains. simpl leaves. fold (all_leaves (negb ((MAX_DEPTH <? depth + 1) || negb a)) (depth + 1) kids).
    rewrite <- R. destruct kids' as [|k ks]; [by destruct b|].
    unfold all_leaves. simpl. by rewrite app_nil_r.
Qed.

(** The leaves of the temporary folders, before or after. *)
Definition temp_leaves (dirs : list (bool * list entry)) : list (bool * entry) :=
  concat (map (λ d, all_leaves (negb ((MAX_DEPTH <? 0) || negb d.1)) 0 d.2) dirs).

Lemma clean_all_ok cutoff dirs c : let '(ds, c') := clean_all cutoff dirs c in
  temp_leaves (combine (map fst dirs) ds) = List.filter (λ p, negb (gone cutoff p)) (temp_leaves dirs)
  /\ tallied cutoff (temp_leaves dirs) c c'.
Proof.
  revert c. induction dirs as [|[a d] dirs IH]; intros c; cbn [clean_all]; [split; [done|apply tallied_nil]|].
  assert (Hd : Forall (entry_ok cutoff) d) by (apply Forall_forall; intros; apply every_entry_ok).
  pose proof (entries_dir_ok cutoff a d Hd 0 c) as H. cbv zeta in H.
  destruct (clean_dir cutoff 0 a d c) as [d' c1]. destruct H as [R1 T1].
  specialize (IH c1). destruct (clean_all cutoff dirs c1) as [ds c2]. destruct IH as [R2 T2].
  unfold temp_leaves in *. cbn [map concat combine fst snd]. split; [|by eapply tallied_app].
  by rewrite List.filter_app, <- R1, <- R2.
Qed.

(** A cleaning deletes exactly the files last modified more than an hour
    ago that are not in use, in folders it can list, at most sixteen deep:
    every other file is still there afterwards, in its place; and the counts it
    reports are those of the files deleted, their sizes and the files passed
    over (modulo the counters' width), plus the recycle bin when that is asked
    for. *)
Theorem cleanup_exact now include_bin bin dirs :
  let cutoff := now - 3600 in
  let '(ds, c) := run_disk_cleanup now include_bin bin dirs in
  temp_leaves (combine (map fst dirs) ds) = List.filter (λ p, negb (gone cutoff p)) (temp_leaves dirs)
  /\ let '(size, items) := match bin with Some b => if include_bin then b else (0, 0) | None => (0, 0) end in
     u64 (freed c) = u64 (freed_by cutoff (temp_leaves dirs) + size)
     /\ u64 (deleted c) = u64 (deleted_by cutoff (temp_leaves dirs) + items)
     /\ u64 (skipped c) = u64 (skipped_by cutoff (temp_leaves dirs)).
Proof.
  cbv zeta. unfold run_disk_cleanup. pose proof (clean_all_ok (now - 3600) dirs (mkCounts 0 0 0)) as H.
  destruct (clean_all _ dirs _) as [ds c]. destruct H as [R (F & D & S)]. split; [exact R|].
  simpl in F, D, S. destruct bin as [[size items]|]; [destruct include_bin|]; simpl;
    rewrite ?Z.add_0_r; [|done|done].
  rewrite !u64_idem. rewrite <- (u64_add (freed c)), F, u64_add, <- (u64_add (deleted c)), D, u64_add. done.
Qed.

Example cleanup_example :
  run_disk_cleanup 10000 true (Some (5, 1))
    [(true, [File (Some 100) 7 false; File (Some 9000) 8 false; Dir true true [File (Some 1) 2 false]; File None 9 false])]
  = ([[File (Some 9000) 8 false; File None 9 false]], mkCounts 14 3 2).
Proof. vm_compute. reflexivity. Qed.
End Cleanup.
