(* ===== verification/Service.v ===== *)
(** * Services, subscribers and the server ([src/src/server/service.rs],
      [src/src/server.rs], and the subscribers of [server/connection.rs] and
      [server/input_service.rs])

    A service sends messages to the connections subscribed to it; a service
    that needs a snapshot keeps new subscribers apart until the snapshot was
    sent to them.  What a subscriber promises the service and what a service
    promises the server are classes ([Subscriber], [ServiceI]); the two
    subscribers of the program and the service itself are instances.  Sending
    answers with what is put into which queue.  [HashMap]s are finite maps,
    whose iteration order stands for the unspecified one. *)

From S2P Require Import Prelude RustStr.
#[local] Open Scope Z_scope.

Module Service.
(** The messages of the protocol, as far as the code looks into them. *)
Class Messages := {
  Msg : Type;
  is_video_frame : Msg -> bool;
  is_switch_display : Msg -> bool;
  cursor_data : Msg -> option Z;        (** the id of a [CursorData] *)
  set_cursor_id : Z -> Msg;
}.

(** A queue to the task that writes to the peer. *)
Abbreviation chan := Z.
Record ConnInner := mkInner { id : Z; tx : option chan; tx_video : option chan }.

Section messages.
Context {msgs : Messages}.

Abbreviation delivery := (chan * Msg)%type.

Definition conn_send (c : ConnInner) (msg : Msg) : list delivery :=
  let tx_by_video := is_video_frame msg || is_switch_display msg in
  match (if tx_by_video then tx_video c else tx c) with
  | Some q => [(q, msg)]
  | None => []
  end.

(** ** What a service asks of its subscribers *)
Class Subscriber (T : Type) := {
  sub_id : T -> Z;
  sub_send : Msg -> T -> T * list delivery;
  sub_from : ConnInner -> T;
  sub_send_id m t : sub_id (sub_send m t).1 = sub_id t;
  sub_from_id c : sub_id (sub_from c) = id c;
}.

#[export] Instance conn_subscriber : Subscriber ConnInner.
Proof. by refine {| sub_id := id; sub_send := λ m c, (c, conn_send c m); sub_from := λ c, c |}. Defined.

(** The cursor's subscriber sends a shape once and afterwards its id only. *)
Record MouseCursorSub := mkCursorSub { inner : ConnInner; cached : gmap Z Msg }.
Definition cursor_send (msg : Msg) (s : MouseCursorSub) : MouseCursorSub * list delivery :=
  match cursor_data msg with
  | Some i =>
      match cached s !! i with
      | Some m => (s, conn_send (inner s) m)
      | None => (mkCursorSub (inner s) (<[i := set_cursor_id i]> (cached s)), conn_send (inner s) msg)
      end
  | None => (s, conn_send (inner s) msg)
  end.
#[export] Instance cursor_subscriber : Subscriber MouseCursorSub.
Proof.
  refine {| sub_id := λ s, id (inner s); sub_send := cursor_send; sub_from := λ c, mkCursorSub c ∅ |}; [|done].
  intros m t. unfold cursor_send. by repeat case_goal.
Defined.

(** ** The service *)
Record ServiceInner (T : Type) := mkSvc {
  name : string; need_snapshot : bool; active : bool;
  subscribes : gmap Z T; new_subscribes : gmap Z T; options : gmap string string;
}.
Arguments mkSvc {T} _ _ _ _ _ _.
Arguments name {T} _.
Arguments need_snapshot {T} _.
Arguments active {T} _.
Arguments subscribes {T} _.
Arguments new_subscribes {T} _.
Arguments options {T} _.

Section service.
Context {T : Type} {sub : Subscriber T}.
Abbreviation svc := (ServiceInner T).

Definition new (nm : string) (snap : bool) : svc := mkSvc nm snap true ∅ ∅ ∅.
Definition set_subs (a b : gmap Z T) (s : svc) : svc := mkSvc (name s) (need_snapshot s) (active s) a b (options s).

Definition is_subed (i : Z) (s : svc) : bool :=
  match subscribes s !! i with Some _ => true | None => false end
  || match new_subscribes s !! i with Some _ => true | None => false end.
Definition on_subscribe (c : ConnInner) (s : svc) : svc :=
  match subscribes s !! id c with
  | Some _ => s
  | None =>
      if need_snapshot s then set_subs (subscribes s) (<[id c := sub_from c]> (new_subscribes s)) s
      else set_subs (<[id c := sub_from c]> (subscribes s)) (new_subscribes s) s
  end.
Definition on_unsubscribe (i : Z) (s : svc) : svc :=
  match subscribes s !! i with
  | Some _ => set_subs (delete i (subscribes s)) (new_subscribes s) s
  | None => set_subs (subscribes s) (delete i (new_subscribes s)) s
  end.
Definition join (s : svc) : svc :=
  mkSvc (name s) (need_snapshot s) false (subscribes s) (new_subscribes s) (options s).
Definition get_option (k : string) (s : svc) : option string := options s !! k.
Definition set_option (k v : string) (s : svc) : option string * svc :=
  (options s !! k, mkSvc (name s) (need_snapshot s) (active s) (subscribes s) (new_subscribes s) (<[k := v]> (options s))).
Definition is_option_true (k : string) (s : svc) : bool :=
  match get_option k s with Some v => String.eqb v "1" | None => false end.
Definition set_option_bool (k : string) (v : bool) (s : svc) : svc := (set_option k (if v then "1" else "0") s).2.
Definition has_subscribes (s : svc) : bool :=
  negb (Nat.eqb (size (subscribes s)) 0) || negb (Nat.eqb (size (new_subscribes s)) 0).
Definition ok (s : svc) : bool := active s && has_subscribes s.

(** Sending [msg] to the subscribers of [m] that [p] selects by key and
    value: the subscribers afterwards, and what was queued, by subscriber. *)
Definition send_some (p : Z -> T -> bool) (msg : Msg) (m : gmap Z T) : gmap Z T * list (Z * list delivery) :=
  (map_imap (λ i t, Some (if p i t then (sub_send msg t).1 else t)) m,
   omap (λ kv, if p kv.1 kv.2 then Some (kv.1, (sub_send msg kv.2).2) else None) (map_to_list m)).

Definition send_sel (p : Z -> T -> bool) (msg : Msg) (s : svc) : svc * list (Z * list delivery) :=
  let '(subs, ds) := send_some p msg (subscribes s) in (set_subs subs (new_subscribes s) s, ds).
Definition send_shared (msg : Msg) : svc -> svc * list (Z * list delivery) := send_sel (λ _ _, true) msg.
Definition send_to_others (msg : Msg) (i : Z) := send_sel (λ k _, negb (k =? i)) msg.
Definition send_without (msg : Msg) (sub : Z) := send_sel (λ _ t, negb (sub =? sub_id t)) msg.
Definition send_to (msg : Msg) (i : Z) (s : svc) : svc * list (Z * list delivery) :=
  match subscribes s !! i with
  | Some t => let '(t, d) := sub_send msg t in (set_subs (<[i := t]> (subscribes s)) (new_subscribes s) s, [(i, d)])
  | None => (s, [])
  end.
Definition send_video_frame_shared (msg : Msg) (s : svc) : gset Z * (svc * list (Z * list delivery)) :=
  (list_to_set (map (λ kv, sub_id kv.2) (map_to_list (subscribes s))), send_shared msg s).

(** The two operations of a [ServiceSwap]: the snapshot's sends, and its
    end.  Between them the lock is free. *)
Definition send_new_subscribes (msg : Msg) (s : svc) : svc * list (Z * list delivery) :=
  let '(subs, ds) := send_some (λ _ _, true) msg (new_subscribes s) in (set_subs (subscribes s) subs s, ds).
Definition swap_new_subscribes (s : svc) : svc :=
  set_subs (map_fold (λ _ t m, <[sub_id t := t]> m) (subscribes s) (new_subscribes s)) ∅ s.

(** [snapshot] with a callback that sends [ms]: whether it succeeds or fails,
    dropping its handle ends it. *)
Fixpoint send_new_all (ms : list Msg) (s : svc) : svc * list (Z * list delivery) :=
  match ms with
  | [] => (s, [])
  | m :: ms => let '(s, d) := send_new_subscribes m s in
               let '(s, d') := send_new_all ms s in (s, d ++ d')
  end.
Definition snapshot (ms : list Msg) (s : svc) : svc * list (Z * list delivery) :=
  if Nat.eqb (size (new_subscribes s)) 0 then (s, [])
  else let '(s, d) := send_new_all ms s in (swap_new_subscribes s, d).

(** The steps of other threads, interleaved at the lock. *)
Inductive op : Type :=
  | OSub (c : ConnInner)
  | OUnsub (i : Z)
  | OSend (m : Msg)
  | OSendTo (m : Msg) (i : Z)
  | OSendOthers (m : Msg) (i : Z)
  | OSendWithout (m : Msg) (i : Z)
  | OSwapSend (m : Msg)
  | OSwapDrop
  | OSetOption (k v : string)
  | OJoin.
Definition exec (o : op) (s : svc) : svc * list (Z * list delivery) :=
  match o with
  | OSub c => (on_subscribe c s, [])
  | OUnsub i => (on_unsubscribe i s, [])
  | OSend m => send_shared m s
  | OSendTo m i => send_to m i s
  | OSendOthers m i => send_to_others m i s
  | OSendWithout m i => send_without m i s
  | OSwapSend m => send_new_subscribes m s
  | OSwapDrop => (swap_new_subscribes s, [])
  | OSetOption k v => ((set_option k v s).2, [])
  | OJoin => (join s, [])
  end.
Fixpoint run (ops : list op) (s : svc) : svc * list (Z * list delivery) :=
  match ops with
  | [] => (s, [])
  | o :: ops => let '(s, d) := exec o s in let '(s, d') := run ops s in (s, d ++ d')
  end.

(** ** One subscriber's view *)
Inductive view : Type := Absent | Waiting (t : T) | Live (t : T).
Definition view_sub (snap : bool) (c : ConnInner) (v : view) : view :=
  match v with Live t => v | _ => if snap then Waiting (sub_from c) else Live (sub_from c) end.
Definition view_send (m : Msg) (v : view) : view * list delivery :=
  match v with Live t => let '(t, d) := sub_send m t in (Live t, d) | _ => (v, []) end.
Definition view_snap (m : Msg) (v : view) : view * list delivery :=
  match v with Waiting t => let '(t, d) := sub_send m t in (Waiting t, d) | _ => (v, []) end.

(** What an operation means for the subscriber [i]. *)
Definition view_exec (snap : bool) (i : Z) (o : op) (v : view) : view * list delivery :=
  match o with
  | OSub c => (if decide (id c = i) then view_sub snap c v else v, [])
  | OUnsub j => (if decide (j = i) then Absent else v, [])
  | OSend m => view_send m v
  | OSendTo m j => if decide (j = i) then view_send m v else (v, [])
  | OSendOthers m j | OSendWithout m j => if decide (j = i) then (v, []) else view_send m v
  | OSwapSend m => view_snap m v
  | OSwapDrop => (match v with Waiting t => Live t | _ => v end, [])
  | OSetOption _ _ | OJoin => (v, [])
  end.
Fixpoint view_run (snap : bool) (i : Z) (ops : list op) (v : view) : view * list delivery :=
  match ops with
  | [] => (v, [])
  | o :: ops => let '(v, d) := view_exec snap i o v in let '(v, d') := view_run snap i ops v in (v, d ++ d')
  end.

Definition project (i : Z) (s : svc) : view :=
  match subscribes s !! i with
  | Some t => Live t
  | None => match new_subscribes s !! i with Some t => Waiting t | None => Absent end
  end.
Definition of_sub (i : Z) (ds : list (Z * list delivery)) : list delivery :=
  concat (map snd (List.filter (λ d, d.1 =? i) ds)).

(** *** The invariant of a service *)
Definition keyed (m : gmap Z T) : Prop := forall i t, m !! i = Some t -> sub_id t = i.
Record svc_ok (s : svc) : Prop := {
  ok_subs : keyed (subscribes s);
  ok_new : keyed (new_subscribes s);
  ok_apart : forall i t, subscribes s !! i = Some t -> new_subscribes s !! i = None;
  ok_snap : need_snapshot s = false -> new_subscribes s = ∅;
}.

Lemma keyed_insert m i t : keyed m -> sub_id t = i -> keyed (<[i := t]> m).
Proof.
  intros Hm Ht j u. destruct (decide (i = j)) as [->|Hne].
  - rewrite lookup_insert_eq. by intros [= <-].
  - rewrite lookup_insert_ne by done. apply Hm.
Qed.
Lemma keyed_delete m i : keyed m -> keyed (delete i m).
Proof. intros Hm j u [_ H]%lookup_delete_Some. by apply Hm. Qed.

Lemma send_some_lookup p msg m i : (send_some p msg m).1 !! i
  = match m !! i with Some t => Some (if p i t then (sub_send msg t).1 else t) | None => None end.
Proof. unfold send_some. simpl. rewrite map_lookup_imap. by destruct (m !! i). Qed.

Lemma keyed_send p msg m : keyed m -> keyed (send_some p msg m).1.
Proof.
  intros Hm i t. rewrite send_some_lookup. destruct (m !! i) as [u|] eqn:E; [|done].
  intros [= <-]. destruct (p i u); [rewrite sub_send_id|]; by apply Hm.
Qed.

(** Merging the new subscribers: they replace none of the old. *)
Lemma swap_lookup (a b : gmap Z T) i : keyed b ->
  map_fold (λ _ t m, <[sub_id t := t]> m) a b !! i = match b !! i with Some t => Some t | None => a !! i end.
Proof.
  revert i. apply (map_fold_weak_ind (λ r (m : gmap Z T), forall i, keyed m ->
    r !! i = match m !! i with Some t => Some t | None => a !! i end)).
  - intros i _. by rewrite lookup_empty.
  - intros j t m r Hj IH i Hm.
    assert (Ht : sub_id t = j) by (apply Hm; by rewrite lookup_insert_eq).
    assert (Hm' : keyed m).
    { intros k u Hk. apply Hm. rewrite lookup_insert_ne; [done|]. intros ->. congruence. }
    rewrite Ht. destruct (decide (j = i)) as [->|Hne].
    + by rewrite !lookup_insert_eq.
    + rewrite !lookup_insert_ne by done. by apply IH.
Qed.

Lemma exec_snap o s : need_snapshot (exec o s).1 = need_snapshot s.
Proof.
  destruct o; simpl; try done.
  - unfold on_subscribe. by repeat case_goal.
  - unfold on_unsubscribe. by repeat case_goal.
  - unfold send_to. destruct (subscribes s !! i); [|done]. by destruct (sub_send m t).
Qed.

Lemma sel_ok p msg s : svc_ok s -> svc_ok (send_sel p msg s).1.
Proof.
  intros [H1 H2 H3 H4]. unfold send_sel. pose proof (keyed_send p msg _ H1) as Hk.
  pose proof (send_some_lookup p msg (subscribes s)) as Hl.
  destruct (send_some p msg (subscribes s)) as [subs ds]. simpl in Hk, Hl. split; simpl; [done|done| |done].
  intros i t. rewrite Hl. destruct (subscribes s !! i) eqn:E; [|done]. intros _. by eapply H3.
Qed.
Lemma swap_send_ok msg s : svc_ok s -> svc_ok (send_new_subscribes msg s).1.
Proof.
  intros [H1 H2 H3 H4]. unfold send_new_subscribes. pose proof (keyed_send (λ _ _, true) msg _ H2) as Hk.
  pose proof (send_some_lookup (λ _ _, true) msg (new_subscribes s)) as Hl.
  destruct (send_some _ msg (new_subscribes s)) as [subs ds]. simpl in Hk, Hl. split; simpl; [done|done| |].
  - intros i t Hi. by rewrite Hl, (H3 i t).
  - intros Hn. apply map_eq. intros i. by rewrite Hl, H4, !lookup_empty.
Qed.

Lemma exec_ok o s : svc_ok s -> svc_ok (exec o s).1.
Proof.
  intros H. pose proof H as [H1 H2 H3 H4]. destruct o; cbn [exec fst];
    try (by apply sel_ok); try (by apply swap_send_ok); try (by split).
  - unfold on_subscribe. destruct (subscribes s !! id c) eqn:E; [done|].
    destruct (need_snapshot s) eqn:En; split; simpl; try done; try by (apply keyed_insert; [|apply sub_from_id]).
    + intros i t Hi. rewrite lookup_insert_ne; [by eapply H3|]. intros <-. congruence.
    + congruence.
    + intros i t Hi. by rewrite H4, lookup_empty.
    + intros _. by apply H4.
  - unfold on_unsubscribe. destruct (subscribes s !! i) eqn:E; split; simpl; try done; try by apply keyed_delete.
    + intros j u [_ Hj]%lookup_delete_Some. by eapply H3.
    + intros j u Hj. destruct (decide (i = j)) as [->|Hne]; [apply lookup_delete_eq|].
      rewrite lookup_delete_ne by done. by eapply H3.
    + intros Hn. rewrite H4 by done. apply delete_empty.
  - unfold send_to. destruct (subscribes s !! i) as [t|] eqn:E; [|by split].
    pose proof (sub_send_id m t) as Hs. destruct (sub_send m t) as [u d]. simpl in Hs.
    split; simpl; try done.
    + apply keyed_insert; [done|]. rewrite Hs. by apply H1.
    + intros j v Hj. destruct (decide (i = j)) as [->|Hne]; [by eapply H3|].
      rewrite lookup_insert_ne in Hj by done. by eapply H3.
  - split; simpl; [|intros i t Hi; by rewrite lookup_empty in Hi|intros; apply lookup_empty|done].
    intros i t. rewrite swap_lookup by done. destruct (new_subscribes s !! i) eqn:E; [intros [= <-]; by apply H2|apply H1].
Qed.

Lemma new_ok nm snap : svc_ok (new nm snap).
Proof. by split. Qed.

(** *** One subscriber at a time *)
Lemma of_sub_app i a b : of_sub i (a ++ b) = of_sub i a ++ of_sub i b.
Proof. unfold of_sub. by rewrite List.filter_app, map_app, concat_app. Qed.

Lemma of_sub_select (p : Z -> T -> bool) msg i (l : list (Z * T)) : NoDup l.*1 ->
  of_sub i (omap (λ kv, if p kv.1 kv.2 then Some (kv.1, (sub_send msg kv.2).2) else None) l)
  = match List.find (λ kv, kv.1 =? i) l with
    | Some (_, t) => if p i t then (sub_send msg t).2 else []
    | None => []
    end.
Proof.
  assert (H0 : forall l : list (Z * T), i ∉ l.*1 ->
    of_sub i (omap (λ kv, if p kv.1 kv.2 then Some (kv.1, (sub_send msg kv.2).2) else None) l) = []).
  { induction l0 as [|[k t] l0 IH]; [done|]. cbn. rewrite not_elem_of_cons. intros [Hk Hl].
    destruct (p k t); [|by apply IH]. unfold of_sub in *. simpl.
    destruct (Z.eqb_spec k i); [congruence|]. by apply IH. }
  induction l as [|[k t] l IH]; [done|]. cbn. intros [Hk Hl]%NoDup_cons.
  destruct (Z.eqb_spec k i) as [->|Hne].
  - destruct (p i t); [|by apply H0].
    unfold of_sub in *. simpl. rewrite Z.eqb_refl. simpl. rewrite H0 by done. apply app_nil_r.
  - destruct (p k t); [|by apply IH]. unfold of_sub in *. simpl.
    destruct (Z.eqb_spec k i); [congruence|]. by apply IH.
Qed.

Lemma find_map_to_list (m : gmap Z T) i :
  List.find (λ kv, kv.1 =? i) (map_to_list m) = (λ t, (i, t)) <$> m !! i.
Proof.
  destruct (List.find _ _) as [[k t]|] eqn:E.
  - apply find_some in E as [Hin Hk]. apply Z.eqb_eq in Hk. simpl in Hk. subst k.
    apply list_elem_of_In, elem_of_map_to_list in Hin. by rewrite Hin.
  - destruct (m !! i) as [t|] eqn:Em; [|done].
    apply elem_of_map_to_list, list_elem_of_In in Em. pose proof (find_none _ _ E _ Em) as H. simpl in H. lia.
Qed.

Lemma send_some_sub p msg m i : of_sub i (send_some p msg m).2
  = match m !! i with Some t => if p i t then (sub_send msg t).2 else [] | None => [] end.
Proof.
  unfold send_some. simpl. rewrite of_sub_select by apply NoDup_fst_map_to_list.
  rewrite find_map_to_list. by destruct (m !! i).
Qed.

Lemma sel_view p msg s i : svc_ok s ->
  let '(s', d) := send_sel p msg s in
  project i s' = match project i s with
                 | Live t => Live (if p i t then (sub_send msg t).1 else t) | v => v end
  /\ of_sub i d = match project i s with Live t => if p i t then (sub_send msg t).2 else [] | _ => [] end.
Proof.
  intros Hok. pose proof (send_some_lookup p msg (subscribes s) i) as Hl.
  pose proof (send_some_sub p msg (subscribes s) i) as Hd.
  unfold send_sel. destruct (send_some p msg (subscribes s)) as [subs ds]. simpl in *.
  unfold project. simpl. rewrite Hl, Hd. destruct (subscribes s !! i); [done|]. by destruct (new_subscribes s !! i).
Qed.

Lemma exec_view o s i : svc_ok s ->
  (project i (exec o s).1, of_sub i (exec o s).2) = view_exec (need_snapshot s) i o (project i s).
Proof.
  intros Hok. pose proof Hok as [H1 H2 H3 H4]. destruct o; cbn [exec view_exec fst snd]; try done.
  - unfold on_subscribe, view_sub, of_sub. simpl. f_equal. unfold project. case_decide as Ei.
    + subst i. destruct (subscribes s !! id c) eqn:E; [by rewrite E|].
      destruct (need_snapshot s) eqn:En; simpl; rewrite ?E, lookup_insert_eq; [by destruct (new_subscribes s !! id c)|].
      by destruct (new_subscribes s !! id c).
    + destruct (subscribes s !! id c); [done|].
      destruct (need_snapshot s); simpl; by rewrite lookup_insert_ne.
  - unfold on_unsubscribe, of_sub. simpl. f_equal. unfold project. case_decide as Ei.
    + subst i0. destruct (subscribes s !! i) eqn:E; simpl; rewrite ?E, lookup_delete_eq; [|done].
      by rewrite (H3 i t).
    + destruct (subscribes s !! i0); simpl; by rewrite lookup_delete_ne.
  - pose proof (sel_view (λ _ _, true) m s i Hok) as H. unfold send_shared.
    destruct (send_sel _ m s) as [s' d]. cbn [fst snd]. destruct H as [-> ->]. unfold view_send.
    destruct (project i s); try done. by destruct (sub_send m t).
  - unfold send_to, view_send, project. case_decide as Ei.
    + subst i0. destruct (subscribes s !! i) as [t|] eqn:E; simpl.
      * destruct (sub_send m t) as [u d]. simpl. rewrite lookup_insert_eq. unfold of_sub. simpl.
        rewrite Z.eqb_refl. simpl. by rewrite app_nil_r.
      * rewrite E. by destruct (new_subscribes s !! i).
    + destruct (subscribes s !! i0) as [t|] eqn:E; [|done]. destruct (sub_send m t) as [u d]. simpl.
      rewrite lookup_insert_ne by done. unfold of_sub. simpl. by destruct (Z.eqb_spec i0 i).
  - pose proof (sel_view (λ k _, negb (k =? i0)) m s i Hok) as H. unfold send_to_others.
    destruct (send_sel _ m s) as [s' d]. cbn [fst snd]. destruct H as [-> ->]. unfold view_send.
    rewrite (Z.eqb_sym i i0). destruct (Z.eqb_spec i0 i); [rewrite decide_True by done|rewrite decide_False by done];
      destruct (project i s); simpl; try done; by destruct (sub_send m t).
  - pose proof (sel_view (λ _ t, negb (i0 =? sub_id t)) m s i Hok) as H. unfold send_without.
    destruct (send_sel _ m s) as [s' d]. cbn [fst snd]. destruct H as [-> ->].
    assert (Hp : forall t, project i s = Live t -> sub_id t = i).
    { unfold project. intros t. destruct (subscribes s !! i) eqn:E; [intros [= <-]; by apply H1|].
      by destruct (new_subscribes s !! i). }
    unfold view_send. destruct (project i s) as [| |t] eqn:E; [by case_decide..|]. rewrite (Hp t) by done.
    destruct (Z.eqb_spec i0 i); [rewrite decide_True by done|rewrite decide_False by done]; simpl; [done|].
    by destruct (sub_send m t).
  - pose proof (send_some_lookup (λ _ _, true) m (new_subscribes s) i) as Hl.
    pose proof (send_some_sub (λ _ _, true) m (new_subscribes s) i) as Hd. unfold send_new_subscribes.
    destruct (send_some _ m (new_subscribes s)) as [subs ds]. simpl in *. unfold project, view_snap. simpl.
    rewrite Hl, Hd. destruct (subscribes s !! i) eqn:E; [by rewrite (H3 i t)|].
    destruct (new_subscribes s !! i); [|done]. by destruct (sub_send m t).
  - unfold of_sub, project. simpl. f_equal. rewrite swap_lookup by done. rewrite lookup_empty.
    destruct (new_subscribes s !! i) eqn:E.
    + destruct (subscribes s !! i) eqn:E'; [|done]. by rewrite (H3 i t0) in E.
    + by destruct (subscribes s !! i).
Qed.

(** C16: a service is one small automaton per connection: under any interleaving
    of its operations, what a connection receives and the state of its
    subscription depend on nothing but that automaton, [view_exec], and on the
    operations that name it.  A pending connection receives what the snapshot
    sends and nothing else; a live one receives, in order and once each, what is
    sent to all, to it, or to all but others; an absent one receives nothing.
    A subscription that comes in while a snapshot is being sent misses what was
    sent of it and still becomes live ([late_subscriber_misses_snapshot]). *)
Theorem service_is_its_views ops nm snap i :
  (project i (run ops (new nm snap)).1, of_sub i (run ops (new nm snap)).2) = view_run snap i ops Absent.
Proof.
  assert (Hg : forall s, svc_ok s -> need_snapshot s = snap ->
    (project i (run ops s).1, of_sub i (run ops s).2) = view_run snap i ops (project i s)).
  { induction ops as [|o ops IH]; intros s Hok Hs; [done|]. cbn [run view_run].
    pose proof (exec_view o s i Hok) as He. pose proof (exec_ok o s Hok) as Hok'.
    pose proof (exec_snap o s) as Hsn. destruct (exec o s) as [s1 d]. simpl in *. rewrite Hs in *.
    rewrite <- He. specialize (IH s1 Hok' Hsn). destruct (run ops s1) as [s2 d']. simpl in *.
    rewrite <- IH. by rewrite of_sub_app. }
  rewrite Hg; [done|apply new_ok|done].
Qed.

(** A snapshot is its sends and its end, with nothing in between unless
    another thread's operation comes in. *)
Lemma snapshot_is_ops ms s : size (new_subscribes s) <> 0%nat ->
  snapshot ms s = run (map OSwapSend ms ++ [OSwapDrop]) s.
Proof.
  intros Hs. unfold snapshot. destruct (Nat.eqb_spec (size (new_subscribes s)) 0); [done|]. clear Hs n.
  revert s. induction ms as [|m ms IH]; intros s; [done|]. cbn [map app run send_new_all exec].
  destruct (send_new_subscribes m s) as [s1 d1]. rewrite <- (IH s1).
  by destruct (send_new_all ms s1) as [s2 d2].
Qed.
End service.

(** ** The cursor's stream *)
Fixpoint cursor_stream (ms : list Msg) (s : MouseCursorSub) : list delivery :=
  match ms with
  | [] => []
  | m :: ms => let '(s, d) := cursor_send m s in d ++ cursor_stream ms s
  end.

(** What a peer that keeps the shapes it got makes of the stream;
    [cursor_id]: the id of a message that carries only that. *)
Fixpoint rebuild (cursor_id : Msg -> option Z) (cache : gmap Z Msg) (ms : list Msg) : list (option Msg) :=
  match ms with
  | [] => []
  | m :: ms =>
      match cursor_id m with
      | Some i => (cache !! i) :: rebuild cursor_id cache ms
      | None => Some m :: rebuild cursor_id
                  (match cursor_data m with Some i => <[i := m]> cache | None => cache end) ms
      end
  end.

Section cursor.
Context (cursor_id : Msg -> option Z) (q qv : chan) (i0 : Z).
Context (id_of_set : forall i, cursor_id (set_cursor_id i) = Some i).

Lemma conn_send_both m : (conn_send (mkInner i0 (Some q) (Some qv)) m).*2 = [m].
Proof. unfold conn_send. simpl. by destruct (_ || _). Qed.

Lemma rebuild_stream ms cache done_ :
  (forall i, cache !! i = None <-> done_ !! i = None) ->
  (forall i m, done_ !! i = Some m -> m = set_cursor_id i) ->
  (forall m, In m ms -> cursor_id m = None) ->
  (forall m m' i, (In m ms \/ cache !! i = Some m) -> In m' ms ->
     (cursor_data m = Some i \/ cache !! i = Some m) -> cursor_data m' = Some i -> m = m') ->
  rebuild cursor_id cache (cursor_stream ms (mkCursorSub (mkInner i0 (Some q) (Some qv)) done_)).*2 = map Some ms.
Proof.
  revert cache done_. induction ms as [|m ms IH]; intros cache done_ Hd Hs Hn Hc; [done|].
  cbn [cursor_stream]. unfold cursor_send. cbn [cached inner].
  assert (Hn' : forall x, In x ms -> cursor_id x = None) by (intros; apply Hn; by right).
  assert (Hc' : forall x x' i, (In x ms \/ cache !! i = Some x) -> In x' ms ->
     (cursor_data x = Some i \/ cache !! i = Some x) -> cursor_data x' = Some i -> x = x').
  { intros x x' i [Hx|Hx] Hx'; [|apply Hc; [by right|by right]]. apply Hc; [left; by right|by right]. }
  destruct (cursor_data m) as [i|] eqn:Em.
  - destruct (done_ !! i) as [d|] eqn:Ed.
    + rewrite fmap_app, conn_send_both. cbn [app rebuild].
      rewrite (Hs i d Ed), id_of_set. cbn [map].
      destruct (cache !! i) as [m0|] eqn:Ec; [|apply Hd in Ec; congruence].
      rewrite (Hc m0 m i (or_intror Ec) (or_introl eq_refl) (or_intror Ec) Em). f_equal. by apply IH.
    + rewrite fmap_app, conn_send_both. cbn [app rebuild map].
      rewrite Hn, Em by by left. f_equal. apply IH; [| |done|].
      * intros j. destruct (decide (i = j)) as [->|Hne]; [by rewrite !lookup_insert_eq|].
        by rewrite !lookup_insert_ne.
      * intros j d. destruct (decide (i = j)) as [->|Hne]; [rewrite lookup_insert_eq; by intros [= <-]|].
        rewrite lookup_insert_ne by done. apply Hs.
      * intros x x' j Hx Hx' Hd' He. destruct (decide (i = j)) as [->|Hne].
        -- rewrite lookup_insert_eq in Hx, Hd'. apply (Hc x x' j); [|by right| |done].
           ++ destruct Hx as [Hx|[= ->]]; left; [by right|by left].
           ++ destruct Hd' as [Hd'|[= ->]]; by left.
        -- rewrite lookup_insert_ne in Hx, Hd' by done. by apply (Hc' x x' j).
  - rewrite fmap_app, conn_send_both. cbn [app rebuild map]. rewrite Hn, Em by by left. f_equal. by apply IH.
Qed.

(** The cursor's subscriber loses nothing by sending a shape only once: a
    peer that keeps the shapes it was sent rebuilds from the stream exactly the
    messages that were sent to the subscriber, as long as two shapes with the
    same id are the same. *)
Theorem cursor_stream_rebuilds ms :
  (forall m, In m ms -> cursor_id m = None) ->
  (forall m m' i, In m ms -> In m' ms -> cursor_data m = Some i -> cursor_data m' = Some i -> m = m') ->
  rebuild cursor_id ∅ (cursor_stream ms (sub_from (mkInner i0 (Some q) (Some qv)))).*2 = map Some ms.
Proof.
  intros Hn Hc. apply rebuild_stream; [done|by intros i m Hi%lookup_empty_Some|done|].
  intros m m' i [Hm|Hm] Hm' [Hd|Hd] He; try by rewrite lookup_empty in Hm.
  - by apply (Hc m m' i).
  - by rewrite lookup_empty in Hd.
Qed.
End cursor.

(** ** What a service promises the server *)
Class ServiceI (S : Type) := {
  svc_name : S -> string;
  svc_subscribe : ConnInner -> S -> S;
  svc_unsubscribe : Z -> S -> S;
  svc_is_subed : Z -> S -> bool;
  svc_set_option : string -> string -> S -> S;
  svc_join : S -> S;
  svc_good : S -> Prop;
  good_subscribe c s : svc_good s -> svc_good (svc_subscribe c s);
  good_unsubscribe i s : svc_good s -> svc_good (svc_unsubscribe i s);
  name_subscribe c s : svc_name (svc_subscribe c s) = svc_name s;
  name_unsubscribe i s : svc_name (svc_unsubscribe i s) = svc_name s;
  subed_subscribe c i s : svc_good s -> svc_is_subed i (svc_subscribe c s) = (svc_is_subed i s || (id c =? i));
  subed_unsubscribe j i s : svc_good s -> svc_is_subed i (svc_unsubscribe j s) = (svc_is_subed i s && negb (j =? i));
  good_option k v s : svc_good s -> svc_good (svc_set_option k v s);
  name_option k v s : svc_name (svc_set_option k v s) = svc_name s;
  subed_option k v i s : svc_is_subed i (svc_set_option k v s) = svc_is_subed i s;
}.

Lemma is_subed_project {T} `{!Subscriber T} i (s : ServiceInner T) :
  is_subed i s = match project i s with Absent => false | _ => true end.
Proof. unfold is_subed, project. destruct (subscribes s !! i); [done|]. by destruct (new_subscribes s !! i). Qed.

Lemma project_after {T} `{!Subscriber T} o i (s : ServiceInner T) : svc_ok s ->
  project i (exec o s).1 = (view_exec (need_snapshot s) i o (project i s)).1.
Proof. intros H0. by rewrite <- exec_view. Qed.

#[export] Instance inner_service {T} `{!Subscriber T} : ServiceI (ServiceInner T).
Proof.
  refine {| svc_name := name; svc_subscribe := on_subscribe; svc_unsubscribe := on_unsubscribe;
            svc_is_subed := is_subed; svc_set_option := λ k v s, (set_option k v s).2; svc_join := join;
            svc_good := svc_ok |}.
  - intros c s Hs. exact (exec_ok (OSub c) s Hs).
  - intros i s Hs. exact (exec_ok (OUnsub i) s Hs).
  - intros c s. unfold on_subscribe. by repeat case_goal.
  - intros i s. unfold on_unsubscribe. by repeat case_goal.
  - intros c i s Hs. rewrite !is_subed_project. pose proof (project_after (OSub c) i s Hs) as E. simpl in E.
    rewrite E. destruct (Z.eqb_spec (id c) i); [rewrite decide_True by done|rewrite decide_False by done].
    + unfold view_sub. rewrite orb_true_r. by destruct (project i s), (need_snapshot s).
    + by rewrite orb_false_r.
  - intros j i s Hs. rewrite !is_subed_project. pose proof (project_after (OUnsub j) i s Hs) as E. simpl in E.
    rewrite E. destruct (Z.eqb_spec j i); [rewrite decide_True by done|rewrite decide_False by done].
    + by rewrite andb_false_r.
    + by rewrite andb_true_r.
  - intros k v s [H1 H2 H3 H4]. by split.
  - done.
  - done.
Defined.

(** The server holds services of different subscribers ([Box<dyn Service>]). *)
#[export] Instance sum_service {A B} `{!ServiceI A, !ServiceI B} : ServiceI (A + B).
Proof.
  refine {| svc_name := λ s, match s with inl s => svc_name s | inr s => svc_name s end;
            svc_subscribe := λ c s, match s with inl s => inl (svc_subscribe c s) | inr s => inr (svc_subscribe c s) end;
            svc_unsubscribe := λ i s, match s with inl s => inl (svc_unsubscribe i s) | inr s => inr (svc_unsubscribe i s) end;
            svc_is_subed := λ i s, match s with inl s => svc_is_subed i s | inr s => svc_is_subed i s end;
            svc_set_option := λ k v s, match s with inl s => inl (svc_set_option k v s) | inr s => inr (svc_set_option k v s) end;
            svc_join := λ s, match s with inl s => inl (svc_join s) | inr s => inr (svc_join s) end;
            svc_good := λ s, match s with inl s => svc_good s | inr s => svc_good s end |}.
  - intros c []; apply good_subscribe.
  - intros i []; apply good_unsubscribe.
  - intros c []; apply name_subscribe.
  - intros i []; apply name_unsubscribe.
  - intros c i []; apply subed_subscribe.
  - intros j i []; apply subed_unsubscribe.
  - intros k v []; apply good_option.
  - intros k v []; apply name_option.
  - intros k v i []; apply subed_option.
Defined.
End messages.

(** ** The threads of a service *)
Definition HIBERNATE_TIMEOUT : Z := 30.
Definition MAX_ERROR_TIMEOUT : Z := 1000.

(** What one round of the thread meets: whether anybody is subscribed, and how
    the callback ends; [Some slow]: with an error, [slow] after more than a
    second. *)
Record round := mkRound { subscribed : bool; failed : option bool }.

(** [run]: the new [error_timeout] and the sleeps of the round. *)
Definition run_round (r : round) (error_timeout : Z) : Z * list Z :=
  if subscribed r then
    match failed r with
    | Some slow =>
        let t := if slow then HIBERNATE_TIMEOUT else Int.wrap 64 (error_timeout * 2) in
        let t := if t >? MAX_ERROR_TIMEOUT then MAX_ERROR_TIMEOUT else t in
        (t, [t; HIBERNATE_TIMEOUT])
    | None => (error_timeout, [HIBERNATE_TIMEOUT])
    end
  else (error_timeout, [HIBERNATE_TIMEOUT]).
Definition run_rounds (rs : list round) (t : Z) : Z := foldl (λ t r, (run_round r t).1) t rs.

(** [repeat]: [may_reset] and what is done to the state in a round; [elapsed]
    is the time the round took. *)
Inductive action : Type := AInit | ACallback | AErrorSleep | AReset | ASleep (ms : Z).
Definition repeat_round (interval : Z) (r : round) (elapsed : Z) (may_reset : bool) : bool * list action :=
  let '(may_reset, acts) :=
    if subscribed r then
      (true, (if may_reset then [] else [AInit]) ++ [ACallback]
             ++ match failed r with Some _ => [AErrorSleep] | None => [] end)
    else if may_reset then (false, [AReset]) else (false, []) in
  (may_reset, acts ++ if elapsed <? interval then [ASleep (interval - elapsed)] else []).
Fixpoint repeat_rounds (interval : Z) (rs : list (round * Z)) (may_reset : bool) : list action :=
  match rs with
  | [] => []
  | (r, elapsed) :: rs =>
      let '(m, acts) := repeat_round interval r elapsed may_reset in acts ++ repeat_rounds interval rs m
  end.

(** The state is initialised ([b]) before it is used and reset before it is
    initialised again. *)
Fixpoint disciplined (b : bool) (l : list action) : bool :=
  match l with
  | [] => true
  | AInit :: l => negb b && disciplined true l
  | ACallback :: l => b && disciplined b l
  | AReset :: l => b && disciplined false l
  | _ :: l => disciplined b l
  end.

Lemma run_round_bounds r t : HIBERNATE_TIMEOUT <= t <= MAX_ERROR_TIMEOUT ->
  HIBERNATE_TIMEOUT <= (run_round r t).1 <= MAX_ERROR_TIMEOUT.
Proof.
  unfold run_round, HIBERNATE_TIMEOUT, MAX_ERROR_TIMEOUT. intros H. destruct (subscribed r); [|done].
  destruct (failed r) as [[]|]; simpl; [lia| |done]. rewrite Int.wrap_small by (unfold Int.in_u; lia).
  destruct (Z.gtb_spec (t * 2) 1000); lia.
Qed.

Definition quick : round := mkRound true (Some false).
Lemma run_quick_failures k t : HIBERNATE_TIMEOUT <= t <= MAX_ERROR_TIMEOUT ->
  run_rounds (List.repeat quick k) t = Z.min (t * 2 ^ Z.of_nat k) MAX_ERROR_TIMEOUT.
Proof.
  revert t. induction k as [|k IH]; intros t Ht; [simpl; unfold MAX_ERROR_TIMEOUT in *; lia|].
  cbn [List.repeat]. unfold run_rounds in *. cbn [foldl]. rewrite IH by by apply run_round_bounds.
  unfold run_round, quick, HIBERNATE_TIMEOUT, MAX_ERROR_TIMEOUT in *. simpl.
  rewrite Int.wrap_small by (unfold Int.in_u; lia).
  rewrite Nat2Z.inj_succ, Z.pow_succ_r by lia. assert (0 < 2 ^ Z.of_nat k) by (apply Z.pow_pos_nonneg; lia).
  destruct (Z.gtb_spec (t * 2) 1000); nia.
Qed.

Lemma disciplined_round interval r elapsed m rest :
  disciplined m ((repeat_round interval r elapsed m).2 ++ rest)
  = disciplined (repeat_round interval r elapsed m).1 rest.
Proof.
  unfold repeat_round. destruct (subscribed r), m, (failed r), (elapsed <? interval); simpl; done.
Qed.

(** The threads of the services behave: whatever the callbacks do, the
    pause after an error stays between 30 ms and one second, doubling with
    every quick failure; and a repeating service calls its callback only
    between an initialisation and the next reset of its state, and never does
    either twice in a row. *)
Theorem service_threads_behave interval rs ts k :
  HIBERNATE_TIMEOUT <= run_rounds rs HIBERNATE_TIMEOUT <= MAX_ERROR_TIMEOUT
  /\ run_rounds (List.repeat quick k) HIBERNATE_TIMEOUT = Z.min (HIBERNATE_TIMEOUT * 2 ^ Z.of_nat k) MAX_ERROR_TIMEOUT
  /\ disciplined false (repeat_rounds interval ts false) = true.
Proof.
  split; [|split].
  - induction rs as [|r rs IH] using rev_ind; [unfold HIBERNATE_TIMEOUT, MAX_ERROR_TIMEOUT; simpl; lia|].
    unfold run_rounds. rewrite foldl_app. by apply run_round_bounds.
  - apply run_quick_failures. unfold HIBERNATE_TIMEOUT, MAX_ERROR_TIMEOUT. lia.
  - generalize false as m. induction ts as [|[r el] ts IH]; intros m; [done|]. cbn [repeat_rounds].
    pose proof (disciplined_round interval r el m) as H.
    destruct (repeat_round interval r el m) as [m' acts]. simpl in H. by rewrite H.
Qed.

(** ** Concrete messages, for the examples: a shape or its id *)
Definition toy_messages : Messages := {|
  Msg := (bool * Z)%type; is_video_frame := λ _, false; is_switch_display := λ _, false;
  cursor_data := λ m, if m.1 then Some m.2 else None; set_cursor_id := λ i, (false, i);
|}.
Definition toy_cursor_id (m : bool * Z) : option Z := if m.1 then None else Some m.2.

Lemma cursor_stream_rebuilds_witness :
  let ms := [(true, 1); (true, 2); (true, 1)] : list (Msg (Messages := toy_messages)) in
  rebuild (msgs := toy_messages) toy_cursor_id ∅
    (cursor_stream (msgs := toy_messages) ms (sub_from (msgs := toy_messages) (mkInner 7 (Some 0) (Some 1)))).*2
    = map Some ms
  /\ (cursor_stream (msgs := toy_messages) ms (sub_from (msgs := toy_messages) (mkInner 7 (Some 0) (Some 1)))).*2
    = [(true, 1); (true, 2); (false, 1)].
Proof.
  split; [|vm_compute; reflexivity].
  apply (cursor_stream_rebuilds (msgs := toy_messages) toy_cursor_id 0 1 7 ltac:(done) [(true, 1); (true, 2); (true, 1)]).
  - intros m [<-|[<-|[<-|[]]]]; reflexivity.
  - intros m m' i [<-|[<-|[<-|[]]]] [<-|[<-|[<-|[]]]]; simpl; congruence.
Defined.

(** A subscriber that comes in between the snapshot and its end never gets
    it: connection 2 hears the second message only, connection 1 both. *)
Example late_subscriber_misses_snapshot :
  let ops := [OSub (mkInner 1 (Some 10) None); OSwapSend (msgs := toy_messages) (true, 1);
              OSub (mkInner 2 (Some 20) None); OSwapDrop; OSend (msgs := toy_messages) (true, 2)] in
  let r := run (msgs := toy_messages) ops (new (T := ConnInner) "display" true) in
  of_sub (msgs := toy_messages) 1 r.2 = [(10, (true, 1)); (10, (true, 2))]
  /\ of_sub (msgs := toy_messages) 2 r.2 = [(20, (true, 2))].
Proof. vm_compute. done. Qed.
End Service.
