(* ===== verification/Server.v ===== *)
(** * The server's connections and services ([src/src/server.rs])

    The server knows its services by name and its connections by number.  It is
    written against the interface [ServiceI] of [Service.v]: any services that
    keep that promise give the theorems here, and the instances there show that
    the program's do.  [HashMap] and [values()] are finite maps and [fmap]; the
    keys of [capture_displays] are visited in the map's order, which does not
    matter. *)

From S2P Require Import Prelude RustStr Service.
Import Service.
#[local] Open Scope Z_scope.

Module Server.
Inductive VideoSource : Type := Monitor | Camera.
Definition service_name_prefix (s : VideoSource) : string :=
  match s with Monitor => "monitor" | Camera => "camera" end.
Definition get_service_name (source : VideoSource) (idx : Z) : string :=
  service_name_prefix source +:+ to_string idx.

Section server.
Context {msgs : Messages} {S : Type} {svc : ServiceI S}.

Record server := mkServer {
  connections : gmap Z ConnInner;
  services : gmap string S;
  id_count : Z;
}.

(** The start: [random % 1000 + 1000]. *)
Definition empty_server (random : Z) : server := mkServer ∅ ∅ (Z.rem random 1000 + 1000).

Definition is_video_service_name (nm : string) : bool :=
  starts_with (service_name_prefix Monitor) nm || starts_with (service_name_prefix Camera) nm.

Definition set_services (m : gmap string S) (v : server) : server := mkServer (connections v) m (id_count v).
Definition set_connections (m : gmap Z ConnInner) (v : server) : server := mkServer m (services v) (id_count v).

Definition contains (nm : string) (v : server) : bool :=
  match services v !! nm with Some _ => true | None => false end.
Definition add_service (s : S) (v : server) : server := set_services (<[svc_name s := s]> (services v)) v.
(** [s]: the service that [video_service::new] makes. *)
Definition try_add_primay_video_service (primary : Z) (s : S) (v : server) : server :=
  if negb (contains (get_service_name Monitor primary) v) then add_service s v else v.
Definition try_add_primary_camera_service (camera_exists : bool) (primary : Z) (s : S) (v : server) : server :=
  if negb camera_exists then v
  else if negb (contains (get_service_name Camera primary) v) then add_service s v else v.

Definition add_camera_connection (camera_exists : bool) (primary : Z) (conn : ConnInner) (v : server) : server :=
  let v :=
    if camera_exists then
      let nm := get_service_name Camera primary in
      match services v !! nm with
      | Some s => set_services (<[nm := svc_subscribe conn s]> (services v)) v
      | None => v
      end
    else v in
  set_connections (<[id conn := conn]> (connections v)) v.

Definition wants (primary : Z) (noperms : list string) (s : S) : bool :=
  let nm := svc_name s in
  if is_video_service_name nm && negb (String.eqb nm (get_service_name Monitor primary)) then false
  else negb (existsb (String.eqb nm) noperms).
Definition add_connection (primary : Z) (conn : ConnInner) (noperms : list string) (v : server) : server :=
  let v := set_services ((λ s, if wants primary noperms s then svc_subscribe conn s else s) <$> services v) v in
  set_connections (<[id conn := conn]> (connections v)) v.
Definition remove_connection (conn : ConnInner) (v : server) : server :=
  let v := set_services (svc_unsubscribe (id conn) <$> services v) v in
  set_connections (delete (id conn) (connections v)) v.

Definition subscribe (nm : string) (conn : ConnInner) (b : bool) (v : server) : server :=
  match services v !! nm with
  | Some s =>
      if Bool.eqb (svc_is_subed (id conn) s) b then v
      else set_services (<[nm := if b then svc_subscribe conn s else svc_unsubscribe (id conn) s]> (services v)) v
  | None => v
  end.

Definition get_new_id (v : server) : Z * server :=
  let n := Int.to_signed 32 (id_count v + 1) in (n, mkServer (connections v) (services v) n).

Definition set_video_service_opt (display : option (VideoSource * Z)) (opt value : string) (v : server) : server :=
  set_services (map_imap (λ k s,
    Some (if match display with
             | Some (source, d) => negb (String.eqb k (get_service_name source d))
             | None => false
             end then s
          else if is_video_service_name k then svc_set_option opt value s else s)) (services v)) v.

Definition get_subbed_displays_count (conn_id : Z) (v : server) : nat :=
  length (List.filter (λ ks, is_video_service_name ks.1 && svc_is_subed conn_id ks.2) (map_to_list (services v))).

Definition capture_display (displays : list string) (conn : ConnInner) (incl excl : bool) (v : server) (nm : string)
  : server :=
  if is_video_service_name nm then
    if existsb (String.eqb nm) displays then (if incl then subscribe nm conn true v else v)
    else (if excl then subscribe nm conn false v else v)
  else v.
Definition capture_displays (conn : ConnInner) (source : VideoSource) (displays : list Z) (incl excl : bool)
    (v : server) : server :=
  let displays := map (get_service_name source) displays in
  foldl (capture_display displays conn incl excl) v (map fst (map_to_list (services v))).

Definition close_connections (stop : Msg) (v : server) : list (list (chan * Msg)) :=
  map (λ kc, conn_send kc.2 stop) (map_to_list (connections v)).
Definition drop (v : server) : server := set_services (svc_join <$> services v) v.

(** ** The server's invariant and its subscriptions *)
Definition srv_ok (v : server) : Prop :=
  forall k s, services v !! k = Some s -> svc_good s /\ svc_name s = k.

(** Is the connection [i] subscribed to the service called [k]? *)
Definition subed (v : server) (k : string) (i : Z) : bool :=
  match services v !! k with Some s => svc_is_subed i s | None => false end.

Lemma ok_insert v k s : srv_ok v -> svc_good s -> svc_name s = k ->
  srv_ok (set_services (<[k := s]> (services v)) v).
Proof.
  intros Hv Hs Hk j t. simpl. destruct (decide (k = j)) as [->|Hne].
  - rewrite lookup_insert_eq. by intros [= <-].
  - rewrite lookup_insert_ne by done. apply Hv.
Qed.

Lemma add_connection_ok p conn np v : srv_ok v -> srv_ok (add_connection p conn np v).
Proof.
  intros Hv k s. simpl. rewrite lookup_fmap. destruct (services v !! k) as [t|] eqn:E; [|done].
  destruct (Hv _ _ E) as [Hg Hn]. simpl. intros [= <-]. destruct (wants p np t); [|done].
  split; [by apply good_subscribe|]. by rewrite name_subscribe.
Qed.
Lemma remove_connection_ok conn v : srv_ok v -> srv_ok (remove_connection conn v).
Proof.
  intros Hv k s. simpl. rewrite lookup_fmap. destruct (services v !! k) as [t|] eqn:E; [|done].
  destruct (Hv _ _ E) as [Hg Hn]. simpl. intros [= <-].
  split; [by apply good_unsubscribe|]. by rewrite name_unsubscribe.
Qed.
Lemma subscribe_ok nm conn b v : srv_ok v -> srv_ok (subscribe nm conn b v).
Proof.
  intros Hv. unfold subscribe. destruct (services v !! nm) as [s|] eqn:E; [|done].
  destruct (Hv _ _ E) as [Hg Hn]. destruct (Bool.eqb _ _); [done|].
  destruct b; apply ok_insert; try done; [by apply good_subscribe|by rewrite name_subscribe
    |by apply good_unsubscribe|by rewrite name_unsubscribe].
Qed.

Lemma subscribe_subed nm conn b v k i : srv_ok v -> subed (subscribe nm conn b v) k i
  = if decide (k = nm /\ i = id conn) then b && contains nm v else subed v k i.
Proof.
  intros Hv. unfold subscribe, subed, contains. destruct (services v !! nm) as [s|] eqn:E.
  - destruct (Hv _ _ E) as [Hg _]. rewrite andb_true_r.
    destruct (Bool.eqb (svc_is_subed (id conn) s) b) eqn:Eb.
    + apply eqb_prop in Eb. case_decide as Hd; [|done]. destruct Hd as [-> ->]. by rewrite E.
    + simpl. destruct (decide (nm = k)) as [->|Hne].
      * rewrite lookup_insert_eq, E. destruct (decide (i = id conn)) as [->|Hi].
        -- rewrite decide_True by done.
           destruct b; [rewrite subed_subscribe|rewrite subed_unsubscribe]; try done; rewrite Z.eqb_refl;
             [apply orb_true_r|apply andb_false_r].
        -- rewrite decide_False by (intros [_ ?]; done).
           assert (Hz : (id conn =? i) = false) by (apply Z.eqb_neq; congruence).
           destruct b; [rewrite subed_subscribe|rewrite subed_unsubscribe]; try done; rewrite Hz;
             [apply orb_false_r|apply andb_true_r].
      * rewrite decide_False by (intros [? _]; congruence). by rewrite lookup_insert_ne.
  - rewrite andb_false_r. case_decide as Hd; [|done]. destruct Hd as [-> ->]. by rewrite E.
Qed.

Lemma subscribe_contains nm conn b v k : contains k (subscribe nm conn b v) = contains k v.
Proof.
  unfold subscribe, contains. destruct (services v !! nm) as [s|] eqn:E; [|done].
  destruct (Bool.eqb _ _); [done|]. simpl. destruct (decide (nm = k)) as [->|Hne].
  - by rewrite lookup_insert_eq, E.
  - by rewrite lookup_insert_ne.
Qed.

(** What capturing displays leaves for one service. *)
Definition captured (displays : list string) (incl excl : bool) (k : string) (present before : bool) : bool :=
  if existsb (String.eqb k) displays then (if incl then present else before)
  else (if excl then false else before).

Lemma capture_step ds conn incl excl v nm k i : srv_ok v ->
  subed (capture_display ds conn incl excl v nm) k i
  = if decide (k = nm /\ i = id conn /\ is_video_service_name nm = true)
    then captured ds incl excl k (contains k v) (subed v k i) else subed v k i.
Proof.
  intros Hv. unfold capture_display, captured. destruct (is_video_service_name nm) eqn:Ev.
  - destruct (decide (k = nm /\ i = id conn)) as [[-> ->]|Hn].
    + rewrite decide_True by done.
      destruct (existsb _ ds); [destruct incl|destruct excl]; try done; by rewrite subscribe_subed, decide_True.
    + rewrite decide_False by (intros (-> & -> & _); by apply Hn).
      destruct (existsb _ ds); [destruct incl|destruct excl]; try done; by rewrite subscribe_subed, decide_False.
  - by rewrite decide_False by (intros (_ & _ & ?); done).
Qed.
Lemma capture_ok ds conn incl excl v nm : srv_ok v ->
  srv_ok (capture_display ds conn incl excl v nm)
  /\ forall k, contains k (capture_display ds conn incl excl v nm) = contains k v.
Proof.
  intros Hv. unfold capture_display.
  repeat case_match; split; try done; try (by apply subscribe_ok); intros k; by rewrite subscribe_contains.
Qed.

Lemma capture_all ds conn incl excl l v k i : srv_ok v -> NoDup l ->
  srv_ok (foldl (capture_display ds conn incl excl) v l)
  /\ subed (foldl (capture_display ds conn incl excl) v l) k i
    = if decide (k ∈ l /\ i = id conn /\ is_video_service_name k = true)
      then captured ds incl excl k (contains k v) (subed v k i) else subed v k i.
Proof.
  revert v. induction l as [|nm l IH]; intros v Hv Hl; cbn [foldl].
  - split; [done|]. rewrite decide_False; [done|]. intros [Hi _]. by apply not_elem_of_nil in Hi.
  - apply NoDup_cons in Hl as [Hnm Hl]. destruct (capture_ok ds conn incl excl v nm Hv) as [Hv' Hc].
    destruct (IH _ Hv' Hl) as [Ho IHs]. split; [done|]. rewrite IHs, Hc, capture_step by done.
    destruct (decide (k = nm)) as [->|Hne].
    + rewrite (decide_False (P := nm ∈ l /\ _)) by (intros [? _]; done).
      repeat case_decide; try done; exfalso; rewrite elem_of_cons in *; tauto.
    + rewrite (decide_False (P := k = nm /\ _)) by (intros [? _]; done).
      repeat case_decide; try done; exfalso; rewrite elem_of_cons in *; tauto.
Qed.

Lemma subed_absent v k i : k ∉ map fst (map_to_list (services v)) -> subed v k i = false /\ contains k v = false.
Proof.
  intros Hk. unfold subed, contains. destruct (services v !! k) as [s|] eqn:E; [|done]. exfalso. apply Hk.
  apply elem_of_map_to_list in E. apply (list_elem_of_fmap_2 fst) in E. exact E.
Qed.

Lemma add_connection_subed p conn np v k i : srv_ok v ->
  subed (add_connection p conn np v) k i
  = subed v k i || ((id conn =? i) && contains k v
                    && (negb (is_video_service_name k) || String.eqb k (get_service_name Monitor p))
                    && negb (existsb (String.eqb k) np)).
Proof.
  intros Hv. unfold add_connection, subed, contains. simpl. rewrite lookup_fmap.
  destruct (services v !! k) as [s|] eqn:E; simpl; [|by rewrite andb_false_r].
  destruct (Hv _ _ E) as [Hg Hn]. unfold wants. rewrite Hn, andb_true_r.
  destruct (is_video_service_name k); simpl; [destruct (String.eqb k _); simpl|];
    try (by rewrite andb_false_r, orb_false_r);
    (destruct (existsb _ np); simpl; [by rewrite ?andb_false_r, orb_false_r|]);
    by rewrite subed_subscribe, !andb_true_r.
Qed.
Lemma add_connection_contains p conn np v k : contains k (add_connection p conn np v) = contains k v.
Proof. unfold add_connection, contains. simpl. rewrite lookup_fmap. by destruct (services v !! k). Qed.
Lemma remove_connection_subed conn v k i : srv_ok v ->
  subed (remove_connection conn v) k i = subed v k i && negb (id conn =? i).
Proof.
  intros Hv. unfold remove_connection, subed. simpl. rewrite lookup_fmap.
  destruct (services v !! k) as [s|] eqn:E; simpl; [|done].
  destruct (Hv _ _ E) as [Hg Hn]. by rewrite subed_unsubscribe.
Qed.

(** Who is subscribed to what: after every operation of the server each
    connection is subscribed to exactly the services it should be.  Adding a
    connection subscribes it to the services it may use, of the video services
    to the primary display only; removing it leaves it subscribed to nothing;
    switching displays gives it the named displays that exist when they are to
    be included, takes away the other video services when they are to be
    excluded, and touches no other connection and no other service. *)
Theorem subscriptions_exact v k i : srv_ok v ->
  (forall p conn np, subed (add_connection p conn np v) k i
     = subed v k i || ((id conn =? i) && contains k v
                       && (negb (is_video_service_name k) || String.eqb k (get_service_name Monitor p))
                       && negb (existsb (String.eqb k) np)))
  /\ (forall conn, subed (remove_connection conn v) k i = subed v k i && negb (id conn =? i))
  /\ (forall conn source ds incl excl, subed (capture_displays conn source ds incl excl v) k i
     = if decide (i = id conn /\ is_video_service_name k = true)
       then captured (map (get_service_name source) ds) incl excl k (contains k v) (subed v k i)
       else subed v k i).
Proof.
  intros Hv. split; [|split].
  - intros p conn np. by apply add_connection_subed.
  - intros conn. by apply remove_connection_subed.
  - intros conn source ds incl excl. unfold capture_displays.
    destruct (capture_all (map (get_service_name source) ds) conn incl excl (map fst (map_to_list (services v)))
                v k i Hv (NoDup_fst_map_to_list (services v))) as [_ ->].
    destruct (decide (k ∈ map fst (map_to_list (services v)))) as [Hk|Hk].
    + repeat case_decide; try done; exfalso; tauto.
    + rewrite (decide_False (P := k ∈ _ /\ _)) by (intros [? _]; done).
      destruct (subed_absent v k i Hk) as [-> ->]. case_decide; [|done].
      unfold captured. by destruct (existsb _ _), incl, excl.
Qed.
(** ** Frames

    [calm i v v']: the server goes from [v] to [v'] without a change in what the
    connection [i] gets from services other than screens and cameras. *)
Definition calm (P : string -> Prop) (i : Z) (v v' : server) : Prop :=
  srv_ok v -> srv_ok v' /\ forall k, P k -> contains k v' = contains k v /\ subed v' k i = subed v k i.

Lemma calm_refl P i v : calm P i v v.
Proof. by intros Hv. Qed.
Lemma calm_trans P i v1 v2 v3 : calm P i v1 v2 -> calm P i v2 v3 -> calm P i v1 v3.
Proof.
  intros H1 H2 Hv. destruct (H1 Hv) as [Hv2 E1]. destruct (H2 Hv2) as [Hv3 E2]. split; [done|].
  intros k Hk. destruct (E1 k Hk), (E2 k Hk). split; congruence.
Qed.
Lemma calm_foldl {A} P i (g : server -> A -> server) l v :
  (forall v a, calm P i v (g v a)) -> calm P i v (foldl g v l).
Proof.
  intros Hg. revert v. induction l as [|a l IH]; intros v; [apply calm_refl|].
  cbn [foldl]. exact (calm_trans P i _ _ _ (Hg v a) (IH _)).
Qed.

Lemma calm_fmap P i (g : S -> S) v :
  (forall s, svc_good s -> svc_good (g s) /\ svc_name (g s) = svc_name s) ->
  (forall s, P (svc_name s) -> svc_good s -> svc_is_subed i (g s) = svc_is_subed i s) ->
  calm P i v (set_services (g <$> services v) v).
Proof.
  intros Hg Hs Hv. split.
  - intros k s. simpl. rewrite lookup_fmap. destruct (services v !! k) as [t|] eqn:E; [|done].
    destruct (Hv _ _ E) as [Ht Hn]. simpl. intros [= <-]. destruct (Hg t Ht) as [? ->]. done.
  - intros k Hk. unfold contains, subed. simpl. rewrite lookup_fmap.
    destruct (services v !! k) as [t|] eqn:E; [|done]. destruct (Hv _ _ E) as [Ht <-]. simpl. split; [done|]. by apply Hs.
Qed.
Lemma calm_option P i display o value v : calm P i v (set_video_service_opt display o value v).
Proof.
  unfold set_video_service_opt. intros Hv. split.
  - intros k s. simpl. rewrite map_lookup_imap. destruct (services v !! k) as [t|] eqn:E; [|done].
    destruct (Hv _ _ E) as [Ht Hn]. simpl. intros [= <-].
    repeat case_match; try done; (split; [by apply good_option|by rewrite name_option]).
  - intros k _. unfold contains, subed. simpl. rewrite map_lookup_imap.
    destruct (services v !! k) as [t|] eqn:E; simpl; [|done]. split; [done|].
    repeat case_match; try done; apply subed_option.
Qed.
Lemma calm_add (P : string -> Prop) i s v : svc_good s -> ~ P (svc_name s) -> calm P i v (add_service s v).
Proof.
  intros Hs HP Hv. split; [by apply ok_insert|]. intros k Hk. unfold contains, subed. simpl.
  rewrite lookup_insert_ne by (intros <-; done). done.
Qed.
Lemma calm_subscribe (P : string -> Prop) i nm conn b v : ~ P nm -> calm P i v (subscribe nm conn b v).
Proof.
  intros HP Hv. split; [by apply subscribe_ok|]. intros k Hk.
  rewrite subscribe_contains, subscribe_subed by done. split; [done|].
  rewrite decide_False; [done|]. intros [-> _]. done.
Qed.
Lemma calm_capture (P : string -> Prop) i conn source ds incl excl v :
  (forall k, P k -> is_video_service_name k = false) -> calm P i v (capture_displays conn source ds incl excl v).
Proof.
  intros HP. apply calm_foldl. intros w nm. unfold capture_display.
  destruct (is_video_service_name nm) eqn:E; [|apply calm_refl].
  repeat case_match; try apply calm_refl; apply calm_subscribe; intros Hk%HP; congruence.
Qed.
Lemma calm_connections P i m v : calm P i v (set_connections m v).
Proof. by intros Hv. Qed.
Lemma service_name_video source d : is_video_service_name (get_service_name source d) = true.
Proof. unfold is_video_service_name, get_service_name. destruct source; simpl; done. Qed.
Lemma calm_camera (P : string -> Prop) i b p conn v :
  (forall k, P k -> is_video_service_name k = false) -> calm P i v (add_camera_connection b p conn v).
Proof.
  intros HP. unfold add_camera_connection. destruct b; [|apply calm_connections].
  destruct (services v !! _) as [s|] eqn:E; [|apply calm_connections].
  eapply calm_trans; [|apply calm_connections]. intros Hv. destruct (Hv _ _ E) as [Hs Hn]. split.
  - apply ok_insert; [done|by apply good_subscribe|by rewrite name_subscribe].
  - intros k Hk. unfold contains, subed. simpl. rewrite lookup_insert_ne; [done|].
    intros <-. apply HP in Hk. by rewrite service_name_video in Hk.
Qed.
End server.

(** Two connections, a cursor and two displays. *)
Abbreviation toy_service := (sum (ServiceInner ConnInner) (ServiceInner (MouseCursorSub (msgs := toy_messages)))).
#[local] Existing Instance toy_messages.
Definition toy_server : server (S := toy_service) :=
  add_service (inl (new "monitor1" true)) (add_service (inl (new "monitor0" true))
    (add_service (inr (new "mouse_cursor" true)) (empty_server (-5)))).

Lemma toy_ok : srv_ok toy_server.
Proof.
  unfold toy_server, add_service. repeat apply ok_insert; try done; try apply new_ok.
Qed.

Lemma subscriptions_exact_witness :
  let v := add_connection 0 (mkInner 1 (Some 10) None) [] toy_server in
  subed v "monitor0" 1 = true /\ subed v "monitor1" 1 = false
  /\ subed (capture_displays (mkInner 1 None None) Monitor [1] true true v) "monitor0" 1 = false
  /\ forall conn, subed (remove_connection conn toy_server) "monitor0" 1
      = subed toy_server "monitor0" 1 && negb (id conn =? 1).
Proof.
  split; [vm_compute; reflexivity|]. split; [vm_compute; reflexivity|]. split; [vm_compute; reflexivity|].
  apply (subscriptions_exact toy_server "monitor0" 1 toy_ok).
Defined.
End Server.
