(* ===== verification/Login.v ===== *)
(** * Logging in to a controlled machine ([src/src/server/connection.rs])

    From the login message to the decision whether the connection may control
    the machine.  What the machine-wide settings, the platform and the password
    library answer during one message is a [menv]; what outlives the message
    is the connection [conn] and the process-wide [global] state (sessions,
    authorised connections, failure counters, the temporary password, the
    restart grace and the scheduled-access window).  A handler returns whether
    the connection stays open.  [ctx] also collects what is sent. *)

From Stdlib Require Import Ascii Strings.Byte.
From S2P Require Import Prelude RustStr Store Sched LoginFailures.
Import Failures.
#[local] Open Scope Z_scope.

Module Login.
#[export] Instance byte_eq_decision : EqDecision byte := Byte.byte_eq_dec.

Fixpoint xor_or (a b : list byte) (x : Z) : Z :=
  match a, b with
  | p :: a, q :: b => xor_or a b (Z.lor x (Z.lxor (Z.of_N (Byte.to_N p)) (Z.of_N (Byte.to_N q))))
  | _, _ => x
  end.
Definition constant_time_eq (a b : list byte) : bool :=
  if negb (Nat.eqb (length a) (length b)) then false else xor_or a b 0 =? 0.

(** *** Permissions *)
Inductive Permission : Type :=
  | PKeyboard | PRemotePrinter | PClipboard | PFile | PAudio | PCamera | PTerminal | PTunnel
  | PRestart | PRecording | PBlockInput.

(** [value]: the number of a permission in the protocol. *)
Definition get_control_permission (value : Permission -> Z) (permissions : Z) (p : Permission) : option bool :=
  let index := value p in
  if (0 <=? index) && (index <? 32) then
    let v := Z.land (Z.shiftr permissions (index * 2)) 3 in
    if v =? 1 then Some false else if v =? 2 then Some true else None
  else None.

Definition is_permission_enabled_locally (access_mode : string) (option2bool : bool) : bool :=
  if String.eqb access_mode "full" then true
  else if String.eqb access_mode "view" then false
  else option2bool.

(** [named]: the permission an option name stands for. *)
Definition permission (value : Permission -> Z) (named : option Permission) (control_permissions : option Z)
    (access_mode : string) (option2bool : bool) : bool :=
  match control_permissions, named with
  | Some cp, Some p => match get_control_permission value cp p with
                       | Some enabled => enabled
                       | None => is_permission_enabled_locally access_mode option2bool
                       end
  | _, _ => is_permission_enabled_locally access_mode option2bool
  end.

Definition get_control_permission_state (value : Permission -> Z) (array : list (Z * Z)) (p : Permission)
    (disable_if_has_disabled : bool) : option bool :=
  let states := map (λ c, get_control_permission value c.2 p) array in
  let has_enable := existsb (λ s, match s with Some true => true | _ => false end) states in
  let has_disable := existsb (λ s, match s with Some false => true | _ => false end) states in
  if disable_if_has_disabled then
    if has_disable then Some false else if has_enable then Some true else None
  else
    if has_enable then Some true else if has_disable then Some false else None.

(** *** State *)
Definition SessionKey : Type := string * string * Z.
Record Session := mkSess { last_recv_time : Z; random_password : string; tfa : bool }.
Definition SESSION_TIMEOUT : Z := 30.

Inductive AuthConnType : Type := TRemote | TFileTransfer | TPortForward | TViewCamera | TTerminal.
#[export] Instance AuthConnType_eq_dec : EqDecision AuthConnType.
Proof. solve_decision. Defined.
Record AuthedConn := mkAuthed { ac_id : Z; ac_type : AuthConnType; ac_key : SessionKey }.

Inductive union : Type := UNone | UFileTransfer | UViewCamera | UTerminal (service_id : string) | UPortForward.
Record TrustedDevice := mkDev {
  d_hwid : list byte; d_outdate : bool; d_id : string; d_name : string; d_platform : string;
}.
Record LoginRequest := mkLr {
  username : string; my_id : string; my_name : string; my_platform : string; session_id : Z;
  password : list byte; hwid : list byte; lr_union : union; os_username : string;
  modern_version : bool;              (** at least 1.2.0 *)
  sched_req : bool;                   (** a time proposal came along *)
}.
Definition empty_lr : LoginRequest :=
  mkLr EmptyString EmptyString EmptyString EmptyString 0 [] [] UNone EmptyString false false.

Record conn := mkConn {
  c_id : Z; c_ip : ip; salt : string; challenge : string;
  lr : LoginRequest; authorized : bool; require_2fa : bool; from_switch : bool;
  file_transfer : bool; view_camera : bool; terminal : bool; port_forward : bool;
  sched_window_session : bool;
}.
Definition fresh_conn (id : Z) (i : ip) (slt chal : string) (twofa : bool) : conn :=
  mkConn id i slt chal empty_lr false twofa false false false false false false.

Record global := mkGlobal {
  grace : string;                     (** the restart-grace marker *)
  sched : Sched.store;                (** the scheduled-access marker *)
  failures : fmap;                    (** [LOGIN_FAILURES[0]]: passwords *)
  failures_2fa : fmap;                (** [LOGIN_FAILURES[1]]: codes *)
  tp_password : string; tp_failures : Z;   (** [TEMPORARY_PASSWORD_FAILURES] *)
  temporary_password : string;
  SESSIONS : gmap SessionKey Session;
  AUTHED_CONNS : list AuthedConn;
  trusted : list TrustedDevice;
}.

Inductive ApproveMode : Type := ByPassword | ByClick | ByBoth.

(** The answers of everything outside during one message. *)
Record menv := mkEnv {
  temporary_enabled : bool; permanent_enabled : bool; approve_mode : ApproveMode;
  has_valid_password : bool; local_storage : string; hard_password : string;
  decode_h1 : string -> option (list byte);
  allow_logon_option : bool; is_logon : bool;
  own_id : string; is_ip_str : string -> bool; is_domain_port_str : string -> bool;
  now : Z; now_ms : Z; now_sched : Z;
  rotated_password : string;
  privacy_mode : bool; enabled : Permission -> bool; err_msg : string;
  installed : bool; user_token_error : option string; service_user : option bool;
  user_token : option bool;           (** is it a service token? *)
  forward_reachable : bool; trusted_enabled : bool;
  check_code : option bool;           (** [totp.check_current], [None]: an error *)
  disk_open : Sched.disk;             (** the window's file, when it is looked at *)
  disk_note : Sched.disk;             (** and when the session is noted in it *)
}.

Inductive output : Type :=
  | OLoginError (msg : string)
  | ORefused (r : refusal)
  | OForwardUnreachable               (** the error that names the target's address *)
  | OStartCm (id : string) (authorized : bool)
  | OSchedCard
  | OLogonResponse.

Record ctx := mkCtx { cn : conn; gl : global; out : list output }.
Definition say (o : output) (x : ctx) : ctx := mkCtx (cn x) (gl x) (out x ++ [o]).
Definition upd_conn (f : conn -> conn) (x : ctx) : ctx := mkCtx (f (cn x)) (gl x) (out x).
Definition upd_gl (f : global -> global) (x : ctx) : ctx := mkCtx (cn x) (f (gl x)) (out x).

Definition set_lr v c := mkConn (c_id c) (c_ip c) (salt c) (challenge c) v (authorized c) (require_2fa c)
  (from_switch c) (file_transfer c) (view_camera c) (terminal c) (port_forward c) (sched_window_session c).
Definition set_authorized v c := mkConn (c_id c) (c_ip c) (salt c) (challenge c) (lr c) v (require_2fa c)
  (from_switch c) (file_transfer c) (view_camera c) (terminal c) (port_forward c) (sched_window_session c).
Definition set_2fa v c := mkConn (c_id c) (c_ip c) (salt c) (challenge c) (lr c) (authorized c) v
  (from_switch c) (file_transfer c) (view_camera c) (terminal c) (port_forward c) (sched_window_session c).
Definition set_kind ft vc te pf c := mkConn (c_id c) (c_ip c) (salt c) (challenge c) (lr c) (authorized c)
  (require_2fa c) (from_switch c) (file_transfer c || ft) (view_camera c || vc) (terminal c || te)
  (port_forward c || pf) (sched_window_session c).
Definition set_window v c := mkConn (c_id c) (c_ip c) (salt c) (challenge c) (lr c) (authorized c)
  (require_2fa c) (from_switch c) (file_transfer c) (view_camera c) (terminal c) (port_forward c) v.

Definition set_grace v g := mkGlobal v (sched g) (failures g) (failures_2fa g) (tp_password g) (tp_failures g)
  (temporary_password g) (SESSIONS g) (AUTHED_CONNS g) (trusted g).
Definition set_sched v g := mkGlobal (grace g) v (failures g) (failures_2fa g) (tp_password g) (tp_failures g)
  (temporary_password g) (SESSIONS g) (AUTHED_CONNS g) (trusted g).
Definition set_failures v g := mkGlobal (grace g) (sched g) v (failures_2fa g) (tp_password g) (tp_failures g)
  (temporary_password g) (SESSIONS g) (AUTHED_CONNS g) (trusted g).
Definition set_failures_2fa v g := mkGlobal (grace g) (sched g) (failures g) v (tp_password g) (tp_failures g)
  (temporary_password g) (SESSIONS g) (AUTHED_CONNS g) (trusted g).
Definition set_tp p n g := mkGlobal (grace g) (sched g) (failures g) (failures_2fa g) p n
  (temporary_password g) (SESSIONS g) (AUTHED_CONNS g) (trusted g).
Definition set_temporary v g := mkGlobal (grace g) (sched g) (failures g) (failures_2fa g) (tp_password g)
  (tp_failures g) v (SESSIONS g) (AUTHED_CONNS g) (trusted g).
Definition set_SESSIONS v g := mkGlobal (grace g) (sched g) (failures g) (failures_2fa g) (tp_password g)
  (tp_failures g) (temporary_password g) v (AUTHED_CONNS g) (trusted g).
Definition set_AUTHED v g := mkGlobal (grace g) (sched g) (failures g) (failures_2fa g) (tp_password g)
  (tp_failures g) (temporary_password g) (SESSIONS g) v (trusted g).
Definition set_trusted v g := mkGlobal (grace g) (sched g) (failures g) (failures_2fa g) (tp_password g)
  (tp_failures g) (temporary_password g) (SESSIONS g) (AUTHED_CONNS g) v.

(** *** Sessions *)
Definition session_key (c : conn) : SessionKey := (my_id (lr c), my_name (lr c), session_id (lr c)).

Definition update_or_insert_session (t : Z) (k : SessionKey) (pw : option string) (two : option bool)
    (m : gmap SessionKey Session) : gmap SessionKey Session :=
  match m !! k with
  | Some s => <[k := mkSess (last_recv_time s) (default (random_password s) pw) (default (tfa s) two)]> m
  | None => <[k := mkSess t (default EmptyString pw) (default false two)]> m
  end.
Definition set_session_2fa (t : Z) (k : SessionKey) (m : gmap SessionKey Session) : gmap SessionKey Session :=
  match m !! k with
  | Some s => <[k := mkSess (last_recv_time s) (random_password s) true]> m
  | None => <[k := mkSess t EmptyString true]> m
  end.
Definition check_remove_session (conn_id : Z) (k : SessionKey) (g : global) : global :=
  match SESSIONS g !! k with
  | None => g
  | Some _ =>
      let is_remote := existsb (λ a, (ac_id a =? conn_id) && bool_decide (ac_type a = TRemote)) (AUTHED_CONNS g) in
      let another_remote := existsb (λ a, negb (ac_id a =? conn_id) && bool_decide (ac_key a = k)
                                      && bool_decide (ac_type a = TRemote)) (AUTHED_CONNS g) in
      if is_remote || negb another_remote then set_SESSIONS (delete k (SESSIONS g)) g else g
  end.
Definition authed_new (id : Z) (t : AuthConnType) (k : SessionKey) (g : global) : global :=
  set_AUTHED (AUTHED_CONNS g ++ [mkAuthed id t k]) g.
Definition authed_drop (id : Z) (g : global) : global :=
  set_AUTHED (retain (λ a, negb (ac_id a =? id)) (AUTHED_CONNS g)) g.

Section login.
Context {sha : Sha256}.

(** A Rust string as its bytes. *)
Fixpoint bytes_of (s : string) : list byte :=
  match s with EmptyString => [] | String c s => Ascii.byte_of_ascii c :: bytes_of s end.

Definition verify_h1 (h1 : list byte) (c : conn) : bool :=
  constant_time_eq (sha_bytes (sha_update (sha_update sha_new h1) (bytes_of (challenge c)))) (password (lr c)).
Definition validate_password_plain (pw : string) (c : conn) : bool :=
  if is_empty pw then false
  else verify_h1 (sha_bytes (sha_update (sha_update sha_new (bytes_of pw)) (bytes_of (salt c)))) c.
Definition validate_password_storage (e : menv) (storage : string) (c : conn) : bool :=
  if is_empty storage then false
  else match decode_h1 e storage with
       | Some h1 => verify_h1 h1 c
       | None => validate_password_plain storage c
       end.

Definition MAX_CONSECUTIVE_FAILURES : Z := 10.
Definition check_update_temporary_password (e : menv) (success : bool) (g : global) : global :=
  if negb (temporary_enabled e) then g else
  let current := temporary_password g in
  if is_empty current then g else
  let g := if negb (String.eqb (tp_password g) current) then set_tp current 0 g else g in
  if success then set_tp (tp_password g) 0 g else
  let n := i32 (tp_failures g + 1) in
  if n <? MAX_CONSECUTIVE_FAILURES then set_tp (tp_password g) n g
  else set_tp (rotated_password e) 0 (set_temporary (rotated_password e) g).

Definition validate_password (e : menv) (allow_permanent : bool) (x : ctx) : bool * ctx :=
  let c := cn x in
  if temporary_enabled e && validate_password_plain (temporary_password (gl x)) c then
    (true, upd_gl (λ g, check_update_temporary_password e true
       (set_SESSIONS (update_or_insert_session (now e) (session_key c) (Some (temporary_password g))
                        (Some false) (SESSIONS g)) g)) x)
  else if permanent_enabled e || allow_permanent then
    (if negb (is_empty (local_storage e)) then validate_password_storage e (local_storage e) c
     else negb (is_empty (hard_password e)) && validate_password_plain (hard_password e) c, x)
  else (false, x).

Definition has_active_remote_session (peer : string) (g : global) : bool :=
  existsb (λ a, bool_decide (ac_type a = TRemote) && String.eqb (ac_key a).1.1 peer) (AUTHED_CONNS g).

Definition is_recent_session (e : menv) (two : bool) (x : ctx) : bool * ctx :=
  let live := filter (λ kv, (now e - last_recv_time kv.2 <? SESSION_TIMEOUT) = true) (SESSIONS (gl x)) in
  let x := upd_gl (set_SESSIONS live) x in
  (match live !! session_key (cn x) with
   | Some s => negb (Nat.eqb (length (password (lr (cn x)))) 0)
               && ((two && tfa s) || (negb two && validate_password_plain (random_password s) (cn x)))
   | None => false
   end, x).

(** [send_logon_response_and_keep_alive] up to the authorisation; what follows
    it only tells the client about the machine. *)
Definition conn_type (c : conn) : AuthConnType :=
  if file_transfer c then TFileTransfer
  else if match lr_union (lr c) with UPortForward => true | _ => false end then TPortForward
  else if view_camera c then TViewCamera
  else if terminal c then TTerminal
  else TRemote.
Definition send_logon_response (e : menv) (x : ctx) : bool * ctx :=
  if authorized (cn x) then (true, x) else
  let '(recent, x) := if require_2fa (cn x) then is_recent_session e true x else (true, x) in
  if require_2fa (cn x) && negb recent && negb (from_switch (cn x)) then (true, say (OLoginError "2FA Required") x)
  else if match lr_union (lr (cn x)) with UPortForward => negb (forward_reachable e) | _ => false end
  then (false, say OForwardUnreachable x)
  else
    let x := upd_conn (set_authorized true) x in
    (true, say OLogonResponse
             (upd_gl (authed_new (c_id (cn x)) (conn_type (cn x)) (session_key (cn x))) x)).

Definition try_start_cm (auth : bool) (x : ctx) : ctx := say (OStartCm (my_id (lr (cn x))) auth) x.

(** The arms of the decision that let the peer in end the same way. *)
Definition accept (e : menv) (x : ctx) : bool * ctx :=
  if is_empty (err_msg e) then
    let '(keep, x) := send_logon_response e x in
    if negb keep then (false, x) else (true, try_start_cm (authorized (cn x)) x)
  else (true, say (OLoginError (err_msg e)) x).

Definition handle_login_request_without_validation (e : menv) (r : LoginRequest) (x : ctx) : ctx :=
  let x := upd_conn (set_lr r) x in
  if require_2fa (cn x) && negb (Nat.eqb (length (hwid r)) 0) && trusted_enabled e then
    match List.find (λ d, bool_decide (d_hwid d = hwid r)) (trusted (gl x)) with
    | Some d => if negb (d_outdate d) && String.eqb (d_id d) (my_id r) && String.eqb (d_name d) (my_name r)
                   && String.eqb (d_platform d) (my_platform r)
                then upd_conn (set_2fa false) x else x
    | None => x
    end
  else x.

(** The kind of session asked for: refused, or noted. *)
Definition request_kind (e : menv) (r : LoginRequest) (x : ctx) : option string * ctx :=
  match lr_union r with
  | UFileTransfer => if negb (enabled e PFile) then (Some "No permission of file transfer", x)
                     else (None, upd_conn (set_kind true false false false) x)
  | UViewCamera => if negb (enabled e PCamera) then (Some "No permission of viewing camera", x)
                   else (None, upd_conn (set_kind false true false false) x)
  | UTerminal _ =>
      if negb (enabled e PTerminal) then (Some "No permission of terminal", x)
      else if negb (is_empty (os_username r)) && negb (installed e)
      then (Some "Supported only in the installed version.", x)
      else
        let x := upd_conn (set_kind false false true false) x in
        match user_token_error e with
        | Some msg => (Some msg, x)
        | None => match service_user e, user_token e with
                  | Some is_user, Some has_service_token =>
                      if negb (Bool.eqb is_user has_service_token)
                      then (Some "Terminal service user mismatch detected.", x) else (None, x)
                  | _, _ => (None, x)
                  end
        end
  | UPortForward => if negb (enabled e PTunnel) then (Some "No permission of IP tunneling", x)
                    else (None, upd_conn (set_kind false false false true) x)
  | UNone => if privacy_mode e then (Some "Someone turns on privacy mode, exit", x) else (None, x)
  end.

(** The last arm: a password was sent.  The counter is looked at and written back
    with no other attempt of the address in between; [LoginFailures.Race] has the
    stages of overlapping attempts. *)
Definition login_with_password (e : menv) (allow_permanent : bool) (x : ctx) : bool * ctx :=
  let '(f, t, refused) := check_failure (now_ms e) (c_ip (cn x)) (failures (gl x)) in
  match refused with
  | Some r => (true, say (ORefused r) x)
  | None =>
      let '(ok, x) := validate_password e allow_permanent x in
      let x := upd_gl (λ g, set_failures (update_failure f t ok (c_ip (cn x)) (failures g)) g) x in
      if (ok : bool) then accept e x
      else
        let x := upd_gl (check_update_temporary_password e false) x in
        if is_empty (err_msg e)
        then (true, try_start_cm false (say (OLoginError "Wrong Password") x))
        else (true, say (OLoginError "Desktop session not ready, password wrong") x)
  end.

(** Waiting for the customer's click. *)
Definition wait_for_click (e : menv) (r : LoginRequest) (x : ctx) : bool * ctx :=
  let x := try_start_cm false x in
  let x := if sched_req r then say OSchedCard x else x in
  (true, if modern_version r
         then say (OLoginError (if is_logon e then "No Password Access Locked" else "No Password Access")) x
         else x).

Definition click_only (e : menv) (allow_permanent : bool) : bool :=
  match approve_mode e with
  | ByClick => negb allow_permanent
  | ByBoth => negb (has_valid_password e)
  | ByPassword => false
  end.

Definition decide_login (e : menv) (r : LoginRequest) (x : ctx) : bool * ctx :=
  let allow_logon_screen_password := allow_logon_option e && is_logon e in
  if negb (is_ip_str e (username r)) && negb (is_domain_port_str e (username r))
     && negb (String.eqb (username r) (own_id e))
  then (false, say (OLoginError "Offline") x)
  else if file_transfer (cn x) && has_active_remote_session (my_id r) (gl x) then accept e x
  else
    let '(graced, marker) := Grace.consume_restart_reconnect_grace (now_sched e) (my_id r) (grace (gl x)) in
    let x := upd_gl (set_grace marker) x in
    if (graced : bool) then accept e x
    else
      let '(open, marker) := Sched.is_open (disk_open e) (now_sched e) (sched (gl x)) in
      let x := upd_gl (set_sched marker) x in
      if (open : bool) then
        accept e (upd_conn (set_window true) (upd_gl (λ g, set_sched (Sched.note_session_start (disk_note e) (sched g)) g) x))
      else if click_only e allow_logon_screen_password then wait_for_click e r x
      else
        let '(recent, x) := is_recent_session e false x in
        if (recent : bool) then accept e x
        else if Nat.eqb (length (password r)) 0 then
          (true, if is_empty (err_msg e) then try_start_cm false x
                 else say (OLoginError "Desktop session not ready, password empty") x)
        else login_with_password e allow_logon_screen_password x.

Definition DESKTOP_SESSION_NOT_READY : string := "Desktop session not ready".
Definition on_login_request (e : menv) (r : LoginRequest) (x : ctx) : bool * ctx :=
  let x := handle_login_request_without_validation e r x in
  if authorized (cn x) then (true, x) else
  let '(refused, x) := request_kind e r x in
  match refused with
  | Some msg => (false, say (OLoginError msg) x)
  | None =>
      if negb (is_empty (err_msg e)) && negb (String.eqb (err_msg e) DESKTOP_SESSION_NOT_READY)
      then (true, say (OLoginError (err_msg e)) x)
      else decide_login e r x
  end.

(** The second factor. *)
Definition on_auth_2fa (e : menv) (code_hwid : list byte) (x : ctx) : bool * ctx :=
  let '(f, t, refused) := check_failure (now_ms e) (c_ip (cn x)) (failures_2fa (gl x)) in
  match refused with
  | Some r => (true, say (ORefused r) x)
  | None =>
      if negb (require_2fa (cn x)) then (true, x) else
      match check_code e with
      | None => (true, x)
      | Some false =>
          (true, say (OLoginError "Wrong 2FA Code")
             (upd_gl (λ g, set_failures_2fa (update_failure f t false (c_ip (cn x)) (failures_2fa g)) g) x))
      | Some true =>
          let x := upd_gl (λ g, set_failures_2fa (update_failure f t true (c_ip (cn x)) (failures_2fa g)) g) x in
          let x := upd_conn (set_2fa false) x in
          let x := upd_gl (λ g, set_SESSIONS (set_session_2fa (now e) (session_key (cn x)) (SESSIONS g)) g) x in
          let '(keep, x) := send_logon_response e x in
          if negb keep then (false, x) else
          let x := try_start_cm (authorized (cn x)) x in
          (true, if negb (Nat.eqb (length code_hwid) 0) && trusted_enabled e
                 then upd_gl (λ g, set_trusted (trusted g ++ [mkDev code_hwid false (my_id (lr (cn x)))
                        (my_name (lr (cn x))) (my_platform (lr (cn x)))]) g) x
                 else x)
      end
  end.
End login.

(** *** What the checks compute *)
Lemma byte_Z_inj (a b : byte) : Z.of_N (Byte.to_N a) = Z.of_N (Byte.to_N b) -> a = b.
Proof.
  intros H. apply N2Z.inj in H. pose proof (f_equal Byte.of_N H) as E.
  rewrite !Byte.of_to_N in E. by injection E.
Qed.

Lemma xor_or_zero a b x : length a = length b -> 0 <= x ->
  xor_or a b x = 0 <-> x = 0 /\ a = b.
Proof.
  revert b x. induction a as [|p a IH]; intros [|q b] x Hl Hx; try discriminate Hl.
  - simpl. split; [by intros -> | by intros [-> _]].
  - injection Hl as Hl. cbn [xor_or]. set (u := Z.of_N (Byte.to_N p)). set (v := Z.of_N (Byte.to_N q)).
    assert (Huv : 0 <= Z.lxor u v) by (apply Z.lxor_nonneg; split; intros; unfold u, v; lia).
    rewrite IH by (done || (apply Z.lor_nonneg; lia)).
    rewrite Z.lor_eq_0_iff, Z.lxor_eq_0_iff. split.
    + intros [[-> Huv'] ->]. split; [done|]. by rewrite (byte_Z_inj p q Huv').
    + intros [-> [= -> ->]]. done.
Qed.

Lemma constant_time_eq_spec a b : constant_time_eq a b = bool_decide (a = b).
Proof.
  unfold constant_time_eq. destruct (Nat.eqb_spec (length a) (length b)) as [Hl|Hl]; simpl.
  - pose proof (xor_or_zero a b 0 Hl (Z.le_refl 0)) as H. apply eq_bool_prop_intro.
    rewrite !Is_true_true, bool_decide_eq_true, Z.eqb_eq, H. intuition.
  - symmetry. apply bool_decide_eq_false. by intros ->.
Qed.

Section spec.
Context {sha : Sha256}.

(** The answer a client must send for a password, or for its salted hash. *)
Definition answer (h1 : list byte) (c : conn) : list byte :=
  sha_bytes (sha_update (sha_update sha_new h1) (bytes_of (challenge c))).
Definition salted (pw : string) (c : conn) : list byte :=
  sha_bytes (sha_update (sha_update sha_new (bytes_of pw)) (bytes_of (salt c))).

Lemma is_empty_false s : is_empty s = false <-> s <> EmptyString.
Proof. by destruct s. Qed.
Lemma is_empty_true s : is_empty s = true <-> s = EmptyString.
Proof. by destruct s. Qed.

Lemma validate_plain_iff pw c :
  validate_password_plain pw c = true <-> pw <> EmptyString /\ answer (salted pw c) c = password (lr c).
Proof.
  unfold validate_password_plain, verify_h1. rewrite constant_time_eq_spec.
  fold (salted pw c). fold (answer (salted pw c) c).
  destruct (is_empty pw) eqn:E.
  - apply is_empty_true in E. naive_solver.
  - apply is_empty_false in E. rewrite bool_decide_eq_true. naive_solver.
Qed.

Definition permanent_ok (e : menv) (c : conn) : bool :=
  if negb (is_empty (local_storage e)) then validate_password_storage e (local_storage e) c
  else negb (is_empty (hard_password e)) && validate_password_plain (hard_password e) c.

Lemma permanent_ok_iff e c : permanent_ok e c = true <->
  (local_storage e <> EmptyString
   /\ answer (match decode_h1 e (local_storage e) with Some h1 => h1 | None => salted (local_storage e) c end) c
      = password (lr c))
  \/ (local_storage e = EmptyString /\ hard_password e <> EmptyString
      /\ answer (salted (hard_password e) c) c = password (lr c)).
Proof.
  unfold permanent_ok, validate_password_storage. destruct (is_empty (local_storage e)) eqn:E; simpl.
  - apply is_empty_true in E. rewrite andb_true_iff, validate_plain_iff, negb_true_iff, is_empty_false. naive_solver.
  - apply is_empty_false in E. destruct (decode_h1 e (local_storage e)) as [h1|].
    + unfold verify_h1. rewrite constant_time_eq_spec, bool_decide_eq_true. fold (answer h1 c). naive_solver.
    + rewrite validate_plain_iff. naive_solver.
Qed.

Lemma validate_password_fst e allow x : (validate_password e allow x).1 =
  (temporary_enabled e && validate_password_plain (temporary_password (gl x)) (cn x))
  || (permanent_enabled e || allow) && permanent_ok e (cn x).
Proof.
  unfold validate_password. destruct (_ && validate_password_plain _ _); [done|]. simpl.
  by destruct (permanent_enabled e || allow).
Qed.

(** C13: a password is accepted exactly when the client's answer is the hash of
    the challenge with the salted temporary password (when that kind is
    enabled), or with the stored hash, the stored plain text or the preset
    password (when permanent passwords are enabled or the logon screen allows
    one; the preset one only when none is stored); an empty password on this
    side is never accepted, and the comparison that runs in constant time
    decides equality of the two digests. *)
Theorem password_accepted_iff e allow x :
  (validate_password e allow x).1 = true <->
  (temporary_enabled e = true /\ temporary_password (gl x) <> EmptyString
   /\ answer (salted (temporary_password (gl x)) (cn x)) (cn x) = password (lr (cn x)))
  \/ (permanent_enabled e || allow = true
      /\ ((local_storage e <> EmptyString
           /\ answer (match decode_h1 e (local_storage e) with
                      | Some h1 => h1 | None => salted (local_storage e) (cn x) end) (cn x)
              = password (lr (cn x)))
          \/ (local_storage e = EmptyString /\ hard_password e <> EmptyString
              /\ answer (salted (hard_password e) (cn x)) (cn x) = password (lr (cn x))))).
Proof.
  rewrite validate_password_fst, orb_true_iff, !andb_true_iff, validate_plain_iff, permanent_ok_iff. done.
Qed.

End spec.
End Login.
