(* ===== verification/LoginSpec.v ===== *)
(** * What a login promises (the contract of [Login.v])

    [login_spec] says, as one boolean of the connection, the global state and
    the environment, whether a login request authorises the connection and by
    which of six ways; [login_refines] shows that the handler of [Login.v],
    with all its state changes, decides exactly that.  The other theorems are
    about the second factor, the register of authorised connections and the
    rotation of the temporary password. *)

From Stdlib Require Import Ascii Strings.Byte.
From S2P Require Import Prelude RustStr Store Sched LoginFailures Login.
Import Failures Login.
#[local] Open Scope Z_scope.

Module LoginSpec.
Section spec.
Context {sha : Sha256}.

Inductive way : Type :=
  | ActivePeer | RestartGrace | OpenWindow | RecentSession | TemporaryPassword | PermanentPassword.

Definition recent (e : menv) (two : bool) (c : conn) (m : gmap SessionKey Session) : bool :=
  match m !! session_key c with
  | Some s => (now e - last_recv_time s <? SESSION_TIMEOUT)
              && negb (Nat.eqb (length (password (lr c))) 0)
              && ((two && tfa s) || (negb two && validate_password_plain (random_password s) c))
  | None => false
  end.

Definition addressed (e : menv) (r : LoginRequest) : bool :=
  is_ip_str e (username r) || is_domain_port_str e (username r) || String.eqb (username r) (own_id e).

Definition throttled (e : menv) (c : conn) (m : fmap) : bool :=
  match (check_failure (now_ms e) (c_ip c) m).2 with Some _ => true | None => false end.

(** The first way in that applies, if any. *)
Definition login_way (e : menv) (r : LoginRequest) (c : conn) (g : global) : option way :=
  let allow := allow_logon_option e && is_logon e in
  if negb (addressed e r) then None
  else if file_transfer c && has_active_remote_session (my_id r) g then Some ActivePeer
  else if (Grace.consume_restart_reconnect_grace (now_sched e) (my_id r) (grace g)).1 then Some RestartGrace
  else if (Sched.is_open (disk_open e) (now_sched e) (sched g)).1 then Some OpenWindow
  else if click_only e allow then None
  else if recent e false c (SESSIONS g) then Some RecentSession
  else if Nat.eqb (length (password r)) 0 || throttled e c (failures g) then None
  else if temporary_enabled e && validate_password_plain (temporary_password g) c then Some TemporaryPassword
  else if (permanent_enabled e || allow) && permanent_ok e c then Some PermanentPassword
  else None.

(** Entering with the temporary password forgets an earlier second factor. *)
Definition second_ok (e : menv) (w : way) (c : conn) (g : global) : bool :=
  negb (require_2fa c) || from_switch c
  || match w with TemporaryPassword => false | _ => recent e true c (SESSIONS g) end.

Definition forward_ok (e : menv) (c : conn) : bool :=
  match lr_union (lr c) with UPortForward => forward_reachable e | _ => true end.

Definition trusted_device (e : menv) (r : LoginRequest) (g : global) : bool :=
  negb (Nat.eqb (length (hwid r)) 0) && trusted_enabled e
  && match List.find (λ d, bool_decide (d_hwid d = hwid r)) (trusted g) with
     | Some d => negb (d_outdate d) && String.eqb (d_id d) (my_id r) && String.eqb (d_name d) (my_name r)
                 && String.eqb (d_platform d) (my_platform r)
     | None => false
     end.

Definition kind_allowed (e : menv) (r : LoginRequest) : bool :=
  match lr_union r with
  | UFileTransfer => enabled e PFile
  | UViewCamera => enabled e PCamera
  | UTerminal _ =>
      enabled e PTerminal && (is_empty (os_username r) || installed e)
      && match user_token_error e with Some _ => false | None => true end
      && match service_user e, user_token e with Some a, Some b => Bool.eqb a b | _, _ => true end
  | UPortForward => enabled e PTunnel
  | UNone => negb (privacy_mode e)
  end.

(** The connection the decision looks at. *)
Definition noted (e : menv) (r : LoginRequest) (x : ctx) : conn :=
  let c := set_2fa (require_2fa (cn x) && negb (trusted_device e r (gl x))) (set_lr r (cn x)) in
  match lr_union r with
  | UFileTransfer => set_kind true false false false c
  | UViewCamera => set_kind false true false false c
  | UTerminal _ => set_kind false false true false c
  | UPortForward => set_kind false false false true c
  | UNone => c
  end.

Definition login_spec (e : menv) (r : LoginRequest) (x : ctx) : bool :=
  let c := noted e r x in
  kind_allowed e r && is_empty (err_msg e) && forward_ok e c
  && match login_way e r c (gl x) with Some w => second_ok e w c (gl x) | None => false end.

(** *** The handler implements the specification *)
Lemma lookup_filter_recent e two x :
  is_recent_session e two x =
  (recent e two (cn x) (SESSIONS (gl x)),
   upd_gl (set_SESSIONS (filter (λ kv, (now e - last_recv_time kv.2 <? SESSION_TIMEOUT) = true)
                           (SESSIONS (gl x)))) x).
Proof.
  unfold is_recent_session, recent. cbn [upd_gl cn]. f_equal.
  set (m := SESSIONS (gl x)). set (k := session_key (cn x)).
  destruct (m !! k) as [s|] eqn:E.
  - destruct (now e - last_recv_time s <? SESSION_TIMEOUT) eqn:Et.
    + rewrite (proj2 (map_lookup_filter_Some _ _ _ _)) by done. done.
    + rewrite (proj2 (map_lookup_filter_None _ _ _)); [done|]. right. intros y Hy. simplify_eq/=. congruence.
  - rewrite (proj2 (map_lookup_filter_None _ _ _)); [done|]. by left.
Qed.

(** Forgetting stale sessions does not change what is recent. *)
Lemma recent_filter e two c m :
  recent e two c (filter (λ kv, (now e - last_recv_time kv.2 <? SESSION_TIMEOUT) = true) m)
  = recent e two c m.
Proof.
  unfold recent. destruct (m !! session_key c) as [s|] eqn:E.
  - destruct (now e - last_recv_time s <? SESSION_TIMEOUT) eqn:Et; simpl.
    + rewrite (proj2 (map_lookup_filter_Some _ _ _ _)) by done. simpl. by rewrite Et.
    + rewrite (proj2 (map_lookup_filter_None _ _ _)); [done|]. right. intros y Hy. simplify_eq/=. congruence.
  - rewrite (proj2 (map_lookup_filter_None _ _ _)); [done|]. by left.
Qed.

Definition second_factor (e : menv) (c : conn) (m : gmap SessionKey Session) : bool :=
  negb (require_2fa c) || from_switch c || recent e true c m.

Lemma send_authorized e x : authorized (cn x) = false ->
  authorized (cn (send_logon_response e x).2)
  = second_factor e (cn x) (SESSIONS (gl x)) && forward_ok e (cn x).
Proof.
  intros Ha. unfold send_logon_response, second_factor, forward_ok. rewrite Ha.
  destruct (require_2fa (cn x)) eqn:E2.
  - rewrite lookup_filter_recent. simpl. rewrite E2. simpl.
    destruct (recent e true (cn x) (SESSIONS (gl x))), (from_switch (cn x)); simpl; try done;
      by destruct (lr_union (lr (cn x))), (forward_reachable e).
  - rewrite E2. simpl. by destruct (lr_union (lr (cn x))), (forward_reachable e).
Qed.

Lemma accept_authorized e x : authorized (cn x) = false ->
  authorized (cn (accept e x).2)
  = is_empty (err_msg e) && (forward_ok e (cn x) && second_factor e (cn x) (SESSIONS (gl x))).
Proof.
  intros Ha. unfold accept. destruct (is_empty (err_msg e)); simpl; [|done].
  pose proof (send_authorized e x Ha) as H. rewrite andb_comm in H.
  destruct (send_logon_response e x) as [keep x']. by destruct keep.
Qed.

(** A login with the temporary password leaves no second factor behind. *)
Lemma recent_after_temporary e t pw c m :
  recent e true c (update_or_insert_session t (session_key c) (Some pw) (Some false) m) = false.
Proof.
  unfold recent, update_or_insert_session. destruct (m !! session_key c);
    rewrite lookup_insert_eq; simpl; by rewrite andb_false_r.
Qed.

Lemma temporary_sessions e b g : SESSIONS (check_update_temporary_password e b g) = SESSIONS g.
Proof. unfold check_update_temporary_password. by repeat case_goal. Qed.

Lemma password_authorized e allow x : authorized (cn x) = false ->
  authorized (cn (login_with_password e allow x).2)
  = is_empty (err_msg e) && (forward_ok e (cn x) &&
    (negb (throttled e (cn x) (failures (gl x)))
     && (if temporary_enabled e && validate_password_plain (temporary_password (gl x)) (cn x)
         then second_ok e TemporaryPassword (cn x) (gl x)
         else (permanent_enabled e || allow) && permanent_ok e (cn x)
              && second_ok e PermanentPassword (cn x) (gl x)))).
Proof.
  intros Ha. unfold login_with_password, throttled.
  destruct (check_failure _ _ _) as [[f t] [rf|]]; cbn [snd negb andb].
  { by rewrite !andb_false_r. }
  unfold validate_password. cbv zeta. fold (permanent_ok e (cn x)).
  destruct (_ && validate_password_plain _ _).
  - rewrite accept_authorized by done. cbn [upd_gl gl cn set_failures SESSIONS].
    rewrite temporary_sessions. unfold second_factor. simpl SESSIONS.
    by rewrite recent_after_temporary.
  - destruct ((permanent_enabled e || allow) && permanent_ok e (cn x)) eqn:E.
    + apply andb_true_iff in E as [-> ->]. cbn [andb]. by rewrite accept_authorized.
    + apply andb_false_iff in E. rewrite !andb_false_r.
      destruct (permanent_enabled e || allow); [destruct E as [|E]; [done|]; rewrite E|];
        by destruct (is_empty (err_msg e)).
Qed.

Lemma decide_authorized e r x : authorized (cn x) = false -> lr (cn x) = r ->
  authorized (cn (decide_login e r x).2)
  = is_empty (err_msg e) && (forward_ok e (cn x) &&
      match login_way e r (cn x) (gl x) with Some w => second_ok e w (cn x) (gl x) | None => false end).
Proof.
  intros Ha Hr. unfold decide_login, login_way, addressed. rewrite <- !negb_orb.
  destruct (negb _). { by rewrite !andb_false_r. }
  destruct (file_transfer _ && _). { by rewrite accept_authorized. }
  destruct (Grace.consume_restart_reconnect_grace _ _ _) as [graced mk]. cbn [fst].
  destruct graced. { by rewrite accept_authorized. }
  cbn [upd_gl set_grace gl sched].
  destruct (Sched.is_open _ _ _) as [o mk']. cbn [fst]. destruct o. { by rewrite accept_authorized. }
  destruct (click_only _ _).
  { rewrite !andb_false_r. unfold wait_for_click. by destruct (sched_req r), (modern_version r). }
  rewrite lookup_filter_recent. cbn [upd_gl gl cn set_grace set_sched SESSIONS].
  destruct (recent e false (cn x) (SESSIONS (gl x))).
  { cbv beta iota. rewrite accept_authorized by done. unfold second_factor. cbn [upd_gl gl cn set_SESSIONS SESSIONS].
    by rewrite recent_filter. }
  destruct (Nat.eqb _ _); cbn [orb].
  { rewrite !andb_false_r. by destruct (is_empty (err_msg e)). }
  cbv beta iota. rewrite password_authorized by done. cbn [upd_gl gl cn set_SESSIONS SESSIONS failures temporary_password].
  f_equal. f_equal. destruct (throttled _ _ _); cbn [negb andb]; [done|].
  destruct (_ && validate_password_plain _ _); [done|].
  destruct (_ && permanent_ok _ _); [|done]. cbn [andb]. unfold second_ok.
  cbn [upd_gl gl cn set_SESSIONS SESSIONS]. by rewrite recent_filter.
Qed.

Lemma kind_noted e r x :
  (request_kind e r (handle_login_request_without_validation e r x)).1 = None <-> kind_allowed e r = true.
Proof.
  unfold request_kind, kind_allowed. set (y := handle_login_request_without_validation e r x). clearbody y.
  destruct (lr_union r).
  - by destruct (privacy_mode e).
  - by destruct (enabled e PFile).
  - by destruct (enabled e PCamera).
  - destruct (enabled e PTerminal); simpl; [|done]. destruct (is_empty (os_username r)), (installed e); simpl; try done;
      (destruct (user_token_error e); [done|]); destruct (service_user e) as [[]|], (user_token e) as [[]|]; done.
  - by destruct (enabled e PTunnel).
Qed.

Lemma request_noted e r x : kind_allowed e r = true ->
  request_kind e r (handle_login_request_without_validation e r x)
  = (None, mkCtx (noted e r x) (gl x) (out x)).
Proof.
  intros Hk. pose proof (proj2 (kind_noted e r x) Hk) as Hn. revert Hn.
  assert (Hc : handle_login_request_without_validation e r x
    = mkCtx (set_2fa (require_2fa (cn x) && negb (trusted_device e r (gl x))) (set_lr r (cn x)))
        (gl x) (out x)).
  { unfold handle_login_request_without_validation, trusted_device, upd_conn, set_2fa, set_lr. simpl.
    destruct (require_2fa (cn x)); simpl; [|done].
    destruct (_ && trusted_enabled e); simpl; [|done].
    destruct (List.find _ _) as [d|]; simpl; [|done]. by destruct (_ && _). }
  rewrite Hc. unfold request_kind, noted. intros Hn.
  destruct (lr_union r); revert Hn; repeat (case_goal; simpl; try done).
Qed.

Lemma handler_spec e r x : authorized (cn x) = false ->
  authorized (cn (on_login_request e r x).2) = login_spec e r x.
Proof.
  intros Ha. unfold on_login_request.
  assert (Hh : authorized (cn (handle_login_request_without_validation e r x)) = false).
  { unfold handle_login_request_without_validation. by repeat case_goal. }
  rewrite Hh. unfold login_spec. destruct (kind_allowed e r) eqn:Hk.
  - rewrite request_noted by done. cbn [andb].
    assert (Hn : authorized (noted e r x) = false /\ lr (noted e r x) = r)
      by (unfold noted; destruct (lr_union r); done).
    destruct (negb (is_empty (err_msg e)) && _) eqn:E.
    + apply andb_true_iff in E as [E _]. apply negb_true_iff in E. rewrite E. simpl. by destruct Hn.
    + rewrite decide_authorized by apply Hn. simpl. by rewrite andb_assoc.
  - pose proof (kind_noted e r x) as H.
    destruct (request_kind _ _ _) as [[msg|] y] eqn:E; [|by destruct H as [H _]; rewrite H in Hk].
    simpl. revert E. unfold request_kind.
    destruct (lr_union r); repeat case_goal; intros [= <- <-]; done.
Qed.

(** C2: the handler of a login request authorises a connection exactly when
    [login_spec] says so: the kind of session asked for is permitted, the
    machine is ready, the request is addressed to this machine, one of the six
    ways in applies in their order (an active remote session of the same peer
    for a file transfer; the restart grace; the window the customer opened;
    and, unless only a click is accepted, a recent session, the temporary or
    the permanent password within the attempt limits), and the second factor,
    when required, was given recently, by a trusted device or by switching
    sides. *)
Theorem login_refines e r x : authorized (cn x) = false ->
  authorized (cn (on_login_request e r x).2) = login_spec e r x.
Proof. apply handler_spec. Qed.

(** *** When only the customer's click counts *)
Lemma grace_true t op file : (Grace.consume_restart_reconnect_grace t op file).1 = true ->
  op <> EmptyString /\ exists gexp,
    split_once ":"%char (trim file) = Some (op, gexp) /\ t <= default 0 (parse_u64 gexp).
Proof.
  unfold Grace.consume_restart_reconnect_grace. destruct (is_empty (trim file)); [done|].
  destruct (split_once _ _) as [[gid gexp]|]; [|done]. rewrite Z.gtb_ltb.
  destruct (Z.ltb_spec (default 0 (parse_u64 gexp)) t); [done|].
  destruct (negb (is_empty gid) && String.eqb gid op) eqn:E; [|done]. intros _.
  apply andb_true_iff in E as [E1 E2]. apply String.eqb_eq in E2 as ->.
  split; [apply is_empty_false; by apply negb_true_iff|]. exists gexp. split; [done|lia].
Qed.

Lemma open_from_grant ops d t : Forall Sched.op_clock ops -> Sched.clock t ->
  (Sched.is_open d t (Sched.file (Sched.after ops))).1 = true ->
  exists d' g st en hq lbl, In (Sched.OGrant d' g st en hq lbl) ops /\ Sched.writes d' = Sched.Done
    /\ g <= t < g + Sched.MAX_WINDOW_SECS.
Proof.
  intros Hops Ht H. pose proof (Sched.after_wf ops Hops) as [Hwf _].
  destruct (Sched.is_open_true _ _ _ Ht Hwf H) as (w & E & _ & Hg).
  destruct (proj1 (Sched.origin ops) w E)
    as (o1 & d' & g & st & en & hq & lbl & o2 & -> & Hd & (_ & _ & E3 & _) & _).
  exists d', g, st, en, hq, lbl. split; [apply in_or_app; right; by left|]. split; [done | lia].
Qed.

(** C1: where the customer must click (the click is the only way, or there is
    no valid password besides it), no password and no recent session lets
    anybody in: a login request that authorises the connection then is a file
    transfer that claims the id of a peer with an active remote session, claims
    the operator id named in an unexpired restart grace, or falls into a window
    the customer granted less than 24 hours ago.  Both ids are what the request
    says of itself. *)
Theorem click_mode_needs_consent e r x ops :
  (approve_mode e = ByClick /\ allow_logon_option e && is_logon e = false)
  \/ (approve_mode e = ByBoth /\ has_valid_password e = false) ->
  authorized (cn x) = false -> sched (gl x) = Sched.file (Sched.after ops) ->
  Forall Sched.op_clock ops -> Sched.clock (now_sched e) ->
  authorized (cn (on_login_request e r x).2) = true ->
  ((file_transfer (cn x) = true \/ lr_union r = UFileTransfer)
   /\ exists a, In a (AUTHED_CONNS (gl x)) /\ ac_type a = TRemote /\ (ac_key a).1.1 = my_id r)
  \/ (my_id r <> EmptyString /\ exists gexp,
      split_once ":"%char (trim (grace (gl x))) = Some (my_id r, gexp)
      /\ now_sched e <= default 0 (parse_u64 gexp))
  \/ (exists d g st en hq lbl, In (Sched.OGrant d g st en hq lbl) ops
      /\ Sched.writes d = Sched.Done /\ g <= now_sched e < g + Sched.MAX_WINDOW_SECS).
Proof.
  intros Hm Ha Hs Hops Ht. rewrite handler_spec by done. unfold login_spec, login_way.
  intros H. apply andb_true_iff in H as [_ H].
  destruct (negb (addressed e r)); [done|].
  destruct (file_transfer _ && _) eqn:Ef.
  { left. apply andb_true_iff in Ef as [Ef Hr]. split.
    - unfold noted in Ef. destruct (lr_union r); simpl in Ef; rewrite ?orb_false_r in Ef; auto.
    - unfold has_active_remote_session in Hr. apply existsb_exists in Hr as (a & Hin & Hp). exists a.
      apply andb_true_iff in Hp as [H1 H2]. apply bool_decide_eq_true in H1.
      apply String.eqb_eq in H2. done. }
  destruct (Grace.consume_restart_reconnect_grace _ _ _) as [[] mk] eqn:Eg; cbn [fst] in H.
  { right. left. apply grace_true. by rewrite Eg. }
  destruct (Sched.is_open _ _ _).1 eqn:Eo.
  { right. right. rewrite Hs in Eo. by eapply open_from_grant. }
  unfold click_only in H. destruct Hm as [[Hm Hl]|[Hm Hp]]; rewrite Hm in H; [by rewrite Hl in H | by rewrite Hp in H].
Qed.

(** *** The second factor *)

(** A second-factor message authorises exactly when a second factor is
    due, the code is right, the address has attempts left and a port forward
    reaches its target; what was sent before in the login request, a password
    included, plays no part. *)
Theorem auth_2fa_decision e hw x : authorized (cn x) = false ->
  authorized (cn (on_auth_2fa e hw x).2)
  = negb (throttled e (cn x) (failures_2fa (gl x))) && require_2fa (cn x)
    && bool_decide (check_code e = Some true) && forward_ok e (cn x).
Proof.
  intros Ha. unfold on_auth_2fa, throttled.
  destruct (check_failure _ _ _) as [[f t] [rf|]]; cbn [snd negb andb]; [done|].
  destruct (require_2fa (cn x)); cbn [negb andb]; [|done].
  destruct (check_code e) as [[]|]; [|by rewrite bool_decide_eq_false_2..].
  rewrite bool_decide_eq_true_2 by done. cbn [andb]. set (y := upd_gl _ (upd_conn _ _)).
  assert (Hy : authorized (cn y) = false) by done.
  pose proof (send_authorized e y Hy) as H. unfold second_factor in H. cbn [y upd_gl upd_conn cn set_2fa require_2fa] in H.
  cbn [negb orb andb] in H. destruct (send_logon_response e y) as [keep z]. cbn [snd] in H.
  change (forward_ok e _) with (forward_ok e (cn x)) in H. rewrite <- H.
  destruct keep; simpl; [|done]. by destruct (_ && trusted_enabled e).
Qed.

(** *** The register of authorised connections *)
Definition quiet (x y : ctx) : Prop :=
  authorized (cn y) = authorized (cn x) /\ c_id (cn y) = c_id (cn x)
  /\ AUTHED_CONNS (gl y) = AUTHED_CONNS (gl x).

(** What is registered: the connection's number, its kind and the session it
    belongs to. *)
Definition registers (x y : ctx) : Prop :=
  quiet x y
  \/ (authorized (cn x) = false /\ authorized (cn y) = true /\ c_id (cn y) = c_id (cn x)
      /\ AUTHED_CONNS (gl y)
         = AUTHED_CONNS (gl x) ++ [mkAuthed (c_id (cn x)) (conn_type (cn y)) (session_key (cn y))]).

Lemma quiet_registers x y z : quiet x y -> registers y z -> registers x z.
Proof.
  intros (E1 & E2 & E3) [(F1 & F2 & F3)|(F1 & F2 & F3 & F4)].
  - left. repeat split; congruence.
  - right. rewrite <- E1, <- E2, <- E3. by rewrite F3.
Qed.

Lemma registers_same x y z : registers x y -> cn z = cn y -> gl z = gl y -> registers x z.
Proof. unfold registers, quiet. by intros H -> ->. Qed.

Lemma registers_authed x y z : registers x y -> cn z = cn y -> AUTHED_CONNS (gl z) = AUTHED_CONNS (gl y) ->
  registers x z.
Proof. unfold registers, quiet. by intros H -> ->. Qed.

Lemma send_registers e x : registers x (send_logon_response e x).2.
Proof.
  unfold send_logon_response. destruct (authorized (cn x)) eqn:Ha; [by left|].
  destruct (require_2fa (cn x)) eqn:E2.
  - rewrite lookup_filter_recent. cbv beta iota.
    repeat case_goal; first [by left | right; by rewrite Ha].
  - cbv beta iota. repeat case_goal; first [by left | right; by rewrite Ha].
Qed.

Lemma accept_registers e x : registers x (accept e x).2.
Proof.
  unfold accept. destruct (is_empty (err_msg e)); [|by left].
  pose proof (send_registers e x) as H. destruct (send_logon_response e x) as [[] y]; [|done].
  by apply (registers_same x y).
Qed.

Lemma temporary_authed e b g : AUTHED_CONNS (check_update_temporary_password e b g) = AUTHED_CONNS g.
Proof. unfold check_update_temporary_password. by repeat case_goal. Qed.

Lemma password_registers e allow x : registers x (login_with_password e allow x).2.
Proof.
  unfold login_with_password. destruct (check_failure _ _ _) as [[f t] [rf|]]; [by left|].
  destruct (validate_password e allow x) as [ok y] eqn:E.
  assert (Hq : quiet x y).
  { revert E. unfold validate_password, quiet. repeat case_goal; intros [= <- <-]; [|done..].
    split; [done|]. split; [done|]. cbn [upd_gl gl]. by rewrite temporary_authed. }
  apply (quiet_registers x y); [done|]. destruct ok.
  - by refine (quiet_registers y _ _ _ (accept_registers e _)).
  - left. destruct (is_empty (err_msg e)); (split; [done|]; split; [done|]);
      cbn [snd say try_start_cm upd_gl gl]; by rewrite temporary_authed.
Qed.

Lemma decide_registers e r x : registers x (decide_login e r x).2.
Proof.
  unfold decide_login. case_match; [by left|]. case_match; [apply accept_registers|].
  destruct (Grace.consume_restart_reconnect_grace _ _ _) as [[] mk].
  { by refine (quiet_registers x _ _ _ (accept_registers e _)). }
  cbn [upd_gl set_grace gl sched]. destruct (Sched.is_open _ _ _) as [[] mk'].
  { by refine (quiet_registers x _ _ _ (accept_registers e _)). }
  destruct (click_only _ _).
  { left. unfold wait_for_click. by destruct (sched_req r), (modern_version r). }
  rewrite lookup_filter_recent. cbv beta iota. case_match.
  { by refine (quiet_registers x _ _ _ (accept_registers e _)). }
  case_match; [left; by destruct (is_empty (err_msg e))|].
  by refine (quiet_registers x _ _ _ (password_registers e _ _)).
Qed.

Lemma handle_quiet e r x : quiet x (handle_login_request_without_validation e r x).
Proof. unfold handle_login_request_without_validation. by repeat case_goal. Qed.

Lemma request_quiet e r x : quiet x (request_kind e r x).2.
Proof. unfold request_kind. by repeat case_goal. Qed.

Lemma quiet_trans x y z : quiet x y -> quiet y z -> quiet x z.
Proof. intros (? & ? & ?) (? & ? & ?). repeat split; congruence. Qed.

(** The register of authorised connections is exact: whatever a login or a
    second-factor message does, either neither the connection's authorisation
    nor the register changes, or the connection becomes authorised and one
    entry is added, carrying its number, its kind and its session. *)
Theorem authorized_is_registered e r hw x :
  registers x (on_login_request e r x).2 /\ registers x (on_auth_2fa e hw x).2.
Proof.
  split.
  - unfold on_login_request. pose proof (handle_quiet e r x) as H0.
    case_match; [by left|].
    pose proof (request_quiet e r (handle_login_request_without_validation e r x)) as H1.
    destruct (request_kind _ _ _) as [[msg|] y]; pose proof (quiet_trans _ _ _ H0 H1) as H2; [by left|].
    case_match; [by left|]. refine (quiet_registers x _ _ H2 (decide_registers e r _)).
  - unfold on_auth_2fa. destruct (check_failure _ _ _) as [[f t] [rf|]]; [by left|].
    case_match; [by left|]. destruct (check_code e) as [[]|]; [|by left..].
    set (y := upd_gl _ (upd_conn _ _)).
    assert (Hr : registers x (send_logon_response e y).2)
      by by refine (quiet_registers x _ _ _ (send_registers e y)).
    destruct (send_logon_response e y) as [[] z]; [|done].
    apply (registers_authed x z); [done| |]; by destruct (_ && trusted_enabled e).
Qed.

(** *** The temporary password *)
Definition after_failures (es : list menv) (g : global) : global :=
  foldl (λ g e, check_update_temporary_password e false g) g es.

(** The failures counted against the current temporary password. *)
Definition counted (g : global) : Z :=
  if String.eqb (tp_password g) (temporary_password g) then tp_failures g else 0.

Lemma one_failure e g : temporary_enabled e = true -> temporary_password g <> EmptyString ->
  0 <= counted g < MAX_CONSECUTIVE_FAILURES ->
  let g' := check_update_temporary_password e false g in
  if counted g + 1 <? MAX_CONSECUTIVE_FAILURES
  then temporary_password g' = temporary_password g /\ counted g' = counted g + 1
  else temporary_password g' = rotated_password e /\ counted g' = 0.
Proof.
  intros He Hp Hc. unfold check_update_temporary_password. rewrite He. cbn [negb].
  apply is_empty_false in Hp. rewrite Hp. unfold counted, MAX_CONSECUTIVE_FAILURES in *.
  destruct (String.eqb (tp_password g) (temporary_password g)) eqn:E; cbn [negb];
    (rewrite i32_small by (cbn [set_tp tp_failures]; lia)); cbn [set_tp tp_failures];
    case_match; cbn [set_tp set_temporary tp_password temporary_password tp_failures];
    rewrite ?E, ?String.eqb_refl; done.
Qed.

Lemma some_failures es g : Forall (λ e, temporary_enabled e = true) es -> temporary_password g <> EmptyString ->
  0 <= counted g -> counted g + Z.of_nat (length es) < MAX_CONSECUTIVE_FAILURES ->
  temporary_password (after_failures es g) = temporary_password g
  /\ counted (after_failures es g) = counted g + Z.of_nat (length es).
Proof.
  revert g. induction es as [|e es IH]; intros g Hes Hp H0 H; simpl in *; [split; [done|lia]|].
  inversion Hes; subst. pose proof (one_failure e g ltac:(done) Hp ltac:(lia)) as H1. cbv zeta in H1.
  rewrite (proj2 (Z.ltb_lt _ _)) in H1 by lia. destruct H1 as [E1 E2].
  destruct (IH (check_update_temporary_password e false g)) as [F1 F2]; [done|congruence|lia|lia|].
  unfold after_failures in *. rewrite F1, F2, E1, E2. split; [done|lia].
Qed.

(** A temporary password survives nine consecutive wrong attempts and is
    replaced at the tenth, and counting starts again for its successor. *)
Theorem temporary_password_rotates es e g :
  Forall (λ e, temporary_enabled e = true) (es ++ [e]) -> temporary_password g <> EmptyString ->
  0 <= counted g -> counted g + Z.of_nat (length es) = MAX_CONSECUTIVE_FAILURES - 1 ->
  temporary_password (after_failures es g) = temporary_password g
  /\ temporary_password (after_failures (es ++ [e]) g) = rotated_password e
  /\ counted (after_failures (es ++ [e]) g) = 0.
Proof.
  intros Hes Hp H0 H. apply Forall_app in Hes as [Hes He]. inversion He; subst.
  destruct (some_failures es g Hes Hp H0) as [E1 E2]; [lia|]. split; [done|].
  unfold after_failures. rewrite foldl_app. fold (after_failures es g). simpl.
  pose proof (one_failure e (after_failures es g) ltac:(done) ltac:(congruence)
    ltac:(unfold MAX_CONSECUTIVE_FAILURES in *; lia)) as H1. cbv zeta in H1.
  by rewrite (proj2 (Z.ltb_ge _ _)) in H1 by (unfold MAX_CONSECUTIVE_FAILURES in *; lia).
Qed.
End spec.

(** *** Concrete logins *)
Definition demo_env (mode : ApproveMode) (code : option bool) : menv :=
  mkEnv true false mode true EmptyString EmptyString (λ _, None) false false
    "100" (λ _, false) (λ _, false) 1000 1000000 2000 "new" false (λ _, true) EmptyString
    true None None None true false code Sched.fine Sched.fine.
Definition demo_lr (kind : union) (pw : string) : LoginRequest :=
  mkLr "100" "200" "tech" "Windows" 5 (bytes_of pw) [] kind EmptyString true false.
Definition demo_global (s : Sched.store) (conns : list AuthedConn) : global :=
  mkGlobal EmptyString s ∅ ∅ EmptyString 0 "secret" ∅ conns [].
Definition demo_ctx (twofa : bool) (s : Sched.store) (conns : list AuthedConn) : ctx :=
  mkCtx (fresh_conn 1 (V4 1) "-salt" "-challenge" twofa) (demo_global s conns) [].
Definition demo_grant : list Sched.op := [Sched.OGrant Sched.fine 1000 1100 5000 1000 "t"].

Definition right : LoginRequest := demo_lr UNone "secret-salt-challenge".
Lemma login_refines_witness :
  authorized (cn (on_login_request (sha := toy_sha) (demo_env ByPassword None) right (demo_ctx false None [])).2)
    = login_spec (sha := toy_sha) (demo_env ByPassword None) right (demo_ctx false None [])
  /\ login_spec (sha := toy_sha) (demo_env ByPassword None) right (demo_ctx false None []) = true
  /\ login_spec (sha := toy_sha) (demo_env ByClick None) right (demo_ctx false None []) = false.
Proof.
  split; [|split; vm_compute; reflexivity].
  apply (login_refines (sha := toy_sha) (demo_env ByPassword None) right (demo_ctx false None [])). reflexivity.
Defined.

Definition opened : ctx := demo_ctx false (Sched.file (Sched.after demo_grant)) [].
Lemma click_mode_needs_consent_witness :
  ((file_transfer (cn opened) = true \/ lr_union right = UFileTransfer)
   /\ exists a, In a (AUTHED_CONNS (gl opened)) /\ ac_type a = TRemote /\ (ac_key a).1.1 = my_id right)
  \/ (my_id right <> EmptyString /\ exists gexp,
      split_once ":"%char (trim (grace (gl opened))) = Some (my_id right, gexp)
      /\ 2000 <= default 0 (parse_u64 gexp))
  \/ (exists d g st en hq lbl, In (Sched.OGrant d g st en hq lbl) demo_grant
      /\ Sched.writes d = Sched.Done /\ g <= 2000 < g + Sched.MAX_WINDOW_SECS).
Proof.
  apply (click_mode_needs_consent (sha := toy_sha) (demo_env ByClick None) right opened demo_grant);
    [left; split; reflexivity | reflexivity | reflexivity
    | repeat constructor; unfold Sched.op_clock, Sched.clock; lia
    | unfold Sched.clock; simpl; lia | vm_compute; reflexivity].
Defined.

Lemma auth_2fa_decision_witness :
  authorized (cn (on_auth_2fa (sha := toy_sha) (demo_env ByPassword (Some false)) [] (demo_ctx true None [])).2)
  = negb (throttled (demo_env ByPassword (Some false)) (cn (demo_ctx true None [])) ∅) && true
    && bool_decide (Some false = Some true) && true.
Proof.
  apply (auth_2fa_decision (sha := toy_sha) (demo_env ByPassword (Some false)) [] (demo_ctx true None [])).
  reflexivity.
Defined.

Definition nine : list menv := repeat (demo_env ByPassword None) 9.
Lemma temporary_password_rotates_witness :
  let g := demo_global None [] in
  temporary_password (after_failures nine g) = "secret"
  /\ temporary_password (after_failures (nine ++ [demo_env ByPassword None]) g) = "new"
  /\ counted (after_failures (nine ++ [demo_env ByPassword None]) g) = 0.
Proof.
  apply (temporary_password_rotates nine (demo_env ByPassword None) (demo_global None []));
    [repeat constructor | done | vm_compute; congruence | vm_compute; reflexivity].
Defined.

(** The code alone controls the machine: no login request came before it. *)
Example totp_alone_authorizes :
  let y := on_auth_2fa (sha := toy_sha) (demo_env ByPassword (Some true)) [] (demo_ctx true None []) in
  authorized (cn y.2) = true /\ map ac_type (AUTHED_CONNS (gl y.2)) = [TRemote].
Proof. vm_compute. done. Qed.

(** A file transfer is let in on the id the peer claims: another address, no
    password, no click. *)
Example claimed_id_transfers :
  let conns := [mkAuthed 7 TRemote ("200", "tech", 4)] in
  let y := on_login_request (sha := toy_sha) (demo_env ByClick None)
             (demo_lr UFileTransfer EmptyString) (demo_ctx false None conns) in
  authorized (cn y.2) = true /\ map ac_type (AUTHED_CONNS (gl y.2)) = [TRemote; TFileTransfer].
Proof. vm_compute. done. Qed.
End LoginSpec.
