(* ===== verification/FileLog.v ===== *)
(** * The record of removed files ([FileRemoveLogControl] of
      [src/src/server/connection.rs])

    When the peer removes files and folders the customer's window shows it.  The
    removals are gathered and shown once nothing was removed for a second;
    removing a folder replaces the entries of the folders in it.  A path is its
    components, as [Path::components] of the standard library reads them, and
    [parent] is that library's.  Times are milliseconds. *)

From S2P Require Import Prelude.
#[local] Open Scope Z_scope.

Module FileLog.
Inductive component := Prefix (s : string) | RootDir | CurDir | ParentDir | Normal (s : string).
#[export] Instance component_eq_dec : EqDecision component.
Proof. solve_decision. Defined.
Definition path : Type := list component.
Definition parent (p : path) : option path :=
  match last p with
  | Some (Normal _ | CurDir | ParentDir) => Some (removelast p)
  | _ => None
  end.

(** [FileRemoveFile] and [FileRemoveDir] of the protocol, and an entry
    ([FileActionLog]) of the log. *)
Record removed := mkRemoved { r_id : Z; r_path : path }.
Record entry := mkEntry { e_id : Z; e_conn : Z; e_path : path; e_dir : bool }.

Record control := mkControl {
  conn_id : Z; instant : Z; removed_files : list removed; removed_dirs : list removed;
}.
Definition new (now conn : Z) : control := mkControl conn now [] [].

Definition on_remove_file (now : Z) (f : removed) (c : control) : entry * control :=
  (mkEntry (r_id f) (conn_id c) (r_path f) false,
   mkControl (conn_id c) now (removed_files c ++ [f]) (removed_dirs c)).

Definition direct_child (par child : path) : bool := bool_decide (parent child = Some par).
Definition on_remove_dir (now : Z) (d : removed) (c : control) : entry * control :=
  let files := retain (λ f, negb (direct_child (r_path f) (r_path d))) (removed_files c) in
  let dirs := retain (λ x, negb (direct_child (r_path d) (r_path x))) (removed_dirs c) in
  let dirs := if negb (existsb (λ x, direct_child (r_path x) (r_path d)) dirs) then dirs ++ [d] else dirs in
  (mkEntry (r_id d) (conn_id c) (r_path d) true, mkControl (conn_id c) now files dirs).

Definition on_timer (now : Z) (c : control) : list entry * control :=
  if (now - instant c) / 1000 <? 1 then ([], c)
  else (map (λ f, mkEntry (r_id f) (conn_id c) (r_path f) false) (removed_files c)
          ++ map (λ d, mkEntry (r_id d) (conn_id c) (r_path d) true) (removed_dirs c),
        mkControl (conn_id c) (instant c) [] []).

(** ** Runs

    What the connection does with it: its messages ignore the entry that is
    answered at once, its timer sends what [on_timer] gives. *)
Inductive op := RemoveFile (now : Z) (f : removed) | RemoveDir (now : Z) (d : removed) | Timer (now : Z).
Definition exec (o : op) (x : control * list entry) : control * list entry :=
  match o with
  | RemoveFile t f => ((on_remove_file t f x.1).2, x.2)
  | RemoveDir t d => ((on_remove_dir t d x.1).2, x.2)
  | Timer t => let '(l, c) := on_timer t x.1 in (c, x.2 ++ l)
  end.
Definition run (conn start : Z) (ops : list op) : control * list entry :=
  foldl (λ x o, exec o x) (new start conn, []) ops.

(** [q] is [p] or a folder above it. *)
Definition above (q p : path) : Prop := rtc (λ a b, parent a = Some b) p q.
Definition file_shown (x : control * list entry) (f : removed) : Prop :=
  In f (removed_files x.1) \/ In (mkEntry (r_id f) (conn_id x.1) (r_path f) false) x.2.
Definition dir_covered (x : control * list entry) (d : removed) : Prop :=
  exists q : removed, above (r_path q) (r_path d)
    /\ (In q (removed_dirs x.1) \/ In (mkEntry (r_id q) (conn_id x.1) (r_path q) true) x.2).
(** A folder right inside what was removed as the file [f] is removed later. *)
Definition replaced (f : removed) (later : list op) : Prop :=
  exists t d, In (RemoveDir t d) later /\ parent (r_path d) = Some (r_path f).

Lemma direct_child_iff a b : direct_child a b = true <-> parent b = Some a.
Proof. unfold direct_child. by rewrite bool_decide_eq_true. Qed.

Lemma exec_conn o x : conn_id (exec o x).1 = conn_id x.1.
Proof. destruct o; simpl; try done. unfold on_timer. by destruct (_ <? 1). Qed.
Lemma exec_log o x e : In e x.2 -> In e (exec o x).2.
Proof. destruct o; simpl; try done. destruct (on_timer now x.1) as [l c]. intros H. apply in_or_app. by left. Qed.
Lemma steps_snoc conn start ops o : run conn start (ops ++ [o]) = exec o (run conn start ops).
Proof. unfold run. by rewrite foldl_snoc. Qed.
Lemma run_conn conn start ops : conn_id (run conn start ops).1 = conn.
Proof. induction ops as [|o ops IH] using rev_ind; [done|]. by rewrite steps_snoc, exec_conn. Qed.

(** The timer shows what it takes out of the lists. *)
Lemma timer_files t x f : file_shown x f -> file_shown (exec (Timer t) x) f.
Proof.
  unfold file_shown. simpl. unfold on_timer. destruct (_ <? 1); [by rewrite app_nil_r|].
  cbn [fst snd removed_files conn_id]. intros [H|H]; right; rewrite !in_app_iff; [|tauto].
  right; left. apply in_map_iff. by exists f.
Qed.
Lemma timer_dirs t x d : dir_covered x d -> dir_covered (exec (Timer t) x) d.
Proof.
  intros (q & Hq & H). exists q. split; [done|]. revert H. simpl. unfold on_timer.
  destruct (_ <? 1); [by rewrite app_nil_r|].
  cbn [fst snd removed_dirs conn_id]. intros [H|H]; right; rewrite !in_app_iff; [|tauto].
  right; right. apply in_map_iff. by exists q.
Qed.

(** After a folder is removed, it or its parent is in the list. *)
Lemma dir_self t d x : exists q, above (r_path q) (r_path d) /\ In q (removed_dirs (exec (RemoveDir t d) x).1).
Proof.
  simpl. destruct (existsb _ _) eqn:E; simpl.
  - apply existsb_exists in E as (q & Hq & Hc). exists q. split; [|done].
    apply rtc_once. by apply direct_child_iff.
  - exists d. split; [apply rtc_refl|]. apply in_or_app. right. by left.
Qed.
Lemma dir_step t d x e : dir_covered x e -> dir_covered (exec (RemoveDir t d) x) e.
Proof.
  intros (q & Hq & [H|H]).
  - destruct (direct_child (r_path d) (r_path q)) eqn:E.
    + destruct (dir_self t d x) as (p & Hp & Hin). exists p. split; [|by left].
      apply direct_child_iff in E. unfold above in *. etrans; [exact Hq|]. eapply rtc_l; eassumption.
    + exists q. split; [done|]. left. simpl.
      assert (Hr : In q (retain (λ x, negb (direct_child (r_path d) (r_path x))) (removed_dirs x.1)))
        by (apply retain_In; by rewrite E).
      destruct (negb _); [|done]. apply in_or_app. by left.
  - exists q. split; [done|]. right. by apply exec_log.
Qed.
Lemma dirs_hold o x e : dir_covered x e -> dir_covered (exec o x) e.
Proof. destruct o; [done|apply dir_step|apply timer_dirs]. Qed.

Lemma files_hold o x f : file_shown x f -> file_shown (exec o x) f \/ replaced f [o].
Proof.
  destruct o as [t g|t d|t]; intros H.
  - left. destruct H as [H|H]; [left|by right]. simpl. apply in_or_app. by left.
  - destruct H as [H|H]; [|left; by right].
    destruct (direct_child (r_path f) (r_path d)) eqn:E.
    + right. exists t, d. split; [by left|]. by apply direct_child_iff.
    + left. left. simpl. apply retain_In. by rewrite E.
  - left. by apply timer_files.
Qed.

Lemma dirs_covered conn start ops t d : In (RemoveDir t d) ops -> dir_covered (run conn start ops) d.
Proof.
  induction ops as [|o ops IH] using rev_ind; [intros []|]. rewrite steps_snoc, in_app_iff.
  intros [H|[->|[]]]; [by apply dirs_hold, IH|].
  destruct (dir_self t d (run conn start ops)) as (q & Hq & Hin). exists q. split; [done|]. by left.
Qed.
Lemma files_shown conn start pre t f post : file_shown (run conn start (pre ++ RemoveFile t f :: post)) f
  \/ replaced f post.
Proof.
  induction post as [|o post IH] using rev_ind.
  - left. rewrite steps_snoc. left. simpl. apply in_or_app. right. by left.
  - replace (pre ++ RemoveFile t f :: post ++ [o]) with ((pre ++ RemoveFile t f :: post) ++ [o])
      by (by rewrite <- app_assoc).
    rewrite steps_snoc. destruct IH as [IH|(t' & d & Hin & Hd)].
    + destruct (files_hold o _ _ IH) as [H|(t' & d & [H|[]] & Hd)]; [by left|]. right. exists t', d.
      split; [|done]. apply in_or_app. right. by left.
    + right. exists t', d. split; [|done]. apply in_or_app. by left.
Qed.

(** Nothing is in the lists or the log that was not removed. *)
Definition was_removed (ops : list op) (id : Z) (p : path) (dir : bool) : Prop :=
  exists t, In (if dir then RemoveDir t (mkRemoved id p) else RemoveFile t (mkRemoved id p)) ops.
Lemma was_removed_snoc ops o id p dir : was_removed ops id p dir -> was_removed (ops ++ [o]) id p dir.
Proof. intros [t H]. exists t. apply in_or_app. by left. Qed.
Lemma run_sound conn start ops : let x := run conn start ops in
  (forall f, In f (removed_files x.1) -> was_removed ops (r_id f) (r_path f) false)
  /\ (forall d, In d (removed_dirs x.1) -> was_removed ops (r_id d) (r_path d) true)
  /\ (forall e, In e x.2 -> e_conn e = conn /\ was_removed ops (e_id e) (e_path e) (e_dir e)).
Proof.
  cbv zeta. induction ops as [|o ops (IHf & IHd & IHl)] using rev_ind; [by repeat split|].
  rewrite steps_snoc. pose proof (run_conn conn start ops) as Hconn.
  set (x := run conn start ops) in *. destruct o as [t f|t d|t].
  - split; [|split]; simpl.
    + intros g [Hg|[->|[]]]%in_app_or; [by apply was_removed_snoc, IHf|].
      destruct g. exists t. apply in_or_app. right. by left.
    + intros d Hd. by apply was_removed_snoc, IHd.
    + intros e He. destruct (IHl e He). split; [done|]. by apply was_removed_snoc.
  - split; [|split]; simpl.
    + intros g [Hg _]%retain_In. by apply was_removed_snoc, IHf.
    + intros g Hg. assert (In g (removed_dirs x.1) \/ g = d) as [Hx| ->].
      { destruct (negb _); [apply in_app_or in Hg as [Hg|[->|[]]]; [left|by right]|left];
          by apply retain_In in Hg as [? _]. }
      * by apply was_removed_snoc, IHd.
      * destruct d. exists t. apply in_or_app. right. by left.
    + intros e He. destruct (IHl e He). split; [done|]. by apply was_removed_snoc.
  - simpl. unfold on_timer. destruct (_ <? 1); cbn [fst snd removed_files removed_dirs].
    + rewrite app_nil_r. split; [|split].
      * intros f Hf. by apply was_removed_snoc, IHf.
      * intros d Hd. by apply was_removed_snoc, IHd.
      * intros e He. destruct (IHl e He). split; [done|]. by apply was_removed_snoc.
    + split; [intros f []|]. split; [intros d []|]. intros e He. rewrite !in_app_iff, !in_map_iff in He.
      destruct He as [He|[(f & <- & Hf)|(d & <- & Hd)]].
      * destruct (IHl e He). split; [done|]. by apply was_removed_snoc.
      * split; [done|]. by apply was_removed_snoc, IHf.
      * split; [done|]. by apply was_removed_snoc, IHd.
Qed.

(** What the peer removes is shown to the customer: once nothing was
    removed for a second, the log holds every removed file and, for every
    removed folder, the folder or one above it, unless the file was replaced by
    a folder and a folder in that was removed before the log was written; and
    the log holds nothing that was not removed, under this connection's
    number. *)
Theorem removals_are_logged conn start ops now :
  let x := run conn start (ops ++ [Timer now]) in
  1000 <= now - instant (run conn start ops).1 ->
  (forall t d, In (RemoveDir t d) ops -> exists e, In e x.2 /\ e_dir e = true /\ above (e_path e) (r_path d))
  /\ (forall pre t f post, ops = pre ++ RemoveFile t f :: post ->
        In (mkEntry (r_id f) conn (r_path f) false) x.2 \/ replaced f post)
  /\ (forall e, In e x.2 -> e_conn e = conn /\ was_removed ops (e_id e) (e_path e) (e_dir e)).
Proof.
  cbv zeta. intros Hq. rewrite steps_snoc.
  assert (Hempty : removed_files (exec (Timer now) (run conn start ops)).1 = []
    /\ removed_dirs (exec (Timer now) (run conn start ops)).1 = []).
  { simpl. unfold on_timer. destruct (_ <? 1) eqn:E; [|done]. exfalso. apply Z.ltb_lt in E.
    pose proof (Z.div_le_mono 1000 _ 1000 ltac:(lia) Hq) as Hd. rewrite Z.div_same in Hd by lia. lia. }
  destruct Hempty as [Hf Hd]. split; [|split].
  - intros t d Hin. destruct (timer_dirs now _ _ (dirs_covered conn start ops t d Hin)) as (q & Hab & [H|H]).
    + rewrite Hd in H. destruct H.
    + eexists. split; [exact H|]. split; [done|]. exact Hab.
  - intros pre t f post Hops. destruct (files_shown conn start pre t f post) as [H|H]; [|by right]. left.
    rewrite <- Hops in H. destruct (timer_files now _ _ H) as [H'|H']; [rewrite Hf in H'; destruct H'|].
    by rewrite exec_conn, run_conn in H'.
  - intros e He. rewrite <- steps_snoc in He.
    destruct (run_sound conn start (ops ++ [Timer now])) as (_ & _ & Hs).
    destruct (Hs e He) as [Hc [t Ht]]. split; [done|]. exists t.
    apply in_app_or in Ht as [?|[Ht|[]]]; [done|]. by destruct (e_dir e).
Qed.

(** ** Inputs *)
Definition p_a : path := [RootDir; Normal "a"].
Definition p_ab : path := [RootDir; Normal "a"; Normal "b"].
Definition p_abc : path := [RootDir; Normal "a"; Normal "b"; Normal "c"].

Lemma removals_are_logged_witness :
  let ops := [RemoveFile 0 (mkRemoved 1 p_abc); RemoveDir 10 (mkRemoved 2 p_ab); RemoveDir 20 (mkRemoved 3 p_a)] in
  exists e, In e (run 7 0 (ops ++ [Timer 1020])).2 /\ e_dir e = true /\ above (e_path e) p_ab.
Proof.
  intros ops. assert (Hq : 1000 <= 1020 - instant (run 7 0 ops).1) by (vm_compute; discriminate).
  destruct (removals_are_logged 7 0 ops 1020 Hq) as (H & _).
  apply (H 10 (mkRemoved 2 p_ab)). right. by left.
Defined.

(** The files in a removed folder keep their entries: the folder's entry
    stands for the folders in it only. *)
Example folder_keeps_files :
  (run 7 0 [RemoveFile 0 (mkRemoved 1 p_abc); RemoveDir 10 (mkRemoved 2 p_ab); Timer 1010]).2
  = [mkEntry 1 7 p_abc false; mkEntry 2 7 p_ab true].
Proof. vm_compute. reflexivity. Qed.

(** What the swapped arguments drop: a file at the place of the removed
    folder's parent. *)
Example replaced_file_lost :
  (run 7 0 [RemoveFile 0 (mkRemoved 1 p_a); RemoveDir 500 (mkRemoved 2 p_ab); Timer 1500]).2
  = [mkEntry 2 7 p_ab true].
Proof. vm_compute. reflexivity. Qed.
End FileLog.
