(* ===== verification/Cm.v ===== *)
(** * The connection manager

    [ui_cm_interface.rs] for the Windows build: the process with the customer's
    window.  It keeps a registry of connections ([CLIENTS]); one task per
    connection of the server reads what the server sends, sends what is queued
    for it, works on the files, and there are the functions the window calls.
    Each of them is one step of a state of the whole process; a run is any
    sequence of steps.

    The jobs of the [fs] library are a class: finding and removing a job, and
    what it says of itself.  What the file system does with a job comes with the
    step. *)

From S2P Require Import Prelude RustStr Sched.
Local Open Scope Z_scope.

Module Cm.

(** ** What is outside *)
Inductive confirm_union : Type := Skip (b : bool) | OffsetBlk (n : Z).
Inductive DigestCheckResult : Type := IsSame | NeedConfirm | NoSuchFile.
Record FileTransferBlock : Type := mkBlock { b_id : Z; b_file_num : Z; b_data : Z; b_compressed : bool }.

(** A [job] of [hbb_common::fs] and the file operations the manager asks for;
    [fsys] is the file system at the moment of the call.  The result of a task
    that could not be joined counts as an error of the operation. *)
Class TransferJobs := {
  fsys : Type;
  job : Type;
  job_id : job -> Z;
  file_num : job -> Z;
  files : job -> list string;
  is_last_job : job -> bool;
  is_resume : job -> bool;
  job_completed : job -> bool;
  job_error : job -> option string;
  new_write : Z -> string -> Z -> bool -> job;
  set_files : list (string * Z) -> job -> result job string;
  set_total_size : Z -> job -> job;
  set_conn_id : Z -> job -> job;
  set_digest : Z -> Z -> job -> job;
  confirm : Z -> option confirm_union -> job -> job;
  write : fsys -> FileTransferBlock -> job -> result unit string * job;
  (** [None]: the job has no such file. *)
  is_write_need_confirmation : fsys -> bool -> Z -> Z -> Z -> job -> option (result DigestCheckResult string);
  new_read : fsys -> string -> Z -> Z -> bool -> bool -> result job string;
  init_data_stream_for_cm : fsys -> job -> result (option (Z * Z)) string * job;
  read : fsys -> job -> result (option FileTransferBlock) string * job;
  get_home : string;
  get_path : string -> string;
  read_dir_entries : fsys -> string -> bool -> option string;
  get_empty_dirs_recursive : fsys -> string -> bool -> option string;
  get_recursive_files : fsys -> string -> bool -> result (list string) string;
  (** A [FileDirectory] of this number, path and entries as bytes. *)
  write_to_bytes : Z -> string -> list string -> result string string;
  fs_remove_file : fsys -> string -> result unit string;
  fs_create_dir : fsys -> string -> result unit string;
  fs_rename_file : fsys -> string -> string -> result unit string;
  fs_copy_path : fsys -> string -> string -> bool -> result unit string;
  fs_remove_dir : fsys -> string -> result unit string;
  fs_remove_all_empty_dir : fsys -> string -> result unit string;
  (** [get_job]: the place of a job; [remove_job] takes it out. *)
  get_job : Z -> list job -> option nat;
  remove_job : Z -> list job -> option job * list job;
  get_job_spec : forall id l, match get_job id l with
    | Some i => exists j, l !! i = Some j /\ job_id j = id
    | None => forall j, In j l -> job_id j <> id
    end;
  remove_job_spec : forall id l, match remove_job id l with
    | (Some j, r) => l ≡ₚ j :: r /\ job_id j = id
    | (None, r) => r = l /\ forall j, In j l -> job_id j <> id
    end;
  (** A job keeps its number, and its blocks carry it. *)
  set_conn_id_id : forall c j, job_id (set_conn_id c j) = job_id j;
  confirm_id : forall n u j, job_id (confirm n u j) = job_id j;
  new_read_id : forall s p id n h o j, new_read s p id n h o = Ok j -> job_id j = id;
  init_id : forall s j, job_id (init_data_stream_for_cm s j).2 = job_id j;
  read_id : forall s j, job_id (read s j).2 = job_id j;
  block_id : forall s j b, (read s j).1 = Ok (Some b) -> b_id b = job_id j;
}.

(** ** Messages *)

(** What a login announces. *)
Record login : Type := mkLogin {
  l_id : Z; l_file_transfer : bool; l_view_camera : bool; l_terminal : bool; l_port_forward : string;
  l_name : string; l_avatar : string; l_peer_id : string;
  l_keyboard : bool; l_clipboard : bool; l_audio : bool; l_file : bool; l_restart : bool;
  l_recording : bool; l_block_input : bool; l_from_switch : bool;
}.

(** [FS]: what the server asks of the files. *)
Inductive FS : Type :=
  | ReadEmptyDirs (dir : string) (include_hidden : bool)
  | ReadDir (dir : string) (include_hidden : bool)
  | RemoveDir (path : string) (id : Z) (recursive : bool)
  | RemoveFile (path : string) (id file_num : Z)
  | CreateDir (path : string) (id : Z)
  | NewWrite (path : string) (id file_num : Z) (files : list (string * Z)) (overwrite : bool) (total conn : Z)
  | CancelWrite (id : Z)
  | WriteDone (id file_num : Z)
  | WriteError (id file_num : Z) (err : string)
  | WriteBlock (id file_num data : Z) (compressed : bool)
  | CheckDigest (id file_num size modified : Z) (is_upload is_resume : bool)
  | SendConfirm (req : option (Z * Z * option confirm_union))   (** [None]: not parsed *)
  | Rename (id : Z) (path new_name : string)
  | Copy (id : Z) (src dst : string) (is_move : bool)
  | ReadFile (path : string) (id file_num : Z) (include_hidden : bool) (conn : Z) (overwrite : bool)
  | CancelRead (id : Z)
  | SendConfirmForRead (id : Z) (skip : bool) (offset_blk : Z)
  | ReadAllFiles (path : string) (id : Z) (include_hidden : bool) (conn : Z).

(** The protocol messages the manager makes itself. *)
Inductive raw : Type :=
  | RError (id : Z) (err : string) (file_num : Z)
  | RDone (id file_num : Z)
  | RDir (dir : string)
  | REmptyDirs (dir : string)
  | RSendConfirm (id file_num : Z) (u : option confirm_union)
  | RDigest (id file_num : Z) (is_upload : bool).

(** Towards the server. *)
Inductive to_server : Type :=
  | Authorize | Close | ClickTime
  | CrSchedResp (accepted : bool) (open_until : Z)
  | SwitchPermission (name : string) (enabled : bool)
  | ChatMessage (text : string)
  | SwitchSidesBack | RequestStart
  | VoiceCallResponse (accepted : bool) | CloseVoiceCall
  | PrivacyModeState (conn : Z)
  | MonitorReady | ClipboardFile
  | ClipboardNonFile (ok : bool)
  | RawMessage (m : raw)
  | ReadJobInitResult (id file_num : Z) (include_hidden : bool) (conn : Z) (r : result string string)
  | FileBlockFromCM (id file_num data : Z) (compressed : bool) (conn : Z)
  | FileReadDone (id file_num conn : Z)
  | FileReadError (id file_num : Z) (err : string) (conn : Z)
  | FileDigestFromCM (id file_num modified size : Z) (is_resume : bool) (conn : Z)
  | AllFilesResult (id conn : Z) (path : string) (r : result string string).

(** From the server. *)
Inductive from_server : Type :=
  | SLogin (l : login) (authorized file_transfer_enabled : bool)
  | SClose | SDisconnected
  | SPrivacyModeState (id : Z)
  | SClickTime (ms : Z)
  | SChat (text : string) | SChatPanel (open : bool)
  | SSchedReq (start end_ hq_now : Z) (label : string) (extend : bool)
  | SFs (f : FS)
  | SFileTransferLog (action log : string)
  | SClipboardFile (beginning : bool)
  | SClipboardFileEnabled (enabled : bool)
  | STheme | SLanguage (lang : string)
  | SShowElevation (show : bool)
  | SStartVoiceCall | SVoiceCallIncoming | SCloseVoiceCall
  | SClipboardNonFile
  | SOther.

(** A line of the transfer log: of one job, of a list of jobs, or as received. *)
Inductive log_line : Type :=
  | LJob (id : Z) (done cancel : bool) (err : string)
  | LJobs (ids : list Z)
  | LText (log : string).

(** What is done: in the window, on the clipboard, in the configuration, and what is sent. *)
Inductive event : Type :=
  | UiAdd (id : Z) | UiRemove (id : Z) (close : bool)
  | UiMessage (id : Z) (text : string) | UiChatPanel (id : Z) (open : bool)
  | UiSchedReq (id start end_ hq_now : Z) (label : string) (extend : bool)
  | UiTheme | UiLanguage | UiElevation (show : bool) | UiVoice (id : Z) (in_call incoming : bool)
  | UiLog (action : string) (l : log_line)
  | EmptyClipboardFiles (id : Z) | ServerClip (n : nat) (id : Z) | StopClip | SetLang (lang : string)
  | Sent (r : nat) (d : to_server).

(** ** The state *)
Record Client : Type := mkClient {
  info : login;
  c_authorized : bool;
  disconnected : bool;
  in_voice_call : bool;
  incoming_voice_call : bool;
  c_tx : nat;                          (** the task whose queue [tx] feeds *)
}.

Section cm.
Context {tj : TransferJobs}.
(** The built-in option [file-transfer-max-files]; it is read once. *)
Context (max_option : string).

(** What a spawned copy was asked to do. *)
Record copy : Type := mkCopy { cp_src : string; cp_dst : string; cp_is_move : bool; cp_id : Z }.

(** A task; the last fields are the locals of [run]. *)
Record runner : Type := mkRunner {
  r_close : bool;
  running : bool;
  conn_id : Z;
  file_transfer_enabled : bool;
  file_transfer_enabled_peer : bool;
  read_jobs : list job;
  queue : list to_server;
  is_authorized : bool;
  write_jobs : list job;
  fast_timer : bool;
  rx_log : list log_line;
}.

Record cm : Type := mkCm {
  clients : gmap Z Client;
  CLICK_TIME : Z;
  sched : Sched.store;
  runners : gmap nat runner;
  next : nat;                          (** the next task's number *)
  copies : list (nat * copy);          (** copies under way, with the queue each reports to *)
  did : list event;
}.

Definition set_clients m w := mkCm m (CLICK_TIME w) (sched w) (runners w) (next w) (copies w) (did w).
Definition set_click t w := mkCm (clients w) t (sched w) (runners w) (next w) (copies w) (did w).
Definition set_sched s w := mkCm (clients w) (CLICK_TIME w) s (runners w) (next w) (copies w) (did w).
Definition set_runners m w := mkCm (clients w) (CLICK_TIME w) (sched w) m (next w) (copies w) (did w).
Definition set_copies l w := mkCm (clients w) (CLICK_TIME w) (sched w) (runners w) (next w) l (did w).
Definition emit e w := mkCm (clients w) (CLICK_TIME w) (sched w) (runners w) (next w) (copies w) (did w ++ [e]).

Definition put_runner n r w := set_runners (<[n := r]> (runners w)) w.
Definition with_read_jobs v r := mkRunner (r_close r) (running r) (conn_id r) (file_transfer_enabled r) (file_transfer_enabled_peer r)
  v (queue r) (is_authorized r) (write_jobs r) (fast_timer r) (rx_log r).
Definition with_write_jobs v r := mkRunner (r_close r) (running r) (conn_id r) (file_transfer_enabled r) (file_transfer_enabled_peer r)
  (read_jobs r) (queue r) (is_authorized r) v (fast_timer r) (rx_log r).
Definition with_queue v r := mkRunner (r_close r) (running r) (conn_id r) (file_transfer_enabled r) (file_transfer_enabled_peer r)
  (read_jobs r) v (is_authorized r) (write_jobs r) (fast_timer r) (rx_log r).
Definition with_timer v r := mkRunner (r_close r) (running r) (conn_id r) (file_transfer_enabled r) (file_transfer_enabled_peer r)
  (read_jobs r) (queue r) (is_authorized r) (write_jobs r) v (rx_log r).
Definition with_files v r := mkRunner (r_close r) (running r) (conn_id r) v (file_transfer_enabled_peer r)
  (read_jobs r) (queue r) (is_authorized r) (write_jobs r) (fast_timer r) (rx_log r).
Definition with_peer_files v r := mkRunner (r_close r) (running r) (conn_id r) (file_transfer_enabled r) v
  (read_jobs r) (queue r) (is_authorized r) (write_jobs r) (fast_timer r) (rx_log r).
Definition with_close v r := mkRunner v (running r) (conn_id r) (file_transfer_enabled r) (file_transfer_enabled_peer r)
  (read_jobs r) (queue r) (is_authorized r) (write_jobs r) (fast_timer r) (rx_log r).
Definition with_running v r := mkRunner (r_close r) v (conn_id r) (file_transfer_enabled r) (file_transfer_enabled_peer r)
  (read_jobs r) (queue r) (is_authorized r) (write_jobs r) (fast_timer r) (rx_log r).
Definition with_conn v r := mkRunner (r_close r) (running r) v (file_transfer_enabled r) (file_transfer_enabled_peer r)
  (read_jobs r) (queue r) (is_authorized r) (write_jobs r) (fast_timer r) (rx_log r).
Definition with_log v r := mkRunner (r_close r) (running r) (conn_id r) (file_transfer_enabled r) (file_transfer_enabled_peer r)
  (read_jobs r) (queue r) (is_authorized r) (write_jobs r) (fast_timer r) v.

Definition enqueue (d : to_server) (r : runner) : runner := with_queue (queue r ++ [d]) r.
(** [tx.send] fails, and is only logged, when the task is gone. *)
Definition send_to (n : nat) (d : to_server) (w : cm) : cm :=
  set_runners (alter (enqueue d) n (runners w)) w.

(** ** The registry *)
Definition add_connection (l : login) (authorized : bool) (tx : nat) (w : cm) : cm :=
  let client := mkClient l authorized false false false tx in
  let m := filter (λ c : Z * Client, (disconnected c.2 && String.eqb (l_peer_id (info c.2)) (l_peer_id l)) = false)
             (clients w) in
  emit (UiAdd (l_id l)) (set_clients (<[l_id l := client]> m) w).

Definition authorized_of (id : Z) (w : cm) : bool :=
  match clients w !! id with Some c => c_authorized c | None => false end.

Definition set_disconnected (c : Client) : Client :=
  mkClient (info c) (c_authorized c) true (in_voice_call c) (incoming_voice_call c) (c_tx c).
Definition remove_connection (id : Z) (close : bool) (w : cm) : cm :=
  let w := if close then set_clients (delete id (clients w)) w
           else set_clients (alter set_disconnected id (clients w)) w in
  emit (UiRemove id close) (emit (EmptyClipboardFiles id) w).

Definition set_voice (in_call incoming : bool) (id : Z) (w : cm) : cm :=
  match clients w !! id with
  | Some c =>
      let c := mkClient (info c) (c_authorized c) (disconnected c) in_call incoming (c_tx c) in
      emit (UiVoice id in_call incoming) (set_clients (<[id := c]> (clients w)) w)
  | None => w
  end.
Definition voice_call_started := set_voice true false.
Definition voice_call_incoming := set_voice false true.
Definition voice_call_closed := set_voice false false.

(** ** What the window calls *)

(** Most calls only queue something for the connection's task. *)
Definition tell (id : Z) (d : to_server) (w : cm) : cm :=
  match clients w !! id with Some c => send_to (c_tx c) d w | None => w end.
Definition check_click_time id := tell id ClickTime.
Definition close id := tell id Close.
Definition send_chat id text := tell id (ChatMessage text).
Definition switch_permission id name enabled := tell id (SwitchPermission name enabled).
Definition switch_back id := tell id SwitchSidesBack.
Definition elevate_portable id := tell id RequestStart.
Definition handle_incoming_voice_call id accept := tell id (VoiceCallResponse accept).
Definition close_voice_call id := tell id CloseVoiceCall.

Definition authorize (id : Z) (w : cm) : cm :=
  match clients w !! id with
  | Some c =>
      let c := mkClient (info c) true (disconnected c) (in_voice_call c) (incoming_voice_call c) (c_tx c) in
      send_to (c_tx c) Authorize (set_clients (<[id := c]> (clients w)) w)
  | None => w
  end.

Definition remove (id : Z) (w : cm) : cm := set_clients (delete id (clients w)) w.

(** The answer to the card of a proposed window; [now] and [now'] are the clock
    of [grant] and of [status], [d] what the file system does to them. *)
Definition cr_sched_answer (d : Sched.disk) (now now' : Z) (id : Z) (accepted : bool) (start end_ hq_now : Z) (label : string)
    (w : cm) : cm :=
  let w := if accepted then set_sched (Sched.grant d now start end_ hq_now label (sched w)) w else w in
  let '(o, s) := Sched.status d now' (sched w) in
  let w := set_sched s w in
  let open_until := match o with Some win => Sched.end_ win | None => 0 end in
  let '(pending, w) :=
    match clients w !! id with
    | Some c => (negb (c_authorized c), send_to (c_tx c) (CrSchedResp accepted open_until) w)
    | None => (false, w)
    end in
  if pending then if accepted then authorize id w else close id w else w.

(** [cm_inner_send] of the state of the privacy mode. *)
Definition cm_inner_send (id : Z) (d : to_server) (w : cm) : cm :=
  if negb (id =? 0) then tell id d w
  else foldl (λ w c, send_to (c_tx c.2) d w) w (map_to_list (clients w)).

Definition DEFAULT_MAX_VALIDATED_FILES : Z := 10000.
Definition get_max_validated_files : Z :=
  match parse_u64 (trim max_option) with
  | Some c => if c =? 0 then DEFAULT_MAX_VALIDATED_FILES else c
  | None => Int.u64_max
  end.

Definition check_file_count_limit (n : nat) : result unit string :=
  let max_files := get_max_validated_files in
  if Z.of_nat n >? max_files then
    Err ("file transfer rejected: too many files (" +:+ to_string (Z.of_nat n) +:+ " files exceeds limit of "
         +:+ to_string max_files +:+ "). Adjust 'file-transfer-max-files' option to increase limit.")
  else Ok tt.

(** ** Files: [handle_fs] and what it calls *)
Definition send_raw (m : raw) : runner -> runner := enqueue (RawMessage m).
Definition log_job (id : Z) (done cancel : bool) (err : string) (r : runner) : runner :=
  with_log (rx_log r ++ [LJob id done cancel err]) r.

Definition handle_result (res : result unit string) (id file_num : Z) : runner -> runner :=
  match res with
  | Err err => send_raw (RError id err file_num)
  | Ok _ => send_raw (RDone id file_num)
  end.

Definition read_empty_dirs (s : fsys) (dir : string) (include_hidden : bool) (r : runner) : runner :=
  match get_empty_dirs_recursive s dir include_hidden with
  | Some fds => send_raw (REmptyDirs fds) r
  | None => r
  end.
Definition read_dir (s : fsys) (dir : string) (include_hidden : bool) (r : runner) : runner :=
  let path := if String.eqb dir EmptyString then get_home else get_path dir in
  match read_dir_entries s path include_hidden with
  | Some fd => send_raw (RDir fd) r
  | None => r
  end.
Definition remove_file (s : fsys) (path : string) (id file_num : Z) : runner -> runner :=
  handle_result (fs_remove_file s path) id file_num.
Definition create_dir (s : fsys) (path : string) (id : Z) : runner -> runner :=
  handle_result (fs_create_dir s path) id 0.
Definition rename_file (s : fsys) (path new_name : string) (id : Z) : runner -> runner :=
  handle_result (fs_rename_file s path new_name) id 0.
Definition copy_path (s : fsys) (c : copy) : runner -> runner :=
  handle_result (fs_copy_path s (cp_src c) (cp_dst c) (cp_is_move c)) (cp_id c) 0.
Definition remove_dir (s : fsys) (path : string) (id : Z) (recursive : bool) : runner -> runner :=
  let path := get_path path in
  handle_result (if recursive then fs_remove_all_empty_dir s path else fs_remove_dir s path) id 0.

Definition read_all_files (s : fsys) (path : string) (include_hidden : bool) (id conn : Z) : runner -> runner :=
  let res :=
    match get_recursive_files s path include_hidden with
    | Ok files =>
        match check_file_count_limit (length files) with
        | Err msg => Err msg
        | Ok _ => match write_to_bytes id path files with
                  | Ok bytes => Ok bytes
                  | Err e => Err ("serialize failed: " +:+ e)
                  end
        end
    | Err e => Err e
    end in
  enqueue (AllFilesResult id conn path res).

Definition start_read_job (s : fsys) (path : string) (fnum : Z) (include_hidden : bool) (id conn : Z)
    (overwrite_detection : bool) (r : runner) : runner :=
  let reply res := enqueue (ReadJobInitResult id fnum include_hidden conn res) in
  match new_read s path id fnum include_hidden overwrite_detection with
  | Ok j =>
      match check_file_count_limit (length (files j)) with
      | Err msg => reply (Err msg) r
      | Ok _ =>
          match write_to_bytes id path (files j) with
          | Err e => reply (Err ("serialize failed: " +:+ e)) r
          | Ok dir_bytes =>
              let r := reply (Ok dir_bytes) r in
              with_read_jobs (read_jobs r ++ [set_conn_id conn j]) r
          end
      end
  | Err e => reply (Err ("validation failed: " +:+ e)) r
  end.

(** A job changed in place. *)
Definition update_job (i : nat) (j : job) (r : runner) : runner := with_write_jobs (<[i := j]> (write_jobs r)) r.
Definition find_job (id : Z) (l : list job) : option (nat * job) :=
  match get_job id l with
  | Some i => match l !! i with Some j => Some (i, j) | None => None end
  | None => None
  end.

Definition check_digest (s : fsys) (id fnum size modified : Z) (is_upload is_resume : bool) (r : runner) : runner :=
  match find_job id (write_jobs r) with
  | Some (i, j) =>
      match is_write_need_confirmation s is_resume fnum size modified j with
      | Some (Ok res) =>
          let r := update_job i (set_digest size modified j) r in
          match res with
          | IsSame => send_raw (RSendConfirm id fnum (Some (Skip true))) r
          | NeedConfirm => send_raw (RDigest id fnum is_upload) r
          | NoSuchFile => send_raw (RSendConfirm id fnum (Some (OffsetBlk 0))) r
          end
      | Some (Err err) => send_raw (RError id err fnum) r
      | None => r
      end
  | None => r
  end.

(** What [handle_fs] does besides: a copy to spawn, and what it asks of a removed job. *)
Inductive fs_effect : Type := SpawnCopy (c : copy) | RemoveDownloadFile (j : job) | ModifyTime (j : job).


Definition handle_fs (s : fsys) (f : FS) (r : runner) : runner * list fs_effect :=
  match f with
  | ReadEmptyDirs dir include_hidden => (read_empty_dirs s dir include_hidden r, [])
  | ReadDir dir include_hidden => (read_dir s dir include_hidden r, [])
  | RemoveDir path id recursive => (remove_dir s path id recursive r, [])
  | RemoveFile path id fnum => (remove_file s path id fnum r, [])
  | CreateDir path id => (create_dir s path id r, [])
  | NewWrite path id fnum entries overwrite total conn =>
      match set_files entries (new_write id path fnum overwrite) with
      | Err e => (send_raw (RError id e fnum) r, [])
      | Ok j => (with_write_jobs (write_jobs r ++ [set_conn_id conn (set_total_size total j)]) r, [])
      end
  | CancelWrite id =>
      match remove_job id (write_jobs r) with
      | (Some j, rest) => 
          (log_job (job_id j) false true EmptyString (with_write_jobs rest r), [RemoveDownloadFile j])
      | (None, _) => (r, [])
      end
  | WriteDone id fnum =>
      match remove_job id (write_jobs r) with
      | (Some j, rest) =>
          (log_job (job_id j) true false EmptyString (send_raw (RDone id fnum) (with_write_jobs rest r)), [ModifyTime j])
      | (None, _) => (r, [])
      end
  | WriteError id fnum err =>
      match remove_job id (write_jobs r) with
      | (Some j, rest) =>
          (send_raw (RError (job_id j) err fnum) (log_job (job_id j) false false err (with_write_jobs rest r)), [])
      | (None, _) => (r, [])
      end
  | WriteBlock id fnum data compressed =>
      match find_job id (write_jobs r) with
      | Some (i, j) =>
          let '(res, j) := write s (mkBlock id fnum data compressed) j in
          let r := update_job i j r in
          match res with
          | Err err => (send_raw (RError id err fnum) r, [])
          | Ok _ => (r, [])
          end
      | None => (r, [])
      end
  | CheckDigest id fnum size modified is_upload is_resume =>
      (check_digest s id fnum size modified is_upload is_resume r, [])
  | SendConfirm None => (r, [])
  | SendConfirm (Some (id, fnum, u)) =>
      match find_job id (write_jobs r) with
      | Some (i, j) => (update_job i (confirm fnum u j) r, [])
      | None => (r, [])
      end
  | Rename id path new_name => (rename_file s path new_name id r, [])
  | Copy id src dst is_move => (r, [SpawnCopy (mkCopy src dst is_move id)])
  | ReadFile path id fnum include_hidden conn overwrite =>
      (start_read_job s path fnum include_hidden id conn overwrite r, [])
  | CancelRead id =>
      match remove_job id (read_jobs r) with
      | (Some j, rest) => (log_job (job_id j) false true EmptyString (with_read_jobs rest r), [])
      | (None, _) => (r, [])
      end
  | SendConfirmForRead id skip offset_blk =>
      match find_job id (read_jobs r) with
      | Some (i, j) =>
          let u := if skip then Skip true else OffsetBlk offset_blk in
          (with_read_jobs (<[i := confirm (file_num j) (Some u) j]> (read_jobs r)) r, [])
      | None => (r, [])
      end
  | ReadAllFiles path id include_hidden conn => (read_all_files s path include_hidden id conn r, [])
  end.

(** ** One round over the read jobs *)
Definition init_read_job_for_cm (s : fsys) (conn : Z) (j : job) (r : runner) : result unit string * job * runner :=
  match init_data_stream_for_cm s j with
  | (Err e, j) => (Err e, j, r)
  | (Ok (Some (modified, size)), j) =>
      (Ok tt, j, enqueue (FileDigestFromCM (job_id j) (file_num j) modified size (is_resume j) conn) r)
  | (Ok None, j) => (Ok tt, j, r)
  end.

(** The [for] loop: the jobs as they are left, the numbers of the finished
    ones and the task with what was queued. *)
Fixpoint read_jobs_loop (s : fsys) (conn : Z) (l : list job) (r : runner) : list job * list Z * runner :=
  match l with
  | [] => ([], [], r)
  | j :: l =>
      if is_last_job j then let '(l, fin, r) := read_jobs_loop s conn l r in (j :: l, fin, r) else
      let '(res, j, r) := init_read_job_for_cm s conn j r in
      match res with
      | Err err =>
          let r := enqueue (FileReadError (job_id j) (file_num j) err conn) r in
          let id := job_id j in
          let '(l, fin, r) := read_jobs_loop s conn l r in (j :: l, id :: fin, r)
      | Ok _ =>
          match read s j with
          | (Err err, j) => (j :: l, [job_id j], enqueue (FileReadError (job_id j) (file_num j) err conn) r)
          | (Ok (Some b), j) =>
              (j :: l, [], enqueue (FileBlockFromCM (b_id b) (b_file_num b) (b_data b) (b_compressed b) conn) r)
          | (Ok None, j) =>
              if job_completed j then
                (j :: l, [job_id j],
                 enqueue (match job_error j with
                          | Some err => FileReadError (job_id j) (file_num j) err conn
                          | None => FileReadDone (job_id j) (file_num j) conn
                          end) r)
              else (j :: l, [], r)
          end
      end
  end.

Definition handle_read_jobs_tick (s : fsys) (r : runner) : runner :=
  let '(l, finished, r) := read_jobs_loop s (conn_id r) (read_jobs r) r in
  with_read_jobs (foldl (λ l id, (remove_job id l).2) l finished) r.

(** ** A connection's task *)
Definition fresh_runner : runner := mkRunner true true 0 false false [] [] false [] false [].

(** The beginning of [run]; [clip_on] is [ContextSend::is_enabled]. *)
Definition run_start (clip_on : bool) (n : nat) (w : cm) : cm :=
  match runners w !! n with
  | Some r =>
      let auth := authorized_of (conn_id r) w in
      let w := if clip_on then emit (Sent n MonitorReady) w else w in
      put_runner n (mkRunner (r_close r) false (conn_id r) (file_transfer_enabled r) (file_transfer_enabled_peer r)
        (read_jobs r) (queue r) auth [] false []) w
  | None => w
  end.

(** After [run] returned: the [while] of [ipc_task] and its end. *)
Definition run_over (clip_on : bool) (n : nat) (w : cm) : cm :=
  match runners w !! n with
  | Some r =>
      if running r then run_start clip_on n w else
      let w := set_runners (delete n (runners w)) w in
      if conn_id r >? 0 then remove_connection (conn_id r) (r_close r) w else w
  | None => w
  end.

(** [start_ipc] spawns a task for each stream. *)
Definition ipc_task (clip_on : bool) (w : cm) : cm :=
  let n := next w in
  let w := mkCm (clients w) (CLICK_TIME w) (sched w) (runners w) (S n) (copies w) (did w) in
  run_start clip_on n (put_runner n fresh_runner w).

Definition on_runner (n : nat) (f : runner -> runner) (w : cm) : cm := set_runners (alter f n (runners w)) w.

Definition fs_effects (n : nat) (l : list fs_effect) (w : cm) : cm :=
  foldl (λ w e, match e with SpawnCopy c => set_copies (copies w ++ [(n, c)]) w | _ => w end) w l.

(** The arm of [stream.next()] that got data.  [raw_ok]: the block's bytes
    could be read; [clipboard]: what [check_clipboard_cm] answers. *)
Definition on_data (s : fsys) (clip_on raw_ok clipboard : bool) (n : nat) (r : runner) (d : from_server) (w : cm)
    : cm :=
  let id := conn_id r in
  match d with
  | SLogin l authorized fte =>
      let w := add_connection l authorized n w in
      let w := on_runner n (λ r, with_running true (with_files fte (with_conn (l_id l) r))) w in
      run_over clip_on n w
  | SClose => run_over clip_on n w
  | SDisconnected => run_over clip_on n (on_runner n (with_close false) w)
  | SPrivacyModeState i => cm_inner_send i (PrivacyModeState i) w
  | SClickTime ms => set_click ms w
  | SChat text => emit (UiMessage id text) w
  | SChatPanel open => emit (UiChatPanel id open) w
  | SSchedReq st en hq_now label extend => emit (UiSchedReq id st en hq_now label extend) w
  | SFs f =>
      let '(r', effects) :=
        match f with
        | WriteBlock _ _ _ _ => if raw_ok then handle_fs s f r else (r, [])
        | _ => handle_fs s f r
        end in
      let r' := match read_jobs r' with [] => r' | _ => with_timer true r' end in
      emit (UiLog "transfer" (LJobs (map job_id (write_jobs r')))) (fs_effects n effects (put_runner n r' w))
  | SFileTransferLog action log => emit (UiLog action (LText log)) w
  | SClipboardFile beginning =>
      if negb beginning && negb (clip_on && file_transfer_enabled r) then emit StopClip w
      else if negb (is_authorized r) then w
      else emit (ServerClip n id) w
  | SClipboardFileEnabled enabled => on_runner n (with_peer_files enabled) w
  | STheme => emit UiTheme w
  | SLanguage lang => emit UiLanguage (emit (SetLang lang) w)
  | SShowElevation show => emit (UiElevation show) w
  | SStartVoiceCall => voice_call_started id w
  | SVoiceCallIncoming => voice_call_incoming id w
  | SCloseVoiceCall => voice_call_closed id w
  | SClipboardNonFile => emit (Sent n (ClipboardNonFile clipboard)) w
  | SOther => w
  end.

(** The arm of [rx.recv()]; [sent]: the stream took everything. *)
Definition on_queued (clip_on sent : bool) (n : nat) (r : runner) (w : cm) : cm :=
  match queue r with
  | [] => w
  | d :: q =>
      let w := put_runner n (with_queue q r) w in
      if negb sent then run_over clip_on n w else
      let w := emit (Sent n d) w in
      match d with
      | SwitchPermission name enabled =>
          if String.eqb name "file" then on_runner n (with_files enabled) w else w
      | Authorize => run_over clip_on n (on_runner n (with_running true) w)
      | _ => w
      end
  end.

(** The arm of the clipboard's channel, which exists only for an authorised
    connection. *)
Definition on_clip (clip_on one_way stopping_allowed beginning : bool) (n : nat) (r : runner) (w : cm) : cm :=
  if negb ((conn_id r >? 0) && is_authorized r) then w else
  if stopping_allowed && negb (clip_on && file_transfer_enabled r && file_transfer_enabled_peer r) then emit StopClip w
  else if beginning && one_way then w
  else on_runner n (enqueue ClipboardFile) w.

Definition on_log (n : nat) (r : runner) (w : cm) : cm :=
  match rx_log r with
  | [] => w
  | l :: rest => emit (UiLog "transfer" l) (put_runner n (with_log rest r) w)
  end.

Definition on_tick (s : fsys) (n : nat) (r : runner) (w : cm) : cm :=
  match read_jobs r with
  | [] => put_runner n (with_timer false r) w
  | _ =>
      let r := handle_read_jobs_tick s r in
      emit (UiLog "transfer" (LJobs (map job_id (read_jobs r)))) (put_runner n r w)
  end.

(** ** Runs *)
Inductive ui_call : Type :=
  | UCheckClickTime (id : Z) | UClose (id : Z) | UChat (id : Z) (text : string)
  | USwitchPermission (id : Z) (name : string) (enabled : bool)
  | USwitchBack (id : Z) | UElevate (id : Z) | UVoice (id : Z) (accept : bool) | UCloseVoice (id : Z)
  | UAuthorize (id : Z) | URemove (id : Z)
  | UCard (d : Sched.disk) (now now' id : Z) (accepted : bool) (start end_ hq_now : Z) (label : string).

Definition ui (c : ui_call) : cm -> cm :=
  match c with
  | UCheckClickTime id => check_click_time id
  | UClose id => close id
  | UChat id text => send_chat id text
  | USwitchPermission id name enabled => switch_permission id name enabled
  | USwitchBack id => switch_back id
  | UElevate id => elevate_portable id
  | UVoice id accept => handle_incoming_voice_call id accept
  | UCloseVoice id => close_voice_call id
  | UAuthorize id => authorize id
  | URemove id => remove id
  | UCard d now now' id accepted st en hq_now label => cr_sched_answer d now now' id accepted st en hq_now label
  end.

Inductive action : Type :=
  | Connect (clip_on : bool)
  | Stream (n : nat) (d : option from_server) (s : fsys) (clip_on raw_ok clipboard : bool)
  | Queue (n : nat) (sent clip_on : bool)
  | Clip (n : nat) (clip_on one_way stopping_allowed beginning : bool)
  | Log (n : nat)
  | Tick (n : nat) (s : fsys)
  | CopyDone (k : nat) (s : fsys)
  | Ui (c : ui_call)
  | Quit.

(** [quit_cm] *)
Definition quit_cm (w : cm) : cm := set_clients ∅ w.

Definition at_runner (n : nat) (f : runner -> cm -> cm) (w : cm) : cm :=
  match runners w !! n with Some r => f r w | None => w end.

Definition step (a : action) (w : cm) : cm :=
  match a with
  | Connect clip_on => ipc_task clip_on w
  | Stream n None s clip_on _ _ => at_runner n (λ r, run_over clip_on n) w
  | Stream n (Some d) s clip_on raw_ok clipboard => at_runner n (λ r, on_data s clip_on raw_ok clipboard n r d) w
  | Queue n sent clip_on => at_runner n (on_queued clip_on sent n) w
  | Clip n clip_on one_way stopping beginning => at_runner n (on_clip clip_on one_way stopping beginning n) w
  | Log n => at_runner n (on_log n) w
  | Tick n s => at_runner n (on_tick s n) w
  | CopyDone k s =>
      match copies w !! k with
      | Some (n, c) => on_runner n (copy_path s c) (set_copies (delete k (copies w)) w)
      | None => w
      end
  | Ui c => ui c w
  | Quit => quit_cm w
  end.
Definition run (l : list action) (w : cm) : cm := foldl (λ w a, step a w) w l.
Definition init (s : Sched.store) : cm := mkCm ∅ 0 s ∅ 0 [] [].

(** ** What the properties speak of *)

(** What lets a connection in: a login the server already authorised, the
    accept button, an accepted card. *)
Definition admits (id : Z) (a : action) : bool :=
  match a with
  | Stream _ (Some (SLogin l authorized _)) _ _ _ _ => authorized && (l_id l =? id)
  | Ui (UAuthorize i) => i =? id
  | Ui (UCard _ _ _ i accepted _ _ _ _) => accepted && (i =? id)
  | _ => false
  end.
Definition admitted (l : list action) (id : Z) : Prop := existsb (admits id) l = true.

(** The action is the acceptance of a card; [granted] is what it stores. *)
Definition granted (a : action) : option Sched.SchedWindow :=
  match a with
  | Ui (UCard _ now _ _ true st en hq_now label) => Some (Sched.granted_window now st en hq_now label)
  | _ => None
  end.

(** The server logs a stream in once, with a positive number. *)
Definition one_login (a : action) (w : cm) : bool :=
  match a with
  | Stream n (Some (SLogin l _ _)) _ _ _ _ =>
      match runners w !! n with
      | Some r => (l_id l >? 0) && ((conn_id r =? 0) || (conn_id r =? l_id l))
      | None => true
      end
  | _ => true
  end.
(** A [ReadFile] names no job that is still being read. *)
Definition new_read_number (a : action) (w : cm) : bool :=
  match a with
  | Stream n (Some (SFs (ReadFile _ id _ _ _ _))) _ _ _ _ =>
      match runners w !! n with
      | Some r => forallb (λ j, negb (job_id j =? id)) (read_jobs r)
      | None => true
      end
  | _ => true
  end.
Fixpoint all_along (ok : action -> cm -> bool) (l : list action) (w : cm) : bool :=
  match l with
  | [] => true
  | a :: l => ok a w && all_along ok l (step a w)
  end.

(** What the messages say of a read job. *)
Inductive read_event : Type := KOpened | KRefused | KData | KEnded.
Definition about (d : to_server) : option (Z * read_event) :=
  match d with
  | ReadJobInitResult id _ _ _ (Ok _) => Some (id, KOpened)
  | ReadJobInitResult id _ _ _ (Err _) => Some (id, KRefused)
  | FileBlockFromCM id _ _ _ _ | FileDigestFromCM id _ _ _ _ _ => Some (id, KData)
  | FileReadDone id _ _ | FileReadError id _ _ _ => Some (id, KEnded)
  | _ => None
  end.
(** The receiver's view: the open jobs; [None] when a message is about a job
    that is not open. *)
Definition follow1 (a : gset Z) (m : Z * read_event) : option (gset Z) :=
  match m.2 with
  | KOpened => Some ({[m.1]} ∪ a)
  | KRefused => Some (a ∖ {[m.1]})
  | KData => if decide (m.1 ∈ a) then Some a else None
  | KEnded => if decide (m.1 ∈ a) then Some (a ∖ {[m.1]}) else None
  end.
Fixpoint follow (a : gset Z) (l : list (Z * read_event)) : option (gset Z) :=
  match l with
  | [] => Some a
  | m :: l => match follow1 a m with Some a => follow a l | None => None end
  end.
Definition sent_by (n : nat) (l : list event) : list to_server :=
  omap (λ e, match e with Sent m d => if decide (m = n) then Some d else None | _ => None end) l.

(** ** Frames: what most of the code leaves alone *)
Record frame (w w' : cm) : Prop := {
  fr_clients : forall id c', clients w' !! id = Some c' -> exists c, clients w !! id = Some c
    /\ c_tx c' = c_tx c
    /\ (c_authorized c' = true -> c_authorized c = true)
    /\ (disconnected c' = false -> disconnected c = false);
  fr_runners : forall n, (λ r, (conn_id r, is_authorized r, running r)) <$> (runners w' !! n)
                       = (λ r, (conn_id r, is_authorized r, running r)) <$> (runners w !! n);
  fr_clip : forall n id, In (ServerClip n id) (did w') -> In (ServerClip n id) (did w);
  fr_next : next w' = next w;
}.

#[export] Instance frame_preorder : PreOrder frame.
Proof.
  split.
  - intros w. split; try done. intros id c H. by exists c.
  - intros a b c [A1 A2 A3 A4] [B1 B2 B3 B4]. split.
    + intros id x H. destruct (B1 _ _ H) as (y & Hy & ? & ? & ?).
      destruct (A1 _ _ Hy) as (z & Hz & ? & ? & ?). exists z. split_and!; [done | congruence | auto | auto].
    + intros n. by rewrite B2, A2.
    + auto.
    + congruence.
Qed.

Definition no_clip (e : event) : bool := match e with ServerClip _ _ => false | _ => true end.
Lemma frame_emit e w : no_clip e = true -> frame w (emit e w).
Proof.
  intros He. split; try done.
  - intros id c H. by exists c.
  - intros n id. simpl. rewrite in_app_iff. simpl. intros [H|[->|[]]]; [done | discriminate].
Qed.

(** What a task does with files leaves alone who it is and what it may. *)
Definition keeps (r r' : runner) : Prop :=
  conn_id r' = conn_id r /\ is_authorized r' = is_authorized r /\ running r' = running r.

Lemma frame_on_runner n f w : (forall r, keeps r (f r)) -> frame w (on_runner n f w).
Proof.
  intros Hf. split; try done.
  - intros id c H. by exists c.
  - intros m. simpl. destruct (decide (m = n)) as [->|Hm].
    + rewrite lookup_alter_eq. destruct (runners w !! n) as [r|]; simpl; [|done].
      by destruct (Hf r) as (-> & -> & ->).
    + by rewrite lookup_alter_ne.
Qed.

Lemma frame_put_runner n r r' w : runners w !! n = Some r -> keeps r r' -> frame w (put_runner n r' w).
Proof.
  intros Hn (Hc & Ha & Hu). split; try done.
  - intros id c H. by exists c.
  - intros m. simpl. destruct (decide (m = n)) as [->|Hm].
    + rewrite lookup_insert_eq, Hn. simpl. by rewrite Hc, Ha, Hu.
    + by rewrite lookup_insert_ne.
Qed.

Lemma frame_set_clients m w :
  (forall id c', m !! id = Some c' -> exists c, clients w !! id = Some c /\ c_tx c' = c_tx c
    /\ (c_authorized c' = true -> c_authorized c = true)
    /\ (disconnected c' = false -> disconnected c = false)) ->
  frame w (set_clients m w).
Proof. by split. Qed.

Lemma frame_send_to n d w : frame w (send_to n d w).
Proof. by apply (frame_on_runner n (enqueue d)). Qed.
Lemma frame_tell id d w : frame w (tell id d w).
Proof. unfold tell. case_match; [apply frame_send_to | done]. Qed.
Lemma frame_inner_send id d w : frame w (cm_inner_send id d w).
Proof.
  unfold cm_inner_send. case_match; [apply frame_tell|].
  generalize (map_to_list (clients w)). intros l. revert w.
  induction l as [|c l IH]; intros w; simpl; [done|].
  etrans; [apply (frame_send_to (c_tx c.2) d)|]. apply IH.
Qed.
Lemma frame_voice a b id w : frame w (set_voice a b id w).
Proof.
  unfold set_voice. destruct (clients w !! id) as [c|] eqn:Hc; [|done].
  etrans; [|by apply frame_emit]. apply frame_set_clients. intros i c'.
  destruct (decide (i = id)) as [->|Hi].
  - rewrite lookup_insert_eq. intros [= <-]. by exists c.
  - rewrite lookup_insert_ne by done. intros. by exists c'.
Qed.
Lemma frame_remove_connection id close w : frame w (remove_connection id close w).
Proof.
  unfold remove_connection.
  etrans; [|by apply frame_emit]. etrans; [|by apply frame_emit].
  destruct close; apply frame_set_clients; intros i c'.
  - rewrite lookup_delete_Some. intros [_ H]. by exists c'.
  - destruct (decide (i = id)) as [->|Hi].
    + rewrite lookup_alter_eq. destruct (clients w !! id) as [c|]; simpl; [|done].
      intros [= <-]. exists c. by split_and!.
    + rewrite lookup_alter_ne by done. intros. by exists c'.
Qed.
Lemma frame_fs_effects n l w : frame w (fs_effects n l w).
Proof.
  revert w. induction l as [|e l IH]; intros w; simpl; [done|].
  etrans; [|apply IH]. destruct e; try done. split; try done. intros id c' H. by exists c'.
Qed.

(** ** Admission and the registry: the invariant *)
Record ok (P : Z -> Prop) (g : bool) (w : cm) : Prop := {
  ok_authorized : forall id c, clients w !! id = Some c -> c_authorized c = true -> P id;
  ok_runner : forall n r, runners w !! n = Some r -> is_authorized r = true -> P (conn_id r);
  ok_clip : forall n id, In (ServerClip n id) (did w) -> P id;
  ok_idle : forall n r, runners w !! n = Some r -> running r = false;
  ok_next : forall n r, runners w !! n = Some r -> (n < next w)%nat;
  ok_live : g = true -> forall id c, clients w !! id = Some c -> disconnected c = false ->
    0 < id /\ exists r, runners w !! c_tx c = Some r /\ conn_id r = id;
}.

Lemma ok_weaken (P P' : Z -> Prop) g g' w :
  (forall id, P id -> P' id) -> (g' = true -> g = true) -> ok P g w -> ok P' g' w.
Proof. intros HP Hg [A B C I D E]. split; eauto. Qed.

Lemma frame_runner w w' n r' : frame w w' -> runners w' !! n = Some r' ->
  exists r, runners w !! n = Some r /\ conn_id r = conn_id r' /\ is_authorized r = is_authorized r' /\ running r = running r'.
Proof.
  intros [_ H _ _] Hr. specialize (H n). rewrite Hr in H. simpl in H.
  destruct (runners w !! n) as [r|]; simpl in H; [|done]. injection H as Hc Ha Hu. by exists r.
Qed.
Lemma frame_runner' w w' n r : frame w w' -> runners w !! n = Some r ->
  exists r', runners w' !! n = Some r' /\ conn_id r' = conn_id r /\ is_authorized r' = is_authorized r /\ running r' = running r.
Proof.
  intros [_ H _ _] Hr. specialize (H n). rewrite Hr in H. simpl in H.
  destruct (runners w' !! n) as [r'|]; simpl in H; [|done]. injection H as Hc Ha Hu. by exists r'.
Qed.

Lemma ok_frame P g w w' : frame w w' -> ok P g w -> ok P g w'.
Proof.
  intros F [A B C I D E]. split.
  - intros id c' H Ha. destruct (fr_clients _ _ F _ _ H) as (c & Hc & _ & Hau & _). eauto.
  - intros n r' H Ha. destruct (frame_runner _ _ _ _ F H) as (r & Hr & <- & Hau & _). apply (B n); congruence.
  - intros n id H. apply (C n). by apply (fr_clip _ _ F).
  - intros n r' H. destruct (frame_runner _ _ _ _ F H) as (r & Hr & _ & _ & <-). eauto.
  - intros n r' H. rewrite (fr_next _ _ F). destruct (frame_runner _ _ _ _ F H) as (r & Hr & _). eauto.
  - intros Hg id c' H Hd. destruct (fr_clients _ _ F _ _ H) as (c & Hc & -> & _ & Hdi).
    destruct (E Hg _ _ Hc (Hdi Hd)) as (Hid & r & Hr & Hi). split; [done|].
    destruct (frame_runner' _ _ _ _ F Hr) as (r' & Hr' & Hcc & _). exists r'. by rewrite Hcc.
Qed.

Lemma ok_run_start P g clip_on n w : ok P g w -> ok P g (run_start clip_on n w).
Proof.
  intros Hok. unfold run_start. destruct (runners w !! n) as [r|] eqn:Hr; [|done].
  set (w1 := if clip_on then _ else _).
  assert (F : frame w w1) by (subst w1; case_match; [by apply frame_emit | done]).
  assert (Hr1 : runners w1 !! n = Some r) by (subst w1; by destruct clip_on).
  assert (Hau : authorized_of (conn_id r) w = true -> P (conn_id r)).
  { unfold authorized_of. destruct (clients w !! conn_id r) as [c|] eqn:Hc; [|done].
    by apply (ok_authorized _ _ _ Hok). }
  clearbody w1. pose proof (ok_frame _ _ _ _ F Hok) as [A B C I D E]. split; simpl; try done.
  - intros m r'. destruct (decide (m = n)) as [->|Hm].
    + rewrite lookup_insert_eq. intros [= <-]. simpl. auto.
    + rewrite lookup_insert_ne by done. apply B.
  - intros m r'. destruct (decide (m = n)) as [->|Hm].
    + rewrite lookup_insert_eq. by intros [= <-].
    + rewrite lookup_insert_ne by done. apply I.
  - intros m r'. destruct (decide (m = n)) as [->|Hm].
    + intros _. by apply (D n r).
    + rewrite lookup_insert_ne by done. apply D.
  - intros Hg id c Hc Hd. destruct (E Hg _ _ Hc Hd) as (Hid & r' & Hr' & Hi). split; [done|].
    destruct (decide (c_tx c = n)) as [Heq|Hm].
    + rewrite Heq in *. rewrite lookup_insert_eq. eexists. split; [done|]. simpl. congruence.
    + rewrite lookup_insert_ne by done. by exists r'.
Qed.

Lemma ok_run_over P g clip_on n w : ok P g w -> ok P g (run_over clip_on n w).
Proof.
  intros Hok. unfold run_over. destruct (runners w !! n) as [r|] eqn:Hr; [|done].
  destruct (running r); [by apply ok_run_start|].
  set (w1 := set_runners _ w).
  assert (Hrest : forall w2, (forall i c, clients w2 !! i = Some c -> disconnected c = false -> i <> conn_id r) ->
            frame w1 w2 -> ok P g w2).
  { intros w2 Hnone F. destruct Hok as [A B C I D E]. split.
    - intros id c' H Ha. destruct (fr_clients _ _ F _ _ H) as (c & Hc & _ & Hau & _). eauto.
    - intros m r' H Ha. destruct (frame_runner _ _ _ _ F H) as (r1 & Hr1 & <- & Hau & _).
      simpl in Hr1. apply lookup_delete_Some in Hr1 as [_ Hr1]. apply (B m); congruence.
    - intros m id H. apply (C m). by apply (fr_clip _ _ F) in H.
    - intros m r' H. destruct (frame_runner _ _ _ _ F H) as (r1 & Hr1 & _ & _ & <-).
      simpl in Hr1. apply lookup_delete_Some in Hr1 as [_ Hr1]. by apply (I m r1).
    - intros m r' H. rewrite (fr_next _ _ F). destruct (frame_runner _ _ _ _ F H) as (r1 & Hr1 & _).
      simpl in Hr1. apply lookup_delete_Some in Hr1 as [_ Hr1]. by apply (D m r1).
    - intros Hg id c' H Hd. destruct (fr_clients _ _ F _ _ H) as (c & Hc & Htx & _ & Hdi).
      destruct (E Hg _ _ Hc (Hdi Hd)) as (Hid & r1 & Hr1 & Hi). split; [done|]. rewrite Htx.
      assert (Hne : c_tx c <> n) by (intros Heq; apply (Hnone _ _ H Hd); congruence).
      assert (Hr2 : runners w1 !! c_tx c = Some r1) by (simpl; by rewrite lookup_delete_ne).
      destruct (frame_runner' _ _ _ _ F Hr2) as (r' & Hr' & Hcc & _). exists r'. by rewrite Hcc. }
  destruct (conn_id r >? 0) eqn:Hid.
  - apply Hrest; [|apply frame_remove_connection]. intros i c Hc Hd ->. revert Hc.
    unfold remove_connection. destruct (r_close r); simpl.
    + by rewrite lookup_delete_eq.
    + rewrite lookup_alter_eq. destruct (clients w !! conn_id r); simpl; [|done]. intros [= <-]. done.
  - destruct g.
    + apply Hrest; [|done]. intros i c Hc Hd ->.
      destruct (ok_live _ _ _ Hok eq_refl _ _ Hc Hd) as [? _]. bool_prop. lia.
    + destruct Hok as [A B C I D E]. split; try done; intros m r'; simpl; rewrite lookup_delete_Some; intros [_ H]; eauto.
Qed.

(** [run_start] sets [running] and [is_authorized] itself. *)
Definition restarted (r : runner) : runner :=
  mkRunner (r_close r) false (conn_id r) (file_transfer_enabled r) (file_transfer_enabled_peer r)
    (read_jobs r) (queue r) false (write_jobs r) (fast_timer r) (rx_log r).
Lemma run_start_resets clip_on n f w : (forall r, restarted (f r) = restarted r) ->
  run_start clip_on n (on_runner n f w) = run_start clip_on n w.
Proof.
  intros Hf. unfold run_start, on_runner, put_runner. simpl. rewrite lookup_alter_eq.
  destruct (runners w !! n) as [r|] eqn:Hr; simpl.
  - assert (Hm : forall x, <[n := x]> (alter f n (runners w)) = <[n := x]> (runners w)).
    { intros x. apply map_eq. intros i. destruct (decide (i = n)) as [->|Hi].
      - by rewrite !lookup_insert_eq.
      - by rewrite !lookup_insert_ne, lookup_alter_ne. }
    specialize (Hf r). unfold restarted in Hf. injection Hf as H1 H2 H3 H4 H5 H6 H7 H8 H9. rewrite H1, H2, H3, H4, H5, H6.
    unfold set_runners. destruct clip_on; simpl; by rewrite Hm.
  - unfold set_runners. rewrite alter_id; [by destruct w|]. intros x Hx. congruence.
Qed.
Lemma run_over_running clip_on n w :
  run_over clip_on n (on_runner n (with_running true) w) = run_start clip_on n w.
Proof.
  destruct (runners w !! n) as [r|] eqn:Hr.
  - rewrite <- (run_start_resets clip_on n (with_running true)) by done.
    unfold run_over at 1. simpl. by rewrite lookup_alter_eq, Hr.
  - unfold run_over, run_start. simpl. rewrite lookup_alter_eq, Hr. simpl.
    unfold on_runner, set_runners. rewrite alter_id; [by destruct w|]. intros x Hx. congruence.
Qed.

Lemma add_connection_clients l a n w id c : clients (add_connection l a n w) !! id = Some c ->
  (id = l_id l /\ c = mkClient l a false false false n) \/ (id <> l_id l /\ clients w !! id = Some c).
Proof.
  unfold add_connection. simpl. destruct (decide (id = l_id l)) as [->|Hid].
  - rewrite lookup_insert_eq. intros [= <-]. by left.
  - rewrite lookup_insert_ne by done. rewrite map_lookup_filter_Some. intros [H _]. by right.
Qed.

Lemma ok_login P g l a fte clip_on n r w :
  runners w !! n = Some r -> (a = true -> P (l_id l)) ->
  (g = true -> 0 < l_id l /\ (conn_id r = 0 \/ conn_id r = l_id l)) ->
  ok P g w ->
  ok P g (run_over clip_on n (on_runner n (λ r, with_running true (with_files fte (with_conn (l_id l) r)))
                                (add_connection l a n w))).
Proof.
  intros Hr Ha Hg Hok. set (f := λ r, with_files fte (with_conn (l_id l) r)).
  assert (Hsplit : forall w, on_runner n (λ r, with_running true (f r)) w
                     = on_runner n (with_running true) (on_runner n f w)).
  { intros w0. unfold on_runner, set_runners. simpl. f_equal. apply map_eq. intros i.
    destruct (decide (i = n)) as [->|Hi]; [|by rewrite !lookup_alter_ne].
    rewrite !lookup_alter_eq. by destruct (runners w0 !! n). }
  change (λ r0, with_running true _) with (λ r, with_running true (f r)). rewrite Hsplit, run_over_running.
  rewrite <- (run_start_resets clip_on n restarted) by done.
  set (w1 := on_runner n f (add_connection l a n w)).
  apply ok_run_start. destruct Hok as [A B C I D E].
  assert (Hm : forall m r', runners (on_runner n restarted w1) !! m = Some r' ->
            (m = n /\ r' = restarted (f r)) \/ (m <> n /\ runners w !! m = Some r')).
  { intros m r'. simpl. destruct (decide (m = n)) as [->|Hm].
    - rewrite !lookup_alter_eq, Hr. simpl. intros [= <-]. by left.
    - rewrite !lookup_alter_ne by done. by right. }
  split.
  - intros id c Hc Hau. apply add_connection_clients in Hc as [[-> ->]|[_ Hc]]; eauto.
  - intros m r' [[-> ->]|[_ H]]%Hm; [discriminate | eauto].
  - intros m id. simpl. rewrite in_app_iff. simpl. intros [H|[H|[]]]; [eauto | discriminate].
  - intros m r' [[-> ->]|[_ H]]%Hm; [done | eauto].
  - intros m r' [[-> ->]|[_ H]]%Hm; simpl; eauto.
  - intros HG id c Hc Hd. destruct (Hg HG) as [Hpos Hold].
    assert (Hrn : runners (on_runner n restarted w1) !! n = Some (restarted (f r))).
    { simpl. by rewrite !lookup_alter_eq, Hr. }
    apply add_connection_clients in Hc as [[-> ->]|[Hne Hc]].
    + split; [done|]. simpl c_tx. by eexists.
    + destruct (E HG _ _ Hc Hd) as (Hid & r' & Hr' & Hi). split; [done|].
      destruct (decide (c_tx c = n)) as [Heq|Htx].
      * rewrite Heq in *. rewrite Hr in Hr'. injection Hr' as <-. exfalso. lia.
      * exists r'. simpl. by rewrite !lookup_alter_ne by done.
Qed.

Lemma ok_authorize P g id w : P id -> ok P g w -> ok P g (authorize id w).
Proof.
  intros HP Hok. unfold authorize. destruct (clients w !! id) as [c|] eqn:Hc; [|done].
  eapply ok_frame; [apply frame_send_to|]. destruct Hok as [A B C I D E]. split; simpl; try done.
  - intros i c'. destruct (decide (i = id)) as [->|Hi]; [done|]. rewrite lookup_insert_ne by done. apply A.
  - intros Hg i c'. destruct (decide (i = id)) as [->|Hi].
    + rewrite lookup_insert_eq. intros [= <-]. simpl. by apply E.
    + rewrite lookup_insert_ne by done. by apply E.
Qed.

Lemma frame_sched s w : frame w (set_sched s w).
Proof. split; try done. intros id c' H. by exists c'. Qed.
Lemma frame_click t w : frame w (set_click t w).
Proof. split; try done. intros id c' H. by exists c'. Qed.
Lemma frame_clear m w : m ⊆ clients w -> frame w (set_clients m w).
Proof.
  intros H. apply frame_set_clients. intros i c' Hi. exists c'.
  split_and!; [|done..]. by apply (lookup_weaken m).
Qed.

Lemma ok_card P g d now now' id a st en hq label w :
  (a = true -> P id) -> ok P g w -> ok P g (cr_sched_answer d now now' id a st en hq label w).
Proof.
  intros HP Hok. unfold cr_sched_answer.
  set (w1 := if a then _ else w). assert (F : frame w w1) by (subst w1; destruct a; [apply frame_sched | done]).
  clearbody w1. destruct (Sched.status _ now' (sched w1)) as [o s]. set (w2 := set_sched s w1).
  assert (Hok2 : ok P g w2) by (eapply ok_frame; [etrans; [exact F | apply frame_sched]|done]).
  clearbody w2. set (u := match o with Some _ => _ | None => _ end).
  destruct (clients w2 !! id) as [c|]; [|done].
  assert (Hok3 : ok P g (send_to (c_tx c) (CrSchedResp a u) w2)) by (eapply ok_frame; [apply frame_send_to|done]).
  destruct (c_authorized c); simpl; [done|]. destruct a.
  - apply ok_authorize; auto.
  - eapply ok_frame; [apply (frame_tell id Close)|done].
Qed.

Lemma handle_fs_keeps s f r : keeps r (handle_fs s f r).1.
Proof.
  unfold keeps. destruct f; simpl;
    unfold remove_dir, remove_file, create_dir, rename_file, handle_result, read_empty_dirs, read_dir,
      start_read_job, check_digest;
    repeat case_match; simplify_eq/=; done.
Qed.

Lemma follow_app a l l' : follow a (l ++ l') = match follow a l with Some a => follow a l' | None => None end.
Proof. revert a. induction l as [|m l IH]; intros a; simpl; [done|]. destruct (follow1 a m); [apply IH | done]. Qed.

(** What a job's part of the loop does to its messages. *)
Definition told (A : gset Z) (id : Z) (fin : list Z) (m : list to_server) : Prop :=
  id ∈ A -> exists A', follow A (omap about m) = Some A' /\ forall i, i ∈ A -> i ∉ fin -> i ∈ A'.

Lemma init_told s conn j r res j' r' : init_read_job_for_cm s conn j r = (res, j', r') ->
  job_id j' = job_id j /\ exists m, r' = with_queue (queue r ++ m) r
    /\ forall A, job_id j ∈ A -> follow A (omap about m) = Some A.
Proof.
  unfold init_read_job_for_cm. pose proof (init_id s j) as Hid.
  assert (Hn : r = with_queue (queue r ++ []) r) by (destruct r; unfold with_queue; simpl; by rewrite app_nil_r).
  destruct (init_data_stream_for_cm s j) as [[[[modified size]|]|e] j1]; simpl in Hid; intros [= <- <- <-];
    (split; [done|]); [eexists; split; [done|] | exists []; split; [done|done] ..].
  intros A HA. simpl. unfold follow1. simpl. rewrite Hid. by rewrite decide_True.
Qed.

Lemma told_data A j m : about m = Some (job_id j, KData) -> told A (job_id j) [] [m].
Proof. intros Hm HA. simpl. rewrite Hm. simpl. unfold follow1. simpl. rewrite decide_True by done. by exists A. Qed.
Lemma told_end A j m : about m = Some (job_id j, KEnded) -> told A (job_id j) [job_id j] [m].
Proof.
  intros Hm HA. simpl. rewrite Hm. simpl. unfold follow1. simpl. rewrite decide_True by done.
  eexists. split; [done|]. set_solver.
Qed.

Lemma with_queue_twice r a b : with_queue (queue (with_queue a r) ++ b) (with_queue a r) = with_queue (a ++ b) r.
Proof. done. Qed.

Lemma read_jobs_loop_spec s conn l r l' fin r' : read_jobs_loop s conn l r = (l', fin, r') ->
  map job_id l' = map job_id l /\ exists m, r' = with_queue (queue r ++ m) r
    /\ forall A, NoDup (map job_id l) -> (forall i, i ∈ map job_id l -> i ∈ A) ->
       exists A', follow A (omap about m) = Some A' /\ forall i, i ∈ A -> i ∉ fin -> i ∈ A'.
Proof.
  assert (Hn : forall r, r = with_queue (queue r ++ []) r) by
    (intros []; unfold with_queue; simpl; by rewrite app_nil_r).
  revert r l' fin r'. induction l as [|j l IH]; intros r l' fin r'; simpl.
  { intros [= <- <- <-]. split; [done|]. exists []. split; [done|]. intros A _ _. by exists A. }
  destruct (is_last_job j).
  { destruct (read_jobs_loop s conn l r) as [[l1 f1] r1] eqn:E. intros [= <- <- <-].
    destruct (IH _ _ _ _ E) as (Hids & m & -> & HA). split; [simpl; by rewrite Hids|].
    exists m. split; [done|]. intros A [_ Hnd]%NoDup_cons Hin. apply HA; [done|]. intros i Hi. apply Hin. by right. }
  destruct (init_read_job_for_cm s conn j r) as [[res j1] r1] eqn:Ei.
  destruct (init_told _ _ _ _ _ _ _ Ei) as (Hj1 & m1 & -> & Hm1).
  (** A last message of the round about this job. *)
  assert (Hlast : forall j2 d f2, job_id j2 = job_id j -> (forall A, told A (job_id j) f2 [d]) ->
    (j2 :: l, f2, enqueue d (with_queue (queue r ++ m1) r)) = (l', fin, r') ->
    map job_id l' = job_id j :: map job_id l /\ exists m, r' = with_queue (queue r ++ m) r
    /\ forall A, NoDup (job_id j :: map job_id l) -> (forall i, i ∈ job_id j :: map job_id l -> i ∈ A) ->
       exists A', follow A (omap about m) = Some A' /\ forall i, i ∈ A -> i ∉ fin -> i ∈ A').
  { intros j2 d f2 Hj2 Hd [= <- <- <-]. split; [simpl; by rewrite Hj2|]. exists (m1 ++ [d]).
    split; [unfold enqueue; by rewrite with_queue_twice, app_assoc|]. intros A _ Hin.
    rewrite omap_app, follow_app, Hm1 by (apply Hin; by left). apply Hd. apply Hin. by left. }
  destruct res as [[]|err].
  - pose proof (read_id s j1) as Hr. pose proof (block_id s j1) as Hb.
    destruct (read s j1) as [[[b|]|e] j2]; simpl in Hr, Hb; rewrite Hj1 in Hr, Hb.
    + apply Hlast; [done|]. intros A. apply told_data. simpl. by rewrite (Hb b).
    + destruct (job_completed j2).
      * apply Hlast; [done|]. intros A. rewrite <- Hr. apply told_end. by case_match.
      * intros [= <- <- <-]. split; [simpl; by rewrite Hr|]. exists m1. split; [done|].
        intros A _ Hin. exists A. split; [|done]. apply Hm1. apply Hin. by left.
    + apply Hlast; [done|]. intros A. rewrite <- Hr. by apply told_end.
  - set (d := FileReadError _ _ _ _). set (y := enqueue d _).
    destruct (read_jobs_loop s conn l y) as [[l1 f1] r1] eqn:E. intros [= <- <- <-].
    destruct (IH _ _ _ _ E) as (Hids & m & -> & HA). split; [simpl; by rewrite Hids, Hj1|].
    exists (m1 ++ [d] ++ m). split; [unfold y, enqueue, with_queue; simpl; by rewrite <- !app_assoc|].
    intros A [Hnotin Hnd]%NoDup_cons Hin. rewrite !omap_app, follow_app, Hm1, follow_app by (apply Hin; by left).
    destruct (told_end A j1 d eq_refl) as (A1 & -> & Hold); [rewrite Hj1; apply Hin; by left|].
    destruct (HA A1 Hnd) as (A' & HA' & Hkeep).
    { intros i Hi. apply Hold; [apply Hin; by right|]. rewrite Hj1, list_elem_of_singleton. by intros ->. }
    exists A'. split; [done|]. intros i Hi Hni. apply not_elem_of_cons in Hni as [Hij Hni].
    apply Hkeep; [|done]. apply Hold; [done|]. by rewrite list_elem_of_singleton.
Qed.
Lemma tick_keeps s r : keeps r (handle_read_jobs_tick s r).
Proof.
  unfold handle_read_jobs_tick. destruct (read_jobs_loop _ _ _ _) as [[??] ?] eqn:E.
  by destruct (read_jobs_loop_spec _ _ _ _ _ _ _ E) as (_ & m & -> & _).
Qed.

Lemma ok_data P g s clip_on raw_ok clipboard n r d w :
  runners w !! n = Some r ->
  (forall l fte, d = SLogin l true fte -> P (l_id l)) ->
  (forall l a fte, d = SLogin l a fte -> g = true -> 0 < l_id l /\ (conn_id r = 0 \/ conn_id r = l_id l)) ->
  ok P g w -> ok P g (on_data s clip_on raw_ok clipboard n r d w).
Proof.
  intros Hr Ha Hg Hok. pose proof (λ w', ok_frame P g w w') as Hf.
  destruct d; cbn [on_data]; try (by apply Hf; [by apply frame_emit | done]).
  - apply (ok_login _ _ _ _ _ _ _ r); [done | intros ->; by eapply Ha | by eapply Hg | done].
  - by apply ok_run_over.
  - apply ok_run_over. apply Hf; [|done]. by apply frame_on_runner.
  - apply Hf; [apply frame_inner_send | done].
  - apply Hf; [apply frame_click | done].
  - set (x := match f with WriteBlock _ _ _ _ => _ | _ => _ end).
    assert (Hx : keeps r x.1).
    { assert (keeps r (handle_fs s f r).1) by apply handle_fs_keeps. subst x. destruct f; try done. by destruct raw_ok. }
    destruct x as [r1 eff]. simpl in Hx.
    set (r2 := match read_jobs r1 with [] => _ | _ => _ end).
    apply Hf; [|done]. etrans; [|by apply frame_emit]. etrans; [|apply frame_fs_effects].
    apply (frame_put_runner n r); [done|]. subst r2. by case_match.
  - case_match; [apply Hf; [by apply frame_emit | done]|].
    destruct (is_authorized r) eqn:Hau; simpl; [|done]. destruct Hok as [A B C I D E]. split; try done.
    intros m i. simpl. rewrite in_app_iff. simpl. intros [Hin|[[= <- <-]|[]]]; [by eapply C | by apply (B n)].
  - apply Hf; [by apply frame_on_runner | done].
  - apply Hf; [|done]. etrans; by apply frame_emit.
  - apply Hf; [apply frame_voice | done].
  - apply Hf; [apply frame_voice | done].
  - apply Hf; [apply frame_voice | done].
  - done.
Qed.

Lemma ok_queued P g clip_on sent n r w : runners w !! n = Some r -> ok P g w -> ok P g (on_queued clip_on sent n r w).
Proof.
  intros Hr Hok. unfold on_queued. destruct (queue r) as [|d q]; [done|].
  assert (Hok1 : ok P g (put_runner n (with_queue q r) w)).
  { eapply ok_frame; [|done]. by apply (frame_put_runner n r). }
  destruct sent; simpl; [|by apply ok_run_over].
  assert (Hok2 : ok P g (emit (Sent n d) (put_runner n (with_queue q r) w))).
  { eapply ok_frame; [|done]. by apply frame_emit. }
  destruct d; try done.
  - rewrite run_over_running. by apply ok_run_start.
  - case_match; [|done]. eapply ok_frame; [|exact Hok2]. by apply frame_on_runner.
Qed.

Lemma ok_connect P g clip_on w : ok P g w -> ok P g (ipc_task clip_on w).
Proof.
  intros Hok. unfold ipc_task. rewrite <- (run_start_resets clip_on _ restarted) by done.
  apply ok_run_start. destruct Hok as [A B C I D E].
  set (w1 := on_runner _ _ _).
  assert (Hm : forall m r, runners w1 !! m = Some r ->
            (m = next w /\ r = restarted fresh_runner) \/ (m <> next w /\ runners w !! m = Some r)).
  { intros m r. simpl. destruct (decide (m = next w)) as [->|Hm].
    - rewrite lookup_alter_eq, lookup_insert_eq. intros [= <-]. by left.
    - rewrite lookup_alter_ne, lookup_insert_ne by done. by right. }
  split; try done.
  - intros m r [[-> ->]|[_ H]]%Hm; [done | eauto].
  - intros m r [[-> ->]|[_ H]]%Hm; [done | eauto].
  - intros m r [[-> ->]|[_ H]]%Hm; simpl; [lia|]. specialize (D _ _ H). lia.
  - intros Hg id c Hc Hd. destruct (E Hg _ _ Hc Hd) as (Hid & r & Hr & Hi). split; [done|].
    exists r. specialize (D _ _ Hr). simpl. by rewrite lookup_alter_ne, lookup_insert_ne by lia.
Qed.

Lemma ok_step P g a w : (forall id, admits id a = true -> P id) -> (g = true -> one_login a w = true) ->
  ok P g w -> ok P g (step a w).
Proof.
  intros Ha Hg Hok. pose proof (λ w', ok_frame P g w w') as Hf.
  destruct a as [clip_on|n d s clip_on raw_ok clipboard|n sent clip_on|n c1 c2 c3 c4|n|n s|k s|c|];
    cbn [step]; unfold at_runner.
  - by apply ok_connect.
  - destruct d as [d|], (runners w !! n) as [r|] eqn:Hr; try done; [|by apply ok_run_over].
    apply ok_data; [done| | |done].
    + intros l fte ->. apply Ha. simpl. by rewrite Z.eqb_refl.
    + intros l a fte -> Hgt. specialize (Hg Hgt). simpl in Hg. rewrite Hr in Hg. bool_prop. lia.
  - destruct (runners w !! n) as [r|] eqn:Hr; [|done]. by apply ok_queued.
  - destruct (runners w !! n) as [r|]; [|done]. unfold on_clip.
    repeat case_match; try done; apply Hf; try done; [by apply frame_emit | by apply frame_on_runner].
  - destruct (runners w !! n) as [r|] eqn:Hr; [|done]. unfold on_log. destruct (rx_log r); [done|].
    apply Hf; [|done]. etrans; [|by apply frame_emit]. by apply (frame_put_runner n r).
  - destruct (runners w !! n) as [r|] eqn:Hr; [|done]. unfold on_tick.
    pose proof (tick_keeps s r) as Hk. destruct (read_jobs r); apply Hf; try done; [by apply (frame_put_runner n r)|].
    etrans; [|by apply frame_emit]. by apply (frame_put_runner n r).
  - destruct (copies w !! k) as [[n c]|]; [|done]. apply Hf; [|done].
    trans (set_copies (delete k (copies w)) w); [split; try done; intros i c' H; by exists c'|].
    apply frame_on_runner. intros r. unfold copy_path, handle_result. by case_match.
  - destruct c; cbn [ui]; try (apply Hf; [apply frame_tell | done]).
    + apply ok_authorize; [|done]. apply Ha. simpl. apply Z.eqb_refl.
    + apply Hf; [|done]. apply frame_clear. apply delete_subseteq.
    + apply ok_card; [|done]. intros ->. apply Ha. simpl. apply Z.eqb_refl.
  - apply Hf; [|done]. apply frame_clear. apply map_empty_subseteq.
Qed.

Lemma all_along_snoc ok l a w : all_along ok (l ++ [a]) w = all_along ok l w && ok a (run l w).
Proof.
  revert w. induction l as [|b l IH]; intros w; simpl; [by rewrite andb_true_r|]. by rewrite IH, andb_assoc.
Qed.
Lemma cm_run_snoc l a w : run (l ++ [a]) w = step a (run l w).
Proof. unfold run. by rewrite foldl_app. Qed.

Lemma ok_run l s : ok (admitted l) (all_along one_login l (init s)) (run l (init s)).
Proof.
  induction l as [|a l IH] using rev_ind.
  - split; simpl; try done; intros ??; by rewrite ?lookup_empty.
  - rewrite cm_run_snoc, all_along_snoc. apply ok_step.
    + intros id H. unfold admitted. rewrite existsb_app. simpl. rewrite H. by rewrite orb_true_r.
    + by intros [_ H]%andb_prop.
    + eapply ok_weaken; [| |exact IH].
      * intros id. unfold admitted. rewrite existsb_app. by intros ->.
      * by intros [H _]%andb_prop.
Qed.

(** ** Read jobs: what each task's messages and jobs look like *)
Definition view (r : runner) : list (Z * read_event) * list Z := (omap about (queue r), map job_id (read_jobs r)).
Definition rd (n : nat) (w : cm) : list (Z * read_event) * option (list (Z * read_event) * list Z) :=
  (omap about (sent_by n (did w)), view <$> runners w !! n).

Record same (w w' : cm) : Prop := {
  sm_sched : sched w' = sched w;
  sm_rd : forall n, rd n w' = rd n w;
}.
#[export] Instance same_preorder : PreOrder same.
Proof.
  split; [done|]. intros a b c [A1 A2] [B1 B2]. split; [congruence|]. intros n. by rewrite B2.
Qed.

Lemma omap_snoc {A B} (f : A -> option B) l x : omap f (l ++ [x]) = omap f l ++ omap f [x].
Proof. apply omap_app. Qed.

Definition silent (e : event) : bool := match e with Sent _ d => match about d with None => true | _ => false end | _ => true end.
Lemma same_emit e w : silent e = true -> same w (emit e w).
Proof.
  intros He. split; [done|]. intros n. unfold rd, sent_by. simpl. f_equal. rewrite omap_snoc, omap_app.
  destruct e; simpl; rewrite ?app_nil_r; try done.
  case_decide; simpl; [|by rewrite app_nil_r]. simpl in He. destruct (about d); [done|]. by rewrite app_nil_r.
Qed.
Lemma same_on_runner n f w : (forall r, view (f r) = view r) -> same w (on_runner n f w).
Proof.
  intros Hf. split; [done|]. intros m. unfold rd. simpl. f_equal. destruct (decide (m = n)) as [->|Hm].
  - rewrite lookup_alter_eq. destruct (runners w !! n); simpl; [|done]. by rewrite Hf.
  - by rewrite lookup_alter_ne.
Qed.
Lemma same_put_runner n r r' w : runners w !! n = Some r -> view r' = view r -> same w (put_runner n r' w).
Proof.
  intros Hr Hv. split; [done|]. intros m. unfold rd. simpl. f_equal. destruct (decide (m = n)) as [->|Hm].
  - by rewrite lookup_insert_eq, Hr; simpl; rewrite Hv.
  - by rewrite lookup_insert_ne.
Qed.
Lemma view_enqueue d r : about d = None -> view (enqueue d r) = view r.
Proof. intros H. unfold view, enqueue. simpl. f_equal. rewrite omap_snoc. simpl. rewrite H. apply app_nil_r. Qed.
Lemma same_send_to n d w : about d = None -> same w (send_to n d w).
Proof. intros H. apply (same_on_runner n (enqueue d)). intros r. by apply view_enqueue. Qed.
Lemma same_tell id d w : about d = None -> same w (tell id d w).
Proof. intros H. unfold tell. case_match; [by apply same_send_to | done]. Qed.
Lemma same_inner_send id d w : about d = None -> same w (cm_inner_send id d w).
Proof.
  intros H. unfold cm_inner_send. case_match; [by apply same_tell|].
  generalize (map_to_list (clients w)). intros l. revert w.
  induction l as [|c l IH]; intros w; simpl; [done|].
  etrans; [by apply (same_send_to (c_tx c.2) d)|]. apply IH.
Qed.
Lemma same_voice a b id w : same w (set_voice a b id w).
Proof. unfold set_voice. case_match; [|done]. by etrans; [|by apply same_emit]. Qed.
Lemma same_remove_connection id close w : same w (remove_connection id close w).
Proof.
  unfold remove_connection. etrans; [|by apply same_emit]. etrans; [|by apply same_emit]. by destruct close.
Qed.
Lemma same_fs_effects n l w : same w (fs_effects n l w).
Proof.
  revert w. induction l as [|e l IH]; intros w; simpl; [done|]. etrans; [|apply IH]. by destruct e.
Qed.
Lemma same_authorize id w : same w (authorize id w).
Proof. unfold authorize. case_match; [|done]. by etrans; [|by apply (same_send_to _ Authorize)]. Qed.

(** The invariant of one task. *)
Definition reads_ok (v : list (Z * read_event) * option (list (Z * read_event) * list Z)) : Prop :=
  match v with
  | (h, None) => is_Some (follow ∅ h)
  | (h, Some (q, ids)) => NoDup ids /\ exists A, follow ∅ (h ++ q) = Some A /\ forall i, i ∈ ids -> i ∈ A
  end.
Definition Reads (w : cm) : Prop := forall n, reads_ok (rd n w).

Lemma Reads_same w w' : same w w' -> Reads w -> Reads w'.
Proof. intros [_ H] HR n. by rewrite H. Qed.

Lemma reads_ok_prefix h v : reads_ok (h, v) -> is_Some (follow ∅ h).
Proof.
  destruct v as [[q ids]|]; simpl; [|done]. intros (_ & A & HA & _). rewrite follow_app in HA.
  by destruct (follow ∅ h).
Qed.

Lemma same_run_start clip_on n w : same w (run_start clip_on n w).
Proof.
  unfold run_start. destruct (runners w !! n) as [r|] eqn:Hr; [|done].
  trans (if clip_on then emit (Sent n MonitorReady) w else w).
  - destruct clip_on; [by apply same_emit | done].
  - apply (same_put_runner n r); [by destruct clip_on | done].
Qed.

Lemma sched_run_over clip_on n w : sched (run_over clip_on n w) = sched w.
Proof.
  unfold run_over. destruct (runners w !! n) as [r|]; [|done]. case_match.
  - apply same_run_start.
  - case_match; [|done]. by rewrite (sm_sched _ _ (same_remove_connection _ _ _)).
Qed.

Lemma Reads_run_over clip_on n w : Reads w -> Reads (run_over clip_on n w).
Proof.
  intros HR. unfold run_over. destruct (runners w !! n) as [r|] eqn:Hr; [|done].
  case_match; [by apply (Reads_same w); [apply same_run_start|]|].
  assert (Reads (set_runners (delete n (runners w)) w)).
  { intros m. unfold rd. simpl. destruct (decide (m = n)) as [->|Hm].
    - rewrite lookup_delete_eq. simpl. apply (reads_ok_prefix _ (rd n w).2). apply HR.
    - rewrite lookup_delete_ne by done. apply HR. }
  case_match; [|done]. eapply Reads_same; [|done]. apply same_remove_connection.
Qed.

(** One task changes: its own view decides. *)
Lemma Reads_put_runner n r r' w : runners w !! n = Some r ->
  (forall h, reads_ok (h, Some (view r)) -> reads_ok (h, Some (view r'))) ->
  Reads w -> Reads (put_runner n r' w).
Proof.
  intros Hr Hv HR m. unfold rd. simpl. destruct (decide (m = n)) as [->|Hm].
  - rewrite lookup_insert_eq. simpl. apply Hv. specialize (HR n). unfold rd in HR. by rewrite Hr in HR.
  - rewrite lookup_insert_ne by done. apply HR.
Qed.

Lemma remove_job_ids id l : NoDup (map job_id l) ->
  NoDup (map job_id (remove_job id l).2)
  /\ forall i, i ∈ map job_id (remove_job id l).2 -> i ∈ map job_id l /\ i <> id.
Proof.
  intros Hnd. pose proof (remove_job_spec id l) as H. destruct (remove_job id l) as [[j|] rest]; simpl.
  - destruct H as [Hp <-]. assert (Hq : map job_id l ≡ₚ job_id j :: map job_id rest) by by rewrite Hp.
    rewrite Hq in Hnd. apply NoDup_cons in Hnd as [Hni Hnd]. split; [done|]. intros i Hi. rewrite Hq.
    split; [by right|]. by intros ->.
  - destruct H as [-> H]. split; [done|]. intros i Hi. split; [done|]. intros ->.
    apply list_elem_of_fmap in Hi as (j & Hj & Hin). apply (H j); [by apply list_elem_of_In | done].
Qed.
Lemma remove_finished fin l : NoDup (map job_id l) ->
  NoDup (map job_id (foldl (λ l id, (remove_job id l).2) l fin))
  /\ forall i, i ∈ map job_id (foldl (λ l id, (remove_job id l).2) l fin) -> i ∈ map job_id l /\ i ∉ fin.
Proof.
  revert l. induction fin as [|id fin IH]; intros l Hnd; simpl.
  - split; [done|]. intros i Hi. split; [done | by intros ?%elem_of_nil].
  - destruct (remove_job_ids id l Hnd) as [Hnd1 H1]. destruct (IH _ Hnd1) as [Hnd2 H2]. split; [done|].
    intros i Hi. destruct (H2 i Hi) as [Hi1 Hf]. destruct (H1 i Hi1) as [Hl Hne].
    split; [done|]. rewrite not_elem_of_cons. done.
Qed.

Lemma tick_reads s r h : reads_ok (h, Some (view r)) -> reads_ok (h, Some (view (handle_read_jobs_tick s r))).
Proof.
  unfold handle_read_jobs_tick. destruct (read_jobs_loop s (conn_id r) (read_jobs r) r) as [[l fin] r'] eqn:E.
  destruct (read_jobs_loop_spec _ _ _ _ _ _ _ E) as (Hids & m & -> & HA). unfold view. simpl.
  intros (Hnd & A & Hf & Hin). rewrite <- Hids in Hnd.
  destruct (remove_finished fin l Hnd) as [Hnd' Hfin]. split; [done|].
  destruct (HA A) as (A' & Hf' & Hk); [by rewrite <- Hids | done|]. exists A'. split.
  - rewrite omap_app, app_assoc, follow_app, Hf. done.
  - intros i Hi. destruct (Hfin i Hi) as [Hi1 Hi2]. apply Hk; [|done]. apply Hin. by rewrite <- Hids.
Qed.

Lemma reads_start s path fnum hid id conn ov r h :
  forallb (λ j, negb (job_id j =? id)) (read_jobs r) = true ->
  reads_ok (h, Some (view r)) -> reads_ok (h, Some (view (start_read_job s path fnum hid id conn ov r))).
Proof.
  intros Hnew (Hnd & A & Hf & Hin).
  assert (Hni : id ∉ map job_id (read_jobs r)).
  { intros (j & -> & Hj)%list_elem_of_fmap. apply list_elem_of_In in Hj.
    apply (forallb_forall _ _) with (x := j) in Hnew; [|done]. by rewrite Z.eqb_refl in Hnew. }
  assert (Href : forall msg, reads_ok (h, Some (view (enqueue (ReadJobInitResult id fnum hid conn (Err msg)) r)))).
  { intros msg. split; [done|]. exists (A ∖ {[id]}). simpl. split.
    - rewrite omap_snoc. simpl. by rewrite app_assoc, follow_app, Hf.
    - intros i Hi. apply elem_of_difference. split; [by apply Hin|]. intros ->%elem_of_singleton. done. }
  unfold start_read_job. destruct (new_read _ _ _ _ _ _) as [j|e] eqn:Ej; [|apply Href].
  destruct (check_file_count_limit _); [|apply Href]. destruct (write_to_bytes _ _ _); [|apply Href].
  apply new_read_id in Ej. unfold view. simpl. rewrite map_app. simpl. rewrite set_conn_id_id, Ej. split.
  - apply NoDup_app. split_and!; [done | | apply NoDup_singleton].
    intros i Hi ->%list_elem_of_singleton. done.
  - exists ({[id]} ∪ A). rewrite omap_snoc. simpl. split; [by rewrite app_assoc, follow_app, Hf|].
    intros i [Hi| ->%list_elem_of_singleton]%elem_of_app; [|set_solver]. apply Hin in Hi. set_solver.
Qed.

Lemma find_job_update id l i j f : find_job id l = Some (i, j) -> job_id (f j) = job_id j ->
  map job_id (<[i := f j]> l) = map job_id l.
Proof.
  unfold find_job. destruct (get_job id l) as [k|]; [|done]. destruct (l !! k) as [j'|] eqn:Hk; [|done].
  intros [= -> ->] Hf. change (job_id <$> <[i := f j]> l = job_id <$> l). rewrite list_fmap_insert, Hf.
  apply list_insert_id. by rewrite list_lookup_fmap, Hk.
Qed.

Lemma handle_fs_reads s f r h :
  match f with ReadFile _ id _ _ _ _ => forallb (λ j, negb (job_id j =? id)) (read_jobs r) | _ => true end = true ->
  reads_ok (h, Some (view r)) -> reads_ok (h, Some (view (handle_fs s f r).1)).
Proof.
  intros Hnew Hok.
  assert (Hsame : forall r', view r' = view r -> reads_ok (h, Some (view r'))) by (by intros r' ->).
  assert (Hcancel : forall id, reads_ok (h, Some (view (handle_fs s (CancelRead id) r).1))).
  { intros id. destruct Hok as (Hnd & A & Hf & Hin). destruct (remove_job_ids id (read_jobs r) Hnd) as [Hnd1 H1].
    simpl. destruct (remove_job id (read_jobs r)) as [[j|] rest] eqn:E; simpl in *; [|split; [done | by exists A]].
    split; [done|]. exists A. split; [done|]. intros i Hi. apply Hin. by apply H1. }
  destruct f; try exact (Hcancel _); try (by apply reads_start); apply Hsame; simpl;
    try (unfold remove_dir, remove_file, create_dir, rename_file, handle_result, read_empty_dirs, read_dir,
           read_all_files, check_digest;
         repeat case_match; simplify_eq; unfold view; simpl; rewrite ?omap_snoc; simpl; by rewrite ?app_nil_r).
  destruct (find_job id (read_jobs r)) as [[i j]|] eqn:E; simpl; [|done].
  unfold view. simpl. f_equal. apply (find_job_update id _ i j (confirm _ _) E). apply confirm_id.
Qed.

Lemma Reads_data s clip_on raw_ok clipboard n r d w : runners w !! n = Some r ->
  new_read_number (Stream n (Some d) s clip_on raw_ok clipboard) w = true ->
  Reads w -> Reads (on_data s clip_on raw_ok clipboard n r d w).
Proof.
  intros Hr Hnew HR. pose proof (λ w', Reads_same w w') as Hs.
  destruct d; cbn [on_data]; try (by apply Hs; [by apply same_emit | done]).
  - apply Reads_run_over. apply Hs; [|done]. etrans; [|by apply same_on_runner].
    by etrans; [|by apply same_emit].
  - by apply Reads_run_over.
  - apply Reads_run_over. apply Hs; [|done]. by apply same_on_runner.
  - apply Hs; [by apply same_inner_send | done].
  - by apply Hs.
  - set (x := match f with WriteBlock _ _ _ _ => _ | _ => _ end).
    assert (Hx : forall h, reads_ok (h, Some (view r)) -> reads_ok (h, Some (view x.1))).
    { intros h Hok. assert (reads_ok (h, Some (view (handle_fs s f r).1))).
      { apply handle_fs_reads; [|done]. simpl in Hnew. rewrite Hr in Hnew. by destruct f. }
      subst x. destruct f; try done. by destruct raw_ok. }
    destruct x as [r1 eff]. simpl in Hx.
    set (r2 := match read_jobs r1 with [] => _ | _ => _ end).
    assert (Hv : view r2 = view r1) by (subst r2; by case_match).
    eapply Reads_same; [etrans; [apply same_fs_effects | by apply same_emit]|].
    apply (Reads_put_runner n r); [done | by rewrite Hv | done].
  - repeat case_match; try done; apply Hs; try done; by apply same_emit.
  - apply Hs; [by apply same_on_runner | done].
  - apply Hs; [|done]. etrans; by apply same_emit.
  - apply Hs; [apply same_voice | done].
  - apply Hs; [apply same_voice | done].
  - apply Hs; [apply same_voice | done].
  - done.
Qed.

Lemma Reads_queued clip_on sent n r w : runners w !! n = Some r -> running r = false -> Reads w -> Reads (on_queued clip_on sent n r w).
Proof.
  intros Hr Hrun HR. unfold on_queued. destruct (queue r) as [|d q] eqn:Hq; [done|].
  set (w1 := put_runner n _ w).
  destruct sent; simpl.
  - assert (HR1 : Reads (emit (Sent n d) w1)).
    { intros m. specialize (HR m). revert HR. unfold rd, sent_by. simpl. rewrite omap_app, omap_app. simpl.
      destruct (decide (m = n)) as [->|Hm].
      - rewrite decide_True, lookup_insert_eq, Hr by done. simpl. unfold view. rewrite Hq. simpl.
        destruct (about d); simpl; by rewrite <- ?app_assoc, ?app_nil_r.
      - rewrite decide_False, lookup_insert_ne by done. simpl. by rewrite app_nil_r. }
    destruct d; try done.
    + apply Reads_run_over. eapply Reads_same; [|exact HR1]. by apply same_on_runner.
    + case_match; [|done]. eapply Reads_same; [|exact HR1]. by apply same_on_runner.
  - (* the message is lost, and the task with it *)
    assert (HR1 : Reads (set_runners (delete n (runners w1)) w1)).
    { intros m. specialize (HR m). revert HR. unfold rd. simpl. destruct (decide (m = n)) as [->|Hm].
      - rewrite lookup_delete_eq. apply reads_ok_prefix.
      - by rewrite lookup_delete_ne, lookup_insert_ne. }
    unfold run_over. assert (runners w1 !! n = Some (with_queue q r)) as -> by (simpl; by rewrite lookup_insert_eq).
    simpl. rewrite Hrun. case_match; [|done]. eapply Reads_same; [|exact HR1]. apply same_remove_connection.
Qed.

Lemma Reads_step P g a w : ok P g w -> new_read_number a w = true -> Reads w -> Reads (step a w).
Proof.
  intros Hok Hnew HR. pose proof (λ w', Reads_same w w') as Hs.
  destruct a as [clip_on|n d s clip_on raw_ok clipboard|n sent clip_on|n c1 c2 c3 c4|n|n s|k s|c|];
    cbn [step]; unfold at_runner.
  - unfold ipc_task. eapply Reads_same; [apply same_run_start|]. intros m. unfold rd. simpl.
    destruct (decide (m = next w)) as [->|Hm].
    + rewrite lookup_insert_eq. destruct (reads_ok_prefix _ _ (HR (next w))) as [A HA].
      simpl. split; [apply NoDup_nil_2|]. exists A. rewrite app_nil_r. split; [done|]. by intros i ?%elem_of_nil.
    + rewrite lookup_insert_ne by done. apply HR.
  - destruct d as [d|], (runners w !! n) as [r|] eqn:Hr; try done; [by apply Reads_data | by apply Reads_run_over].
  - destruct (runners w !! n) as [r|] eqn:Hr; [|done]. apply Reads_queued; [done | by eapply ok_idle | done].
  - destruct (runners w !! n) as [r|]; [|done]. unfold on_clip.
    repeat case_match; try done; apply Hs; try done; [by apply same_emit|].
    apply same_on_runner. intros x. by apply view_enqueue.
  - destruct (runners w !! n) as [r|] eqn:Hr; [|done]. unfold on_log. destruct (rx_log r); [done|].
    apply Hs; [|done]. etrans; [|by apply same_emit]. by apply (same_put_runner n r).
  - destruct (runners w !! n) as [r|] eqn:Hr; [|done]. unfold on_tick.
    assert (HT : Reads (put_runner n (handle_read_jobs_tick s r) w)).
    { apply (Reads_put_runner n r); [done | apply tick_reads | done]. }
    destruct (read_jobs r); [apply Hs; [by apply (same_put_runner n r) | done]|].
    eapply Reads_same; [|exact HT]. by apply same_emit.
  - destruct (copies w !! k) as [[n c]|]; [|done]. apply Hs; [|done].
    trans (set_copies (delete k (copies w)) w); [done|].
    apply same_on_runner. intros r. unfold copy_path, handle_result. case_match; by apply view_enqueue.
  - destruct c; cbn [ui]; try (apply Hs; [by apply same_tell | done]).
    + apply Hs; [apply same_authorize | done].
    + by apply (Reads_same w).
    + unfold cr_sched_answer. set (w1 := if accepted then _ else w).
      assert (HR1 : Reads w1) by (subst w1; by destruct accepted).
      destruct (Sched.status _ now' (sched w1)) as [o s]. set (w2 := set_sched s w1).
      assert (HR2 : Reads w2) by exact HR1. clearbody w2. clear HR1.
      set (u := match o with Some _ => _ | None => _ end).
      destruct (clients w2 !! id) as [c|]; [|done].
      assert (HR3 : Reads (send_to (c_tx c) (CrSchedResp accepted u) w2)) by
        (eapply Reads_same; [by apply same_send_to | done]).
      destruct (c_authorized c); simpl; [done|]. destruct accepted; (eapply Reads_same; [|exact HR3]).
      * apply same_authorize.
      * by apply (same_tell id Close).
  - by apply (Reads_same w).
Qed.

Lemma Reads_run l s : all_along new_read_number l (init s) = true -> Reads (run l (init s)).
Proof.
  induction l as [|a l IH] using rev_ind; [intros _ n; by exists ∅|].
  rewrite all_along_snoc, cm_run_snoc. intros [H Ha]%andb_prop.
  eapply Reads_step; [apply ok_run | done | by apply IH].
Qed.

Lemma sched_tell id d w : sched (tell id d w) = sched w.
Proof. unfold tell. by case_match. Qed.

(** Only an accepted card changes the window's marker, but for its expiry. *)
Lemma sched_step a w win : sched (step a w) = Some win -> sched w = Some win \/ granted a = Some win.
Proof.
  destruct a as [clip_on|n d s clip_on raw_ok clipboard|n sent clip_on|n c1 c2 c3 c4|n|n s|k s|c|];
    cbn [step]; unfold at_runner.
  - unfold ipc_task. rewrite (sm_sched _ _ (same_run_start _ _ _)). by left.
  - intros H. left. revert H.
    destruct d as [d|], (runners w !! n) as [r|]; try done; [|by rewrite sched_run_over].
    destruct d; simpl; try done; rewrite ?sched_run_over; try done;
      unfold voice_call_started, voice_call_incoming, voice_call_closed;
      rewrite ?(sm_sched _ _ (same_voice _ _ _ _)); try done.
    + rewrite (sm_sched _ _ (same_inner_send _ (PrivacyModeState id) _ eq_refl)). done.
    + destruct (match f with WriteBlock _ _ _ _ => _ | _ => _ end) as [r1 eff]. simpl.
      by rewrite (sm_sched _ _ (same_fs_effects _ _ _)).
    + by repeat case_match.
  - intros H. left. revert H. destruct (runners w !! n) as [r|]; [|done]. unfold on_queued.
    destruct (queue r) as [|d q]; [done|]. destruct sent; simpl; [|by rewrite sched_run_over].
    destruct d; try done; [by rewrite sched_run_over | by case_match].
  - intros H. left. revert H. destruct (runners w !! n) as [r|]; [|done]. unfold on_clip. by repeat case_match.
  - intros H. left. revert H. destruct (runners w !! n) as [r|]; [|done]. unfold on_log. by case_match.
  - intros H. left. revert H. destruct (runners w !! n) as [r|]; [|done]. unfold on_tick. by case_match.
  - intros H. left. revert H. by destruct (copies w !! k) as [[n c]|].
  - destruct c; cbn [ui]; unfold check_click_time, close, send_chat, switch_permission, switch_back,
      elevate_portable, handle_incoming_voice_call, close_voice_call;
      try (rewrite sched_tell; by left).
    + rewrite (sm_sched _ _ (same_authorize _ _)). by left.
    + by left.
    + unfold cr_sched_answer. set (w1 := if accepted then _ else w).
      destruct (Sched.status _ now' (sched w1)) as [o s] eqn:Est. set (u := match o with Some _ => _ | None => _ end).
      assert (Hs : s = Some win -> sched w1 = Some win).
      { intros ->. destruct (Sched.status_file d now' (sched w1)) as [E|E]; rewrite Est in E; simpl in E; congruence. }
      intros H. assert (Hw : s = Some win).
      { revert H. simpl. destruct (clients w1 !! id) as [c|]; [|done]. destruct (c_authorized c); simpl; [done|].
        destruct accepted; [by rewrite (sm_sched _ _ (same_authorize _ _))|].
        unfold close. by rewrite sched_tell. }
      specialize (Hs Hw). subst w1. destruct accepted; [|by left]. revert Hs. simpl. unfold Sched.grant, Sched.write.
      destruct (Sched.writes d); [by right|by left|done].
  - by left.
Qed.

(** ** What holds *)

Lemma status_same t s : Sched.clock t -> Sched.wf_store s ->
  let '(o, s') := Sched.status Sched.fine t s in
  o = s' /\ (s' = None \/ s' = s)
  /\ match s' with
     | Some win => t < Sched.end_ win <= Sched.granted_at win + Sched.MAX_WINDOW_SECS
     | None => True
     end.
Proof.
  intros Ht Hwf. unfold Sched.status, Sched.read, Sched.clear, Sched.fine. cbn [Sched.reads Sched.removes].
  destruct s as [w|]; simpl; [|auto].
  destruct Hwf as (_ & _ & Hend & _).
  destruct (t >=? Sched.end_ w) eqn:E1; simpl; [auto|]. destruct (_ >=? Sched.MAX_WINDOW_SECS); simpl; [auto|].
  bool_prop. split_and!; auto; lia.
Qed.

(** Answering the card of a proposed window, when the marker can be read,
    written and removed.  The answer reaches the task of
    the connection the card was for, with the end of the window as it is now
    stored (zero if there is none); a refusal opens no window, an acceptance
    stores the capped one, granted now; a connection that was waiting to be let
    in is authorised by the acceptance and closed by the refusal, one that was
    already in is left alone, and no other connection is touched. *)
Theorem card_answer now now' id accepted st en hq label w c r :
  Sched.clock now -> Sched.clock now' -> Sched.wf_store (sched w) ->
  clients w !! id = Some c -> runners w !! c_tx c = Some r ->
  let w' := cr_sched_answer Sched.fine now now' id accepted st en hq label w in
  (sched w' = None \/ sched w' = if accepted then Sched.grant Sched.fine now st en hq label (sched w) else sched w)
  /\ (forall win, sched w' = Some win ->
        now' < Sched.end_ win <= Sched.granted_at win + Sched.MAX_WINDOW_SECS
        /\ (accepted = true -> Sched.granted_at win = now))
  /\ runners w' !! c_tx c = Some (with_queue (queue r ++
        CrSchedResp accepted (match sched w' with Some win => Sched.end_ win | None => 0 end)
        :: (if c_authorized c then [] else [if accepted then Authorize else Close])) r)
  /\ authorized_of id w' = c_authorized c || accepted
  /\ (forall i, i <> id -> clients w' !! i = clients w !! i)
  /\ (forall n, n <> c_tx c -> runners w' !! n = runners w !! n).
Proof.
  intros Hn Hn' Hwf Hc Hr. cbv zeta. unfold cr_sched_answer.
  set (w1 := if accepted then _ else w).
  assert (Hw1 : clients w1 = clients w /\ runners w1 = runners w) by (subst w1; by destruct accepted).
  assert (Hs1 : sched w1 = if accepted then Sched.grant Sched.fine now st en hq label (sched w) else sched w)
    by (subst w1; by destruct accepted).
  assert (Hwf1 : Sched.wf_store (sched w1)) by (rewrite Hs1; destruct accepted; [by apply Sched.grant_wf | done]).
  assert (Hat : accepted = true -> match sched w1 with Some win => Sched.granted_at win = now | None => True end).
  { intros ->. rewrite Hs1. simpl. by apply Sched.granted_at_now. }
  clearbody w1. destruct Hw1 as [Hcl Hru].
  pose proof (status_same now' (sched w1) Hn' Hwf1) as Hst.
  destruct (Sched.status _ now' (sched w1)) as [o s]. destruct Hst as (-> & Hs & Hbound).
  simpl. rewrite Hcl, Hc. set (u := match s with Some _ => _ | None => _ end).
  assert (Hsched : (s = None \/ s = if accepted then Sched.grant Sched.fine now st en hq label (sched w) else sched w)
    /\ (forall win, s = Some win ->
          now' < Sched.end_ win <= Sched.granted_at win + Sched.MAX_WINDOW_SECS
          /\ (accepted = true -> Sched.granted_at win = now))).
  { split; [rewrite <- Hs1; done|]. intros win ->. split; [done|]. intros Ha. specialize (Hat Ha).
    destruct Hs as [?|Hs]; [done|]. by rewrite <- Hs in Hat. }
  destruct Hsched as [HA HB].
  destruct (c_authorized c) eqn:Hau; simpl.
  - split_and!; try done.
    + by rewrite lookup_alter_eq, Hru, Hr.
    + unfold authorized_of. simpl. by rewrite Hcl, Hc.
    + intros i _. by rewrite Hcl.
    + intros n Hne. by rewrite lookup_alter_ne, Hru.
  - destruct accepted; [unfold authorize | unfold close, tell]; simpl; rewrite Hcl, Hc; simpl; split_and!; try done.
    + rewrite !lookup_alter_eq, Hru, Hr. simpl. unfold enqueue, with_queue. simpl. by rewrite <- app_assoc.
    + unfold authorized_of. simpl. by rewrite lookup_insert_eq.
    + intros i Hi. by rewrite lookup_insert_ne, ?Hcl.
    + intros n Hne. by rewrite !lookup_alter_ne, Hru.
    + rewrite !lookup_alter_eq, Hru, Hr. simpl. unfold enqueue, with_queue. simpl. by rewrite <- app_assoc.
    + unfold authorized_of. simpl. by rewrite Hcl, Hc.
    + intros i Hi. by rewrite Hcl.
    + intros n Hne. by rewrite !lookup_alter_ne, Hru.
Qed.

(** C7: nothing the server says opens a window or lets a connection in.  In any
    run of the process the window's marker is the one it began with or the
    grant of an accepted card; a client is shown as authorised, and its clipboard
    files reach the customer's clipboard, only if the server logged it in as
    authorised, the accept button was pressed for it, or a card for it was
    accepted. *)
Theorem only_clicks_admit l s : let w := run l (init s) in
  (forall win, sched w = Some win -> s = Some win \/ exists a, In a l /\ granted a = Some win)
  /\ (forall id, authorized_of id w = true -> admitted l id)
  /\ (forall n id, In (ServerClip n id) (did w) -> admitted l id).
Proof.
  cbv zeta. split; [|split].
  - induction l as [|a l IH] using rev_ind; intros win; [by left|]. rewrite cm_run_snoc.
    intros [H|H]%sched_step.
    + destruct (IH _ H) as [?|(b & Hb & ?)]; [by left|]. right. exists b. rewrite in_app_iff. auto.
    + right. exists a. rewrite in_app_iff. simpl. auto.
  - intros id. unfold authorized_of. destruct (clients _ !! id) as [c|] eqn:Hc; [|done].
    by apply (ok_authorized _ _ _ (ok_run l s)).
  - apply (ok_clip _ _ _ (ok_run l s)).
Qed.

(** No connection is shown that is not there.  When the server logs every
    stream in once, with a positive number, a client listed as connected has a
    live task with its number, whatever order streams break, windows are
    clicked and messages arrive in. *)
Theorem listed_clients_are_live l s : all_along one_login l (init s) = true ->
  forall id c, clients (run l (init s)) !! id = Some c -> disconnected c = false ->
    0 < id /\ exists r, runners (run l (init s)) !! c_tx c = Some r /\ conn_id r = id.
Proof. intros H. by apply (ok_live _ _ _ (ok_run l s)). Qed.

(** What the server is told of a read job makes sense in order.  When
    [ReadFile] names no job still being read, then in what a task has sent, and
    in what it has sent and still queues, every digest, block and end is about a
    job whose reading was announced and has not ended; every job still being
    read is open in that sense, and no number is read twice at a time. *)
Theorem read_messages_in_order l s : all_along new_read_number l (init s) = true ->
  forall n, let w := run l (init s) in
  is_Some (follow ∅ (omap about (sent_by n (did w))))
  /\ forall r, runners w !! n = Some r ->
     NoDup (map job_id (read_jobs r))
     /\ exists open, follow ∅ (omap about (sent_by n (did w) ++ queue r)) = Some open
        /\ forall i, i ∈ map job_id (read_jobs r) -> i ∈ open.
Proof.
  intros H n w. pose proof (Reads_run l s H n) as HR. fold w in HR. unfold rd in HR.
  split; [by eapply reads_ok_prefix|]. intros r Hr. rewrite Hr in HR. rewrite omap_app. exact HR.
Qed.
End cm.

(** ** Concrete runs *)

(** Jobs of [t_left] blocks; a job may wait for a confirmation. *)
Record toy : Type := mkToy { t_id : Z; t_left : nat; t_waits : bool }.
Definition toy_set_waits (b : bool) (j : toy) : toy := mkToy (t_id j) (t_left j) b.
Definition toy_read (j : toy) : result (option FileTransferBlock) string * toy :=
  if t_waits j then (Ok None, j) else
  match t_left j with
  | O => (Ok None, j)
  | S k => (Ok (Some (mkBlock (t_id j) 0 (Z.of_nat k) false)), mkToy (t_id j) k false)
  end.
Definition toy_get (id : Z) (l : list toy) : option nat := fst <$> list_find (λ j, t_id j = id) l.
Definition toy_remove (id : Z) (l : list toy) : option toy * list toy :=
  match list_find (λ j, t_id j = id) l with Some (i, j) => (Some j, delete i l) | None => (None, l) end.

Lemma toy_get_spec id l : match toy_get id l with
  | Some i => exists j, l !! i = Some j /\ t_id j = id
  | None => forall j, In j l -> t_id j <> id
  end.
Proof.
  unfold toy_get. destruct (list_find _ l) as [[i j]|] eqn:E; simpl.
  - apply list_find_Some in E as (H & Hj & _). by exists j.
  - apply list_find_None in E. rewrite Forall_forall in E. intros j Hj. apply E. by apply list_elem_of_In.
Qed.
Lemma toy_remove_spec id l : match toy_remove id l with
  | (Some j, r) => l ≡ₚ j :: r /\ t_id j = id
  | (None, r) => r = l /\ forall j, In j l -> t_id j <> id
  end.
Proof.
  unfold toy_remove. destruct (list_find _ l) as [[i j]|] eqn:E; simpl.
  - apply list_find_Some in E as (H & Hj & _). split; [by apply delete_Permutation | done].
  - apply list_find_None in E. rewrite Forall_forall in E. split; [done|].
    intros j Hj. apply E. by apply list_elem_of_In.
Qed.

(** Every path leads to a file of two blocks; [fsys] says whether new jobs wait. *)
#[export] Program Instance ToyJobs : TransferJobs := {
  fsys := bool; job := toy; job_id := t_id; file_num := λ _, 0; files := λ _, ["a"%string];
  is_last_job := λ _, false; is_resume := λ _, false; job_completed := λ j, negb (t_waits j);
  job_error := λ _, None; new_write := λ id _ _ _, mkToy id 2 false; set_files := λ _ j, Ok j;
  set_total_size := λ _ j, j; set_conn_id := λ _ j, j; set_digest := λ _ _ j, j;
  confirm := λ _ _ j, toy_set_waits false j; write := λ _ _ j, (Ok tt, j);
  is_write_need_confirmation := λ _ _ _ _ _ _, Some (Ok NoSuchFile);
  new_read := λ s _ id _ _ _, Ok (mkToy id 2 s);
  init_data_stream_for_cm := λ _ j, (Ok None, j); read := λ _, toy_read;
  get_home := "C:"%string; get_path := λ p, p; read_dir_entries := λ _ p _, Some p;
  get_empty_dirs_recursive := λ _ p _, Some p; get_recursive_files := λ _ p _, Ok [p];
  write_to_bytes := λ _ p _, Ok p; fs_remove_file := λ _ _, Ok tt; fs_create_dir := λ _ _, Ok tt;
  fs_rename_file := λ _ _ _, Ok tt; fs_copy_path := λ _ _ _ _, Ok tt; fs_remove_dir := λ _ _, Ok tt;
  fs_remove_all_empty_dir := λ _ _, Ok tt; get_job := toy_get; remove_job := toy_remove;
  get_job_spec := toy_get_spec; remove_job_spec := toy_remove_spec;
}.
Next Obligation. done. Qed.
Next Obligation. done. Qed.
Next Obligation. by intros s p id n h o j [= <-]. Qed.
Next Obligation. done. Qed.
Next Obligation. intros s j. simpl. unfold toy_read. by repeat case_match. Qed.
Next Obligation.
  intros s j b. simpl. unfold toy_read. destruct (t_waits j); [discriminate|].
  destruct (t_left j); [discriminate|]. by intros [= <-].
Qed.

Definition mk_login (id : Z) : login :=
  mkLogin id false false false EmptyString "hq" EmptyString "900" true true true true true true true false.
Definition says (n : nat) (d : from_server) : action := Stream n (Some d) false true true true.

(** A technician asks, the card is accepted, a file is read and the stream breaks. *)
Definition demo : list action :=
  [Connect true; says 0 (SLogin (mk_login 7) false true); says 0 (SSchedReq 100 200 90 "today" false);
   Ui (UCard Sched.fine 50 50 7 true 100 200 90 "today"); Queue 0 true true; Queue 0 true true;
   says 0 (SClipboardFile true); says 0 (SFs (ReadFile "b" 1 0 false 7 false));
   Tick 0 false; Tick 0 false; Tick 0 false; Queue 0 true true; Queue 0 true true].

Example demo_window : Sched.end_ <$> sched (run "10" demo (init None)) = Some 160.
Proof. reflexivity. Qed.
Example demo_sent : sent_by 0 (did (run "10" demo (init None)))
  = [MonitorReady; MonitorReady; CrSchedResp true 160; Authorize; MonitorReady;
     ReadJobInitResult 1 0 false 7 (Ok "b"%string); FileBlockFromCM 1 0 1 false 7].
Proof. vm_compute. reflexivity. Qed.
(** The stream breaks: the client is gone. *)
Example demo_end : clients (run "10" (demo ++ [Stream 0 None false true true true]) (init None)) = ∅.
Proof. vm_compute. reflexivity. Qed.
(** A [Disconnected] before leaves it in the list, until the same peer returns. *)
Example demo_disconnected : let w := run "10" (demo ++ [says 0 SDisconnected]) (init None) in
  disconnected <$> (clients w !! 7) = Some true
  /\ clients (run "10" [Connect true; says 1 (SLogin (mk_login 8) false true)] w) !! 7 = None.
Proof. vm_compute. done. Qed.
(** A job that waits for a confirmation holds the ones behind it back: a round
    looks at the first job only. *)
Example waiting_job_blocks : let w := run "10" [Connect true; says 0 (SLogin (mk_login 7) true true);
    Stream 0 (Some (SFs (ReadFile "a" 1 0 false 7 true))) true true true true;
    says 0 (SFs (ReadFile "b" 2 0 false 7 false))] (init None) in
  (queue <$> (runners (run "10" (repeat (Tick 0 false) 20) w) !! 0%nat)) = (queue <$> (runners w !! 0%nat)).
Proof. vm_compute. reflexivity. Qed.

Lemma card_answer_witness : let w := run "10" (firstn 3 demo) (init None) in
  exists c r, clients w !! 7 = Some c /\ runners w !! c_tx c = Some r
  /\ authorized_of 7 (cr_sched_answer Sched.fine 50 50 7 true 100 200 90 "today" w) = true.
Proof.
  cbv zeta. remember (run "10" (firstn 3 demo) (init None)) as w eqn:Hw.
  destruct (clients w !! 7) as [c|] eqn:Hc; [|rewrite Hw in Hc; vm_compute in Hc; discriminate].
  assert (Ht : c_tx c = 0%nat) by (rewrite Hw in Hc; vm_compute in Hc; by injection Hc as <-).
  assert (Hwf : Sched.wf_store (sched w)) by by rewrite Hw.
  destruct (runners w !! c_tx c) as [r|] eqn:Hr; [|rewrite Ht, Hw in Hr; vm_compute in Hr; discriminate].
  exists c, r. split; [done|]. split; [done|].
  assert (Hclk : Sched.clock 50) by (unfold Sched.clock; lia).
  clear Hw. pose proof (card_answer 50 50 7 true 100 200 90 "today" w c r Hclk Hclk Hwf Hc Hr) as H.
  cbv zeta in H. rewrite (proj1 (proj2 (proj2 (proj2 H)))). apply orb_true_r.
Defined.

Lemma listed_clients_are_live_witness : all_along "10" one_login demo (init None) = true
  /\ exists r, runners (run "10" demo (init None)) !! 0%nat = Some r /\ conn_id r = 7.
Proof.
  split; [vm_compute; reflexivity|].
  destruct (clients (run "10" demo (init None)) !! 7) as [c|] eqn:Hc; [|exfalso; vm_compute in Hc; discriminate].
  assert (Hd : c_tx c = 0%nat /\ disconnected c = false) by (vm_compute in Hc; injection Hc as <-; done).
  destruct Hd as [Ht Hd]. assert (Hall : all_along "10" one_login demo (init None) = true) by (vm_compute; reflexivity).
  destruct (listed_clients_are_live "10" demo None Hall 7 c Hc Hd) as (_ & r & Hr & Hi).
  exists r. split; [by rewrite Ht in Hr | exact Hi].
Defined.

Lemma read_messages_in_order_witness : all_along "10" new_read_number demo (init None) = true
  /\ is_Some (follow ∅ (omap about (sent_by 0 (did (run "10" demo (init None)))))).
Proof.
  split; [vm_compute; reflexivity|].
  apply (read_messages_in_order "10" demo None); vm_compute; reflexivity.
Defined.
End Cm.
