(* ===== verification/Auth.v ===== *)
(** * The headquarters app's login ([src/src/chainremote_auth.rs])

    The technicians' app logs in at the administration panel, holds the token in
    memory, reports every few seconds, and keeps the records of the customers a
    technician connected to in a folder per account.

    HTTP, the JSON codecs ([serde_json]), the identity of the device and the
    outcome of file operations are the environment.  The heartbeat is two steps,
    before and after its request: logins, logouts and other heartbeats fall in
    between.  Error texts are constructors of [error]. *)

From Stdlib Require Import Ascii.
From S2P Require Import Prelude RustStr Store World.
Local Open Scope Z_scope.

Module Auth.

Definition DEFAULT_API_BASE : string := "https://api.626.kr".
Definition KEY_API_BASE : string := "chainremote-api-base".
Definition KEY_OWNER : string := "chainremote-peers-owner".

Record UserInfo : Type := mkUser {
  id : string; email : string; display_name : string; role : string; tenant_id : string;
  tenant_name : option string; greeting : option string;
}.
Record TokenResponse : Type := mkToken { token : string; expires_in : Z; user : UserInfo }.

Inductive LoginOutcome : Type :=
  | Success (u : UserInfo)
  | Occupied (device_label since : option string).
Inductive HeartbeatStatus : Type := HOk | Revoked | Expired | Error.

Inductive error : Type :=
  | NoInternet | NoServer               (** the two sentences of [friendly_net_error] *)
  | Raw (e : string)
  | BadResponse (e : string)
  | Server (message : string)
  | LoginFailed (status : Z) | TakeoverFailed (status : Z)
  | NotLoggedIn
  | PasswordFormat | PasswordWrong | ServerOutdated | ServerFailure | PasswordFailed.

(** ** The environment *)
Record header : Type := mkHeader { bearer : option string; json_content : bool }.
Abbreviation body := (list (string * string)).

Record env : Type := mkEnv {
  (** [http_request_sync]: the raw answer, or the error as [{:?}] shows it. *)
  http : nat -> string -> body -> header -> result string string;
  device_info : string * string;
  version : string;
  parse_wrapper : string -> result (Z * string) string;
  parse_token : string -> result TokenResponse string;
  parse_error : string -> option string;
  parse_occupied : string -> option (option string * option string);
  (** the bodies of a heartbeat's 200 and 401 *)
  parse_reissue : string -> option string;
  parse_revoked : string -> option bool;
  user_to_json : UserInfo -> string;
  (** a rename worked; what a removed folder leaves behind; a folder was made *)
  rename : nat -> string -> string -> bool;
  remove_dir_all : nat -> list string -> option (list string);
  create_dir_all : nat -> bool;
}.

(** The folders next to the configuration: [peers], and [peers-<tag>]. *)
Record folders : Type := mkFolders { live : option (list string); archived : gmap string (list string) }.

Record auth : Type := mkAuth {
  TOKEN : string;
  USER_JSON : string;
  EXPIRED_STREAK : Z;
  disk : folders;
}.

Inductive event : Type :=
  | Posted (path : string) (b : body) (h : header)
  | Spawned (path : string) (h : header)            (** sent by a thread nobody waits for *)
  | Renamed (from to : string) | Removed (folder : string) | Created (folder : string).

Section auth.
Context {C : Type} `{!LocalConfig C} (e : env).
Abbreviation state := (world C auth event).

Definition with_token (t : string) (a : auth) : auth := mkAuth t (USER_JSON a) (EXPIRED_STREAK a) (disk a).
Definition with_user (u : string) (a : auth) : auth := mkAuth (TOKEN a) u (EXPIRED_STREAK a) (disk a).
Definition with_streak (n : Z) (a : auth) : auth := mkAuth (TOKEN a) (USER_JSON a) n (disk a).
Definition with_disk (d : folders) (a : auth) : auth := mkAuth (TOKEN a) (USER_JSON a) (EXPIRED_STREAK a) d.
Definition with_live (l : option (list string)) (a : auth) : auth := with_disk (mkFolders l (archived (disk a))) a.
Definition with_archived (m : gmap string (list string)) (a : auth) : auth := with_disk (mkFolders (live (disk a)) m) a.

(** ** Configuration and credentials *)
Definition api_base (w : state) : string :=
  let v := get KEY_API_BASE w in
  let base := if is_empty (trim v) then DEFAULT_API_BASE else v in
  trim_end_char "/"%char base.
Definition set_api_base (url : string) (w : state) : state := put KEY_API_BASE (trim url) w.
Definition get_token (w : state) : string := TOKEN (st w).
Definition get_user_json (w : state) : string := USER_JSON (st w).
Definition is_authenticated (w : state) : bool := negb (is_empty (get_token w)).

Definition logout (w : state) : state :=
  let t := get_token w in
  let w := if is_empty t then w
           else log (Spawned (api_base w +:+ "/api/auth/logout") (mkHeader (Some t) true)) w in
  upd (with_user EmptyString) (upd (with_token EmptyString) w).

(** ** Requests *)
Definition friendly_net_error (raw : string) : error :=
  let low := to_ascii_lowercase raw in
  let dns := contains "dns error" low || contains "failed to lookup address" low
             || contains "nodename nor servname" low || contains "name or service not known" low in
  let unreachable := contains "connect" low || contains "timed out" low || contains "timeout" low
             || contains "unreachable" low || contains "refused" low in
  if negb (dns || unreachable) then Raw raw else if dns then NoInternet else NoServer.

(** [http_request_sync] and the wrapper it puts around the answer. *)
Definition request (path : string) (b : body) (h : header) (w : state) : result (Z * string) error * state :=
  let '(raw, w) := ask (λ n, http e n (api_base w +:+ path) b h) (Posted path b h) w in
  (match raw with
   | Err err => Err (friendly_net_error err)
   | Ok raw => match parse_wrapper e raw with Ok r => Ok r | Err err => Err (BadResponse err) end
   end, w).
Definition post_json (path : string) (b : body) (t : option string) : state -> result (Z * string) error * state :=
  request path b (mkHeader t true).

Definition success (status : Z) : bool := (200 <=? status) && (status <? 300).

(** ** The folders of records *)
Definition tag_char (c : ascii) : string :=
  let b := byte_of c in
  if is_ascii_digit c || ((65 <=? b) && (b <=? 90)) || ((97 <=? b) && (b <=? 122)) then String c EmptyString
  else if (128 <=? b) && (b <? 192) then EmptyString  (** inside a character of several bytes *)
  else "_".
Fixpoint peer_store_tag (owner : string) : string :=
  match owner with
  | EmptyString => EmptyString
  | String c r => tag_char c +:+ peer_store_tag r
  end.

(** The second half of [swap_peer_store]: the new account's folder comes back. *)
Definition restore_peers (next : string) (w : state) : state :=
  let t := peer_store_tag next in
  let make w := let '(ok, w) := ask (create_dir_all e) (Created "peers") w in
                match live (disk (st w)) with
                | None => if ok then upd (with_live (Some [])) w else w
                | Some _ => w
                end in
  match archived (disk (st w)) !! t with
  | Some d =>
      let '(ok, w) := ask (λ n, rename e n t "peers") (Renamed t "peers") w in
      if ok then upd (with_live (Some d)) (upd (λ a, with_archived (delete t (archived (disk a))) a) w) else make w
  | None => make w
  end.

Definition swap_peer_store (prev next : string) (w : state) : state :=
  let t := peer_store_tag prev in
  match live (disk (st w)) with
  | Some d =>
      let w := match archived (disk (st w)) !! t with
               | Some old =>
                   let '(rest, w) := ask (λ n, remove_dir_all e n old) (Removed t) w in
                   upd (λ a, with_archived (match rest with
                                            | None => delete t (archived (disk a))
                                            | Some l => <[t := l]> (archived (disk a))
                                            end) a) w
               | None => w
               end in
      let '(ok, w) := ask (λ n, rename e n "peers" t) (Renamed "peers" t) w in
      if ok then restore_peers next (upd (with_live None) (upd (λ a, with_archived (<[t := d]> (archived (disk a))) a) w))
      else w
  | None => restore_peers next w
  end.

Definition owner_of (u : UserInfo) : string := tenant_id u +:+ "|" +:+ email u.
Definition reset_peers_if_account_changed (u : UserInfo) (w : state) : state :=
  let owner := owner_of u in
  let prev := get KEY_OWNER w in
  if String.eqb prev owner then w else
  let w := if is_empty prev then w else swap_peer_store prev owner w in
  put KEY_OWNER owner w.

(** ** Login *)
Definition store (t : TokenResponse) (w : state) : state :=
  upd (with_user (user_to_json e (user t))) (upd (with_token (token t)) w).

Definition credentials (mail password : string) : body :=
  [("email", mail); ("password", password); ("deviceId", (device_info e).1); ("deviceLabel", (device_info e).2)].

(** A 2xx of [login] or [takeover]. *)
Definition accept (resp : string) (w : state) : result UserInfo error * state :=
  match parse_token e resp with
  | Err err => (Err (BadResponse err), w)
  | Ok t => (Ok (user t), reset_peers_if_account_changed (user t) (store t w))
  end.

Definition login (mail password : string) (w : state) : result LoginOutcome error * state :=
  let '(r, w) := post_json "/api/auth/token" (credentials mail password) None w in
  match r with
  | Err err => (Err err, w)
  | Ok (status, resp) =>
      if success status then
        let '(r, w) := accept resp w in (match r with Ok u => Ok (Success u) | Err err => Err err end, w)
      else if status =? 409 then
        let '(label, since) := match parse_occupied e resp with Some o => o | None => (None, None) end in
        (Ok (Occupied label since), w)
      else (Err (match parse_error e resp with Some m => Server m | None => LoginFailed status end), w)
  end.

Definition takeover (mail password : string) (w : state) : result UserInfo error * state :=
  let '(r, w) := post_json "/api/auth/takeover" (credentials mail password) None w in
  match r with
  | Err err => (Err err, w)
  | Ok (status, resp) =>
      if success status then accept resp w
      else (Err (match parse_error e resp with Some m => Server m | None => TakeoverFailed status end), w)
  end.

(** ** The heartbeat *)

(** Up to the request: the token it carries. *)
Definition heartbeat_begin (w : state) : option string :=
  let t := get_token w in if is_empty t then None else Some t.

(** From the answer on. *)
Definition heartbeat_end (r : result (Z * string) error) (w : state) : HeartbeatStatus * state :=
  match r with
  | Err _ => (Error, w)
  | Ok (status, resp) =>
      if success status then
        let w := upd (with_streak 0) w in
        match parse_reissue e resp with
        | Some t => (HOk, if is_empty t then w else upd (with_token t) w)
        | None => (HOk, w)
        end
      else if status =? 401 then
        if match parse_revoked e resp with Some true => true | _ => false end then (Revoked, w) else
        let streak := Int.wrap 32 (EXPIRED_STREAK (st w) + 1) in
        let w := upd (with_streak streak) w in
        if streak >=? 3 then (Expired, w) else (Error, w)
      else (Error, w)
  end.

Definition heartbeat_request (t : string) : state -> result (Z * string) error * state :=
  post_json "/api/auth/heartbeat" [("version", version e)] (Some t).

Definition heartbeat (w : state) : HeartbeatStatus * state :=
  match heartbeat_begin w with
  | None => (Error, w)
  | Some t => let '(r, w) := heartbeat_request t w in heartbeat_end r w
  end.

(** ** The password *)
Definition change_password (current new : string) (w : state) : result unit error * state :=
  let t := get_token w in
  if is_empty t then (Err NotLoggedIn, w) else
  let '(r, w) := request "/api/me/password" [("currentPassword", current); ("newPassword", new)]
                   (mkHeader (Some t) true) w in
  (match r with
   | Err err => Err err
   | Ok (status, resp) =>
       if success status then Ok tt else
       match parse_error e resp with
       | Some m => Err (Server m)
       | None => Err (if status =? 400 then PasswordFormat
                      else if (status =? 401) || (status =? 403) then PasswordWrong
                      else if status =? 404 then ServerOutdated
                      else if (500 <=? status) && (status <=? 599) then ServerFailure
                      else PasswordFailed)
       end
   end, w).

(** ** Runs: the login page, the heartbeats in flight and the visits *)
Definition visit (peer : string) (w : state) : state :=
  upd (λ a, with_live (Some (match live (disk a) with Some l => l | None => [] end ++ [peer])) a) w.

Inductive action : Type :=
  | ALogin (mail password : string) | ATakeover (mail password : string) | ALogout
  | ABegin | AEnd (k : nat)                     (** a heartbeat leaves; the [k]-th in flight is answered *)
  | AVisit (peer : string).

(** The world and the tokens of the heartbeats in flight. *)
Definition step (a : action) (p : state * list string) : state * list string :=
  let '(w, fl) := p in
  match a with
  | ALogin mail password => ((login mail password w).2, fl)
  | ATakeover mail password => ((takeover mail password w).2, fl)
  | ALogout => (logout w, fl)
  | ABegin => (w, match heartbeat_begin w with Some t => fl ++ [t] | None => fl end)
  | AEnd k =>
      match fl !! k with
      | Some t => let '(r, w) := heartbeat_request t w in ((heartbeat_end r w).2, delete k fl)
      | None => (w, fl)
      end
  | AVisit peer => (visit peer w, fl)
  end.
Definition run (l : list action) (p : state * list string) : state * list string := foldl (λ p a, step a p) p l.
Definition start (c : C) : state := mkWorld c (mkAuth EmptyString EmptyString 0 (mkFolders None ∅)) [].

(** ** Whose token it is *)

(** No heartbeat is in flight when the account may change. *)
Definition calm (a : action) (p : state * list string) : bool :=
  match a with
  | ALogin _ _ | ATakeover _ _ | ALogout => match p.2 with [] => true | _ => false end
  | _ => true
  end.
Fixpoint all_calm (l : list action) (p : state * list string) : bool :=
  match l with [] => true | a :: l => calm a p && all_calm l (step a p) end.

Section server.
(** What the panel promises: tokens belong to accounts. *)
Context (account_of : string -> string).
Hypothesis token_of_user : forall resp t, parse_token e resp = Ok t -> account_of (token t) = user_to_json e (user t).
Hypothesis reissue_same : forall n url b t raw status resp t',
  http e n url b (mkHeader (Some t) true) = Ok raw -> parse_wrapper e raw = Ok (status, resp) ->
  parse_reissue e resp = Some t' -> account_of t' = account_of t.

Definition matches (p : state * list string) : Prop :=
  (TOKEN (st p.1) = EmptyString \/ account_of (TOKEN (st p.1)) = USER_JSON (st p.1))
  /\ forall t, In t p.2 -> account_of t = USER_JSON (st p.1).

Lemma restore_credentials next w : TOKEN (st (restore_peers next w)) = TOKEN (st w)
  /\ USER_JSON (st (restore_peers next w)) = USER_JSON (st w).
Proof. unfold restore_peers, ask, log, upd. by repeat (case_match; simpl). Qed.
Lemma swap_credentials prev next w : TOKEN (st (swap_peer_store prev next w)) = TOKEN (st w)
  /\ USER_JSON (st (swap_peer_store prev next w)) = USER_JSON (st w).
Proof.
  unfold swap_peer_store, ask, log.
  destruct (live (disk (st w))); simpl; [|apply restore_credentials].
  destruct (archived (disk (st w)) !! _); simpl; (case_match; simpl; [|done]);
    rewrite (proj1 (restore_credentials _ _)), (proj2 (restore_credentials _ _)); done.
Qed.
Lemma reset_credentials u w : TOKEN (st (reset_peers_if_account_changed u w)) = TOKEN (st w)
  /\ USER_JSON (st (reset_peers_if_account_changed u w)) = USER_JSON (st w).
Proof.
  unfold reset_peers_if_account_changed. repeat case_match; simpl; [done | done | apply swap_credentials].
Qed.

Lemma request_st path b h w : st (request path b h w).2 = st w.
Proof. done. Qed.

Lemma accept_matches resp w fl : matches (w, fl) -> fl = [] -> matches ((accept resp w).2, fl).
Proof.
  intros Hm ->. unfold accept. destruct (parse_token e resp) as [t|] eqn:Ht; simpl; [|done].
  split; [|by intros ? []]. simpl.
  destruct (reset_credentials (user t) (store t w)) as [-> ->]. right. by apply token_of_user in Ht.
Qed.

Lemma login_matches mail password w : matches (w, []) -> matches ((login mail password w).2, []).
Proof.
  intros Hm. unfold login, post_json. destruct (request _ _ _ w) as [r w'] eqn:E.
  assert (Hw : matches (w', [])) by (apply (f_equal (st ∘ snd)) in E; simpl in E; destruct Hm; split; simpl in *; by rewrite <- E).
  destruct r as [[status resp]|]; [|done]. case_match.
  - destruct (accept resp w') as [r w2] eqn:Ea. change w2 with (r, w2).2. rewrite <- Ea.
    by apply accept_matches.
  - case_match; [|done]. by case_match.
Qed.
Lemma takeover_matches mail password w : matches (w, []) -> matches ((takeover mail password w).2, []).
Proof.
  intros Hm. unfold takeover, post_json. destruct (request _ _ _ w) as [r w'] eqn:E.
  assert (Hw : matches (w', [])) by (apply (f_equal (st ∘ snd)) in E; simpl in E; destruct Hm; split; simpl in *; by rewrite <- E).
  destruct r as [[status resp]|]; [|done]. case_match; [|done]. by apply accept_matches.
Qed.

Lemma end_matches t r w fl fl' : matches (w, fl) -> In t fl -> (forall t', In t' fl' -> In t' fl) ->
  (forall status resp t', r = Ok (status, resp) -> parse_reissue e resp = Some t' -> account_of t' = account_of t) ->
  matches ((heartbeat_end r w).2, fl').
Proof.
  intros [H1 H2] Ht Hfl Hr. unfold heartbeat_end. simpl in H1, H2.
  assert (Hm : matches (w, fl')) by (split; simpl; auto).
  destruct r as [[status resp]|]; [|done]. destruct (success status).
  - destruct (parse_reissue e resp) as [t'|] eqn:Ep; [|done].
    destruct (is_empty t'); [done|]. split; simpl; [|auto]. right.
    rewrite (Hr status resp t') by done. by apply H2.
  - by repeat (case_match; simpl).
Qed.

Lemma step_matches a p : calm a p = true -> matches p -> matches (step a p).
Proof.
  intros Hc Hm. destruct p as [w fl], a; cbn [step calm fst snd] in Hc |- *.
  - destruct fl; [|done]. by apply login_matches.
  - destruct fl; [|done]. by apply takeover_matches.
  - destruct fl; [|done]. split; [by left | by intros ? []].
  - unfold heartbeat_begin, get_token. destruct (is_empty (TOKEN (st w))) eqn:E; [done|].
    destruct Hm as [[H1|H1] H2]; simpl in *; [by rewrite H1 in E|]. split; [by right|].
    intros t. simpl. rewrite in_app_iff. simpl. intros [?|[<-|[]]]; auto.
  - destruct (fl !! k) as [t|] eqn:Hk; [|done].
    destruct (heartbeat_request t w) as [r w'] eqn:Er.
    assert (Hw : matches (w', fl)) by
      (apply (f_equal (st ∘ snd)) in Er; simpl in Er; destruct Hm; split; simpl in *; by rewrite <- Er).
    apply list_elem_of_lookup_2, list_elem_of_In in Hk as Hin. eapply end_matches; [exact Hw | exact Hin | |].
    + intros t' Ht'. apply list_elem_of_In. apply list_elem_of_In in Ht'. eapply elem_of_submseteq; [exact Ht'|].
      apply sublist_submseteq, sublist_delete.
    + intros status resp t' -> Hp. unfold heartbeat_request, post_json, request, ask in Er. simpl in Er.
      injection Er as Er _. case_match eqn:Eh; [|done]. case_match eqn:Ew; [|done]. injection Er as ->.
      by eapply reissue_same.
  - done.
Qed.

(** The token in memory is the shown user's.  When the panel hands out
    tokens and renews them for their own account, and no heartbeat is in flight
    while a login or a logout happens, then after any run of logins, takeovers,
    logouts, heartbeats and visits a token that is held belongs to the user that
    is shown, and so do those of the heartbeats in flight. *)
Theorem token_is_the_users l c : all_calm l (start c, []) = true -> matches (run l (start c, [])).
Proof.
  intros H. assert (Hm : matches (start c, [])) by (split; [by left | by intros ? []]).
  revert H Hm. generalize (start c, @nil string) as p. induction l as [|a l IH]; intros p; simpl; [done|].
  intros [Ha Hl]%andb_prop Hm. apply IH; [done|]. by apply step_matches.
Qed.
End server.

(** ** What a heartbeat answers *)
Abbreviation answer := (result (Z * string) error).
Definition is_2xx (r : answer) : bool := match r with Ok (s, _) => success s | Err _ => false end.
Definition plain_401 (r : answer) : bool :=
  match r with
  | Ok (s, resp) => (s =? 401) && negb (match parse_revoked e resp with Some true => true | _ => false end)
  | Err _ => false
  end.
(** The plain 401s since the last 2xx. *)
Definition unanswered (l : list answer) : Z := foldl (λ n r, if is_2xx r then 0 else if plain_401 r then n + 1 else n) 0 l.
Definition heartbeats (l : list answer) (w : state) : state := foldl (λ w r, (heartbeat_end r w).2) w l.

Lemma plain_not_2xx s resp : plain_401 (Ok (s, resp)) = true -> success s = false.
Proof. simpl. intros [H _]%andb_prop. apply Z.eqb_eq in H. by subst. Qed.

Lemma unanswered_bound l : 0 <= unanswered l <= Z.of_nat (length l).
Proof.
  unfold unanswered. induction l as [|r l IH] using rev_ind; [done|].
  rewrite foldl_app, length_app. simpl. repeat case_match; lia.
Qed.

Lemma streak_counts l w : EXPIRED_STREAK (st w) = 0 -> Z.of_nat (length l) < 2 ^ 32 ->
  EXPIRED_STREAK (st (heartbeats l w)) = unanswered l.
Proof.
  intros H0. unfold heartbeats, unanswered. induction l as [|r l IH] using rev_ind; intros Hlen; [done|].
  rewrite length_app in Hlen. simpl in Hlen. rewrite !foldl_app. simpl. specialize (IH ltac:(lia)).
  pose proof (unanswered_bound l) as Hb. unfold unanswered in Hb.
  set (w' := foldl _ w l) in *. set (n := foldl _ 0 l) in *. clearbody w' n.
  unfold heartbeat_end. destruct r as [[s resp]|]; simpl; [|done].
  destruct (success s) eqn:Es; simpl.
  { repeat (case_match; simpl); done. }
  destruct (s =? 401); simpl; [|done]. destruct (match parse_revoked e resp with Some true => true | _ => false end); simpl; [done|].
  rewrite IH, Int.wrap_small by (unfold Int.in_u; lia). by destruct (n + 1 >=? 3).
Qed.

(** The verdict of a heartbeat.  An answer says [Revoked] exactly when it
    is a 401 that says so, [HOk] exactly for a 2xx, and [Expired] exactly when it
    is a plain 401 after at least two others since the last 2xx; nothing but a
    2xx starts the count anew. *)
Theorem heartbeat_verdict l r w :
  EXPIRED_STREAK (st w) = 0 -> Z.of_nat (length l) < 2 ^ 32 - 1 ->
  (heartbeat_end r (heartbeats l w)).1
  = if is_2xx r then HOk
    else if plain_401 r then if 2 <=? unanswered l then Expired else Error
    else match r with Ok (s, _) => if s =? 401 then Revoked else Error | Err _ => Error end.
Proof.
  intros H0 Hlen. pose proof (streak_counts l w H0 ltac:(lia)) as Hs. pose proof (unanswered_bound l) as Hb.
  set (w' := heartbeats l w) in *. clearbody w'. unfold heartbeat_end. destruct r as [[s resp]|]; simpl; [|done].
  destruct (success s); simpl; [by repeat (case_match; simpl)|]. destruct (s =? 401); simpl; [|done].
  destruct (match parse_revoked e resp with Some true => true | _ => false end); simpl; [done|].
  rewrite Hs, Int.wrap_small by (unfold Int.in_u; lia).
  destruct (Z.leb_spec 2 (unanswered l)), (unanswered l + 1 >=? 3) eqn:E; bool_prop; try done; lia.
Qed.

(** ** Whose records are shown *)
Inductive use : Type := Switch (u : UserInfo) | Visit (peer : string).
Definition use_step (a : use) (w : state) : state :=
  match a with Switch u => reset_peers_if_account_changed u w | Visit p => visit p w end.
Definition uses (l : list use) (w : state) : state := foldl (λ w a, use_step a w) w l.

(** The contract: one list of records per account; what was there before the
    first login goes to the first account. *)
Record book : Type := mkBook { current : string; pages : gmap string (list string) }.
Definition book_step (a : use) (b : book) : book :=
  match a with
  | Switch u =>
      let o := owner_of u in
      if decide (current b = o) then b
      else if is_empty (current b) then
        mkBook o (match pages b !! EmptyString with Some l => {[o := l]} | None => ∅ end)
      else mkBook o (match pages b !! o with Some _ => pages b | None => <[o := []]> (pages b) end)
  | Visit p => mkBook (current b) (<[current b := default [] (pages b !! current b) ++ [p]]> (pages b))
  end.
Definition book_of (l : list use) : book := foldl (λ b a, book_step a b) (mkBook EmptyString ∅) l.

Section records.
(** File operations succeed. *)
Hypothesis rename_works : forall n a b, rename e n a b = true.
Hypothesis remove_works : forall n l, remove_dir_all e n l = None.
Hypothesis create_works : forall n, create_dir_all e n = true.

(** The files hold the book; [os] are the accounts in play. *)
Record holds (os : list string) (b : book) (w : state) : Prop := {
  h_marker : get KEY_OWNER w = current b;
  h_live : live (disk (st w)) = pages b !! current b;
  h_before : current b = EmptyString -> archived (disk (st w)) = ∅ /\ forall o, o <> EmptyString -> pages b !! o = None;
  h_own : current b <> EmptyString -> In (current b) os /\ archived (disk (st w)) !! peer_store_tag (current b) = None;
  h_others : current b <> EmptyString -> forall o, In o os -> o <> current b ->
    archived (disk (st w)) !! peer_store_tag o = pages b !! o;
}.

Definition apart (os : list string) : Prop :=
  forall a b, In a os -> In b os -> peer_store_tag a = peer_store_tag b -> a = b.

Lemma owner_nonempty u : owner_of u <> EmptyString.
Proof. unfold owner_of. destruct (tenant_id u); discriminate. Qed.

(** The second half brings the new account's page into [peers]. *)
Lemma restore_spec next w : live (disk (st w)) = None ->
  let w' := restore_peers next w in
  get KEY_OWNER w' = get KEY_OWNER w
  /\ live (disk (st w')) = Some (default [] (archived (disk (st w)) !! peer_store_tag next))
  /\ archived (disk (st w')) = delete (peer_store_tag next) (archived (disk (st w))).
Proof.
  intros Hl. unfold restore_peers, ask. destruct (archived (disk (st w)) !! peer_store_tag next) as [d|] eqn:E; simpl.
  - by rewrite rename_works.
  - rewrite Hl, create_works. simpl. by rewrite delete_id.
Qed.

Lemma holds_switch os b w u : apart os -> In (owner_of u) os -> holds os b w ->
  holds os (book_step (Switch u) b) (reset_peers_if_account_changed u w).
Proof.
  intros Hap Hin [Hm Hl Hb Ho Hr]. unfold reset_peers_if_account_changed. simpl. rewrite Hm.
  set (o := owner_of u) in *. assert (Hne : o <> EmptyString) by apply owner_nonempty.
  destruct (decide (current b = o)) as [Heq|Hdiff].
  { rewrite Heq, String.eqb_refl. split; try done; by rewrite ?Heq in *. }
  rewrite (proj2 (String.eqb_neq _ _)) by done.
  destruct (is_empty (current b)) eqn:Ee.
  - assert (He : current b = EmptyString) by by destruct (current b).
    destruct (Hb He) as [Ha Hp]. split; simpl; try (by intros ?); rewrite ?get_put_eq; try done.
    + rewrite Hl, He. destruct (pages b !! EmptyString); by simplify_map_eq.
    + intros _. split; [done|]. by rewrite Ha.
    + intros _ o' _ Hd. rewrite Ha, lookup_empty. destruct (pages b !! EmptyString); [|done].
      by rewrite lookup_singleton_ne.
  - assert (He : current b <> EmptyString) by by destruct (current b).
    destruct (Ho He) as [Hcin Hcar]. specialize (Hr He). set (t := peer_store_tag (current b)) in *.
    assert (Htag : peer_store_tag o <> t) by (intros H; by apply Hdiff, Hap).
    (* the world when the second half begins *)
    assert (Hw : exists w0, swap_peer_store (current b) o w = restore_peers o w0
      /\ live (disk (st w0)) = None /\ get KEY_OWNER w0 = get KEY_OWNER w
      /\ archived (disk (st w0)) !! t = pages b !! current b
      /\ forall k, k <> t -> archived (disk (st w0)) !! k = archived (disk (st w)) !! k).
    { unfold swap_peer_store. rewrite Hl. fold t. destruct (pages b !! current b) as [d|] eqn:Ed.
      - rewrite Hcar. unfold ask. cbn [fst snd]. rewrite rename_works. eexists. split; [reflexivity|]. simpl.
        split_and!; try done; [by rewrite lookup_insert_eq|]. intros k Hk. by rewrite lookup_insert_ne.
      - exists w. by rewrite Hl, Hcar. }
    destruct Hw as (w0 & -> & Hl0 & Hk0 & Ht0 & Hoth).
    destruct (restore_spec o w0 Hl0) as (Hk1 & Hl1 & Ha1).
    assert (Hpo : archived (disk (st w0)) !! peer_store_tag o = pages b !! o) by (rewrite Hoth by done; by apply Hr).
    set (pg := match pages b !! o with Some _ => _ | None => _ end).
    assert (Hpg : forall o', pg !! o' = if decide (o' = o) then Some (default [] (pages b !! o)) else pages b !! o').
    { intros o'. subst pg. destruct (pages b !! o) as [x|] eqn:Ex; case_decide as Ed; subst; try done.
      - by rewrite lookup_insert_eq.
      - by rewrite lookup_insert_ne. }
    split; simpl; rewrite ?get_put_eq; try done.
    + rewrite Hl1, Hpg, decide_True, Hpo by done. done.
    + intros _. split; [done|]. by rewrite Ha1, lookup_delete_eq.
    + intros _ o' Ho' Hd. rewrite Ha1, Hpg, decide_False by done.
      rewrite lookup_delete_ne by (intros H; apply Hd; symmetry; by apply Hap).
      destruct (decide (o' = current b)) as [->|Hd']; [done|].
      rewrite Hoth by (intros H; by apply Hd', Hap). by apply Hr.
Qed.

Lemma holds_visit os b w p : holds os b w -> holds os (book_step (Visit p) b) (visit p w).
Proof.
  intros [Hm Hl Hb Ho Hr]. split; simpl; try done.
  - rewrite lookup_insert_eq, Hl. by destruct (pages b !! current b).
  - intros He. destruct (Hb He) as [Ha Hp]. split; [done|]. intros o H. rewrite lookup_insert_ne by congruence. auto.
  - intros He o Hin Hd. rewrite lookup_insert_ne by done. by apply Hr.
Qed.

Definition accounts (l : list use) : list string := omap (λ a, match a with Switch u => Some (owner_of u) | Visit _ => None end) l.

(** C27: the records of an account are shown to that account only, and come
    back.  When every file operation succeeds, no two accounts in play share a
    folder name, and no owner is recorded at the start, then after any sequence of logins and visits the [peers] folder
    holds exactly the records made under the account that is logged in, in all
    its stays, the marker names that account, and every other account's records
    wait in its own folder. *)
Theorem records_follow_account l c : get_option KEY_OWNER c = EmptyString -> apart (accounts l) ->
  holds (accounts l) (book_of l) (uses l (start c)).
Proof.
  intros Hc Hap. set (os := accounts l) in *.
  assert (H : forall l', (forall o, In o (accounts l') -> In o os) -> holds os (book_of l') (uses l' (start c))).
  { intros l'. unfold uses, book_of. induction l' as [|a l' IH] using rev_ind; intros Hin.
    - split; simpl; try done; by rewrite lookup_empty.
    - rewrite !foldl_app. simpl. unfold accounts in Hin. rewrite omap_app in Hin.
      assert (Hl : holds os (foldl (λ b a, book_step a b) (mkBook EmptyString ∅) l') (uses l' (start c))).
      { apply IH. intros o Ho. apply Hin. rewrite in_app_iff. by left. }
      destruct a as [u|p]; [|by apply holds_visit].
      apply holds_switch; [done| |done]. apply Hin. rewrite in_app_iff. right. by left. }
  by apply H.
Qed.
End records.
End auth.

(** ** Concrete runs *)

(** A panel whose tokens are [tok-] and the mail address, and which renews a
    token by itself; [bad] lists the renames that fail. *)
Definition toy_user (mail : string) : UserInfo := mkUser "1" mail "n" "staff" "T" None None.
Definition toy_env (bad : list (string * string)) : env := mkEnv
  (λ _ _ b h, Ok (match bearer h with
                  | Some t => t
                  | None => match b with (_, mail) :: _ => mail | [] => EmptyString end
                  end))
  ("device", "label") "1.4.0" (λ raw, Ok (200, raw)) (λ resp, Ok (mkToken ("tok-" +:+ resp) 0 (toy_user resp)))
  (λ _, None) (λ _, None) Some (λ _, Some false) email
  (λ _ a b, negb (existsb (λ x, String.eqb x.1 a && String.eqb x.2 b) bad)) (λ _ _, None) (λ _, true).
Abbreviation toy_cfg := (gmap string string).
Definition toy_account (t : string) : string := default EmptyString (strip_prefix "tok-" t).

Definition session : list action := [ALogin "ann" "x"; ABegin; AEnd 0; AVisit "100"; ALogout; ALogin "bob" "y"; ABegin].

Lemma token_is_the_users_witness : all_calm (toy_env []) session (start (∅ : toy_cfg), []) = true
  /\ matches toy_account (run (toy_env []) session (start (∅ : toy_cfg), [])).
Proof.
  split; [vm_compute; reflexivity|].
  apply (token_is_the_users (toy_env []) toy_account).
  - intros resp t H. injection H as <-. reflexivity.
  - intros n url b t raw status resp t' H1 H2 H3. simpl in *. congruence.
  - vm_compute. reflexivity.
Defined.

(** A heartbeat in flight brings the token back after the logout, or puts the
    old account's token under the next one. *)
Example token_returns_after_logout :
  is_authenticated (run (toy_env []) [ALogin "ann" "x"; ABegin; ALogout; AEnd 0] (start (∅ : toy_cfg), [])).1 = true.
Proof. vm_compute. reflexivity. Qed.
Example token_of_another_account :
  let w := (run (toy_env []) [ALogin "ann" "x"; ABegin; ALogout; ALogin "bob" "y"; AEnd 0] (start (∅ : toy_cfg), [])).1 in
  get_token w = "tok-ann" /\ get_user_json w = "bob".
Proof. vm_compute. done. Qed.

Definition plain : result (Z * string) error := Ok (401, EmptyString).
Lemma heartbeat_verdict_witness :
  EXPIRED_STREAK (st (start (∅ : toy_cfg))) = 0
  /\ (heartbeat_end (toy_env []) plain (heartbeats (toy_env []) [plain; Err NoServer; plain] (start (∅ : toy_cfg)))).1 = Expired.
Proof.
  split; [reflexivity|].
  rewrite (heartbeat_verdict (toy_env []) [plain; Err NoServer; plain] plain (start (∅ : toy_cfg))); [|reflexivity|vm_compute; reflexivity].
  vm_compute. reflexivity.
Defined.
(** The count outlives a login: the first stray 401 of the new session expires it. *)
Example streak_survives_login :
  let w := heartbeats (toy_env []) [plain; plain; plain] (start (∅ : toy_cfg)) in
  let w := (login (toy_env []) "ann" "x" (logout w)).2 in
  (heartbeat_end (toy_env []) plain w).1 = Expired.
Proof. vm_compute. reflexivity. Qed.

Definition shown (w : world toy_cfg auth event) : option (list string) := live (disk (st w)).
Definition days : list use := [Switch (toy_user "ann"); Visit "100"; Switch (toy_user "bob"); Visit "200"; Switch (toy_user "ann")].
Lemma records_follow_account_witness : apart (accounts days) /\ shown (uses (toy_env []) days (start ∅)) = Some ["100"].
Proof.
  assert (Hap : apart (accounts days)).
  { intros a b. unfold accounts. simpl. intros [<-|[<-|[<-|[]]]] [<-|[<-|[<-|[]]]]; vm_compute; congruence. }
  split; [exact Hap|]. unfold shown.
  assert (H : holds (accounts days) (book_of days) (uses (toy_env []) days (start ∅))).
  { apply records_follow_account; try reflexivity. exact Hap. }
  rewrite (h_live _ _ _ H). vm_compute. reflexivity.
Defined.

(** Two addresses that differ in a sign share a folder: the second account is
    shown the first one's records. *)
Example shared_folder :
  shown (uses (toy_env []) [Switch (toy_user "a.n"); Visit "100"; Switch (toy_user "a_n")] (start ∅)) = Some ["100"].
Proof. vm_compute. reflexivity. Qed.
(** The records cannot be put away, but the marker names the new account: they
    are shown to it from then on. *)
Example stuck_records_change_owner :
  let w := uses (toy_env [("peers", "T_ann")]) [Switch (toy_user "ann"); Visit "100"; Switch (toy_user "bob")] (start ∅) in
  shown w = Some ["100"] /\ get KEY_OWNER w = "T|bob".
Proof. vm_compute. done. Qed.
(** The records cannot be brought back once: they are deleted at the next change. *)
Example lost_records :
  let w := uses (toy_env []) [Switch (toy_user "ann"); Visit "100"; Switch (toy_user "bob")] (start ∅) in
  let w := uses (toy_env [("T_ann", "peers")]) [Switch (toy_user "ann")] w in
  let w := uses (toy_env []) [Switch (toy_user "bob"); Switch (toy_user "ann")] w in
  shown w = Some [].
Proof. vm_compute. done. Qed.
End Auth.
