(* ===== verification/Data.v ===== *)
(** * The customer lists of the headquarters app ([src/src/chainremote_data.rs])

    The app fetches the customers and the technician's favourites from the panel,
    keeps caches of them, asks for changes, and reports the remote sessions.  A
    call is one step of a state; a run is any sequence of calls, by the window,
    by its background threads and by the connections.

    The login is [Auth]'s state at the moment of the call; HTTP, the JSON codecs
    and the stored peer configurations are the environment. *)

From Stdlib Require Import Ascii.
From S2P Require Import Prelude RustStr Store World Auth.
Local Open Scope Z_scope.

Module Data.

(** ** JSON *)
Inductive json : Type :=
  | JNull | JBool (b : bool) | JStr (s : string) | JNum (n : Z) | JArr (l : list json) | JObj (kv : list (string * json)).
Definition jget (k : string) (j : json) : option json :=
  match j with
  | JObj kv => match find (λ x, String.eqb x.1 k) kv with Some x => Some x.2 | None => None end
  | _ => None
  end.
Definition as_str (j : json) : option string := match j with JStr s => Some s | _ => None end.
Definition as_bool (j : json) : option bool := match j with JBool b => Some b | _ => None end.
(** [v.get(k).and_then(|s| s.as_str())] of a parsed text. *)
Definition str_field (k : string) (v : option json) : option string :=
  match v with Some j => match jget k j with Some x => as_str x | None => None end | None => None end.

(** ** Rows *)
Record CustomerRow : Type := mkRow {
  id : string; remote_id : option string; name : string;
  contact_name : option string; address : option string; notes : option string;
  enroll_status : option string; assigned_user_id : option string;
  arch : option string; os : option string; os_bits : option string;
  disk_total_bytes : option Z; disk_free_bytes : option Z; temp_bytes : option Z;
  firewall_control : option bool; van_watch : option string; van_ok : option bool;
  van_gave_up : option bool; van_missing : option bool;
  upnp_endpoint : option string; folder_name : option string;
  sched_open_until : option string; sched_close_requested_at : option string;
}.
Record FavoriteRow : Type := mkFav { f_remote_id : string; customer : option CustomerRow }.

Definition or_empty (o : option string) : string := match o with Some s => s | None => EmptyString end.
Definition yes (b : option bool) : string := match b with Some true => "Y" | _ => EmptyString end.
Definition shown_number (n : option Z) : string :=
  match n with
  | Some z => if z <? 0 then "-" +:+ to_string (- z) else to_string z
  | None => EmptyString
  end.

Definition customer_to_peer_json (c : CustomerRow) (with_marker : bool) : option json :=
  match remote_id c with
  | None => None
  | Some rid =>
      if is_empty (trim rid) then None else
      let is_pending := match enroll_status c with Some s => String.eqb s "pending" | None => false end in
      let is_unassigned := is_empty (trim (or_empty (assigned_user_id c))) in
      let alias := if with_marker && is_pending then "⏳ " +:+ name c
                   else if with_marker && is_unassigned then "🆕 " +:+ name c
                   else name c in
      let hostname := match contact_name c with Some s => s | None => or_empty (address c) end in
      Some (JObj
        [("id", JStr rid); ("hash", JStr EmptyString); ("password", JStr EmptyString); ("username", JStr EmptyString);
         ("hostname", JStr hostname); ("platform", JStr "Windows"); ("alias", JStr alias); ("tags", JArr []);
         ("forceAlwaysRelay", JStr "false"); ("rdpPort", JStr EmptyString); ("rdpUsername", JStr EmptyString);
         ("loginName", JStr EmptyString); ("device_group_name", JStr (or_empty (folder_name c)));
         ("note", JStr (or_empty (notes c))); ("same_server", JNull);
         ("enrollStatus", JStr (or_empty (enroll_status c))); ("arch", JStr (or_empty (arch c)));
         ("os", JStr (or_empty (os c))); ("osBits", JStr (or_empty (os_bits c)));
         ("schedOpenUntil", JStr (or_empty (sched_open_until c)));
         ("schedCloseRequestedAt", JStr (or_empty (sched_close_requested_at c)));
         ("diskTotal", JStr (shown_number (disk_total_bytes c))); ("diskFree", JStr (shown_number (disk_free_bytes c)));
         ("tempBytes", JStr (shown_number (temp_bytes c)));
         ("firewallControl", JStr (yes (firewall_control c))); ("vanWatch", JStr (or_empty (van_watch c)));
         ("vanOk", JStr (match van_ok c with Some true => "Y" | Some false => "N" | None => EmptyString end));
         ("vanGaveUp", JStr (yes (van_gave_up c))); ("vanMissing", JStr (yes (van_missing c)))])
  end.

Definition orphan_peer_json (alias remote : string) : json :=
  JObj
    [("id", JStr remote); ("hash", JStr EmptyString); ("password", JStr EmptyString); ("username", JStr EmptyString);
     ("hostname", JStr EmptyString); ("platform", JStr "Windows"); ("alias", JStr alias); ("tags", JArr []);
     ("forceAlwaysRelay", JStr "false"); ("rdpPort", JStr EmptyString); ("rdpUsername", JStr EmptyString);
     ("loginName", JStr EmptyString); ("device_group_name", JStr EmptyString); ("note", JStr EmptyString);
     ("same_server", JNull)].

(** ** The environment and the state *)
Record env : Type := mkEnv {
  http_request_sync : nat -> string -> string -> string -> result string string;  (** url, method, token *)
  post_request_status_sync : nat -> string -> json -> string -> result (Z * string) string;
  parse_wrapper : string -> option (Z * string);
  parse_customers : string -> option (list CustomerRow);
  parse_favorites : string -> option (list FavoriteRow);
  parse_value : string -> option json;
  (** [PeerConfig]: the host name and the local alias *)
  peer_config : nat -> string -> string * option string;
}.

Abbreviation names := (gmap string string).
Record data : Type := mkData {
  REMOTE_TO_UUID : option names;
  MY_FAV_REMOTE_IDS : option (gset string);
  REMOTE_TO_NAME : option names;
  UPNP_ENDPOINTS : option names;
  CONN_DIRECT : option (gmap string bool);
  SCHED_SESSION : option (gmap string bool);
  SID_TO_PEER : option names;
}.
Definition init : data := mkData None None None None None None None.

Inductive event : Type :=
  | Asked (url method token : string) | Posted (url : string) (b : json) (token : string)
  | Pushed (name : string) (peers : list json) | PushedError (name : string)
  | ReloadedRecent | SpawnedRefresh | Slept.

Section data.
Context {C : Type} `{!LocalConfig C} (e : env).
Abbreviation login := (world C Auth.auth Auth.event).
Abbreviation state := (world C data event).
Implicit Types (a : login) (w : state).

Definition set_uuid m (d : data) := mkData m (MY_FAV_REMOTE_IDS d) (REMOTE_TO_NAME d) (UPNP_ENDPOINTS d) (CONN_DIRECT d) (SCHED_SESSION d) (SID_TO_PEER d).
Definition set_fav m (d : data) := mkData (REMOTE_TO_UUID d) m (REMOTE_TO_NAME d) (UPNP_ENDPOINTS d) (CONN_DIRECT d) (SCHED_SESSION d) (SID_TO_PEER d).
Definition set_names m (d : data) := mkData (REMOTE_TO_UUID d) (MY_FAV_REMOTE_IDS d) m (UPNP_ENDPOINTS d) (CONN_DIRECT d) (SCHED_SESSION d) (SID_TO_PEER d).
Definition set_upnp m (d : data) := mkData (REMOTE_TO_UUID d) (MY_FAV_REMOTE_IDS d) (REMOTE_TO_NAME d) m (CONN_DIRECT d) (SCHED_SESSION d) (SID_TO_PEER d).
Definition set_direct m (d : data) := mkData (REMOTE_TO_UUID d) (MY_FAV_REMOTE_IDS d) (REMOTE_TO_NAME d) (UPNP_ENDPOINTS d) m (SCHED_SESSION d) (SID_TO_PEER d).
Definition set_sched m (d : data) := mkData (REMOTE_TO_UUID d) (MY_FAV_REMOTE_IDS d) (REMOTE_TO_NAME d) (UPNP_ENDPOINTS d) (CONN_DIRECT d) m (SID_TO_PEER d).
Definition set_sid m (d : data) := mkData (REMOTE_TO_UUID d) (MY_FAV_REMOTE_IDS d) (REMOTE_TO_NAME d) (UPNP_ENDPOINTS d) (CONN_DIRECT d) (SCHED_SESSION d) m.

(** [m.lock().as_ref()?.get(k).cloned()] and [get_or_insert_with(..)] *)
Definition oget {V} (m : option (gmap string V)) (k : string) : option V :=
  match m with Some m => m !! k | None => None end.
Definition oinsert {V} (m : option (gmap string V)) (k : string) (v : V) : option (gmap string V) :=
  Some (<[k := v]> (match m with Some m => m | None => ∅ end)).

Arguments oget : simpl never.
Arguments oinsert : simpl never.

(** ** Caches *)
Definition update_remote_to_uuid (rows : list CustomerRow) : state -> state :=
  upd (set_uuid (Some (foldl (λ m c, match remote_id c with
                                     | Some rid => if is_empty rid then m else <[rid := id c]> m
                                     | None => m
                                     end) ∅ rows))).
Definition remote_to_uuid (rid : string) w : option string := oget (REMOTE_TO_UUID (st w)) rid.

Definition merge_remote_names (rows : list CustomerRow) : state -> state :=
  upd (λ d, set_names (Some (foldl (λ m c, match remote_id c with
                                           | Some rid => if negb (is_empty rid) && negb (is_empty (trim (name c)))
                                                         then <[rid := name c]> m else m
                                           | None => m
                                           end) (match REMOTE_TO_NAME d with Some m => m | None => ∅ end) rows)) d).
Definition get_remote_name (rid : string) w : option string := oget (REMOTE_TO_NAME (st w)) rid.

Definition remember_upnp_endpoints (rows : list CustomerRow) : state -> state :=
  upd (set_upnp (Some (foldl (λ m c, match remote_id c, upnp_endpoint c with
                                     | Some rid, Some ep => if is_empty ep then m else <[rid := ep]> m
                                     | _, _ => m
                                     end) ∅ rows))).
Definition upnp_endpoint_of (rid : string) w : string := or_empty (oget (UPNP_ENDPOINTS (st w)) rid).

(** ** Requests *)

(** [token.replace] of the quotation mark *)
Fixpoint without_quotes (s : string) : string :=
  match s with
  | EmptyString => EmptyString
  | String c r => if Ascii.eqb c (ascii_of_N 34) then without_quotes r else String c (without_quotes r)
  end.
Definition unwrap_body (raw : string) : string :=
  match parse_wrapper e raw with Some (_, b) => b | None => raw end.

Definition authed_get a (path : string) w : result string string * state :=
  let token := Auth.get_token a in
  if is_empty token then (Err "no token", w) else
  let url := Auth.api_base a +:+ path in
  let t := without_quotes token in
  let '(r, w) := ask (λ n, http_request_sync e n url "GET" t) (Asked url "GET" t) w in
  (match r with Ok raw => Ok (unwrap_body raw) | Err x => Err x end, w).

Definition http_error (status : Z) (text : string) : string := "HTTP " +:+ to_string status +:+ ": " +:+ text.

Definition authed_post a (path : string) (b : json) w : result string string * state :=
  let token := Auth.get_token a in
  if is_empty token then (Err "no token", w) else
  let url := Auth.api_base a +:+ path in
  let '(r, w) := ask (λ n, post_request_status_sync e n url b token) (Posted url b token) w in
  (match r with
   | Ok (status, text) => if Auth.success status then Ok text else Err (http_error status text)
   | Err x => Err x
   end, w).

Definition authed_delete a (path : string) w : result string string * state :=
  let token := Auth.get_token a in
  if is_empty token then (Err "no token", w) else
  let url := Auth.api_base a +:+ path in
  let t := without_quotes token in
  let '(r, w) := ask (λ n, http_request_sync e n url "DELETE" t) (Asked url "DELETE" t) w in
  (match r with
   | Err x => Err x
   | Ok raw => match parse_wrapper e raw with
               | Some (status, body) => if Auth.success status then Ok body else Err (http_error status body)
               | None => Ok raw
               end
   end, w).

(** ** Fetching *)
Definition fetch_customers_blocking a w : bool * state :=
  let '(r, w) := authed_get a "/api/customers" w in
  match r with
  | Err _ => (false, w)
  | Ok inner =>
      match parse_customers e inner with
      | None => (false, w)
      | Some rows =>
          let w := merge_remote_names rows (remember_upnp_endpoints rows (update_remote_to_uuid rows w)) in
          let peers := omap (λ c, customer_to_peer_json c true) rows in
          (true, log ReloadedRecent (log (Pushed "load_all_customers" peers) w))
      end
  end.

Definition fav_ids (favorites : list FavoriteRow) : gset string :=
  list_to_set (List.filter (λ r, negb (is_empty r)) (map f_remote_id favorites)).
Definition fav_peer (n : nat) (f : FavoriteRow) : option json :=
  match customer f with
  | Some c => customer_to_peer_json c false
  | None => Some (orphan_peer_json (or_empty (peer_config e n (f_remote_id f)).2) (f_remote_id f))
  end.

Definition fetch_favorites_blocking a w : bool * state :=
  let '(r, w) := authed_get a "/api/me/favorites" w in
  match r with
  | Err _ => (false, w)
  | Ok inner =>
      match parse_favorites e inner with
      | None => (false, w)
      | Some favorites =>
          let w := upd (set_fav (Some (fav_ids favorites))) w in
          let mapped := omap customer favorites in
          let w := merge_remote_names mapped (remember_upnp_endpoints mapped (update_remote_to_uuid mapped w)) in
          (true, log (Pushed "load_fav_peers" (omap (fav_peer (clk w)) favorites)) w)
      end
  end.

(** [spawn_warm_with_retry]: [left] attempts are left of ten. *)
Fixpoint warm (name : string) (f : state -> bool * state) (left : nat) w : state :=
  match left with
  | O => log (PushedError name) w
  | S k =>
      let '(ok, w) := f w in
      if ok then log (PushedError EmptyString) w
      else warm name f k (match k with O => w | S _ => log Slept w end)
  end.
Definition spawn_warm_with_retry (name : string) (f : state -> bool * state) : state -> state := warm name f 10.

(** ** Changes *)
Definition add_favorite_blocking a (rid : string) w : bool * state :=
  let '(hostname, alias) := peer_config e (clk w) rid in
  let b := JObj [("remoteId", JStr rid); ("hostname", JStr hostname); ("alias", JStr (or_empty alias))] in
  let '(r, w) := authed_post a "/api/me/favorites" b w in
  match r with
  | Ok _ =>
      let w := upd (λ d, set_fav (Some ({[rid]} ∪ match MY_FAV_REMOTE_IDS d with Some m => m | None => ∅ end)) d) w in
      (true, (fetch_favorites_blocking a w).2)
  | Err _ => (false, w)
  end.

Definition remove_favorite_blocking a (rid : string) w : bool * state :=
  let '(r, w) := authed_delete a ("/api/me/favorites/" +:+ rid) w in
  match r with
  | Ok _ =>
      let w := upd (λ d, set_fav (match MY_FAV_REMOTE_IDS d with Some m => Some (m ∖ {[rid]}) | None => None end) d) w in
      (true, (fetch_favorites_blocking a w).2)
  | Err _ => (false, w)
  end.

Definition get_my_favorite_remote_ids w : gset string :=
  match MY_FAV_REMOTE_IDS (st w) with Some m => m | None => ∅ end.

(** A posted request for one customer, followed by a fetch of the list. *)
Definition post_then_fetch (path : string) a (rid : string) w : bool * state :=
  let '(r, w) := authed_post a path (JObj [("remoteId", JStr rid)]) w in
  match r with
  | Ok _ => (true, (fetch_customers_blocking a w).2)
  | Err _ => (false, w)
  end.
Definition confirm_customer_blocking := post_then_fetch "/api/customers/confirm".
Definition request_sched_close_blocking := post_then_fetch "/api/customers/sched-close".

Definition panel_ticket_url_blocking a w : string * state :=
  let base := Auth.api_base a in
  if is_empty base then (EmptyString, w) else
  let '(r, w) := authed_post a "/api/auth/panel-ticket" (JObj []) w in
  (match r with
   | Ok text =>
       match str_field "ticket" (parse_value e text) with
       | Some t => if is_empty t then EmptyString else base +:+ "/auth/ticket?t=" +:+ t
       | None => EmptyString
       end
   | Err _ => EmptyString
   end, w).

Definition rename_customer_blocking a (payload : string) w : bool * state :=
  match parse_value e payload with
  | None => (false, w)
  | Some v =>
      let rid := or_empty (str_field "remoteId" (Some v)) in
      let name := trim (or_empty (str_field "name" (Some v))) in
      if is_empty rid || is_empty name then (false, w) else
      let '(r, w) := authed_post a "/api/customers/rename" (JObj [("remoteId", JStr rid); ("name", JStr name)]) w in
      match r with
      | Ok resp =>
          let ok := match parse_value e resp with
                    | Some j => match jget "ok" j with
                                | Some x => match as_bool x with Some b => b | None => false end
                                | None => false
                                end
                    | None => false
                    end in
          (ok, if ok then log SpawnedRefresh w else w)
      | Err _ => (false, w)
      end
  end.
(** The thread it spawns. *)
Definition refresh a w : state := (fetch_favorites_blocking a (fetch_customers_blocking a w).2).2.

(** ** Reports of remote sessions *)
Definition note_conn_direct (peer : string) (direct : bool) : state -> state :=
  upd (λ d, set_direct (oinsert (CONN_DIRECT d) peer direct) d).
Definition take_conn_direct (peer : string) w : option bool * state :=
  (oget (CONN_DIRECT (st w)) peer, upd (λ d, set_direct (delete peer <$> CONN_DIRECT d) d) w).
Definition note_sched_session (peer : string) : state -> state :=
  upd (λ d, set_sched (oinsert (SCHED_SESSION d) peer true) d).
Definition take_sched_session (peer : string) w : option bool * state :=
  (oget (SCHED_SESSION (st w)) peer, upd (λ d, set_sched (delete peer <$> SCHED_SESSION d) d) w).
Definition remember_session_peer (sid peer : string) : state -> state :=
  upd (λ d, set_sid (oinsert (SID_TO_PEER d) sid peer) d).
Definition take_session_peer (sid : string) w : option string * state :=
  (oget (SID_TO_PEER (st w)) sid, upd (λ d, set_sid (delete sid <$> SID_TO_PEER d) d) w).

Definition direct_field (o : option bool) : list (string * json) :=
  match o with Some d => [("connDirect", JBool d)] | None => [] end.

Definition session_start_blocking a (rid : string) w : string * state :=
  let '(direct, w) := take_conn_direct rid w in
  let '(r, w) := authed_post a "/api/sessions" (JObj ([("remoteId", JStr rid)] ++ direct_field direct)) w in
  match r with
  | Ok text =>
      let sid := or_empty (str_field "sessionId" (parse_value e text)) in
      (sid, if is_empty sid then w else remember_session_peer sid rid w)
  | Err _ => (EmptyString, w)
  end.

Definition text_field (k v : string) : list (string * json) := if is_empty (trim v) then [] else [(k, JStr v)].

(** What a report says of the connection, and its consumption. *)
Definition session_facts (sid : string) w : list (string * json) * state :=
  let '(peer, w) := take_session_peer sid w in
  match peer with
  | None => ([], w)
  | Some peer =>
      let '(direct, w) := take_conn_direct peer w in
      let '(via, w) := take_sched_session peer w in
      (direct_field direct ++ match via with Some true => [("viaSchedWindow", JBool true)] | _ => [] end, w)
  end.

Definition session_end_blocking a (sid categories description contact resolution : string) w : bool * state :=
  if is_empty (trim sid) then (false, w) else
  let fields := text_field "categories" categories ++ text_field "description" description
                ++ text_field "contactName" contact ++ text_field "resolution" resolution in
  let '(facts, w) := session_facts sid w in
  let '(r, w) := authed_post a ("/api/sessions/" +:+ sid +:+ "/end") (JObj (fields ++ facts)) w in
  (match r with Ok _ => true | Err _ => false end, w).

Definition session_discard_blocking a (sid : string) w : bool * state :=
  if is_empty (trim sid) then (false, w) else
  let '(r, w) := authed_post a ("/api/sessions/" +:+ sid +:+ "/discard") (JObj []) w in
  (match r with Ok _ => true | Err _ => false end, w).

(** ** Runs *)
Inductive action : Type :=
  | FetchCustomers | FetchFavorites | AddFavorite (rid : string) | RemoveFavorite (rid : string)
  | Confirm (rid : string) | SchedClose (rid : string) | PanelTicket | Rename (payload : string) | Refresh
  | NoteDirect (peer : string) (direct : bool) | NoteSched (peer : string)
  | Start (rid : string) | End_ (sid categories description contact resolution : string) | Discard (sid : string).

Definition step (x : login * action) w : state :=
  let '(a, x) := x in
  match x with
  | FetchCustomers => (fetch_customers_blocking a w).2
  | FetchFavorites => (fetch_favorites_blocking a w).2
  | AddFavorite rid => (add_favorite_blocking a rid w).2
  | RemoveFavorite rid => (remove_favorite_blocking a rid w).2
  | Confirm rid => (confirm_customer_blocking a rid w).2
  | SchedClose rid => (request_sched_close_blocking a rid w).2
  | PanelTicket => (panel_ticket_url_blocking a w).2
  | Rename payload => (rename_customer_blocking a payload w).2
  | Refresh => refresh a w
  | NoteDirect peer direct => note_conn_direct peer direct w
  | NoteSched peer => note_sched_session peer w
  | Start rid => (session_start_blocking a rid w).2
  | End_ sid c d n r => (session_end_blocking a sid c d n r w).2
  | Discard sid => (session_discard_blocking a sid w).2
  end.
Definition run (l : list (login * action)) w : state := foldl (λ w x, step x w) w l.

(** ** Lookups in the caches *)
Definition names_row (rid : string) (c : CustomerRow) : option string :=
  match remote_id c with
  | Some r => if String.eqb r rid && negb (is_empty rid) && negb (is_empty (trim (name c))) then Some (name c) else None
  | None => None
  end.
Definition uuid_row (rid : string) (c : CustomerRow) : option string :=
  match remote_id c with Some r => if String.eqb r rid && negb (is_empty rid) then Some (id c) else None | None => None end.
Definition endpoint_row (rid : string) (c : CustomerRow) : option string :=
  match remote_id c, upnp_endpoint c with
  | Some r, Some ep => if String.eqb r rid && negb (is_empty ep) then Some ep else None
  | _, _ => None
  end.
(** What the last row that says something says. *)
Definition last_said (f : CustomerRow -> option string) (rows : list CustomerRow) : option string :=
  last (omap f rows).

(** A cache built row by row says what the last row says. *)
Lemma fold_cache (ins : names -> CustomerRow -> names) (f : string -> CustomerRow -> option string) rid :
  (forall m c, ins m c !! rid = match f rid c with Some v => Some v | None => m !! rid end) ->
  forall rows m, foldl ins m rows !! rid = match last_said (f rid) rows with Some v => Some v | None => m !! rid end.
Proof.
  intros Hins rows. induction rows as [|c rows IH] using rev_ind; intros m; [done|].
  rewrite foldl_app. simpl. rewrite Hins, IH. unfold last_said. rewrite omap_app. simpl.
  destruct (f rid c); [by rewrite last_snoc | by rewrite app_nil_r].
Qed.

Lemma merged_name rows w rid : get_remote_name rid (merge_remote_names rows w)
  = match last_said (names_row rid) rows with Some n => Some n | None => get_remote_name rid w end.
Proof.
  unfold get_remote_name, merge_remote_names, oget. simpl.
  rewrite (fold_cache _ names_row) by
    (intros m c; unfold names_row; destruct (remote_id c) as [r|]; [|done];
     destruct (String.eqb_spec r rid) as [->|Hr]; simpl;
     [case_match; simplify_map_eq; done | case_match; [by rewrite lookup_insert_ne | done]]).
  case_match; [done|]. by destruct (REMOTE_TO_NAME (st w)).
Qed.
Lemma updated_uuid rows w rid : remote_to_uuid rid (update_remote_to_uuid rows w) = last_said (uuid_row rid) rows.
Proof.
  unfold remote_to_uuid, update_remote_to_uuid, oget. simpl.
  rewrite (fold_cache _ uuid_row) by
    (intros m c; unfold uuid_row; destruct (remote_id c) as [r|]; [|done];
     destruct (String.eqb_spec r rid) as [->|Hr]; simpl;
     [case_match; simplify_map_eq; done | case_match; [done | by rewrite lookup_insert_ne]]).
  by case_match.
Qed.
Lemma remembered_endpoint rows w rid : upnp_endpoint_of rid (remember_upnp_endpoints rows w)
  = or_empty (last_said (endpoint_row rid) rows).
Proof.
  unfold upnp_endpoint_of, remember_upnp_endpoints, oget. simpl.
  rewrite (fold_cache _ endpoint_row) by
    (intros m c; unfold endpoint_row; destruct (remote_id c) as [r|]; [|done]; destruct (upnp_endpoint c) as [ep|]; [|done];
     destruct (String.eqb_spec r rid) as [->|Hr]; simpl;
     [case_match; simplify_map_eq; done | case_match; [done | by rewrite lookup_insert_ne]]).
  by case_match.
Qed.

Lemma authed_get_st a path w : st (authed_get a path w).2 = st w.
Proof. unfold authed_get. by case_match. Qed.
Lemma authed_post_st a path b w : st (authed_post a path b w).2 = st w.
Proof. unfold authed_post. by case_match. Qed.
Lemma authed_delete_st a path w : st (authed_delete a path w).2 = st w.
Proof. unfold authed_delete. by case_match. Qed.

(** What a fetched list of rows does to the caches. *)
Definition refreshed (rows : list CustomerRow) w w' : Prop :=
  forall rid, get_remote_name rid w' = match last_said (names_row rid) rows with
                                       | Some n => Some n
                                       | None => get_remote_name rid w
                                       end
    /\ remote_to_uuid rid w' = last_said (uuid_row rid) rows
    /\ upnp_endpoint_of rid w' = or_empty (last_said (endpoint_row rid) rows).
(** The reports' notes are elsewhere. *)
Definition notes_kept w w' : Prop :=
  CONN_DIRECT (st w') = CONN_DIRECT (st w) /\ SCHED_SESSION (st w') = SCHED_SESSION (st w)
  /\ SID_TO_PEER (st w') = SID_TO_PEER (st w).

Lemma refresh_caches rows w w' : REMOTE_TO_NAME (st w') = REMOTE_TO_NAME (st w) ->
  refreshed rows w (merge_remote_names rows (remember_upnp_endpoints rows (update_remote_to_uuid rows w'))).
Proof.
  intros Hs rid. rewrite merged_name. split_and!.
  - unfold get_remote_name. simpl. by rewrite Hs.
  - exact (updated_uuid rows w' rid).
  - exact (remembered_endpoint rows (update_remote_to_uuid rows w') rid).
Qed.

Lemma fetch_customers_cases a w : let '(ok, w') := fetch_customers_blocking a w in
  notes_kept w w' /\ MY_FAV_REMOTE_IDS (st w') = MY_FAV_REMOTE_IDS (st w)
  /\ if ok then exists rows text, parse_customers e text = Some rows /\ refreshed rows w w' else st w' = st w.
Proof.
  unfold fetch_customers_blocking. pose proof (authed_get_st a "/api/customers" w) as Hs.
  destruct (authed_get a "/api/customers" w) as [[inner|] w1]; simpl in Hs; [|by split_and!; unfold notes_kept; rewrite ?Hs].
  destruct (parse_customers e inner) as [rows|] eqn:Ep; [|by split_and!; unfold notes_kept; rewrite ?Hs].
  split_and!; [unfold notes_kept; simpl; by rewrite Hs | simpl; by rewrite Hs|].
  exists rows, inner. split; [done|]. apply (refresh_caches rows w w1). by rewrite Hs.
Qed.

Lemma fetch_favorites_cases a w : let '(ok, w') := fetch_favorites_blocking a w in
  notes_kept w w'
  /\ if ok then exists favs text, parse_favorites e text = Some favs
       /\ MY_FAV_REMOTE_IDS (st w') = Some (fav_ids favs) /\ refreshed (omap customer favs) w w'
     else st w' = st w.
Proof.
  unfold fetch_favorites_blocking. pose proof (authed_get_st a "/api/me/favorites" w) as Hs.
  destruct (authed_get a "/api/me/favorites" w) as [[inner|] w1]; simpl in Hs; [|by split; unfold notes_kept; rewrite ?Hs].
  destruct (parse_favorites e inner) as [favs|] eqn:Ep; [|by split; unfold notes_kept; rewrite ?Hs].
  split; [unfold notes_kept; simpl; by rewrite Hs|].
  exists favs, inner. split; [done|]. split; [done|].
  apply (refresh_caches (omap customer favs) w (upd (set_fav (Some (fav_ids favs))) w1)). simpl. by rewrite Hs.
Qed.

(** What a fetch does to the caches.  A fetch that fails (no token, no
    answer, an answer that is not a list) leaves every cache alone.  After one
    that succeeds, a customer has the name of its last row with a name, and keeps
    the old one if there is none; its number in the panel and its opened port are
    those of the fetched rows alone. *)
Theorem lists_update_caches a w :
  (let '(ok, w') := fetch_customers_blocking a w in
   if ok then exists rows text, parse_customers e text = Some rows /\ refreshed rows w w'
              /\ MY_FAV_REMOTE_IDS (st w') = MY_FAV_REMOTE_IDS (st w)
   else st w' = st w)
  /\ (let '(ok, w') := fetch_favorites_blocking a w in
      if ok then exists favs text, parse_favorites e text = Some favs /\ refreshed (omap customer favs) w w'
                 /\ MY_FAV_REMOTE_IDS (st w') = Some (fav_ids favs)
      else st w' = st w).
Proof.
  split.
  - pose proof (fetch_customers_cases a w) as H. destruct (fetch_customers_blocking a w) as [[] w'].
    + destruct H as (_ & Hf & rows & text & Hp & Hr). by exists rows, text.
    + by destruct H as (_ & _ & H).
  - pose proof (fetch_favorites_cases a w) as H. destruct (fetch_favorites_blocking a w) as [[] w'].
    + destruct H as (_ & favs & text & Hp & Hf & Hr). by exists favs, text.
    + by destruct H as (_ & H).
Qed.

(** ** Reports of sessions *)
Definition has_via (b : json) : bool := match jget "viaSchedWindow" b with Some _ => true | None => false end.
Definition is_via (ev : event) : bool := match ev with Posted _ b _ => has_via b | _ => false end.
Definition vias (l : list event) : nat := length (List.filter is_via l).
Definition marked (d : data) : nat := match SCHED_SESSION d with Some m => size m | None => 0%nat end.

(** Posts that do not speak of a window leave the count. *)
Lemma authed_post_vias a path b w :
  (vias (trace (authed_post a path b w).2) <= vias (trace w) + (if has_via b then 1 else 0))%nat.
Proof.
  unfold authed_post. case_match; simpl; [lia|]. unfold vias. simpl. destruct (has_via b); simpl; lia.
Qed.
Lemma authed_get_vias a path w : vias (trace (authed_get a path w).2) = vias (trace w).
Proof. unfold authed_get. by case_match. Qed.
Lemma authed_delete_vias a path w : vias (trace (authed_delete a path w).2) = vias (trace w).
Proof. unfold authed_delete. by case_match. Qed.

(** [quiet]: no more window reports, and the notes are as they were. *)
Definition quiet w w' : Prop := (vias (trace w') <= vias (trace w))%nat /\ notes_kept w w'.
Lemma quiet_chain w1 w2 w3 : quiet w1 w2 -> quiet w2 w3 -> quiet w1 w3.
Proof. intros (H1 & A1 & A2 & A3) (H2 & B1 & B2 & B3). split; [lia|]. split_and!; congruence. Qed.
Lemma quiet_refl w : quiet w w.
Proof. by split. Qed.

Lemma quiet_customers a w : quiet w (fetch_customers_blocking a w).2.
Proof.
  pose proof (fetch_customers_cases a w) as H. destruct (fetch_customers_blocking a w) as [ok w'] eqn:E.
  destruct H as [H _]. split; [|done]. revert E. unfold fetch_customers_blocking.
  pose proof (authed_get_vias a "/api/customers" w) as Hv.
  destruct (authed_get a "/api/customers" w) as [[inner|] w1]; simpl in Hv; [|intros [= _ <-]; simpl; lia].
  destruct (parse_customers e inner); intros [= _ <-]; simpl; unfold vias in *; simpl; lia.
Qed.
Lemma quiet_favorites a w : quiet w (fetch_favorites_blocking a w).2.
Proof.
  pose proof (fetch_favorites_cases a w) as H. destruct (fetch_favorites_blocking a w) as [ok w'] eqn:E.
  destruct H as [H _]. split; [|done]. revert E. unfold fetch_favorites_blocking.
  pose proof (authed_get_vias a "/api/me/favorites" w) as Hv.
  destruct (authed_get a "/api/me/favorites" w) as [[inner|] w1]; simpl in Hv; [|intros [= _ <-]; simpl; lia].
  destruct (parse_favorites e inner); intros [= _ <-]; simpl; unfold vias in *; simpl; lia.
Qed.
Lemma quiet_post a path b w : has_via b = false -> quiet w (authed_post a path b w).2.
Proof.
  intros Hb. pose proof (authed_post_vias a path b w) as Hv. rewrite Hb in Hv.
  split; [lia|]. unfold notes_kept. by rewrite authed_post_st.
Qed.
Lemma quiet_then {A} (x : A * state) w w' : quiet w x.2 -> w' = x.2 -> quiet w w'.
Proof. by intros H ->. Qed.
Lemma quiet_fav f w : quiet w (upd (λ d, set_fav (f d) d) w).
Proof. by split. Qed.

Lemma quiet_add a rid w : quiet w (add_favorite_blocking a rid w).2.
Proof.
  unfold add_favorite_blocking. destruct (peer_config e (clk w) rid) as [host alias].
  pose proof (quiet_post a "/api/me/favorites" (JObj [("remoteId", JStr rid); ("hostname", JStr host);
    ("alias", JStr (or_empty alias))]) w eq_refl) as Hq.
  destruct (authed_post _ _ _ _) as [[text|] w1]; simpl in *; [|done].
  eapply quiet_chain; [exact Hq|]. eapply quiet_chain; [apply quiet_fav | apply quiet_favorites].
Qed.
Lemma quiet_remove a rid w : quiet w (remove_favorite_blocking a rid w).2.
Proof.
  unfold remove_favorite_blocking. pose proof (authed_delete_vias a ("/api/me/favorites/" +:+ rid) w) as Hv.
  pose proof (authed_delete_st a ("/api/me/favorites/" +:+ rid) w) as Hs.
  assert (Hq : quiet w (authed_delete a ("/api/me/favorites/" +:+ rid) w).2) by
    (split; [lia | unfold notes_kept; by rewrite Hs]).
  destruct (authed_delete _ _ _) as [[text|] w1]; simpl in *; [|done].
  eapply quiet_chain; [exact Hq|]. eapply quiet_chain; [apply quiet_fav | apply quiet_favorites].
Qed.
Lemma quiet_post_then_fetch path a rid w : quiet w (post_then_fetch path a rid w).2.
Proof.
  unfold post_then_fetch. pose proof (quiet_post a path (JObj [("remoteId", JStr rid)]) w eq_refl) as Hq.
  destruct (authed_post _ _ _ _) as [[text|] w1]; simpl in *; [|done].
  eapply quiet_chain; [exact Hq | apply quiet_customers].
Qed.
Lemma quiet_rename a payload w : quiet w (rename_customer_blocking a payload w).2.
Proof.
  unfold rename_customer_blocking. destruct (parse_value e payload) as [v|]; [|apply quiet_refl].
  case_match; [apply quiet_refl|]. set (b := JObj _).
  pose proof (quiet_post a "/api/customers/rename" b w eq_refl) as Hq.
  destruct (authed_post a _ b w) as [[text|] w1]; simpl in *; [|done].
  match goal with |- context [if ?ok then log _ _ else _] => destruct ok end; [|done].
  destruct Hq as [Hv Hk]. split; [|exact Hk]. unfold vias in *. simpl. lia.
Qed.
Lemma quiet_ticket a w : quiet w (panel_ticket_url_blocking a w).2.
Proof.
  unfold panel_ticket_url_blocking. case_match; [apply quiet_refl|].
  pose proof (quiet_post a "/api/auth/panel-ticket" (JObj []) w eq_refl) as Hq.
  by destruct (authed_post a _ _ w) as [[text|] w1].
Qed.

Lemma oget_oinsert {V} (m : option (gmap string V)) k v k' :
  oget (oinsert m k v) k' = if decide (k = k') then Some v else oget m k'.
Proof.
  unfold oget, oinsert. case_decide as H; [subst; by rewrite lookup_insert_eq|].
  rewrite lookup_insert_ne by done. by destruct m.
Qed.
Lemma oget_odelete {V} (m : option (gmap string V)) k k' :
  oget (delete k <$> m) k' = if decide (k = k') then None else oget m k'.
Proof.
  unfold oget. destruct m as [m|]; simpl; [|by case_decide].
  case_decide as H; [subst; by rewrite lookup_delete_eq | by rewrite lookup_delete_ne].
Qed.

Lemma has_via_app l l' : has_via (JObj (l ++ l')) = has_via (JObj l) || has_via (JObj l').
Proof.
  unfold has_via. simpl. induction l as [|x l IH]; simpl; [done|]. by destruct (String.eqb x.1 _).
Qed.
Lemma has_via_text k v : String.eqb k "viaSchedWindow" = false -> has_via (JObj (text_field k v)) = false.
Proof. intros H. unfold text_field. case_match; [done|]. unfold has_via. simpl. by rewrite H. Qed.
Lemma has_via_direct o : has_via (JObj (direct_field o)) = false.
Proof. by destruct o. Qed.

(** Taking the facts of a session: what was noted goes. *)
Lemma session_facts_spec sid w : let '(facts, w') := session_facts sid w in
  trace w' = trace w
  /\ (marked (st w') + (if has_via (JObj facts) then 1 else 0) <= marked (st w))%nat
  /\ facts = match oget (SID_TO_PEER (st w)) sid with
             | Some p => direct_field (oget (CONN_DIRECT (st w)) p)
                         ++ match oget (SCHED_SESSION (st w)) p with Some true => [("viaSchedWindow", JBool true)] | _ => [] end
             | None => []
             end.
Proof.
  unfold session_facts. simpl. destruct (oget (SID_TO_PEER (st w)) sid) as [p|]; simpl; [|split_and!; [done|unfold marked; simpl; lia|done]].
  split_and!; [done| |done]. rewrite has_via_app, has_via_direct. simpl. unfold marked, oget. simpl.
  destruct (SCHED_SESSION (st w)) as [m|]; simpl; [|lia].
  destruct (m !! p) as [b|] eqn:E.
  - rewrite map_size_delete_Some by by eexists.
    assert (size m <> 0%nat) by (intros H; apply map_size_empty_inv in H; subst; by rewrite lookup_empty in E).
    destruct b; simpl; lia.
  - rewrite map_size_delete_None by done. simpl. lia.
Qed.

Lemma step_window x w :
  (vias (trace (step x w)) + marked (st (step x w))
   <= vias (trace w) + marked (st w) + match x.2 with NoteSched _ => 1 | _ => 0 end)%nat.
Proof.
  assert (Hq : forall w', quiet w w' -> (vias (trace w') + marked (st w') <= vias (trace w) + marked (st w) + 0)%nat).
  { intros w' (Hv & _ & Hs & _). unfold marked. rewrite Hs. lia. }
  destruct x as [a x], x; cbn [step snd].
  - apply Hq, quiet_customers.
  - apply Hq, quiet_favorites.
  - apply Hq, quiet_add.
  - apply Hq, quiet_remove.
  - apply Hq, quiet_post_then_fetch.
  - apply Hq, quiet_post_then_fetch.
  - apply Hq, quiet_ticket.
  - apply Hq, quiet_rename.
  - apply Hq. eapply quiet_chain; [apply quiet_customers | apply quiet_favorites].
  - unfold marked. simpl. lia.
  - unfold marked, oinsert. simpl. destruct (SCHED_SESSION (st w)) as [m|]; simpl.
    + destruct (m !! peer) eqn:E; [rewrite map_size_insert_Some; [lia | by eexists] | rewrite map_size_insert_None; [lia | done]].
    + rewrite map_size_insert_None; [rewrite map_size_empty; lia | by rewrite lookup_empty].
  - unfold session_start_blocking, take_conn_direct. cbn [fst snd].
    set (w1 := upd _ w). set (b := JObj _).
    assert (Hb : has_via b = false) by (subst b; rewrite has_via_app, has_via_direct; done).
    destruct (quiet_post a "/api/sessions" b w1 Hb) as (Hv & _ & Hs & _).
    destruct (authed_post a "/api/sessions" b w1) as [r w2]. simpl in Hv, Hs.
    assert (Hend : forall w3, trace w3 = trace w2 -> SCHED_SESSION (st w3) = SCHED_SESSION (st w2) ->
      (vias (trace w3) + marked (st w3) <= vias (trace w) + marked (st w) + 0)%nat).
    { intros w3 Ht Hs3. unfold marked. rewrite Ht, Hs3, Hs. lia. }
    destruct r as [text|]; simpl; [|by apply Hend]. destruct (is_empty _); by apply Hend.
  - unfold session_end_blocking. destruct (is_empty (trim sid)); [simpl; lia|].
    pose proof (session_facts_spec sid w) as Hf. destruct (session_facts sid w) as [facts w1].
    destruct Hf as (Ht & Hm & _). set (b := JObj _).
    assert (Hb : has_via b = has_via (JObj facts)).
    { subst b. by rewrite !has_via_app, !has_via_text. }
    pose proof (authed_post_vias a ("/api/sessions/" +:+ sid +:+ "/end") b w1) as Hv.
    pose proof (authed_post_st a ("/api/sessions/" +:+ sid +:+ "/end") b w1) as Hs.
    destruct (authed_post _ _ b w1) as [r w2]. simpl in *. rewrite Hs. rewrite Hb, Ht in Hv. lia.
  - unfold session_discard_blocking. destruct (is_empty (trim sid)); [simpl; lia|].
    pose proof (quiet_post a ("/api/sessions/" +:+ sid +:+ "/discard") (JObj []) w eq_refl) as Hp.
    destruct (authed_post _ _ _ w) as [r w2]. by apply Hq.
Qed.

Definition window_notes (l : list (login * action)) : nat :=
  length (List.filter (λ x, match x.2 with NoteSched _ => true | _ => false end) l).

(** The panel is told of no more sessions through a window of access than
    registers announced.  Over any run the reports that carry [viaSchedWindow],
    together with the announcements still waiting to be reported, are at most the
    announcements. *)
Theorem window_reports_bounded l c :
  let w := run l (mkWorld c init []) in (vias (trace w) + marked (st w) <= window_notes l)%nat.
Proof.
  cbv zeta. induction l as [|x l IH] using rev_ind; [done|].
  unfold run in *. rewrite foldl_app. simpl. unfold window_notes in *. rewrite List.filter_app, length_app. simpl.
  pose proof (step_window x (foldl (λ w x, step x w) (mkWorld c init []) l)) as H. destruct x as [a x].
  destruct x; simpl in *; lia.
Qed.

(** ** One session *)

(** What was said of the connection to [p] in a stretch of a run. *)
Fixpoint last_direct (p : string) (l : list (login * action)) : option bool :=
  match l with
  | [] => None
  | x :: l => match last_direct p l, x.2 with
              | Some d, _ => Some d
              | None, NoteDirect p' d => if String.eqb p' p then Some d else None
              | None, _ => None
              end
  end.
Definition announced (p : string) (l : list (login * action)) : bool :=
  existsb (λ x, match x.2 with NoteSched p' => String.eqb p' p | _ => false end) l.

(** No other session of [p] starts or ends, and the panel does not use the
    session's number again. *)
Definition apart (p sid : string) (x : login * action) w : bool :=
  match x.2 with
  | Start rid => negb (String.eqb rid p) && negb (String.eqb (session_start_blocking x.1 rid w).1 sid)
  | End_ s _ _ _ _ => negb (String.eqb s sid)
      && negb (match oget (SID_TO_PEER (st w)) s with Some q => String.eqb q p | None => false end)
  | _ => true
  end.
Fixpoint all_apart (p sid : string) (l : list (login * action)) w : bool :=
  match l with [] => true | x :: l => apart p sid x w && all_apart p sid l (step x w) end.

(** What is known of a session: its peer, and the notes of the peer. *)
Definition known (p sid : string) (d : data) : option string * option bool * option bool :=
  (oget (SID_TO_PEER d) sid, oget (CONN_DIRECT d) p, oget (SCHED_SESSION d) p).

Lemma known_quiet p sid w w' : quiet w w' -> known p sid (st w') = known p sid (st w).
Proof. intros (_ & H1 & H2 & H3). unfold known. by rewrite H1, H2, H3. Qed.

Lemma known_step p sid x w : apart p sid x w = true ->
  known p sid (st (step x w)) =
    (oget (SID_TO_PEER (st w)) sid,
     match x.2 with NoteDirect q d => if String.eqb q p then Some d else oget (CONN_DIRECT (st w)) p
                  | _ => oget (CONN_DIRECT (st w)) p end,
     match x.2 with NoteSched q => if String.eqb q p then Some true else oget (SCHED_SESSION (st w)) p
                  | _ => oget (SCHED_SESSION (st w)) p end).
Proof.
  assert (Hq : forall w', quiet w w' -> known p sid (st w')
                = (oget (SID_TO_PEER (st w)) sid, oget (CONN_DIRECT (st w)) p, oget (SCHED_SESSION (st w)) p)).
  { intros w' H. by rewrite (known_quiet _ _ _ _ H). }
  intros Ha. destruct x as [a x], x; cbn [step snd] in *.
  - apply Hq, quiet_customers.
  - apply Hq, quiet_favorites.
  - apply Hq, quiet_add.
  - apply Hq, quiet_remove.
  - apply Hq, quiet_post_then_fetch.
  - apply Hq, quiet_post_then_fetch.
  - apply Hq, quiet_ticket.
  - apply Hq, quiet_rename.
  - apply Hq. eapply quiet_chain; [apply quiet_customers | apply quiet_favorites].
  - unfold known. simpl. rewrite oget_oinsert. destruct (String.eqb_spec peer p); case_decide; done.
  - unfold known. simpl. rewrite oget_oinsert. destruct (String.eqb_spec peer p); case_decide; done.
  - unfold apart in Ha. cbn [fst snd] in Ha. apply andb_prop in Ha as [Hp Hs].
    apply negb_true_iff, String.eqb_neq in Hp, Hs. revert Hs.
    unfold session_start_blocking, take_conn_direct. cbn [fst snd].
    set (w1 := upd _ w). set (b := JObj _).
    pose proof (authed_post_st a "/api/sessions" b w1) as Hst.
    destruct (authed_post a "/api/sessions" b w1) as [r w2]. simpl in Hst.
    assert (Hk : known p sid (st w2) = (oget (SID_TO_PEER (st w)) sid, oget (CONN_DIRECT (st w)) p, oget (SCHED_SESSION (st w)) p)).
    { rewrite Hst. unfold known. simpl. rewrite oget_odelete. by rewrite decide_False. }
    destruct r as [text|]; simpl; [|by intros _].
    set (s := or_empty _). intros Hs. destruct (is_empty s); [done|]. rewrite <- Hk.
    unfold known. simpl. rewrite oget_oinsert. by rewrite decide_False.
  - unfold apart in Ha. cbn [fst snd] in Ha. apply andb_prop in Ha as [Hs Hp]. apply negb_true_iff in Hs, Hp.
    apply String.eqb_neq in Hs.
    unfold session_end_blocking. destruct (is_empty (trim sid0)); [done|].
    assert (Hk : known p sid (st (session_facts sid0 w).2)
              = (oget (SID_TO_PEER (st w)) sid, oget (CONN_DIRECT (st w)) p, oget (SCHED_SESSION (st w)) p)).
    { unfold session_facts. simpl. destruct (oget (SID_TO_PEER (st w)) sid0) as [q|]; simpl; unfold known; simpl;
        rewrite !oget_odelete, (decide_False (P := sid0 = sid)) by done; [|done].
      apply String.eqb_neq in Hp. by rewrite !(decide_False (P := q = p)). }
    destruct (session_facts sid0 w) as [facts w1]. simpl in Hk. rewrite <- Hk. set (b := JObj _).
    pose proof (authed_post_st a ("/api/sessions/" +:+ sid0 +:+ "/end") b w1) as Hst.
    destruct (authed_post _ _ b w1) as [r w2]. simpl in *. by rewrite Hst.
  - unfold session_discard_blocking. destruct (is_empty (trim sid0)); [done|].
    pose proof (quiet_post a ("/api/sessions/" +:+ sid0 +:+ "/discard") (JObj []) w eq_refl) as Hp.
    destruct (authed_post _ _ _ w) as [r w2]. by apply Hq.
Qed.

Lemma known_run p sid l w : all_apart p sid l w = true ->
  known p sid (st (run l w)) =
    (oget (SID_TO_PEER (st w)) sid,
     match last_direct p l with Some d => Some d | None => oget (CONN_DIRECT (st w)) p end,
     if announced p l then Some true else oget (SCHED_SESSION (st w)) p).
Proof.
  revert w. induction l as [|x l IH]; intros w; [done|]. simpl. intros [Ha Hl]%andb_prop.
  rewrite (IH _ Hl). pose proof (known_step p sid x w Ha) as Hk. unfold known in Hk. injection Hk as -> -> ->.
  destruct x as [a x]. simpl. unfold announced. simpl.
  destruct x; simpl; try (by destruct (last_direct p l)).
  - destruct (String.eqb peer p), (last_direct p l); done.
  - destruct (String.eqb peer p), (last_direct p l); simpl; try done; by destruct (existsb _ l).
Qed.

(** The report of a session says what was learnt during it.  When the panel
    gives a number to the session started with [p], and until its end no other
    session of [p] starts or ends, the report posted at the end carries the fields
    that are not blank, the last thing said of the connection being direct, and
    [viaSchedWindow] exactly when the register announced it in the meantime or an
    earlier announcement was still waiting. *)
Theorem session_report p a w l a' categories description contact resolution :
  let '(sid, w1) := session_start_blocking a p w in
  is_empty (trim sid) = false -> all_apart p sid l w1 = true -> is_empty (Auth.get_token a') = false ->
  let w2 := run l w1 in
  trace (session_end_blocking a' sid categories description contact resolution w2).2
  = Posted (Auth.api_base a' +:+ "/api/sessions/" +:+ sid +:+ "/end")
      (JObj ((text_field "categories" categories ++ text_field "description" description
              ++ text_field "contactName" contact ++ text_field "resolution" resolution)
             ++ direct_field (last_direct p l)
             ++ (if announced p l || match oget (SCHED_SESSION (st w)) p with Some b => b | None => false end
                 then [("viaSchedWindow", JBool true)] else [])))
      (Auth.get_token a') :: trace w2.
Proof.
  destruct (session_start_blocking a p w) as [sid w1] eqn:Es. intros Hsid Hl Htok. cbv zeta.
  set (w2 := run l w1).
  assert (Hw1 : oget (SID_TO_PEER (st w1)) sid = Some p /\ oget (CONN_DIRECT (st w1)) p = None
                /\ SCHED_SESSION (st w1) = SCHED_SESSION (st w)).
  { revert Es. unfold session_start_blocking, take_conn_direct. cbn [fst snd]. set (w0 := upd _ w). set (b := JObj _).
    pose proof (authed_post_st a "/api/sessions" b w0) as Hst.
    destruct (authed_post a "/api/sessions" b w0) as [[text|] w3]; simpl in Hst;
      intros [= <- <-]; [|discriminate]. simpl.
    destruct (is_empty (or_empty _)) eqn:Ee.
    { exfalso. by destruct (or_empty _). }
    simpl. rewrite oget_oinsert, decide_True, Hst by done. simpl. rewrite oget_odelete, decide_True by done. done. }
  destruct Hw1 as (Hp & Hc & Hsc). pose proof (known_run p sid l w1 Hl) as Hk. fold w2 in Hk.
  unfold known in Hk. injection Hk as H1 H2 H3. rewrite Hp in H1. rewrite Hc in H2. rewrite Hsc in H3.
  unfold session_end_blocking. rewrite Hsid. pose proof (session_facts_spec sid w2) as Hf.
  destruct (session_facts sid w2) as [facts w3]. destruct Hf as (Ht & _ & ->). rewrite H1, H2, H3.
  unfold authed_post. rewrite Htok. simpl. rewrite Ht. f_equal. f_equal. f_equal. f_equal. f_equal.
  - by destruct (last_direct p l).
  - destruct (announced p l); [done|]. by destruct (oget (SCHED_SESSION (st w)) p) as [[]|].
Qed.
End data.

(** ** Concrete runs *)
Definition blank_row : CustomerRow := mkRow "u" None EmptyString None None None None None None None None None None None
  None None None None None None None None None.
Definition row (rid nm ep : string) : CustomerRow := mkRow ("u" +:+ rid) (Some rid) nm None None None None None None None
  None None None None None None None None None (Some ep) None None None.
Definition toy_env (rows : list CustomerRow) (favs : list FavoriteRow) : env :=
  mkEnv (λ _ _ _ _, Ok "list"%string) (λ n _ _ _, Ok (200, "S" +:+ to_string (Z.of_nat n))) (λ _, None) (λ _, Some rows)
    (λ _, Some favs) (λ text, Some (JObj [("sessionId", JStr text)])) (λ _ _, (EmptyString, None)).
Abbreviation toy_cfg := (gmap string string).
Definition logged_in : world toy_cfg Auth.auth Auth.event :=
  mkWorld ∅ (Auth.mkAuth "token" "user" 0 (Auth.mkFolders None ∅)) [].
Definition begin : world toy_cfg data event := mkWorld ∅ init [].
Definition acts (l : list action) : list (world toy_cfg Auth.auth Auth.event * action) := map (λ x, (logged_in, x)) l.

Definition shops : list CustomerRow := [row "100" "Bakery" "1.2.3.4:5"; row "200" "Cafe" "5.6.7.8:9"].
(** Refreshing the favourites forgets the opened ports and the numbers of all
    other customers; their names stay. *)
Example favourites_forget_endpoints :
  let w1 := run (toy_env shops [mkFav "200" (Some (row "200" "Cafe" "5.6.7.8:9"))]) (acts [FetchCustomers]) begin in
  let w2 := run (toy_env shops [mkFav "200" (Some (row "200" "Cafe" "5.6.7.8:9"))]) (acts [FetchFavorites]) w1 in
  upnp_endpoint_of "100" w1 = "1.2.3.4:5" /\ upnp_endpoint_of "100" w2 = EmptyString
  /\ remote_to_uuid "100" w2 = None /\ get_remote_name "100" w2 = Some "Bakery".
Proof. vm_compute. done. Qed.

Definition posted_last (w : world toy_cfg data event) : option json :=
  match trace w with Posted _ b _ :: _ => Some b | _ => None end.
(** A discarded session leaves its notes behind: the next session of the same
    register is reported as one through a window. *)
Example discarded_window_leaks :
  posted_last (run (toy_env [] []) (acts [Start "100"; NoteSched "100"; NoteDirect "100" true; Discard "S0";
      Start "100"; NoteDirect "100" false; End_ "S2" "" "" "" ""]) begin)
  = Some (JObj [("connDirect", JBool false); ("viaSchedWindow", JBool true)]).
Proof. vm_compute. reflexivity. Qed.

Lemma session_report_witness :
  let l := acts [NoteDirect "100" true; NoteSched "200"; Start "200"; FetchCustomers] in
  let w1 := (session_start_blocking (toy_env [] []) logged_in "100" begin).2 in
  all_apart (toy_env [] []) "100" "S0" l w1 = true
  /\ posted_last (session_end_blocking (toy_env [] []) logged_in "S0" "" "fixed" "" "" (run (toy_env [] []) l w1)).2
    = Some (JObj [("description", JStr "fixed"); ("connDirect", JBool true)]).
Proof.
  cbv zeta. split; [vm_compute; reflexivity|].
  pose proof (session_report (toy_env [] []) "100" logged_in begin
    (acts [NoteDirect "100" true; NoteSched "200"; Start "200"; FetchCustomers]) logged_in "" "fixed" "" "") as H.
  destruct (session_start_blocking (toy_env [] []) logged_in "100" begin) as [sid w1] eqn:E.
  vm_compute in E. injection E as <- <-. unfold posted_last. cbn [snd].
  rewrite H; [vm_compute; reflexivity | reflexivity | vm_compute; reflexivity | reflexivity].
Defined.
End Data.
