(* ===== verification/Handshake.v ===== *)
(** * The secured connection

    The key exchange between a technician's app and a register
    ([client.rs], [secure_connection]; [server.rs], [create_tcp_connection]) and
    the one with the rendezvous server ([common.rs], [secure_tcp]).  The
    rendezvous server signs which key belongs to which register; the register
    signs a fresh public key; the app seals a session key for it.

    The signature and box primitives are a class with the laws of the sodium
    library; the codecs of the protocol's messages, generated outside [src], are
    part of it. *)

From Stdlib Require Import Strings.Byte.
From S2P Require Import Prelude RustStr.
Local Open Scope Z_scope.

Module Handshake.

Abbreviation bytes := (list byte).

(** The messages of the exchange; anything else is [OtherMessage]. *)
Inductive message : Type :=
  | SignedId (id : bytes)
  | PublicKey (asymmetric_value symmetric_value : bytes)
  | EmptyMessage
  | OtherMessage.
Inductive rendezvous_message : Type := KeyExchange (keys : list bytes) | OtherRendezvous.

(** What reading from a stream yields. *)
Inductive received : Type := Timeout | Closed | Broken (e : string) | Got (b : bytes).

Class Crypto := {
  sign_sk : Type; box_sk : Type; session_key : Type;
  (** [sign], and [sign::verify], which returns what was signed *)
  sign : bytes -> sign_sk -> bytes;
  verify : bytes -> bytes -> option bytes;
  sign_pk_of : sign_sk -> bytes;
  (** [box_]: the public half of a pair, sealing a session key, [Encrypt::decode] *)
  box_pk_of : box_sk -> bytes;
  seal : session_key -> bytes -> box_sk -> bytes;
  decrypt : bytes -> bytes -> box_sk -> result session_key string;
  decode64 : string -> option bytes;
  (** the codecs *)
  id_pk_to_bytes : string -> bytes -> bytes;
  id_pk_parse : bytes -> option (string * bytes);
  to_bytes : message -> bytes;
  parse_message : bytes -> option message;
  rendezvous_parse : bytes -> option rendezvous_message;
  verify_sign : forall m sk, verify (sign m sk) (sign_pk_of sk) = Some m;
  decrypt_seal : forall k ours theirs, decrypt (seal k (box_pk_of theirs) ours) (box_pk_of ours) theirs = Ok k;
  sign_pk_len : forall sk, length (sign_pk_of sk) = 32%nat;
  box_pk_len : forall sk, length (box_pk_of sk) = 32%nat;
  id_pk_round : forall id pk, length pk = 32%nat -> id_pk_parse (id_pk_to_bytes id pk) = Some (id, pk);
  parse_round : forall m, parse_message (to_bytes m) = Some m;
}.

Section handshake.
Context {cr : Crypto} (RS_PUB_KEY : string) (use_ws : bool).

(** ** Keys *)
Definition get_pk (pk : bytes) : option bytes := if Nat.eqb (length pk) 32 then Some pk else None.
Definition get_rs_pk (str_base64 : string) : option bytes :=
  match decode64 str_base64 with Some pk => get_pk pk | None => None end.
Definition decode_id_pk (signed key : bytes) : option (string * bytes) :=
  match verify signed key with
  | Some m =>
      match id_pk_parse m with
      | Some (id, pk) => match get_pk pk with Some pk => Some (id, pk) | None => None end
      | None => None
      end
  | None => None
  end.
(** The pair and the session key are drawn afresh. *)
Definition create_symmetric_key_msg (ours : box_sk) (k : session_key) (their_pk_b : bytes) : bytes * bytes * session_key :=
  (box_pk_of ours, seal k their_pk_b ours, k).

(** ** The app's side *)

(** What an exchange leaves: what was sent, the key of the stream, the answer. *)
Record outcome (A : Type) : Type := mkOutcome { sent : list message; set_key : option session_key; answer : result A string }.
Arguments mkOutcome {A}.
Arguments sent {A}.
Arguments set_key {A}.
Arguments answer {A}.

(** A message goes out; [ok] is what [send] answers. *)
Definition reply {A} (m : message) (ok : result unit string) (k : option session_key) (a : A) : outcome A :=
  match ok with
  | Ok _ => mkOutcome [m] k (Ok a)
  | Err e => mkOutcome [m] None (Err e)
  end.

Definition secure_connection (peer_id : string) (signed_id_pk : bytes) (key : string)
    (ours : box_sk) (k : session_key) (incoming : received) (ok : result unit string) : outcome (option bytes) :=
  let rs_pk := get_rs_pk (if is_empty key then RS_PUB_KEY else key) in
  let sign_pk :=
    match signed_id_pk, rs_pk with
    | _ :: _, Some rs_pk =>
        match decode_id_pk signed_id_pk rs_pk with
        | Some (id, pk) => if String.eqb id peer_id then Some pk else None
        | None => None
        end
    | _, _ => None
    end in
  match sign_pk with
  | None => reply EmptyMessage ok None None
  | Some pk =>
      match incoming with
      | Timeout => mkOutcome [] None (Err "deadline has elapsed")
      | Closed => mkOutcome [] None (Err "Reset by the peer")
      | Broken e => mkOutcome [] None (Err e)
      | Got b =>
          match parse_message b with
          | Some (SignedId si) =>
              match decode_id_pk si pk with
              | Some (id, their_pk_b) =>
                  if String.eqb id peer_id then
                    let '(asymmetric_value, symmetric_value, k) := create_symmetric_key_msg ours k their_pk_b in
                    reply (PublicKey asymmetric_value symmetric_value) ok (Some k) (Some pk)
                  else reply EmptyMessage ok None (Some pk)
              | None => reply (PublicKey [] []) ok None (Some pk)
              end
          | _ => reply EmptyMessage ok None (Some pk)
          end
      end
  end.

(** ** The register's side *)

(** [create_tcp_connection] up to the first message; [pair]: the stored keys
    when both have their lengths. *)
Definition hello (secure : bool) (pair : option sign_sk) (id : string) (ours : box_sk) : option message :=
  match pair with
  | Some sk => if secure then Some (SignedId (sign (id_pk_to_bytes id (box_pk_of ours)) sk)) else None
  | None => None
  end.

(** The answer to it; the second result: the stored key is to be confirmed anew. *)
Definition finish (ours : box_sk) (incoming : received) : result (option session_key) string * bool :=
  match incoming with
  | Timeout => (Err "deadline has elapsed", false)
  | Broken e => (Err e, false)
  | Closed => (Err "Failed to receive public key", false)
  | Got b =>
      match parse_message b with
      | Some (PublicKey asymmetric_value symmetric_value) =>
          if Nat.eqb (length asymmetric_value) 32 then
            (match decrypt symmetric_value asymmetric_value ours with Ok k => Ok (Some k) | Err e => Err e end, false)
          else match asymmetric_value with
               | [] => (Ok None, true)
               | _ => (Err "Handshake failed: invalid public sign key length from peer", false)
               end
      | Some _ => (Ok None, false)
      | None => (Err "Handshake failed: invalid message format", false)
      end
  end.

(** The register's whole side: [Ok] is a connection that starts, with its key. *)
Definition create_tcp_connection (secure : bool) (pair : option sign_sk) (id : string) (ours : box_sk)
    (ok : result unit string) (incoming : received) : list message * (result (option session_key) string * bool) :=
  match hello secure pair id ours with
  | None => ([], (Ok None, false))
  | Some m => match ok with
              | Ok _ => ([m], finish ours incoming)
              | Err e => ([m], (Err e, false))
              end
  end.

(** ** The rendezvous server's link *)
Definition secure_tcp (key : string) (ours : box_sk) (k : session_key) (incoming : received) (ok : result unit string)
    : result unit string * option session_key * list (list bytes) :=
  if use_ws then (Ok tt, None, []) else
  match get_rs_pk key with
  | None => (Err "Handshake failed: invalid public key from rendezvous server", None, [])
  | Some rs_pk =>
      match incoming with
      | Timeout => (Err "deadline has elapsed", None, [])
      | Got b =>
          match rendezvous_parse b with
          | Some (KeyExchange keys) =>
              match keys with
              | [signed] =>
                  match verify signed rs_pk with
                  | None => (Err "Signature mismatch in key exchange", None, [])
                  | Some their_pk_b =>
                      match get_pk their_pk_b with
                      | None => (Err "Wrong their public length in key exchange", None, [])
                      | Some their_pk_b =>
                          let '(asymmetric_value, symmetric_value, k) := create_symmetric_key_msg ours k their_pk_b in
                          match ok with
                          | Ok _ => (Ok tt, Some k, [[asymmetric_value; symmetric_value]])
                          | Err e => (Err e, None, [[asymmetric_value; symmetric_value]])
                          end
                      end
                  end
              | _ => (Err "Handshake failed: invalid key exchange message", None, [])
              end
          | _ => (Ok tt, None, [])
          end
      | _ => (Ok tt, None, [])
      end
  end.

(** ** What holds *)

(** The rendezvous server vouches for a register's key. *)
Definition vouched (rs_sk : sign_sk) (id : string) (pk : bytes) : bytes := sign (id_pk_to_bytes id pk) rs_sk.

Lemma decode_signed id pk sk : length pk = 32%nat ->
  decode_id_pk (sign (id_pk_to_bytes id pk) sk) (sign_pk_of sk) = Some (id, pk).
Proof. intros Hl. unfold decode_id_pk, get_pk. by rewrite verify_sign, id_pk_round, Hl by done. Qed.

(** An undisturbed exchange ends with one key.  When the key the app trusts
    is the rendezvous server's, that server vouched for the register's key, and
    the two messages arrive, both ends encrypt with the session key the app drew,
    and the app knows the register's key. *)
Theorem handshake_agrees rs_sk reg_sk id key app_box reg_box k :
  get_rs_pk (if is_empty key then RS_PUB_KEY else key) = Some (sign_pk_of rs_sk) ->
  vouched rs_sk id (sign_pk_of reg_sk) <> [] ->
  exists m r,
    hello true (Some reg_sk) id reg_box = Some m
    /\ secure_connection id (vouched rs_sk id (sign_pk_of reg_sk)) key app_box k (Got (to_bytes m)) (Ok tt)
       = mkOutcome [r] (Some k) (Ok (Some (sign_pk_of reg_sk)))
    /\ create_tcp_connection true (Some reg_sk) id reg_box (Ok tt) (Got (to_bytes r)) = ([m], (Ok (Some k), false)).
Proof.
  intros Hrs Hne. eexists _, _. split; [reflexivity|].
  unfold secure_connection. rewrite Hrs. unfold vouched in *.
  destruct (sign (id_pk_to_bytes id (sign_pk_of reg_sk)) rs_sk) as [|b l] eqn:E; [done|]. rewrite <- E.
  rewrite decode_signed by apply sign_pk_len. rewrite String.eqb_refl, parse_round.
  rewrite decode_signed by apply box_pk_len. rewrite String.eqb_refl. cbn [create_symmetric_key_msg reply].
  split; [reflexivity|]. unfold create_tcp_connection, hello, finish.
  by rewrite parse_round, box_pk_len, decrypt_seal.
Qed.

(** C19: nobody else gets the key.  If the app ends with a session key, then the
    rendezvous server's signature gave it a key [pk] for this very register, the
    message it got was signed under [pk] for this register, and what it sent is
    the session key sealed for the public key named there.  So when [pk] is a
    register's key and only that register's greetings verify under it, the
    session key was sealed for a secret the register drew itself. *)
Theorem key_only_for_the_register peer_id signed key ours k incoming ok k' :
  set_key (secure_connection peer_id signed key ours k incoming ok) = Some k' ->
  k' = k /\ exists rs_pk pk b si their,
    get_rs_pk (if is_empty key then RS_PUB_KEY else key) = Some rs_pk
    /\ decode_id_pk signed rs_pk = Some (peer_id, pk)
    /\ incoming = Got b /\ parse_message b = Some (SignedId si) /\ decode_id_pk si pk = Some (peer_id, their)
    /\ sent (secure_connection peer_id signed key ours k incoming ok) = [PublicKey (box_pk_of ours) (seal k their ours)]
    /\ (forall reg_sk, pk = sign_pk_of reg_sk ->
        (forall s m, verify s pk = Some m -> exists reg_box, m = id_pk_to_bytes peer_id (box_pk_of reg_box)) ->
        exists reg_box, their = box_pk_of reg_box
          /\ finish reg_box (Got (to_bytes (PublicKey (box_pk_of ours) (seal k their ours)))) = (Ok (Some k), false)).
Proof.
  unfold secure_connection. destruct (get_rs_pk _) as [rs_pk|] eqn:Ers.
  2: { destruct signed; unfold reply; by destruct ok. }
  destruct signed as [|b0 signed]; [unfold reply; by destruct ok|].
  destruct (decode_id_pk (b0 :: signed) rs_pk) as [[id pk]|] eqn:Ed; [|unfold reply; by destruct ok].
  destruct (String.eqb_spec id peer_id) as [->|]; [|unfold reply; by destruct ok].
  destruct incoming as [| | |b]; try done.
  destruct (parse_message b) as [[si|? ?| |]|] eqn:Ep; try (unfold reply; by destruct ok).
  destruct (decode_id_pk si pk) as [[id' their]|] eqn:Et; [|unfold reply; by destruct ok].
  destruct (String.eqb_spec id' peer_id) as [->|]; [|unfold reply; by destruct ok].
  cbn [create_symmetric_key_msg]. unfold reply. destruct ok; [|done]. simpl. intros [= <-]. split; [done|].
  exists rs_pk, pk, b, si, their. split_and!; try done.
  intros reg_sk Hpk Honly. unfold decode_id_pk in Et. destruct (verify si pk) as [m|] eqn:Ev; [|done].
  destruct (Honly _ _ Ev) as [reg_box ->]. rewrite id_pk_round in Et by apply box_pk_len. unfold get_pk in Et.
  rewrite box_pk_len in Et. simpl in Et. injection Et as <-. exists reg_box. split; [done|].
  unfold finish. by rewrite parse_round, box_pk_len, decrypt_seal.
Qed.

(** Without the key the ends still meet: a greeting that does not verify makes the
    app answer with an empty key, and both go on in the clear. *)
Lemma clear_after_mismatch peer_id signed key ours k si reg_box rs_pk pk :
  get_rs_pk (if is_empty key then RS_PUB_KEY else key) = Some rs_pk ->
  signed <> [] -> decode_id_pk signed rs_pk = Some (peer_id, pk) -> decode_id_pk si pk = None ->
  let app := secure_connection peer_id signed key ours k (Got (to_bytes (SignedId si))) (Ok tt) in
  app = mkOutcome [PublicKey [] []] None (Ok (Some pk))
  /\ finish reg_box (Got (to_bytes (PublicKey [] []))) = (Ok None, true).
Proof.
  intros Hrs Hne Hd Hsi. cbv zeta. unfold secure_connection, finish. rewrite Hrs.
  destruct signed as [|b l]; [done|]. by rewrite Hd, String.eqb_refl, !parse_round, Hsi.
Qed.
End handshake.
Arguments sent {cr A}.
Arguments set_key {cr A}.
Arguments answer {cr A}.

(** ** A toy instance for the witnesses *)
#[local] Instance byte_eq : EqDecision byte := Byte.byte_eq_dec.
Definition toy_pk (b : byte) : bytes := repeat x00 31 ++ [b].
Definition toy_verify (s pk : bytes) : option bytes :=
  match s with b :: m => if decide (pk = toy_pk b) then Some m else None | [] => None end.
Fixpoint unary (n : nat) : bytes := match n with O => [x00] | S n => x01 :: unary n end.
Fixpoint read_unary (l : bytes) : nat * bytes :=
  match l with x01 :: l => let '(n, r) := read_unary l in (S n, r) | _ :: l => (0%nat, l) | [] => (0%nat, []) end.
Lemma read_unary_round n l : read_unary (unary n ++ l) = (n, l).
Proof. induction n as [|n IH]; simpl; [done|]. by rewrite IH. Qed.
Definition toy_bytes (m : message) : bytes :=
  match m with
  | SignedId id => x01 :: id
  | PublicKey a s => x02 :: unary (length a) ++ a ++ s
  | EmptyMessage => [x03]
  | OtherMessage => [x04]
  end.
Definition toy_parse (l : bytes) : option message :=
  match l with
  | x01 :: id => Some (SignedId id)
  | x02 :: l => let '(n, l) := read_unary l in Some (PublicKey (firstn n l) (skipn n l))
  | [x03] => Some EmptyMessage
  | [x04] => Some OtherMessage
  | _ => None
  end.
Definition toy_decrypt (s : bytes) : result byte string := match s with [k] => Ok k | _ => Err "decrypt"%string end.
#[export] Program Instance ToyCrypto : Crypto := {
  sign_sk := byte; box_sk := byte; session_key := byte;
  sign := λ m sk, sk :: m; verify := toy_verify; sign_pk_of := toy_pk; box_pk_of := toy_pk;
  seal := λ k _ _, [k]; decrypt := λ s _ _, toy_decrypt s;
  decode64 := λ _, Some (toy_pk x07);
  id_pk_to_bytes := λ id pk, pk ++ String.list_byte_of_string id;
  id_pk_parse := λ m, Some (String.string_of_list_byte (skipn 32 m), firstn 32 m);
  to_bytes := toy_bytes; parse_message := toy_parse; rendezvous_parse := λ _, None;
}.
Next Obligation. intros m sk. unfold toy_verify. by case_decide. Qed.
Next Obligation. done. Qed.
Next Obligation. done. Qed.
Next Obligation. done. Qed.
Next Obligation.
  intros id pk Hl. simpl. rewrite drop_app_length', take_app_length' by done. by rewrite String.string_of_list_byte_of_string.
Qed.
Next Obligation.
  intros [id|a s| |]; simpl; try done. rewrite read_unary_round. by rewrite take_app_length, drop_app_length.
Qed.

Lemma handshake_agrees_witness :
  exists m r, hello (cr := ToyCrypto) true (Some x05) "100" x09 = Some m
    /\ set_key (secure_connection (cr := ToyCrypto) "rs" "100" (vouched (cr := ToyCrypto) x07 "100" (toy_pk x05)) EmptyString x0a x0b (Got (to_bytes m)) (Ok tt)) = Some x0b
    /\ (create_tcp_connection (cr := ToyCrypto) true (Some x05) "100" x09 (Ok tt) (Got (to_bytes r))).2 = (Ok (Some x0b), false).
Proof.
  destruct (handshake_agrees (cr := ToyCrypto) "rs" x07 x05 "100" EmptyString x0a x09 x0b) as (m & r & H1 & H2 & H3); [reflexivity|done|].
  exists m, r. split; [exact H1|]. split; [exact (f_equal set_key H2) | exact (f_equal snd H3)].
Defined.

Lemma key_only_for_the_register_witness :
  let incoming := Got (to_bytes (SignedId (sign (Crypto := ToyCrypto) (id_pk_to_bytes "100" (toy_pk x09)) x05))) in
  sent (secure_connection (cr := ToyCrypto) "rs" "100" (vouched (cr := ToyCrypto) x07 "100" (toy_pk x05)) EmptyString x0a x0b incoming (Ok tt))
  = [PublicKey (toy_pk x0a) (seal (Crypto := ToyCrypto) x0b (toy_pk x09) x0a)].
Proof.
  cbv zeta. set (incoming := Got _).
  destruct (key_only_for_the_register (cr := ToyCrypto) "rs" "100" (vouched (cr := ToyCrypto) x07 "100" (toy_pk x05)) EmptyString x0a x0b incoming (Ok tt) x0b)
    as (_ & rs_pk & pk & b & si & their & H1 & H2 & H3 & H4 & H5 & H6 & _); [vm_compute; reflexivity|].
  etransitivity; [exact H6|]. injection H3 as <-. vm_compute in H1, H4. injection H1 as <-. injection H4 as <-.
  vm_compute in H2. injection H2 as <-. vm_compute in H5. by injection H5 as <-.
Defined.
End Handshake.
