(* ===== verification/F32.v ===== *)
(** * Rust's [f32]

    The 32-bit floating-point numbers of the language, on the Standard
    Library's specification of IEEE 754 arithmetic (24 bits of precision, round
    to nearest, ties to even), with the conversions and the methods the program
    uses, and the facts on their order that need no rounding analysis. *)

From S2P Require Import Prelude.
From Stdlib Require Import SpecFloat.

Local Open Scope Z_scope.

Module F32.

Definition f32 : Type := spec_float.

(** [x as f32] of an integer. *)
Definition of_int (z : Z) : f32 := binary_normalize 24 128 z 0 false.

Definition add : f32 -> f32 -> f32 := SFadd 24 128.
Definition sub : f32 -> f32 -> f32 := SFsub 24 128.
Definition mul : f32 -> f32 -> f32 := SFmul 24 128.
Definition div : f32 -> f32 -> f32 := SFdiv 24 128.

(** A decimal literal is the nearest number to the quotient [n / d]. *)
Definition lit (n d : Z) : f32 := div (of_int n) (of_int d).

(** The comparison operators: all false on a NaN. *)
Definition lt (x y : f32) : bool := SFltb x y.
Definition le (x y : f32) : bool := SFleb x y.
Definition gt (x y : f32) : bool := lt y x.
Definition ge (x y : f32) : bool := le y x.

Definition is_nan (x : f32) : bool :=
  match x with S754_nan => true | _ => false end.
Definition is_finite (x : f32) : bool :=
  match x with S754_zero _ | S754_finite _ _ _ => true | _ => false end.

(** [f32::max] and [f32::min]: the other operand where one is a NaN. *)
Definition max (x y : f32) : f32 :=
  if is_nan x then y else if is_nan y then x else if lt x y then y else x.
Definition min (x y : f32) : f32 :=
  if is_nan x then y else if is_nan y then x else if lt y x then y else x.

(** [f32::clamp] panics unless [lo <= hi] holds; a NaN stays a NaN. *)
Definition clamp (x lo hi : f32) : option f32 :=
  if le lo hi then Some (if lt x lo then lo else if gt x hi then hi else x) else None.

(** [x as u32]: towards zero, saturating, zero for a NaN. *)
Definition to_u32 (x : f32) : Z :=
  match x with
  | S754_finite false m e =>
      Z.min Int.u32_max (if 0 <=? e then Zpos m * 2 ^ e else Zpos m / 2 ^ (- e))
  | S754_infinity false => Int.u32_max
  | _ => 0
  end.

(** [f32::ceil] *)
Definition ceil (x : f32) : f32 :=
  match x with
  | S754_finite s m e =>
      if 0 <=? e then x
      else let d := 2 ^ (- e) in
           binary_normalize 24 128 (if s then - (Zpos m / d) else (Zpos m + d - 1) / d) 0 s
  | _ => x
  end.

(** ** The order

    On numbers that are not NaN the comparison is that of a key, lexicographic
    in sign, exponent and mantissa. *)
Definition key (x : f32) : Z * Z * Z :=
  match x with
  | S754_infinity true => (-2, 0, 0)
  | S754_finite true m e => (-1, - e, - Zpos m)
  | S754_zero _ => (0, 0, 0)
  | S754_finite false m e => (1, e, Zpos m)
  | S754_infinity false => (2, 0, 0)
  | S754_nan => (0, 0, 0)
  end.

Definition key_lt (k l : Z * Z * Z) : Prop :=
  k.1.1 < l.1.1 \/ (k.1.1 = l.1.1 /\ (k.1.2 < l.1.2 \/ (k.1.2 = l.1.2 /\ k.2 < l.2))).

Lemma compare_key x y c : SFcompare x y = Some c ->
  match c with Lt => key_lt (key x) (key y) | Eq => key x = key y | Gt => key_lt (key y) (key x) end.
Proof.
  unfold key_lt.
  destruct x as [?|[]| |[] m e], y as [?|[]| |[] m' e']; cbn [SFcompare]; intros [= <-];
    cbn [key fst snd]; auto with lia; try lia;
    destruct (Z.compare_spec e e') as [->|?|?]; cbn [CompOpp]; try lia;
    change (Pos.compare_cont Eq m m') with (Pos.compare m m');
    destruct (Pos.compare_spec m m') as [->|?|?]; cbn [CompOpp]; auto; lia.
Qed.

Lemma compare_some x y : is_nan x = false -> is_nan y = false -> exists c, SFcompare x y = Some c.
Proof. destruct x as [?|[]| |[] m e], y as [?|[]| |[] m' e']; cbn; eauto; done. Qed.

Lemma key_lt_trans k l m : key_lt k l -> key_lt l m -> key_lt k m.
Proof. unfold key_lt. lia. Qed.
Lemma key_lt_irrefl k : ~ key_lt k k.
Proof. unfold key_lt. lia. Qed.

Lemma le_key x y : is_nan x = false -> is_nan y = false ->
  le x y = true <-> ~ key_lt (key y) (key x).
Proof.
  intros Hx Hy. destruct (compare_some x y Hx Hy) as [c Hc]. unfold le, SFleb. rewrite Hc.
  pose proof (compare_key _ _ _ Hc) as H. destruct c; split; intros E; try done.
  - rewrite H. apply key_lt_irrefl.
  - intros H'. eapply key_lt_irrefl, key_lt_trans; eauto.
Qed.

Lemma lt_key x y : is_nan x = false -> is_nan y = false ->
  lt x y = true <-> key_lt (key x) (key y).
Proof.
  intros Hx Hy. destruct (compare_some x y Hx Hy) as [c Hc]. unfold lt, SFltb. rewrite Hc.
  pose proof (compare_key _ _ _ Hc) as H. destruct c; split; intros E; try done.
  - rewrite H in E. by destruct (key_lt_irrefl _ E).
  - destruct (key_lt_irrefl (key x)). eapply key_lt_trans; eauto.
Qed.

Lemma lt_key_false x y : is_nan x = false -> is_nan y = false ->
  lt x y = false <-> ~ key_lt (key x) (key y).
Proof. intros Hx Hy. rewrite <- (lt_key x y) by done. destruct (lt x y); intuition congruence. Qed.

Lemma le_not_nan x y : le x y = true -> is_nan x = false /\ is_nan y = false.
Proof. by destruct x, y. Qed.
Lemma lt_not_nan x y : lt x y = true -> is_nan x = false /\ is_nan y = false.
Proof. by destruct x, y. Qed.

Lemma key_not_lt_trans k l m : ~ key_lt l k -> ~ key_lt m l -> ~ key_lt m k.
Proof. unfold key_lt. lia. Qed.

Lemma le_trans x y z : le x y = true -> le y z = true -> le x z = true.
Proof.
  intros H1 H2. destruct (le_not_nan _ _ H1), (le_not_nan _ _ H2).
  apply le_key in H1, H2; try done. apply le_key; try done. eapply key_not_lt_trans; eauto.
Qed.

Lemma le_refl x : is_nan x = false -> le x x = true.
Proof. intros H. apply le_key; try done. apply key_lt_irrefl. Qed.

Lemma lt_le x y : lt x y = true -> le x y = true.
Proof.
  intros H. destruct (lt_not_nan _ _ H). apply lt_key in H; try done. apply le_key; try done.
  intros H'. eapply key_lt_irrefl, key_lt_trans; eauto.
Qed.

Lemma not_lt_le x y : is_nan x = false -> is_nan y = false -> lt x y = false -> le y x = true.
Proof. intros Hx Hy H. apply lt_key_false in H; try done. by apply le_key. Qed.

Lemma le_not_lt x y : le x y = true -> lt y x = false.
Proof.
  intros H. destruct (le_not_nan _ _ H). apply le_key in H; try done. by apply lt_key_false.
Qed.

(** [max] is an upper bound of its operands, except for those that are NaN. *)
Lemma max_ge_r x y : is_nan y = false -> le y (max x y) = true.
Proof.
  intros H. unfold max. destruct (is_nan x) eqn:Hx; [by apply le_refl|]. rewrite H.
  destruct (lt x y) eqn:E; [by apply le_refl|]. by apply not_lt_le.
Qed.

Lemma max_le x y z : is_nan y = false -> le x z = true -> le y z = true -> le (max x y) z = true.
Proof. intros H Hx Hy. unfold max. rewrite H. by repeat case_match. Qed.

Lemma clamp_spec x lo hi y : is_nan x = false -> clamp x lo hi = Some y ->
  le lo y = true /\ le y hi = true.
Proof.
  intros Hx. unfold clamp, gt. destruct (le lo hi) eqn:E; [|done]. intros [= <-].
  destruct (le_not_nan _ _ E) as [Hl Hh].
  destruct (lt x lo) eqn:E1; [split; [by apply le_refl | done]|].
  destruct (lt hi x) eqn:E2; [split; [done | by apply le_refl]|].
  split; by apply not_lt_le.
Qed.

(** ** No NaN out of finite numbers *)
Lemma iter_invariant {A} (f : A -> A) (P : A -> Prop) : (forall a, P a -> P (f a)) ->
  forall n a, P a -> P (iter_pos f n a).
Proof. intros Hf n. induction n as [n IH|n IH|]; intros a Ha; cbn [iter_pos]; auto. Qed.

Lemma shr_nonneg p q m e l : 0 <= m -> 0 <= shr_m (shr_fexp p q m e l).1.
Proof.
  intros H. unfold shr_fexp, shr. case_match; cbn [fst].
  - destruct l as [|[]]; done.
  - apply (iter_invariant shr_1 (λ r, 0 <= shr_m r)).
    + intros [mm r s] Hm. cbn in Hm. destruct mm as [|[]|]; cbn; lia.
    + destruct l as [|[]]; done.
  - destruct l as [|[]]; done.
Qed.

Lemma round_not_nan s m e l : 0 <= m -> is_nan (binary_round_aux 24 128 s m e l) = false.
Proof.
  intros H. unfold binary_round_aux.
  pose proof (shr_nonneg 24 128 m e l H) as H1. destruct (shr_fexp 24 128 m e l) as [r1 e1].
  cbn [fst] in H1.
  assert (H2 : 0 <= round_nearest_even (shr_m r1) (loc_of_shr_record r1)).
  { destruct r1 as [m1 [] []]; cbn in *; repeat case_match; lia. }
  pose proof (shr_nonneg 24 128 _ e1 loc_Exact H2) as H3.
  destruct (shr_fexp 24 128 _ e1 loc_Exact) as [r2 e2]. cbn [fst] in H3.
  destruct (shr_m r2); [done | case_match; done | lia].
Qed.

Lemma mul_not_nan x y : is_finite x = true -> is_finite y = true -> is_nan (mul x y) = false.
Proof.
  destruct x as [?|?| |? mx ex], y as [?|?| |? my ey]; try done.
  intros _ _. by apply round_not_nan.
Qed.

Lemma finite_between lo hi x : is_finite lo = true -> is_finite hi = true ->
  le lo x = true -> le x hi = true -> is_finite x = true.
Proof. destruct lo as [?|?| |[] ? ?], hi as [?|?| |[] ? ?], x as [?|[]| |? ? ?]; done. Qed.

Example literal_exact : lit 3 2 = S754_finite false 12582912 (-23).
Proof. reflexivity. Qed.
Example cast_truncates : to_u32 (lit 267 100) = 2.
Proof. reflexivity. Qed.
End F32.
