(* ===== verification/VideoQos.v ===== *)
(** * The controller of frame rate and bitrate

    [server/video_qos.rs] with the quality levels of [libs/scrap/src/common/codec.rs]:
    what the network delay of every peer, its wishes and the encoder make of the
    frames per second and of the bitrate ratio.  The [HashMap]s are iterated in
    an order the language leaves open: [iter_users]. *)

From S2P Require Import Prelude F32.
Import F32.

Local Open Scope Z_scope.

Module VideoQos.

(** ** Constants *)
Definition FPS : Z := 30.
Definition MIN_FPS : Z := 1.
Definition MAX_FPS : Z := 120.
Definition INIT_FPS : Z := 15.
Definition BR_BEST : f32 := Eval vm_compute in lit 15 10.
Definition BR_BALANCED : f32 := Eval vm_compute in lit 67 100.
Definition BR_SPEED : f32 := Eval vm_compute in lit 5 10.
Definition BR_MAX : f32 := Eval vm_compute in lit 40 1.
Definition BR_MIN : f32 := Eval vm_compute in lit 2 10.
Definition BR_MIN_HIGH_RESOLUTION : f32 := Eval vm_compute in lit 1 10.
Definition MAX_BR_MULTIPLE : f32 := Eval vm_compute in lit 1 1.
Definition HISTORY_DELAY_LEN : nat := 2.
Definition ADJUST_RATIO_INTERVAL : Z := 3.
Definition DYNAMIC_SCREEN_THRESHOLD : Z := 2.
Definition DELAY_THRESHOLD_150MS : Z := 150.

(** ** Integers: [Ord::clamp], which panics on crossed bounds, and the extrema
    of an iterator *)
Inductive panic : Type := ClampBounds.

Definition clamp_u32 (x lo hi : Z) : result Z panic :=
  if lo <=? hi then Ok (if x <? lo then lo else if hi <? x then hi else x)
  else Err ClampBounds.
Definition clamp_f32 (x lo hi : f32) : result f32 panic :=
  match clamp x lo hi with Some y => Ok y | None => Err ClampBounds end.

Definition minimum (l : list Z) : option Z :=
  match l with [] => None | x :: r => Some (foldl Z.min x r) end.
Definition maximum (l : list Z) : option Z :=
  match l with [] => None | x :: r => Some (foldl Z.max x r) end.

(** ** The round-trip estimate *)
Module Rtt.
Record RttCalculator : Type := mkRtt {
  min_rtt : option Z;
  window_min_rtt : option Z;
  smoothed_rtt : option Z;
  samples : list Z;
}.
Definition default : RttCalculator := mkRtt None None None [].
Definition WINDOW_SAMPLES : nat := 60.
Definition MIN_SAMPLES : nat := 10.
Definition ALPHA : f32 := Eval vm_compute in lit 5 10.
Definition one : f32 := Eval vm_compute in lit 1 1.

(** The weighted average of the two minima. *)
Definition smooth (mn window_min : Z) : Z :=
  to_u32 (add (mul (sub one ALPHA) (of_int mn)) (mul ALPHA (of_int window_min))).

Definition update (delay : Z) (r : RttCalculator) : RttCalculator :=
  let mn := match min_rtt r with
            | Some m => if delay <? m then Some delay else Some m
            | None => Some delay
            end in
  let s := if Nat.leb WINDOW_SAMPLES (length (samples r)) then tail (samples r) else samples r in
  let s := s ++ [delay] in
  let window := minimum s in
  let smoothed :=
    if Nat.leb WINDOW_SAMPLES (length s) then
      match mn, window with
      | Some m, Some w => Some (smooth m w)
      | _, _ => smoothed_rtt r
      end
    else smoothed_rtt r in
  mkRtt mn window smoothed s.

Definition get_rtt (r : RttCalculator) : option Z :=
  match smoothed_rtt r with
  | Some rtt => Some rtt
  | None => if Nat.leb MIN_SAMPLES (length (samples r)) then min_rtt r else None
  end.
End Rtt.

(** ** The delay of a peer *)
Record UserDelay : Type := mkDelay {
  response_delayed : bool;
  delay_history : list Z;
  delay_fps : option Z;                 (* the field [fps] *)
  rtt_calculator : Rtt.RttCalculator;
  quick_increase_fps_count : Z;
  increase_fps_count : Z;
}.
Definition default_delay : UserDelay := mkDelay false [] None Rtt.default 0 0.

Definition add_delay (delay : Z) (d : UserDelay) : UserDelay :=
  let rtt := Rtt.update delay (rtt_calculator d) in
  let h := if Nat.ltb HISTORY_DELAY_LEN (length (delay_history d)) then tail (delay_history d)
           else delay_history d in
  mkDelay (response_delayed d) (h ++ [delay]) (delay_fps d) rtt
    (quick_increase_fps_count d) (increase_fps_count d).

(** The average of the history, less the round trip where there is one. *)
Definition avg_delay (d : UserDelay) : Z :=
  let len := Z.of_nat (length (delay_history d)) in
  if len >? 0 then
    let avg := Int.wrap 32 (foldl Z.add 0 (delay_history d)) / len in
    match Rtt.get_rtt (rtt_calculator d) with
    | Some rtt => if avg >? rtt then avg - rtt else avg
    | None => avg
    end
  else DELAY_THRESHOLD_150MS.

(** ** Quality levels *)
Inductive Quality : Type := Best | Balanced | Low | Custom (ratio : f32).

Definition quality_ratio (q : Quality) : f32 :=
  match q with
  | Best => BR_BEST
  | Balanced => BR_BALANCED
  | Low => BR_SPEED
  | Custom v => v
  end.

(** ** The state *)
Record UserData : Type := mkUser {
  auto_adjust_fps : option Z;
  custom_fps : option Z;
  quality : option (Z * Quality);
  delay : UserDelay;
  record_ : bool;                       (* [record] *)
}.
Definition default_user : UserData := mkUser None None None default_delay false.

Record DisplayData : Type := mkDisplay {
  send_counter : Z;
  support_changing_quality : bool;
}.
Definition default_display : DisplayData := mkDisplay 0 false.

(** [Instant]s are milliseconds of the monotonic clock. *)
Record VideoQoS : Type := mkQoS {
  fps_ : Z;                             (* the field [fps] *)
  ratio_ : f32;                         (* the field [ratio] *)
  users : gmap Z UserData;
  displays : gmap string DisplayData;
  bitrate_store : Z;
  adjust_ratio_instant : Z;
  abr_config : bool;
  new_user_instant : Z;
}.
Definition default_qos (now : Z) : VideoQoS := mkQoS FPS BR_BALANCED ∅ ∅ 0 now true now.

Definition set_delay d u := mkUser (auto_adjust_fps u) (custom_fps u) (quality u) d (record_ u).
Definition set_users m q := mkQoS (fps_ q) (ratio_ q) m (displays q) (bitrate_store q)
  (adjust_ratio_instant q) (abr_config q) (new_user_instant q).
Definition set_fps f q := mkQoS f (ratio_ q) (users q) (displays q) (bitrate_store q)
  (adjust_ratio_instant q) (abr_config q) (new_user_instant q).
Definition set_ratio r q := mkQoS (fps_ q) r (users q) (displays q) (bitrate_store q)
  (adjust_ratio_instant q) (abr_config q) (new_user_instant q).
Definition set_displays m q := mkQoS (fps_ q) (ratio_ q) (users q) m (bitrate_store q)
  (adjust_ratio_instant q) (abr_config q) (new_user_instant q).
Definition set_adjusted t q := mkQoS (fps_ q) (ratio_ q) (users q) (displays q) (bitrate_store q)
  t (abr_config q) (new_user_instant q).

Section qos.
Context (iter_users : gmap Z UserData -> list (Z * UserData)).
(** The values of [ImageQuality], generated from the protocol's description. *)
Context (BalancedV LowV BestV : Z).
(** [cfg!(target_os = "linux")] *)
Context (linux : bool).

(** ** Reading *)
Definition fps (q : VideoQoS) : Z :=
  if (fps_ q >=? MIN_FPS) && (fps_ q <=? MAX_FPS) then fps_ q else FPS.

(** Seconds per frame; [Duration::from_secs_f32] rounds them to nanoseconds. *)
Definition spf (q : VideoQoS) : f32 := div (of_int 1) (of_int (fps q)).

Definition store_bitrate (bitrate : Z) (q : VideoQoS) : VideoQoS :=
  mkQoS (fps_ q) (ratio_ q) (users q) (displays q) bitrate
    (adjust_ratio_instant q) (abr_config q) (new_user_instant q).
Definition bitrate (q : VideoQoS) : Z := bitrate_store q.

Definition ratio (q : VideoQoS) : f32 * VideoQoS :=
  let q := if lt (ratio_ q) BR_MIN_HIGH_RESOLUTION || gt (ratio_ q) BR_MAX
           then set_ratio BR_BALANCED q else q in
  (ratio_ q, q).

Definition iter (q : VideoQoS) : list UserData := (iter_users (users q)).*2.

Definition record (q : VideoQoS) : bool := existsb record_ (iter q).

Definition set_support_changing_quality (name : string) (support : bool) (q : VideoQoS)
    : VideoQoS :=
  set_displays (alter (λ d, mkDisplay (send_counter d) support) name (displays q)) q.

Definition in_vbr_state (q : VideoQoS) : bool :=
  abr_config q && forallb (λ d, support_changing_quality d.2) (map_to_list (displays q)).

(** ** The wishes of all peers *)
Definition user_fps (u : UserData) : Z :=
  let fps := default FPS (custom_fps u) in
  match auto_adjust_fps u with
  | Some a => if (fps =? 0) || (a <? fps) then a else fps
  | None => fps
  end.

Definition highest_fps (q : VideoQoS) : result Z panic :=
  let l := List.filter (λ f, f >=? MIN_FPS) (map user_fps (iter q)) in
  clamp_u32 (default FPS (minimum l)) MIN_FPS MAX_FPS.

(** [max_by] keeps the later one of equal times. *)
Definition latest (a b : Z * Quality) : Z * Quality := if a.1 <=? b.1 then b else a.
Definition latest_quality (q : VideoQoS) : Quality :=
  match omap quality (iter q) with
  | [] => Balanced
  | x :: r => (foldl latest x r).2
  end.
(** ** Adjusting the frame rate *)
Definition adjust_fps (now : Z) (q : VideoQoS) : result VideoQoS panic :=
  let? highest := highest_fps q in
  let fps := default INIT_FPS (minimum (map (λ u, default INIT_FPS (delay_fps (delay u))) (iter q))) in
  let fps := if existsb (λ u, response_delayed (delay u)) (iter q)
             then if fps >? MIN_FPS + 1 then MIN_FPS + 1 else fps else fps in
  let fps := if Int.saturating_sub now (new_user_instant q) / 1000 <? 1
             then if fps >? INIT_FPS then INIT_FPS else fps else fps in
  let? fps := clamp_u32 fps MIN_FPS highest in
  Ok (set_fps fps q).

(** ** Adjusting the bitrate *)

(** The ratio that corresponds to 1 Mbps, not below the lower limit. *)
Definition ratio_1mbps (current_ratio : f32) (current_bitrate : Z) : option f32 :=
  if current_bitrate >? 0 then
    Some (max (div (mul current_ratio (lit 1000 1)) (of_int current_bitrate)) BR_MIN_HIGH_RESOLUTION)
  else None.

Definition ratio_add_150kbps (current_ratio : f32) (current_bitrate : Z) : option f32 :=
  if current_bitrate >? 0 then
    Some (div (mul (of_int (Int.wrap 32 (current_bitrate + 150))) current_ratio)
              (of_int current_bitrate))
  else None.

Definition lower_by (min : f32) (r : option f32) : f32 :=
  match r with Some r => if gt min r then r else min | None => min end.

Definition min_ratio (target : Quality) (r1 : option f32) : f32 :=
  match target with
  | Best => max (lower_by (div BR_BEST (lit 25 10)) r1) BR_MIN
  | Balanced => max (lower_by (min (div BR_BALANCED (lit 2 1)) (lit 4 10)) r1)
                    BR_MIN_HIGH_RESOLUTION
  | Low => BR_MIN_HIGH_RESOLUTION
  | Custom _ => BR_MIN_HIGH_RESOLUTION
  end.

(** The new ratio by the thresholds of the delay. *)
Definition scaled_ratio (max_delay : Z) (dynamic_screen : bool) (current : f32) : f32 :=
  if max_delay <? 50 then if dynamic_screen then mul current (lit 115 100) else current
  else if max_delay <? 100 then if dynamic_screen then mul current (lit 11 10) else current
  else if max_delay <? DELAY_THRESHOLD_150MS then
    if dynamic_screen then mul current (lit 105 100) else current
  else if max_delay <? 200 then mul current (lit 95 100)
  else if max_delay <? 300 then mul current (lit 9 10)
  else if max_delay <? 500 then mul current (lit 85 100)
  else mul current (lit 8 10).

Definition limit_increase (v current : f32) (add150 : option f32) : f32 :=
  match add150 with
  | Some a => if gt v a && gt a current && ge current BR_SPEED then a else v
  | None => v
  end.

Definition adjust_ratio (now : Z) (dynamic_screen : bool) (q : VideoQoS)
    : result VideoQoS panic :=
  if negb (in_vbr_state q) then Ok q
  else match maximum (map (λ u, avg_delay (delay u)) (iter q)) with
  | None => Ok q
  | Some max_delay =>
      let current_ratio := ratio_ q in
      let current_bitrate := bitrate q in
      let mn := min_ratio (latest_quality q) (ratio_1mbps current_ratio current_bitrate) in
      let mx := mul (quality_ratio (latest_quality q)) MAX_BR_MULTIPLE in
      let v := scaled_ratio max_delay dynamic_screen current_ratio in
      let v := limit_increase v current_ratio (ratio_add_150kbps current_ratio current_bitrate) in
      let? r := clamp_f32 v mn mx in
      Ok (set_adjusted now (set_ratio r q))
  end.

(** ** Sessions *)
Definition on_connection_open (now : Z) (id : Z) (enable_abr : string) (q : VideoQoS)
    : VideoQoS :=
  mkQoS (fps_ q) (ratio_ q) (<[id := default_user]> (users q)) (displays q) (bitrate_store q)
    (adjust_ratio_instant q) (negb (String.eqb enable_abr "N")) now.

Definition on_connection_close (now : Z) (id : Z) (q : VideoQoS) : VideoQoS :=
  let q := set_users (delete id (users q)) q in
  if decide (users q = ∅) then default_qos now else q.

Definition user_custom_fps (id : Z) (fps : Z) (q : VideoQoS) : VideoQoS :=
  if (fps <? MIN_FPS) || (fps >? MAX_FPS) then q
  else set_users (alter (λ u, mkUser (auto_adjust_fps u) (Some fps) (quality u) (delay u)
                                     (record_ u)) id (users q)) q.

Definition user_auto_adjust_fps (id : Z) (fps : Z) (q : VideoQoS) : VideoQoS :=
  if (fps <? MIN_FPS) || (fps >? MAX_FPS) then q
  else set_users (alter (λ u, mkUser (Some fps) (custom_fps u) (quality u) (delay u)
                                     (record_ u)) id (users q)) q.

(** The twelve bits of a custom quality, in hundredths, times two. *)
Definition custom_ratio (k : Z) : result f32 panic :=
  clamp_f32 (div (of_int (k * 2)) (lit 100 1)) BR_MIN BR_MAX.

Definition convert_quality (v : Z) : result Quality panic :=
  if v =? BalancedV then Ok Balanced
  else if v =? LowV then Ok Low
  else if v =? BestV then Ok Best
  else let? b := custom_ratio (Z.land (Z.shiftr v 8) 0xFFF) in Ok (Custom b).

Definition user_image_quality (time : Z) (id : Z) (image_quality : Z) (q : VideoQoS)
    : result VideoQoS panic :=
  let? ql := convert_quality image_quality in
  match users q !! id with
  | None => Ok q
  | Some u =>
      let u := mkUser (auto_adjust_fps u) (custom_fps u) (Some (time, ql)) (delay u) (record_ u) in
      let q := set_users (<[id := u]> (users q)) q in
      Ok (set_ratio (quality_ratio (latest_quality q)) q)
  end.

Definition user_record (id : Z) (v : bool) (q : VideoQoS) : VideoQoS :=
  set_users (alter (λ u, mkUser (auto_adjust_fps u) (custom_fps u) (quality u) (delay u) v)
                   id (users q)) q.

(** ** Network delay *)

(** Small frame rates mean quick reactions: the lowest and the normal rate. *)
Definition fps_levels (target_ratio : f32) : Z * Z :=
  if ge target_ratio BR_BEST then (8, 16)
  else if ge target_ratio BR_BALANCED then (10, 20)
  else (12, 24).

Definition devide_fps (fps avg : Z) : Z :=
  to_u32 (ceil (div (of_int fps) (div (of_int avg) (of_int DELAY_THRESHOLD_150MS)))).

(** The rate for an average delay, and the new count of quick increases. *)
Definition adapt (min_fps normal_fps avg old_avg fps quick : Z) : Z * Z :=
  let dividend_ms := DELAY_THRESHOLD_150MS * min_fps in
  if avg <? 50 then
    let quick := quick + 1 in
    let step := if fps <? normal_fps then 1 else 0 in
    let '(quick, step) := if quick >=? 3 then (0, 5) else (quick, step) in
    (Z.max min_fps (fps + step), quick)
  else if avg <? 100 then
    let step := if avg <? old_avg then if fps <? normal_fps then 1 else 0 else 0 in
    (Z.max min_fps (fps + step), quick)
  else if avg <? DELAY_THRESHOLD_150MS then (Z.max min_fps fps, quick)
  else
    let d := devide_fps fps avg in
    (if avg <? 200 then Z.max min_fps d
     else if avg <? 300 then Z.min min_fps d
     else if avg <? 600 then dividend_ms / avg
     else Z.min (dividend_ms / avg) d, quick).

(** The new delay record of the peer whose answer took [dl]. *)
Definition note_delay (levels : Z * Z) (highest fps dl : Z) (d : UserDelay)
    : result UserDelay panic :=
  let dl := Z.max dl 10 in
  let old_avg := avg_delay d in
  let d := add_delay dl d in
  let avg := Z.max (avg_delay d) 10 in
  let '(fps, quick) := adapt levels.1 levels.2 avg old_avg fps (quick_increase_fps_count d) in
  let inc := if avg <? DELAY_THRESHOLD_150MS then increase_fps_count d + 1 else 0 in
  let '(inc, fps) := if inc >=? 3 then (0, fps + 1) else (inc, fps) in
  let quick := if avg >? 50 then 0 else quick in
  let? fps := clamp_u32 fps MIN_FPS highest in
  Ok (mkDelay (response_delayed d) (delay_history d) (Some fps) (rtt_calculator d) quick inc).

Definition user_network_delay (now : Z) (id : Z) (dl : Z) (q : VideoQoS)
    : result VideoQoS panic :=
  let? highest := highest_fps q in
  let levels := fps_levels (quality_ratio (latest_quality q)) in
  match users q !! id with
  | Some u =>
      let? d := note_delay levels highest (fps_ q) dl (delay u) in
      let first := match delay_fps (delay u) with None => true | Some _ => false end in
      let? q := adjust_fps now (set_users (<[id := set_delay d u]> (users q)) q) in
      if first && negb linux then adjust_ratio now false q else Ok q
  | None => adjust_fps now q
  end.

Definition user_delay_response_elapsed (now : Z) (id : Z) (elapsed : Z) (q : VideoQoS)
    : result VideoQoS panic :=
  match users q !! id with
  | None => Ok q
  | Some u =>
      let d := delay u in
      let delayed := elapsed >? 2000 in
      let d := mkDelay delayed (delay_history d) (delay_fps d) (rtt_calculator d)
                       (quick_increase_fps_count d) (increase_fps_count d) in
      if delayed then
        adjust_fps now (set_users (<[id := set_delay (add_delay (Int.wrap 32 elapsed) d) u]> (users q)) q)
      else Ok (set_users (<[id := set_delay d u]> (users q)) q)
  end.

(** ** Displays *)
Definition new_display (name : string) (q : VideoQoS) : VideoQoS :=
  set_displays (<[name := default_display]> (displays q)) q.
Definition remove_display (name : string) (q : VideoQoS) : VideoQoS :=
  set_displays (delete name (displays q)) q.

Definition update_display_data (now : Z) (name : string) (n : Z) (q : VideoQoS)
    : result VideoQoS panic :=
  let q := set_displays (alter (λ d, mkDisplay (Int.wrap 64 (send_counter d + n))
                                               (support_changing_quality d)) name (displays q)) q in
  let? q := adjust_fps now q in
  if in_vbr_state q then
    if Int.saturating_sub now (adjust_ratio_instant q) / 1000 >=? ADJUST_RATIO_INTERVAL then
      let dynamic_screen :=
        existsb (λ d, send_counter d.2 >=? ADJUST_RATIO_INTERVAL * DYNAMIC_SCREEN_THRESHOLD)
                (map_to_list (displays q)) in
      let q := set_displays ((λ d, mkDisplay 0 (support_changing_quality d)) <$> displays q) q in
      adjust_ratio now dynamic_screen q
    else Ok q
  else Ok (set_ratio (quality_ratio (latest_quality q)) q).

(** ** What the rest of the program does with the controller *)
Inductive op : Type :=
  | OnConnectionOpen (id : Z) (enable_abr : string)
  | OnConnectionClose (id : Z)
  | UserCustomFps (id fps : Z)
  | UserAutoAdjustFps (id fps : Z)
  | UserImageQuality (id image_quality : Z)
  | UserRecord (id : Z) (v : bool)
  | UserNetworkDelay (id delay : Z)
  | UserDelayResponseElapsed (id elapsed : Z)
  | NewDisplay (name : string)
  | RemoveDisplay (name : string)
  | UpdateDisplayData (name : string) (send_counter : Z)
  | SetSupport (name : string) (support : bool)
  | StoreBitrate (bitrate : Z)
  | AskRatio.

(** An operation at a time of the monotonic clock and of the wall clock. *)
Definition exec (now time : Z) (o : op) (q : VideoQoS) : result VideoQoS panic :=
  match o with
  | OnConnectionOpen id abr => Ok (on_connection_open now id abr q)
  | OnConnectionClose id => Ok (on_connection_close now id q)
  | UserCustomFps id f => Ok (user_custom_fps id f q)
  | UserAutoAdjustFps id f => Ok (user_auto_adjust_fps id f q)
  | UserImageQuality id v => user_image_quality time id v q
  | UserRecord id v => Ok (user_record id v q)
  | UserNetworkDelay id d => user_network_delay now id d q
  | UserDelayResponseElapsed id e => user_delay_response_elapsed now id e q
  | NewDisplay n => Ok (new_display n q)
  | RemoveDisplay n => Ok (remove_display n q)
  | UpdateDisplayData n c => update_display_data now n c q
  | SetSupport n s => Ok (set_support_changing_quality n s q)
  | StoreBitrate b => Ok (store_bitrate b q)
  | AskRatio => Ok (ratio q).2
  end.

Fixpoint run (ops : list (Z * Z * op)) (q : VideoQoS) : result VideoQoS panic :=
  match ops with
  | [] => Ok q
  | (now, time, o) :: r => let? q := exec now time o q in run r q
  end.

(** ** Well-formed controllers *)
Definition fps_ok (f : Z) : Prop := MIN_FPS <= f <= MAX_FPS.
Definition maybe (P : Z -> Prop) (o : option Z) : Prop := forall f, o = Some f -> P f.
Definition ratio_ok (r : f32) : Prop := le BR_MIN_HIGH_RESOLUTION r = true /\ le r BR_MAX = true.
Definition quality_ok (ql : Quality) : Prop :=
  match ql with
  | Custom v => exists k, 0 <= k < 4096 /\ custom_ratio k = Ok v
  | _ => True
  end.

Record delay_ok (d : UserDelay) : Prop := mkDelayOk {
  ok_delay_fps : maybe fps_ok (delay_fps d);
  ok_history : (length (delay_history d) <= 3)%nat;
  ok_samples : (length (Rtt.samples (rtt_calculator d)) <= Rtt.WINDOW_SAMPLES)%nat;
}.

Record user_ok (u : UserData) : Prop := mkUserOk {
  ok_auto : maybe fps_ok (auto_adjust_fps u);
  ok_custom : maybe fps_ok (custom_fps u);
  ok_quality : forall t ql, quality u = Some (t, ql) -> quality_ok ql;
  ok_delay : delay_ok (delay u);
}.

(** A controller is well formed when its rate and ratio are in range, its
    records of peers are, and a peer that does not answer slows it down. *)
Record wf (q : VideoQoS) : Prop := mkWf {
  wf_fps : fps_ok (fps_ q);
  wf_ratio : ratio_ok (ratio_ q);
  wf_users : map_Forall (λ _, user_ok) (users q);
  wf_delayed : forall id u, users q !! id = Some u -> response_delayed (delay u) = true ->
               fps_ q <= MIN_FPS + 1;
}.

Lemma foldl_min_spec l x y : y <= foldl Z.min x l <-> y <= x /\ forall z, In z l -> y <= z.
Proof.
  revert x. induction l as [|z l IH]; intros x; cbn.
  - intuition.
  - rewrite IH. split.
    + intros [H1 H2]. split; [lia|]. intros w [<-|Hw]; [lia | auto].
    + intros [H1 H2]. split; [pose proof (H2 z (or_introl eq_refl)); lia | auto].
Qed.

Lemma minimum_le l m x : minimum l = Some m -> In x l -> m <= x.
Proof.
  destruct l as [|y l]; [done|]. cbn. intros [= <-] Hx.
  destruct (proj1 (foldl_min_spec l y _) (Z.le_refl _)) as [H1 H2].
  destruct Hx as [<-|Hx]; auto.
Qed.

Lemma minimum_in l m : minimum l = Some m -> In m l.
Proof.
  destruct l as [|y l]; [done|]. cbn. intros [= <-]. revert y.
  induction l as [|z l IH]; intros y; cbn; [auto|].
  destruct (IH (Z.min y z)) as [E|E]; [|auto]. rewrite <- E.
  destruct (Z.min_spec y z) as [[_ ->]|[_ ->]]; auto.
Qed.

Lemma clamp_u32_ok x lo hi : lo <= hi -> exists y, clamp_u32 x lo hi = Ok y /\ lo <= y <= hi /\
  (y <= x \/ y = lo) /\ (x <= y \/ y = hi).
Proof.
  intros H. unfold clamp_u32. rewrite (proj2 (Z.leb_le lo hi) H).
  eexists; split; [reflexivity|]. repeat case_match; bool_prop; lia.
Qed.

(** *** Quality levels *)
Definition custom_checked (k : Z) : bool :=
  match custom_ratio k with
  | Ok v => le BR_MIN v && le v BR_MAX && le BR_MIN (mul v MAX_BR_MULTIPLE)
            && le (mul v MAX_BR_MULTIPLE) BR_MAX
  | Err _ => false
  end.
Lemma custom_table : forallb custom_checked (seqZ 0 4096) = true.
Proof. vm_compute. reflexivity. Qed.

Lemma custom_spec k : 0 <= k < 4096 -> exists v, custom_ratio k = Ok v /\
  le BR_MIN v = true /\ le v BR_MAX = true /\ le BR_MIN (mul v MAX_BR_MULTIPLE) = true /\
  le (mul v MAX_BR_MULTIPLE) BR_MAX = true.
Proof.
  intros H. pose proof custom_table as T. rewrite forallb_forall in T.
  specialize (T k). unfold custom_checked in T.
  rewrite <- list_elem_of_In, elem_of_seqZ in T.
  specialize (T ltac:(lia)). destruct (custom_ratio k) as [v|]; [|discriminate].
  exists v. apply andb_prop in T as [T H4]. apply andb_prop in T as [T H3].
  apply andb_prop in T as [H1 H2]. auto.
Qed.

Lemma quality_ratio_ok ql : quality_ok ql -> ratio_ok (quality_ratio ql).
Proof.
  destruct ql as [| | |v]; [by vm_compute.. |].
  intros (k & Hk & Hv). destruct (custom_spec k Hk) as (v' & Hv' & H1 & H2 & _).
  assert (v' = v) as -> by (rewrite Hv in Hv'; by injection Hv'). clear Hv Hv'.
  split; [|exact H2]. apply (le_trans _ BR_MIN); [vm_compute; reflexivity | exact H1].
Qed.

(** *** The bounds of the ratio *)
Lemma lower_by_le c r : is_nan c = false -> le (lower_by c r) c = true.
Proof.
  intros Hc. destruct r as [r|]; cbn [lower_by]; [|by apply le_refl]. unfold gt.
  destruct (lt r c) eqn:E; [by apply lt_le | by apply le_refl].
Qed.

Lemma min_ratio_ok ql r1 : quality_ok ql ->
  le BR_MIN_HIGH_RESOLUTION (min_ratio ql r1) = true
  /\ le (min_ratio ql r1) (mul (quality_ratio ql) MAX_BR_MULTIPLE) = true
  /\ le (mul (quality_ratio ql) MAX_BR_MULTIPLE) BR_MAX = true.
Proof.
  assert (Hb : forall c lo top r, is_nan c = false -> is_nan lo = false -> le c top = true ->
    le lo top = true -> le lo (max (lower_by c r) lo) = true /\ le (max (lower_by c r) lo) top = true).
  { intros c lo top r Hc Hl Ht Hlt. split; [by apply max_ge_r|]. apply max_le; [done| |done].
    by eapply le_trans; [apply lower_by_le|]. }
  destruct ql as [| | |v]; intros Hq; cbn [min_ratio quality_ratio].
  - destruct (Hb (div BR_BEST (lit 25 10)) BR_MIN (mul BR_BEST MAX_BR_MULTIPLE) r1)
      as [H1 H2]; [by vm_compute..|]. split_and!; [|done|by vm_compute].
    apply (le_trans _ BR_MIN); [by vm_compute | done].
  - destruct (Hb (min (div BR_BALANCED (lit 2 1)) (lit 4 10)) BR_MIN_HIGH_RESOLUTION
                 (mul BR_BALANCED MAX_BR_MULTIPLE) r1) as [H1 H2]; [by vm_compute..|].
    split_and!; [done|done|by vm_compute].
  - by vm_compute.
  - destruct Hq as (k & Hk & Hv). destruct (custom_spec k Hk) as (v' & Hv' & _ & _ & H3 & H4).
    assert (v' = v) as -> by (rewrite Hv in Hv'; by injection Hv'). clear Hv Hv'.
    split_and!; [vm_compute; reflexivity | | exact H4].
    apply (le_trans _ BR_MIN); [vm_compute; reflexivity | exact H3].
Qed.

Lemma scaled_not_nan d b r : ratio_ok r -> is_nan (scaled_ratio d b r) = false.
Proof.
  intros [H1 H2].
  assert (Hf : is_finite r = true) by (by apply (finite_between BR_MIN_HIGH_RESOLUTION BR_MAX)).
  assert (Hn : is_nan r = false) by (by destruct r).
  unfold scaled_ratio. repeat (case_match; [|]); try done; by apply mul_not_nan.
Qed.

Lemma limit_not_nan v r a : is_nan v = false -> is_nan (limit_increase v r a) = false.
Proof.
  intros Hv. destruct a as [a|]; cbn [limit_increase]; [|done]. unfold gt.
  destruct (lt a v) eqn:E; [|done]. destruct (lt_not_nan _ _ E). by repeat case_match.
Qed.

(** ** The order of iteration *)
Context (iter_perm : forall m, iter_users m ≡ₚ map_to_list m).

Lemma in_iter q u : In u (iter q) <-> exists id, users q !! id = Some u.
Proof.
  unfold iter. rewrite <- list_elem_of_In, list_elem_of_fmap. split.
  - intros ([id u'] & -> & H). rewrite iter_perm, elem_of_map_to_list in H. eauto.
  - intros [id H]. exists (id, u). by rewrite iter_perm, elem_of_map_to_list.
Qed.

Lemma latest_in l x : In (foldl latest x l) (x :: l).
Proof.
  revert x. induction l as [|y l IH]; intros x; [by left|]. cbn [foldl].
  destruct (IH (latest x y)) as [E|E]; [|cbn; auto]. rewrite <- E. unfold latest. case_match; cbn; auto.
Qed.

Lemma latest_ok q : map_Forall (λ _, user_ok) (users q) -> quality_ok (latest_quality q).
Proof.
  intros H. unfold latest_quality. destruct (omap quality (iter q)) as [|x r] eqn:E; [done|].
  destruct (foldl latest x r) as [t ql] eqn:Ef. cbn [snd].
  pose proof (latest_in r x) as Hin. rewrite Ef, <- E, <- list_elem_of_In, list_elem_of_omap in Hin.
  destruct Hin as (u & Hu & Hq). rewrite list_elem_of_In, in_iter in Hu. destruct Hu as [id Hu].
  eapply ok_quality; eauto.
Qed.

Lemma highest_ok q : exists h, highest_fps q = Ok h /\ fps_ok h.
Proof.
  unfold highest_fps, fps_ok.
  match goal with |- context [clamp_u32 ?x _ _] => destruct (clamp_u32_ok x MIN_FPS MAX_FPS) as (h & -> & H & _) end;
    [done|]. eauto.
Qed.

(** *** What the adjustments change *)
Lemma adjust_fps_spec now q : exists f h, adjust_fps now q = Ok (set_fps f q)
  /\ highest_fps q = Ok h /\ MIN_FPS <= f <= h /\ fps_ok h
  /\ (forall id u, users q !! id = Some u -> response_delayed (delay u) = true -> f <= MIN_FPS + 1)
  /\ (forall id u g, users q !! id = Some u -> delay_fps (delay u) = Some g -> f <= g \/ f = MIN_FPS).
Proof.
  unfold adjust_fps. destruct (highest_ok q) as (h & -> & Hh).
  set (l := map (λ u, default INIT_FPS (delay_fps (delay u))) (iter q)).
  set (m := default INIT_FPS (minimum l)).
  assert (Hm : forall id u g, users q !! id = Some u -> delay_fps (delay u) = Some g -> m <= g).
  { intros id u g Hu Hg. assert (Hin : In g l).
    { apply List.in_map_iff. exists u. rewrite Hg, in_iter. eauto. }
    subst m. destruct (minimum l) as [mm|] eqn:E; [cbn; by eapply minimum_le|].
    destruct l; [done|discriminate]. }
  set (m1 := if existsb _ _ then _ else _).
  assert (Hm1 : m1 <= m /\ ((exists id u, users q !! id = Some u /\ response_delayed (delay u) = true)
                            -> m1 <= MIN_FPS + 1)).
  { subst m1. destruct (existsb _ _) eqn:E.
    - unfold MIN_FPS. repeat case_match; bool_prop; lia.
    - split; [lia|]. intros (id & u & Hu & Hd). rewrite existsb_false in E.
      assert (Hf : response_delayed (delay u) = false) by (apply E, in_iter; eauto). congruence. }
  set (m2 := if _ <? 1 then _ else _).
  assert (Hm2 : m2 <= m1) by (subst m2; repeat case_match; bool_prop; lia).
  destruct (clamp_u32_ok m2 MIN_FPS h) as (f & -> & Hf & Hle & _); [apply Hh|].
  exists f, h. split; [reflexivity|]. split; [reflexivity|]. split; [exact Hf|]. split; [exact Hh|]. split.
  - intros id u Hu Hd. assert (m1 <= MIN_FPS + 1) by (apply Hm1; eauto). unfold MIN_FPS in *. lia.
  - intros id u g Hu Hg. specialize (Hm id u g Hu Hg). lia.
Qed.

Lemma adjust_fps_wf now q : ratio_ok (ratio_ q) -> map_Forall (λ _, user_ok) (users q) ->
  exists q', adjust_fps now q = Ok q' /\ wf q'.
Proof.
  intros Hr Hu. destruct (adjust_fps_spec now q) as (f & h & -> & _ & Hf & Hh & Hd & _).
  eexists; split; [reflexivity|]. split; [unfold fps_ok in *; cbn; lia|exact Hr|exact Hu|exact Hd].
Qed.

Lemma adjust_ratio_spec now b q : ratio_ok (ratio_ q) -> map_Forall (λ _, user_ok) (users q) ->
  exists q', adjust_ratio now b q = Ok q' /\ ratio_ok (ratio_ q') /\ users q' = users q /\ fps_ q' = fps_ q.
Proof.
  intros Hr Hu. unfold adjust_ratio. destruct (in_vbr_state q); cbn [negb]; [|by exists q].
  destruct (maximum _) as [d|]; [|by exists q].
  destruct (min_ratio_ok (latest_quality q) (ratio_1mbps (ratio_ q) (bitrate q)) (latest_ok q Hu))
    as (H1 & H2 & H3).
  unfold clamp_f32. set (v := limit_increase _ _ _).
  assert (Hv : is_nan v = false) by (by apply limit_not_nan, scaled_not_nan).
  destruct (clamp v _ _) as [y|] eqn:E; [|unfold clamp in E; rewrite H2 in E; discriminate].
  destruct (clamp_spec _ _ _ _ Hv E) as [E1 E2].
  eexists; split; [reflexivity|]. cbn. split_and!; try done. split; by eapply le_trans.
Qed.

Lemma adjust_ratio_wf now b q : wf q -> exists q', adjust_ratio now b q = Ok q' /\ wf q'.
Proof.
  intros [Hf Hr Hu Hd]. destruct (adjust_ratio_spec now b q Hr Hu) as (q' & -> & Hr' & Eu & Ef).
  eexists; split; [reflexivity|]. split; rewrite ?Ef, ?Eu; done.
Qed.

(** *** Every operation *)
Lemma rtt_samples d r : (length (Rtt.samples r) <= Rtt.WINDOW_SAMPLES)%nat ->
  (length (Rtt.samples (Rtt.update d r)) <= Rtt.WINDOW_SAMPLES)%nat.
Proof.
  unfold Rtt.update, Rtt.WINDOW_SAMPLES. cbn [Rtt.samples]. intros H. rewrite length_app. cbn [length].
  destruct (Nat.leb_spec 60 (length (Rtt.samples r))) as [E|E]; [|lia].
  destruct (Rtt.samples r) as [|x s]; cbn [length tail] in *; lia.
Qed.

Lemma add_delay_ok dl d : delay_ok d -> delay_ok (add_delay dl d).
Proof.
  intros [Hf Hh Hs]. split; cbn [delay_fps add_delay delay_history rtt_calculator].
  - done.
  - rewrite length_app. cbn [length]. unfold HISTORY_DELAY_LEN.
    destruct (Nat.ltb_spec 2 (length (delay_history d))) as [E|E]; [|lia].
    destruct (delay_history d) as [|x s]; cbn [length tail] in *; lia.
  - by apply rtt_samples.
Qed.

Lemma note_delay_spec levels h f dl d : fps_ok h -> exists d' g,
  note_delay levels h f dl d = Ok d' /\ delay_fps d' = Some g /\ MIN_FPS <= g <= h
  /\ delay_history d' = delay_history (add_delay (Z.max dl 10) d)
  /\ rtt_calculator d' = rtt_calculator (add_delay (Z.max dl 10) d)
  /\ let avg := Z.max (avg_delay (add_delay (Z.max dl 10) d)) 10 in
     exists w q, (adapt levels.1 levels.2 avg (avg_delay d) f (quick_increase_fps_count d)) = (w, q)
     /\ (avg < DELAY_THRESHOLD_150MS -> Z.min w h <= g <= Z.max (w + 1) MIN_FPS)
     /\ (DELAY_THRESHOLD_150MS <= avg -> (g <= w \/ g = MIN_FPS)).
Proof.
  intros [Hh _]. unfold note_delay.
  change (quick_increase_fps_count (add_delay (Z.max dl 10) d)) with (quick_increase_fps_count d).
  set (avg := Z.max (avg_delay (add_delay (Z.max dl 10) d)) 10).
  destruct (adapt _ _ avg _ _ _) as [w q] eqn:Ea.
  set (inc := if avg <? DELAY_THRESHOLD_150MS then _ else 0).
  destruct (if inc >=? 3 then (0, w + 1) else (inc, w)) as [inc' w'] eqn:Ei.
  destruct (clamp_u32_ok w' MIN_FPS h Hh) as (g & Eg & Hg & Hle & Hge). rewrite Eg.
  exists (mkDelay (response_delayed (add_delay (Z.max dl 10) d)) (delay_history (add_delay (Z.max dl 10) d))
    (Some g) (rtt_calculator (add_delay (Z.max dl 10) d)) (if avg >? 50 then 0 else q) inc'), g.
  split; [reflexivity|]. split; [reflexivity|]. split; [exact Hg|]. split; [reflexivity|].
  split; [reflexivity|]. exists w, q. split; [reflexivity|].
  assert (Hw : (w' = w \/ w' = w + 1) /\ (DELAY_THRESHOLD_150MS <= avg -> w' = w)).
  { destruct (inc >=? 3) eqn:E; injection Ei as <- <-; [|tauto]. split; [by right|].
    intros Hl. subst inc. apply Z.ltb_ge in Hl. rewrite Hl in E. discriminate. }
  destruct Hw as [Hw Hw']. split; intros Ha; [|specialize (Hw' Ha)]; lia.
Qed.

Lemma alter_users (P : UserData -> Prop) f id (m : gmap Z UserData) : map_Forall (λ _, P) m ->
  (forall u, P u -> P (f u)) -> map_Forall (λ _, P) (alter f id m).
Proof.
  intros Hm Hf k u. destruct (decide (k = id)) as [->|Hk].
  - rewrite lookup_alter_Some. intros [(_ & u' & Hu & ->)|[? _]]; [|done]. eapply Hf, Hm, Hu.
  - rewrite lookup_alter_ne by done. apply Hm.
Qed.

(** Changing what a peer wishes, not its delays, keeps a controller well formed. *)
Lemma wish_wf f id q : wf q -> (forall u, user_ok u -> user_ok (f u)) ->
  (forall u, delay (f u) = delay u) -> wf (set_users (alter f id (users q)) q).
Proof.
  intros [Hf Hr Hu Hd] Hok Hs. split; [done|done| |].
  - by apply alter_users.
  - intros k u. cbn. destruct (decide (k = id)) as [->|Hk].
    + rewrite lookup_alter_Some. intros [(_ & u' & E & ->)|[? _]]; [|done]. rewrite Hs. by apply (Hd id).
    + rewrite lookup_alter_ne by done. apply (Hd k).
Qed.

Lemma maybe_some (P : Z -> Prop) f : P f -> maybe P (Some f).
Proof. by intros H g [= <-]. Qed.

Lemma fps_guard fps : (fps <? MIN_FPS) || (fps >? MAX_FPS) = false -> fps_ok fps.
Proof. intros H. unfold fps_ok. bool_prop. lia. Qed.

Lemma custom_fps_wf id f q : wf q -> wf (user_custom_fps id f q) /\ wf (user_auto_adjust_fps id f q).
Proof.
  intros H. unfold user_custom_fps, user_auto_adjust_fps.
  destruct (_ || _) eqn:E; [done|]. apply fps_guard in E.
  split; apply wish_wf; try done; intros u [? ? ? ?]; split; try done; by apply maybe_some.
Qed.

Lemma open_wf now id abr q : wf q -> wf (on_connection_open now id abr q).
Proof.
  intros [Hf Hr Hu Hd]. split; [done|done| |].
  - apply map_Forall_insert_2; [|done]. split; try done. split; cbn; [done|lia|lia].
  - intros k u. cbn. destruct (decide (k = id)) as [->|Hk].
    + rewrite lookup_insert_eq. by intros [= <-].
    + rewrite lookup_insert_ne by done. apply (Hd k).
Qed.

Lemma default_wf now : wf (default_qos now).
Proof. split; [done|by vm_compute|apply map_Forall_empty|done]. Qed.

Lemma close_wf now id q : wf q -> wf (on_connection_close now id q).
Proof.
  intros [Hf Hr Hu Hd]. unfold on_connection_close. case_decide; [apply default_wf|].
  split; [done|done|by apply map_Forall_delete|].
  intros k u. cbn. rewrite lookup_delete_Some. intros [_ H']. by apply (Hd k).
Qed.

Lemma convert_ok v : exists ql, convert_quality v = Ok ql /\ quality_ok ql.
Proof.
  unfold convert_quality. repeat (case_match; [by eexists|]).
  set (k := Z.land (Z.shiftr v 8) 0xFFF).
  assert (Hk : 0 <= k < 4096).
  { subst k. change 0xFFF with (Z.ones 12). rewrite Z.land_ones by lia. apply Z.mod_pos_bound. lia. }
  destruct (custom_spec k Hk) as (b & Hb & _). rewrite Hb. eexists; split; [reflexivity|]. by exists k.
Qed.

Lemma image_quality_wf time id v q : wf q -> exists q', user_image_quality time id v q = Ok q' /\ wf q'.
Proof.
  intros H. unfold user_image_quality. destruct (convert_ok v) as (ql & -> & Hq).
  destruct (users q !! id) as [u|] eqn:E; [|by exists q]. eexists; split; [reflexivity|].
  destruct H as [Hf Hr Hu Hd]. set (u' := mkUser _ _ _ _ _).
  assert (Hu' : map_Forall (λ _, user_ok) (<[id := u']> (users q))).
  { apply map_Forall_insert_2; [|done]. destruct (Hu id u E). split; try done.
    cbn. by intros t ql' [= <- <-]. }
  split; [done| |exact Hu'|].
  - cbn. apply quality_ratio_ok, latest_ok. exact Hu'.
  - intros k w. cbn. destruct (decide (k = id)) as [->|Hk].
    + rewrite lookup_insert_eq. intros [= <-]. exact (Hd id u E).
    + rewrite lookup_insert_ne by done. apply (Hd k).
Qed.

Lemma network_users id u d' g dl q h : wf q -> users q !! id = Some u -> delay_fps d' = Some g ->
  fps_ok h -> MIN_FPS <= g <= h ->
  delay_history d' = delay_history (add_delay (Z.max dl 10) (delay u)) ->
  rtt_calculator d' = rtt_calculator (add_delay (Z.max dl 10) (delay u)) ->
  map_Forall (λ _, user_ok) (<[id := set_delay d' u]> (users q)).
Proof.
  intros Hw E Hg Hh Hgh Hhist Hrtt. apply map_Forall_insert_2; [|apply Hw].
  destruct (wf_users q Hw id u E) as [? ? ? Hdl]. split; try done.
  pose proof (add_delay_ok (Z.max dl 10) _ Hdl) as [_ A B].
  split; cbn; [|by rewrite Hhist|by rewrite Hrtt]. rewrite Hg. apply maybe_some.
  destruct Hh. unfold fps_ok in *. lia.
Qed.

Lemma network_delay_wf now id dl q : wf q -> exists q', user_network_delay now id dl q = Ok q' /\ wf q'.
Proof.
  intros Hw. pose proof Hw as [Hf Hr Hu Hd]. unfold user_network_delay. destruct (highest_ok q) as (h & -> & Hh).
  destruct (users q !! id) as [u|] eqn:E; [|by apply adjust_fps_wf].
  destruct (note_delay_spec (fps_levels (quality_ratio (latest_quality q))) h (fps_ q) dl (delay u) Hh)
    as (d' & g & Hn & Hg & Hgh & Hhist & Hrtt & _). rewrite Hn.
  destruct (adjust_fps_wf now (set_users (<[id:=set_delay d' u]> (users q)) q)) as (q1 & -> & Hq1); [done| |].
  - by apply (network_users id u d' g dl q h).
  - destruct (_ && _); [by apply adjust_ratio_wf | by eexists].
Qed.

Lemma elapsed_wf now id e q : wf q -> exists q', user_delay_response_elapsed now id e q = Ok q' /\ wf q'.
Proof.
  intros H. pose proof H as [Hf Hr Hu Hd]. unfold user_delay_response_elapsed.
  destruct (users q !! id) as [u|] eqn:E; [|by eexists].
  destruct (Hu id u E) as [A1 A2 A3 [B1 B2 B3]]. destruct (e >? 2000).
  - apply adjust_fps_wf; [done|]. apply map_Forall_insert_2; [|done]. split; try done.
    cbn [delay set_delay]. by apply add_delay_ok.
  - eexists; split; [reflexivity|]. split; [done|done| |].
    + apply map_Forall_insert_2; [|done]. split; done.
    + intros k w. cbn. destruct (decide (k = id)) as [->|Hk].
      * rewrite lookup_insert_eq. by intros [= <-].
      * rewrite lookup_insert_ne by done. apply (Hd k).
Qed.

Lemma display_wf m q : wf q -> wf (set_displays m q).
Proof. by intros [Hf Hr Hu Hd]. Qed.

Lemma update_display_wf now n c q : wf q -> exists q', update_display_data now n c q = Ok q' /\ wf q'.
Proof.
  intros [Hf Hr Hu Hd]. unfold update_display_data.
  match goal with |- context [adjust_fps now ?x] => destruct (adjust_fps_wf now x) as (q1 & -> & Hq1) end;
    [done|done|].
  destruct (in_vbr_state q1).
  - case_match; [|by eexists]. by apply adjust_ratio_wf, display_wf.
  - eexists; split; [reflexivity|]. destruct Hq1. split; try done.
    by apply quality_ratio_ok, latest_ok.
Qed.

Lemma ratio_unchanged q : wf q -> ratio q = (ratio_ q, q).
Proof.
  intros [_ [H1 H2] _ _]. unfold ratio, gt. by rewrite (le_not_lt _ _ H1), (le_not_lt _ _ H2).
Qed.

Lemma step_wf now time o q : wf q -> exists q', exec now time o q = Ok q' /\ wf q'.
Proof.
  intros H. destruct o; cbn [exec];
    eauto using open_wf, close_wf, image_quality_wf, network_delay_wf, elapsed_wf, update_display_wf, display_wf.
  - eexists; split; [reflexivity|]. by apply custom_fps_wf.
  - eexists; split; [reflexivity|]. by apply custom_fps_wf.
  - eexists; split; [reflexivity|]. apply wish_wf; [done| |done]. by intros u [].
  - eexists; split; [reflexivity|]. by destruct H.
  - eexists; split; [reflexivity|]. by rewrite ratio_unchanged.
Qed.

(** *** The rates that follow a delay *)
Definition spf_checked (f : Z) : bool :=
  let s := div (of_int 1) (of_int f) in le (lit 1 120) s && le s (lit 1 1).
Lemma spf_spec f : fps_ok f ->
  le (lit 1 120) (div (of_int 1) (of_int f)) = true /\ le (div (of_int 1) (of_int f)) (lit 1 1) = true.
Proof.
  intros [H1 H2].
  assert (T : forallb spf_checked (seqZ 1 120) = true) by (vm_compute; reflexivity).
  rewrite forallb_forall in T. apply andb_prop, (T f).
  rewrite <- list_elem_of_In, elem_of_seqZ. unfold MIN_FPS, MAX_FPS in *. lia.
Qed.

(** Between 150 and 200 ms the quotient never exceeds the rate. *)
Lemma devide_fps_le f a : fps_ok f -> 150 <= a < 200 -> devide_fps f a <= f.
Proof.
  intros [H1 H2] Ha.
  assert (T : forallb (λ f, forallb (λ a, devide_fps f a <=? f) (seqZ 150 50)) (seqZ 1 120) = true)
    by (vm_compute; reflexivity).
  rewrite forallb_forall in T. specialize (T f).
  rewrite <- list_elem_of_In, elem_of_seqZ, forallb_forall in T. unfold MIN_FPS, MAX_FPS in *.
  specialize (T ltac:(lia) a). rewrite <- list_elem_of_In, elem_of_seqZ in T.
  apply Z.leb_le, T. lia.
Qed.

Lemma fps_levels_spec r : let l := fps_levels r in 8 <= l.1 <= 12 /\ l.2 = 2 * l.1.
Proof. unfold fps_levels. repeat case_match; cbn; lia. Qed.

Lemma adapt_bounds lo nm avg old f qk w q g h : fps_ok f ->
  8 <= lo <= 12 /\ nm = 2 * lo -> adapt lo nm avg old f qk = (w, q) ->
  MIN_FPS <= g <= h -> (avg < 150 -> Z.min w h <= g <= Z.max (w + 1) MIN_FPS) ->
  (150 <= avg -> g <= w \/ g = MIN_FPS) ->
  (avg < 150 -> Z.min lo h <= g <= Z.max lo f + 6)
  /\ (150 <= avg < 200 -> g <= Z.max lo f)
  /\ (200 <= avg -> g <= lo)
  /\ (300 <= avg -> g <= Z.max 1 (150 * lo / avg)).
Proof.
  intros Hf [Hlo ->] Ha Hg Hl Hh. destruct Hf as [Hf1 Hf2]. unfold adapt, DELAY_THRESHOLD_150MS, MIN_FPS in *.
  assert (Hdiv : 300 <= avg -> 150 * lo / avg <= lo).
  { intros H. apply Z.div_le_upper_bound; nia. }
  split; [|split; [|split]]; intros Hr.
  - specialize (Hl Hr). repeat case_match; simplify_eq; bool_prop; lia.
  - specialize (Hh ltac:(lia)). pose proof (devide_fps_le f avg ltac:(done) Hr).
    repeat case_match; simplify_eq; bool_prop; lia.
  - specialize (Hh ltac:(lia)). repeat case_match; simplify_eq; bool_prop; try lia;
      specialize (Hdiv ltac:(lia)); lia.
  - specialize (Hh ltac:(lia)). specialize (Hdiv ltac:(lia)).
    repeat case_match; simplify_eq; bool_prop; lia.
Qed.

(** ** Theorems *)

(** C18: Whatever the rest of the program does with the controller, in whatever
    order, with whatever numbers and at whatever times: no [clamp] panics, the
    frame rate stays between 1 and 120, the bitrate ratio is a number between
    0.1 and 40, the guards of [fps] and [ratio] never have to replace a value,
    and a peer that has not answered for two seconds keeps everybody at two
    frames per second or less. *)
Theorem controller_well_formed t0 ops : exists q, run ops (default_qos t0) = Ok q
  /\ (MIN_FPS <= fps q <= MAX_FPS) /\ fps q = fps_ q
  /\ ratio_ok (ratio_ q) /\ ratio q = (ratio_ q, q)
  /\ (le (lit 1 120) (spf q) = true /\ le (spf q) (lit 1 1) = true)
  /\ (forall id u, users q !! id = Some u -> response_delayed (delay u) = true -> fps q <= 2).
Proof.
  assert (H : forall q, wf q -> exists q', run ops q = Ok q' /\ wf q').
  { induction ops as [|[[now time] o] ops IH]; intros q Hq; cbn [run]; [by eexists|].
    destruct (step_wf now time o q Hq) as (q1 & -> & Hq1). by apply IH. }
  destruct (H _ (default_wf t0)) as (q & Hq & Hw). exists q. split; [done|].
  assert (Ef : fps q = fps_ q).
  { unfold fps. destruct (wf_fps q Hw). rewrite Z.geb_leb.
    by rewrite (proj2 (Z.leb_le _ _) H0), (proj2 (Z.leb_le _ _) H1). }
  rewrite Ef. split; [apply Hw|]. split; [done|]. split; [apply Hw|].
  split; [by apply ratio_unchanged|]. split; [|apply Hw].
  unfold spf. rewrite Ef. apply spf_spec, Hw.
Qed.

(** What a delay report does to the rate a peer may have.  Below 150 ms it
    rises by at most six frames and never ends under the lowest rate of the
    quality in use; from 150 ms it is not raised above the old rate or that
    lowest rate; from 200 ms it ends at the lowest rate or under it, and from
    300 ms in proportion to the delay.  The stream follows the slowest peer and
    never exceeds what all of them accept. *)
Theorem delay_moves_fps now id dl q u : wf q -> users q !! id = Some u ->
  exists q' u' f h, user_network_delay now id dl q = Ok q' /\ users q' !! id = Some u'
  /\ delay_fps (delay u') = Some f /\ highest_fps q = Ok h
  /\ fps_ q' <= f <= h
  /\ let avg := Z.max (avg_delay (add_delay (Z.max dl 10) (delay u))) 10 in
     let lowest := (fps_levels (quality_ratio (latest_quality q))).1 in
     (avg < 150 -> Z.min lowest h <= f <= Z.max lowest (fps_ q) + 6)
     /\ (150 <= avg < 200 -> f <= Z.max lowest (fps_ q))
     /\ (200 <= avg -> f <= lowest)
     /\ (300 <= avg -> f <= Z.max 1 (150 * lowest / avg)).
Proof.
  intros Hw Hu. unfold user_network_delay. destruct (highest_ok q) as (h & Eh & Hh). rewrite Eh, Hu.
  set (levels := fps_levels _).
  destruct (note_delay_spec levels h (fps_ q) dl (delay u) Hh)
    as (d' & g & Hn & Hg & Hgh & Hhist & Hrtt & w & qk & Ha & Hlow & Hhigh). rewrite Hn.
  destruct (adjust_fps_spec now (set_users (<[id:=set_delay d' u]> (users q)) q))
    as (f & h' & Ef & _ & Hf & _ & _ & Hmin). rewrite Ef.
  assert (Hfg : f <= g).
  { destruct (Hmin id (set_delay d' u) g) as [?|?]; cbn; [by rewrite lookup_insert_eq|done|done|lia]. }
  assert (Hq : exists q', (if (match delay_fps (delay u) with None => true | _ => false end) && negb linux
     then adjust_ratio now false (set_fps f (set_users (<[id:=set_delay d' u]> (users q)) q))
     else Ok (set_fps f (set_users (<[id:=set_delay d' u]> (users q)) q))) = Ok q'
     /\ users q' = <[id:=set_delay d' u]> (users q) /\ fps_ q' = f).
  { destruct (_ && _); [|by eexists]. edestruct adjust_ratio_spec as (q' & -> & _ & E1 & E2); [| |by eexists].
    - apply Hw.
    - by apply (network_users id u d' g dl q h). }
  destruct Hq as (q' & Eq & Eu & Efps). exists q', (set_delay d' u), g, h.
  split; [exact Eq|]. split; [by rewrite Eu, lookup_insert_eq|]. split; [exact Hg|]. split; [done|].
  rewrite Efps. split; [lia|]. cbv zeta. unfold DELAY_THRESHOLD_150MS in *.
  eapply adapt_bounds; [apply Hw|apply fps_levels_spec|exact Ha|exact Hgh|exact Hlow|exact Hhigh].
Qed.

(** *** The estimate of the delay *)

(** The last [n] elements. *)
Definition lastn {A} (n : nat) (l : list A) : list A := drop (length l - n) l.

Lemma lastn_snoc {A} n (l : list A) x : lastn (S n) (l ++ [x]) = lastn n l ++ [x].
Proof.
  unfold lastn. rewrite length_app. cbn [length].
  replace (length l + 1 - S n)%nat with (length l - n)%nat by lia. rewrite drop_app_le by lia. done.
Qed.

Lemma lastn_tail {A} n (l : list A) : (n < length l)%nat -> tail (lastn (S n) l) = lastn n l.
Proof.
  intros H. unfold lastn. replace (length l - n)%nat with (S (length l - S n)) by lia.
  generalize (length l - S n)%nat as k. clear H. induction l as [|x l IH]; intros [|k]; cbn; done.
Qed.

Lemma lastn_all {A} n (l : list A) : (length l <= n)%nat -> lastn n l = l.
Proof. intros H. unfold lastn. by replace (length l - n)%nat with 0%nat by lia. Qed.

Lemma lastn_length {A} n (l : list A) : length (lastn n l) = Nat.min n (length l).
Proof. unfold lastn. rewrite length_drop. lia. Qed.

(** A queue that drops its oldest element when it holds [S n] keeps the last [S n]. *)
Lemma queue_lastn {A} n (l : list A) x :
  (if Nat.leb (S n) (length (lastn (S n) l)) then tail (lastn (S n) l) else lastn (S n) l) ++ [x]
  = lastn (S n) (l ++ [x]).
Proof.
  rewrite lastn_snoc, lastn_length. f_equal. destruct (Nat.leb_spec (S n) (Nat.min (S n) (length l))).
  - apply lastn_tail. lia.
  - rewrite !lastn_all by lia. done.
Qed.

Lemma minimum_snoc l x :
  minimum (l ++ [x]) = Some (match minimum l with Some m => Z.min m x | None => x end).
Proof. destruct l as [|y l]; [done|]. cbn. by rewrite foldl_app. Qed.

Definition rtt_of (l : list Z) : option Z :=
  if Nat.leb 60 (length l) then
    match minimum l, minimum (lastn 60 l) with
    | Some m, Some w => Some (Rtt.smooth m w)
    | _, _ => None
    end
  else None.

Lemma rtt_updates l : foldl (λ r d, Rtt.update d r) Rtt.default l
  = Rtt.mkRtt (minimum l) (minimum (lastn 60 l)) (rtt_of l) (lastn 60 l).
Proof.
  induction l as [|x l IH] using rev_ind; [done|].
  rewrite foldl_app, IH. cbn [foldl]. unfold Rtt.update, Rtt.WINDOW_SAMPLES.
  cbn [Rtt.samples Rtt.min_rtt Rtt.smoothed_rtt]. rewrite queue_lastn, minimum_snoc.
  assert (Hm : match minimum l with
               | Some m => if x <? m then Some x else Some m
               | None => Some x end = Some (match minimum l with Some m => Z.min m x | None => x end)).
  { destruct (minimum l) as [m|]; [|done]. destruct (Z.ltb_spec x m); f_equal; lia. }
  rewrite Hm. f_equal. rewrite lastn_length. unfold rtt_of at 3. rewrite (minimum_snoc l).
  destruct (Nat.leb_spec 60 (length (l ++ [x]))) as [E|E].
  - rewrite (proj2 (Nat.leb_le 60 (Nat.min 60 _))) by lia.
    by rewrite (lastn_snoc 59), minimum_snoc.
  - destruct (Nat.leb_spec 60 (Nat.min 60 (length (l ++ [x])))); [lia|].
    unfold rtt_of. rewrite length_app in E. cbn in E.
    by rewrite (proj2 (Nat.leb_gt 60 (length l))) by lia.
Qed.

(** What the incremental records promise: the average of the last three delays,
    less the round trip, which is unknown for the first nine delays, the least
    delay so far up to the 59th, and then the mean of that and of the least of
    the last sixty; it is taken off only where something remains. *)
Definition estimate (l : list Z) : Z :=
  let last := lastn 3 l in
  let avg := Int.wrap 32 (foldl Z.add 0 last) / Z.of_nat (length last) in
  let rtt := if Nat.leb 60 (length l) then rtt_of l
             else if Nat.leb 10 (length l) then minimum l else None in
  match l, rtt with
  | [], _ => 150
  | _, Some r => if avg >? r then avg - r else avg
  | _, None => avg
  end.

(** The delay of a peer, kept in bounded queues and running minima, is the
    [estimate] computed from all the delays it ever reported. *)
Theorem delay_is_estimated l :
  avg_delay (foldl (λ d dl, add_delay dl d) default_delay l) = estimate l.
Proof.
  assert (H : foldl (λ d dl, add_delay dl d) default_delay l
    = mkDelay false (lastn 3 l) None (foldl (λ r d, Rtt.update d r) Rtt.default l) 0 0).
  { induction l as [|x l IH] using rev_ind; [done|]. rewrite !foldl_app. cbn [foldl]. rewrite IH.
    unfold add_delay, HISTORY_DELAY_LEN. cbn [delay_history response_delayed delay_fps rtt_calculator
      quick_increase_fps_count increase_fps_count].
    f_equal. apply (queue_lastn 2). }
  rewrite H, rtt_updates. unfold avg_delay, estimate.
  cbn [delay_history rtt_calculator]. destruct l as [|x l]; [done|]. set (k := x :: l).
  assert (Hl : Z.of_nat (length (lastn 3 k)) >? 0 = true).
  { rewrite lastn_length. cbn [length k]. rewrite Z.gtb_ltb. apply Z.ltb_lt. lia. }
  rewrite Hl. unfold Rtt.get_rtt, Rtt.MIN_SAMPLES.
  cbn [Rtt.smoothed_rtt Rtt.samples Rtt.min_rtt]. rewrite lastn_length.
  destruct (Nat.leb_spec 60 (length k)) as [E|E].
  - destruct (rtt_of k) as [r|] eqn:Er; [done|]. exfalso. unfold rtt_of in Er.
    rewrite (proj2 (Nat.leb_le _ _) E) in Er. clear -Er. subst k.
    destruct (lastn 60 (x :: l)) eqn:E2; [|done]. apply (f_equal length) in E2.
    rewrite lastn_length in E2. done.
  - unfold rtt_of. rewrite (proj2 (Nat.leb_gt _ _) E).
    destruct (Nat.leb_spec 10 (length k)) as [E1|E1].
    + by rewrite (proj2 (Nat.leb_le 10 (Nat.min 60 (length k)))) by lia.
    + by rewrite (proj2 (Nat.leb_gt 10 (Nat.min 60 (length k)))) by lia.
Qed.
End qos.

(** ** Witnesses *)
Definition hash_order (m : gmap Z UserData) : list (Z * UserData) := map_to_list m.

(** Two peers; the second answers late. *)
Definition demo : list (Z * Z * op) :=
  [(0, 1000, OnConnectionOpen 1 ""); (0, 1000, OnConnectionOpen 2 ""); (10, 1010, NewDisplay "d0");
   (20, 1020, SetSupport "d0" true); (30, 1030, UserImageQuality 1 4); (40, 1040, UserCustomFps 2 60);
   (50, 1050, StoreBitrate 2000); (2000, 3000, UserNetworkDelay 1 20);
   (6000, 7000, UpdateDisplayData "d0" 9); (7000, 8000, UserDelayResponseElapsed 2 2500)].

Lemma controller_well_formed_witness : exists q, run hash_order 3 2 4 false demo (default_qos 0) = Ok q
  /\ fps q = 2 /\ MIN_FPS <= fps q <= MAX_FPS.
Proof.
  destruct (controller_well_formed hash_order 3 2 4 false (λ m, Permutation_refl _) 0 demo)
    as (q & Hq & H & _).
  exists q. split; [exact Hq|]. split; [|exact H].
  assert (E : match run hash_order 3 2 4 false demo (default_qos 0) with Ok q => fps q | Err _ => 0 end = 2)
    by (vm_compute; reflexivity).
  rewrite Hq in E. exact E.
Defined.

(** One peer at 30 frames reports 400 ms. *)
Definition one_peer : VideoQoS := on_connection_open 0 1 "" (default_qos 0).
Lemma delay_moves_fps_witness : exists q' u' f, user_network_delay hash_order false 2000 1 400 one_peer = Ok q'
  /\ users q' !! 1 = Some u' /\ delay_fps (delay u') = Some f /\ fps_ q' <= f /\ f <= 3.
Proof.
  destruct (delay_moves_fps hash_order false (λ m, Permutation_refl _) 2000 1 400 one_peer default_user)
    as (q' & u' & f & h & H1 & H2 & H3 & _ & H4 & _ & _ & _ & H5).
  - apply open_wf, default_wf.
  - vm_compute. reflexivity.
  - exists q', u', f. split; [exact H1|]. split; [exact H2|]. split; [exact H3|]. split; [apply H4|].
    assert (E : Z.max (avg_delay (add_delay (Z.max 400 10) (delay default_user))) 10 = 400)
      by (vm_compute; reflexivity).
    rewrite E in H5. specialize (H5 ltac:(lia)).
    assert (E' : Z.max 1 (150 * (fps_levels (quality_ratio (latest_quality hash_order one_peer))).1 / 400) = 3)
      by (vm_compute; reflexivity).
    rewrite E' in H5. exact H5.
Defined.

(** Between 150 and 200 ms the rate is kept at or above the lowest one, contrary
    to the comment on top of the file. *)
Example raised_at_160ms : (adapt 10 20 160 160 5 0).1 = 10.
Proof. reflexivity. Qed.
(** The rounding of the quotient asks for a frame more than the exact one. *)
Example quotient_rounds_up : devide_fps 35 175 = 31 /\ 35 * 150 / 175 = 30.
Proof. by vm_compute. Qed.
(** The constant says two, the queue holds three. *)
Example three_delays_kept : length (delay_history (foldl (λ d dl, add_delay dl d) default_delay [1; 2; 3; 4])) = 3%nat.
Proof. reflexivity. Qed.
End VideoQos.
