(* ===== verification/Portable.v ===== *)
(** * The portable executable

    [libs/portable]: the packer ([generate.py]) writes a folder into one blob,
    the launcher ([src/main.rs], [src/bin_reader.rs]) unpacks it into a fresh
    folder under the temporary folder, runs what it unpacked and removes the
    folder.  Bytes are characters of a [string]; MD5 and Brotli come from other
    packages and are parameters, of which only that decompressing undoes
    compressing is relied on. *)

From Stdlib Require Import Ascii.
From S2P Require Import Prelude RustStr.
#[local] Open Scope Z_scope.

(** ** [String::from_utf8_lossy] *)
Module Utf8.

Definition between (lo hi : Z) (c : ascii) : bool := (lo <=? byte_of c) && (byte_of c <=? hi).
Definition cont (c : ascii) : bool := between 0x80 0xBF c.
(** The second byte of a sequence of three or four. *)
Definition second (a b : ascii) : bool :=
  if byte_of a =? 0xE0 then between 0xA0 0xBF b
  else if byte_of a =? 0xED then between 0x80 0x9F b
  else if byte_of a =? 0xF0 then between 0x90 0xBF b
  else if byte_of a =? 0xF4 then between 0x80 0x8F b
  else cont b.

Definition one (a : ascii) : string := String a EmptyString.

(** The characters of a byte sequence ([true]) and its maximal invalid parts. *)
Fixpoint chunks (s : string) : list (bool * string) :=
  match s with
  | EmptyString => []
  | String a r =>
      if byte_of a <? 0x80 then (true, one a) :: chunks r
      else if between 0xC2 0xDF a then
        match r with
        | String b r2 => if cont b then (true, String a (one b)) :: chunks r2
                         else (false, one a) :: chunks r
        | EmptyString => [(false, one a)]
        end
      else if between 0xE0 0xEF a then
        match r with
        | String b r2 =>
            if second a b then
              match r2 with
              | String c r3 => if cont c then (true, String a (String b (one c))) :: chunks r3
                               else (false, String a (one b)) :: chunks r2
              | EmptyString => [(false, String a (one b))]
              end
            else (false, one a) :: chunks r
        | EmptyString => [(false, one a)]
        end
      else if between 0xF0 0xF4 a then
        match r with
        | String b r2 =>
            if second a b then
              match r2 with
              | String c r3 =>
                  if cont c then
                    match r3 with
                    | String d r4 =>
                        if cont d then (true, String a (String b (String c (one d)))) :: chunks r4
                        else (false, String a (String b (one c))) :: chunks r3
                    | EmptyString => [(false, String a (String b (one c)))]
                    end
                  else (false, String a (one b)) :: chunks r2
              | EmptyString => [(false, String a (one b))]
              end
            else (false, one a) :: chunks r
        | EmptyString => [(false, one a)]
        end
      else (false, one a) :: chunks r
  end.

Definition join (l : list string) : string := foldr String.append EmptyString l.
(** U+FFFD *)
Definition replacement : string :=
  String (ascii_of_N 0xEF) (String (ascii_of_N 0xBF) (one (ascii_of_N 0xBD))).

Definition from_utf8_lossy (s : string) : string :=
  join (map (λ c : bool * string, if c.1 then c.2 else replacement) (chunks s)).
Definition valid (s : string) : bool := forallb fst (chunks s).

Lemma chunks_join s : join (map snd (chunks s)) = s.
Proof.
  remember (String.length s) as n eqn:Hn. revert s Hn.
  induction n as [n IH] using lt_wf_ind. intros s ->.
  assert (H : forall t, (String.length t < String.length s)%nat -> join (map snd (chunks t)) = t)
    by (intros t Ht; by apply (IH (String.length t))).
  destruct s as [|a r]; [done|]. cbn [chunks].
  repeat match goal with
  | |- context [if ?b then _ else _] => destruct b
  | |- context [match ?r with EmptyString => _ | String _ _ => _ end] => destruct r
  end; cbn [map snd join foldr]; unfold one; cbn [String.append]; try done;
  match goal with |- context [foldr _ _ (map snd (chunks ?t))] =>
    fold (join (map snd (chunks t))); rewrite (H t); [done|cbn; lia] end.
Qed.

Lemma lossy_valid s : valid s = true -> from_utf8_lossy s = s.
Proof.
  intros H. rewrite <- (chunks_join s) at 2. unfold from_utf8_lossy, valid in *.
  f_equal. induction (chunks s) as [|[[] c] l IH]; cbn in *; [done| |done].
  rewrite IH by done. done.
Qed.

Lemma lossy_ascii a r : byte_of a < 0x80 ->
  from_utf8_lossy (String a r) = String a (from_utf8_lossy r).
Proof.
  intros H. unfold from_utf8_lossy. cbn [chunks]. by rewrite (proj2 (Z.ltb_lt _ _) H).
Qed.
End Utf8.

Module Portable.
Import Utf8.

(** ** The packer *)
Definition identifier : string := "rustdesk".
Definition LENGTH : Z := 4.
Definition IDENTIFIER_LENGTH : Z := 8.
Definition MD5_LENGTH : Z := 32.

Definition byte_char (z : Z) : ascii := ascii_of_N (Z.to_N (z mod 256)).
Definition be (n : Z) : string :=
  String (byte_char (n / 2 ^ 24)) (String (byte_char (n / 2 ^ 16))
    (String (byte_char (n / 2 ^ 8)) (one (byte_char n)))).
(** [int.to_bytes(length=4, byteorder='big')] raises when the number is too big. *)
Definition to_bytes (n : Z) : option string := if n <? 2 ^ 32 then Some (be n) else None.

(** A row of the table: the path, the compressed contents, the digest. *)
Definition row : Type := string * string * string.

Fixpoint write_rows (table : list row) : option string :=
  match table with
  | [] => Some EmptyString
  | (path, data, md5_code) :: r =>
      match to_bytes (str_len path), to_bytes (str_len data), write_rows r with
      | Some pl, Some dl, Some rest => Some (pl +:+ (path +:+ (dl +:+ (data +:+ (md5_code +:+ rest)))))
      | _, _, _ => None
      end
  end.

Definition write_package_metadata (table : list row) (exe : string) : option string :=
  match write_rows table with
  | Some body => Some (identifier +:+ (body +:+ (identifier +:+ exe)))
  | None => None
  end.

(** ** The reader *)
Record BinaryData : Type := mkData { md5_code : string; raw : string; path : string }.

Inductive panic : Type := DataInvalid | NotValid | OutOfRange.

(** [&data[a..b]] *)
Definition slice (data : string) (a b : Z) : result string panic :=
  if (0 <=? a) && (a <=? b) && (b <=? str_len data)
  then Ok (String.substring (Z.to_nat a) (Z.to_nat (b - a)) data) else Err OutOfRange.

(** [u32::from_be_bytes] of four bytes. *)
Definition from_be_bytes (s : string) : Z :=
  match s with
  | String a (String b (String c (String d _))) =>
      byte_of a * 2 ^ 24 + byte_of b * 2 ^ 16 + byte_of c * 2 ^ 8 + byte_of d
  | _ => 0
  end.

(** One record from [base]: the file and the position after it. *)
Definition read_one (data : string) (base : Z) : result (BinaryData * Z) panic :=
  let? len := slice data base (base + LENGTH) in
  let path_length := from_be_bytes len in
  let offset := LENGTH in
  let? p := slice data (base + offset) (base + offset + path_length) in
  let offset := offset + path_length in
  let? len := slice data (base + offset) (base + offset + LENGTH) in
  let file_length := from_be_bytes len in
  let offset := offset + LENGTH in
  let? r := slice data (base + offset) (base + offset + file_length) in
  let offset := offset + file_length in
  let? md5 := slice data (base + offset) (base + offset + MD5_LENGTH) in
  let offset := offset + MD5_LENGTH in
  Ok (mkData md5 r (from_utf8_lossy p), base + offset).

Fixpoint read_loop (fuel : nat) (data : string) (base : Z) (parsed : list BinaryData)
    : option (result (list BinaryData * Z) panic) :=
  match fuel with
  | O => None
  | S fuel =>
      match slice data base (base + IDENTIFIER_LENGTH) with
      | Err e => Some (Err e)
      | Ok iden =>
          if String.eqb (from_utf8_lossy iden) identifier
          then Some (Ok (parsed, base + IDENTIFIER_LENGTH))
          else match read_one data base with
               | Err e => Some (Err e)
               | Ok (f, base) => read_loop fuel data base (parsed ++ [f])
               end
      end
  end.

Definition read (data : string) : option (result (list BinaryData * string) panic) :=
  if negb (str_len data >? IDENTIFIER_LENGTH) then Some (Err DataInvalid)
  else match slice data 0 IDENTIFIER_LENGTH with
  | Err e => Some (Err e)
  | Ok iden =>
      if negb (String.eqb (from_utf8_lossy iden) identifier) then Some (Err NotValid)
      else match read_loop (S (String.length data)) data IDENTIFIER_LENGTH [] with
      | None => None
      | Some (Err e) => Some (Err e)
      | Some (Ok (parsed, base)) =>
          match slice data base (str_len data) with
          | Err e => Some (Err e)
          | Ok exe => Some (Ok (parsed, from_utf8_lossy exe))
          end
      end
  end.

(** ** The files *)

(** Where [Path::join] puts a packed path: its components, separated by either
    slash, without empty ones and dots. *)
Definition components (p : string) : list string :=
  List.filter (λ c, negb (is_empty c) && negb (String.eqb c "."))
    (flat_map (split "092"%char) (split "/"%char p)).

Abbreviation folder := (gmap (list string) string).

Section files.
(** Brotli and MD5 (in hexadecimal). *)
Context (compress decompress digest : string -> string).

(** What the file system answers: whether a file can be read, and written. *)
Record fs_env : Type := mkFs { readable : list string -> bool; writable : list string -> bool }.

Definition write_to_file (e : fs_env) (d : BinaryData) (f : folder) : folder :=
  let p := components (path d) in
  let write := if writable e p then <[p := decompress (raw d)]> f else f in
  match f !! p with
  | Some content =>
      let content := if readable e p then content else EmptyString in
      if String.eqb (digest content) (from_utf8_lossy (md5_code d)) then f else write
  | None => write
  end.

Definition WIN_TOPMOST_INJECTED_PROCESS_EXE : string := "RuntimeBroker_ChainRemote.exe".

(** [source] is what reading the system's RuntimeBroker.exe gives. *)
Definition copy_runtime_broker (e : fs_env) (source : option string) (f : folder) : folder :=
  let tgt := [WIN_TOPMOST_INJECTED_PROCESS_EXE] in
  let copied := match source with
                | Some s => if writable e tgt then <[tgt := s]> f else f
                | None => f
                end in
  match f !! tgt, source with
  | Some t, Some s => if readable e tgt && String.eqb (digest s) (digest t) then f else copied
  | _, _ => copied
  end.

Definition extract (e : fs_env) (create_ok : bool) (source : option string)
    (reader : list BinaryData * string) (f : folder) : option (list string) * folder :=
  if negb create_ok then (None, f)
  else
    let f := foldl (λ f d, write_to_file e d f) f reader.1 in
    (Some (components reader.2), copy_runtime_broker e source f).

(** [generate_md5_table] of the files [os.walk] finds. *)
Definition generate_md5_table (files : list (string * string)) : list row :=
  map (λ pc, (pc.1, compress pc.2, digest pc.2)) files.
End files.

(** ** The launcher *)
Definition TEMP_PREFIX : string := "ChainGo_".
Definition ORPHAN_AGE_SECS : Z := 60 * 60.

(** An entry of the temporary folder; times in seconds of the epoch. *)
Record temp_entry : Type := mkEntry { is_dir : bool; modified : option Z }.
Abbreviation temps := (gmap string temp_entry).

Definition is_orphan (now : Z) (name : string) (e : temp_entry) : bool :=
  starts_with TEMP_PREFIX name && is_dir e
  && (Z.max 0 (now - default 0 (modified e)) >=? ORPHAN_AGE_SECS).

(** [removable n name]: the answer of the [n]th [remove_dir_all] of the process. *)
Definition cleanup_orphans (now : Z) (removable : string -> bool) (t : temps) : temps :=
  foldl (λ t ne, if is_orphan now ne.1 ne.2 && removable ne.1 then delete ne.1 t else t)
    t (map_to_list t).

(** Lower-case hexadecimal digits, at least eight. *)
Definition hex_char (d : Z) : ascii := byte_char (if d <? 10 then 48 + d else 87 + d).
Fixpoint hex_go (fuel : nat) (n : Z) (acc : string) : string :=
  match fuel with
  | O => acc
  | S f => if n =? 0 then acc else hex_go f (n / 16) (String (hex_char (n mod 16)) acc)
  end.
Definition zeros (n : nat) : string := join (replicate n "0").
Definition hex8 (n : Z) : string :=
  let h := hex_go 16 n EmptyString in zeros (8 - String.length h) +:+ h.

(** [as_nanos() as u64], times a prime, and the process id. *)
Definition fresh_temp_dir (nanos pid : Z) : string :=
  TEMP_PREFIX +:+ hex8 (Int.wrap 64 (Int.wrap 64 nanos * 2654435761)) +:+ hex8 pid.

(** The guard tries three times to remove the folder. *)
Fixpoint drop_guard (tries : nat) (removed : nat -> bool) (dir : string) (t : temps) : temps :=
  match tries with
  | O => t
  | S n => if removed n then delete dir t else drop_guard n removed dir t
  end.

Record launch_env : Type := mkLaunch {
  now : Z;
  nanos : Z;
  pid : Z;
  removable : string -> bool;
  create_ok : bool;
  files_env : fs_env;
  broker : option string;
  meanwhile : temps -> temps;     (* until the inner program ends, or fails to start *)
  removed : nat -> bool;          (* the guard's attempts *)
}.

Inductive outcome : Type := Panicked | ExtractFailed | Executed (exe : list string) (f : folder).

(** [main]; a panic of the reader unwinds, so the guard runs in any case. *)
Definition main (decompress digest : string -> string) (BIN_DATA : string) (e : launch_env) (t : temps)
    : option (outcome * temps) :=
  let t := cleanup_orphans (now e) (removable e) t in
  let dir := fresh_temp_dir (nanos e) (pid e) in
  let guard := drop_guard 3 (removed e) dir in
  match read BIN_DATA with
  | None => None
  | Some (Err _) => Some (Panicked, guard t)
  | Some (Ok reader) =>
      let t := if create_ok e then <[dir := mkEntry true (Some (now e))]> t else t in
      match extract decompress digest (files_env e) (create_ok e) (broker e) reader ∅ with
      | (None, _) => Some (ExtractFailed, guard t)
      | (Some exe, f) => Some (Executed exe f, guard (meanwhile e t))
      end
  end.

(** ** Slices *)
Lemma str_len_app a b : str_len (a +:+ b) = str_len a + str_len b.
Proof.
  unfold str_len. induction a as [|c a IH]; [done|].
  change (String c a +:+ b) with (String c (a +:+ b)). cbn [String.length]. lia.
Qed.
Lemma str_len_nonneg a : 0 <= str_len a.
Proof. unfold str_len. lia. Qed.

Lemma substring_mid a b c :
  String.substring (String.length a) (String.length b) (a +:+ (b +:+ c)) = b.
Proof.
  induction a as [|x a IH].
  - cbn [String.length]. change (EmptyString +:+ (b +:+ c)) with (b +:+ c).
    induction b as [|y b IHb].
    + cbn [String.length]. change (EmptyString +:+ c) with c. by destruct c.
    + change (String y b +:+ c) with (String y (b +:+ c)). cbn [String.length String.substring].
      by rewrite IHb.
  - change (String x a +:+ (b +:+ c)) with (String x (a +:+ (b +:+ c))).
    cbn [String.length String.substring]. exact IH.
Qed.

Lemma slice_mid a b c lo hi : lo = str_len a -> hi = str_len a + str_len b ->
  slice (a +:+ (b +:+ c)) lo hi = Ok b.
Proof.
  intros -> ->. unfold slice. rewrite !str_len_app.
  pose proof (str_len_nonneg a). pose proof (str_len_nonneg b). pose proof (str_len_nonneg c).
  rewrite (proj2 (Z.leb_le 0 _)), !(proj2 (Z.leb_le _ _)) by lia. cbn [andb].
  replace (str_len a + str_len b - str_len a) with (str_len b) by lia.
  unfold str_len. rewrite !Nat2Z.id. by rewrite substring_mid.
Qed.

Lemma append_nil_r a : a +:+ EmptyString = a.
Proof.
  induction a as [|c a IH]; [done|].
  change (String c a +:+ EmptyString) with (String c (a +:+ EmptyString)). by rewrite IH.
Qed.

Lemma slice_end a b : slice (a +:+ b) (str_len a) (str_len (a +:+ b)) = Ok b.
Proof. rewrite <- (append_nil_r b) at 1. apply slice_mid; [done|apply str_len_app]. Qed.

Lemma slice_bound data a b s : slice data a b = Ok s -> a <= b <= str_len data.
Proof. unfold slice. case_match eqn:E; [|done]. bool_prop. lia. Qed.

(** ** Reading back what was written *)
Lemma byte_char_val n : byte_of (byte_char n) = n mod 256.
Proof. unfold byte_char. apply byte_of_ascii. apply Z.mod_pos_bound. lia. Qed.

Lemma be_roundtrip n : 0 <= n < 2 ^ 32 -> from_be_bytes (be n) = n.
Proof.
  intros H. unfold be, from_be_bytes, one. rewrite !byte_char_val.
  assert (n / 2 ^ 24 < 256) by (apply Z.div_lt_upper_bound; lia).
  assert (0 <= n / 2 ^ 24) by (apply Z.div_pos; lia).
  rewrite (Z.mod_small (n / 2 ^ 24)) by lia.
  replace (2 ^ 24) with (256 * 256 * 256) in * by lia. replace (2 ^ 16) with (256 * 256) in * by lia.
  replace (2 ^ 8) with 256 in * by lia.
  rewrite <- !Z.div_div by lia.
  pose proof (Z.div_mod n 256 ltac:(lia)). pose proof (Z.div_mod (n / 256) 256 ltac:(lia)).
  pose proof (Z.div_mod (n / 256 / 256) 256 ltac:(lia)). lia.
Qed.

Lemma be_len n : str_len (be n) = 4.
Proof. done. Qed.

Lemma to_bytes_spec n s : 0 <= n -> to_bytes n = Some s -> s = be n /\ 0 <= n < 2 ^ 32.
Proof. intros H. unfold to_bytes. case_match eqn:E; [|done]. intros [= <-]. bool_prop. split; [done|lia]. Qed.

(** The length of a path below 16 MiB starts with a zero byte, so a record is
    never taken for the identifier. *)
Definition good_row (r : row) : Prop :=
  valid r.1.1 = true /\ str_len r.1.1 < 2 ^ 24 /\ str_len r.2 = MD5_LENGTH.

Lemma slice_head a c r n s : 0 < n -> slice (a +:+ String c r) (str_len a) (str_len a + n) = Ok s ->
  exists t, s = String c t.
Proof.
  intros Hn. unfold slice. case_match; [|done]. intros [= <-].
  replace (str_len a + n - str_len a) with n by lia. unfold str_len. rewrite Nat2Z.id.
  destruct (Z.to_nat n) as [|k] eqn:E; [lia|]. clear. induction a as [|x a IH]; [by eexists|].
  change (String x a +:+ String c r) with (String x (a +:+ String c r)).
  cbn [String.length String.substring]. exact IH.
Qed.

Lemma not_identifier a p rest iden : str_len p < 2 ^ 24 ->
  slice (a +:+ (be (str_len p) +:+ rest)) (str_len a) (str_len a + IDENTIFIER_LENGTH) = Ok iden ->
  String.eqb (from_utf8_lossy iden) identifier = false.
Proof.
  intros Hp Hs. unfold be in Hs. rewrite (Z.div_small (str_len p) (2 ^ 24)) in Hs by (pose proof (str_len_nonneg p); lia).
  apply slice_head in Hs; [|done]. destruct Hs as [t ->].
  rewrite lossy_ascii by (by vm_compute). done.
Qed.

Lemma read_one_row pre p d m rest : str_len p < 2 ^ 32 -> str_len d < 2 ^ 32 -> str_len m = MD5_LENGTH ->
  valid p = true ->
  let r := be (str_len p) +:+ (p +:+ (be (str_len d) +:+ (d +:+ (m +:+ rest)))) in
  read_one (pre +:+ r) (str_len pre)
  = Ok (mkData m d p, str_len pre + 40 + str_len p + str_len d).
Proof.
  intros Hp Hd Hm Hv r. subst r. unfold read_one, LENGTH. rewrite <- Hm.
  pose proof (str_len_nonneg p). pose proof (str_len_nonneg d).
  rewrite slice_mid by (rewrite ?be_len; lia). rewrite be_roundtrip by lia.
  rewrite <- string_app_assoc, slice_mid by (rewrite ?str_len_app, ?be_len; lia).
  rewrite <- string_app_assoc, slice_mid by (rewrite ?str_len_app, ?be_len; lia).
  rewrite be_roundtrip by lia.
  rewrite <- string_app_assoc, slice_mid by (rewrite ?str_len_app, ?be_len; lia).
  rewrite <- string_app_assoc, slice_mid by (rewrite ?str_len_app, ?be_len; lia).
  rewrite lossy_valid by done. f_equal. f_equal. unfold MD5_LENGTH in Hm. lia.
Qed.

Definition data_of (r : row) : BinaryData := mkData r.2 r.1.2 r.1.1.

Lemma read_rows table body exe : Forall good_row table -> write_rows table = Some body ->
  forall fuel pre parsed, (length table < fuel)%nat ->
  read_loop fuel (pre +:+ (body +:+ (identifier +:+ exe))) (str_len pre) parsed
  = Some (Ok (parsed ++ map data_of table, str_len pre + str_len body + IDENTIFIER_LENGTH)).
Proof.
  intros Hg. revert body.
  induction Hg as [|[[p d] m] table (Hv & Hp & Hm) _ IH]; intros body Hb [|fuel] pre parsed Hf;
    try (cbn [length] in Hf; lia); cbn [read_loop].
  - injection Hb as <-. change (EmptyString +:+ (identifier +:+ exe)) with (identifier +:+ exe).
    rewrite slice_mid by done. change (String.eqb (from_utf8_lossy identifier) identifier) with true.
    cbn [map]. rewrite app_nil_r. unfold str_len at 3. cbn [String.length]. do 3 f_equal. lia.
  - cbn [fst snd] in *. cbn [write_rows] in Hb.
    destruct (to_bytes (str_len p)) as [pl|] eqn:E1; [|done].
    destruct (to_bytes (str_len d)) as [dl|] eqn:E2; [|done].
    destruct (write_rows table) as [rest|] eqn:E3; [|done]. injection Hb as <-.
    apply to_bytes_spec in E1 as [-> E1]; [|apply str_len_nonneg].
    apply to_bytes_spec in E2 as [-> E2]; [|apply str_len_nonneg].
    set (tail := rest +:+ (identifier +:+ exe)).
    assert (Ed : (be (str_len p) +:+ (p +:+ (be (str_len d) +:+ (d +:+ (m +:+ rest))))) +:+ (identifier +:+ exe)
      = be (str_len p) +:+ (p +:+ (be (str_len d) +:+ (d +:+ (m +:+ tail))))).
    { subst tail. by rewrite !string_app_assoc. }
    rewrite Ed. destruct (slice _ _ _) as [iden|] eqn:Es.
    + rewrite (not_identifier _ _ _ _ Hp Es), read_one_row; [|lia|lia|done|done].
      replace (str_len pre + 40 + str_len p + str_len d)
        with (str_len (pre +:+ (be (str_len p) +:+ (p +:+ (be (str_len d) +:+ (d +:+ m))))))
        by (rewrite !str_len_app, !be_len, Hm; unfold MD5_LENGTH; lia).
      replace (pre +:+ (be (str_len p) +:+ (p +:+ (be (str_len d) +:+ (d +:+ (m +:+ tail))))))
        with ((pre +:+ (be (str_len p) +:+ (p +:+ (be (str_len d) +:+ (d +:+ m))))) +:+ tail)
        by (by rewrite !string_app_assoc).
      subst tail. rewrite (IH rest eq_refl) by (cbn [length] in Hf; lia).
      cbn [map]. rewrite <- app_assoc. do 3 f_equal. rewrite !str_len_app, !be_len. lia.
    + exfalso. unfold slice in Es. case_match eqn:E; [done|].
      rewrite !str_len_app, !be_len, Hm in E. unfold IDENTIFIER_LENGTH, MD5_LENGTH in E.
      pose proof (str_len_nonneg pre). pose proof (str_len_nonneg p). pose proof (str_len_nonneg d).
      pose proof (str_len_nonneg tail). bool_prop. lia.
Qed.

Lemma rows_fuel table body : write_rows table = Some body -> (length table <= String.length body)%nat.
Proof.
  revert body. induction table as [|[[p d] m] table IH]; intros body Hb; cbn [length]; [lia|].
  cbn [write_rows] in Hb. destruct (to_bytes (str_len p)) as [pl|] eqn:E1; [|done].
  destruct (to_bytes (str_len d)) as [dl|]; [|done].
  destruct (write_rows table) as [rest|]; [|done]. injection Hb as <-. specialize (IH rest eq_refl).
  apply to_bytes_spec in E1 as [-> _]; [|apply str_len_nonneg].
  assert (H : str_len rest + 4 <= str_len (be (str_len p) +:+ (p +:+ (dl +:+ (d +:+ (m +:+ rest)))))).
  { rewrite !str_len_app, be_len. pose proof (str_len_nonneg p). pose proof (str_len_nonneg d).
    pose proof (str_len_nonneg dl). pose proof (str_len_nonneg m). lia. }
  unfold str_len in *. lia.
Qed.

Lemma read_written table exe data : Forall good_row table -> valid exe = true ->
  write_package_metadata table exe = Some data -> read data = Some (Ok (map data_of table, exe)).
Proof.
  intros Hg He. unfold write_package_metadata. destruct (write_rows table) as [body|] eqn:Eb; [|done].
  intros E. apply (inj Some) in E. subst data. unfold read.
  pose proof (str_len_nonneg body). pose proof (str_len_nonneg exe).
  assert (Hlen : str_len (identifier +:+ (body +:+ (identifier +:+ exe))) = 16 + str_len body + str_len exe)
    by (rewrite !str_len_app; change (str_len identifier) with 8; lia).
  assert (Hgt : (str_len (identifier +:+ (body +:+ (identifier +:+ exe))) >? IDENTIFIER_LENGTH) = true)
    by (rewrite Hlen; apply Z.gtb_lt; unfold IDENTIFIER_LENGTH; lia).
  rewrite Hgt. cbn [negb].
  pose proof (slice_mid EmptyString identifier (body +:+ (identifier +:+ exe)) 0 IDENTIFIER_LENGTH
    eq_refl eq_refl) as Hs. change (EmptyString +:+ ?x) with x in Hs. rewrite Hs. clear Hs.
  change (String.eqb (from_utf8_lossy identifier) identifier) with true. cbn [negb].
  change IDENTIFIER_LENGTH with (str_len identifier).
  rewrite (read_rows _ _ _ Hg Eb).
  - cbn [app].
    assert (Ed : identifier +:+ (body +:+ (identifier +:+ exe)) = (identifier +:+ (body +:+ identifier)) +:+ exe)
      by (by rewrite !string_app_assoc).
    assert (Eb' : str_len identifier + str_len body + IDENTIFIER_LENGTH = str_len (identifier +:+ (body +:+ identifier)))
      by (rewrite !str_len_app; change (str_len identifier) with 8; unfold IDENTIFIER_LENGTH; lia).
    rewrite Eb', Ed, slice_end. by rewrite lossy_valid.
  - apply rows_fuel in Eb. assert (H' : str_len body <= str_len (identifier +:+ (body +:+ (identifier +:+ exe))))
      by lia. unfold str_len in H'. lia.
Qed.

(** ** The reader ends on every input *)
Lemma from_be_nonneg s : 0 <= from_be_bytes s.
Proof.
  unfold from_be_bytes. repeat case_match; try lia.
  repeat match goal with |- context [byte_of ?c] => lazymatch goal with H : 0 <= byte_of c < 256 |- _ => fail
    | _ => pose proof (byte_of_range c) end end. lia.
Qed.

Lemma read_one_progress data base f b : read_one data base = Ok (f, b) -> base + 40 <= b <= str_len data.
Proof.
  unfold read_one, LENGTH, MD5_LENGTH.
  destruct (slice data base (base + 4)) as [l1|]; [|done].
  destruct (slice data (base + 4) _) as [p|]; [|done].
  destruct (slice data (base + (4 + from_be_bytes l1)) _) as [l2|]; [|done].
  destruct (slice data (base + (4 + from_be_bytes l1 + 4)) _) as [r|]; [|done].
  destruct (slice data (base + (4 + from_be_bytes l1 + 4 + from_be_bytes l2)) _) as [m|] eqn:E; [|done].
  intros [= _ <-]. apply slice_bound in E.
  pose proof (from_be_nonneg l1). pose proof (from_be_nonneg l2). lia.
Qed.

Lemma read_loop_total fuel data base parsed : base <= str_len data -> str_len data - base < Z.of_nat fuel ->
  read_loop fuel data base parsed <> None.
Proof.
  revert base parsed. induction fuel as [|fuel IH]; intros base parsed Hb Hf; [lia|]. cbn [read_loop].
  destruct (slice data base _); [|done]. destruct (String.eqb _ _); [done|].
  destruct (read_one data base) as [[f b]|] eqn:E; [|done]. apply read_one_progress in E. apply IH; lia.
Qed.

Lemma read_total data : read data <> None.
Proof.
  unfold read. destruct (str_len data >? IDENTIFIER_LENGTH) eqn:El; cbn [negb]; [|done].
  destruct (slice data 0 _); [|done]. destruct (negb _); [done|]. bool_prop.
  pose proof (read_loop_total (S (String.length data)) data IDENTIFIER_LENGTH []) as H.
  destruct (read_loop _ _ _ _) as [[[parsed base]|]|]; [by case_match|done|].
  exfalso. apply H; [lia| |done]. unfold str_len, IDENTIFIER_LENGTH. lia.
Qed.

(** ** Unpacking *)
Section unpack.
Context (compress decompress digest : string -> string).
Context (decompress_compress : forall s, decompress (compress s) = s).
Context (digest_len : forall s, str_len (digest s) = MD5_LENGTH).

(** The folder a list of files makes. *)
Definition files_of (l : list (string * string)) : folder :=
  list_to_map (map (λ pc, (components pc.1, pc.2)) l).

Lemma write_all e l f : NoDup (map (λ pc, components pc.1) l) ->
  (forall p c, In (p, c) l -> f !! components p = None /\ writable e (components p) = true) ->
  foldl (λ f d, write_to_file decompress digest e d f) f (map data_of (generate_md5_table compress digest l))
  = files_of l ∪ f.
Proof.
  revert f. induction l as [|[p c] l IH]; intros f Hnd Hf; [symmetry; apply (left_id_L ∅ (∪))|].
  cbn [map] in Hnd. apply NoDup_cons in Hnd as [Hp Hnd]. cbn [fst] in Hp. cbn [map foldl generate_md5_table fst snd].
  destruct (Hf p c (or_introl eq_refl)) as [Hnone Hw].
  unfold write_to_file at 2. cbn [path raw data_of fst snd]. rewrite Hw, Hnone, decompress_compress.
  fold (generate_md5_table compress digest l). rewrite IH; [|done|].
  - change (files_of ((p, c) :: l)) with (<[components p := c]> (files_of l)).
    rewrite <- insert_union_l, insert_union_r; [done|]. apply not_elem_of_list_to_map_1.
    rewrite <- list_fmap_compose. exact Hp.
  - intros p' c' Hin. destruct (Hf p' c' (or_intror Hin)) as [H1 H2]. split; [|done].
    rewrite lookup_insert_ne; [done|]. intros E. apply Hp. rewrite E.
    apply list_elem_of_In, List.in_map_iff. by exists (p', c').
Qed.

Lemma broker_delete e source f : f !! [WIN_TOPMOST_INJECTED_PROCESS_EXE] = None ->
  delete [WIN_TOPMOST_INJECTED_PROCESS_EXE] (copy_runtime_broker digest e source f) = f.
Proof.
  intros H. unfold copy_runtime_broker. rewrite H. destruct source as [s|]; [|by apply delete_id].
  case_match; [by apply delete_insert_id | by apply delete_id].
Qed.

(** C33: What is packed is what is unpacked.  A folder whose paths are distinct
    (whatever slashes they are written with), in Unicode and shorter than
    16 MiB, packed, read back and unpacked into an empty folder in which every
    file can be written, gives exactly its files again, beside the copy of the
    system's RuntimeBroker, and the executable that was named. *)
Theorem pack_unpack files exe data e source :
  NoDup (map (λ pc, components pc.1) files) ->
  (forall p c, In (p, c) files -> valid p = true /\ str_len p < 2 ^ 24
     /\ components p <> [WIN_TOPMOST_INJECTED_PROCESS_EXE] /\ writable e (components p) = true) ->
  valid exe = true ->
  write_package_metadata (generate_md5_table compress digest files) exe = Some data ->
  exists reader f, read data = Some (Ok reader)
  /\ extract decompress digest e true source reader ∅ = (Some (components exe), f)
  /\ delete [WIN_TOPMOST_INJECTED_PROCESS_EXE] f = files_of files.
Proof.
  intros Hnd Hf Hexe Hdata.
  assert (Hg : Forall good_row (generate_md5_table compress digest files)).
  { apply Forall_forall. intros r Hr. apply list_elem_of_fmap in Hr as ([p c] & -> & Hin).
    apply list_elem_of_In in Hin. destruct (Hf p c Hin) as (H1 & H2 & _).
    split; [done|]. split; [done|]. apply digest_len. }
  rewrite (read_written _ _ _ Hg Hexe Hdata). eexists _, _; split; [reflexivity|].
  split; [reflexivity|]. cbn [fst]. rewrite write_all; [|done|].
  - rewrite (right_id_L ∅ (∪)). apply broker_delete. unfold files_of.
    apply not_elem_of_list_to_map_1. rewrite <- list_fmap_compose. intros Hin.
    apply list_elem_of_fmap in Hin as ([p c] & E & Hin). apply list_elem_of_In in Hin.
    destruct (Hf p c Hin) as (_ & _ & H & _). by apply H.
  - intros p c Hin. split; [apply lookup_empty|]. by apply (Hf p c Hin).
Qed.
End unpack.

(** ** The temporary folder *)
Lemma cleanup_fold now rm l (t : temps) n : NoDup l.*1 ->
  foldl (λ t ne, if is_orphan now ne.1 ne.2 && rm ne.1 then delete ne.1 t else t) t l !! n
  = match (list_to_map l : temps) !! n with
    | Some e => if is_orphan now n e && rm n then None else t !! n
    | None => t !! n
    end.
Proof.
  revert t. induction l as [|[m e] l IH]; intros t Hnd; [done|].
  apply NoDup_cons in Hnd as [Hm Hnd]. cbn [foldl fst snd list_to_map foldr]. rewrite IH by done.
  destruct (decide (m = n)) as [->|Hne].
  - rewrite lookup_insert_eq, (not_elem_of_list_to_map_1 l) by done.
    destruct (is_orphan now n e && rm n); [apply lookup_delete_eq|done].
  - rewrite lookup_insert_ne by done. destruct (is_orphan now m e && rm m); [|done].
    by rewrite lookup_delete_ne.
Qed.

Lemma cleanup_spec now rm (t : temps) n : cleanup_orphans now rm t !! n
  = match t !! n with
    | Some e => if is_orphan now n e && rm n then None else Some e
    | None => None
    end.
Proof.
  unfold cleanup_orphans. rewrite cleanup_fold by apply NoDup_fst_map_to_list.
  rewrite list_to_map_to_list. by destruct (t !! n).
Qed.

Lemma drop_guard_spec k removed dir (t : temps) n :
  drop_guard k removed dir t !! n
  = if decide (n = dir) then (if existsb removed (seq 0 k) then None else t !! n) else t !! n.
Proof.
  induction k as [|k IH].
  - cbn. by case_decide.
  - cbn [drop_guard]. rewrite seq_S, existsb_app. cbn [existsb]. rewrite orb_false_r.
    change (0 + k)%nat with k. destruct (removed k).
    + rewrite orb_true_r. case_decide as E; [subst; apply lookup_delete_eq|by apply lookup_delete_ne].
    + rewrite orb_false_r. exact IH.
Qed.

(** Whatever blob the launcher carries and whatever the unpacked program
    does, it comes to an end (of its own), and its folder is gone when one of
    the three attempts to remove it succeeds; of the other entries of the
    temporary folder it removes exactly those that are folders, bear its prefix,
    were last modified an hour ago or earlier, and can be removed. *)
Theorem launcher_cleans_up decompress digest data e (t : temps) :
  let dir := fresh_temp_dir (nanos e) (pid e) in
  existsb (removed e) (seq 0 3) = true ->
  exists o t', main decompress digest data e t = Some (o, t') /\ t' !! dir = None
  /\ forall n, n <> dir ->
     let kept := match t !! n with
                 | Some x => if is_orphan (now e) n x && removable e n then None else Some x
                 | None => None
                 end in
     match o with
     | Executed _ _ =>
         exists t1, t' !! n = meanwhile e t1 !! n /\ (t1 : temps) !! n = kept
     | _ => t' !! n = kept
     end.
Proof.
  intros dir Hr. unfold main. fold dir. set (t0 := cleanup_orphans (now e) (removable e) t).
  assert (Hg : forall s : temps, drop_guard 3 (removed e) dir s !! dir = None).
  { intros s. by rewrite drop_guard_spec, decide_True, Hr. }
  assert (Ho : forall (s : temps) n, n <> dir -> drop_guard 3 (removed e) dir s !! n = s !! n).
  { intros s n Hn. by rewrite drop_guard_spec, decide_False. }
  destruct (read data) as [[reader|x]|] eqn:Er; [|by eexists _, _; split; [done|]; split; [apply Hg|];
    intros n Hn; rewrite Ho, <- cleanup_spec by done|by destruct (read_total data)].
  set (t1 := if create_ok e then _ else t0).
  assert (H1 : forall n, n <> dir -> t1 !! n = t0 !! n).
  { intros n Hn. subst t1. destruct (create_ok e); [by apply lookup_insert_ne|done]. }
  destruct (extract _ _ _ _ _ _ _) as [[exe|] f]; eexists _, _; (split; [reflexivity|]);
    (split; [apply Hg|]); intros n Hn; cbv zeta; rewrite Ho, <- cleanup_spec by done.
  - exists t1. split; [done|by apply H1].
  - by apply H1.
Qed.

(** ** Witnesses *)
Definition zipped (s : string) : string := "z" +:+ s.
Definition unzipped (s : string) : string := match s with String _ r => r | EmptyString => EmptyString end.
Definition toy_digest (s : string) : string := join (replicate 32 "0").
Definition all_files : fs_env := mkFs (λ _, true) (λ _, true).
Definition demo_files : list (string * string) :=
  [("./ChainRemote.exe", "MZ"); ("./data/app.so", "ELF"); (".\data\icon", "rustdesk")].

Lemma pack_unpack_witness : exists data reader f,
  write_package_metadata (generate_md5_table zipped toy_digest demo_files) "./ChainRemote.exe" = Some data
  /\ read data = Some (Ok reader)
  /\ extract unzipped toy_digest all_files true (Some "broker") reader ∅ = (Some ["ChainRemote.exe"], f)
  /\ delete [WIN_TOPMOST_INJECTED_PROCESS_EXE] f = files_of demo_files.
Proof.
  destruct (write_package_metadata (generate_md5_table zipped toy_digest demo_files) "./ChainRemote.exe")
    as [data|] eqn:E; [|vm_compute in E; discriminate].
  exists data. destruct (pack_unpack zipped unzipped toy_digest (λ s, eq_refl) (λ s, eq_refl) demo_files
    "./ChainRemote.exe" data all_files (Some "broker")) as (reader & f & H1 & H2 & H3).
  - vm_compute. repeat constructor; rewrite ?list_elem_of_In; cbn; intuition discriminate.
  - intros p c [[= <- <-]|[[= <- <-]|[[= <- <-]|[]]]]; (split; [vm_compute; reflexivity|]);
      (split; [vm_compute; reflexivity|]); (split; [vm_compute; discriminate|reflexivity]).
  - vm_compute. reflexivity.
  - exact E.
  - exists reader, f. split; [reflexivity|]. split; [exact H1|]. split; [exact H2|exact H3].
Defined.

Definition demo_launch : launch_env :=
  mkLaunch 10000 1 77 (λ _, true) true all_files None (λ t, t) (λ n, Nat.eqb n 2).
Definition demo_temp : temps :=
  {["ChainGo_old" := mkEntry true (Some 100); "ChainGo_new" := mkEntry true (Some 9000);
    "other" := mkEntry true (Some 100)]}.

Lemma launcher_cleans_up_witness : exists o t', main unzipped toy_digest "rustdesk" demo_launch demo_temp = Some (o, t')
  /\ t' !! fresh_temp_dir 1 77 = None.
Proof.
  destruct (launcher_cleans_up unzipped toy_digest "rustdesk" demo_launch demo_temp eq_refl)
    as (o & t' & H1 & H2 & _). exists o, t'. split; [exact H1|exact H2].
Defined.

(** The folder of a session that has been running for an hour is an orphan for
    the next launcher. *)
Example running_session_removed : forall started name,
  let running := mkEntry true (Some started) in
  cleanup_orphans (started + 3600) (λ _, true) {["ChainGo_" +:+ name := running]} !! ("ChainGo_" +:+ name) = None.
Proof.
  intros started name running. rewrite cleanup_spec, lookup_singleton_eq.
  assert (H : is_orphan (started + 3600) ("ChainGo_" +:+ name) running = true).
  { unfold is_orphan. cbn [modified running is_dir]. apply andb_true_iff. split.
    - unfold starts_with. change ("ChainGo_" +:+ name) with (TEMP_PREFIX +:+ name).
      by rewrite strip_prefix_app.
    - change (default 0 (Some started)) with started. apply Z.geb_le. unfold ORPHAN_AGE_SECS. lia. }
  by rewrite H.
Qed.
Example fresh_name : fresh_temp_dir 1 77 = "ChainGo_9e3779b10000004d".
Proof. by vm_compute. Qed.
End Portable.
