(* ===== verification/Downloader.v ===== *)
(** * Downloads in the background

    [hbbs_http/downloader.rs]: a map of jobs behind a lock, callers that start,
    watch, cancel and remove jobs, and a thread per job.  Every stretch between
    two locks, file operations or awaits is one step; a run is any sequence of
    steps of any callers and threads.  A thread is named by the channel its
    cancellation arrives on, of which its job holds the only sender. *)

From S2P Require Import Prelude.
Local Open Scope Z_scope.

Module Downloader.

Definition byte : Type := Z.

Record Downloader : Type := mkDownloader {
  data : list byte;
  path : option string;
  total_size : option Z;
  downloaded_size : Z;
  error : option string;
  finished : bool;
  tx_cancel : nat;
}.
Definition fresh (path : option string) (tx : nat) : Downloader :=
  mkDownloader [] path None 0 None false tx.

(** ** The thread of a job *)

(** An open file: its name, the file behind the name, and the position. *)
Record handle : Type := mkHandle { h_path : string; h_inode : nat; h_pos : nat }.

Inductive phase : Type :=
  | Queued                                   (* not spawned yet *)
  | Head                                     (* the client is being made, the length is asked for *)
  | Get
  | Create
  | Loop (dest : option handle)
  | Wrote (h : handle) (n : nat)             (* a chunk is in the file, its size not counted *)
  | Flush (dest : option handle) (all : bool)
  | Finish (all : bool)
  | Done (r : result bool string)            (* [do_download] has returned *)
  | Over.

Record thread : Type := mkThread {
  t_id : string;
  t_path : option string;
  t_phase : phase;
  got : list byte;                           (* what arrived so far *)
}.
Definition at_phase (p : phase) (t : thread) : thread := mkThread (t_id t) (t_path t) p (got t).

(** ** A call of [download_file] *)
Inductive call_state : Type :=
  | FirstPass
  | RemoveStale (p : string)
  | CheckPath
  | SecondPass
  | RemoveStaleAfter (p : string) (tx : nat)
  | Spawn (tx : nat)
  | Returned (r : result string string).

Record caller : Type := mkCaller { c_url : string; c_path : option string; c_state : call_state }.
Definition in_state (s : call_state) (c : caller) : caller := mkCaller (c_url c) (c_path c) s.

Record world : Type := mkWorld {
  downloaders : gmap string Downloader;
  files : gmap string (nat * list byte);
  sent : gset nat;                           (* channels with a cancellation in them *)
  callers : gmap nat caller;
  threads : gmap nat thread;
  next : nat;                                (* the next channel or file *)
}.
Definition init : world := mkWorld ∅ ∅ ∅ ∅ ∅ 0.

Definition set_downloaders m w := mkWorld m (files w) (sent w) (callers w) (threads w) (next w).
Definition set_files f w := mkWorld (downloaders w) f (sent w) (callers w) (threads w) (next w).
Definition set_caller n c w :=
  mkWorld (downloaders w) (files w) (sent w) (<[n := c]> (callers w)) (threads w) (next w).
Definition set_thread c t w :=
  mkWorld (downloaders w) (files w) (sent w) (callers w) (<[c := t]> (threads w)) (next w).

(** [DOWNLOADERS.lock().unwrap().get_mut(id).map(f)] *)
Definition with_job (id : string) (f : Downloader -> Downloader) (w : world) : world :=
  set_downloaders (alter f id (downloaders w)) w.

(** [if p.exists() { remove_file(p) }]; [ok] is the system's answer. *)
Definition remove_file (ok : bool) (p : string) (w : world) : world :=
  if ok then set_files (delete p (files w)) w else w.

(** One of the two passes: a job without an error is reused, one with an error
    is taken out and leaves its path. *)
Definition pass (id : string) (w : world) : bool * option string * world :=
  match downloaders w !! id with
  | Some d =>
      match error d with
      | None => (true, None, w)
      | Some _ => (false, path d, set_downloaders (delete id (downloaders w)) w)
      end
  | None => (false, None, w)
  end.

(** What the file system answers in a step of a call. *)
Record call_io : Type := mkCallIo { removal_ok : bool; mkdir : result unit string }.

Definition call_step (io : call_io) (n : nat) (c : caller) (w : world) : option world :=
  let go s w := Some (set_caller n (in_state s c) w) in
  let id := c_url c in
  match c_state c with
  | FirstPass =>
      let '(reuse, stale, w) := pass id w in
      if reuse then go (Returned (Ok id)) w
      else match stale with Some p => go (RemoveStale p) w | None => go CheckPath w end
  | RemoveStale p => go CheckPath (remove_file (removal_ok io) p w)
  | CheckPath =>
      match c_path c with
      | Some p =>
          if bool_decide (is_Some (files w !! p))
          then go (Returned (Err ("File " +:+ p +:+ " already exists"))) w
          else match mkdir io with
               | Err e => go (Returned (Err e)) w
               | Ok _ => go SecondPass w
               end
      | None => go SecondPass w
      end
  | SecondPass =>
      let '(reuse, stale, w) := pass id w in
      if reuse then go (Returned (Ok id)) w
      else
        let tx := next w in
        let w := mkWorld (<[id := fresh (c_path c) tx]> (downloaders w)) (files w) (sent w) (callers w)
                         (<[tx := mkThread id (c_path c) Queued []]> (threads w)) (S tx) in
        match stale with Some p => go (RemoveStaleAfter p tx) w | None => go (Spawn tx) w end
  | RemoveStaleAfter p tx => go (Spawn tx) (remove_file (removal_ok io) p w)
  | Spawn tx =>
      match threads w !! tx with
      | Some t => go (Returned (Ok id)) (set_thread tx (at_phase Head t) w)
      | None => None
      end
  | Returned _ => None
  end.

(** ** The steps of a thread *)

(** The receiver is ready when a cancellation was sent, and also when the
    sender is gone: [recv] then gives [None], which [_] matches as well. *)
Definition cancelled (c : nat) (w : world) : bool :=
  bool_decide (c ∈ sent w)
  || negb (existsb (λ d, Nat.eqb (tx_cancel d.2) c) (map_to_list (downloaders w))).

(** What the network and the file system answer in a step of a thread. *)
Inductive answer : Type :=
  | Received                                   (* the cancellation arm of [select!] *)
  | HeadOk (length : option Z) | HeadStatus | Failed (e : string)
  | GetOk
  | FileOk | FileErr (e : string)
  | Chunk (b : list byte) | End.

(** [write_all] at the position of the handle; a file that was deleted
    meanwhile is written in vain. *)
Definition write_at (h : handle) (b : list byte) (w : world) : world :=
  match files w !! h_path h with
  | Some (i, c) =>
      if Nat.eqb i (h_inode h)
      then set_files (<[h_path h := (i, take (h_pos h) c ++ b ++ drop (h_pos h + length b) c)]> (files w)) w
      else w
  | None => w
  end.

(** [File::create] empties a file that is there. *)
Definition create_file (p : string) (w : world) : handle * world :=
  match files w !! p with
  | Some (i, _) => (mkHandle p i 0, set_files (<[p := (i, [])]> (files w)) w)
  | None => (mkHandle p (next w) 0,
             mkWorld (downloaders w) (<[p := (next w, [])]> (files w)) (sent w) (callers w) (threads w) (S (next w)))
  end.

Definition add_size (n : nat) (d : Downloader) : Downloader :=
  mkDownloader (data d) (path d) (total_size d) (downloaded_size d + Z.of_nat n) (error d) (finished d) (tx_cancel d).
Definition add_data (b : list byte) (d : Downloader) : Downloader :=
  mkDownloader (data d ++ b) (path d) (total_size d) (downloaded_size d + Z.of_nat (length b))
    (error d) (finished d) (tx_cancel d).
Definition set_total (n : Z) (d : Downloader) : Downloader :=
  mkDownloader (data d) (path d) (Some n) (downloaded_size d) (error d) (finished d) (tx_cancel d).
Definition set_finished (d : Downloader) : Downloader :=
  mkDownloader (data d) (path d) (total_size d) (downloaded_size d) (error d) true (tx_cancel d).
Definition set_error (e : string) (d : Downloader) : Downloader :=
  mkDownloader (data d) (path d) (total_size d) (downloaded_size d) (Some e) (finished d) (tx_cancel d).

(** A step of [do_download]. *)
Definition download_step (a : answer) (c : nat) (t : thread) (w : world) : option world :=
  let go p w := Some (set_thread c (at_phase p t) w) in
  let id := t_id t in
  match t_phase t, a with
  | Head, Received => if cancelled c w then go (Done (Ok false)) w else None
  | Head, HeadOk (Some n) => go Get (with_job id (set_total n) w)
  | Head, HeadOk None => go (Done (Err "Failed to get content length")) w
  | Head, HeadStatus => go (Done (Err "Failed to get content length: status")) w
  | Head, Failed e => go (Done (Err e)) w
  | Get, Received => if cancelled c w then go (Done (Ok false)) w else None
  | Get, GetOk => match t_path t with Some _ => go Create w | None => go (Loop None) w end
  | Get, Failed e => go (Done (Err e)) w
  | Create, FileOk =>
      match t_path t with
      | Some p => let '(h, w) := create_file p w in go (Loop (Some h)) w
      | None => None
      end
  | Create, FileErr e => go (Done (Err e)) w
  | Loop dest, Received => if cancelled c w then go (Flush dest false) w else None
  | Loop dest, End => go (Flush dest true) w
  | Loop _, Failed e => go (Done (Err e)) w
  | Loop _, FileErr e => go (Done (Err e)) w
  | Loop (Some h), Chunk b =>
      let h' := mkHandle (h_path h) (h_inode h) (h_pos h + length b) in
      Some (set_thread c (mkThread id (t_path t) (Wrote h' (length b)) (got t ++ b)) (write_at h b w))
  | Loop None, Chunk b =>
      Some (set_thread c (mkThread id (t_path t) (Loop None) (got t ++ b)) (with_job id (add_data b) w))
  | Wrote h n, FileOk => go (Loop (Some h)) (with_job id (add_size n) w)
  | Wrote _ _, FileErr e => go (Done (Err e)) w
  | Flush None all, FileOk => go (Finish all) w
  | Flush (Some _) all, FileOk => go (Finish all) w
  | Flush (Some _) _, FileErr e => go (Done (Err e)) w
  | Finish all, FileOk => go (Done (Ok all)) (with_job id set_finished w)
  | _, _ => None
  end.

(** What the thread does with the result.  The task that should delete the job
    after [auto_del_dur] was handed to the runtime of [do_download], which ends
    with it: it never runs, and has no step. *)
Definition end_step (removal_ok : bool) (c : nat) (t : thread) (r : result bool string) (w : world) : world :=
  let id := t_id t in
  let over := set_thread c (at_phase Over t) in
  match r with
  | Ok true => over w
  | Ok false =>
      match downloaders w !! id with
      | Some d =>
          let w := set_downloaders (delete id (downloaders w)) w in
          over (match path d with Some p => remove_file removal_ok p w | None => w end)
      | None => over w
      end
  | Err e => over (with_job id (set_error e) w)
  end.

(** ** Reading, cancelling, removing *)
Record DownloadData : Type := mkData {
  d_data : list byte;
  d_path : option string;
  d_total_size : option Z;
  d_downloaded_size : Z;
  d_error : option string;
}.
Definition get_download_data (id : string) (w : world) : result DownloadData string :=
  match downloaders w !! id with
  | Some d =>
      let whole := (default 0 (total_size d) =? downloaded_size d)
                   && match path d with None => true | Some _ => false end in
      Ok (mkData (if whole then data d else []) (path d) (total_size d) (downloaded_size d) (error d))
  | None => Err "Downloader not found"
  end.

Definition cancel (id : string) (w : world) : world :=
  match downloaders w !! id with
  | Some d => mkWorld (downloaders w) (files w) ({[tx_cancel d]} ∪ sent w) (callers w) (threads w) (next w)
  | None => w
  end.
Definition remove (id : string) (w : world) : world := set_downloaders (delete id (downloaders w)) w.

(** ** Runs *)
Inductive action : Type :=
  | Call (n : nat) (url : string) (path : option string)
  | CallStep (n : nat) (io : call_io)
  | ThreadStep (c : nat) (a : answer)
  | ThreadEnd (c : nat) (removal_ok : bool)
  | Cancel (id : string)
  | Remove (id : string)
  | DeleteFile (p : string).                   (* another program, or the interface *)

Definition step (a : action) (w : world) : option world :=
  match a with
  | Call n url p =>
      match callers w !! n with
      | None => Some (set_caller n (mkCaller url p FirstPass) w)
      | Some _ => None
      end
  | CallStep n io => c ← callers w !! n; call_step io n c w
  | ThreadStep c a => t ← threads w !! c; download_step a c t w
  | ThreadEnd c ok =>
      t ← threads w !! c;
      match t_phase t with Done r => Some (end_step ok c t r w) | _ => None end
  | Cancel id => Some (cancel id w)
  | Remove id => Some (remove id w)
  | DeleteFile p => Some (remove_file true p w)
  end.

Fixpoint run (l : list action) (w : world) : option world :=
  match l with
  | [] => Some w
  | a :: l => w ← step a w; run l w
  end.

(** ** The invariant *)

(** A thread that may still change its job. *)
Definition active (t : thread) : bool :=
  match t_phase t with Over | Done (Ok true) => false | _ => true end.

(** Bytes that are in the file and not counted yet; [None] when a failure leaves
    that open. *)
Definition uncounted (p : phase) : option nat :=
  match p with
  | Wrote _ n => Some n
  | Done (Err _) | Over => None
  | _ => Some 0%nat
  end.
Definition dest_of (p : phase) : option (option handle) :=
  match p with Loop d | Flush d _ => Some d | Wrote h _ => Some (Some h) | _ => None end.
Definition early (p : phase) : bool :=
  match p with Queued | Head | Get | Create => true | _ => false end.

Record consistent (d : Downloader) (t : thread) : Prop := mkConsistent {
  c_path_eq : t_path t = path d;
  c_memory : path d = None -> data d = got t /\ downloaded_size d = Z.of_nat (length (got t));
  c_file : path d <> None -> data d = [] /\ 0 <= downloaded_size d <= Z.of_nat (length (got t))
    /\ forall n, uncounted (t_phase t) = Some n -> downloaded_size d + Z.of_nat n = Z.of_nat (length (got t));
  c_early : early (t_phase t) = true -> got t = [];
  c_dest : forall h, dest_of (t_phase t) = Some h -> h = None <-> path d = None;
  c_error : error d <> None -> t_phase t = Over;
  c_create : t_phase t = Create -> path d <> None;
}.

Definition waiting (s : call_state) : option nat :=
  match s with RemoveStaleAfter _ tx | Spawn tx => Some tx | _ => None end.

Record inv (w : world) : Prop := mkInv {
  i_jobs : forall id d, downloaders w !! id = Some d ->
    exists t, threads w !! tx_cancel d = Some t /\ t_id t = id /\ consistent d t;
  i_threads : forall c t, threads w !! c = Some t -> active t = true ->
    exists d, downloaders w !! t_id t = Some d /\ tx_cancel d = c;
  i_next : forall c t, threads w !! c = Some t -> (c < next w)%nat;
  i_waiting : forall n k c, callers w !! n = Some k -> waiting (c_state k) = Some c ->
    exists t, threads w !! c = Some t /\ t_phase t = Queued;
  i_one : forall n m k k' c, callers w !! n = Some k -> callers w !! m = Some k' ->
    waiting (c_state k) = Some c -> waiting (c_state k') = Some c -> n = m;
}.

(** The users' part: a job is removed only when its thread has ended, or is
    about to end after a complete download. *)
Definition removable (id : string) (w : world) : Prop :=
  forall d t, downloaders w !! id = Some d -> threads w !! tx_cancel d = Some t -> active t = false.
Fixpoint disciplined (l : list action) (w : world) : Prop :=
  match l with
  | [] => True
  | a :: l => (match a with Remove id => removable id w | _ => True end)
              /\ forall w', step a w = Some w' -> disciplined l w'
  end.

Lemma inv_init : inv init.
Proof. split; cbn; intros *; rewrite ?lookup_empty; done. Qed.

(** The files and the channels are not in the invariant. *)
Lemma inv_ext w w' : inv w -> downloaders w' = downloaders w -> callers w' = callers w ->
  threads w' = threads w -> (next w <= next w')%nat -> inv w'.
Proof.
  intros [H1 H2 H3 H4 H5] Ed Ec Et En. split; rewrite ?Ed, ?Ec, ?Et; try done.
  intros c t Ht. specialize (H3 c t Ht). lia.
Qed.

(** One thread moves on, and its job with it. *)
Lemma inv_move w w' c t d t' d' : inv w -> threads w !! c = Some t -> t_phase t <> Queued ->
  downloaders w !! t_id t = Some d -> tx_cancel d = c ->
  t_id t' = t_id t -> t_phase t' <> Queued -> tx_cancel d' = c -> consistent d' t' ->
  downloaders w' = <[t_id t := d']> (downloaders w) -> threads w' = <[c := t']> (threads w) ->
  callers w' = callers w -> (next w <= next w')%nat -> inv w'.
Proof.
  intros [H1 H2 H3 H4 H5] Ht Hq Hd Htx Hid Hq' Htx' Hc Ed Et Ec En.
  split; rewrite ?Ed, ?Et, ?Ec; try done.
  - intros id e. destruct (decide (id = t_id t)) as [->|Hne].
    + rewrite lookup_insert_eq. intros [= <-]. exists t'. by rewrite Htx', lookup_insert_eq.
    + rewrite lookup_insert_ne by done. intros He. destruct (H1 id e He) as (u & Hu & Huid & Huc).
      exists u. rewrite lookup_insert_ne; [done|]. intros E. rewrite <- E, Ht in Hu. congruence.
  - intros k u. destruct (decide (k = c)) as [->|Hne].
    + rewrite lookup_insert_eq. intros [= <-] _. exists d'. by rewrite Hid, lookup_insert_eq.
    + rewrite lookup_insert_ne by done. intros Hu Ha. destruct (H2 k u Hu Ha) as (e & He & Hk).
      exists e. rewrite lookup_insert_ne; [done|]. intros E. rewrite <- E in He. congruence.
  - intros k u. destruct (decide (k = c)) as [->|Hne].
    + intros _. specialize (H3 c t Ht). lia.
    + rewrite lookup_insert_ne by done. intros Hu. specialize (H3 k u Hu). lia.
  - intros n k c' Hn Hw. destruct (H4 n k c' Hn Hw) as (u & Hu & Huq). exists u.
    rewrite lookup_insert_ne; [done|]. intros E. rewrite <- E, Ht in Hu. congruence.
Qed.

(** A thread whose job has gone, or that has nothing left to do, moves on. *)
Lemma inv_over w w' c t p : inv w -> threads w !! c = Some t -> active t = false -> p = Over ->
  downloaders w' = downloaders w -> threads w' = <[c := at_phase p t]> (threads w) ->
  callers w' = callers w -> next w' = next w -> inv w'.
Proof.
  intros [H1 H2 H3 H4 H5] Ht Ha -> Ed Et Ec En.
  split; rewrite ?Ed, ?Et, ?Ec, ?En; try done.
  - intros id e He. destruct (H1 id e He) as (u & Hu & Huid & [Q1 Q2 Q3 Q4 Q5 Q6 Q7]).
    destruct (decide (tx_cancel e = c)) as [E|Hne].
    + rewrite E, Ht in Hu. injection Hu as <-. exists (at_phase Over t). rewrite E, lookup_insert_eq.
      split; [done|]. split; [done|]. split; cbn; try done.
      intros Hp. destruct (Q3 Hp) as (A & B & _). done.
    + exists u. by rewrite lookup_insert_ne.
  - intros k u. destruct (decide (k = c)) as [->|Hne].
    + rewrite lookup_insert_eq. by intros [= <-].
    + rewrite lookup_insert_ne by done. apply H2.
  - intros k u. destruct (decide (k = c)) as [->|Hne].
    + intros _. by apply (H3 c t).
    + rewrite lookup_insert_ne by done. apply H3.
  - intros n k c' Hn Hw. destruct (H4 n k c' Hn Hw) as (u & Hu & Huq). exists u.
    rewrite lookup_insert_ne; [done|]. intros E. rewrite <- E, Ht in Hu. injection Hu as <-.
    unfold active in Ha. rewrite Huq in Ha. done.
Qed.

Lemma job_alter (f : Downloader -> Downloader) id d (m : gmap string Downloader) :
  m !! id = Some d -> alter f id m = <[id := f d]> m.
Proof.
  intros H. apply map_eq. intros k. destruct (decide (k = id)) as [->|Hne].
  - by rewrite lookup_alter_eq, lookup_insert_eq, H.
  - by rewrite lookup_alter_ne, lookup_insert_ne.
Qed.

Lemma inv_job (f : Downloader -> Downloader) w w' c t t' : inv w -> threads w !! c = Some t ->
  t_phase t <> Queued -> active t = true -> t_id t' = t_id t -> t_phase t' <> Queued ->
  (forall d, tx_cancel (f d) = tx_cancel d) -> (forall d, consistent d t -> consistent (f d) t') ->
  downloaders w' = alter f (t_id t) (downloaders w) -> threads w' = <[c := t']> (threads w) ->
  callers w' = callers w -> (next w <= next w')%nat -> inv w'.
Proof.
  intros Hi Ht Hq Ha Hid Hq' Htx Hf Ed Et Ec En.
  destruct (i_threads w Hi c t Ht Ha) as (d & Hd & Hc). rewrite (job_alter f _ d) in Ed by done.
  destruct (i_jobs w Hi _ d Hd) as (u & Hu & _ & Hcons). rewrite Hc, Ht in Hu. injection Hu as <-.
  eapply (inv_move w w' c t d t' (f d)); eauto. by rewrite Htx.
Qed.

(** A thread moves on and leaves its job alone. *)
Lemma inv_keep w w' c t t' : inv w -> threads w !! c = Some t ->
  t_phase t <> Queued -> active t = true -> t_id t' = t_id t -> t_phase t' <> Queued ->
  (forall d, consistent d t -> consistent d t') -> downloaders w' = downloaders w ->
  threads w' = <[c := t']> (threads w) -> callers w' = callers w -> (next w <= next w')%nat -> inv w'.
Proof.
  intros Hi Ht Hq Ha Hid Hq' Hf Ed Et Ec En. eapply (inv_job (λ d, d)); eauto.
  rewrite Ed. symmetry. by apply alter_id.
Qed.

Lemma write_frame h b w : let w' := write_at h b w in
  downloaders w' = downloaders w /\ threads w' = threads w /\ callers w' = callers w /\ next w' = next w.
Proof. unfold write_at. by repeat case_match. Qed.

Lemma create_frame p w : let w' := (create_file p w).2 in
  downloaders w' = downloaders w /\ threads w' = threads w /\ callers w' = callers w /\ (next w <= next w')%nat.
Proof. unfold create_file. destruct (files w !! p) as [[]|]; cbn; auto with lia. Qed.

Lemma create_sent p w : sent (create_file p w).2 = sent w.
Proof. unfold create_file. by destruct (files w !! p) as [[]|]. Qed.

Lemma remove_frame ok p w : let w' := remove_file ok p w in
  downloaders w' = downloaders w /\ threads w' = threads w /\ callers w' = callers w /\ next w' = next w.
Proof. by destruct ok. Qed.

(** Closes the consistency of a job after a step of its thread. *)
Ltac consistency :=
  intros [dt pa ts ds er fi tx] [Q1 Q2 Q3 Q4 Q5 Q6 Q7]; cbn in *; subst;
  split; cbn in *; try done;
  try (intros Hp; destruct (Q2 Hp) as [-> ->]; rewrite ?length_app; split; [done|lia]);
  try (intros Hp; destruct (Q3 Hp) as (-> & B & C); rewrite ?length_app;
       try specialize (C _ eq_refl); split; [done|split; [lia|]]; intros ? ?; simplify_eq; lia);
  try (intros Hp; destruct (Q5 _ eq_refl) as [_ F]; discriminate (F Hp));
  try (intros Hp; specialize (Q6 Hp); discriminate);
  try (by intros ? [= <-]); try (by intros ? [= <-]; apply Q5);
  try (intros ? [= <-]; split; discriminate);
  try (intros ? [= <-]; destruct (Q5 _ eq_refl) as [_ F]; split; [discriminate|intros Hp; discriminate (F Hp)]);
  try (intros Hp; destruct (Q5 _ eq_refl) as [F _]; by specialize (F eq_refl)).

Lemma inv_download a c t w w' : inv w -> threads w !! c = Some t ->
  download_step a c t w = Some w' -> inv w'.
Proof.
  intros Hi Ht. destruct t as [id p ph g]. unfold download_step. cbn [t_phase t_id t_path].
  assert (Hk : forall p' v, ph <> Queued -> active (mkThread id p ph g) = true -> p' <> Queued ->
    (forall d, consistent d (mkThread id p ph g) -> consistent d (mkThread id p p' g)) ->
    downloaders v = downloaders w -> threads v = threads w -> callers v = callers w -> (next w <= next v)%nat ->
    inv (set_thread c (at_phase p' (mkThread id p ph g)) v)).
  { intros p' v Hq Ha Hq' Hc Ed Et Ec En.
    eapply inv_keep; try eassumption; try done. cbn. by rewrite Et. }
  assert (Hj : forall f p', ph <> Queued -> active (mkThread id p ph g) = true -> p' <> Queued ->
    (forall d, tx_cancel (f d) = tx_cancel d) ->
    (forall d, consistent d (mkThread id p ph g) -> consistent (f d) (mkThread id p p' g)) ->
    inv (set_thread c (at_phase p' (mkThread id p ph g)) (with_job id f w))).
  { intros f p' Hq Ha Hq' Hx Hc. eapply (inv_job f); try eassumption; done. }
  destruct ph as [| | | |dest|h n|dest all|all| |], a; try discriminate;
    repeat match goal with |- context [match ?x with _ => _ end] => is_var x; destruct x end;
    try destruct (cancelled c w); try discriminate; intros E;
    try (injection E as <-).
  all: try (apply Hk; [done|done|done|consistency|done|done|done|lia]).
  all: try (apply Hj; [done|done|done|done|consistency]).
  all: match goal with
       | H : None = Some _ |- _ => discriminate H
       | H : context [create_file ?s ?w] |- _ =>
           destruct (create_frame s w) as (F1 & F2 & F3 & F4); destruct (create_file s w) as [h v];
           injection H as <-; apply Hk; [done|done|done|consistency|done|done|done|done]
       | |- context [write_at ?h ?b ?w] =>
           destruct (write_frame h b w) as (F1 & F2 & F3 & F4);
           eapply (inv_keep w _ c _ _ Hi Ht);
             [| | | | |exact F1|cbn; rewrite F2; reflexivity|exact F3|cbn; lia]; try done; consistency
       | |- context [add_data ?b] =>
           eapply (inv_job (add_data b) w _ c _ _ Hi Ht); [| | | | | |reflexivity|reflexivity|reflexivity|cbn; lia];
             try done; consistency
       end.
Qed.

Lemma inv_end ok c t r w : inv w -> threads w !! c = Some t -> t_phase t = Done r -> inv (end_step ok c t r w).
Proof.
  intros Hi Ht Hp. unfold end_step. destruct r as [[]|e].
  - apply (inv_over w _ c t Over); try done. unfold active. by rewrite Hp.
  - assert (Ha : active t = true) by (unfold active; by rewrite Hp).
    destruct (i_threads w Hi c t Ht Ha) as (d & Hd & Hc). rewrite Hd.
    set (v := set_downloaders (delete (t_id t) (downloaders w)) w).
    assert (Hv : forall v', downloaders v' = downloaders v -> threads v' = threads v -> callers v' = callers v ->
                 next v' = next v -> inv (set_thread c (at_phase Over t) v')).
    { intros v' Ed Et Ec En. destruct Hi as [H1 H2 H3 H4 H5].
      split; cbn [downloaders threads callers next set_thread]; rewrite ?Ed, ?Et, ?Ec, ?En; cbn.
      - intros id e. rewrite lookup_delete_Some. intros [Hne He].
        destruct (H1 id e He) as (u & Hu & Hid & Hcons). exists u.
        rewrite lookup_insert_ne; [done|]. intros E. rewrite <- E, Ht in Hu. congruence.
      - intros k u. destruct (decide (k = c)) as [->|Hne]; [rewrite lookup_insert_eq; by intros [= <-]|].
        rewrite lookup_insert_ne by done. intros Hu Hua. destruct (H2 k u Hu Hua) as (e & He & Hk).
        exists e. rewrite lookup_delete_ne; [done|]. intros E. rewrite <- E in He. congruence.
      - intros k u. destruct (decide (k = c)) as [->|Hne]; [intros _; by apply (H3 c t)|].
        rewrite lookup_insert_ne by done. apply H3.
      - intros n k x Hn Hw. destruct (H4 n k x Hn Hw) as (u & Hu & Hq). exists u.
        rewrite lookup_insert_ne; [done|]. intros E. rewrite <- E, Ht in Hu. congruence.
      - exact H5. }
    destruct (path d) as [p|]; [|by apply Hv].
    destruct (remove_frame ok p v) as (F1 & F2 & F3 & F4). by apply Hv.
  - eapply (inv_job (set_error e) w _ c t (at_phase Over t) Hi Ht);
      [by rewrite Hp|by unfold active; rewrite Hp|done|done|done| |done|done|done|cbn; lia].
    intros d [Q1 Q2 Q3 Q4 Q5 Q6 Q7]. split; cbn; try done.
    intros Hpa. destruct (Q3 Hpa) as (A & B & _). done.
Qed.

(** A call changes nothing but its own state. *)
Lemma inv_caller n k s w : inv w -> callers w !! n = Some k ->
  (forall c, waiting s = Some c -> waiting (c_state k) = Some c) -> inv (set_caller n (in_state s k) w).
Proof.
  intros [H1 H2 H3 H4 H5] Hn Hs. split; cbn; try done.
  - intros m k' c. destruct (decide (m = n)) as [->|Hne].
    + rewrite lookup_insert_eq. intros [= <-] Hw. by apply (H4 n k), Hs.
    + rewrite lookup_insert_ne by done. apply H4.
  - intros m m' k1 k2 c. destruct (decide (m = n)) as [->|Hne], (decide (m' = n)) as [->|Hne']; try done;
      rewrite ?lookup_insert_eq, ?lookup_insert_ne by done.
    + intros [= <-] Hm Hw Hw'. apply (H5 n m' k k2 c); try done. by apply Hs.
    + intros Hm [= <-] Hw Hw'. apply (H5 m n k1 k c); try done. by apply Hs.
    + by apply H5.
Qed.

(** The waiting thread starts, and its caller is done. *)
Lemma inv_spawn n k tx t r w : inv w -> callers w !! n = Some k -> c_state k = Spawn tx ->
  threads w !! tx = Some t -> inv (set_caller n (in_state (Returned r) k) (set_thread tx (at_phase Head t) w)).
Proof.
  intros [H1 H2 H3 H4 H5] Hn Hk Ht.
  assert (Hw : waiting (c_state k) = Some tx) by (by rewrite Hk).
  destruct (H4 n k tx Hn Hw) as (u & Hu & Hq). rewrite Ht in Hu. injection Hu as <-.
  split; cbn.
  - intros id d Hd. destruct (H1 id d Hd) as (u & Hu & Hid & [Q1 Q2 Q3 Q4 Q5 Q6 Q7]).
    destruct (decide (tx_cancel d = tx)) as [E|Hne].
    + rewrite E, Ht in Hu. injection Hu as <-. exists (at_phase Head t). rewrite E, lookup_insert_eq.
      split; [done|]. split; [done|]. rewrite Hq in *. split; cbn; try done. intros He. by specialize (Q6 He).
    + exists u. by rewrite lookup_insert_ne.
  - intros c u. destruct (decide (c = tx)) as [->|Hne].
    + rewrite lookup_insert_eq. intros [= <-] _. apply (H2 tx t Ht). unfold active. by rewrite Hq.
    + rewrite lookup_insert_ne by done. apply H2.
  - intros c u. destruct (decide (c = tx)) as [->|Hne]; [intros _; by apply (H3 tx t)|].
    rewrite lookup_insert_ne by done. apply H3.
  - intros m k' c. destruct (decide (m = n)) as [->|Hne]; [rewrite lookup_insert_eq; by intros [= <-]|].
    rewrite lookup_insert_ne by done. intros Hm Hw'. destruct (H4 m k' c Hm Hw') as (u & Hu & Huq).
    exists u. rewrite lookup_insert_ne; [done|]. intros <-. by destruct Hne; apply (H5 m n k' k tx).
  - intros m m' k1 k2 c. destruct (decide (m = n)) as [->|Hne]; [rewrite lookup_insert_eq; by intros [= <-]|].
    destruct (decide (m' = n)) as [->|Hne']; [rewrite lookup_insert_eq; by intros _ [= <-]|].
    rewrite !lookup_insert_ne by done. apply H5.
Qed.

(** Taking out a job whose thread is inactive. *)
Lemma inv_delete id w : inv w -> removable id w -> inv (set_downloaders (delete id (downloaders w)) w).
Proof.
  intros [H1 H2 H3 H4 H5] Hr. split; cbn; try done.
  - intros i d. rewrite lookup_delete_Some. intros [_ Hd]. by apply H1.
  - intros c t Ht Ha. destruct (H2 c t Ht Ha) as (d & Hd & Hc). exists d.
    rewrite lookup_delete_ne; [done|]. intros E. subst id.
    assert (active t = false) by (apply (Hr d); congruence). congruence.
Qed.

Lemma pass_inv id w reuse stale w' : inv w -> pass id w = (reuse, stale, w') -> inv w'
  /\ callers w' = callers w /\ threads w' = threads w /\ next w' = next w
  /\ (reuse = false -> downloaders w' !! id = None).
Proof.
  intros Hi. unfold pass. destruct (downloaders w !! id) as [d|] eqn:Ed; [|by intros [= <- <- <-]].
  destruct (error d) as [e|] eqn:Ee; intros [= <- <- <-]; [|done].
  split; [|split; [done|split; [done|split; [done|intros _; apply lookup_delete_eq]]]].
  apply inv_delete; [done|]. intros d' t Hd Ht. assert (d' = d) as -> by congruence.
  destruct (i_jobs w Hi id d Ed) as (t' & Ht' & _ & Hc). assert (t' = t) as -> by congruence.
  unfold active. rewrite (c_error d t Hc); [done|]. by rewrite Ee.
Qed.

(** A new job and its thread, which waits for its caller. *)
Lemma inv_insert n k id p s w : inv w -> callers w !! n = Some k -> waiting (c_state k) = None ->
  downloaders w !! id = None -> waiting s = Some (next w) ->
  inv (set_caller n (in_state s k) (mkWorld (<[id := fresh p (next w)]> (downloaders w)) (files w) (sent w)
    (callers w) (<[next w := mkThread id p Queued []]> (threads w)) (S (next w)))).
Proof.
  intros [H1 H2 H3 H4 H5] Hn Hk Hid Hs.
  assert (Hfresh : forall c t, threads w !! c = Some t -> c <> next w) by (intros c t Ht; specialize (H3 c t Ht); lia).
  split; cbn.
  - intros i d. destruct (decide (i = id)) as [->|Hne].
    + rewrite lookup_insert_eq. intros [= <-]. cbn. eexists. rewrite lookup_insert_eq.
      split; [done|]. split; [done|]. split; cbn; try done. intros _. split; [done|]. split; [lia|].
      by intros m [= <-].
    + rewrite lookup_insert_ne by done. intros Hd. destruct (H1 i d Hd) as (t & Ht & Htid & Hc).
      exists t. rewrite lookup_insert_ne; [done|]. intros E. by apply (Hfresh _ _ Ht).
  - intros c t. destruct (decide (c = next w)) as [->|Hne].
    + rewrite lookup_insert_eq. intros [= <-] _. cbn. eexists. by rewrite lookup_insert_eq.
    + rewrite lookup_insert_ne by done. intros Ht Ha. destruct (H2 c t Ht Ha) as (d & Hd & Hc).
      exists d. rewrite lookup_insert_ne; [done|]. intros E. congruence.
  - intros c t. destruct (decide (c = next w)) as [->|Hne]; [lia|].
    rewrite lookup_insert_ne by done. intros Ht. specialize (H3 c t Ht). lia.
  - intros m k' c. destruct (decide (m = n)) as [->|Hne].
    + rewrite lookup_insert_eq. intros [= <-]. cbn. rewrite Hs. intros [= <-]. eexists.
      by rewrite lookup_insert_eq.
    + rewrite lookup_insert_ne by done. intros Hm Hw. destruct (H4 m k' c Hm Hw) as (t & Ht & Hq).
      exists t. rewrite lookup_insert_ne; [done|]. intros E. by apply (Hfresh _ _ Ht).
  - intros m m' k1 k2 c. 
    assert (Hother : forall m k, callers w !! m = Some k -> waiting (c_state k) <> Some (next w)).
    { intros m0 k0 Hm0 Hw0. destruct (H4 _ _ _ Hm0 Hw0) as (t & Ht & _). by apply (Hfresh _ _ Ht). }
    destruct (decide (m = n)) as [->|Hne], (decide (m' = n)) as [->|Hne']; try done;
      rewrite ?lookup_insert_eq, ?lookup_insert_ne by done.
    + intros [= <-] Hm2. cbn. rewrite Hs. intros [= <-] Hw. by destruct (Hother m' k2 Hm2).
    + intros Hm1 [= <-] Hw1. cbn. rewrite Hs. intros [= <-]. by destruct (Hother m k1 Hm1).
    + by apply H5.
Qed.

Lemma inv_call io n k w w' : inv w -> callers w !! n = Some k -> call_step io n k w = Some w' -> inv w'.
Proof.
  intros Hi Hn. unfold call_step. destruct (c_state k) as [|p| | |p tx|tx|r] eqn:Es; try done.
  - destruct (pass (c_url k) w) as [[reuse stale] v] eqn:Ep.
    destruct (pass_inv _ _ _ _ _ Hi Ep) as (Hv & Ec & _).
    assert (Hn' : callers v !! n = Some k) by (by rewrite Ec).
    destruct reuse; [|destruct stale]; intros [= <-]; by apply inv_caller.
  - intros [= <-]. destruct (remove_frame (removal_ok io) p w) as (F1 & F2 & F3 & F4).
    apply inv_caller; [|by rewrite F3|done]. apply (inv_ext w); [done|done|done|done|by rewrite F4].
  - destruct (c_path k) as [p|]; [|intros [= <-]; by apply inv_caller].
    case_bool_decide; [|destruct (mkdir io)]; intros [= <-]; by apply inv_caller.
  - destruct (pass (c_url k) w) as [[reuse stale] v] eqn:Ep.
    destruct (pass_inv _ _ _ _ _ Hi Ep) as (Hv & Ec & Et & En & Hdel).
    assert (Hn' : callers v !! n = Some k) by (by rewrite Ec).
    destruct reuse; [intros [= <-]; by apply inv_caller|].
    destruct stale as [p|]; intros [= <-]; (apply inv_insert; [done|done|by rewrite Es|by apply Hdel|done]).
  - intros [= <-]. destruct (remove_frame (removal_ok io) p w) as (F1 & F2 & F3 & F4).
    apply inv_caller; [|by rewrite F3|by rewrite Es]. apply (inv_ext w); [done|done|done|done|by rewrite F4].
  - destruct (threads w !! tx) as [t|] eqn:Et; [|done]. intros [= <-]. by apply inv_spawn.
Qed.

Lemma inv_step a w w' : inv w -> (match a with Remove id => removable id w | _ => True end) ->
  step a w = Some w' -> inv w'.
Proof.
  intros Hi Hd. destruct a as [n url p|n io|c a|c ok|id|id|p]; cbn [step].
  - destruct (callers w !! n) as [k|] eqn:En; [done|]. intros [= <-].
    destruct Hi as [H1 H2 H3 H4 H5]. split; cbn; try done.
    + intros m k c. destruct (decide (m = n)) as [->|Hne]; [rewrite lookup_insert_eq; by intros [= <-]|].
      rewrite lookup_insert_ne by done. apply H4.
    + intros m m' k1 k2 c. destruct (decide (m = n)) as [->|Hne]; [rewrite lookup_insert_eq; by intros [= <-]|].
      destruct (decide (m' = n)) as [->|Hne']; [rewrite lookup_insert_eq; by intros _ [= <-]|].
      rewrite !lookup_insert_ne by done. apply H5.
  - destruct (callers w !! n) as [k|] eqn:En; [|done]. cbn. by apply inv_call.
  - destruct (threads w !! c) as [t|] eqn:Et; [|done]. cbn. by apply inv_download.
  - destruct (threads w !! c) as [t|] eqn:Et; [|done]. cbn. destruct (t_phase t) eqn:Ep; try done.
    intros [= <-]. by apply inv_end.
  - intros [= <-]. unfold cancel. destruct (downloaders w !! id); [|done]. by apply (inv_ext w).
  - intros [= <-]. by apply inv_delete.
  - intros [= <-]. by apply (inv_ext w).
Qed.

Lemma inv_run l w w' : inv w -> disciplined l w -> run l w = Some w' -> inv w'.
Proof.
  revert w. induction l as [|a l IH]; intros w Hi Hd; cbn [run]; [by intros [= <-]|].
  destruct Hd as [Ha Hd]. destruct (step a w) as [v|] eqn:Es; [|done]. cbn. intros Hr.
  apply (IH v); [by eapply inv_step|by apply Hd|done].
Qed.

(** ** Theorems *)

(** Under any interleaving of callers, threads and cancellations in which a
    job is removed only after its thread has ended, every job belongs to one
    thread, no other thread can still write into it, and it records what
    arrived: in memory all of it in order, in a file its size never ahead of the
    bytes.  So when the interface is handed data, it is everything the server
    sent for this job, of the length announced. *)
Theorem download_is_what_arrived l w id d : run l init = Some w -> disciplined l init ->
  downloaders w !! id = Some d ->
  exists t, threads w !! tx_cancel d = Some t /\ t_id t = id
  /\ (forall c u, threads w !! c = Some u -> t_id u = id -> active u = true -> c = tx_cancel d)
  /\ (path d = None -> data d = got t /\ downloaded_size d = Z.of_nat (length (got t)))
  /\ (path d <> None -> data d = [] /\ 0 <= downloaded_size d <= Z.of_nat (length (got t)))
  /\ (forall r, get_download_data id w = Ok r -> d_data r <> [] ->
        d_data r = got t /\ d_total_size r = Some (Z.of_nat (length (got t)))).
Proof.
  intros Hr Hd Hjob. pose proof (inv_run l init w inv_init Hd Hr) as Hi.
  destruct (i_jobs w Hi id d Hjob) as (t & Ht & Hid & Hc). exists t. split; [done|]. split; [done|].
  split; [|split; [apply Hc|split]].
  - intros c u Hu Huid Ha. destruct (i_threads w Hi c u Hu Ha) as (e & He & Hx). congruence.
  - intros Hp. destruct (c_file d t Hc Hp) as (A & B & _). done.
  - intros r. unfold get_download_data. rewrite Hjob. intros [= <-]. cbn [d_data d_total_size].
    destruct (default 0 (total_size d) =? downloaded_size d) eqn:E; [|done].
    destruct (path d) as [p|] eqn:Ep; cbn [andb]; [done|]. intros Hne.
    destruct (c_memory d t Hc Ep) as [A B]. split; [done|]. bool_prop.
    destruct (total_size d) as [n|]; cbn in E; [congruence|].
    rewrite A in Hne. destruct (got t); [done|]. cbn in B. lia.
Qed.

(** ** Cancelling *)

(** The last part of a cancelled download: the file is flushed, the job marked,
    and the thread takes its job and its file away. *)
Lemma flush_ends w c t d h : threads w !! c = Some t -> t_phase t = Flush h false ->
  downloaders w !! t_id t = Some d -> exists w',
  run [ThreadStep c FileOk; ThreadStep c FileOk; ThreadEnd c true] w = Some w'
  /\ downloaders w' = delete (t_id t) (downloaders w)
  /\ (forall p, path d = Some p -> files w' !! p = None).
Proof.
  intros Ht Hp Hd. destruct t as [id tp ph g]. cbn in Hp, Hd. subst ph. cbn [t_id].
  eexists; split; [|split].
  - cbn [run step]. rewrite Ht. cbn [mbind option_bind download_step t_phase t_id].
    destruct h; cbn [mbind option_bind]; cbn [set_thread threads]; rewrite lookup_insert_eq;
      cbn [mbind option_bind download_step t_phase at_phase t_id with_job set_downloaders set_thread threads];
      rewrite lookup_insert_eq; cbn; reflexivity.
  - unfold end_step. cbn. rewrite lookup_alter_eq, Hd. cbn.
    destruct (path d) as [p|]; cbn; rewrite delete_alter, decide_True by done; reflexivity.
  - intros p Hpd. unfold end_step. cbn. rewrite lookup_alter_eq, Hd. cbn. rewrite Hpd. cbn. apply lookup_delete_eq.
Qed.

(** What is left for a thread that a cancellation has reached. *)
Definition way_out (p : phase) : list answer :=
  match p with
  | Head | Get => [Received]
  | Create | Wrote _ _ => [FileOk; Received; FileOk; FileOk]
  | _ => [Received; FileOk; FileOk]
  end.

Definition running (p : phase) : bool :=
  match p with Head | Get | Create | Loop _ | Wrote _ _ => true | _ => false end.

(** A thread in its loop takes the cancellation and ends. *)
Lemma loop_ends w c t d h : threads w !! c = Some t -> t_phase t = Loop h -> c ∈ sent w ->
  downloaders w !! t_id t = Some d -> exists w',
  run (map (ThreadStep c) [Received; FileOk; FileOk] ++ [ThreadEnd c true]) w = Some w'
  /\ downloaders w' = delete (t_id t) (downloaders w)
  /\ (forall p, path d = Some p -> files w' !! p = None).
Proof.
  intros Ht Hp Hc Hd.
  destruct (flush_ends (set_thread c (at_phase (Flush h false) t) w) c (at_phase (Flush h false) t) d h)
    as (w' & Hr & Hw); [cbn; by rewrite lookup_insert_eq|done|done|].
  exists w'. split; [|exact Hw]. rewrite <- Hr. cbn [map app run step]. rewrite Ht. cbn [mbind option_bind].
  assert (Hs : download_step Received c t w = Some (set_thread c (at_phase (Flush h false) t) w)).
  { unfold download_step, cancelled. rewrite bool_decide_eq_true_2 by done. rewrite Hp. by destruct h. }
  by rewrite Hs.
Qed.

(** A thread that has not come to its file leaves at once. *)
Lemma early_ends w c t d : threads w !! c = Some t -> t_phase t = Head \/ t_phase t = Get -> c ∈ sent w ->
  downloaders w !! t_id t = Some d -> exists w',
  run (map (ThreadStep c) [Received] ++ [ThreadEnd c true]) w = Some w'
  /\ downloaders w' = delete (t_id t) (downloaders w)
  /\ (forall p, path d = Some p -> files w' !! p = None).
Proof.
  intros Ht Hp Hc Hd.
  exists (end_step true c (at_phase (Done (Ok false)) t) (Ok false) (set_thread c (at_phase (Done (Ok false)) t) w)).
  split; [|unfold end_step; cbn; rewrite Hd; destruct (path d) as [q|] eqn:Eq; cbn; (split; [done|]); [|done]].
  - cbn [map app run step]. rewrite Ht. cbn [mbind option_bind].
    assert (Hs : download_step Received c t w = Some (set_thread c (at_phase (Done (Ok false)) t) w)).
    { unfold download_step, cancelled. rewrite bool_decide_eq_true_2 by done. by destruct Hp as [-> | ->]. }
    rewrite Hs. cbn [mbind option_bind set_thread threads]. by rewrite lookup_insert_eq.
  - intros p [= <-]. apply lookup_delete_eq.
Qed.

Lemma cancel_frame id w : let w' := cancel id w in
  downloaders w' = downloaders w /\ threads w' = threads w
  /\ forall d, downloaders w !! id = Some d -> tx_cancel d ∈ sent w'.
Proof.
  unfold cancel. destruct (downloaders w !! id) eqn:E; cbn; [|split; [done|split; [done|congruence]]].
  split; [done|]. split; [done|]. intros d' [= <-]. set_solver.
Qed.

(** A download that is running can be cancelled at any point: once the
    cancellation is sent, its thread is a few steps of its own away from the
    end, after which the job and its file are gone, and the other jobs are as
    they were. *)
Theorem cancel_ends l w id d t : run l init = Some w -> disciplined l init ->
  downloaders w !! id = Some d -> threads w !! tx_cancel d = Some t -> running (t_phase t) = true ->
  exists w', run (Cancel id :: map (ThreadStep (tx_cancel d)) (way_out (t_phase t)) ++ [ThreadEnd (tx_cancel d) true]) w = Some w'
  /\ downloaders w' = delete id (downloaders w) /\ (forall p, path d = Some p -> files w' !! p = None).
Proof.
  intros Hl Hdis Hd Ht Hp. pose proof (inv_run l init w inv_init Hdis Hl) as Hi.
  destruct (i_jobs w Hi id d Hd) as (t' & Ht' & Hid & Hc). rewrite Ht in Ht'. injection Ht' as <-. subst id.
  cbn [run step mbind option_bind]. set (v := cancel (t_id t) w).
  destruct (cancel_frame (t_id t) w) as (F1 & F2 & F3). fold v in F1, F2, F3. specialize (F3 d Hd).
  assert (Htv : threads v !! tx_cancel d = Some t) by (by rewrite F2).
  assert (Hdv : downloaders v !! t_id t = Some d) by (by rewrite F1). rewrite <- F1.
  destruct (t_phase t) as [| | | |h|h n| | | |] eqn:Ep; try discriminate Hp; cbn [way_out].
  - apply early_ends; auto.
  - apply early_ends; auto.
  - assert (Hpath : path d <> None) by (by apply (c_create d t Hc)). rewrite <- (c_path_eq d t Hc) in Hpath.
    destruct (t_path t) as [p|] eqn:Etp; [|done].
    destruct (create_frame p v) as (G1 & G2 & _). pose proof (create_sent p v) as G3.
    destruct (create_file p v) as [h u] eqn:Ec. cbn [snd] in *.
    destruct (loop_ends (set_thread (tx_cancel d) (at_phase (Loop (Some h)) t) u) (tx_cancel d)
      (at_phase (Loop (Some h)) t) d (Some h)) as (w' & Hr & Hw & Hf);
      [cbn; by rewrite lookup_insert_eq|done|cbn; by rewrite G3|cbn; by rewrite G1|].
    exists w'. cbn [set_thread downloaders] in Hw. rewrite <- G1. split; [|done].
    rewrite <- Hr. cbn [map app run step]. rewrite Htv. cbn [mbind option_bind].
    assert (Hs : download_step FileOk (tx_cancel d) t v = Some (set_thread (tx_cancel d) (at_phase (Loop (Some h)) t) u)).
    { unfold download_step. by rewrite Ep, Etp, Ec. }
    by rewrite Hs.
  - by apply (loop_ends v _ t d h).
  - destruct (loop_ends (set_thread (tx_cancel d) (at_phase (Loop (Some h)) t) (with_job (t_id t) (add_size n) v))
      (tx_cancel d) (at_phase (Loop (Some h)) t) (add_size n d) (Some h)) as (w' & Hr & Hw & Hf);
      [cbn; by rewrite lookup_insert_eq|done|done|cbn; by rewrite lookup_alter_eq, Hdv|].
    exists w'. split; [|split; [|done]].
    + rewrite <- Hr. cbn [map app run step]. rewrite Htv. cbn [mbind option_bind].
      assert (Hs : download_step FileOk (tx_cancel d) t v = Some (set_thread (tx_cancel d)
        (at_phase (Loop (Some h)) t) (with_job (t_id t) (add_size n) v))).
      { unfold download_step. by rewrite Ep. }
      by rewrite Hs.
    + rewrite Hw. cbn. by rewrite delete_alter, decide_True.
Qed.

(** ** Witnesses *)
Definition io : call_io := mkCallIo true (Ok tt).
Definition start_job (n : nat) (url : string) (p : option string) : list action :=
  [Call n url p; CallStep n io; CallStep n io; CallStep n io; CallStep n io].
Definition fetch (c : nat) (total : Z) : list action :=
  [ThreadStep c (HeadOk (Some total)); ThreadStep c GetOk].
(** A job in memory that receives its two chunks. *)
Definition demo : list action :=
  start_job 0 "u" None ++ fetch 0 3 ++
  [ThreadStep 0 (Chunk [1; 2]); ThreadStep 0 (Chunk [3]); ThreadStep 0 End; ThreadStep 0 FileOk; ThreadStep 0 FileOk].

Lemma download_is_what_arrived_witness : exists w d r, run demo init = Some w /\ downloaders w !! "u" = Some d
  /\ get_download_data "u" w = Ok r /\ d_data r = [1; 2; 3]
  /\ exists t, threads w !! tx_cancel d = Some t /\ got t = d_data r.
Proof.
  destruct (run demo init) as [w|] eqn:Hr; [|vm_compute in Hr; discriminate].
  destruct (downloaders w !! "u") as [d|] eqn:Hd; [|vm_compute in Hr; injection Hr as <-; vm_compute in Hd; discriminate].
  destruct (get_download_data "u" w) as [r|] eqn:Hg; [|unfold get_download_data in Hg; rewrite Hd in Hg; discriminate].
  exists w, d, r. split; [reflexivity|]. split; [exact Hd|]. split; [exact Hg|].
  assert (E : d_data r = [1; 2; 3]).
  { vm_compute in Hr. injection Hr as <-. vm_compute in Hg. injection Hg as <-. reflexivity. }
  split; [exact E|].
  destruct (download_is_what_arrived demo w "u" d Hr) as (t & Ht & _ & _ & _ & _ & H).
  - unfold demo, start_job, fetch. cbn [app]. repeat (split; [exact I|]; intros ? _). exact I.
  - exact Hd.
  - exists t. split; [exact Ht|]. symmetry. apply (H r Hg). rewrite E. discriminate.
Defined.

(** A job on disk is cancelled after its first chunk. *)
Definition on_disk : list action := start_job 0 "u" (Some "p") ++ fetch 0 3 ++ [ThreadStep 0 FileOk; ThreadStep 0 (Chunk [1; 2])].
Lemma cancel_ends_witness : exists w w', run on_disk init = Some w
  /\ run [Cancel "u"; ThreadStep 0 FileOk; ThreadStep 0 Received; ThreadStep 0 FileOk; ThreadStep 0 FileOk; ThreadEnd 0 true] w = Some w'
  /\ downloaders w' !! "u" = None /\ files w' !! "p" = None.
Proof.
  destruct (run on_disk init) as [w|] eqn:Hr; [|vm_compute in Hr; discriminate].
  assert (Hd : downloaders w !! "u" = Some (mkDownloader [] (Some "p") (Some 3) 0 None false 0))
    by (vm_compute in Hr; injection Hr as <-; vm_compute; reflexivity).
  assert (Ht : threads w !! 0%nat = Some (mkThread "u" (Some "p") (Wrote (mkHandle "p" 1 2) 2) [1; 2]))
    by (vm_compute in Hr; injection Hr as <-; vm_compute; reflexivity).
  assert (Hdis : disciplined on_disk init).
  { unfold on_disk, start_job, fetch. cbn [app]. repeat (split; [exact I|]; intros ? _). exact I. }
  destruct (cancel_ends on_disk w "u" _ _ Hr Hdis Hd Ht eq_refl) as (w' & H1 & H2 & H3).
  exists w, w'. split; [reflexivity|]. split; [exact H1|]. split; [rewrite H2; apply lookup_delete_eq|].
  apply H3. reflexivity.
Defined.

(** ** What happens without the discipline *)

(** A job is removed while it runs and started again: a chunk the old thread had
    under way lands in the new job's data. *)
Example late_chunk_in_new_job :
  (λ w, data <$> downloaders w !! "u") <$> run (start_job 0 "u" None ++ fetch 0 3 ++ [Remove "u"] ++
    start_job 1 "u" None ++ fetch 1 3 ++ [ThreadStep 0 (Chunk [9]); ThreadStep 1 (Chunk [1])]) init
  = Some (Some [9; 1]).
Proof. vm_compute. reflexivity. Qed.
(** The old thread then notices that its sender is gone, and takes the new job
    away together with its file. *)
Example old_thread_takes_new_job :
  (λ w, (downloaders w !! "u", files w !! "p")) <$> run (start_job 0 "u" None ++ fetch 0 3 ++ [Remove "u"] ++
    start_job 1 "u" (Some "p") ++ fetch 1 3 ++ [ThreadStep 1 FileOk; ThreadStep 0 Received; ThreadStep 0 FileOk;
    ThreadStep 0 FileOk; ThreadEnd 0 true]) init = Some (None, None).
Proof. vm_compute. reflexivity. Qed.
(** A finished job that nobody removed answers the next call, even when its file
    has been deleted for that call. *)
Example finished_job_answers :
  (λ w, (c_state <$> callers w !! 1%nat, files w !! "p")) <$> run (start_job 0 "u" (Some "p") ++ fetch 0 1 ++
    [ThreadStep 0 FileOk; ThreadStep 0 (Chunk [7]); ThreadStep 0 FileOk; ThreadStep 0 End; ThreadStep 0 FileOk;
     ThreadStep 0 FileOk; ThreadEnd 0 true; DeleteFile "p"; Call 1 "u" (Some "p"); CallStep 1 io]) init
  = Some (Some (Returned (Ok "u")), None).
Proof. vm_compute. reflexivity. Qed.
End Downloader.
