(* ===== verification/Session.v ===== *)
(** * An open connection ([src/src/server/connection.rs])

    What a connection does beside the login of [Login.v]: the messages of the
    peer once it is authorised ([on_message]), the data of the connection
    manager, the timers, and the end of [Connection::start].  The build is that
    for Windows with the Flutter interface; the announcements of hardware codecs
    and the plugins are left out.

    The boolean fields of [Connection] are one function of the field's name.
    What the handlers do outside is a list of events, oldest first; what the
    system answers within one message is a [senv].  Subscriptions are those of
    [Server.v], against the interface of a service. *)

From stdpp Require Import functions.
From S2P Require Import Prelude RustStr Login Service Server FileLog.
Import Service Server.
#[local] Open Scope Z_scope.

Module Session.
Import Login(Permission, PKeyboard, PClipboard, PFile, PAudio, PRestart, PRecording, PBlockInput).
#[local] Existing Instance Login.AuthConnType_eq_dec.
Import Login(AuthConnType, TRemote, TFileTransfer, TPortForward, TViewCamera, TTerminal).

Definition NAME_CURSOR : string := "mouse_cursor".
Definition NAME_POS : string := "mouse_pos".
Definition NAME_WINDOW_FOCUS : string := "window_focus".
Definition NAME_AUDIO : string := "audio".
Definition NAME_CLIPBOARD : string := "clipboard".

(** *** Messages of the peer

    What only travels through (coordinates, names and offsets of files, the
    content of the clipboard) is left out of the messages and the events.
    [BoolOption], or a number outside it. *)
Inductive tri := TUnknown | TNotSet | TYes | TNo.
Record OptionMessage := mkOpt {
  image_quality : option Z;           (** [None]: unknown; 0: not set *)
  custom_image_quality : Z; custom_fps : Z; supported_decoding : bool;
  o_lock_after_session_end : tri; o_show_remote_cursor : tri; o_follow_remote_cursor : tri;
  o_follow_remote_window : tri; o_disable_audio : tri; o_enable_file_transfer : tri;
  o_disable_clipboard : tri; o_disable_keyboard : tri; o_privacy_mode : tri; o_block_input : tri;
  o_terminal_persistent : tri; o_show_my_cursor : tri;
}.
(** A key event: whether it is a press (down and up at once) or, if not, the way
    the key goes; the modifier its code stands for; whether it carries text
    ([Unicode] or [Seq]), whether it is Enter. *)
Record KeyEvent := mkKey { k_press : bool; k_down : bool; k_modifier : option Z; k_text : bool; k_enter : bool }.
Inductive file_action :=
  | FaReadEmptyDirs (path : string) (hidden : bool)
  | FaReadDir (path : string) (hidden : bool)
  | FaAllFiles (id : Z) (path : string) (hidden : bool)
  | FaSend (id : Z) (path : string) (printer : bool) (file_num : Z) (hidden : bool)
  | FaReceive (id : Z) (path : string) (file_num total : Z)
  | FaRemoveDir (id : Z) (path : FileLog.path) (recursive : bool)
  | FaRemoveFile (id : Z) (path : FileLog.path) (file_num : Z)
  | FaCreate (id : Z) (path : string)
  | FaCancel (id : Z)
  | FaSendConfirm (id file_num : Z)
  | FaRename (id : Z) (path new_name : string)
  | FaCopy (id : Z) (src dst : string) (is_move : bool)
  | FaOther.
Inductive file_response :=
  | FrBlock (id file_num data : Z) (compressed : bool)
  | FrDone (id file_num : Z)
  | FrDigest (id file_num size modified : Z) (resume : bool)
  | FrError (id file_num : Z) (err : string)
  | FrOther.
Inductive annotate_op := AStop | AClear | ADraw.
Inductive misc :=
  | MCloseReason
  | MSwitchDisplay (display width height : Z)
  | MCaptureDisplays (add sub set : list Z)
  | MToggleVirtualDisplay (on : bool) (display : Z)
  | MTogglePrivacyMode (on : bool) (impl_key : string)
  | MChatPanel (open : bool)
  | MSchedReq (close : bool)
  | MChat (text : string)
  | MOption (o : OptionMessage)
  | MRefreshVideo (all : bool)
  | MRefreshVideoDisplay (display : Z)
  | MVideoReceived
  | MRestart
  | MElevation
  | MAudioFormat
  | MSwitchSides (uuid_ok : bool)
  | MChangeResolution (display : option Z) (width height : Z)
  | MAutoAdjustFps (fps : Z)
  | MClientRecord (status : bool)
  | MSelectedSid (sid : Z)
  | MAnnotate (op : annotate_op)
  | MQuery (display : Z)
  | MOther.
Inductive message :=
  | MsgTestDelay (from_client : bool)
  | MsgMouse (left_up : bool)
  | MsgPointer
  | MsgKey (k : KeyEvent)
  | MsgClipboard
  | MsgCliprdr (files : bool) (convertible : bool)
  | MsgFileAction (fa : file_action)
  | MsgFileResponse (fr : file_response)
  | MsgMisc (m : misc)
  | MsgAudioFrame
  | MsgVoiceCall (is_connect : bool) (timestamp : Z)
  | MsgVoiceResponse
  | MsgScreenshot (display : Z)
  | MsgTerminal
  | MsgOther.

(** *** Data of the connection manager *)
Inductive privacy_off := OffSucceeded | OffByPeer | OffUnknown.
Inductive cm_data :=
  | CmClose
  | CmErr (expected : bool)
  | CmChat (text : string)
  | CmSchedResp (accepted : bool) (open_until : Z)
  | CmSwitchPermission (name : string) (enabled : bool)
  | CmRaw
  | CmClipboardFile (files : bool)
  | CmPrivacyModeState (s : privacy_off)
  | CmStartPortable
  | CmSwitchSidesBack
  | CmVoiceCallResponse (accepted : bool)
  | CmCloseVoiceCall
  | CmReadJobInit (id conn : Z) (dir : result (option Z) string)   (** [Ok None]: not a directory's bytes *)
  | CmFileBlock (id file_num data : Z) (compressed : bool) (conn : Z)
  | CmFileReadDone (id file_num conn : Z)
  | CmFileReadError (id file_num : Z) (err : string) (conn : Z)
  | CmFileDigest (id file_num modified size : Z) (resume : bool) (conn : Z)
  | CmAllFiles (id : Z) (path : string) (conn : Z) (dir : result (result unit string) string)   (** the inner one: parsing *)
  | CmOther.

(** *** What is done outside *)
Inductive fs_command :=
  | FsReadEmptyDirs (path : string) (hidden : bool) | FsReadDir (path : string) (hidden : bool)
  | FsReadAllFiles (id : Z) (path : string) (hidden : bool)
  | FsReadFile (id : Z) (path : string) (file_num : Z) (hidden : bool)
  | FsNewWrite (id : Z) (path : string) (file_num total : Z)
  | FsRemoveDir (id : Z) (path : FileLog.path) (recursive : bool)
  | FsRemoveFile (id : Z) (path : FileLog.path) (file_num : Z)
  | FsCreateDir (id : Z) (path : string) | FsCancelWrite (id : Z) | FsCancelRead (id : Z)
  | FsSendConfirmForRead (id file_num : Z) | FsSendConfirm (id file_num : Z)
  | FsRename (id : Z) (path new_name : string) | FsCopy (id : Z) (src dst : string) (is_move : bool)
  | FsWriteBlock (id file_num data : Z) (compressed : bool) | FsWriteDone (id file_num : Z)
  | FsCheckDigest (id file_num size modified : Z) (resume : bool) | FsWriteError (id file_num : Z) (err : string).
Inductive privacy_state :=
  | PrvNotSupported | PrvOnSucceeded | PrvOnFailed | PrvOnFailedPlugin | PrvOffSucceeded | PrvOffFailed
  | PrvOffByPeer | PrvOffUnknown.
Inductive event :=
  (** to the peer *)
  | SPermission (p : Permission) (enabled : bool) | SCloseReason (s : string) | STestDelay | SSwitchBack
  | SFileError (id : Z) (err : string) (file_num : Z) | SDir (id : Z) | SBlock (id file_num data : Z) (compressed : bool)
  | SDone (id file_num : Z) | SDigest (id file_num modified size : Z) (resume : bool) | SSchedAck | SSchedState (open_until : Z) (via_window : bool)
  | SSchedAnswer (accepted : bool) (open_until : Z) | SChat (text : string) | SPrivacy (p : privacy_state)
  | SMessageBox (text : string) | SDisplayChanged (display : Z) | SElevation (err : string)
  | SVoiceResponse (timestamp : Z) (accepted : bool) | SVoiceRequest (is_connect : bool) | SBlockInputFailed (on : bool)
  | STerminalResponse | SPrinterJob (path : string) | SRaw | SLoginResponse (ok : bool) | SFollowDisplay (display : Z)
  | SQueued (latency : Z) | SFileData | SPortableRunning (b : bool) | SUac (b : bool) | SElevatedWindow (b : bool)
  | SClipboardFile
  (** to the connection manager *)
  | CClose | CFs (f : fs_command) | CRemoved (l : FileLog.entry) | CLog (what : string) | CChat (text : string)
  | CChatPanel (open : bool) | CSchedReq | CClipboardFile | CClipboardFileEnabled (b : bool)
  | CVoiceCallIncoming | CStartVoiceCall | CCloseVoiceCall | CShowElevation (b : bool)
  (** to the input thread; of a key whether its message says it goes down, and
      whether it is to go down and up *)
  | IMouse (simulate show_cursor : bool) | IPointer | IKey (down press : bool) | IBlock (on : bool)
  (** on the machine *)
  | XClickTime | XMoveTime | XReboot | XGrace | XSchedClear | XSchedEnd | XLock | XClipboard
  | XRememberResolution (display width height : Z) | XResolution (display width height : Z)
  | XPrivacyOn (impl_key : string) | XPrivacyOff (conn : Z)
  | XVirtualDisplay (on : bool) (display : Z) | XStartPortable | XRunMe | XWhiteboard (what : string)
  | XQos (what : string) (v : Z) | XRefresh | XScreenshot (display : Z) | XAudit (what : string)
  | XVoiceDevice (on : bool) | XAudioThread | XAudioFrame | XUserSession (sid : Z) | XTerminal
  | XTerminalPersistent (b : bool) | XRotatePassword | XFetched (some : bool) | XKeyRelease (key : Z)
  | XRemoveSession | XTerminalService.

(** *** The connection *)
Inductive field :=
  | authorized | port_forward_socket | view_camera | terminal
  | keyboard | clipboard | audio | file | restart | recording | block_input
  | disable_keyboard | disable_clipboard | disable_audio | enable_file_transfer
  | show_remote_cursor | follow_remote_cursor | follow_remote_window | multi_ui_session
  | lock_after_session_end | show_my_cursor | cr_annotating | voice_calling | services_subed
  | closed | chat_unanswered | file_transferred | sched_window_session | audio_sender
  | last_test_delay | video_ack_required | terminal_user_token | terminal_generic_service | from_switch.
#[export] Instance field_eq_dec : EqDecision field.
Proof. solve_decision. Defined.

(** The read jobs of the [fs] library: adding, finding, confirming, removing
    one by its number, and working on them all, which may end the stream. *)
Class ReadJobs := {
  jobs : Type;
  no_jobs : jobs;
  jobs_empty : jobs -> bool;
  push_job : Z -> jobs -> jobs;
  has_job : Z -> jobs -> bool;
  confirm_job : Z -> jobs -> jobs;
  remove_job : Z -> jobs -> option jobs;
  handle_jobs : jobs -> jobs * result bool string;      (** whether there is something for the log *)
}.

Section session.
Context {msgs : Messages} {S : Type} {svc : ServiceI S} {rj : ReadJobs}.
(** Built-in options, fixed at the start of the program; [video_service::new]. *)
Context (one_way_clipboard one_way_file : bool) (new_video : VideoSource -> Z -> S).

Record portable := mkPortable {
  is_installed : bool; last_running : option bool; last_uac : bool; last_elevated : bool;
}.
Record sess := mkSess {
  inner : ConnInner;
  flag : field -> bool;
  authed_as : option AuthConnType;                 (** [authed_conn_id] *)
  file_transfer : option (string * bool);
  display_idx : Z;
  delayed_read_dir : option (string * bool);
  cm_read_job_ids : gset Z;
  read_jobs : jobs;
  printer_data : list (Z * string * Z);
  pressed_modifiers : gset Z;
  voice_call_request_timestamp : option Z;
  auto_disconnect_timer : option (Z * Z);          (** since when, minutes *)
  file_remove_log_control : FileLog.control;
  port : portable;
  srv : option (server (S := S));                  (** the server, while it lives *)
}.
(** The peer's program: supports several windows, is older than 1.2.4. *)
Record peer := mkPeer { multi_ui : bool; before_1_2_4 : bool }.

(** A display that a driver of the program provides, of Amyuni's, any other. *)
Inductive screen_kind := VirtualDisplay | AmyuniDisplay | OrdinaryDisplay.
(** The answers of the system during one message. *)
Record senv := mkSenv {
  now : Z; timestamp : Z; from : peer;
  primary : Z; camera_exists : bool;
  screen : Z -> option screen_kind;
  display_changed : Z -> VideoSource -> bool;
  display_at : option Z;                           (** the display under the cursor *)
  overlay_supported : bool; win10 : bool;
  privacy_supported : bool; privacy_on : bool; privacy_other : bool;
  turn_on : option (result bool string); privacy_err : string; privacy_on_after : bool;
  turn_off : option (result unit string);
  sched_end : option Z;
  installed : bool; portable_running : bool; start_portable : option string;
  uac_running : bool; foreground_elevated : bool;
  idd_supported : bool; plug_in : option string; plug_out : option string;
  current_sid : option Z; sids : list Z; share_rdp : bool; non_port_forward_conns : Z;
  terminal_answer : option bool;                   (** [None]: no answer; [Some false]: an error *)
  read_job : result nat string; count_limit : nat -> option string;
  send_files_by_cm : bool; recursive_files : result nat string;
  allow_auto_disconnect : bool; auto_disconnect_timeout : option Z;
  remote_printing : bool; privacy_conn : option Z;
  displays : result unit string; dir_exists : string -> bool;
}.

Definition set_srv v s := mkSess (inner s) (flag s) (authed_as s) (file_transfer s) (display_idx s)
  (delayed_read_dir s) (cm_read_job_ids s) (read_jobs s) (printer_data s) (pressed_modifiers s)
  (voice_call_request_timestamp s) (auto_disconnect_timer s) (file_remove_log_control s) (port s) v.
Definition set_flag f v s := mkSess (inner s) (<[f := v]> (flag s)) (authed_as s) (file_transfer s) (display_idx s)
  (delayed_read_dir s) (cm_read_job_ids s) (read_jobs s) (printer_data s) (pressed_modifiers s)
  (voice_call_request_timestamp s) (auto_disconnect_timer s) (file_remove_log_control s) (port s) (srv s).
Definition set_authed v s := mkSess (inner s) (flag s) v (file_transfer s) (display_idx s)
  (delayed_read_dir s) (cm_read_job_ids s) (read_jobs s) (printer_data s) (pressed_modifiers s)
  (voice_call_request_timestamp s) (auto_disconnect_timer s) (file_remove_log_control s) (port s) (srv s).
Definition set_file_transfer v s := mkSess (inner s) (flag s) (authed_as s) v (display_idx s)
  (delayed_read_dir s) (cm_read_job_ids s) (read_jobs s) (printer_data s) (pressed_modifiers s)
  (voice_call_request_timestamp s) (auto_disconnect_timer s) (file_remove_log_control s) (port s) (srv s).
Definition set_display v s := mkSess (inner s) (flag s) (authed_as s) (file_transfer s) v
  (delayed_read_dir s) (cm_read_job_ids s) (read_jobs s) (printer_data s) (pressed_modifiers s)
  (voice_call_request_timestamp s) (auto_disconnect_timer s) (file_remove_log_control s) (port s) (srv s).
Definition set_delayed v s := mkSess (inner s) (flag s) (authed_as s) (file_transfer s) (display_idx s)
  v (cm_read_job_ids s) (read_jobs s) (printer_data s) (pressed_modifiers s)
  (voice_call_request_timestamp s) (auto_disconnect_timer s) (file_remove_log_control s) (port s) (srv s).
Definition set_cm_jobs v s := mkSess (inner s) (flag s) (authed_as s) (file_transfer s) (display_idx s)
  (delayed_read_dir s) v (read_jobs s) (printer_data s) (pressed_modifiers s)
  (voice_call_request_timestamp s) (auto_disconnect_timer s) (file_remove_log_control s) (port s) (srv s).
Definition set_jobs v s := mkSess (inner s) (flag s) (authed_as s) (file_transfer s) (display_idx s)
  (delayed_read_dir s) (cm_read_job_ids s) v (printer_data s) (pressed_modifiers s)
  (voice_call_request_timestamp s) (auto_disconnect_timer s) (file_remove_log_control s) (port s) (srv s).
Definition set_printer v s := mkSess (inner s) (flag s) (authed_as s) (file_transfer s) (display_idx s)
  (delayed_read_dir s) (cm_read_job_ids s) (read_jobs s) v (pressed_modifiers s)
  (voice_call_request_timestamp s) (auto_disconnect_timer s) (file_remove_log_control s) (port s) (srv s).
Definition set_modifiers v s := mkSess (inner s) (flag s) (authed_as s) (file_transfer s) (display_idx s)
  (delayed_read_dir s) (cm_read_job_ids s) (read_jobs s) (printer_data s) v
  (voice_call_request_timestamp s) (auto_disconnect_timer s) (file_remove_log_control s) (port s) (srv s).
Definition set_voice v s := mkSess (inner s) (flag s) (authed_as s) (file_transfer s) (display_idx s)
  (delayed_read_dir s) (cm_read_job_ids s) (read_jobs s) (printer_data s) (pressed_modifiers s)
  v (auto_disconnect_timer s) (file_remove_log_control s) (port s) (srv s).
Definition set_timer v s := mkSess (inner s) (flag s) (authed_as s) (file_transfer s) (display_idx s)
  (delayed_read_dir s) (cm_read_job_ids s) (read_jobs s) (printer_data s) (pressed_modifiers s)
  (voice_call_request_timestamp s) v (file_remove_log_control s) (port s) (srv s).
Definition set_remove_log v s := mkSess (inner s) (flag s) (authed_as s) (file_transfer s) (display_idx s)
  (delayed_read_dir s) (cm_read_job_ids s) (read_jobs s) (printer_data s) (pressed_modifiers s)
  (voice_call_request_timestamp s) (auto_disconnect_timer s) v (port s) (srv s).
Definition set_portable v s := mkSess (inner s) (flag s) (authed_as s) (file_transfer s) (display_idx s)
  (delayed_read_dir s) (cm_read_job_ids s) (read_jobs s) (printer_data s) (pressed_modifiers s)
  (voice_call_request_timestamp s) (auto_disconnect_timer s) (file_remove_log_control s) v (srv s).

(** The connection and what was done so far, oldest first. *)
Record ctx := mkCtx { cn : sess; did : list event }.
Definition emit (ev : event) (x : ctx) : ctx := mkCtx (cn x) (did x ++ [ev]).
Definition upd (f : sess -> sess) (x : ctx) : ctx := mkCtx (f (cn x)) (did x).
Definition put (f : field) (b : bool) : ctx -> ctx := upd (set_flag f b).
(** [emit] under a condition. *)
Definition emit_if (b : bool) (ev : event) (x : ctx) : ctx := if b then emit ev x else x.
Notation "x |> f" := (f x) (at level 50, left associativity, only parsing).

(** *** Permissions *)
Definition peer_keyboard_enabled (s : sess) : bool := flag s keyboard && negb (flag s disable_keyboard).
Definition clipboard_enabled (s : sess) : bool := flag s clipboard && negb (flag s disable_clipboard).
Definition can_sub_clipboard_service (s : sess) : bool :=
  clipboard_enabled s && peer_keyboard_enabled s && negb one_way_clipboard.
Definition audio_enabled (s : sess) : bool := flag s audio && negb (flag s disable_audio).
Definition file_transfer_enabled (s : sess) : bool := flag s file && flag s enable_file_transfer.
Definition is_remote (s : sess) : bool :=
  match file_transfer s with None => true | Some _ => false end
  && negb (flag s port_forward_socket) && negb (flag s view_camera) && negb (flag s terminal).
Definition is_authed_remote_conn (s : sess) : bool := bool_decide (authed_as s = Some TRemote).
Definition is_authed_view_camera_conn (s : sess) : bool := bool_decide (authed_as s = Some TViewCamera).
Definition video_source (s : sess) : VideoSource := if flag s view_camera then Camera else Monitor.

(** *** Helpers *)
Definition on_server (g : server (S := S) -> server) : ctx -> ctx :=
  upd (λ s, match srv s with Some v => set_srv (Some (g v)) s | None => s end).
Definition subscribe_to (nm : string) (b : bool) (x : ctx) : ctx := on_server (subscribe nm (inner (cn x)) b) x.
Definition update_auto_disconnect_timer (e : senv) : ctx -> ctx :=
  upd (λ s, set_timer (match auto_disconnect_timer s with Some (_, m) => Some (now e, m) | None => None end) s).
Definition get_auto_disconenct_timer (e : senv) : option (Z * Z) :=
  if allow_auto_disconnect e then
    let minute := default 10 (auto_disconnect_timeout e) in
    Some (now e, if minute =? 0 then 10 else minute)
  else None.
Definition send_fs (f : fs_command) : ctx -> ctx := emit (CFs f).
Definition read_dir (dir : string) (hidden : bool) : ctx -> ctx := send_fs (FsReadDir dir hidden).
Definition refresh_video_display (display : option Z) (x : ctx) : ctx :=
  let source := video_source (cn x) in
  x |> emit XRefresh
    |> on_server (set_video_service_opt (match display with Some d => Some (source, d) | None => None end) "refresh" "1").
Definition send_cr_sched_state (e : senv) (always via_window : bool) (x : ctx) : ctx :=
  let open_until := default 0 (sched_end e) in
  if (open_until =? 0) && negb always then x else emit (SSchedState open_until via_window) x.

(** *** Services *)
Definition try_sub_camera_displays (e : senv) (x : ctx) : ctx :=
  let i := inner (cn x) in
  on_server (λ v, v |> try_add_primary_camera_service (camera_exists e) (primary e) (new_video Camera (primary e))
                    |> add_camera_connection (camera_exists e) (primary e) i) x.

Definition noperms (s : sess) : list string :=
  (if negb (peer_keyboard_enabled s) && negb (flag s show_remote_cursor) then [NAME_CURSOR] else [])
  ++ (if negb (flag s show_remote_cursor) then [NAME_POS] else [])
  ++ (if negb (flag s follow_remote_window) then [NAME_WINDOW_FOCUS] else [])
  ++ (if negb (can_sub_clipboard_service s) then [NAME_CLIPBOARD] else [])
  ++ (if negb (audio_enabled s) then [NAME_AUDIO] else []).
Definition try_sub_monitor_services (e : senv) (x : ctx) : ctx :=
  if is_remote (cn x) && negb (flag (cn x) services_subed) then
    let x := put services_subed true x in
    match srv (cn x) with
    | Some _ =>
        let np := noperms (cn x) in
        let i := inner (cn x) in
        x |> upd (set_timer (get_auto_disconenct_timer e))
          |> on_server (λ v, v |> try_add_primay_video_service (primary e) (new_video Monitor (primary e))
                               |> add_connection (primary e) i np)
    | None => x
    end
  else x.

(** *** Displays *)
Definition change_resolution (e : senv) (d : option Z) (width height : Z) (x : ctx) : ctx :=
  if flag (cn x) keyboard then
    let i := default (display_idx (cn x)) d in
    match screen e i with
    | Some OrdinaryDisplay => x |> emit (XRememberResolution i width height) |> emit (XResolution i width height)
    | Some _ => emit (XResolution i width height) x
    | None => x
    end
  else x.

Definition add_missing (source : VideoSource) (v : server (S := S)) (display : Z) : server :=
  if negb (contains (get_service_name source display) v) then add_service (new_video source display) v else v.
Definition switch_display_to (e : senv) (display : Z) (x : ctx) : ctx :=
  let s := cn x in
  let source := video_source s in
  x |> on_server (λ v,
         let v := if negb (display =? primary e) then add_missing source v display else v in
         let v := if negb (multi_ui (from e))
                  then subscribe (get_service_name source (display_idx s)) (inner s) false v else v in
         subscribe (get_service_name source display) (inner s) true v)
    |> upd (set_display display).
Definition handle_switch_display (e : senv) (display width height : Z) (x : ctx) : ctx :=
  if negb (display_idx (cn x) =? display) then
    let x :=
      match srv (cn x) with
      | Some _ =>
          let x := switch_display_to e display x in
          if negb (width =? 0) && negb (height =? 0) then change_resolution e None width height x else x
      | None => x
      end in
    emit_if (display_changed e (display_idx (cn x)) (video_source (cn x))) (SDisplayChanged (display_idx (cn x))) x
  else x.

Definition capture (e : senv) (add sub set : list Z) (x : ctx) : ctx :=
  let s := cn x in
  let source := video_source s in
  match srv s with
  | Some v =>
      let v := foldl (add_missing source) v add in
      let v := foldl (add_missing source) v set in
      let v := match add, sub with
               | _ :: _, _ => capture_displays (inner s) source add true false v
               | [], _ :: _ => capture_displays (inner s) source sub false true v
               | [], [] => capture_displays (inner s) source set true true v
               end in
      let multi := bool_decide (1 < get_subbed_displays_count (id (inner s)) v)%nat in
      let v := if flag s follow_remote_window then subscribe NAME_WINDOW_FOCUS (inner s) (negb multi) v else v in
      x |> upd (set_srv (Some v)) |> put multi_ui_session multi
  | None => x
  end.

Definition toggle_virtual_display (e : senv) (on : bool) (display : Z) (x : ctx) : ctx :=
  if on then
    if negb (idd_supported e) then emit (SMessageBox "idd_not_support_under_win10_2004_tip") x
    else
      let x := emit (XVirtualDisplay true display) x in
      match plug_in e with
      | Some err => emit (SMessageBox ("Failed to plug in virtual display: " +:+ err)) x
      | None => x
      end
  else
    let x := emit (XVirtualDisplay false display) x in
    match plug_out e with
    | Some err => emit (SMessageBox ("Failed to plug out virtual displays: " +:+ err)) x
    | None => x
    end.

(** *** Privacy mode *)
Definition INVALID_PRIVACY_MODE_CONN_ID : Z := 0.
Definition turn_off_privacy_to_msg (e : senv) (conn : Z) (x : ctx) : privacy_state * ctx :=
  (match turn_off e with
   | Some (Ok _) => PrvOffSucceeded
   | Some (Err _) => PrvOffFailed
   | None => PrvOffFailed
   end, emit (XPrivacyOff conn) x).
Definition turn_on_privacy (e : senv) (impl_key : string) (x : ctx) : ctx :=
  if negb (privacy_supported e) then emit (SPrivacy PrvNotSupported) x
  else
    let x := emit_if (privacy_on e && privacy_other e) (SPrivacy PrvOffSucceeded) x in
    let x := emit (XPrivacyOn impl_key) x in
    match turn_on e with
    | Some (Ok true) =>
        if is_empty (privacy_err e) then emit (SPrivacy PrvOnSucceeded) x
        else emit (SPrivacy PrvOnFailed) (turn_off_privacy_to_msg e (id (inner (cn x))) x).2
    | Some (Ok false) => emit (SPrivacy PrvOnFailedPlugin) x
    | Some (Err _) =>
        let x := if privacy_on_after e then (turn_off_privacy_to_msg e INVALID_PRIVACY_MODE_CONN_ID x).2 else x in
        emit (SPrivacy PrvOnFailed) x
    | None => emit (SPrivacy PrvOffFailed) x
    end.
Definition turn_off_privacy (e : senv) (x : ctx) : ctx :=
  if negb (privacy_supported e) then emit (SPrivacy PrvNotSupported) x
  else let '(m, x) := turn_off_privacy_to_msg e (id (inner (cn x))) x in emit (SPrivacy m) x.
Definition toggle_privacy_mode (e : senv) (on : bool) (impl_key : string) (x : ctx) : ctx :=
  if on then turn_on_privacy e impl_key x else turn_off_privacy e x.

(** *** Voice calls *)
Definition handle_voice_call (accepted : bool) (x : ctx) : ctx :=
  match voice_call_request_timestamp (cn x) with
  | Some ts =>
      let x := upd (set_voice None) x in
      let x := if accepted then x |> emit (XVoiceDevice true) |> emit CStartVoiceCall else emit CCloseVoiceCall x in
      let x := x |> emit (SVoiceResponse ts accepted) |> put voice_calling accepted in
      if is_authed_view_camera_conn (cn x)
      then subscribe_to NAME_AUDIO (audio_enabled (cn x) && accepted) x else x
  | None => x
  end.
Definition close_voice_call (x : ctx) : ctx :=
  let x := x |> emit (XVoiceDevice false) |> emit CCloseVoiceCall |> put voice_calling false in
  if is_authed_view_camera_conn (cn x) then subscribe_to NAME_AUDIO false x else x.

(** *** Options of the peer *)
Definition when_set (t : tri) (k : bool -> ctx -> ctx) : ctx -> ctx :=
  match t with TYes => k true | TNo => k false | TNotSet | TUnknown => λ x, x end.

(** The audio service of a camera connection is on only during a call. *)
Definition sub_audio (x : ctx) : ctx :=
  let s := cn x in
  if is_authed_view_camera_conn s then
    if flag s voice_calling || negb (audio_enabled s) then subscribe_to NAME_AUDIO (audio_enabled s) x else x
  else subscribe_to NAME_AUDIO (audio_enabled s) x.

Definition update_quality (o : OptionMessage) (x : ctx) : ctx :=
  let x :=
    match image_quality o with
    | Some q =>
        let q := if q =? 0 then (if custom_image_quality o >? 0 then custom_image_quality o else -1) else q in
        emit_if (q >? 0) (XQos "image_quality" q) x
    | None => x
    end in
  let x := emit_if (custom_fps o >? 0) (XQos "custom_fps" (custom_fps o)) x in
  emit_if (supported_decoding o) (XQos "decoding" 0) x.
Definition update_block_input (t : tri) (x : ctx) : ctx :=
  if flag (cn x) keyboard && flag (cn x) block_input then when_set t (λ on, emit (IBlock on)) x
  else match t with
       | TUnknown | TNotSet => x
       | TYes => emit (SBlockInputFailed true) x
       | TNo => emit (SBlockInputFailed false) x
       end.
Definition update_show_my_cursor (e : senv) (t : tri) : ctx -> ctx :=
  when_set t (λ on x,
    let x := put show_my_cursor on x in
    if on then emit (if win10 e then XWhiteboard "register" else SMessageBox "Windows 10 or greater is required.") x
    else emit_if (win10 e) (XWhiteboard "unregister") x).
Definition option_show_cursor (b : bool) (x : ctx) : ctx :=
  let x := put show_remote_cursor b x in
  x |> subscribe_to NAME_CURSOR (peer_keyboard_enabled (cn x) || flag (cn x) show_remote_cursor)
    |> subscribe_to NAME_POS (flag (cn x) show_remote_cursor).
Definition option_follow_window (b : bool) (x : ctx) : ctx :=
  let x := put follow_remote_window b x in subscribe_to NAME_WINDOW_FOCUS (flag (cn x) follow_remote_window) x.
Definition option_disable_audio (b : bool) (x : ctx) : ctx := x |> put disable_audio b |> sub_audio.
Definition option_file_transfer (b : bool) (x : ctx) : ctx :=
  let x := put enable_file_transfer b x in emit (CClipboardFileEnabled (file_transfer_enabled (cn x))) x.
Definition option_disable_clipboard (b : bool) (x : ctx) : ctx :=
  let x := put disable_clipboard b x in subscribe_to NAME_CLIPBOARD (can_sub_clipboard_service (cn x)) x.
Definition option_disable_keyboard (b : bool) (x : ctx) : ctx :=
  let x := put disable_keyboard b x in
  x |> subscribe_to NAME_CLIPBOARD (can_sub_clipboard_service (cn x))
    |> subscribe_to NAME_CURSOR (peer_keyboard_enabled (cn x) || flag (cn x) show_remote_cursor).
Definition update_services (o : OptionMessage) (x : ctx) : ctx :=
  x |> when_set (o_lock_after_session_end o) (put lock_after_session_end)
    |> when_set (o_show_remote_cursor o) option_show_cursor
    |> when_set (o_follow_remote_cursor o) (put follow_remote_cursor)
    |> when_set (o_follow_remote_window o) option_follow_window
    |> when_set (o_disable_audio o) option_disable_audio
    |> when_set (o_enable_file_transfer o) option_file_transfer
    |> when_set (o_disable_clipboard o) option_disable_clipboard
    |> when_set (o_disable_keyboard o) option_disable_keyboard.
Definition update_options (e : senv) (o : OptionMessage) (x : ctx) : ctx :=
  let x := x |> update_quality o |> update_services o in
  let x := if before_1_2_4 (from e) && flag (cn x) keyboard
           then when_set (o_privacy_mode o) (λ on, toggle_privacy_mode e on "") x else x in
  x |> update_block_input (o_block_input o)
    |> when_set (o_terminal_persistent o) (λ b, emit (XTerminalPersistent b))
    |> update_show_my_cursor e (o_show_my_cursor o).

(** *** Files *)
Definition process_new_read_job (id : Z) (x : ctx) : ctx :=
  x |> emit (SDir id) |> upd (λ s, set_jobs (push_job id (read_jobs s)) s) |> emit (XAudit "RemoteSend").
Definition create_and_start_read_job (e : senv) (id : Z) (check_file_limit : bool) (x : ctx) : ctx :=
  match read_job e with
  | Err err => emit (SFileError id err 0) x
  | Ok files =>
      match (if check_file_limit then count_limit e files else None) with
      | Some msg => emit (SFileError id msg (-1)) x
      | None => process_new_read_job id x
      end
  end.

(** The number of the job that a change of the file system belongs to. *)
Definition changes (fa : file_action) : option Z :=
  match fa with
  | FaSend i _ _ _ _ | FaRemoveFile i _ _ | FaRename i _ _ | FaCreate i _ | FaRemoveDir i _ _ | FaCopy i _ _ _ => Some i
  | _ => None
  end.

(** The data kept for a printer job, and the rest. *)
Fixpoint take_printer (p : string) (l : list (Z * string * Z)) : option (list (Z * string * Z)) :=
  match l with
  | [] => None
  | (t, q, d) :: l => if String.eqb q p then Some l
                      else match take_printer p l with Some r => Some ((t, q, d) :: r) | None => None end
  end.

Definition file_send (e : senv) (i : Z) (path : string) (printer : bool) (file_num : Z) (hidden : bool) (x : ctx) : ctx :=
  if printer then
    match take_printer path (printer_data (cn x)) with
    | Some rest => x |> upd (set_printer rest) |> create_and_start_read_job e i false |> put file_transferred true
    | None => x
    end
  else
    (if send_files_by_cm e then
       x |> upd (λ s, set_cm_jobs ({[i]} ∪ cm_read_job_ids s) s) |> send_fs (FsReadFile i path file_num hidden)
     else create_and_start_read_job e i true x)
    |> put file_transferred true.

Definition do_file_action (e : senv) (fa : file_action) (x : ctx) : ctx :=
  match fa with
  | FaReadEmptyDirs p hidden => send_fs (FsReadEmptyDirs p hidden) x
  | FaReadDir p hidden => read_dir p hidden x
  | FaAllFiles i p hidden =>
      if send_files_by_cm e then send_fs (FsReadAllFiles i p hidden) x
      else match recursive_files e with
           | Err err => emit (SFileError i err (-1)) x
           | Ok files => match count_limit e files with
                         | Some msg => emit (SFileError i msg (-1)) x
                         | None => emit (SDir i) x
                         end
           end
  | FaSend i p printer n hidden => file_send e i p printer n hidden x
  | FaReceive i p n total =>
      x |> send_fs (FsNewWrite i p n total) |> emit (XAudit "RemoteReceive") |> put file_transferred true
  | FaRemoveDir i p r =>
      x |> send_fs (FsRemoveDir i p r)
        |> upd (λ s, set_remove_log (FileLog.on_remove_dir (now e) (FileLog.mkRemoved i p) (file_remove_log_control s)).2 s)
  | FaRemoveFile i p n =>
      x |> send_fs (FsRemoveFile i p n)
        |> upd (λ s, set_remove_log (FileLog.on_remove_file (now e) (FileLog.mkRemoved i p) (file_remove_log_control s)).2 s)
  | FaCreate i p => x |> send_fs (FsCreateDir i p) |> emit (CLog "create_dir")
  | FaCancel i =>
      let x := x |> send_fs (FsCancelWrite i) |> upd (λ s, set_cm_jobs (cm_read_job_ids s ∖ {[i]}) s)
                 |> send_fs (FsCancelRead i) in
      match remove_job i (read_jobs (cn x)) with
      | Some rest => x |> upd (set_jobs rest) |> emit (CLog "transfer")
      | None => x
      end
  | FaSendConfirm i n =>
      if has_job i (read_jobs (cn x)) then upd (λ s, set_jobs (confirm_job i (read_jobs s)) s) x
      else if bool_decide (i ∈ cm_read_job_ids (cn x)) then send_fs (FsSendConfirmForRead i n) x
      else send_fs (FsSendConfirm i n) x
  | FaRename i p nm => x |> send_fs (FsRename i p nm) |> emit (CLog "rename")
  | FaCopy i a b mv => x |> send_fs (FsCopy i a b mv) |> emit (CLog "copy")
  | FaOther => x
  end.
Definition is_printer_send (fa : file_action) : bool := match fa with FaSend _ _ true _ _ => true | _ => false end.
Definition on_file_action (e : senv) (fa : file_action) (x : ctx) : ctx :=
  if match file_transfer (cn x) with Some _ => true | None => is_printer_send fa end then
    match delayed_read_dir (cn x) with
    | Some _ => match fa with FaReadDir p hidden => upd (set_delayed (Some (p, hidden))) x | _ => x end
    | None =>
        match (if one_way_file then changes fa else None) with
        | Some job_id => emit (SFileError job_id "one-way-file-transfer-tip" 0) x
        | None => do_file_action e fa x
        end
    end
  else x.
Definition on_file_response (fr : file_response) : ctx -> ctx :=
  match fr with
  | FrBlock i n d c => send_fs (FsWriteBlock i n d c)
  | FrDone i n => send_fs (FsWriteDone i n)
  | FrDigest i n sz m r => send_fs (FsCheckDigest i n sz m r)
  | FrError i n err => send_fs (FsWriteError i n err)
  | FrOther => λ x, x
  end.

(** *** Files read by the connection manager *)
Definition live_job (i : Z) (x : ctx) : bool := bool_decide (i ∈ cm_read_job_ids (cn x)).
Definition drop_job (i : Z) : ctx -> ctx := upd (λ s, set_cm_jobs (cm_read_job_ids s ∖ {[i]}) s).
Definition handle_read_job_init_result (i : Z) (dir : result (option Z) string) (x : ctx) : ctx :=
  if negb (live_job i x) then x
  else match dir with
       | Err error => x |> drop_job i |> emit (SFileError i error 0)
       | Ok None => x |> drop_job i |> emit (SFileError i "internal error" 0)
       | Ok (Some _) => x |> emit (SDir i) |> emit (XAudit "RemoteSend") |> put file_transferred true
       end.
Definition handle_file_block_from_cm (i n d : Z) (c : bool) (x : ctx) : ctx :=
  if negb (live_job i x) then x else emit (SBlock i n d c) x.
Definition handle_file_read_done (i n : Z) (x : ctx) : ctx :=
  if negb (live_job i x) then x else x |> drop_job i |> emit (SDone i n).
Definition handle_file_read_error (i n : Z) (err : string) (x : ctx) : ctx :=
  if negb (live_job i x) then x else x |> drop_job i |> emit (SFileError i err n).
Definition handle_file_digest_from_cm (i n modified size : Z) (resume : bool) (x : ctx) : ctx :=
  if negb (live_job i x) then x else emit (SDigest i n modified size resume) x.
Definition handle_all_files_result (i : Z) (path : string) (dir : result (result unit string) string) : ctx -> ctx :=
  match dir with
  | Err err => emit (SFileError i err (-1))
  | Ok (Ok _) => emit (SDir i)
  | Ok (Err e) => emit (SFileError i ("deserialize failed for " +:+ path +:+ ": " +:+ e) (-1))
  end.

(** *** Closing *)
Definition on_close (lock : bool) (x : ctx) : ctx :=
  let s := cn x in
  if flag s closed then x
  else
    x |> put closed true
      |> emit_if (flag s sched_window_session) XSchedEnd
      |> emit (XVoiceDevice false)
      |> emit_if (lock && flag s lock_after_session_end && flag s keyboard) XLock
      |> emit CClose
      |> put port_forward_socket false.
Definition send_close_reason_no_retry (reason : string) (x : ctx) : ctx :=
  x |> emit (SCloseReason (if is_empty reason then "Closed manually by the peer" else reason)) |> emit XRemoveSession.

(** *** Messages *)
Definition handle_elevation_request (e : senv) (x : ctx) : ctx :=
  let '(err, x) :=
    if negb (flag (cn x) keyboard) then ("No permission", x)
    else if negb (installed e) && negb (portable_running e) then (default EmptyString (start_portable e), emit XStartPortable x)
    else ("No need to elevate", x) in
  x |> emit (SElevation err) |> update_auto_disconnect_timer e.

Definition on_mouse (e : senv) (left_up : bool) (x : ctx) : ctx :=
  let s := cn x in
  if is_authed_view_camera_conn s then x
  else
    (if peer_keyboard_enabled s then
       x |> emit (if left_up then XClickTime else XMoveTime) |> emit (IMouse true (flag s show_my_cursor))
     else if flag s show_my_cursor then emit (IMouse false true) x
     else x)
    |> update_auto_disconnect_timer e.
Definition on_pointer (e : senv) (x : ctx) : ctx :=
  if is_authed_view_camera_conn (cn x) then x
  else
    (if peer_keyboard_enabled (cn x) then x |> emit XMoveTime |> emit IPointer else x)
    |> update_auto_disconnect_timer e.
(** Only a press puts a modifier on record; one that goes down alone takes it off. *)
Definition on_key (e : senv) (k : KeyEvent) (x : ctx) : ctx :=
  if is_authed_view_camera_conn (cn x) then x
  else
    (if peer_keyboard_enabled (cn x) then
       let x := x |> emit_if (k_enter k) XClickTime |> emit XMoveTime in
       let x := match k_modifier k with
                | Some key => upd (λ s, set_modifiers (if k_press k then {[key]} ∪ pressed_modifiers s
                                                       else pressed_modifiers s ∖ {[key]}) s) x
                | None => x
                end in
       emit (IKey (k_down k) (k_press k && negb (k_text k))) x
     else x)
    |> update_auto_disconnect_timer e.

Definition on_annotate (e : senv) (op : annotate_op) (x : ctx) : ctx :=
  match op with
  | AStop =>
      if flag (cn x) cr_annotating then
        let x := x |> put cr_annotating false |> emit (XWhiteboard "clear") in
        emit_if (negb (flag (cn x) show_my_cursor)) (XWhiteboard "unregister") x
      else x
  | AClear => emit (XWhiteboard "clear") x
  | ADraw =>
      let x :=
        if negb (flag (cn x) cr_annotating) then
          if overlay_supported e then x |> put cr_annotating true |> emit (XWhiteboard "register")
          else emit (SMessageBox "overlay not supported") x
        else x in
      emit_if (flag (cn x) cr_annotating) (XWhiteboard "mark") x
  end.

(** [false]: the connection ends here, another process serves the session. *)
Definition on_selected_sid (e : senv) (sid : Z) (x : ctx) : bool * ctx :=
  match current_sid e with
  | None => (true, x)
  | Some current =>
      if installed e && share_rdp e && (non_port_forward_conns e =? 1) && bool_decide (1 < length (sids e))%nat
         && negb (current =? sid) && existsb (Z.eqb sid) (sids e)
      then (false, emit (XUserSession sid) x)
      else
        (true,
         match file_transfer (cn x) with
         | Some _ => match delayed_read_dir (cn x) with
                     | Some (dir, hidden) => x |> upd (set_delayed None) |> read_dir dir hidden
                     | None => x
                     end
         | None => if flag (cn x) view_camera then try_sub_camera_displays e x
                   else if negb (flag (cn x) terminal) then try_sub_monitor_services e x
                   else x
         end)
  end.

Definition on_misc (e : senv) (m : misc) (x : ctx) : bool * ctx :=
  match m with
  | MSwitchDisplay d w h => (true, handle_switch_display e d w h x)
  | MCaptureDisplays add sub set => (true, capture e add sub set x)
  | MToggleVirtualDisplay on d => (true, toggle_virtual_display e on d x)
  | MTogglePrivacyMode on key => (true, toggle_privacy_mode e on key x)
  | MChatPanel open => (true, emit (CChatPanel open) x)
  | MSchedReq close =>
      (true, if close then x |> emit XSchedClear |> send_cr_sched_state e true false
             else x |> emit CSchedReq |> emit SSchedAck)
  | MChat text => (true, x |> emit (CChat text) |> put chat_unanswered true |> update_auto_disconnect_timer e)
  | MOption o => (true, update_options e o x)
  | MRefreshVideo all => (true, (if all then refresh_video_display None x else x) |> update_auto_disconnect_timer e)
  | MRefreshVideoDisplay d => (true, x |> refresh_video_display (Some d) |> update_auto_disconnect_timer e)
  | MVideoReceived => (true, emit (XFetched true) x)
  | MRestart => (true, if flag (cn x) restart then x |> emit XGrace |> emit XReboot else x)
  | MElevation => (true, handle_elevation_request e x)
  | MAudioFormat =>
      (true, if negb (flag (cn x) disable_audio) then x |> put audio_sender true |> emit XAudioThread else x)
  | MSwitchSides ok => if ok then (false, x |> emit XRunMe |> on_close false) else (true, x)
  | MChangeResolution d w h => (true, change_resolution e d w h x)
  | MAutoAdjustFps fps => (true, emit (XQos "auto_adjust_fps" fps) x)
  | MClientRecord status => (true, emit (XQos "record" (Z.b2z status)) x)
  | MSelectedSid sid => on_selected_sid e sid x
  | MAnnotate op => (true, on_annotate e op x)
  | MQuery d => (true, emit_if (display_changed e d (video_source (cn x))) (SDisplayChanged d) x)
  | MCloseReason | MOther => (true, x)
  end.

Definition on_authorized_message (e : senv) (m : message) (x : ctx) : bool * ctx :=
  match m with
  | MsgMouse left_up => (true, on_mouse e left_up x)
  | MsgPointer => (true, on_pointer e x)
  | MsgKey k => (true, on_key e k x)
  | MsgClipboard => (true, emit_if (flag (cn x) clipboard) XClipboard x)
  | MsgCliprdr files convertible =>
      (true, if files then emit (XAudit "RemoteReceive") x else emit_if convertible CClipboardFile x)
  | MsgFileAction fa => (true, on_file_action e fa x)
  | MsgFileResponse fr => (true, on_file_response fr x)
  | MsgMisc m => on_misc e m x
  | MsgAudioFrame => (true, emit_if (negb (flag (cn x) disable_audio) && flag (cn x) audio_sender) XAudioFrame x)
  | MsgVoiceCall is_connect ts =>
      (true, if is_connect then
               x |> upd (set_voice (Some (if ts =? 0 then timestamp e else ts))) |> emit CVoiceCallIncoming
             else close_voice_call x)
  | MsgVoiceResponse => (true, x)
  | MsgScreenshot d =>
      (true, match tx (inner (cn x)) with
             | Some _ => x |> emit (XScreenshot d) |> refresh_video_display (Some d)
             | None => x
             end)
  | MsgTerminal =>
      (true, if flag (cn x) terminal_user_token then
               let x := emit XTerminal x in
               match terminal_answer e with Some _ => emit STerminalResponse x | None => x end
             else x)
  | MsgTestDelay _ | MsgOther => (true, x)
  end.

(** The login messages are those of [Login.v].  The peer may say that it closes
    before it is authorised. *)
Definition on_message (e : senv) (m : message) (x : ctx) : bool * ctx :=
  match m with
  | MsgMisc MCloseReason => (false, x |> on_close true |> emit XRemoveSession)
  | MsgTestDelay from_client =>
      (true, if from_client then emit STestDelay x
             else if flag (cn x) last_test_delay then x |> put last_test_delay false |> emit (XQos "network_delay" 0)
             else x)
  | _ => if flag (cn x) authorized then
           (if flag (cn x) port_forward_socket then (true, x) else on_authorized_message e m x)
         else (true, x)
  end.

(** *** The decision of [Login.v] takes effect

    What [send_logon_response_and_keep_alive] does once it lets the peer in. *)
Definition conn_type (s : sess) : AuthConnType :=
  match file_transfer s with
  | Some _ => TFileTransfer
  | None => if flag s port_forward_socket then TPortForward
            else if flag s view_camera then TViewCamera
            else if flag s terminal then TTerminal
            else TRemote
  end.
Definition handle_windows_specific_session (e : senv) : bool :=
  match current_sid e with
  | Some sid => installed e && share_rdp e && (non_port_forward_conns e =? 1) && bool_decide (1 < length (sids e))%nat
                && existsb (Z.eqb sid) (sids e) && negb (before_1_2_4 (from e))
  | None => false
  end.
Definition init_terminal_service (x : ctx) : ctx :=
  if flag (cn x) terminal_user_token then x |> emit XTerminalService |> put terminal_generic_service true else x.
Definition after_login_response (e : senv) (wait sub_service : bool) (x : ctx) : ctx :=
  match file_transfer (cn x) with
  | Some (dir, hidden) =>
      let dir := if negb (is_empty dir) && dir_exists e dir then dir else EmptyString in
      if negb wait then read_dir dir hidden x else upd (set_delayed (Some (dir, hidden))) x
  | None =>
      if flag (cn x) terminal then x |> put keyboard false |> init_terminal_service
      else if flag (cn x) view_camera then
        (if negb wait then try_sub_camera_displays e x else x) |> put keyboard false |> emit (SPermission PKeyboard false)
      else if sub_service && negb wait then try_sub_monitor_services e x
      else x
  end.
Definition let_in (e : senv) (forwarded : bool) (options_in_login : option OptionMessage) (x : ctx) : ctx :=
  if flag (cn x) authorized then x
  else
    let x := x |> put port_forward_socket (flag (cn x) port_forward_socket || forwarded) |> put authorized true in
    let x := x |> upd (λ s, set_authed (Some (conn_type s)) s) |> emit (XAudit "peer") in
    if flag (cn x) port_forward_socket then emit (SLoginResponse true) x
    else
      let wait := negb (flag (cn x) terminal) && handle_windows_specific_session e in
      let plain := match file_transfer (cn x) with
                   | Some _ => false
                   | None => negb (flag (cn x) terminal) && negb (flag (cn x) view_camera)
                   end in
      let ok := if plain then is_ok (displays e) else true in
      let x := emit (SLoginResponse ok) x in
      let x := match options_in_login with Some o => update_options e o x | None => x end in
      x |> after_login_response e wait (plain && ok) |> send_cr_sched_state e false (flag (cn x) sched_window_session).

(** *** Data of the connection manager *)
Definition switch_keyboard (enabled : bool) (x : ctx) : ctx :=
  let x := x |> put keyboard enabled |> emit (SPermission PKeyboard enabled) in
  x |> subscribe_to NAME_CLIPBOARD (can_sub_clipboard_service (cn x))
    |> subscribe_to NAME_CURSOR (enabled || flag (cn x) show_remote_cursor).
Definition switch_clipboard (enabled : bool) (x : ctx) : ctx :=
  let x := x |> put clipboard enabled |> emit (SPermission PClipboard enabled) in
  subscribe_to NAME_CLIPBOARD (can_sub_clipboard_service (cn x)) x.
Definition switch_audio (enabled : bool) (x : ctx) : ctx :=
  let x := x |> put audio enabled |> emit (SPermission PAudio enabled) in
  if flag (cn x) authorized then sub_audio x else x.
Definition switch_permission (nm : string) (enabled : bool) (x : ctx) : ctx :=
  if String.eqb nm "keyboard" then switch_keyboard enabled x
  else if String.eqb nm "clipboard" then switch_clipboard enabled x
  else if String.eqb nm "audio" then switch_audio enabled x
  else if String.eqb nm "file" then x |> put file enabled |> emit (SPermission PFile enabled)
  else if String.eqb nm "restart" then x |> put restart enabled |> emit (SPermission PRestart enabled)
  else if String.eqb nm "recording" then x |> put recording enabled |> emit (SPermission PRecording enabled)
  else if String.eqb nm "block_input" then x |> put block_input enabled |> emit (SPermission PBlockInput enabled)
  else x.

Definition own (conn : Z) (f : ctx -> ctx) (x : ctx) : bool * ctx :=
  (true, if conn =? id (inner (cn x)) then f x else x).
Definition on_cm (e : senv) (d : cm_data) (x : ctx) : bool * ctx :=
  match d with
  | CmClose =>
      (false, x |> put chat_unanswered false |> put file_transferred false
                |> send_close_reason_no_retry EmptyString |> on_close true)
  | CmErr expected => if negb expected then (false, on_close false x) else (true, x)
  | CmChat text => (true, x |> emit (SChat text) |> put chat_unanswered false)
  | CmSchedResp accepted open_until => (true, emit (SSchedAnswer accepted open_until) x)
  | CmSwitchPermission nm enabled => (true, switch_permission nm enabled x)
  | CmRaw => (true, emit SRaw x)
  | CmClipboardFile files =>
      (true, if negb (is_remote (cn x)) then x
             else if files then emit (XAudit "RemoteSend") x else emit SClipboardFile x)
  | CmPrivacyModeState s =>
      (true, emit (SPrivacy match s with
                            | OffSucceeded => PrvOffSucceeded
                            | OffByPeer => PrvOffByPeer
                            | OffUnknown => PrvOffUnknown
                            end) x)
  | CmStartPortable => (true, emit XStartPortable x)
  | CmSwitchSidesBack => (true, emit SSwitchBack x)
  | CmVoiceCallResponse accepted => (true, handle_voice_call accepted x)
  | CmCloseVoiceCall => (true, x |> close_voice_call |> emit (SVoiceRequest false))
  | CmReadJobInit i conn dir => own conn (handle_read_job_init_result i dir) x
  | CmFileBlock i n d c conn => own conn (handle_file_block_from_cm i n d c) x
  | CmFileReadDone i n conn => own conn (handle_file_read_done i n) x
  | CmFileReadError i n err conn => own conn (handle_file_read_error i n err) x
  | CmFileDigest i n m sz r conn => own conn (handle_file_digest_from_cm i n m sz r) x
  | CmAllFiles i p conn dir => own conn (handle_all_files_result i p dir) x
  | CmOther => (true, x)
  end.

(** *** Timers and queues *)
Definition portable_check (e : senv) (x : ctx) : ctx :=
  let p := port (cn x) in
  if is_installed p || negb (is_remote (cn x)) || negb (flag (cn x) keyboard) then x
  else
    let running := portable_running e in
    let x := emit (CShowElevation (negb running)) x in
    if flag (cn x) authorized then
      let x := if negb (bool_decide (Some running = last_running p)) then emit (SPortableRunning running) x else x in
      let x := if negb (Bool.eqb (last_uac p) (uac_running e))
               then emit_if (negb (uac_running e) || negb running) (SUac (uac_running e)) x else x in
      let x := if negb (Bool.eqb (last_elevated p) (foreground_elevated e))
               then emit_if (negb (foreground_elevated e) || negb running) (SElevatedWindow (foreground_elevated e)) x
               else x in
      upd (set_portable (mkPortable (is_installed p) (Some running) (uac_running e) (foreground_elevated e))) x
    else x.
Definition on_second (e : senv) (x : ctx) : bool * ctx :=
  let x := portable_check e x in
  match auto_disconnect_timer (cn x) with
  | Some (instant, minute) =>
      if (now e - instant) / 1000 >? minute * 60
      then (false, x |> send_close_reason_no_retry "Connection failed due to inactivity" |> on_close true)
      else let '(l, c) := FileLog.on_timer (now e) (file_remove_log_control (cn x)) in
           (true, foldl (λ x l, emit (CRemoved l) x) (upd (set_remove_log c) x) l)
  | None => let '(l, c) := FileLog.on_timer (now e) (file_remove_log_control (cn x)) in
            (true, foldl (λ x l, emit (CRemoved l) x) (upd (set_remove_log c) x) l)
  end.
Definition on_test_delay (e : senv) (quiet : Z) (x : ctx) : bool * ctx :=
  if quiet >=? 30000 then (false, on_close true x)
  else
    let s := cn x in
    let x := if negb (flag s last_test_delay) && negb (flag s port_forward_socket && flag s authorized)
             then x |> put last_test_delay true |> emit STestDelay else x in
    (true, emit_if ((is_authed_remote_conn (cn x) || flag (cn x) view_camera) && flag (cn x) last_test_delay)
             (XQos "delay_response_elapsed" 0) x).
Definition on_file_timer (e : senv) (x : ctx) : bool * ctx :=
  if negb (jobs_empty (read_jobs (cn x))) then
    let x := emit (CLog "transfer") x in
    let '(js, r) := handle_jobs (read_jobs (cn x)) in
    let x := x |> upd (set_jobs js) |> emit SFileData in
    match r with
    | Ok log => (true, emit_if log (CLog "transfer") x)
    | Err _ => (false, on_close false x)
    end
  else (true, x).

(** What the services put into the queues of the connection. *)
Inductive queued := QAudioFrame | QStopService | QPeerInfo | QCursorPosition | QMultiClipboards (converted : bool) | QOther.
Definition handle_cursor_switch_display (e : senv) (x : ctx) : ctx :=
  if flag (cn x) multi_ui_session then x
  else match display_at e with
       | Some d => emit_if (negb (display_idx (cn x) =? d)) (SFollowDisplay d) x
       | None => x
       end.
Definition deliver (e : senv) (latency : Z) (sent : bool) (x : ctx) : bool * ctx :=
  if sent then (true, emit (SQueued latency) x) else (false, on_close false x).
Definition on_queue (e : senv) (q : queued) (latency : Z) (sent : bool) (x : ctx) : bool * ctx :=
  match q with
  | QAudioFrame => if latency >? 1000 then (true, x) else deliver e latency sent x
  | QStopService => (false, x |> send_close_reason_no_retry EmptyString |> on_close false)
  | QPeerInfo => deliver e latency sent (refresh_video_display None x)
  | QCursorPosition =>
      deliver e latency sent (if flag (cn x) follow_remote_cursor then handle_cursor_switch_display e x else x)
  | QMultiClipboards _ | QOther => deliver e latency sent x
  end.
Definition on_video (e : senv) (frame sent : bool) (x : ctx) : bool * ctx :=
  deliver e 0 sent (emit_if (negb (flag (cn x) video_ack_required) && frame) (XFetched true) x).

Definition send_printer_request (e : senv) (data : Z) (x : ctx) : ctx :=
  let p := "RustDesk://FsJob//Printer/" +:+ to_string (timestamp e) in
  x |> emit (SPrinterJob p)
    |> upd (λ s, set_printer (retain (λ tpd, (now e - tpd.1.1) / 1000 <? 60) (printer_data s) ++ [(now e, p, data)]) s).

(** *** The loop of [start]

    What a login request leaves in the connection: the kind of session that it
    names and that is permitted; for a terminal also what became of the user's
    token, [None] if it is as before.  The target of a forwarded port is
    connected when the peer is let in. *)
Inductive login_kind :=
  | KNone | KFileTransfer (dir : string) (hidden : bool) | KViewCamera | KTerminal (token : option bool).
Inductive input :=
  | ILoginRequest (k : login_kind) (ack : bool)
  | ILetIn (by_cm forwarded : bool) (o : option OptionMessage)    (** the decision of [Login.v] is to let the peer in *)
  | ICm (d : cm_data)
  | IMsg (m : message)
  | IStreamEnd                                     (** an error of the stream, or its end *)
  | IFileTimer
  | IHbbs (conns : list Z)
  | IVideo (frame sent : bool)
  | IQueue (q : queued) (latency : Z) (sent : bool)
  | IPrinterData (data : Z)
  | ISecond
  | ITestDelay (quiet : Z)
  | IServer (v : option (server (S := S))).        (** other connections and services act on the server *)

Definition note_kind (k : login_kind) (x : ctx) : ctx :=
  if flag (cn x) authorized then x
  else match k with
       | KNone => x
       | KFileTransfer dir hidden => upd (set_file_transfer (Some (dir, hidden))) x
       | KViewCamera => put view_camera true x
       | KTerminal None => put terminal true x
       | KTerminal (Some b) => x |> put terminal true |> put terminal_user_token b
       end.
(** A forwarded port is served outside this loop. *)
Definition after_message (r : bool * ctx) : bool * ctx :=
  let '(keep, x) := r in
  if flag (cn x) port_forward_socket && flag (cn x) authorized && negb (flag (cn x) last_test_delay)
  then (false, x) else (keep, x).
Definition react (e : senv) (i : input) (x : ctx) : bool * ctx :=
  match i with
  | ILoginRequest k ack => after_message (true, x |> put video_ack_required ack |> note_kind k)
  | ILetIn by_cm forwarded o =>
      let x := let_in e forwarded o x in
      if by_cm then (negb (flag (cn x) port_forward_socket), x) else after_message (true, x)
  | ICm d => on_cm e d x
  | IMsg m => after_message (on_message e m x)
  | IStreamEnd => (false, on_close true x)
  | IFileTimer => on_file_timer e x
  | IHbbs conns =>
      if existsb (Z.eqb (id (inner (cn x)))) conns
      then (false, x |> send_close_reason_no_retry "Closed manually by web console" |> on_close true) else (true, x)
  | IVideo frame sent => on_video e frame sent x
  | IQueue q latency sent => on_queue e q latency sent x
  | IPrinterData data =>
      (true, if remote_printing e then send_printer_request e data x else emit (SMessageBox "remote-printing-disallowed-text-tip") x)
  | ISecond => on_second e x
  | ITestDelay quiet => on_test_delay e quiet x
  | IServer v => (true, upd (set_srv v) x)
  end.

(** After the loop: the forwarded port, if any, is served to its end
    ([try_port_forward_loop] ends with an error only), then everything is given
    back and [Drop] releases the keys held down. *)
Definition finish (e : senv) (x : ctx) : ctx :=
  let i := id (inner (cn x)) in
  let x := if bool_decide (privacy_conn e = Some i) then (turn_off_privacy_to_msg e i x).2 else x in
  let x := x |> emit (XFetched false) |> emit_if (flag (cn x) authorized) XRotatePassword in
  let x := if flag (cn x) port_forward_socket
           then x |> put port_forward_socket false |> on_close false |> emit XRemoveSession else x in
  let x := x |> emit (XAudit "close") |> on_server (remove_connection (inner (cn x))) |> on_close true in
  foldl (λ x k, emit (XKeyRelease k) x) x (elements (pressed_modifiers (cn x)))
  |> upd (set_modifiers ∅).

(** The connection with what it takes in, until it ends or the inputs do;
    [true]: it goes on. *)
Fixpoint run (l : list (senv * input)) (x : ctx) : bool * ctx :=
  match l with
  | [] => (true, x)
  | (e, i) :: l => let '(keep, x) := react e i x in if keep then run l x else (false, x)
  end.
Definition session (l : list (senv * input)) (e : senv) (x : ctx) : ctx := finish e (run l x).2.

(** [Connection::start]: the permissions are those of the options, what is
    refused is said to the peer. *)
Definition start (i : ConnInner) (permission : Permission -> bool) (disp t : Z) (inst : bool)
    (v : option (server (S := S))) : ctx :=
  let fl f := match f with
              | keyboard => permission PKeyboard | clipboard => permission PClipboard | audio => permission PAudio
              | file => permission PFile | restart => permission PRestart | recording => permission PRecording
              | block_input => permission PBlockInput
              | _ => false
              end in
  let x := mkCtx (mkSess i fl None None disp None ∅ no_jobs [] ∅ None None (FileLog.new t (id i))
                    (mkPortable inst None false false) v) [] in
  foldl (λ x p, emit_if (negb (permission p)) (SPermission p false) x) x
    [PKeyboard; PClipboard; PAudio; PFile; PRestart; PRecording; PBlockInput].
End session.
End Session.
