(* ===== verification/SessionSpec.v ===== *)
(** * What an open connection may do ([src/src/server/connection.rs])

    Every handler of [Session.v] is a sequence of elementary changes ([prim]),
    each made by the peer, by the customer (the connection manager) or by the
    program itself.  What each of the three may do ([allowed], [may_put]) is
    written down once; the invariants of a connection are proved on the
    elementary changes and hold for every run. *)

From stdpp Require Import functions.
From S2P Require Import Prelude RustStr Login Service Server FileLog Session.
Import Service Server Session.
#[local] Open Scope Z_scope.

Module SessionSpec.
Import Login(Permission, PKeyboard, PClipboard, PFile, PAudio, PRestart, PRecording, PBlockInput).
Import Login(AuthConnType, TRemote, TFileTransfer, TPortForward, TViewCamera, TTerminal).
#[local] Existing Instance Login.AuthConnType_eq_dec.

Inductive actor := Peer | Customer | System.
#[export] Instance actor_eq_dec : EqDecision actor.
Proof. solve_decision. Defined.

(** File commands that change the customer's files, or hand them over, from
    the side of the connection that may be one-way. *)
Definition outgoing (f : fs_command) : bool :=
  match f with
  | FsReadFile _ _ _ _ | FsRemoveDir _ _ _ | FsRemoveFile _ _ _ | FsCreateDir _ _ | FsRename _ _ _ | FsCopy _ _ _ _ => true
  | _ => false
  end.
(** The answers of a receiving peer, forwarded to the manager in any session. *)
Definition answer (f : fs_command) : bool :=
  match f with FsWriteBlock _ _ _ _ | FsWriteDone _ _ | FsCheckDigest _ _ _ _ _ | FsWriteError _ _ _ => true | _ => false end.

(** What a peer that was let in can bring about without any permission of the
    customer: replies to it, chat and calls that the customer answers, its own
    settings of quality and display, the privacy screen, virtual displays, its
    drawings, a screenshot of what it sees, the end of its session and of a granted
    window, and records of what happened. *)
Definition unguarded (ev : event) : bool :=
  match ev with
  | STestDelay | SFileError _ _ _ | SDir _ | SSchedAck | SSchedState _ _ | SPrivacy _ | SMessageBox _
  | SDisplayChanged _ | SElevation _ | SBlockInputFailed _ | STerminalResponse
  | CLog _ | CChat _ | CChatPanel _ | CSchedReq | CClipboardFile | CClipboardFileEnabled _ | CVoiceCallIncoming
  | CCloseVoiceCall | XClickTime | XMoveTime | XSchedClear | XPrivacyOn _ | XPrivacyOff _ | XVirtualDisplay _ _
  | XRunMe | XWhiteboard _ | XQos _ _ | XRefresh | XScreenshot _ | XAudit _ | XVoiceDevice _ | XUserSession _
  | XTerminalPersistent _ | XFetched _ | XRemoveSession => true
  | _ => false
  end.

(** The fields that only some may set. *)
Definition may_put (a : actor) (f : field) : bool :=
  match f with
  | closed | keyboard | clipboard | audio | disable_keyboard | disable_clipboard | disable_audio
  | show_remote_cursor | services_subed | sched_window_session | from_switch | view_camera | terminal
  | authorized => false
  | port_forward_socket | terminal_user_token | terminal_generic_service
  | video_ack_required => bool_decide (a = System)
  | file | restart | recording | block_input => bool_decide (a = Customer)
  | _ => true
  end.

Create HintDb sess discriminated.

Section spec.
Context {msgs : Messages} {S : Type} {svc : ServiceI S} {rj : ReadJobs}.
Context (one_way_clipboard one_way_file : bool) (new_video : VideoSource -> Z -> S).
Context (new_video_ok : forall source d, svc_good (new_video source d)
  /\ svc_name (new_video source d) = get_service_name source d).

Abbreviation ctx := (ctx (S := S)).
Abbreviation sess := (sess (S := S)).

Definition is_files (s : sess) : bool := match file_transfer s with Some _ => true | None => false end.

(** What may be done outside, with the fields as they are then.  Closing and
    locking are not among it: they belong to [on_close]. *)
Definition allowed (a : actor) (s : sess) (ev : event) : bool :=
  match ev with
  | CClose | XLock | XSchedEnd => false
  | IMouse simulate _ =>
      bool_decide (a = Peer) && negb (is_authed_view_camera_conn s) && (negb simulate || peer_keyboard_enabled s)
  | IPointer | IKey _ _ => bool_decide (a = Peer) && negb (is_authed_view_camera_conn s) && peer_keyboard_enabled s
  | IBlock _ => flag s keyboard && flag s block_input
  | XReboot | XGrace => bool_decide (a = Peer) && flag s restart
  | XResolution _ _ _ | XRememberResolution _ _ _ => flag s keyboard
  | XStartPortable => bool_decide (a = Customer) || flag s keyboard
  | XClipboard => bool_decide (a = Peer) && flag s clipboard
  | CFs f => answer f || (is_files s && negb (one_way_file && outgoing f))
  | XTerminal => bool_decide (a = Peer) && flag s terminal_user_token
  | XAudioThread | XAudioFrame => negb (flag s disable_audio)
  | SBlock i _ _ _ | SDigest i _ _ _ _ => bool_decide (a = Customer) && bool_decide (i ∈ cm_read_job_ids s)
  | SPermission _ _ => negb (bool_decide (a = Peer))
  | XRotatePassword | XKeyRelease _ => false
  | _ => unguarded ev || negb (bool_decide (a = Peer))
  end.

(** Changes that none of the invariants speak about. *)
Record same (s t : sess) : Prop := mkSame {
  same_inner : inner t = inner s; same_flag : flag t = flag s; same_authed : authed_as t = authed_as s;
  same_files : file_transfer t = file_transfer s; same_cm : cm_read_job_ids t = cm_read_job_ids s;
  same_srv : srv t = srv s;
}.
(** The services whose subscriptions follow the permissions. *)
Definition tracked (k : string) : Prop := is_video_service_name k = false /\ k <> NAME_WINDOW_FOCUS.
(** Other connections and the services leave this connection's subscriptions
    alone. *)
Definition world_step (i : Z) (v v' : option (server (S := S))) : Prop :=
  match v, v' with
  | Some v, Some v' => calm tracked i v v'
  | _, None => True
  | None, Some _ => False
  end.

Inductive prim (A : Z -> Prop) (a : actor) : ctx -> ctx -> Prop :=
  | prim_emit ev x : allowed a (cn x) ev = true -> prim A a x (emit ev x)
  | prim_put f b x : may_put a f = true -> prim A a x (put f b x)
  | prim_upd g x : same (cn x) (g (cn x)) -> prim A a x (upd g x)
  | prim_server v v' x : srv (cn x) = Some v -> calm tracked (id (inner (cn x))) v v' ->
      prim A a x (upd (set_srv (Some v')) x)
  | prim_drop i x : prim A a x (drop_job i x)
  | prim_add i x : A i -> a = Peer -> prim A a x (upd (λ s, set_cm_jobs ({[i]} ∪ cm_read_job_ids s) s) x)
  | prim_close lock x : prim A a x (on_close lock x)
  | prim_show b x : a <> Customer -> prim A a x (option_show_cursor b x)
  | prim_audio b x : a <> Customer -> flag (cn x) authorized = true -> prim A a x (option_disable_audio b x)
  | prim_clip b x : a <> Customer -> prim A a x (option_disable_clipboard one_way_clipboard b x)
  | prim_kbd b x : a <> Customer -> prim A a x (option_disable_keyboard one_way_clipboard b x)
  | prim_sw_kbd b x : a = Customer -> prim A a x (switch_keyboard one_way_clipboard b x)
  | prim_sw_clip b x : a = Customer -> prim A a x (switch_clipboard one_way_clipboard b x)
  | prim_sw_audio b x : a = Customer -> prim A a x (switch_audio b x)
  | prim_voice b x : is_authed_view_camera_conn (cn x) = true -> prim A a x (subscribe_to NAME_AUDIO b x)
  | prim_monitor e x : flag (cn x) authorized = true -> prim A a x (try_sub_monitor_services one_way_clipboard new_video e x)
  | prim_no_kbd x : a = System -> flag (cn x) terminal || flag (cn x) view_camera = true ->
      prim A a x (put keyboard false x)
  | prim_mode f x : a = System -> f = terminal \/ f = view_camera -> flag (cn x) authorized = false ->
      prim A a x (put f true x)
  | prim_kind v x : a = System -> flag (cn x) authorized = false -> prim A a x (upd (set_file_transfer v) x)
  | prim_auth x : a = System -> prim A a x (put authorized true x)
  | prim_authed x : a = System -> prim A a x (upd (λ s, set_authed (Some (conn_type s)) s) x)
  | prim_world v x : a = System -> world_step (id (inner (cn x))) (srv (cn x)) v -> prim A a x (upd (set_srv v) x).

Abbreviation steps A a := (rtc (prim A a)).

Lemma steps_r {A a} x y z : steps A a x y -> prim A a y z -> steps A a x z.
Proof. apply rtc_r. Qed.
Lemma steps_emit_if A a x y b ev : steps A a x y -> (b = true -> allowed a (cn y) ev = true) ->
  steps A a x (emit_if b ev y).
Proof. intros H Hb. destruct b; [|done]. eapply steps_r; [done|]. by apply prim_emit, Hb. Qed.

(** The changes after [x] in a run: what was added to the events, and a relation
    between the states that composes. *)
Definition adds (P : event -> Prop) (x y : ctx) : Prop := exists evs, (did y = did x ++ evs) /\ Forall P evs.
Lemma adds_nil P x y : did y = did x -> adds P x y.
Proof. intros E. exists []. by rewrite E, app_nil_r. Qed.
Lemma adds_one (P : event -> Prop) x y ev : did y = did x ++ [ev] -> P ev -> adds P x y.
Proof. intros E H. exists [ev]. split; [done|]. by constructor. Qed.
Lemma adds_trans P x y z : adds P x y -> adds P y z -> adds P x z.
Proof.
  intros (l1 & E1 & F1) (l2 & E2 & F2). exists (l1 ++ l2). rewrite E2, E1, app_assoc. split; [done|].
  apply Forall_app. done.
Qed.

Lemma server_frame (g : server (S := S) -> server) x :
  did (on_server g x) = did x /\ flag (cn (on_server g x)) = flag (cn x)
  /\ authed_as (cn (on_server g x)) = authed_as (cn x) /\ file_transfer (cn (on_server g x)) = file_transfer (cn x)
  /\ cm_read_job_ids (cn (on_server g x)) = cm_read_job_ids (cn x) /\ inner (cn (on_server g x)) = inner (cn x).
Proof. unfold on_server, upd. simpl. by destruct (srv (cn x)). Qed.

(** The events of closing. *)
Lemma close_adds (P : event -> Prop) lock (x : ctx) : P CClose -> P (XVoiceDevice false) ->
  (flag (cn x) sched_window_session = true -> P XSchedEnd) ->
  (lock = true -> flag (cn x) lock_after_session_end = true -> flag (cn x) keyboard = true -> P XLock) ->
  adds P x (on_close lock x).
Proof.
  intros Hc Hv Hs Hl. unfold on_close. destruct (flag (cn x) closed); [by apply adds_nil|].
  eexists ((if flag (cn x) sched_window_session then [XSchedEnd] else []) ++ [XVoiceDevice false]
    ++ (if lock && flag (cn x) lock_after_session_end && flag (cn x) keyboard then [XLock] else []) ++ [CClose]).
  unfold emit_if, emit, put, upd. split.
  - destruct (flag (cn x) sched_window_session), (lock && flag (cn x) lock_after_session_end && flag (cn x) keyboard);
      simpl; by rewrite <- ?app_assoc.
  - rewrite !Forall_app, !Forall_singleton. split; [|split; [done|split; [|done]]].
    + destruct (flag (cn x) sched_window_session); repeat constructor; auto.
    + destruct lock, (flag (cn x) lock_after_session_end), (flag (cn x) keyboard); repeat constructor; auto.
Qed.
Lemma close_state lock (x : ctx) : let y := on_close lock x in
  inner (cn y) = inner (cn x) /\ authed_as (cn y) = authed_as (cn x) /\ file_transfer (cn y) = file_transfer (cn x)
  /\ cm_read_job_ids (cn y) = cm_read_job_ids (cn x) /\ srv (cn y) = srv (cn x)
  /\ pressed_modifiers (cn y) = pressed_modifiers (cn x)
  /\ (forall f, f <> closed -> f <> port_forward_socket -> flag (cn y) f = flag (cn x) f)
  /\ flag (cn y) closed = true
  /\ (flag (cn x) closed = false -> flag (cn y) port_forward_socket = false).
Proof.
  cbv zeta. unfold on_close. destruct (flag (cn x) closed) eqn:E; [by rewrite E|].
  unfold emit_if. repeat case_match; simpl; split_and!; try done;
    intros f H1 H2; unfold insert, fn_insert; by rewrite !decide_False by congruence.
Qed.

(** What the subscribing changes do: no event but the word to the peer, and one
    field. *)
Definition sub_change (x y : ctx) (f : field) (b : bool) (evs : list event) : Prop :=
  did y = did x ++ evs /\ flag (cn y) = <[f := b]> (flag (cn x)) /\ authed_as (cn y) = authed_as (cn x)
  /\ file_transfer (cn y) = file_transfer (cn x) /\ cm_read_job_ids (cn y) = cm_read_job_ids (cn x)
  /\ inner (cn y) = inner (cn x).
Lemma sub_changes b (x : ctx) :
  sub_change x (option_show_cursor b x) show_remote_cursor b []
  /\ sub_change x (option_disable_audio b x) disable_audio b []
  /\ sub_change x (option_disable_clipboard one_way_clipboard b x) disable_clipboard b []
  /\ sub_change x (option_disable_keyboard one_way_clipboard b x) disable_keyboard b []
  /\ sub_change x (switch_keyboard one_way_clipboard b x) keyboard b [SPermission PKeyboard b]
  /\ sub_change x (switch_clipboard one_way_clipboard b x) clipboard b [SPermission PClipboard b]
  /\ sub_change x (switch_audio b x) audio b [SPermission PAudio b].
Proof.
  unfold sub_change, option_show_cursor, option_disable_audio, option_disable_clipboard, option_disable_keyboard,
    switch_keyboard, switch_clipboard, switch_audio, sub_audio, subscribe_to, on_server, emit, put, upd.
  split_and!; simpl; repeat case_match; simpl; by rewrite ?app_nil_r.
Qed.
Lemma monitor_frame e (x : ctx) : let y := try_sub_monitor_services one_way_clipboard new_video e x in
  did y = did x /\ authed_as (cn y) = authed_as (cn x) /\ file_transfer (cn y) = file_transfer (cn x)
  /\ cm_read_job_ids (cn y) = cm_read_job_ids (cn x) /\ inner (cn y) = inner (cn x)
  /\ forall f, f <> services_subed -> flag (cn y) f = flag (cn x) f.
Proof.
  cbv zeta. unfold try_sub_monitor_services. destruct (_ && _); [|done].
  cbv zeta. unfold on_server, put, upd. simpl. destruct (srv (cn x)); simpl; split_and!; try done;
    intros f H1; unfold insert, fn_insert; by rewrite !decide_False by congruence.
Qed.

(** The first part of [sub_changes], one by one. *)
Lemma sub_change_flag x y f b evs g : sub_change x y f b evs -> g <> f -> flag (cn y) g = flag (cn x) g.
Proof. intros (_ & -> & _) Hg. unfold insert, fn_insert. by rewrite decide_False by congruence. Qed.
Lemma put_flag f b (x : ctx) g : g <> f -> flag (cn (put f b x)) g = flag (cn x) g.
Proof. intros Hg. simpl. unfold insert, fn_insert. by rewrite decide_False by congruence. Qed.

(** Who is let in stays in. *)
Lemma auth_prim A a x y : prim A a x y -> flag (cn x) authorized = true -> flag (cn y) authorized = true.
Proof.
  intros H Hx. destruct H; try done; try (rewrite put_flag; [done|by intros <-]).
  - destruct H as [_ E _ _ _ _]. simpl. by rewrite E.
  - destruct (close_state lock x) as (_ & _ & _ & _ & _ & _ & E & _). by rewrite E.
  - destruct (sub_changes b x) as (E & _). by rewrite (sub_change_flag _ _ _ _ _ authorized E).
  - destruct (sub_changes b x) as (_ & E & _). by rewrite (sub_change_flag _ _ _ _ _ authorized E).
  - destruct (sub_changes b x) as (_ & _ & E & _). by rewrite (sub_change_flag _ _ _ _ _ authorized E).
  - destruct (sub_changes b x) as (_ & _ & _ & E & _). by rewrite (sub_change_flag _ _ _ _ _ authorized E).
  - destruct (sub_changes b x) as (_ & _ & _ & _ & E & _). by rewrite (sub_change_flag _ _ _ _ _ authorized E).
  - destruct (sub_changes b x) as (_ & _ & _ & _ & _ & E & _). by rewrite (sub_change_flag _ _ _ _ _ authorized E).
  - destruct (sub_changes b x) as (_ & _ & _ & _ & _ & _ & E). by rewrite (sub_change_flag _ _ _ _ _ authorized E).
  - unfold subscribe_to. destruct (server_frame (subscribe NAME_AUDIO (inner (cn x)) b) x) as (_ & -> & _). done.
  - destruct (monitor_frame e x) as (_ & _ & _ & _ & _ & E). by rewrite E.
  - rewrite put_flag; [done|]. by destruct H0 as [-> | ->].
Qed.
Lemma auth_mono A a x y : rtc (prim A a) x y -> flag (cn x) authorized = true -> flag (cn y) authorized = true.
Proof. induction 1; eauto using auth_prim. Qed.
Ltac same_upd := apply prim_upd; by split.
(** One elementary change, from the outside in. *)
Ltac prim_step :=
  lazymatch goal with
  | |- rtc _ ?x ?x => apply rtc_refl
  | H : rtc _ ?x ?y |- rtc _ ?x ?y => exact H
  | |- rtc _ _ (emit _ _) => eapply steps_r; [|apply prim_emit; try reflexivity]
  | |- rtc _ _ (emit_if _ _ _) => apply steps_emit_if; [|try (intros; reflexivity)]
  | |- rtc _ _ (put _ _ _) => eapply steps_r; [|apply prim_put; reflexivity]
  | |- rtc _ _ (upd _ _) => eapply steps_r; [|same_upd]
  | |- rtc _ _ (drop_job _ _) => eapply steps_r; [|apply prim_drop]
  | |- rtc _ _ (on_close _ _) => eapply steps_r; [|apply prim_close]
  | |- rtc _ _ (let '_ := _ in _) => idtac
  end.
Ltac prims := repeat prim_step.

Lemma tracked_video k : tracked k -> is_video_service_name k = false.
Proof. by intros []. Qed.
Lemma untracked_window : ~ tracked NAME_WINDOW_FOCUS.
Proof. by intros []. Qed.
Lemma untracked_video source d : ~ tracked (get_service_name source d).
Proof. intros [H _]. by rewrite service_name_video in H. Qed.
Lemma calm_missing i source (v : server (S := S)) d : calm tracked i v (add_missing new_video source v d).
Proof.
  unfold add_missing. destruct (negb _); [|apply calm_refl]. destruct (new_video_ok source d) as [Hg Hn].
  apply calm_add; [done|]. rewrite Hn. apply untracked_video.
Qed.
Lemma calm_new i (b : bool) source d (v : server (S := S)) : calm tracked i v (if b then add_service (new_video source d) v else v).
Proof.
  destruct b; [|apply calm_refl]. destruct (new_video_ok source d) as [Hg Hn].
  apply calm_add; [done|]. rewrite Hn. apply untracked_video.
Qed.
#[local] Hint Resolve tracked_video untracked_window untracked_video calm_refl calm_missing : sess.

Section steps.
Context (A : Z -> Prop) (a : actor).
Implicit Types x y : ctx.

Lemma st_server x y g : steps A a x y -> (forall v, calm tracked (id (inner (cn y))) v (g v)) ->
  steps A a x (on_server g y).
Proof.
  intros H Hg. eapply steps_r; [exact H|]. destruct (srv (cn y)) as [v|] eqn:E.
  - unfold on_server, upd. rewrite E. by apply (prim_server A a v).
  - apply prim_upd. rewrite E. by split.
Qed.
Lemma st_timer x y e : steps A a x y -> steps A a x (update_auto_disconnect_timer e y).
Proof. intros H. unfold update_auto_disconnect_timer. eapply steps_r; [exact H|]. apply prim_upd. by split. Qed.
Lemma st_fs x y f : steps A a x y -> allowed a (cn y) (CFs f) = true -> steps A a x (send_fs f y).
Proof. intros H Hf. unfold send_fs. by eapply steps_r; [|apply prim_emit]. Qed.
Lemma st_refresh x y d : steps A a x y -> steps A a x (refresh_video_display d y).
Proof.
  intros H. unfold refresh_video_display. apply st_server; [prims|]. intros v. apply calm_option.
Qed.
Lemma st_sched x y e b w : steps A a x y -> steps A a x (send_cr_sched_state e b w y).
Proof. intros H. unfold send_cr_sched_state. case_match; [done|]. prims. Qed.
Lemma st_camera x y e : steps A a x y -> steps A a x (try_sub_camera_displays new_video e y).
Proof.
  intros H. unfold try_sub_camera_displays. apply st_server; [exact H|]. intros v.
  eapply calm_trans; [|apply calm_camera; auto with sess].
  unfold try_add_primary_camera_service. destruct (negb (camera_exists e)); [apply calm_refl|]. apply calm_new.
Qed.
Lemma st_resolution x y e d w h : steps A a x y -> steps A a x (change_resolution e d w h y).
Proof.
  intros H. unfold change_resolution. destruct (flag (cn y) keyboard) eqn:E; [|done]. case_match; [|done].
  case_match; prims; simpl; by rewrite E.
Qed.
Lemma st_switch x y e d : steps A a x y -> steps A a x (switch_display_to new_video e d y).
Proof.
  intros H. unfold switch_display_to. prims. apply st_server; [exact H|]. intros v.
  eapply calm_trans; [|apply calm_subscribe; auto with sess].
  destruct (negb (multi_ui (from e))); [eapply calm_trans; [|apply calm_subscribe; auto with sess]|];
    (destruct (negb (_ =? primary e)); auto with sess).
Qed.
Lemma st_handle_switch x y e d w h : steps A a x y -> steps A a x (handle_switch_display new_video e d w h y).
Proof.
  intros H. unfold handle_switch_display. destruct (negb _); [|done]. prims.
  destruct (srv (cn y)); [|done]. case_match; [apply st_resolution|]; by apply st_switch.
Qed.

Lemma st_capture x y e add sub set : steps A a x y -> steps A a x (capture new_video e add sub set y).
Proof.
  intros H. unfold capture. destruct (srv (cn y)) as [v|] eqn:E; [|done]. prim_step.
  eapply steps_r; [exact H|]. apply (prim_server A a v _ y); [done|].
  eapply calm_trans; [apply (calm_foldl _ _ (add_missing new_video (video_source (cn y))) add); auto with sess|].
  eapply calm_trans; [apply (calm_foldl _ _ (add_missing new_video (video_source (cn y))) set); auto with sess|].
  match goal with |- calm _ _ ?w _ => generalize w end. clear. intros w.
  match goal with |- calm _ _ _ (if _ then subscribe _ _ _ ?u else _) => assert (Hu : calm tracked (id (inner (cn y))) w u) end.
  { repeat case_match; apply calm_capture; auto with sess. }
  destruct (flag (cn y) follow_remote_window); [|exact Hu]. eapply calm_trans; [exact Hu|].
  apply calm_subscribe; auto with sess.
Qed.

Lemma st_virtual x y e on d : steps A a x y -> steps A a x (toggle_virtual_display e on d y).
Proof. intros H. unfold toggle_virtual_display. repeat case_match; prims. Qed.
Lemma st_privacy_on x y e k : steps A a x y -> steps A a x (turn_on_privacy e k y).
Proof. intros H. unfold turn_on_privacy, turn_off_privacy_to_msg. repeat case_match; simpl; prims. Qed.
Lemma st_privacy x y e on k : steps A a x y -> steps A a x (toggle_privacy_mode e on k y).
Proof.
  intros H. unfold toggle_privacy_mode. destruct on; [by apply st_privacy_on|].
  unfold turn_off_privacy, turn_off_privacy_to_msg. case_match; prims.
Qed.
Lemma st_set x y t k : (forall b z, steps A a x z -> steps A a x (k b z)) -> steps A a x y -> steps A a x (when_set t k y).
Proof. intros Hk H. destruct t; simpl; auto. Qed.
Lemma st_block x y t : steps A a x y -> steps A a x (update_block_input t y).
Proof.
  intros H. unfold update_block_input. destruct (flag (cn y) keyboard && flag (cn y) block_input) eqn:E.
  - destruct t; simpl; try done; prims; exact E.
  - destruct t; simpl; try done; prims.
Qed.
Lemma st_quality x y o : steps A a x y -> steps A a x (update_quality o y).
Proof. intros H. unfold update_quality. prims. repeat case_match; prims. Qed.
Lemma st_services x y o : a <> Customer -> flag (cn x) authorized = true -> steps A a x y -> steps A a x (update_services one_way_clipboard o y).
Proof.
  intros Ha Hx H. unfold update_services.
  apply st_set; [intros; eapply steps_r; [eassumption|]; by apply prim_kbd|].
  apply st_set; [intros; eapply steps_r; [eassumption|]; by apply prim_clip|].
  apply st_set; [intros; unfold option_file_transfer; prims|].
  apply st_set; [intros; eapply steps_r; [eassumption|]; apply prim_audio; [done|by eapply auth_mono]|].
  apply st_set.
  { intros b z Hz. unfold option_follow_window, subscribe_to. apply st_server; [prims|].
    intros v. apply calm_subscribe. auto with sess. }
  apply st_set; [intros; prims|].
  apply st_set; [intros; eapply steps_r; [eassumption|]; by apply prim_show|].
  apply st_set; [intros; prims|]. exact H.
Qed.
Lemma st_my_cursor x y e t : steps A a x y -> steps A a x (update_show_my_cursor e t y).
Proof.
  apply st_set. intros b z Hz. cbv zeta. case_match; prims. by case_match.
Qed.
Lemma st_options x y e o : a <> Customer -> flag (cn x) authorized = true -> steps A a x y ->
  steps A a x (update_options one_way_clipboard e o y).
Proof.
  intros Ha Hx H. unfold update_options. apply st_my_cursor, st_set; [intros; prims|]. apply st_block.
  pose proof (st_services x _ o Ha Hx (st_quality x y o H)) as Hz.
  case_match; [|exact Hz]. apply st_set; [|exact Hz]. intros; by apply st_privacy.
Qed.
End steps.

(** The jobs that an input may add to those read by the manager. *)
Definition sends (i : input (S := S)) (n : Z) : Prop :=
  match i with IMsg (MsgFileAction (FaSend m _ false _ _)) => m = n | _ => False end.

Section peer.
Context (A : Z -> Prop).
Implicit Types x y : ctx.

Lemma st_read_job x y e i b : steps A Peer x y -> steps A Peer x (create_and_start_read_job e i b y).
Proof. intros H. unfold create_and_start_read_job, process_new_read_job. repeat case_match; prims. Qed.

Lemma st_file_send x y e i p printer n hidden : steps A Peer x y ->
  (printer = false -> A i /\ is_files (cn y) = true /\ one_way_file = false) ->
  steps A Peer x (file_send e i p printer n hidden y).
Proof.
  intros H HA. unfold file_send. destruct printer.
  - case_match; [|done]. prim_step. apply st_read_job. prims.
  - destruct (HA eq_refl) as (Hi & Hf & Ho). prim_step. case_match; [|by apply st_read_job].
    apply st_fs; [eapply steps_r; [exact H|]; by apply prim_add|].
    simpl. unfold is_files in *. simpl. by rewrite Hf, Ho.
Qed.

Lemma st_file_action x y e fa : steps A Peer x y ->
  (forall i p n h, fa = FaSend i p false n h -> A i) ->
  steps A Peer x (on_file_action one_way_file e fa y).
Proof.
  intros H HA. unfold on_file_action. case_match; [|done].
  assert (Hfiles : is_files (cn y) = true \/ is_printer_send fa = true).
  { unfold is_files. destruct (file_transfer (cn y)); [by left|by right]. }
  clear H0. destruct (delayed_read_dir (cn y)); [case_match; prims|].
  destruct (if one_way_file then changes fa else None) eqn:Eo; [prims|].
  assert (Hf : forall f, outgoing f = match changes fa with Some _ => outgoing f | None => false end ->
     is_printer_send fa = false -> allowed Peer (cn y) (CFs f) = true).
  { intros f Ef Ep. simpl. destruct Hfiles as [->|Hp]; [|congruence]. rewrite Ef.
    destruct one_way_file; [rewrite Eo|]; simpl; by rewrite ?orb_true_r. }
  destruct fa; cbn [do_file_action changes is_printer_send] in *.
  - apply st_fs; [done|]. by apply Hf.
  - apply st_fs; [done|]. by apply Hf.
  - repeat case_match; prims; apply st_fs; try done; by apply Hf.
  - apply st_file_send; [done|]. intros ->. split; [by eapply HA|].
    destruct Hfiles as [->|Hp]; [|done]. split; [done|]. by destruct one_way_file.
  - prims. apply st_fs; [done|]. by apply Hf.
  - prims. apply st_fs; [done|]. by apply Hf.
  - prims. apply st_fs; [done|]. by apply Hf.
  - prims. apply st_fs; [done|]. by apply Hf.
  - match goal with |- rtc _ _ (match remove_job _ (read_jobs (cn ?z)) with _ => _ end) => assert (Hz : steps A Peer x z) end.
    { apply st_fs; [eapply steps_r; [|apply prim_drop]; apply st_fs; [exact H|by apply Hf]|].
      exact (Hf (FsCancelRead _) eq_refl eq_refl). }
    cbv zeta. destruct (remove_job _ _); [prims|exact Hz].
  - repeat case_match; prims; apply st_fs; try done; by apply Hf.
  - prims. apply st_fs; [done|]. by apply Hf.
  - prims. apply st_fs; [done|]. by apply Hf.
  - done.
Qed.

Lemma st_annotate x y e op : steps A Peer x y -> steps A Peer x (on_annotate e op y).
Proof. intros H. unfold on_annotate. destruct op; repeat case_match; prims. Qed.
Lemma st_close_call a x y : steps A a x y -> steps A a x (close_voice_call y).
Proof.
  intros H. unfold close_voice_call. cbv zeta. case_match; [|prims].
  eapply steps_r; [|by apply prim_voice]. prims.
Qed.
Lemma st_monitor a x y e : flag (cn x) authorized = true -> steps A a x y -> steps A a x (try_sub_monitor_services one_way_clipboard new_video e y).
Proof. intros Hx H. eapply steps_r; [exact H|]. apply prim_monitor. by eapply auth_mono. Qed.
Lemma st_selected x y e sid : flag (cn x) authorized = true -> steps A Peer x y ->
  steps A Peer x (on_selected_sid one_way_clipboard new_video e sid y).2.
Proof.
  intros Hx H. unfold on_selected_sid. case_match; [|done]. case_match; [simpl; prims|]. cbn [snd].
  destruct (file_transfer (cn y)) eqn:E.
  - repeat case_match; try done. unfold read_dir. apply st_fs; [prims|]. simpl. unfold is_files. simpl. rewrite E.
    by rewrite andb_false_r.
  - case_match; [by apply st_camera|]. case_match; [by apply st_monitor|done].
Qed.
Lemma st_misc x y e m : flag (cn x) authorized = true -> steps A Peer x y ->
  steps A Peer x (on_misc one_way_clipboard new_video e m y).2.
Proof.
  intros Hx H. destruct m; cbn [on_misc snd].
  - done.
  - by apply st_handle_switch.
  - by apply st_capture.
  - by apply st_virtual.
  - by apply st_privacy.
  - prims.
  - case_match; [apply st_sched|]; prims.
  - apply st_timer. prims.
  - by apply st_options.
  - apply st_timer. case_match; [by apply st_refresh|done].
  - by apply st_timer, st_refresh.
  - prims.
  - case_match eqn:E; [|done]. prims; simpl; by rewrite ?E.
  - unfold handle_elevation_request. destruct (flag (cn y) keyboard) eqn:E; simpl; repeat case_match; simplify_eq;
      apply st_timer; prims; simpl; by rewrite E.
  - case_match eqn:E; [|done]. prims. simpl. exact E.
  - case_match; simpl; prims.
  - by apply st_resolution.
  - prims.
  - prims.
  - by apply st_selected.
  - by apply st_annotate.
  - prims.
  - done.
Qed.

Lemma st_input x y e m : steps A Peer x y ->
  steps A Peer x (match m with
                  | MsgMouse b => on_mouse e b y | MsgPointer => on_pointer e y
                  | MsgKey k => on_key e k y | _ => y end).
Proof.
  intros H.
  assert (Hon : is_authed_view_camera_conn (cn y) = false -> peer_keyboard_enabled (cn y) = true ->
    forall b, allowed Peer (cn y) (IMouse true b) = true /\ allowed Peer (cn y) IPointer = true
      /\ allowed Peer (cn y) (IKey b b) = true)
    by (intros Ec Ek b; cbn [allowed]; by rewrite Ec, Ek).
  destruct m; try done.
  - unfold on_mouse. destruct (is_authed_view_camera_conn (cn y)) eqn:Ec; [done|]. apply st_timer.
    destruct (peer_keyboard_enabled (cn y)) eqn:Ek; [|destruct (flag (cn y) show_my_cursor); [|done]].
    + prims; [by destruct left_up|]. by apply Hon.
    + prims. cbn [allowed]. by rewrite Ec.
  - unfold on_pointer. destruct (is_authed_view_camera_conn (cn y)) eqn:Ec; [done|]. apply st_timer.
    destruct (peer_keyboard_enabled (cn y)) eqn:Ek; [|done].
    prims. by apply (Hon eq_refl eq_refl true).
  - unfold on_key. destruct (is_authed_view_camera_conn (cn y)) eqn:Ec; [done|]. apply st_timer.
    destruct (peer_keyboard_enabled (cn y)) eqn:Ek; [|done].
    prims; [case_match; prims|]. destruct (Hon eq_refl eq_refl true) as (_ & _ & Hk).
    by destruct (k_modifier k), (k_enter k).
Qed.

(** Whatever an authorised peer sends is done in permitted changes. *)
Lemma st_message x y e m : flag (cn x) authorized = true -> steps A Peer x y ->
  (forall n, sends (IMsg m) n -> A n) ->
  steps A Peer x (on_authorized_message one_way_clipboard one_way_file new_video e m y).2.
Proof.
  intros Hx H HA. destruct m; cbn [on_authorized_message snd].
  - done.
  - by apply (st_input x y e (MsgMouse left_up)).
  - by apply (st_input x y e MsgPointer).
  - by apply (st_input x y e (MsgKey k)).
  - prims. by intros.
  - case_match; prims.
  - apply st_file_action; [done|]. intros i p n h ->. by apply HA.
  - destruct fr; cbn [on_file_response]; try done; by apply st_fs.
  - by apply st_misc.
  - prims. by intros [? _]%andb_true_iff.
  - case_match; [prims|by apply st_close_call].
  - done.
  - case_match; [|done]. apply st_refresh. prims.
  - case_match eqn:E; [|done]. case_match; prims; simpl; by rewrite E.
  - done.
Qed.
End peer.

Section react.
Context (A : Z -> Prop).
Implicit Types x y : ctx.
Abbreviation let_in := (let_in one_way_clipboard new_video).

Lemma st_cm x y e d : steps A Customer x y -> steps A Customer x (on_cm one_way_clipboard e d y).2.
Proof.
  intros H.
  assert (Hown : forall conn f, (steps A Customer x (f y)) -> steps A Customer x (own conn f y).2).
  { intros conn f Hf. unfold own. simpl. by case_match. }
  destruct d; cbn [on_cm snd]; try (prims; done); try apply Hown.
  - unfold send_close_reason_no_retry. prims.
  - case_match; simpl; prims.
  - unfold switch_permission.
    case_match; [eapply steps_r; [exact H|]; by apply prim_sw_kbd|].
    case_match; [eapply steps_r; [exact H|]; by apply prim_sw_clip|].
    case_match; [eapply steps_r; [exact H|]; by apply prim_sw_audio|].
    repeat case_match; prims.
  - repeat case_match; prims.
  - unfold handle_voice_call. case_match; [|done]. cbv zeta.
    match goal with |- rtc _ _ (if _ then _ else ?z) => assert (Hz : steps A Customer x z) end.
    { prims. case_match; prims. }
    destruct (is_authed_view_camera_conn _) eqn:E; [|exact Hz]. eapply steps_r; [exact Hz|]. by apply prim_voice.
  - prims. by apply st_close_call.
  - unfold handle_read_job_init_result. repeat case_match; prims.
  - unfold handle_file_block_from_cm, live_job. case_bool_decide as E; [|done]. simpl. prims. simpl.
    by rewrite bool_decide_eq_true.
  - unfold handle_file_read_done. case_match; prims.
  - unfold handle_file_read_error. case_match; prims.
  - unfold handle_file_digest_from_cm, live_job. case_bool_decide as E; [|done]. simpl. prims. simpl.
    by rewrite bool_decide_eq_true.
  - unfold handle_all_files_result. repeat case_match; prims.
Qed.

Lemma st_portable x y e : steps A System x y -> steps A System x (portable_check e y).
Proof. intros H. unfold portable_check. case_match; [done|]. cbv zeta. case_match; [|prims]. prims. repeat case_match; prims. Qed.
Lemma st_removed x y l : steps A System x y -> steps A System x (foldl (λ x l, emit (CRemoved l) x) y l).
Proof. revert y. induction l as [|r l IH]; intros y H; [done|]. simpl. apply IH. prims. Qed.
Lemma st_second x y e : steps A System x y -> steps A System x (on_second e y).2.
Proof.
  intros H. unfold on_second, send_close_reason_no_retry.
  pose proof (st_portable x y e H) as Hp. set (z := portable_check e y) in *.
  repeat case_match; cbn [snd]; prims; apply st_removed; prims.
Qed.
Lemma st_queue x y e q l b : steps A System x y -> steps A System x (on_queue e q l b y).2.
Proof.
  intros H.
  assert (Hd : forall z, steps A System x z -> steps A System x (deliver e l b z).2).
  { intros z Hz. unfold deliver. case_match; simpl; prims. }
  destruct q; cbn [on_queue]; try (by apply Hd).
  - case_match; [done|]. by apply Hd.
  - unfold send_close_reason_no_retry. simpl. prims.
  - apply Hd. by apply st_refresh.
  - apply Hd. unfold handle_cursor_switch_display. repeat case_match; prims.
Qed.

Lemma st_after x y e wait sub : flag (cn x) authorized = true -> steps A System x y ->
  steps A System x (after_login_response one_way_clipboard new_video e wait sub y).
Proof.
  intros Hx H. unfold after_login_response. destruct (file_transfer (cn y)) as [[dir hidden]|] eqn:Ef.
  - case_match; [|prims]. unfold read_dir. apply st_fs; [done|]. simpl. unfold is_files.
    by rewrite Ef, andb_false_r.
  - destruct (flag (cn y) terminal) eqn:Et.
    { unfold init_terminal_service. assert (Hz : steps A System x (put keyboard false y)).
      { eapply steps_r; [exact H|]. apply prim_no_kbd; [done|]. by rewrite Et. }
      case_match; [|exact Hz]. prims. }
    destruct (flag (cn y) view_camera) eqn:Ev.
    + prim_step. eapply steps_r; [|apply prim_no_kbd; [done|]].
      * case_match; [by apply st_camera|done].
      * case_match; simpl; [|by rewrite Et, Ev].
        unfold try_sub_camera_displays, on_server. simpl. case_match; simpl; by rewrite Et, Ev.
    + case_match; [by apply st_monitor|done].
Qed.
Lemma st_let_in x y e fw o : steps A System x y -> steps A System x (let_in e fw o y).
Proof.
  intros H. unfold Session.let_in. destruct (flag (cn y) authorized); [done|]. cbv zeta.
  set (y0 := put authorized true _).
  assert (H0 : steps A System x y0) by (eapply steps_r; [|by apply prim_auth]; prims).
  etrans; [exact H0|]. assert (Hy : flag (cn y0) authorized = true) by done. clearbody y0. clear H H0.
  match goal with |- context [emit (XAudit "peer") ?z] => assert (Hz : steps A System y0 (emit (XAudit "peer") z)) end.
  { prims. eapply steps_r; [|by apply prim_authed]. prims. }
  case_match; [prims|]. apply st_sched, st_after; [done|].
  case_match; [apply st_options; [done|done|]|]; prims.
Qed.

(** The environment of the connection: what happens to the server. *)
Definition input_ok (i : input (S := S)) (x : ctx) : Prop :=
  match i with IServer v => world_step (id (inner (cn x))) (srv (cn x)) v | _ => True end.
Definition step (x y : ctx) : Prop := exists a, prim A a x y.
Lemma lift a x y : steps A a x y -> rtc step x y.
Proof. intros H. eapply (rtc_congruence (λ x, x)); [|exact H]. intros u v Huv. by exists a. Qed.
Lemma after_message_snd r : (after_message (S := S) r).2 = r.2.
Proof. destruct r as [k z]. unfold after_message. by case_match. Qed.

Lemma react_steps e i x : input_ok i x -> (forall n, sends i n -> A n) ->
  rtc step x (react one_way_clipboard one_way_file new_video e i x).2.
Proof.
  intros Hok HA. destruct i; cbn [react]; rewrite ?after_message_snd.
  - apply (lift System). cbn [snd]. unfold note_kind.
    change (flag (cn (put video_ack_required ack x)) authorized) with (flag (cn x) authorized).
    destruct (flag (cn x) authorized) eqn:Ea; [prims|].
    destruct k as [|dir hidden| |[b|]]; repeat (prims; try (eapply steps_r;
      [|first [apply prim_kind; [done|exact Ea] | apply prim_mode; [done|by auto|exact Ea]]])).
  - apply (lift System). destruct by_cm; rewrite ?after_message_snd; cbn [snd]; apply st_let_in; apply rtc_refl.
  - apply (lift Customer), st_cm, rtc_refl.
  - unfold on_message.
    assert (Hp : rtc step x (if flag (cn x) authorized
      then (if flag (cn x) port_forward_socket then (true, x)
            else on_authorized_message one_way_clipboard one_way_file new_video e m x) else (true, x)).2).
    { destruct (flag (cn x) authorized) eqn:Ea; [|apply rtc_refl]. case_match; [apply rtc_refl|].
      apply (lift Peer), st_message; [done|apply rtc_refl|done]. }
    destruct m; try exact Hp.
    + apply (lift Peer). cbn [snd]. repeat case_match; prims.
    + destruct m; try exact Hp. apply (lift Peer). simpl. prims.
  - apply (lift System). simpl. prims.
  - apply (lift System). unfold on_file_timer. repeat case_match; simpl; prims.
  - apply (lift System). unfold send_close_reason_no_retry. repeat case_match; simpl; prims.
  - apply (lift System). unfold on_video, deliver. case_match; simpl; prims.
  - apply (lift System), st_queue, rtc_refl.
  - apply (lift System). unfold send_printer_request. simpl. case_match; prims.
  - apply (lift System), st_second, rtc_refl.
  - apply (lift System). unfold on_test_delay. case_match; simpl; prims. case_match; prims.
  - apply (lift System). simpl. eapply steps_r; [apply rtc_refl|]. by apply prim_world.
Qed.
End react.

(** ** What the peer's messages may do *)
Definition held (f : field) : bool :=
  match f with
  | authorized | view_camera | terminal | terminal_user_token | keyboard | clipboard | audio | file | restart
  | recording | block_input | sched_window_session => true
  | _ => false
  end.
Record kept (s t : sess) : Prop := mkKept {
  kept_flag : forall f, held f = true -> flag t f = flag s f;
  kept_authed : authed_as t = authed_as s;
  kept_files : file_transfer t = file_transfer s;
}.
Definition permitted (s : sess) (ev : event) : bool :=
  match ev with
  | STestDelay | XQos _ _ | CClose | XVoiceDevice _ | XRemoveSession => true
  | XLock => flag s keyboard
  | XSchedEnd => flag s sched_window_session
  | _ =>
      flag s authorized && negb (flag s port_forward_socket)
      && match ev with
         | IMouse simulate _ => negb (is_authed_view_camera_conn s) && (negb simulate || flag s keyboard)
         | IPointer | IKey _ _ => negb (is_authed_view_camera_conn s) && flag s keyboard
         | IBlock _ => flag s keyboard && flag s block_input
         | XReboot | XGrace => flag s restart
         | XResolution _ _ _ | XRememberResolution _ _ _ | XStartPortable => flag s keyboard
         | XClipboard => flag s clipboard
         | CFs f => answer f || (is_files s && negb (one_way_file && outgoing f))
         | XTerminal => flag s terminal_user_token
         | XAudioThread | XAudioFrame => true
         | _ => unguarded ev
         end
  end.

Lemma field_kept_refl s : kept s s.
Proof. by split. Qed.
Lemma field_kept_trans s t u : kept s t -> kept t u -> kept s u.
Proof.
  intros [H1 H2 H3] [K1 K2 K3]. split; [|congruence|congruence]. intros f Hf. by rewrite K1, H1.
Qed.

Lemma allowed_permitted s t ev : kept s t -> flag s authorized = true -> flag s port_forward_socket = false ->
  allowed Peer t ev = true -> permitted s ev = true.
Proof.
  intros [Kf Ka Kfile] Ha Hp.
  assert (Hc : is_authed_view_camera_conn t = is_authed_view_camera_conn s)
    by (unfold is_authed_view_camera_conn; by rewrite Ka).
  assert (Hi : is_files t = is_files s) by (unfold is_files; by rewrite Kfile).
  destruct ev; cbn [allowed permitted]; rewrite ?Ha, ?Hp, ?Hc, ?Hi; unfold peer_keyboard_enabled;
    rewrite ?Kf by done; simpl; try done;
    destruct (is_authed_view_camera_conn s), (flag s keyboard); simpl; try done; by destruct simulate.
Qed.

Lemma sub_kept (x y : ctx) f b evs : held f = false -> sub_change x y f b evs -> kept (cn x) (cn y).
Proof.
  intros Hf (_ & Hg & Ha & Hfile & _). split; [|done..]. intros g Hgh. rewrite Hg.
  unfold insert, fn_insert. rewrite decide_False; [done|]. intros ->. congruence.
Qed.
Lemma put_kept f b (x : ctx) : held f = false -> kept (cn x) (cn (put f b x)).
Proof. intros Hf. by apply (sub_kept x (put f b x) f b []); [|split; [by rewrite app_nil_r|]]. Qed.

Lemma peer_prim A s x y : kept s (cn x) -> flag s authorized = true -> flag s port_forward_socket = false ->
  prim A Peer x y -> kept (cn x) (cn y) /\ adds (λ ev, permitted s ev = true) x y.
Proof.
  intros Hk Ha Hp H.
  assert (Hsub : forall f b z, held f = false -> sub_change x z f b [] ->
    kept (cn x) (cn z) /\ adds (λ ev, permitted s ev = true) x z).
  { intros f b z Hf Hs. split; [by apply (sub_kept _ _ f b [])|].
    apply adds_nil. destruct Hs as [-> _]. by rewrite app_nil_r. }
  destruct H; try done.
  - split; [apply field_kept_refl|]. eapply adds_one; [done|]. by eapply allowed_permitted.
  - split; [|by apply adds_nil]. apply put_kept. by destruct f.
  - split; [|by apply adds_nil]. destruct H. split; [|done..]. intros f _. simpl. congruence.
  - split; [by split|by apply adds_nil].
  - split; [by split|by apply adds_nil].
  - split; [by split|by apply adds_nil].
  - destruct (close_state lock x) as (_ & E1 & E2 & _ & _ & _ & E3 & _). split.
    + split; [|done..]. intros f Hf. apply E3; by intros ->.
    + apply close_adds; [reflexivity|reflexivity| |].
      * intros Hs. cbn [permitted]. by rewrite <- (kept_flag _ _ Hk sched_window_session).
      * intros _ _ Hl. cbn [permitted]. by rewrite <- (kept_flag _ _ Hk keyboard).
  - destruct (sub_changes b x) as (E & _). by apply (Hsub show_remote_cursor b).
  - destruct (sub_changes b x) as (_ & E & _). by apply (Hsub disable_audio b).
  - destruct (sub_changes b x) as (_ & _ & E & _). by apply (Hsub disable_clipboard b).
  - destruct (sub_changes b x) as (_ & _ & _ & E & _). by apply (Hsub disable_keyboard b).
  - destruct (server_frame (subscribe NAME_AUDIO (inner (cn x)) b) x) as (E1 & E2 & E3 & E4 & _).
    split; [|by apply adds_nil]. split; [|done..]. intros f _. unfold subscribe_to. by rewrite E2.
  - destruct (monitor_frame e x) as (E1 & E2 & E3 & _ & _ & E4). split; [|by apply adds_nil].
    split; [|done..]. intros f Hf. apply E4. by intros ->.
Qed.

Lemma peer_run A s x y : kept s (cn x) -> flag s authorized = true -> flag s port_forward_socket = false ->
  steps A Peer x y -> kept s (cn y) /\ adds (λ ev, permitted s ev = true) x y.
Proof.
  intros Hk Ha Hp H. induction H as [x|x y z Hxy _ IH]; [split; [done|by apply adds_nil]|].
  destruct (peer_prim A s x y Hk Ha Hp Hxy) as [K1 A1]. destruct (IH (field_kept_trans _ _ _ Hk K1)) as [K2 A2].
  split; [done|]. by eapply adds_trans.
Qed.


(** ** Subscriptions follow the permissions

    Of the services that carry the clipboard, the sound and the cursor: what a
    connection is to get at least once its services are subscribed, and at
    most. *)
Definition followed : list string := [NAME_CLIPBOARD; NAME_AUDIO; NAME_POS; NAME_CURSOR].
Definition at_least (s : sess) (k : string) : bool :=
  if String.eqb k NAME_CLIPBOARD then can_sub_clipboard_service one_way_clipboard s
  else if String.eqb k NAME_AUDIO then audio_enabled s
  else if String.eqb k NAME_POS then flag s show_remote_cursor
  else peer_keyboard_enabled s || flag s show_remote_cursor.
Definition at_most (s : sess) (k : string) : bool :=
  if String.eqb k NAME_CURSOR then flag s keyboard || flag s show_remote_cursor else at_least s k.
Definition follows (s : sess) (v : server (S := S)) (k : string) : Prop :=
  (subed v k (id (inner s)) = true -> at_most s k = true)
  /\ (flag s services_subed = true -> at_least s k = true -> contains k v = true -> subed v k (id (inner s)) = true).
Definition server_inv (s : sess) (v : server (S := S)) : Prop :=
  srv_ok v /\ (forall k, In k followed -> follows s v k)
  /\ (flag s authorized = false -> subed v NAME_AUDIO (id (inner s)) = false).
Definition sub_inv (s : sess) : Prop :=
  (authed_as s = Some TViewCamera -> flag s view_camera = true)
  /\ (flag s authorized = false -> flag s services_subed = false)
  /\ (flag s terminal || flag s view_camera = true \/ forall v, srv s = Some v -> server_inv s v).

Lemma least_most s k : at_least s k = true -> at_most s k = true.
Proof.
  unfold at_most. destruct (String.eqb_spec k NAME_CURSOR) as [->|]; [|done].
  change (at_least s NAME_CURSOR) with (peer_keyboard_enabled s || flag s show_remote_cursor). unfold peer_keyboard_enabled.
  by destruct (flag s keyboard), (flag s show_remote_cursor).
Qed.
Lemma followed_tracked k : In k followed -> tracked k.
Proof. intros H. repeat destruct H as [<-|H]; by split. Qed.

(** The fields that [at_least] and [at_most] read. *)
Definition read_field (f : field) : bool :=
  match f with
  | keyboard | clipboard | audio | disable_keyboard | disable_clipboard | disable_audio | show_remote_cursor
  | services_subed => true
  | _ => false
  end.
Lemma levels_ext s t k : (forall f, read_field f = true -> flag t f = flag s f) ->
  at_least t k = at_least s k /\ at_most t k = at_most s k /\ flag t services_subed = flag s services_subed.
Proof.
  intros H. unfold at_most, at_least, can_sub_clipboard_service, clipboard_enabled, peer_keyboard_enabled, audio_enabled.
  by rewrite !H by done.
Qed.

(** A change of the server that is calm for this connection, or of fields that
    are not read. *)
Lemma sub_inv_calm (s t : sess) : sub_inv s ->
  (forall f, read_field f = true -> flag t f = flag s f) ->
  (flag s authorized = true -> flag t authorized = true) ->
  (flag s terminal || flag s view_camera = true -> flag t terminal || flag t view_camera = true) ->
  (flag s view_camera = true -> flag t view_camera = true) ->
  (authed_as t = Some TViewCamera -> authed_as s = Some TViewCamera \/ flag t view_camera = true) ->
  inner t = inner s -> world_step (id (inner s)) (srv s) (srv t) -> sub_inv t.
Proof.
  intros (Hc & Hn & Hs) Hf Hau Hm Hv Ha Hi Hw. destruct (levels_ext s t NAME_AUDIO Hf) as (_ & _ & L).
  assert (Hau' : flag t authorized = false -> flag s authorized = false)
    by (destruct (flag s authorized); [by rewrite Hau|done]).
  split; [intros H; destruct (Ha H) as [H'|]; [|done]; by apply Hv, Hc|].
  split; [intros H; rewrite L; auto|].
  destruct Hs as [Hs|Hs]; [left; by apply Hm|]. right. intros v Ev.
  destruct (srv s) as [w|] eqn:Ew; rewrite Ev in Hw; [|done].
  destruct (Hs w eq_refl) as (Hok & Hfol & Haud). destruct (Hw Hok) as [Hok' Hcalm]. split; [done|].
  rewrite Hi. split.
  - intros k Hk. destruct (Hcalm k (followed_tracked k Hk)) as [E1 E2]. destruct (levels_ext s t k Hf) as (L1 & L2 & L3).
    unfold follows. rewrite Hi, L1, L2, L3, E1, E2. by apply Hfol.
  - intros H. destruct (Hcalm NAME_AUDIO) as [_ ->]; [by split|]. auto.
Qed.

(** A service that was set to [c], and one that was left alone. *)
Lemma follows_set s v k c : subed v k (id (inner s)) = c && contains k v ->
  (at_least s k = true -> c = true) -> (c = true -> at_most s k = true) -> follows s v k.
Proof.
  intros Hs Hl Hm. split; rewrite Hs.
  - intros [Hc _]%andb_true_iff. auto.
  - intros _ H1 H2. by rewrite Hl, H2.
Qed.
Lemma follows_keep s t v w k : follows s v k -> inner t = inner s ->
  subed w k (id (inner s)) = subed v k (id (inner s)) -> contains k w = contains k v ->
  at_least t k = at_least s k -> at_most t k = at_most s k -> flag t services_subed = flag s services_subed ->
  follows t w k.
Proof. intros H Hi E1 E2 E3 E4 E5. unfold follows. rewrite Hi, E1, E2, E3, E4, E5. exact H. Qed.

Lemma subscribe_same nm conn b (v : server (S := S)) : srv_ok v ->
  subed (subscribe nm conn b v) nm (id conn) = b && contains nm v.
Proof. intros Hv. rewrite subscribe_subed by done. by rewrite decide_True. Qed.
Lemma subscribe_other nm conn b (v : server (S := S)) k i : srv_ok v -> k <> nm ->
  subed (subscribe nm conn b v) k i = subed v k i.
Proof. intros Hv Hk. rewrite subscribe_subed by done. rewrite decide_False; [done|]. by intros []. Qed.
Lemma subscribe_to_some nm b x v : srv (cn x) = Some v ->
  subscribe_to nm b x = upd (set_srv (Some (subscribe nm (inner (cn x)) b v))) x.
Proof. intros E. unfold subscribe_to, on_server, upd. by rewrite E. Qed.
Lemma subscribe_to_none nm b x : srv (cn x) = None -> subscribe_to nm b x = x.
Proof. intros E. unfold subscribe_to, on_server, upd. rewrite E. by destruct x. Qed.

Lemma sub_inv_change x y f b evs : sub_inv (cn x) -> sub_change x y f b evs ->
  f <> authorized -> f <> terminal -> f <> view_camera -> f <> services_subed ->
  (srv (cn x) = None -> srv (cn y) = None) ->
  (forall v, srv (cn x) = Some v -> is_authed_view_camera_conn (cn x) = false -> server_inv (cn x) v ->
     exists w, srv (cn y) = Some w /\ server_inv (cn y) w) ->
  sub_inv (cn y).
Proof.
  intros (Hc & Hn & Hs) Hch Ha Ht Hv Hss Hnone Hsome.
  pose proof (sub_change_flag _ _ _ _ _ authorized Hch (not_eq_sym Ha)) as Ea.
  pose proof (sub_change_flag _ _ _ _ _ terminal Hch (not_eq_sym Ht)) as Et.
  pose proof (sub_change_flag _ _ _ _ _ view_camera Hch (not_eq_sym Hv)) as Ev.
  pose proof (sub_change_flag _ _ _ _ _ services_subed Hch (not_eq_sym Hss)) as Es.
  destruct Hch as (_ & _ & Eau & _). unfold sub_inv. rewrite Ea, Et, Ev, Es, Eau.
  split; [done|]. split; [done|]. destruct Hs as [Hs|Hs]; [by left|].
  destruct (is_authed_view_camera_conn (cn x)) eqn:Ecam.
  { left. apply bool_decide_eq_true in Ecam. rewrite (Hc Ecam). apply orb_true_r. }
  right. intros w Ew. destruct (srv (cn x)) as [v|] eqn:Esrv; [|by rewrite Hnone in Ew].
  destruct (Hsome v eq_refl eq_refl (Hs v eq_refl)) as (w' & Ew' & Hw'). congruence.
Qed.

Ltac each_followed Hk := repeat destruct Hk as [<-|Hk]; [..|done].
Ltac subs := repeat first [rewrite subscribe_other by (done || by apply subscribe_ok)
  | rewrite subscribe_same by (done || by apply subscribe_ok) | rewrite subscribe_contains].
(** A service left alone by a change of a field that its level does not read. *)
Ltac kept_level Hfol :=
  eapply follows_keep; [apply Hfol; simpl; tauto|done|simpl; by subs|by rewrite ?subscribe_contains|done..].

Lemma srv_none_sub nm b x : srv (cn x) = None -> srv (cn (subscribe_to nm b x)) = None.
Proof. intros E. by rewrite subscribe_to_none. Qed.

Lemma inv_show b x : sub_inv (cn x) -> sub_inv (cn (option_show_cursor b x)).
Proof.
  intros H. destruct (sub_changes b x) as (E & _).
  apply (sub_inv_change x _ _ _ _ H E); try done; unfold option_show_cursor; cbv zeta.
  - intros Hn. by repeat apply srv_none_sub.
  - intros v Ev _ (Hok & Hfol & Haud). rewrite (subscribe_to_some NAME_CURSOR _ _ v) by done.
    erewrite (subscribe_to_some NAME_POS) by done. eexists. split; [done|].
    split; [by repeat apply subscribe_ok|]. split; [|intros Ha; simpl; subs; by apply Haud].
    intros k Hk. each_followed Hk.
    + kept_level Hfol.
    + kept_level Hfol.
    + eapply (follows_set _ _ _ b); [simpl; by subs|done|done].
    + eapply (follows_set _ _ _ (peer_keyboard_enabled (cn x) || b)); [simpl; by subs|done|].
      unfold peer_keyboard_enabled. change (at_most _ NAME_CURSOR) with (flag (cn x) keyboard || b).
      destruct (flag (cn x) keyboard); [done|]. by destruct b.
Qed.
Lemma inv_clip b x : sub_inv (cn x) -> sub_inv (cn (option_disable_clipboard one_way_clipboard b x)).
Proof.
  intros H. destruct (sub_changes b x) as (_ & _ & E & _).
  apply (sub_inv_change x _ _ _ _ H E); try done; unfold option_disable_clipboard; cbv zeta.
  - intros Hn. by apply srv_none_sub.
  - intros v Ev _ (Hok & Hfol & Haud). erewrite (subscribe_to_some _ _ _ v) by done. eexists. split; [done|].
    split; [by apply subscribe_ok|]. split; [|intros Ha; simpl; subs; by apply Haud].
    intros k Hk. each_followed Hk; try kept_level Hfol.
    by eapply follows_set; [simpl; by subs|..].
Qed.
Lemma inv_sw_clip b x : sub_inv (cn x) -> sub_inv (cn (switch_clipboard one_way_clipboard b x)).
Proof.
  intros H. destruct (sub_changes b x) as (_ & _ & _ & _ & _ & E & _).
  apply (sub_inv_change x _ _ _ _ H E); try done; unfold switch_clipboard; cbv zeta.
  - intros Hn. by apply srv_none_sub.
  - intros v Ev _ (Hok & Hfol & Haud). erewrite (subscribe_to_some _ _ _ v) by done. eexists. split; [done|].
    split; [by apply subscribe_ok|]. split; [|intros Ha; simpl; subs; by apply Haud].
    intros k Hk. each_followed Hk; try kept_level Hfol.
    by eapply follows_set; [simpl; by subs|..].
Qed.
Lemma inv_kbd b x : sub_inv (cn x) -> sub_inv (cn (option_disable_keyboard one_way_clipboard b x)).
Proof.
  intros H. destruct (sub_changes b x) as (_ & _ & _ & E & _).
  apply (sub_inv_change x _ _ _ _ H E); try done; unfold option_disable_keyboard; cbv zeta.
  - intros Hn. by repeat apply srv_none_sub.
  - intros v Ev _ (Hok & Hfol & Haud). rewrite (subscribe_to_some NAME_CLIPBOARD _ _ v) by done.
    erewrite (subscribe_to_some NAME_CURSOR) by done. eexists. split; [done|].
    split; [by repeat apply subscribe_ok|]. split; [|intros Ha; simpl; subs; by apply Haud].
    intros k Hk. each_followed Hk; try kept_level Hfol.
    + by eapply follows_set; [simpl; by subs|..].
    + eapply follows_set; [simpl; by subs|done|]. intros Hc. by apply least_most.
Qed.
Lemma inv_sw_kbd b x : sub_inv (cn x) -> sub_inv (cn (switch_keyboard one_way_clipboard b x)).
Proof.
  intros H. destruct (sub_changes b x) as (_ & _ & _ & _ & E & _).
  apply (sub_inv_change x _ _ _ _ H E); try done; unfold switch_keyboard; cbv zeta.
  - intros Hn. by repeat apply srv_none_sub.
  - intros v Ev _ (Hok & Hfol & Haud). rewrite (subscribe_to_some NAME_CLIPBOARD _ _ v) by done.
    erewrite (subscribe_to_some NAME_CURSOR) by done. eexists. split; [done|].
    split; [by repeat apply subscribe_ok|]. split; [|intros Ha; simpl; subs; by apply Haud].
    intros k Hk. each_followed Hk; try kept_level Hfol.
    + by eapply follows_set; [simpl; by subs|..].
    + eapply (follows_set _ _ _ (b || flag (cn x) show_remote_cursor)); [simpl; by subs| |done].
      change (at_least _ NAME_CURSOR) with (b && negb (flag (cn x) disable_keyboard) || flag (cn x) show_remote_cursor).
      by destruct b.
Qed.

(** Setting the sound of a connection that is not a camera's. *)
Lemma audio_set x y v f b evs : sub_change x y f b evs -> f = disable_audio \/ f = audio ->
  server_inv (cn x) v -> (flag (cn x) authorized = true) ->
  srv (cn y) = Some (subscribe NAME_AUDIO (inner (cn x)) (audio_enabled (cn y)) v) ->
  exists w, srv (cn y) = Some w /\ server_inv (cn y) w.
Proof.
  intros (_ & Hfl & _ & _ & _ & Hi) Hf (Hok & Hfol & Haud) Ha Es. eexists. split; [exact Es|].
  split; [by apply subscribe_ok|]. split.
  2:{ intros Hx. rewrite Hfl in Hx. destruct Hf as [-> | ->]; change (flag (cn x) authorized = false) in Hx; congruence. }
  intros k Hk. each_followed Hk.
  - eapply follows_keep; [apply Hfol; simpl; tauto|done|by subs|by rewrite subscribe_contains|..];
      unfold at_most, at_least, can_sub_clipboard_service, clipboard_enabled, peer_keyboard_enabled;
      rewrite Hfl; by destruct Hf as [-> | ->].
  - by eapply follows_set; [rewrite Hi; by subs|..].
  - eapply follows_keep; [apply Hfol; simpl; tauto|done|by subs|by rewrite subscribe_contains|..];
      unfold at_most, at_least; rewrite Hfl; by destruct Hf as [-> | ->].
  - eapply follows_keep; [apply Hfol; simpl; tauto|done|by subs|by rewrite subscribe_contains|..];
      unfold at_most, at_least, peer_keyboard_enabled; rewrite Hfl; by destruct Hf as [-> | ->].
Qed.
Lemma inv_audio b x : flag (cn x) authorized = true -> sub_inv (cn x) -> sub_inv (cn (option_disable_audio b x)).
Proof.
  intros Ha H. destruct (sub_changes b x) as (_ & E & _).
  apply (sub_inv_change x _ _ _ _ H E); try done; unfold option_disable_audio, sub_audio; cbv zeta.
  - intros Hn. repeat case_match; by repeat apply srv_none_sub.
  - intros v Ev Hcam Hv. eapply audio_set; [exact E|by left|exact Hv|done|].
    unfold option_disable_audio, sub_audio. cbv zeta.
    change (is_authed_view_camera_conn (cn (put disable_audio b x))) with (is_authed_view_camera_conn (cn x)).
    rewrite Hcam. erewrite (subscribe_to_some _ _ _ v) by done. done.
Qed.
Lemma sw_audio_off b x : flag (cn x) authorized = false ->
  switch_audio b x = emit (SPermission PAudio b) (put audio b x).
Proof.
  intros Ha. unfold switch_audio. cbv zeta.
  change (flag (cn (emit (SPermission PAudio b) (put audio b x))) authorized) with (flag (cn x) authorized).
  by rewrite Ha.
Qed.
Lemma sw_audio_on b x : flag (cn x) authorized = true -> is_authed_view_camera_conn (cn x) = false ->
  switch_audio b x = subscribe_to NAME_AUDIO (b && negb (flag (cn x) disable_audio))
                       (emit (SPermission PAudio b) (put audio b x)).
Proof.
  intros Ha Hc. unfold switch_audio, sub_audio. cbv zeta.
  change (flag (cn (emit (SPermission PAudio b) (put audio b x))) authorized) with (flag (cn x) authorized).
  change (is_authed_view_camera_conn (cn (emit (SPermission PAudio b) (put audio b x))))
    with (is_authed_view_camera_conn (cn x)).
  by rewrite Ha, Hc.
Qed.
Lemma inv_sw_audio b x : sub_inv (cn x) -> sub_inv (cn (switch_audio b x)).
Proof.
  intros H. destruct (sub_changes b x) as (_ & _ & _ & _ & _ & _ & E).
  apply (sub_inv_change x _ _ _ _ H E); try done.
  - intros Hn. unfold switch_audio, sub_audio. cbv zeta. repeat case_match; by repeat apply srv_none_sub.
  - intros v Ev Hcam Hv. destruct (flag (cn x) authorized) eqn:Ha.
    + eapply audio_set; [exact E|by right|exact Hv|done|].
      rewrite sw_audio_on by done. erewrite (subscribe_to_some _ _ _ v) by done. done.
    + rewrite sw_audio_off by done. exists v. split; [done|]. destruct Hv as (Hok & Hfol & Haud).
      split; [done|]. split; [|done]. intros k Hk. each_followed Hk; try kept_level Hfol.
      split; [simpl; by rewrite Haud|]. intros Hss. destruct H as (_ & Hn & _).
      change (flag (cn x) services_subed = true) in Hss. by rewrite Hn in Hss.
Qed.

Lemma noperms_level s k : In k followed ->
  existsb (String.eqb k) (noperms one_way_clipboard s) = negb (at_least s k).
Proof.
  intros Hk. unfold noperms, at_least. rewrite !existsb_app.
  generalize (peer_keyboard_enabled s) (flag s show_remote_cursor) (flag s follow_remote_window)
    (can_sub_clipboard_service one_way_clipboard s) (audio_enabled s).
  intros [] [] [] [] []; each_followed Hk; reflexivity.
Qed.
Lemma monitor_some e x v : is_remote (cn x) && negb (flag (cn x) services_subed) = true -> srv (cn x) = Some v ->
  cn (try_sub_monitor_services one_way_clipboard new_video e x)
  = set_srv (Some (add_connection (primary e) (inner (cn x)) (noperms one_way_clipboard (cn x))
                     (try_add_primay_video_service (primary e) (new_video Monitor (primary e)) v)))
      (set_timer (get_auto_disconenct_timer e) (set_flag services_subed true (cn x))).
Proof.
  intros Hc Ev. unfold try_sub_monitor_services. rewrite Hc. cbv zeta.
  change (srv (cn (put services_subed true x))) with (srv (cn x)).
  unfold on_server, put, upd. cbn [cn srv set_timer set_flag]. by rewrite Ev.
Qed.
Lemma inv_monitor e x : flag (cn x) authorized = true -> sub_inv (cn x) ->
  sub_inv (cn (try_sub_monitor_services one_way_clipboard new_video e x)).
Proof.
  intros Ha H. destruct (is_remote (cn x) && negb (flag (cn x) services_subed)) eqn:Econd.
  2:{ unfold try_sub_monitor_services. by rewrite Econd. }
  destruct H as (Hc & Hn & Hs). destruct (srv (cn x)) as [v|] eqn:Ev.
  2:{ unfold try_sub_monitor_services. rewrite Econd. cbv zeta.
      change (srv (cn (put services_subed true x))) with (srv (cn x)). rewrite Ev.
      split; [done|]. split; [intros Hx; change (flag (cn x) authorized = false) in Hx; congruence|].
      destruct Hs as [Hs|Hs]; [by left|right]. intros w Ew. change (srv (cn x) = Some w) in Ew. congruence. }
  rewrite (monitor_some e x v Econd Ev). split; [exact Hc|].
  split; [intros Hx; change (flag (cn x) authorized = false) in Hx; congruence|].
  destruct Hs as [Hs|Hs]; [by left|right]. intros w [= <-]. destruct (Hs v eq_refl) as (Hok & Hfol & _).
  set (u := try_add_primay_video_service _ _ _).
  assert (Hu : calm tracked (id (inner (cn x))) v u) by apply calm_new.
  destruct (Hu Hok) as [Hok' Hcalm]. split; [by apply add_connection_ok|].
  split; [|intros Hx; change (flag (cn x) authorized = false) in Hx; congruence].
  intros k Hk. destruct (Hcalm k (followed_tracked k Hk)) as [E1 E2].
  assert (El : at_least (cn x) k = true -> at_most (cn x) k = true) by apply least_most.
  destruct (Hfol k Hk) as [F1 F2].
  assert (Es : subed (add_connection (primary e) (inner (cn x)) (noperms one_way_clipboard (cn x)) u) k (id (inner (cn x)))
    = subed v k (id (inner (cn x))) || (contains k v && at_least (cn x) k)).
  { rewrite add_connection_subed by done. rewrite E1, E2, Z.eqb_refl, (noperms_level _ _ Hk), negb_involutive.
    rewrite (tracked_video k (followed_tracked k Hk)). simpl. by rewrite andb_true_r. }
  unfold follows. cbn [inner set_srv set_timer set_flag]. rewrite Es, add_connection_contains, E1.
  match goal with |- (_ -> at_most ?t k = true) /\ _ =>
    change (at_most t k) with (at_most (cn x) k); change (at_least t k) with (at_least (cn x) k) end.
  split.
  - intros [H|[_ H]%andb_true_iff]%orb_true_iff; auto.
  - intros _ H1 H2. by rewrite H1, H2, orb_true_r.
Qed.

Lemma world_refl i v : world_step i v v.
Proof. destruct v; [apply calm_refl|done]. Qed.
Definition mode_field (f : field) : bool := match f with authorized | terminal | view_camera => true | _ => false end.
Lemma inv_fields (s t : sess) : sub_inv s ->
  (forall f, read_field f || mode_field f = true -> flag t f = flag s f) ->
  authed_as t = authed_as s -> inner t = inner s -> world_step (id (inner s)) (srv s) (srv t) -> sub_inv t.
Proof.
  intros H Hf Ha Hi Hw.
  apply (sub_inv_calm s t H); [intros f Hr; apply Hf; by rewrite Hr|..|done|done];
    rewrite ?Ha, ?(Hf authorized), ?(Hf terminal), ?(Hf view_camera) by done; auto.
Qed.
Lemma inv_put f b x : sub_inv (cn x) -> read_field f || mode_field f = false -> sub_inv (cn (put f b x)).
Proof.
  intros H Hf. apply (inv_fields _ _ H); try done; [|apply world_refl].
  intros g Hg. apply put_flag. intros ->. congruence.
Qed.
(** The kinds of connection for which nothing is said. *)
Lemma inv_mode f x : f = terminal \/ f = view_camera -> sub_inv (cn x) -> sub_inv (cn (put f true x)).
Proof.
  intros Hf H. apply (sub_inv_calm _ _ H); try done; try apply world_refl.
  - intros g Hg. apply put_flag. by destruct Hf as [-> | ->]; intros ->.
  - rewrite put_flag; [done|]. by destruct Hf as [-> | ->].
  - destruct Hf as [-> | ->]; intros _; simpl; rewrite ?fn_lookup_insert, ?orb_true_r; done.
  - destruct Hf as [-> | ->]; intros Hv; [by rewrite put_flag|]. simpl. by rewrite fn_lookup_insert.
  - by left.
Qed.
Lemma inv_vacuous s t : sub_inv s -> flag s terminal || flag s view_camera = true ->
  (forall f, f = terminal \/ f = view_camera \/ f = authorized \/ f = services_subed -> flag t f = flag s f) ->
  authed_as t = authed_as s -> sub_inv t.
Proof.
  intros (Hc & Hn & _) Hm Hf Ha. unfold sub_inv. rewrite Ha, !Hf by auto. auto.
Qed.

(** Every elementary change keeps the subscriptions in step. *)
Lemma inv_prim A a x y : prim A a x y -> sub_inv (cn x) -> sub_inv (cn y).
Proof.
  intros H Hinv. destruct H.
  - done.
  - apply inv_put; [done|]. by destruct f.
  - destruct H as [E1 E2 E3 _ _ E4]. apply (inv_fields _ _ Hinv); simpl; rewrite ?E1, ?E2, ?E3, ?E4; try done.
    apply world_refl.
  - apply (inv_fields _ _ Hinv); try done. simpl. by rewrite H.
  - apply (inv_fields _ _ Hinv); try done. apply world_refl.
  - apply (inv_fields _ _ Hinv); try done. apply world_refl.
  - destruct (close_state lock x) as (E1 & E2 & _ & _ & E3 & _ & E4 & _).
    apply (inv_fields _ _ Hinv); [|done|done|rewrite E3; apply world_refl].
    intros f Hf. apply E4; by intros ->.
  - by apply inv_show.
  - by apply inv_audio.
  - by apply inv_clip.
  - by apply inv_kbd.
  - by apply inv_sw_kbd.
  - by apply inv_sw_clip.
  - by apply inv_sw_audio.
  - destruct (server_frame (subscribe NAME_AUDIO (inner (cn x)) b) x) as (_ & E2 & E3 & _).
    apply (inv_vacuous (cn x)); [done| |unfold subscribe_to; by rewrite E2|done].
    destruct Hinv as (Hc & _). apply bool_decide_eq_true in H. rewrite (Hc H). apply orb_true_r.
  - by apply inv_monitor.
  - apply (inv_vacuous (cn x)); try done. intros f Hf. apply put_flag.
    by destruct Hf as [-> |[-> |[-> | ->]]].
  - by apply inv_mode.
  - apply (inv_fields _ _ Hinv); try done. apply world_refl.
  - apply (sub_inv_calm _ _ Hinv); try done; [|by left|apply world_refl].
    intros f Hf. apply put_flag. by intros ->.
  - apply (sub_inv_calm _ _ Hinv); try done; [|apply world_refl].
    simpl. intros [= Hc]. right. unfold conn_type in Hc. repeat case_match; congruence.
  - apply (inv_fields _ _ Hinv); done.
Qed.

(** ** Runs *)
Abbreviation react := (react one_way_clipboard one_way_file new_video).
Abbreviation run := (run one_way_clipboard one_way_file new_video).
Fixpoint run_ok (l : list (senv * input (S := S))) (x : ctx) : Prop :=
  match l with
  | [] => True
  | (e, i) :: l => input_ok i x /\ ((react e i x).1 = true -> run_ok l (react e i x).2)
  end.
Lemma run_steps A l x : run_ok l x -> (forall e i n, In (e, i) l -> sends i n -> A n) -> rtc (step A) x (run l x).2.
Proof.
  revert x. induction l as [|[e i] l IH]; intros x Hok HA; [apply rtc_refl|]. destruct Hok as [Hi Hok].
  assert (H1 : rtc (step A) x (react e i x).2).
  { apply react_steps; [done|]. intros n. apply (HA e i). by left. }
  cbn [Session.run]. destruct (react e i x) as [keep y]. destruct keep; [|done].
  etrans; [exact H1|]. apply IH; [by apply Hok|]. intros e' i' n Hin. apply (HA e' i'). by right.
Qed.
Lemma run_inv (I : ctx -> Prop) A l x : (forall a u v, prim A a u v -> I u -> I v) ->
  run_ok l x -> (forall e i n, In (e, i) l -> sends i n -> A n) -> I x -> I (run l x).2.
Proof.
  intros Hp Hok HA. apply (rtc_invariant (step A)); [|by apply run_steps]. intros u v Hu [a Ha]. by apply (Hp a u).
Qed.
Lemma start_state i permission disp t inst (v : option (server (S := S))) :
  let x := start i permission disp t inst v in
  srv (cn x) = v /\ inner (cn x) = i /\ authed_as (cn x) = None /\ cm_read_job_ids (cn x) = ∅
  /\ (forall f, f ∉ [keyboard; clipboard; audio; file; restart; recording; block_input] -> flag (cn x) f = false)
  /\ forall ev, In ev (did x) -> exists p, ev = SPermission p false.
Proof.
  assert (Hf : forall l y, cn (foldl (λ y p, emit_if (negb (permission p)) (SPermission p false) y) y l) = cn y
    /\ forall ev, In ev (did (foldl (λ y p, emit_if (negb (permission p)) (SPermission p false) y) (y : ctx) l)) ->
         In ev (did y) \/ exists p, ev = SPermission p false).
  { induction l as [|p l IH]; intros y; [by split; [|left]|]. simpl. destruct (IH (emit_if (negb (permission p)) (SPermission p false) y)) as [E1 E2].
    rewrite E1. unfold emit_if in *. destruct (negb (permission p)); simpl in *; [|done]. split; [done|].
    intros ev Hev. destruct (E2 ev Hev) as [H|H]; [|by right]. apply in_app_or in H as [H|[<-|[]]]; [by left|right; eauto]. }
  cbv zeta. unfold start.
  match goal with |- context [foldl _ ?y0 _] => destruct (Hf [PKeyboard; PClipboard; PAudio; PFile; PRestart; PRecording; PBlockInput] y0) as [-> He] end.
  split_and!; try done.
  - intros f Hf'. destruct f; try done; exfalso; apply Hf'; set_solver.
  - intros ev Hev. by destruct (He ev Hev) as [[]|].
Qed.

(** C14: which services a connection gets, unless it is a terminal's or a
    camera's: at every moment of it, whatever the peer, the customer, the timers
    and the other connections did so far, it is subscribed to the clipboard, the
    sound and the cursor's position only if the permissions and the peer's own
    options of that moment say so, and to the cursor only with the customer's
    keyboard permission (even if the peer switched the keyboard off for itself)
    or the option that shows it; and once its services are subscribed it does
    get each of them that is said so. *)
Theorem subscriptions_follow_permissions i permission disp t inst (v : option (server (S := S))) l :
  (forall w, v = Some w -> srv_ok w /\ forall k, In k followed -> subed w k (id i) = false) ->
  let x := start i permission disp t inst v in
  run_ok l x ->
  let s := cn (run l x).2 in
  flag s terminal = false -> flag s view_camera = false ->
  forall w, srv s = Some w -> forall k, In k followed ->
  (subed w k (id (inner s)) = true -> at_most s k = true)
  /\ (flag s services_subed = true -> at_least s k = true -> contains k w = true -> subed w k (id (inner s)) = true).
Proof.
  cbv zeta. intros Hv Hok Ht Hc w Hw k Hk.
  destruct (start_state i permission disp t inst v) as (E1 & E2 & E3 & _ & E4 & _).
  assert (H : sub_inv (cn (run l (start i permission disp t inst v)).2)).
  { apply (run_inv (λ y, sub_inv (cn y)) (λ _, True)); [intros a x y; apply inv_prim|done|done|].
    unfold sub_inv. rewrite E1, E3, !E4 by (intros ?; set_solver). split; [done|]. split; [done|]. right.
    intros u Hu. destruct (Hv u Hu) as [Hok' Hno]. split; [done|]. rewrite E2. split.
    - intros j Hj. unfold follows. rewrite E2, (Hno j Hj), !E4 by (intros ?; set_solver). done.
    - intros _. apply Hno. simpl. auto. }
  destruct H as (_ & _ & [H|H]); [by rewrite Ht, Hc in H|].
  destruct (H w Hw) as (_ & Hfol & _). by apply Hfol.
Qed.

(** ** Files read by the manager *)
Definition block_of (i : Z) (ev : event) : Prop :=
  match ev with SBlock n _ _ _ | SDigest n _ _ _ _ => n = i | _ => False end.
Lemma adds_close (P : event -> Prop) lock x : P CClose -> P (XVoiceDevice false) -> P XSchedEnd -> P XLock ->
  adds P x (on_close lock x).
Proof. intros. by apply close_adds. Qed.
Lemma stale_prim A i a x y : prim A a x y -> ~ A i -> i ∉ cm_read_job_ids (cn x) ->
  (i ∉ cm_read_job_ids (cn y)) /\ adds (λ ev, ~ block_of i ev) x y.
Proof.
  intros H HA Hi.
  assert (Hsub : forall z f b evs, sub_change x z f b evs -> Forall (λ ev, ~ block_of i ev) evs ->
    (i ∉ cm_read_job_ids (cn z)) /\ adds (λ ev, ~ block_of i ev) x z).
  { intros z f b evs (E1 & _ & _ & _ & E2 & _) Hev. rewrite E2. split; [done|]. by exists evs. }
  destruct H; try (split; [done|by apply adds_nil]).
  - split; [done|]. eapply adds_one; [done|]. destruct ev; simpl; try (by intros []);
      (intros ->; apply Hi; apply andb_true_iff in H as [_ H]; by apply bool_decide_eq_true in H).
  - destruct H as [_ _ _ _ E _]. simpl. rewrite E. split; [done|by apply adds_nil].
  - simpl. split; [set_solver|by apply adds_nil].
  - simpl. split; [|by apply adds_nil]. intros Hin. apply elem_of_union in Hin as [Hin|Hin]; [|done].
    apply elem_of_singleton in Hin as ->. done.
  - destruct (close_state lock x) as (_ & _ & _ & E & _). rewrite E. split; [done|]. apply adds_close; by intros [].
  - destruct (sub_changes b x) as (E & _). by apply (Hsub _ _ _ _ E).
  - destruct (sub_changes b x) as (_ & E & _). by apply (Hsub _ _ _ _ E).
  - destruct (sub_changes b x) as (_ & _ & E & _). by apply (Hsub _ _ _ _ E).
  - destruct (sub_changes b x) as (_ & _ & _ & E & _). by apply (Hsub _ _ _ _ E).
  - destruct (sub_changes b x) as (_ & _ & _ & _ & E & _). apply (Hsub _ _ _ _ E). repeat constructor. by intros [].
  - destruct (sub_changes b x) as (_ & _ & _ & _ & _ & E & _). apply (Hsub _ _ _ _ E). repeat constructor. by intros [].
  - destruct (sub_changes b x) as (_ & _ & _ & _ & _ & _ & E). apply (Hsub _ _ _ _ E). repeat constructor. by intros [].
  - destruct (server_frame (subscribe NAME_AUDIO (inner (cn x)) b) x) as (E1 & _ & _ & _ & E2 & _).
    unfold subscribe_to. rewrite E2. split; [done|by apply adds_nil].
  - destruct (monitor_frame e x) as (E1 & _ & _ & E2 & _). rewrite E2. split; [done|by apply adds_nil].
Qed.

(** A stopped job stays silent: once a job that the manager reads is
    cancelled, has been read to its end or has failed, no block and no digest of
    it reaches the peer, whatever arrives late from the manager and in whatever
    order, until the peer asks for a file under that number again. *)
Theorem no_stale_blocks i l x :
  (i ∉ cm_read_job_ids (cn x) \/ (exists e y, x = do_file_action e (FaCancel i) y)
   \/ (exists n y, x = handle_file_read_done i n y) \/ (exists n err y, x = handle_file_read_error i n err y)
   \/ (exists err y, x = handle_read_job_init_result i (Err err) y)) ->
  run_ok l x -> (forall e j, In (e, j) l -> ~ sends j i) ->
  adds (λ ev, ~ block_of i ev) x (run l x).2.
Proof.
  intros Hx Hok HA.
  assert (Hi : i ∉ cm_read_job_ids (cn x)).
  { destruct Hx as [H|[(e & y & ->)|[(n & y & ->)|[(n & err & y & ->)|(err & y & ->)]]]]; [done|..].
    - cbn [do_file_action]. cbv zeta. destruct (remove_job _ _); simpl; set_solver.
    - unfold handle_file_read_done, live_job. case_bool_decide; simpl; set_solver.
    - unfold handle_file_read_error, live_job. case_bool_decide; simpl; set_solver.
    - unfold handle_read_job_init_result, live_job. case_bool_decide; simpl; set_solver. }
  apply (run_inv (λ y, (i ∉ cm_read_job_ids (cn y)) /\ adds (λ ev, ~ block_of i ev) x y) (λ n, n <> i));
    [|done|intros e j n Hin Hs ->; by apply (HA e j)|split; [done|by apply adds_nil]].
  intros a u v Huv [Hu Ha]. destruct (stale_prim _ i a u v Huv) as [Hv Hb]; [by intros H|done|].
  split; [done|]. by eapply adds_trans.
Qed.

(** ** The end of a connection *)
Definition count (p : event -> bool) (x : ctx) : nat := length (List.filter p (did x)).
Definition is_close (ev : event) : bool := match ev with CClose => true | _ => false end.
Definition is_lock (ev : event) : bool := match ev with XLock => true | _ => false end.
Definition close_inv (x : ctx) : Prop :=
  count is_close x = (if flag (cn x) closed then 1 else 0)%nat
  /\ (count is_lock x <= if flag (cn x) closed then 1 else 0)%nat.

Lemma count_same p x y evs : did y = did x ++ evs -> List.filter p evs = [] -> count p y = count p x.
Proof. intros E F. unfold count. by rewrite E, List.filter_app, F, app_nil_r. Qed.
Lemma close_inv_same x y evs : close_inv x -> did y = did x ++ evs -> flag (cn y) closed = flag (cn x) closed ->
  List.filter is_close evs = [] -> List.filter is_lock evs = [] -> close_inv y.
Proof.
  intros [H1 H2] E Ef F1 F2. unfold close_inv. by rewrite Ef, (count_same _ _ _ _ E F1), (count_same _ _ _ _ E F2).
Qed.
Lemma close_inv_close lock x : close_inv x -> close_inv (on_close lock x).
Proof.
  intros [H1 H2]. unfold on_close. destruct (flag (cn x) closed) eqn:E; [by split; rewrite ?E|].
  unfold close_inv, count in *. unfold emit_if, put, upd, emit in *.
  destruct (flag (cn x) sched_window_session), (lock && _ && _); simpl in *;
    rewrite ?List.filter_app, ?length_app; simpl; lia.
Qed.
Lemma close_prim A a x y : prim A a x y -> close_inv x -> close_inv y.
Proof.
  intros H Hx.
  assert (Hs : did y = did x -> flag (cn y) closed = flag (cn x) closed -> close_inv y).
  { intros E1 E2. apply (close_inv_same x y []); try done. by rewrite app_nil_r. }
  assert (Hsub : forall f b evs, sub_change x y f b evs -> f <> closed ->
    List.filter is_close evs = [] -> List.filter is_lock evs = [] -> close_inv y).
  { intros f b evs E Hf F1 F2. pose proof (sub_change_flag _ _ _ _ _ closed E (not_eq_sym Hf)).
    destruct E as (E & _). by apply (close_inv_same x y evs). }
  destruct H; try (by apply Hs).
  - by apply (close_inv_same x _ [ev]); [..|destruct ev|destruct ev].
  - apply Hs; [done|]. apply put_flag. by intros <-.
  - destruct H as [_ E _ _ _ _]. apply Hs; [done|]. simpl. by rewrite E.
  - by apply close_inv_close.
  - destruct (sub_changes b x) as (E & _). by apply (Hsub _ _ _ E).
  - destruct (sub_changes b x) as (_ & E & _). by apply (Hsub _ _ _ E).
  - destruct (sub_changes b x) as (_ & _ & E & _). by apply (Hsub _ _ _ E).
  - destruct (sub_changes b x) as (_ & _ & _ & E & _). by apply (Hsub _ _ _ E).
  - destruct (sub_changes b x) as (_ & _ & _ & _ & E & _). by apply (Hsub _ _ _ E).
  - destruct (sub_changes b x) as (_ & _ & _ & _ & _ & E & _). by apply (Hsub _ _ _ E).
  - destruct (sub_changes b x) as (_ & _ & _ & _ & _ & _ & E). by apply (Hsub _ _ _ E).
  - destruct (server_frame (subscribe NAME_AUDIO (inner (cn x)) b) x) as (E1 & E2 & _).
    apply Hs; [done|]. unfold subscribe_to. by rewrite E2.
  - destruct (monitor_frame e x) as (E1 & _ & _ & _ & _ & E2). apply Hs; [done|]. by rewrite E2.
  - apply Hs; [done|]. apply put_flag. by destruct H0 as [-> | ->].
Qed.

Definition srv_inv (s : sess) : Prop := forall v, srv s = Some v -> srv_ok v.
Lemma srv_sub nm b x : srv_inv (cn x) -> srv_inv (cn (subscribe_to nm b x)).
Proof.
  intros H. destruct (srv (cn x)) as [v|] eqn:E.
  - rewrite (subscribe_to_some _ _ _ v E). intros w [= <-]. by apply subscribe_ok, H.
  - by rewrite subscribe_to_none.
Qed.
Lemma srv_prim A a x y : prim A a x y -> srv_inv (cn x) -> srv_inv (cn y).
Proof.
  intros H Hx. destruct H; try done.
  - destruct H as [_ _ _ _ _ E]. intros v. simpl. rewrite E. apply Hx.
  - intros w [= <-]. by apply (H0 (Hx v H)).
  - destruct (close_state lock x) as (_ & _ & _ & _ & E & _). intros v. rewrite E. apply Hx.
  - by repeat apply srv_sub.
  - unfold option_disable_audio, sub_audio. repeat case_match; try apply srv_sub; done.
  - by apply srv_sub.
  - by repeat apply srv_sub.
  - by repeat apply srv_sub.
  - by apply srv_sub.
  - unfold switch_audio, sub_audio. repeat case_match; try apply srv_sub; done.
  - by apply srv_sub.
  - destruct (is_remote (cn x) && negb (flag (cn x) services_subed)) eqn:Ec.
    + destruct (srv (cn x)) as [v|] eqn:Ev.
      * rewrite (monitor_some e x v Ec Ev). intros w [= <-]. apply add_connection_ok.
        by apply (calm_new 0 _ Monitor (primary e) v), Hx.
      * unfold try_sub_monitor_services. rewrite Ec. cbv zeta.
        change (srv (cn (put services_subed true x))) with (srv (cn x)). rewrite Ev. exact Hx.
    + unfold try_sub_monitor_services. by rewrite Ec.
  - intros w [= ->]. simpl in H0. destruct (srv (cn x)) as [u|] eqn:E; [|done]. by apply (H0 (Hx u E)).
Qed.

Lemma release_all ks x : let y := foldl (λ x k, emit (XKeyRelease k) x) (x : ctx) ks in
  cn y = cn x /\ did y = did x ++ map XKeyRelease ks.
Proof.
  cbv zeta. revert x. induction ks as [|k ks IH]; intros x; simpl; [by rewrite app_nil_r|].
  destruct (IH (emit (XKeyRelease k) x)) as [-> ->]. simpl. by rewrite <- app_assoc.
Qed.
Lemma count_emit p ev (x : ctx) : p ev = false -> count p (emit ev x) = count p x.
Proof. intros H. apply (count_same p x _ [ev]); [done|]. simpl. by rewrite H. Qed.
Lemma inv_emit ev x : is_close ev = false -> is_lock ev = false -> close_inv x -> close_inv (emit ev x).
Proof. intros H1 H2 H. apply (close_inv_same x _ [ev]); try done; simpl; [by rewrite H1|by rewrite H2]. Qed.
Lemma inv_put_close f b x : f <> closed -> close_inv x -> close_inv (put f b x).
Proof.
  intros Hf H. apply (close_inv_same x _ []); try done; [by rewrite app_nil_r|]. apply put_flag. congruence.
Qed.
Lemma inv_server g x : close_inv x -> close_inv (on_server g x).
Proof.
  intros H. destruct (server_frame g x) as (E1 & E2 & _). apply (close_inv_same x _ []); try done.
  - by rewrite E1, app_nil_r.
  - by rewrite E2.
Qed.

(** The part of [finish] before the keys are released. *)
Definition leave (e : senv) (x : ctx) : ctx :=
  let i := id (inner (cn x)) in
  let x := if bool_decide (privacy_conn e = Some i) then (turn_off_privacy_to_msg e i x).2 else x in
  let x := emit_if (flag (cn (emit (XFetched false) x)) authorized) XRotatePassword (emit (XFetched false) x) in
  let x := if flag (cn x) port_forward_socket
           then emit XRemoveSession (on_close false (put port_forward_socket false x)) else x in
  on_close true (on_server (remove_connection (inner (cn (emit (XAudit "close") x)))) (emit (XAudit "close") x)).
Lemma finish_leave e x : finish e x
  = upd (set_modifiers ∅) (foldl (λ x k, emit (XKeyRelease k) x) (leave e x) (elements (pressed_modifiers (cn (leave e x))))).
Proof. reflexivity. Qed.
Lemma leave_spec e x : close_inv x ->
  let y := leave e x in
  close_inv y /\ flag (cn y) closed = true /\ flag (cn y) port_forward_socket = false
  /\ inner (cn y) = inner (cn x) /\ pressed_modifiers (cn y) = pressed_modifiers (cn x)
  /\ srv (cn y) = match srv (cn x) with Some v => Some (remove_connection (inner (cn x)) v) | None => None end.
Proof.
  intros H. unfold leave. cbv zeta.
  set (x1 := if bool_decide _ then _ else x).
  assert (H1 : close_inv x1 /\ cn x1 = cn x) by (subst x1; case_match; [split; [by apply inv_emit|done]|done]).
  destruct H1 as [H1 E1]. clearbody x1.
  set (x2 := emit_if _ XRotatePassword _).
  assert (H2 : close_inv x2 /\ cn x2 = cn x1).
  { subst x2. unfold emit_if. case_match; split; try done; by repeat apply inv_emit. }
  destruct H2 as [H2 E2]. clearbody x2.
  set (x3 := if flag (cn x2) port_forward_socket then _ else _).
  assert (H3 : close_inv x3 /\ flag (cn x3) port_forward_socket = false /\ inner (cn x3) = inner (cn x2)
    /\ srv (cn x3) = srv (cn x2) /\ pressed_modifiers (cn x3) = pressed_modifiers (cn x2)).
  { subst x3. destruct (flag (cn x2) port_forward_socket) eqn:Ep; [|done].
    destruct (close_state false (put port_forward_socket false x2)) as (S1 & _ & _ & _ & S2 & S3 & _ & _ & S4).
    split; [apply inv_emit; [done|done|]; by apply close_inv_close, inv_put_close|].
    split; [|done]. change (flag (cn (on_close false (put port_forward_socket false x2))) port_forward_socket = false).
    destruct (flag (cn (put port_forward_socket false x2)) closed) eqn:Ec; [|by apply S4].
    unfold on_close. rewrite Ec. simpl. by rewrite fn_lookup_insert. }
  destruct H3 as (H3 & F3 & I3 & S3 & P3). clearbody x3.
  set (x4 := on_server _ (emit (XAudit "close") x3)).
  destruct (server_frame (remove_connection (inner (cn (emit (XAudit "close") x3)))) (emit (XAudit "close") x3))
    as (_ & F4 & _ & _ & _ & I4).
  assert (S4 : srv (cn x4) = match srv (cn x3) with Some v => Some (remove_connection (inner (cn x3)) v) | None => None end).
  { subst x4. unfold on_server, upd. simpl. by destruct (srv (cn x3)) eqn:Es. }
  assert (P4 : pressed_modifiers (cn x4) = pressed_modifiers (cn x3)).
  { subst x4. unfold on_server, upd. simpl. by destruct (srv (cn x3)) eqn:Es. }
  assert (H4 : close_inv x4) by (by apply inv_server, inv_emit).
  destruct (close_state true x4) as (I5 & _ & _ & _ & S5 & P5 & _ & C5 & F5).
  split; [by apply close_inv_close|]. split; [done|]. split.
  { destruct (flag (cn x4) closed) eqn:Ec; [|by apply F5]. unfold on_close. rewrite Ec. subst x4. by rewrite F4. }
  rewrite I5, S5, P5, S4, P4, P3, S3, I3, E2, E1. split; [|done]. subst x4. by rewrite I4, <- E1, <- E2, <- I3.
Qed.

(** C23: a connection ends once and gives back what it has on record: however it
    ended, by then the connection manager was told so exactly once and the screen
    was locked at most once, the connection is subscribed to no service, no port
    is forwarded, and every modifier key that a press put on record, and no later
    event took off it, was released.  Keys that went down by themselves are not on
    record. *)
Theorem session_closes_once i permission disp t inst (v : option (server (S := S))) l e :
  (forall w, v = Some w -> srv_ok w) ->
  let x := start i permission disp t inst v in
  run_ok l x ->
  let y := session one_way_clipboard one_way_file new_video l e x in
  count is_close y = 1%nat /\ (count is_lock y <= 1)%nat
  /\ flag (cn y) closed = true /\ flag (cn y) port_forward_socket = false
  /\ (forall w k, srv (cn y) = Some w -> subed w k (id (inner (cn y))) = false)
  /\ pressed_modifiers (cn y) = ∅
  /\ forall k, k ∈ pressed_modifiers (cn (run l x).2) -> In (XKeyRelease k) (did y).
Proof.
  cbv zeta. intros Hv Hok. unfold session. rewrite finish_leave.
  destruct (start_state i permission disp t inst v) as (E1 & E2 & _ & _ & E4 & E5).
  set (x := start i permission disp t inst v) in *. set (z := (run l x).2).
  assert (Hsrv : srv_inv (cn z)).
  { apply (run_inv (λ y, srv_inv (cn y)) (λ _, True)); [intros a u w; apply srv_prim|done|done|].
    intros w. rewrite E1. apply Hv. }
  assert (Hz : close_inv z).
  { apply (run_inv close_inv (λ _, True)); [intros a u w; apply close_prim|done|done|].
    assert (Hno : forall p, (forall q, p (SPermission q false) = false) -> count p x = 0%nat).
    { intros p Hp. unfold count. rewrite (proj2 (length_zero_iff_nil _)); [done|].
      destruct (List.filter p (did x)) as [|ev evs] eqn:Ef; [done|]. exfalso.
      assert (Hin : In ev (List.filter p (did x))) by (rewrite Ef; by left).
      apply List.filter_In in Hin as [Hin Hev]. destruct (E5 ev Hin) as [q ->]. by rewrite Hp in Hev. }
    unfold close_inv. rewrite E4 by (intros ?; set_solver). by rewrite !Hno. }
  destruct (leave_spec e z Hz) as ([C1 C2] & F1 & F2 & I1 & P1 & S1).
  destruct (release_all (elements (pressed_modifiers (cn (leave e z)))) (leave e z)) as [R1 R2].
  rewrite F1 in C1, C2.
  assert (Hcount : forall p, (forall k, p (XKeyRelease k) = false) -> forall ks,
    count p (upd (set_modifiers ∅) (foldl (λ x k, emit (XKeyRelease k) x) (leave e z) ks)) = count p (leave e z)).
  { intros p Hp ks. destruct (release_all ks (leave e z)) as [_ R]. apply (count_same _ _ _ (map XKeyRelease ks)); [exact R|].
    clear R. induction ks as [|k ks IH]; simpl; [done|]. by rewrite Hp. }
  rewrite !Hcount by done. split; [done|]. split; [done|].
  cbn [upd cn did set_modifiers flag srv inner pressed_modifiers]. rewrite R1, R2, F1, F2, S1, I1, P1. split; [done|]. split; [done|]. split; [|split; [done|]].
  - intros w k Hw. destruct (srv (cn z)) as [u|] eqn:Eu; [|done]. injection Hw as <-.
    rewrite remove_connection_subed by (by apply Hsrv). rewrite Z.eqb_refl. apply andb_false_r.
  - intros k Hk. apply in_or_app. right. apply in_map, list_elem_of_In, elem_of_elements. exact Hk.
Qed.
End spec.

(** ** Inputs *)
#[local] Existing Instance toy_messages.
Definition toy_jobs : ReadJobs := {|
  jobs := list Z; no_jobs := []; jobs_empty := λ l, match l with [] => true | _ => false end;
  push_job := cons; has_job := λ i l, existsb (Z.eqb i) l; confirm_job := λ _ l, l;
  remove_job := λ i l, if existsb (Z.eqb i) l then Some (retain (λ j, negb (i =? j)) l) else None;
  handle_jobs := λ l, ([], Ok true);
|}.
#[local] Existing Instance toy_jobs.
Definition toy_video (source : VideoSource) (d : Z) : toy_service := inl (new (get_service_name source d) true).
Lemma toy_video_ok source d : svc_good (toy_video source d) /\ svc_name (toy_video source d) = get_service_name source d.
Proof. split; [apply new_ok|done]. Qed.
Definition named (nm : string) : toy_service := inl (new nm false).
Definition office : server (S := toy_service) :=
  add_service (named NAME_CLIPBOARD) (add_service (named NAME_AUDIO) (add_service (named NAME_POS)
    (add_service (inr (new NAME_CURSOR true)) (empty_server 7)))).
Lemma office_ok : srv_ok office /\ forall k, In k followed -> subed office k 1 = false.
Proof.
  split; [unfold office, add_service; repeat apply ok_insert; try done; apply new_ok|].
  intros k Hk. repeat destruct Hk as [<-|Hk]; by vm_compute.
Qed.

Definition calm_day : senv := {|
  now := 5000; timestamp := 1700000000; from := mkPeer true false; primary := 0; camera_exists := true;
  screen := λ _, Some OrdinaryDisplay; display_changed := λ _ _, true; display_at := None;
  overlay_supported := true; win10 := true; privacy_supported := true; privacy_on := false; privacy_other := false;
  turn_on := Some (Ok true); privacy_err := EmptyString; privacy_on_after := false; turn_off := Some (Ok tt);
  sched_end := None; installed := true; portable_running := false; start_portable := None;
  uac_running := false; foreground_elevated := false; idd_supported := true; plug_in := None; plug_out := None;
  current_sid := None; sids := []; share_rdp := false; non_port_forward_conns := 1; terminal_answer := Some true;
  read_job := Ok 1%nat; count_limit := λ _, None; send_files_by_cm := true; recursive_files := Ok 1%nat;
  allow_auto_disconnect := false; auto_disconnect_timeout := None; remote_printing := true; privacy_conn := None;
  displays := Ok tt; dir_exists := λ _, true |}.
Definition no_options : OptionMessage :=
  mkOpt None 0 0 false TNotSet TNotSet TNotSet TNotSet TNotSet TNotSet TNotSet TNotSet TNotSet TNotSet TNotSet TNotSet.
Definition begin_at (p : Permission -> bool) := start (rj := toy_jobs) (mkInner 1 (Some 10) (Some 11)) p 0 0 true (Some office).
Definition day (l : list (input (S := toy_service))) : list (senv * input (S := toy_service)) := map (pair calm_day) l.
Abbreviation play l x := (run false false toy_video (day l) x).
Definition all (_ : Permission) : bool := true.

(** The customer lets a technician in, then takes the keyboard away. *)
Lemma subscriptions_follow_permissions_witness :
  let s := cn (play [ILetIn true false None; ICm (CmSwitchPermission "keyboard" false)] (begin_at all)).2 in
  (exists w, srv s = Some w /\ subed w NAME_AUDIO 1 = true /\ subed w NAME_CURSOR 1 = false)
  /\ forall w, srv s = Some w -> forall k, In k followed -> subed w k (id (inner s)) = true -> at_most false s k = true.
Proof.
  cbv zeta. split; [eexists; split; [vm_compute; reflexivity|vm_compute; done]|].
  intros w Hw k Hk.
  apply (subscriptions_follow_permissions false false toy_video toy_video_ok (mkInner 1 (Some 10) (Some 11)) all 0 0 true
           (Some office) (day [ILetIn true false None; ICm (CmSwitchPermission "keyboard" false)])).
  - intros v [= <-]. apply office_ok.
  - split; [exact I|]. intros _. split; [exact I|]. intros _. exact I.
  - vm_compute. reflexivity.
  - vm_compute. reflexivity.
  - exact Hw.
  - exact Hk.
Defined.


(** A file is asked for, cancelled, and a late block arrives. *)
Definition ask_file : message := MsgFileAction (FaSend 7 "C:/log.txt" false 0 false).
Lemma no_stale_blocks_witness :
  let x := (play [ILoginRequest (KFileTransfer EmptyString false) false; ILetIn true false None; IMsg ask_file;
                  ICm (CmFileBlock 7 0 1 false 1); IMsg (MsgFileAction (FaCancel 7))] (begin_at all)).2 in
  In (SBlock 7 0 1 false) (did x) /\ adds (λ ev, ~ block_of 7 ev) x (play [ICm (CmFileBlock 7 0 2 false 1)] x).2.
Proof.
  cbv zeta. split; [vm_compute; tauto|].
  apply (no_stale_blocks false false toy_video toy_video_ok 7 (day [ICm (CmFileBlock 7 0 2 false 1)])).
  - left. intros Hin. vm_compute in Hin. discriminate.
  - split; [exact I|]. intros _. exact I.
  - intros e j [[= <- <-]|[]] Hs. exact Hs.
Defined.

Lemma session_closes_once_witness :
  let l := day [ILetIn true false (Some no_options); IMsg (MsgKey (mkKey true false (Some 3) false false)); ICm CmClose] in
  let y := session false false toy_video l calm_day (begin_at all) in
  count is_close y = 1%nat /\ In (XKeyRelease 3) (did y).
Proof.
  cbv zeta.
  destruct (session_closes_once false false toy_video toy_video_ok (mkInner 1 (Some 10) (Some 11)) all 0 0 true (Some office)
    (day [ILetIn true false (Some no_options); IMsg (MsgKey (mkKey true false (Some 3) false false)); ICm CmClose]) calm_day)
    as (H & _ & _ & _ & _ & _ & Hk).
  - intros w [= <-]. apply office_ok.
  - split; [exact I|]. intros _. split; [exact I|]. intros _. split; [exact I|]. discriminate.
  - split; [exact H|]. apply Hk. vm_compute. reflexivity.
Defined.

(** A modifier that the peer holds down is not on record and stays down, while
    one that was pressed, and is up again by then, is released at the end. *)
Example held_modifier_stays_down :
  let l k := day [ILetIn true false (Some no_options); IMsg (MsgKey k); ICm CmClose] in
  let end_of k := did (session false false toy_video (l k) calm_day (begin_at all)) in
  In (IKey true false) (end_of (mkKey false true (Some 3) false false))
  /\ existsb (λ ev, match ev with XKeyRelease _ => true | _ => false end) (end_of (mkKey false true (Some 3) false false)) = false
  /\ In (XKeyRelease 3) (end_of (mkKey true false (Some 3) false false)).
Proof. vm_compute. tauto. Qed.
(** What the theorems do not exclude.  Toggling a permission of a connection
    that nobody let in subscribes it to the clipboard. *)
Example clipboard_before_consent :
  let s := cn (play [ICm (CmSwitchPermission "clipboard" true)] (begin_at all)).2 in
  flag s authorized = false /\ exists w, srv s = Some w /\ subed w NAME_CLIPBOARD 1 = true.
Proof. cbv zeta. split; [by vm_compute|]. eexists. split; [vm_compute; reflexivity|by vm_compute]. Qed.
(** The screen is blanked without the keyboard permission, which older peers
    need for it. *)
Example privacy_without_keyboard :
  In (XPrivacyOn "key") (did (play [ILetIn true false None; ICm (CmSwitchPermission "keyboard" false);
                                    IMsg (MsgMisc (MTogglePrivacyMode true "key"))] (begin_at all)).2).
Proof. vm_compute. tauto. Qed.
(** A camera connection keeps the clipboard that an option of its login
    subscribed it to. *)
Example camera_keeps_clipboard :
  let o := mkOpt None 0 0 false TNotSet TNotSet TNotSet TNotSet TNotSet TNotSet TNo TNotSet TNotSet TNotSet TNotSet TNotSet in
  let s := cn (play [ILoginRequest KViewCamera false; ILetIn true false (Some o)] (begin_at all)).2 in
  flag s keyboard = false /\ exists w, srv s = Some w /\ subed w NAME_CLIPBOARD 1 = true.
Proof. cbv zeta. split; [by vm_compute|]. eexists. split; [vm_compute; reflexivity|by vm_compute]. Qed.
(** A file session goes on after the file permission was taken away. *)
Example files_after_refusal :
  In (CFs (FsReadDir "C:/" true)) (did (play [ILoginRequest (KFileTransfer EmptyString false) false; ILetIn true false None;
    ICm (CmSwitchPermission "file" false); IMsg (MsgFileAction (FaReadDir "C:/" true))] (begin_at all)).2).
Proof. vm_compute. tauto. Qed.
End SessionSpec.
