(* ===== verification/Handler.v ===== *)
(** * The login handler of the controlling side ([src/src/client.rs])

    For each session to a register the technician's app keeps a
    [LoginConfigHandler]: whom it connects to, the stored configuration of that
    register, the password in use and where it came from.  This file translates
    it: reading the typed number, the options and their messages, the choice of
    the password when the register sends its salt, and what is remembered after
    the login.

    The configuration files, the codecs of their contents and of the stored
    address book, and the keyboard modes are code of [hbb_common]. *)

From Stdlib Require Import Ascii Strings.Byte.
From stdpp Require Import functions.
From S2P Require Import Prelude RustStr Store Service Server Session SessionSpec.
#[local] Open Scope Z_scope.

Module Handler.
Import Session(OptionMessage, mkOpt, tri, TUnknown, TNotSet, TYes, TNo).
Abbreviation bytes := (list byte).
#[local] Instance byte_eq : EqDecision byte := Byte.byte_eq_dec.

(** ** The stored configuration of a register *)

(** The fields that are switches, and those that are plain texts. *)
Inductive toggle :=
  | show_remote_cursor | follow_remote_cursor | follow_remote_window | disable_audio | disable_clipboard
  | lock_after_session_end | terminal_persistent | privacy_mode | enable_file_copy_paste | show_quality_monitor
  | allow_swap_key | view_only | show_my_cursor.
#[export] Instance toggle_eq_dec : EqDecision toggle.
Proof. solve_decision. Defined.
Inductive setting :=
  | view_style | keyboard_mode | reverse_mouse_wheel | displays_as_individual_windows
  | use_all_my_displays_for_the_remote_session | scroll_style | image_quality.
#[export] Instance setting_eq_dec : EqDecision setting.
Proof. solve_decision. Defined.

Record PeerInfoSerde := mkInfo { i_username : string; i_hostname : string; i_platform : string }.
Record PeerConfig := mkPeer {
  password : bytes; settings : setting -> string;
  edge_scroll_edge_thickness : Z; trackpad_speed : Z;
  toggles : toggle -> bool;
  options : gmap string string; ui_flutter : gmap string string;
  direct_failures : Z;
  custom_image_quality : list Z;
  custom_resolutions : gmap string (Z * Z);
  info : PeerInfoSerde;
}.
Definition set_password v c := mkPeer v (settings c) (edge_scroll_edge_thickness c) (trackpad_speed c) (toggles c)
  (options c) (ui_flutter c) (direct_failures c) (custom_image_quality c) (custom_resolutions c) (info c) .
Definition set_settings v c := mkPeer (password c) v (edge_scroll_edge_thickness c) (trackpad_speed c) (toggles c)
  (options c) (ui_flutter c) (direct_failures c) (custom_image_quality c) (custom_resolutions c) (info c) .
Definition set_edge_scroll_edge_thickness v c := mkPeer (password c) (settings c) v (trackpad_speed c) (toggles c)
  (options c) (ui_flutter c) (direct_failures c) (custom_image_quality c) (custom_resolutions c) (info c) .
Definition set_trackpad_speed v c := mkPeer (password c) (settings c) (edge_scroll_edge_thickness c) v (toggles c)
  (options c) (ui_flutter c) (direct_failures c) (custom_image_quality c) (custom_resolutions c) (info c) .
Definition set_toggles v c := mkPeer (password c) (settings c) (edge_scroll_edge_thickness c) (trackpad_speed c) v
  (options c) (ui_flutter c) (direct_failures c) (custom_image_quality c) (custom_resolutions c) (info c) .
Definition set_options v c := mkPeer (password c) (settings c) (edge_scroll_edge_thickness c) (trackpad_speed c)
  (toggles c) v (ui_flutter c) (direct_failures c) (custom_image_quality c) (custom_resolutions c) (info c) .
Definition set_ui_flutter v c := mkPeer (password c) (settings c) (edge_scroll_edge_thickness c) (trackpad_speed c)
  (toggles c) (options c) v (direct_failures c) (custom_image_quality c) (custom_resolutions c) (info c) .
Definition set_direct_failures v c := mkPeer (password c) (settings c) (edge_scroll_edge_thickness c)
  (trackpad_speed c) (toggles c) (options c) (ui_flutter c) v (custom_image_quality c) (custom_resolutions c)
  (info c) .
Definition set_custom_image_quality v c := mkPeer (password c) (settings c) (edge_scroll_edge_thickness c)
  (trackpad_speed c) (toggles c) (options c) (ui_flutter c) (direct_failures c) v (custom_resolutions c) (info c) .
Definition set_custom_resolutions v c := mkPeer (password c) (settings c) (edge_scroll_edge_thickness c)
  (trackpad_speed c) (toggles c) (options c) (ui_flutter c) (direct_failures c) (custom_image_quality c) v (info c)
  .
Definition set_info v c := mkPeer (password c) (settings c) (edge_scroll_edge_thickness c) (trackpad_speed c)
  (toggles c) (options c) (ui_flutter c) (direct_failures c) (custom_image_quality c) (custom_resolutions c) v.
Definition set_text (k : setting) (v : string) (c : PeerConfig) := set_settings (<[k := v]> (settings c)) c.
Definition set_toggle (t : toggle) (b : bool) (c : PeerConfig) := set_toggles (<[t := b]> (toggles c)) c.

(** [PeerConfig::load] and [store].  What was stored is read back, except that
    reading may add options that have a default. *)
Class PeerStore := {
  disk : Type;
  load : string -> disk -> PeerConfig;
  store : string -> PeerConfig -> disk -> disk;
  load_store_eq i c d : exists o, options c ⊆ o /\ load i (store i c d) = set_options o c;
  load_store_ne i j c d : i <> j -> load j (store i c d) = load j d;
}.

(** ** The handler *)
Inductive ConnType := DEFAULT_CONN | FILE_TRANSFER | PORT_FORWARD | RDP | VIEW_CAMERA | TERMINAL.
#[export] Instance ConnType_eq_dec : EqDecision ConnType.
Proof. solve_decision. Defined.
Inductive PasswordSource := PersonalAb (p : bytes) | SharedAb (p : string) | Undefined.
Record Hash := mkHash { salt : string; challenge : string }.
Record ConnToken := mkToken { t_password : bytes; t_source : PasswordSource; t_session : Z }.

Record handler := mkHandler {
  id : string; conn_type : ConnType; is_terminal_admin : bool;
  hash : Hash; h_password : bytes; remember : bool;
  config : PeerConfig;
  port_forward : string * Z; version : Z;
  features : option bool;                          (** [privacy_mode] of the features *)
  session_id : Z; supported_encoding : Z; restarting_remote_device : bool; force_relay : bool;
  direct : option bool; received : bool;
  switch_uuid : option string;
  other_server : option (string * string * string);
  custom_fps : option Z; adapter_luid : option Z; selected_windows_session_id : option Z;
  password_source : PasswordSource; shared_password : option string;
  record_state : bool; record_permission : bool;
}.
Definition set_id v h := mkHandler v (conn_type h) (is_terminal_admin h) (hash h) (h_password h) (remember h)
  (config h) (port_forward h) (version h) (features h) (session_id h) (supported_encoding h)
  (restarting_remote_device h) (force_relay h) (direct h) (received h) (switch_uuid h) (other_server h)
  (custom_fps h) (adapter_luid h) (selected_windows_session_id h) (password_source h) (shared_password h)
  (record_state h) (record_permission h) .
Definition set_conn_type v h := mkHandler (id h) v (is_terminal_admin h) (hash h) (h_password h) (remember h)
  (config h) (port_forward h) (version h) (features h) (session_id h) (supported_encoding h)
  (restarting_remote_device h) (force_relay h) (direct h) (received h) (switch_uuid h) (other_server h)
  (custom_fps h) (adapter_luid h) (selected_windows_session_id h) (password_source h) (shared_password h)
  (record_state h) (record_permission h) .
Definition set_is_terminal_admin v h := mkHandler (id h) (conn_type h) v (hash h) (h_password h) (remember h)
  (config h) (port_forward h) (version h) (features h) (session_id h) (supported_encoding h)
  (restarting_remote_device h) (force_relay h) (direct h) (received h) (switch_uuid h) (other_server h)
  (custom_fps h) (adapter_luid h) (selected_windows_session_id h) (password_source h) (shared_password h)
  (record_state h) (record_permission h) .
Definition set_hash v h := mkHandler (id h) (conn_type h) (is_terminal_admin h) v (h_password h) (remember h)
  (config h) (port_forward h) (version h) (features h) (session_id h) (supported_encoding h)
  (restarting_remote_device h) (force_relay h) (direct h) (received h) (switch_uuid h) (other_server h)
  (custom_fps h) (adapter_luid h) (selected_windows_session_id h) (password_source h) (shared_password h)
  (record_state h) (record_permission h) .
Definition set_h_password v h := mkHandler (id h) (conn_type h) (is_terminal_admin h) (hash h) v (remember h)
  (config h) (port_forward h) (version h) (features h) (session_id h) (supported_encoding h)
  (restarting_remote_device h) (force_relay h) (direct h) (received h) (switch_uuid h) (other_server h)
  (custom_fps h) (adapter_luid h) (selected_windows_session_id h) (password_source h) (shared_password h)
  (record_state h) (record_permission h) .
Definition set_remember v h := mkHandler (id h) (conn_type h) (is_terminal_admin h) (hash h) (h_password h) v
  (config h) (port_forward h) (version h) (features h) (session_id h) (supported_encoding h)
  (restarting_remote_device h) (force_relay h) (direct h) (received h) (switch_uuid h) (other_server h)
  (custom_fps h) (adapter_luid h) (selected_windows_session_id h) (password_source h) (shared_password h)
  (record_state h) (record_permission h) .
Definition set_config v h := mkHandler (id h) (conn_type h) (is_terminal_admin h) (hash h) (h_password h)
  (remember h) v (port_forward h) (version h) (features h) (session_id h) (supported_encoding h)
  (restarting_remote_device h) (force_relay h) (direct h) (received h) (switch_uuid h) (other_server h)
  (custom_fps h) (adapter_luid h) (selected_windows_session_id h) (password_source h) (shared_password h)
  (record_state h) (record_permission h) .
Definition set_port_forward v h := mkHandler (id h) (conn_type h) (is_terminal_admin h) (hash h) (h_password h)
  (remember h) (config h) v (version h) (features h) (session_id h) (supported_encoding h)
  (restarting_remote_device h) (force_relay h) (direct h) (received h) (switch_uuid h) (other_server h)
  (custom_fps h) (adapter_luid h) (selected_windows_session_id h) (password_source h) (shared_password h)
  (record_state h) (record_permission h) .
Definition set_version v h := mkHandler (id h) (conn_type h) (is_terminal_admin h) (hash h) (h_password h)
  (remember h) (config h) (port_forward h) v (features h) (session_id h) (supported_encoding h)
  (restarting_remote_device h) (force_relay h) (direct h) (received h) (switch_uuid h) (other_server h)
  (custom_fps h) (adapter_luid h) (selected_windows_session_id h) (password_source h) (shared_password h)
  (record_state h) (record_permission h) .
Definition set_features v h := mkHandler (id h) (conn_type h) (is_terminal_admin h) (hash h) (h_password h)
  (remember h) (config h) (port_forward h) (version h) v (session_id h) (supported_encoding h)
  (restarting_remote_device h) (force_relay h) (direct h) (received h) (switch_uuid h) (other_server h)
  (custom_fps h) (adapter_luid h) (selected_windows_session_id h) (password_source h) (shared_password h)
  (record_state h) (record_permission h) .
Definition set_session_id v h := mkHandler (id h) (conn_type h) (is_terminal_admin h) (hash h) (h_password h)
  (remember h) (config h) (port_forward h) (version h) (features h) v (supported_encoding h)
  (restarting_remote_device h) (force_relay h) (direct h) (received h) (switch_uuid h) (other_server h)
  (custom_fps h) (adapter_luid h) (selected_windows_session_id h) (password_source h) (shared_password h)
  (record_state h) (record_permission h) .
Definition set_supported_encoding v h := mkHandler (id h) (conn_type h) (is_terminal_admin h) (hash h)
  (h_password h) (remember h) (config h) (port_forward h) (version h) (features h) (session_id h) v
  (restarting_remote_device h) (force_relay h) (direct h) (received h) (switch_uuid h) (other_server h)
  (custom_fps h) (adapter_luid h) (selected_windows_session_id h) (password_source h) (shared_password h)
  (record_state h) (record_permission h) .
Definition set_restarting_remote_device v h := mkHandler (id h) (conn_type h) (is_terminal_admin h) (hash h)
  (h_password h) (remember h) (config h) (port_forward h) (version h) (features h) (session_id h)
  (supported_encoding h) v (force_relay h) (direct h) (received h) (switch_uuid h) (other_server h) (custom_fps h)
  (adapter_luid h) (selected_windows_session_id h) (password_source h) (shared_password h) (record_state h)
  (record_permission h) .
Definition set_force_relay v h := mkHandler (id h) (conn_type h) (is_terminal_admin h) (hash h) (h_password h)
  (remember h) (config h) (port_forward h) (version h) (features h) (session_id h) (supported_encoding h)
  (restarting_remote_device h) v (direct h) (received h) (switch_uuid h) (other_server h) (custom_fps h)
  (adapter_luid h) (selected_windows_session_id h) (password_source h) (shared_password h) (record_state h)
  (record_permission h) .
Definition set_direct v h := mkHandler (id h) (conn_type h) (is_terminal_admin h) (hash h) (h_password h)
  (remember h) (config h) (port_forward h) (version h) (features h) (session_id h) (supported_encoding h)
  (restarting_remote_device h) (force_relay h) v (received h) (switch_uuid h) (other_server h) (custom_fps h)
  (adapter_luid h) (selected_windows_session_id h) (password_source h) (shared_password h) (record_state h)
  (record_permission h) .
Definition set_received v h := mkHandler (id h) (conn_type h) (is_terminal_admin h) (hash h) (h_password h)
  (remember h) (config h) (port_forward h) (version h) (features h) (session_id h) (supported_encoding h)
  (restarting_remote_device h) (force_relay h) (direct h) v (switch_uuid h) (other_server h) (custom_fps h)
  (adapter_luid h) (selected_windows_session_id h) (password_source h) (shared_password h) (record_state h)
  (record_permission h) .
Definition set_switch_uuid v h := mkHandler (id h) (conn_type h) (is_terminal_admin h) (hash h) (h_password h)
  (remember h) (config h) (port_forward h) (version h) (features h) (session_id h) (supported_encoding h)
  (restarting_remote_device h) (force_relay h) (direct h) (received h) v (other_server h) (custom_fps h)
  (adapter_luid h) (selected_windows_session_id h) (password_source h) (shared_password h) (record_state h)
  (record_permission h) .
Definition set_other_server v h := mkHandler (id h) (conn_type h) (is_terminal_admin h) (hash h) (h_password h)
  (remember h) (config h) (port_forward h) (version h) (features h) (session_id h) (supported_encoding h)
  (restarting_remote_device h) (force_relay h) (direct h) (received h) (switch_uuid h) v (custom_fps h)
  (adapter_luid h) (selected_windows_session_id h) (password_source h) (shared_password h) (record_state h)
  (record_permission h) .
Definition set_custom_fps v h := mkHandler (id h) (conn_type h) (is_terminal_admin h) (hash h) (h_password h)
  (remember h) (config h) (port_forward h) (version h) (features h) (session_id h) (supported_encoding h)
  (restarting_remote_device h) (force_relay h) (direct h) (received h) (switch_uuid h) (other_server h) v
  (adapter_luid h) (selected_windows_session_id h) (password_source h) (shared_password h) (record_state h)
  (record_permission h) .
Definition set_adapter_luid v h := mkHandler (id h) (conn_type h) (is_terminal_admin h) (hash h) (h_password h)
  (remember h) (config h) (port_forward h) (version h) (features h) (session_id h) (supported_encoding h)
  (restarting_remote_device h) (force_relay h) (direct h) (received h) (switch_uuid h) (other_server h)
  (custom_fps h) v (selected_windows_session_id h) (password_source h) (shared_password h) (record_state h)
  (record_permission h) .
Definition set_selected_windows_session_id v h := mkHandler (id h) (conn_type h) (is_terminal_admin h) (hash h)
  (h_password h) (remember h) (config h) (port_forward h) (version h) (features h) (session_id h)
  (supported_encoding h) (restarting_remote_device h) (force_relay h) (direct h) (received h) (switch_uuid h)
  (other_server h) (custom_fps h) (adapter_luid h) v (password_source h) (shared_password h) (record_state h)
  (record_permission h) .
Definition set_password_source v h := mkHandler (id h) (conn_type h) (is_terminal_admin h) (hash h) (h_password h)
  (remember h) (config h) (port_forward h) (version h) (features h) (session_id h) (supported_encoding h)
  (restarting_remote_device h) (force_relay h) (direct h) (received h) (switch_uuid h) (other_server h)
  (custom_fps h) (adapter_luid h) (selected_windows_session_id h) v (shared_password h) (record_state h)
  (record_permission h) .
Definition set_shared_password v h := mkHandler (id h) (conn_type h) (is_terminal_admin h) (hash h) (h_password h)
  (remember h) (config h) (port_forward h) (version h) (features h) (session_id h) (supported_encoding h)
  (restarting_remote_device h) (force_relay h) (direct h) (received h) (switch_uuid h) (other_server h)
  (custom_fps h) (adapter_luid h) (selected_windows_session_id h) (password_source h) v (record_state h)
  (record_permission h) .
Definition set_record_state v h := mkHandler (id h) (conn_type h) (is_terminal_admin h) (hash h) (h_password h)
  (remember h) (config h) (port_forward h) (version h) (features h) (session_id h) (supported_encoding h)
  (restarting_remote_device h) (force_relay h) (direct h) (received h) (switch_uuid h) (other_server h)
  (custom_fps h) (adapter_luid h) (selected_windows_session_id h) (password_source h) (shared_password h) v
  (record_permission h) .
Definition set_record_permission v h := mkHandler (id h) (conn_type h) (is_terminal_admin h) (hash h) (h_password h)
  (remember h) (config h) (port_forward h) (version h) (features h) (session_id h) (supported_encoding h)
  (restarting_remote_device h) (force_relay h) (direct h) (received h) (switch_uuid h) (other_server h)
  (custom_fps h) (adapter_luid h) (selected_windows_session_id h) (password_source h) (shared_password h)
  (record_state h) v.

(** ** Texts *)

(** [to_lowercase], for a search of ASCII words: besides the capitals only the
    Kelvin sign has a lower case that is an ASCII letter by itself. *)
Fixpoint to_lowercase (s : string) : string :=
  match s with
  | EmptyString => EmptyString
  | String a s1 =>
      match s1 with
      | String b (String c r) =>
          if (byte_of a =? 0xE2) && (byte_of b =? 0x84) && (byte_of c =? 0xAA)
          then String "k"%char (to_lowercase r) else String (lower_char a) (to_lowercase s1)
      | _ => String (lower_char a) (to_lowercase s1)
      end
  end.
Fixpoint strip_suffix2 (s : string) : string :=
  match s with String a (String _ (String _ _ as r) as s1) => String a (strip_suffix2 s1) | _ => EmptyString end.
(** [handle_relay_id]: the number without the mark that asks for a relay. *)
Definition handle_relay_id (i : string) : string :=
  if ends_with "\r" i || ends_with "/r" i then strip_suffix2 i else i.
Definition nth_piece (n : nat) (c : Ascii.ascii) (s : string) : string := List.nth n (split c s) EmptyString.
(** [s.parse::<i32>()] *)
Definition parse_i32 (s : string) : option Z :=
  match s with
  | String "-"%char (String d _ as r) => if Ascii.eqb d "+"%char then None else option_map Z.opp (parse_uint (2 ^ 31) r)
  | _ => parse_uint (2 ^ 31 - 1) s
  end.
Definition i32_to_string (z : Z) : string := if z <? 0 then "-" +:+ to_string (- z) else to_string z.
(** The first character of a text in UTF-8: a byte and its continuation bytes. *)
Definition is_cont (c : Ascii.ascii) : bool := (0x80 <=? byte_of c) && (byte_of c <? 0xC0).
Fixpoint drop_while (p : Ascii.ascii -> bool) (s : string) : string :=
  match s with String c r => if p c then drop_while p r else s | EmptyString => EmptyString end.

(** ** The outside *)
Inductive KeyboardMode := Legacy | Map | Translate | Auto.
#[export] Instance KeyboardMode_eq_dec : EqDecision KeyboardMode.
Proof. solve_decision. Defined.
(** The account as the panel sent it: [avatar], [display_name] and [name]. *)
Record user := mkUser { u_avatar : option string; u_display_name : option string; u_name : option string }.
Record env := mkEnv {
  RS_PUB_KEY : string; use_ws : bool; is_proxy : bool; using_public_server : bool;
  option2bool : string -> string -> bool;
  token_parse : string -> option ConnToken; token_print : ConnToken -> option string;
  rand : Z; terminal_admin_var : bool;             (** the variable is ["Y"] *)
  get_version_number : string -> Z;
  KeyboardMode_iter : list KeyboardMode;
  mode_to_string : KeyboardMode -> string; mode_from_str : string -> option KeyboardMode;
  get_id : string; get_rendezvous_server : string; get_builtin_option : string -> string;
  get_api_server : string; user_info : option user; username : string; to_uppercase : string -> string;
  platform : string; VERSION : string; get_hwid : bytes;
  dirs_parse : string -> option (gmap string string); dirs_print : gmap string string -> string;
  access_token : string; ab_access_token : string;
  personal_ab : option (list (string * string));   (** the first personal book: numbers and hashes *)
  base64_decode : string -> option bytes; base64_encode : bytes -> string;
  uuid_parse : string -> option bytes;
  OPTION_AVATAR : string; OPTION_DISPLAY_NAME : string; OPTION_DEFAULT_CONNECT_PASSWORD : string;
  quality_low : Z; quality_balanced : Z; quality_best : Z;
}.

Record PeerInfo := mkPeerInfo {
  pi_version : string; pi_username : string; pi_hostname : string; pi_platform : string;
  pi_features : option bool; pi_encoding : option Z;
}.

(** What is asked of a register at the login. *)
Inductive login_union :=
  | LFileTransfer (dir : string) (show_hidden : bool) | LViewCamera | LPortForward (host : string) (port : Z)
  | LTerminal (service_id : string) | LNone.
Record LoginRequest := mkLogin {
  lr_username : string; lr_password : bytes; lr_my_id : string; lr_my_name : string; lr_my_platform : string;
  lr_option : option OptionMessage; lr_session_id : Z; lr_version : string;
  lr_os_login : string * string; lr_hwid : bytes; lr_avatar : string;
  lr_sched : option Z;                             (** the proposal of a window of access *)
  lr_union : login_union;
}.

(** What is shown and sent. *)
Inductive effect :=
  | MsgBox (msgtype title text link : string)
  | SendLogin (lr : LoginRequest)
  | SendSwitch (uuid : bytes) (lr : LoginRequest)
  | SyncPassword (i hash : string)
  | NoteDirect (i : string) (d : bool).

Section handler.
Context {ps : PeerStore} {sha : Sha256} (e : env).

Record world := mkWorld { hd : handler; files : disk; PENDING_SCHED : gmap string Z; out : list effect }.
Definition upd (f : handler -> handler) (w : world) : world := mkWorld (f (hd w)) (files w) (PENDING_SCHED w) (out w).
Definition emit (x : effect) (w : world) : world := mkWorld (hd w) (files w) (PENDING_SCHED w) (out w ++ [x]).

(** ** The configuration *)
Definition load_config (w : world) : PeerConfig := load (id (hd w)) (files w).
Definition save_config (c : PeerConfig) (w : world) : world :=
  mkWorld (set_config c (hd w)) (store (id (hd w)) c (files w)) (PENDING_SCHED w) (out w).
Definition get_option (h : handler) (k : string) : string := default EmptyString (options (config h) !! k).
(** Loading, changing and saving, as most operations do. *)
Definition edit (f : PeerConfig -> PeerConfig) (w : world) : world := save_config (f (load_config w)) w.
Definition set_option (k v : string) (w : world) : world :=
  if String.eqb v (get_option (hd w) k) then w else edit (λ c, set_options (<[k := v]> (options c)) c) w.
Definition save_view_style (v : string) : world -> world := edit (set_text view_style v).
Definition save_keyboard_mode (v : string) : world -> world := edit (set_text keyboard_mode v).
Definition save_reverse_mouse_wheel (v : string) : world -> world := edit (set_text reverse_mouse_wheel v).
Definition save_displays_as_individual_windows (v : string) : world -> world :=
  edit (set_text displays_as_individual_windows v).
Definition save_use_all_my_displays_for_the_remote_session (v : string) : world -> world :=
  edit (set_text use_all_my_displays_for_the_remote_session v).
Definition save_scroll_style (v : string) : world -> world := edit (set_text scroll_style v).
Definition save_edge_scroll_edge_thickness (v : Z) : world -> world := edit (set_edge_scroll_edge_thickness v).
Definition save_trackpad_speed (v : Z) : world -> world := edit (set_trackpad_speed v).
Definition save_ui_flutter (k v : string) : world -> world :=
  edit (λ c, set_ui_flutter (if is_empty v then delete k (ui_flutter c) else <[k := v]> (ui_flutter c)) c).
Definition get_ui_flutter (h : handler) (k : string) : string := default EmptyString (ui_flutter (config h) !! k).
Definition get_custom_resolution (h : handler) (display : Z) : option (Z * Z) :=
  custom_resolutions (config h) !! i32_to_string display.
Definition set_custom_resolution (display : Z) (wh : option (Z * Z)) : world -> world :=
  edit (λ c, set_custom_resolutions
    (match wh with
     | Some r => <[i32_to_string display := r]> (custom_resolutions c)
     | None => delete (i32_to_string display) (custom_resolutions c)
     end) c).
Definition should_auto_login (h : handler) : string :=
  let l := toggles (config h) lock_after_session_end in
  let a := negb (is_empty (get_option h "auto-login")) in
  let p := get_option h "os-password" in
  if negb (is_empty p) && l && a then p else EmptyString.
Definition get_username (h : handler) (pi : PeerInfo) : string :=
  if is_empty (pi_username pi) then i_username (info (config h)) else pi_username pi.
Definition is_privacy_mode_supported (h : handler) : bool :=
  match features h with Some b => b | None => false end.

(** The proposals waiting for a connection. *)
Definition set_pending_sched (i : string) (p : Z) (w : world) : world :=
  mkWorld (hd w) (files w) (<[i := p]> (PENDING_SCHED w)) (out w).
Definition get_pending_sched (i : string) (w : world) : option Z := PENDING_SCHED w !! i.
Definition clear_pending_sched (i : string) (w : world) : world :=
  mkWorld (hd w) (files w) (delete i (PENDING_SCHED w)) (out w).
Definition clear_cr_sched_req (w : world) : world := clear_pending_sched (id (hd w)) w.

(** ** Starting a session *)
Definition PUBLIC_SERVER : string := "public".

(** The arguments after the question mark; of several the last one counts. *)
Definition args_map (args : string) : gmap string string :=
  foldl (λ m arg, match split_once "="%char arg with Some (k, v) => <[to_lowercase k := v]> m | None => m end)
    ∅ (split "&"%char args).
(** What was typed: the number, whether it asks for a relay, another server. *)
Definition parse_id (i : string) (force_relay : bool) : string * bool * option (string * string * string) :=
  if contains "@" i then
    let raw_id := nth_piece 0 "@"%char i in
    let rest := nth_piece 1 "@"%char i in
    let server := nth_piece 0 "?"%char rest in
    let key := if String.eqb server PUBLIC_SERVER then RS_PUB_KEY e
               else default EmptyString (args_map (nth_piece 1 "?"%char rest) !! "key") in
    let real_id := handle_relay_id raw_id in
    (real_id +:+ "@" +:+ server, force_relay || negb (String.eqb real_id raw_id), Some (real_id, server, key))
  else
    let real_id := handle_relay_id i in
    (real_id, force_relay || negb (String.eqb real_id i), None).

Definition initialize (typed : string) (ct : ConnType) (switch : option string) (relay : bool)
    (luid : option Z) (shared : option string) (conn_token : option string) (w : world) : world :=
  let '(i, relay, other) := parse_id typed relay in
  let w := upd (λ h, set_conn_type ct (set_id i (match other with Some _ => set_other_server other h | None => h end))) w in
  let c := load_config w in
  let w := upd (λ h, set_config c (set_remember (match password c with [] => false | _ => true end) h)) w in
  let token := match conn_token with Some t => token_parse e t | None => None end in
  let w := match token with
           | Some t => upd (λ h, set_password_source (t_source t) (set_h_password (t_password t) h)) w
           | None => w
           end in
  let sid := match token with Some t => t_session t | None => 0 end in
  let sid := if sid =? 0 then (if rand e =? 0 then 1 else rand e) else sid in
  upd (λ h,
    let h := set_restarting_remote_device false (set_supported_encoding 0 (set_session_id sid h)) in
    let h := set_force_relay (option2bool e "force-always-relay" (get_option h "force-always-relay")
                              || relay || use_ws e || is_proxy e) h in
    let h := match other_server h with
             | Some (real_id, server, key) =>
                 let k := get_option h "other-server-key" in
                 if negb (is_empty k) && is_empty key then set_other_server (Some (real_id, server, k)) h else h
             | None => h
             end in
    let h := set_switch_uuid switch (set_received false (set_direct None h)) in
    let h := set_shared_password shared (set_selected_windows_session_id None (set_adapter_luid luid h)) in
    let h := set_record_permission true (set_record_state false h) in
    set_is_terminal_admin (bool_decide (ct = TERMINAL) && terminal_admin_var e) h) w.

(** ** Options of the session *)

(** The switches of an [OptionMessage]. *)
Inductive bool_option :=
  | BLock | BCursor | BFollowCursor | BFollowWindow | BAudio | BFile | BClipboard | BKeyboard | BPrivacy
  | BBlock | BTerminal | BMyCursor.
#[local] Instance bool_option_eq_dec : EqDecision bool_option.
Proof. solve_decision. Defined.
Record option_draft := mkDraft { d_quality : Z; d_custom_quality : Z; d_fps : Z; d_decoding : bool; d_switch : bool_option -> tri }.
Definition message_of (d : option_draft) : OptionMessage :=
  let f := d_switch d in
  mkOpt (Some (d_quality d)) (d_custom_quality d) (d_fps d) (d_decoding d) (f BLock) (f BCursor) (f BFollowCursor)
    (f BFollowWindow) (f BAudio) (f BFile) (f BClipboard) (f BKeyboard) (f BPrivacy) (f BBlock) (f BTerminal) (f BMyCursor).
Definition switches (f : bool_option -> tri) : OptionMessage := message_of (mkDraft 0 0 0 false f).
Definition not_set : bool_option -> tri := λ _, TNotSet.
Definition yes_no (b : bool) : tri := if b then TYes else TNo.

Definition toggle_named (name : string) : option toggle :=
  if String.eqb name "show-remote-cursor" then Some show_remote_cursor
  else if String.eqb name "lock-after-session-end" then Some lock_after_session_end
  else if String.eqb name "terminal-persistent" then Some terminal_persistent
  else if String.eqb name "privacy-mode" then Some privacy_mode
  else if String.eqb name "enable-file-copy-paste" then Some enable_file_copy_paste
  else if String.eqb name "disable-audio" then Some disable_audio
  else if String.eqb name "disable-clipboard" then Some disable_clipboard
  else if String.eqb name "show-quality-monitor" then Some show_quality_monitor
  else if String.eqb name "allow_swap_key" then Some allow_swap_key
  else if String.eqb name "view-only" then Some view_only
  else if String.eqb name "show-my-cursor" then Some show_my_cursor
  else if String.eqb name "follow-remote-cursor" then Some follow_remote_cursor
  else if String.eqb name "follow-remote-window" then Some follow_remote_window
  else None.
Definition get_toggle_option (h : handler) (name : string) : bool :=
  match toggle_named name with
  | Some t => toggles (config h) t
  | None => negb (is_empty (get_option h name))
  end.

(** The switch of the message that a switch of the configuration goes with. *)
Definition sent_as (t : toggle) : option bool_option :=
  match t with
  | show_remote_cursor => Some BCursor | follow_remote_cursor => Some BFollowCursor
  | follow_remote_window => Some BFollowWindow | disable_audio => Some BAudio | disable_clipboard => Some BClipboard
  | lock_after_session_end => Some BLock | terminal_persistent => Some BTerminal
  | enable_file_copy_paste => Some BFile | show_my_cursor => Some BMyCursor
  | privacy_mode | show_quality_monitor | allow_swap_key | view_only => None
  end.
Definition view_only_on : bool_option -> tri :=
  <[BKeyboard := TYes]> (<[BClipboard := TYes]> (<[BCursor := TYes]> (<[BFile := TNo]> (<[BLock := TNo]> not_set)))).
(** The settings that come back with the keyboard; [h] as before the change. *)
Definition view_only_off (h : handler) : bool_option -> tri :=
  <[BKeyboard := TNo]> (<[BClipboard := yes_no (get_toggle_option h "disable-clipboard")]>
    (<[BCursor := yes_no (get_toggle_option h "show-remote-cursor")]>
      (<[BFile := yes_no (toggles (config h) enable_file_copy_paste)]>
        (<[BLock := yes_no (toggles (config h) lock_after_session_end)]> not_set)))).
Definition flip (t : toggle) (c : PeerConfig) : PeerConfig := set_toggle t (negb (toggles c t)) c.

Definition toggle_option (name : string) (w : world) : option OptionMessage * world :=
  let c := load_config w in
  match toggle_named name with
  | Some privacy_mode =>
      (Some (switches (<[BPrivacy := yes_no (negb (toggles c privacy_mode))]> not_set)), save_config c w)
  | Some view_only =>
      let c := flip view_only c in
      if toggles c view_only then (Some (switches view_only_on), save_config c w)
      else
        let f := view_only_off (hd w) in
        if toggles c show_my_cursor
        then (Some (switches (<[BMyCursor := TNo]> f)), save_config (set_toggle show_my_cursor false c) w)
        else (Some (switches f), save_config c w)
  | Some t =>
      let c := flip t c in
      (Some (switches (match sent_as t with Some o => <[o := yes_no (toggles c t)]> not_set | None => not_set end)),
       save_config c w)
  | None =>
      if String.eqb name "block-input" then (Some (switches (<[BBlock := TYes]> not_set)), w)
      else if String.eqb name "unblock-input" then (Some (switches (<[BBlock := TNo]> not_set)), w)
      else
        let is_set := match options (config (hd w)) !! name with Some o => negb (is_empty o) | None => false end in
        let o := if is_set then delete name (options (config (hd w))) else <[name := "Y"]> (options (config (hd w))) in
        let c := set_options o (config (hd w)) in
        (None, mkWorld (set_config c (hd w)) (store (id (hd w)) c (files w)) (PENDING_SCHED w) (out w))
  end.

Definition get_image_quality_enum (q : string) (ignore_default : bool) : option Z :=
  if String.eqb q "low" then Some (quality_low e)
  else if String.eqb q "best" then Some (quality_best e)
  else if String.eqb q "balanced" then (if ignore_default then None else Some (quality_balanced e))
  else None.
(** [q << 8] on 32 bits. *)
Definition shl8 (q : Z) : Z := Int.to_signed 32 (Z.shiftl q 8).

(** The choice of quality within the options of the login; the second result is
    the frame rate the session notes. *)
Definition quality_options (ignore_default : bool) (w : world) : option_draft * option Z :=
  let h := hd w in
  let q := settings (config h) image_quality in
  match get_image_quality_enum q ignore_default with
  | Some q => (mkDraft q 0 0 false not_set, None)
  | None =>
      if String.eqb q "custom" then
        let allow_more := negb (using_public_server e) || bool_decide (direct h = Some true) in
        let quality := match custom_image_quality (load_config w) with
                       | [] => 50
                       | q :: _ => if negb allow_more && (q >? 100) then 50 else q
                       end in
        match options (config h) !! "custom-fps" with
        | Some fps =>
            let fps := default 30 (parse_i32 fps) in
            let fps := if negb allow_more && (fps >? 30) then 30 else fps in
            (mkDraft 0 (shl8 quality) fps false not_set, Some (Int.wrap 64 fps))
        | None => (mkDraft 0 (shl8 quality) 0 false not_set, None)
        end
      else (mkDraft 0 0 0 false not_set, None)
  end.
Definition set_if (b : bool) (o : bool_option) (f : bool_option -> tri) : bool_option -> tri :=
  if b then <[o := TYes]> f else f.
Definition switch_options (h : handler) : bool_option -> tri :=
  let vo := get_toggle_option h "view-only" in
  let f := set_if vo BKeyboard not_set in
  let f := set_if (vo || get_toggle_option h "show-remote-cursor") BCursor f in
  let f := set_if (vo && get_toggle_option h "show-my-cursor") BMyCursor f in
  let f := set_if (get_toggle_option h "follow-remote-cursor") BFollowCursor f in
  let f := set_if (get_toggle_option h "follow-remote-window") BFollowWindow f in
  let f := set_if (negb vo && get_toggle_option h "lock-after-session-end") BLock f in
  let f := set_if (get_toggle_option h "disable-audio") BAudio f in
  let f := set_if (negb vo && get_toggle_option h "enable-file-copy-paste") BFile f in
  set_if (vo || get_toggle_option h "disable-clipboard") BClipboard f.
Definition get_option_message (ignore_default : bool) (w : world) : option OptionMessage * world :=
  let h := hd w in
  match conn_type h with
  | PORT_FORWARD | RDP | FILE_TRANSFER => (None, w)
  | TERMINAL =>
      (if get_toggle_option h "terminal-persistent" then Some (switches (<[BTerminal := TYes]> not_set)) else None, w)
  | DEFAULT_CONN | VIEW_CAMERA =>
      let '(d, fps) := quality_options ignore_default w in
      let w := match fps with Some f => upd (set_custom_fps (Some f)) w | None => w end in
      (Some (message_of (mkDraft (d_quality d) (d_custom_quality d) (d_fps d) true (switch_options h))), w)
  end.

Definition save_custom_image_quality (q : Z) (w : world) : OptionMessage * world :=
  (message_of (mkDraft 0 (shl8 q) 0 false not_set),
   edit (λ c, set_custom_image_quality [q] (set_text image_quality "custom" c)) w).
Definition save_image_quality (value : string) (w : world) : option OptionMessage * world :=
  (match get_image_quality_enum value false with
   | Some q => Some (message_of (mkDraft q 0 0 false not_set))
   | None => None
   end, edit (set_text image_quality value) w).
Definition set_fps (fps : Z) (save : bool) (w : world) : OptionMessage * world :=
  let w := if save then edit (λ c, set_options (<["custom-fps" := i32_to_string fps]> (options c)) c) w else w in
  (message_of (mkDraft 0 0 fps false not_set), upd (set_custom_fps (Some (Int.wrap 64 fps))) w).

(** ** Logging in *)
Definition is_personal_ab (s : PasswordSource) (p : bytes) : bool :=
  match p, s with _ :: _, PersonalAb q => bool_decide (q = p) | _, _ => false end.
(** [Sha256(p ++ s)] *)
Definition sha2 (p : bytes) (s : string) : bytes :=
  sha_bytes (sha_update (sha_update sha_new p) (String.list_byte_of_string s)).
Definition salted (p : string) (hs : Hash) : bytes := sha2 (String.list_byte_of_string p) (salt hs).
Definition is_shared_ab (s : PasswordSource) (p : bytes) (hs : Hash) : bool :=
  match p, s with _ :: _, SharedAb q => bool_decide (p = salted q hs) | _, _ => false end.

Definition get_conn_token (h : handler) : option string :=
  match h_password h with
  | [] => None
  | p => token_print e (mkToken p (password_source h) (session_id h))
  end.
Definition get_key_terminal_service_id (h : handler) : string :=
  if is_terminal_admin h then "terminal-admin-service-id" else "terminal-service-id".
Definition remote_dirs (h : handler) : gmap string string := default ∅ (dirs_parse e (get_option h "remote_dir")).
Definition get_remote_dir (h : handler) : string :=
  default EmptyString (remote_dirs h !! i_username (info (config h))).
Definition get_all_remote_dir (h : handler) (path : string) : string :=
  let u := i_username (info (config h)) in
  dirs_print e (if is_empty path then delete u (remote_dirs h) else <[u := path]> (remote_dirs h)).

Definition resolve_avatar_url (avatar : string) : string :=
  let avatar := trim avatar in
  if starts_with "/" avatar && negb (is_empty (get_api_server e))
  then trim_end_char "/"%char (get_api_server e) +:+ avatar else avatar.
Definition get_avatar : string :=
  let a := get_builtin_option e (OPTION_AVATAR e) in
  resolve_avatar_url
    (if is_empty a then match user_info e with Some u => trim (default EmptyString (u_avatar u)) | None => EmptyString end
     else a).
(** A word with its first character in capitals. *)
Definition capital (word : string) : string :=
  match word with
  | EmptyString => EmptyString
  | String c r => to_uppercase e (String c (take_while is_cont r)) +:+ drop_while is_cont r
  end.
Definition display_name : string :=
  let n := get_builtin_option e (OPTION_DISPLAY_NAME e) in
  let n := if is_empty n then
             match user_info e with
             | Some u =>
                 let d := trim (default EmptyString (u_display_name u)) in
                 if is_empty d then default EmptyString (u_name u) else d
             | None => EmptyString
             end
           else n in
  let n := if is_empty n then username e else n in
  String.concat " " (map capital (split_whitespace n)).
Definition create_login_msg (os_username os_password : string) (password : bytes) (w : world) : LoginRequest * world :=
  let h := hd w in
  let '(my_id, pure_id) :=
    match other_server h with
    | Some (i, _, _) => (get_id e +:+ "@" +:+ get_rendezvous_server e, i)
    | None => (get_id e, id h)
    end in
  let hwid := if String.eqb (get_option h "trust-this-device") "Y" then get_hwid e else [] in
  let '(o, w) := get_option_message true w in
  let u := match conn_type h with
           | FILE_TRANSFER => LFileTransfer (get_remote_dir h) (negb (is_empty (get_option h "remote_show_hidden")))
           | VIEW_CAMERA => LViewCamera
           | PORT_FORWARD | RDP => LPortForward (port_forward h).1 (port_forward h).2
           | TERMINAL => LTerminal (get_option h (get_key_terminal_service_id h))
           | DEFAULT_CONN => LNone
           end in
  (mkLogin pure_id password my_id display_name (platform e) o (session_id h) (VERSION e) (os_username, os_password)
     hwid get_avatar (get_pending_sched (id h) w) u, w).
Definition send_login (os_username os_password : string) (password : bytes) (w : world) : world :=
  let '(lr, w) := create_login_msg os_username os_password password w in emit (SendLogin lr) w.
Definition send_switch_login_request (uuid : bytes) (w : world) : world :=
  let '(lr, w) := create_login_msg EmptyString EmptyString [] w in emit (SendSwitch uuid lr) w.

(** The stored password of the technician's own address book. *)
Definition try_get_password_from_personal_ab (p : bytes) (w : world) : bytes * world :=
  if negb (is_empty (access_token e)) && String.eqb (access_token e) (ab_access_token e) then
    match personal_ab e with
    | Some peers =>
        match List.find (λ x, String.eqb x.1 (id (hd w))) peers with
        | Some x =>
            match base64_decode e x.2 with
            | Some ((_ :: _) as q) => (q, upd (set_password_source (PersonalAb q)) w)
            | _ => (p, w)
            end
        | None => (p, w)
        end
    | None => (p, w)
    end
  else (p, w).

(** The choice of the password for the login; each step of [handle_hash] looks at
    what the steps before found. *)
Definition preset (password_preset : string) (hs : Hash) (x : bytes * world) : bytes * world :=
  match x with
  | ([], w) => if is_empty password_preset then ([], w)
               else (salted password_preset hs, upd (set_password_source Undefined) w)
  | x => x
  end.
Definition shared (hs : Hash) (x : bytes * world) : bytes * world :=
  let '(p, w) := x in
  let s := shared_password (hd w) in
  let w := upd (set_shared_password None) w in
  match s with
  | Some s => if is_empty s then (p, w) else (salted s hs, upd (set_password_source (SharedAb s)) w)
  | None => (p, w)
  end.
Definition stored (x : bytes * world) : bytes * world :=
  match x with
  | ([], w) => match password (config (hd w)) with
               | [] => ([], w)
               | p => (p, upd (set_password_source Undefined) w)
               end
  | x => x
  end.
Definition personal (x : bytes * world) : bytes * world :=
  match x with ([], w) => try_get_password_from_personal_ab [] w | x => x end.
Definition builtin (hs : Hash) (x : bytes * world) : bytes * world :=
  match x with
  | ([], w) =>
      let p := get_builtin_option e (OPTION_DEFAULT_CONNECT_PASSWORD e) in
      if is_empty p then ([], w) else (salted p hs, upd (set_password_source (SharedAb p)) w)
  | x => x
  end.
Definition chosen (password_preset : string) (hs : Hash) (w : world) : bytes * world :=
  builtin hs (personal (stored (shared hs (preset password_preset hs (h_password (hd w), w))))).

Definition handle_hash (password_preset : string) (hs : Hash) (w : world) : world :=
  let w := upd (set_hash hs) w in
  let uuid := switch_uuid (hd w) in
  let w := upd (set_switch_uuid None) w in
  match (match uuid with Some u => uuid_parse e u | None => None end) with
  | Some u => upd (set_password_source Undefined) (send_switch_login_request u w)
  | None =>
      let '(p, w) := chosen password_preset hs w in
      let w := upd (set_h_password p) w in
      let is_terminal := bool_decide (conn_type (hd w) = TERMINAL) in
      if is_terminal && is_terminal_admin (hd w) then
        let w := emit (MsgBox (match p with [] => "terminal-admin-login-password" | _ => "terminal-admin-login" end)
                         EmptyString EmptyString EmptyString) w in
        upd (set_hash hs) w
      else
        let '(p, w) := match p with
                       | [] => ([], emit (MsgBox "input-password-pending" "Password Required" EmptyString EmptyString) w)
                       | _ => (sha2 p (challenge hs), w)
                       end in
        let '(os_username, os_password) :=
          if is_terminal then (EmptyString, EmptyString)
          else (get_option (hd w) "os-username", get_option (hd w) "os-password") in
        upd (set_hash hs) (send_login os_username os_password p w)
  end.

Definition handle_login_from_ui (os_username os_password pw : string) (rem : bool) (w : world) : world :=
  let '(p, w) :=
    if is_empty pw then
      match h_password (hd w) with
      | [] => match password (config (hd w)) with
              | [] => ([], w)
              | p => (p, upd (set_password_source Undefined) w)
              end
      | p => (p, w)
      end
    else (salted pw (hash (hd w)), upd (λ h, set_remember rem (set_password_source Undefined h)) w) in
  let w := upd (set_h_password p) w in
  send_login os_username os_password (sha2 p (challenge (hash (hd w)))) w.

(** ** After the login *)
Definition PLATFORM_ANDROID : string := "Android".
Definition is_keyboard_mode_supported (m : KeyboardMode) (version_number : Z) (peer_platform : string) : bool :=
  match m with
  | Legacy => true
  | Map => if String.eqb (to_lowercase peer_platform) (to_lowercase PLATFORM_ANDROID) then false
           else get_version_number e "1.2.0" <=? version_number
  | Translate | Auto => get_version_number e "1.2.0" <=? version_number
  end.
Definition get_supported_keyboard_modes (v : Z) (peer_platform : string) : list KeyboardMode :=
  List.filter (λ m, is_keyboard_mode_supported m v peer_platform) (KeyboardMode_iter e).
Definition chosen_keyboard_mode (pi : PeerInfo) (c : PeerConfig) : PeerConfig :=
  let v := get_version_number e (pi_version pi) in
  let current := settings c keyboard_mode in
  if is_empty current then
    set_text keyboard_mode (mode_to_string e (if is_keyboard_mode_supported Map v (pi_platform pi) then Map else Legacy)) c
  else if bool_decide (default Legacy (mode_from_str e current) ∈ get_supported_keyboard_modes v (pi_platform pi)) then c
  else set_text keyboard_mode (mode_to_string e Legacy) c.
(** The password that the configuration keeps. *)
Definition remembered (h : handler) (c : PeerConfig) : PeerConfig :=
  let p := h_password h in
  if remember h then
    match p with
    | [] => c
    | _ => if negb (bool_decide (p = password c)) && negb (is_shared_ab (password_source h) p (hash h))
           then set_password p c else c
    end
  else if is_personal_ab (password_source h) p then set_password p c
  else set_password [] c.
Definition handle_peer_info (pi : PeerInfo) (w : world) : world :=
  let w := upd (λ h, set_features (pi_features pi)
                       (if is_empty (pi_version pi) then h else set_version (get_version_number e (pi_version pi)) h)) w in
  let h := hd w in
  let c := set_info (mkInfo (pi_username pi) (pi_hostname pi) (pi_platform pi)) (load_config w) in
  let c := remembered h c in
  let c := match other_server h with
           | Some (_, b, k) => if String.eqb b PUBLIC_SERVER then c
                               else set_options (<["other-server-key" := k]> (options c)) c
           | None => c
           end in
  let c := if force_relay h then set_options (<["force-always-relay" := "Y"]> (options c)) c else c in
  let w := match password c with
           | [] => w
           | p => if negb (is_shared_ab (password_source h) (h_password h) (hash h))
                     && negb (is_personal_ab (password_source h) (h_password h))
                  then emit (SyncPassword (id h) (base64_encode e p)) w else w
           end in
  let w := save_config (chosen_keyboard_mode pi c) w in
  upd (set_supported_encoding (default 0 (pi_encoding pi))) w.

(** ** Errors *)
Definition LOGIN_MSG_PASSWORD_EMPTY : string := "Empty Password".
Definition LOGIN_MSG_PASSWORD_WRONG : string := "Wrong Password".
Definition LOGIN_MSG_2FA_WRONG : string := "Wrong 2FA Code".
Definition REQUIRE_2FA : string := "2FA Required".
Definition SCRAP_X11_REQUIRED : string := "x11 expected".
Definition SCRAP_X11_REF_URL : string := "https://rustdesk.com/docs/en/manual/linux/#x11-required".
Record LoginErrorMsgBox := mkBox { b_msgtype : string; b_title : string; b_text : string; b_link : string; try_again : bool }.
Definition LOGIN_ERROR_MAP (headless_link : string) : list (string * LoginErrorMsgBox) :=
  [("Wayland login screen is not supported",
    mkBox "error" "Login Error" "Login screen using Wayland is not supported"
      "https://rustdesk.com/docs/en/manual/linux/#login-screen" true);
   ("Desktop session not ready", mkBox "session-login" EmptyString EmptyString EmptyString true);
   ("Desktop xsession failed", mkBox "session-re-login" EmptyString EmptyString EmptyString true);
   ("Desktop session another user login",
    mkBox "info-nocancel" "another_user_login_title_tip" "another_user_login_text_tip" EmptyString false);
   ("Desktop xorg not found", mkBox "info-nocancel" "xorg_not_found_title_tip" "xorg_not_found_text_tip" headless_link true);
   ("Desktop none", mkBox "info-nocancel" "no_desktop_title_tip" "no_desktop_text_tip" headless_link true);
   ("Desktop session not ready, password empty", mkBox "session-login-password" EmptyString EmptyString EmptyString true);
   ("Desktop session not ready, password wrong", mkBox "session-login-re-password" EmptyString EmptyString EmptyString true);
   ("No Password Access",
    mkBox "wait-remote-accept-nook" "Prompt" "Please wait for the remote side to accept your session request..." EmptyString true);
   ("No Password Access Locked",
    mkBox "wait-remote-accept-nook" "Prompt"
      "The remote screen is locked. Please ask the person to press any key to unlock it, then click Accept." EmptyString true)].
Definition handle_login_error (headless_link err : string) (w : world) : bool * world :=
  if String.eqb err LOGIN_MSG_PASSWORD_EMPTY then
    (true, emit (MsgBox "input-password" "Password Required" EmptyString EmptyString) (upd (set_h_password []) w))
  else if String.eqb err LOGIN_MSG_PASSWORD_WRONG then
    (true, emit (MsgBox "re-input-password" err "Do you want to enter again?" EmptyString) (upd (set_h_password []) w))
  else if String.eqb err LOGIN_MSG_2FA_WRONG || String.eqb err REQUIRE_2FA then
    let w := if String.eqb (get_option (hd w) "trust-this-device") "Y"
             then set_option "trust-this-device" EmptyString w else w in
    (true, emit (MsgBox "input-2fa" err EmptyString EmptyString) w)
  else match List.find (λ x, String.eqb x.1 err) (LOGIN_ERROR_MAP headless_link) with
       | Some (_, b) => (try_again b, emit (MsgBox (b_msgtype b) (b_title b) (b_text b) (b_link b)) w)
       | None =>
           (false, emit (MsgBox "error" "Login Error" err
                           (if contains SCRAP_X11_REQUIRED err then SCRAP_X11_REF_URL else EmptyString)) w)
       end.

(** ** The session's view of its connection *)
Definition is_force_relay (h : handler) : bool := force_relay h.
Definition update_direct (d : option bool) (w : world) : world :=
  let w := upd (set_direct d) w in
  match d with Some d => emit (NoteDirect (id (hd w)) d) w | None => w end.
Definition update_received (r : bool) : world -> world := upd (set_received r).
Definition on_establish_connection_error (windows : bool) (errno : Z) (err : string) (w : world) : world :=
  let relay_hint :=
    bool_decide (direct (hd w) = Some true)
    && (windows && ((errno =? 10054) || contains "10054" err)
        || negb windows && ((errno =? 104) || contains "104" err)
        || negb (contains "Failed" err) && contains "deadline" err) in
  if relay_hint then
    emit (MsgBox (if received (hd w) then "relay-hint" else "relay-hint2") "Connection Error" err EmptyString) w
  else emit (MsgBox "error" "Connection Error" err EmptyString) w.
Definition check_if_retry (msgtype title text : string) (retry_for_relay : bool) : bool :=
  let low := to_lowercase text in
  String.eqb msgtype "error" && String.eqb title "Connection Error"
  && ((contains "10054" text || contains "104" text) && retry_for_relay
      || negb (contains "offline" low) && negb (contains "not exist" low)
         && (negb (contains "handshake" low)
             || contains "connection reset without closing handshake" low && use_ws e)
         && negb (contains "failed" low) && negb (contains "resolve" low) && negb (contains "mismatch" low)
         && negb (contains "manually" low) && negb (contains "restricted" low) && negb (contains "not allowed" low)).

(** ** A run of the session *)
Inductive op :=
  | OHash (password_preset : string) (hs : Hash)
  | OLogin (os_username os_password pw : string) (rem : bool)
  | OError (headless_link err : string)
  | OPeerInfo (pi : PeerInfo)
  | OToggle (name : string)
  | OOption (k v : string)
  | OView (k : setting) (v : string)
  | OFps (fps : Z) (save : bool)
  | ODirect (d : option bool).
Definition exec (o : op) (w : world) : world :=
  match o with
  | OHash p hs => handle_hash p hs w
  | OLogin u p pw r => handle_login_from_ui u p pw r w
  | OError l err => (handle_login_error l err w).2
  | OPeerInfo pi => handle_peer_info pi w
  | OToggle n => (toggle_option n w).2
  | OOption k v => set_option k v w
  | OView k v => edit (set_text k v) w
  | OFps f s => (set_fps f s w).2
  | ODirect d => update_direct d w
  end.
Definition run (l : list op) (w : world) : world := foldl (λ w o, exec o w) w l.

(** ** Which password is used *)

(** The entry for a number in the technician's own address book. *)
Definition personal_hash (i : string) : option bytes :=
  if negb (is_empty (access_token e)) && String.eqb (access_token e) (ab_access_token e) then
    match personal_ab e with
    | Some peers => match List.find (λ x, String.eqb x.1 i) peers with
                    | Some x => match base64_decode e x.2 with Some ((_ :: _) as q) => Some q | _ => None end
                    | None => None
                    end
    | None => None
    end
  else None.
(** The sources in the order that counts, each with what it gives. *)
Definition candidates (password_preset : string) (hs : Hash) (h : handler) : list (bytes * PasswordSource) :=
  let from (s : string) (src : PasswordSource) := if is_empty s then ([], src) else (salted s hs, src) in
  [match shared_password h with Some s => from s (SharedAb s) | None => ([], Undefined) end;
   (h_password h, password_source h);
   from password_preset Undefined;
   (password (config h), Undefined);
   match personal_hash (id h) with Some q => (q, PersonalAb q) | None => ([], Undefined) end;
   (let p := get_builtin_option e (OPTION_DEFAULT_CONNECT_PASSWORD e) in from p (SharedAb p))].
(** The first that gives one; without any, no password and the source of before. *)
Definition first_password (d : PasswordSource) (l : list (bytes * PasswordSource)) : bytes * PasswordSource :=
  default ([], d) (List.find (λ x, match x.1 with [] => false | _ => true end) l).

Lemma personal_eq w : try_get_password_from_personal_ab [] w
  = match personal_hash (id (hd w)) with Some q => (q, upd (set_password_source (PersonalAb q)) w) | None => ([], w) end.
Proof. unfold try_get_password_from_personal_ab, personal_hash. repeat case_match; try done; by simplify_eq. Qed.
Lemma personal_not_nil i q : personal_hash i = Some q -> exists b l, q = b :: l.
Proof. unfold personal_hash. intros H. repeat case_match; simplify_eq; by do 2 eexists. Qed.
Lemma salted_not_nil s hs : (forall p t, sha2 p t <> []) -> exists b l, salted s hs = b :: l.
Proof. intros H. specialize (H (String.list_byte_of_string s) (salt hs)). unfold salted. destruct (sha2 _ _); [done|eauto]. Qed.

(** What the choice finds, and that it touches nothing else. *)
Lemma chosen_spec pp hs w : (forall p s, sha2 p s <> []) ->
  let c := first_password (password_source (hd w)) (candidates pp hs (hd w)) in
  chosen pp hs w = (c.1, upd (λ h, set_password_source c.2 (set_shared_password None h)) w).
Proof.
  intros Hne. cbv zeta. pose proof (λ s, salted_not_nil s hs Hne) as Hs.
  unfold chosen, candidates, first_password, personal, builtin.
  destruct w as [[i ct ta hh hp rem cfg pf ver ft sid se rr fr di re su os cf al sw psrc sp rs rp] f pe o].
  cbn [hd shared_password h_password password_source config id].
  set (bp := get_builtin_option e (OPTION_DEFAULT_CONNECT_PASSWORD e)).
  destruct (Hs bp) as (b1 & l1 & E1), (Hs pp) as (b2 & l2 & E2).
  assert (exists s0 E, s0 = default EmptyString sp /\ E = is_empty s0) as (s0 & E & -> & HE) by eauto.
  destruct (Hs (default EmptyString sp)) as (b3 & l3 & E3).
  destruct hp as [|b0 hp], (is_empty pp) eqn:Epp, sp as [s|]; simpl in *; rewrite ?Epp; simpl;
    try destruct (is_empty s) eqn:Es; simpl; rewrite ?E2, ?E3; simpl; try done;
    destruct (password cfg) as [|bc lc] eqn:Ec; simpl; rewrite ?Ec; simpl; try done;
    rewrite personal_eq; simpl;
    (destruct (personal_hash i) as [q|] eqn:Eq; [destruct (personal_not_nil _ _ Eq) as (b4 & l4 & ->)|]); simpl; try done;
    destruct (is_empty bp) eqn:Ebp; simpl; rewrite ?E1; done.
Qed.

Lemma option_frame b w : exists f, (get_option_message b w).2 = upd (set_custom_fps f) w.
Proof.
  unfold get_option_message. destruct w as [[] f pe o]. simpl.
  destruct conn_type0; try (by eexists); destruct (quality_options _ _) as [d [fps|]]; by eexists.
Qed.
Lemma send_login_frame u p pw w : exists f lr,
  send_login u p pw w = emit (SendLogin lr) (upd (set_custom_fps f) w)
  /\ lr_password lr = pw /\ lr_sched lr = PENDING_SCHED w !! id (hd w) /\ lr_os_login lr = (u, p)
  /\ lr_username lr = match other_server (hd w) with Some (i, _, _) => i | None => id (hd w) end.
Proof.
  unfold send_login, create_login_msg. destruct (option_frame true w) as (f & Ef).
  destruct (get_option_message true w) as [o w'] eqn:E. simpl in Ef. subst w'.
  exists f. destruct (other_server (hd w)) as [[[? ?] ?]|]; eexists; split_and!; reflexivity.
Qed.
Lemma send_switch_frame uuid w : exists f lr,
  send_switch_login_request uuid w = emit (SendSwitch uuid lr) (upd (set_custom_fps f) w) /\ lr_password lr = [].
Proof.
  unfold send_switch_login_request, create_login_msg. destruct (option_frame true w) as (f & Ef).
  destruct (get_option_message true w) as [o w'] eqn:E. simpl in Ef. subst w'.
  exists f. destruct (other_server (hd w)) as [[[? ?] ?]|]; eexists; split_and!; reflexivity.
Qed.

(** What the choice leaves in the session. *)
Lemma hash_parts pp hs w : (forall p s, sha2 p s <> []) ->
  match switch_uuid (hd w) with Some u => uuid_parse e u | None => None end = None ->
  let c := first_password (password_source (hd w)) (candidates pp hs (hd w)) in
  let w1 := upd (λ h, set_h_password c.1 (set_password_source c.2 (set_shared_password None (set_switch_uuid None (set_hash hs h))))) w in
  handle_hash pp hs w
  = if bool_decide (conn_type (hd w) = TERMINAL) && is_terminal_admin (hd w) then
      emit (MsgBox (match c.1 with [] => "terminal-admin-login-password" | _ => "terminal-admin-login" end)
              EmptyString EmptyString EmptyString) w1
    else
      let w2 := match c.1 with [] => emit (MsgBox "input-password-pending" "Password Required" EmptyString EmptyString) w1 | _ => w1 end in
      let '(u, p) := if bool_decide (conn_type (hd w) = TERMINAL) then (EmptyString, EmptyString)
                     else (get_option (hd w) "os-username", get_option (hd w) "os-password") in
      upd (set_hash hs) (send_login u p (match c.1 with [] => [] | p => sha2 p (challenge hs) end) w2).
Proof.
  intros Hne Hu. cbv zeta.
  unfold handle_hash. cbn [upd hd switch_uuid set_hash set_switch_uuid]. rewrite Hu, (chosen_spec pp hs _ Hne).
  set (w1 := upd (set_switch_uuid None) (upd (set_hash hs) w)).
  assert (first_password (password_source (hd w1)) (candidates pp hs (hd w1))
          = first_password (password_source (hd w)) (candidates pp hs (hd w))) as -> by done.
  destruct (first_password (password_source (hd w)) _) as [p src].
  cbn [fst snd]. change (conn_type (set_h_password ?a ?b)) with (conn_type (hd w)).
  change (is_terminal_admin (set_h_password ?a ?b)) with (is_terminal_admin (hd w)).
  destruct (bool_decide (conn_type (hd w) = TERMINAL) && is_terminal_admin (hd w)); [reflexivity|].
  destruct p as [|b p]; (destruct (bool_decide (conn_type (hd w) = TERMINAL)); reflexivity).
Qed.
Lemma hash_state pp hs w : (forall p s, sha2 p s <> []) ->
  match switch_uuid (hd w) with Some u => uuid_parse e u | None => None end = None ->
  let c := first_password (password_source (hd w)) (candidates pp hs (hd w)) in
  let w' := handle_hash pp hs w in
  h_password (hd w') = c.1 /\ password_source (hd w') = c.2 /\ shared_password (hd w') = None
  /\ hash (hd w') = hs /\ files w' = files w.
Proof.
  intros Hne Hu. cbv zeta. rewrite hash_parts by done. cbv zeta.
  destruct (_ && _); [by split_and!|]. destruct (bool_decide _); 
    match goal with |- context [send_login ?u ?v ?x ?y] => destruct (send_login_frame u v x y) as (f & lr & -> & _) end;
    destruct (first_password _ _) as [[|b p] src]; by split_and!.
Qed.

(** Which password a session sends.  When the register sends its salt, the
    password is the first there is of: the one shared with the opened card, the
    last one used, the one given at the start, the remembered one, the one of the
    technician's own address book, the built-in one; the session keeps it with
    its source, a shared one is used once, nothing is written to the disk, and
    the login carries the digest of it with the challenge, or no password at all
    when there is none, which asks the register for a click.  Only a terminal as
    administrator asks for the account first. *)
Theorem password_order pp hs w : (forall p s, sha2 p s <> []) ->
  match switch_uuid (hd w) with Some u => uuid_parse e u | None => None end = None ->
  let '(p, src) := first_password (password_source (hd w)) (candidates pp hs (hd w)) in
  let w' := handle_hash pp hs w in
  h_password (hd w') = p /\ password_source (hd w') = src /\ shared_password (hd w') = None
  /\ hash (hd w') = hs /\ files w' = files w
  /\ (if bool_decide (conn_type (hd w) = TERMINAL) && is_terminal_admin (hd w) then
        exists t, out w' = out w ++ [MsgBox t EmptyString EmptyString EmptyString]
      else exists lr, lr_password lr = match p with [] => [] | _ => sha2 p (challenge hs) end
        /\ out w' = out w ++ match p with [] => [MsgBox "input-password-pending" "Password Required" EmptyString EmptyString]
                                     | _ => [] end ++ [SendLogin lr]).
Proof.
  intros Hne Hu. pose proof (hash_state pp hs w Hne Hu) as (H1 & H2 & H3 & H4 & H5).
  pose proof (hash_parts pp hs w Hne Hu) as Hp. cbv zeta in *. destruct (first_password _ _) as [p src].
  do 5 (split; [done|]). rewrite Hp. cbn [fst]. clear.
  destruct (bool_decide (conn_type (hd w) = TERMINAL) && is_terminal_admin (hd w)); [by eexists|].
  destruct (bool_decide _);
    match goal with |- context [send_login ?u ?v ?x ?y] => destruct (send_login_frame u v x y) as (f & lr & -> & El & _) end;
    (exists lr; split; [rewrite El; by destruct p|]; destruct p; simpl; by rewrite <- ?app_assoc).
Qed.

(** ** The options at both ends *)
#[local] Existing Instance Session.field_eq_dec.
Section ends.
Context {msgs : Service.Messages} {S : Type} {svc : Service.ServiceI S} {rj : Session.ReadJobs} (one_way_clipboard : bool).
Abbreviation register := (Session.ctx (S := S)).
Abbreviation flags x := (Session.flag (Session.cn x)).

(** The switch that an option sets. *)
Definition sw (t : tri) (old : bool) : bool := match t with TYes => true | TNo => false | TNotSet | TUnknown => old end.

Lemma when_set_flag t k (x : register) fld g : (forall b y, flags (k b y) = <[fld := b]> (flags y)) ->
  flags (Session.when_set t k x) g = if decide (fld = g) then sw t (flags x g) else flags x g.
Proof.
  intros H. destruct t; simpl; try (by case_decide); rewrite H; unfold insert, fn_insert; case_decide; by subst.
Qed.
Lemma when_set_same t k (x : register) : (forall b y, flags (k b y) = flags y) -> flags (Session.when_set t k x) = flags x.
Proof. intros H. by destruct t; simpl. Qed.
Lemma emit_if_flag b ev (x : register) : flags (Session.emit_if b ev x) = flags x.
Proof. by destruct b. Qed.
Lemma privacy_flag ev on k (x : register) : flags (Session.toggle_privacy_mode ev on k x) = flags x.
Proof.
  unfold Session.toggle_privacy_mode, Session.turn_on_privacy, Session.turn_off_privacy, Session.turn_off_privacy_to_msg.
  destruct on; repeat (case_match; simpl; rewrite ?emit_if_flag); try done.
Qed.

(** The flags of the register after a message. *)
Lemma option_flags ev o (x : register) g : flags (Session.update_options one_way_clipboard ev o x) g =
  match g with
  | Session.lock_after_session_end => sw (Session.o_lock_after_session_end o) (flags x g)
  | Session.show_remote_cursor => sw (Session.o_show_remote_cursor o) (flags x g)
  | Session.follow_remote_cursor => sw (Session.o_follow_remote_cursor o) (flags x g)
  | Session.follow_remote_window => sw (Session.o_follow_remote_window o) (flags x g)
  | Session.disable_audio => sw (Session.o_disable_audio o) (flags x g)
  | Session.enable_file_transfer => sw (Session.o_enable_file_transfer o) (flags x g)
  | Session.disable_clipboard => sw (Session.o_disable_clipboard o) (flags x g)
  | Session.disable_keyboard => sw (Session.o_disable_keyboard o) (flags x g)
  | Session.show_my_cursor => sw (Session.o_show_my_cursor o) (flags x g)
  | _ => flags x g
  end.
Proof.
  unfold Session.update_options, Session.update_show_my_cursor. cbv zeta.
  rewrite (when_set_flag _ _ _ Session.show_my_cursor) by (intros [] y; simpl; rewrite ?emit_if_flag; by repeat case_match).
  rewrite (when_set_same (Session.o_terminal_persistent o)) by done.
  assert (forall t y, flags (Session.update_block_input t y) = flags y) as ->.
  { intros t y. unfold Session.update_block_input. case_match; [by apply when_set_same | by destruct t]. }
  set (y := Session.update_services _ _ _).
  assert (flags (if Session.before_1_2_4 (Session.from ev) && flags y Session.keyboard
                 then Session.when_set (Session.o_privacy_mode o) (λ on, Session.toggle_privacy_mode ev on "") y else y) = flags y) as ->.
  { case_match; [|done]. apply when_set_same. intros. apply privacy_flag. }
  unfold y, Session.update_services.
  rewrite (when_set_flag _ _ _ Session.disable_keyboard) by (intros b z; apply (SessionSpec.sub_changes one_way_clipboard b z)).
  rewrite (when_set_flag _ _ _ Session.disable_clipboard) by (intros b z; apply (SessionSpec.sub_changes one_way_clipboard b z)).
  rewrite (when_set_flag _ _ _ Session.enable_file_transfer) by done.
  rewrite (when_set_flag _ _ _ Session.disable_audio) by (intros b z; apply (SessionSpec.sub_changes one_way_clipboard b z)).
  rewrite (when_set_flag _ _ _ Session.follow_remote_window)
    by (intros b z; unfold Session.option_follow_window, Session.subscribe_to, Session.on_server; simpl; by case_match).
  rewrite (when_set_flag _ _ _ Session.follow_remote_cursor) by done.
  rewrite (when_set_flag _ _ _ Session.show_remote_cursor) by (intros b z; apply (SessionSpec.sub_changes one_way_clipboard b z)).
  rewrite (when_set_flag _ _ _ Session.lock_after_session_end) by done.
  assert (flags (Session.update_quality o x) = flags x) as ->
    by (unfold Session.update_quality; repeat case_match; by rewrite !emit_if_flag).
  by destruct g.
Qed.

(** What the register's flags should be, given the stored switches. *)
Definition agrees (c : PeerConfig) (f : Session.field -> bool) : Prop :=
  let vo := toggles c view_only in
  f Session.disable_keyboard = vo
  /\ f Session.show_remote_cursor = vo || toggles c show_remote_cursor
  /\ f Session.disable_clipboard = vo || toggles c disable_clipboard
  /\ f Session.enable_file_transfer = negb vo && toggles c enable_file_copy_paste
  /\ f Session.lock_after_session_end = negb vo && toggles c lock_after_session_end
  /\ f Session.show_my_cursor = toggles c show_my_cursor
  /\ f Session.follow_remote_cursor = toggles c follow_remote_cursor
  /\ f Session.follow_remote_window = toggles c follow_remote_window
  /\ f Session.disable_audio = toggles c disable_audio.
(** These flags are off when a connection starts. *)
Definition governed (g : Session.field) : bool :=
  match g with
  | Session.disable_keyboard | Session.show_remote_cursor | Session.disable_clipboard | Session.enable_file_transfer
  | Session.lock_after_session_end | Session.show_my_cursor | Session.follow_remote_cursor | Session.follow_remote_window
  | Session.disable_audio => true
  | _ => false
  end.
(** While only viewing the menu does not offer what viewing already decides. *)
Definition permitted (c : PeerConfig) (name : string) : bool :=
  match toggle_named name with
  | Some (disable_clipboard | enable_file_copy_paste | lock_after_session_end) => negb (toggles c view_only)
  | Some show_remote_cursor => negb (toggles c view_only && toggles c show_remote_cursor)
  | _ => true
  end.
(** The handler's copy of the switches is the stored one. *)
Definition in_sync (w : world) : Prop := forall t, toggles (load_config w) t = toggles (config (hd w)) t.

Lemma save_sync c w : in_sync (save_config c w).
Proof.
  unfold in_sync, load_config, save_config. simpl. destruct (load_store_eq (id (hd w)) c (files w)) as (o & _ & E).
  intros t. change (id (set_config c (hd w))) with (id (hd w)). by rewrite E.
Qed.
(** A message of the session reaches the register. *)
Definition deliver (ev : Session.senv) (o : option OptionMessage) (x : register) : register :=
  match o with Some o => Session.update_options one_way_clipboard ev o x | None => x end.
Definition toggles_sent (l : list (string * Session.senv)) (wx : world * register) : world * register :=
  foldl (λ wx n, let '(o, w) := toggle_option n.1 wx.1 in (w, deliver n.2 o wx.2)) wx l.
Fixpoint all_permitted (l : list (string * Session.senv)) (w : world) : bool :=
  match l with [] => true | n :: l => permitted (config (hd w)) n.1 && all_permitted l (toggle_option n.1 w).2 end.

Lemma toggle_step name ev w (x : register) : in_sync w -> agrees (config (hd w)) (flags x) ->
  permitted (config (hd w)) name = true ->
  let '(o, w') := toggle_option name w in
  in_sync w' /\ agrees (config (hd w')) (flags (deliver ev o x)).
Proof.
  intros Hs Ha Hp. unfold toggle_option, permitted, in_sync in *.
  destruct Ha as (A1 & A2 & A3 & A4 & A5 & A6 & A7 & A8 & A9).
  destruct (toggle_named name) as [t|] eqn:En.
  - pose proof (Hs : forall t, toggles (load_config w) t = toggles (config (hd w)) t) as Ht.
    destruct t; cbv zeta; repeat (match goal with |- context [if ?b then _ else _] => destruct b eqn:? end); (split; [apply save_sync|]); unfold agrees;
      split_and!; cbn [deliver]; rewrite ?option_flags;
      unfold switches, not_set, view_only_on, view_only_off, flip, set_toggle, yes_no, get_toggle_option in *;
      simpl in *; unfold insert, fn_insert in *; simpl in *;
      rewrite ?Ht, ?A1, ?A2, ?A3, ?A4, ?A5, ?A6, ?A7, ?A8, ?A9 in *; clear A1 A2 A3 A4 A5 A6 A7 A8 A9 Hs Ht;
      repeat match goal with H : context [toggles _ _] |- _ => revert H end;
      repeat match goal with |- context [toggles ?c ?t] => destruct (toggles c t) end; done.
  - destruct (String.eqb name "block-input"); [|destruct (String.eqb name "unblock-input")].
    1, 2: split; [done|]; unfold agrees; split_and!; cbn [deliver]; by rewrite option_flags.
    simpl. split; [|done]. intros t. unfold load_config. simpl.
    match goal with |- context [load ?i (store ?i ?c ?d)] => destruct (load_store_eq i c d) as (o & _ & E) end.
    by rewrite E.
Qed.

Lemma set_if_at b o f o' : set_if b o f o' = if bool_decide (o = o') then (if b then TYes else f o') else f o'.
Proof. unfold set_if. destruct b; unfold insert, fn_insert; repeat case_match; bool_prop; by case_bool_decide. Qed.
Lemma login_options_agree b ev w (x : register) o w' :
  get_option_message b w = (Some o, w') -> conn_type (hd w) = DEFAULT_CONN ->
  (toggles (config (hd w)) show_my_cursor = true -> toggles (config (hd w)) view_only = true) ->
  (forall g, governed g = true -> flags x g = false) ->
  agrees (config (hd w)) (flags (deliver ev (Some o) x)) /\ config (hd w') = config (hd w) /\ load_config w' = load_config w.
Proof.
  intros Hm Hc Hmy Hx. unfold get_option_message in Hm. rewrite Hc in Hm.
  destruct (quality_options b w) as [d fps]. injection Hm as <- <-. split; [|by destruct fps].
  unfold agrees. split_and!; cbn [deliver]; rewrite option_flags, Hx by reflexivity;
    unfold message_of, switch_options; cbn -[set_if get_toggle_option]; rewrite !set_if_at; cbn -[get_toggle_option];
    unfold get_toggle_option; simpl; clear Hx; revert Hmy;
    repeat match goal with |- context [toggles ?c ?t] => destruct (toggles c t) end; intros Hmy; try done; by specialize (Hmy eq_refl).
Qed.

(** C12: the register does what the menu shows.  From a login on, whatever
    switches the technician flips (those that viewing decides not while only
    viewing), the register has the keyboard locked exactly while the session only
    views; then the cursor shows and clipboard, files and locking at the end are
    off, and otherwise all switches are at the register what the stored
    configuration says, the ones from before the viewing included. *)
Theorem options_agree ev l w (x : register) o w0 :
  get_option_message true w = (Some o, w0) -> conn_type (hd w) = DEFAULT_CONN -> in_sync w ->
  (toggles (config (hd w)) show_my_cursor = true -> toggles (config (hd w)) view_only = true) ->
  (forall g, governed g = true -> flags x g = false) ->
  all_permitted l w0 = true ->
  let '(w', x') := toggles_sent l (w0, deliver ev (Some o) x) in
  agrees (config (hd w')) (flags x') /\ in_sync w'.
Proof.
  intros Hm Hc Hs Hmy Hx Hp.
  destruct (login_options_agree true ev w x o w0 Hm Hc Hmy Hx) as (Ha & Ec & El).
  assert (in_sync w0) as Hs0 by (intros t; rewrite El, Ec; apply Hs). rewrite <- Ec in Ha.
  revert Ha Hs0 Hp. generalize (deliver ev (Some o) x). clear. revert w0.
  induction l as [|[name ev] l IH]; intros w y Ha Hs Hp; simpl in *; [done|].
  apply andb_true_iff in Hp as [Hp Hr]. pose proof (toggle_step name ev w y Hs Ha Hp) as Hstep.
  destruct (toggle_option name w) as [o w']. destruct Hstep as (Hs' & Ha'). by apply IH.
Qed.
End ends.

(** ** A shared password stays the sharer's *)
Definition keeps_salt (σ : string) (o : op) : bool := match o with OHash _ hs => String.eqb (salt hs) σ | _ => true end.
(** A password with a sharer as its source is the sharer's, under the salt. *)
Definition shared_inv (σ : string) (h : handler) : Prop :=
  salt (hash h) = σ
  /\ forall s, password_source h = SharedAb s -> h_password h = [] \/ h_password h = sha2 (String.list_byte_of_string s) σ.

Lemma toggle_login_frame n w : let w' := (toggle_option n w).2 in
  h_password (hd w') = h_password (hd w) /\ password_source (hd w') = password_source (hd w) /\ hash (hd w') = hash (hd w).
Proof. cbv zeta. unfold toggle_option. repeat case_match; done. Qed.
Lemma error_login_frame link err w : let w' := (handle_login_error link err w).2 in
  (h_password (hd w') = h_password (hd w) \/ h_password (hd w') = [])
  /\ password_source (hd w') = password_source (hd w) /\ hash (hd w') = hash (hd w).
Proof. cbv zeta. unfold handle_login_error, set_option. repeat case_match; split_and!; try done; by (left + right). Qed.
Lemma peer_login_frame pi w : let w' := handle_peer_info pi w in
  h_password (hd w') = h_password (hd w) /\ password_source (hd w') = password_source (hd w) /\ hash (hd w') = hash (hd w).
Proof. cbv zeta. unfold handle_peer_info. cbv zeta. destruct (is_empty _); repeat case_match; done. Qed.

Lemma chosen_shared σ pp hs h : salt hs = σ -> 
  (forall s, password_source h = SharedAb s -> h_password h = [] \/ h_password h = sha2 (String.list_byte_of_string s) σ) ->
  let c := first_password (password_source h) (candidates pp hs h) in
  forall s, c.2 = SharedAb s -> c.1 = [] \/ c.1 = sha2 (String.list_byte_of_string s) σ.
Proof.
  intros <- Hi. cbv zeta. unfold first_password.
  destruct (find _ _) as [[p src]|] eqn:Ef; simpl; [|by left].
  apply find_some in Ef as [Hin _]. unfold candidates in Hin. intros s ->.
  simpl in Hin. destruct Hin as [H|[H|[H|[H|[H|[H|[]]]]]]]; repeat case_match; simplify_eq; auto.
Qed.

Lemma shared_hash σ pp hs w : (forall p s, sha2 p s <> []) -> salt hs = σ ->
  (forall s, password_source (hd w) = SharedAb s -> h_password (hd w) = [] \/ h_password (hd w) = sha2 (String.list_byte_of_string s) σ) ->
  shared_inv σ (hd (handle_hash pp hs w)).
Proof.
  intros Hne Hs Hi. destruct (match switch_uuid (hd w) with Some u => uuid_parse e u | None => None end) as [u|] eqn:Eu.
  - unfold handle_hash. cbn [upd hd switch_uuid set_hash]. rewrite Eu.
    match goal with |- context [send_switch_login_request ?a ?b] => destruct (send_switch_frame a b) as (f & lr & -> & _) end.
    by split.
  - destruct (hash_state pp hs w Hne Eu) as (Ep & Esrc & _ & Eh & _).
    split; rewrite ?Eh; [done|]. rewrite Ep, Esrc. by apply chosen_shared.
Qed.

Lemma shared_step σ o w : (forall p s, sha2 p s <> []) -> keeps_salt σ o = true -> shared_inv σ (hd w) -> shared_inv σ (hd (exec o w)).
Proof.
  intros Hne Hk [Hs Hi]. destruct o as [pp hs|u p pw r|l err|pi|n|k v|k v|fps sv|d]; cbn [exec].
  - apply String.eqb_eq in Hk. by apply shared_hash.
  - unfold handle_login_from_ui. destruct (is_empty pw).
    + destruct (h_password (hd w)) as [|b q] eqn:Ep; [destruct (password (config (hd w))) as [|b q]|];
        match goal with |- context [send_login ?a ?b ?c ?d] => destruct (send_login_frame a b c d) as (f & lr & -> & _) end;
        split; try done; intros s Hsrc; simpl in *; try (by left); rewrite <- Ep; by apply Hi.
    + match goal with |- context [send_login ?a ?b ?c ?d] => destruct (send_login_frame a b c d) as (f & lr & -> & _) end.
      split; done.
  - destruct (error_login_frame l err w) as (E1 & E2 & E3). split; [by rewrite E3|]. rewrite E2. intros s H.
    destruct E1 as [->| ->]; [by apply Hi | by left].
  - destruct (peer_login_frame pi w) as (E1 & E2 & E3). split; [by rewrite E3|]. by rewrite E1, E2.
  - destruct (toggle_login_frame n w) as (E1 & E2 & E3). split; [by rewrite E3|]. by rewrite E1, E2.
  - unfold set_option. destruct (String.eqb _ _); by split.
  - by split.
  - by destruct sv; split.
  - by destruct d; split.
Qed.
Lemma shared_run σ l w : (forall p s, sha2 p s <> []) -> forallb (keeps_salt σ) l = true -> shared_inv σ (hd w) ->
  shared_inv σ (hd (run l w)).
Proof.
  intros Hne. revert w. induction l as [|o l IH]; intros w Hl Hi; [done|].
  simpl in Hl. apply andb_true_iff in Hl as [Ho Hl]. apply (IH (exec o w) Hl). by apply shared_step.
Qed.

(** What the configuration keeps of the password, and what is copied. *)
Lemma peer_info_password pi w : let w' := handle_peer_info pi w in
  let c := remembered (hd w) (load_config w) in
  password (config (hd w')) = password c
  /\ out w' = out w ++ match password c with
                       | [] => []
                       | p => if negb (is_shared_ab (password_source (hd w)) (h_password (hd w)) (hash (hd w)))
                                 && negb (is_personal_ab (password_source (hd w)) (h_password (hd w)))
                              then [SyncPassword (id (hd w)) (base64_encode e p)] else []
                       end.
Proof.
  cbv zeta. unfold handle_peer_info. cbv zeta.
  set (w1 := upd _ w). set (c0 := set_info _ (load_config w1)).
  assert (hd w1 = hd w1 /\ password_source (hd w1) = password_source (hd w) /\ h_password (hd w1) = h_password (hd w)
          /\ hash (hd w1) = hash (hd w) /\ id (hd w1) = id (hd w) /\ remember (hd w1) = remember (hd w) /\ files w1 = files w
          /\ out w1 = out w) as (_ & E1 & E2 & E3 & E4 & E5 & E6 & E7) by (unfold w1; simpl; by destruct (is_empty _)).
  assert (password (remembered (hd w1) c0) = password (remembered (hd w) (load_config w))) as <-.
  { unfold remembered. rewrite E1, E2, E3, E5. unfold c0, load_config. rewrite E4, E6.
    change (password (set_info ?i ?c)) with (password c). by repeat case_match. }
  rewrite <- E1, <- E2, <- E3, <- E4, <- E7. clearbody w1 c0. set (c1 := remembered (hd w1) c0).
  set (c2 := match other_server (hd w1) with Some _ => _ | None => _ end).
  assert (password c2 = password c1) as Ec2 by (unfold c2; by repeat case_match).
  set (c3 := if force_relay (hd w1) then _ else c2).
  assert (password c3 = password c1) as Ec3 by (unfold c3; by destruct (force_relay _)).
  assert (password (chosen_keyboard_mode pi c3) = password c3) as Ek by (unfold chosen_keyboard_mode; by repeat case_match).
  simpl. rewrite Ek, Ec3. split; [done|]. clearbody c1 c2 c3. rewrite <- Ec3.
  destruct (password c3); [by rewrite app_nil_r|]. destruct (_ && _); simpl; [done|by rewrite app_nil_r].
Qed.

(** A password someone shared is never kept.  In a session in which the
    register's salt stays the same, whatever is typed, shown and switched: when
    the login succeeds with a shared (or built-in) password, the configuration
    keeps the password it had or none, and nothing but what it had is copied to
    the technician's own address book. *)
Theorem shared_not_remembered σ pp hs l pi w : (forall p s, sha2 p s <> []) ->
  forallb (keeps_salt σ) (OHash pp hs :: l) = true ->
  (forall s, password_source (hd w) = SharedAb s ->
     h_password (hd w) = [] \/ h_password (hd w) = sha2 (String.list_byte_of_string s) σ) ->
  let w1 := run (OHash pp hs :: l) w in
  let w2 := handle_peer_info pi w1 in
  forall s, password_source (hd w1) = SharedAb s ->
  (password (config (hd w2)) = password (load_config w1) \/ password (config (hd w2)) = [])
  /\ (out w2 = out w1 \/ out w2 = out w1 ++ [SyncPassword (id (hd w1)) (base64_encode e (password (load_config w1)))]).
Proof.
  intros Hne Hl Hi. cbv zeta. simpl in Hl. apply andb_true_iff in Hl as [Hh Hl]. apply String.eqb_eq in Hh.
  assert (shared_inv σ (hd (run (OHash pp hs :: l) w))) as [Hs Hi'].
  { change (run (OHash pp hs :: l) w) with (run l (handle_hash pp hs w)). apply shared_run; [done|done|by apply shared_hash]. }
  set (w1 := run _ w) in *. clearbody w1. intros s Hsrc. specialize (Hi' s Hsrc).
  destruct (peer_info_password pi w1) as [-> ->]. unfold remembered. rewrite Hsrc.
  destruct (remember (hd w1)); [destruct (h_password (hd w1)) as [|b q] eqn:Ep|].
  - split; [by left|]. simpl. destruct (password (load_config w1)); [left; apply app_nil_r|by right].
  - assert (is_shared_ab (SharedAb s) (b :: q) (hash (hd w1)) = true) as ->.
    { destruct Hi' as [?|Hi']; [done|]. unfold is_shared_ab, salted. rewrite Hs, Hi'. by apply bool_decide_eq_true. }
    rewrite andb_false_r. split; [by left|]. left. destruct (password (load_config w1)); apply app_nil_r.
  - destruct (h_password (hd w1)); simpl; (split; [by right|left; apply app_nil_r]).
Qed.

(** ** Reading what was typed *)
Lemma split_unsplit c s : no_char c s = true -> split c s = [s].
Proof.
  induction s as [|a s IH]; simpl; intros H; [done|]. unfold no_char in H. simpl in H. bool_prop. destruct H as [Ha Hs].
  by rewrite Ha, (IH Hs).
Qed.
Lemma split_app_char c a b : no_char c a = true -> split c (a +:+ String c b) = a :: split c b.
Proof.
  induction a as [|x a IH]; simpl; intros H; [by rewrite Ascii.eqb_refl|].
  unfold no_char in H. simpl in H. bool_prop. destruct H as [Ha Hs]. by rewrite Ha, (IH Hs).
Qed.
Lemma contains_char c s : contains (String c EmptyString) s = negb (no_char c s).
Proof.
  unfold contains. induction s as [|a s IH]; [done|].
  simpl. unfold no_char. simpl. unfold starts_with. simpl. rewrite Ascii.eqb_sym. destruct (Ascii.eqb_spec c a) as [->|Hn].
  - simpl. by rewrite Ascii.eqb_refl.
  - destruct (Ascii.eqb_spec a c) as [->|]; [done|]. simpl. unfold no_char in IH.
    destruct (find_split (String c EmptyString) s) as [[? ?]|]; exact IH.
Qed.
Lemma strip_suffix2_app i x y : strip_suffix2 (i +:+ String x (String y EmptyString)) = i.
Proof.
  induction i as [|a i IH]; [done|]. simpl in *. rewrite IH.
  destruct i as [|b i]; simpl in *; [done|]. destruct (i +:+ String x (String y EmptyString)) eqn:E; [|done].
  by destruct i.
Qed.
Lemma rev_snoc2 i x y : String.rev (i +:+ String x (String y EmptyString)) = String y (String x (String.rev i)).
Proof.
  change (String x (String y EmptyString)) with (String x EmptyString +:+ String y EmptyString).
  by rewrite <- string_app_assoc, !rev_snoc.
Qed.
Lemma relay_mark i : handle_relay_id (i +:+ "/r") = i.
Proof. unfold handle_relay_id, ends_with. rewrite rev_snoc2. simpl. apply strip_suffix2_app. Qed.
Lemma not_relay_mark i : ends_with "\r" i || ends_with "/r" i = false -> handle_relay_id i = i.
Proof. unfold handle_relay_id. by intros ->. Qed.
Lemma no_char_app c a b : no_char c (a +:+ b) = no_char c a && no_char c b.
Proof. apply all_chars_app. Qed.

Lemma app_longer i c s : i +:+ String c s <> i.
Proof. induction i as [|a i IH]; [done|]. simpl. congruence. Qed.
(** One argument after the question mark. *)
Lemma args_key k : no_char "&" k = true -> args_map ("key=" +:+ k) !! "key" = Some k.
Proof.
  intros Hk. unfold args_map. rewrite split_unsplit by (rewrite no_char_app, Hk; done). simpl. apply lookup_insert_eq.
Qed.

(** A typed number is read as what it says: the number alone or with
    another server and its key (which may end in equal signs), each with or
    without the mark that asks for a relay, which is taken off. *)
Theorem typed_number_read i server k relay :
  no_char "@" i = true -> ends_with "\r" i || ends_with "/r" i = false ->
  no_char "@" server = true -> no_char "?" server = true -> server <> PUBLIC_SERVER ->
  no_char "@" k = true -> no_char "?" k = true -> no_char "&" k = true ->
  parse_id i relay = (i, relay, None)
  /\ parse_id (i +:+ "/r") relay = (i, true, None)
  /\ parse_id (i +:+ "@" +:+ server +:+ "?key=" +:+ k) relay = (i +:+ "@" +:+ server, relay, Some (i, server, k))
  /\ parse_id (i +:+ "/r@" +:+ server +:+ "?key=" +:+ k) relay = (i +:+ "@" +:+ server, true, Some (i, server, k))
  /\ parse_id (i +:+ "@public") relay = (i +:+ "@public", relay, Some (i, "public", RS_PUB_KEY e)).
Proof.
  intros Hi Hr Hs1 Hs2 Hs3 Hk1 Hk2 Hk3. unfold parse_id. rewrite !contains_char, !no_char_app, Hi.
  assert (String.eqb (i +:+ "/r") i = false) as Hne.
  { apply String.eqb_neq, app_longer. }
  assert (split "@" (i +:+ "@" +:+ server +:+ "?key=" +:+ k) = [i; server +:+ "?key=" +:+ k]) as E1.
  { change ("@" +:+ server +:+ "?key=" +:+ k) with (String "@" (server +:+ "?key=" +:+ k)).
    rewrite split_app_char by done. f_equal. apply split_unsplit. by rewrite !no_char_app, Hs1, Hk1. }
  assert (split "@" (i +:+ "/r@" +:+ server +:+ "?key=" +:+ k) = [i +:+ "/r"; server +:+ "?key=" +:+ k]) as E2.
  { change ("/r@" +:+ server +:+ "?key=" +:+ k) with ("/r" +:+ String "@" (server +:+ "?key=" +:+ k)).
    rewrite <- string_app_assoc. rewrite split_app_char by (by rewrite no_char_app, Hi). f_equal. apply split_unsplit. by rewrite !no_char_app, Hs1, Hk1. }
  assert (split "?" (server +:+ "?key=" +:+ k) = [server; "key=" +:+ k]) as E3.
  { change (server +:+ "?key=" +:+ k) with (server +:+ String "?" ("key=" +:+ k)).
    rewrite split_app_char by done. f_equal. apply split_unsplit. by rewrite !no_char_app, Hk2. }
  assert (String.eqb server PUBLIC_SERVER = false) as Hpub by by apply String.eqb_neq.
  split_and!.
  - simpl. by rewrite (not_relay_mark i Hr), String.eqb_refl, orb_false_r.
  - simpl. by rewrite relay_mark, String.eqb_sym, Hne, orb_true_r.
  - unfold nth_piece. rewrite E1. cbn [List.nth]. rewrite E3. cbn [List.nth].
    rewrite (not_relay_mark i Hr), String.eqb_refl, orb_false_r, Hpub, args_key by done. done.
  - unfold nth_piece. rewrite E2. cbn [List.nth]. rewrite E3. cbn [List.nth].
    rewrite relay_mark, String.eqb_sym, Hne, orb_true_r, Hpub, args_key by done. done.
  - unfold nth_piece. simpl. rewrite split_app_char by done. simpl.
    by rewrite (not_relay_mark i Hr), String.eqb_refl, orb_false_r.
Qed.
End handler.

(** ** Inputs *)
Definition empty_config : PeerConfig :=
  mkPeer [] (λ _, EmptyString) 0 0 (λ _, false) ∅ ∅ 0 [] ∅ (mkInfo EmptyString EmptyString EmptyString).
#[export] Program Instance toy_store : PeerStore := {
  disk := gmap string PeerConfig; load := λ i d, default empty_config (d !! i); store := λ i c d, <[i := c]> d;
}.
Next Obligation. intros i c d. exists (options c). cbv beta. rewrite lookup_insert_eq. by destruct c. Qed.
Next Obligation. intros i j c d H. cbv beta. by rewrite lookup_insert_ne. Qed.
(** A digest that is never empty. *)
#[export] Program Instance marked_sha : Sha256 := {
  sha_state := bytes; sha_new := []; sha_update := app; sha_hex := λ d, toy_hex (length d); sha_bytes := λ d, x01 :: d;
}.
Next Obligation. intros s. apply app_nil_r. Qed.
Next Obligation. intros s a b. simpl. by rewrite app_assoc. Qed.

Definition desk : env := {|
  RS_PUB_KEY := "rs"; use_ws := false; is_proxy := false; using_public_server := false;
  option2bool := λ _ v, String.eqb v "Y"; token_parse := λ _, None; token_print := λ _, None; rand := 5;
  terminal_admin_var := false; get_version_number := λ _, 1; KeyboardMode_iter := [Legacy; Map; Translate; Auto];
  mode_to_string := λ _, "map"; mode_from_str := λ _, Some Map; get_id := "900"; get_rendezvous_server := "hq";
  get_builtin_option := λ _, EmptyString; get_api_server := EmptyString; user_info := None; username := "kim";
  to_uppercase := λ s, s; platform := "Windows"; VERSION := "1.4.102"; get_hwid := []; dirs_parse := λ _, None;
  dirs_print := λ _, EmptyString; access_token := EmptyString; ab_access_token := EmptyString; personal_ab := None;
  base64_decode := λ _, None; base64_encode := λ _, "hash"; uuid_parse := λ _, None;
  OPTION_AVATAR := "avatar"; OPTION_DISPLAY_NAME := "display-name"; OPTION_DEFAULT_CONNECT_PASSWORD := "default-connect-password";
  quality_low := 2; quality_balanced := 3; quality_best := 4;
|}.
Definition fresh : handler :=
  mkHandler EmptyString DEFAULT_CONN false (mkHash EmptyString EmptyString) [] false empty_config (EmptyString, 0) 0 None 0 0
    false false None false None None None None None Undefined None false true.
(** A session to register 100, opened with a card someone shared. *)
Definition opened (pw : option string) : world :=
  initialize desk "100" DEFAULT_CONN None false None pw None (mkWorld fresh (∅ : gmap string PeerConfig) ∅ []).
Lemma marked p s : sha2 (sha := marked_sha) p s <> [].
Proof. done. Qed.

Lemma password_order_witness :
  let w' := handle_hash desk "preset" (mkHash "salt" "c1") (opened (Some "theirs")) in
  h_password (hd w') = salted (sha := marked_sha) "theirs" (mkHash "salt" "c1") /\ password_source (hd w') = SharedAb "theirs".
Proof.
  cbv zeta.
  pose proof (password_order (ps := toy_store) (sha := marked_sha) desk "preset" (mkHash "salt" "c1") (opened (Some "theirs"))
                marked eq_refl) as H.
  destruct (first_password _ _) as [p src] eqn:E. destruct H as (-> & -> & _). by injection E as <- <-.
Defined.

Definition watched : list (string * Session.senv) :=
  [("view-only", SessionSpec.calm_day); ("disable-audio", SessionSpec.calm_day); ("view-only", SessionSpec.calm_day)].
#[local] Existing Instances Service.conn_subscriber Service.cursor_subscriber Service.inner_service Service.sum_service.
#[local] Existing Instances Service.toy_messages SessionSpec.toy_jobs.
Lemma options_agree_witness : exists o w0, get_option_message (ps := toy_store) desk true (opened None) = (Some o, w0)
  /\ let wx := toggles_sent (ps := toy_store) false watched
                 (w0, deliver false SessionSpec.calm_day (Some o) (SessionSpec.begin_at SessionSpec.all)) in
     agrees (config (hd wx.1)) (Session.flag (Session.cn wx.2)) /\ Session.flag (Session.cn wx.2) Session.disable_audio = true.
Proof.
  assert (Hsome : is_Some (get_option_message (ps := toy_store) desk true (opened None)).1) by (eexists; vm_compute; reflexivity).
  destruct (get_option_message (ps := toy_store) desk true (opened None)) as [[o|] w0] eqn:Hm; [|by destruct Hsome].
  assert (Ho : o = default SessionSpec.no_options (get_option_message (ps := toy_store) desk true (opened None)).1) by (by rewrite Hm).
  assert (Hw : w0 = (get_option_message (ps := toy_store) desk true (opened None)).2) by (by rewrite Hm).
  exists o, w0. split; [reflexivity|]. cbv zeta.
  assert (Hs : in_sync (opened None)) by (intros t; vm_compute; reflexivity).
  assert (Hp : all_permitted watched w0 = true) by (rewrite Hw; vm_compute; reflexivity).
  pose proof (options_agree (ps := toy_store) desk false SessionSpec.calm_day watched (opened None)
    (SessionSpec.begin_at SessionSpec.all) o w0 Hm eq_refl Hs) as H.
  assert (toggles (config (hd (opened None))) show_my_cursor = true -> toggles (config (hd (opened None))) view_only = true)
    as Hv by (vm_compute; discriminate).
  assert (forall g, governed g = true -> Session.flag (Session.cn (SessionSpec.begin_at SessionSpec.all)) g = false)
    as Hg by (intros g; destruct g; vm_compute; congruence).
  specialize (H Hv Hg Hp).
  split; [|rewrite Ho, Hw; vm_compute; reflexivity].
  destruct (toggles_sent _ _ _) as [w' x']. apply H.
Defined.

Lemma shared_not_remembered_witness :
  let w1 := run desk [OHash EmptyString (mkHash "salt" "c1"); OToggle "view-only"] (opened (Some "theirs")) in
  let w2 := handle_peer_info desk (mkPeerInfo "1.4.0" "kim" "till" "Windows" None None) w1 in
  password (config (hd w2)) = [] /\ password_source (hd w1) = SharedAb "theirs".
Proof.
  cbv zeta. split; [|vm_compute; reflexivity].
  destruct (shared_not_remembered (ps := toy_store) (sha := marked_sha) desk "salt" EmptyString (mkHash "salt" "c1") [OToggle "view-only"]
    (mkPeerInfo "1.4.0" "kim" "till" "Windows" None None) (opened (Some "theirs")) marked eq_refl) with (s := "theirs"%string)
    as ([H|H] & _); [intros s; discriminate|vm_compute; reflexivity|exact H|exact H].
Defined.

Lemma typed_number_read_witness :
  parse_id desk "100/r@hq.example:21116?key=abc=" false = ("100@hq.example:21116", true, Some ("100", "hq.example:21116", "abc="))%string.
Proof.
  apply (typed_number_read desk "100" "hq.example:21116" "abc=" false); try reflexivity. discriminate.
Defined.
End Handler.
