(* ===== verification/Connect.v ===== *)
(** * Connecting to a register ([src/src/client.rs], [src/src/chainremote_direct.rs])

    How the technician's app gets a stream to a register: asking the rendezvous
    server, trying the addresses it names, the relay as the way out, and what is
    remembered of registers that could not be reached directly.

    An asynchronous function is a finite tree of its steps: questions to the
    network and to the system, those it waits for apart from those it does not,
    and changes of the login handler.  Between two waits nothing else of the same
    task runs, so [select_ok] lets its futures take turns at the waits only.
    Sockets, the resolver of addresses and the codecs are outside; the keys are
    exchanged as in [Handshake]. *)

From Stdlib Require Import Ascii Strings.Byte Sorting.Sorted.
From S2P Require Import Prelude RustStr Store Handshake Handler.
#[local] Open Scope Z_scope.

(** ** Remembering failures ([chainremote_direct.rs]) *)
Module Direct.
Import Handler(PeerConfig, direct_failures, ui_flutter, set_ui_flutter, set_direct_failures).

Definition RETRY_AFTER_SECS : Z := 6 * 60 * 60.
Definition DIRECT_WINDOW_MS : Z := 3000.
Definition RETRY_WINDOW_MS : Z := DIRECT_WINDOW_MS.
Definition KEY : string := "cr-direct-fail-at".
(** [now]: the answer of [now_secs], a [u64]. *)
Definition stamp (now : Z) (keep : bool) (c : PeerConfig) : PeerConfig :=
  set_ui_flutter (if keep then <[KEY := to_string now]> (ui_flutter c) else delete KEY (ui_flutter c)) c.
Definition is_retry_due (now : Z) (c : PeerConfig) : bool :=
  match (match ui_flutter c !! KEY with Some v => parse_u64 v | None => None end) with
  | None => true
  | Some at_ => (now <? at_) || (RETRY_AFTER_SECS <=? now - at_)
  end.
End Direct.

Module Connect.
Abbreviation bytes := (list byte).
Import Handler(ConnType, DEFAULT_CONN, world, hd, upd, edit, handler, id, config, force_relay, other_server, direct_failures).

Section connect.
Context {ps : Handler.PeerStore} {cr : Handshake.Crypto}.

(** ** Steps *)

(** A stream: its number, its own address and whether that is of version 4. *)
Record stream := mkStream { s_no : Z; s_local : string; s_v4 : bool }.
Inductive NatType := UNKNOWN_NAT | ASYMMETRIC | SYMMETRIC.
#[local] Instance NatType_eq_dec : EqDecision NatType.
Proof. solve_decision. Defined.

Record PunchHoleRequest := mkPunch {
  q_id : string; q_token : string; q_nat_type : NatType; q_licence_key : string; q_conn_type : ConnType;
  q_udp_port : Z; q_force_relay : bool; q_socket_addr_v6 : string;
}.
Record RequestRelay := mkRelay {
  r_id : string; r_token : string; r_uuid : string; r_relay_server : string; r_secure : bool;
  r_licence_key : string; r_conn_type : ConnType;
}.
Inductive failure := ID_NOT_EXIST | OFFLINE | LICENSE_MISMATCH | LICENSE_OVERUSE | OtherFailure.
Record PunchHoleResponse := mkPunched {
  ph_socket_addr : string; ph_other_failure : string; ph_failure : failure; ph_nat_type : NatType; ph_is_local : bool;
  ph_pk : bytes; ph_relay_server : string; ph_feedback : Z; ph_is_udp : bool; ph_socket_addr_v6 : string;
}.
Record RelayResponse := mkRelayed {
  rr_uuid : string; rr_relay_server : string; rr_pk : bytes; rr_feedback : Z; rr_socket_addr_v6 : string; rr_refuse_reason : string;
}.
Inductive rendezvous_message := RzPunch (ph : PunchHoleResponse) | RzRelay (rr : RelayResponse) | RzKeyExchange | RzOther.
(** What reading from the rendezvous server yields: nothing usable, bytes that
    are no message, a message. *)
Inductive rz_received := RzNothing | RzGarbage | RzMsg (m : rendezvous_message).

(** Questions to the outside, with the type of their answers. *)
Inductive query : Type -> Type :=
  | ConnectTcp (addr : string) (timeout : Z) : query (result stream string)
  | ConnectLocal (addr : string) (local : option string) (timeout : Z) : query (result stream string)
  | IpcRendezvousServer (timeout : Z) : query (string * list string)
  | LicenceHost : query (option string)
  | RefreshRendezvousServer : query unit
  | TestIpv6 : query unit
  | NewDirectUdp (server : string) : query bool
  | GetNatType : query Z
  | Exchange (s : stream) : query (Handshake.box_sk * Handshake.session_key * Handshake.received * result unit string)
  | WaitUdpPort : query unit
  | UdpPort : query Z
  | GetIpv6Socket : query (option string)
  | SendPunch (s : stream) (m : PunchHoleRequest) : query (result unit string)
  | NextRz (s : stream) (timeout : Z) : query rz_received
  | UdpConnect (addr : string) : query (result unit string)
  | UdpNat (typ : string) (timeout : Z) : query (result stream string)
  | UdpNatWithin (window : Z) (typ : string) (timeout : Z) : query (option (result stream string))
  | SendRelay (s : stream) (m : RequestRelay) : query (result unit string)
  | Uuid : query string
  | Elapsed : query Z
  | UpnpEndpoint (peer : string) : query string
  | Turn : query bool.

(** What is done with the login handler. *)
Inductive act : Type -> Type :=
  | Lch : act handler
  | RetryCheck : act (bool * Z)
  | SetDirectFailure (n : Z) : act unit
  | UpdateDirect (d : option bool) : act unit
  | UpdateReceived (r : bool) : act unit.

Inductive prog (A : Type) : Type :=
  | Ret (a : A)
  | Do {X} (a : act X) (k : X -> prog A)
  | Ask {X} (q : query X) (k : X -> prog A)
  | Await {X} (q : query X) (k : X -> prog A).
Arguments Ret {A} a.
Arguments Do {A X} a k.
Arguments Ask {A X} q k.
Arguments Await {A X} q k.

Fixpoint bind {A B} (p : prog A) (f : A -> prog B) : prog B :=
  match p with
  | Ret a => f a
  | Do a k => Do a (λ x, bind (k x) f)
  | Ask q k => Ask q (λ x, bind (k x) f)
  | Await q k => Await q (λ x, bind (k x) f)
  end.
Notation "'do' x ← p ; k" := (bind p (λ x, k)) (at level 60, x pattern, p at level 100, k at level 200, right associativity).
(** [?] of an asynchronous function. *)
Notation "'try' x ← p ; k" := (bind p (λ r, match r with Ok x => k | Err err => Ret (Err err) end))
  (at level 60, x pattern, p at level 100, k at level 200, right associativity).
Definition doit {X} (a : act X) : prog X := Do a Ret.
Definition ask {X} (q : query X) : prog X := Ask q Ret.
Definition await {X} (q : query X) : prog X := Await q Ret.
Definition bail {A} (err : string) : prog (result A string) := Ret (Err err).

(** Two futures of [select_ok]: both run up to their waits, then one of the
    waits is over; the first success ends it, the last error is the error. *)
Fixpoint race {A} (p q : prog (result A string)) : prog (result A string) :=
  match p with
  | Ret (Ok a) => Ret (Ok a)
  | Ret (Err _) => q
  | Do a k => Do a (λ x, race (k x) q)
  | Ask r k => Ask r (λ x, race (k x) q)
  | Await r k =>
      (fix waiting (q : prog (result A string)) : prog (result A string) :=
         match q with
         | Ret (Ok a) => Ret (Ok a)
         | Ret (Err _) => Await r k
         | Do a kq => Do a (λ x, waiting (kq x))
         | Ask s kq => Ask s (λ x, waiting (kq x))
         | Await s kq => Await Turn (λ b, if b then Await r (λ x, race (k x) q) else Await s (λ x, waiting (kq x)))
         end) q
  end.
Fixpoint select_ok {A} (l : list (prog (result A string))) : prog (result A string) :=
  match l with
  | [] => Ret (Err EmptyString)
  | [p] => p
  | p :: l => race p (select_ok l)
  end.

(** ** The handler's side *)

(** [note_direct_retry] and [set_direct_failure]; [now] in seconds. *)
Definition note_direct_retry (now : Z) : world -> world := edit (Direct.stamp now true).
Definition set_direct_failure (now value : Z) : world -> world :=
  edit (λ c, Direct.stamp now (0 <? value) (Handler.set_direct_failures value c)).
(** The decision of [connect] whether an old failure is overlooked this once; it
    reads the clock twice without waiting, taken as one reading. *)
Definition retry_check (now : Z) (w : world) : (bool * Z) * world :=
  let c := config (hd w) in
  if (0 <? direct_failures c) && Direct.is_retry_due now c then ((true, 0), note_direct_retry now w)
  else ((false, direct_failures c), w).
Definition perform {X} (a : act X) (now : Z) (w : world) : X * world :=
  match a with
  | Lch => (hd w, w)
  | RetryCheck => retry_check now w
  | SetDirectFailure n => (tt, set_direct_failure now n w)
  | UpdateDirect d => (tt, Handler.update_direct d w)
  | UpdateReceived r => (tt, Handler.update_received r w)
  end.

(** ** Settings *)
Record settings := mkSettings {
  is_incoming_only : bool; get_ipv6_punch_enabled : bool; get_udp_punch_enabled : bool; use_ws : bool;
  RS_PUB_KEY : string; RELAY_PORT : Z; RENDEZVOUS_PORT : Z; CONNECT_TIMEOUT : Z; READ_TIMEOUT : Z;
  RENDEZVOUS_SERVERS : string * list string;       (** the first and the others *)
  is_ip_str : string -> bool; is_domain_port_str : string -> bool;
  check_port : string -> Z -> string; ipv4_to_ipv6 : string -> bool -> string;
  decode : string -> string; port : string -> Z;   (** a mangled address; the port of an address *)
  any_addr : string;                               (** an address with port 0 *)
  nat_value : NatType -> Z;
}.
Context (g : settings).

(** [NatType::from_i32], unknown numbers as [UNKNOWN_NAT]. *)
Definition nat_from (z : Z) : NatType :=
  default UNKNOWN_NAT (List.find (λ t, nat_value g t =? z) [UNKNOWN_NAT; ASYMMETRIC; SYMMETRIC]).

(** ** The rendezvous server *)
Definition get_rendezvous_server (timeout : Z) : prog (string * list string * bool) :=
  do (a, b) ← await (IpcRendezvousServer timeout);
  do lic ← ask LicenceHost;
  let a := match lic with Some host => if is_empty host then a else host | None => a end in
  let b := map (λ x, check_port g x (RENDEZVOUS_PORT g)) b in
  if existsb (String.eqb a) b then Ret (a, retain (λ x, negb (String.eqb x a)) b, true)
  else Ret (List.last b a, removelast b, false).

(** A message of the server that belongs to no key exchange: a second one is
    read after a first that does. *)
Fixpoint next_messages (n : nat) (s : stream) (timeout : Z) : prog (option rendezvous_message) :=
  match n with
  | O => Ret None
  | S n =>
      do r ← await (NextRz s timeout);
      match r with
      | RzMsg RzKeyExchange => next_messages n s timeout
      | RzMsg m => Ret (Some m)
      | RzGarbage | RzNothing => Ret None
      end
  end.
Definition get_next_nonkeyexchange_msg (s : stream) (timeout : option Z) : prog (option rendezvous_message) :=
  next_messages 2 s (default (READ_TIMEOUT g) timeout).

Definition secure_tcp (s : stream) (key : string) : prog (result unit string) :=
  do (ours, k, incoming, ok) ← await (Exchange s);
  let '(r, _, _) := Handshake.secure_tcp (use_ws g) key ours k incoming ok in Ret r.
(** The key exchange with the register; the key of the stream comes with it. *)
Definition secure_connection (peer_id : string) (signed_id_pk : bytes) (key : string) (s : stream)
    : prog (result (option bytes * option Handshake.session_key) string) :=
  do (ours, k, incoming, ok) ← await (Exchange s);
  let o := Handshake.secure_connection (RS_PUB_KEY g) peer_id signed_id_pk key ours k incoming ok in
  Ret (let? pk := Handshake.answer o in Ok (pk, Handshake.set_key o)).

(** ** The relay *)
Definition create_relay (peer uuid relay_server key : string) (ct : ConnType) (ipv4 : bool) : prog (result stream string) :=
  do r ← await (ConnectTcp (ipv4_to_ipv6 g (check_port g relay_server (RELAY_PORT g)) ipv4) (CONNECT_TIMEOUT g));
  match r with
  | Err _ => bail "Failed to connect to relay server"
  | Ok s =>
      try _ ← await (SendRelay s (mkRelay peer EmptyString uuid EmptyString false key ct));
      Ret (Ok s)
  end.
(** The attempts of [request_relay]; [Ok None]: no answer in any of them. *)
Fixpoint relay_attempts (n : nat) (peer relay_server rendezvous_server : string) (secure : bool) (key token : string)
    : prog (result (option (string * bool)) string) :=
  match n with
  | O => Ret (Ok None)
  | S n =>
      do r ← await (ConnectTcp rendezvous_server (CONNECT_TIMEOUT g));
      match r with
      | Err _ => bail "Failed to connect to rendezvous server"
      | Ok s =>
          try _ ← (if negb (is_empty key) && negb (is_empty token) then secure_tcp s key else Ret (Ok tt));
          do uuid ← ask Uuid;
          try _ ← await (SendRelay s (mkRelay peer token uuid relay_server secure EmptyString DEFAULT_CONN));
          do m ← get_next_nonkeyexchange_msg s (Some (CONNECT_TIMEOUT g));
          match m with
          | Some (RzRelay rs) =>
              if is_empty (rr_refuse_reason rs) then Ret (Ok (Some (uuid, s_v4 s))) else bail (rr_refuse_reason rs)
          | _ => relay_attempts n peer relay_server rendezvous_server secure key token
          end
      end
  end.
Definition request_relay (peer relay_server rendezvous_server : string) (secure : bool) (key token : string) (ct : ConnType)
    : prog (result stream string) :=
  try r ← relay_attempts 3 peer relay_server rendezvous_server secure key token;
  match r with
  | Some (uuid, ipv4) => create_relay peer uuid relay_server key ct ipv4
  | None => bail "Timeout"
  end.

(** ** The direct attempt *)

(** How long the direct attempt may take, in milliseconds. *)
Definition MIN : Z := 1000.
Definition asymmetric_timeout (my_nat_type punch_time_used failures : Z) : Z :=
  if my_nat_type =? nat_value g ASYMMETRIC then
    (if 0 <? failures then Int.wrap 64 (punch_time_used * 6) else CONNECT_TIMEOUT g)
  else if my_nat_type =? nat_value g SYMMETRIC then MIN else 0.
Definition connect_window (is_local : bool) (peer_nat : NatType) (relay_server : string) (asymmetric : Z)
    (punch_time_used failures : Z) : Z :=
  let t :=
    if is_local || bool_decide (peer_nat = SYMMETRIC) then MIN
    else
      let t := if is_empty relay_server then CONNECT_TIMEOUT g
               else
                 let t := if bool_decide (peer_nat = ASYMMETRIC) then asymmetric else 0 in
                 if t =? 0 then Int.wrap 64 (punch_time_used * (if 0 <? failures then 3 else 6)) else t in
      if t <? MIN then MIN else t in
  if is_empty relay_server then t else Z.min t Direct.DIRECT_WINDOW_MS.

(** A connection: the stream, whether it is direct, the register's key, the key
    of the stream, whether KCP carries it, and its kind. *)
Record connection := mkConn {
  c_stream : stream; c_direct : bool; c_pk : option bytes; c_key : option Handshake.session_key; c_kcp : bool; c_typ : string;
}.

(** The addresses tried, each with a window. *)
Definition within (window : Z) (typ : string) : prog (result (stream * bool * string) string) :=
  do r ← await (UdpNatWithin window typ window);
  match r with
  | Some (Ok s) => Ret (Ok (s, true, typ))
  | Some (Err err) => bail err
  | None => bail (typ +:+ " punch timed out")
  end.
Definition tcp_candidate (addr : string) (local : option string) (window : Z) (typ : string)
    : prog (result (stream * bool * string) string) :=
  try s ← await (ConnectLocal addr local window);
  Ret (Ok (s, false, typ)).
Definition candidates (ep peer local_addr : string) (window : Z) (udp v6 : bool) : list (prog (result (stream * bool * string) string)) :=
  (if is_empty ep then [] else [tcp_candidate ep None window "UPnP"])
  ++ [tcp_candidate peer (Some local_addr) window "TCP"]
  ++ (if udp then [within window "UDP"] else [])
  ++ (if v6 then [within window "IPv6"] else []).

Definition connect (local_addr peer peer_id : string) (signed_id_pk : bytes) (relay_server rendezvous_server : string)
    (punch_time_used : Z) (peer_nat_type : NatType) (my_nat_type : Z) (is_local : bool) (key token : string) (ct : ConnType)
    (udp v6 : bool) : prog (result connection string) :=
  do (cr_retry, failures) ← doit RetryCheck;
  do asymmetric ←
    (if negb (is_local || bool_decide (peer_nat_type = SYMMETRIC)) && negb (is_empty relay_server)
        && bool_decide (peer_nat_type = ASYMMETRIC) then
       do my ← (if my_nat_type =? nat_value g UNKNOWN_NAT then await GetNatType else Ret my_nat_type);
       Ret (asymmetric_timeout my punch_time_used failures)
     else Ret 0);
  let window := connect_window is_local peer_nat_type relay_server asymmetric punch_time_used failures in
  do ep ← ask (UpnpEndpoint peer_id);
  do conn ← select_ok (candidates ep peer local_addr window udp v6);
  do h ← doit Lch;
  do found ←
    (if force_relay h || negb (is_ok conn) then
       if negb (is_empty relay_server) then
         do r ← request_relay peer_id relay_server rendezvous_server
                  (match signed_id_pk with [] => false | _ => true end) key token ct;
         match r with
         | Err err => do _ ← doit (UpdateDirect (Some false)); bail ("Failed to connect via relay server: " +:+ err)
         | Ok s => Ret (Ok (s, match conn with Ok (_, kcp, _) => kcp | Err _ => false end, "Relay"%string, false))
         end
       else bail "Failed to make direct connection to remote desktop"
     else match conn with
          | Ok (s, kcp, typ) => Ret (Ok (s, kcp, typ, true))
          | Err err => bail err
          end);
  match found with
  | Err err => Ret (Err err)
  | Ok (s, kcp, typ, direct) =>
      do res ← secure_connection peer_id signed_id_pk key s;
      match res with
      | Ok (pk, k) => Ret (Ok (mkConn s direct pk k kcp typ))
      | Err err => do _ ← doit (UpdateDirect (Some direct)); bail err
      end
  end.

(** ** Asking the rendezvous server *)
Definition started : Type := connection * (Z * string) * bool.

Fixpoint other_servers (l : list string) (current : string) (last : result stream string)
    : prog (result stream string * string) :=
  match l with
  | [] => Ret (last, current)
  | server :: l =>
      let server := check_port g server (RENDEZVOUS_PORT g) in
      do r ← await (ConnectTcp server (CONNECT_TIMEOUT g));
      match r with Ok _ => Ret (r, server) | Err _ => other_servers l current r end
  end.
Definition punch_error (ph : PunchHoleResponse) : string :=
  if negb (is_empty (ph_other_failure ph)) then ph_other_failure ph
  else match ph_failure ph with
       | ID_NOT_EXIST => "ID does not exist"
       | OFFLINE => "Remote desktop is offline"
       | LICENSE_MISMATCH => "Key mismatch"
       | LICENSE_OVERUSE => "Key overuse"
       | OtherFailure => "other punch hole failure"
       end.

(** What an answer means: the register's address with the sockets that stay, or
    a relay the register asks for. *)
Inductive punched := Hole (ph : PunchHoleResponse) (udp v6 : bool) | Relayed (rr : RelayResponse) | Unanswered.
Definition take_hole (ph : PunchHoleResponse) (udp : bool) (v6 : option string) : prog punched :=
  do _ ← (if ph_is_udp ph && udp then do _ ← await (UdpConnect (decode g (ph_socket_addr ph))); Ret tt else Ret tt);
  let addr := decode g (ph_socket_addr_v6 ph) in
  let to_v6 := negb (is_empty (ph_socket_addr_v6 ph)) && match v6 with Some _ => true | None => false end
               && (0 <? port g addr) in
  do _ ← (if to_v6 then do _ ← await (UdpConnect addr); Ret tt else Ret tt);
  Ret (Hole ph (ph_is_udp ph && udp) to_v6).
Fixpoint punch_attempts (n : nat) (i : Z) (s : stream) (m : PunchHoleRequest) (udp : bool) (v6 : option string)
    : prog (result punched string) :=
  match n with
  | O => Ret (Ok Unanswered)
  | S n =>
      try _ ← await (SendPunch s m);
      do r ← get_next_nonkeyexchange_msg s (Some (i * 3000));
      match r with
      | Some (RzPunch ph) =>
          if is_empty (ph_socket_addr ph) then bail (punch_error ph)
          else do h ← take_hole ph udp v6; Ret (Ok h)
      | Some (RzRelay rr) => Ret (Ok (Relayed rr))
      | _ => punch_attempts n (i + 1) s m udp v6
      end
  end.

(** The register asked for a relay: the stream over the relay, or over IPv6 if
    that is up first. *)
Definition relayed (peer key : string) (ct : ConnType) (my_v4 v6 : bool) (rendezvous_server : string) (rr : RelayResponse)
    : prog (result started string) :=
  let addr := decode g (rr_socket_addr_v6 rr) in
  do ipv6 ← (if v6 && (0 <? port g addr) then
               do r ← await (UdpConnect addr);
               Ret (if is_ok r then [try s ← await (UdpNat "IPv6" (CONNECT_TIMEOUT g)); Ret (Ok (s, true, "IPv6"%string))] else [])
             else Ret []);
  let relay := try s ← create_relay peer (rr_uuid rr) (rr_relay_server rr) key ct my_v4;
               Ret (Ok (s, false, (if use_ws g then "WebSocket" else "Relay")%string)) in
  try (s, kcp, typ) ← select_ok (ipv6 ++ [relay]);
  try (pk, k) ← secure_connection peer (rr_pk rr) key s;
  Ret (Ok (mkConn s (String.eqb typ "IPv6") pk k kcp typ, (rr_feedback rr, rendezvous_server), false)).

Definition start_inner (peer key token : string) (ct : ConnType) (udp : bool) (rendezvous_server : string)
    (servers : list string) (contained : bool) : prog (result started string) :=
  do first ← await (ConnectTcp rendezvous_server (CONNECT_TIMEOUT g));
  do (socket, rendezvous_server) ←
    (if negb (is_ok first) && match servers with [] => false | _ => true end then
       do r ← other_servers servers rendezvous_server first;
       do _ ← ask RefreshRendezvousServer; Ret r
     else if negb contained then do _ ← ask RefreshRendezvousServer; Ret (first, rendezvous_server)
     else Ret (first, rendezvous_server));
  match socket with
  | Err err => bail err
  | Ok s =>
      do my_nat_type ← await GetNatType;
      do h ← doit Lch;
      let nat_type := if force_relay h then SYMMETRIC else nat_from my_nat_type in
      do r ← (if negb (is_empty key) && negb (is_empty token) then
                do r ← secure_tcp s key;
                Ret (match r with Ok x => Ok x | Err err => Err ("Failed to secure tcp: " +:+ err) end)
              else if udp then do _ ← await WaitUdpPort; Ret (Ok tt) else Ret (Ok tt));
      match r with
      | Err err => bail err
      | Ok _ =>
          do v6 ← (if get_ipv6_punch_enabled g then await GetIpv6Socket else Ret None);
          do udp_nat_port ← (if udp then ask UdpPort else Ret 0);
          do h ← doit Lch;
          let m := mkPunch peer token nat_type key ct udp_nat_port (force_relay h) (default EmptyString v6) in
          try p ← punch_attempts 3 1 s m udp v6;
          match p with
          | Unanswered => bail "Failed to connect via rendezvous server"
          | Relayed rr =>
              relayed peer key ct (s_v4 s) (match v6 with Some _ => true | None => false end) rendezvous_server rr
          | Hole ph udp v6 =>
              let peer_addr := decode g (ph_socket_addr ph) in
              if port g peer_addr =? 0 then bail "Failed to connect via rendezvous server" else
              do time_used ← ask Elapsed;
              try c ← connect (s_local s) peer_addr peer (ph_pk ph) (ph_relay_server ph) rendezvous_server time_used
                        (ph_nat_type ph) my_nat_type (ph_is_local ph) key token ct udp v6;
              Ret (Ok (c, (ph_feedback ph, rendezvous_server), true))
          end
      end
  end.

(** An address typed instead of a number is connected to as it is. *)
Definition by_address (addr : string) : prog (result started string) :=
  try s ← await (ConnectLocal addr None (CONNECT_TIMEOUT g));
  Ret (Ok (mkConn s true None None false "TCP", (0, EmptyString), false)).
Definition start_ (peer key token : string) (ct : ConnType) : prog (result started string) :=
  if is_incoming_only g then bail "Incoming only mode"
  else if is_ip_str g peer then by_address (check_port g peer (RELAY_PORT g + 1))
  else if is_domain_port_str g peer then by_address peer
  else
    do h ← doit Lch;
    let '(peer, other, key, token) :=
      match other_server h with Some (a, b, c) => (a, b, c, EmptyString) | None => (peer, EmptyString, key, token) end in
    do (rendezvous_server, servers, contained) ←
      (if is_empty other then get_rendezvous_server 1000
       else if String.eqb other Handler.PUBLIC_SERVER then
         Ret (check_port g (RENDEZVOUS_SERVERS g).1 (RENDEZVOUS_PORT g), (RENDEZVOUS_SERVERS g).2, true)
       else Ret (check_port g other (RENDEZVOUS_PORT g), [], true));
    do _ ← (if get_ipv6_punch_enabled g then await TestIpv6 else Ret tt);
    do h ← doit Lch;
    do udp ← (if get_udp_punch_enabled g && negb (force_relay h) then await (NewDirectUdp rendezvous_server) else Ret false);
    let inner := λ udp, start_inner peer key token ct udp rendezvous_server servers contained in
    if negb udp then inner false else select_ok [inner true; inner false].

(** The start of a session's connection, and what is remembered of it. *)
Definition start (peer key token : string) (ct : ConnType) : prog (result (connection * (Z * string)) string) :=
  do _ ← doit (UpdateDirect None);
  do _ ← doit (UpdateReceived false);
  do r ← start_ peer key token ct;
  match r with
  | Err err => bail (if starts_with "Failed" err then err +:+ ": Please try later" else err)
  | Ok (c, f, noted) =>
      do _ ← (if noted then
                do h ← doit Lch;
                let failures := direct_failures (config h) in
                let direct := c_direct c in
                if negb (force_relay h) && negb (Bool.eqb (failures =? 0) direct)
                then doit (SetDirectFailure (if direct then 0 else 1)) else Ret tt
              else Ret tt);
      Ret (Ok (c, f))
  end.

(** ** Runs *)

(** A run answers every question; what is asked and done is its trace. *)
Inductive step : Type :=
  | SAct {X : Type} (a : act X) (x : X)
  | SQuery {X : Type} (q : query X) (x : X).
Fixpoint runs {A} (p : prog A) (tr : list step) (r : A) : Prop :=
  match p with
  | Ret a => tr = [] /\ r = a
  | Do a k => exists x t, tr = SAct a x :: t /\ runs (k x) t r
  | Ask q k | Await q k => exists x t, tr = SQuery q x :: t /\ runs (k x) t r
  end.
(** Every question a program may ask, whatever is answered. *)
Fixpoint asks {A} (P : forall X, query X -> Prop) (p : prog A) : Prop :=
  match p with
  | Ret _ => True
  | Do _ k => forall x, asks P (k x)
  | Ask q k | Await q k => P _ q /\ forall x, asks P (k x)
  end.

(** A program run alone: [orc] answers the [n]th question, [clock] is the time in
    seconds at the [n]th step. *)
Fixpoint exec {A} (orc : nat -> forall X, query X -> X) (clock : nat -> Z) (n : nat) (p : prog A) (w : world) : A * world * nat :=
  match p with
  | Ret a => (a, w, n)
  | Do a k => let '(x, w) := perform a (clock n) w in exec orc clock (S n) (k x) w
  | Ask q k | Await q k => exec orc clock (S n) (k (orc n _ q)) w
  end.

(** *** Lemmas on programs *)
Lemma asks_bind {A B} (P : forall X, query X -> Prop) (p : prog A) (f : A -> prog B) :
  asks P p -> (forall a, asks P (f a)) -> asks P (bind p f).
Proof.
  intros Hp Hf. induction p as [a|X a k IH|X q k IH|X q k IH]; simpl in *; [done|intros x; auto|..];
    (destruct Hp; split; [done|auto]).
Qed.
Lemma asks_race {A} (P : forall X, query X -> Prop) (p q : prog (result A string)) :
  P _ Turn -> asks P p -> asks P q -> asks P (race p q).
Proof.
  intros Ht. revert q. induction p as [[a|er]|X a k IH|X r k IH|X r k IH]; intros q Hp Hq; try done.
  - intros x. apply IH; [apply Hp|done].
  - destruct Hp. split; [done|]. intros x. by apply IH.
  - induction q as [[b|er]|Y b kq IHq|Y s kq IHq|Y s kq IHq]; try done.
    + intros x. apply IHq. apply Hq.
    + destruct Hq as [Hq1 Hq2]. split; [done|]. intros x. apply IHq. apply Hq2.
    + split; [done|]. intros [].
      * destruct Hp as [Hp1 Hp2]. split; [done|]. intros x. apply IH; [apply Hp2|done].
      * destruct Hq as [Hq1 Hq2]. split; [done|]. intros x. apply IHq. apply Hq2.
Qed.
Lemma asks_select {A} (P : forall X, query X -> Prop) (l : list (prog (result A string))) :
  P _ Turn -> Forall (asks P) l -> asks P (select_ok l).
Proof.
  intros Ht H. induction H as [|p l Hp Hl IH]; [done|]. simpl. destruct l; [done|]. by apply asks_race.
Qed.
Lemma exec_bind {A B} orc clock (p : prog A) (f : A -> prog B) n w :
  exec orc clock n (bind p f) w = let '(a, w', m) := exec orc clock n p w in exec orc clock m (f a) w'.
Proof.
  revert n w. induction p as [a|X a k IH|X q k IH|X q k IH]; intros n w; simpl; try done.
  destruct (perform a (clock n) w) as [x w']. apply IH.
Qed.
Lemma runs_bind {A B} (p : prog A) (f : A -> prog B) tr r :
  runs (bind p f) tr r -> exists t1 t2 a, tr = t1 ++ t2 /\ runs p t1 a /\ runs (f a) t2 r.
Proof.
  revert tr. induction p as [a|X a k IH|X q k IH|X q k IH]; intros tr H; simpl in H; [by exists [], tr, a|..];
    destruct H as (x & t & -> & H); destruct (IH x t H) as (t1 & t2 & a' & -> & H1 & H2);
    (eexists (_ :: t1), t2, a'; split_and!; [reflexivity|by exists x, t1|done]).
Qed.

(** *** What a program asks and does *)

Definition is_relay {X} (q : query X) : bool := match q with SendRelay _ _ => true | _ => false end.
Definition relays (tr : list step) : bool := existsb (λ s, match s with SQuery q _ => is_relay q | SAct _ _ => false end) tr.
Definition acts (tr : list step) : list step := List.filter (λ s, match s with SAct _ _ => true | _ => false end) tr.
Fixpoint quiet {A} (p : prog A) : Prop :=
  match p with
  | Ret _ => True
  | Do _ _ => False
  | Ask q k | Await q k => forall x, quiet (k x)
  end.
Lemma quiet_acts {A} (p : prog A) tr r : quiet p -> runs p tr r -> acts tr = [].
Proof.
  revert tr. induction p as [a|X a k IH|X q k IH|X q k IH]; intros tr Hq H; simpl in *; [by destruct H as [-> _]|done|..];
    destruct H as (x & t & -> & H); by apply (IH x t).
Qed.
Lemma asks_relays {A} (p : prog A) tr r : asks (λ X q, is_relay q = false) p -> runs p tr r -> relays tr = false.
Proof.
  revert tr. induction p as [a|X a k IH|X q k IH|X q k IH]; intros tr Hq H; simpl in *; [by destruct H as [-> _]|..];
    destruct H as (x & t & -> & H); simpl; [by apply (IH x t)|..]; destruct Hq as [-> Hq]; by apply (IH x t).
Qed.
Lemma quiet_bind {A B} (p : prog A) (f : A -> prog B) : quiet p -> (forall a, quiet (f a)) -> quiet (bind p f).
Proof. intros Hp Hf. induction p as [a|X a k IH|X q k IH|X q k IH]; simpl in *; [done|done|auto|auto]. Qed.
Lemma quiet_race {A} (p q : prog (result A string)) : quiet p -> quiet q -> quiet (race p q).
Proof.
  revert q. induction p as [[a|er]|X a k IH|X r k IH|X r k IH]; intros q Hp Hq; try done.
  - intros x. by apply IH.
  - induction q as [[b|er]|Y b kq IHq|Y s kq IHq|Y s kq IHq]; try done.
    + intros x. apply IHq. apply Hq.
    + intros []; intros x; [by apply IH | apply IHq; apply Hq].
Qed.
Lemma quiet_select {A} (l : list (prog (result A string))) : Forall quiet l -> quiet (select_ok l).
Proof. intros H. induction H as [|p l Hp Hl IH]; [done|]. simpl. destruct l; [done|]. by apply quiet_race. Qed.

(** What [select_ok] returns was returned by one of its futures. *)
Fixpoint gives {A} (Q : A -> Prop) (p : prog A) : Prop :=
  match p with
  | Ret a => Q a
  | Do _ k => forall x, gives Q (k x)
  | Ask _ k | Await _ k => forall x, gives Q (k x)
  end.
Lemma gives_runs {A} (Q : A -> Prop) (p : prog A) tr r : gives Q p -> runs p tr r -> Q r.
Proof.
  revert tr. induction p as [a|X a k IH|X q k IH|X q k IH]; intros tr Hq H; simpl in *; [by destruct H as [_ ->]|..];
    destruct H as (x & t & -> & H); by apply (IH x t).
Qed.
Lemma gives_bind {A B} (Q : B -> Prop) (p : prog A) (f : A -> prog B) : (forall a, gives Q (f a)) -> gives Q (bind p f).
Proof. intros Hf. induction p as [a|X a k IH|X q k IH|X q k IH]; simpl in *; auto. Qed.
Lemma gives_race {A} (Q : result A string -> Prop) (p q : prog (result A string)) : gives Q p -> gives Q q -> gives Q (race p q).
Proof.
  revert q. induction p as [[a|er]|X a k IH|X r k IH|X r k IH]; intros q Hp Hq; try done.
  - intros x. by apply IH.
  - intros x. by apply IH.
  - induction q as [[b|er]|Y b kq IHq|Y s kq IHq|Y s kq IHq]; try done.
    + intros x. apply IHq. apply Hq.
    + intros x. apply IHq. apply Hq.
    + intros []; intros x; [by apply IH | apply IHq; apply Hq].
Qed.
Lemma gives_select {A} (Q : result A string -> Prop) (l : list (prog (result A string))) : l <> [] -> Forall (gives Q) l -> gives Q (select_ok l).
Proof.
  intros Hl H. induction H as [|p l Hp Hf IH]; [done|]. simpl. destruct l as [|q l]; [done|]. apply gives_race; [done|]. by apply IH.
Qed.

(** *** The window *)
Lemma window_bounds is_local nat relay asymmetric used failures :
  let t := connect_window is_local nat relay asymmetric used failures in
  MIN <= t /\ (is_empty relay = false -> t <= Direct.DIRECT_WINDOW_MS).
Proof.
  cbv zeta. unfold connect_window. set (t := if is_local || _ then MIN else _).
  assert (MIN <= t) as Ht.
  { unfold t. destruct (is_local || _); [done|]. cbv zeta. destruct (_ <? MIN) eqn:E; bool_prop; lia. }
  unfold Direct.DIRECT_WINDOW_MS, MIN in *. destruct (is_empty relay); split; try done; lia.
Qed.
(** A wait for a direct connection lasts between a second and the window. *)
Definition short_wait {X} (q : query X) : Prop :=
  match q with
  | ConnectLocal _ _ t | UdpNat _ t => MIN <= t <= Direct.DIRECT_WINDOW_MS
  | UdpNatWithin w _ t => t = w /\ MIN <= w <= Direct.DIRECT_WINDOW_MS
  | _ => True
  end.
Lemma secure_tcp_waits s key : asks (λ X q, short_wait q) (secure_tcp s key).
Proof. split; [done|]. intros [[[ours k] incoming] ok]. simpl. by destruct (Handshake.secure_tcp _ _ _ _ _ _) as [[? ?] ?]. Qed.
Lemma relay_waits n peer relay server secure key token ct :
  asks (λ X q, short_wait q) (relay_attempts n peer relay server secure key token)
  /\ forall uuid k v4, asks (λ X q, short_wait q) (create_relay peer uuid relay k ct v4).
Proof.
  split.
  - induction n as [|n IH]; [done|]. cbn [relay_attempts]. apply asks_bind; [done|]. intros [s|]; [|done].
    apply asks_bind; [destruct (_ && _); [apply secure_tcp_waits|done]|]. intros [|]; [|done]. apply asks_bind; [done|]. intros uuid.
    apply asks_bind; [done|]. intros [|]; [|done]. apply asks_bind; [|intros [[ph|rr| |]|]; try done; simpl; destruct (is_empty (rr_refuse_reason rr)); done].
    unfold get_next_nonkeyexchange_msg. simpl. split; [done|]. intros r. repeat case_match; try done.
    split; [done|]. intros r'. by repeat case_match.
  - intros uuid k v4. split; [done|]. intros [s|]; [|done]. split; [done|]. by intros [|].
Qed.
Lemma candidate_waits ep peer local t udp v6 : MIN <= t <= Direct.DIRECT_WINDOW_MS ->
  Forall (asks (λ X q, short_wait q)) (candidates ep peer local t udp v6).
Proof.
  intros Ht. unfold candidates, tcp_candidate, within. destruct (is_empty ep), udp, v6; repeat constructor; simpl; try lia;
    intros x; by repeat case_match.
Qed.

(** No register keeps the technician waiting.  Where there is a relay to
    fall back to, every attempt at a direct connection, over whatever way and
    whatever is remembered of the register, is given between one and three
    seconds. *)
Theorem direct_window local_addr peer peer_id pk relay server used nat my is_local key token ct udp v6 :
  is_empty relay = false ->
  asks (λ X q, short_wait q)
    (connect local_addr peer peer_id pk relay server used nat my is_local key token ct udp v6).
Proof.
  intros Hr. unfold connect. apply asks_bind; [done|]. intros [due failures].
  apply asks_bind; [destruct (_ && _ && _); [|done]; apply asks_bind; [by destruct (_ =? _)|done]|]. intros asym.
  destruct (window_bounds is_local nat relay asym used failures) as [H1 H2]. specialize (H2 Hr).
  apply asks_bind; [done|]. intros ep.
  apply asks_bind; [by apply asks_select, candidate_waits|]. intros conn. apply asks_bind; [done|]. intros h. apply asks_bind.
  - destruct (force_relay h || negb (is_ok conn)); [|by destruct conn as [[[? ?] ?]|]].
    rewrite Hr. cbn [negb]. apply asks_bind; [|by intros [|]].
    apply asks_bind; [apply relay_waits; exact ct|]. intros [[[uuid v4]|]|]; try done.
    apply (relay_waits 0 peer_id relay server true key token ct).
  - intros [[[[s kcp] typ] direct]|]; [|done]. apply asks_bind; [|intros [[? ?]|]; done].
    split; [done|]. by intros [[[? ?] ?] ?].
Qed.

(** *** The outcome *)
Lemma acts_app a b : acts (a ++ b) = acts a ++ acts b.
Proof. apply List.filter_app. Qed.
Lemma relays_app a b : relays (a ++ b) = relays a || relays b.
Proof. apply existsb_app. Qed.
Lemma quiet_secure_tcp s key : quiet (secure_tcp s key).
Proof. intros [[[ours k] incoming] ok]. simpl. by destruct (Handshake.secure_tcp _ _ _ _ _ _) as [[? ?] ?]. Qed.
Lemma quiet_secure peer pk key s : quiet (secure_connection peer pk key s) /\ asks (λ X q, is_relay q = false) (secure_connection peer pk key s).
Proof. split; [|split; [done|]]; by intros [[[ours k] incoming] ok]. Qed.
Lemma quiet_relay peer relay server secure key token ct : quiet (request_relay peer relay server secure key token ct).
Proof.
  unfold request_relay. apply quiet_bind.
  - generalize 3%nat. intros n. induction n as [|n IH]; [done|]. cbn [relay_attempts]. apply quiet_bind; [done|]. intros [s|]; [|done].
    apply quiet_bind; [destruct (_ && _); [apply quiet_secure_tcp|done]|]. intros [|]; [|done].
    apply quiet_bind; [done|]. intros uuid. apply quiet_bind; [done|]. intros [|]; [|done].
    apply quiet_bind; [|intros [[ph|rr| |]|]; try done; simpl; destruct (is_empty (rr_refuse_reason rr)); done].
    unfold get_next_nonkeyexchange_msg. simpl. intros r. repeat case_match; try done. intros r'. by repeat case_match.
  - intros [[[uuid v4]|]|]; try done. unfold create_relay. intros [s|]; [|done]. by intros [|].
Qed.
Lemma relay_asked peer relay server secure key token ct tr s :
  runs (request_relay peer relay server secure key token ct) tr (Ok s) -> relays tr = true.
Proof.
  intros H. apply runs_bind in H as (t1 & t2 & r & -> & _ & H). rewrite relays_app. apply orb_true_iff. right.
  destruct r as [[[uuid v4]|]|]; [|by destruct H|by destruct H].
  destruct H as (x & t & -> & H). destruct x as [s'|]; [|by destruct H].
  destruct H as (y & t' & -> & H). done.
Qed.
Definition typ_of (r : result (stream * bool * string) string) : Prop :=
  match r with Ok (_, _, typ) => In typ ["UPnP"; "TCP"; "UDP"; "IPv6"]%string | Err _ => True end.
Lemma candidates_ok ep peer local t udp v6 : let l := candidates ep peer local t udp v6 in
  quiet (select_ok l) /\ asks (λ X q, is_relay q = false) (select_ok l) /\ gives typ_of (select_ok l).
Proof.
  cbv zeta. split_and!.
  - apply quiet_select. unfold candidates, tcp_candidate, within. destruct (is_empty ep), udp, v6; repeat constructor; simpl;
      intros x; by repeat case_match.
  - apply asks_select; [done|]. unfold candidates, tcp_candidate, within. destruct (is_empty ep), udp, v6; repeat constructor; simpl;
      intros x; by repeat case_match.
  - apply gives_select; [unfold candidates; by destruct (is_empty ep)|].
    unfold candidates, tcp_candidate, within. destruct (is_empty ep), udp, v6; repeat constructor; simpl;
      intros x; repeat case_match; simpl; tauto.
Qed.

Lemma settled_runs peer pk key s direct kcp typ tr r :
  runs (do res ← secure_connection peer pk key s;
        match res with
        | Ok (pk, k) => Ret (Ok (mkConn s direct pk k kcp typ))
        | Err err => do _ ← doit (UpdateDirect (Some direct)); bail err
        end) tr r ->
  relays tr = false
  /\ match r with
     | Ok c => c_direct c = direct /\ c_typ c = typ /\ acts tr = []
     | Err _ => acts tr = [SAct (UpdateDirect (Some direct)) tt]
     end.
Proof.
  intros H. apply runs_bind in H as (t1 & t2 & res & -> & H1 & H2). destruct (quiet_secure peer pk key s) as [Q As].
  apply (quiet_acts _ _ _ Q) in H1 as A1. apply (asks_relays _ _ _ As) in H1 as R1. rewrite relays_app, acts_app, A1, R1.
  destruct res as [[pk' k]|err].
  - by destruct H2 as [-> ->].
  - destruct H2 as ([] & t & -> & -> & ->). by split.
Qed.

(** What a connection says of itself is true.  A connection reported as
    direct is one of the direct ways, no relay was asked, and the session does
    not insist on one; any other goes over the relay the server named.  When it
    fails although there is a relay, the session was told right before whether
    the failed one was direct; nothing else is changed on the way but the
    decision about an old failure. *)
Theorem connect_outcome local_addr peer peer_id pk relay server used nat my is_local key token ct udp v6 tr r :
  runs (connect local_addr peer peer_id pk relay server used nat my is_local key token ct udp v6) tr r ->
  exists x h told, acts tr = SAct RetryCheck x :: SAct Lch h :: told
  /\ match r with
     | Ok c =>
         told = []
         /\ (if c_direct c
             then force_relay h = false /\ relays tr = false /\ In (c_typ c) ["UPnP"; "TCP"; "UDP"; "IPv6"]%string
             else is_empty relay = false /\ relays tr = true /\ c_typ c = "Relay"%string)
     | Err _ =>
         told = [SAct (UpdateDirect (Some false)) tt] /\ is_empty relay = false
         \/ told = [SAct (UpdateDirect (Some true)) tt] /\ force_relay h = false /\ relays tr = false
         \/ told = [] /\ is_empty relay = true
     end.
Proof.
  intros H. apply runs_bind in H as (t0 & t1 & [due failures] & -> & H0 & H).
  destruct H0 as (x & t & -> & -> & E). 
  apply runs_bind in H as (t2 & t3 & asym & -> & H2 & H).
  assert (acts t2 = [] /\ relays t2 = false) as [A2 R2].
  { split; [eapply quiet_acts | eapply asks_relays]; try exact H2; destruct (_ && _ && _); try done.
    - apply quiet_bind; [by destruct (_ =? _)|done].
    - apply asks_bind; [by destruct (_ =? _)|done]. }
  apply runs_bind in H as (t4 & t5 & ep & -> & H4 & H). destruct H4 as (x4 & t & -> & -> & ->).
  apply runs_bind in H as (t6 & t7 & conn & -> & H6 & H).
  destruct (candidates_ok x4 peer local_addr (connect_window is_local nat relay asym used failures) udp v6) as (Q6 & As6 & G6).
  apply (quiet_acts _ _ _ Q6) in H6 as A6. apply (asks_relays _ _ _ As6) in H6 as R6. apply (gives_runs _ _ _ _ G6) in H6 as T6.
  apply runs_bind in H as (t8 & t9 & h & -> & H8 & H). destruct H8 as (x8 & t & -> & -> & ->).
  apply runs_bind in H as (t10 & t11 & found & -> & H10 & H).
  exists x, x8, (acts (t10 ++ t11)).
  rewrite !acts_app, !relays_app, A2, A6, R2, R6. split; [done|]. simpl.
  destruct (force_relay x8 || negb (is_ok conn)) eqn:Ef.
  - destruct (is_empty relay) eqn:Er; cbn [negb] in H10.
    { destruct H10 as [-> ->]. destruct H as [-> ->]. right. right. done. }
    apply runs_bind in H10 as (t12 & t13 & res & -> & H12 & H13). apply (quiet_acts _ _ _ (quiet_relay _ _ _ _ _ _ _)) in H12 as A12.
    destruct res as [s|err].
    + destruct H13 as [-> ->]. apply relay_asked in H12. apply settled_runs in H as [R11 H].
      rewrite acts_app, relays_app, A12, H12, R11. destruct r as [c|er]; [|left; split; [exact H|done]].
      destruct H as (-> & -> & ->). done.
    + destruct H13 as ([] & t & -> & -> & ->). destruct H as [-> ->]. left. by rewrite !acts_app, A12.
  - apply orb_false_iff in Ef as [Ef Ec]. destruct conn as [[[s kcp] typ]|]; [|done]. destruct H10 as [-> ->].
    apply settled_runs in H as [R11 H]. rewrite R11. destruct r as [c|er].
    + destruct H as (-> & -> & ->). done.
    + right. left. done.
Qed.

(** *** What is remembered *)

(** Of a configuration, what the decision about a retry looks at. *)
Definition marks (c : Handler.PeerConfig) : Z * option string := (direct_failures c, Handler.ui_flutter c !! Direct.KEY).
Definition marks_on_disk (w : world) (i : string) : Z * option string := marks (Handler.load i (Handler.files w)).

Lemma load_store i c d j : marks (Handler.load j (Handler.store i c d)) = if decide (i = j) then marks c else marks (Handler.load j d).
Proof.
  case_decide as E; [|by rewrite Handler.load_store_ne]. subst j.
  destruct (Handler.load_store_eq i c d) as (o & _ & ->). done.
Qed.

(** The outcome of a start is remembered.  After a connection by the
    register's number, unless the session insists on the relay, the configuration
    in memory and on the disk counts no failure exactly when the connection was
    direct; when that is news the time of the failure is noted or forgotten with
    it.  In every other case the configuration is as it was. *)
Theorem start_remembers orc clock n peer key token ct w :
  let w0 := Handler.update_received false (Handler.update_direct None w) in
  let '(r, w1, m) := exec orc clock (S (S n)) (start_ peer key token ct) w0 in
  let '(r', w', m') := exec orc clock n (start peer key token ct) w in
  match r with
  | Err err => r' = Err (if starts_with "Failed" err then err +:+ ": Please try later" else err)%string /\ w' = w1
  | Ok (c, f, noted) =>
      r' = Ok (c, f)
      /\ (if noted && negb (force_relay (hd w1)) then
            let failures := direct_failures (config (hd w1)) in
            if Bool.eqb (failures =? 0) (c_direct c) then w' = w1
            else marks (config (hd w')) = (if c_direct c then (0, None) else (1, Some (to_string (clock (S m)))))
                 /\ marks_on_disk w' (id (hd w')) = marks (config (hd w')) /\ id (hd w') = id (hd w1)
          else w' = w1)
  end.
Proof.
  cbv zeta. unfold start. cbn [bind exec doit perform].
  destruct (exec orc clock (S (S n)) (start_ peer key token ct) _) as [[r w1] m] eqn:E.
  rewrite exec_bind, E. destruct r as [[[c f] noted]|err]; [|done].
  destruct noted; cbn [andb]; [|done].
  cbn [bind exec doit perform].
  destruct (force_relay (hd w1)); cbn [negb andb]; [done|].
  destruct (Bool.eqb (direct_failures (config (hd w1)) =? 0) (c_direct c)); cbn [negb]; [done|].
  cbn [bind exec doit perform]. split; [done|].
  unfold set_direct_failure, edit, Handler.save_config, marks_on_disk. cbn [hd Handler.files].
  change (id (Handler.set_config ?a ?b)) with (id b). rewrite load_store, decide_True by done.
  split_and!; try done. destruct (c_direct c); unfold marks, Direct.stamp; simpl;
    by rewrite ?lookup_delete_eq, ?lookup_insert_eq.
Qed.

(** *** How often a retry is granted *)
Context {sha : Sha256} (he : Handler.env).

(** What happens to the handler of a window over time: steps of its connections,
    operations of its session, a session with another register. *)
Inductive event : Type :=
  | EAct {X : Type} (a : act X)
  | EOp (o : Handler.op)
  | EInit (typed : string) (ct : ConnType) (switch : option string) (relay : bool) (luid : option Z) (shared token : option string).
(** The registers granted a full window, with the time. *)
Definition grant {X} (a : act X) (now : Z) (w : world) : list (string * Z) :=
  match a with
  | RetryCheck => if (retry_check now w).1.1 then [(id (hd w), now)] else []
  | _ => []
  end.
Definition happens (x : Z * event) (wg : world * list (string * Z)) : world * list (string * Z) :=
  match x.2 with
  | EAct a => ((perform a x.1 wg.1).2, wg.2 ++ grant a x.1 wg.1)
  | EOp o => (Handler.exec he o wg.1, wg.2)
  | EInit typed ct switch relay luid shared token => (Handler.initialize he typed ct switch relay luid shared token wg.1, wg.2)
  end.
Definition history (l : list (Z * event)) (w : world) : world * list (string * Z) := foldl (λ wg x, happens x wg) (w, []) l.

(** Everything but the steps of connections leaves the marks alone. *)
Definition marks_in_sync (w : world) : Prop := marks (config (hd w)) = marks_on_disk w (id (hd w)).
Definition marks_kept (w w' : world) : Prop :=
  marks_in_sync w' /\ forall i, marks_on_disk w' i = marks_on_disk w i.

Lemma kept_same w w' : Handler.files w' = Handler.files w -> config (hd w') = config (hd w) -> id (hd w') = id (hd w) ->
  marks_in_sync w -> marks_kept w w'.
Proof. unfold marks_kept, marks_in_sync, marks_on_disk. intros -> -> ->. done. Qed.
Lemma kept_save c w : marks c = marks_on_disk w (id (hd w)) -> marks_kept w (Handler.save_config c w).
Proof.
  intros H. unfold marks_kept, marks_in_sync, marks_on_disk, Handler.save_config in *. simpl.
  change (id (Handler.set_config ?a ?b)) with (id b).
  split; [by rewrite load_store, decide_True|]. intros i. rewrite load_store. case_decide as E; [|done]. by subst.
Qed.
Lemma kept_edit f w : (forall c, marks (f c) = marks c) -> marks_kept w (edit f w).
Proof. intros H. apply kept_save. by rewrite H. Qed.

Definition same_place (w w' : world) : Prop :=
  Handler.files w' = Handler.files w /\ config (hd w') = config (hd w) /\ id (hd w') = id (hd w).
Lemma same_trans a b c : same_place a b -> same_place b c -> same_place a c.
Proof. intros (H1 & H2 & H3) (H4 & H5 & H6). unfold same_place. by rewrite H4, H5, H6. Qed.
Lemma login_place u p pw w : same_place w (Handler.send_login he u p pw w).
Proof. by destruct (Handler.send_login_frame he u p pw w) as (f & lr & -> & _). Qed.
Lemma chosen_place pp hs w : same_place w (Handler.chosen he pp hs w).2.
Proof.
  unfold Handler.chosen.
  set (x0 := (Handler.h_password (hd w), w)). assert (same_place w x0.2) as H0 by done. clearbody x0.
  set (x1 := Handler.preset pp hs x0). assert (same_place w x1.2) as H1.
  { unfold x1, Handler.preset. destruct x0 as [[|b l] w0]; [destruct (is_empty pp)|]; exact H0. }
  clearbody x1. set (x2 := Handler.shared hs x1). assert (same_place w x2.2) as H2.
  { unfold x2, Handler.shared. destruct x1 as [p w1]. cbn [snd] in H1.
    destruct (Handler.shared_password (hd w1)) as [s|]; [destruct (is_empty s)|]; exact H1. }
  clearbody x2. set (x3 := Handler.stored x2). assert (same_place w x3.2) as H3.
  { unfold x3, Handler.stored. destruct x2 as [[|b l] w2]; [destruct (Handler.password _)|]; exact H2. }
  clearbody x3. set (x4 := Handler.personal he x3). assert (same_place w x4.2) as H4.
  { unfold x4, Handler.personal, Handler.try_get_password_from_personal_ab. destruct x3 as [[|b l] w3]; [|exact H3].
    repeat case_match; exact H3. }
  clearbody x4. unfold Handler.builtin. destruct x4 as [[|b l] w4]; [|exact H4]. cbv zeta. destruct (is_empty _); exact H4.
Qed.
Lemma hash_place pp hs w : same_place w (Handler.handle_hash he pp hs w).
Proof.
  unfold Handler.handle_hash. set (w1 := upd _ w). assert (same_place w w1) as H1 by done. clearbody w1.
  set (w2 := upd _ w1). assert (same_place w w2) as H2 by done. clearbody w2.
  destruct (match Handler.switch_uuid (hd w1) with Some u => Handler.uuid_parse he u | None => None end) as [u|].
  { destruct (Handler.send_switch_frame he u w2) as (f & lr & -> & _). exact H2. }
  pose proof (chosen_place pp hs w2) as H3. destruct (Handler.chosen he pp hs w2) as [p w3]. cbn [snd] in H3.
  apply (same_trans _ _ _ H2) in H3. destruct (_ && _); [exact H3|].
  assert (forall w4, same_place w w4 -> forall u v q, same_place w (upd (Handler.set_hash hs) (Handler.send_login he u v q w4))) as Hl.
  { intros w4 H4 u v q. exact (same_trans _ _ _ H4 (login_place u v q w4)). }
  destruct p as [|b p], (bool_decide _); apply Hl; exact H3.
Qed.

Lemma kept_place w w1 w2 : marks_kept w w1 -> same_place w1 w2 -> marks_kept w w2.
Proof.
  unfold marks_kept, marks_in_sync, marks_on_disk. intros [H1 H2] (E1 & E2 & E3). by rewrite E1, E2, E3.
Qed.
Lemma peer_info_keeps pi w : marks_in_sync w -> marks_kept w (Handler.handle_peer_info he pi w).
Proof.
  intros Hs. unfold Handler.handle_peer_info. cbv zeta.
  set (w1 := upd _ w). assert (same_place w w1) as H1 by (unfold w1; split_and!; try done; simpl; by destruct (is_empty _)).
  clearbody w1. set (c0 := Handler.set_info _ _). assert (marks c0 = marks_on_disk w (id (hd w))) as H0.
  { destruct H1 as (E1 & E2 & E3). unfold marks_on_disk. by rewrite <- E1, <- E3. }
  clearbody c0. set (c1 := Handler.remembered _ c0).
  assert (marks c1 = marks c0) as E1 by (unfold c1, Handler.remembered; by repeat case_match). clearbody c1.
  set (c2 := match other_server _ with Some _ => _ | None => c1 end).
  assert (marks c2 = marks c1) as E2 by (unfold c2; by repeat case_match). clearbody c2.
  set (c3 := if force_relay _ then _ else c2). assert (marks c3 = marks c2) as E3 by (unfold c3; by destruct (force_relay _)). clearbody c3.
  assert (marks (Handler.chosen_keyboard_mode he pi c3) = marks c3) as E4 by (unfold Handler.chosen_keyboard_mode; by repeat case_match).
  set (w2 := match Handler.password c3 with [] => w1 | _ => _ end).
  assert (same_place w w2) as H2 by (unfold w2; by repeat case_match). clearbody w2.
  assert (marks_kept w (Handler.save_config (Handler.chosen_keyboard_mode he pi c3) w2)) as Hk; [|exact (kept_place _ _ _ Hk (conj eq_refl (conj eq_refl eq_refl)))].
  destruct H2 as (F1 & F2 & F3).
  assert (marks_kept w2 (Handler.save_config (Handler.chosen_keyboard_mode he pi c3) w2)) as [K1 K2].
  { apply kept_save. unfold marks_on_disk in *. by rewrite E4, E3, E2, E1, H0, F1, F3. }
  split; [done|]. intros i. rewrite K2. unfold marks_on_disk. by rewrite F1.
Qed.
Lemma op_keeps o w : marks_in_sync w -> marks_kept w (Handler.exec he o w).
Proof.
  intros Hs.
  assert (forall w', same_place w w' -> marks_kept w w') as Hp by (intros w' (? & ? & ?); by apply kept_same).
  destruct o as [pp hs|u p pw r|l err|pi|n|k v|k v|fps sv|d]; cbn [Handler.exec].
  - apply Hp, hash_place.
  - apply Hp. unfold Handler.handle_login_from_ui. repeat case_match; simplify_eq; 
      match goal with |- same_place _ (Handler.send_login _ ?a ?b ?c ?d) => apply (same_trans _ d); [done|apply login_place] end.
  - unfold Handler.handle_login_error, Handler.set_option. repeat case_match; try (by apply Hp).
    all: match goal with |- marks_kept _ (_, Handler.emit _ ?x).2 => apply (kept_place _ x); [by apply kept_edit|done] end.
  - by apply peer_info_keeps.
  - unfold Handler.toggle_option. cbv zeta. 
    assert (marks (Handler.load_config w) = marks_on_disk w (id (hd w))) as Hl by done.
    repeat case_match; simpl; try (by apply Hp); try (by apply kept_save).
  - unfold Handler.set_option. destruct (String.eqb _ _); [by apply Hp|by apply kept_edit].
  - by apply kept_edit.
  - destruct sv; simpl; [|by apply Hp]. match goal with |- marks_kept _ (upd _ ?x) => apply (kept_place _ x); [by apply kept_edit|done] end.
  - apply Hp. by destruct d.
Qed.
Lemma init_keeps typed ct switch relay luid shared token w : marks_kept w (Handler.initialize he typed ct switch relay luid shared token w).
Proof.
  unfold Handler.initialize. destruct (Handler.parse_id he typed relay) as [[i r] other]. cbv zeta.
  set (w1 := upd (λ h, Handler.set_conn_type _ _) w).
  assert (Handler.files w1 = Handler.files w) as F1 by done. clearbody w1.
  set (w2 := upd (λ h, Handler.set_config _ _) w1).
  assert (Handler.files w2 = Handler.files w /\ marks_in_sync w2) as [F2 S2] by done. clearbody w2.
  set (w3 := match match token with Some t => _ | None => None end with Some t => _ | None => w2 end).
  assert (same_place w2 w3) as P3 by (unfold w3; by destruct (match token with Some t => _ | None => None end)). clearbody w3.
  match goal with |- marks_kept _ (upd ?f w3) => assert (same_place w3 (upd f w3)) as P4 end.
  { split; [done|]. simpl. destruct (other_server (hd w3)) as [[[? ?] ?]|]; [destruct (_ && _)|]; done. }
  apply (same_trans _ _ _ P3) in P4. destruct P4 as (G1 & G2 & G3).
  split; [unfold marks_in_sync, marks_on_disk in *; by rewrite G1, G2, G3|].
  intros j. unfold marks_on_disk. by rewrite G1, F2.
Qed.

(** *** The invariant of the grants *)
Definition grants_inv (now : Z) (wg : world * list (string * Z)) : Prop :=
  marks_in_sync wg.1
  /\ (forall i t, In (i, t) wg.2 -> 0 <= t <= now /\
        (0 < (marks_on_disk wg.1 i).1 -> exists s, (marks_on_disk wg.1 i).2 = Some (to_string s) /\ t <= s <= now))
  /\ (forall l1 l2 l3 i t1 t2, wg.2 = l1 ++ (i, t1) :: l2 ++ (i, t2) :: l3 -> Direct.RETRY_AFTER_SECS <= t2 - t1).

Lemma grants_kept now now' w w' gr : now <= now' -> marks_kept w w' -> grants_inv now (w, gr) -> grants_inv now' (w', gr).
Proof.
  intros Hn [Hs Hd] (H1 & H2 & H3). split_and!; [done| |done]. intros i t Hin. cbn [fst snd] in *.
  destruct (H2 i t Hin) as [Ht Hm]. split; [lia|]. rewrite Hd. intros Hf. destruct (Hm Hf) as (s & Es & Hs'). exists s. split; [done|lia].
Qed.
Lemma grants_marked now now' c w gr : now <= now' -> 0 <= now' -> (0 < (marks c).1 -> (marks c).2 = Some (to_string now')) ->
  grants_inv now (w, gr) -> grants_inv now' (Handler.save_config c w, gr).
Proof.
  intros Hn H0 Hc (H1 & H2 & H3). split_and!; [| |done]; cbn [fst snd] in *.
  - unfold marks_in_sync, marks_on_disk, Handler.save_config. simpl. by rewrite load_store, decide_True.
  - intros i t Hin. destruct (H2 i t Hin) as [Ht Hm]. split; [lia|].
    unfold marks_on_disk, Handler.save_config. cbn [hd Handler.files]. rewrite load_store. case_decide as E.
    + intros Hf. exists now'. split; [by apply Hc|lia].
    + intros Hf. destruct (Hm Hf) as (s & Es & Hs). exists s. split; [exact Es|lia].
Qed.
Lemma snoc_pair {T} (x : T) gr l1 a l2 b l3 : gr ++ [x] = l1 ++ a :: l2 ++ b :: l3 ->
  b = x /\ gr = l1 ++ a :: l2 \/ exists l, gr = l1 ++ a :: l2 ++ b :: l.
Proof.
  destruct l3 as [|y l3 _] using rev_ind; intros H.
  - left. change (l1 ++ a :: l2 ++ [b]) with (l1 ++ (a :: l2) ++ [b]) in H. rewrite app_assoc in H.
    apply app_inj_tail in H as [-> ->]. done.
  - right. exists l3. replace (l1 ++ a :: l2 ++ b :: l3 ++ [y]) with ((l1 ++ a :: l2 ++ b :: l3) ++ [y]) in H
      by (rewrite <- app_assoc; simpl; by rewrite <- app_assoc).
    by apply app_inj_tail in H as [-> _].
Qed.
Lemma grants_retry now now' w gr : now <= now' -> 0 <= now' <= Int.u64_max -> grants_inv now (w, gr) ->
  grants_inv now' ((retry_check now' w).2, gr ++ grant RetryCheck now' w).
Proof.
  intros Hn H0 Hi. unfold grant, retry_check. destruct ((0 <? direct_failures (config (hd w))) && _) eqn:E.
  2: { simpl. rewrite app_nil_r. apply (grants_kept now _ w); [done| |done]. apply kept_same; try done. apply Hi. }
  apply andb_true_iff in E as [Ef Ed]. apply Z.ltb_lt in Ef. simpl.
  assert (grants_inv now' (note_direct_retry now' w, gr)) as (H1 & H2 & H3).
  { apply (grants_marked now); try done; [lia|]. intros _. unfold marks, Direct.stamp. simpl. apply lookup_insert_eq. }
  destruct Hi as (I1 & I2 & I3). cbn [fst snd] in *.
  split_and!; cbn [fst snd]; [done| |].
  - intros i t [Hin|[[= <- <-]|[]]]%in_app_iff; [by apply H2|]. split; [lia|]. intros _. exists now'. split; [|lia].
    unfold note_direct_retry, edit, Handler.save_config, marks_on_disk. cbn [hd Handler.files]. rewrite load_store, decide_True by done.
    unfold marks, Direct.stamp. simpl. apply lookup_insert_eq.
  - intros l1 l2 l3 i t1 t2 Hl. apply snoc_pair in Hl as [[[= -> ->] ->]|(l & ->)]; [|by eapply H3].
    destruct (I2 (id (hd w)) t1) as [Ht Hm]; [apply in_app_iff; right; by left|].
    unfold marks_in_sync in I1. destruct Hm as (s & Es & Hs); [by rewrite <- I1|].
    rewrite <- I1 in Es. unfold marks in Es. cbn [snd] in Es. unfold Direct.is_retry_due in Ed. rewrite Es in Ed.
    unfold parse_u64 in Ed. rewrite parse_to_string in Ed by lia. apply orb_true_iff in Ed as [Ed|Ed]; bool_prop; lia.
Qed.
Lemma grants_step now x wg : now <= x.1 -> 0 <= x.1 <= Int.u64_max -> grants_inv now wg -> grants_inv x.1 (happens x wg).
Proof.
  destruct x as [now' ev], wg as [w gr]. cbn [fst snd]. intros Hn H0 Hi.
  assert (marks_in_sync w) as Hs by apply Hi.
  destruct ev as [X a|o|typed ct switch relay luid shared token]; unfold happens; cbn [fst snd].
  - destruct a; cbn [perform grant snd]; rewrite ?app_nil_r; try (apply (grants_kept now _ w); [done|by apply kept_same|done]).
    + by apply (grants_retry now).
    + apply (grants_marked now); try done; [lia|]. unfold marks, Direct.stamp. simpl. intros Hf.
      apply Z.ltb_lt in Hf as ->. apply lookup_insert_eq.
    + apply (grants_kept now _ w); [done| |done]. apply kept_same; try done; by destruct d.
  - apply (grants_kept now _ w); [done|by apply op_keeps|done].
  - apply (grants_kept now _ w); [done|apply init_keeps|done].
Qed.

(** A register that cannot be reached directly costs the long wait at most
    once in six hours.  Whatever happens in a window over time, connections to
    any registers with any outcome in any interleaving, switches, logins and new
    sessions, as long as the clock does not run backwards: between two grants of
    the full window to one register lie at least six hours. *)
Theorem retry_granted_rarely l w : marks_in_sync w ->
  (forall k t, map fst l !! k = Some t -> 0 <= t <= Int.u64_max) ->
  StronglySorted Z.le (map fst l) ->
  forall l1 l2 l3 i t1 t2, (history l w).2 = l1 ++ (i, t1) :: l2 ++ (i, t2) :: l3 -> Direct.RETRY_AFTER_SECS <= t2 - t1.
Proof.
  intros Hs Hr Ho.
  assert (forall now wg, grants_inv now wg -> (forall t, In t (map fst l) -> now <= t) ->
            exists now', grants_inv now' (foldl (λ wg x, happens x wg) wg l)) as H.
  { clear Hs. induction l as [|x l IH]; intros now wg Hi Hn; [by exists now|]. simpl in *.
    apply StronglySorted_inv in Ho as [Ho Hx]. apply (IH (λ k t, Hr (S k) t) Ho x.1).
    - apply (grants_step now); [apply Hn; by left|by apply (Hr 0%nat)|done].
    - intros t Ht. rewrite List.Forall_forall in Hx. by apply Hx. }
  destruct (H 0 (w, [])) as (now' & _ & _ & H3).
  - split_and!; [done|by intros i t []|]. intros l1 l2 l3 i t1 t2 Hl. by destruct l1.
  - intros t Ht. apply list_elem_of_In, list_elem_of_lookup_1 in Ht as [k Hk]. by apply (Hr k).
  - exact H3.
Qed.
End connect.
Arguments Ret {cr A} a.
Arguments Do {cr A X} a k.
Arguments Ask {cr A X} q k.
Arguments Await {cr A X} q k.

(** ** Inputs *)
Definition net : settings := {|
  is_incoming_only := false; get_ipv6_punch_enabled := false; get_udp_punch_enabled := true; use_ws := false;
  RS_PUB_KEY := "rs"; RELAY_PORT := 21117; RENDEZVOUS_PORT := 21116; CONNECT_TIMEOUT := 18000; READ_TIMEOUT := 18000;
  RENDEZVOUS_SERVERS := ("rs"%string, []); is_ip_str := λ _, false; is_domain_port_str := λ _, false;
  check_port := λ a _, a; ipv4_to_ipv6 := λ a _, a; decode := λ a, a; port := λ a, if is_empty a then 0 else 5000;
  any_addr := EmptyString; nat_value := λ t, match t with UNKNOWN_NAT => 0 | ASYMMETRIC => 1 | SYMMETRIC => 2 end;
|}.
Abbreviation connect_100 := (connect (cr := Handshake.ToyCrypto) net "10.0.0.2:4000" "1.2.3.4:5000" "100" []
  "relay" "hq" 189 ASYMMETRIC 1 false EmptyString EmptyString DEFAULT_CONN true false).

(** A run whose answers are given by the question. *)
Fixpoint answered {cr : Handshake.Crypto} {A} (ga : forall X, act X -> X) (gq : forall X, query X -> X) (p : prog A) : list step * A :=
  match p with
  | Ret a => ([], a)
  | Do a k => let '(t, r) := answered ga gq (k (ga _ a)) in (SAct a (ga _ a) :: t, r)
  | Ask q k | Await q k => let '(t, r) := answered ga gq (k (gq _ q)) in (SQuery q (gq _ q) :: t, r)
  end.
Lemma answered_runs {cr : Handshake.Crypto} {A} ga gq (p : prog A) : runs p (answered ga gq p).1 (answered ga gq p).2.
Proof.
  induction p as [a|X a k IH|X q k IH|X q k IH]; simpl; [done|..].
  - specialize (IH (ga _ a)). destruct (answered ga gq (k (ga _ a))) as [t r]. by exists (ga _ a), t.
  - specialize (IH (gq _ q)). destruct (answered ga gq (k (gq _ q))) as [t r]. by exists (gq _ q), t.
  - specialize (IH (gq _ q)). destruct (answered ga gq (k (gq _ q))) as [t r]. by exists (gq _ q), t.
Qed.
Definition calm (X : Type) (a : act X) : X :=
  match a with
  | Lch => Handler.fresh | RetryCheck => (false, 1) | SetDirectFailure _ | UpdateDirect _ | UpdateReceived _ => tt
  end.
(** Nothing answers directly; the relay does. *)
Definition only_relay (X : Type) (q : query (cr := Handshake.ToyCrypto) X) : X :=
  let s := mkStream 1 "10.0.0.2:4001" true in
  match q in query T return T with
  | ConnectTcp _ _ => Ok s
  | ConnectLocal _ _ _ => Err "timeout"%string
  | IpcRendezvousServer _ => ("hq"%string, []) | LicenceHost => None | RefreshRendezvousServer => tt | TestIpv6 => tt
  | NewDirectUdp _ => true | GetNatType => 1
  | Exchange _ => (x01, x02, Handshake.Timeout, Ok tt)
  | WaitUdpPort => tt | UdpPort => 5000 | GetIpv6Socket => None | SendPunch _ _ => Ok tt
  | NextRz _ _ => RzMsg (RzRelay (mkRelayed "u" "relay" [] 0 EmptyString EmptyString))
  | UdpConnect _ => Ok tt | UdpNat _ _ => Err "timeout"%string | UdpNatWithin _ _ _ => None
  | SendRelay _ _ => Ok tt | Uuid => "u"%string | Elapsed => 189 | UpnpEndpoint _ => "5.6.7.8:9000"%string | Turn => true
  end.

Lemma direct_window_witness : is_empty "relay" = false /\ asks (λ X q, short_wait q) connect_100.
Proof.
  split; [reflexivity|].
  apply (direct_window (cr := Handshake.ToyCrypto) net "10.0.0.2:4000" "1.2.3.4:5000" "100" []
           "relay" "hq" 189 ASYMMETRIC 1 false EmptyString EmptyString DEFAULT_CONN true false). reflexivity.
Defined.

Lemma connect_outcome_witness : exists c,
  (answered calm only_relay connect_100).2 = Ok c /\ c_direct c = false /\ c_typ c = "Relay"%string
  /\ relays (answered calm only_relay connect_100).1 = true.
Proof.
  destruct (connect_outcome (cr := Handshake.ToyCrypto) net _ _ _ _ _ _ _ _ _ _ _ _ _ _ _ _ _
              (answered_runs calm only_relay connect_100)) as (x & h & told & _ & H).
  destruct (answered calm only_relay connect_100) as [tr r] eqn:E. cbn [fst snd] in *.
  assert (Hr : r = (answered calm only_relay connect_100).2) by (by rewrite E).
  destruct r as [c|err]; [|vm_compute in Hr; discriminate].
  exists c. destruct H as [_ H]. assert (Hd : c_direct c = false).
  { vm_compute in Hr. by injection Hr as ->. }
  rewrite Hd in H. destruct H as (_ & H1 & H2). done.
Defined.

(** A register that failed, asked for at three times of a day. *)
Definition failed : Handler.PeerConfig := Handler.set_direct_failures 1 Handler.empty_config.
Definition morning : Handler.world (ps := Handler.toy_store) :=
  Handler.mkWorld (ps := Handler.toy_store) (Handler.set_config failed (Handler.set_id "100" Handler.fresh)) ({["100"%string := failed]} : gmap string Handler.PeerConfig) ∅ [].
Definition three_times : list (Z * event) := [(30000, EAct RetryCheck); (30100, EAct RetryCheck); (60000, EAct RetryCheck)].
Lemma retry_granted_rarely_witness :
  (history (sha := Handler.marked_sha) Handler.desk three_times morning).2 = [("100", 30000); ("100", 60000)]%string
  /\ Direct.RETRY_AFTER_SECS <= 60000 - 30000.
Proof.
  split; [vm_compute; reflexivity|].
  apply (retry_granted_rarely (ps := Handler.toy_store) (sha := Handler.marked_sha) Handler.desk three_times morning) with (l1 := []) (l2 := []) (l3 := []) (i := "100"%string).
  - vm_compute. reflexivity.
  - intros [|[|[|k]]] t; simpl; intros H; try (injection H as <-; vm_compute; split; discriminate). discriminate.
  - repeat constructor; vm_compute; discriminate.
  - vm_compute. reflexivity.
Defined.

(** Two windows of one register, both opened before the first retry: each has its
    own copy of the configuration, and the register gets two long waits within
    a second, although the period is meant per register. *)
Example two_windows_two_waits :
  let '((due1, _), w1) := retry_check 30000 morning in
  let second_window := Handler.mkWorld (ps := Handler.toy_store) (Handler.hd morning) (Handler.files w1) ∅ [] in
  due1 = true /\ (retry_check 30001 second_window).1.1 = true.
Proof. vm_compute. done. Qed.
End Connect.
