(* ===== verification/Mediator.v ===== *)
(** * The rendezvous mediator ([src/src/rendezvous_mediator.rs])

    A register keeps itself known at the rendezvous servers: a task per server
    registers the register's number and key, watches the delay, and answers the
    server's requests on behalf of technicians (a hole to punch, a relay to meet
    at, an address in the same network).  Beside it runs the listener for direct
    access, and the outer loop that starts the tasks over.

    A turn of a task's loop is one step, and so is each of the two stretches of
    an answering task before and after it marks whom it answered.  With several
    servers the turns of two of them are taken not to overlap.  The configuration
    ([Config] of [hbb_common]) is a class; sockets, clocks and the codecs answer
    from outside.  Instants are microseconds. *)

From Stdlib Require Import Ascii String Sorted.
From S2P Require Import Prelude RustStr Handler.

Module Mediator.
Local Open Scope string_scope.
Local Open Scope Z_scope.
Local Open Scope list_scope.

Abbreviation bytes := (list Byte.byte).
#[local] Instance byte_eq : EqDecision Byte.byte := Byte.byte_eq_dec.
Record SocketAddr := mkAddr { ip : string; port : Z }.
#[export] Instance SocketAddr_eq : EqDecision SocketAddr.
Proof. solve_decision. Defined.
Definition no_addr : SocketAddr := mkAddr "0.0.0.0" 0.

(** ** The configuration

    [set_key_confirmed false] may also forget the servers' confirmations; no law
    says that it does not. *)
Definition untouched {C : Type} (key : C -> bool) (hosts : C -> string -> bool) (f : C -> C) : Prop :=
  forall c, key (f c) = key c /\ forall k, hosts (f c) k = hosts c k.
Class Config := {
  config : Type;
  get_option : config -> string -> string;
  set_option : string -> string -> config -> config;
  get_id : config -> string;
  update_id : Z -> config -> config;
  get_key_pair : config -> bytes * config;
  get_cached_pk : config -> option bytes;
  get_key_confirmed : config -> bool;
  set_key_confirmed : bool -> config -> config;
  get_host_key_confirmed : config -> string -> bool;
  set_host_key_confirmed : string -> bool -> config -> config;
  get_serial : config -> Z;
  set_serial : Z -> config -> config;
  get_nat_type : config -> Z;
  get_rendezvous_servers : config -> list string;
  key_confirmed_set b c : get_key_confirmed (set_key_confirmed b c) = b;
  key_confirmed_host k b c : get_key_confirmed (set_host_key_confirmed k b c) = get_key_confirmed c;
  host_confirmed_set k b c k' :
    get_host_key_confirmed (set_host_key_confirmed k b c) k' = if String.eqb k k' then b else get_host_key_confirmed c k';
  host_confirmed_key b c k : get_host_key_confirmed (set_key_confirmed b c) k = true -> get_host_key_confirmed c k = true;
  id_key b c : get_id (set_key_confirmed b c) = get_id c;
  id_host k b c : get_id (set_host_key_confirmed k b c) = get_id c;
  untouched_option k v : untouched get_key_confirmed get_host_key_confirmed (set_option k v);
  untouched_serial n : untouched get_key_confirmed get_host_key_confirmed (set_serial n);
  untouched_id z : untouched get_key_confirmed get_host_key_confirmed (update_id z);
  untouched_pair : untouched get_key_confirmed get_host_key_confirmed (λ c, (get_key_pair c).2);
  id_option k v c : get_id (set_option k v c) = get_id c;
  id_serial n c : get_id (set_serial n c) = get_id c;
  id_pair c : get_id (get_key_pair c).2 = get_id c;
  cached_after c : get_cached_pk (get_key_pair c).2 = Some (get_key_pair c).1;
}.

(** ** Messages *)
Inductive register_pk_result := RegisterOk | UUID_MISMATCH | OtherResult.
Inductive NatType := UNKNOWN_NAT | ASYMMETRIC | SYMMETRIC.
Record PunchHole := mkPunch {
  ph_socket_addr : bytes; ph_socket_addr_v6 : bytes; ph_relay_server : string; ph_nat_type : option NatType;
  ph_udp_port : Z; ph_force_relay : bool; ph_permissions : option Z }.
Record RequestRelay := mkRelay {
  rr_socket_addr : bytes; rr_relay_server : string; rr_uuid : string; rr_secure : bool; rr_permissions : option Z }.
Record FetchLocalAddr := mkFetch {
  fla_socket_addr : bytes; fla_socket_addr_v6 : bytes; fla_relay_server : string; fla_permissions : option Z }.
Inductive message :=
  | RegisterPeerResponse (request_pk : bool) | RegisterPkResponse (r : register_pk_result) (keep_alive : Z)
  | MPunchHole (ph : PunchHole) | MRequestRelay (rr : RequestRelay) | MFetchLocalAddr (fla : FetchLocalAddr)
  | ConfigureUpdate (rendezvous_servers : list string) (serial : Z) | MOther.
Inductive reply :=
  | RegisterPk (id : string) (uuid pk : bytes) | RegisterPeer (id : string) (serial : Z)
  | PunchHoleSent (socket_addr : bytes) (id relay_server : string) (nat : NatType) (v6 : bytes)
  | RelayResponse (socket_addr : bytes) (v6 : bytes) (initiate : option (string * string * string))
  | LocalAddr (id : string) (socket_addr local_addr : bytes) (relay_server : string) (v6 : bytes)
  | MeetAt (key uuid : string) | Heartbeat.

(** What the program does, oldest first.  [Serve] is a connection handed to
    [create_tcp_connection]; the flag says whether it is to be secured. *)
Inductive effect :=
  | Sent (host : string) (m : reply)
  | NewId (host id : string) | Confirmed (prefix : string) | Unconfirmed | HostReset (prefix : string)
  | Latency (host : string) (v : Z) | Rebound (host : string)
  | NewRound | ResetOnline | CloseConnections | Sleep (ms : Z)
  | TestIpv6 | Dial (host : string) | OpenUdp (host : string) | Repeat (host : string) (m : reply)
  | Touch (peer local : SocketAddr) | RelayDial (relay_server : string) (ipv4 : bool)
  | AcceptOn (local : SocketAddr) | PunchUdp (peer : SocketAddr)
  | Serve (peer : SocketAddr) (secure : bool) (permissions : option Z)
  | Listen (peer peer_v4 : SocketAddr) (permissions : option Z).

Record mediator := mkMediator { addr : string; host : string; host_prefix : string; keep_alive : Z }.
(** A spawned answer.  [Looked] has read who was answered last. *)
Inductive task := TPunch (rz : mediator) (ph : PunchHole) | TRelay (rz : mediator) (rr : RequestRelay)
  | TIntranet (rz : mediator) (fla : FetchLocalAddr) | TListen (peer peer_v4 : SocketAddr) (permissions : option Z).

Definition get_host_prefix (host : string) : string :=
  let x := default host (head (split "."%char host)) in
  match Handler.parse_i32 x with Some _ => host | None => x end.
Definition DEFAULT_KEEP_ALIVE : Z := 60000.
Definition MIN_REG_TIMEOUT : Z := 3000.
Definition MAX_REG_TIMEOUT : Z := 30000.
Definition MAX_FAILS1 : Z := 2.
Definition MAX_FAILS2 : Z := 4.
Definition DNS_INTERVAL : Z := 60000.

(** What a turn's outside answers. *)
Record answers := mkAnswers {
  now : Z; send_err : option string; fresh_id : Z; using_public_server : bool;
  rebind : result (option string) string }.

Section mediator.
Context {cfg : Config} (decode : bytes -> SocketAddr) (encode : SocketAddr -> bytes)
  (check_port : string -> Z -> string) (increase_port : string -> Z -> string)
  (RENDEZVOUS_PORT REG_INTERVAL CONNECT_TIMEOUT : Z) (machine_uuid : bytes).

(** ** What the tasks share *)
Record shared := mkShared {
  cf : config; SOLVING_PK_MISMATCH : string; LAST_MSG : SocketAddr * Z; LAST_RELAY_MSG : SocketAddr * Z;
  SHOULD_EXIT : bool; MANUAL_RESTARTED : bool; SENT_REGISTER_PK : bool; out : list effect }.
Definition set_cf c s := mkShared c (SOLVING_PK_MISMATCH s) (LAST_MSG s) (LAST_RELAY_MSG s) (SHOULD_EXIT s) (MANUAL_RESTARTED s) (SENT_REGISTER_PK s) (out s).
Definition set_solving x s := mkShared (cf s) x (LAST_MSG s) (LAST_RELAY_MSG s) (SHOULD_EXIT s) (MANUAL_RESTARTED s) (SENT_REGISTER_PK s) (out s).
Definition set_last_msg x s := mkShared (cf s) (SOLVING_PK_MISMATCH s) x (LAST_RELAY_MSG s) (SHOULD_EXIT s) (MANUAL_RESTARTED s) (SENT_REGISTER_PK s) (out s).
Definition set_last_relay x s := mkShared (cf s) (SOLVING_PK_MISMATCH s) (LAST_MSG s) x (SHOULD_EXIT s) (MANUAL_RESTARTED s) (SENT_REGISTER_PK s) (out s).
Definition set_should_exit x s := mkShared (cf s) (SOLVING_PK_MISMATCH s) (LAST_MSG s) (LAST_RELAY_MSG s) x (MANUAL_RESTARTED s) (SENT_REGISTER_PK s) (out s).
Definition set_manual x s := mkShared (cf s) (SOLVING_PK_MISMATCH s) (LAST_MSG s) (LAST_RELAY_MSG s) (SHOULD_EXIT s) x (SENT_REGISTER_PK s) (out s).
Definition set_sent_pk x s := mkShared (cf s) (SOLVING_PK_MISMATCH s) (LAST_MSG s) (LAST_RELAY_MSG s) (SHOULD_EXIT s) (MANUAL_RESTARTED s) x (out s).
Definition emit x s := mkShared (cf s) (SOLVING_PK_MISMATCH s) (LAST_MSG s) (LAST_RELAY_MSG s) (SHOULD_EXIT s) (MANUAL_RESTARTED s) (SENT_REGISTER_PK s) (out s ++ [x]).
Definition on_config f s := set_cf (f (cf s)) s.

Definition restart (s : shared) : shared := set_manual true (set_should_exit true s).

(** ** Registering *)
Definition send (a : answers) (rz : mediator) (m : reply) (s : shared) : result unit string * shared :=
  match send_err a with
  | Some err => (Err err, s)
  | None => (Ok tt, emit (Sent (host rz) m) s)
  end.
Definition register_pk (a : answers) (rz : mediator) (s : shared) : result unit string * shared :=
  let '(pk, c) := get_key_pair (cf s) in
  let s := set_cf c s in
  match send a rz (RegisterPk (get_id c) machine_uuid pk) s with
  | (Err err, s) => (Err err, s)
  | (Ok _, s) => (Ok tt, set_sent_pk true s)
  end.
Definition mine (rz : mediator) (s : shared) : bool :=
  is_empty (SOLVING_PK_MISMATCH s) || String.eqb (SOLVING_PK_MISMATCH s) (host rz).
Definition handle_uuid_mismatch (a : answers) (rz : mediator) (s : shared) : result unit string * shared :=
  if mine rz s then
    let s := emit Unconfirmed (on_config (set_key_confirmed false) s) in
    let s := on_config (update_id (fresh_id a)) s in
    let s := emit (NewId (host rz) (get_id (cf s))) s in
    register_pk a rz (set_solving (host rz) s)
  else (Ok tt, s).
Definition register_peer (a : answers) (rz : mediator) (s : shared) : result unit string * shared :=
  if negb (mine rz s) then (Ok tt, s)
  else if negb (get_key_confirmed (cf s)) || negb (get_host_key_confirmed (cf s) (host_prefix rz)) then register_pk a rz s
  else send a rz (RegisterPeer (get_id (cf s)) (get_serial (cf s))) s.
Definition configure_update (servers : list string) (serial : Z) (s : shared) : shared :=
  let v0 := get_rendezvous_servers (cf s) in
  let s := on_config (set_option "rendezvous-servers" (String.concat "," servers)) s in
  let s := on_config (set_serial serial) s in
  if decide (v0 = get_rendezvous_servers (cf s)) then s else restart s.

(** [upd] is the loop's closure [update_latency], on the variables it captures. *)
Section handle_resp.
Context {L : Type} (upd : L -> shared -> L * shared).
Definition handle_resp (a : answers) (m : message) (rz : mediator) (l : L) (s : shared) :
    result unit string * (mediator * L * shared) * list task :=
  match m with
  | RegisterPeerResponse request_pk =>
      let '(l, s) := upd l s in
      if request_pk then let '(r, s) := register_pk a rz s in (r, (rz, l, s), []) else (Ok tt, (rz, l, s), [])
  | RegisterPkResponse r ka =>
      let '(l, s) := upd l s in
      let '(res, s) :=
        match r with
        | RegisterOk =>
            let s := on_config (set_key_confirmed true) s in
            let s := on_config (set_host_key_confirmed (host_prefix rz) true) s in
            (Ok tt, set_solving EmptyString (emit (Confirmed (host_prefix rz)) s))
        | UUID_MISMATCH => handle_uuid_mismatch a rz s
        | OtherResult => (Ok tt, s)
        end in
      match res with
      | Err err => (Err err, (rz, l, s), [])
      | Ok _ =>
          let rz := if 0 <? ka then mkMediator (addr rz) (host rz) (host_prefix rz) (Int.to_signed 32 (ka * 1000)) else rz in
          (Ok tt, (rz, l, s), [])
      end
  | MPunchHole ph => (Ok tt, (rz, l, s), [TPunch rz ph])
  | MRequestRelay rr => (Ok tt, (rz, l, s), [TRelay rz rr])
  | MFetchLocalAddr fla => (Ok tt, (rz, l, s), [TIntranet rz fla])
  | ConfigureUpdate servers serial => (Ok tt, (rz, l, configure_update servers serial s), [])
  | MOther => (Ok tt, (rz, l, s), [])
  end.
End handle_resp.

(** ** The loop over UDP *)
Inductive incoming := Packet (m : option message) | RecvError (err : string) | Closed.
Inductive turn := Received (i : incoming) | Tick.
Inductive outcome (A : Type) := Goes (x : A) | Ended (r : result unit string).
Arguments Goes {A} x.
Arguments Ended {A} r.

Record udp := mkUdp {
  reg_timeout : Z; fails : Z; last_register_resp : option Z; last_register_sent : option Z;
  last_dns_check : Z; old_latency : Z; ema_latency : Z }.
Definition set_sent x u := mkUdp (reg_timeout u) (fails u) (last_register_resp u) x (last_dns_check u) (old_latency u) (ema_latency u).
Definition set_dns x u := mkUdp (reg_timeout u) (fails u) (last_register_resp u) (last_register_sent u) x (old_latency u) (ema_latency u).
Definition set_old x u := mkUdp (reg_timeout u) (fails u) (last_register_resp u) (last_register_sent u) (last_dns_check u) x (ema_latency u).
Definition set_ema x u := mkUdp (reg_timeout u) (fails u) (last_register_resp u) (last_register_sent u) (last_dns_check u) (old_latency u) x.
Definition set_reg_timeout x u := mkUdp x (fails u) (last_register_resp u) (last_register_sent u) (last_dns_check u) (old_latency u) (ema_latency u).
Definition set_fails x u := mkUdp (reg_timeout u) x (last_register_resp u) (last_register_sent u) (last_dns_check u) (old_latency u) (ema_latency u).
Definition start_of (now : Z) : udp := mkUdp MIN_REG_TIMEOUT 0 None None now 0 0.

Definition elapsed (now : Z) (x : Z) : Z := Z.max 0 (now - x).
Definition ms (us : Z) : Z := us / 1000.

Definition smoothed (latency : Z) (u : udp) : Z * udp :=
  if ema_latency u =? 0 then (latency, set_ema latency u)
  else let e := Z.quot latency 30 + Z.quot (ema_latency u * 29) 30 in (e, set_ema e u).
Definition update_latency (now : Z) (h : string) (u : udp) (s : shared) : udp * shared :=
  let latency := match last_register_sent u with Some x => elapsed now x | None => 0 end in
  let u := mkUdp MIN_REG_TIMEOUT 0 (Some now) None (last_dns_check u) (old_latency u) (ema_latency u) in
  if (latency <? 0) || (1000000 <? latency) then (u, s)
  else
    let '(latency, u) := smoothed latency u in
    let n := Z.max 3000 (Z.quot latency 5) in
    if (n <? Z.abs (latency - old_latency u)) || (old_latency u <=? 0)
    then (set_old latency u, emit (Latency h latency) s) else (u, s).

(** After some unanswered registrations the server counts as slow, then as
    gone; then its name is resolved again, once a minute. *)
Definition note_failure (a : answers) (rz : mediator) (u : udp) (s : shared) : result (mediator * udp) string * shared :=
  let u := set_fails (fails u + 1) u in
  if MAX_FAILS2 <=? fails u then
    let s := emit (Latency (host rz) (-1)) s in
    let u := set_old 0 u in
    if DNS_INTERVAL <? ms (elapsed (now a) (last_dns_check u)) then
      match rebind a with
      | Err err => (Err err, s)
      | Ok None => (Ok (rz, set_dns (now a) u), s)
      | Ok (Some new_addr) =>
          (Ok (mkMediator new_addr (host rz) (host_prefix rz) (keep_alive rz), set_dns (now a) u), emit (Rebound (host rz)) s)
      end
    else (Ok (rz, u), s)
  else if MAX_FAILS1 <=? fails u then (Ok (rz, set_old 0 u), emit (Latency (host rz) 0) s)
  else (Ok (rz, u), s).

Definition is_expired (now : Z) (u : udp) : bool :=
  match last_register_resp u with Some x => REG_INTERVAL <=? ms (elapsed now x) | None => true end.
Definition is_timeout (now : Z) (u : udp) : bool :=
  match last_register_sent u with Some x => reg_timeout u <=? ms (elapsed now x) | None => false end.
Definition udp_tick (a : answers) (rz : mediator) (u : udp) (s : shared) : outcome (mediator * udp) * shared :=
  if SHOULD_EXIT s then (Ended (Ok tt), s)
  else
    let expired := is_expired (now a) u in
    let timeout := is_timeout (now a) u in
    let u := if using_public_server a && (timeout && (reg_timeout u <? MAX_REG_TIMEOUT))
             then set_reg_timeout (reg_timeout u + MIN_REG_TIMEOUT) u else u in
    if timeout || (bool_decide (last_register_sent u = None) && expired) then
      match (if timeout then note_failure a rz u s else (Ok (rz, u), s)) with
      | (Err err, s) => (Ended (Err err), s)
      | (Ok (rz, u), s) =>
          match register_peer a rz s with
          | (Err err, s) => (Ended (Err err), s)
          | (Ok _, s) => (Goes (rz, set_sent (Some (now a)) u), s)
          end
      end
    else (Goes (rz, u), s).
Definition udp_turn (a : answers) (t : turn) (rz : mediator) (u : udp) (s : shared) :
    outcome (mediator * udp) * shared * list task :=
  match t with
  | Received (Packet (Some m)) =>
      match handle_resp (update_latency (now a) (host rz)) a m rz u s with
      | (Err err, (_, _, s), l) => (Ended (Err err), s, l)
      | (Ok _, (rz, u, s), l) => (Goes (rz, u), s, l)
      end
  | Received (Packet None) => (Goes (rz, u), s, [])
  | Received (RecvError err) => (Ended (Err ("Failed to receive next: " +:+ err)), s, [])
  | Received Closed => (Ended (Err "Socket receive none. Maybe socks5 server is down."), s, [])
  | Tick => (udp_tick a rz u s, [])
  end.

(** ** The loop over TCP *)
Record tcp := mkTcp { t_last_register_sent : option Z; t_last_recv_msg : Z }.
Inductive tcp_incoming := TReset | TFailed (err : string) | TEmpty | TUnparsed (err : string) | TMsg (m : message).
Inductive tcp_turn_kind := TReceived (i : tcp_incoming) | TTick.

Definition tcp_latency (now : Z) (h : string) (t : tcp) (s : shared) : tcp * shared :=
  (t, emit (Latency h (match t_last_register_sent t with Some x => elapsed now x | None => 0 end)) s).
Definition silence_limit (ka : Z) : Z := Z.quot (Int.wrap 64 (Int.wrap 64 ka * 3)) 2.
Definition tcp_tick (a : answers) (rz : mediator) (t : tcp) (s : shared) : outcome (mediator * tcp) * shared :=
  if SHOULD_EXIT s then (Ended (Ok tt), s)
  else if silence_limit (keep_alive rz) <? ms (elapsed (now a) (t_last_recv_msg t)) then (Ended (Err "Rendezvous connection is timeout"), s)
  else if (negb (get_key_confirmed (cf s)) || negb (get_host_key_confirmed (cf s) (host_prefix rz)))
       && (REG_INTERVAL <=? match t_last_register_sent t with Some x => ms (elapsed (now a) x) | None => REG_INTERVAL end) then
    match register_pk a rz s with
    | (Err err, s) => (Ended (Err err), s)
    | (Ok _, s) => (Goes (rz, mkTcp (Some (now a)) (t_last_recv_msg t)), s)
    end
  else (Goes (rz, t), s).
Definition tcp_turn (a : answers) (k : tcp_turn_kind) (rz : mediator) (t : tcp) (s : shared) :
    outcome (mediator * tcp) * shared * list task :=
  match k with
  | TTick => (tcp_tick a rz t s, [])
  | TReceived i =>
      let t := mkTcp (t_last_register_sent t) (now a) in
      match i with
      | TReset => (Ended (Err "Rendezvous connection is reset by the peer"), s, [])
      | TFailed err | TUnparsed err => (Ended (Err err), s, [])
      | TEmpty =>
          match send a rz Heartbeat s with
          | (Err err, s) => (Ended (Err err), s, [])
          | (Ok _, s) => (Goes (rz, t), s, [])
          end
      | TMsg m =>
          match handle_resp (tcp_latency (now a) (host rz)) a m rz t s with
          | (Err err, (_, _, s), l) => (Ended (Err err), s, l)
          | (Ok _, (rz, t, s), l) => (Goes (rz, t), s, l)
          end
      end
  end.

(** ** Answering a technician

    An answer is a sequence of attempts; [tfails] says which of them fail, by the
    number of things done before. *)
Record tenv := mkTenv {
  use_ws : bool; is_proxy : bool; disable_tcp_listen : bool; addr_is_ipv4 : string -> bool;
  ipv6_socket : option bytes; uuid_v4 : string; licence_key : string;
  tfails : nat -> option string;
  local_addr : nat -> SocketAddr; reparsed : SocketAddr -> result SocketAddr string; accepted : nat -> SocketAddr }.

Definition M (A : Type) : Type := list effect -> result A string * list effect.
Definition mret {A} (x : A) : M A := λ l, (Ok x, l).
Definition mthen {A B} (m : M A) (k : A -> M B) : M B := λ l, match m l with (Ok x, l) => k x l | (Err err, l) => (Err err, l) end.
Local Notation "'do' x ← m ; k" := (mthen m (λ x, k)) (at level 60, x name, m at level 100, k at level 200, right associativity).
Local Notation "m >>; k" := (mthen m (λ _, k)) (at level 60, right associativity).
Definition note (x : effect) : M unit := λ l, (Ok tt, l ++ [x]).
Definition allow_err {A} (m : M A) : M unit := λ l, (Ok tt, (m l).2).

Section answering.
Context (e : tenv) (c : config).
Definition attempt (x : effect) : M unit :=
  λ l, match tfails e (length l) with Some err => (Err err, l) | None => (Ok tt, l ++ [x]) end.
Definition local : M SocketAddr := λ l, (Ok (local_addr e (length l)), l).

Definition accept_connection (local : SocketAddr) (secure : bool) (permissions : option Z) : M unit :=
  allow_err (attempt (AcceptOn local) >>; λ l, note (Serve (accepted e (length l)) secure permissions) l).
Definition create_relay_connection (relay_server uuid : string) (peer : SocketAddr) (secure ipv4 : bool) (permissions : option Z) : M unit :=
  allow_err (attempt (RelayDial relay_server ipv4) >>; attempt (Sent relay_server (MeetAt (licence_key e) uuid)) >>;
             note (Serve peer secure permissions)).
Definition udp_nat_listen (peer peer_v4 : SocketAddr) (permissions : option Z) : M unit :=
  attempt (PunchUdp peer) >>; note (Serve peer_v4 true permissions).
Definition start_ipv6 (peer_v6 peer_v4 : SocketAddr) (permissions : option Z) : M bytes :=
  note TestIpv6 >>;
  match ipv6_socket e with
  | Some local_v6 => note (Listen peer_v6 peer_v4 permissions) >>; mret local_v6
  | None => mret []
  end.
Definition create_relay (rz : mediator) (socket_addr : bytes) (relay_server uuid : string) (secure initiate : bool)
    (v6 : bytes) (permissions : option Z) : M unit :=
  attempt (Dial (host rz)) >>;
  attempt (Sent (host rz) (RelayResponse socket_addr v6 (if initiate then Some (uuid, relay_server, get_id c) else None))) >>;
  create_relay_connection relay_server uuid (decode socket_addr) secure (addr_is_ipv4 e (addr rz)) permissions.

Definition get_relay_server (rz : mediator) (provided : string) : string :=
  let relay_server := get_option c "relay-server" in
  let relay_server := if is_empty relay_server then provided else relay_server in
  if is_empty relay_server then increase_port (host rz) 1 else relay_server.
Definition nat_from (z : Z) : NatType := if z =? 1 then ASYMMETRIC else if z =? 2 then SYMMETRIC else UNKNOWN_NAT.
Definition is_symmetric (n : option NatType) : bool := match n with Some SYMMETRIC => true | _ => false end.

Definition punch_udp_hole (rz : mediator) (peer : SocketAddr) (m : reply) (permissions : option Z) : M unit :=
  attempt (OpenUdp (host rz)) >>; attempt (Sent (host rz) m) >>; note (Repeat (host rz) m) >>;
  udp_nat_listen peer peer permissions.
Definition v6_for (relay : bool) (v6 peer : SocketAddr) (permissions : option Z) : M bytes :=
  if (0 <? port v6) && negb relay then start_ipv6 v6 peer permissions else mret [].
Definition punch_hole (rz : mediator) (ph : PunchHole) : M unit :=
  let peer := decode (ph_socket_addr ph) in
  let relay := use_ws e || is_proxy e || ph_force_relay ph in
  let permissions := ph_permissions ph in
  do v6 ← v6_for relay (decode (ph_socket_addr_v6 ph)) peer permissions;
  let relay_server := get_relay_server rz (ph_relay_server ph) in
  if is_symmetric (ph_nat_type ph) || (get_nat_type c =? 2) || relay || (disable_tcp_listen e && (ph_udp_port ph <=? 0)) then
    create_relay rz (ph_socket_addr ph) relay_server (uuid_v4 e) true true v6 permissions
  else
    let m := PunchHoleSent (ph_socket_addr ph) (get_id c) relay_server (nat_from (get_nat_type c)) v6 in
    if 0 <? ph_udp_port ph then punch_udp_hole rz (mkAddr (ip peer) (Int.wrap 16 (ph_udp_port ph))) m permissions
    else
      attempt (Dial (host rz)) >>;
      do here ← local;
      allow_err (attempt (Touch peer here)) >>;
      attempt (Sent (host rz) m) >>;
      accept_connection here true permissions.
Definition request_relay (rz : mediator) (rr : RequestRelay) : M unit :=
  create_relay rz (rr_socket_addr rr) (rr_relay_server rr) (rr_uuid rr) (rr_secure rr) false [] (rr_permissions rr).
Definition handle_intranet_ (rz : mediator) (fla : FetchLocalAddr) (relay_server : string) (v6 : bytes) : M unit :=
  let peer := decode (fla_socket_addr fla) in
  attempt (Dial (host rz)) >>;
  do here ← local;
  (λ l, match reparsed e here with
        | Err err => (Err err, l)
        | Ok again =>
            (attempt (Sent (host rz) (LocalAddr (get_id c) (encode peer) (encode again) relay_server v6)) >>;
             accept_connection here true (fla_permissions fla)) l
        end).
Definition intranet (rz : mediator) (fla : FetchLocalAddr) : M unit :=
  let peer := decode (fla_socket_addr fla) in
  let relay_server := get_relay_server rz (fla_relay_server fla) in
  let relay := use_ws e || is_proxy e in
  do v6 ← v6_for relay (decode (fla_socket_addr_v6 fla)) peer (fla_permissions fla);
  let by_relay := create_relay rz (fla_socket_addr fla) relay_server (uuid_v4 e) true true v6 (fla_permissions fla) in
  if addr_is_ipv4 e (addr rz) && negb relay && negb (disable_tcp_listen e) then
    λ l, match handle_intranet_ rz fla relay_server v6 l with
         | (Ok _, l) => (Ok tt, l)
         | (Err _, l) => by_relay l
         end
  else by_relay.

Definition answer (t : task) : M unit :=
  match t with
  | TPunch rz ph => punch_hole rz ph
  | TRelay rz rr => request_relay rz rr
  | TIntranet rz fla => intranet rz fla
  | TListen peer peer_v4 permissions => udp_nat_listen peer peer_v4 permissions
  end.
End answering.

(** ** Who was answered last *)
Inductive phase := Fresh | Looked (last : SocketAddr * Z).
Definition asker (t : task) : option SocketAddr :=
  match t with
  | TPunch _ ph => Some (decode (ph_socket_addr ph))
  | TIntranet _ fla => Some (decode (fla_socket_addr fla))
  | TRelay _ rr => Some (decode (rr_socket_addr rr))
  | TListen _ _ _ => None
  end.
Definition last_of (t : task) (s : shared) : SocketAddr * Z := match t with TRelay _ _ => LAST_RELAY_MSG s | _ => LAST_MSG s end.
Definition set_last_of (t : task) (x : SocketAddr * Z) (s : shared) : shared :=
  match t with TRelay _ _ => set_last_relay x s | _ => set_last_msg x s end.
Definition is_duplicate (last : SocketAddr * Z) (a : SocketAddr) (now : Z) : bool :=
  bool_decide (last.1 = a) && (ms (elapsed now last.2) <? 100).
Definition run_answer (e : tenv) (t : task) (s : shared) : shared * list task :=
  let l := (answer e (cf s) t (out s)).2 in
  (mkShared (cf s) (SOLVING_PK_MISMATCH s) (LAST_MSG s) (LAST_RELAY_MSG s) (SHOULD_EXIT s) (MANUAL_RESTARTED s) (SENT_REGISTER_PK s) l,
   omap (λ x, match x with Listen p p4 perms => Some (TListen p p4 perms) | _ => None end) (drop (length (out s)) l)).
Definition task_step (e : tenv) (now : Z) (t : task) (p : phase) (s : shared) : list (task * phase) * shared :=
  match asker t, p with
  | Some a, Fresh => ([(t, Looked (last_of t s))], s)
  | Some a, Looked last =>
      let s := set_last_of t (a, now) s in
      if is_duplicate last a now then ([], s)
      else let '(s, l) := run_answer e t s in (map (λ t, (t, Fresh)) l, s)
  | None, _ => ([], (run_answer e t s).1)
  end.

(** ** All the tasks of [start_all] *)
Context (option2bool : string -> string -> bool).
Inductive task_of_server := Starting (h : string) | Udp (rz : mediator) (u : udp) | Tcp (rz : mediator) (t : tcp) | Finished.
Inductive round := Top | HaveServers (l : list string) | Cleared (l : list string) | Running | Joined.
Record system := mkSystem {
  sh : shared; meds : list task_of_server; tasks : list (task * phase); stage : round; timeout_ms : Z; conn_start_time : Z }.
Definition set_sh x y := mkSystem x (meds y) (tasks y) (stage y) (timeout_ms y) (conn_start_time y).
Definition set_med i x y := mkSystem (sh y) (<[i := x]> (meds y)) (tasks y) (stage y) (timeout_ms y) (conn_start_time y).
Definition set_tasks x y := mkSystem (sh y) (meds y) x (stage y) (timeout_ms y) (conn_start_time y).
Definition set_stage x y := mkSystem (sh y) (meds y) (tasks y) x (timeout_ms y) (conn_start_time y).
Definition set_timeout x y := mkSystem (sh y) (meds y) (tasks y) (stage y) x (conn_start_time y).
Definition set_start x y := mkSystem (sh y) (meds y) (tasks y) (stage y) (timeout_ms y) x.
Definition set_meds x y := mkSystem (sh y) x (tasks y) (stage y) (timeout_ms y) (conn_start_time y).
Definition spawn (l : list task) y := set_tasks (tasks y ++ map (λ t, (t, Fresh)) l) y.

(** A task of a server ends; the others are to end with it. *)
Definition finish (i : nat) (r : result unit string) (y : system) : system :=
  let y := match r with
           | Err err =>
               let err := "rendezvous mediator error: " +:+ err in
               if contains "10054" err || contains "11001" err then set_timeout 3000 y else y
           | Ok _ => y
           end in
  set_sh (set_should_exit true (sh y)) (set_med i Finished y).
Definition mediator_of (h0 a : string) : mediator :=
  let h := check_port h0 RENDEZVOUS_PORT in mkMediator a h (get_host_prefix h) DEFAULT_KEEP_ALIVE.
Definition start_udp (i : nat) (h0 : string) (now : Z) (socket : result string string) (y : system) : system :=
  match socket with
  | Err err => finish i (Err err) y
  | Ok a => set_med i (Udp (mediator_of h0 a) (start_of now)) y
  end.
Definition start_tcp (i : nat) (h0 : string) (now : Z) (conn : result string string) (y : system) : system :=
  match conn with
  | Err err => finish i (Err err) y
  | Ok a =>
      let rz := mediator_of h0 a in
      let s := emit (HostReset (host_prefix rz)) (on_config (set_host_key_confirmed (host_prefix rz) false) (sh y)) in
      set_med i (Tcp rz (mkTcp None now)) (set_sh s y)
  end.
Definition stop_service (c : config) : bool := option2bool "stop-service" (get_option c "stop-service").
Definition all_finished (y : system) : bool := forallb (λ m, match m with Finished => true | _ => false end) (meds y).
Definition round_step (now : Z) (installing : bool) (y : system) : system :=
  match stage y with
  | Top =>
      let s := emit NewRound (set_solving EmptyString (sh y)) in
      let y := set_timeout CONNECT_TIMEOUT (set_start now y) in
      if negb (stop_service (cf s)) && negb installing then set_stage (HaveServers (get_rendezvous_servers (cf s))) (set_sh s y)
      else set_stage Joined (set_sh (emit CloseConnections s) y)
  | HaveServers l => set_stage (Cleared l) (set_sh (set_should_exit false (sh y)) y)
  | Cleared l => set_stage Running (set_meds (map Starting l) (set_sh (set_manual false (sh y)) y))
  | Running => if all_finished y then set_stage Joined y else y
  | Joined =>
      let s := emit ResetOnline (sh y) in
      let s :=
        if negb (MANUAL_RESTARTED s) then
          let el := ms (elapsed now (conn_start_time y)) in
          if el <? timeout_ms y then emit (Sleep ((timeout_ms y - el) / 1000 * 1000)) s else s
        else emit (Sleep 33) s in
      set_stage Top (set_sh s y)
  end.

(** [CheckIfResendPk], dropped after the synchronisation with the service. *)
Definition check_if_resend_pk (pk : option bytes) (s : shared) : shared :=
  if SENT_REGISTER_PK s && negb (bool_decide (get_cached_pk (cf s) = pk))
  then emit Unconfirmed (on_config (set_key_confirmed false) s) else s.

Inductive event :=
  | ERound (now : Z) (installing : bool)
  | EStart (i : nat) (over_tcp : bool) (now : Z) (socket : result string string)
  | EUdp (i : nat) (a : answers) (t : turn)
  | ETcp (i : nat) (a : answers) (k : tcp_turn_kind)
  | ETask (j : nat) (e : tenv) (now : Z)
  | EOption (k v : string)
  | EShouldExit | EManual
  | EResend (pk : option bytes).
Definition step (y : system) (ev : event) : system :=
  match ev with
  | ERound now installing => round_step now installing y
  | EStart i over_tcp now socket =>
      match meds y !! i with
      | Some (Starting h0) => (if over_tcp then start_tcp else start_udp) i h0 now socket y
      | _ => y
      end
  | EUdp i a t =>
      match meds y !! i with
      | Some (Udp rz u) =>
          match udp_turn a t rz u (sh y) with
          | (Goes (rz, u), s, l) => spawn l (set_med i (Udp rz u) (set_sh s y))
          | (Ended r, s, l) => finish i r (spawn l (set_sh s y))
          end
      | _ => y
      end
  | ETcp i a k =>
      match meds y !! i with
      | Some (Tcp rz t) =>
          match tcp_turn a k rz t (sh y) with
          | (Goes (rz, t), s, l) => spawn l (set_med i (Tcp rz t) (set_sh s y))
          | (Ended r, s, l) => finish i r (spawn l (set_sh s y))
          end
      | _ => y
      end
  | ETask j e now =>
      match tasks y !! j with
      | Some (t, p) =>
          let '(l, s) := task_step e now t p (sh y) in set_sh s (set_tasks (delete j (tasks y) ++ l) y)
      | None => y
      end
  | EOption k v => set_sh (on_config (set_option k v) (sh y)) y
  | EShouldExit => set_sh (set_should_exit true (sh y)) y
  | EManual => set_sh (set_manual true (sh y)) y
  | EResend pk => set_sh (check_if_resend_pk pk (sh y)) y
  end.
Definition run (l : list event) (y : system) : system := foldl step y l.

(** ** What the trace says

    [view] is what an observer of the effects knows: the number, whether some
    server confirmed the key since the number or the key changed, which servers'
    prefixes did, and which server is being given a new number. *)
Record view := mkView { v_id : string; v_confirmed : bool; v_hosts : string -> bool; v_solver : string }.
Definition see (v : view) (x : effect) : view :=
  match x with
  | NewId h id => mkView id false (v_hosts v) h
  | Unconfirmed => mkView (v_id v) false (v_hosts v) (v_solver v)
  | Confirmed p => mkView (v_id v) true (λ q, String.eqb p q || v_hosts v q) EmptyString
  | HostReset p => mkView (v_id v) (v_confirmed v) (λ q, negb (String.eqb p q) && v_hosts v q) (v_solver v)
  | NewRound => mkView (v_id v) (v_confirmed v) (v_hosts v) EmptyString
  | _ => v
  end.
Definition free_for (h : string) (v : view) : Prop := v_solver v = EmptyString \/ v_solver v = h.
Definition permitted (v : view) (x : effect) : Prop :=
  match x with
  | Sent h (RegisterPeer id _) => id = v_id v /\ v_confirmed v = true /\ v_hosts v (get_host_prefix h) = true /\ free_for h v
  | Sent _ (RegisterPk id _ _) => id = v_id v
  | NewId h _ => free_for h v
  | _ => True
  end.
Fixpoint fine (v : view) (l : list effect) : Prop :=
  match l with [] => True | x :: l => permitted v x /\ fine (see v x) l end.
Definition view_of (s : shared) : view :=
  mkView (get_id (cf s)) (get_key_confirmed (cf s)) (get_host_key_confirmed (cf s)) (SOLVING_PK_MISMATCH s).

Record agree (v : view) (s : shared) : Prop := {
  ag_id : v_id v = get_id (cf s);
  ag_conf : get_key_confirmed (cf s) = true -> v_confirmed v = true;
  ag_hosts : forall q, get_host_key_confirmed (cf s) q = true -> v_hosts v q = true;
  ag_solver : v_solver v = SOLVING_PK_MISMATCH s }.
Definition lets_in (x : effect) : bool := match x with Serve _ _ _ | Listen _ _ _ => true | _ => false end.
Definition quiet (x : effect) : bool := negb (lets_in x).
Definition anything (x : effect) : bool := true.
(** From [s] to [s'], doing only what [P] holds of and what is permitted, and (if
    [sticky]) without taking back that the tasks should end. *)
Abbreviation stays b s s' := (b = true -> SHOULD_EXIT s = true -> SHOULD_EXIT s' = true).
Definition goes (sticky : bool) (P : effect -> bool) (s s' : shared) : Prop :=
  exists k, out s' = out s ++ k /\ Forall (λ x, P x = true) k /\ stays sticky s s' /\
    forall v, agree v s -> fine v k /\ agree (foldl see v k) s'.
Abbreviation goes_on := (goes true quiet).

Lemma fine_app v k k' : fine v (k ++ k') <-> fine v k /\ fine (foldl see v k) k'.
Proof. revert v. induction k as [|x k IH]; intros v; cbn; [tauto|]. rewrite IH. tauto. Qed.
Lemma fine_at v k1 x k2 : fine v (k1 ++ x :: k2) -> permitted (foldl see v k1) x.
Proof. rewrite fine_app. intros [_ [H _]]. exact H. Qed.
Lemma agree_view s : agree (view_of s) s.
Proof. by split. Qed.
Lemma goes_refl b P s : goes b P s s.
Proof. exists []. rewrite app_nil_r. split; [done|]. split; [done|]. split; [by intros _ H|]. intros v Hv. by split. Qed.
Lemma goes_trans b P s1 s2 s3 : goes b P s1 s2 -> goes b P s2 s3 -> goes b P s1 s3.
Proof.
  intros (k & Hk & F1 & S1 & H) (k' & Hk' & F2 & S2 & H'). exists (k ++ k'). split; [by rewrite Hk', Hk, app_assoc|].
  split; [by rewrite Forall_app|]. split; [intros Hb Hs; by apply S2, S1|]. intros v Hv. destruct (H v Hv) as [F A]. destruct (H' _ A) as [F' A'].
  rewrite fine_app, foldl_app. tauto.
Qed.
Lemma goes_weaken b P s s' : goes b P s s' -> goes false anything s s'.
Proof. intros (k & Hk & F & _ & H). exists k. split; [done|]. split; [by apply Forall_true|]. by split. Qed.

(** A change of the shared state without an effect, and an effect alone. *)
Lemma goes_silent b P s s' : out s' = out s -> stays b s s' -> (forall v, agree v s -> agree v s') -> goes b P s s'.
Proof. intros Ho Hs H. exists []. rewrite app_nil_r. split; [done|]. split; [done|]. split; [done|]. intros v Hv. split; [done|by apply H]. Qed.
Lemma goes_emit b (P : effect -> bool) x s s' : P x = true -> out s' = out s ++ [x] -> stays b s s' ->
  (forall v, agree v s -> permitted v x /\ agree (see v x) s') -> goes b P s s'.
Proof.
  intros Hx Ho Hs H. exists [x]. split; [done|]. split; [by repeat constructor|]. split; [done|]. intros v Hv. cbn. destruct (H v Hv). tauto.
Qed.

Definition plain (x : effect) : bool :=
  match x with
  | Sent _ (RegisterPeer _ _ | RegisterPk _ _ _) | NewId _ _ | Unconfirmed | Confirmed _ | HostReset _ | NewRound => false
  | _ => true
  end.
Lemma plain_spec x v : plain x = true -> permitted v x /\ see v x = v.
Proof. by destruct x as [h []| | | | | | | | | | | | | | | | | | | |]. Qed.
Lemma goes_plain b (P : effect -> bool) x s : plain x = true -> P x = true -> goes b P s (emit x s).
Proof.
  intros Hx HP. apply (goes_emit b P x); [done|done|done|]. intros v [H1 H2 H3 H4]. destruct (plain_spec x v Hx) as [Hp ->]. by split.
Qed.
Lemma goes_config b P f s : untouched get_key_confirmed get_host_key_confirmed f -> (forall c, get_id (f c) = get_id c) ->
  goes b P s (on_config f s).
Proof.
  intros Hu Hi. apply goes_silent; [done|done|]. intros v [H1 H2 H3 H4]. destruct (Hu (cf s)) as [Hk Hh].
  split; cbn; [by rewrite Hi|by rewrite Hk|intros q; rewrite Hh; auto|done].
Qed.
Lemma goes_flags b P s s' : out s' = out s -> cf s' = cf s -> SOLVING_PK_MISMATCH s' = SOLVING_PK_MISMATCH s -> stays b s s' -> goes b P s s'.
Proof. intros Ho Hc Hs Ht. apply goes_silent; [done|done|]. intros v [H1 H2 H3 H4]. split; rewrite ?Hc, ?Hs; done. Qed.

(** *** Registering *)
Definition named (rz : mediator) : Prop := host_prefix rz = get_host_prefix (host rz).

Lemma goes_send a rz m s : (forall v, agree v s -> permitted v (Sent (host rz) m)) -> goes_on s (send a rz m s).2.
Proof.
  intros H. unfold send. destruct (send_err a); [apply goes_refl|].
  apply (goes_emit _ _ (Sent (host rz) m)); [done|done|done|]. intros v Hv. split; [by apply H|]. by destruct Hv.
Qed.
Lemma goes_register_pk a rz s : goes_on s (register_pk a rz s).2.
Proof.
  unfold register_pk. destruct (get_key_pair (cf s)) as [pk c] eqn:E.
  assert (Hc : c = (get_key_pair (cf s)).2) by by rewrite E.
  eapply (goes_trans _ _ _ (set_cf c s)).
  - rewrite Hc. apply (goes_config _ _ (λ c, (get_key_pair c).2)); [apply untouched_pair|apply id_pair].
  - pose proof (goes_send a rz (RegisterPk (get_id c) machine_uuid pk) (set_cf c s)) as G.
    destruct (send a rz _ (set_cf c s)) as [[u|err] s'] eqn:E2; cbn in G |- *.
    + eapply goes_trans; [apply G; intros v Hv; symmetry; apply Hv|]. by apply goes_flags.
    + apply G. intros v Hv. symmetry. apply Hv.
Qed.
Lemma mine_free rz s v : agree v s -> mine rz s = true -> free_for (host rz) v.
Proof.
  intros Hv. unfold mine, free_for. rewrite (ag_solver v s Hv), orb_true_iff. intros [H|H].
  - left. by destruct (SOLVING_PK_MISMATCH s).
  - right. by apply String.eqb_eq.
Qed.
Lemma goes_uuid_mismatch a rz s : goes_on s (handle_uuid_mismatch a rz s).2.
Proof.
  unfold handle_uuid_mismatch. destruct (mine rz s) eqn:Em; [|apply goes_refl]. cbv zeta.
  eapply goes_trans; [|apply goes_register_pk].
  eexists [_; _]. cbn. rewrite <- app_assoc. split; [done|]. split; [by repeat constructor|]. split; [done|]. intros v Hv.
  pose proof (mine_free rz s v Hv Em) as Hf. destruct Hv as [H1 H2 H3 H4].
  destruct (untouched_id (fresh_id a) (set_key_confirmed false (cf s))) as [Hk Hh]. rewrite key_confirmed_set in Hk.
  split; [repeat split; exact Hf|]. split; cbn.
  - done.
  - by rewrite Hk.
  - intros q. rewrite Hh. intros Hq%host_confirmed_key. auto.
  - done.
Qed.
Lemma goes_register_peer a rz s : named rz -> goes_on s (register_peer a rz s).2.
Proof.
  intros Hn. unfold register_peer. destruct (mine rz s) eqn:Em; cbn [negb]; [|apply goes_refl].
  destruct (_ || _) eqn:E; [apply goes_register_pk|]. apply orb_false_iff in E as [Ek Eh].
  apply negb_false_iff in Ek, Eh. apply goes_send. intros v Hv. pose proof (mine_free rz s v Hv Em).
  destruct Hv as [H1 H2 H3 H4]. cbn. rewrite <- Hn. auto.
Qed.
Lemma goes_confirmed rz s :
  goes_on s (set_solving EmptyString (emit (Confirmed (host_prefix rz))
    (on_config (set_host_key_confirmed (host_prefix rz) true) (on_config (set_key_confirmed true) s)))).
Proof.
  apply (goes_emit _ _ (Confirmed (host_prefix rz))); [done|done|done|]. intros v [H1 H2 H3 H4]. split; [done|].
  split; cbn; [by rewrite id_host, id_key|done| |done].
  intros q. rewrite host_confirmed_set. destruct (String.eqb _ _); [done|]. cbn. intros Hq%host_confirmed_key. auto.
Qed.
Lemma goes_configure_update l n s : goes_on s (configure_update l n s).
Proof.
  unfold configure_update. cbv zeta.
  assert (goes_on s (on_config (set_serial n) (on_config (set_option "rendezvous-servers" (String.concat "," l)) s))).
  { eapply goes_trans; apply goes_config; auto using untouched_option, untouched_serial, id_option, id_serial. }
  destruct (decide _); [done|]. eapply goes_trans; [done|]. by apply goes_flags.
Qed.
Lemma goes_handle_resp {L} (upd : L -> shared -> L * shared) a m rz l s : (forall l s, goes_on s (upd l s).2) ->
  goes_on s (handle_resp upd a m rz l s).1.2.2.
Proof.
  intros Hu. destruct m as [pk|r ka|ph|rr|fla|servers n|]; cbn [handle_resp]; try apply goes_refl.
  - specialize (Hu l s). destruct (upd l s) as [l' s1]. cbn in Hu. destruct pk; [|done].
    pose proof (goes_register_pk a rz s1) as G. destruct (register_pk a rz s1) as [r s2].
    by eapply goes_trans.
  - specialize (Hu l s). destruct (upd l s) as [l' s1]. cbn in Hu. eapply goes_trans; [done|].
    destruct r; cbv zeta.
    + destruct (0 <? ka); apply goes_confirmed.
    + pose proof (goes_uuid_mismatch a rz s1) as G. destruct (handle_uuid_mismatch a rz s1) as [[[]|err] s2]; [|done].
      by destruct (0 <? ka).
    + destruct (0 <? ka); apply goes_refl.
  - apply goes_configure_update.
Qed.
Lemma handle_resp_named {L} (upd : L -> shared -> L * shared) a m rz l s :
  host (handle_resp upd a m rz l s).1.2.1.1 = host rz /\ host_prefix (handle_resp upd a m rz l s).1.2.1.1 = host_prefix rz.
Proof.
  destruct m as [pk|r ka|ph|rr|fla|servers n|]; cbn [handle_resp]; try done.
  - destruct (upd l s) as [l' s1]. destruct pk; [|done]. by destruct (register_pk a rz s1).
  - destruct (upd l s) as [l' s1]. destruct r; cbv zeta.
    + by destruct (0 <? ka).
    + destruct (handle_uuid_mismatch a rz s1) as [[[]|err] s2]; [|done]. by destruct (0 <? ka).
    + by destruct (0 <? ka).
Qed.

(** *** The loops *)
Lemma smoothed_spec x u : last_register_sent (smoothed x u).2 = last_register_sent u.
Proof. unfold smoothed. by destruct (_ =? _). Qed.
Lemma goes_update_latency n h u s : goes_on s (update_latency n h u s).2.
Proof.
  unfold update_latency. cbv zeta. destruct (_ || _); [apply goes_refl|]. destruct (smoothed _ _) as [x u'].
  destruct (_ || _); [by apply goes_plain|apply goes_refl].
Qed.
Lemma goes_note_failure a rz u s : goes_on s (note_failure a rz u s).2.
Proof.
  unfold note_failure. cbv zeta.
  destruct (_ <=? _).
  - destruct (_ <? _); [|by apply goes_plain].
    destruct (rebind a) as [[x|]|err]; try by apply goes_plain.
    eapply goes_trans; by apply goes_plain.
  - destruct (_ <=? _); [by apply goes_plain|apply goes_refl].
Qed.
Lemma note_failure_named a rz u s rz' u' : (note_failure a rz u s).1 = Ok (rz', u') -> host rz' = host rz /\ host_prefix rz' = host_prefix rz.
Proof.
  unfold note_failure. cbv zeta. destruct (_ <=? _).
  - destruct (_ <? _); [|by intros [= <- _]]. destruct (rebind a) as [[x|]|err]; by intros [= <- _].
  - destruct (_ <=? _); by intros [= <- _].
Qed.

Definition stays_named {A} (o : outcome (mediator * A)) (rz : mediator) : Prop :=
  match o with Goes (rz', _) => host rz' = host rz /\ host_prefix rz' = host_prefix rz | Ended _ => True end.
Lemma goes_udp_tick a rz u s : named rz -> goes_on s (udp_tick a rz u s).2 /\ stays_named (udp_tick a rz u s).1 rz.
Proof.
  intros Hn. unfold udp_tick. destruct (SHOULD_EXIT s); [split; [apply goes_refl|done]|]. cbv zeta.
  set (u0 := if _ && (_ && _) then _ else u). destruct (_ || _); [|split; [apply goes_refl|done]].
  assert (G : goes_on s (if is_timeout (now a) u then note_failure a rz u0 s else (Ok (rz, u0), s)).2
    /\ forall rz' u', (if is_timeout (now a) u then note_failure a rz u0 s else (Ok (rz, u0), s)).1 = Ok (rz', u') ->
         host rz' = host rz /\ host_prefix rz' = host_prefix rz).
  { destruct (is_timeout _ _); split; [apply goes_note_failure|intros ??; apply note_failure_named|apply goes_refl|by intros ?? [= <- _]]. }
  destruct (if is_timeout _ _ then _ else _) as [[[rz' u']|err] s1]; cbn in G |- *; [|by destruct G].
  destruct G as [G Gn]. destruct (Gn _ _ eq_refl) as [Hh Hp].
  assert (named rz') as Hn' by (unfold named; by rewrite Hp, Hh).
  pose proof (goes_register_peer a rz' s1 Hn') as G'. destruct (register_peer a rz' s1) as [[[]|err] s2];
    (split; [by eapply goes_trans|done]).
Qed.
Lemma goes_udp_turn a t rz u s : named rz ->
  goes_on s (udp_turn a t rz u s).1.2 /\ stays_named (udp_turn a t rz u s).1.1 rz.
Proof.
  intros Hn. destruct t as [[[m|]|err|]|]; cbn [udp_turn]; try (split; [apply goes_refl|done]).
  - pose proof (goes_handle_resp (update_latency (now a) (host rz)) a m rz u s (goes_update_latency _ _)) as G.
    pose proof (handle_resp_named (update_latency (now a) (host rz)) a m rz u s) as N.
    by destruct (handle_resp _ a m rz u s) as [[[[]|err] [[rz' u'] s']] l].
  - pose proof (goes_udp_tick a rz u s Hn) as G. by destruct (udp_tick a rz u s).
Qed.
Lemma goes_tcp_turn a k rz t s : goes_on s (tcp_turn a k rz t s).1.2 /\ stays_named (tcp_turn a k rz t s).1.1 rz.
Proof.
  destruct k as [i|]; cbn [tcp_turn].
  - cbv zeta. destruct i as [|err| |err|m]; try (split; [apply goes_refl|done]).
    + pose proof (goes_send a rz Heartbeat s (λ v _, I)) as G. by destruct (send a rz Heartbeat s) as [[[]|err] s'].
    + set (t' := mkTcp _ _).
      assert (forall l s, goes_on s (tcp_latency (now a) (host rz) l s).2) as Hu by (intros; by apply goes_plain).
      pose proof (goes_handle_resp (tcp_latency (now a) (host rz)) a m rz t' s Hu) as G.
      pose proof (handle_resp_named (tcp_latency (now a) (host rz)) a m rz t' s) as N.
      by destruct (handle_resp _ a m rz t' s) as [[[[]|err] [[rz' u'] s']] l].
  - unfold tcp_tick. destruct (SHOULD_EXIT s); [split; [apply goes_refl|done]|].
    destruct (_ <? _); [split; [apply goes_refl|done]|]. destruct (_ && _); [|split; [apply goes_refl|done]].
    pose proof (goes_register_pk a rz s) as G. by destruct (register_pk a rz s) as [[[]|err] s'].
Qed.

(** *** The answers *)
Definition adds (P : effect -> Prop) {A} (m : M A) : Prop := forall l, exists k, (m l).2 = l ++ k /\ Forall P k.
Lemma adds_ret P {A} (x : A) : adds P (mret x).
Proof. intros l. exists []. by rewrite app_nil_r. Qed.
Lemma adds_then P {A B} (m : M A) (k : A -> M B) : adds P m -> (forall x, adds P (k x)) -> adds P (mthen m k).
Proof.
  intros Hm Hk l. unfold mthen. destruct (Hm l) as (k1 & E & F). destruct (m l) as [[x|err] l1]; cbn in E; subst.
  - destruct (Hk x (l ++ k1)) as (k2 & -> & F2). exists (k1 ++ k2). by rewrite app_assoc, Forall_app.
  - by exists k1.
Qed.
Lemma adds_note (P : effect -> Prop) x : P x -> adds P (note x).
Proof. intros H l. exists [x]. by repeat constructor. Qed.
Lemma adds_attempt (P : effect -> Prop) e x : P x -> adds P (attempt e x).
Proof.
  intros H l. unfold attempt. destruct (tfails e _); [exists []; by rewrite app_nil_r|]. exists [x]. by repeat constructor.
Qed.
Lemma adds_allow P {A} (m : M A) : adds P m -> adds P (allow_err m).
Proof. intros H l. destruct (H l) as (k & E & F). by exists k. Qed.
Lemma adds_local P e : adds P (local e).
Proof. intros l. exists []. by rewrite app_nil_r. Qed.
(** An answer may look at how far it got. *)
Lemma adds_at P {A} (m : list effect -> M A) : (forall l, adds P (m l)) -> adds P (λ l, m l l).
Proof. intros H l. apply H. Qed.
Lemma adds_or P {A} (m k : M A) : adds P m -> adds P k ->
  adds P (λ l, match m l with (Ok x, l) => (Ok x, l) | (Err _, l) => k l end).
Proof.
  intros Hm Hk l. destruct (Hm l) as (k1 & E & F). destruct (m l) as [[x|err] l1]; cbn in E; subst; [by exists k1|].
  destruct (Hk (l ++ k1)) as (k2 & -> & F2). exists (k1 ++ k2). by rewrite app_assoc, Forall_app.
Qed.

(** What an answer may do: nothing about the registration, and whoever it lets
    in is secured and restricted as the message says. *)
Definition permissions_of (t : task) : option Z :=
  match t with
  | TPunch _ ph => ph_permissions ph | TRelay _ rr => rr_permissions rr
  | TIntranet _ fla => fla_permissions fla | TListen _ _ p => p end.
Definition secured (t : task) : bool := match t with TRelay _ rr => rr_secure rr | _ => true end.
Definition as_asked (sec : bool) (p : option Z) (x : effect) : Prop :=
  plain x = true /\ match x with
                    | Serve _ s q => s = sec /\ q = p
                    | Listen _ _ q => q = p
                    | _ => True
                    end.

Lemma adds_accept e local sec p : adds (as_asked sec p) (accept_connection e local sec p).
Proof.
  apply adds_allow, adds_then; [by apply adds_attempt|]. intros _.
  apply (adds_at _ (λ l, note (Serve (accepted e (length l)) sec p))). intros l. by apply adds_note.
Qed.
Lemma adds_relay_connection e server id peer sec v4 p : adds (as_asked sec p) (create_relay_connection e server id peer sec v4 p).
Proof.
  apply adds_allow, adds_then; [by apply adds_attempt|]. intros _.
  apply adds_then; [by apply adds_attempt|]. intros _. by apply adds_note.
Qed.
Lemma adds_create_relay e c rz sa server id sec init v6 p : adds (as_asked sec p) (create_relay e c rz sa server id sec init v6 p).
Proof.
  apply adds_then; [by apply adds_attempt|]. intros _. apply adds_then; [by apply adds_attempt|]. intros _.
  apply adds_relay_connection.
Qed.
Lemma adds_listen e peer peer4 p : adds (as_asked true p) (udp_nat_listen e peer peer4 p).
Proof. apply adds_then; [by apply adds_attempt|]. intros _. by apply adds_note. Qed.
Lemma adds_v6 e relay v6 peer p : adds (as_asked true p) (v6_for e relay v6 peer p).
Proof.
  unfold v6_for, start_ipv6. destruct (_ && _); [|apply adds_ret]. apply adds_then; [by apply adds_note|]. intros _.
  destruct (ipv6_socket e); [|apply adds_ret]. apply adds_then; [by apply adds_note|]. intros _. apply adds_ret.
Qed.
Lemma adds_punch_hole e c rz ph : adds (as_asked true (ph_permissions ph)) (punch_hole e c rz ph).
Proof.
  unfold punch_hole. cbv zeta. apply adds_then; [apply adds_v6|]. intros v6.
  destruct (_ || _); [apply adds_create_relay|]. destruct (_ <? _).
  - unfold punch_udp_hole. apply adds_then; [by apply adds_attempt|]. intros _.
    apply adds_then; [by apply adds_attempt|]. intros _. apply adds_then; [by apply adds_note|]. intros _. apply adds_listen.
  - apply adds_then; [by apply adds_attempt|]. intros _. apply adds_then; [apply adds_local|]. intros here.
    apply adds_then; [by apply adds_allow, adds_attempt|]. intros _.
    apply adds_then; [by apply adds_attempt|]. intros _. apply adds_accept.
Qed.
Lemma adds_intranet_ e c rz fla server v6 : adds (as_asked true (fla_permissions fla)) (handle_intranet_ e c rz fla server v6).
Proof.
  unfold handle_intranet_. cbv zeta. apply adds_then; [by apply adds_attempt|]. intros _.
  apply adds_then; [apply adds_local|]. intros here l. destruct (reparsed e here); [|exists []; by rewrite app_nil_r].
  revert l. change (adds (as_asked true (fla_permissions fla))
    (mthen (attempt e (Sent (host rz) (LocalAddr (get_id c) (encode (decode (fla_socket_addr fla))) (encode a) server v6)))
       (λ _, accept_connection e here true (fla_permissions fla)))).
  apply adds_then; [by apply adds_attempt|]. intros _. apply adds_accept.
Qed.
Lemma adds_intranet e c rz fla : adds (as_asked true (fla_permissions fla)) (intranet e c rz fla).
Proof.
  unfold intranet. cbv zeta. apply adds_then; [apply adds_v6|]. intros v6.
  destruct (_ && _); [|apply adds_create_relay].
  pose proof (adds_or _ _ _ (adds_intranet_ e c rz fla (get_relay_server c rz (fla_relay_server fla)) v6)
    (adds_create_relay e c rz (fla_socket_addr fla) (get_relay_server c rz (fla_relay_server fla)) (uuid_v4 e) true true v6 (fla_permissions fla))) as H.
  intros l. destruct (H l) as (k & E & F). exists k. split; [|done]. rewrite <- E.
  by destruct (handle_intranet_ _ _ _ _ _ _ l) as [[[]|err] l'].
Qed.
Lemma adds_answer e c t : adds (as_asked (secured t) (permissions_of t)) (answer e c t).
Proof.
  destruct t; cbn [answer secured permissions_of]; auto using adds_punch_hole, adds_create_relay, adds_intranet, adds_listen.
  apply adds_create_relay.
Qed.

Lemma goes_plain_list b (P : effect -> bool) k s s' : Forall (λ x, P x = true) k -> Forall (λ x, plain x = true) k -> out s' = out s ++ k -> cf s' = cf s ->
  SOLVING_PK_MISMATCH s' = SOLVING_PK_MISMATCH s -> stays b s s' -> goes b P s s'.
Proof.
  intros FP F Ho Hc Hs Ht. exists k. split; [done|]. split; [done|]. split; [done|]. intros v Hv.
  assert (fine v k /\ foldl see v k = v) as [Hf ->].
  { clear -F. induction F as [|x k Hx F IH]; [done|]. cbn. destruct (plain_spec x v Hx) as [Hp ->]. tauto. }
  split; [done|]. destruct Hv as [H1 H2 H3 H4]. split; rewrite ?Hc, ?Hs; done.
Qed.
Lemma goes_run_answer e t s : goes true anything s (run_answer e t s).1.
Proof.
  unfold run_answer. cbv zeta. destruct (adds_answer e (cf s) t (out s)) as (k & E & F).
  apply (goes_plain_list _ _ k); [by apply Forall_true| |by cbn; rewrite E..|done|done|done].
  eapply Forall_impl; [exact F|]. by intros x [H _].
Qed.
Lemma goes_task e n t p s : goes true anything s (task_step e n t p s).2.
Proof.
  unfold task_step. destruct (asker t) as [a|]; [|apply goes_run_answer].
  destruct p as [|last]; [apply goes_refl|]. cbv zeta.
  assert (G : goes true anything s (set_last_of t (a, n) s)) by (destruct t; by apply goes_flags).
  destruct (is_duplicate last a n); [done|].
  pose proof (goes_run_answer e t (set_last_of t (a, n) s)) as G2.
  destruct (run_answer e t (set_last_of t (a, n) s)) as [s' l]. by eapply goes_trans.
Qed.

(** ** The run *)
Definition med_named (m : task_of_server) : Prop := match m with Udp rz _ | Tcp rz _ => named rz | _ => True end.
Definition sys_named (y : system) : Prop := Forall med_named (meds y).

Lemma set_med_named i m y : sys_named y -> med_named m -> Forall med_named (<[i := m]> (meds y)).
Proof. intros Hy Hm. by apply Forall_insert. Qed.
Lemma lookup_named i m y : sys_named y -> meds y !! i = Some m -> med_named m.
Proof. intros Hy Hl. by eapply Forall_lookup_1. Qed.
Lemma finish_spec i r y : sys_named y -> goes_on (sh y) (sh (finish i r y)) /\ sys_named (finish i r y).
Proof.
  intros Hy. unfold finish. cbv zeta.
  set (y1 := match r with Ok _ => y | Err err => _ end).
  assert (sh y1 = sh y /\ meds y1 = meds y) as [E1 E2] by (subst y1; destruct r; [done|]; by destruct (_ || _)).
  split; cbn; rewrite ?E1; [by apply goes_flags|]. unfold sys_named. cbn. rewrite E2. by apply set_med_named.
Qed.
Lemma stays_named_ok {A} (rz' rz : mediator) (x : A) : named rz -> stays_named (Goes (rz', x)) rz -> named rz'.
Proof. intros Hn [H1 H2]. unfold named. by rewrite H1, H2. Qed.
Definition reach (ev : event) : effect -> bool := match ev with ETask _ _ _ => anything | _ => quiet end.
Definition sticky (y : system) (ev : event) : bool :=
  match ev, stage y with ERound _ _, HaveServers _ => false | _, _ => true end.
Lemma step_spec y ev : sys_named y -> goes (sticky y ev) (reach ev) (sh y) (sh (step y ev)) /\ sys_named (step y ev).
Proof.
  intros Hy. destruct ev as [n installing|i b n r|i a t|i a k|j e n|k v| | |pk]; cbn [step reach sticky].
  - unfold round_step. destruct (stage y) as [|l|l| |]; cbv zeta.
    + assert (G : goes_on (sh y) (emit NewRound (set_solving EmptyString (sh y)))).
      { apply (goes_emit _ _ NewRound); [done|done|done|]. intros v [H1 H2 H3 H4]. split; [done|]. by split. }
      destruct (_ && _); (split; [|done]); [done|]. eapply goes_trans; [done|]. by apply goes_plain.
    + split; [by apply goes_flags|done].
    + split; [by apply goes_flags|]. unfold sys_named. cbn. apply Forall_map, Forall_true. done.
    + by destruct (all_finished y); (split; [apply goes_refl|]).
    + split; [|done]. eapply goes_trans; [by apply (goes_plain _ _ ResetOnline)|].
      destruct (negb _); [|by apply goes_plain]. destruct (_ <? _); [by apply goes_plain|apply goes_refl].
  - destruct (meds y !! i) as [m|] eqn:E; [|split; [apply goes_refl|done]].
    destruct m as [h0| | |]; try (split; [apply goes_refl|done]).
    destruct b.
    + unfold start_tcp. destruct r as [a|err]; [|by apply finish_spec]. cbv zeta. split; [|by apply set_med_named].
      apply (goes_emit _ _ (HostReset (get_host_prefix (check_port h0 RENDEZVOUS_PORT)))); [done|done|done|].
      intros v [H1 H2 H3 H4]. split; [done|]. split; cbn; [by rewrite id_host|by rewrite key_confirmed_host| |done].
      intros q. rewrite host_confirmed_set. destruct (String.eqb _ _); [done|]. cbn. auto.
    + unfold start_udp. destruct r as [a|err]; [|by apply finish_spec]. split; [apply goes_refl|by apply set_med_named].
  - destruct (meds y !! i) as [[| rz u| |]|] eqn:E; try (split; [apply goes_refl|done]).
    pose proof (lookup_named i _ y Hy E) as Hn. destruct (goes_udp_turn a t rz u (sh y) Hn) as [G N].
    destruct (udp_turn a t rz u (sh y)) as [[[[rz' u']|r] s] l]; cbn in G, N.
    + split; [done|]. apply set_med_named; [done|]. by eapply (stays_named_ok rz' rz u').
    + destruct (finish_spec i r (spawn l (set_sh s y))) as [G2 Hy2]; [done|]. split; [by eapply goes_trans|done].
  - destruct (meds y !! i) as [[| |rz t|]|] eqn:E; try (split; [apply goes_refl|done]).
    pose proof (lookup_named i _ y Hy E) as Hn. destruct (goes_tcp_turn a k rz t (sh y)) as [G N].
    destruct (tcp_turn a k rz t (sh y)) as [[[[rz' u']|r] s] l]; cbn in G, N.
    + split; [done|]. apply set_med_named; [done|]. by eapply (stays_named_ok rz' rz u').
    + destruct (finish_spec i r (spawn l (set_sh s y))) as [G2 Hy2]; [done|]. split; [by eapply goes_trans|done].
  - destruct (tasks y !! j) as [[t p]|]; [|split; [apply goes_refl|done]].
    pose proof (goes_task e n t p (sh y)) as G. by destruct (task_step e n t p (sh y)).
  - split; [|done]. apply goes_config; [apply untouched_option|intros; apply id_option].
  - split; [by apply goes_flags|done].
  - split; [by apply goes_flags|done].
  - split; [|done]. unfold check_if_resend_pk. destruct (_ && _); [|apply goes_refl].
    apply (goes_emit _ _ Unconfirmed); [done|done|done|]. intros v [H1 H2 H3 H4]. split; [done|].
    split; cbn; [by rewrite id_key|by rewrite key_confirmed_set|intros q Hq%host_confirmed_key; auto|done].
Qed.
Lemma run_goes l y : sys_named y -> goes false anything (sh y) (sh (run l y)) /\ sys_named (run l y).
Proof.
  revert y. induction l as [|ev l IH]; intros y Hy; [split; [apply goes_refl|done]|].
  destruct (step_spec y ev Hy) as [G Hy']. destruct (IH _ Hy') as [G' Hy'']. split; [|done].
  eapply goes_trans; [by eapply goes_weaken|done].
Qed.

(** In the trace: a registration names the number that was last taken, after a
    confirmation of the key with nothing in between that takes it back. *)
Lemma trace_permitted y l : sys_named y -> exists k, out (sh (run l y)) = out (sh y) ++ k /\
  forall k1 x k2, k = k1 ++ x :: k2 -> permitted (foldl see (view_of (sh y)) k1) x.
Proof.
  intros Hy. destruct (run_goes l y Hy) as [(k & Hk & _ & _ & H) _]. exists k. split; [done|].
  intros k1 x k2 ->. destruct (H _ (agree_view (sh y))) as [F _]. by eapply fine_at.
Qed.

(** *** What the events say of the key

    The message a task of a server takes in, with the task's own server. *)
Definition taken_in (y : system) (ev : event) : option (mediator * message) :=
  match ev with
  | EUdp i _ (Received (Packet (Some m))) => match meds y !! i with Some (Udp rz _) => Some (rz, m) | _ => None end
  | ETcp i _ (TReceived (TMsg m)) => match meds y !! i with Some (Tcp rz _) => Some (rz, m) | _ => None end
  | _ => None
  end.
(** A server confirms the key; a server says that the number is taken, and it is
    this server's turn to be given a new one; the key was replaced after it had
    been sent; a connection to a server is opened anew over TCP. *)
Definition confirms (y : system) (ev : event) : option string :=
  match taken_in y ev with Some (rz, RegisterPkResponse RegisterOk _) => Some (host_prefix rz) | _ => None end.
Definition renumbers (y : system) (ev : event) : bool :=
  match taken_in y ev with Some (rz, RegisterPkResponse UUID_MISMATCH _) => mine rz (sh y) | _ => false end.
Definition rekeys (y : system) (ev : event) : bool :=
  match ev with
  | EResend pk => SENT_REGISTER_PK (sh y) && negb (bool_decide (get_cached_pk (cf (sh y)) = pk))
  | _ => false
  end.
Definition reopens (y : system) (ev : event) : option string :=
  match ev with
  | EStart i true _ (Ok _) =>
      match meds y !! i with Some (Starting h0) => Some (get_host_prefix (check_port h0 RENDEZVOUS_PORT)) | _ => None end
  | _ => None
  end.
(** Whether some server confirmed the key since the number or the key last
    changed, and whether a server of the prefix [q] did since it was last opened
    over TCP; [b] says it of the beginning. *)
Fixpoint key_stands (b : bool) (y : system) (l : list event) : bool :=
  match l with
  | [] => b
  | ev :: l =>
      key_stands (match confirms y ev with
                  | Some _ => true
                  | None => if renumbers y ev || rekeys y ev then false else b
                  end) (step y ev) l
  end.
Fixpoint host_stands (q : string) (b : bool) (y : system) (l : list event) : bool :=
  match l with
  | [] => b
  | ev :: l =>
      host_stands q (if bool_decide (confirms y ev = Some q) then true
                     else if bool_decide (reopens y ev = Some q) then false else b) (step y ev) l
  end.

Record alike (c c' : config) : Prop := mkAlike {
  al_id : get_id c' = get_id c; al_key : get_key_confirmed c' = get_key_confirmed c;
  al_host : forall q, get_host_key_confirmed c' q = get_host_key_confirmed c q }.
Lemma alike_refl c : alike c c.
Proof. done. Qed.
Lemma alike_trans c1 c2 c3 : alike c1 c2 -> alike c2 c3 -> alike c1 c3.
Proof. intros [H1 H2 H3] [K1 K2 K3]. split; [congruence..|]. intros q. by rewrite K3. Qed.
Lemma alike_fn f : untouched get_key_confirmed get_host_key_confirmed f -> (forall c, get_id (f c) = get_id c) -> forall c, alike c (f c).
Proof. intros Hu Hi c. destruct (Hu c). by split. Qed.

(** What is sent in a step: registrations of the key carry the number and the
    key of the configuration they leave. *)
Definition sends (P : shared -> effect -> Prop) (s s' : shared) : Prop := exists k, out s' = out s ++ k /\ Forall (P s') k.
Definition no_names (s : shared) (x : effect) : Prop :=
  match x with
  | Sent _ (RegisterPeer _ _) => False
  | Sent _ (RegisterPk id _ pk) => id = get_id (cf s) /\ get_cached_pk (cf s) = Some pk
  | _ => True
  end.
Definition no_keys (x : effect) : Prop :=
  match x with Sent _ (RegisterPeer _ _ | RegisterPk _ _ _) => False | _ => True end.
Lemma sends_nothing P s s' : out s' = out s -> sends P s s'.
Proof. intros H. exists []. by rewrite H, app_nil_r. Qed.
Lemma sends_plain s s' k : out s' = out s ++ k -> Forall no_keys k -> sends no_names s s'.
Proof. intros H F. exists k. split; [done|]. eapply Forall_impl; [exact F|]. by intros [h []| | | | | | | | | | | | | | | | | | | |]. Qed.
Lemma sends_after s s1 s' k : out s1 = out s ++ k -> Forall no_keys k -> sends no_names s1 s' -> sends no_names s s'.
Proof.
  intros H F (k' & Hk & F'). exists (k ++ k'). split; [by rewrite Hk, H, app_assoc|]. apply Forall_app. split; [|done].
  eapply Forall_impl; [exact F|]. by intros [h []| | | | | | | | | | | | | | | | | | | |].
Qed.
Lemma sends_one x s s' : no_keys x -> out s' = out s ++ [x] -> sends no_names s s'.
Proof. intros Hx E. apply (sends_plain _ _ [x]); [done|]. by repeat constructor. Qed.
Lemma sends_two x x' s s' : no_keys x -> no_keys x' -> out s' = (out s ++ [x]) ++ [x'] -> sends no_names s s'.
Proof. intros Hx Hx' E. apply (sends_plain _ _ [x; x']); [by rewrite E, <- app_assoc|by repeat constructor]. Qed.
Lemma plain_no_keys x : plain x = true -> no_keys x.
Proof. by destruct x as [h []| | | | | | | | | | | | | | | | | | | |]. Qed.

Lemma register_pk_sends a rz s : sends no_names s (register_pk a rz s).2 /\ alike (cf s) (cf (register_pk a rz s).2).
Proof.
  pose proof (alike_fn (λ c, (get_key_pair c).2) untouched_pair id_pair (cf s)) as Ha. pose proof (cached_after (cf s)) as Hc.
  cbv beta in Ha. unfold register_pk, send. destruct (get_key_pair (cf s)) as [pk c]. cbn in Ha, Hc.
  destruct (send_err a); cbn; (split; [|done]); [by apply sends_nothing|].
  eexists [_]. split; [done|]. repeat constructor; done.
Qed.
Lemma register_peer_sends a rz s : exists k, out (register_peer a rz s).2 = out s ++ k /\ alike (cf s) (cf (register_peer a rz s).2)
  /\ Forall (λ x, match x with
                  | Sent h (RegisterPeer id _) => h = host rz /\ id = get_id (cf s) /\ mine rz s = true
                      /\ get_key_confirmed (cf s) = true /\ get_host_key_confirmed (cf s) (host_prefix rz) = true
                  | _ => no_names (register_peer a rz s).2 x
                  end) k.
Proof.
  unfold register_peer. destruct (mine rz s) eqn:Em; cbn [negb]; [|exists []; by rewrite app_nil_r].
  destruct (_ || _) eqn:E.
  - destruct (register_pk_sends a rz s) as [(k & Hk & F) Ha]. exists k. split; [done|]. split; [done|].
    eapply Forall_impl; [exact F|]. intros [h []| | | | | | | | | | | | | | | | | | | |]; done.
  - apply orb_false_iff in E as [Ek Eh]. apply negb_false_iff in Ek, Eh. unfold send.
    destruct (send_err a); [exists []; by rewrite app_nil_r|]. eexists [_]. split; [done|]. split; [done|]. by repeat constructor.
Qed.

(** What a message of a server does to what is known of the key. *)
Lemma handle_resp_key {L} (upd : L -> shared -> L * shared) a m rz l s :
  (forall l s, exists k, out (upd l s).2 = out s ++ k /\ Forall no_keys k /\ cf (upd l s).2 = cf s /\ SOLVING_PK_MISMATCH (upd l s).2 = SOLVING_PK_MISMATCH s) ->
  let s' := (handle_resp upd a m rz l s).1.2.2 in
  sends no_names s s' /\
  match m with
  | RegisterPkResponse RegisterOk _ => cf s' = set_host_key_confirmed (host_prefix rz) true (set_key_confirmed true (cf s))
  | RegisterPkResponse UUID_MISMATCH _ =>
      if mine rz s then get_key_confirmed (cf s') = false
        /\ forall q, get_host_key_confirmed (cf s') q = true -> get_host_key_confirmed (cf s) q = true
      else cf s' = cf s
  | _ => alike (cf s) (cf s')
  end.
Proof.
  intros Hu. cbv zeta. specialize (Hu l s). destruct m as [pk|r ka|ph|rr|fla|servers n|]; cbn [handle_resp];
    try (split; [by apply sends_nothing|done]).
  - destruct (upd l s) as [l' s1]. destruct Hu as (k & Hk & F & Hc & _). cbn in Hk, Hc.
    destruct pk; [|split; [by eapply sends_plain|by rewrite <- Hc]].
    destruct (register_pk_sends a rz s1) as [S A]. rewrite Hc in A. destruct (register_pk a rz s1). cbn in S, A |- *.
    split; [by eapply sends_after|done].
  - destruct (upd l s) as [l' s1]. destruct Hu as (k & Hk & F & Hc & Hs). cbn in Hk, Hc, Hs. destruct r; cbv zeta.
    + split; [|destruct (0 <? ka); cbn; by rewrite Hc].
      eapply sends_after; [exact Hk|done|]. destruct (0 <? ka); cbn; by eapply (sends_plain _ _ [_]); [|repeat constructor].
    + unfold handle_uuid_mismatch. assert (mine rz s1 = mine rz s) as -> by (unfold mine; by rewrite Hs).
      destruct (mine rz s); [|destruct (0 <? ka); cbn; rewrite Hc; split; try done; by eapply sends_plain].
      cbv zeta. set (s2 := set_solving (host rz) _). destruct (register_pk_sends a rz s2) as [S A].
      assert (S' : sends no_names s (register_pk a rz s2).2).
      { eapply (sends_after _ s2 _ (k ++ [Unconfirmed; NewId (host rz) (get_id (cf s2))])); [|apply Forall_app; split; [done|by repeat constructor]|done].
        cbn. rewrite Hk. by rewrite <- !app_assoc. }
      assert (A' : get_key_confirmed (cf (register_pk a rz s2).2) = false /\ forall q,
        get_host_key_confirmed (cf (register_pk a rz s2).2) q = true -> get_host_key_confirmed (cf s) q = true).
      { destruct A as [_ A1 A2]. rewrite A1. cbn. destruct (untouched_id (fresh_id a) (set_key_confirmed false (cf s1))) as [U1 U2].
        rewrite U1, key_confirmed_set. split; [done|]. intros q. rewrite A2. cbn. rewrite U2. rewrite <- Hc. apply host_confirmed_key. }
      destruct (register_pk a rz s2) as [[u|err] s3]; cbn in S', A' |- *; [destruct (0 <? ka)|]; done.
    + destruct (0 <? ka); cbn; (split; [by eapply sends_plain|by rewrite <- Hc]).
  - split.
    + apply sends_nothing. cbn. unfold configure_update. cbv zeta. by destruct (decide _).
    + cbn. unfold configure_update. cbv zeta.
      assert (alike (cf s) (set_serial n (set_option "rendezvous-servers" (String.concat "," servers) (cf s)))).
      { eapply alike_trans; [apply (alike_fn (set_option "rendezvous-servers" (String.concat "," servers)));
          [apply untouched_option|intros; apply id_option]|].
        apply (alike_fn (set_serial n)); [apply untouched_serial|intros; apply id_serial]. }
      by destruct (decide _).
Qed.

(** A step's effects on what is known of the key, and what it may send. *)
Definition key_step (y : system) (ev : event) (c' : config) : Prop :=
  let c := cf (sh y) in
  get_key_confirmed c' = match confirms y ev with
                         | Some _ => true
                         | None => if renumbers y ev || rekeys y ev then false else get_key_confirmed c
                         end
  /\ (forall q, get_host_key_confirmed c' q = true ->
       confirms y ev = Some q \/ (reopens y ev <> Some q /\ get_host_key_confirmed c q = true))
  /\ (get_id c' = get_id c \/ renumbers y ev = true).
Definition names_rightly (y : system) (s' : shared) (x : effect) : Prop :=
  match x with
  | Sent h (RegisterPeer id _) =>
      id = get_id (cf (sh y)) /\ get_key_confirmed (cf (sh y)) = true
      /\ get_host_key_confirmed (cf (sh y)) (get_host_prefix h) = true
      /\ (SOLVING_PK_MISMATCH (sh y) = EmptyString \/ SOLVING_PK_MISMATCH (sh y) = h)
  | _ => no_names s' x
  end.
Lemma no_names_right y s x : no_names s x -> names_rightly y s x.
Proof. by destruct x as [h []| | | | | | | | | | | | | | | | | | | |]. Qed.
Lemma sends_right y s s' : sends no_names s s' -> sends (names_rightly y) s s'.
Proof. intros (k & Hk & F). exists k. split; [done|]. eapply Forall_impl; [exact F|]. apply no_names_right. Qed.
Lemma alike_key y ev c' : confirms y ev = None -> renumbers y ev = false -> rekeys y ev = false -> reopens y ev = None ->
  alike (cf (sh y)) c' -> key_step y ev c'.
Proof.
  intros H1 H2 H3 H4 [A1 A2 A3]. unfold key_step. rewrite H1, H2, H3, H4. cbn. split; [done|]. split; [|by left].
  intros q. rewrite A3. by right.
Qed.
Lemma finish_sh i r y : out (sh (finish i r y)) = out (sh y) /\ cf (sh (finish i r y)) = cf (sh y).
Proof. unfold finish. cbv zeta. destruct r; [done|]. by destruct (_ || _). Qed.

Lemma update_latency_quiet n h (u : udp) s : exists k, out (update_latency n h u s).2 = out s ++ k /\ Forall no_keys k
  /\ cf (update_latency n h u s).2 = cf s /\ SOLVING_PK_MISMATCH (update_latency n h u s).2 = SOLVING_PK_MISMATCH s.
Proof.
  unfold update_latency. cbv zeta. destruct (_ || _); [exists []; by rewrite app_nil_r|].
  destruct (smoothed _ _) as [x u']. destruct (_ || _); [|exists []; by rewrite app_nil_r].
  eexists [_]. split; [done|]. by repeat constructor.
Qed.
Lemma note_failure_quiet a rz u s : exists k, out (note_failure a rz u s).2 = out s ++ k /\ Forall no_keys k
  /\ cf (note_failure a rz u s).2 = cf s /\ SOLVING_PK_MISMATCH (note_failure a rz u s).2 = SOLVING_PK_MISMATCH s.
Proof.
  unfold note_failure. cbv zeta. destruct (_ <=? _).
  - destruct (_ <? _); [destruct (rebind a) as [[x|]|err]|]; try (eexists [_]; split; [done|]; by repeat constructor).
    eexists [_; _]. cbn. rewrite <- app_assoc. split; [done|]. by repeat constructor.
  - destruct (_ <=? _); [eexists [_]; split; [done|]; by repeat constructor|exists []; by rewrite app_nil_r].
Qed.

(** A tick over UDP, the only place where a register names itself. *)
Lemma udp_tick_right y a rz u : named rz ->
  sends (names_rightly y) (sh y) (udp_tick a rz u (sh y)).2 /\ alike (cf (sh y)) (cf (udp_tick a rz u (sh y)).2).
Proof.
  intros Hn. unfold udp_tick. destruct (SHOULD_EXIT (sh y)); [split; [by apply sends_nothing|done]|]. cbv zeta.
  set (u0 := if _ && (_ && _) then _ else u). destruct (_ || _); [|split; [by apply sends_nothing|done]].
  set (r := if is_timeout _ _ then _ else _).
  assert (H : exists k, out r.2 = out (sh y) ++ k /\ Forall no_keys k /\ cf r.2 = cf (sh y)
    /\ SOLVING_PK_MISMATCH r.2 = SOLVING_PK_MISMATCH (sh y)
    /\ forall rz' u', r.1 = Ok (rz', u') -> host rz' = host rz /\ host_prefix rz' = host_prefix rz).
  { subst r. destruct (is_timeout _ _).
    - destruct (note_failure_quiet a rz u0 (sh y)) as (k & H1 & H2 & H3 & H4). exists k.
      repeat (split; [done|]). intros rz' u' E. by eapply note_failure_named.
    - exists []. rewrite app_nil_r. repeat (split; [done|]). by intros ?? [= <- _]. }
  destruct r as [[[rz' u']|err] s1]; destruct H as (k & Hk & F & Hc & Hs & Hm); cbn in Hk, Hc, Hs, Hm.
  - destruct (Hm _ _ eq_refl) as [Eh Ep]. destruct (register_peer_sends a rz' s1) as (k' & Hk' & A & F').
    rewrite Hc in A. assert (S : sends (names_rightly y) (sh y) (register_peer a rz' s1).2).
    { exists (k ++ k'). split; [by rewrite Hk', Hk, app_assoc|]. apply Forall_app. split.
      - eapply Forall_impl; [exact F|]. by intros [h []| | | | | | | | | | | | | | | | | | | |].
      - eapply Forall_impl; [exact F'|]. intros x Hx. destruct x as [h []| | | | | | | | | | | | | | | | | | | |]; try exact Hx.
        destruct Hx as (-> & -> & Hmine & H1 & H2). rewrite Hc in *. cbn. rewrite Eh, Ep, Hn in *. repeat (split; [done|]).
        unfold mine in Hmine. rewrite Hs, Eh in Hmine. apply orb_true_iff in Hmine as [Hm'|Hm'];
          [left; by destruct (SOLVING_PK_MISMATCH (sh y))|right; by apply String.eqb_eq]. }
    by destruct (register_peer a rz' s1) as [[[]|err] s2].
  - cbn [snd]. split; [|by rewrite Hc]. apply sends_right. by eapply sends_plain.
Qed.

(** A message of a server. *)
Lemma message_key y ev {L} (upd : L -> shared -> L * shared) a m rz l :
  (forall l s, exists k, out (upd l s).2 = out s ++ k /\ Forall no_keys k /\ cf (upd l s).2 = cf s /\ SOLVING_PK_MISMATCH (upd l s).2 = SOLVING_PK_MISMATCH s) ->
  taken_in y ev = Some (rz, m) -> rekeys y ev = false -> reopens y ev = None ->
  let s' := (handle_resp upd a m rz l (sh y)).1.2.2 in
  sends (names_rightly y) (sh y) s' /\ key_step y ev (cf s').
Proof.
  intros Hu Ht Hk Hr. cbv zeta. destruct (handle_resp_key upd a m rz l (sh y) Hu) as [S H]. split; [by apply sends_right|].
  set (s' := (handle_resp upd a m rz l (sh y)).1.2.2) in *. clearbody s'.
  assert (Alike : confirms y ev = None -> renumbers y ev = false -> alike (cf (sh y)) (cf s') -> key_step y ev (cf s'))
    by (intros; by apply alike_key).
  unfold key_step. rewrite Hk, Hr, orb_false_r. revert Alike. unfold confirms, renumbers. rewrite Ht. intros Alike.
  destruct m as [pk|[] ka|ph|rr|fla|servers n|]; try (specialize (Alike eq_refl eq_refl H);
    unfold key_step, confirms, renumbers in Alike; rewrite Ht, Hk, Hr in Alike; exact Alike).
  - rewrite H. rewrite key_confirmed_host, key_confirmed_set, id_host, id_key. split; [done|]. split; [|by left].
    intros q. rewrite host_confirmed_set. destruct (String.eqb_spec (host_prefix rz) q) as [->|]; [by left|].
    intros Hq%host_confirmed_key. by right.
  - destruct (mine rz (sh y)).
    + destruct H as [H1 H2]. split; [done|]. split; [|by right]. intros q Hq. right. by auto.
    + rewrite H. split; [done|]. split; [|by left]. intros q Hq. by right.
Qed.

Lemma step_key y ev : sys_named y ->
  sends (names_rightly y) (sh y) (sh (step y ev)) /\ key_step y ev (cf (sh (step y ev))).
Proof.
  intros Hy.
  assert (Calm : forall s', sends no_names (sh y) s' -> alike (cf (sh y)) (cf s') ->
    confirms y ev = None -> renumbers y ev = false -> rekeys y ev = false -> reopens y ev = None ->
    sends (names_rightly y) (sh y) s' /\ key_step y ev (cf s')) by (intros; split; [by apply sends_right|by apply alike_key]).
  destruct ev as [n installing|i b n r|i a t|i a k|j e n|k v| | |pk].
  - apply Calm; try done; cbn [step]; unfold round_step.
    + destruct (stage y); cbv zeta; [|by apply sends_nothing..| |].
      * destruct (_ && _); [by apply (sends_one NewRound)|by apply (sends_two NewRound CloseConnections)].
      * destruct (all_finished y); by apply sends_nothing.
      * destruct (negb _); [destruct (_ <? _)|]; first [by apply (sends_one ResetOnline)|eapply (sends_two ResetOnline); [done| |reflexivity]; done].
    + destruct (stage y); cbv zeta; try done; [by destruct (_ && _)|by destruct (all_finished y)|].
      destruct (negb _); [by destruct (_ <? _)|done].
  - cbn [step]. destruct (meds y !! i) as [m|] eqn:E; [|apply Calm; try done; [by apply sends_nothing|cbn; rewrite E; by destruct b, r]].
    destruct m as [h0| | |]; try (apply Calm; try done; [by apply sends_nothing|cbn; rewrite E; by destruct b, r]).
    destruct b, r as [a|err]; cbn [start_tcp start_udp]; try (destruct (finish_sh i (Err err) y) as [F1 F2];
      apply Calm; try done; [by apply sends_nothing|by rewrite F2]).
    + split; [apply sends_right; eapply sends_one; [|reflexivity]; done|].
      unfold key_step, confirms, renumbers, rekeys, reopens. cbn. rewrite E, key_confirmed_host, id_host. split; [done|]. split; [|by left].
      intros q. rewrite host_confirmed_set. destruct (String.eqb_spec (get_host_prefix (check_port h0 RENDEZVOUS_PORT)) q) as [->|Hn]; [done|].
      intros Hq. right. split; [congruence|done].
    + apply Calm; try done. by apply sends_nothing.
  - cbn [step]. destruct (meds y !! i) as [m|] eqn:E; [|apply Calm; try done; [by apply sends_nothing|..];
      unfold confirms, renumbers; cbn; rewrite E; by destruct t as [[[]|?|]|]].
    destruct m as [|rz u| |]; try (apply Calm; try done; [by apply sends_nothing|..];
      unfold confirms, renumbers; cbn; rewrite E; by destruct t as [[[]|?|]|]).
    assert (H : sends (names_rightly y) (sh y) (udp_turn a t rz u (sh y)).1.2
      /\ key_step y (EUdp i a t) (cf (udp_turn a t rz u (sh y)).1.2)).
    { destruct t as [[[m|]|err|]|]; cbn [udp_turn]; try (apply Calm; try done; by apply sends_nothing).
      - assert (Ht : taken_in y (EUdp i a (Received (Packet (Some m)))) = Some (rz, m)) by (cbn; by rewrite E).
        pose proof (message_key y _ (update_latency (now a) (host rz)) a m rz u (update_latency_quiet _ _) Ht eq_refl eq_refl) as H.
        by destruct (handle_resp _ a m rz u (sh y)) as [[[[]|err] [[rz' u'] s']] l].
      - pose proof (lookup_named i _ y Hy E) as Hn. destruct (udp_tick_right y a rz u Hn) as [S A].
        destruct (udp_tick a rz u (sh y)). cbn in S, A |- *. split; [done|by apply alike_key]. }
    destruct (udp_turn a t rz u (sh y)) as [[[[rz' u']|r] s'] l]; [exact H|].
    destruct (finish_sh i r (spawn l (set_sh s' y))) as [F1 F2]. rewrite F2. destruct H as [(k & Hk & F) H]. split; [|exact H].
    exists k. rewrite F1. split; [exact Hk|]. eapply Forall_impl; [exact F|]. intros x Hx.
    destruct x as [h []| | | | | | | | | | | | | | | | | | | |]; try exact Hx. unfold names_rightly, no_names in *. rewrite F2. exact Hx.
  - cbn [step]. destruct (meds y !! i) as [m|] eqn:E; [|apply Calm; try done; [by apply sends_nothing|..];
      unfold confirms, renumbers; cbn; rewrite E; by destruct k as [[]|]].
    destruct m as [| |rz t|]; try (apply Calm; try done; [by apply sends_nothing|..];
      unfold confirms, renumbers; cbn; rewrite E; by destruct k as [[]|]).
    assert (H : sends (names_rightly y) (sh y) (tcp_turn a k rz t (sh y)).1.2
      /\ key_step y (ETcp i a k) (cf (tcp_turn a k rz t (sh y)).1.2)).
    { destruct k as [[|err| |err|m]|]; cbn [tcp_turn]; cbv zeta; try (apply Calm; try done; by apply sends_nothing).
      - unfold send. destruct (send_err a); apply Calm; try done; [by apply sends_nothing|].
        eapply sends_one; [|reflexivity]; done.
      - assert (Ht : taken_in y (ETcp i a (TReceived (TMsg m))) = Some (rz, m)) by (cbn; by rewrite E).
        pose proof (message_key y _ (tcp_latency (now a) (host rz)) a m rz (mkTcp (t_last_register_sent t) (now a))
          ltac:(intros l s; eexists [_]; split; [done|]; by repeat constructor) Ht eq_refl eq_refl) as H.
        by destruct (handle_resp _ a m rz _ (sh y)) as [[[[]|err] [[rz' u'] s']] l].
      - unfold tcp_tick. destruct (SHOULD_EXIT (sh y)); [apply Calm; try done; by apply sends_nothing|].
        destruct (_ <? _); [apply Calm; try done; by apply sends_nothing|].
        destruct (_ && _); [|apply Calm; try done; by apply sends_nothing].
        destruct (register_pk_sends a rz (sh y)) as [S A]. destruct (register_pk a rz (sh y)) as [[[]|err] s']; by apply Calm. }
    destruct (tcp_turn a k rz t (sh y)) as [[[[rz' u']|r] s'] l]; [exact H|].
    destruct (finish_sh i r (spawn l (set_sh s' y))) as [F1 F2]. rewrite F2. destruct H as [(ks & Hk & F) H]. split; [|exact H].
    exists ks. rewrite F1. split; [exact Hk|]. eapply Forall_impl; [exact F|]. intros x Hx.
    destruct x as [h []| | | | | | | | | | | | | | | | | | | |]; try exact Hx. unfold names_rightly, no_names in *. rewrite F2. exact Hx.
  - cbn [step]. destruct (tasks y !! j) as [[t p]|]; [|apply Calm; try done; by apply sends_nothing].
    assert (H : sends no_names (sh y) (task_step e n t p (sh y)).2 /\ cf (task_step e n t p (sh y)).2 = cf (sh y)).
    { assert (R : forall s, sends no_names s (run_answer e t s).1 /\ cf (run_answer e t s).1 = cf s).
      { intros s. split; [|done]. unfold run_answer. cbv zeta. destruct (adds_answer e (cf s) t (out s)) as (k & Hk & F).
        apply (sends_plain _ _ k); [by cbn; rewrite Hk|]. eapply Forall_impl; [exact F|]. intros x [Hx _]. by apply plain_no_keys. }
      unfold task_step. destruct (asker t) as [w|]; [|apply R]. destruct p as [|last]; [split; [by apply sends_nothing|done]|].
      cbv zeta. assert (Hs : out (set_last_of t (w, n) (sh y)) = out (sh y) /\ cf (set_last_of t (w, n) (sh y)) = cf (sh y)) by by destruct t.
      destruct Hs as [H1 H2]. destruct (is_duplicate last w n); [split; [by apply sends_nothing|done]|].
      destruct (R (set_last_of t (w, n) (sh y))) as [(k & Hk & F) Hc]. destruct (run_answer e t _). cbn in *.
      split; [exists k; by rewrite <- H1|congruence]. }
    destruct H as [S Hc]. destruct (task_step e n t p (sh y)) as [l s]. cbn in S, Hc. apply Calm; try done. cbn. by rewrite Hc.
  - apply Calm; try done; [by apply sends_nothing|]. apply (alike_fn (set_option k v)); [apply untouched_option|intros; apply id_option].
  - apply Calm; try done. by apply sends_nothing.
  - apply Calm; try done. by apply sends_nothing.
  - cbn [step]. unfold check_if_resend_pk, key_step, confirms, renumbers, rekeys, reopens. cbn [taken_in].
    destruct (_ && _); cbn; [|split; [by apply sends_nothing|]; split; [done|]; split; [by right|by left]].
    split; [apply sends_right; eapply sends_one; [|reflexivity]; done|].
    rewrite key_confirmed_set, id_key. split; [done|]. split; [|by left]. intros q Hq%host_confirmed_key. by right.
Qed.

Lemma run_app a b y : run (a ++ b) y = run b (run a y).
Proof. unfold run. by rewrite foldl_app. Qed.
Lemma key_stands_app b y l ev : key_stands b y (l ++ [ev]) =
  match confirms (run l y) ev with
  | Some _ => true
  | None => if renumbers (run l y) ev || rekeys (run l y) ev then false else key_stands b y l
  end.
Proof. revert b y. induction l as [|e l IH]; intros b y; cbn; [done|]. by rewrite IH. Qed.
Lemma host_stands_app q b y l ev : host_stands q b y (l ++ [ev]) =
  if bool_decide (confirms (run l y) ev = Some q) then true
  else if bool_decide (reopens (run l y) ev = Some q) then false else host_stands q b y l.
Proof. revert b y. induction l as [|e l IH]; intros b y; cbn; [done|]. by rewrite IH. Qed.

Lemma stands y l : sys_named y ->
  get_key_confirmed (cf (sh (run l y))) = key_stands (get_key_confirmed (cf (sh y))) y l
  /\ forall q, get_host_key_confirmed (cf (sh (run l y))) q = true ->
       host_stands q (get_host_key_confirmed (cf (sh y)) q) y l = true.
Proof.
  intros Hy. induction l as [|ev l [IH1 IH2]] using rev_ind; [done|]. rewrite run_app. cbn [run foldl].
  change (foldl step (run l y) [ev]) with (step (run l y) ev).
  destruct (step_key (run l y) ev) as [_ (K1 & K2 & _)]; [by apply run_goes|]. rewrite key_stands_app, K1, IH1. split; [done|].
  intros q Hq. rewrite host_stands_app. destruct (K2 q Hq) as [->|[Hr Ho]]; [by rewrite bool_decide_eq_true_2|].
  case_bool_decide; [done|]. rewrite bool_decide_eq_false_2 by done. by apply IH2.
Qed.


(** ** Who is let in *)

(** What a message of the server asks for: the permissions of the connection, and
    whether it must be secured. *)
Definition grants (m : message) : option (option Z * bool) :=
  match m with
  | MPunchHole ph => Some (ph_permissions ph, true)
  | MFetchLocalAddr fla => Some (fla_permissions fla, true)
  | MRequestRelay rr => Some (rr_permissions rr, rr_secure rr)
  | _ => None
  end.
(** The task that answers it. *)
Definition calls (rz : mediator) (m : message) : list task :=
  match m with
  | MPunchHole ph => [TPunch rz ph] | MFetchLocalAddr fla => [TIntranet rz fla] | MRequestRelay rr => [TRelay rz rr]
  | _ => []
  end.
Definition called (y : system) (ev : event) : list task :=
  match taken_in y ev with Some (rz, m) => calls rz m | None => [] end.
(** A message that a task took in during [l] asked for a connection with these
    permissions, secured or not. *)
Definition was_asked (y : system) (l : list event) (p : option Z) (sec : bool) : Prop :=
  exists l1 ev l2 rz m sec', l = l1 ++ ev :: l2 /\ taken_in (run l1 y) ev = Some (rz, m)
    /\ grants m = Some (p, sec') /\ (sec' = true -> sec = true).

Lemma was_asked_more y l ev p sec : was_asked y l p sec -> was_asked y (l ++ [ev]) p sec.
Proof. intros (l1 & e & l2 & rz & m & s & -> & H). exists l1, e, (l2 ++ [ev]), rz, m, s. by rewrite <- app_assoc. Qed.
Lemma was_asked_secured y l p sec : was_asked y l p sec -> was_asked y l p true.
Proof. intros (l1 & e & l2 & rz & m & s & H1 & H2 & H3 & _). by exists l1, e, l2, rz, m, s. Qed.

(** A task's own step. *)
Lemma task_guests y j e n t p : tasks y !! j = Some (t, p) ->
  exists k, out (sh (step y (ETask j e n))) = out (sh y) ++ k /\ Forall (as_asked (secured t) (permissions_of t)) k /\
    exists l, tasks (step y (ETask j e n)) = delete j (tasks y) ++ l /\
      forall t' p', In (t', p') l -> permissions_of t' = permissions_of t /\ (t' = t \/ secured t' = true).
Proof.
  intros E. cbn [step]. rewrite E. unfold task_step. destruct (asker t) as [a|] eqn:Ea.
  - destruct p as [|last].
    + exists []. rewrite app_nil_r. split; [done|]. split; [done|]. exists [(t, Looked (last_of t (sh y)))]. split; [done|].
      intros t' p' [[= <- <-]|[]]. auto.
    + cbv zeta. destruct (is_duplicate last a n).
      * exists []. split; [cbn; rewrite app_nil_r; by destruct t|]. split; [constructor|]. exists []. split; [done|]. intros ?? [].
      * unfold run_answer. cbn. destruct (adds_answer e (cf (set_last_of t (a, n) (sh y))) t (out (set_last_of t (a, n) (sh y)))) as (k & Hk & F).
        rewrite Hk. exists k. split; [by destruct t|]. split; [done|]. eexists. split; [done|].
        rewrite drop_app_length. intros t' p' Hin. apply in_map_iff in Hin as (x & [= <- <-] & Hx).
        apply list_elem_of_In, list_elem_of_omap in Hx as (ef & Hef & Hx).
        pose proof (proj1 (Forall_forall _ _) F ef Hef) as [_ Hq].
        destruct ef; try discriminate. injection Hx as <-. cbn. auto.
  - unfold run_answer. cbn. destruct (adds_answer e (cf (sh y)) t (out (sh y))) as (k & Hk & F). rewrite Hk.
    exists k. split; [done|]. split; [done|]. exists []. split; [by rewrite app_nil_r|done].
Qed.

(** Any other step starts what its message calls for. *)
Lemma handle_resp_calls {L} (upd : L -> shared -> L * shared) a m rz l s :
  (handle_resp upd a m rz l s).2 = calls rz m.
Proof.
  destruct m as [pk|r ka|ph|rr|fla|servers n|]; cbn [handle_resp calls]; try done.
  - destruct (upd l s) as [l' s1]. destruct pk; [|done]. by destruct (register_pk a rz s1).
  - destruct (upd l s) as [l' s1]. destruct r; cbv zeta; try by destruct (0 <? ka).
    destruct (handle_uuid_mismatch a rz s1) as [[[]|err] s2]; [|done]. by destruct (0 <? ka).
Qed.
Lemma finish_tasks i r y : tasks (finish i r y) = tasks y.
Proof. unfold finish. cbv zeta. destruct r; [done|]. by destruct (_ || _). Qed.
Lemma other_steps y ev : match ev with ETask _ _ _ => False | _ => True end ->
  tasks (step y ev) = tasks y ++ map (λ t, (t, Fresh)) (called y ev).
Proof.
  assert (Z : forall y', tasks y' = tasks y -> called y ev = [] -> tasks y' = tasks y ++ map (λ t, (t, Fresh)) (called y ev))
    by (intros y' E E2; by rewrite E2, app_nil_r).
  destruct ev as [n installing|i b n r|i a t|i a k|j e n|k v| | |pk]; intros He; try done; cbn [step]; try by apply Z.
  - apply Z; [|done]. unfold round_step. destruct (stage y); cbv zeta; try done; [by destruct (_ && _)|by destruct (all_finished y)].
  - apply Z; [|done]. destruct (meds y !! i) as [[h0| | |]|]; try done.
    destruct b, r; try done; apply finish_tasks.
  - unfold called in *. cbn [taken_in] in *. destruct (meds y !! i) as [[|rz u| |]|]; try (apply Z; [done|]; by destruct t as [[[]|?|]|]).
    destruct t as [[[m|]|err|]|]; cbn [udp_turn]; try (apply Z; [rewrite ?finish_tasks; cbn; by rewrite ?app_nil_r|done]).
    + pose proof (handle_resp_calls (update_latency (now a) (host rz)) a m rz u (sh y)) as Hl.
      destruct (handle_resp _ a m rz u (sh y)) as [[[[]|err] [[rz' u'] s']] l]; cbn [snd] in Hl; cbv beta iota; rewrite ?finish_tasks, <- Hl; done.
    + destruct (udp_tick a rz u (sh y)) as [[[rz' u']|r] s']; apply Z; rewrite ?finish_tasks; cbn; by rewrite ?app_nil_r.
  - unfold called in *. cbn [taken_in] in *. destruct (meds y !! i) as [[| |rz t|]|]; try (apply Z; [done|]; by destruct k as [[]|]).
    destruct k as [[|err| |err|m]|]; cbn [tcp_turn]; cbv zeta; try (apply Z; [rewrite ?finish_tasks; cbn; by rewrite ?app_nil_r|done]).
    + unfold send. destruct (send_err a); apply Z; rewrite ?finish_tasks; cbn; by rewrite ?app_nil_r.
    + pose proof (handle_resp_calls (tcp_latency (now a) (host rz)) a m rz (mkTcp (t_last_register_sent t) (now a)) (sh y)) as Hl.
      destruct (handle_resp _ a m rz _ (sh y)) as [[[[]|err] [[rz' u'] s']] l]; cbn [snd] in Hl; cbv beta iota; rewrite ?finish_tasks, <- Hl; done.
    + destruct (tcp_tick a rz t (sh y)) as [[[rz' u']|r] s']; apply Z; rewrite ?finish_tasks; cbn; by rewrite ?app_nil_r.
Qed.
Lemma called_asked y l ev t : In t (called (run l y) ev) -> was_asked y (l ++ [ev]) (permissions_of t) (secured t).
Proof.
  unfold called. destruct (taken_in (run l y) ev) as [[rz m]|] eqn:E; [|done]. intros H.
  exists l, ev, [], rz, m. destruct m; try done; destruct H as [<-|[]]; by eexists.
Qed.

Lemma guests_inv y l : sys_named y -> tasks y = [] ->
  (forall t p, In (t, p) (tasks (run l y)) -> was_asked y l (permissions_of t) (secured t))
  /\ exists k, out (sh (run l y)) = out (sh y) ++ k /\ forall x, In x k ->
     match x with Serve _ sec p => was_asked y l p sec | Listen _ _ p => was_asked y l p true | _ => True end.
Proof.
  intros Hy H0. induction l as [|ev l [IH1 (k & IH2 & IH3)]] using rev_ind.
  { split; [cbn; rewrite H0; by intros ?? []|]. exists []. split; [by rewrite app_nil_r|by intros ? []]. }
  rewrite run_app. change (run [ev] (run l y)) with (step (run l y) ev).
  assert (Old : forall x, In x k -> match x with Serve _ sec p => was_asked y (l ++ [ev]) p sec | Listen _ _ p => was_asked y (l ++ [ev]) p true | _ => True end).
  { intros x Hx. specialize (IH3 x Hx). destruct x; try done; by apply was_asked_more. }
  assert (Add : forall k', out (sh (step (run l y) ev)) = out (sh (run l y)) ++ k' ->
    (forall x, In x k' -> match x with Serve _ sec p => was_asked y (l ++ [ev]) p sec | Listen _ _ p => was_asked y (l ++ [ev]) p true | _ => True end) ->
    exists k, out (sh (step (run l y) ev)) = out (sh y) ++ k /\ forall x, In x k ->
     match x with Serve _ sec p => was_asked y (l ++ [ev]) p sec | Listen _ _ p => was_asked y (l ++ [ev]) p true | _ => True end).
  { intros k' Hk Hx. exists (k ++ k'). split; [by rewrite Hk, IH2, app_assoc|]. intros x [?|?]%in_app_iff; [by apply Old|by apply Hx]. }
  destruct (step_spec (run l y) ev) as [(k' & Hk' & F & _ & _) _]; [by apply run_goes|].
  destruct (match ev with ETask _ _ _ => false | _ => true end) eqn:He.
  - assert (Hne : match ev with ETask _ _ _ => False | _ => True end) by by destruct ev. split.
    + rewrite (other_steps _ _ Hne). intros t p [H|H]%in_app_iff; [by eapply was_asked_more, IH1|].
      apply in_map_iff in H as (t' & [= <- <-] & H). by apply called_asked.
    + apply (Add k' Hk'). intros x Hx. pose proof (proj1 (List.Forall_forall _ _) F _ Hx) as Hq. destruct ev, x; try done; discriminate.
  - destruct ev as [| | | |j e n| | | |]; try done. destruct (tasks (run l y) !! j) as [[t p]|] eqn:E.
    2:{ cbn [step] in *. rewrite E in *. split; [intros t p H; by eapply was_asked_more, IH1|]. apply (Add []); [by rewrite app_nil_r|by intros ? []]. }
    destruct (task_guests (run l y) j e n t p E) as (k2 & Hk2 & F2 & l2 & Hl2 & Hsp).
    assert (Ht : was_asked y (l ++ [ETask j e n]) (permissions_of t) (secured t)).
    { apply was_asked_more. eapply IH1, list_elem_of_In, list_elem_of_lookup_2. exact E. }
    split.
    + rewrite Hl2. intros t' p' [H|H]%in_app_iff.
      * apply was_asked_more, (IH1 t' p'). rewrite delete_take_drop in H. apply in_app_iff in H as [H|H].
        -- rewrite <- (take_drop j (tasks (run l y))). apply in_app_iff. by left.
        -- rewrite <- (take_drop (S j) (tasks (run l y))). apply in_app_iff. by right.
      * destruct (Hsp _ _ H) as [-> [->| ->]]; [done|by eapply was_asked_secured].
    + apply (Add k2 Hk2). intros x Hx. pose proof (proj1 (List.Forall_forall _ _) F2 _ Hx) as [_ Hq].
      destruct x; try done; [destruct Hq as [-> ->]; done|subst; by eapply was_asked_secured].
Qed.

(** C15: the tasks of the servers let nobody in unasked.  From a start with no
    answer running, in any run: whoever is let in, or listened for, has exactly
    the permissions that some message taken in from a server before asked for,
    and the connection is to be secured unless that message asked for a relay
    without; and every message starts just the one answer it calls for.  (The
    listener for direct access runs beside these tasks.) *)
Theorem guests_as_asked y l : sys_named y -> tasks y = [] ->
  (exists k, out (sh (run l y)) = out (sh y) ++ k /\ forall x, In x k ->
     match x with
     | Serve _ sec p => was_asked y l p sec
     | Listen _ _ p => was_asked y l p true
     | _ => True
     end)
  /\ forall ev, match ev with ETask _ _ _ => False | _ => True end ->
      tasks (step (run l y) ev) = tasks (run l y) ++ map (λ t, (t, Fresh)) (called (run l y) ev).
Proof. intros Hy H0. split; [by apply guests_inv|]. intros ev. apply other_steps. Qed.

(** ** Starting over *)
Definition kind (m : task_of_server) : Z := match m with Starting _ => 0 | Udp _ _ => 1 | Tcp _ _ => 2 | Finished => 3 end.
Definition onward (k k' : Z) : Prop := k' = k \/ k' = 3 \/ k = 0.
Definition is_round (ev : event) : bool := match ev with ERound _ _ => true | _ => false end.
(** Among [l], server [i] is connected to (or not) and its timer ticks after that. *)
Definition wakes (i : nat) (l : list event) : Prop := exists l1 b n r l2 a a',
  l = l1 ++ EStart i b n r :: l2 /\ In (EUdp i a Tick) l2 /\ In (ETcp i a' TTick) l2.

Lemma onward_refl k : onward k k.
Proof. by left. Qed.
Lemma onward_trans k1 k2 k3 : onward k1 k2 -> onward k2 k3 -> onward k1 k3.
Proof. unfold onward. lia. Qed.
Lemma insert_onward (l : list task_of_server) i x j m : l !! j = Some m -> (i = j -> onward (kind m) (kind x)) ->
  exists m', <[i := x]> l !! j = Some m' /\ onward (kind m) (kind m').
Proof.
  intros Hj Hx. destruct (decide (i = j)) as [->|Hn].
  - exists x. split; [|auto]. apply list_lookup_insert_eq. by eapply lookup_lt_Some.
  - exists m. rewrite list_lookup_insert_ne by done. split; [done|apply onward_refl].
Qed.
Lemma finish_meds i r y : meds (finish i r y) = <[i := Finished]> (meds y).
Proof. unfold finish. cbv zeta. destruct r; [done|]. cbn. by destruct (_ || _). Qed.
Lemma step_onward y ev : is_round ev = false ->
  stage (step y ev) = stage y /\
  forall j m, meds y !! j = Some m -> exists m', meds (step y ev) !! j = Some m' /\ onward (kind m) (kind m').
Proof.
  assert (Hstay : forall y' : system, meds y' = meds y -> forall j m, meds y !! j = Some m ->
            exists m', meds y' !! j = Some m' /\ onward (kind m) (kind m')).
  { intros y' E j m Hj. rewrite E. exists m. split; [done|apply onward_refl]. }
  assert (Hfin : forall i r y', meds y' = meds y -> stage y' = stage y -> stage (finish i r y') = stage y /\ forall j m, meds y !! j = Some m ->
            exists m', meds (finish i r y') !! j = Some m' /\ onward (kind m) (kind m')).
  { intros i r y' E Es. split; [rewrite <- Es; unfold finish; cbv zeta; destruct r; [done|]; cbn; by destruct (_ || _)|].
    intros j m Hj. rewrite finish_meds, E. apply insert_onward; [done|]. intros _. right. by left. }
  intros He. destruct ev as [n installing|i b n r|i a t|i a k|j e n|k v| | |pk]; try discriminate; cbn [step].
  - destruct (meds y !! i) as [m0|] eqn:E; [|split; [done|by apply Hstay]].
    destruct m0 as [h0| | |]; try (split; [done|by apply Hstay]).
    assert (Hs : forall x j m, meds y !! j = Some m -> exists m', <[i := x]> (meds y) !! j = Some m' /\ onward (kind m) (kind m')).
    { intros x j m Hj. apply insert_onward; [done|]. intros ->. rewrite E in Hj. injection Hj as <-. right. by right. }
    destruct b; [unfold start_tcp|unfold start_udp]; (destruct r as [a|err]; [split; [done|apply Hs]|by apply Hfin]).
  - destruct (meds y !! i) as [[| rz u| |]|] eqn:E; try (split; [done|by apply Hstay]).
    destruct (udp_turn a t rz u (sh y)) as [[[[rz' u']|r] s] l]; [|by apply Hfin].
    split; [done|]. intros j m Hj. apply insert_onward; [done|]. intros ->. rewrite E in Hj. injection Hj as <-. apply onward_refl.
  - destruct (meds y !! i) as [[| |rz t|]|] eqn:E; try (split; [done|by apply Hstay]).
    destruct (tcp_turn a k rz t (sh y)) as [[[[rz' u']|r] s] l]; [|by apply Hfin].
    split; [done|]. intros j m Hj. apply insert_onward; [done|]. intros ->. rewrite E in Hj. injection Hj as <-. apply onward_refl.
  - destruct (tasks y !! j) as [[t p]|]; [|split; [done|by apply Hstay]].
    destruct (task_step e n t p (sh y)) as [l s]. split; [done|by apply Hstay].
  - split; [done|by apply Hstay].
  - split; [done|by apply Hstay].
  - split; [done|by apply Hstay].
  - split; [done|by apply Hstay].
Qed.

Definition leaving (y : system) : Prop := sys_named y /\ stage y = Running /\ SHOULD_EXIT (sh y) = true.
Lemma step_leaving y ev : leaving y -> is_round ev = false -> leaving (step y ev).
Proof.
  intros (Hn & Hr & Hs) He. destruct (step_spec y ev Hn) as [(k & _ & _ & S & _) Hn'].
  destruct (step_onward y ev He) as [Es _]. split; [done|]. split; [by rewrite Es|].
  apply S; [|done]. by destruct ev.
Qed.
Lemma run_leaving l y : leaving y -> Forall (λ ev, is_round ev = false) l -> leaving (run l y) /\
  forall j m, meds y !! j = Some m -> exists m', meds (run l y) !! j = Some m' /\ onward (kind m) (kind m').
Proof.
  intros Hy F. revert y Hy. induction F as [|ev l He F IH]; intros y Hy.
  - split; [done|]. intros j m Hj. exists m. split; [done|apply onward_refl].
  - destruct (IH _ (step_leaving y ev Hy He)) as [Hl Ho]. split; [done|]. intros j m Hj.
    destruct (step_onward y ev He) as [_ Hst]. destruct (Hst j m Hj) as (m1 & Hm1 & O1).
    destruct (Ho j m1 Hm1) as (m2 & Hm2 & O2). exists m2. split; [done|]. by eapply onward_trans.
Qed.

(** What an event does to the kind of its own task, once the tasks are to end. *)
Definition shuns (ev : event) (i : nat) (k : Z) : Prop :=
  match ev with
  | EStart j _ _ _ => j = i /\ k = 0
  | EUdp j _ Tick => j = i /\ k = 1
  | ETcp j _ TTick => j = i /\ k = 2
  | _ => False
  end.
Lemma step_shuns y ev i k m : leaving y -> shuns ev i k -> meds y !! i = Some m ->
  exists m', meds (step y ev) !! i = Some m' /\ kind m' <> k.
Proof.
  intros (_ & _ & Hs) Hk Hm. pose proof (lookup_lt_Some _ _ _ Hm) as Hlt.
  assert (Hfin : forall r y', meds y' = meds y -> exists m', meds (finish i r y') !! i = Some m' /\ kind m' = 3).
  { intros r y' E. exists Finished. split; [|done]. rewrite finish_meds, E. by apply list_lookup_insert_eq. }
  destruct ev as [|j b n r|j a [|]|j a [|]| | | | |]; cbn [shuns] in Hk; try done; destruct Hk as [-> ->]; cbn [step]; rewrite Hm.
  - destruct m as [h0| | |]; [|by eexists..].
    destruct b; [unfold start_tcp|unfold start_udp];
      (destruct r as [a|err]; [eexists; split; [by apply list_lookup_insert_eq|done]|destruct (Hfin (Err err) y eq_refl) as (m' & ? & E3); exists m'; by rewrite E3]).
  - destruct m as [| rz u| |]; [by eexists| |by eexists..]. cbn [udp_turn]. unfold udp_tick. rewrite Hs.
    destruct (Hfin (Ok tt) (spawn [] (set_sh (sh y) y)) eq_refl) as (m' & ? & E3). exists m'. by rewrite E3.
  - destruct m as [| |rz t|]; [by eexists|by eexists| |by eexists]. cbn [tcp_turn]. unfold tcp_tick. rewrite Hs.
    destruct (Hfin (Ok tt) (spawn [] (set_sh (sh y) y)) eq_refl) as (m' & ? & E3). exists m'. by rewrite E3.
Qed.
Lemma run_shuns y l ev i k m : leaving y -> Forall (λ ev, is_round ev = false) l -> In ev l -> shuns ev i k -> k <> 3 ->
  meds y !! i = Some m -> kind m <> 0 \/ k = 0 -> exists m', meds (run l y) !! i = Some m' /\ kind m' <> k /\ kind m' <> 0.
Proof.
  intros Hy F Hin Hs H3 Hm H0. apply in_split in Hin as (l1 & l2 & ->).
  apply Forall_app in F as [F1 F2]. inversion F2 as [|? ? He F3]; subst. unfold run. rewrite foldl_app. cbn [foldl].
  destruct (run_leaving l1 y Hy F1) as [Hy1 O1]. destruct (O1 i m Hm) as (m1 & Hm1 & K1).
  destruct (step_shuns _ _ _ _ _ Hy1 Hs Hm1) as (m2 & Hm2 & K2).
  destruct (step_onward (run l1 y) ev He) as [_ O2]. destruct (O2 i m1 Hm1) as (m2' & Hm2' & K2').
  unfold run in *. rewrite Hm2 in Hm2'. injection Hm2' as <-.
  destruct (run_leaving l2 _ (step_leaving _ ev Hy1 He) F3) as [_ O3]. destruct (O3 i m2 Hm2) as (m3 & Hm3 & K3).
  exists m3. split; [exact Hm3|]. unfold onward in *. lia.
Qed.
Lemma kind_range m : 0 <= kind m <= 3.
Proof. destruct m; cbn; lia. Qed.

Lemma finish_length i r y : length (meds (finish i r y)) = length (meds y).
Proof. by rewrite finish_meds, length_insert. Qed.
Lemma step_length y ev : is_round ev = false -> length (meds (step y ev)) = length (meds y).
Proof.
  intros He. destruct ev as [|j b n r|j a t|j a k|j e n|k v| | |pk]; try discriminate; cbn [step]; try done.
  - destruct (meds y !! j) as [[h0| | |]|]; try done.
    destruct b; [unfold start_tcp|unfold start_udp]; (destruct r; [apply length_insert|apply finish_length]).
  - destruct (meds y !! j) as [[h0| rz u| |]|]; try done.
    destruct (udp_turn _ _ _ _ _) as [[[[? ?]|?] ?] ?]; [apply length_insert|etransitivity; [apply finish_length|done]].
  - destruct (meds y !! j) as [[h0| rz u|rz t|]|]; try done.
    destruct (tcp_turn _ _ _ _ _) as [[[[? ?]|?] ?] ?]; [apply length_insert|etransitivity; [apply finish_length|done]].
  - destruct (tasks y !! j) as [[t p]|]; [|done]. by destruct (task_step _ _ _ _ _).
Qed.
Lemma run_length l y : Forall (λ ev, is_round ev = false) l -> length (meds (run l y)) = length (meds y).
Proof.
  intros F. revert y. induction F as [|ev l He F IH]; intros y; [done|]. cbn. etransitivity; [apply IH|by apply step_length].
Qed.
Lemma wakes_ends y l i m : leaving y -> Forall (λ ev, is_round ev = false) l -> wakes i l -> meds y !! i = Some m ->
  meds (run l y) !! i = Some Finished.
Proof.
  intros Hy F (l1 & b & n & r & l2 & a & a' & -> & I1 & I2) Hm.
  apply Forall_app in F as [F1 F2]. inversion F2 as [|? ? He F3]; subst. unfold run. rewrite foldl_app. cbn [foldl].
  destruct (run_leaving l1 y Hy F1) as [Hy1 O1]. destruct (O1 i m Hm) as (m1 & Hm1 & _).
  destruct (step_shuns _ (EStart i b n r) i 0 _ Hy1 (conj eq_refl eq_refl) Hm1) as (m2 & Hm2 & K2).
  pose proof (step_leaving _ (EStart i b n r) Hy1 He) as Hy2. unfold run in *.
  destruct (run_shuns _ l2 (EUdp i a Tick) i 1 m2 Hy2 F3 I1 (conj eq_refl eq_refl) ltac:(lia) Hm2 (or_introl K2)) as (m3 & Hm3 & K3 & K3').
  destruct (run_shuns _ l2 (ETcp i a' TTick) i 2 m2 Hy2 F3 I2 (conj eq_refl eq_refl) ltac:(lia) Hm2 (or_introl K2)) as (m4 & Hm4 & K4 & _).
  unfold run in *. rewrite Hm3 in Hm4 |- *. injection Hm4 as <-. destruct m3; cbn in *; try done; lia.
Qed.
Lemma rounds_after y n1 n2 n3 installing : stage y = Running -> all_finished y = true ->
  let y' := run [ERound n1 installing; ERound n2 installing; ERound n3 installing] y in
  if negb (stop_service (cf (sh y'))) && negb installing
  then stage y' = HaveServers (get_rendezvous_servers (cf (sh y')))
  else stage y' = Joined /\ last (out (sh y')) = Some CloseConnections.
Proof.
  intros Hr A.
  assert (E1 : round_step n1 installing y = set_stage Joined y) by (unfold round_step; by rewrite Hr, A).
  assert (E2 : exists s, round_step n2 installing (set_stage Joined y) = set_stage Top (set_sh s (set_stage Joined y))) by by eexists.
  destruct E2 as [s E2]. cbv zeta. unfold run. cbn [foldl step]. rewrite E1, E2. clear. unfold round_step.
  cbn [stage set_stage set_sh sh]. cbv zeta. cbn [cf emit set_solving sh set_sh set_stage].
  destruct (negb (stop_service (cf s)) && negb installing) eqn:E; cbn [sh set_sh set_stage set_timeout set_start cf emit set_solving stage]; rewrite E; [done|].
  split; [done|]. cbn. by rewrite last_snoc.
Qed.

(** C34: once the tasks are told to end (somebody asked for a restart, the servers
    changed, or one task failed), each of them ends at the next tick of its timer
    after its connection stands; the outer loop then reads the list of servers
    anew, or closes all connections if the service is stopped. *)
Theorem restart_takes_effect y l n1 n2 n3 installing : leaving y -> Forall (λ ev, is_round ev = false) l ->
  (forall i, (i < length (meds y))%nat -> wakes i l) ->
  all_finished (run l y) = true /\
  let y' := run (l ++ [ERound n1 installing; ERound n2 installing; ERound n3 installing]) y in
  if negb (stop_service (cf (sh y'))) && negb installing
  then stage y' = HaveServers (get_rendezvous_servers (cf (sh y')))
  else stage y' = Joined /\ last (out (sh y')) = Some CloseConnections.
Proof.
  intros Hy F W. destruct (run_leaving l y Hy F) as [(_ & Hr & _) _].
  assert (A : all_finished (run l y) = true).
  { apply forallb_forall. intros m' Hin%list_elem_of_In. apply list_elem_of_lookup in Hin as (i & Hi).
    pose proof (lookup_lt_Some _ _ _ Hi) as Hlt. rewrite run_length in Hlt by done.
    destruct (lookup_lt_is_Some_2 _ _ Hlt) as [m Hm]. rewrite (wakes_ends y l i m Hy F (W i Hlt) Hm) in Hi. by injection Hi as <-. }
  split; [exact A|]. pose proof (rounds_after (run l y) n1 n2 n3 installing Hr A) as R.
  unfold run in *. rewrite foldl_app. exact R.
Qed.

(** ** How often a register names itself *)
Record udp_well (u : udp) : Prop := {
  w_timeout : MIN_REG_TIMEOUT <= reg_timeout u <= MAX_REG_TIMEOUT /\ (MIN_REG_TIMEOUT | reg_timeout u);
  w_fails : 0 <= fails u;
  w_ema : 0 <= ema_latency u <= 1000000;
  w_old : 0 <= old_latency u <= 1000000 }.
Definition registers (a : answers) (u : udp) : bool :=
  is_timeout (now a) u || (bool_decide (last_register_sent u = None) && is_expired (now a) u).
(** The loop's own variables through a list of turns; the shared state is
    whatever the others have made of it by then. *)
Fixpoint udp_after (l : list (answers * turn * shared)) (rz : mediator) (u : udp) : option (mediator * udp) :=
  match l with
  | [] => Some (rz, u)
  | (a, t, s) :: l => match udp_turn a t rz u s with (Goes (rz, u), _, _) => udp_after l rz u | (Ended _, _, _) => None end
  end.
Fixpoint registered_at (l : list (answers * turn * shared)) (rz : mediator) (u : udp) : list Z :=
  match l with
  | [] => []
  | (a, t, s) :: l =>
      match udp_turn a t rz u s with
      | (Goes (rz', u'), _, _) =>
          (match t with Tick => if registers a u then [now a] else [] | Received _ => [] end) ++ registered_at l rz' u'
      | (Ended _, _, _) => []
      end
  end.

Lemma start_well n : udp_well (start_of n).
Proof. split; cbn; unfold MIN_REG_TIMEOUT, MAX_REG_TIMEOUT; [split; [lia|by exists 1]|lia|lia|lia]. Qed.
Lemma set_ema_well x u : udp_well u -> 0 <= x <= 1000000 -> udp_well (set_ema x u).
Proof. intros [H1 H2 H3 H4] Hx. by split. Qed.
Lemma smoothed_well latency u : udp_well u -> 0 <= latency <= 1000000 ->
  0 <= (smoothed latency u).1 <= 1000000 /\ udp_well (smoothed latency u).2 /\ last_register_resp (smoothed latency u).2 = last_register_resp u.
Proof.
  intros W Hl. unfold smoothed. destruct (_ =? _); cbn [fst snd].
  - split; [done|]. split; [by apply set_ema_well|done].
  - assert (0 <= Z.quot latency 30 + Z.quot (ema_latency u * 29) 30 <= 1000000) as He.
    { pose proof (w_ema u W). rewrite !Z.quot_div_nonneg by lia.
      pose proof (Z.div_pos latency 30). pose proof (Z.div_pos (ema_latency u * 29) 30). split; [lia|].
      assert (latency / 30 <= 33333) by (transitivity (1000000 / 30); [apply Z.div_le_mono; lia|done]).
      assert (ema_latency u * 29 / 30 <= 966666) by (transitivity (29000000 / 30); [apply Z.div_le_mono; lia|done]). lia. }
    split; [done|]. split; [by apply set_ema_well|done].
Qed.
Lemma update_latency_well n h u s : udp_well u -> udp_well (update_latency n h u s).1
  /\ last_register_sent (update_latency n h u s).1 = None /\ last_register_resp (update_latency n h u s).1 = Some n.
Proof.
  intros [H1 H2 H3 H4]. unfold update_latency. cbv zeta.
  set (u0 := mkUdp MIN_REG_TIMEOUT 0 (Some n) None (last_dns_check u) (old_latency u) (ema_latency u)).
  assert (W0 : udp_well u0) by (split; cbn; [unfold MIN_REG_TIMEOUT, MAX_REG_TIMEOUT; split; [lia|by exists 1]|lia|lia|lia]).
  destruct (_ || _) eqn:E; [done|]. bool_prop. destruct E as [E1%Z.ltb_ge E2%Z.ltb_ge].
  set (latency := match last_register_sent u with Some x => _ | None => 0 end) in *.
  pose proof (smoothed_well latency u0 W0 (conj E1 E2)) as (L & W & R).
  pose proof (smoothed_spec latency u0) as S. destruct (smoothed latency u0) as [x u1]; cbn in *.
  destruct (_ || _); [|done]. by destruct W.
Qed.
Lemma note_failure_well a rz u s rz' u' : udp_well u -> (note_failure a rz u s).1 = Ok (rz', u') ->
  udp_well u' /\ last_register_sent u' = last_register_sent u /\ last_register_resp u' = last_register_resp u.
Proof.
  intros [H1 H2 H3 H4]. unfold note_failure. cbv zeta.
  assert (W : udp_well (set_fails (fails u + 1) u)) by (split; cbn; [exact H1|lia|exact H3|exact H4]).
  assert (W0 : forall d, udp_well (set_dns d (set_old 0 (set_fails (fails u + 1) u)))) by (intros d; split; cbn; [exact H1|lia|exact H3|lia]).
  assert (W1 : udp_well (set_old 0 (set_fails (fails u + 1) u))) by (split; cbn; [exact H1|lia|exact H3|lia]).
  destruct (_ <=? _).
  - destruct (_ <? _); [|by intros [= <- <-]]. destruct (rebind a) as [[x|]|err]; [by intros [= <- <-]..|done].
  - destruct (_ <=? _); by intros [= <- <-].
Qed.
Lemma handle_resp_local {L} (upd : L -> shared -> L * shared) a m rz l s :
  (handle_resp upd a m rz l s).1.2.1.2 = l \/ (handle_resp upd a m rz l s).1.2.1.2 = (upd l s).1.
Proof.
  destruct m as [pk|r ka|ph|rr|fla|servers n|]; cbn [handle_resp]; try by left.
  - right. destruct (upd l s) as [l' s1]. destruct pk; [|done]. by destruct (register_pk a rz s1).
  - right. destruct (upd l s) as [l' s1]. destruct r; cbv zeta.
    + by destruct (0 <? ka).
    + destruct (handle_uuid_mismatch a rz s1) as [[[]|err] s2]; [|done]. by destruct (0 <? ka).
    + by destruct (0 <? ka).
Qed.
Lemma received_step a i rz u s rz' u' s' l : udp_well u -> udp_turn a (Received i) rz u s = (Goes (rz', u'), s', l) ->
  udp_well u' /\ (u' = u \/ (last_register_sent u' = None /\ last_register_resp u' = Some (now a))).
Proof.
  intros W. destruct i as [[m|]|err|]; cbn [udp_turn]; [|by intros [= <- <- <- <-]; auto|done|done].
  pose proof (handle_resp_local (update_latency (now a) (host rz)) a m rz u s) as Hl.
  destruct (handle_resp _ a m rz u s) as [[[[]|err] [[rz1 u1] s1]] l1]; [|done]. intros [= <- <- <- <-]. cbn in Hl.
  destruct Hl as [->| ->]; [by auto|]. destruct (update_latency_well (now a) (host rz) u s W) as (W' & S & R). auto.
Qed.
Lemma tick_step a rz u s rz' u' s' : udp_well u -> udp_tick a rz u s = (Goes (rz', u'), s') ->
  udp_well u' /\ last_register_resp u' = last_register_resp u /\
  last_register_sent u' = (if registers a u then Some (now a) else last_register_sent u).
Proof.
  intros W. unfold udp_tick, registers. destruct (SHOULD_EXIT s); [done|]. cbv zeta.
  set (u0 := if _ && (_ && _) then _ else u).
  assert (W0 : udp_well u0).
  { subst u0. destruct (_ && (_ && _)) eqn:E; [|done]. apply andb_true_iff in E as [_ E]. apply andb_true_iff in E as [_ E].
    apply Z.ltb_lt in E. destruct W as [[H1 [n Hn]] H2 H3 H4]. unfold MIN_REG_TIMEOUT, MAX_REG_TIMEOUT in *.
    split; cbn; [|done..]. unfold MIN_REG_TIMEOUT, MAX_REG_TIMEOUT. split; [lia|]. exists (n + 1). lia. }
  assert (E0 : last_register_sent u0 = last_register_sent u /\ last_register_resp u0 = last_register_resp u) by (subst u0; by destruct (_ && (_ && _))).
  destruct E0 as [Es Er].
  assert (Hp : forall x, last_register_sent u0 = x -> last_register_resp u0 = last_register_resp u) by done.
  rewrite Es. destruct (_ || _).
  - assert (N : forall s1 rz1 u1, (if is_timeout (now a) u then note_failure a rz u0 s else (Ok (rz, u0), s)) = (Ok (rz1, u1), s1) ->
       udp_well u1 /\ last_register_resp u1 = last_register_resp u).
    { intros s1 rz1 u1. destruct (is_timeout _ _); [|by intros [= <- <- <-]]. intros E.
      destruct (note_failure_well a rz u0 s rz1 u1 W0) as (W1 & _ & R1); [by rewrite E|]. split; [done|]. by rewrite R1. }
    destruct (if is_timeout _ _ then _ else _) as [[[rz1 u1]|err] s1]; [|done]. destruct (N _ _ _ eq_refl) as [W1 R1].
    destruct (register_peer a rz1 s1) as [[[]|err] s2]; [|done]. intros [= <- <- <-]. by destruct W1.
  - intros [= <- <- <-]. by split.
Qed.

Definition apart (x y : Z) : Prop := Z.min MIN_REG_TIMEOUT REG_INTERVAL <= ms (y - x).
(** [x] was the last registration; since then perhaps an answer came. *)
Definition since (x : Z) (u : udp) : Prop :=
  last_register_sent u = Some x \/ (last_register_sent u = None /\ exists r, last_register_resp u = Some r /\ x <= r).
Fixpoint in_order (t : Z) (l : list (answers * turn * shared)) : Prop :=
  match l with [] => True | (a, _, _) :: l => t <= now a /\ in_order (now a) l end.

Lemma since_apart x u a : udp_well u -> since x u -> x <= now a -> registers a u = true -> apart x (now a).
Proof.
  intros W Hs Hx. unfold registers, is_timeout, is_expired, apart, elapsed. destruct Hs as [->|(-> & r & -> & Hr)].
  - rewrite orb_false_r. intros H%Z.leb_le. destruct (w_timeout u W) as [? _]. rewrite Z.max_r in H by lia. lia.
  - cbn. intros H%Z.leb_le. assert (ms (Z.max 0 (now a - r)) <= ms (now a - x)); [|lia]. apply Z.div_le_mono; lia.
Qed.
Lemma spaced_from t l rz u : udp_well u -> in_order t l ->
  Sorted apart (registered_at l rz u) /\ forall x, x <= t -> since x u -> HdRel apart x (registered_at l rz u).
Proof.
  revert t rz u. induction l as [|[[a k] s] l IH]; intros t rz u W Ho; [by repeat constructor|]. destruct Ho as [Ht Ho]. cbn [registered_at].
  destruct (udp_turn a k rz u s) as [[[[rz' u']|r] s'] ts] eqn:E; [|by repeat constructor].
  destruct k as [i|].
  - destruct (received_step _ _ _ _ _ _ _ _ _ W E) as [W' Hu]. destruct (IH (now a) rz' u' W' Ho) as [S H]. split; [done|].
    intros x Hx Hs. apply H; [lia|]. destruct Hu as [->|[Hs' Hr']]; [done|]. right. split; [done|]. exists (now a). split; [done|lia].
  - cbn [udp_turn] in E. destruct (udp_tick a rz u s) as [o s1] eqn:E'. injection E as -> -> <-.
    destruct (tick_step _ _ _ _ _ _ _ W E') as (W' & Hr' & Hs'). destruct (IH (now a) rz' u' W' Ho) as [S H].
    destruct (registers a u) eqn:Er; cbn [app].
    + split; [constructor; [done|]; apply H; [lia|by left]|]. intros x Hx Hs. constructor. apply (since_apart x u a); try done. lia.
    + split; [done|]. intros x Hx Hs. apply H; [lia|]. unfold since in *. by rewrite Hs', Hr'.
Qed.
Lemma after_well l rz u rz' u' : udp_well u -> udp_after l rz u = Some (rz', u') -> udp_well u'.
Proof.
  revert rz u. induction l as [|[[a k] s] l IH]; intros rz u W; cbn; [by intros [= <- <-]|].
  destruct (udp_turn a k rz u s) as [[[[rz1 u1]|r] s'] ts] eqn:E; [|done]. apply IH. destruct k as [i|].
  - by eapply received_step.
  - cbn [udp_turn] in E. destruct (udp_tick a rz u s) as [o s1] eqn:E'. injection E as -> -> <-. by eapply tick_step.
Qed.

(** Over UDP a register names itself neither too often nor too seldom: two
    rounds of its timer that register lie three seconds or the interval of
    registrations apart, and a round that does not register finds that it did, at
    most thirty seconds before, or that an answer came within the interval. *)
Theorem registers_regularly t l rz : in_order t l ->
  Sorted apart (registered_at l rz (start_of t)) /\
  forall l1 a s l2 rz1 u1, l = l1 ++ (a, Tick, s) :: l2 -> udp_after l1 rz (start_of t) = Some (rz1, u1) -> registers a u1 = false ->
    (exists x, last_register_sent u1 = Some x /\ ms (elapsed (now a) x) < MAX_REG_TIMEOUT) \/
    (exists r, last_register_resp u1 = Some r /\ ms (elapsed (now a) r) < REG_INTERVAL).
Proof.
  intros Ho. split; [by apply (spaced_from t l rz (start_of t)); [apply start_well|]|].
  intros l1 a s l2 rz1 u1 _ E. apply after_well in E; [|apply start_well]. unfold registers, is_timeout, is_expired.
  destruct (w_timeout u1 E) as [Hw _]. destruct (last_register_sent u1) as [x|].
  - rewrite orb_false_r. intros H%Z.leb_gt. left. exists x. split; [done|lia].
  - cbn. destruct (last_register_resp u1) as [r|]; [|done]. intros H%Z.leb_gt. right. by exists r.
Qed.

(** ** Direct access *)

(** The listener beside the tasks. *)
Context (OPTION_DIRECT_SERVER : string).
Definition get_direct_port (c : config) : Z :=
  let port := default 0 (Handler.parse_i32 (get_option c "direct-access-port")) in
  if port <=? 0 then RENDEZVOUS_PORT + 2 else port.
Definition cr_direct_port : config -> Z := get_direct_port.
Definition direct_disabled (c : config) : bool :=
  negb (option2bool OPTION_DIRECT_SERVER (get_option c OPTION_DIRECT_SERVER)) || stop_service c.

(** [DBinding] waits for the port, [DStuck] for another number in the options,
    [DAccepting] for a technician; [d_port] is the number last tried, and the
    number on the listener is the one given to the system, of 16 bits. *)
Inductive direct_stage := DTop | DBinding | DStuck | DAccepting.
Record direct := mkDirect { listener : option Z; d_port : Z; d_stage : direct_stage }.
Record direct_answer := mkAnswer { bound : result unit string; visitor : option SocketAddr }.
Definition look (disabled : bool) (c : config) (d : direct) : direct :=
  match listener d with
  | Some _ => if disabled || negb (d_port d =? get_direct_port c) then mkDirect None (d_port d) DTop else mkDirect (listener d) (d_port d) DAccepting
  | None => mkDirect None (d_port d) DTop
  end.
Definition direct_server (c : config) (a : direct_answer) (d : direct) : direct * list effect :=
  match d_stage d with
  | DTop =>
      let disabled := direct_disabled c in
      if negb disabled && bool_decide (listener d = None) then (mkDirect None (get_direct_port c) DBinding, [])
      else (look disabled c d, [])
  | DBinding =>
      match bound a with
      | Ok _ => (look false c (mkDirect (Some (Int.wrap 16 (d_port d))) (d_port d) DTop), [])
      | Err _ => (mkDirect None (d_port d) DStuck, [])
      end
  | DStuck => if negb (d_port d =? get_direct_port c) then (look false c d, []) else (d, [])
  | DAccepting =>
      (mkDirect (listener d) (d_port d) DTop, match visitor a with Some peer => [Serve peer true None] | None => [] end)
  end.
Fixpoint direct_run (l : list (config * direct_answer)) (d : direct) : direct * list effect :=
  match l with
  | [] => (d, [])
  | (c, a) :: l => let '(d, o) := direct_server c a d in let '(d, o') := direct_run l d in (d, o ++ o')
  end.

Definition closed : direct := mkDirect None 0 DTop.
Lemma direct_run_app l1 l2 d : (direct_run (l1 ++ l2) d).1 = (direct_run l2 (direct_run l1 d).1).1.
Proof.
  revert d. induction l1 as [|[c a] l1 IH]; intros d; [done|]. cbn. destruct (direct_server c a d) as [d1 o1]. specialize (IH d1).
  destruct (direct_run (l1 ++ l2) d1) as [d2 o2]. destruct (direct_run l1 d1) as [d3 o3]. done.
Qed.
Lemma direct_run_snoc l c a d : (direct_run (l ++ [(c, a)]) d).1 = (direct_server c a (direct_run l d).1).1.
Proof. rewrite direct_run_app. cbn. by destruct (direct_server c a _). Qed.

(** What a stage of the listener remembers of the configurations it saw. *)
Definition remembers (l : list (config * direct_answer)) (d : direct) : Prop :=
  (forall n, listener d = Some n -> n = Int.wrap 16 (d_port d)) /\
  match d_stage d with
  | DBinding => exists l' c a, l = l' ++ [(c, a)] /\ direct_disabled c = false
  | DStuck => listener d = None
  | DAccepting => listener d = Some (Int.wrap 16 (d_port d)) /\ exists l' c a, l = l' ++ [(c, a)] /\ get_direct_port c = d_port d /\
      (direct_disabled c = false \/ exists l'' c0 a0, l' = l'' ++ [(c0, a0)] /\ direct_disabled c0 = false)
  | _ => True
  end.
Lemma look_remembers l c a disabled d : (forall n, listener d = Some n -> n = Int.wrap 16 (d_port d)) ->
  (disabled = false -> direct_disabled c = false \/ exists l'' c0 a0, l = l'' ++ [(c0, a0)] /\ direct_disabled c0 = false) ->
  remembers (l ++ [(c, a)]) (look disabled c d).
Proof.
  intros Hn Hd. unfold look. destruct (listener d) as [n|] eqn:E; [|by split].
  destruct (disabled || _) eqn:Ed; [by split|]. apply orb_false_iff in Ed as [E1 E2]. apply negb_false_iff, Z.eqb_eq in E2.
  split; cbn; [by intros m [= <-]; apply Hn|]. split; [by rewrite (Hn n)|]. exists l, c, a. split; [done|]. split; [done|]. by apply Hd.
Qed.
Lemma run_remembers l : remembers l (direct_run l closed).1.
Proof.
  induction l as [|[c a] l [Hn IH]] using rev_ind; [by split|]. rewrite direct_run_snoc. set (d := (direct_run l closed).1) in *.
  unfold direct_server. destruct (d_stage d) eqn:Es.
  - cbv zeta. destruct (negb (direct_disabled c) && _) eqn:E.
    + apply andb_true_iff in E as [E _]. apply negb_true_iff in E. split; [done|]. by exists l, c, a.
    + apply look_remembers; [done|]. intros ->%eq_sym. by left.
  - destruct (bound a) as [u|err].
    + apply look_remembers; [by intros n [= <-]|]. intros _. right. destruct IH as (l' & c0 & a0 & -> & H0). by exists l', c0, a0.
    + by split.
  - destruct (negb _); [|split; [done|change (d_stage (d, @nil effect).1) with (d_stage d); by rewrite Es]]. unfold look. rewrite IH. by split.
  - by split.
Qed.

(** Whoever comes in by direct access is to be secured, and found the listener
    open: a round of the loop before, the configured port was the one listened on,
    and then or one round earlier direct access was switched on. *)
Theorem direct_guests_are_invited l c a x : In x (direct_server c a (direct_run l closed).1).2 ->
  exists peer, x = Serve peer true None /\ exists l' c1 a1, l = l' ++ [(c1, a1)] /\
    listener (direct_run l closed).1 = Some (Int.wrap 16 (get_direct_port c1)) /\
    (direct_disabled c1 = false \/ exists l'' c0 a0, l' = l'' ++ [(c0, a0)] /\ direct_disabled c0 = false).
Proof.
  pose proof (run_remembers l) as [_ R]. unfold direct_server. destruct (d_stage _).
  - cbv zeta. by destruct (_ && _).
  - by destruct (bound a).
  - by destruct (negb _).
  - destruct R as (Hl & l' & c1 & a1 & -> & Hp & Hd). cbn. destruct (visitor a) as [peer|]; [|done]. intros [<-|[]].
    exists peer. split; [done|]. exists l', c1, a1. split; [done|]. split; [by rewrite Hp|done].
Qed.

(** A port that could not be taken is not tried again while its number is the
    configured one, whether or not direct access is switched off and on. *)
Lemma failed_port_is_final l d : d_stage d = DStuck -> Forall (λ x, get_direct_port x.1 = d_port d) l -> direct_run l d = (d, []).
Proof.
  intros Hs F. induction F as [|[c a] l Hc F IH]; [done|]. cbn in Hc |- *. unfold direct_server. rewrite Hs, Hc, Z.eqb_refl. cbn. by rewrite IH.
Qed.

(** ** Where it goes wrong, and one place where it does not *)

(** A restart asked for while the outer loop has read the servers and not yet
    taken back the request before: it is forgotten, and so is the new list. *)
Lemma restart_forgotten y l v n m installing : stage y = HaveServers l ->
  let y' := run [EOption "rendezvous-servers" v; EShouldExit; EManual; ERound n installing; ERound m installing] y in
  stage y' = Running /\ meds y' = map Starting l /\ SHOULD_EXIT (sh y') = false /\ MANUAL_RESTARTED (sh y') = false.
Proof.
  intros H. cbv zeta. unfold run. cbn [foldl step].
  set (y3 := set_sh _ (set_sh _ _)). change (stage y) with (stage y3) in H.
  assert (E : round_step n installing y3 = set_stage (Cleared l) (set_sh (set_should_exit false (sh y3)) y3)) by (unfold round_step; by rewrite H).
  by rewrite E.
Qed.
(** After a restart with the service stopped the outer loop turns every 33
    milliseconds and closes all connections each time. *)
Lemma stopped_service_spins y n m installing : stage y = Top -> stop_service (cf (sh y)) = true -> MANUAL_RESTARTED (sh y) = true ->
  let y' := run [ERound n installing; ERound m installing] y in
  out (sh y') = out (sh y) ++ [NewRound; CloseConnections; ResetOnline; Sleep 33] /\
  stage y' = Top /\ stop_service (cf (sh y')) = true /\ MANUAL_RESTARTED (sh y') = true.
Proof.
  intros H1 H2 H3. cbv zeta. unfold run. cbn [foldl step].
  assert (E : exists t0, round_step n installing y = set_stage Joined (set_sh (emit CloseConnections (emit NewRound (set_solving EmptyString (sh y))))
    (set_timeout CONNECT_TIMEOUT (set_start t0 y)))).
  { exists n. unfold round_step. rewrite H1. cbv zeta. cbn [cf emit set_solving]. by rewrite H2. }
  destruct E as [t0 ->]. unfold round_step. cbn. rewrite H3. cbn. by rewrite <- !app_assoc.
Qed.
(** When the key in the configuration was replaced after it had been sent, the
    next registration at any server sends the new key. *)
Lemma changed_key_is_resent pk a rz s : SENT_REGISTER_PK s = true -> get_cached_pk (cf s) <> pk -> mine rz s = true -> send_err a = None ->
  let s' := check_if_resend_pk pk s in
  out (register_peer a rz s').2 = out s ++ [Unconfirmed;
    Sent (host rz) (RegisterPk (get_id (cf s)) machine_uuid (get_key_pair (set_key_confirmed false (cf s))).1)].
Proof.
  intros H1 H2 H3 H4. cbv zeta. unfold check_if_resend_pk. rewrite H1, bool_decide_eq_false_2 by done. cbn [negb andb].
  unfold register_peer. change (mine rz (emit Unconfirmed (on_config (set_key_confirmed false) s))) with (mine rz s). rewrite H3. cbn [negb cf emit on_config set_cf].
  rewrite key_confirmed_set. cbn [negb orb]. unfold register_pk. cbn [cf emit on_config set_cf].
  pose proof (id_pair (set_key_confirmed false (cf s))) as Hi. destruct (get_key_pair _) as [k c]. cbn in Hi |- *.
  unfold send. rewrite H4. cbn. by rewrite <- app_assoc, Hi, id_key.
Qed.
(** A server that asks for a sign of life every 3,000,000 seconds overflows the
    limit: the connection then never counts as silent. *)
Lemma keep_alive_overflows : Int.to_signed 32 (3000000 * 1000) = -1294967296 /\ 9 * 10 ^ 18 < silence_limit (-1294967296).
Proof. by split. Qed.
End mediator.

(** ** A register at a server *)
Record toy := mkToy { t_opts : gmap string string; t_id : string; t_conf : bool; t_hosts : gmap string bool; t_serial : Z; t_pk : bytes }.
#[local] Instance toy_config : Config.
Proof.
  refine {| config := toy;
    get_option c k := default EmptyString (t_opts c !! k);
    set_option k v c := mkToy (<[k := v]> (t_opts c)) (t_id c) (t_conf c) (t_hosts c) (t_serial c) (t_pk c);
    get_id := t_id;
    update_id z c := mkToy (t_opts c) (to_string z) (t_conf c) (t_hosts c) (t_serial c) (t_pk c);
    get_key_pair c := (t_pk c, c); get_cached_pk c := Some (t_pk c);
    get_key_confirmed := t_conf;
    set_key_confirmed b c := mkToy (t_opts c) (t_id c) b (if b then t_hosts c else ∅) (t_serial c) (t_pk c);
    get_host_key_confirmed c k := default false (t_hosts c !! k);
    set_host_key_confirmed k b c := mkToy (t_opts c) (t_id c) (t_conf c) (<[k := b]> (t_hosts c)) (t_serial c) (t_pk c);
    get_serial := t_serial; set_serial n c := mkToy (t_opts c) (t_id c) (t_conf c) (t_hosts c) n (t_pk c);
    get_nat_type _ := 1;
    get_rendezvous_servers c := split ","%char (default EmptyString (t_opts c !! "rendezvous-servers")) |}; try done.
  - intros k b c k'. cbn. destruct (String.eqb_spec k k') as [->|Hn]; [by rewrite lookup_insert_eq|by rewrite lookup_insert_ne].
  - intros [] c k; cbn; [done|by rewrite lookup_empty].
Defined.
Definition spell (b : bytes) : SocketAddr := mkAddr (String.string_of_list_byte b) 4000.
Definition unspell (a : SocketAddr) : bytes := String.list_byte_of_string (ip a).
Definition as_is (h : string) (p : Z) : string := h.
Definition is_yes (k v : string) : bool := String.eqb v "Y".
Definition home : toy := mkToy {["rendezvous-servers" := "hub.shop.kr,hub2.shop.kr"]} "100" false ∅ 0 [].
Definition idle : shared := mkShared home EmptyString (no_addr, 0) (no_addr, 0) false false false [].
Definition boot : system := mkSystem idle [] [] Top 0 0.
Definition at_ (ms : Z) : answers := mkAnswers (ms * 1000) None 777 false (Ok None).
Definition calm : tenv := mkTenv false false false (λ _, true) None "u-1" "key" (λ _, None) (λ _, mkAddr "10.0.0.2" 5) Ok (λ _, mkAddr "9.9.9.9" 7).
Abbreviation go := (run spell unspell as_is as_is 21116 15000 18000 [] is_yes).
Definition two_servers : list event :=
  [ERound 0 false; ERound 0 false; ERound 0 false; EStart 0 false 0 (Ok "1.1.1.1"); EStart 1 false 0 (Ok "2.2.2.2")].

(** The key is registered, confirmed, and then the number is named. *)
Definition first_minute : list event := two_servers ++
  [EUdp 0 (at_ 1000) Tick; EUdp 0 (at_ 1040) (Received (Packet (Some (RegisterPkResponse RegisterOk 0))));
   EUdp 0 (at_ 17000) Tick; EUdp 0 (at_ 17030) (Received (Packet (Some (RegisterPeerResponse false))))].
Example first_minute_runs : out (sh (go first_minute boot)) =
  [NewRound; Sent "hub.shop.kr" (RegisterPk "100" [] []); Latency "hub.shop.kr" 40000; Confirmed "hub";
   Sent "hub.shop.kr" (RegisterPeer "100" 0)].
Proof. vm_compute. reflexivity. Qed.

Definition before_the_name : list event := two_servers ++
  [EUdp 0 (at_ 1000) Tick; EUdp 0 (at_ 1040) (Received (Packet (Some (RegisterPkResponse RegisterOk 0))))].

(** The key is replaced in the configuration after it was sent: it does not
    stand, and the next registration sends the new one. *)
Example replaced_key_is_registered :
  let y := go (before_the_name ++ [EResend (Some (String.list_byte_of_string "old"))]) boot in
  key_stands spell unspell as_is as_is 21116 15000 18000 [] is_yes false boot
    (before_the_name ++ [EResend (Some (String.list_byte_of_string "old"))]) = false
  /\ out (sh (go [EUdp 0 (at_ 17000) Tick] y)) = out (sh y) ++ [Sent "hub.shop.kr" (RegisterPk "100" [] [])].
Proof. vm_compute. done. Qed.

(** Two servers disagree about the number: the second waits for the first, but
    its late answer about the old number confirms the new one. *)
Definition late : list event := two_servers ++
  [EUdp 0 (at_ 1000) Tick; EUdp 1 (at_ 1000) Tick;
   EUdp 0 (at_ 1040) (Received (Packet (Some (RegisterPkResponse UUID_MISMATCH 0))));
   EUdp 1 (at_ 1050) (Received (Packet (Some (RegisterPkResponse RegisterOk 0))));
   EUdp 1 (at_ 17000) Tick].
Lemma late_answer_confirms : List.filter (λ x, match x with Sent _ _ | NewId _ _ | Confirmed _ => true | _ => false end)
    (out (sh (go late boot))) =
  [Sent "hub.shop.kr" (RegisterPk "100" [] []); Sent "hub2.shop.kr" (RegisterPk "100" [] []); NewId "hub.shop.kr" "777";
   Sent "hub.shop.kr" (RegisterPk "777" [] []); Confirmed "hub2"; Sent "hub2.shop.kr" (RegisterPeer "777" 0)].
Proof. vm_compute. reflexivity. Qed.

(** A technician's request that arrives twice is answered once, unless the two
    answers run side by side: then both read who was last before either notes. *)
Definition knock : PunchHole := mkPunch (String.list_byte_of_string "5.5.5.5") [] "relay.shop.kr" (Some ASYMMETRIC) 0 false (Some 3).
Definition knocks (l : list nat) : list event := two_servers ++
  [EUdp 0 (at_ 1000) (Received (Packet (Some (MPunchHole knock)))); EUdp 0 (at_ 1001) (Received (Packet (Some (MPunchHole knock))))]
  ++ map (λ j, ETask j calm 1002000) l.
Definition served (y : system) : nat := length (List.filter (λ x, match x with Serve _ _ _ => true | _ => false end) (out (sh y))).
Lemma overlapping_requests_are_both_answered :
  served (go (knocks [0; 1; 0; 0]%nat) boot) = 1%nat /\ served (go (knocks [0; 0; 0; 0]%nat) boot) = 2%nat.
Proof. split; vm_compute; reflexivity. Qed.

Definition hub : mediator := mkMediator "1.1.1.1" "hub.shop.kr" "hub" 60000.
Lemma guests_as_asked_witness : sys_named boot /\ tasks boot = [] /\
  In (Serve (mkAddr "9.9.9.9" 7) true (Some 3)) (out (sh (go (knocks [0; 1]%nat) boot))) /\
  was_asked spell unspell as_is as_is 21116 15000 18000 [] is_yes boot (knocks [0; 1]%nat) (Some 3) true.
Proof.
  assert (Hy : sys_named boot) by constructor. split; [exact Hy|]. split; [reflexivity|].
  destruct (guests_as_asked spell unspell as_is as_is 21116 15000 18000 [] is_yes boot (knocks [0; 1]%nat) Hy eq_refl) as [(k & Hk & H) _].
  assert (Hin : In (Serve (mkAddr "9.9.9.9" 7) true (Some 3)) (out (sh (go (knocks [0; 1]%nat) boot)))) by (vm_compute; tauto).
  split; [exact Hin|]. rewrite Hk in Hin. exact (H _ Hin).
Defined.

(** *** A restart *)
Definition leave : list event :=
  [EStart 0 false 0 (Ok "1.1.1.1"); EStart 1 true 0 (Ok "2.2.2.2"); EUdp 0 (at_ 3000) Tick; ETcp 0 (at_ 3000) TTick;
   EUdp 1 (at_ 3100) Tick; ETcp 1 (at_ 3100) TTick].
Definition changed : system :=
  go (two_servers ++ [EUdp 0 (at_ 1000) (Received (Packet (Some (ConfigureUpdate ["new.shop.kr"] 2))))]) boot.
Lemma restart_takes_effect_witness : leaving changed /\ all_finished (go leave changed) = true /\
  stage (go (leave ++ [ERound 4000000 false; ERound 4000000 false; ERound 4000000 false]) changed) = HaveServers ["new.shop.kr"].
Proof.
  assert (L : leaving changed) by (split; [apply run_goes; constructor|split; vm_compute; reflexivity]).
  split; [exact L|].
  destruct (restart_takes_effect spell unspell as_is as_is 21116 15000 18000 [] is_yes changed leave 4000000 4000000 4000000 false L) as [H1 H2].
  - repeat constructor.
  - assert (Hn : length (meds changed) = 2%nat) by (vm_compute; reflexivity). rewrite Hn. intros [|[|i]] Hi; [| |lia].
    + exists [], false, 0, (Ok "1.1.1.1"), (drop 1 leave), (at_ 3000), (at_ 3000). repeat split; cbn; tauto.
    + exists (take 1 leave), true, 0, (Ok "2.2.2.2"), (drop 2 leave), (at_ 3100), (at_ 3100). repeat split; cbn; tauto.
  - split; [exact H1|]. cbv zeta in H2.
    assert (Ec : negb (stop_service is_yes (cf (sh (go (leave ++ [ERound 4000000 false; ERound 4000000 false; ERound 4000000 false]) changed)))) = true)
      by (vm_compute; reflexivity).
    rewrite Ec in H2. rewrite H2. vm_compute. reflexivity.
Defined.

(** *** The timer *)
Definition ticks : list (answers * turn * shared) :=
  [(at_ 1000, Tick, idle); (at_ 1040, Received (Packet (Some (RegisterPkResponse RegisterOk 0))), idle); (at_ 2000, Tick, idle);
   (at_ 17000, Tick, idle); (at_ 18000, Tick, idle); (at_ 20100, Tick, idle)].
Lemma registers_regularly_witness : in_order 0 ticks /\
  registered_at 15000 [] ticks hub (start_of 0) = [1000000; 17000000; 20100000] /\
  Sorted (apart 15000) [1000000; 17000000; 20100000].
Proof.
  assert (O : in_order 0 ticks) by (vm_compute; repeat split; discriminate). split; [exact O|]. split; [vm_compute; reflexivity|].
  pose proof (proj1 (registers_regularly 15000 [] 0 ticks hub O)) as S. revert S.
  replace (registered_at 15000 [] ticks hub (start_of 0)) with [1000000; 17000000; 20100000] by (vm_compute; reflexivity). exact (λ S, S).
Defined.

(** *** Direct access *)
Definition asked (port switch : string) : toy := mkToy {["direct-access-port" := port; "direct-server" := switch]} "100" true ∅ 0 [].
Definition nobody : direct_answer := mkAnswer (Ok tt) None.
Definition caller : direct_answer := mkAnswer (Ok tt) (Some (mkAddr "8.8.8.8" 9)).
(** The number 70000 is listened for as 4464. *)
Lemma port_number_wraps :
  get_direct_port 21116 (asked "70000" "Y") = 70000 /\
  listener (direct_run 21116 is_yes "direct-server" [(asked "70000" "Y", nobody); (asked "70000" "Y", nobody)] closed).1 = Some 4464.
Proof. split; vm_compute; reflexivity. Qed.
Lemma direct_guests_are_invited_witness : let l := [(asked "21118" "Y", nobody); (asked "21118" "Y", nobody)] in
  In (Serve (mkAddr "8.8.8.8" 9) true None) (direct_server 21116 is_yes "direct-server" (asked "21118" "N") caller (direct_run 21116 is_yes "direct-server" l closed).1).2 /\
  listener (direct_run 21116 is_yes "direct-server" l closed).1 = Some 21118.
Proof.
  cbv zeta. set (l := [_; _]).
  assert (H : In (Serve (mkAddr "8.8.8.8" 9) true None)
    (direct_server 21116 is_yes "direct-server" (asked "21118" "N") caller (direct_run 21116 is_yes "direct-server" l closed).1).2)
    by (vm_compute; left; reflexivity).
  split; [exact H|].
  destruct (direct_guests_are_invited (cfg := toy_config) 21116 is_yes "direct-server" l (asked "21118" "N") caller _ H) as (p & _ & l' & c1 & a1 & El & Hl & _).
  rewrite Hl. apply (app_inj_tail [(asked "21118" "Y", nobody)]) in El as [_ [= <- _]]. vm_compute. reflexivity.
Defined.
End Mediator.
