(* ===== verification/Firewall.v ===== *)
(** * Firewall control ([src/src/chainremote_firewall.rs])

    On the registers of shops with an order screen Windows' firewall has to stay
    off.  The panel says so in its answers to the heartbeat; a thread looks at the
    registry every five seconds and switches the firewall off again, and keeps
    Windows from warning about it.

    The registry's values are part of the state, with whatever Windows writes into
    them; [netsh] and the right to write are answers from outside.  A step is one
    call of the heartbeat, one round of the watch, a change by Windows or a
    restart; a run is any sequence of them. *)

From S2P Require Import Prelude RustStr Store.
Local Open Scope Z_scope.

Module Firewall.

Definition CONTROL_CACHE_KEY : string := "chainremote-firewall-control".
Inductive profile := StandardProfile | PublicProfile | DomainProfile.
Definition profiles : list profile := [StandardProfile; PublicProfile; DomainProfile].

(** A key of the registry that cannot be opened, one without the value (or with
    one of another type), a [u32]. *)
Inductive reg_value := NoKey | NoValue | Dword (v : Z).
Record registry := mkReg { enable_firewall : profile -> reg_value; disable_notifications : reg_value }.

(** The answers of the system during a round: what [netsh] does and whether it
    succeeds, and whether the policy key can be written. *)
Record answers := mkAnswers { netsh : registry -> bool * registry; policy_writable : bool }.

Section firewall.
Context {C : Type} `{!LocalConfig C}.

Record world := mkWorld { CONTROL : bool; DISARMED_PENDING : bool; config : C; reg : registry }.
Definition set_reg r w := mkWorld (CONTROL w) (DISARMED_PENDING w) (config w) r.
Definition set_pending b w := mkWorld (CONTROL w) b (config w) (reg w).

(** ** What the heartbeat calls *)
Definition set_control (on : bool) (w : world) : world :=
  let want := (if on then "Y" else "N")%string in
  mkWorld on (DISARMED_PENDING w)
    (if String.eqb (get_option CONTROL_CACHE_KEY (config w)) want then config w
     else set_option CONTROL_CACHE_KEY want (config w)) (reg w).
Definition peek_disarmed (w : world) : bool := DISARMED_PENDING w.
Definition clear_disarmed (w : world) : world := set_pending false w.

(** ** The registry *)
Fixpoint firewall_state_go (l : list profile) (readable : bool) (r : registry) : option bool :=
  match l with
  | [] => if readable then Some false else None
  | p :: l =>
      match enable_firewall r p with
      | NoKey => firewall_state_go l readable r
      | NoValue => Some true
      | Dword v => if v =? 1 then Some true else firewall_state_go l true r
      end
  end.
Definition firewall_state (r : registry) : option bool := firewall_state_go profiles false r.
Definition current_enabled (w : world) : option bool := firewall_state (reg w).
Definition suppressed (r : registry) : bool :=
  match disable_notifications r with Dword v => v =? 1 | _ => false end.
Definition ensure_notifications_suppressed (a : answers) (r : registry) : registry :=
  if suppressed r then r
  else if policy_writable a then mkReg (enable_firewall r) (Dword 1) else r.
Definition disarm_all_profiles (a : answers) (r : registry) : bool * registry := netsh a r.

(** ** The watch *)
Definition boot (w : world) : world :=
  if String.eqb (get_option CONTROL_CACHE_KEY (config w)) "Y"
  then mkWorld true (DISARMED_PENDING w) (config w) (reg w) else w.
Definition round (a : answers) (w : world) : world :=
  if negb (CONTROL w) then w
  else
    let w := set_reg (ensure_notifications_suppressed a (reg w)) w in
    match firewall_state (reg w) with
    | Some true =>
        let '(ok, r) := disarm_all_profiles a (reg w) in
        let w := set_reg r w in
        if ok then
          let w := set_pending true w in
          set_reg (ensure_notifications_suppressed a (reg w)) w
        else w
    | _ => w
    end.

(** ** Runs *)
Inductive event :=
  | Answer (on : bool)                             (** the panel's answer to the heartbeat *)
  | Reported                                       (** a report carried the flag and arrived *)
  | Round (a : answers)
  | Windows (f : registry -> registry)             (** updates, policies, the owner *)
  | Restart.
Definition step (ev : event) (w : world) : world :=
  match ev with
  | Answer on => set_control on w
  | Reported => clear_disarmed w
  | Round a => round a w
  | Windows f => set_reg (f (reg w)) w
  | Restart => boot (mkWorld false false (config w) (reg w))
  end.
Definition run (l : list event) (w : world) : world := foldl (λ w ev, step ev w) w l.

(** The last thing the panel said. *)
Fixpoint last_answer (l : list event) (d : bool) : bool :=
  match l with
  | [] => d
  | Answer on :: l => last_answer l on
  | _ :: l => last_answer l d
  end.

(** ** What holds *)
Lemma round_control a w : CONTROL (round a w) = CONTROL w /\ config (round a w) = config w.
Proof.
  unfold round. destruct (CONTROL w) eqn:E; [|done]. cbn [negb]. cbv zeta.
  destruct (firewall_state _) as [[|]|]; [destruct (disarm_all_profiles a _) as [[|] r]|..]; done.
Qed.

(** The cache is what the panel last said. *)
Definition cached (w : world) : Prop := CONTROL w = String.eqb (get_option CONTROL_CACHE_KEY (config w)) "Y".
Lemma cached_step ev w d : cached w -> CONTROL w = d -> cached (step ev w) /\ CONTROL (step ev w) = last_answer [ev] d.
Proof.
  unfold cached. intros Hc <-. destruct ev as [on| |a|f| ]; simpl; try done.
  - unfold set_control. simpl. destruct (String.eqb_spec (get_option CONTROL_CACHE_KEY (config w)) (if on then "Y" else "N")) as [->|_];
      rewrite ?get_set_eq; by destruct on.
  - destruct (round_control a w) as [-> ->]. done.
  - unfold boot. simpl. destruct (String.eqb _ "Y") eqn:E; simpl; by rewrite ?E.
Qed.

(** The register does what the panel last said, also right after a restart
    and before the first answer: over any sequence of answers, reports, rounds,
    changes by Windows and restarts the switch is the last answer, and as long as
    it is off the registry is touched by Windows alone. *)
Theorem control_is_last_answer l w : cached w ->
  CONTROL (run l w) = last_answer l (CONTROL w) /\ cached (run l w)
  /\ (forall a, CONTROL (run l w) = false -> round a (run l w) = run l w).
Proof.
  intros Hc. split_and!.
  - revert w Hc. induction l as [|ev l IH]; intros w Hc; [done|]. destruct (cached_step ev w (CONTROL w) Hc eq_refl) as [Hc' E].
    cbn [run foldl]. fold (run l (step ev w)). rewrite (IH _ Hc'), E. by destruct ev.
  - revert w Hc. induction l as [|ev l IH]; intros w Hc; [done|]. apply (IH (step ev w)). by apply (cached_step ev w (CONTROL w)).
  - intros a E. unfold round. by rewrite E.
Qed.

(** [netsh] that succeeds leaves every profile it can open off, and the policy
    alone. *)
Definition netsh_works (a : answers) : Prop := forall r,
  let '(ok, r') := netsh a r in
  ok = true ->
  (forall p, enable_firewall r' p = NoKey \/ enable_firewall r' p = Dword 0)
  /\ disable_notifications r' = disable_notifications r.

Lemma suppress_spec a r : let r' := ensure_notifications_suppressed a r in
  enable_firewall r' = enable_firewall r /\ (policy_writable a = true -> suppressed r' = true)
  /\ (suppressed r = true -> suppressed r' = true).
Proof.
  cbv zeta. unfold ensure_notifications_suppressed. destruct (suppressed r) eqn:E; [by rewrite E|].
  by destruct (policy_writable a).
Qed.
Lemma off_state r : (forall p, enable_firewall r p = NoKey \/ enable_firewall r p = Dword 0) -> firewall_state r <> Some true.
Proof.
  intros H. unfold firewall_state, profiles. simpl.
  destruct (H StandardProfile) as [-> | ->], (H PublicProfile) as [-> | ->], (H DomainProfile) as [-> | ->]; done.
Qed.

(** One round is enough.  While the panel asks for it, a round in which
    [netsh] works leaves the firewall off, with the warnings suppressed where the
    policy can be written; a firewall that was on is reported until a report with
    it has arrived, one that was off is not touched and nothing is reported; and
    when [netsh] fails nothing is reported either. *)
Theorem round_disarms a w : CONTROL w = true -> netsh_works a ->
  let w' := round a w in
  let was_on := bool_decide (current_enabled w = Some true) in
  (was_on = false -> enable_firewall (reg w') = enable_firewall (reg w) /\ DISARMED_PENDING w' = DISARMED_PENDING w)
  /\ (was_on = true -> (netsh a (ensure_notifications_suppressed a (reg w))).1 = true ->
        current_enabled w' <> Some true /\ DISARMED_PENDING w' = true)
  /\ (was_on = true -> (netsh a (ensure_notifications_suppressed a (reg w))).1 = false ->
        DISARMED_PENDING w' = DISARMED_PENDING w)
  /\ (policy_writable a = true -> (netsh a (ensure_notifications_suppressed a (reg w))).1 = true \/ was_on = false ->
        suppressed (reg w') = true).
Proof.
  intros Hc Hn. cbv zeta. unfold round, current_enabled. rewrite Hc. cbn [negb].
  destruct (suppress_spec a (reg w)) as (E1 & E2 & _). set (r0 := ensure_notifications_suppressed a (reg w)) in *.
  assert (firewall_state r0 = firewall_state (reg w)) as Es by (unfold firewall_state; simpl; by rewrite E1).
  cbn [reg set_reg]. rewrite Es. case_bool_decide as Hon.
  - rewrite Hon. unfold disarm_all_profiles. specialize (Hn r0). destruct (netsh a r0) as [[|] r1].
    + destruct (Hn eq_refl) as [H1 H2]. destruct (suppress_spec a r1) as (F1 & F2 & _).
      cbn [reg set_reg set_pending DISARMED_PENDING fst]. split_and!; try done.
      * intros _ _. split; [|done]. apply off_state. by rewrite F1.
      * intros Hw _. by apply F2.
    + split_and!; try done. intros _ [|]; done.
  - destruct (firewall_state (reg w)) as [[|]|]; [done|..]; (split_and!; try done; auto).
Qed.

(** A disarming that happens while a report travels is lost with the report's
    flag: the flag is only one bit. *)
Lemma disarmed_until_reported l w : DISARMED_PENDING w = true ->
  (forall ev, In ev l -> ev <> Reported /\ ev <> Restart) -> peek_disarmed (run l w) = true.
Proof.
  revert w. induction l as [|ev l IH]; intros w Hw Hl; [done|]. cbn [run foldl]. apply (IH (step ev w)).
  - destruct (Hl ev) as [H1 H2]; [by left|]. destruct ev as [on| |a|f| ]; try done.
    simpl. unfold round. destruct (CONTROL w); [|done]. simpl.
    destruct (firewall_state _) as [[|]|]; try done. destruct (disarm_all_profiles a _) as [[|] r]; done.
  - intros ev' Hin. apply Hl. by right.
Qed.
End firewall.

(** ** Inputs *)
Definition all_off (r : registry) : registry := mkReg (λ _, Dword 0) (disable_notifications r).
Definition works : answers := mkAnswers (λ r, (true, all_off r)) true.
Definition after_update (r : registry) : registry := mkReg (λ _, Dword 1) NoKey.
Definition fresh : world (C := gmap string string) := mkWorld false false ∅ (after_update (mkReg (λ _, NoKey) NoKey)).

(** An update brings the firewall back during a restart. *)
Lemma control_is_last_answer_witness :
  let l := [Answer true; Round works; Windows after_update; Restart] in
  CONTROL (run l fresh) = true /\ current_enabled (run l fresh) = Some true
  /\ current_enabled (run (l ++ [Round works]) fresh) = Some false.
Proof.
  cbv zeta. split_and!; [|vm_compute; reflexivity|vm_compute; reflexivity].
  destruct (control_is_last_answer [Answer true; Round works; Windows after_update; Restart] fresh) as [-> _]; [vm_compute; reflexivity|].
  reflexivity.
Defined.
Lemma round_disarms_witness : let w := run [Answer true] fresh in
  current_enabled (round works w) <> Some true /\ peek_disarmed (round works w) = true.
Proof.
  cbv zeta. destruct (round_disarms works (run [Answer true] fresh)) as (_ & H & _).
  - vm_compute. reflexivity.
  - intros r. simpl. intros _. split; [intros p; by right|done].
  - apply H; vm_compute; reflexivity.
Defined.

(** Between looking at the flag and clearing it the watch may disarm once more:
    that one is never reported. *)
Example disarming_lost :
  let w := run [Answer true; Round works] fresh in
  peek_disarmed w = true
  /\ let w' := run [Windows after_update; Round works; Reported] w in
     current_enabled w' = Some false /\ peek_disarmed w' = false.
Proof. vm_compute. done. Qed.
(** A restart forgets what was not reported yet. *)
Example report_lost_at_restart : peek_disarmed (run [Answer true; Round works; Restart] fresh) = false.
Proof. vm_compute. done. Qed.
End Firewall.
