(* ===== verification/Probe.v ===== *)
(** * Checking the ways to the registers ([src/src/chainremote_probe.rs])

    The headquarters app can measure which registers are reached directly and
    which over the relay: it starts a connection to each, waits for its outcome
    and hangs up before the login.  The connection is [Connect.start], the handler
    is [Handler]'s; what the app's other windows do to the stored records meanwhile
    may happen at every wait.

    Whether a record exists and its removal are [PeerFiles], a part of the
    configuration store like [Handler.PeerStore]. *)

From Stdlib Require Import Strings.Byte.
From S2P Require Import Prelude RustStr Store World Auth Data Handshake Handler Connect.
#[local] Open Scope Z_scope.

Module Probe.
Import Handler(PeerConfig, ConnType, DEFAULT_CONN, handler, disk, load, store, options, ui_flutter, direct_failures,
  set_options, set_ui_flutter, set_direct_failures, world, mkWorld, hd, files, out, PENDING_SCHED).
Import Connect(prog, Ret, Do, Ask, Await, act, query, perform, settings, connection, c_direct, start).
Import Data(json, JNull, JBool, JStr, JNum, JArr, JObj, jget, as_str, without_quotes).

(** The records as files.  [named_by_id]: the numbers whose record is the file of
    that name; others are stored under an encoded name. *)
Class PeerFiles `{ps : Handler.PeerStore} := {
  named_by_id : string -> Prop;
  exists_on : string -> disk -> bool;
  remove : string -> disk -> disk;
  exists_store i j c d : named_by_id i -> exists_on j (store i c d) = bool_decide (i = j) || exists_on j d;
  exists_remove i j d : named_by_id i -> exists_on j (remove i d) = negb (bool_decide (i = j)) && exists_on j d;
  load_remove i j d : i <> j -> load j (remove i d) = load j d;
}.

Definition PROBE_TIMEOUT_SECS : Z := 12.
Record ProbeResult := mkResult { r_id : string; r_direct : option bool; r_ms : Z; r_error : string }.

Section probe.
Context {ps : Handler.PeerStore} {pf : PeerFiles} {cr : Handshake.Crypto}.
Context (he : Handler.env) (g : settings) (dflt : PeerConfig).

(** The outside: answers to the connection, the wall clock in seconds and the
    timer in milliseconds at a step, what the rest of the app does to the records
    during a wait, and where the key comes from. *)
Context (orc : nat -> forall X, query X -> X) (clock timer : nat -> Z) (elsewhere : nat -> disk -> disk).
Context (licence : nat -> option string) (key_option : nat -> string).

Definition set_files (d : disk) (w : world) : world := mkWorld (hd w) d (PENDING_SCHED w) (out w).
Definition set_handler (h : handler) (w : world) : world := mkWorld h (files w) (PENDING_SCHED w) (out w).
Definition waited (n : nat) (w : world) : world := set_files (elsewhere n (files w)) w.
(** [LoginConfigHandler::default()] *)
Definition default_handler : handler :=
  Handler.mkHandler EmptyString DEFAULT_CONN false (Handler.mkHash EmptyString EmptyString) [] false dflt (EmptyString, 0) 0 None 0 0
    false false None false None None None None None Handler.Undefined None false false.

(** [get_key] of [common.rs] *)
Definition get_key (n : nat) : string :=
  match licence n with
  | Some k => if negb (is_empty k) then k else if is_empty (key_option n) then Handler.RS_PUB_KEY he else key_option n
  | None => if is_empty (key_option n) then Handler.RS_PUB_KEY he else key_option n
  end.

(** [tokio::time::timeout]: the program is dropped at a wait that is not over in
    time. *)
Fixpoint cut {A} (started : Z) (n : nat) (p : prog A) (w : world) : option A * world * nat :=
  match p with
  | Ret a => (Some a, w, n)
  | Do a k => let '(x, w) := perform a (clock n) w in cut started (S n) (k x) w
  | Ask q k => cut started (S n) (k (orc n _ q)) w
  | Await q k =>
      if PROBE_TIMEOUT_SECS * 1000 <=? timer (S n) - started then (None, waited n w, S n)
      else cut started (S n) (k (orc n _ q)) (waited n w)
  end.

Definition peer_config_exists (i : string) (w : world) : bool := exists_on i (files w).
Definition probe_one (i : string) (n : nat) (w : world) : ProbeResult * world * nat :=
  let started := timer n in
  let had_config := peer_config_exists i w in
  let w := Handler.initialize he i DEFAULT_CONN None false None None None (set_handler default_handler w) in
  let key := get_key n in
  let '(r, w, n) := cut started (S n) (start g i key (Handler.access_token he) DEFAULT_CONN) (waited n w) in
  let ms := timer n - started in
  let out := match r with
             | Some (Ok x) => mkResult i (Some (c_direct x.1)) ms EmptyString
             | Some (Err err) => mkResult i None ms err
             | None => mkResult i None ms "시간 초과"
             end in
  (out, if had_config then w else set_files (remove i (files w)) w, n).

(** One after the other, with a pause before each but the first. *)
Fixpoint probe_rest (ids : list string) (n : nat) (w : world) : list ProbeResult * world * nat :=
  match ids with
  | [] => ([], w, n)
  | i :: ids =>
      let '(r, w, n) := probe_one i (S n) (waited n w) in
      let '(l, w, n) := probe_rest ids n w in (r :: l, w, n)
  end.
Definition probe_all (ids : list string) (n : nat) (w : world) : list ProbeResult * world * nat :=
  match ids with
  | [] => ([], w, n)
  | i :: ids =>
      let '(r, w, n) := probe_one i n w in
      let '(l, w, n) := probe_rest ids n w in (r :: l, w, n)
  end.
Definition count (d : option bool) (l : list ProbeResult) : Z :=
  Z.of_nat (length (List.filter (λ r, bool_decide (r_direct r = d)) l)).

(** ** The records afterwards *)

(** The same record up to the marks of the connection; options that have a
    default may have been added. *)
Definition unmarked (c : PeerConfig) : PeerConfig :=
  set_options ∅ (set_ui_flutter (delete Direct.KEY (ui_flutter c)) (set_direct_failures 0 c)).
Definition kept (c c' : PeerConfig) : Prop := options c ⊆ options c' /\ unmarked c' = unmarked c.
#[local] Instance kept_preorder : PreOrder kept.
Proof.
  split; [done|]. intros a1 b c [H1 H2] [H3 H4]. split; [by etrans|by rewrite H4].
Qed.
Lemma kept_stamp now b c : kept c (Direct.stamp now b c).
Proof.
  split; [done|]. unfold unmarked, Direct.stamp. simpl. destruct b; [by rewrite delete_insert_eq|by rewrite delete_delete_eq].
Qed.
Lemma kept_failures z c : kept c (set_direct_failures z c).
Proof. done. Qed.
Lemma kept_stored i c d : kept c (load i (store i c d)).
Proof. destruct (Handler.load_store_eq i c d) as (o & Ho & ->). done. Qed.

(** A register whose record the rest of the app leaves alone. *)
Definition still (j : string) : Prop := forall n d, exists_on j (elsewhere n d) = exists_on j d /\ load j (elsewhere n d) = load j d.
(** What is only a mark of a probe in the effects. *)
Definition is_note (x : Handler.effect) : bool := match x with Handler.NoteDirect _ _ => true | _ => false end.
(** From [w] to [w'] with the handler of register [i]. *)
Record moved (i : string) (w w' : world) : Prop := {
  m_id : Handler.id (hd w') = i;
  m_own : still i -> (exists_on i (files w) = true -> exists_on i (files w') = true) /\ kept (load i (files w)) (load i (files w'));
  m_rest j : j <> i -> still j -> exists_on j (files w') = exists_on j (files w) /\ load j (files w') = load j (files w);
  m_out : exists l, out w' = out w ++ l /\ forallb is_note l = true;
}.
Lemma moved_trans i w1 w2 w3 : moved i w1 w2 -> moved i w2 w3 -> moved i w1 w3.
Proof.
  intros [_ O1 R1 (l1 & E1 & F1)] [I2 O2 R2 (l2 & E2 & F2)]. split; [done| | |].
  - intros Hs. destruct (O1 Hs) as [X1 K1], (O2 Hs) as [X2 K2]. split; [auto|by etrans].
  - intros j Hj Hs. destruct (R1 j Hj Hs) as [-> ->] in R2 |- * || destruct (R2 j Hj Hs) as [-> ->]; by apply R1.
  - exists (l1 ++ l2). rewrite E2, E1, app_assoc. split; [done|]. by rewrite forallb_app, F1, F2.
Qed.
Lemma moved_waited i n w : Handler.id (hd w) = i -> moved i w (waited n w).
Proof.
  intros Hi. split; [done| | |].
  - intros Hs. unfold waited, set_files. simpl. destruct (Hs n (files w)) as [-> ->]. done.
  - intros j _ Hs. apply Hs.
  - exists []. by rewrite app_nil_r.
Qed.
Lemma moved_edit i f w : named_by_id i -> Handler.id (hd w) = i -> (forall c, kept c (f c)) -> moved i w (Handler.edit f w).
Proof.
  intros Hn Hi Hf. unfold Handler.edit, Handler.save_config, Handler.load_config. rewrite Hi. split; cbn [hd files out]; [done| | |].
  - intros _. split; [by rewrite exists_store, bool_decide_true|]. etrans; [apply Hf|apply kept_stored].
  - intros j Hj _. rewrite exists_store by done. rewrite bool_decide_false by done. split; [done|]. by apply Handler.load_store_ne.
  - exists []. by rewrite app_nil_r.
Qed.
Lemma moved_perform {X} (b : act X) now i w : named_by_id i -> Handler.id (hd w) = i -> moved i w (perform b now w).2.
Proof.
  intros Hn Hi.
  assert (forall w', Handler.id (hd w') = i -> files w' = files w -> (exists l, out w' = out w ++ l /\ forallb is_note l = true) -> moved i w w') as Hsame.
  { intros w' H1 H2 H3. split; [done| | |done]; rewrite H2; done. }
  destruct b as [| |z|d|r]; simpl.
  - apply Hsame; [done..|]. exists []. by rewrite app_nil_r.
  - unfold Connect.retry_check. destruct (_ && _); simpl.
    + apply moved_edit; [done..|]. intros c. apply kept_stamp.
    + apply Hsame; [done..|]. exists []. by rewrite app_nil_r.
  - apply moved_edit; [done..|]. intros c. etrans; [apply kept_failures|apply kept_stamp].
  - destruct d as [d|]; simpl; apply Hsame; try done; [by exists [Handler.NoteDirect (Handler.id (hd w)) d]|exists []; by rewrite app_nil_r].
  - apply Hsame; [done..|]. exists []. by rewrite app_nil_r.
Qed.
Lemma moved_cut {A} i started n (p : prog A) w : named_by_id i -> Handler.id (hd w) = i -> moved i w (cut started n p w).1.2.
Proof.
  intros Hn. revert n w. induction p as [x|X b k IH|X q k IH|X q k IH]; intros n w Hi; cbn [cut fst snd].
  - split; try done. exists []. by rewrite app_nil_r.
  - pose proof (moved_perform b (clock n) i w Hn Hi) as H. destruct (perform b (clock n) w) as [x w1].
    apply (moved_trans i w w1); [done|]. apply IH, H.
  - by apply IH.
  - pose proof (moved_waited i n w Hi) as H. destruct (_ <=? _); [done|].
    apply (moved_trans i w (waited n w)); [done|]. by apply IH.
Qed.

Definition plain (i : string) : Prop := named_by_id i /\ (Handler.parse_id he i false).1.1 = i.
Lemma init_world i w : let w' := Handler.initialize he i DEFAULT_CONN None false None None None w in
  files w' = files w /\ out w' = out w /\ Handler.id (hd w') = (Handler.parse_id he i false).1.1.
Proof.
  unfold Handler.initialize. destruct (Handler.parse_id he i false) as [[i' r] other]. cbn [fst].
  simpl. destruct other as [[[? ?] ?]|]; simpl; split_and!; try done; repeat case_match; done.
Qed.

(** What a round of checks does to the records and effects. *)
Record checked (ids : list string) (w w' : world) : Prop := {
  c_records j : still j -> exists_on j (files w') = exists_on j (files w)
    /\ (exists_on j (files w) = true -> kept (load j (files w)) (load j (files w')))
    /\ (~ In j ids -> load j (files w') = load j (files w));
  c_out : exists l, out w' = out w ++ l /\ forallb is_note l = true;
}.
Lemma checked_refl ids w : checked ids w w.
Proof. split; [done|]. exists []. by rewrite app_nil_r. Qed.
Lemma checked_trans ids ids' w1 w2 w3 : checked ids w1 w2 -> checked ids' w2 w3 -> checked (ids ++ ids') w1 w3.
Proof.
  intros [R1 (l1 & E1 & F1)] [R2 (l2 & E2 & F2)]. split.
  - intros j Hs. destruct (R1 j Hs) as (X1 & K1 & L1), (R2 j Hs) as (X2 & K2 & L2). split_and!.
    + by rewrite X2.
    + intros H. etrans; [by apply K1|]. apply K2. by rewrite X1.
    + intros H. rewrite in_app_iff in H. rewrite L2, L1 by tauto. done.
  - exists (l1 ++ l2). rewrite E2, E1, app_assoc. split; [done|]. by rewrite forallb_app, F1, F2.
Qed.
Lemma checked_waited n w : checked [] w (waited n w).
Proof.
  split; [|exists []; by rewrite app_nil_r]. intros j Hs. unfold waited, set_files. simpl.
  destruct (Hs n (files w)) as [-> ->]. done.
Qed.
Lemma checked_one i n w : plain i -> checked [i] w (probe_one i n w).1.2.
Proof.
  intros [Hn Hp]. unfold probe_one. destruct (init_world i (set_handler default_handler w)) as (E1 & E2 & E3).
  set (w0 := Handler.initialize _ _ _ _ _ _ _ _ _) in *. rewrite Hp in E3. clearbody w0.
  pose proof (moved_waited i n w0 E3) as M1. pose proof (moved_cut i (timer n) (S n)
    (start g i (get_key n) (Handler.access_token he) DEFAULT_CONN) (waited n w0) Hn E3) as M2.
  destruct (cut _ _ _ _) as [[r w1] m]. cbn [fst snd] in *. pose proof (moved_trans _ _ _ _ M1 M2) as [MI MO MR ME].
  cbn [set_handler files out] in *. rewrite E1 in MO, MR. rewrite E2 in ME. clear M1 M2.
  unfold peer_config_exists. split; [|destruct (exists_on i (files w)); exact ME].
  intros j Hs. destruct (decide (j = i)) as [->|Hj].
  - destruct (MO Hs) as [X K]. destruct (exists_on i (files w)) eqn:E.
    + split_and!; [by apply X|done|]. intros []. by left.
    + cbn [set_files files]. rewrite exists_remove by done. rewrite bool_decide_true by done. split_and!; [done..|]. intros []. by left.
  - destruct (MR j Hj Hs) as [X L]. destruct (exists_on i (files w)); cbn [set_files files].
    + rewrite X, L. done.
    + rewrite exists_remove by done. rewrite bool_decide_false by done. cbn [negb andb].
      rewrite load_remove by done. rewrite X, L. done.
Qed.
Lemma checked_rest ids n w : Forall plain ids -> checked ids w (probe_rest ids n w).1.2.
Proof.
  intros H. revert n w. induction H as [|i ids Hi H IH]; intros n w; simpl; [apply checked_refl|].
  pose proof (checked_one i (S n) (waited n w) Hi) as H1. destruct (probe_one i (S n) (waited n w)) as [[r w1] m].
  specialize (IH m w1). destruct (probe_rest ids m w1) as [[l w2] m2]. cbn [fst snd] in *.
  exact (checked_trans [] (i :: ids) _ _ _ (checked_waited n w) (checked_trans [i] ids _ _ _ H1 IH)).
Qed.

(** A round of checks leaves no trace of itself.  Whatever the connections
    are answered and however they end, cut off by the time included, and whatever
    the rest of the app does meanwhile to the records of other registers: no
    record appears, none disappears, and of a record nothing is changed but the
    marks of the connection, the passwords and settings in particular are what
    they were; the records of registers not checked are not touched; and no login
    is sent, so no card is shown at the register. *)
Theorem probe_leaves_records ids n w : Forall plain ids ->
  let w' := (probe_all ids n w).1.2 in
  (forall j, still j -> exists_on j (files w') = exists_on j (files w)
    /\ (exists_on j (files w) = true -> kept (load j (files w)) (load j (files w')))
    /\ (~ In j ids -> load j (files w') = load j (files w)))
  /\ exists l, out w' = out w ++ l /\ forallb is_note l = true.
Proof.
  intros H. cbv zeta. assert (checked ids w (probe_all ids n w).1.2) as [R O]; [|by split].
  destruct H as [|i ids Hi H]; simpl; [apply checked_refl|].
  pose proof (checked_one i n w Hi) as H1. destruct (probe_one i n w) as [[r w1] m].
  pose proof (checked_rest ids m w1 H) as H2. destruct (probe_rest ids m w1) as [[l w2] m2]. cbn [fst snd] in *.
  exact (checked_trans [i] ids _ _ _ H1 H2).
Qed.

(** ** The panel *)
Definition json_direct (d : option bool) : json := match d with Some b => JBool b | None => JNull end.
Definition to_json (l : list ProbeResult) : json :=
  JArr (map (λ r, JObj [("id", JStr (r_id r)); ("direct", json_direct (r_direct r)); ("ms", JNum (r_ms r)); ("error", JStr (r_error r))]%string) l).

Context {C : Type} `{!LocalConfig C} (a : World.world C Auth.auth Auth.event).
Context (http : nat -> string -> string -> option json -> string -> result string string).  (** url, method, body, token *)
Context (json_parse : string -> result json string) (runtime : result unit string).

Definition as_array (j : json) : option (list json) := match j with JArr l => Some l | _ => None end.
Definition as_u64 (j : json) : option Z := match j with JNum z => if 0 <=? z then Some z else None | _ => None end.
Definition get_str (k : string) (j : json) : option string := match jget k j with Some v => as_str v | None => None end.
Definition ok_or {T} (o : option T) (err : string) : result T string := match o with Some x => Ok x | None => Err err end.
Definition map_err {T} (f : string -> string) (r : result T string) : result T string := match r with Ok x => Ok x | Err x => Err (f x) end.

Definition remote_ids (l : list json) : list string :=
  List.filter (λ s, negb (is_empty s)) (map trim (omap (get_str "remoteId") l)).
Definition fetch_ids (n : nat) : result (list string) string * nat :=
  let token := Auth.get_token a in
  if is_empty token then (Err "로그인이 필요합니다"%string, n) else
  let raw := http n (Auth.api_base a +:+ "/api/customers") "GET" None (without_quotes token) in
  (let? raw := raw in
   let? outer := map_err (String.append "응답 파싱 실패: ") (json_parse raw) in
   let? inner := ok_or (get_str "body" outer) "응답에 body 없음" in
   let? doc := map_err (String.append "거래처 목록 파싱 실패: ") (json_parse inner) in
   let? arr := ok_or (match jget "customers" doc with Some c => as_array c | None => None end) "customers 배열 없음" in
   Ok (remote_ids arr), S n).

(** What is sent to the panel. *)
Definition upload_body (l : list ProbeResult) : json :=
  JObj [("results"%string, JArr (map (λ r, JObj [("remoteId", JStr (r_id r)); ("direct", json_direct (r_direct r)); ("ms", JNum (r_ms r))]%string) l))].
Definition upload (l : list ProbeResult) (n : nat) : result Z string * nat :=
  let token := Auth.get_token a in
  if is_empty token then (Err "로그인이 필요합니다"%string, n) else
  let raw := http n (Auth.api_base a +:+ "/api/customers/probe") "POST" (Some (upload_body l)) (without_quotes token) in
  (let? raw := raw in
   let? outer := map_err (String.append "응답 파싱 실패: ") (json_parse raw) in
   let inner := default EmptyString (get_str "body" outer) in
   let doc := match json_parse inner with Ok d => d | Err _ => JNull end in
   Ok (default 0 (match jget "updated" doc with Some v => as_u64 v | None => None end)), S n).

(** The line shown at the end. *)
Inductive summary := NoList (err : string) | NoShops | NoRuntime (err : string) | Done (direct relay failed : Z) (saved : option Z).
Definition run_once_blocking (n : nat) (w : world) : summary * list ProbeResult * world * nat :=
  let '(ids, n) := fetch_ids n in
  match ids with
  | Err err => (NoList err, [], w, n)
  | Ok [] => (NoShops, [], w, n)
  | Ok ids =>
      match runtime with
      | Err err => (NoRuntime err, [], w, n)
      | Ok _ =>
          let '(results, w, n) := probe_all ids n w in
          let direct := count (Some true) results in
          let relay := count (Some false) results in
          let failed := Z.of_nat (length results) - direct - relay in
          let '(saved, n) := upload results n in
          (Done direct relay failed (match saved with Ok z => Some z | Err _ => None end), results, w, n)
      end
  end.

(** ** The results *)
Lemma one_id i n w : r_id (probe_one i n w).1.1 = i
  /\ (r_direct (probe_one i n w).1.1 <> None -> r_error (probe_one i n w).1.1 = EmptyString).
Proof.
  unfold probe_one. destruct (cut _ _ _ _) as [[r w1] m]. cbn [fst snd]. by destruct r as [[x|err]|].
Qed.
Definition fair (l : list ProbeResult) : Prop := Forall (λ r, r_direct r <> None -> r_error r = EmptyString) l.
Lemma rest_ids ids n w : map r_id (probe_rest ids n w).1.1 = ids /\ fair (probe_rest ids n w).1.1.
Proof.
  revert n w. induction ids as [|i ids IH]; intros n w; simpl; [split; [done|constructor]|].
  destruct (one_id i (S n) (waited n w)) as [Hi He]. destruct (probe_one i (S n) (waited n w)) as [[r w1] m].
  destruct (IH m w1) as [H1 H2]. destruct (probe_rest ids m w1) as [[l w2] m2]. cbn [fst snd map] in *.
  split; [by rewrite Hi, H1|by constructor].
Qed.
Lemma all_ids ids n w : map r_id (probe_all ids n w).1.1 = ids /\ fair (probe_all ids n w).1.1.
Proof.
  destruct ids as [|i ids]; simpl; [split; [done|constructor]|].
  destruct (one_id i n w) as [Hi He]. destruct (probe_one i n w) as [[r w1] m].
  destruct (rest_ids ids m w1) as [H1 H2]. destruct (probe_rest ids m w1) as [[l w2] m2]. cbn [fst snd map] in *.
  split; [by rewrite Hi, H1|by constructor].
Qed.
Lemma count_split l : count (Some true) l + count (Some false) l + count None l = Z.of_nat (length l).
Proof.
  unfold count. induction l as [|r l IH]; [done|]. cbn [List.filter].
  destruct (r_direct r) as [[|]|];
    rewrite ?(bool_decide_true (Some true = Some true)), ?(bool_decide_true (Some false = Some false)), ?(bool_decide_true (@None bool = None)),
      ?(bool_decide_false (Some true = Some false)), ?(bool_decide_false (Some true = None)), ?(bool_decide_false (Some false = Some true)),
      ?(bool_decide_false (Some false = None)), ?(bool_decide_false (None = Some true)), ?(bool_decide_false (None = Some false)) by done;
    cbn [length]; lia.
Qed.

(** Every register the panel lists with a number gets its result.  When the
    list arrives, there is one result for each number in it, in its order, without the
    blanks around it, with an error only where there was no connection; the three counts shown add up to them; and what is
    sent to the panel are these results. *)
Theorem round_is_complete n w raw outer inner doc arr :
  let token := Auth.get_token a in
  is_empty token = false -> runtime = Ok tt ->
  http n (Auth.api_base a +:+ "/api/customers") "GET" None (without_quotes token) = Ok raw ->
  json_parse raw = Ok outer -> get_str "body" outer = Some inner -> json_parse inner = Ok doc ->
  jget "customers" doc = Some (JArr arr) -> remote_ids arr <> [] ->
  let '(s, results, w', m) := run_once_blocking n w in
  map r_id results = remote_ids arr
  /\ fair results
  /\ exists k, m = (upload results k).2
     /\ s = Done (count (Some true) results) (count (Some false) results) (count None results)
              (match (upload results k).1 with Ok z => Some z | Err _ => None end).
Proof.
  cbv zeta. intros Ht Hr H1 H2 H3 H4 H5 H6. unfold run_once_blocking, fetch_ids. cbv zeta. rewrite Ht, H1. simpl.
  rewrite H2. simpl. rewrite H3. simpl. rewrite H4. simpl. rewrite H5. simpl.
  destruct (remote_ids arr) as [|i ids] eqn:E; [done|]. rewrite Hr.
  pose proof (all_ids (i :: ids) (S n) w) as [HA HF]. destruct (probe_all (i :: ids) (S n) w) as [[l w'] k]. cbn [fst snd] in *.
  destruct (upload l k) as [saved m] eqn:Eu. split_and!; [done..|]. 
  exists k. rewrite Eu. split; [done|]. cbn [fst]. f_equal. pose proof (count_split l). lia.
Qed.
End probe.

(** ** Inputs *)
#[local] Existing Instance Handler.toy_store.
#[export] Program Instance toy_files : PeerFiles (ps := Handler.toy_store) := {
  named_by_id := λ _, True;
  exists_on := λ i (d : gmap string PeerConfig), bool_decide (is_Some (d !! i));
  remove := λ i (d : gmap string PeerConfig), delete i d;
}.
Next Obligation.
  intros i j c d _. simpl. case_bool_decide as H; case_bool_decide as E; subst; simpl; try done.
  - destruct H as [x H]. rewrite lookup_insert_ne in H by done. symmetry. apply bool_decide_true. by exists x.
  - destruct H. rewrite lookup_insert_eq. by eexists.
  - symmetry. apply bool_decide_false. intros Hs. apply H. by rewrite lookup_insert_ne.
Qed.
Next Obligation.
  intros i j d _. simpl. destruct (decide (i = j)) as [->|Hj].
  - rewrite lookup_delete_eq. rewrite (bool_decide_true (j = j)) by done. apply bool_decide_false. by intros [].
  - rewrite lookup_delete_ne by done. by rewrite (bool_decide_false (i = j)).
Qed.
Next Obligation. intros i j d H. simpl. by rewrite lookup_delete_ne. Qed.

Definition known : PeerConfig := Handler.set_password [x01] Handler.empty_config.
Definition office : world := mkWorld Handler.fresh (<["200" := known]> ∅ : gmap string PeerConfig) ∅ [].
Abbreviation probing := (probe_all (cr := Handshake.ToyCrypto) Handler.desk Connect.net Handler.empty_config
  (λ _, Connect.only_relay) (λ n, Z.of_nat n) (λ n, Z.of_nat n * 5) (λ _ d, d) (λ _, None) (λ _, EmptyString)).

Lemma probe_leaves_records_witness :
  let '(l, w', _) := probing ["100"; "200"]%string 0%nat office in
  map r_direct l = [Some false; Some false]
  /\ (files w' : gmap string PeerConfig) !! "100"%string = None
  /\ Handler.password (load "200" (files w')) = [x01].
Proof.
  destruct (probe_leaves_records (cr := Handshake.ToyCrypto) Handler.desk Connect.net Handler.empty_config
    (λ _, Connect.only_relay) (λ n, Z.of_nat n) (λ n, Z.of_nat n * 5) (λ _ d, d) (λ _, None) (λ _, EmptyString)
    ["100"; "200"]%string 0%nat office) as [H _].
  { repeat constructor. }
  destruct (H "100"%string) as [H1 _]; [done|]. destruct (H "200"%string) as (_ & [_ H2] & _); [done|vm_compute; reflexivity|].
  assert (map r_direct (probing ["100"; "200"]%string 0%nat office).1.1 = [Some false; Some false]) as Hd by (vm_compute; reflexivity).
  destruct (probing ["100"; "200"]%string 0%nat office) as [[l w'] m]. cbn [fst snd] in *. split_and!; [done| |].
  - destruct ((files w' : gmap string PeerConfig) !! "100"%string) eqn:E; [|done].
    assert (exists_on (PeerFiles := toy_files) "100" (files w') = true) as X by (simpl; rewrite E; reflexivity).
    rewrite H1 in X. discriminate.
  - apply (f_equal Handler.password) in H2. exact H2.
Defined.

(** A technician logged in, and a panel with three rows, one without a number. *)
Definition technician : World.world (gmap string string) Auth.auth Auth.event :=
  World.mkWorld ∅ (Auth.mkAuth "token" EmptyString 0 (Auth.mkFolders None ∅)) [].
Definition rows : list json :=
  [JObj [("remoteId", JStr " 100 ")]; JObj [("name", JStr "pending")]; JObj [("remoteId", JStr "200")]]%string.
Definition parse (s : string) : result json string :=
  if String.eqb s "list" then Ok (JObj [("body"%string, JStr "rows")])
  else if String.eqb s "rows" then Ok (JObj [("customers"%string, JArr rows)])
  else if String.eqb s "saved" then Ok (JObj [("body"%string, JStr "two")])
  else Ok (JObj [("updated"%string, JNum 2)]).
Definition panel (n : nat) (url method : string) (b : option json) (t : string) : result string string :=
  Ok (match b with None => "list" | Some _ => "saved" end)%string.
Abbreviation once := (run_once_blocking (cr := Handshake.ToyCrypto) Handler.desk Connect.net Handler.empty_config
  (λ _, Connect.only_relay) (λ n, Z.of_nat n) (λ n, Z.of_nat n * 5) (λ _ d, d) (λ _, None) (λ _, EmptyString)
  technician panel parse (Ok tt)).

Lemma round_is_complete_witness :
  let '(s, results, _, _) := once 0%nat office in
  s = Done 0 2 0 (Some 2) /\ map r_id results = ["100"; "200"]%string.
Proof.
  pose proof (round_is_complete (cr := Handshake.ToyCrypto) Handler.desk Connect.net Handler.empty_config
    (λ _, Connect.only_relay) (λ n, Z.of_nat n) (λ n, Z.of_nat n * 5) (λ _ d, d) (λ _, None) (λ _, EmptyString)
    technician panel parse (Ok tt) 0%nat office "list" (JObj [("body"%string, JStr "rows")]) "rows"
    (JObj [("customers"%string, JArr rows)]) rows eq_refl eq_refl eq_refl eq_refl eq_refl eq_refl eq_refl) as H.
  assert ((once 0%nat office).1.1.1 = Done 0 2 0 (Some 2)) as Hs by (vm_compute; reflexivity).
  destruct (once 0%nat office) as [[[s results] w'] m]. cbn [fst snd] in *.
  destruct H as [H _]; [discriminate|]. by split.
Defined.

(** A check that fails notes for the register that the connection is not direct,
    session or not. *)
Definition no_relay (X : Type) (q : query (cr := Handshake.ToyCrypto) X) : X :=
  match q in Connect.query T return T -> T with
  | Connect.NextRz _ _ => λ _, Connect.RzMsg (Connect.RzPunch (Connect.mkPunched "1.2.3.4:5" EmptyString Connect.OtherFailure Connect.ASYMMETRIC
      false [] "relay" 0 false EmptyString))
  | Connect.SendRelay _ _ => λ _, Err "refused"%string
  | _ => λ x, x
  end (Connect.only_relay X q).
Example failed_check_is_noted :
  let '(r, w', _) := probe_one (cr := Handshake.ToyCrypto) Handler.desk Connect.net Handler.empty_config
    (λ _, no_relay) (λ n, Z.of_nat n) (λ n, Z.of_nat n * 5) (λ _ d, d) (λ _, None) (λ _, EmptyString) "100" 0%nat office in
  r_direct r = None /\ last (out w') = Some (Handler.NoteDirect "100" false).
Proof. vm_compute. done. Qed.
(** A check of a register that is on record writes the marks into it. *)
Example record_is_marked :
  let '(r, w', _) := probe_one (cr := Handshake.ToyCrypto) Handler.desk Connect.net Handler.empty_config
    (λ n X q, match q in Connect.query T return T -> T with
              | Connect.NextRz _ _ => λ x, if (14 <? n)%nat then x else
                  Connect.RzMsg (Connect.RzPunch (Connect.mkPunched "1.2.3.4:5" EmptyString Connect.OtherFailure
                    Connect.ASYMMETRIC false [] "relay" 0 false EmptyString))
              | Connect.NewDirectUdp _ => λ _, false
              | _ => λ x, x
              end (Connect.only_relay X q))
    (λ n, Z.of_nat n) (λ n, Z.of_nat n * 5) (λ _ d, d) (λ _, None) (λ _, EmptyString) "200" 0%nat office in
  r_direct r = Some false /\ direct_failures (load "200" (files w')) = 1.
Proof. vm_compute. done. Qed.
(** A session with the register that begins during the check stores its record;
    the check removes it. *)
Example session_record_removed :
  let joined := λ (n : nat) (d : gmap string PeerConfig), if Nat.eqb n 3 then <["100"%string := known]> d else d in
  let '(r, w', _) := probe_one (cr := Handshake.ToyCrypto) Handler.desk Connect.net Handler.empty_config
    (λ _, Connect.only_relay) (λ n, Z.of_nat n) (λ n, Z.of_nat n * 5) joined (λ _, None) (λ _, EmptyString) "100" 0%nat office in
  (files w' : gmap string PeerConfig) !! "100"%string = None.
Proof. vm_compute. done. Qed.
End Probe.
