(* ===== verification/Video.v ===== *)
(** * Frames at the technician's side ([src/src/client/io_loop.rs], [src/src/client.rs])

    The loop of a session puts the frames of each display into a queue and a
    channel; a thread per display takes them, decodes and shows them.  Key frames
    travel in the channel, the others in a bounded queue with a token in the
    channel for each.  The loop watches the queues, asks the register for fewer or
    more frames per second and for a fresh picture, and tells the threads to record.

    A step is one turn of the loop or one message taken by a thread; a run is any
    sequence of them.  The bounded queue is [crossbeam]'s, given by its documented
    laws; the decoders answer from outside. *)

From S2P Require Import Prelude RustStr Store Handler.
#[local] Open Scope Z_scope.

Module Video.
Import Handler(handler, record_state, record_permission, custom_fps, set_record_state, set_record_permission, version).

(** ** Frames *)
Inductive CodecFormat := VP8 | VP9 | AV1 | H264 | H265 | Unknown.
#[export] Instance CodecFormat_eq_dec : EqDecision CodecFormat.
Proof. solve_decision. Defined.
Record EncodedVideoFrame := mkEncoded { data : Z; key : bool }.
Inductive frame_union := Vp8s (f : list EncodedVideoFrame) | Vp9s (f : list EncodedVideoFrame) | Av1s (f : list EncodedVideoFrame)
  | H264s (f : list EncodedVideoFrame) | H265s (f : list EncodedVideoFrame) | Rgb | Yuv.
Record VideoFrame := mkFrame { union : option frame_union; display : Z }.
(** [CodecFormat::from] *)
Definition format_of (vf : VideoFrame) : CodecFormat :=
  match union vf with
  | Some (Vp8s _) => VP8 | Some (Vp9s _) => VP9 | Some (Av1s _) => AV1 | Some (H264s _) => H264 | Some (H265s _) => H265
  | _ => Unknown
  end.
Definition contains_key_frame (vf : VideoFrame) : bool :=
  match union vf with
  | Some (Vp8s f) | Some (Vp9s f) | Some (Av1s f) | Some (H264s f) | Some (H265s f) => existsb key f
  | _ => false
  end.
(** [vf.display as usize] *)
Definition as_usize (d : Z) : Z := Int.wrap 64 d.
Definition VIDEO_QUEUE_SIZE : nat := 120.
Definition MAX_DECODE_FAIL_COUNTER : Z := 3.

(** A bounded queue: pushing into a full one takes its oldest element out. *)
Class ArrayQueue := {
  queue : Type;
  elements : queue -> list VideoFrame;
  capacity : queue -> nat;
  new_queue : nat -> queue;
  force_push : VideoFrame -> queue -> option VideoFrame * queue;
  pop : queue -> option VideoFrame * queue;
  new_spec n : elements (new_queue n) = [] /\ capacity (new_queue n) = n;
  push_spec f q : capacity (force_push f q).2 = capacity q
    /\ (if (length (elements q) <? capacity q)%nat
        then (force_push f q).1 = None /\ elements (force_push f q).2 = elements q ++ [f]
        else (force_push f q).1 = head (elements q) /\ elements (force_push f q).2 = tail (elements q) ++ [f]);
  pop_spec q : capacity (pop q).2 = capacity q /\ (pop q).1 = head (elements q) /\ elements (pop q).2 = tail (elements q);
}.

(** ** State *)
Inductive MediaData := VideoQueue | KeyFrame (vf : VideoFrame) | AudioFrame | AudioFormat | Reset | RecordScreen (start : bool).
Inductive Chroma := I420 | I444.
#[export] Instance Chroma_eq_dec : EqDecision Chroma.
Proof. solve_decision. Defined.
Record FpsControl := mkCtl { refresh_times : Z; last_refresh_instant : option Z; idle_counter : Z; inactive_counter : Z }.
Record VideoHandler := mkVh { d_format : CodecFormat; record : bool; fail_counter : Z; vh_first_frame : bool }.
(** What the thread keeps for itself: its decoder and the measuring of its speed
    (nanoseconds). *)
Record thread_state := mkTs { video_handler : option VideoHandler; count : Z; duration : Z; skip_beginning : Z; last_chroma : option Chroma }.

(** Messages the loop sends to itself, for the register. *)
Inductive message := RefreshVideo | RefreshVideoDisplay (d : Z) | CustomFps (fps : Z) | ClientRecordStatus (start : bool)
  | SupportedDecodings (without : list CodecFormat).
Inductive effect :=
  | Took (k : Z) (fed : bool) (vf : VideoFrame)    (** taken by thread [k], and whether the decoder got it *)
  | Dropped (k : Z) (vf : VideoFrame)              (** pushed out of a full queue *)
  | Shown (k : Z) (pixelbuffer : bool)
  | UpdateRecordStatus (start : bool)
  | Sent (m : message).

(** A decoding: whether the decoder is usable, the result, what it set, the
    nanoseconds it took. *)
Record decoding := mkDecoding { a_valid : bool; a_result : result bool string; a_pixelbuffer : bool; a_chroma : option Chroma; a_elapsed : Z }.

Section video.
Context {aq : ArrayQueue} (multi_ui : Z -> bool) (auto_record : bool).

Record VideoThread := mkThread {
  video_queue : queue; channel : list MediaData; decode_fps : option Z; frame_count : Z;
  fps_control_ : FpsControl; discard_queue : bool; ts : thread_state;
}.
Definition set_queue q t := mkThread q (channel t) (decode_fps t) (frame_count t) (fps_control_ t) (discard_queue t) (ts t).
Definition set_channel c t := mkThread (video_queue t) c (decode_fps t) (frame_count t) (fps_control_ t) (discard_queue t) (ts t).
Definition set_decode_fps x t := mkThread (video_queue t) (channel t) x (frame_count t) (fps_control_ t) (discard_queue t) (ts t).
Definition set_frame_count x t := mkThread (video_queue t) (channel t) (decode_fps t) x (fps_control_ t) (discard_queue t) (ts t).
Definition set_ctl x t := mkThread (video_queue t) (channel t) (decode_fps t) (frame_count t) x (discard_queue t) (ts t).
Definition set_discard x t := mkThread (video_queue t) (channel t) (decode_fps t) (frame_count t) (fps_control_ t) x (ts t).
Definition set_ts x t := mkThread (video_queue t) (channel t) (decode_fps t) (frame_count t) (fps_control_ t) (discard_queue t) x.
Definition send (m : MediaData) (t : VideoThread) : VideoThread := set_channel (channel t ++ [m]) t.

Record world := mkWorld {
  lc : handler; last_auto_fps : option Z; mark_unsupported : list CodecFormat;
  video_format : CodecFormat; chroma : option Chroma; threads : gmap Z VideoThread; last_record_state : bool;
  to_self : list message; out : list effect;
}.
Definition set_lc x w := mkWorld x (last_auto_fps w) (mark_unsupported w) (video_format w) (chroma w) (threads w) (last_record_state w) (to_self w) (out w).
Definition set_auto_fps x w := mkWorld (lc w) x (mark_unsupported w) (video_format w) (chroma w) (threads w) (last_record_state w) (to_self w) (out w).
Definition set_unsupported x w := mkWorld (lc w) (last_auto_fps w) x (video_format w) (chroma w) (threads w) (last_record_state w) (to_self w) (out w).
Definition set_format x w := mkWorld (lc w) (last_auto_fps w) (mark_unsupported w) x (chroma w) (threads w) (last_record_state w) (to_self w) (out w).
Definition set_chroma x w := mkWorld (lc w) (last_auto_fps w) (mark_unsupported w) (video_format w) x (threads w) (last_record_state w) (to_self w) (out w).
Definition set_threads x w := mkWorld (lc w) (last_auto_fps w) (mark_unsupported w) (video_format w) (chroma w) x (last_record_state w) (to_self w) (out w).
Definition set_last_record x w := mkWorld (lc w) (last_auto_fps w) (mark_unsupported w) (video_format w) (chroma w) (threads w) x (to_self w) (out w).
Definition set_to_self x w := mkWorld (lc w) (last_auto_fps w) (mark_unsupported w) (video_format w) (chroma w) (threads w) (last_record_state w) x (out w).
Definition emit x w := mkWorld (lc w) (last_auto_fps w) (mark_unsupported w) (video_format w) (chroma w) (threads w) (last_record_state w) (to_self w) (out w ++ [x]).
Definition tell_self m w := set_to_self (to_self w ++ [m]) w.
Definition on_thread k f w := set_threads (alter f k (threads w)) w.

(** ** The loop's side *)
Definition refresh_video (d : Z) (w : world) : world :=
  tell_self (if multi_ui (version (lc w)) then RefreshVideoDisplay d else RefreshVideo) w.

Definition update_record_state (w : world) : world :=
  let permission := record_permission (lc w) in
  let w := if negb permission then set_lc (set_record_state false (lc w)) w else w in
  let start := record_state (lc w) && permission in
  if Bool.eqb (last_record_state w) start then w
  else
    let w := set_last_record start w in
    let w := set_threads (send (RecordScreen start) <$> threads w) w in
    tell_self (ClientRecordStatus start) (emit (UpdateRecordStatus start) w).

Definition new_thread : VideoThread :=
  mkThread (new_queue VIDEO_QUEUE_SIZE) [] None 0 (mkCtl 0 None 0 0) false (mkTs None 0 0 0 None).
Definition new_video_thread (k : Z) (w : world) : world :=
  let w := set_threads (<[k := new_thread]> (threads w)) w in
  if Nat.eqb (size (threads w)) 1 then
    update_record_state (set_lc (set_record_state auto_record (lc w)) w)
  else w.

(** A frame from the register. *)
Definition on_video_frame (vf : VideoFrame) (w : world) : world :=
  let w := set_format (format_of vf) w in
  let k := as_usize (display vf) in
  let w := match threads w !! k with Some _ => w | None => new_video_thread k w end in
  match threads w !! k with
  | None => w
  | Some t =>
      if contains_key_frame vf then on_thread k (send (KeyFrame vf)) w
      else
        let '(old, q) := force_push vf (video_queue t) in
        match old with
        | Some vf' => refresh_video (Int.to_signed 32 k) (emit (Dropped k vf') (on_thread k (set_queue q) w))
        | None => on_thread k (λ t, send VideoQueue (set_queue q t)) w
        end
  end.

(** A message for the register passes: a refresh empties the queues first. *)
Definition on_message (m : message) (w : world) : world :=
  let w := match m with
           | RefreshVideo => set_threads (set_discard true <$> threads w) w
           | RefreshVideoDisplay d => on_thread (as_usize d) (set_discard true) w
           | _ => w
           end in
  emit (Sent m) w.
Definition on_own_message (w : world) : world :=
  match to_self w with [] => w | m :: l => on_message m (set_to_self l w) end.
Definition reset_decoder (d : option Z) (w : world) : world :=
  match d with
  | Some d => on_thread d (send Reset) w
  | None => set_threads (send Reset <$> threads w) w
  end.
Definition record_screen (start : bool) (w : world) : world :=
  update_record_state (set_lc (set_record_state start (lc w)) w).
Definition recording_permission (enabled : bool) (w : world) : world :=
  update_record_state (set_lc (set_record_permission enabled (lc w)) w).

(** *** Frames per second *)
Definition inactive_threshold : Z := 15.
Definition count_idle (real_fps : option Z) (t : VideoThread) : VideoThread :=
  let c := fps_control_ t in
  set_ctl (mkCtl (refresh_times c) (last_refresh_instant c) (idle_counter c)
             (if default 0 real_fps =? 0 then Int.wrap 64 (inactive_counter c + 1) else 0)) t.
Definition len (t : VideoThread) : Z := Z.of_nat (length (elements (video_queue t))).
(** [min] of optional values, an absent one being the smallest. *)
Definition min_opt (a b : option Z) : option Z := match a, b with Some a, Some b => Some (Z.min a b) | _, _ => None end.
Fixpoint minimum (l : list (option Z)) : option Z :=
  match l with [] => None | [a] => a | a :: l => min_opt a (minimum l) end.
Definition trending (limited custom : Z) (last : option Z) (t : VideoThread) : option bool * VideoThread :=
  let c := fps_control_ t in
  let idle z := set_ctl (mkCtl (refresh_times c) (last_refresh_instant c) z (inactive_counter c)) t in
  match decode_fps t with
  | None => (None, t)
  | Some decode_fps =>
      let last := default custom last in
      if inactive_threshold <? inactive_counter c then (None, t)
      else if (1 <? len t) && (limited <? last) || (Z.max 1 (decode_fps / 2) <? len t) then (Some false, idle 0)
      else if len t <=? 1 then
        let i := Int.wrap 64 (idle_counter c + 1) in
        ((if (3 <? i) && (last + 3 <=? limited) then Some true else None), idle i)
      else (None, idle 0)
  end.
Definition needs_refresh (now min_decode_fps : Z) (t : VideoThread) : bool :=
  let c := fps_control_ t in
  let tolerable := Z.min min_decode_fps (Z.of_nat (capacity (video_queue t) / 2)) in
  (refresh_times c <? 20) && (tolerable <? len t)
  && ((refresh_times c =? 0) || match last_refresh_instant c with Some t => 10 <? (now - t) / 1000 | None => false end).
Definition note_refresh (now : Z) (t : VideoThread) : VideoThread :=
  let c := fps_control_ t in set_ctl (mkCtl (refresh_times c + 1) (Some now) (idle_counter c) (inactive_counter c)) t.

Definition limit_custom (custom : option Z) : Z :=
  let c := default 30 custom in if (c <? 5) || (120 <? c) then 30 else c.
Definition refresh_all (now min_decode_fps : Z) (w : world) : world :=
  foldl (λ w kt,
    if needs_refresh now min_decode_fps kt.2
    then on_thread kt.1 (note_refresh now) (refresh_video (Int.to_signed 32 kt.1) w) else w) w (map_to_list (threads w)).
Definition fps_control (direct : bool) (real_fps : gmap Z Z) (now : Z) (w : world) : world :=
  let w := set_threads (map_imap (λ k t, Some (count_idle (real_fps !! k) t)) (threads w)) w in
  let custom := limit_custom (custom_fps (lc w)) in
  let ts := map snd (map_to_list (threads w)) in
  let max_queue_len := foldr Z.max 0 (map len ts) in
  let active := List.filter (λ t, inactive_counter (fps_control_ t) <? inactive_threshold) ts in
  match minimum (map decode_fps active) with
  | None => w
  | Some min_decode_fps =>
      let limited := if direct then min_decode_fps * 9 / 10 else min_decode_fps * 4 / 5 in
      let limited := if custom <? limited then custom else limited in
      let last := last_auto_fps w in
      let trends := trending limited custom last <$> threads w in
      let w := set_threads (snd <$> trends) w in
      let said b := existsb (λ kx, bool_decide (kx.2.1 = Some b)) (map_to_list trends) in
      let should_decrease := said false in
      let should_increase := negb should_decrease && said true in
      let w :=
        if bool_decide (last = None) || should_decrease || should_increase then
          let auto := if should_decrease && (limited <? max_queue_len) then limited / 2 else limited in
          let auto := if auto <? 1 then 1 else auto in
          if bool_decide (Some auto = last) then w
          else set_auto_fps (Some auto) (tell_self (CustomFps auto) w)
        else w in
      refresh_all now min_decode_fps w
  end.
(** The clock of the status; [elapsed] in milliseconds, at least a second. *)
Definition real_fps (elapsed : Z) (t : VideoThread) : Z :=
  Z.quot (Int.to_signed 32 (frame_count t * 1000)) (Int.to_signed 32 elapsed).
Definition status_tick (direct : bool) (elapsed now : Z) (w : world) : world :=
  if elapsed <? 1000 then w
  else
    let fps := real_fps elapsed <$> threads w in
    fps_control direct fps now (set_threads (set_frame_count 0 <$> threads w) w).

(** ** The threads' side *)
Definition fps_calculate (format_changed : bool) (elapsed : Z) (t : VideoThread) : VideoThread :=
  let s := ts t in
  let s := if format_changed then mkTs (video_handler s) 0 0 0 (last_chroma s) else s in
  if skip_beginning s <? 3 then set_ts (mkTs (video_handler s) (count s) (duration s) (skip_beginning s + 1) (last_chroma s)) t
  else
    let d := duration s + elapsed in
    let c := count s + 1 in
    let ms := d / 1000000 in
    let t := if (c mod 10 =? 0) && (0 <? ms) then set_decode_fps (Some (c * 1000 / ms)) t else t in
    let '(c, d) := if 30 <=? c then (0, 0) else (c, d) in
    set_ts (mkTs (video_handler s) c d (skip_beginning s) (last_chroma s)) t.

Definition reset (format : option CodecFormat) (h : VideoHandler) : VideoHandler :=
  mkVh (default (d_format h) format) (record h) 0 true.
(** [handle_frame]: [None] is a frame without content. *)
Definition handle_frame (vf : VideoFrame) (a : decoding) (h : VideoHandler) : result bool string * VideoHandler :=
  let h := if bool_decide (format_of vf = d_format h) then h else reset (Some (format_of vf)) h in
  match union vf with
  | None => (Ok false, h)
  | Some _ =>
      let fails :=
        match a_result a with
        | Ok true => 0
        | _ => if fail_counter h <? Int.u64_max then
                 (if vh_first_frame h && (fail_counter h <? MAX_DECODE_FAIL_COUNTER) then MAX_DECODE_FAIL_COUNTER else fail_counter h + 1)
               else fail_counter h
        end in
      (a_result a, mkVh (d_format h) (record h) fails false)
  end.

(** A frame reaches the decoder of thread [k]. *)
Definition decode (k : Z) (vf : VideoFrame) (a : decoding) (t : VideoThread) (w : world) : world :=
  let s := ts t in
  let h := match video_handler s with
           | Some h => h
           | None => mkVh (format_of vf) (record_state (lc w) && record_permission (lc w)) 0 true
           end in
  let format_changed := negb (bool_decide (d_format h = format_of vf)) in
  let '(res, h) := handle_frame vf a h in
  let with_handler lch t := set_ts (mkTs (Some h) (count (ts t)) (duration (ts t)) (skip_beginning (ts t)) lch) t in
  let w := emit (Took k true vf) w in
  let w :=
    match res with
    | Ok true =>
        let new_chroma := match a_chroma a with Some c => negb (bool_decide (last_chroma s = Some c)) | None => false end in
        let t := set_frame_count (frame_count t + 1) t in
        let t := fps_calculate format_changed (a_elapsed a) (with_handler (if new_chroma then a_chroma a else last_chroma s) t) in
        let w := emit (Shown (as_usize (display vf)) (a_pixelbuffer a)) w in
        let w := if new_chroma then set_chroma (a_chroma a) w else w in
        set_threads (<[k := t]> (threads w)) w
    | Err _ => refresh_video (Int.to_signed 32 (as_usize (display vf))) (set_threads (<[k := with_handler (last_chroma s) t]> (threads w)) w)
    | Ok false => set_threads (<[k := with_handler (last_chroma s) t]> (threads w)) w
    end in
  if negb (a_valid a) || (MAX_DECODE_FAIL_COUNTER <=? fail_counter h) then
    if bool_decide (d_format h ∈ mark_unsupported w) then w
    else
      let w := set_unsupported (mark_unsupported w ++ [d_format h]) w in
      tell_self (SupportedDecodings (mark_unsupported w)) w
  else w.

Definition on_handler (f : VideoHandler -> VideoHandler) (t : VideoThread) : VideoThread :=
  let s := ts t in set_ts (mkTs (f <$> video_handler s) (count s) (duration s) (skip_beginning s) (last_chroma s)) t.
(** Thread [k] takes a message. *)
Definition take (k : Z) (a : decoding) (w : world) : world :=
  match threads w !! k with
  | None => w
  | Some t =>
      match channel t with
      | [] => w
      | m :: c =>
          let t := set_channel c t in
          let w := set_threads (<[k := t]> (threads w)) w in
          match m with
          | KeyFrame vf => decode k vf a (set_discard false t) w
          | VideoQueue =>
              let '(vf, q) := pop (video_queue t) in
              let t := set_queue q t in
              let w := set_threads (<[k := t]> (threads w)) w in
              match vf with
              | None => w
              | Some vf => if discard_queue t then emit (Took k false vf) w else decode k vf a t w
              end
          | Reset => on_thread k (on_handler (reset None)) w
          | RecordScreen start => on_thread k (on_handler (λ h, mkVh (d_format h) start (fail_counter h) (vh_first_frame h))) w
          | AudioFrame | AudioFormat => w
          end
      end
  end.

(** ** Runs *)
Inductive event :=
  | Frame (vf : VideoFrame) | Take (k : Z) (a : decoding) | Own | Ui (m : message)
  | Tick (direct : bool) (elapsed now : Z) | ResetDecoder (d : option Z) | Record (start : bool) | Permission (enabled : bool).
Definition step (w : world) (ev : event) : world :=
  match ev with
  | Frame vf => on_video_frame vf w
  | Take k a => take k a w
  | Own => on_own_message w
  | Ui m => on_message m w
  | Tick direct elapsed now => status_tick direct elapsed now w
  | ResetDecoder d => reset_decoder d w
  | Record start => record_screen start w
  | Permission enabled => recording_permission enabled w
  end.
Definition run (l : list event) (w : world) : world := foldl step w l.

(** ** The frames of a display *)

(** What thread [k] took, with whether it was decoded; whether its queue has run
    over; what has arrived for it. *)
Definition taken (k : Z) (o : list effect) : list (bool * VideoFrame) :=
  omap (λ x, match x with Took j fed vf => if j =? k then Some (fed, vf) else None | _ => None end) o.
Definition overrun (k : Z) (o : list effect) : bool := existsb (λ x, match x with Dropped j _ => j =? k | _ => false end) o.
Definition arrived (k : Z) (l : list event) : list VideoFrame :=
  omap (λ ev, match ev with Frame vf => if as_usize (display vf) =? k then Some vf else None | _ => None end) l.
(** The frames a thread has still to take, in its order: a token stands for the
    next frame of the queue. *)
Fixpoint pending (c : list MediaData) (q : list VideoFrame) : list VideoFrame :=
  match c with
  | [] => []
  | KeyFrame vf :: c => vf :: pending c q
  | VideoQueue :: c => match q with [] => pending c [] | vf :: q => vf :: pending c q end
  | _ :: c => pending c q
  end.
Definition is_frame (m : MediaData) : bool := match m with VideoQueue | KeyFrame _ => true | _ => false end.
Definition is_token (m : MediaData) : bool := match m with VideoQueue => true | _ => false end.
Definition tokens (c : list MediaData) : nat := length (List.filter is_token c).
(** After a frame that was left out only a key frame is decoded. *)
Fixpoint gapless (l : list (bool * VideoFrame)) : bool :=
  match l with
  | (false, _) :: (((true, vf) :: _) as l) => contains_key_frame vf && gapless l
  | _ :: l => gapless l
  | [] => true
  end.
Definition keys_are_keys (c : list MediaData) : Prop :=
  Forall (λ m, match m with KeyFrame vf => contains_key_frame vf = true | _ => True end) c.

Lemma tokens_app c c' : tokens (c ++ c') = (tokens c + tokens c')%nat.
Proof. unfold tokens. by rewrite List.filter_app, length_app. Qed.
Lemma tokens_cons m c : tokens (m :: c) = ((if is_token m then 1 else 0) + tokens c)%nat.
Proof. unfold tokens. simpl. by destruct (is_token m). Qed.
Lemma no_frames_tokens e : existsb is_frame e = false -> tokens e = 0%nat.
Proof.
  induction e as [|m e IH]; [done|]. simpl. rewrite tokens_cons. destruct m; simpl; try done; apply IH.
Qed.
Lemma pending_quiet c e q : existsb is_frame e = false -> pending (c ++ e) q = pending c q.
Proof.
  intros He. revert q. induction c as [|m c IH]; intros q; simpl.
  - induction e as [|m e IHe]; [done|]. simpl in *. destruct m; try done; auto.
  - destruct m; [destruct q|..]; by rewrite IH.
Qed.
Lemma pending_key c vf q : tokens c = length q -> pending (c ++ [KeyFrame vf]) q = pending c q ++ [vf].
Proof.
  revert q. induction c as [|m c IH]; intros q Hq; [done|]. rewrite tokens_cons in Hq.
  destruct m; simpl in *; rewrite ?IH by done; try done.
  destruct q as [|f q]; [done|]. simpl in *. rewrite IH by lia. done.
Qed.
Lemma pending_token c vf q : tokens c = length q -> pending (c ++ [VideoQueue]) (q ++ [vf]) = pending c q ++ [vf].
Proof.
  revert q. induction c as [|m c IH]; intros q Hq.
  - destruct q; [done|]. done.
  - rewrite tokens_cons in Hq. destruct m; simpl in *; rewrite ?IH by done; try done.
    destruct q as [|f q]; [done|]. simpl in *. rewrite IH by lia. done.
Qed.
Lemma gapless_snoc l x : gapless (l ++ [x]) =
  gapless l && match last l with Some (false, _) => negb x.1 || contains_key_frame x.2 | _ => true end.
Proof.
  induction l as [|[b f] l IH]; [by destruct x as [[|] ?]|].
  destruct l as [|[b' f'] l].
  - simpl. destruct b, x as [[|] ?]; simpl; rewrite ?andb_true_r; done.
  - change (((b, f) :: (b', f') :: l) ++ [x]) with ((b, f) :: ((b', f') :: l) ++ [x]).
    change (last ((b, f) :: (b', f') :: l)) with (last ((b', f') :: l)).
    destruct b; [exact IH|]. destruct b'; [|exact IH].
    change (gapless ((false, f) :: ((true, f') :: l) ++ [x])) with (contains_key_frame f' && gapless (((true, f') :: l) ++ [x])).
    rewrite IH. simpl. by rewrite andb_assoc.
Qed.

Record well (t : VideoThread) : Prop := {
  w_tokens : tokens (channel t) = length (elements (video_queue t));
  w_capacity : capacity (video_queue t) = VIDEO_QUEUE_SIZE;
  w_bound : (length (elements (video_queue t)) <= VIDEO_QUEUE_SIZE)%nat;
  w_keys : keys_are_keys (channel t);
}.
(** Thread [k] after the frames [a]. *)
Definition holds (k : Z) (a : list VideoFrame) (w : world) : Prop :=
  match threads w !! k with
  | None => a = [] /\ taken k (out w) = []
  | Some t =>
      well t
      /\ (overrun k (out w) = false -> map snd (taken k (out w)) ++ pending (channel t) (elements (video_queue t)) = a)
      /\ gapless (taken k (out w)) = true
      /\ (match last (taken k (out w)) with Some (false, _) => discard_queue t = true | _ => True end)
  end.

(** *** Steps that leave the frames of a thread alone *)
Definition calm (t t' : VideoThread) : Prop :=
  video_queue t' = video_queue t /\ (exists e, channel t' = channel t ++ e /\ existsb is_frame e = false)
  /\ (discard_queue t = true -> discard_queue t' = true).
Definition untouched (t : VideoThread) : Prop :=
  elements (video_queue t) = [] /\ capacity (video_queue t) = VIDEO_QUEUE_SIZE /\ existsb is_frame (channel t) = false.
Definition about_frames (k : Z) (x : effect) : bool :=
  match x with Took j _ _ | Dropped j _ => j =? k | _ => false end.
Definition quiet (k : Z) (w w' : world) : Prop :=
  (exists o, out w' = out w ++ o /\ existsb (about_frames k) o = false)
  /\ match threads w !! k, threads w' !! k with
     | Some t, Some t' => calm t t' | None, None => True | None, Some t' => untouched t' | Some _, None => False
     end.
Lemma calm_self t : calm t t.
Proof. split_and!; [done| |done]. exists []. by rewrite app_nil_r. Qed.
Lemma calm_chain t1 t2 t3 : calm t1 t2 -> calm t2 t3 -> calm t1 t3.
Proof.
  intros (Q1 & (e1 & C1 & F1) & D1) (Q2 & (e2 & C2 & F2) & D2). split_and!; [by rewrite Q2| |auto].
  exists (e1 ++ e2). rewrite C2, C1, <- app_assoc. split; [done|]. by rewrite existsb_app, F1, F2.
Qed.
Lemma calm_untouched t t' : untouched t -> calm t t' -> untouched t'.
Proof.
  unfold untouched. intros (E & C & F) (Q & (e & Ec & Fe) & _). rewrite Q, Ec, existsb_app, F, Fe. done.
Qed.
Lemma untouched_well t : untouched t -> well t /\ pending (channel t) (elements (video_queue t)) = [].
Proof.
  intros (E & C & F). split.
  - split; rewrite ?E; simpl; [by apply no_frames_tokens|done|lia|].
    unfold keys_are_keys. induction (channel t) as [|m c IH]; constructor; simpl in F; destruct m; try done; auto.
  - rewrite E. exact (pending_quiet [] (channel t) [] F).
Qed.
Lemma calm_well t t' : well t -> calm t t' ->
  well t' /\ pending (channel t') (elements (video_queue t')) = pending (channel t) (elements (video_queue t)).
Proof.
  intros [T C B K] (Q & (e & Ec & F) & _). rewrite Ec, Q. split; [|by apply pending_quiet]. split; rewrite ?Q, ?Ec.
  - rewrite tokens_app, (no_frames_tokens e F). lia.
  - done.
  - done.
  - apply Forall_app. split; [done|]. clear Ec. induction e as [|m e IH]; constructor; simpl in F; destruct m; try done; auto.
Qed.
Lemma taken_app k o o' : taken k (o ++ o') = taken k o ++ taken k o'.
Proof. unfold taken. by rewrite omap_app. Qed.
Lemma overrun_app k o o' : overrun k (o ++ o') = overrun k o || overrun k o'.
Proof. apply existsb_app. Qed.
Lemma quiet_effects k o : existsb (about_frames k) o = false -> taken k o = [] /\ overrun k o = false.
Proof.
  induction o as [|x o IH]; [done|]. cbn [existsb]. intros H. apply orb_false_iff in H as [Hx Ho]. destruct (IH Ho) as [H1 H2].
  unfold taken, overrun in *. simpl. destruct x; cbn [about_frames] in Hx; rewrite ?Hx; simpl; auto.
Qed.
Lemma quiet_self k w : quiet k w w.
Proof. split; [exists []; by rewrite app_nil_r|]. destruct (threads w !! k); [apply calm_self|done]. Qed.
Lemma frames_chain k w1 w2 w3 : quiet k w1 w2 -> quiet k w2 w3 -> quiet k w1 w3.
Proof.
  intros [(o1 & E1 & F1) H1] [(o2 & E2 & F2) H2]. split.
  - exists (o1 ++ o2). rewrite E2, E1, app_assoc. split; [done|]. by rewrite existsb_app, F1, F2.
  - destruct (threads w1 !! k), (threads w2 !! k), (threads w3 !! k); try done.
    + by eapply calm_chain.
    + by eapply calm_untouched.
Qed.
#[local] Instance quiet_preorder k : PreOrder (quiet k).
Proof. split; [exact (quiet_self k)|exact (frames_chain k)]. Qed.
Lemma quiet_holds k a w w' : quiet k w w' -> holds k a w -> holds k a w'.
Proof.
  intros [(o & Eo & Fo) H]. unfold holds. destruct (quiet_effects k o Fo) as [T O]. rewrite Eo, taken_app, T, app_nil_r, overrun_app, O, orb_false_r.
  destruct (threads w !! k) as [t|], (threads w' !! k) as [t'|]; try done.
  - intros (W & P & G & D). destruct (calm_well t t' W H) as [W' ->]. split_and!; try done.
    destruct (last _) as [[[|] ?]|]; try done. by apply H.
  - intros [-> E]. rewrite E. destruct (untouched_well t' H) as [W ->]. done.
Qed.
Lemma quiet_same k w w' : threads w' = threads w -> out w' = out w -> quiet k w w'.
Proof. intros E1 E2. unfold quiet. rewrite E1, E2. apply quiet_self. Qed.
Lemma quiet_emit k x w : about_frames k x = false -> quiet k w (emit x w).
Proof. intros H. split; [exists [x]; simpl; by rewrite H|]. simpl. destruct (threads w !! k); [apply calm_self|done]. Qed.
Lemma quiet_map k f w : (forall t, calm t (f t)) -> quiet k w (set_threads (f <$> threads w) w).
Proof.
  intros H. split; [exists []; by rewrite app_nil_r|]. simpl. rewrite lookup_fmap. by destruct (threads w !! k); simpl.
Qed.
Lemma quiet_on k j f w : (forall t, calm t (f t)) -> quiet k w (on_thread j f w).
Proof.
  intros H. split; [exists []; by rewrite app_nil_r|]. simpl. destruct (decide (j = k)) as [->|Hj].
  - rewrite lookup_alter_eq. by destruct (threads w !! k); simpl.
  - rewrite lookup_alter_ne by done. destruct (threads w !! k); [apply calm_self|done].
Qed.
Lemma calm_send m t : is_frame m = false -> calm t (send m t).
Proof. intros H. split_and!; [done| |done]. exists [m]. simpl. by rewrite H. Qed.
Lemma calm_fields t t' : video_queue t' = video_queue t -> channel t' = channel t -> discard_queue t' = discard_queue t -> calm t t'.
Proof. intros H1 H2 H3. split_and!; [done| |by rewrite H3]. exists []. by rewrite app_nil_r. Qed.
Lemma calm_discard t : calm t (set_discard true t).
Proof. split_and!; [done| |done]. exists []. by rewrite app_nil_r. Qed.

Lemma quiet_record k w : quiet k w (update_record_state w).
Proof.
  unfold update_record_state. cbv zeta. set (w1 := if negb (record_permission (lc w)) then _ else w).
  assert (quiet k w w1) as H1 by (unfold w1; destruct (record_permission (lc w)); by apply quiet_same). clearbody w1.
  destruct (Bool.eqb _ _); [done|]. set (start := record_state (lc w1) && _).
  etrans; [exact H1|]. etrans; [apply (quiet_same k w1 (set_last_record start w1)); done|].
  etrans; [apply (quiet_map k (send (RecordScreen start))); intros t; by apply calm_send|].
  etrans; [by apply (quiet_emit k (UpdateRecordStatus start))|]. by apply quiet_same.
Qed.
Lemma untouched_new : untouched new_thread.
Proof. unfold untouched, new_thread. simpl. by destruct (new_spec VIDEO_QUEUE_SIZE) as [-> ->]. Qed.
Lemma quiet_new k j w : threads w !! j = None -> quiet k w (new_video_thread j w).
Proof.
  intros Hj. unfold new_video_thread. cbv zeta. set (w1 := set_threads _ w).
  assert (quiet k w w1) as H1.
  { split; [exists []; by rewrite app_nil_r|]. simpl. destruct (decide (j = k)) as [->|Hjk].
    - rewrite lookup_insert_eq, Hj. apply untouched_new.
    - rewrite lookup_insert_ne by done. destruct (threads w !! k); [apply calm_self|done]. }
  clearbody w1. destruct (Nat.eqb _ 1); [|done]. etrans; [exact H1|]. etrans; [|apply quiet_record]. by apply quiet_same.
Qed.
Lemma quiet_message k m w : quiet k w (on_message m w).
Proof.
  unfold on_message. cbv zeta. set (w1 := match m with RefreshVideo => _ | _ => _ end).
  assert (quiet k w w1) as H1.
  { unfold w1. destruct m; try done; [apply quiet_map; apply calm_discard|apply quiet_on; apply calm_discard]. }
  etrans; [exact H1|]. by apply quiet_emit.
Qed.
Lemma trending_calm limited custom last t : calm t (trending limited custom last t).2.
Proof. unfold trending. repeat case_match; simpl; try apply calm_self; by apply calm_fields. Qed.
Lemma quiet_refresh k d w : quiet k w (refresh_video d w).
Proof. by apply quiet_same. Qed.
Lemma quiet_refresh_all k now m w : quiet k w (refresh_all now m w).
Proof.
  unfold refresh_all. generalize (map_to_list (threads w)). intros l. revert w. induction l as [|[j t] l IH]; intros w; [done|].
  cbn [foldl fst snd]. etrans; [|apply IH]. destruct (needs_refresh _ _ _); [|done].
  etrans; [apply quiet_refresh|]. apply quiet_on. intros t'. by apply calm_fields.
Qed.
Lemma quiet_fps k direct real now w : quiet k w (fps_control direct real now w).
Proof.
  unfold fps_control. cbv zeta. set (w1 := set_threads (map_imap _ _) w).
  assert (quiet k w w1) as H1.
  { split; [exists []; by rewrite app_nil_r|]. simpl. rewrite map_lookup_imap.
    destruct (threads w !! k); simpl; [by apply calm_fields|done]. }
  clearbody w1. destruct (minimum _) as [m|]; [|exact H1].
  set (limited := if limit_custom _ <? _ then _ else _). set (trends := trending _ _ _ <$> _).
  set (w2 := set_threads (snd <$> trends) w1). assert (quiet k w1 w2) as H2.
  { unfold w2, trends. rewrite <- map_fmap_compose. apply quiet_map. intros t. apply trending_calm. }
  clearbody w2.
  etrans; [exact H1|]. etrans; [exact H2|]. etrans; [|apply quiet_refresh_all].
  repeat match goal with |- context [if ?b then _ else _] => destruct b end; by apply quiet_same.
Qed.

Lemma new_is_there j w : is_Some (threads (new_video_thread j w) !! j).
Proof.
  unfold new_video_thread, update_record_state. cbv zeta.
  repeat match goal with |- context [if ?b then _ else _] => destruct b end; simpl; rewrite ?lookup_fmap, ?lookup_insert_eq; simpl; by eexists.
Qed.
Lemma take_fields t m c : channel t = m :: c -> well t -> keys_are_keys c
  /\ tokens c = (length (elements (video_queue t)) - (if is_token m then 1 else 0))%nat.
Proof.
  intros Ec [T C B K]. rewrite Ec in T, K. rewrite tokens_cons in T. apply Forall_cons in K as [_ K].
  split; [done|]. destruct (is_token m); lia.
Qed.
(** What a frame does to its thread. *)
Lemma frame_step vf w t : let j := as_usize (display vf) in
  threads w !! j = Some t ->
  let w' := if contains_key_frame vf then on_thread j (send (KeyFrame vf)) w
            else let '(old, q) := force_push vf (video_queue t) in
                 match old with
                 | Some vf' => refresh_video (Int.to_signed 32 j) (emit (Dropped j vf') (on_thread j (set_queue q) w))
                 | None => on_thread j (λ t, send VideoQueue (set_queue q t)) w
                 end in
  (forall k, k <> j -> quiet k w w') /\ (forall a, holds j a w -> holds j (a ++ [vf]) w').
Proof.
  cbv zeta. intros Et. set (j := as_usize (display vf)) in *.
  assert (forall k f, k <> j -> alter f j (threads w) !! k = threads w !! k) as Hne by (intros k f Hk; by rewrite lookup_alter_ne).
  split.
  - intros k Hk. assert (forall w', (exists o, out w' = out w ++ o /\ existsb (about_frames k) o = false) -> threads w' !! k = threads w !! k -> quiet k w w') as Hq.
    { intros w' Ho Hw. split; [exact Ho|]. rewrite Hw. destruct (threads w !! k); [apply calm_self|done]. }
    destruct (contains_key_frame vf); [apply Hq; [exists []; by rewrite app_nil_r|by apply Hne]|].
    destruct (force_push vf (video_queue t)) as [[vf'|] q]; apply Hq; try (by apply Hne).
    + exists [Dropped j vf']. simpl. by rewrite (proj2 (Z.eqb_neq j k)) by done.
    + exists []. by rewrite app_nil_r.
  - intros a. unfold holds at 1. rewrite Et. intros (W & P & G & D). pose proof W as [T C B K].
    destruct (contains_key_frame vf) eqn:Ek.
    + unfold holds, on_thread. cbn [threads set_threads out]. rewrite lookup_alter_eq, Et. cbn [fmap option_fmap option_map].
      cbn [send channel set_channel video_queue discard_queue].
      rewrite pending_key, app_assoc by done. split_and!; [|intros Ho; by rewrite P|done|done].
      split; cbn [send set_queue set_channel channel video_queue]; [by rewrite tokens_app, T, Nat.add_0_r|done|done|].
      cbn [send set_queue set_channel channel]; apply Forall_app; split; [exact K|by repeat constructor].
    + destruct (push_spec vf (video_queue t)) as [Hc Hp]. destruct (force_push vf (video_queue t)) as [old q]. cbn [fst snd] in *.
      rewrite C in Hc, Hp. destruct (Nat.ltb_spec (length (elements (video_queue t))) VIDEO_QUEUE_SIZE) as [Hl|Hl]; destruct Hp as [-> Hq].
      * unfold holds, on_thread. cbn [threads set_threads out]. rewrite lookup_alter_eq, Et. cbn [fmap option_fmap option_map].
        cbn [send channel set_channel set_queue video_queue discard_queue].
        rewrite Hq, pending_token, app_assoc by done. split_and!; [|intros Ho; by rewrite P|done|done].
        split; cbn [send set_queue set_channel channel video_queue]; rewrite ?Hq, ?length_app; [rewrite tokens_app, T; reflexivity|done|simpl; lia|].
        cbn [send set_queue set_channel channel]; apply Forall_app; split; [exact K|by repeat constructor].
      * destruct (elements (video_queue t)) as [|vf' els] eqn:Ee; [simpl in Hl; unfold VIDEO_QUEUE_SIZE in Hl; lia|].
        unfold holds, on_thread, refresh_video, tell_self, emit. cbn [head tail threads set_to_self set_threads out] in *. rewrite lookup_alter_eq, Et. cbn [fmap option_fmap option_map].
        cbn [set_queue channel video_queue discard_queue]. rewrite taken_app, overrun_app, app_nil_r.
        split_and!; [|intros Ho; exfalso; revert Ho; unfold overrun; simpl; rewrite Z.eqb_refl, orb_true_r; done|done|done].
        split; cbn [send set_queue set_channel channel video_queue]; rewrite ?Hq, ?length_app; simpl in *; [rewrite T; lia|done|lia|exact K].
Qed.
Lemma holds_frame k a vf w : holds k a w ->
  holds k (a ++ (if as_usize (display vf) =? k then [vf] else [])) (on_video_frame vf w).
Proof.
  intros Ha. unfold on_video_frame. cbv zeta. set (j := as_usize (display vf)).
  set (w1 := set_format (format_of vf) w). set (w2 := match threads w1 !! j with Some _ => w1 | None => _ end).
  assert (quiet k w w2) as H12.
  { etrans; [apply (quiet_same k w w1); done|]. unfold w2. destruct (threads w1 !! j) eqn:E; [done|]. by apply quiet_new. }
  assert (is_Some (threads w2 !! j)) as [t Et].
  { unfold w2. destruct (threads w1 !! j) eqn:E; [by rewrite E; eexists|apply new_is_there]. }
  apply (quiet_holds k a w w2 H12) in Ha. rewrite Et. destruct (frame_step vf w2 t Et) as [Hne Heq].
  destruct (Z.eqb_spec j k) as [<-|Hj]; [by apply Heq|]. rewrite app_nil_r. apply (quiet_holds k a w2); [|done]. by apply Hne.
Qed.

Definition same_frames (t t' : VideoThread) : Prop :=
  video_queue t' = video_queue t /\ channel t' = channel t /\ discard_queue t' = discard_queue t.
Lemma fps_calculate_frames b e t : same_frames t (fps_calculate b e t).
Proof.
  unfold fps_calculate. cbv zeta. destruct b; cbn [skip_beginning];
    repeat match goal with |- context [if ?c then _ else _] => destruct c end; done.
Qed.
Lemma decode_view j vf a t w : let w' := decode j vf a t w in
  (exists t', threads w' !! j = Some t' /\ same_frames t t')
  /\ (forall k, k <> j -> threads w' !! k = threads w !! k)
  /\ exists o, out w' = out w ++ Took j true vf :: o /\ forall k, existsb (about_frames k) o = false.
Proof.
  cbv zeta. unfold decode. cbv zeta. destruct (handle_frame vf a _) as [res h].
  match goal with |- context [threads (if _ then _ else ?x)] => set (w1 := x) end.
  assert (forall w', threads w' = threads w1 -> out w' = out w1 ->
    ((exists t', threads w1 !! j = Some t' /\ same_frames t t')
     /\ (forall k, k <> j -> threads w1 !! k = threads w !! k)
     /\ exists o, out w1 = out w ++ Took j true vf :: o /\ forall k, existsb (about_frames k) o = false) ->
    (exists t', threads w' !! j = Some t' /\ same_frames t t')
     /\ (forall k, k <> j -> threads w' !! k = threads w !! k)
     /\ exists o, out w' = out w ++ Took j true vf :: o /\ forall k, existsb (about_frames k) o = false) as Hsame
    by (intros w' -> ->; done).
  match goal with |- context [if ?c then _ else w1] => set (cond := c) end. clearbody cond.
  assert ((exists t', threads w1 !! j = Some t' /\ same_frames t t')
     /\ (forall k, k <> j -> threads w1 !! k = threads w !! k)
     /\ exists o, out w1 = out w ++ Took j true vf :: o /\ forall k, existsb (about_frames k) o = false) as H1.
  { clear Hsame. unfold w1. destruct res as [[|]|err]; cbv zeta.
    - match goal with |- context [fps_calculate ?b ?e ?x] => pose proof (fps_calculate_frames b e x) as Hf; set (t1 := fps_calculate b e x) in * end.
      set (nc := match a_chroma a with Some c => _ | None => false end). clearbody t1 nc.
      destruct nc; cbn [threads set_threads set_chroma emit out];
        (split_and!; [exists t1; by rewrite lookup_insert_eq|intros k Hk; by rewrite lookup_insert_ne|
         exists [Shown (as_usize (display vf)) (a_pixelbuffer a)]; by rewrite <- app_assoc]).
    - cbn [threads set_threads emit out]. split_and!; [eexists; by rewrite lookup_insert_eq|intros k Hk; by rewrite lookup_insert_ne|by exists []].
    - cbn [threads set_threads emit out refresh_video tell_self set_to_self].
      split_and!; [eexists; by rewrite lookup_insert_eq|intros k Hk; by rewrite lookup_insert_ne|by exists []]. }
  clearbody w1. destruct cond; [|by apply Hsame].
  destruct (bool_decide _); by apply Hsame.
Qed.

Lemma holds_took j a vf a' fed t w w' l :
  well t -> threads w !! j = Some t ->
  (overrun j (out w) = false -> map snd (taken j (out w)) ++ vf :: l = a) ->
  (fed = true -> match last (taken j (out w)) with Some (false, _) => contains_key_frame vf = true | _ => True end) ->
  gapless (taken j (out w)) = true ->
  (exists t', threads w' !! j = Some t' /\ well t' /\ pending (channel t') (elements (video_queue t')) = l
     /\ (fed = false -> discard_queue t' = true)) ->
  (exists o, out w' = out w ++ Took j fed vf :: o /\ existsb (about_frames j) o = false) -> a' = a ->
  holds j a' w'.
Proof.
  intros W Et P K G (t' & Et' & W' & P' & D') (o & Eo & Fo) ->. unfold holds. rewrite Et', Eo.
  destruct (quiet_effects j o Fo) as [T O].
  assert (taken j (out w ++ Took j fed vf :: o) = taken j (out w) ++ [(fed, vf)]) as ->.
  { rewrite taken_app. f_equal. change (Took j fed vf :: o) with ([Took j fed vf] ++ o).
    rewrite taken_app, T. unfold taken. simpl. by rewrite Z.eqb_refl. }
  assert (overrun j (out w ++ Took j fed vf :: o) = overrun j (out w)) as ->.
  { rewrite overrun_app. unfold overrun in *. simpl. by rewrite O, orb_false_r. }
  rewrite map_app, <- app_assoc, P', last_snoc. split_and!; [done|exact P| |].
  - rewrite gapless_snoc, G. simpl. destruct (last _) as [[[|] ?]|]; try done. destruct fed; [|done]. simpl. by apply K.
  - destruct fed; [done|]. by apply D'.
Qed.
Lemma holds_take k j a d w : holds k a w -> holds k a (take j d w).
Proof.
  intros H. unfold take. destruct (threads w !! j) as [t|] eqn:Et; [|done].
  destruct (channel t) as [|m c] eqn:Ec; [done|]. cbv zeta. set (t1 := set_channel c t).
  set (w1 := set_threads (<[j := t1]> (threads w)) w).
  destruct (decide (j = k)) as [->|Hj].
  2: { assert (forall w', (exists o, out w' = out w ++ o /\ existsb (about_frames k) o = false) -> threads w' !! k = threads w !! k -> holds k a w') as Hq.
    { intros w' Ho Hw. apply (quiet_holds k a w); [|done]. split; [exact Ho|]. rewrite Hw. destruct (threads w !! k); [apply calm_self|done]. }
    assert (threads w1 !! k = threads w !! k) as E1 by (simpl; by rewrite lookup_insert_ne).
    assert (forall vf t2, holds k a (decode j vf d t2 w1)) as Hd.
    { intros vf t2. destruct (decode_view j vf d t2 w1) as (_ & Hk & o & Eo & Fo). apply Hq.
      - exists (Took j true vf :: o). split; [exact Eo|]. simpl. rewrite Fo, (proj2 (Z.eqb_neq j k) Hj). done.
      - rewrite Hk by done. exact E1. }
    destruct m as [|vf| | | |start]; [|apply Hd|..].
    - destruct (pop (video_queue t1)) as [vf q]. cbv zeta. set (w2 := set_threads (<[j := set_queue q t1]> (threads w1)) w1).
      assert (threads w2 !! k = threads w !! k) as E2 by (simpl; by rewrite !lookup_insert_ne).
      destruct vf as [vf|]; [|apply Hq; [exists []; by rewrite app_nil_r|done]].
      destruct (discard_queue _).
      + apply Hq; [exists [Took j false vf]; simpl; by rewrite (proj2 (Z.eqb_neq j k) Hj)|done].
      + destruct (decode_view j vf d (set_queue q t1) w2) as (_ & Hk & o & Eo & Fo). apply Hq.
        * exists (Took j true vf :: o). split; [exact Eo|]. simpl. rewrite Fo, (proj2 (Z.eqb_neq j k) Hj). done.
        * rewrite Hk by done. exact E2.
    - apply Hq; [exists []; by rewrite app_nil_r|done].
    - apply Hq; [exists []; by rewrite app_nil_r|done].
    - apply Hq; [exists []; by rewrite app_nil_r|]. simpl. rewrite lookup_alter_ne by done. exact E1.
    - apply Hq; [exists []; by rewrite app_nil_r|]. simpl. rewrite lookup_alter_ne by done. exact E1. }
  pose proof H as H0. unfold holds in H. rewrite Et in H. destruct H as (W & P & G & D).
  destruct (take_fields t m c Ec W) as [K T]. pose proof W as [WT WC WB WK]. rewrite Ec in WT, WK.
  assert (is_frame m = false -> forall w', out w' = out w -> (exists f, threads w' !! k = Some (f t1) /\ forall t, same_frames t (f t)) -> holds k a w') as Hq.
  { intros Hm w' Eo (f & Ew & Hf). unfold holds. rewrite Eo, Ew. destruct (Hf t1) as (Eq & Ech & Ed).
    assert (is_token m = false) as Hm' by (by destruct m).
    assert (pending c (elements (video_queue t)) = pending (channel t) (elements (video_queue t))) as E by (rewrite Ec; by destruct m).
    split_and!.
    - split; rewrite ?Eq, ?Ech; simpl; [|done|done|done]. rewrite T, Hm'. lia.
    - intros Ho. rewrite Eq, Ech. simpl. rewrite E. by apply P.
    - done.
    - rewrite Ed. exact D. }
  destruct m as [|vf| | | |start].
  - destruct (pop_spec (video_queue t)) as (PC & P1 & P2). change (video_queue t1) with (video_queue t).
    destruct (pop (video_queue t)) as [vf q]. cbn [fst snd] in *. cbv zeta.
    destruct (elements (video_queue t)) as [|f els] eqn:Ee; [rewrite tokens_cons in WT; simpl in WT; lia|]. simpl in P1, P2. subst vf.
    set (t2 := set_queue q t1). assert (well t2) as W2.
    { split; simpl; rewrite ?P2, ?PC; [rewrite T; simpl; lia|done|simpl in WB; lia|done]. }
    set (w2 := set_threads (<[k := t2]> (threads w1)) w1).
    rewrite Ec in P. simpl in P.
    destruct (discard_queue t2) eqn:Ed.
    + apply (holds_took k a f a false t w _ (pending c els)); try done.
      * exists t2. split_and!; [simpl; by rewrite lookup_insert_eq|done|simpl; by rewrite P2|done].
      * by exists [].
    + destruct (decode_view k f d t2 w2) as ((t' & Et' & Eq & Ech & Edd) & _ & o & Eo & Fo).
      apply (holds_took k a f a true t w _ (pending c els)); try done.
      * intros _. change (discard_queue t2) with (discard_queue t) in Ed. destruct (last _) as [[[|] ?]|]; try done. by rewrite D in Ed.
      * exists t'. split_and!; [done| | |done].
        -- destruct W2. split; rewrite ?Eq, ?Ech; done.
        -- rewrite Eq, Ech. simpl. by rewrite P2.
      * exists o. split; [exact Eo|apply Fo].
  - rewrite Ec in P. simpl in P. apply Forall_cons in WK as [Hkey _].
    destruct (decode_view k vf d (set_discard false t1) w1) as ((t' & Et' & Eq & Ech & Edd) & _ & o & Eo & Fo).
    apply (holds_took k a vf a true t w _ (pending c (elements (video_queue t)))); try done.
    + intros _. by destruct (last _) as [[[|] ?]|].
    + exists t'. split_and!; [done| | |done].
      * split; rewrite ?Eq, ?Ech; simpl; [rewrite T; simpl; lia|done|done|done].
      * by rewrite Eq, Ech.
    + exists o. split; [exact Eo|apply Fo].
  - apply Hq; [done..|]. exists (λ t, t). simpl. by rewrite lookup_insert_eq.
  - apply Hq; [done..|]. exists (λ t, t). simpl. by rewrite lookup_insert_eq.
  - apply Hq; [done..|]. eexists. simpl. rewrite lookup_alter_eq, lookup_insert_eq. done.
  - apply Hq; [done..|]. eexists. simpl. rewrite lookup_alter_eq, lookup_insert_eq. done.
Qed.

(** A session before its first frame. *)
Definition blank (w : world) : Prop :=
  threads w = ∅ /\ out w = [] /\ to_self w = [] /\ last_record_state w = false /\ record_state (lc w) = false.

Lemma holds_step k a w ev : holds k a w -> holds k (a ++ arrived k [ev]) (step w ev).
Proof.
  intros H.
  assert (forall w', quiet k w w' -> holds k (a ++ []) w') as Hq by (intros w' Hw; rewrite app_nil_r; by apply (quiet_holds k a w)).
  destruct ev as [vf|j d| |m|direct elapsed now|[d|]|start|en]; simpl.
  - pose proof (holds_frame k a vf w H) as F. unfold arrived. simpl. by destruct (as_usize (display vf) =? k).
  - rewrite app_nil_r. by apply holds_take.
  - apply Hq. unfold on_own_message. destruct (to_self w) as [|m l]; [done|].
    etrans; [by apply (quiet_same k w (set_to_self l w))|apply quiet_message].
  - apply Hq, quiet_message.
  - apply Hq. unfold status_tick. destruct (_ <? _); [done|]. cbv zeta.
    etrans; [apply (quiet_map k (set_frame_count 0)); intros t; by apply calm_fields|apply quiet_fps].
  - apply Hq, quiet_on. intros t. by apply calm_send.
  - apply Hq, quiet_map. intros t. by apply calm_send.
  - apply Hq. unfold record_screen. etrans; [|apply quiet_record]. by apply quiet_same.
  - apply Hq. unfold recording_permission. etrans; [|apply quiet_record]. by apply quiet_same.
Qed.
Lemma arrived_cons k ev l : arrived k (ev :: l) = arrived k [ev] ++ arrived k l.
Proof. change (ev :: l) with ([ev] ++ l). unfold arrived. by rewrite omap_app. Qed.
Lemma holds_run k l a w : holds k a w -> holds k (a ++ arrived k l) (run l w).
Proof.
  revert a w. induction l as [|ev l IH]; intros a w H; [by rewrite app_nil_r|].
  rewrite arrived_cons, app_assoc. cbn [run foldl]. apply IH. by apply holds_step.
Qed.

(** C32: the queue, the channel and the thread of a display work as one line.
    Over any sequence of frames, turns of the loop and turns of the threads: a
    thread that takes a token finds a frame, at most 120 frames wait in a queue,
    and unless the queue has run over the frames taken and the frames waiting are
    the frames that arrived, in their order.  Whenever a thread left frames out
    while it waited for a key frame after a refresh, the next one it decodes is a
    key frame; a frame a full queue pushed out leaves a gap of another kind, after
    which any frame may be decoded ([decoded_before_its_key_frame]). *)
Theorem frames_in_order l w k : blank w ->
  let w' := run l w in
  let took := taken k (out w') in
  gapless took = true
  /\ match threads w' !! k with
     | None => arrived k l = []
     | Some t =>
         let waiting := elements (video_queue t) in
         tokens (channel t) = length waiting /\ (length waiting <= VIDEO_QUEUE_SIZE)%nat
         /\ (overrun k (out w') = false -> map snd took ++ pending (channel t) waiting = arrived k l)
     end.
Proof.
  intros (Ht & Ho & _). cbv zeta. assert (holds k [] w) as H by (unfold holds; by rewrite Ht, lookup_empty, Ho).
  pose proof (holds_run k l [] w H) as Hr. unfold holds in Hr. destruct (threads (run l w) !! k) as [t|].
  - destruct Hr as ([T _ B _] & P & G & _). done.
  - destruct Hr as [Ha Et]. by rewrite Et.
Qed.

(** ** Recording *)
Definition last_rec (c : list MediaData) : option bool :=
  last (omap (λ m, match m with RecordScreen b => Some b | _ => None end) c).
Definition recording (t : VideoThread) : option bool := record <$> video_handler (ts t).
(** Thread [t] records as [b] says, or will once it has read its messages. *)
Definition rec_ok (b : bool) (t : VideoThread) : Prop :=
  match last_rec (channel t) with Some b' => b' = b | None => recording t = None \/ recording t = Some b end.
Definition rec_inv (w : world) : Prop :=
  last_record_state w = record_state (lc w) && record_permission (lc w)
  /\ forall k t, threads w !! k = Some t -> rec_ok (last_record_state w) t.
Definition rec_same (t t' : VideoThread) : Prop := last_rec (channel t') = last_rec (channel t) /\ recording t' = recording t.
Definition rec_quiet (w w' : world) : Prop :=
  last_record_state w' = last_record_state w /\ lc w' = lc w
  /\ forall k t', threads w' !! k = Some t' -> exists t, threads w !! k = Some t /\ rec_same t t'.
Lemma last_rec_app c c' : last_rec (c ++ c') = match last_rec c' with Some b => Some b | None => last_rec c end.
Proof. unfold last_rec. rewrite omap_app, last_app. by destruct (last (omap _ c')). Qed.
Lemma last_rec_cons m c : last_rec (m :: c) = match last_rec c with Some b => Some b | None => match m with RecordScreen b => Some b | _ => None end end.
Proof. change (m :: c) with ([m] ++ c). rewrite last_rec_app. unfold last_rec at 2. by destruct m. Qed.
Lemma rec_quiet_refl w : rec_quiet w w.
Proof. split_and!; [done..|]. intros k t Hk. by exists t. Qed.
#[local] Instance rec_quiet_preorder : PreOrder rec_quiet.
Proof.
  split; [exact rec_quiet_refl|]. intros a b c (L1 & E1 & H1) (L2 & E2 & H2). split_and!; [by rewrite L2|by rewrite E2|].
  intros k t'' Hk. destruct (H2 k t'' Hk) as (t' & Ht' & S1 & S2). destruct (H1 k t' Ht') as (t & Ht & S3 & S4).
  exists t. split; [done|]. split; [by rewrite S1|by rewrite S2].
Qed.
Lemma rec_quiet_inv w w' : rec_quiet w w' -> rec_inv w -> rec_inv w'.
Proof.
  intros (L & E & H) [R T]. split; [by rewrite L, E|]. intros k t' Hk. destruct (H k t' Hk) as (t & Ht & S1 & S2).
  specialize (T k t Ht). unfold rec_ok in *. by rewrite L, S1, S2.
Qed.
Lemma rec_quiet_map f w : (forall t, rec_same t (f t)) -> rec_quiet w (set_threads (f <$> threads w) w).
Proof.
  intros H. split_and!; [done..|]. intros k t'. simpl. rewrite lookup_fmap_Some. intros (t & <- & Ht). by exists t.
Qed.
Lemma rec_quiet_on j f w : (forall t, rec_same t (f t)) -> rec_quiet w (on_thread j f w).
Proof.
  intros H. split_and!; [done..|]. intros k t'. simpl. destruct (decide (j = k)) as [->|Hj].
  - rewrite lookup_alter_eq. destruct (threads w !! k) as [t|]; [|done]. intros [= <-]. by exists t.
  - rewrite lookup_alter_ne by done. intros Ht. by exists t'.
Qed.
Lemma rec_quiet_same w w' : threads w' = threads w -> lc w' = lc w -> last_record_state w' = last_record_state w -> rec_quiet w w'.
Proof. intros E1 E2 E3. split_and!; [done..|]. intros k t. rewrite E1. intros Ht. by exists t. Qed.
Lemma rec_same_send m t : match m with RecordScreen _ => False | _ => True end -> rec_same t (send m t).
Proof. intros H. split; [|done]. unfold send. simpl. rewrite last_rec_app. by destruct m. Qed.
Lemma rec_same_fields t t' : channel t' = channel t -> ts t' = ts t -> rec_same t t'.
Proof. intros E1 E2. unfold rec_same, recording. by rewrite E1, E2. Qed.

(** After the change of the switch or of the permission. *)
Lemma rec_update w : (forall k t, threads w !! k = Some t -> rec_ok (last_record_state w) t) -> rec_inv (update_record_state w).
Proof.
  intros H. unfold update_record_state. cbv zeta. set (w1 := if negb (record_permission (lc w)) then _ else w).
  assert (threads w1 = threads w /\ last_record_state w1 = last_record_state w /\ record_permission (lc w1) = record_permission (lc w)) as (E1 & E2 & E3)
    by (unfold w1; destruct (record_permission (lc w)) eqn:Ep; split_and!; simpl; congruence). clearbody w1.
  destruct (Bool.eqb _ _) eqn:E.
  - apply eqb_prop in E. split; [by rewrite E, E3|]. rewrite E1, E2. exact H.
  - split; [cbn [last_record_state set_last_record set_threads emit tell_self set_to_self lc]; by rewrite E3|].
    intros k t. cbn [last_record_state set_last_record set_threads emit tell_self set_to_self threads].
    rewrite lookup_fmap_Some. intros (t0 & <- & _). unfold rec_ok, send. simpl. by rewrite last_rec_app.
Qed.
Lemma rec_new j w : rec_inv w -> rec_inv (new_video_thread j w).
Proof.
  intros [R T]. unfold new_video_thread. cbv zeta.
  assert (forall k t, <[j := new_thread]> (threads w) !! k = Some t -> rec_ok (last_record_state w) t) as H.
  { intros k t. destruct (decide (j = k)) as [->|Hj].
    - rewrite lookup_insert_eq. intros [= <-]. unfold rec_ok. simpl. by left.
    - rewrite lookup_insert_ne by done. apply T. }
  destruct (Nat.eqb _ 1); [by apply rec_update|by split].
Qed.
Lemma rec_refresh_all now m w : rec_quiet w (refresh_all now m w).
Proof.
  unfold refresh_all. generalize (map_to_list (threads w)). intros l. revert w. induction l as [|[j t] l IH]; intros w; [done|].
  cbn [foldl fst snd]. etrans; [|apply IH]. destruct (needs_refresh _ _ _); [|done].
  etrans; [by apply (rec_quiet_same w (refresh_video (Int.to_signed 32 j) w))|]. apply rec_quiet_on. intros t'. by apply rec_same_fields.
Qed.
Lemma rec_fps direct real now w : rec_quiet w (fps_control direct real now w).
Proof.
  unfold fps_control. cbv zeta. set (w1 := set_threads (map_imap _ _) w).
  assert (rec_quiet w w1) as H1.
  { split_and!; [done..|]. intros k t'. simpl. rewrite map_lookup_imap. destruct (threads w !! k) as [t|]; [|done].
    intros [= <-]. exists t. split; [done|]. by apply rec_same_fields. }
  clearbody w1. destruct (minimum _) as [m|]; [|exact H1].
  set (limited := if limit_custom _ <? _ then _ else _). set (trends := trending _ _ _ <$> _).
  set (w2 := set_threads (snd <$> trends) w1). assert (rec_quiet w1 w2) as H2.
  { unfold w2, trends. rewrite <- map_fmap_compose. apply rec_quiet_map. intros t. unfold compose, trending.
    repeat case_match; simpl; by apply rec_same_fields. }
  clearbody w2. etrans; [exact H1|]. etrans; [exact H2|]. etrans; [|apply rec_refresh_all].
  repeat match goal with |- context [if ?b then _ else _] => destruct b end; by apply rec_quiet_same.
Qed.

Lemma handle_frame_record vf a h : record (handle_frame vf a h).2 = record h.
Proof. unfold handle_frame. cbv zeta. destruct (bool_decide _), (union vf); done. Qed.
Lemma fps_calculate_recording b e t : channel (fps_calculate b e t) = channel t /\ recording (fps_calculate b e t) = recording t.
Proof.
  unfold fps_calculate. cbv zeta. destruct b; cbn [skip_beginning];
    repeat match goal with |- context [if ?c then _ else _] => destruct c end; done.
Qed.
Lemma decode_rec j vf a t w : let w' := decode j vf a t w in
  lc w' = lc w /\ last_record_state w' = last_record_state w
  /\ exists t', threads w' = <[j := t']> (threads w) /\ channel t' = channel t
     /\ recording t' = Some (default (record_state (lc w) && record_permission (lc w)) (recording t)).
Proof.
  cbv zeta. unfold decode. cbv zeta. set (h0 := match video_handler (ts t) with Some h => h | None => _ end).
  assert (record h0 = default (record_state (lc w) && record_permission (lc w)) (recording t)) as Hr.
  { unfold h0, recording. by destruct (video_handler (ts t)). }
  rewrite <- Hr, <- (handle_frame_record vf a h0). clear Hr. destruct (handle_frame vf a h0) as [res h]. cbn [snd].
  match goal with |- context [last_record_state (if _ then _ else ?x)] => set (w1 := x) end.
  match goal with |- context [if ?c then _ else w1] => set (cond := c) end. clearbody cond.
  assert (lc w1 = lc w /\ last_record_state w1 = last_record_state w
    /\ exists t', threads w1 = <[j := t']> (threads w) /\ channel t' = channel t /\ recording t' = Some (record h)) as H1.
  { unfold w1. destruct res as [[|]|err]; cbv zeta.
    - match goal with |- context [fps_calculate ?b ?e ?x] => pose proof (fps_calculate_recording b e x) as [F1 F2]; set (t1 := fps_calculate b e x) in * end.
      set (nc := match a_chroma a with Some c => _ | None => false end) in *. clearbody t1 nc.
      destruct nc; (split_and!; [done..|]; exists t1; split_and!; [done|exact F1|exact F2]).
    - split_and!; [done..|]. eexists. split_and!; [reflexivity|done|done].
    - split_and!; [done..|]. eexists. split_and!; [reflexivity|done|done]. }
  clearbody w1. destruct cond; [|exact H1]. destruct (bool_decide _); exact H1.
Qed.
Lemma rec_take j d w : rec_inv w -> rec_inv (take j d w).
Proof.
  intros [R T]. unfold take. destruct (threads w !! j) as [t|] eqn:Et; [|done].
  destruct (channel t) as [|m c] eqn:Ec; [done|]. cbv zeta. pose proof (T j t Et) as Tj. unfold rec_ok in Tj. rewrite Ec, last_rec_cons in Tj.
  assert (forall w' t', lc w' = lc w -> last_record_state w' = last_record_state w -> threads w' = <[j := t']> (threads w) ->
            rec_ok (last_record_state w) t' -> rec_inv w') as Hput.
  { intros w' t' E1 E2 E3 Ht'. split; [by rewrite E1, E2|]. rewrite E2, E3. intros k t0. destruct (decide (j = k)) as [->|Hj].
    - rewrite lookup_insert_eq. by intros [= <-].
    - rewrite lookup_insert_ne by done. apply T. }
  assert (forall vf t0 w0, channel t0 = c -> recording t0 = recording t -> lc w0 = lc w -> last_record_state w0 = last_record_state w ->
    (exists t1, threads w0 = <[j := t1]> (threads w)) -> match m with RecordScreen _ => False | _ => True end -> rec_inv (decode j vf d t0 w0)) as Hdec.
  { intros vf t0 w0 C0 R0 L0 S0 (t1 & H0) Hm. destruct (decode_rec j vf d t0 w0) as (L & S & t' & H' & C' & R').
    apply (Hput _ t'); [by rewrite L|by rewrite S|by rewrite H', H0, insert_insert_eq|].
    unfold rec_ok. rewrite C', C0, R', R0, L0, <- R. destruct (last_rec c); [done|]. destruct m; try done; (destruct Tj as [-> | ->]; [by right|by right]). }
  assert (match m with RecordScreen _ => False | _ => True end -> forall t0, channel t0 = c -> recording t0 = recording t ->
            rec_ok (last_record_state w) t0) as Hkeep.
  { intros Hm t0 C0 R0. unfold rec_ok. rewrite C0, R0. destruct (last_rec c); [done|]. by destruct m. }
  destruct m as [|vf| | | |start].
  - destruct (pop (video_queue _)) as [vf q]. cbv zeta.
    set (t2 := set_queue q (set_channel c t)). set (w2 := set_threads (<[j := t2]> _) _).
    assert (threads w2 = <[j := t2]> (threads w)) as E2 by (simpl; by rewrite insert_insert_eq).
    assert (rec_inv w2) as H2 by (apply (Hput w2 t2); [done..|by apply Hkeep]).
    destruct vf as [vf|]; [|done]. destruct (discard_queue t2); [exact H2|]. apply Hdec; try done. by exists t2.
  - apply Hdec; try done. by eexists.
  - eapply Hput; [done..|by apply Hkeep].
  - eapply Hput; [done..|by apply Hkeep].
  - eapply Hput; [done|done|simpl; by rewrite alter_insert_eq|].
    unfold rec_ok. simpl. destruct (last_rec c); [done|]. unfold recording in *. simpl. by destruct (video_handler (ts t)).
  - eapply Hput; [done|done|simpl; by rewrite alter_insert_eq|].
    unfold rec_ok. simpl. destruct (last_rec c); [done|]. subst start. unfold recording. simpl. destruct (video_handler (ts t)); [by right|by left].
Qed.
Lemma rec_step w ev : rec_inv w -> rec_inv (step w ev).
Proof.
  intros H. assert (forall w', rec_quiet w w' -> rec_inv w') as Hq by (intros w' Hw; by apply (rec_quiet_inv w)).
  assert (forall m w, rec_quiet w (on_message m w)) as Hm.
  { intros m w0. unfold on_message. cbv zeta. set (w1 := match m with RefreshVideo => _ | _ => _ end).
    assert (rec_quiet w0 w1) as H1.
    { unfold w1. destruct m; try done; [apply rec_quiet_map|apply rec_quiet_on]; intros t; by apply rec_same_fields. }
    etrans; [exact H1|]. by apply rec_quiet_same. }
  destruct ev as [vf|j d| |m|direct elapsed now|[d|]|start|en]; simpl.
  - unfold on_video_frame. cbv zeta. set (j := as_usize (display vf)).
    set (w1 := set_format (format_of vf) w). set (w2 := match threads w1 !! j with Some _ => w1 | None => _ end).
    assert (rec_inv w2) as H2 by (unfold w2; destruct (threads w1 !! j); [exact H|by apply rec_new]). clearbody w2. clear w1.
    destruct (threads w2 !! j) as [t|]; [|done]. apply (rec_quiet_inv w2); [|done].
    destruct (contains_key_frame vf); [apply rec_quiet_on; intros t'; by apply rec_same_send|].
    destruct (force_push vf (video_queue t)) as [[vf'|] q].
    + etrans; [apply (rec_quiet_on j (set_queue q)); intros t'; by apply rec_same_fields|]. by apply rec_quiet_same.
    + apply rec_quiet_on. intros t'. pose proof (rec_same_send VideoQueue (set_queue q t') I) as H3. exact H3.
  - by apply rec_take.
  - apply Hq. unfold on_own_message. destruct (to_self w) as [|m l]; [done|].
    etrans; [by apply (rec_quiet_same w (set_to_self l w))|apply Hm].
  - apply Hq, Hm.
  - apply Hq. unfold status_tick. destruct (_ <? _); [done|]. cbv zeta.
    etrans; [apply (rec_quiet_map (set_frame_count 0)); intros t; by apply rec_same_fields|apply rec_fps].
  - apply Hq, rec_quiet_on. intros t. by apply rec_same_send.
  - apply Hq, rec_quiet_map. intros t. by apply rec_same_send.
  - apply rec_update. apply H.
  - apply rec_update. apply H.
Qed.

(** A screen is recorded when the register permits it and the technician has
    switched it on, and not otherwise.  Over any run: recording is on exactly when
    both hold; a thread that has read its messages records exactly then, if it has
    begun to decode; and so after the permission is withdrawn every thread stops
    when it has read the messages it has. *)
Theorem recording_follows l w : blank w ->
  let w' := run l w in
  last_record_state w' = record_state (lc w') && record_permission (lc w')
  /\ (forall k t h, threads w' !! k = Some t -> video_handler (ts t) = Some h -> last_rec (channel t) = None ->
        record h = last_record_state w')
  /\ (forall k t b, threads w' !! k = Some t -> last_rec (channel t) = Some b -> b = last_record_state w').
Proof.
  intros (Ht & _ & _ & Hl & Hs). cbv zeta.
  assert (rec_inv (run l w)) as [R T].
  { assert (rec_inv w) as H by (split; [by rewrite Hl, Hs|]; intros k t; by rewrite Ht, lookup_empty).
    clear Ht Hl Hs. revert w H. induction l as [|ev l IH]; intros w H; [done|]. apply IH. by apply rec_step. }
  split_and!; [done| |].
  - intros k t h Hk Hh Hr. specialize (T k t Hk). unfold rec_ok in T. rewrite Hr in T. unfold recording in T. rewrite Hh in T. simpl in T.
    by destruct T as [|[= <-]].
  - intros k t b Hk Hr. specialize (T k t Hk). unfold rec_ok in T. by rewrite Hr in T.
Qed.

(** ** Frames per second *)
Definition is_refresh (m : message) : bool := match m with RefreshVideo | RefreshVideoDisplay _ => true | _ => false end.
Definition active (real : option Z) (t : VideoThread) : bool := inactive_counter (fps_control_ (count_idle real t)) <? inactive_threshold.
Lemma minimum_below l m x : minimum l = Some m -> In (Some x) l -> m <= x.
Proof.
  revert m. induction l as [|a [|b l] IH]; intros m H Hin; [done| |].
  - destruct Hin as [->|[]]. simpl in H. injection H as ->. lia.
  - change (min_opt a (minimum (b :: l)) = Some m) in H. unfold min_opt in H. destruct a as [a|]; [|done].
    destruct (minimum (b :: l)) as [m'|] eqn:E; [|done]. injection H as <-. destruct Hin as [[= ->]|Hin]; [lia|].
    specialize (IH m' eq_refl Hin). lia.
Qed.
Lemma minimum_none l : minimum l <> None -> ~ In None l.
Proof.
  induction l as [|a [|b l] IH]; intros H Hin; [done| |].
  - by destruct Hin as [->|[]].
  - change (min_opt a (minimum (b :: l)) <> None) in H. unfold min_opt in H. destruct a as [a|]; [|done].
    destruct (minimum (b :: l)) eqn:E; [|done]. destruct Hin as [|Hin]; [done|]. by apply IH.
Qed.
(** What one round of refreshes does. *)
Definition refreshed (now : Z) (t t' : VideoThread) : Prop :=
  let c := fps_control_ t in let c' := fps_control_ t' in
  refresh_times c' = refresh_times c
  \/ refresh_times c < 20 /\ refresh_times c' = refresh_times c + 1 /\ last_refresh_instant c' = Some now
     /\ (refresh_times c = 0 \/ exists s, last_refresh_instant c = Some s /\ 11000 <= now - s).
Lemma needs_refresh_spec now m t : needs_refresh now m t = true -> refreshed now t (note_refresh now t).
Proof.
  unfold needs_refresh. cbv zeta. intros H. bool_prop. destruct H as [[H1 _] H2]. right. simpl. split_and!; [lia|done|done|].
  bool_prop. destruct H2 as [H2|H2]; [left; lia|]. destruct (last_refresh_instant _) as [s|]; [|done]. right. exists s. split; [done|].
  bool_prop. assert (11 <= (now - s) / 1000) as H3 by lia. apply Z.mul_le_mono_nonneg_l with (p := 1000) in H3; [|lia].
  pose proof (Z.mul_div_le (now - s) 1000). lia.
Qed.
Lemma refresh_list_spec now m l w : NoDup l.*1 ->
  let w' := foldl (λ w kt, if needs_refresh now m kt.2
                           then on_thread kt.1 (note_refresh now) (refresh_video (Int.to_signed 32 kt.1) w) else w) w l in
  last_auto_fps w' = last_auto_fps w
  /\ (exists o, to_self w' = to_self w ++ o /\ forallb is_refresh o = true)
  /\ (forall k, k ∉ l.*1 -> threads w' !! k = threads w !! k)
  /\ (forall k t, In (k, t) l -> threads w !! k = Some t -> exists t', threads w' !! k = Some t' /\ refreshed now t t').
Proof.
  revert w. induction l as [|[j t] l IH]; intros w Hn; cbv zeta.
  - split_and!; [done|exists []; by rewrite app_nil_r|done|done].
  - cbn [foldl fst snd fmap list_fmap] in *. apply NoDup_cons in Hn as [Hj Hn].
    set (w1 := if needs_refresh now m t then _ else w). destruct (IH w1 Hn) as (A & (o & Eo & Fo) & N & T).
    assert (last_auto_fps w1 = last_auto_fps w /\ (exists o1, to_self w1 = to_self w ++ o1 /\ forallb is_refresh o1 = true)) as [A1 (o1 & E1 & F1)].
    { unfold w1. destruct (needs_refresh now m t); [|split; [done|exists []; by rewrite app_nil_r]]. split; [done|].
      unfold on_thread, refresh_video, tell_self. simpl. eexists. split; [reflexivity|]. simpl. by destruct (multi_ui _). }
    assert (forall k, k <> j -> threads w1 !! k = threads w !! k) as N1.
    { intros k Hk. unfold w1. destruct (needs_refresh now m t); [|done]. simpl. by rewrite lookup_alter_ne. }
    split_and!.
    + by rewrite A.
    + exists (o1 ++ o). rewrite Eo, E1, app_assoc. split; [done|]. by rewrite forallb_app, F1, Fo.
    + intros k Hk. apply not_elem_of_cons in Hk as [Hkj Hk]. rewrite N by done. by apply N1.
    + intros k t0 [[= <- <-]|Hin] Ht.
      * rewrite N by done. unfold w1. destruct (needs_refresh now m t) eqn:E; [|exists t; split; [done|by left]].
        exists (note_refresh now t). simpl. rewrite lookup_alter_eq, Ht. split; [done|]. by apply (needs_refresh_spec now m).
      * apply T; [done|]. rewrite N1; [done|]. intros ->. apply Hj. apply list_elem_of_fmap. exists (j, t0).
        split; [done|by apply list_elem_of_In].
Qed.
Lemma refresh_all_spec now m w : let w' := refresh_all now m w in
  last_auto_fps w' = last_auto_fps w
  /\ (exists o, to_self w' = to_self w ++ o /\ forallb is_refresh o = true)
  /\ forall k t', threads w' !! k = Some t' -> exists t, threads w !! k = Some t /\ refreshed now t t'.
Proof.
  cbv zeta. unfold refresh_all. destruct (refresh_list_spec now m (map_to_list (threads w)) w (NoDup_fst_map_to_list _)) as (A & O & N & T).
  split_and!; [done|done|]. intros k t' Hk. destruct (threads w !! k) as [t|] eqn:E.
  - exists t. split; [done|]. destruct (T k t) as (t1 & E1 & R); [by apply list_elem_of_In, elem_of_map_to_list|done|]. congruence.
  - rewrite N in Hk; [congruence|]. intros Hin. apply list_elem_of_fmap in Hin as ([k0 t0] & -> & Hin).
    apply elem_of_map_to_list in Hin. simpl in E. congruence.
Qed.
Lemma limit_custom_bounds c : 5 <= limit_custom c <= 120.
Proof. unfold limit_custom. cbv zeta. destruct (_ || _) eqn:E; [lia|]. bool_prop. lia. Qed.

(** What the register is asked for.  One turn of the control tells the register
    a number of frames only when it changes, and then it is between one and the
    user's limit, itself between 5 and 120, and below what the slowest active
    decoder manages; and it asks for a fresh picture of a display at most twenty
    times, and not within eleven seconds of the last time. *)
Theorem fps_within direct real now w :
  (forall k t d, threads w !! k = Some t -> decode_fps t = Some d -> 0 <= d) ->
  let w' := fps_control direct real now w in
  let changed := negb (bool_decide (last_auto_fps w' = last_auto_fps w)) in
  (exists n refreshes, to_self w' = to_self w ++ (if changed then [CustomFps n] else []) ++ refreshes
     /\ forallb is_refresh refreshes = true
     /\ (changed = true -> last_auto_fps w' = Some n /\ 1 <= n <= limit_custom (custom_fps (lc w))
          /\ forall k t d, threads w !! k = Some t -> active (real !! k) t = true -> decode_fps t = Some d -> n <= Z.max 1 d))
  /\ forall k t', threads w' !! k = Some t' -> exists t, threads w !! k = Some t /\ refreshed now t t'.
Proof.
  intros Hd. cbv zeta. pose proof (limit_custom_bounds (custom_fps (lc w))) as Hc.
  assert (forall w', last_auto_fps w' = last_auto_fps w -> to_self w' = to_self w ->
    exists n refreshes, to_self w' = to_self w ++ (if negb (bool_decide (last_auto_fps w' = last_auto_fps w)) then [CustomFps n] else []) ++ refreshes
     /\ forallb is_refresh refreshes = true
     /\ (negb (bool_decide (last_auto_fps w' = last_auto_fps w)) = true -> last_auto_fps w' = Some n /\ 1 <= n <= limit_custom (custom_fps (lc w))
          /\ forall k t d, threads w !! k = Some t -> active (real !! k) t = true -> decode_fps t = Some d -> n <= Z.max 1 d)) as Hsame.
  { intros w' E1 E2. exists 0, []. rewrite E1, E2, bool_decide_true by done. simpl. rewrite app_nil_r. done. }
  unfold fps_control. cbv zeta. set (w1 := set_threads (map_imap _ _) w).
  assert (forall k t1, threads w1 !! k = Some t1 -> exists t, threads w !! k = Some t /\ t1 = count_idle (real !! k) t) as H1.
  { intros k t1. simpl. rewrite map_lookup_imap. destruct (threads w !! k) as [t|]; [|done]. intros [= <-]. by exists t. }
  assert (forall k t, threads w !! k = Some t -> threads w1 !! k = Some (count_idle (real !! k) t)) as H1'.
  { intros k t Ht. simpl. by rewrite map_lookup_imap, Ht. }
  assert (forall k t1, threads w1 !! k = Some t1 -> exists t, threads w !! k = Some t /\ refreshed now t t1) as R1.
  { intros k t1 Hk. destruct (H1 k t1 Hk) as (t & Ht & ->). exists t. split; [done|]. by left. }
  change (custom_fps (lc w1)) with (custom_fps (lc w)). change (last_auto_fps w1) with (last_auto_fps w).
  destruct (minimum _) as [m|] eqn:Em; [|split; [by apply Hsame|exact R1]].
  set (limited0 := if direct then _ else _). set (limited := if limit_custom _ <? limited0 then _ else limited0).
  assert (forall k t d, threads w !! k = Some t -> active (real !! k) t = true -> decode_fps t = Some d -> m <= d) as Hm.
  { intros k t d Ht Ha He. apply (minimum_below _ _ _ Em). apply in_map_iff. exists (count_idle (real !! k) t). split; [done|].
    apply List.filter_In. split; [|exact Ha]. apply in_map_iff. exists (k, count_idle (real !! k) t). split; [done|].
    apply list_elem_of_In, elem_of_map_to_list. by apply H1'. }
  set (trends := trending limited _ _ <$> threads w1). set (w2 := set_threads (snd <$> trends) w1).
  assert (forall k t2, threads w2 !! k = Some t2 -> exists t, threads w1 !! k = Some t /\ fps_control_ t2 = mkCtl (refresh_times (fps_control_ t))
            (last_refresh_instant (fps_control_ t)) (idle_counter (fps_control_ t2)) (inactive_counter (fps_control_ t))) as H2.
  { intros k t2. simpl. unfold trends. rewrite !lookup_fmap. destruct (threads w1 !! k) as [t|] eqn:E; [|done]. intros [= <-]. exists t.
    split; [exact E|]. unfold trending. cbv zeta. destruct (decode_fps t); simpl; [|by destruct (fps_control_ t)].
    repeat match goal with |- context [if ?b then _ else _] => destruct b end; simpl; try done; by destruct (fps_control_ t). }
  set (w3 := if bool_decide (last_auto_fps w = None) || _ || _ then _ else w2).
  assert (threads w3 = threads w2) as E3
    by (unfold w3; repeat match goal with |- context [if ?b then _ else _] => destruct b end; done).
  destruct (refresh_all_spec now m w3) as (A & (o & Eo & Fo) & T).
  split.
  2: { intros k t' Hk. destruct (T k t' Hk) as (t2 & Ht2 & Rr). rewrite E3 in Ht2. destruct (H2 k t2 Ht2) as (t1 & Ht1 & Ec).
    destruct (H1 k t1 Ht1) as (t & Ht & ->). exists t. split; [done|]. unfold refreshed in *. rewrite Ec in Rr. exact Rr. }
  rewrite A, Eo. clear A Eo T. unfold w3. clear w3 E3.
  assert (forall z, z = limited / 2 \/ z = limited -> let n := if z <? 1 then 1 else z in
    1 <= n <= limit_custom (custom_fps (lc w)) /\
    forall k t d, threads w !! k = Some t -> active (real !! k) t = true -> decode_fps t = Some d -> n <= Z.max 1 d) as Hn.
  { assert (limited <= limit_custom (custom_fps (lc w)) /\ (limited <= limited0)) as [L1 L2]
      by (unfold limited; destruct (Z.ltb_spec (limit_custom (custom_fps (lc w))) limited0); lia).
    clearbody limited. assert (limited < 1 \/ limited / 2 <= limited) as Hh by (destruct (Z.lt_ge_cases limited 1); [by left|right; apply Z.div_le_upper_bound; lia]).
    assert (limited < 1 -> limited / 2 < 1) as Hh2 by (intros Hlt; apply Z.div_lt_upper_bound; lia).
    intros z Hz. cbv zeta. split; [destruct (Z.ltb_spec z 1); destruct Hz as [-> | ->]; lia|].
    intros k t d Ht Ha He. pose proof (Hm k t d Ht Ha He). pose proof (Hd k t d Ht He).
    assert (limited0 <= d) by (unfold limited0; destruct direct; apply Z.div_le_upper_bound; lia).
    destruct (Z.ltb_spec z 1); destruct Hz as [-> | ->]; lia. }
  match goal with |- context [if ?b then _ else _] => destruct b end.
  2: { exists 0, o. change (last_auto_fps w2) with (last_auto_fps w). rewrite bool_decide_true by done. done. }
  match goal with |- context [if ?b then limited / 2 else limited] => set (z := if b then limited / 2 else limited) end.
  assert (z = limited / 2 \/ z = limited) as Hz by (unfold z; match goal with |- context [if ?b then limited / 2 else limited] => destruct b end; auto).
  clearbody z. specialize (Hn z Hz). cbv zeta in Hn. set (n := if z <? 1 then 1 else z) in *. clearbody n.
  destruct (bool_decide (Some n = last_auto_fps w)) eqn:En.
  - exists 0, o. change (last_auto_fps w2) with (last_auto_fps w). rewrite bool_decide_true by done. done.
  - exists n, o. cbn [last_auto_fps set_auto_fps tell_self set_to_self to_self]. apply bool_decide_eq_false in En.
    rewrite bool_decide_false by done. cbn [negb]. change (to_self w2) with (to_self w). rewrite <- app_assoc. done.
Qed.
End video.

(** ** Inputs *)
#[export] Program Instance list_queue : ArrayQueue := {
  queue := list VideoFrame * nat; elements := fst; capacity := snd; new_queue n := ([], n);
  force_push f q := if (length q.1 <? q.2)%nat then (None, (q.1 ++ [f], q.2)) else (head q.1, (tail q.1 ++ [f], q.2));
  pop q := (head q.1, (tail q.1, q.2));
}.
Next Obligation. done. Qed.
Next Obligation. intros f q. cbv beta. by destruct (length q.1 <? q.2)%nat. Qed.
Next Obligation. done. Qed.

Definition picture (n : Z) (k : bool) : VideoFrame := mkFrame (Some (Vp9s [mkEncoded n k])) 0.
Definition fast : decoding := mkDecoding true (Ok true) true None 20000000.
Definition opened : world := mkWorld Handler.fresh None [] Unknown None ∅ false [] [].
Abbreviation session := (run (λ _, true) false).
Definition look : list event :=
  [Frame (picture 0 true); Frame (picture 1 false); Take 0 fast; Ui (RefreshVideoDisplay 0); Frame (picture 2 false); Take 0 fast;
   Frame (picture 3 true); Take 0 fast; Frame (picture 4 false); Take 0 fast].

(** A refresh while frame 1 waits: 1 and 2 are left out, 3 is a key frame. *)
Lemma frames_in_order_witness : blank opened
  /\ (let took := taken 0 (out (session look opened)) in
      gapless took = true /\ map fst took = [true; false; false; true] /\ overrun 0 (out (session look opened)) = false
      /\ map snd took = [picture 0 true; picture 1 false; picture 2 false; picture 3 true]).
Proof.
  assert (blank opened) as Hb by done. split; [done|]. cbv zeta.
  destruct (frames_in_order (λ _, true) false look opened 0 Hb) as [Hg H]. split; [exact Hg|].
  split_and!; vm_compute; reflexivity.
Defined.
Lemma recording_follows_witness :
  let w := session [Permission true; Frame (picture 0 true); Record true; Take 0 fast; Take 0 fast; Permission false; Take 0 fast] opened in
  blank opened /\ last_record_state w = false /\ (recording <$> threads w !! 0) = Some (Some false).
Proof.
  cbv zeta. assert (blank opened) as Hb by done. split; [done|].
  destruct (recording_follows (λ _, true) false
    [Permission true; Frame (picture 0 true); Record true; Take 0 fast; Take 0 fast; Permission false; Take 0 fast] opened Hb) as (Hl & Ht & _).
  set (w := session _ opened) in *.
  assert (last_record_state w = false) as E by (rewrite Hl; vm_compute; reflexivity). split; [exact E|].
  assert (exists t h, threads w !! 0 = Some t /\ video_handler (ts t) = Some h /\ last_rec (channel t) = None) as (t & h & Et & Eh & Ec)
    by (eexists _, _; split_and!; vm_compute; reflexivity).
  rewrite Et. unfold recording. simpl. rewrite Eh. simpl. by rewrite (Ht 0 t h Et Eh Ec), E.
Defined.

(** Twelve frames of twenty milliseconds: at most 45 frames are asked for, or the
    user's limit. *)
Definition watched : world :=
  session (Frame (picture 0 true) :: Take 0 fast :: concat (repeat [Frame (picture 1 false); Take 0 fast] 13)) opened.
Lemma fps_within_witness :
  let w' := fps_control (λ _, true) true {[0 := 14]} 1000 watched in
  last_auto_fps w' = Some 30 /\ to_self w' = [CustomFps 30]
  /\ exists t t', threads watched !! 0 = Some t /\ threads w' !! 0 = Some t' /\ refreshed 1000 t t'.
Proof.
  cbv zeta.
  assert (forall k t d, threads watched !! k = Some t -> decode_fps t = Some d -> 0 <= d) as Hd.
  { assert (map_to_list (decode_fps <$> threads watched) = [(0, Some 50)]) as E by (vm_compute; reflexivity).
    intros k t d Hk He. assert ((k, Some d) ∈ map_to_list (decode_fps <$> threads watched)) as Hin
      by (apply elem_of_map_to_list; rewrite lookup_fmap, Hk; simpl; by rewrite He).
    rewrite E in Hin. apply list_elem_of_singleton in Hin. injection Hin as -> ->. lia. }
  destruct (fps_within (λ _, true) true {[0 := 14]} 1000 watched Hd) as [_ H].
  set (w' := fps_control _ _ _ _ watched) in *. split_and!; [vm_compute; reflexivity|vm_compute; reflexivity|].
  assert (match threads w' !! 0 with Some _ => true | None => false end = true) as Ht by (vm_compute; reflexivity).
  destruct (threads w' !! 0) as [t'|] eqn:E; [|done].
  destruct (H 0 t' E) as (t & Et & Hr). exists t, t'. split; [exact Et|]. split; [reflexivity|exact Hr].
Defined.

(** A frame that pushes another out of a full queue inherits its token: it is
    decoded before a key frame that arrived before it. *)
Example decoded_before_its_key_frame :
  let l := Frame (picture 0 true) :: map (λ n, Frame (picture (Z.of_nat n) false)) (seq 1 120)
           ++ [Frame (picture 121 true); Frame (picture 122 false)] ++ repeat (Take 0 fast) 122 in
  drop 119 (map snd (taken 0 (out (session l opened)))) = [picture 120 false; picture 122 false; picture 121 true].
Proof. vm_compute. done. Qed.
End Video.
