(* ===== verification/Transfer.v ===== *)
(** * File transfers of the technician's app ([src/src/client/io_loop.rs])

    The jobs of a session's loop: downloads ([write_jobs]), uploads ([read_jobs])
    and the removal of folders ([remove_jobs]), driven by the window, by the
    register's answers and by a timer.  The jobs themselves and the file system are
    the [fs] library, a class of operations with their laws; what the file system
    answers depends on the time of the call.

    A step is one message handled by the loop; it leaves its effects in [out]. *)

From S2P Require Import Prelude RustStr Cm.
#[local] Open Scope Z_scope.

Module Transfer.
Import Cm(confirm_union, Skip, OffsetBlk).

Inductive JobType := Generic | Printer.
#[export] Instance JobType_eq_dec : EqDecision JobType.
Proof. solve_decision. Defined.
Inductive DataSource := FilePath (p : string) | MemoryCursor.
Record FileEntry := mkEntry { e_name : string; e_size : Z }.
Record digest := mkDigest {
  d_id : Z; d_file_num : Z; d_last_modified : Z; d_file_size : Z; d_is_upload : bool; d_is_identical : bool; d_transferred_size : Z;
}.
(** [FileTransferSendConfirmRequest] *)
Record request := mkReq { q_id : Z; q_file_num : Z; q_union : option confirm_union }.
Inductive DigestCheckResult := IsSame | NeedConfirm (d : digest) | NoSuchFile.
Record block := mkBlock { b_id : Z; b_file_num : Z; b_data : Z }.

(** [hbb_common::fs].  [kept]: what the operations on a job do not change. *)
Class ClientJobs := {
  job : Type;
  id : job -> Z; type : job -> JobType; remote : job -> string; data_source : job -> DataSource; file_num : job -> Z;
  show_hidden : job -> bool; files : job -> list FileEntry; is_last_job : job -> bool; is_resume : job -> bool;
  default_overwrite_strategy : job -> option bool; total_size : job -> Z; transferred : job -> Z; finished_size : job -> Z;
  job_error : job -> option string;
  new_write : Z -> JobType -> string -> DataSource -> Z -> bool -> bool -> bool -> job;
  new_read : Z -> Z -> JobType -> string -> string -> Z -> bool -> bool -> bool -> result job string;
  set_last_job : bool -> job -> job; set_resume : bool -> job -> job;
  set_overwrite_strategy : option bool -> job -> job;
  set_finished_size_on_resume : Z -> job -> job;
  set_files : list FileEntry -> job -> result job string;
  set_digest : Z -> Z -> job -> job;
  confirm : Z -> request -> job -> job;
  write : Z -> block -> job -> job;
  handle_read_jobs : Z -> list job -> result (list job) string;
  get_buf_data : job -> option string;
  is_write_need_confirmation : Z -> bool -> string -> digest -> result DigestCheckResult string;
  check_same now b p d d' : is_write_need_confirmation now b p d = Ok (NeedConfirm d') -> d_id d' = d_id d /\ d_file_num d' = d_file_num d;
  join : string -> string -> string;
  can_enable_overwrite_detection : Z -> bool;
  get_recursive_files : Z -> string -> bool -> result (list FileEntry) string;
  fs_remove_file : Z -> string -> result unit string; fs_create_dir : Z -> string -> result unit string;
  fs_rename_file : Z -> string -> string -> result unit string; fs_copy_path : Z -> string -> string -> bool -> result unit string;
  transform_windows_path : list FileEntry -> list FileEntry;
  kept (j j' : job) : Prop := id j' = id j /\ default_overwrite_strategy j' = default_overwrite_strategy j /\ is_resume j' = is_resume j;
  new_write_spec i t r s n h rm od : let j := new_write i t r s n h rm od in
    id j = i /\ default_overwrite_strategy j = None /\ is_resume j = false;
  new_read_spec now i t r s n h rm od j : new_read now i t r s n h rm od = Ok j ->
    id j = i /\ default_overwrite_strategy j = None /\ is_resume j = false;
  set_last_job_kept b j : kept j (set_last_job b j);
  set_resume_spec b j : id (set_resume b j) = id j /\ default_overwrite_strategy (set_resume b j) = default_overwrite_strategy j;
  set_strategy_spec o j : id (set_overwrite_strategy o j) = id j /\ default_overwrite_strategy (set_overwrite_strategy o j) = o
    /\ is_resume (set_overwrite_strategy o j) = is_resume j;
  finished_kept now j : kept j (set_finished_size_on_resume now j);
  set_files_kept l j j' : set_files l j = Ok j' -> kept j j';
  set_digest_kept a b j : kept j (set_digest a b j);
  confirm_kept now q j : kept j (confirm now q j);
  write_kept now b j : kept j (write now b j);
  handle_read_kept now l l' : handle_read_jobs now l = Ok l' -> forall j', In j' l' -> exists j, In j l /\ kept j j';
}.

Record RemoveJob := mkRemove { r_files : list FileEntry; r_path : string; r_sep : string; r_is_remote : bool; no_confirm : bool; last_update_job_status : Z }.

(** Effects: messages to the register, calls of the window, of the file system. *)
Inductive effect {J : Type} :=
  | PSend (i : Z) (t : JobType) (path : string) (n : Z) (hidden : bool)
  | PReceive (i : Z) (path : string) (n : Z) (l : list FileEntry) (total : Z)
  | PSendConfirm (q : request)
  | PAllFiles (i : Z) (path : string) (hidden : bool) | PCancel (i : Z)
  | PRemoveDir (i : Z) (path : string) | PRemoveFile (i : Z) (path : string) (n : Z)
  | PCreate (i : Z) (path : string) | PRename (i : Z) (path new_name : string) | PCopy (i : Z) (src dst : string) (is_move : bool)
  | UpdateFolderFiles (i : Z) (l : list FileEntry) (path : string) (is_local only_count : bool)
  | UpdateEmptyDirs (path : string)
  | JobError (i : Z) (err : string) (n : Z) | JobDone (i n : Z) | JobProgress (i n : Z) (bytes elapsed finished : Z)
  | ConfirmDelete (i n : Z) (name : string) | OverrideConfirm (i n : Z) (path : string) (is_upload is_identical : bool)
  | MsgBox (msgtype title text : string)
  | FsRemove (path : string) | RemoveDownload (j : J) | ModifyTime (j : J) | PrintRaw (printer : option string) (data : string).
Arguments effect : clear implicits.

Section transfer.
Context {cj : ClientJobs}.

Record world := mkWorld {
  read_jobs : list job; write_jobs : list job; remove_jobs : gmap Z RemoveJob;
  timer_fast : bool;                               (** the loop's timer runs every millisecond, else every 30 seconds *)
  last_update_jobs_status : Z * gmap Z Z;
  version : Z; peer_is_windows : bool; resume_supported : Z -> bool;
  printer_names : gmap Z string;
  to_self : list (Z * string * Z * bool);          (** [Data::RemoveFile] *)
  out : list (effect job);
}.
Definition set_read l w := mkWorld l (write_jobs w) (remove_jobs w) (timer_fast w) (last_update_jobs_status w) (version w) (peer_is_windows w) (resume_supported w) (printer_names w) (to_self w) (out w).
Definition set_write l w := mkWorld (read_jobs w) l (remove_jobs w) (timer_fast w) (last_update_jobs_status w) (version w) (peer_is_windows w) (resume_supported w) (printer_names w) (to_self w) (out w).
Definition set_removes l w := mkWorld (read_jobs w) (write_jobs w) l (timer_fast w) (last_update_jobs_status w) (version w) (peer_is_windows w) (resume_supported w) (printer_names w) (to_self w) (out w).
Definition set_timer b w := mkWorld (read_jobs w) (write_jobs w) (remove_jobs w) b (last_update_jobs_status w) (version w) (peer_is_windows w) (resume_supported w) (printer_names w) (to_self w) (out w).
Definition set_status s w := mkWorld (read_jobs w) (write_jobs w) (remove_jobs w) (timer_fast w) s (version w) (peer_is_windows w) (resume_supported w) (printer_names w) (to_self w) (out w).
Definition set_printers m w := mkWorld (read_jobs w) (write_jobs w) (remove_jobs w) (timer_fast w) (last_update_jobs_status w) (version w) (peer_is_windows w) (resume_supported w) m (to_self w) (out w).
Definition set_to_self l w := mkWorld (read_jobs w) (write_jobs w) (remove_jobs w) (timer_fast w) (last_update_jobs_status w) (version w) (peer_is_windows w) (resume_supported w) (printer_names w) l (out w).
Definition set_out l w := mkWorld (read_jobs w) (write_jobs w) (remove_jobs w) (timer_fast w) (last_update_jobs_status w) (version w) (peer_is_windows w) (resume_supported w) (printer_names w) (to_self w) l.
Definition emit x w := set_out (out w ++ [x]) w.

(** [get_job] and an update of what it finds; [remove_job]. *)
Fixpoint get_job (i : Z) (l : list job) : option job :=
  match l with [] => None | j :: l => if id j =? i then Some j else get_job i l end.
Fixpoint update_job (i : Z) (f : job -> job) (l : list job) : list job :=
  match l with [] => [] | j :: l => if id j =? i then f j :: l else j :: update_job i f l end.
Fixpoint remove_job (i : Z) (l : list job) : option job * list job :=
  match l with
  | [] => (None, [])
  | j :: l => if id j =? i then (Some j, l) else let '(o, l) := remove_job i l in (o, j :: l)
  end.
Definition on_read i f w := set_read (update_job i f (read_jobs w)) w.
Definition on_write i f w := set_write (update_job i f (write_jobs w)) w.
(** [files\[n\]] of an [i32] as [usize]. *)
Definition nth_file {A} (n : Z) (l : list A) : option A := if n <? 0 then None else l !! Z.to_nat n.

(** ** Reports *)
Definition handle_job_status (now i n : Z) (err : option string) (w : world) : world :=
  let report w := emit (match err with Some err => JobError i err n | None => JobDone i n end) w in
  match remove_jobs w !! i with
  | Some r =>
      if no_confirm r then
        match nth_file (n + 1) (r_files r) with
        | Some f =>
            let w := set_to_self (to_self w ++ [(i, r_path r +:+ r_sep r +:+ e_name f, n + 1, r_is_remote r)]) w in
            if 1000 <=? now - last_update_job_status r then
              report (set_removes (<[i := mkRemove (r_files r) (r_path r) (r_sep r) (r_is_remote r) (no_confirm r) now]> (remove_jobs w)) w)
            else w
        | None => report (set_removes (delete i (remove_jobs w)) w)
        end
      else report w
  | None => report w
  end.
Definition update_job_status (elapsed : Z) (w : world) (j : job) : world :=
  if elapsed <=? 0 then w
  else
    let last := default 0 ((last_update_jobs_status w).2 !! id j) in
    emit (JobProgress (id j) (file_num j - 1) (Int.wrap 64 (transferred j - last)) elapsed (finished_size j))
      (set_status ((last_update_jobs_status w).1, <[id j := transferred j]> (last_update_jobs_status w).2) w).
Definition update_jobs_status (now : Z) (w : world) : world :=
  let elapsed := now - (last_update_jobs_status w).1 in
  if 1000 <=? elapsed then
    let w := foldl (update_job_status elapsed) w (read_jobs w ++ write_jobs w) in
    set_status (now, (last_update_jobs_status w).2) w
  else w.
Definition cancel_transfer_job (i : Z) (w : world) : world :=
  let w := emit (PCancel i) w in
  let '(o, l) := remove_job i (write_jobs w) in
  let w := set_write l w in
  let w := match o with Some j => emit (RemoveDownload j) w | None => w end in
  let w := set_read (remove_job i (read_jobs w)).2 w in
  set_removes (delete i (remove_jobs w)) w.

(** ** The window's wishes *)
Definition peer_files (w : world) (l : list FileEntry) : list FileEntry := if peer_is_windows w then l else transform_windows_path l.
Definition send_files (now i : Z) (t : JobType) (path to : string) (n : Z) (hidden is_remote : bool) (w : world) : world :=
  let od := can_enable_overwrite_detection (version w) in
  if is_remote then
    let dest := match t with Generic => FilePath to | Printer => MemoryCursor end in
    emit (PSend i t path n hidden) (set_write (write_jobs w ++ [new_write i t path dest n hidden is_remote od]) w)
  else
    match new_read now i t to path n hidden is_remote od with
    | Err err => handle_job_status now i (-1) (Some err) w
    | Ok j =>
        let w := emit (UpdateFolderFiles (id j) (files j) path (negb is_remote) true) w in
        let l := peer_files w (files j) in
        emit (PReceive i to n l (total_size j)) (set_timer true (set_read (read_jobs w ++ [j]) w))
    end.
Definition add_job (now i : Z) (t : JobType) (path to : string) (n : Z) (hidden is_remote : bool) (w : world) : world :=
  let od := can_enable_overwrite_detection (version w) in
  if is_remote then
    set_write (write_jobs w ++ [set_last_job true (new_write i t path (FilePath to) n hidden is_remote od)]) w
  else
    match new_read now i t to path n hidden is_remote od with
    | Err err => handle_job_status now i (-1) (Some err) w
    | Ok j =>
        let w := emit (UpdateFolderFiles (id j) (files j) path (negb is_remote) true) w in
        set_timer true (set_read (read_jobs w ++ [set_last_job true j]) w)
    end.
Definition resume_job (now i : Z) (is_remote : bool) (w : world) : world :=
  if is_remote then
    match get_job i (write_jobs w) with
    | Some j => emit (PSend i Generic (remote j) (file_num j) (show_hidden j)) (on_write i (λ j, set_resume true (set_last_job false j)) w)
    | None => w
    end
  else
    match get_job i (read_jobs w) with
    | Some j =>
        match data_source j with
        | FilePath _ =>
            let f j := set_finished_size_on_resume now (set_resume true (set_last_job false j)) in
            emit (PReceive i (remote (f j)) (file_num (f j)) (peer_files w (files (f j))) (total_size (f j))) (on_read i f w)
        | MemoryCursor => w
        end
    | None => w
    end.
Definition answer_of (need_override : bool) : confirm_union := if need_override then OffsetBlk 0 else Skip true.
Definition set_confirm_override_file (now i n : Z) (need_override remember is_upload : bool) (w : world) : world :=
  let q := mkReq i n (Some (answer_of need_override)) in
  let f j := confirm now q (if remember then set_overwrite_strategy (Some need_override) j else j) in
  if is_upload then
    match get_job i (read_jobs w) with Some _ => on_read i f w | None => w end
  else
    match get_job i (write_jobs w) with Some _ => emit (PSendConfirm q) (on_write i f w) | None => w end.
Definition remove_dir_all (now i : Z) (path sep : string) (is_remote hidden : bool) (w : world) : world :=
  if is_remote then
    set_removes (<[i := mkRemove [] path sep is_remote false now]> (remove_jobs w)) (emit (PAllFiles i path hidden) w)
  else
    match get_recursive_files now path hidden with
    | Ok l => set_removes (<[i := mkRemove l path sep is_remote false now]> (remove_jobs w))
                (emit (UpdateFolderFiles i l path (negb is_remote) false) w)
    | Err err => handle_job_status now i (-1) (Some err) w
    end.
Definition err_of {A} (r : result A string) : option string := match r with Ok _ => None | Err err => Some err end.
Definition remove_file (now i : Z) (path : string) (n : Z) (is_remote : bool) (w : world) : world :=
  if is_remote then emit (PRemoveFile i path n) w
  else handle_job_status now i n (err_of (fs_remove_file now path)) (emit (FsRemove path) w).
Definition confirm_delete_files (i n : Z) (w : world) : world :=
  match remove_jobs w !! i with
  | Some r => match nth_file n (r_files r) with Some f => emit (ConfirmDelete i n (e_name f)) w | None => w end
  | None => w
  end.
Definition set_no_confirm (i : Z) (w : world) : world :=
  set_removes (alter (λ r, mkRemove (r_files r) (r_path r) (r_sep r) (r_is_remote r) true (last_update_job_status r)) i (remove_jobs w)) w.

(** ** The register's answers *)
Definition on_dir (now i : Z) (path : string) (entries : list FileEntry) (w : world) : world :=
  match get_job i (write_jobs w) with
  | Some j =>
      match set_files entries j with
      | Err err => handle_job_status now i (-1) (Some err) (cancel_transfer_job i w)
      | Ok j' =>
          let w := on_write i (λ _, set_finished_size_on_resume now j') w in
          emit (UpdateFolderFiles i (files (set_finished_size_on_resume now j')) path false false) w
      end
  | None =>
      let w := set_removes (alter (λ r, mkRemove entries (r_path r) (r_sep r) (r_is_remote r) (no_confirm r) (last_update_job_status r)) i (remove_jobs w)) w in
      emit (UpdateFolderFiles i entries path false false) w
  end.
(** What is known about an existing file decides, else the technician is asked. *)
Definition known_answer (d : digest) (j : job) : option confirm_union :=
  let resumed := d_is_identical d && is_resume j && (0 <? d_transferred_size d) in
  match (if resumed then Some true else default_overwrite_strategy j) with
  | Some true => Some (OffsetBlk (if resumed then Int.wrap 32 (d_transferred_size d) else 0))
  | Some false => Some (Skip true)
  | None => None
  end.
Definition on_digest (now : Z) (d : digest) (w : world) : world :=
  let i := d_id d in
  let n := d_file_num d in
  if d_is_upload d then
    match get_job i (read_jobs w) with
    | None => w
    | Some j =>
        match nth_file n (files j), data_source j with
        | Some f, FilePath p =>
            match known_answer d j with
            | Some u => emit (PSendConfirm (mkReq i n (Some u))) (on_read i (confirm now (mkReq i n (Some u))) w)
            | None => emit (OverrideConfirm i n (join p (e_name f)) true (d_is_identical d)) w
            end
        | _, _ => w
        end
    end
  else
    match get_job i (write_jobs w) with
    | None => w
    | Some j =>
        match nth_file n (files j), data_source j with
        | Some f, FilePath p =>
            let path := join p (e_name f) in
            let w := on_write i (set_digest (d_file_size d) (d_last_modified d)) w in
            let answer u := emit (PSendConfirm (mkReq i n (Some u))) (on_write i (confirm now (mkReq i n (Some u))) w) in
            match is_write_need_confirmation now (resume_supported w (version w) && is_resume j) path d with
            | Ok IsSame => answer (Skip true)
            | Ok (NeedConfirm d') =>
                match known_answer d' j with
                | Some u =>
                    let q := mkReq (d_id d') (d_file_num d') (Some u) in emit (PSendConfirm q) (on_write i (confirm now q) w)
                | None => emit (OverrideConfirm (d_id d') (d_file_num d') path false (d_is_identical d')) w
                end
            | Ok NoSuchFile => answer (OffsetBlk 0)
            | Err _ => w
            end
        | _, _ => w
        end
    end.
Definition on_block (now : Z) (b : block) (w : world) : world :=
  match get_job (b_id b) (write_jobs w) with
  | Some j =>
      let w := on_write (b_id b) (write now b) w in
      if bool_decide (type (write now b j) = Generic) then update_jobs_status now w else w
  | None => w
  end.
Definition on_done (now i n : Z) (w : world) : world :=
  let '(o, l) := remove_job i (write_jobs w) in
  let w := set_write l w in
  match o with
  | Some j =>
      let w := emit (ModifyTime j) w in
      match type j with
      | Generic => handle_job_status now i n (job_error j) w
      | Printer =>
          match job_error j, get_buf_data j with
          | None, Some data => set_printers (delete i (printer_names w)) (emit (PrintRaw (printer_names w !! i) data) w)
          | _, _ => w
          end
      end
  | None => handle_job_status now i n None w
  end.
Definition on_error (now i n : Z) (err : string) (w : world) : world :=
  let '(o, l) := remove_job i (write_jobs w) in
  let w := set_write l w in
  let '(o, w) := match o with
                 | Some j => (Some j, w)
                 | None => let '(o, l) := remove_job i (read_jobs w) in (o, set_read l w)
                 end in
  match (match o with Some j => type j | None => Generic end) with
  | Generic => handle_job_status now i n (Some err) w
  | Printer => w
  end.
(** The timer; an error ends the session. *)
Definition timer_tick (now : Z) (w : world) : result world string :=
  match read_jobs w with
  | [] => Ok (set_timer false w)
  | _ :: _ => let? l := handle_read_jobs now (read_jobs w) in Ok (update_jobs_status now (set_read l w))
  end.

(** ** Runs *)
Inductive event :=
  | SendFiles (i : Z) (t : JobType) (path to : string) (n : Z) (hidden is_remote : bool)
  | AddJob (i : Z) (t : JobType) (path to : string) (n : Z) (hidden is_remote : bool)
  | ResumeJob (i : Z) (is_remote : bool)
  | SetNoConfirm (i : Z) | ConfirmDeleteFiles (i n : Z)
  | SetConfirmOverrideFile (i n : Z) (need_override remember is_upload : bool)
  | RemoveDirAll (i : Z) (path sep : string) (is_remote hidden : bool)
  | CancelJob (i : Z) | RemoveDir (i : Z) (path : string) | RemoveFile (i : Z) (path : string) (n : Z) (is_remote : bool)
  | CreateDir (i : Z) (path : string) (is_remote : bool) | RenameFile (i : Z) (path new_name : string) (is_remote : bool)
  | CopyFile (i : Z) (src dst : string) (is_move is_remote : bool)
  | EmptyDirs (path : string) | Dir (i : Z) (path : string) (l : list FileEntry) | Digest (d : digest) | Block (b : block)
  | Done (i n : Z) | Error (i n : Z) (err : string)
  | SendConfirm (q : request)                      (** the register's answer about an upload *)
  | Timer.
Definition handle (now : Z) (ev : event) (w : world) : world :=
  match ev with
  | SendFiles i t path to n hidden is_remote => send_files now i t path to n hidden is_remote w
  | AddJob i t path to n hidden is_remote => add_job now i t path to n hidden is_remote w
  | ResumeJob i is_remote => resume_job now i is_remote w
  | SetNoConfirm i => set_no_confirm i w
  | ConfirmDeleteFiles i n => confirm_delete_files i n w
  | SetConfirmOverrideFile i n need remember is_upload => set_confirm_override_file now i n need remember is_upload w
  | RemoveDirAll i path sep is_remote hidden => remove_dir_all now i path sep is_remote hidden w
  | CancelJob i => cancel_transfer_job i w
  | RemoveDir i path => emit (PRemoveDir i path) w
  | RemoveFile i path n is_remote => remove_file now i path n is_remote w
  | CreateDir i path is_remote =>
      if is_remote then emit (PCreate i path) w else handle_job_status now i (-1) (err_of (fs_create_dir now path)) w
  | RenameFile i path new_name is_remote =>
      if is_remote then emit (PRename i path new_name) w else handle_job_status now i (-1) (err_of (fs_rename_file now path new_name)) w
  | CopyFile i src dst is_move is_remote =>
      if is_remote then emit (PCopy i src dst is_move) w else handle_job_status now i (-1) (err_of (fs_copy_path now src dst is_move)) w
  | EmptyDirs path => emit (UpdateEmptyDirs path) w
  | Dir i path l => on_dir now i path l w
  | Digest d => on_digest now d w
  | Block b => on_block now b w
  | Done i n => on_done now i n w
  | Error i n err => on_error now i n err w
  | SendConfirm q => match get_job (q_id q) (read_jobs w) with Some _ => on_read (q_id q) (confirm now q) w | None => w end
  | Timer => match timer_tick now w with Ok w => w | Err err => emit (MsgBox "error" "Connection Error" err) w end
  end.
(** A step begins with no effects. *)
Definition step (w : world) (x : Z * event) : world := handle x.1 x.2 (set_out [] w).
Definition run (l : list (Z * event)) (w : world) : world := foldl step w l.

(** ** Overwriting *)

(** A job of number [i] that overwrites nothing without being told to. *)
Definition fresh (i : Z) (j : job) : Prop := id j = i -> default_overwrite_strategy j <> Some true /\ is_resume j = false.
Definition unapproved (i : Z) (w : world) : Prop := Forall (fresh i) (read_jobs w) /\ Forall (fresh i) (write_jobs w).
(** The technician has job [i] overwrite or go on. *)
Definition approves (i : Z) (ev : event) : bool :=
  match ev with
  | SetConfirmOverrideFile i' _ need _ _ => (i' =? i) && need
  | ResumeJob i' _ => i' =? i
  | _ => false
  end.
Definition confirms (o : list (effect job)) : list request := omap (λ x, match x with PSendConfirm q => Some q | _ => None end) o.

Lemma kept_fresh i j j' : kept j j' -> fresh i j -> fresh i j'.
Proof. intros (H1 & H2 & H3) H Hi. rewrite H2, H3. apply H. congruence. Qed.
Lemma Forall_update (P : job -> Prop) i f l : (forall j, id j = i -> P j -> P (f j)) -> Forall P l -> Forall P (update_job i f l).
Proof.
  intros Hf H. induction H as [|j l Hj H IH]; simpl; [done|]. destruct (Z.eqb_spec (id j) i); constructor; auto.
Qed.
Lemma Forall_remove (P : job -> Prop) i l : Forall P l -> Forall P (remove_job i l).2.
Proof.
  intros H. induction H as [|j l Hj H IH]; simpl; [done|]. destruct (Z.eqb_spec (id j) i); [done|].
  destruct (remove_job i l) as [o r]. simpl in *. by constructor.
Qed.
Lemma get_job_in i l j : get_job i l = Some j -> In j l /\ id j = i.
Proof.
  induction l as [|j0 l IH]; simpl; [done|]. destruct (Z.eqb_spec (id j0) i); [intros [= ->]; auto|]. intros H. destruct (IH H). auto.
Qed.
Lemma confirms_app o o' : confirms (o ++ o') = confirms o ++ confirms o'.
Proof. unfold confirms. by rewrite omap_app. Qed.

(** Reports touch neither the jobs nor the answers. *)
Record report (w w' : world) : Prop := {
  p_read : read_jobs w' = read_jobs w; p_write : write_jobs w' = write_jobs w; p_timer : timer_fast w' = timer_fast w;
  p_confirms : confirms (out w') = confirms (out w);
}.
#[local] Instance report_preorder : PreOrder report.
Proof.
  split; [by split|]. intros a b c [? ? ? ?] [? ? ? ?]. split; congruence.
Qed.
Lemma report_emit x w : match x with PSendConfirm _ => False | _ => True end -> report w (emit x w).
Proof. intros H. split; [done..|]. simpl. rewrite confirms_app. destruct x; try done; apply app_nil_r. Qed.
Lemma report_status now i n err w : report w (handle_job_status now i n err w).
Proof.
  unfold handle_job_status. destruct (remove_jobs w !! i) as [r|]; [|apply report_emit; by destruct err].
  destruct (no_confirm r); [|apply report_emit; by destruct err].
  destruct (nth_file _ _) as [f|]; cbv zeta; [destruct (_ <=? _); [|by split]|];
    (etrans; [|apply report_emit; by destruct err]; by split).
Qed.
Lemma report_jobs_status now w : report w (update_jobs_status now w).
Proof.
  unfold update_jobs_status. cbv zeta. destruct (_ <=? _); [|done].
  etrans; [|by split]. generalize (now - (last_update_jobs_status w).1) (read_jobs w ++ write_jobs w). intros e l.
  revert w. induction l as [|j l IH]; intros w; [done|]. simpl. etrans; [|apply IH].
  unfold update_job_status. destruct (e <=? 0); [done|]. cbv zeta. etrans; [|by apply report_emit]. by split.
Qed.
Lemma unapproved_report i w w' : report w w' -> unapproved i w -> unapproved i w'.
Proof. intros [H1 H2 _ _] [H3 H4]. unfold unapproved. by rewrite H1, H2. Qed.
Lemma cancel_step i k w : (unapproved k w -> unapproved k (cancel_transfer_job i w)) /\ confirms (out (cancel_transfer_job i w)) = confirms (out w)
  /\ (forall x, In x (read_jobs (cancel_transfer_job i w)) -> In x (read_jobs w)).
Proof.
  unfold cancel_transfer_job. cbv zeta. cbn [write_jobs emit set_out].
  pose proof (Forall_remove (fresh k) i (write_jobs w)) as Hw. destruct (remove_job i (write_jobs w)) as [o l]. simpl in Hw.
  set (w1 := match o with Some j => emit (RemoveDownload j) _ | None => _ end).
  assert (read_jobs w1 = read_jobs w /\ write_jobs w1 = l /\ confirms (out w1) = confirms (out w)) as (E1 & E2 & E3).
  { unfold w1. destruct o; simpl; split_and!; rewrite ?confirms_app, ?app_nil_r; done. }
  split_and!.
  - intros [H1 H2]. split; simpl; rewrite ?E1, ?E2; [by apply Forall_remove|by apply Hw].
  - exact E3.
  - simpl. rewrite E1. clear. induction (read_jobs w) as [|j r IH]; simpl; [done|]. destruct (id j =? i); [by right|].
    destruct (remove_job i r). simpl in *. intros x [->|H]; auto.
Qed.

Lemma unapproved_write i k f w : (forall j, id j = k -> fresh i j -> fresh i (f j)) -> unapproved i w -> unapproved i (on_write k f w).
Proof. intros Hf [H1 H2]. split; [done|]. by apply Forall_update. Qed.
Lemma unapproved_read i k f w : (forall j, id j = k -> fresh i j -> fresh i (f j)) -> unapproved i w -> unapproved i (on_read k f w).
Proof. intros Hf [H1 H2]. split; [|done]. by apply Forall_update. Qed.
Lemma fresh_new i j k : id j = k /\ default_overwrite_strategy j = None /\ is_resume j = false -> fresh i j.
Proof. intros (_ & H2 & H3) _. by rewrite H2, H3. Qed.
Lemma fresh_other i j k : id j = k -> k <> i -> fresh i j.
Proof. intros H Hk Hi. congruence. Qed.
Lemma unapproved_emit i x w : unapproved i w -> unapproved i (emit x w).
Proof. done. Qed.
Lemma unapproved_answer i k now q w : unapproved i w -> unapproved i (on_write k (confirm now q) w).
Proof. apply unapproved_write. intros j _. apply kept_fresh, confirm_kept. Qed.

Lemma step_unapproved i now ev w : approves i ev = false -> unapproved i w -> unapproved i (handle now ev w).
Proof.
  intros Ha H. pose proof H as [HR HW].
  assert (forall k n err w', unapproved i w' -> unapproved i (handle_job_status now k n err w')) as Hs
    by (intros k n err w' Hw; apply (unapproved_report i w'); [apply report_status|done]).
  destruct ev as [k t path to n hid rm|k t path to n hid rm|k rm|k|k n|k n need rem up|k path sep rm hid|k|k path|k path n rm|k path rm
    |k path nn rm|k src dst mv rm|path|k path l|d|b|k n|k n err|q| ]; cbn [handle approves] in *.
  - unfold send_files. cbv zeta. destruct rm.
    + split; [done|]. apply Forall_app. split; [done|]. constructor; [|done]. eapply fresh_new, new_write_spec.
    + destruct (new_read _ _ _ _ _ _ _ _ _) as [j|err] eqn:E; [|by apply Hs].
      split; [|done]. apply Forall_app. split; [done|]. constructor; [|done]. eapply fresh_new, new_read_spec, E.
  - unfold add_job. cbv zeta. destruct rm.
    + split; [done|]. apply Forall_app. split; [done|]. constructor; [|done]. eapply kept_fresh; [apply set_last_job_kept|]. eapply fresh_new, new_write_spec.
    + destruct (new_read _ _ _ _ _ _ _ _ _) as [j|err] eqn:E; [|by apply Hs].
      split; [|done]. apply Forall_app. split; [done|]. constructor; [|done]. eapply kept_fresh; [apply set_last_job_kept|]. eapply fresh_new, new_read_spec, E.
  - apply Z.eqb_neq in Ha. unfold resume_job. destruct rm.
    + destruct (get_job k (write_jobs w)) as [j|]; [|done]. apply unapproved_emit, unapproved_write; [|done].
      intros j0 Hj _. eapply (fresh_other i _ k); [|done]. rewrite (proj1 (set_resume_spec _ _)). rewrite <- Hj. apply set_last_job_kept.
    + destruct (get_job k (read_jobs w)) as [j|]; [|done]. destruct (data_source j); [|done]. apply unapproved_emit, unapproved_read; [|done].
      intros j0 Hj _. eapply (fresh_other i _ k); [|done]. rewrite (proj1 (finished_kept _ _)), (proj1 (set_resume_spec _ _)). rewrite <- Hj. apply set_last_job_kept.
  - done.
  - unfold confirm_delete_files. by repeat case_match.
  - assert (forall j, id j = k -> fresh i j ->
      fresh i (confirm now (mkReq k n (Some (answer_of need))) (if rem then set_overwrite_strategy (Some need) j else j))) as Hf.
    { intros j Hj Hfr. eapply kept_fresh; [apply confirm_kept|]. destruct rem; [|done].
      destruct (set_strategy_spec (Some need) j) as (E1 & E2 & E3). intros Hi. rewrite E2, E3. split; [|apply Hfr; congruence].
      assert (k = i) as Hk by congruence. rewrite (proj2 (Z.eqb_eq k i) Hk) in Ha. simpl in Ha. by subst need. }
    unfold set_confirm_override_file. cbv zeta. destruct up.
    + destruct (get_job k (read_jobs w)); [|done]. by apply unapproved_read.
    + destruct (get_job k (write_jobs w)); [|done]. apply unapproved_emit. by apply unapproved_write.
  - unfold remove_dir_all. destruct rm; [done|]. destruct (get_recursive_files _ _ _); [done|by apply Hs].
  - by apply cancel_step.
  - done.
  - unfold remove_file. destruct rm; [done|]. by apply Hs.
  - destruct rm; [done|by apply Hs].
  - destruct rm; [done|by apply Hs].
  - destruct rm; [done|by apply Hs].
  - done.
  - unfold on_dir. destruct (get_job k (write_jobs w)) as [j|] eqn:E; [|done]. destruct (set_files l j) as [j'|err] eqn:Es.
    + apply unapproved_emit. split; [done|]. simpl. apply Forall_update; [|done]. intros j0 _ _. eapply kept_fresh; [apply finished_kept|].
      apply (kept_fresh i j); [by eapply set_files_kept|]. apply get_job_in in E as [E _]. rewrite List.Forall_forall in HW. by apply HW.
    + apply Hs. by apply cancel_step.
  - unfold on_digest. cbv zeta. destruct (d_is_upload d).
    + destruct (get_job _ _) as [j|]; [|done]. destruct (nth_file _ _); [|done]. destruct (data_source j); [|done].
      destruct (known_answer d j); [|done]. apply unapproved_emit, unapproved_read; [|done]. intros j0 _. apply kept_fresh, confirm_kept.
    + destruct (get_job _ _) as [j|]; [|done]. destruct (nth_file _ _); [|done]. destruct (data_source j); [|done].
      set (w1 := on_write _ (set_digest _ _) w). assert (unapproved i w1) as H1.
      { apply unapproved_write; [|done]. intros j0 _. apply kept_fresh, set_digest_kept. }
      destruct (is_write_need_confirmation _ _ _ _) as [[|d'|]|]; [| | |done].
      * by apply unapproved_emit, unapproved_answer.
      * destruct (known_answer d' j); [|done]. by apply unapproved_emit, unapproved_answer.
      * by apply unapproved_emit, unapproved_answer.
  - unfold on_block. destruct (get_job _ _) as [j|]; [|done]. cbv zeta. set (w1 := on_write _ _ w).
    assert (unapproved i w1) as H1 by (apply unapproved_write; [|done]; intros j0 _; apply kept_fresh, write_kept).
    destruct (bool_decide _); [|done]. apply (unapproved_report i w1); [apply report_jobs_status|done].
  - unfold on_done. pose proof (Forall_remove (fresh i) k (write_jobs w) HW) as Hr. destruct (remove_job k (write_jobs w)) as [o l]. simpl in Hr. cbv zeta.
    assert (unapproved i (set_write l w)) as H1 by done. destruct o as [j|]; [|by apply Hs].
    destruct (type j); [by apply Hs|]. destruct (job_error j); [done|]. by destruct (get_buf_data j).
  - unfold on_error. pose proof (Forall_remove (fresh i) k (write_jobs w) HW) as Hr. destruct (remove_job k (write_jobs w)) as [o l]. simpl in Hr. cbv zeta.
    destruct o as [j|].
    + destruct (type j); [by apply Hs|done].
    + cbn [read_jobs set_write]. pose proof (Forall_remove (fresh i) k (read_jobs w) HR) as Hr'. destruct (remove_job k (read_jobs w)) as [o l']. simpl in Hr'.
      destruct (match o with Some j => type j | None => Generic end); [by apply Hs|done].
  - destruct (get_job (q_id q) (read_jobs w)); [|done]. apply unapproved_read; [|done]. intros j0 _. apply kept_fresh, confirm_kept.
  - unfold timer_tick. destruct (read_jobs w) as [|j l] eqn:El; [done|]. rewrite <- El. destruct (handle_read_jobs now (read_jobs w)) as [l'|err] eqn:E; [|done].
    apply (unapproved_report i (set_read l' w)); [apply report_jobs_status|]. split; [|done]. simpl. apply List.Forall_forall. intros j' Hj'.
    destruct (handle_read_kept now _ _ E j' Hj') as (j0 & Hin & Hk). apply (kept_fresh i j0); [done|].
    rewrite <- El in HR. rewrite List.Forall_forall in HR. by apply HR.
Qed.
Lemma known_fresh i d j off : fresh i j -> id j = i -> known_answer d j <> Some (OffsetBlk off).
Proof.
  intros Hf Hi. destruct (Hf Hi) as [H1 H2]. unfold known_answer. rewrite H2, andb_false_r. simpl.
  destruct (default_overwrite_strategy j) as [[|]|]; done.
Qed.
(** The only way to the answer that a file is to be written. *)
Lemma step_confirms i now ev w n off : approves i ev = false -> unapproved i w -> out w = [] ->
  In (mkReq i n (Some (OffsetBlk off))) (confirms (out (handle now ev w))) ->
  exists d j f p, ev = Digest d /\ d_id d = i /\ d_file_num d = n /\ d_is_upload d = false /\ off = 0
    /\ get_job i (write_jobs w) = Some j /\ nth_file n (files j) = Some f /\ data_source j = FilePath p
    /\ is_write_need_confirmation now false (join p (e_name f)) d = Ok NoSuchFile.
Proof.
  intros Ha H Ho. pose proof H as [HR HW].
  assert (forall w', confirms (out w') = [] -> In (mkReq i n (Some (OffsetBlk off))) (confirms (out w')) -> False) as Hno by (by intros w' ->).
  assert (forall k m err w', confirms (out w') = [] -> confirms (out (handle_job_status now k m err w')) = []) as Hs
    by (intros k m err w' Hw; by rewrite (p_confirms _ _ (report_status now k m err w'))).
  assert (confirms (out w) = []) as H0 by (by rewrite Ho).
  assert (forall x w', confirms (out w') = [] -> match x with PSendConfirm _ => False | _ => True end -> confirms (out (emit x w')) = []) as He
    by (intros x w' Hw Hx; by rewrite (p_confirms _ _ (report_emit x w' Hx))).
  destruct ev as [k t path to m hid rm|k t path to m hid rm|k rm|k|k m|k m need rem up|k path sep rm hid|k|k path|k path m rm|k path rm
    |k path nn rm|k src dst mv rm|path|k path l|d|b|k m|k m err|q| ]; cbn [handle approves] in *.
  - intros Hin. exfalso. refine (Hno _ _ Hin). unfold send_files. cbv zeta. destruct rm; [by apply He|].
    destruct (new_read _ _ _ _ _ _ _ _ _); [|by apply Hs]. apply He; [|done]. by apply He.
  - intros Hin. exfalso. refine (Hno _ _ Hin). unfold add_job. cbv zeta. destruct rm; [done|].
    destruct (new_read _ _ _ _ _ _ _ _ _); [|by apply Hs]. by apply He.
  - intros Hin. exfalso. refine (Hno _ _ Hin). unfold resume_job. destruct rm.
    + destruct (get_job _ _); [by apply He|done].
    + destruct (get_job _ _) as [j|]; [|done]. destruct (data_source j); [by apply He|done].
  - intros Hin. exfalso. refine (Hno _ _ Hin). done.
  - intros Hin. exfalso. refine (Hno _ _ Hin). unfold confirm_delete_files. destruct (remove_jobs w !! k); [|done]. destruct (nth_file _ _); [by apply He|done].
  - unfold set_confirm_override_file. cbv zeta. destruct up; [destruct (get_job _ _); by (simpl; rewrite Ho)|]. destruct (get_job _ _); [|by (simpl; rewrite Ho)].
    simpl. rewrite Ho. simpl. intros [[= -> -> E]|[]]. destruct need; [by rewrite Z.eqb_refl in Ha|done].
  - intros Hin. exfalso. refine (Hno _ _ Hin). unfold remove_dir_all. destruct rm; [by apply He|]. destruct (get_recursive_files _ _ _); [by apply He|by apply Hs].
  - by rewrite (proj1 (proj2 (cancel_step k i w))), H0.
  - intros Hin. exfalso. refine (Hno _ _ Hin). by apply He.
  - intros Hin. exfalso. refine (Hno _ _ Hin). unfold remove_file. destruct rm; [by apply He|]. apply Hs. by apply He.
  - intros Hin. exfalso. refine (Hno _ _ Hin). destruct rm; [by apply He|by apply Hs].
  - intros Hin. exfalso. refine (Hno _ _ Hin). destruct rm; [by apply He|by apply Hs].
  - intros Hin. exfalso. refine (Hno _ _ Hin). destruct rm; [by apply He|by apply Hs].
  - intros Hin. exfalso. refine (Hno _ _ Hin). by apply He.
  - intros Hin. exfalso. refine (Hno _ _ Hin). unfold on_dir. destruct (get_job _ _) as [j|]; [|by apply He].
    destruct (set_files l j); [by apply He|]. apply Hs. by rewrite (proj1 (proj2 (cancel_step k i w))).
  - unfold on_digest. cbv zeta. destruct (d_is_upload d) eqn:Eu.
    + destruct (get_job (d_id d) (read_jobs w)) as [j|] eqn:Ej; [|by (simpl; rewrite Ho)]. destruct (nth_file _ _); [|by (simpl; rewrite Ho)]. destruct (data_source j); [|by (simpl; rewrite Ho)].
      destruct (known_answer d j) as [u|] eqn:Ek; simpl; rewrite Ho; simpl; [|done].
      intros [[= E1 E2 ->]|[]]. exfalso. apply get_job_in in Ej as [Hin Hj]. rewrite List.Forall_forall in HR.
      refine (known_fresh i d j off (HR j Hin) _ Ek). congruence.
    + destruct (get_job (d_id d) (write_jobs w)) as [j|] eqn:Ej; [|by (simpl; rewrite Ho)].
      destruct (nth_file (d_file_num d) (files j)) as [f|] eqn:Ef; [|by (simpl; rewrite Ho)]. destruct (data_source j) as [p|] eqn:Ep; [|by (simpl; rewrite Ho)].
      pose proof (get_job_in _ _ _ Ej) as [Hin Hj]. rewrite List.Forall_forall in HW. specialize (HW j Hin).
      destruct (is_write_need_confirmation _ _ _ _) as [[|d'|]|] eqn:Ec; cbv zeta; [| | |by (simpl; rewrite Ho)].
      * simpl. rewrite Ho. simpl. by intros [[= _ _]|[]].
      * destruct (check_same _ _ _ _ _ Ec) as [E1 E2]. destruct (known_answer d' j) as [u|] eqn:Ek; simpl; rewrite Ho; simpl; [|done].
        intros [[= F1 F2 ->]|[]]. exfalso. refine (known_fresh i d' j off HW _ Ek). congruence.
      * simpl. rewrite Ho. simpl. intros [[= E1 E2 E3]|[]]. subst. exists d, j, f, p. split_and!; try done.
        destruct (HW Hj) as [_ Hr]. by rewrite Hr, andb_false_r in Ec.
  - intros Hin. exfalso. refine (Hno _ _ Hin). unfold on_block. destruct (get_job _ _) as [j|]; [|done]. cbv zeta. destruct (bool_decide _); [|done].
    by rewrite (p_confirms _ _ (report_jobs_status now _)).
  - intros Hin. exfalso. refine (Hno _ _ Hin). unfold on_done. destruct (remove_job k (write_jobs w)) as [o l]. cbv zeta. destruct o as [j|]; [|by apply Hs].
    destruct (type j); [apply Hs; by apply He|]. destruct (job_error j); [by apply He|]. destruct (get_buf_data j); [|by apply He].
    match goal with |- confirms (out (set_printers _ ?x)) = [] => change (confirms (out x) = []) end. apply He; [|done]. by apply He.
  - intros Hin. exfalso. refine (Hno _ _ Hin). unfold on_error. destruct (remove_job k (write_jobs w)) as [o l]. cbv zeta. destruct o as [j|].
    + destruct (type j); [by apply Hs|done].
    + destruct (remove_job k (read_jobs _)) as [o l']. destruct (match o with Some j => type j | None => Generic end); [by apply Hs|done].
  - destruct (get_job _ _); by (simpl; rewrite Ho).
  - intros Hin. exfalso. refine (Hno _ _ Hin). unfold timer_tick. destruct (read_jobs w); [done|]. destruct (handle_read_jobs _ _); [|by apply He].
    by rewrite (p_confirms _ _ (report_jobs_status now _)).
Qed.

(** An existing file that differs, and a job that was told nothing: the
    technician is asked, and nothing else happens. *)
Lemma digest_asks i now d w j f p d' : unapproved i w -> d_id d = i -> d_is_upload d = false ->
  get_job i (write_jobs w) = Some j -> nth_file (d_file_num d) (files j) = Some f ->
  data_source j = FilePath p -> default_overwrite_strategy j = None ->
  is_write_need_confirmation now false (join p (e_name f)) d = Ok (NeedConfirm d') ->
  out (step w (now, Digest d)) = [OverrideConfirm i (d_file_num d) (join p (e_name f)) false (d_is_identical d')].
Proof.
  intros [_ HW] Hi Hup Hj Hf Hp Hs Hc. pose proof (get_job_in _ _ _ Hj) as [Hin Hid].
  rewrite List.Forall_forall in HW. destruct (HW j Hin Hid) as [_ Hr]. destruct (check_same _ _ _ _ _ Hc) as [E1 E2].
  unfold step. cbn [fst snd handle]. unfold on_digest. cbv zeta. rewrite Hup, Hi.
  change (write_jobs (set_out [] w)) with (write_jobs w). rewrite Hj, Hf, Hp.
  change (resume_supported _ _ && is_resume j) with (resume_supported w (version w) && is_resume j).
  rewrite Hr, andb_false_r, Hc. unfold known_answer. rewrite Hr, andb_false_r, Hs. cbn [andb]. by rewrite E1, E2, Hi.
Qed.


(** ** Removing a folder *)
Definition path_of (r : RemoveJob) (f : FileEntry) : string := r_path r +:+ r_sep r +:+ e_name f.
Definition removed (o : list (effect job)) : list string := omap (λ x, match x with FsRemove p => Some p | _ => None end) o.
(** The loop works off what it sent itself; [times k] is the time of its [k]th
    turn. *)
Fixpoint drain (times : nat -> Z) (fuel k : nat) (w : world) : world :=
  match fuel with
  | O => w
  | S fuel =>
      match to_self w with
      | [] => w
      | (i, path, n, rm) :: l => drain times fuel (S k) (handle (times k) (RemoveFile i path n rm) (set_to_self l w))
      end
  end.
Lemma removed_app o o' : removed (o ++ o') = removed o ++ removed o'.
Proof. unfold removed. by rewrite omap_app. Qed.
Lemma drain_done times fuel k w : to_self w = [] -> drain times fuel k w = w.
Proof. intros H. destruct fuel; [done|]. simpl. by rewrite H. Qed.

(** A turn for the [m]th of the files. *)
Lemma remove_turn now i r m f w : remove_jobs w !! i = Some r -> no_confirm r = true -> to_self w = [] ->
  let w' := handle now (RemoveFile i (path_of r f) (Z.of_nat m) false) w in
  removed (out w') = removed (out w) ++ [path_of r f]
  /\ match r_files r !! S m with
     | Some f' => exists r', remove_jobs w' !! i = Some r' /\ no_confirm r' = true /\ r_files r' = r_files r
                    /\ (forall g, path_of r' g = path_of r g) /\ r_is_remote r' = r_is_remote r
                    /\ to_self w' = [(i, path_of r f', Z.of_nat (S m), r_is_remote r)]
     | None => remove_jobs w' !! i = None /\ to_self w' = []
     end.
Proof.
  intros Hr Hn Ht. cbv zeta. cbn [handle]. unfold remove_file. set (err := err_of _). clearbody err.
  unfold handle_job_status. cbn [emit set_out remove_jobs]. rewrite Hr, Hn.
  assert (nth_file (Z.of_nat m + 1) (r_files r) = r_files r !! S m) as ->.
  { unfold nth_file. destruct (Z.ltb_spec (Z.of_nat m + 1) 0); [lia|]. f_equal. lia. }
  destruct (r_files r !! S m) as [f'|] eqn:Ef; cbv zeta.
  - destruct (1000 <=? _).
    + cbn [out emit set_out set_removes set_to_self to_self remove_jobs]. rewrite lookup_insert_eq, Ht, !removed_app. split; [by destruct err; rewrite app_nil_r|].
      eexists. split_and!; [reflexivity|done|done|done|done|]. simpl. repeat f_equal. lia.
    + cbn [out emit set_out set_removes set_to_self to_self remove_jobs]. rewrite Ht, removed_app. split; [done|].
      exists r. split_and!; try done. simpl. repeat f_equal. lia.
  - cbn [out emit set_out set_removes set_to_self to_self remove_jobs]. rewrite lookup_delete_eq, !removed_app. split; [by destruct err; rewrite app_nil_r|]. done.
Qed.
Lemma drain_walks times i m r w k : remove_jobs w !! i = Some r -> no_confirm r = true -> r_is_remote r = false ->
  forall f, r_files r !! m = Some f -> to_self w = [(i, path_of r f, Z.of_nat m, false)] ->
  forall fuel, (length (r_files r) - m <= fuel)%nat ->
  let w' := drain times fuel k w in
  removed (out w') = removed (out w) ++ map (path_of r) (drop m (r_files r))
  /\ remove_jobs w' !! i = None /\ to_self w' = [].
Proof.
  intros Hr Hn Hl f Hf Ht fuel. revert m r w k f Hr Hn Hl Hf Ht. induction fuel as [|fuel IH]; intros m r w k f Hr Hn Hl Hf Ht Hfuel; cbv zeta.
  - apply lookup_lt_Some in Hf. lia.
  - cbn [drain]. rewrite Ht. set (w0 := set_to_self [] w).
    destruct (remove_turn (times k) i r m f w0) as [E1 E2]; [done..|]. set (w1 := handle _ _ w0) in *. clearbody w1.
    rewrite (drop_S _ f m) by done. cbn [map].
    destruct (r_files r !! S m) as [f'|] eqn:Ef.
    + destruct E2 as (r' & Hr' & Hn' & Hfs & Hp & Hrm & Hto). rewrite Hl in Hrm, Hto.
      destruct (IH (S m) r' w1 (S k) f') as (I1 & I2 & I3).
      * done.
      * done.
      * done.
      * by rewrite Hfs.
      * rewrite Hp. exact Hto.
      * rewrite Hfs. lia.
      * split_and!; [|done|done]. rewrite I1, E1, <- app_assoc, Hfs. f_equal. simpl. f_equal. apply map_ext. exact Hp.
    + destruct E2 as [E2 E3]. rewrite drain_done by done. split_and!; [|done|done]. rewrite E1.
      rewrite (drop_ge _ (S m)) by (by apply lookup_ge_None in Ef). done.
Qed.

(** A folder is removed to its end.  Once the technician has said not to be
    asked again and the first file is under way, the loop removes every file of the
    list once and in its order, whatever becomes of each removal and however long
    it takes, in exactly as many turns as there are files; then the job is over. *)
Theorem folder_removal_ends times i r f w k : remove_jobs w !! i = Some r -> no_confirm r = true -> r_is_remote r = false ->
  head (r_files r) = Some f -> to_self w = [(i, path_of r f, 0, false)] ->
  let w' := drain times (length (r_files r)) k w in
  removed (out w') = removed (out w) ++ map (path_of r) (r_files r)
  /\ remove_jobs w' !! i = None /\ to_self w' = [].
Proof.
  intros Hr Hn Hl Hf Ht. cbv zeta. assert (r_files r !! 0%nat = Some f) as Hf0 by (by destruct (r_files r)).
  destruct (drain_walks times i 0 r w k Hr Hn Hl f Hf0 Ht (length (r_files r))) as (H1 & H2 & H3); [lia|]. by rewrite drop_0 in H1.
Qed.

(** C38: a list of files that is not safe ends its download.  When the register
    answers with names the library refuses, the job and what it has written are
    taken away, the register is told, no file of the list is kept, and the
    technician sees the reason. *)
Theorem unsafe_list_ends_download now i path l j err w :
  get_job i (write_jobs w) = Some j -> set_files l j = Err err ->
  let w' := handle now (Dir i path l) w in
  out w' = out w ++ [PCancel i; RemoveDownload j; JobError i err (-1)]
  /\ write_jobs w' = (remove_job i (write_jobs w)).2 /\ read_jobs w' = (remove_job i (read_jobs w)).2
  /\ remove_jobs w' !! i = None /\ to_self w' = to_self w.
Proof.
  intros Hj He. cbv zeta. cbn [handle]. unfold on_dir. rewrite Hj, He.
  assert ((remove_job i (write_jobs w)).1 = Some j) as Hr.
  { clear He. induction (write_jobs w) as [|j0 r IH]; simpl in *; [done|]. destruct (id j0 =? i); [by injection Hj as ->|].
    specialize (IH Hj). destruct (remove_job i r). done. }
  unfold cancel_transfer_job. cbv zeta. cbn [write_jobs emit set_out]. destruct (remove_job i (write_jobs w)) as [o rest]. simpl in Hr. subst o.
  unfold handle_job_status. cbn [remove_jobs set_removes emit set_out set_read set_write]. rewrite lookup_delete_eq.
  cbn [out emit set_out set_removes set_read set_write write_jobs read_jobs remove_jobs to_self snd]. rewrite lookup_delete_eq, <- !app_assoc. done.
Qed.

(** ** The timer *)
Definition served (w : world) : Prop := read_jobs w = [] \/ timer_fast w = true.
Lemma served_report w w' : report w w' -> served w -> served w'.
Proof. intros [H1 _ H3 _]. unfold served. by rewrite H1, H3. Qed.
Lemma update_nil i f l : update_job i f l = [] -> l = [].
Proof. destruct l as [|j l]; [done|]. simpl. by destruct (id j =? i). Qed.
Lemma nil_update i f l : l = [] -> update_job i f l = [].
Proof. by intros ->. Qed.

(** An upload under way is worked on.  Over any run the timer is the fast one
    whenever there is a job that reads. *)
Theorem uploads_are_served l w : served w -> served (run l w).
Proof.
  revert w. induction l as [|[now ev] l IH]; intros w H; [done|]. cbn [run foldl]. apply IH. clear IH l.
  unfold step. cbn [fst snd]. assert (served (set_out [] w)) as H0 by done. revert H0. generalize (set_out [] w). clear w H. intros w H.
  assert (forall k n err w', served w' -> served (handle_job_status now k n err w')) as Hs
    by (intros k n err w' Hw; by apply (served_report w'); [apply report_status|]).
  assert (forall k f, served (on_read k f w)) as Hr.
  { intros k f. destruct H as [H|H]; [left; simpl; by apply nil_update|by right]. }
  assert (forall k, served (cancel_transfer_job k w)) as Hc.
  { intros k. unfold cancel_transfer_job. cbv zeta. cbn [write_jobs emit set_out]. destruct (remove_job k (write_jobs w)) as [o r].
    destruct H as [H|H]; [left|right; by destruct o]. destruct o; simpl; by rewrite H. }
  destruct ev as [k t path to n hid rm|k t path to n hid rm|k rm|k|k n|k n need rem up|k path sep rm hid|k|k path|k path n rm|k path rm
    |k path nn rm|k src dst mv rm|path|k path l|d|b|k n|k n err|q| ]; cbn [handle].
  - unfold send_files. cbv zeta. destruct rm; [exact H|]. destruct (new_read _ _ _ _ _ _ _ _ _); [by right|by apply Hs].
  - unfold add_job. cbv zeta. destruct rm; [done|]. destruct (new_read _ _ _ _ _ _ _ _ _); [by right|by apply Hs].
  - unfold resume_job. destruct rm; [by destruct (get_job _ _)|]. destruct (get_job _ _) as [j|]; [|done]. destruct (data_source j); [|done].
    match goal with |- served (emit _ (on_read k ?f w)) => exact (Hr k f) end.
  - done.
  - unfold confirm_delete_files. by repeat case_match.
  - unfold set_confirm_override_file. cbv zeta. destruct up; destruct (get_job _ _); done.
  - unfold remove_dir_all. destruct rm; [done|]. destruct (get_recursive_files _ _ _); [done|by apply Hs].
  - apply Hc.
  - done.
  - unfold remove_file. destruct rm; [done|by apply Hs].
  - destruct rm; [done|by apply Hs].
  - destruct rm; [done|by apply Hs].
  - destruct rm; [done|by apply Hs].
  - done.
  - unfold on_dir. destruct (get_job _ _) as [j|]; [|done]. destruct (set_files l j); [done|]. apply Hs, Hc.
  - unfold on_digest. cbv zeta. destruct (d_is_upload d).
    + destruct (get_job _ _) as [j|]; [|done]. destruct (nth_file _ _); [|done]. destruct (data_source j); [|done].
      destruct (known_answer d j); [|done]. match goal with |- served (emit _ (on_read ?k ?f w)) => exact (Hr k f) end.
    + by repeat case_match.
  - unfold on_block. destruct (get_job _ _) as [j|]; [|done]. cbv zeta. destruct (bool_decide _); [|done].
    apply (served_report (on_write (b_id b) (write now b) w)); [apply report_jobs_status|done].
  - unfold on_done. destruct (remove_job k (write_jobs w)) as [o r]. cbv zeta. destruct o as [j|]; [|by apply Hs].
    destruct (type j); [by apply Hs|]. by repeat case_match.
  - unfold on_error. destruct (remove_job k (write_jobs w)) as [o r]. cbv zeta. destruct o as [j|].
    + destruct (type j); [by apply Hs|done].
    + cbn [read_jobs set_write]. destruct (remove_job k (read_jobs w)) as [o r'] eqn:E.
      assert (served (set_read r' (set_write r w))) as H1.
      { destruct H as [H|H]; [left|by right]. rewrite H in E. simpl in E. by injection E as <- <-. }
      destruct (match o with Some j => type j | None => Generic end); [by apply Hs|done].
  - destruct (get_job _ _); [apply Hr|done].
  - unfold timer_tick. destruct (read_jobs w) as [|j r] eqn:Er; [by left|]. rewrite <- Er.
    destruct (handle_read_jobs now (read_jobs w)) as [l'|err]; [|done].
    apply (served_report (set_read l' w)); [apply report_jobs_status|]. destruct H as [H|H]; [by rewrite Er in H|by right].
Qed.
End transfer.

(** ** Inputs *)

(** Jobs without contents; names with a slash are refused; the files [a.txt] and
    [b.txt] exist; removing [y] fails. *)
Record toy := mkToy { t_id : Z; t_type : JobType; t_path : DataSource; t_files : list FileEntry; t_last : bool; t_resume : bool; t_over : option bool }.
Definition toy_with (l : list FileEntry) (last resume : bool) (over : option bool) (j : toy) : toy :=
  mkToy (t_id j) (t_type j) (t_path j) l last resume over.
Definition safe (l : list FileEntry) : bool := forallb (λ f, negb (contains "/" (e_name f))) l.
#[export] Program Instance toy_jobs : ClientJobs := {
  job := toy; id := t_id; type := t_type; remote := λ _, EmptyString; data_source := t_path; file_num := λ _, 0; show_hidden := λ _, false;
  files := t_files; is_last_job := t_last; is_resume := t_resume; default_overwrite_strategy := t_over; total_size := λ _, 0;
  transferred := λ _, 0; finished_size := λ _, 0; job_error := λ _, None;
  new_write i t _ d _ _ _ _ := mkToy i t d [] false false None;
  new_read _ i t _ path _ _ _ _ := Ok (mkToy i t (FilePath path) [mkEntry "a.txt" 1] false false None);
  set_last_job b j := toy_with (t_files j) b (t_resume j) (t_over j) j;
  set_resume b j := toy_with (t_files j) (t_last j) b (t_over j) j;
  set_overwrite_strategy o j := toy_with (t_files j) (t_last j) (t_resume j) o j;
  set_finished_size_on_resume _ j := j;
  set_files l j := if safe l then Ok (toy_with l (t_last j) (t_resume j) (t_over j) j) else Err "unsafe path"%string;
  set_digest _ _ j := j; confirm _ _ j := j; write _ _ j := j; handle_read_jobs _ l := Ok (tail l); get_buf_data _ := None;
  is_write_need_confirmation _ _ p d := Ok (if String.eqb p "dir/a.txt" || String.eqb p "dir/b.txt" then NeedConfirm d else NoSuchFile);
  join p n := p +:+ "/" +:+ n; can_enable_overwrite_detection _ := true;
  get_recursive_files _ _ _ := Ok [mkEntry "x" 1; mkEntry "y" 1; mkEntry "z" 1];
  fs_remove_file _ p := if String.eqb p "dir/y" then Err "in use"%string else Ok tt; fs_create_dir _ _ := Ok tt;
  fs_rename_file _ _ _ := Ok tt; fs_copy_path _ _ _ _ := Ok tt; transform_windows_path l := l;
}.
Next Obligation. intros now b p d d'. simpl. destruct (_ || _); [by intros [= <-]|done]. Qed.
Next Obligation. done. Qed.
Next Obligation. by intros now i t r s n h rm od j [= <-]. Qed.
Next Obligation. done. Qed.
Next Obligation. done. Qed.
Next Obligation. done. Qed.
Next Obligation. done. Qed.
Next Obligation. intros l j j'. simpl. destruct (safe l); [by intros [= <-]|done]. Qed.
Next Obligation. done. Qed.
Next Obligation. done. Qed.
Next Obligation. done. Qed.
Next Obligation. intros now l l' [= <-] j' Hj. exists j'. split; [|done]. destruct l; [done|by right]. Qed.

Definition window : world := mkWorld [] [] ∅ false (0, ∅) 0 true (λ _, true) ∅ [] [].
(** A folder with one file that exists and one that does not. *)
Definition download : list (Z * event) :=
  [(0, SendFiles 7 Generic "C:/src" "dir" 0 false true); (1, Dir 7 "C:/src" [mkEntry "a.txt" 1; mkEntry "new.txt" 1]);
   (2, Digest (mkDigest 7 0 5 9 false false 0)); (3, Digest (mkDigest 7 1 5 9 false false 0))].

Definition three : RemoveJob := mkRemove [mkEntry "x" 1; mkEntry "y" 1; mkEntry "z" 1] "dir" "/" false true 0.
Definition removing : world := set_to_self [(4, "dir/x"%string, 0, false)] (set_removes {[4 := three]} window).
Lemma folder_removal_ends_witness :
  let w' := drain (λ k, Z.of_nat k * 400) (length (r_files three)) 1 removing in
  removed (out w') = ["dir/x"; "dir/y"; "dir/z"]%string /\ remove_jobs w' !! 4 = None.
Proof.
  cbv zeta. destruct (folder_removal_ends (λ k, Z.of_nat k * 400) 4 three (mkEntry "x" 1) removing 1) as (H1 & H2 & _);
    [vm_compute; reflexivity|reflexivity|reflexivity|reflexivity|reflexivity|]. split; [|exact H2]. rewrite H1. reflexivity.
Defined.
Lemma unsafe_list_ends_download_witness :
  let w := run (take 1 download) window in
  let w' := handle 1 (Dir 7 "C:/src" [mkEntry "../evil" 1]) (set_out [] w) in
  write_jobs w' = [] /\ hd_error (out w') = Some (PCancel 7).
Proof.
  cbv zeta. destruct (unsafe_list_ends_download (cj := toy_jobs) 1 7 "C:/src" [mkEntry "../evil" 1]
    (mkToy 7 Generic (FilePath "dir") [] false false None) "unsafe path" (set_out [] (run (take 1 download) window))) as (H1 & H2 & _);
    [vm_compute; reflexivity|vm_compute; reflexivity|]. rewrite H1, H2. split; reflexivity.
Defined.
Lemma uploads_are_served_witness : served window
  /\ served (run [(0, SendFiles 7 Generic "src" "dst" 0 false false)] window)
  /\ read_jobs (run [(0, SendFiles 7 Generic "src" "dst" 0 false false)] window) <> [].
Proof.
  assert (served window) as H by (by left). split; [exact H|]. split; [|by vm_compute].
  apply (uploads_are_served [(0, SendFiles 7 Generic "src" "dst" 0 false false)] window H).
Defined.

(** Within a second of the last report the failure to remove a file is not reported
    at all. *)
Example removal_error_unseen :
  let w' := drain (λ k, Z.of_nat k * 400) 3 1 removing in
  removed (out w') = ["dir/x"; "dir/y"; "dir/z"]%string
  /\ existsb (λ x, match x with JobError _ _ _ => true | _ => false end) (out w') = false.
Proof. vm_compute. done. Qed.
End Transfer.
