(* ===== verification/ClipFile.v ===== *)
(** * File lists on the clipboard ([src/src/clipboard_file.rs],
    [src/libs/clipboard/src/lib.rs], [src/libs/clipboard/src/platform/unix])

    Files copied on one machine are pasted on the other: the copying side sends
    the list of the files as a table of fixed-size descriptors and then serves
    ranges of their contents.  This file translates the messages, the channels
    between the connections and the clipboard, the writing and the reading of the
    table, the collecting of the files and the serving of their contents.

    The file system and the UTF-16 encoding are outside.  [None] in place of a
    result is a panic, which ends the process ([panic = 'abort']); arithmetic is
    that of the release build, which wraps around. *)

From Stdlib Require Import Ascii Strings.Byte.
From coqutil Require Import Word.LittleEndianList.
From S2P Require Import Prelude RustStr.
#[local] Open Scope Z_scope.

Module ClipFile.
Abbreviation bytes := (list byte).

(** ** Messages *)
Record contents_request := mkContents {
  stream_id : Z; list_index : Z; dw_flags : Z; n_position_low : Z; n_position_high : Z; cb_requested : Z;
  have_clip_data_id : bool; clip_data_id : Z;
}.
Inductive ClipboardFile :=
  | NotifyCallback (type title text : string)
  | MonitorReady
  | FormatList (format_list : list (Z * string))
  | FormatListResponse (msg_flags : Z)
  | FormatDataRequest (requested_format_id : Z)
  | FormatDataResponse (msg_flags : Z) (format_data : bytes)
  | FileContentsRequest (r : contents_request)
  | FileContentsResponse (msg_flags stream : Z) (requested_data : bytes)
  | TryEmpty
  | Files (files : list (string * Z)).
Definition is_stopping_allowed (c : ClipboardFile) : bool :=
  match c with MonitorReady | FormatList _ | FormatDataRequest _ => true | _ => false end.
Definition is_beginning_message (c : ClipboardFile) : bool :=
  match c with MonitorReady | FormatList _ => true | _ => false end.

(** The messages of the protocol. *)
Inductive cliprdr :=
  | Ready | CFormatList (formats : list (Z * string)) | CFormatListResponse (msg_flags : Z)
  | CFormatDataRequest (requested_format_id : Z) | CFormatDataResponse (msg_flags : Z) (format_data : bytes)
  | CFileContentsRequest (r : contents_request) | CFileContentsResponse (msg_flags stream : Z) (requested_data : bytes)
  | CTryEmpty | CFiles (files : list (string * Z)).
Inductive message := MessageBox (msgtype title text link : string) | Cliprdr (union : option cliprdr).

(** [file_len]: the length of a file, if it can be read. *)
Definition clip_2_msg (file_len : string -> option Z) (clip : ClipboardFile) : message :=
  match clip with
  | NotifyCallback type title text => MessageBox type title text EmptyString
  | MonitorReady => Cliprdr (Some Ready)
  | FormatList l => Cliprdr (Some (CFormatList l))
  | FormatListResponse f => Cliprdr (Some (CFormatListResponse f))
  | FormatDataRequest i => Cliprdr (Some (CFormatDataRequest i))
  | FormatDataResponse f d => Cliprdr (Some (CFormatDataResponse f d))
  | FileContentsRequest r => Cliprdr (Some (CFileContentsRequest r))
  | FileContentsResponse f s d => Cliprdr (Some (CFileContentsResponse f s d))
  | TryEmpty => Cliprdr (Some CTryEmpty)
  | Files l =>
      Cliprdr (Some (CFiles (omap (λ x, if x.2 =? 0 then option_map (λ n, (x.1, n)) (file_len x.1) else Some x) l)))
  end.
Definition msg_2_clip (msg : option cliprdr) : option ClipboardFile :=
  match msg with
  | Some Ready => Some MonitorReady
  | Some (CFormatList l) => Some (FormatList l)
  | Some (CFormatListResponse f) => Some (FormatListResponse f)
  | Some (CFormatDataRequest i) => Some (FormatDataRequest i)
  | Some (CFormatDataResponse f d) => Some (FormatDataResponse f d)
  | Some (CFileContentsRequest r) => Some (FileContentsRequest r)
  | Some (CFileContentsResponse f s d) => Some (FileContentsResponse f s d)
  | Some CTryEmpty => Some TryEmpty
  | Some (CFiles _) | None => None
  end.

(** ** The channels, one per connection *)
Record MsgChannel := mkChannel { peer_id : string; conn_id : Z; queue : list ClipboardFile }.
Record channels := mkChannels { VEC_MSG_CHANNEL : list MsgChannel; CLIENT_CONN_ID_COUNTER : Z }.
Definition with_peer (p : string) (c : MsgChannel) : bool := String.eqb (peer_id c) p.
Definition with_conn (i : Z) (c : MsgChannel) : bool := conn_id c =? i.
Definition get_client_conn_id (p : string) (s : channels) : option Z :=
  option_map conn_id (List.find (with_peer p) (VEC_MSG_CHANNEL s)).
Definition get_conn_id (s : channels) : Z * channels :=
  let n := Int.to_signed 32 (CLIENT_CONN_ID_COUNTER s + 1) in (n, mkChannels (VEC_MSG_CHANNEL s) n).
Definition get_rx_cliprdr_client (p : string) (s : channels) : Z * channels :=
  match List.find (with_peer p) (VEC_MSG_CHANNEL s) with
  | Some c => (conn_id c, s)
  | None => let '(n, s) := get_conn_id s in (n, mkChannels (VEC_MSG_CHANNEL s ++ [mkChannel p n []]) (CLIENT_CONN_ID_COUNTER s))
  end.
Definition get_rx_cliprdr_server (i : Z) (s : channels) : channels :=
  match List.find (with_conn i) (VEC_MSG_CHANNEL s) with
  | Some _ => s
  | None => mkChannels (VEC_MSG_CHANNEL s ++ [mkChannel EmptyString i []]) (CLIENT_CONN_ID_COUNTER s)
  end.
Fixpoint remove_first {A} (p : A -> bool) (l : list A) : list A :=
  match l with [] => [] | x :: l => if p x then l else x :: remove_first p l end.
Fixpoint update_first {A} (p : A -> bool) (f : A -> A) (l : list A) : list A :=
  match l with [] => [] | x :: l => if p x then f x :: l else x :: update_first p f l end.
Definition remove_channel_by_conn_id (i : Z) (s : channels) : channels :=
  mkChannels (remove_first (with_conn i) (VEC_MSG_CHANNEL s)) (CLIENT_CONN_ID_COUNTER s).
Definition put (d : ClipboardFile) (c : MsgChannel) : MsgChannel := mkChannel (peer_id c) (conn_id c) (queue c ++ [d]).

Inductive CliprdrError := CliprdrInit | ConversionFailure | FileError (path : string) | InvalidRequest (description : string).
Definition send_data_to_channel (i : Z) (d : ClipboardFile) (s : channels) : result channels CliprdrError :=
  match List.find (with_conn i) (VEC_MSG_CHANNEL s) with
  | Some _ => Ok (mkChannels (update_first (with_conn i) (put d) (VEC_MSG_CHANNEL s)) (CLIENT_CONN_ID_COUNTER s))
  | None => Err (InvalidRequest "conn_id not found")
  end.
Definition send_data_to_all (d : ClipboardFile) (s : channels) : channels :=
  mkChannels (map (put d) (VEC_MSG_CHANNEL s)) (CLIENT_CONN_ID_COUNTER s).
Definition send_data_exclude (i : Z) (d : ClipboardFile) (s : channels) : channels :=
  mkChannels (map (λ c, if with_conn i c then c else put d c) (VEC_MSG_CHANNEL s)) (CLIENT_CONN_ID_COUNTER s).
(** Outside Windows, connection 0 is all of them. *)
Definition send_data (i : Z) (d : ClipboardFile) (s : channels) : result channels CliprdrError :=
  if i =? 0 then Ok (send_data_to_all d s) else send_data_to_channel i d s.

(** ** Paths: the texts and their components, as [std::path] has them *)
Inductive comp := RootDir | CurDir | ParentDir | Normal (s : string).
#[export] Instance comp_eq_dec : EqDecision comp.
Proof. solve_decision. Defined.
Definition slash : Ascii.ascii := "/"%char.
Definition skipped (p : string) : bool := is_empty p || String.eqb p ".".
Definition comp_of (p : string) : comp := if String.eqb p ".." then ParentDir else Normal p.
(** A path: how it begins, and the pieces between its separators. *)
Record pieces := mkPieces { front : option comp; body : list string }.
Definition pieces_of (s : string) : pieces :=
  if is_empty s then mkPieces None []
  else match split slash s with
       | f :: l => if is_empty f then mkPieces (Some RootDir) l
                   else if String.eqb f "." then mkPieces (Some CurDir) l
                   else mkPieces None (f :: l)
       | [] => mkPieces None []
       end.
Definition front_list (p : pieces) : list comp := match front p with Some c => [c] | None => [] end.
Definition body_comps (l : list string) : list comp := map comp_of (List.filter (λ p, negb (skipped p)) l).
Definition components (s : string) : list comp := let p := pieces_of s in front_list p ++ body_comps (body p).
Fixpoint trim_left (l : list string) : list string :=
  match l with p :: r => if skipped p then trim_left r else l | [] => [] end.
Definition trim_right (l : list string) : list string := rev (trim_left (rev l)).
Definition text_of (p : pieces) : string :=
  let b := String.concat "/" (body p) in
  match front p, body p with
  | Some RootDir, _ => "/" +:+ b
  | Some _, [] => "."
  | Some _, _ => "./" +:+ b
  | None, _ => b
  end.
Definition parent (s : string) : option string :=
  let p := pieces_of s in
  match rev (trim_right (body p)) with
  | _ :: r => Some (text_of (mkPieces (front p) (trim_right (rev r))))
  | [] => match front p with Some CurDir => Some EmptyString | _ => None end
  end.
Definition file_name (s : string) : option string :=
  match List.last (components s) RootDir with Normal n => Some n | _ => None end.
Definition join (dir name : string) : string :=
  if is_empty dir || ends_with "/" dir then dir +:+ name else dir +:+ "/" +:+ name.
(** The pieces after the first [n] components. *)
Fixpoint after (n : nat) (l : list string) : list string :=
  match n, l with
  | S n', p :: l => if skipped p then after n l else after n' l
  | _, _ => l
  end.
Definition rest_of (base s : string) : string :=
  let p := pieces_of s in
  let n := length (components base) in
  match n with
  | O => text_of (mkPieces (front p) (trim_right (body p)))
  | _ => String.concat "/" (trim_right (trim_left (after (n - length (front_list p)) (body p))))
  end.
Definition strip_prefix (base s : string) : option string :=
  if bool_decide (components base `prefix_of` components s) then Some (rest_of base s) else None.

(** ** The descriptors *)
Definition FLAGS_FD_ATTRIBUTES : Z := 0x04.
Definition FLAGS_FD_SIZE : Z := 0x40.
Definition FLAGS_FD_LAST_WRITE : Z := 0x20.
Definition FLAGS_FD_PROGRESSUI : Z := 0x4000.
Definition FLAGS_FD_UNIX_MODE : Z := 0x08.
Definition LDAP_EPOCH_DELTA : Z := 116444772610000000.
Definition PERM_READ : Z := 292.
Definition PERM_RW : Z := 420.
Definition PERM_SELF_RO : Z := 256.
Definition PERM_RWX : Z := 493.

(** The UTF-16 of a text, two bytes to a unit; a text with zeros behind it is
    read back with NULs behind it. *)
Class Utf16 := {
  utf16 : string -> bytes;
  of_utf16 : bytes -> option string;
  utf16_even s : Nat.Even (length (utf16 s));
  utf16_app s t : utf16 (s +:+ t) = utf16 s ++ utf16 t;
  utf16_nul : utf16 (String Ascii.zero EmptyString) = [Byte.x00; Byte.x00];
  of_utf16_inv s : of_utf16 (utf16 s) = Some s;
}.

Inductive FileType := File | Directory.
#[export] Instance FileType_eq_dec : EqDecision FileType.
Proof. solve_decision. Defined.
(** Times in nanoseconds since 1970; the four times are the same here. *)
Record FileDescription := mkDesc {
  fd_conn_id : Z; fd_name : string; fd_kind : FileType; fd_last_modified : Z; fd_size : Z; fd_perm : Z;
}.
(** What [as_bin] looks at; [handle]: the position of the open file. *)
Record LocalFile := mkLocal {
  relative_root : string; path : string; handle : option Z; offset : Z; name : string; size : Z;
  last_write_time : Z; is_dir : bool; perm : Z; read_only : bool; hidden : bool; system : bool; archive : bool; normal : bool;
}.

Section descriptors.
Context {u16 : Utf16}.

Fixpoint replace_char (a b : Ascii.ascii) (s : string) : string :=
  match s with EmptyString => EmptyString | String c r => String (if Ascii.eqb c a then b else c) (replace_char a b r) end.
Definition zeros (n : nat) : bytes := repeat Byte.x00 n.
Definition flag (b : bool) (f : Z) : Z := if b then f else 0.
Definition attributes (f : LocalFile) : Z :=
  Z.lor (flag (read_only f) 0x1) (Z.lor (flag (hidden f) 0x2) (Z.lor (flag (system f) 0x4)
    (Z.lor (flag (is_dir f) 0x10) (Z.lor (flag (archive f) 0x20) (flag (normal f) 0x80))))).
Definition written_flags : Z :=
  Z.lor FLAGS_FD_SIZE (Z.lor FLAGS_FD_LAST_WRITE (Z.lor FLAGS_FD_ATTRIBUTES (Z.lor FLAGS_FD_PROGRESSUI FLAGS_FD_UNIX_MODE))).
Definition win32_time (f : LocalFile) : Z :=
  Int.wrap 64 (Int.wrap 64 (Z.max 0 (last_write_time f)) / 100 + LDAP_EPOCH_DELTA).
Definition relative_name (f : LocalFile) : string := default (path f) (strip_prefix (relative_root f) (path f)).
Definition as_bin (f : LocalFile) : option bytes :=
  let nm := utf16 (relative_name f) in
  if (520 <? length nm)%nat then None              (** [520 - name_len] *)
  else Some
    (le_split 4 written_flags ++ zeros 32 ++ le_split 4 (attributes f) ++ zeros 12 ++ le_split 4 (perm f)
     ++ le_split 8 (win32_time f) ++ le_split 4 (Z.shiftr (size f) 32) ++ le_split 4 (Z.land (size f) Int.u32_max)
     ++ nm ++ zeros (520 - length nm)).

(** Reading from the front of a buffer: too few bytes are a panic. *)
Definition advance (n : nat) (b : bytes) : option bytes := if (length b <? n)%nat then None else Some (skipn n b).
Definition get_le (n : nat) (b : bytes) : option (Z * bytes) :=
  if (length b <? n)%nat then None else Some (le_combine (firstn n b), skipn n b).
Definition has (flags f : Z) : bool := negb (Z.land flags f =? 0).
Definition trim_nul (s : string) : string := trim_end_char Ascii.zero s.
Definition parsed_perm (from_unix : bool) (attrs perm : Z) : Z :=
  if from_unix then Int.wrap 16 perm
  else if attrs =? 0x80 then PERM_RWX
  else if has attrs 0x01 then PERM_READ
  else if has attrs 0x02 then PERM_SELF_RO
  else if has attrs 0x10 then PERM_RWX
  else PERM_RW.
Definition parsed_time (flags t : Z) : Z :=
  if has flags FLAGS_FD_LAST_WRITE && (LDAP_EPOCH_DELTA <=? t) then Int.wrap 64 ((t - LDAP_EPOCH_DELTA) * 100) else 0.
Definition parse_file_descriptor (b : bytes) (conn : Z) : option (result FileDescription CliprdrError * bytes) :=
  '(flags, b) ← get_le 4 b;
  b ← advance 32 b;
  '(attrs, b) ← get_le 4 b;
  b ← advance 12 b;
  '(pm, b) ← get_le 4 b;
  '(last_write, b) ← get_le 8 b;
  '(high, b) ← get_le 4 b;
  '(low, b) ← get_le 4 b;
  let block := firstn 520 b in
  b ← advance 520 b;
  Some (match of_utf16 block with
        | None => Err ConversionFailure
        | Some wstr =>
            if negb (has flags FLAGS_FD_ATTRIBUTES) then Err (InvalidRequest "file description must have valid attributes")
            else Ok (mkDesc conn (trim_nul (replace_char "\"%char slash wstr))
                       (if has attrs 0x10 then Directory else File) (parsed_time flags last_write)
                       (Z.shiftl high 32 + low) (parsed_perm (has flags FLAGS_FD_UNIX_MODE) attrs pm))
        end, b).
Fixpoint parse_loop (count : nat) (b : bytes) (conn : Z) : option (result (list FileDescription) CliprdrError) :=
  match count with
  | O => Some (Ok [])
  | S n =>
      '(r, b) ← parse_file_descriptor b conn;
      match r with
      | Err e => Some (Err e)
      | Ok d => l ← parse_loop n b conn; Some (let? l := l in Ok (d :: l))
      end
  end.
Definition parse_file_descriptors (pdu : bytes) (conn : Z) : option (result (list FileDescription) CliprdrError) :=
  if (length pdu <? 4)%nat then Some (Err (InvalidRequest "file descriptor request with infficient length"))
  else
    '(count, b) ← get_le 4 pdu;
    if (length b =? 0)%nat && (count =? 0) then Some (Ok [])
    else if negb (Z.of_nat (length b) =? 592 * count)
    then Some (Err (InvalidRequest "file descriptor request with invalid length"))
    else parse_loop (Z.to_nat count) b conn.
Definition file_list_pdu (l : list LocalFile) : option bytes :=
  bs ← mapM as_bin l; Some (le_split 4 (Z.of_nat (length l)) ++ concat bs).

(** ** Collecting the files *)
Record meta := mkMeta { m_len : Z; m_is_dir : bool; m_is_file : bool; m_readonly : bool; m_mode : Z; m_modified : option Z }.
(** The file system; an entry of a directory may fail to be read. *)
Record fs := mkFs {
  metadata : string -> option meta;
  read_dir : string -> option (list (option string));
  contents : string -> option bytes;
}.
Context (e : fs).

Definition try_open (root p : string) : result LocalFile CliprdrError :=
  match metadata e p with
  | None => Err (FileError p)
  | Some mt =>
      let hidden := starts_with "." p in
      Ok (mkLocal root p None 0 (replace_char slash "\"%char (trim_start_char slash p)) (m_len mt)
            (default 0 (m_modified mt)) (m_is_dir mt) (m_mode mt) (m_readonly mt) hidden false false
            (negb (m_is_dir mt || m_readonly mt || false || hidden || false)))
  end.
(** The files found so far and the paths visited.  [fuel] bounds the depth of
    the directories; [None]: they are deeper. *)
Definition found : Type := list LocalFile * list (list comp).
Fixpoint constr_file_lst (fuel : nat) (root p : string) (st : found) : option (result found CliprdrError) :=
  match fuel with
  | O => None
  | S n =>
      if bool_decide (components p ∈ st.2) then Some (Ok st)
      else match try_open root p with
           | Err x => Some (Err x)
           | Ok f =>
               let st := (st.1 ++ [f], components p :: st.2) in
               match metadata e p with
               | None => Some (Err (FileError p))
               | Some mt =>
                   if m_is_dir mt then
                     match read_dir e p with
                     | None => Some (Err (FileError p))
                     | Some l =>
                         (fix entries (l : list (option string)) (st : found) :=
                            match l with
                            | [] => Some (Ok st)
                            | None :: _ => Some (Err (FileError p))
                            | Some x :: l =>
                                match constr_file_lst n root (join p x) st with
                                | Some (Ok st) => entries l st
                                | r => r
                                end
                            end) l st
                     end
                   else Some (Ok st)
               end
           end
  end.
Fixpoint constr_all (fuel : nat) (root : string) (l : list string) (st : found) : option (result found CliprdrError) :=
  match l with
  | [] => Some (Ok st)
  | p :: l => match constr_file_lst fuel root p st with Some (Ok st) => constr_all fuel root l st | r => r end
  end.
Definition construct_file_list (fuel : nat) (paths : list string) : option (result (list LocalFile) CliprdrError) :=
  match paths with
  | [] => Some (Err (InvalidRequest "empty file list"))
  | p :: _ =>
      match parent p with
      | None => Some (Err (InvalidRequest "empty parent"))
      | Some root =>
          match constr_all fuel root paths ([], []) with
          | Some (Ok st) => Some (Ok st.1)
          | Some (Err x) => Some (Err x)
          | None => None
          end
      end
  end.

(** ** Serving the contents *)
Inductive FileContentsReq :=
  | Size (stream : Z) (file_idx : Z)
  | Range (stream : Z) (file_idx : Z) (off length : Z).
Record ClipFiles := mkClip { files : list string; file_list : list LocalFile; first_file_index : Z; files_pdu : bytes }.
Definition usize_max : Z := Int.u64_max.
Definition clear_files (c : ClipFiles) : ClipFiles := mkClip [] [] usize_max [].
Definition path_is (p : meta -> bool) (f : LocalFile) : bool := match metadata e (path f) with Some m => p m | None => false end.
Fixpoint position {A} (p : A -> bool) (l : list A) : option nat :=
  match l with [] => None | x :: l => if p x then Some 0%nat else option_map S (position p l) end.
(** [None]: the directories are deeper than [fuel], or a panic. *)
Definition sync_files (fuel : nat) (l : list string) (c : ClipFiles) : option (result unit CliprdrError * ClipFiles) :=
  if bool_decide (files c = l) then Some (Ok tt, c)
  else match construct_file_list fuel l with
       | None => None
       | Some (Err x) => Some (Err x, c)
       | Some (Ok fl) =>
           let first := match position (λ f, negb (path_is m_is_dir f)) fl with Some n => Z.of_nat n | None => usize_max end in
           pdu ← file_list_pdu fl; Some (Ok tt, mkClip l fl first pdu)
       end.
Definition get_file_list_pdu (c : ClipFiles) : bytes := files_pdu c.

Definition set_reading (h : option Z) (o : Z) (f : LocalFile) : LocalFile :=
  mkLocal (relative_root f) (path f) h o (name f) (size f) (last_write_time f) (is_dir f) (perm f) (read_only f)
    (hidden f) (system f) (archive f) (normal f).
Definition load_handle (f : LocalFile) : result LocalFile CliprdrError :=
  if is_dir f then Ok f
  else match handle f with
       | Some _ => Ok f
       | None => match contents e (path f) with Some _ => Ok (set_reading (Some 0) (offset f) f) | None => Err (FileError (path f)) end
       end.
Definition slice (o n : Z) (c : bytes) : bytes := firstn (Z.to_nat n) (skipn (Z.to_nat o) c).
(** A read that fails leaves the file at its end. *)
Definition read_exact_at (n off : Z) (f : LocalFile) : result bytes CliprdrError * LocalFile :=
  match load_handle f with
  | Err x => (Err x, f)
  | Ok f =>
      match handle f with
      | None => (Err (FileError (path f)), f)
      | Some pos =>
          let pos := if off =? offset f then pos else off in
          let c := default [] (contents e (path f)) in
          if (n =? 0) || (pos + n <=? Z.of_nat (length c)) then
            let new_offset := Int.wrap 64 (off + n) in
            (Ok (slice pos n c), if size f <=? new_offset then set_reading None 0 f else set_reading (Some (pos + n)) new_offset f)
          else (Err (FileError (path f)), set_reading (Some (Z.max pos (Z.of_nat (length c)))) (offset f) f)
      end
  end.
(** The next file is opened ahead of its first request. *)
Fixpoint load_next (l : list LocalFile) : result (list LocalFile) CliprdrError :=
  match l with
  | [] => Ok []
  | f :: l => if is_dir f then let? l := load_next l in Ok (f :: l) else let? f := load_handle f in Ok (f :: l)
  end.
Definition with_list (l : list LocalFile) (c : ClipFiles) : ClipFiles := mkClip (files c) l (first_file_index c) (files_pdu c).
Definition isize_max : Z := 2 ^ 63 - 1.
Definition nth_local (i : Z) (l : list LocalFile) : option LocalFile := l !! Z.to_nat i.
Definition i32_text (z : Z) : string := if z <? 0 then "-" +:+ to_string (- z) else to_string z.
Definition invalid_index (i conn : Z) : CliprdrError :=
  InvalidRequest ("invalid file index " +:+ to_string i +:+ " requested from conn: " +:+ i32_text conn).
(** After an answer about file [i]. *)
Definition reload (i : Z) (answer : ClipboardFile) (c : ClipFiles) : result ClipboardFile CliprdrError * ClipFiles :=
  let k := S (Z.to_nat i) in
  match load_next (skipn k (file_list c)) with
  | Ok l => (Ok answer, with_list (firstn k (file_list c) ++ l) c)
  | Err x => (Err x, c)
  end.
Definition serve_file_contents (conn : Z) (r : FileContentsReq) (c : ClipFiles) : option (result ClipboardFile CliprdrError * ClipFiles) :=
  match r with
  | Size stream i =>
      match nth_local i (file_list c) with
      | None => Some (Err (invalid_index i conn), c)
      | Some f => Some (reload i (FileContentsResponse 0x1 stream (le_split 8 (size f))) c)
      end
  | Range stream i off len =>
      match nth_local i (file_list c) with
      | None => Some (Err (invalid_index i conn), c)
      | Some f =>
          if size f <? off then Some (Err (InvalidRequest ("invalid reading offset requested from conn: " +:+ i32_text conn)), c)
          else
            let read_size := if size f <? Int.wrap 64 (off + len) then size f - off else len in
            if isize_max <? read_size then None
            else
              let '(r, f) := read_exact_at read_size off f in
              let c := with_list (<[Z.to_nat i := f]> (file_list c)) c in
              match r with
              | Err x => Some (Err x, c)
              | Ok buf => Some (reload i (FileContentsResponse 0x1 stream buf) c)
              end
      end
  end.
Definition get_files_for_audit (r : FileContentsReq) (c : ClipFiles) : option ClipboardFile :=
  match r with
  | Range _ i 0 _ =>
      if i =? first_file_index c then
        match omap (λ f, if path_is m_is_file f then Some (path f, size f) else None) (file_list c) with
        | [] => None
        | l => Some (Files l)
        end
      else None
  | _ => None
  end.
Definition as_usize (i : Z) : Z := Int.wrap 64 i.
Definition request_of (r : contents_request) : option FileContentsReq :=
  if dw_flags r =? 0x1 then Some (Size (stream_id r) (as_usize (list_index r)))
  else if dw_flags r =? 0x2 then
    let off := Z.lor (Int.wrap 64 (Z.shiftl (as_usize (n_position_high r)) 32)) (as_usize (n_position_low r)) in
    Some (Range (stream_id r) (as_usize (list_index r)) off (as_usize (cb_requested r)))
  else None.
Definition read_file_contents (conn : Z) (r : contents_request) (c : ClipFiles)
    : option (list (result ClipboardFile CliprdrError) * ClipFiles) :=
  match request_of r with
  | None => Some ([Err (InvalidRequest ("got invalid FileContentsRequest, dw_flats: " +:+ i32_text (dw_flags r)))], c)
  | Some q =>
      '(x, c') ← serve_file_contents conn q c;
      Some ((match get_files_for_audit q c with Some a => [Ok a] | None => [] end) ++ [x], c')
  end.

(** ** The table of descriptors *)
Lemma get_le_split n z r : get_le n (le_split n z ++ r) = Some (z mod 2 ^ (Z.of_nat n * 8), r).
Proof.
  unfold get_le. rewrite length_app, length_le_split.
  destruct (Nat.ltb_spec (n + length r) n); [lia|].
  rewrite firstn_app, length_le_split, Nat.sub_diag, firstn_O, app_nil_r.
  rewrite firstn_all2 by (rewrite length_le_split; lia).
  rewrite skipn_app, length_le_split, Nat.sub_diag, skipn_O.
  rewrite skipn_all2 by (rewrite length_le_split; lia). by rewrite le_combine_split.
Qed.
Lemma advance_app n b r : length b = n -> advance n (b ++ r) = Some r.
Proof.
  intros <-. unfold advance. rewrite length_app. destruct (Nat.ltb_spec (length b + length r) (length b)); [lia|].
  by rewrite skipn_app, skipn_all, Nat.sub_diag.
Qed.
Lemma has_written : has written_flags FLAGS_FD_ATTRIBUTES = true /\ has written_flags FLAGS_FD_UNIX_MODE = true
  /\ has written_flags FLAGS_FD_LAST_WRITE = true /\ written_flags mod 2 ^ 32 = written_flags.
Proof. by vm_compute. Qed.
Lemma has_directory f : has (attributes f mod 2 ^ (Z.of_nat 4 * 8)) 0x10 = is_dir f.
Proof.
  unfold attributes. generalize (read_only f), (hidden f), (system f), (is_dir f), (archive f), (normal f).
  by intros [] [] [] [] [] [].
Qed.
Lemma pad_text k s : of_utf16 (utf16 s ++ zeros (2 * k)) = Some (s +:+ String.string_of_list_ascii (repeat Ascii.zero k)).
Proof.
  rewrite <- of_utf16_inv, utf16_app. do 2 f_equal.
  induction k as [|k IH]; [symmetry|].
  - simpl. assert (length (utf16 EmptyString) = 0)%nat as E.
    { pose proof (f_equal length (utf16_app EmptyString EmptyString)) as H. rewrite length_app in H. simpl in H. lia. }
    by destruct (utf16 EmptyString).
  - replace (2 * S k)%nat with (S (S (2 * k)))%nat by lia. simpl zeros. simpl repeat. simpl String.string_of_list_ascii.
    change (String Ascii.zero ?x) with (String Ascii.zero EmptyString +:+ x). rewrite utf16_app, utf16_nul, <- IH. done.
Qed.
Lemma text_nil_r s : s +:+ EmptyString = s.
Proof. induction s as [|c s IH]; simpl; [done|]. by rewrite IH. Qed.
Lemma replace_app a b s t : replace_char a b (s +:+ t) = replace_char a b s +:+ replace_char a b t.
Proof. induction s as [|c s IH]; simpl; [done|]. by rewrite IH. Qed.
Lemma trim_nul_pad s k : trim_nul (s +:+ String.string_of_list_ascii (repeat Ascii.zero k)) = trim_nul s.
Proof.
  revert s. induction k as [|k IH]; intros s; simpl; [by rewrite text_nil_r|].
  change (String Ascii.zero ?x) with (String Ascii.zero EmptyString +:+ x). rewrite <- string_app_assoc, IH.
  unfold trim_nul, trim_end_char. by rewrite rev_snoc.
Qed.

Lemma time_back t : let w := Int.wrap 64 (Int.wrap 64 (Z.max 0 t) / 100 + LDAP_EPOCH_DELTA) in
  parsed_time written_flags (w mod 2 ^ (Z.of_nat 8 * 8)) = Int.wrap 64 (Z.max 0 t) / 100 * 100.
Proof.
  cbv zeta. unfold parsed_time. rewrite (proj1 (proj2 (proj2 has_written))). simpl andb.
  pose proof (Int.wrap_in 64 (Z.max 0 t) ltac:(lia)) as [H1 H2]. change (2 ^ 64) with 18446744073709551616 in H2.
  generalize dependent (Int.wrap 64 (Z.max 0 t)). intros x H1 H2.
  assert (0 <= x / 100 <= 184467440737095517) by (split; [apply Z.div_pos|apply Z.div_le_upper_bound]; lia).
  rewrite (Int.wrap_small 64 (x / 100 + _)) by (split; unfold LDAP_EPOCH_DELTA; change (2 ^ 64) with 18446744073709551616; lia).
  rewrite Z.mod_small by (unfold LDAP_EPOCH_DELTA; split; [lia|]; change (2 ^ (Z.of_nat 8 * 8)) with (2 ^ 64); change (2 ^ 64) with 18446744073709551616; lia).
  destruct (LDAP_EPOCH_DELTA <=? _) eqn:E; bool_prop; [|lia].
  replace (x / 100 + LDAP_EPOCH_DELTA - LDAP_EPOCH_DELTA) with (x / 100) by lia.
  apply Int.wrap_small. pose proof (Z.mul_div_le x 100 ltac:(lia)). split; [lia|]. change (2 ^ 64) with 18446744073709551616. lia.
Qed.
Lemma size_back n : Z.shiftl (Z.shiftr n 32 mod 2 ^ (Z.of_nat 4 * 8)) 32 + Z.land n Int.u32_max mod 2 ^ (Z.of_nat 4 * 8)
  = Int.wrap 64 n.
Proof.
  change (2 ^ (Z.of_nat 4 * 8)) with (2 ^ 32). change Int.u32_max with (Z.ones 32).
  rewrite Z.land_ones, Z.mod_mod, Z.shiftr_div_pow2, Z.shiftl_mul_pow2 by lia. unfold Int.wrap.
  replace (2 ^ 64) with (2 ^ 32 * 2 ^ 32) by reflexivity. rewrite Z.rem_mul_r by lia. lia.
Qed.
Lemma perm_back n : Int.wrap 16 (n mod 2 ^ (Z.of_nat 4 * 8)) = Int.wrap 16 n.
Proof.
  unfold Int.wrap. change (2 ^ (Z.of_nat 4 * 8)) with (2 ^ 16 * 2 ^ 16). rewrite Z.rem_mul_r by lia.
  rewrite (Z.mul_comm (2 ^ 16)), Z.mod_add, Z.mod_mod by lia. done.
Qed.

(** What is read back for a file. *)
Definition described (conn : Z) (f : LocalFile) : FileDescription :=
  mkDesc conn (trim_nul (replace_char "\"%char slash (relative_name f))) (if is_dir f then Directory else File)
    (Int.wrap 64 (Z.max 0 (last_write_time f)) / 100 * 100) (Int.wrap 64 (size f)) (Int.wrap 16 (perm f)).
Lemma parse_as_bin f b r conn : as_bin f = Some b -> parse_file_descriptor (b ++ r) conn = Some (Ok (described conn f), r).
Proof.
  unfold as_bin. destruct (Nat.ltb_spec 520 (length (utf16 (relative_name f)))) as [|Hn]; [done|].
  intros H. apply (inj Some) in H. subst b. unfold parse_file_descriptor. rewrite <- !app_assoc.
  rewrite get_le_split; cbn [mbind option_bind]. rewrite advance_app by done; cbn [mbind option_bind].
  rewrite get_le_split; cbn [mbind option_bind]. rewrite advance_app by done; cbn [mbind option_bind].
  do 4 (rewrite get_le_split; cbn [mbind option_bind]).
  set (nm := utf16 (relative_name f)) in *.
  assert (length (nm ++ zeros (520 - length nm)) = 520)%nat as HL by (rewrite length_app; unfold zeros; rewrite repeat_length; lia).
  rewrite (app_assoc nm). rewrite advance_app by exact HL; cbn [mbind option_bind].
  rewrite firstn_app, HL, Nat.sub_diag, firstn_O, app_nil_r, firstn_all2 by (rewrite HL; lia).
  destruct (utf16_even (relative_name f)) as [k Hk]. fold nm in Hk.
  replace (520 - length nm)%nat with (2 * (260 - k))%nat by lia. unfold nm. rewrite pad_text.
  destruct has_written as (E1 & E2 & E3 & E4). change (2 ^ 32) with (2 ^ (Z.of_nat 4 * 8)) in E4.
  rewrite !E4, E1, E2. simpl negb. cbv iota.
  do 3 f_equal. unfold described. f_equal.
  - rewrite replace_app. replace (replace_char "\"%char slash (String.string_of_list_ascii (repeat Ascii.zero (260 - k))))
      with (String.string_of_list_ascii (repeat Ascii.zero (260 - k))); [apply trim_nul_pad|].
    generalize (260 - k)%nat. induction n as [|n IH]; simpl; [done|]. by rewrite <- IH.
  - by rewrite has_directory.
  - apply time_back.
  - apply size_back.
  - apply perm_back.
Qed.
Lemma as_bin_length f b : as_bin f = Some b -> length b = 592%nat.
Proof.
  unfold as_bin. destruct (Nat.ltb_spec 520 (length (utf16 (relative_name f)))); [done|].
  intros H'. apply (inj Some) in H'. subst b.
  rewrite !length_app, !length_le_split. unfold zeros. rewrite !repeat_length. lia.
Qed.
Lemma parse_loop_all l bs conn : mapM as_bin l = Some bs ->
  length (concat bs) = (592 * length l)%nat /\ parse_loop (length l) (concat bs) conn = Some (Ok (map (described conn) l)).
Proof.
  revert bs. induction l as [|f l IH]; intros bs H; [by injection H as <-|].
  simpl in H. destruct (as_bin f) as [b|] eqn:E; [|done]. simpl in H. destruct (mapM as_bin l) as [bs'|] eqn:E'; [|done].
  injection H as <-. destruct (IH bs' eq_refl) as [IH1 IH2]. split.
  - cbn [concat length]. rewrite length_app, IH1, (as_bin_length f b E). lia.
  - cbn [concat length parse_loop]. rewrite (parse_as_bin f b _ conn E). simpl. by rewrite IH2.
Qed.

(** *** What a reader gets *)
Record mirrors (conn : Z) (f : LocalFile) (d : FileDescription) : Prop := {
  m_conn : fd_conn_id d = conn;
  m_kind : fd_kind d = Directory <-> is_dir f = true;
  m_size : Int.in_u 64 (size f) -> fd_size d = size f;
  m_perm : Int.in_u 16 (perm f) -> fd_perm d = perm f;
  m_time : Int.in_u 64 (last_write_time f) -> 0 <= last_write_time f - fd_last_modified d < 100;
  m_name : no_char "\"%char (relative_name f) = true -> no_char Ascii.zero (relative_name f) = true -> fd_name d = relative_name f;
}.
Lemma replace_absent a b s : no_char a s = true -> replace_char a b s = s.
Proof.
  induction s as [|c s IH]; simpl; [done|]. intros H.
  change (negb (Ascii.eqb c a) && no_char a s = true) in H. apply andb_prop in H as [H1%negb_true_iff H2]. by rewrite H1, IH.
Qed.
Lemma trim_nul_absent s : no_char Ascii.zero s = true -> trim_nul s = s.
Proof.
  intros H. unfold trim_nul, trim_end_char. destruct (String.string_dec s EmptyString) as [->|Hne]; [done|].
  destruct (string_last s Hne) as (m & c & ->). rewrite rev_snoc. unfold no_char in H. rewrite all_chars_app in H.
  apply andb_prop in H as [_ H]. cbn [all_chars] in H. apply andb_prop in H as [H%negb_true_iff _].
  cbn [trim_start_char]. by rewrite H, rev_cons, rev_involutive.
Qed.
Lemma described_mirrors conn f : mirrors conn f (described conn f).
Proof.
  constructor; unfold described; cbn [fd_conn_id fd_kind fd_size fd_perm fd_last_modified fd_name].
  - done.
  - by destruct (is_dir f).
  - apply Int.wrap_small.
  - apply Int.wrap_small.
  - intros [H1 H2]. rewrite Int.wrap_small by (split; lia). rewrite Z.max_r by lia.
    pose proof (Z.div_mod (last_write_time f) 100 ltac:(lia)). pose proof (Z.mod_pos_bound (last_write_time f) 100 ltac:(lia)). lia.
  - intros H1 H2. by rewrite replace_absent, trim_nul_absent.
Qed.

Lemma parse_pdu l pdu conn : file_list_pdu l = Some pdu -> Z.of_nat (length l) < 2 ^ 32 ->
  parse_file_descriptors pdu conn = Some (Ok (map (described conn) l)).
Proof.
  unfold file_list_pdu. destruct (mapM as_bin l) as [bs|] eqn:E; [|done]. cbn [mbind option_bind]. intros H Hl.
  apply (inj Some) in H. subst pdu. destruct (parse_loop_all l bs conn E) as [HL HP].
  unfold parse_file_descriptors. rewrite length_app, length_le_split, HL.
  destruct (Nat.ltb_spec (4 + 592 * length l) 4); [lia|]. rewrite get_le_split. cbn [mbind option_bind].
  change (2 ^ (Z.of_nat 4 * 8)) with (2 ^ 32). rewrite Z.mod_small by lia. rewrite HL.
  destruct (Nat.eqb_spec (592 * length l) 0) as [H0|H0].
  - destruct l; [done|simpl in H0; lia].
  - simpl andb. cbv iota. destruct (Z.eqb_spec (Z.of_nat (592 * length l)) (592 * Z.of_nat (length l))); [|lia].
    simpl. rewrite Nat2Z.id. exact HP.
Qed.
Lemma all_mirrored conn l : Forall2 (mirrors conn) l (map (described conn) l).
Proof. induction l; simpl; constructor; [apply described_mirrors|done]. Qed.
Lemma parse_mirrors l pdu conn ds : file_list_pdu l = Some pdu -> Z.of_nat (length l) < 2 ^ 32 ->
  parse_file_descriptors pdu conn = Some (Ok ds) -> Forall2 (mirrors conn) l ds.
Proof. intros H Hl. rewrite (parse_pdu l pdu conn H Hl). intros [= <-]. apply all_mirrored. Qed.

(** C31: the table the copying side writes is read back by the other as the same
    files in the same order, with their kinds, sizes, permissions, names and
    times (to 100 ns). *)
Theorem listing_is_read_back l pdu conn : file_list_pdu l = Some pdu -> Z.of_nat (length l) < 2 ^ 32 ->
  exists ds, parse_file_descriptors pdu conn = Some (Ok ds) /\ Forall2 (mirrors conn) l ds.
Proof. intros H Hl. exists (map (described conn) l). split; [by apply parse_pdu|apply all_mirrored]. Qed.

Lemma get_le_some n b : (n <= length b)%nat -> exists v, get_le n b = Some (v, skipn n b).
Proof. intros H. unfold get_le. destruct (Nat.ltb_spec (length b) n); [lia|eauto]. Qed.
Lemma advance_some n b : (n <= length b)%nat -> advance n b = Some (skipn n b).
Proof. intros H. unfold advance. destruct (Nat.ltb_spec (length b) n); [lia|done]. Qed.
Lemma parse_one_total b conn : (592 <= length b)%nat -> exists r, parse_file_descriptor b conn = Some (r, skipn 592 b).
Proof.
  intros H. unfold parse_file_descriptor.
  do 8 (first
    [ destruct (get_le_some 4 b ltac:(lia)) as (? & ->)
    | match goal with
      | |- context [get_le ?n (skipn ?k b)] => destruct (get_le_some n (skipn k b) ltac:(rewrite length_skipn; lia)) as (? & ->)
      | |- context [advance ?n (skipn ?k b)] => rewrite (advance_some n (skipn k b)) by (rewrite length_skipn; lia)
      end ]; cbn [mbind option_bind]; rewrite ?skipn_skipn; cbn [Nat.add]).
  rewrite advance_some by (rewrite length_skipn; lia). cbn [mbind option_bind]. rewrite skipn_skipn. cbn [Nat.add]. eauto.
Qed.
Lemma parse_loop_total n b conn : length b = (592 * n)%nat ->
  exists r, parse_loop n b conn = Some r /\ match r with Ok ds => length ds = n | Err _ => True end.
Proof.
  revert b. induction n as [|n IH]; intros b H; [by eexists|].
  destruct (parse_one_total b conn ltac:(lia)) as (r & E). cbn [parse_loop]. rewrite E. cbn [mbind option_bind].
  destruct r as [d|x]; [|by eexists].
  destruct (IH (skipn 592 b)) as (r & -> & Hr); [rewrite length_skipn; lia|]. cbn [mbind option_bind].
  destruct r as [ds|x]; eexists; (split; [reflexivity|simpl; auto]).
Qed.

(** Whatever bytes the other side sends as a table, reading them does not
    bring the process down, and a table that is accepted is exactly as long as
    the files read from it need. *)
Theorem any_table_is_read pdu conn : exists r, parse_file_descriptors pdu conn = Some r
  /\ match r with Ok ds => length pdu = (4 + 592 * length ds)%nat | Err _ => True end.
Proof.
  unfold parse_file_descriptors. destruct (Nat.ltb_spec (length pdu) 4) as [|H]; [by eexists|].
  destruct (get_le_some 4 pdu H) as (count & ->). cbn [mbind option_bind]. rewrite length_skipn.
  destruct ((length pdu - 4 =? 0)%nat && (count =? 0)) eqn:E0.
  { eexists; split; [reflexivity|]. apply andb_prop in E0 as [E0 _]. apply Nat.eqb_eq in E0. simpl. lia. }
  destruct (Z.eqb_spec (Z.of_nat (length pdu - 4)) (592 * count)) as [E|]; [|by eexists].
  simpl. destruct (parse_loop_total (Z.to_nat count) (skipn 4 pdu) conn) as (r & Hr & Hl); [rewrite length_skipn; lia|].
  exists r. split; [exact Hr|]. destruct r as [ds|]; [|done]. lia.
Qed.

(** ** What is served *)

(** The answer, from the contents of the files alone: no open files, no positions. *)
Definition plain_answer (conn : Z) (r : FileContentsReq) (l : list LocalFile) : option (result ClipboardFile CliprdrError) :=
  match r with
  | Size stream i =>
      Some (match nth_local i l with
            | None => Err (invalid_index i conn)
            | Some f => Ok (FileContentsResponse 0x1 stream (le_split 8 (size f)))
            end)
  | Range stream i off len =>
      match nth_local i l with
      | None => Some (Err (invalid_index i conn))
      | Some f =>
          if size f <? off then Some (Err (InvalidRequest ("invalid reading offset requested from conn: " +:+ i32_text conn)))
          else if isize_max <? (if size f <? Int.wrap 64 (off + len) then size f - off else len) then None
          else Some (if is_dir f then Err (FileError (path f))
                     else Ok (FileContentsResponse 0x1 stream (slice off len (default [] (contents e (path f))))))
      end
  end.
(** A file whose contents are as long as they were when it was listed. *)
Definition kept (f : LocalFile) : Prop :=
  is_dir f = true \/ exists c, contents e (path f) = Some c /\ Z.of_nat (length c) = size f /\ size f <= isize_max.
(** An open file stands where its last read ended; one that is not open at 0. *)
Definition steady (f : LocalFile) : Prop :=
  if is_dir f then handle f = None else handle f = Some (offset f) \/ handle f = None /\ offset f = 0.
Definition unread (f : LocalFile) : LocalFile := set_reading None 0 f.
Definition good (l : list LocalFile) : Prop := Forall (λ f, kept f /\ steady f /\ 0 <= size f) l.
Lemma load_handle_good f : kept f -> steady f ->
  exists f', load_handle f = Ok f' /\ unread f' = unread f /\ steady f' /\ offset f' = offset f
    /\ (is_dir f = false -> handle f' = Some (offset f)).
Proof.
  intros Hk Hs. unfold load_handle, steady in *. destruct (is_dir f) eqn:Ed; [exists f; rewrite Ed; split_and!; done|].
  destruct (handle f) as [p|] eqn:Eh.
  - exists f. rewrite Ed. destruct Hs as [Hs|[Hs _]]; [|done]. injection Hs as ->. split_and!; auto.
  - destruct Hk as [Hk|(c & Hc & _)]; [congruence|]. rewrite Hc. destruct Hs as [Hs|[_ Hs]]; [done|].
    exists (set_reading (Some 0) (offset f) f). cbn. rewrite Ed, Hs. split_and!; auto.
Qed.
Lemma load_next_good l : good l -> exists l', load_next l = Ok l' /\ map unread l' = map unread l /\ good l'.
Proof.
  induction l as [|f l IH]; intros H; [by exists []|]. apply Forall_cons in H as [(Hk & Hs & Hz) Hl].
  cbn [load_next]. destruct (is_dir f) eqn:Ed.
  - destruct (IH Hl) as (l' & -> & E1 & E2). exists (f :: l'). simpl. rewrite E1. split_and!; [done..|].
    constructor; auto.
  - destruct (load_handle_good f Hk Hs) as (f' & -> & E1 & E2 & E3 & _). exists (f' :: l). simpl. rewrite E1.
    split_and!; [done..|]. constructor; [|done].
    assert (size f' = size f /\ path f' = path f /\ is_dir f' = is_dir f) as (E4 & E5 & E6) by (injection E1; auto).
    unfold kept in *. rewrite E4, E5, E6. auto.
Qed.
Lemma reload_good i a c : good (file_list c) -> exists c', reload i a c = (Ok a, c')
  /\ map unread (file_list c') = map unread (file_list c) /\ good (file_list c')
  /\ first_file_index c' = first_file_index c /\ files_pdu c' = files_pdu c /\ files c' = files c.
Proof.
  intros H. unfold reload. rewrite <- (firstn_skipn (S (Z.to_nat i)) (file_list c)) in H. apply Forall_app in H as [H1 H2].
  destruct (load_next_good _ H2) as (l' & -> & E1 & E2). eexists; split; [reflexivity|]. cbn [file_list with_list].
  split_and!; [|by apply Forall_app|done..].
  rewrite map_app, E1, <- map_app, firstn_skipn. done.
Qed.

Lemma unread_fields f f' : unread f' = unread f -> path f' = path f /\ size f' = size f /\ is_dir f' = is_dir f.
Proof. unfold unread, set_reading. intros H. injection H. auto. Qed.
Lemma file_kept_same f f' : unread f' = unread f -> kept f -> kept f'.
Proof. intros H. destruct (unread_fields f f' H) as (E1 & E2 & E3). unfold kept. by rewrite E1, E2, E3. Qed.
Lemma slice_over o n c : Z.of_nat (length c) <= o + n -> 0 <= o -> 0 <= n -> slice o (Z.of_nat (length c) - o) c = slice o n c.
Proof.
  intros H1 H2 H3. unfold slice. rewrite !firstn_all2; [done|rewrite length_skipn; lia..].
Qed.
Lemma read_good n off f c : is_dir f = false -> steady f -> contents e (path f) = Some c -> Z.of_nat (length c) = size f ->
  size f <= isize_max -> 0 <= off -> 0 <= n -> off + n <= size f ->
  exists f', read_exact_at n off f = (Ok (slice off n c), f') /\ unread f' = unread f /\ steady f'.
Proof.
  intros Ed Hs Hc Hlen Hmax Ho Hn Hle.
  destruct (load_handle_good f) as (f1 & E1 & E2 & E3 & E4 & E5); [right; eauto|done|].
  destruct (unread_fields _ _ E2) as (P1 & P2 & P3).
  unfold read_exact_at. rewrite E1, (E5 Ed), P1, P2, E4, Hc. cbn [default from_option id].
  replace (if off =? offset f then offset f else off) with off by (destruct (Z.eqb_spec off (offset f)); congruence).
  assert ((n =? 0) || (off + n <=? Z.of_nat (length c)) = true) as ->
    by (apply orb_true_iff; right; apply Z.leb_le; lia).
  unfold isize_max in Hmax. rewrite Int.wrap_small by (split; lia).
  eexists; split; [reflexivity|]. split.
  - by destruct (size f <=? off + n).
  - destruct (size f <=? off + n); unfold steady; cbn [is_dir set_reading handle offset]; rewrite P3, Ed; auto.
Qed.
Lemma with_list_good (k : nat) f f' l : l !! k = Some f -> unread f' = unread f -> steady f' -> good l ->
  map unread (<[k := f']> l) = map unread l /\ good (<[k := f']> l).
Proof.
  intros Hk Hu Hs Hl. split.
  - change (map unread) with (fmap (M := list) unread). rewrite list_fmap_insert, Hu.
    apply list_insert_id. by rewrite list_lookup_fmap, Hk.
  - apply Forall_insert; [done|]. destruct (proj1 (Forall_lookup _ _) Hl k f Hk) as (H1 & _ & H3).
    destruct (unread_fields _ _ Hu) as (_ & -> & _). split_and!; [by apply (file_kept_same f)|done..].
Qed.
(** What stays the same while contents are served. *)
Record same (c c' : ClipFiles) : Prop := {
  same_list : map unread (file_list c') = map unread (file_list c);
  same_first : first_file_index c' = first_file_index c;
  same_pdu : files_pdu c' = files_pdu c;
  same_files : files c' = files c;
}.
Lemma same_refl c : same c c.
Proof. by constructor. Qed.
Lemma same_via i a c x k f f' : nth_local i (file_list c) = Some f -> k = Z.to_nat i -> unread f' = unread f -> steady f' ->
  good (file_list c) -> x = with_list (<[k := f']> (file_list c)) c ->
  exists c', reload i a x = (Ok a, c') /\ same c c' /\ good (file_list c').
Proof.
  intros Hi -> Hu Hs Hg ->. destruct (with_list_good (Z.to_nat i) f f' (file_list c) Hi Hu Hs Hg) as [E Hg'].
  destruct (reload_good i a (with_list (<[Z.to_nat i := f']> (file_list c)) c) Hg') as (c' & E' & E1 & E2 & E3 & E4 & E5).
  exists c'. split; [exact E'|]. split; [|done]. constructor; [|done..]. rewrite E1. exact E.
Qed.
Lemma serve_good conn r c : good (file_list c) -> match r with Size _ _ => True | Range _ _ off len => 0 <= off /\ 0 <= len < 2 ^ 64 end ->
  exists c', serve_file_contents conn r c = option_map (λ a, (a, c')) (plain_answer conn r (file_list c))
    /\ same c c' /\ good (file_list c').
Proof.
  intros Hg Hr. unfold serve_file_contents, plain_answer. destruct r as [stream i|stream i off len].
  - destruct (nth_local i (file_list c)) as [f|] eqn:Ei; [|exists c; split_and!; auto using same_refl].
    destruct (reload_good i (FileContentsResponse 1 stream (le_split 8 (size f))) c Hg) as (c' & E & E1 & E2 & E3 & E4 & E5).
    exists c'. rewrite E. split_and!; [done| |done]. by constructor.
  - destruct Hr as [Ho Hl]. destruct (nth_local i (file_list c)) as [f|] eqn:Ei; [|exists c; split_and!; auto using same_refl].
    pose proof (proj1 (Forall_lookup _ _) Hg _ _ Ei) as (Hk & Hs & Hz).
    destruct (size f <? off) eqn:E1; [exists c; split_and!; auto using same_refl|]. bool_prop.
    set (n := if size f <? Int.wrap 64 (off + len) then size f - off else len).
    destruct (isize_max <? n) eqn:E2; [exists c; split_and!; auto using same_refl|]. bool_prop.
    destruct (is_dir f) eqn:Ed.
    + unfold read_exact_at, load_handle. rewrite Ed. unfold steady in Hs. rewrite Ed in Hs. rewrite Hs.
      destruct (with_list_good (Z.to_nat i) f f (file_list c) Ei eq_refl) as [E Hg']; [by unfold steady; rewrite Ed|done|].
      eexists; split_and!; [reflexivity| |exact Hg']. by constructor.
    + destruct Hk as [Hk|(ct & Hc & Hlen & Hmax)]; [congruence|].
      assert (0 <= n /\ off + n <= size f /\ slice off n ct = slice off len ct) as (N1 & N2 & N3).
      { clear Hg. unfold isize_max in *. subst n. destruct (size f <? Int.wrap 64 (off + len)) eqn:E3; bool_prop.
        - split_and!; [lia..|]. rewrite <- Hlen. apply slice_over; [|lia..].
          pose proof (Z.mod_le (off + len) (2 ^ 64) ltac:(lia) ltac:(lia)). unfold Int.wrap in E3. lia.
        - rewrite Int.wrap_small in E3 by (split; lia). split_and!; [lia..|done]. }
      destruct (read_good n off f ct Ed Hs Hc Hlen Hmax Ho N1 N2) as (f' & -> & Hu & Hs').
      destruct (same_via i (FileContentsResponse 1 stream (slice off n ct)) c _ _ f f' Ei eq_refl Hu Hs' Hg eq_refl)
        as (c' & -> & H1 & H2).
      exists c'. rewrite Hc, N3. done.
Qed.

Lemma plain_unread conn r l : plain_answer conn r (map unread l) = plain_answer conn r l.
Proof.
  unfold plain_answer, nth_local. destruct r as [s i|s i o n];
    change (map unread l) with (unread <$> l); rewrite list_lookup_fmap; by destruct (l !! Z.to_nat i).
Qed.
Lemma audit_same r c c' : same c c' -> get_files_for_audit r c' = get_files_for_audit r c.
Proof.
  intros [H1 H2 _ _]. unfold get_files_for_audit. destruct r as [|s i o n]; [done|]. destruct o; [|done..].
  rewrite H2. destruct (i =? first_file_index c); [|done].
  set (g := λ f : LocalFile, if path_is m_is_file f then Some (path f, size f) else None).
  assert (forall l, omap g l = omap g (map unread l)) as E.
  { induction l as [|f l IH]; [done|]. cbn [map].
    assert (forall x l, omap g (x :: l) = match g x with Some y => y :: omap g l | None => omap g l end) as Hc by done.
    rewrite !Hc, IH. done. }
  by rewrite (E (file_list c')), (E (file_list c)), H1.
Qed.
(** The answers to a series of requests, and what each should be by itself. *)
Fixpoint serve_all (conn : Z) (rs : list contents_request) (c : ClipFiles) : option (list (list (result ClipboardFile CliprdrError))) :=
  match rs with
  | [] => Some []
  | r :: rs => '(x, c) ← read_file_contents conn r c; xs ← serve_all conn rs c; Some (x :: xs)
  end.
Definition plain_read (conn : Z) (c : ClipFiles) (r : contents_request) : option (list (result ClipboardFile CliprdrError)) :=
  match request_of r with
  | None => Some [Err (InvalidRequest ("got invalid FileContentsRequest, dw_flats: " +:+ i32_text (dw_flags r)))]
  | Some q =>
      x ← plain_answer conn q (file_list c);
      Some ((match get_files_for_audit q c with Some a => [Ok a] | None => [] end) ++ [x])
  end.
Lemma request_range r q : request_of r = Some q ->
  match q with Size _ _ => True | Range _ _ off len => 0 <= off /\ 0 <= len < 2 ^ 64 end.
Proof.
  unfold request_of. intros H. destruct (dw_flags r =? 1); [by simplify_eq|]. destruct (dw_flags r =? 2); [|done].
  injection H as <-. unfold as_usize. split; [|apply Int.wrap_in; lia].
  apply Z.lor_nonneg. split; apply Int.wrap_in; lia.
Qed.
Lemma read_good_all conn r c : good (file_list c) -> exists c', read_file_contents conn r c = option_map (λ a, (a, c')) (plain_read conn c r)
  /\ same c c' /\ good (file_list c').
Proof.
  intros Hg. unfold read_file_contents, plain_read.
  destruct (request_of r) as [q|] eqn:Eq; [|exists c; split_and!; auto using same_refl].
  destruct (serve_good conn q c Hg (request_range r q Eq)) as (c' & -> & H1 & H2). exists c'.
  split; [|done]. by destruct (plain_answer conn q (file_list c)).
Qed.
Lemma plain_read_same conn r c c' : same c c' -> plain_read conn c' r = plain_read conn c r.
Proof.
  intros H. unfold plain_read. destruct (request_of r) as [q|]; [|done]. rewrite (audit_same q c c' H).
  by rewrite <- (plain_unread conn q (file_list c')), (same_list c c' H), plain_unread.
Qed.

(** A series of requests for the contents gets the answers that follow from
    the files alone: which files are open, where the last read ended and which
    file was opened ahead make no difference. *)
Theorem serving_is_plain conn rs c : good (file_list c) -> serve_all conn rs c = mapM (plain_read conn c) rs.
Proof.
  revert c. induction rs as [|r rs IH]; intros c Hg; [done|].
  destruct (read_good_all conn r c Hg) as (c' & E & Hs & Hg'). cbn [serve_all mapM]. rewrite E.
  destruct (plain_read conn c r) as [x|]; [|done]. simpl. rewrite (IH c' Hg').
  replace (mapM (plain_read conn c') rs) with (mapM (plain_read conn c) rs); [done|].
  clear -Hs. induction rs as [|r rs IH]; simpl; [done|]. by rewrite (plain_read_same conn r c c' Hs), IH.
Qed.

(** *** The files when they are listed *)

(** The lengths told are those of the contents. *)
Definition honest : Prop := forall p m, metadata e p = Some m -> 0 <= m_len m /\
  (m_is_dir m = false -> exists c, contents e p = Some c /\ Z.of_nat (length c) = m_len m /\ m_len m <= isize_max).
Definition fresh (f : LocalFile) : Prop := handle f = None /\ offset f = 0 /\ kept f /\ 0 <= size f.
Lemma try_open_fresh root p f : honest -> try_open root p = Ok f -> fresh f.
Proof.
  intros H. unfold try_open. destruct (metadata e p) as [m|] eqn:E; [|done]. intros [= <-].
  destruct (H p m E) as [H1 H2]. unfold fresh, kept. cbn. split_and!; [done..| |done].
  destruct (m_is_dir m) eqn:Ed; [by left|right; auto].
Qed.
Lemma constr_fresh n root p st st' : honest -> constr_file_lst n root p st = Some (Ok st') ->
  Forall fresh st.1 -> Forall fresh st'.1.
Proof.
  intros H. revert p st st'. induction n as [|n IH]; intros p st st'; [done|]. cbn [constr_file_lst].
  destruct (bool_decide _); [by intros [= <-]|]. destruct (try_open root p) as [f|x] eqn:Ef; [|done].
  destruct (metadata e p) as [m|]; [|done]. intros Hr Hst.
  assert (Forall fresh (st.1 ++ [f])) as Hf
    by (apply Forall_app; split; [done|constructor; [exact (try_open_fresh root p f H Ef)|done]]).
  destruct (m_is_dir m); [|by injection Hr as <-]. destruct (read_dir e p) as [l|]; [|done].
  revert Hr. generalize dependent (components p :: st.2). generalize dependent (st.1 ++ [f]). clear Hst Ef f.
  induction l as [|[x|] l IHl]; intros fl Hfl vs; [by intros [= <-]| |done].
  destruct (constr_file_lst n root (join p x) (fl, vs)) as [[[fl' vs']|]|] eqn:Ec; [|done..].
  apply IHl. exact (IH _ _ _ Ec Hfl).
Qed.
Lemma constr_all_fresh n root l st st' : honest -> constr_all n root l st = Some (Ok st') -> Forall fresh st.1 -> Forall fresh st'.1.
Proof.
  intros H. revert st. induction l as [|p l IH]; intros st; cbn [constr_all]; [by intros [= <-]|].
  destruct (constr_file_lst n root p st) as [[s1|]|] eqn:E; [|done..]. intros Hr Hst.
  exact (IH s1 Hr (constr_fresh n root p st s1 H E Hst)).
Qed.
Lemma construct_fresh n l fl : honest -> construct_file_list n l = Some (Ok fl) -> Forall fresh fl.
Proof.
  intros H. unfold construct_file_list. destruct l as [|p l]; [done|]. destruct (parent p) as [root|]; [|done].
  destruct (constr_all n root (p :: l) ([], [])) as [[st|]|] eqn:E; [|done..]. intros [= <-].
  exact (constr_all_fresh n root _ _ _ H E (Forall_nil_2 _)).
Qed.
Lemma fresh_good l : Forall fresh l -> good l.
Proof.
  intros H. refine (Forall_impl _ _ _ H _). intros f (H1 & H2 & H3 & H4). split_and!; [done| |done].
  unfold steady. rewrite H1, H2. destruct (is_dir f); auto.
Qed.

(** Files found in a file system that tells the lengths right, listed for the
    other side: the list it reads and the contents it is served. *)
Lemma sync_state n l c c' : honest -> files c <> l -> sync_files n l c = Some (Ok tt, c') ->
  good (file_list c') /\ file_list_pdu (file_list c') = Some (files_pdu c') /\ files c' = l.
Proof.
  intros H Hne. unfold sync_files. destruct (bool_decide_reflect (files c = l)) as [|_]; [done|].
  destruct (construct_file_list n l) as [[fl|x]|] eqn:E; [|done..].
  destruct (file_list_pdu fl) as [pdu|] eqn:Ep; [|done]. cbn [mbind option_bind]. intros [= <-]. cbn.
  split_and!; [|done..]. apply fresh_good. exact (construct_fresh n l fl H E).
Qed.

(** *** What goes wrong *)

(** An offset whose low half has its top bit set is read as one beyond the end. *)
Lemma beyond_two_gib conn c r f : dw_flags r = 2 -> 0 <= list_index r -> nth_local (list_index r) (file_list c) = Some f ->
  - 2 ^ 31 <= n_position_low r < 0 -> list_index r < 2 ^ 31 -> size f <= isize_max ->
  exists x q, request_of r = Some q /\ plain_answer conn q (file_list c) = Some (Err (InvalidRequest x)).
Proof.
  intros Hd Hi Hf Hlow Hi2 Hs. unfold request_of. rewrite Hd. simpl. do 2 eexists. split; [reflexivity|].
  unfold plain_answer, as_usize. rewrite (Int.wrap_small 64 (list_index r)) by (split; lia). rewrite Hf.
  assert ((size f <? Z.lor (Int.wrap 64 (Z.shiftl (Int.wrap 64 (n_position_high r)) 32)) (Int.wrap 64 (n_position_low r))) = true) as ->; [|reflexivity].
  apply Z.ltb_lt. set (hi := Int.wrap 64 (Z.shiftl _ _)). set (low := Int.wrap 64 (n_position_low r)).
  assert (0 <= hi) by (apply Int.wrap_in; lia).
  assert (low = n_position_low r + 2 ^ 64) as Hlow2.
  { unfold low, Int.wrap. rewrite <- (Z.mod_add (n_position_low r) 1 (2 ^ 64)) by lia. rewrite Z.mod_small by lia. lia. }
  assert (63 <= Z.log2 (Z.lor hi low)).
  { rewrite Z.log2_lor by lia. apply Z.max_le_iff. right. apply Z.log2_le_pow2; lia. }
  apply Z.log2_le_pow2 in H0; [unfold isize_max in Hs; lia|].
  destruct (Z.le_gt_cases (Z.lor hi low) 0); [|done]. rewrite (Z.log2_nonpos (Z.lor hi low)) in H0 by done. lia.
Qed.
(** A length of -1 at offset 1 makes the sum wrap around, and the buffer asked
    for cannot be had. *)
Lemma negative_length_panics conn c r f : dw_flags r = 2 -> 0 <= list_index r < 2 ^ 31 -> nth_local (list_index r) (file_list c) = Some f ->
  n_position_low r = 1 -> n_position_high r = 0 -> cb_requested r = -1 -> 1 <= size f -> read_file_contents conn r c = None.
Proof.
  intros Hd Hi Hf Hl Hh Hcb Hs. unfold read_file_contents, request_of. rewrite Hd, Hl, Hh, Hcb. simpl.
  unfold serve_file_contents, as_usize. rewrite (Int.wrap_small 64 (list_index r)) by (split; lia). rewrite Hf.
  change (Z.lor _ _) with 1. change (Int.wrap 64 (-1)) with (2 ^ 64 - 1). change (Int.wrap 64 (1 + (2 ^ 64 - 1))) with 0.
  destruct (Z.ltb_spec (size f) 1); [lia|]. destruct (Z.ltb_spec (size f) 0); [lia|]. reflexivity.
Qed.
(** A file that follows and cannot be opened spoils the answer about this one. *)
Lemma next_file_spoils i a c f : skipn (S (Z.to_nat i)) (file_list c) = f :: skipn (S (S (Z.to_nat i))) (file_list c) ->
  is_dir f = false -> handle f = None -> contents e (path f) = None -> (reload i a c).1 = Err (FileError (path f)).
Proof. intros H Hd Hh Hc. unfold reload. rewrite H. cbn [load_next]. unfold load_handle. by rewrite Hd, Hh, Hc. Qed.
(** A name of more than 260 units cannot be listed: the process ends. *)
Lemma long_name_panics l f : In f l -> (520 < length (utf16 (relative_name f)))%nat -> file_list_pdu l = None.
Proof.
  intros Hin Hn. unfold file_list_pdu. replace (mapM as_bin l) with (@None (list bytes)); [done|].
  induction l as [|g l IH]; [done|]. simpl. destruct Hin as [->|Hin].
  - replace (as_bin f) with (@None bytes); [done|]. unfold as_bin.
    destruct (Nat.ltb_spec 520 (length (utf16 (relative_name f)))); [done|lia].
  - rewrite <- (IH Hin). by destruct (as_bin g).
Qed.
(** No file with a full path counts as hidden. *)
Lemma never_hidden root p f : try_open root ("/" +:+ p) = Ok f -> hidden f = false.
Proof. unfold try_open. destruct (metadata e _); [|done]. by intros [= <-]. Qed.
(** The listing sends the separators of this system. *)
Lemma separators_kept : relative_name (mkLocal "/home/u" "/home/u/a/b.txt" None 0 "home\u\a\b.txt" 0 0 false 0 false false false false true) = "a/b.txt".
Proof. reflexivity. Qed.
End descriptors.

(** ** A small machine *)
Definition units (s : string) : bytes := concat (map (λ c, [Ascii.byte_of_ascii c; Byte.x00]) (String.list_ascii_of_string s)).
Fixpoint of_units (b : bytes) : option string :=
  match b with
  | [] => Some EmptyString
  | c :: z :: b => if Byte.eqb z Byte.x00 then option_map (String (Ascii.ascii_of_byte c)) (of_units b) else None
  | _ => None
  end.
#[export] Program Instance latin : Utf16 := {| utf16 := units; of_utf16 := of_units |}.
Next Obligation.
  intros s. unfold units. induction (String.list_ascii_of_string s) as [|c l [k IH]]; [by exists 0%nat|].
  exists (S k). simpl. rewrite IH. lia.
Qed.
Next Obligation.
  intros s t. unfold units. rewrite <- concat_app, <- map_app. do 2 f_equal. induction s as [|c s IH]; simpl; [done|]. by rewrite IH.
Qed.
Next Obligation. done. Qed.
Next Obligation.
  intros s. induction s as [|c s IH]; [done|].
  change (option_map (String (Ascii.ascii_of_byte (Ascii.byte_of_ascii c))) (of_units (units s)) = Some (String c s)).
  by rewrite IH, Ascii.ascii_of_byte_of_ascii.
Qed.
Definition text (s : string) : bytes := String.list_byte_of_string s.
Definition small : fs := mkFs
  (λ p, if String.eqb p "/d/x" then Some (mkMeta 0 true false false 16877 (Some 0))
        else if String.eqb p "/d/x/a" then Some (mkMeta 5 false true false 33188 (Some 1700000000000000123))
        else if String.eqb p "/d/x/b" then Some (mkMeta 3 false true false 33188 None)
        else None)
  (λ p, if String.eqb p "/d/x" then Some [Some "a"%string; Some "b"%string] else None)
  (λ p, if String.eqb p "/d/x/a" then Some (text "hello") else if String.eqb p "/d/x/b" then Some (text "bye") else None).
Definition no_files : ClipFiles := mkClip [] [] 0 [].
Definition synced : ClipFiles := match sync_files small 3 ["/d/x"%string] no_files with Some (_, c) => c | None => no_files end.
Definition ranged (i off len : Z) : contents_request := mkContents 9 i 2 off 0 len false 0.
Example synced_names : map fd_name (match parse_file_descriptors (files_pdu synced) 4 with Some (Ok l) => l | _ => [] end)
  = ["x"; "x/a"; "x/b"]%string.
Proof. vm_compute. reflexivity. Qed.
Example synced_served : serve_all small 4 [ranged 1 1 3; ranged 2 0 9; ranged 0 0 1; ranged 7 0 1] synced
  = Some [[Ok (FileContentsResponse 1 9 (text "ell"))]; [Ok (FileContentsResponse 1 9 (text "bye"))];
          [Err (FileError "/d/x")]; [Err (InvalidRequest "invalid file index 7 requested from conn: 4")]].
Proof. vm_compute. reflexivity. Qed.
Lemma small_honest : honest small.
Proof.
  intros p m. unfold small. cbn.
  destruct (String.eqb p "/d/x") eqn:E1; [by intros [= <-]|].
  destruct (String.eqb p "/d/x/a") eqn:E2; [intros [= <-]; split; [done|]; intros _; eexists; done|].
  destruct (String.eqb p "/d/x/b") eqn:E3; [intros [= <-]; split; [done|]; intros _; eexists; done|]. done.
Qed.
Lemma synced_good : good small (file_list synced) /\ file_list_pdu (file_list synced) = Some (files_pdu synced).
Proof.
  destruct (sync_files small 3 ["/d/x"%string] no_files) as [[r c]|] eqn:E; [|by vm_compute in E].
  assert (synced = c) as -> by (unfold synced; by rewrite E). assert (r = Ok tt) as -> by (vm_compute in E; congruence).
  destruct (sync_state small 3 ["/d/x"%string] no_files c small_honest ltac:(done) E) as (H1 & H2 & _). done.
Qed.
Lemma listing_is_read_back_witness : exists ds, parse_file_descriptors (files_pdu synced) 4 = Some (Ok ds)
  /\ Forall2 (mirrors 4) (file_list synced) ds.
Proof.
  apply (listing_is_read_back (file_list synced) (files_pdu synced) 4); [exact (proj2 synced_good)|vm_compute; reflexivity].
Defined.
Lemma serving_is_plain_witness : serve_all small 4 [ranged 1 1 3; ranged 2 0 9; ranged 0 0 1] synced
  = mapM (plain_read small 4 synced) [ranged 1 1 3; ranged 2 0 9; ranged 0 0 1].
Proof. apply (serving_is_plain small 4 [ranged 1 1 3; ranged 2 0 9; ranged 0 0 1] synced). exact (proj1 synced_good). Defined.
End ClipFile.
