(* ===== verification/Fuse.v ===== *)
(** * Pasting files through a file system
    ([src/libs/clipboard/src/platform/unix/fuse], [src/src/clipboard_file.rs])

    The pasting side mounts the listed files as a read-only file system: a tree
    built from the table, handles for the open files, and reads that ask the
    copying side for a range and wait for its answer.  The kernel calls one
    operation at a time.  [None] in place of a reply is a panic.

    A descriptor's random [stream_id] comes from [rand]; how much of a directory
    fits into one reply, what arrives in time and whether mounting works come
    from outside.  The times of the nodes are left out. *)

From Stdlib Require Import Ascii Strings.Byte Sorting.Sorted.
From S2P Require Import Prelude RustStr ClipFile.
#[local] Open Scope Z_scope.

Module Fuse.
Import ClipFile.

Definition READ_RETRY : Z := 3.
Definition MAX_NAME_LEN : Z := 255.
Definition FUSE_ROOT_ID : Z := 1.
Definition BLOCK_SIZE : Z := 4 * 1024 * 1024.

(** ** Handles *)
Record FileHandles := mkHandles { handlers : list Z; gc : bool }.
(** [slice::binary_search] *)
Fixpoint search_go (fuel : nat) (l : list Z) (x : Z) (base size : nat) : nat :=
  match fuel with
  | O => base
  | S fuel =>
      if (1 <? size)%nat then
        let half := (size / 2)%nat in
        let mid := (base + half)%nat in
        let base := if x <? default 0 (l !! mid) then base else mid in
        search_go fuel l x base (size - half)
      else base
  end.
Definition binary_search (l : list Z) (x : Z) : option nat :=
  match l with
  | [] => None
  | _ => let i := search_go (length l) l x 0 (length l) in
         if bool_decide (l !! i = Some x) then Some i else None
  end.
Definition marked (h : FileHandles) : bool := gc h.
Definition have_handler (fh : Z) (h : FileHandles) : bool := match binary_search (handlers h) fh with Some _ => true | None => false end.
Definition add_handler (fh : Z) (h : FileHandles) : option FileHandles :=
  if marked h then None else Some (mkHandles (handlers h ++ [fh]) (gc h)).
Definition unregister (fh : Z) (h : FileHandles) : option FileHandles :=
  match binary_search (handlers h) fh with
  | Some i => Some (mkHandles (firstn i (handlers h) ++ skipn (S i) (handlers h)) (gc h))
  | None => None
  end.

(** ** The tree *)
Record InodeAttributes := mkAttr { a_inode : Z; a_size : Z; a_last_modified : Z; a_kind : FileType; a_perm : Z }.
Record FuseNode := mkNode {
  n_conn_id : Z; n_stream_id : Z; index : Z; n_parent : option Z; n_name : string;
  attrs : InodeAttributes; children : list Z; file_handlers : FileHandles;
}.
Definition set_children l n := mkNode (n_conn_id n) (n_stream_id n) (index n) (n_parent n) (n_name n) (attrs n) l (file_handlers n).
Definition set_handlers h n := mkNode (n_conn_id n) (n_stream_id n) (index n) (n_parent n) (n_name n) (attrs n) (children n) h.
Definition add_child (i : Z) (n : FuseNode) : FuseNode := set_children (children n ++ [i]) n.
Definition new_root (stream : Z) : FuseNode :=
  mkNode 0 stream 0 None "/" (mkAttr FUSE_ROOT_ID 0 0 Directory PERM_RWX) [] (mkHandles [] false).
(** [from_description], with the parent that [build_tree] sets. *)
Definition from_description (stream inode : Z) (parent : option Z) (nm : string) (d : FileDescription) : FuseNode :=
  mkNode (fd_conn_id d) stream (inode - 2) parent nm
    (mkAttr inode (fd_size d) (fd_last_modified d) (fd_kind d) (fd_perm d)) [] (mkHandles [] false).
Definition node_at (i : Z) (l : list FuseNode) : option FuseNode := if 0 <? i then l !! Z.to_nat (i - 1) else None.
Definition on_node (i : Z) (f : FuseNode -> FuseNode) (l : list FuseNode) : list FuseNode := alter f (Z.to_nat (i - 1)) l.
(** The directories by their paths; a later one replaces an earlier one. *)
Definition roots : Type := list (list comp * Z).
Fixpoint find_root (k : list comp) (m : roots) : option Z :=
  match m with [] => None | (k', v) :: m => if bool_decide (k' = k) then Some v else find_root k m end.
Definition first_roots : roots := [(components "", FUSE_ROOT_ID); (components "/", FUSE_ROOT_ID)].
Definition parent_inode (nm : string) (m : roots) : Z :=
  match parent nm with Some p => default FUSE_ROOT_ID (find_root (components p) m) | None => FUSE_ROOT_ID end.
Definition add_file (rand : Z -> Z) (st : list FuseNode * roots) (d : FileDescription) : result (list FuseNode * roots) CliprdrError :=
  let '(tree, m) := st in
  let inode := Z.of_nat (length tree) + FUSE_ROOT_ID in
  let p := parent_inode (fd_name d) m in
  let tree := on_node p (add_child inode) tree in
  match file_name (fd_name d) with
  | None => Err (FileError (fd_name d))
  | Some base_name =>
      let m := if bool_decide (fd_kind d = Directory) then (components (fd_name d), inode) :: m else m in
      Ok (tree ++ [from_description (rand inode) inode (Some p) base_name d], m)
  end.
Fixpoint add_files (rand : Z -> Z) (l : list FileDescription) (st : list FuseNode * roots) : result (list FuseNode * roots) CliprdrError :=
  match l with [] => Ok st | d :: l => let? st := add_file rand st d in add_files rand l st end.
Definition build_tree (rand : Z -> Z) (l : list FileDescription) : result (list FuseNode) CliprdrError :=
  let? st := add_files rand l ([new_root (rand FUSE_ROOT_ID)], first_roots) in Ok st.1.

(** ** The server *)
Record FuseServer := mkServer { generation : Z; nodes : list FuseNode; file_handle_counter : Z; rx : list ClipboardFile }.
Definition new_server : FuseServer := mkServer 0 [] 0 [].
Definition set_nodes l s := mkServer (generation s) l (file_handle_counter s) (rx s).
Definition set_rx l s := mkServer (generation s) (nodes s) (file_handle_counter s) l.
(** [rand]: by the generation and the inode. *)
Definition load_file_list (rand : Z -> Z -> Z) (l : list FileDescription) (s : FuseServer) : result FuseServer CliprdrError :=
  let? tree := build_tree (rand (generation s)) l in
  Ok (mkServer (Int.wrap 64 (generation s + 1)) tree (file_handle_counter s) (rx s)).

Inductive errno := ENAMETOOLONG | ENOENT | ENOTDIR | EBUSY | EBADF | ENFILE | EIO.
Inductive reply :=
  | RError (e : errno) | REntry (a : InodeAttributes) (generation : Z) | ROpened (fh : Z)
  | RDir (entries : list (Z * Z * FileType * string)) | ROk | RData (b : bytes) | RAttr (a : InodeAttributes) | RStatfs (blocks : Z).

Definition init (stream : Z) (s : FuseServer) : FuseServer :=
  match nodes s with [] => set_nodes [new_root stream] s | _ => s end.
Definition is_directory (n : FuseNode) : bool := bool_decide (a_kind (attrs n) = Directory).
Fixpoint find_child (nm : string) (l : list Z) (all : list FuseNode) : option (option FuseNode) :=
  match l with
  | [] => Some None
  | i :: l => c ← node_at i all; if String.eqb (n_name c) nm then Some (Some c) else find_child nm l all
  end.
Definition lookup (parent : Z) (nm : string) (s : FuseServer) : option reply :=
  if MAX_NAME_LEN <? str_len nm then Some (RError ENAMETOOLONG)
  else match node_at parent (nodes s) with
       | None => Some (RError ENOENT)
       | Some p =>
           if negb (is_directory p) then Some (RError ENOTDIR)
           else r ← find_child nm (children p) (nodes s);
                Some (match r with Some c => REntry (attrs c) (generation s) | None => RError ENOENT end)
       end.
Definition alloc_fd (s : FuseServer) : Z * FuseServer :=
  (file_handle_counter s, mkServer (generation s) (nodes s) (Int.wrap 64 (file_handle_counter s + 1)) (rx s)).
(** Opening a node that passed the checks. *)
Definition opened (ino : Z) (n : FuseNode) (s : FuseServer) : option (reply * FuseServer) :=
  let '(fh, s) := alloc_fd s in
  h ← add_handler fh (file_handlers n);
  Some (ROpened fh, set_nodes (on_node ino (set_handlers h) (nodes s)) s).
Definition opendir (ino : Z) (s : FuseServer) : option (reply * FuseServer) :=
  match node_at ino (nodes s) with
  | None => Some (RError ENOENT, s)
  | Some n =>
      if negb (is_directory n) then Some (RError ENOTDIR, s)
      else if marked (file_handlers n) then Some (RError EBUSY, s)
      else opened ino n s
  end.
Definition open (ino : Z) (s : FuseServer) : option (reply * FuseServer) :=
  match node_at ino (nodes s) with
  | None => Some (RError ENOENT, s)
  | Some n =>
      if is_directory n then Some (RError ENFILE, s)
      else if marked (file_handlers n) then Some (RError EBUSY, s)
      else opened ino n s
  end.
(** The entries of a directory with the offsets of the ones behind them. *)
Definition entry_of (all : list FuseNode) (i : Z) : option (Z * FileType * string) :=
  c ← node_at i all; Some (i, a_kind (attrs c), n_name c).
Definition dir_entries (ino : Z) (n : FuseNode) (all : list FuseNode) : option (list (Z * FileType * string)) :=
  l ← mapM (entry_of all) (children n);
  Some ((ino, Directory, "."%string) ::
        match n_parent n with Some p => [(p, Directory, ".."%string)] | None => [] end ++ l).
Fixpoint number {A} (i : Z) (l : list A) : list (Z * A) := match l with [] => [] | x :: l => (i, x) :: number (i + 1) l end.
(** [room]: how many entries fit into the reply. *)
Definition readdir (ino fh offset : Z) (room : nat) (s : FuseServer) : option reply :=
  match node_at ino (nodes s) with
  | None => Some (RError ENOENT)
  | Some n =>
      if negb (have_handler fh (file_handlers n)) then Some (RError EBADF)
      else if negb (is_directory n) then Some (RError ENOTDIR)
      else
        l ← dir_entries ino n (nodes s);
        let l := List.filter (λ x, as_usize offset <=? x.1) (number 0 l) in
        Some (RDir (map (λ x, (x.2.1.1, x.1 + 1, x.2.1.2, x.2.2)) (firstn room l)))
  end.
Definition closed (ino fh : Z) (n : FuseNode) (s : FuseServer) : reply * FuseServer :=
  match unregister fh (file_handlers n) with
  | None => (RError EBADF, s)
  | Some h => (ROk, set_nodes (on_node ino (set_handlers h) (nodes s)) s)
  end.
Definition releasedir (ino fh : Z) (s : FuseServer) : reply * FuseServer :=
  match node_at ino (nodes s) with
  | None => (RError ENOENT, s)
  | Some n =>
      if negb (is_directory n) then (RError ENOTDIR, s)
      else if negb (have_handler fh (file_handlers n)) then (RError EBADF, s)
      else closed ino fh n s
  end.
Definition release (ino fh : Z) (s : FuseServer) : reply * FuseServer :=
  match node_at ino (nodes s) with None => (RError ENOENT, s) | Some n => closed ino fh n s end.
Definition getattr (ino : Z) (s : FuseServer) : reply :=
  match node_at ino (nodes s) with None => RError ENOENT | Some n => RAttr (attrs n) end.
Definition statfs (s : FuseServer) : reply :=
  RStatfs (foldl (λ b n, b + (a_size (attrs n) / BLOCK_SIZE + if a_size (attrs n) mod BLOCK_SIZE =? 0 then 0 else 1)) 0 (nodes s)).
(** The blocks told of a file. *)
Definition blocks_of (a : InodeAttributes) : Z :=
  if a_size a mod BLOCK_SIZE =? 0 then a_size a / BLOCK_SIZE else a_size a / BLOCK_SIZE + 1.

(** *** Reading *)
Inductive io_error := TimedOut | Failure | InvalidReply | Unsent.
Definition request (n : FuseNode) (offset size : Z) : ClipboardFile :=
  FileContentsRequest (mkContents (n_stream_id n) (Int.to_signed 32 (index n)) 2
    (Int.to_signed 32 (Z.land offset Int.u32_max)) (Int.to_signed 32 (Z.shiftr offset 32)) (Int.to_signed 32 size) false 0).
(** The waiting: [rx] has what arrives, up to the timeout. *)
Fixpoint receive (n : FuseNode) (req : ClipboardFile) (retry_times : Z) (rx : list ClipboardFile) (ch : channels)
    : result bytes io_error * list ClipboardFile * channels :=
  match rx with
  | [] => (Err TimedOut, [], ch)
  | FileContentsResponse flags stream data :: rx =>
      if negb (stream =? n_stream_id n) then receive n req retry_times rx ch
      else if Z.land flags 1 =? 0 then
        if READ_RETRY <? retry_times + 1 then (Err Failure, rx, ch)
        else match send_data (n_conn_id n) req ch with
             | Err _ => (Err Unsent, rx, ch)
             | Ok ch => receive n req (retry_times + 1) rx ch
             end
      else (Ok data, rx, ch)
  | _ :: rx => (Err InvalidReply, rx, ch)
  end.
Definition read_node (n : FuseNode) (offset size : Z) (rx : list ClipboardFile) (ch : channels)
    : result bytes io_error * list ClipboardFile * channels :=
  let req := request n offset size in
  match send_data (n_conn_id n) req ch with
  | Err _ => (Err Unsent, rx, ch)
  | Ok ch => receive n req 0 rx ch
  end.
(** [arriving]: what comes from the copying side while the read waits. *)
Definition read (ino fh offset size : Z) (arriving : list ClipboardFile) (ch : channels) (s : FuseServer) : reply * FuseServer * channels :=
  match node_at ino (nodes s) with
  | None => (RError ENOENT, s, ch)
  | Some n =>
      if negb (have_handler fh (file_handlers n)) then (RError EBADF, s, ch)
      else if is_directory n then (RError ENFILE, s, ch)
      else if marked (file_handlers n) then (RError EBUSY, s, ch)
      else let '(r, rest, ch) := read_node n offset size (rx s ++ arriving) ch in
           (match r with Ok b => RData b | Err _ => RError EIO end, set_rx rest s, ch)
  end.
(** The files and directories right below the root. *)
Definition list_root (s : FuseServer) : option (list string) :=
  match nodes s with [] => None | r :: _ => mapM (λ i, c ← node_at i (nodes s); Some (n_name c)) (children r) end.

(** ** The two mounts and the messages *)
Record FuseContext := mkContext { server : FuseServer; mount_point : string; ctx_conn_id : Z }.
Record world := mkWorld { ctx_client : option FuseContext; ctx_server : option FuseContext; clip : ClipFiles }.
Inductive effect := UpdateClipboardFiles (urls : list string) (client_side : bool) | TryEmptyClipboardFiles (client_side : bool) (conn : Z).
Definition context (is_client : bool) (w : world) : option FuseContext := if is_client then ctx_client w else ctx_server w.
Definition set_context (is_client : bool) (c : option FuseContext) (w : world) : world :=
  if is_client then mkWorld c (ctx_server w) (clip w) else mkWorld (ctx_client w) c (clip w).
Definition set_clip (c : ClipFiles) (w : world) : world := mkWorld (ctx_client w) (ctx_server w) c.

Section messages.
Context {u16 : Utf16} (e : fs) (rand : Z -> Z -> Z) (mounted : bool) (mount_points : bool -> string).

Definition init_fuse_context (is_client : bool) (w : world) : result unit CliprdrError * world :=
  match context is_client w with
  | Some _ => (Ok tt, w)
  | None =>
      if mounted then (Ok tt, set_context is_client (Some (mkContext (init (rand 0 1) new_server) (mount_points is_client) 0)) w)
      else (Err CliprdrInit, w)
  end.
Definition uninit_fuse_context (is_client : bool) : world -> world := set_context is_client None.
(** [None]: a panic in the parsing. *)
Definition format_data_response_to_urls (is_client : bool) (data : bytes) (conn : Z) (w : world)
    : option (result (list string) CliprdrError * world) :=
  match context is_client w with
  | None => Some (Err CliprdrInit, w)
  | Some c =>
      r ← parse_file_descriptors data conn;
      match r with
      | Err x => Some (Err x, w)
      | Ok l =>
          match load_file_list rand l (server c) with
          | Err x => Some (Err x, w)
          | Ok s =>
              paths ← list_root s;
              Some (Ok (map (join (mount_point c)) paths), set_context is_client (Some (mkContext s (mount_point c) conn)) w)
          end
      end
  end.
Definition handle_file_content_response (is_client : bool) (d : ClipboardFile) (w : world) : result unit CliprdrError * world :=
  match context is_client w with
  | None => (Err CliprdrInit, w)
  | Some c => (Ok tt, set_context is_client (Some (mkContext (set_rx (rx (server c) ++ [d]) (server c)) (mount_point c) (ctx_conn_id c))) w)
  end.
Definition empty_local_files (is_client : bool) (conn : Z) (w : world) : bool * world :=
  match context is_client w with
  | None => (false, w)
  | Some c =>
      if negb (conn =? 0) && negb (ctx_conn_id c =? conn) then (false, w)
      else match load_file_list rand [] (server c) with
           | Ok s => (true, set_context is_client (Some (mkContext s (mount_point c) (ctx_conn_id c))) w)
           | Err _ => (true, w)
           end
  end.

Definition FILEDESCRIPTORW_FORMAT_NAME : string := "FileGroupDescriptorW".
Definition FILECONTENTS_FORMAT_NAME : string := "FileContents".
Definition FILEDESCRIPTOR_FORMAT_ID : Z := 49334.
Definition FILECONTENTS_FORMAT_ID : Z := 49267.
Definition REMOTE_FORMAT_MAP : list (Z * string) :=
  [(FILEDESCRIPTOR_FORMAT_ID, FILEDESCRIPTORW_FORMAT_NAME); (FILECONTENTS_FORMAT_ID, FILECONTENTS_FORMAT_NAME)].
Definition get_local_format (i : Z) : option string := option_map snd (List.find (λ x, x.1 =? i) REMOTE_FORMAT_MAP).
Definition get_format_list : ClipboardFile :=
  FormatList [(FILEDESCRIPTOR_FORMAT_ID, default FILEDESCRIPTORW_FORMAT_NAME (get_local_format FILEDESCRIPTOR_FORMAT_ID));
              (FILECONTENTS_FORMAT_ID, default FILECONTENTS_FORMAT_NAME (get_local_format FILECONTENTS_FORMAT_ID))].
Definition file_len (p : string) : option Z := option_map m_len (metadata e p).
Definition msg_resp_format_data_failure : message := clip_2_msg file_len (FormatDataResponse 0x2 []).
Definition resp_file_contents_fail (stream : Z) : message := clip_2_msg file_len (FileContentsResponse 0x2 stream []).
(** A message of the other side, on Linux: the answers to it and what is done. *)
Definition serve_clip_messages (client_side : bool) (c : ClipboardFile) (conn : Z) (w : world) : option (list message * list effect * world) :=
  match c with
  | FormatList l =>
      if negb (existsb (λ x, String.eqb x.2 FILECONTENTS_FORMAT_NAME) l) then Some ([], [], w)
      else match List.find (λ x, String.eqb x.2 FILEDESCRIPTORW_FORMAT_NAME) l with
           | None => Some ([], [], w)
           | Some x => Some ([clip_2_msg file_len (FormatDataRequest x.1)], [], w)
           end
  | FormatDataRequest _ =>
      match get_file_list_pdu (clip w) with
      | [] => Some ([msg_resp_format_data_failure], [], w)
      | d => Some ([clip_2_msg file_len (FormatDataResponse 1 d)], [], w)
      end
  | FormatDataResponse _ d =>
      match init_fuse_context true w with
      | (Err _, w) => Some ([], [], w)
      | (Ok _, w) =>
          '(r, w) ← format_data_response_to_urls client_side d conn w;
          Some ([], match r with Ok ((_ :: _) as urls) => [UpdateClipboardFiles urls client_side] | _ => [] end, w)
      end
  | FileContentsRequest q =>
      '(l, c) ← read_file_contents e conn q (clip w);
      Some (map (λ r, match r with Ok d => clip_2_msg file_len d | Err _ => resp_file_contents_fail (stream_id q) end) l, [], set_clip c w)
  | FileContentsResponse _ _ _ =>
      match init_fuse_context true w with
      | (Err _, w) => Some ([], [], w)
      | (Ok _, w) => Some ([], [], (handle_file_content_response client_side c w).2)
      end
  | TryEmpty => Some ([], [TryEmptyClipboardFiles client_side conn], w)
  | MonitorReady | FormatListResponse _ | NotifyCallback _ _ _ | Files _ => Some ([], [], w)
  end.
End messages.

(** ** The tree mirrors the table *)
Definition dir_at (ds : list FileDescription) (j : nat) (k : list comp) : Prop :=
  exists d, ds !! j = Some d /\ fd_kind d = Directory /\ components (fd_name d) = k.
(** [p] is the directory whose path is that of the parent of [nm], among the
    first [i] files; the root if there is none. *)
Definition placed (ds : list FileDescription) (i : nat) (nm : string) (p : Z) : Prop :=
  match parent nm with
  | Some q =>
      (p = FUSE_ROOT_ID /\ forall j, (j < i)%nat -> ~ dir_at ds j (components q))
      \/ exists j, (j < i)%nat /\ p = Z.of_nat j + 2 /\ dir_at ds j (components q)
  | None => p = FUSE_ROOT_ID
  end.
Record node_of (ds : list FileDescription) (i : nat) (d : FileDescription) (n : FuseNode) : Prop := {
  n_index : index n = Z.of_nat i;
  n_conn : n_conn_id n = fd_conn_id d;
  n_attrs : attrs n = mkAttr (Z.of_nat i + 2) (fd_size d) (fd_last_modified d) (fd_kind d) (fd_perm d);
  n_base : file_name (fd_name d) = Some (n_name n);
  n_placed : exists p, n_parent n = Some p /\ 1 <= p < Z.of_nat i + 2 /\ placed ds i (fd_name d) p;
  n_closed : file_handlers n = mkHandles [] false;
}.
Record tree_of (ds : list FileDescription) (t : list FuseNode) : Prop := {
  t_length : length t = S (length ds);
  t_root : exists r, node_at FUSE_ROOT_ID t = Some r /\ is_directory r = true /\ n_parent r = None /\ file_handlers r = mkHandles [] false;
  t_nodes : forall i d, ds !! i = Some d -> exists n, node_at (Z.of_nat i + 2) t = Some n /\ node_of ds i d n;
  t_children : forall x n, node_at x t = Some n -> NoDup (children n)
    /\ forall c, c ∈ children n <-> exists m, node_at c t = Some m /\ n_parent m = Some x;
}.
Lemma node_at_range x l n : node_at x l = Some n -> 1 <= x <= Z.of_nat (length l).
Proof. unfold node_at. destruct (Z.ltb_spec 0 x); [|done]. intros E%lookup_lt_Some. lia. Qed.
Lemma node_at_some x l : 1 <= x <= Z.of_nat (length l) -> exists n, node_at x l = Some n.
Proof. intros H. unfold node_at. destruct (Z.ltb_spec 0 x); [|lia]. apply lookup_lt_is_Some. lia. Qed.
Lemma node_at_add p f l new x : 1 <= p <= Z.of_nat (length l) ->
  node_at x (on_node p f l ++ [new]) =
    if x =? Z.of_nat (length l) + 1 then Some new else if x =? p then f <$> node_at p l else node_at x l.
Proof.
  intros Hp. unfold node_at, on_node. destruct (Z.ltb_spec 0 x) as [Hx|Hx].
  - destruct (Z.eqb_spec x (Z.of_nat (length l) + 1)) as [->|Hx2].
    { rewrite lookup_app_r by (rewrite length_alter; lia). rewrite length_alter.
      by replace (Z.to_nat (Z.of_nat (length l) + 1 - 1) - length l)%nat with 0%nat by lia. }
    destruct (Z.le_gt_cases x (Z.of_nat (length l))).
    + rewrite lookup_app_l by (rewrite length_alter; lia). destruct (Z.eqb_spec x p) as [->|Hne].
      * destruct (Z.ltb_spec 0 p); [|lia]. apply list_lookup_alter_eq.
      * apply list_lookup_alter_ne. lia.
    + rewrite lookup_ge_None_2 by (rewrite length_app, length_alter; simpl; lia).
      destruct (Z.eqb_spec x p); [lia|]. symmetry. apply lookup_ge_None_2. lia.
  - destruct (Z.eqb_spec x (Z.of_nat (length l) + 1)); [lia|]. destruct (Z.eqb_spec x p); [lia|done].
Qed.
Definition roots_of (ds : list FileDescription) (m : roots) : Prop := forall k,
  (forall v, find_root k m = Some v -> v = FUSE_ROOT_ID \/ exists j, v = Z.of_nat j + 2 /\ dir_at ds j k)
  /\ (forall j, dir_at ds j k -> exists j', find_root k m = Some (Z.of_nat j' + 2) /\ dir_at ds j' k).
Lemma dir_at_snoc ds d j k : dir_at (ds ++ [d]) j k <->
  dir_at ds j k \/ j = length ds /\ fd_kind d = Directory /\ components (fd_name d) = k.
Proof.
  unfold dir_at. split.
  - intros (d' & H & H2). rewrite lookup_app in H. destruct (ds !! j) as [x|] eqn:E.
    + left. injection H as ->. eauto.
    + right. apply lookup_ge_None_1 in E. destruct (Nat.eq_dec j (length ds)) as [->|Hne].
      * rewrite Nat.sub_diag in H. simpl in H. injection H as ->. done.
      * rewrite lookup_ge_None_2 in H by (simpl; lia). done.
  - intros [(d' & H & H2)|(-> & H2)].
    + exists d'. split; [|done]. by apply lookup_app_l_Some.
    + exists d. split; [|done]. by rewrite lookup_app_r, Nat.sub_diag.
Qed.
Lemma dir_at_lt ds j k : dir_at ds j k -> (j < length ds)%nat.
Proof. intros (d & H & _). by apply lookup_lt_Some in H. Qed.
Lemma roots_step ds d m : roots_of ds m ->
  roots_of (ds ++ [d])
    (if bool_decide (fd_kind d = Directory) then (components (fd_name d), Z.of_nat (length ds) + 2) :: m else m).
Proof.
  intros H k. destruct (H k) as [H1 H2]. destruct (bool_decide_reflect (fd_kind d = Directory)) as [Hd|Hd].
  - cbn [find_root]. destruct (bool_decide_reflect (components (fd_name d) = k)) as [Hk|Hk]; split.
    + intros v [= <-]. right. exists (length ds). split; [done|]. apply dir_at_snoc. auto.
    + intros j Hj. exists (length ds). split; [done|]. apply dir_at_snoc. auto.
    + intros v Hv. destruct (H1 v Hv) as [->|(j & -> & Hj)]; [by left|right]. exists j. split; [done|]. apply dir_at_snoc. auto.
    + intros j Hj. apply dir_at_snoc in Hj as [Hj|(_ & _ & Hj)]; [|done]. destruct (H2 j Hj) as (j' & E & Hj').
      exists j'. split; [done|]. apply dir_at_snoc. auto.
  - split.
    + intros v Hv. destruct (H1 v Hv) as [->|(j & -> & Hj)]; [by left|right]. exists j. split; [done|]. apply dir_at_snoc. auto.
    + intros j Hj. apply dir_at_snoc in Hj as [Hj|(_ & Hj & _)]; [|done]. destruct (H2 j Hj) as (j' & E & Hj').
      exists j'. split; [done|]. apply dir_at_snoc. auto.
Qed.
Lemma placed_step ds d m nm : roots_of ds m -> let p := parent_inode nm m in
  1 <= p < Z.of_nat (length ds) + 2 /\ placed (ds ++ [d]) (length ds) nm p.
Proof.
  intros H. unfold parent_inode, placed, FUSE_ROOT_ID. destruct (parent nm) as [q|]; [|simpl; lia]. cbv zeta.
  destruct (H (components q)) as [H1 H2]. destruct (find_root (components q) m) as [v|] eqn:E; cbn [default from_option id].
  - destruct (H1 v eq_refl) as [->|(j & -> & Hj)].
    + split; [unfold FUSE_ROOT_ID; lia|]. left. split; [done|]. intros j Hj Hd. apply dir_at_snoc in Hd as [Hd|(-> & _)]; [|lia].
      destruct (H2 j Hd) as (j' & Ej & _). unfold FUSE_ROOT_ID in Ej. injection Ej. lia.
    + pose proof (dir_at_lt _ _ _ Hj). split; [lia|]. right. exists j. split_and!; [done..|]. apply dir_at_snoc. auto.
  - split; [lia|]. left. split; [done|]. intros j Hj Hd. apply dir_at_snoc in Hd as [Hd|(-> & _)]; [|lia].
    by destruct (H2 j Hd) as (j' & Ej & _).
Qed.
Lemma placed_more ds d i nm p : (i <= length ds)%nat -> placed ds i nm p -> placed (ds ++ [d]) i nm p.
Proof.
  intros Hi. unfold placed. destruct (parent nm) as [q|]; [|done]. intros [[-> H]|(j & H1 & H2 & H3)].
  - left. split; [done|]. intros j Hj Hd. apply dir_at_snoc in Hd as [Hd|(-> & _)]; [by apply (H j Hj)|lia].
  - right. exists j. split_and!; [done..|]. apply dir_at_snoc. auto.
Qed.

Lemma node_of_more ds d0 i d n : (i <= length ds)%nat -> node_of ds i d n -> node_of (ds ++ [d0]) i d n.
Proof.
  intros Hi [H1 H2 H3 H4 (p & H5 & H6 & H7) H8]. constructor; [done..| |done].
  exists p. split_and!; [done|lia..|by apply placed_more].
Qed.
Lemma node_of_child ds i d n c : node_of ds i d n -> node_of ds i d (add_child c n).
Proof. intros [H1 H2 H3 H4 H5 H6]. by constructor. Qed.
(** The three places to look at after a file was added. *)
Lemma tree_step rand ds d t m t' m' : tree_of ds t -> roots_of ds m -> add_file rand (t, m) d = Ok (t', m') ->
  tree_of (ds ++ [d]) t' /\ roots_of (ds ++ [d]) m'.
Proof.
  intros [L R N C] Hm. unfold add_file, FUSE_ROOT_ID.
  set (inode := Z.of_nat (length t) + 1). set (p := parent_inode (fd_name d) m).
  destruct (file_name (fd_name d)) as [base|] eqn:Eb; [|done]. intros [= <- <-].
  destruct (placed_step ds d m (fd_name d) Hm) as [Hp Hplaced]. fold p in Hp, Hplaced.
  assert (inode = Z.of_nat (length ds) + 2) as Hin by (unfold inode; lia).
  set (new := from_description (rand inode) inode (Some p) base d).
  assert (forall x, node_at x (on_node p (add_child inode) t ++ [new])
            = if x =? inode then Some new else if x =? p then add_child inode <$> node_at p t else node_at x t) as Hat
    by (intros x; apply node_at_add; lia).
  assert (forall x n, node_at x t = Some n -> exists n', node_at x (on_node p (add_child inode) t ++ [new]) = Some n'
            /\ n' = (if x =? p then add_child inode n else n)) as Hold.
  { intros x n Hx. pose proof (node_at_range _ _ _ Hx). rewrite Hat. destruct (Z.eqb_spec x inode); [lia|].
    destruct (Z.eqb_spec x p) as [->|]; [rewrite Hx|]; eauto. }
  split; [|rewrite Hin; by apply roots_step]. constructor.
  - unfold on_node. rewrite !length_app, length_alter, L. simpl. lia.
  - destruct R as (r & R1 & R2 & R3 & R4). destruct (Hold _ _ R1) as (r' & -> & ->). exists (if FUSE_ROOT_ID =? p then add_child inode r else r).
    by destruct (FUSE_ROOT_ID =? p).
  - intros i d' Hi. destruct (decide (i = length ds)) as [->|Hne].
    + rewrite lookup_app_r, Nat.sub_diag in Hi by done. injection Hi as <-. exists new.
      rewrite <- Hin, Hat, Z.eqb_refl. split; [done|]. constructor; cbn; [lia|done|by rewrite Hin|done| |done].
      exists p. split_and!; [done|lia..|done].
    + assert (ds !! i = Some d') as Hi'.
      { rewrite lookup_app in Hi. destruct (ds !! i) eqn:E; [done|]. apply lookup_ge_None_1 in E.
        rewrite lookup_ge_None_2 in Hi by (simpl; lia). done. }
      pose proof (lookup_lt_Some _ _ _ Hi'). destruct (N i d' Hi') as (n & Hn & Hof).
      destruct (Hold _ _ Hn) as (n' & Hn' & ->). eexists. split; [exact Hn'|].
      destruct (Z.of_nat i + 2 =? p); [apply node_of_child|]; apply node_of_more; auto; lia.
  - intros x n Hx. rewrite Hat in Hx. destruct (Z.eqb_spec x inode) as [->|Hxi].
    { injection Hx as <-. split; [constructor|]. intros c. split; [by intros Hc%elem_of_nil|].
      intros (k & Hk & Hk2). exfalso. rewrite Hat in Hk. destruct (Z.eqb_spec c inode) as [->|Hci].
      { injection Hk as <-. cbn in Hk2. injection Hk2. lia. }
      assert (exists k', node_at c t = Some k' /\ n_parent k' = Some inode) as (k' & Hk' & Hkp).
      { destruct (Z.eqb_spec c p) as [->|]; [|eauto]. destruct (node_at p t) as [k'|]; [|done]. injection Hk as <-. eauto. }
      pose proof (node_at_range _ _ _ Hk'). destruct (Z.eq_dec c 1) as [->|Hc1].
      { destruct R as (r & R1 & _ & R3 & _). unfold FUSE_ROOT_ID in R1. rewrite R1 in Hk'. injection Hk' as ->. congruence. }
      destruct (lookup_lt_is_Some_2 ds (Z.to_nat (c - 2)) ltac:(lia)) as [dc Hdc].
      destruct (N _ _ Hdc) as (nc & Hnc & [_ _ _ _ (q & Hq & Hq2 & _) _]).
      replace (Z.of_nat (Z.to_nat (c - 2)) + 2) with c in Hnc by lia. rewrite Hk' in Hnc. injection Hnc as <-.
      rewrite Hkp in Hq. injection Hq as <-. lia. }
    assert (exists n0, node_at x t = Some n0 /\ n = if x =? p then add_child inode n0 else n0) as (n0 & Hn0 & ->).
    { destruct (Z.eqb_spec x p) as [->|]; [|eauto]. destruct (node_at p t) as [n0|]; [|done]. injection Hx as <-. eauto. }
    destruct (C x n0 Hn0) as [C1 C2].
    assert (forall c, (exists k, node_at c (on_node p (add_child inode) t ++ [new]) = Some k /\ n_parent k = Some x)
              <-> (exists k, node_at c t = Some k /\ n_parent k = Some x) \/ c = inode /\ x = p) as Hpar.
    { intros c. rewrite Hat. destruct (Z.eqb_spec c inode) as [->|Hci]; [|destruct (Z.eqb_spec c p) as [->|]].
      - split.
        + intros (k & [= <-] & [= <-]). by right.
        + intros [(k & Hk & _)|[_ ->]]; [apply node_at_range in Hk; lia|]. by exists new.
      - split.
        + intros (k & Hk & Hkp). left. destruct (node_at p t) as [k'|]; [|done]. injection Hk as <-. eauto.
        + intros [(k & -> & Hk)|[-> _]]; [|lia]. eexists. split; [reflexivity|done].
      - split; [by left|]. intros [?|[-> _]]; [done|lia]. }
    assert (inode ∉ children n0) as Hfresh.
    { intros (k & Hk & _)%C2. apply node_at_range in Hk. lia. }
    destruct (Z.eqb_spec x p) as [->|Hxp]; cbn [children add_child set_children].
    + split.
      * apply NoDup_app. split_and!; [done| |apply NoDup_singleton]. intros c Hc ->%list_elem_of_singleton. done.
      * intros c. rewrite Hpar, elem_of_app, list_elem_of_singleton, C2. naive_solver.
    + split; [done|]. intros c. rewrite Hpar, C2. naive_solver.
Qed.
Lemma tree_steps rand l ds t m st : tree_of ds t -> roots_of ds m -> add_files rand l (t, m) = Ok st -> tree_of (ds ++ l) st.1.
Proof.
  revert ds t m. induction l as [|d l IH]; intros ds t m Ht Hm; cbn [add_files].
  - intros [= <-]. by rewrite app_nil_r.
  - destruct (add_file rand (t, m) d) as [[t' m']|] eqn:E; [|done]. intros H.
    destruct (tree_step rand ds d t m t' m' Ht Hm E) as [Ht' Hm'].
    replace (ds ++ d :: l) with ((ds ++ [d]) ++ l) by (by rewrite <- app_assoc). exact (IH _ _ _ Ht' Hm' H).
Qed.
Lemma tree_first stream : tree_of [] [new_root stream] /\ roots_of [] first_roots.
Proof.
  split.
  - constructor; [done| |done|].
    + by exists (new_root stream).
    + intros x n Hx. pose proof (node_at_range _ _ _ Hx) as Hr. simpl in Hr. assert (x = 1) as -> by lia.
      injection Hx as <-. split; [constructor|]. intros c. split; [by intros Hc%elem_of_nil|]. intros (k & Hk & Hk2).
      pose proof (node_at_range _ _ _ Hk) as Hr'. simpl in Hr'. assert (c = 1) as -> by lia. by injection Hk as <-.
  - intros k. split.
    + intros v. unfold first_roots. cbn [find_root]. destruct (bool_decide _); [intros [= <-]; by left|].
      destruct (bool_decide _); [intros [= <-]; by left|done].
    + intros j (d & H & _). done.
Qed.

Lemma add_files_total rand l st : (exists st', add_files rand l st = Ok st') <-> Forall (λ d, file_name (fd_name d) <> None) l.
Proof.
  revert st. induction l as [|d l IH]; intros [t m]; cbn [add_files]; [split; [constructor|by eexists]|].
  unfold add_file. rewrite Forall_cons. destruct (file_name (fd_name d)); [|split; [by intros [? ?]|by intros [? _]]].
  rewrite IH. naive_solver.
Qed.

(** The mounted tree mirrors the table it is built from: one node per file
    with its index, base name, kind, size and permissions, below the directory
    that has the path of its parent and, without one, below the root; and a node
    lists exactly those that name it as their parent, each once, so that every
    file is reached from the root. *)
Theorem tree_mirrors_table rand ds : Forall (λ d, file_name (fd_name d) <> None) ds ->
  exists t, build_tree rand ds = Ok t /\ tree_of ds t.
Proof.
  intros H. destruct (proj2 (add_files_total rand ds ([new_root (rand FUSE_ROOT_ID)], first_roots)) H) as [st E].
  exists st.1. unfold build_tree. rewrite E. split; [done|].
  destruct (tree_first (rand FUSE_ROOT_ID)) as [H1 H2]. exact (tree_steps rand ds [] _ _ st H1 H2 E).
Qed.
Lemma tree_of_build rand ds t : build_tree rand ds = Ok t -> tree_of ds t.
Proof.
  unfold build_tree. destruct (add_files rand ds _) as [st|] eqn:E; [|done]. intros [= <-].
  destruct (tree_first (rand FUSE_ROOT_ID)) as [H1 H2]. exact (tree_steps rand ds [] _ _ st H1 H2 E).
Qed.

(** *** No operation on a built tree panics *)
Definition same_shape (t t' : list FuseNode) : Prop :=
  map (set_handlers (mkHandles [] false)) t' = map (set_handlers (mkHandles [] false)) t.
Lemma shape_at t t' x n' : same_shape t t' -> node_at x t' = Some n' ->
  exists n, node_at x t = Some n /\ n' = set_handlers (file_handlers n') n.
Proof.
  unfold same_shape, node_at. destruct (0 <? x); [|done]. intros H Hx.
  assert (set_handlers (mkHandles [] false) <$> t' !! Z.to_nat (x - 1) = set_handlers (mkHandles [] false) <$> t !! Z.to_nat (x - 1)) as E
    by (rewrite <- !list_lookup_fmap; change (fmap (M := list)) with (@map FuseNode FuseNode); by rewrite H).
  rewrite Hx in E. destruct (t !! Z.to_nat (x - 1)) as [n|]; [|done]. simpl in E. injection E. intros. exists n.
  split; [done|]. destruct n', n. simpl in *. unfold set_handlers. simpl. congruence.
Qed.
Lemma shape_at_back t t' x n : same_shape t t' -> node_at x t = Some n -> exists n', node_at x t' = Some n' /\ n' = set_handlers (file_handlers n') n.
Proof.
  intros H Hn. destruct (shape_at t' t x n (eq_sym H) Hn) as (n' & H1 & H2). exists n'. split; [done|].
  destruct (shape_at t t' x n' H H1) as (n2 & H3 & H4). rewrite Hn in H3. by injection H3 as <-.
Qed.
Lemma find_child_total nm l all : (forall c, c ∈ l -> is_Some (node_at c all)) -> exists r, find_child nm l all = Some r.
Proof.
  induction l as [|i l IH]; intros H; cbn [find_child]; [eauto|].
  destruct (H i ltac:(left)) as [c ->]. cbn [mbind option_bind]. destruct (String.eqb (n_name c) nm); [eauto|].
  apply IH. intros c' Hc. apply H. by right.
Qed.
Lemma shape_children ds t t' x n c : tree_of ds t -> same_shape t t' -> node_at x t' = Some n -> c ∈ children n -> is_Some (node_at c t').
Proof.
  intros Ht Hs Hx Hc. destruct (shape_at t t' x n Hs Hx) as (n0 & Hn0 & E). rewrite E in Hc. cbn in Hc.
  apply (t_children _ _ Ht x n0 Hn0) in Hc as (m & Hm & _). destruct (shape_at_back t t' c m Hs Hm) as (m' & Hm' & _). eauto.
Qed.
Lemma lookup_total ds t s parent nm : tree_of ds t -> same_shape t (nodes s) -> exists r, lookup parent nm s = Some r.
Proof.
  intros Ht Hs. unfold lookup. destruct (MAX_NAME_LEN <? str_len nm); [eauto|].
  destruct (node_at parent (nodes s)) as [p|] eqn:E; [|eauto]. destruct (negb (is_directory p)); [eauto|].
  destruct (find_child_total nm (children p) (nodes s)) as [r ->]; [|eexists; reflexivity].
  intros c Hc. exact (shape_children ds t _ parent p c Ht Hs E Hc).
Qed.
Lemma readdir_total ds t s ino fh offset room : tree_of ds t -> same_shape t (nodes s) -> exists r, readdir ino fh offset room s = Some r.
Proof.
  intros Ht Hs. unfold readdir. destruct (node_at ino (nodes s)) as [n|] eqn:E; [|eauto].
  destruct (negb (have_handler fh _)); [eauto|]. destruct (negb (is_directory n)); [eauto|].
  unfold dir_entries. assert (exists l, mapM (entry_of (nodes s)) (children n) = Some l) as [l ->]; [|eexists; reflexivity].
  apply mapM_is_Some_2, Forall_forall. intros c Hc.
  destruct (shape_children ds t _ ino n c Ht Hs E Hc) as [m Hm]. unfold entry_of.
  exists (c, a_kind (attrs m), n_name m). by rewrite Hm.
Qed.

(** ** The handles are the open files *)
Lemma sorted_lt l i j a b : StronglySorted Z.lt l -> l !! i = Some a -> l !! j = Some b -> (i < j)%nat -> a < b.
Proof.
  intros Hs. revert i j. induction Hs as [|x l Hs IH Hx]; intros i j Hi Hj Hij; [done|].
  destruct j as [|j]; [lia|]. destruct i as [|i]; simpl in *.
  - injection Hi as ->. rewrite Forall_forall in Hx. apply Hx. by apply list_elem_of_lookup_2 in Hj.
  - apply (IH i j); [done..|lia].
Qed.
Lemma search_found fuel l x base size k : StronglySorted Z.lt l -> (size <= fuel)%nat -> (base + size <= length l)%nat ->
  l !! k = Some x -> (base <= k < base + size)%nat -> search_go fuel l x base size = k.
Proof.
  intros Hs. revert base size. induction fuel as [|fuel IH]; intros base size Hf Hb Hk Hr; [lia|]. cbn [search_go].
  destruct (Nat.ltb_spec 1 size) as [H1|H1]; [|lia].
  pose proof (Nat.div_lt size 2 ltac:(lia) ltac:(lia)). pose proof (Nat.div_le_lower_bound size 2 1 ltac:(lia) ltac:(lia)).
  pose proof (Nat.Div0.div_mod size 2). pose proof (Nat.mod_upper_bound size 2 ltac:(lia)).
  set (half := (size / 2)%nat) in *. destruct (lookup_lt_is_Some_2 l (base + half) ltac:(lia)) as [m Hm]. rewrite Hm.
  cbn [default from_option id]. destruct (Z.ltb_spec x m) as [Hx|Hx]; apply IH; try done; try lia.
  - destruct (Nat.le_gt_cases (base + half) k) as [Hle|]; [|lia]. exfalso.
    destruct (Nat.eq_dec k (base + half)%nat) as [->|]; [rewrite Hk in Hm; injection Hm; lia|].
    pose proof (sorted_lt l (base + half)%nat k m x Hs Hm Hk ltac:(lia)). lia.
  - destruct (Nat.le_gt_cases (base + half) k) as [Hle|]; [lia|]. exfalso.
    pose proof (sorted_lt l k (base + half)%nat x m Hs Hk Hm ltac:(lia)). lia.
Qed.
Lemma binary_search_spec l x : StronglySorted Z.lt l ->
  match binary_search l x with Some i => l !! i = Some x | None => x ∉ l end.
Proof.
  intros Hs. unfold binary_search. destruct l as [|y l']; [by intros ?%elem_of_nil|]. set (l := y :: l') in *.
  destruct (bool_decide_reflect (l !! search_go (length l) l x 0 (length l) = Some x)) as [H|H]; [done|].
  intros [k Hk]%list_elem_of_lookup. apply H. pose proof (lookup_lt_Some _ _ _ Hk).
  by rewrite (search_found (length l) l x 0 (length l) k Hs) by (done || lia).
Qed.
Lemma sorted_NoDup l : StronglySorted Z.lt l -> NoDup l.
Proof.
  intros H. induction H as [|x l Hs IH Hx]; constructor; [|done]. intros Hin. rewrite Forall_forall in Hx. apply Hx in Hin. lia.
Qed.
Lemma remove_at l i (x : Z) : NoDup l -> l !! i = Some x -> firstn i l ++ skipn (S i) l = List.filter (λ y, negb (y =? x)) l.
Proof.
  intros H. revert i. induction H as [|y l Hy H IH]; intros i Hi; [done|]. destruct i as [|i]; simpl in Hi |- *.
  - injection Hi as ->. rewrite Z.eqb_refl. simpl. symmetry. apply forallb_filter_id, forallb_forall. intros z Hz.
    apply negb_true_iff, Z.eqb_neq. intros ->. apply Hy. by apply list_elem_of_In.
  - destruct (Z.eqb_spec y x) as [->|Hne]; simpl.
    + exfalso. apply Hy. by apply list_elem_of_lookup_2 in Hi.
    + by rewrite (IH i Hi).
Qed.

(** What the kernel does with handles, and a table of the open files as the
    meaning of it: each handle with its node, in the order of opening. *)
Inductive kop := KOpen (ino : Z) | KOpendir (ino : Z) | KRelease (ino fh : Z) | KReleasedir (ino fh : Z).
Definition kstep (o : kop) (s : FuseServer) : option (reply * FuseServer) :=
  match o with
  | KOpen ino => open ino s | KOpendir ino => opendir ino s
  | KRelease ino fh => Some (release ino fh s) | KReleasedir ino fh => Some (releasedir ino fh s)
  end.
Fixpoint kruns (l : list kop) (s : FuseServer) : option (list reply * FuseServer) :=
  match l with
  | [] => Some ([], s)
  | o :: l => '(r, s) ← kstep o s; '(rs, s) ← kruns l s; Some (r :: rs, s)
  end.
Definition table : Type := list (Z * Z).
Definition drop_entry (fh ino : Z) (t : table) : table := List.filter (λ x, negb ((x.1 =? fh) && (x.2 =? ino))) t.
Definition is_open (fh ino : Z) (t : table) : bool := existsb (λ x, (x.1 =? fh) && (x.2 =? ino)) t.
Definition tstep (tree : list FuseNode) (o : kop) (st : Z * table) : reply * (Z * table) :=
  let '(c, t) := st in
  match o with
  | KOpen ino =>
      match node_at ino tree with
      | None => (RError ENOENT, st)
      | Some n => if is_directory n then (RError ENFILE, st) else (ROpened c, (c + 1, t ++ [(c, ino)]))
      end
  | KOpendir ino =>
      match node_at ino tree with
      | None => (RError ENOENT, st)
      | Some n => if is_directory n then (ROpened c, (c + 1, t ++ [(c, ino)])) else (RError ENOTDIR, st)
      end
  | KRelease ino fh =>
      match node_at ino tree with
      | None => (RError ENOENT, st)
      | Some _ => if is_open fh ino t then (ROk, (c, drop_entry fh ino t)) else (RError EBADF, st)
      end
  | KReleasedir ino fh =>
      match node_at ino tree with
      | None => (RError ENOENT, st)
      | Some n => if negb (is_directory n) then (RError ENOTDIR, st)
                  else if is_open fh ino t then (ROk, (c, drop_entry fh ino t)) else (RError EBADF, st)
      end
  end.
Fixpoint truns (tree : list FuseNode) (l : list kop) (st : Z * table) : list reply * (Z * table) :=
  match l with
  | [] => ([], st)
  | o :: l => let '(r, st) := tstep tree o st in let '(rs, st) := truns tree l st in (r :: rs, st)
  end.

(** The handles of a node, by the table. *)
Definition handles_of (ino : Z) (t : table) : list Z := map fst (List.filter (λ x, x.2 =? ino) t).
Record refines (tree : list FuseNode) (s : FuseServer) (c : Z) (t : table) : Prop := {
  r_shape : same_shape tree (nodes s);
  r_counter : file_handle_counter s = c;
  r_nonneg : 0 <= c;
  r_sorted : StronglySorted Z.lt (map fst t);
  r_below : Forall (λ x, x.1 < c) t;
  r_handles : forall ino n, node_at ino (nodes s) = Some n -> file_handlers n = mkHandles (handles_of ino t) false;
}.
Lemma handles_sorted ino t : StronglySorted Z.lt (map fst t) -> StronglySorted Z.lt (handles_of ino t).
Proof.
  unfold handles_of. induction t as [|[f i] t IH]; simpl; [constructor|]. intros [H1 H2]%StronglySorted_inv.
  destruct (i =? ino); simpl; [|by apply IH]. constructor; [by apply IH|].
  rewrite Forall_forall in H2 |- *. intros y Hy. apply H2. rewrite list_elem_of_In, in_map_iff in Hy |- *.
  destruct Hy as (x & <- & Hx). exists x. split; [done|]. by apply filter_In in Hx as [? _].
Qed.
Lemma is_open_in fh ino t : is_open fh ino t = true <-> fh ∈ handles_of ino t.
Proof.
  unfold is_open, handles_of. rewrite existsb_exists, list_elem_of_In, in_map_iff. split.
  - intros ([f i] & Hx & [E1 E2]%andb_prop). simpl in *. bool_prop. subst. exists (fh, ino). split; [done|].
    apply filter_In. simpl. by rewrite Z.eqb_refl.
  - intros ([f i] & <- & [Hx E]%filter_In). simpl in *. exists (f, i). split; [done|]. simpl. by rewrite Z.eqb_refl, E.
Qed.
Lemma handles_drop fh ino j t : handles_of j (drop_entry fh ino t)
  = if j =? ino then List.filter (λ y, negb (y =? fh)) (handles_of j t) else handles_of j t.
Proof.
  unfold handles_of, drop_entry. induction t as [|[f i] t IH]; simpl; [by destruct (j =? ino)|].
  destruct (Z.eqb_spec f fh) as [Hf|Hf], (Z.eqb_spec i ino) as [Hi|Hi]; simpl;
    (destruct (Z.eqb_spec i j) as [Hij|Hij]; simpl; rewrite IH; destruct (Z.eqb_spec j ino) as [Hj|Hj]; simpl; try congruence; try done).
  all: destruct (Z.eqb_spec f fh); simpl; try congruence; done.
Qed.
Lemma drop_sorted fh ino t : StronglySorted Z.lt (map fst t) -> StronglySorted Z.lt (map fst (drop_entry fh ino t)).
Proof.
  unfold drop_entry. induction t as [|[f i] t IH]; simpl; [constructor|]. intros [H1 H2]%StronglySorted_inv.
  destruct (negb _); simpl; [|by apply IH]. constructor; [by apply IH|].
  rewrite Forall_forall in H2 |- *. intros y Hy. apply H2. rewrite list_elem_of_In, in_map_iff in Hy |- *.
  destruct Hy as (x & <- & Hx). exists x. split; [done|]. by apply filter_In in Hx as [? _].
Qed.

Lemma on_node_at x p f l : node_at x (on_node p f l) = if (x =? p) && (0 <? p) then f <$> node_at p l else
  if 0 <? p then node_at x l else if (0 <? x) && (x =? 1) then f <$> node_at 1 l else node_at x l.
Proof.
  unfold node_at, on_node. destruct (Z.ltb_spec 0 x) as [Hx|Hx], (Z.eqb_spec x p) as [->|Hne], (Z.ltb_spec 0 p) as [Hp|Hp];
    simpl; try lia; try done.
  - by rewrite list_lookup_alter_eq.
  - rewrite list_lookup_alter_ne by lia. done.
  - destruct (Z.eqb_spec x 1) as [->|]; simpl.
    + replace (Z.to_nat (p - 1)) with 0%nat by lia. by rewrite list_lookup_alter_eq.
    + rewrite list_lookup_alter_ne by lia. done.
Qed.
Lemma handles_at h x ino l n : node_at ino l = Some n ->
  node_at x (on_node ino (set_handlers h) l) = if x =? ino then Some (set_handlers h n) else node_at x l.
Proof.
  intros Hn. pose proof (node_at_range _ _ _ Hn). rewrite on_node_at. destruct (Z.ltb_spec 0 ino); [|lia].
  rewrite andb_true_r. destruct (x =? ino); [by rewrite Hn|done].
Qed.
Lemma shape_handles t l ino h : same_shape t l -> same_shape t (on_node ino (set_handlers h) l).
Proof.
  unfold same_shape. intros <-. unfold on_node. generalize (Z.to_nat (ino - 1)). induction l as [|n l IH]; intros [|k]; simpl; [done..| |].
  - done.
  - f_equal. apply IH.
Qed.
Lemma handle_known t c tbl s ino n fh : refines t s c tbl -> node_at ino (nodes s) = Some n ->
  have_handler fh (file_handlers n) = is_open fh ino tbl.
Proof.
  intros [_ _ _ Hs _ Hh] Hn. rewrite (Hh ino n Hn). unfold have_handler. cbn [handlers].
  pose proof (binary_search_spec (handles_of ino tbl) fh (handles_sorted ino tbl Hs)) as H.
  destruct (binary_search _ fh) as [i|]; symmetry.
  - apply is_open_in. by apply list_elem_of_lookup_2 in H.
  - apply not_true_is_false. by intros E%is_open_in.
Qed.
Lemma opened_refines t s c tbl ino n : refines t s c tbl -> c < 2 ^ 64 - 1 -> node_at ino (nodes s) = Some n ->
  exists s', opened ino n s = Some (ROpened c, s') /\ refines t s' (c + 1) (tbl ++ [(c, ino)]).
Proof.
  intros [H1 H2 H3 H4 H5 H6] Hc Hn. unfold opened, alloc_fd. rewrite (H6 ino n Hn), H2. cbn. eexists. split; [reflexivity|].
  rewrite Int.wrap_small by (split; lia). constructor; cbn [nodes set_nodes file_handle_counter].
  - by apply shape_handles.
  - done.
  - lia.
  - rewrite map_app. simpl. clear -H4 H5. induction tbl as [|[f i] tbl IH]; simpl; [repeat constructor|].
    apply StronglySorted_inv in H4 as [H4 H4']. apply Forall_cons in H5 as [H5 H5']. constructor; [by apply IH|].
    apply Forall_app. split; [done|]. by constructor.
  - apply Forall_app. split; [|by repeat constructor; simpl; lia].
    refine (Forall_impl _ _ _ H5 _). intros x Hx. lia.
  - intros x m Hx. rewrite (handles_at _ x ino _ n Hn) in Hx. unfold handles_of. rewrite List.filter_app, map_app. simpl.
    destruct (Z.eqb_spec x ino) as [->|Hne].
    + injection Hx as <-. rewrite Z.eqb_refl. done.
    + destruct (Z.eqb_spec ino x); [congruence|]. simpl. rewrite app_nil_r. by apply H6.
Qed.
Lemma closed_refines t s c tbl ino n fh : refines t s c tbl -> node_at ino (nodes s) = Some n ->
  exists s', closed ino fh n s = ((if is_open fh ino tbl then ROk else RError EBADF), s')
    /\ refines t s' c (if is_open fh ino tbl then drop_entry fh ino tbl else tbl).
Proof.
  intros Hr Hn. pose proof Hr as [H1 H2 H3 H4 H5 H6].
  pose proof (handle_known t c tbl s ino n fh Hr Hn) as Hk. unfold have_handler in Hk. unfold closed, unregister.
  rewrite (H6 ino n Hn) in *. cbn [handlers gc] in *.
  pose proof (binary_search_spec (handles_of ino tbl) fh (handles_sorted ino tbl H4)) as Hb.
  destruct (binary_search (handles_of ino tbl) fh) as [i|]; rewrite <- Hk; [|eauto].
  eexists. split; [reflexivity|]. constructor; cbn [nodes set_nodes file_handle_counter].
  - by apply shape_handles.
  - done.
  - done.
  - by apply drop_sorted.
  - apply Forall_forall. intros x Hx. rewrite Forall_forall in H5. apply H5.
    rewrite list_elem_of_In in Hx |- *. by apply filter_In in Hx as [? _].
  - intros x m Hx. rewrite (handles_at _ x ino _ n Hn) in Hx. rewrite handles_drop.
    destruct (Z.eqb_spec x ino) as [->|Hne]; [|by apply H6].
    injection Hx as <-. cbn. f_equal. apply remove_at; [|done]. apply sorted_NoDup, handles_sorted, H4.
Qed.
Lemma kstep_refines t s c tbl o : refines t s c tbl -> c < 2 ^ 64 - 1 ->
  exists s', kstep o s = Some ((tstep t o (c, tbl)).1, s') /\ let st := (tstep t o (c, tbl)).2 in refines t s' st.1 st.2 /\ st.1 <= c + 1.
Proof.
  intros Hr Hc. pose proof Hr as [H1 _ _ _ _ H6].
  assert (forall ino, match node_at ino (nodes s) with
            | None => node_at ino t = None
            | Some n => exists n0, node_at ino t = Some n0 /\ is_directory n0 = is_directory n /\ marked (file_handlers n) = false
            end) as Hat.
  { intros ino. destruct (node_at ino (nodes s)) as [n|] eqn:En.
    - destruct (shape_at t _ ino n H1 En) as (n0 & Hn0 & E). exists n0. split_and!; [done|by rewrite E|by rewrite (H6 ino n En)].
    - destruct (node_at ino t) as [n0|] eqn:E0; [|done]. destruct (shape_at_back t _ ino n0 H1 E0) as (? & Hn & _). congruence. }
  destruct o as [ino|ino|ino fh|ino fh]; cbn [kstep tstep]; unfold open, opendir, release, releasedir; specialize (Hat ino);
    (destruct (node_at ino (nodes s)) as [n|] eqn:En;
     [destruct Hat as (n0 & -> & Hd & Hm); try rewrite Hd; try rewrite Hm
     |rewrite Hat; eexists; split; [reflexivity|]; simpl; split; [done|lia]]).
  - destruct (is_directory n); [eexists; split; [reflexivity|]; simpl; split; [done|lia]|].
    destruct (opened_refines t s c tbl ino n Hr Hc En) as (s' & -> & Hr'). exists s'. split; [done|]. simpl. split; [done|lia].
  - destruct (is_directory n); simpl; [|eexists; split; [reflexivity|]; split; [done|lia]].
    destruct (opened_refines t s c tbl ino n Hr Hc En) as (s' & -> & Hr'). exists s'. split; [done|]. simpl. split; [done|lia].
  - destruct (closed_refines t s c tbl ino n fh Hr En) as (s' & -> & Hr'). exists s'.
    destruct (is_open fh ino tbl); (split; [done|]; simpl; split; [done|lia]).
  - destruct (is_directory n); simpl; [|eexists; split; [reflexivity|]; split; [done|lia]].
    rewrite (handle_known t c tbl s ino n fh Hr En).
    destruct (closed_refines t s c tbl ino n fh Hr En) as (s' & -> & Hr').
    destruct (is_open fh ino tbl); simpl; eexists; (split; [reflexivity|]; split; [done|lia]).
Qed.
Lemma refines_start rand ds t g c r : build_tree rand ds = Ok t -> 0 <= c -> refines t (mkServer g t c r) c [].
Proof.
  intros Ht%tree_of_build Hc. constructor; cbn [nodes file_handle_counter map]; try done; try constructor.
  intros ino n Hn. pose proof (node_at_range _ _ _ Hn) as Hr. rewrite (t_length _ _ Ht) in Hr.
  destruct (Z.eq_dec ino 1) as [->|].
  - destruct (t_root _ _ Ht) as (r0 & R1 & _ & _ & R4). unfold FUSE_ROOT_ID in R1. rewrite Hn in R1. by injection R1 as <-.
  - destruct (lookup_lt_is_Some_2 ds (Z.to_nat (ino - 2)) ltac:(lia)) as [d Hd].
    destruct (t_nodes _ _ Ht _ _ Hd) as (n' & Hn' & Hof). replace (Z.of_nat (Z.to_nat (ino - 2)) + 2) with ino in Hn' by lia.
    rewrite Hn in Hn'. injection Hn' as <-. exact (n_closed _ _ _ _ Hof).
Qed.

(** The sorted handle lists of the nodes, searched by halves, answer the
    kernel as a table of the open files does: an opened file gets a number that
    no open file has, exactly the open ones can be closed, each once, and no
    operation panics - as long as the counter of the handles does not come round. *)
Theorem handles_are_open_files rand ds t g c r l : build_tree rand ds = Ok t -> 0 <= c -> c + Z.of_nat (length l) < 2 ^ 64 ->
  exists s', kruns l (mkServer g t c r) = Some ((truns t l (c, [])).1, s').
Proof.
  intros Ht Hc Hl. assert (refines t (mkServer g t c r) c []) as Hr by (by apply (refines_start rand ds)).
  clear Ht. generalize dependent (mkServer g t c r). generalize (@nil (Z * Z)). clear Hc.
  revert c Hl. induction l as [|o l IH]; intros c Hl tbl s Hr; cbn [kruns truns]; [by eexists|].
  simpl in Hl. destruct (kstep_refines t s c tbl o Hr ltac:(lia)) as (s1 & E & Hr1 & Hle).
  revert E Hr1 Hle. unfold table in *. destruct (tstep t o (c, tbl)) as [r1 [c1 tbl1]]. cbv zeta. cbn [fst snd]. intros E Hr1 Hle. rewrite E.
  destruct (IH c1 ltac:(lia) tbl1 s1 Hr1) as (s2 & E2). cbn [mbind option_bind]. rewrite E2.
  exists s2. unfold table in *. by destruct (truns t l (c1, tbl1)) as [rs st].
Qed.

(** ** What is read is what the other machine has *)
Lemma halves o : Z.lor (Z.shiftl (Z.shiftr o 32) 32) (Z.land o Int.u32_max) = o.
Proof.
  change Int.u32_max with (Z.ones 32). apply Z.bits_inj'. intros k Hk. rewrite Z.lor_spec, Z.land_spec.
  destruct (Z.lt_ge_cases k 32).
  - rewrite Z.shiftl_spec_low, Z.ones_spec_low by lia. by rewrite andb_true_r.
  - rewrite Z.shiftl_spec_high, Z.ones_spec_high, Z.shiftr_spec by lia. rewrite andb_false_r, orb_false_r. f_equal. lia.
Qed.
Section reading.
Context {u16 : Utf16} (e : fs) (rand : Z -> Z -> Z) (mounted : bool) (mount_points : bool -> string).

(** The messages that reach the waiting read. *)
Definition delivered (l : list message) : list ClipboardFile :=
  omap (λ m, match m with Cliprdr u => msg_2_clip u | MessageBox _ _ _ _ => None end) l.
Definition near (offset size : Z) : Prop :=
  0 <= offset < 2 ^ 63 /\ Z.land offset Int.u32_max < 2 ^ 31 /\ 0 <= size < 2 ^ 31.
Lemma near_request n offset size : near offset size -> 0 <= index n < 2 ^ 31 ->
  exists r, request n offset size = FileContentsRequest r /\ stream_id r = n_stream_id n
    /\ request_of r = Some (Range (n_stream_id n) (index n) offset size).
Proof.
  intros (Ho & Hlow & Hs) Hi. eexists. split; [reflexivity|]. split; [done|]. unfold request_of. cbn [dw_flags stream_id list_index n_position_high n_position_low cb_requested].
  simpl (2 =? 1). cbv iota. rewrite Z.eqb_refl. unfold as_usize.
  assert (0 <= Z.land offset Int.u32_max) by (apply Z.land_nonneg; left; lia).
  assert (0 <= Z.shiftr offset 32 < 2 ^ 31).
  { rewrite Z.shiftr_div_pow2 by lia. split; [apply Z.div_pos; lia|apply Z.div_lt_upper_bound; lia]. }
  rewrite !(Int.to_signed_small 32) by lia. 
  rewrite (Int.wrap_small 64 (Z.shiftr offset 32)), (Int.wrap_small 64 (index n)), (Int.wrap_small 64 (Z.land _ _)),
    (Int.wrap_small 64 size) by (split; lia).
  rewrite (Int.wrap_small 64 (Z.shiftl _ _)) by (rewrite Z.shiftl_mul_pow2 by lia; split; lia). by rewrite halves.
Qed.
Lemma served_read conn client_side w c i f ct offset size n : good e (file_list c) -> same c (clip w) -> good e (file_list (clip w)) ->
  file_list c !! i = Some f -> is_dir f = false -> contents e (path f) = Some ct -> offset <= Z.of_nat (length ct) ->
  near offset size -> index n = Z.of_nat i -> Z.of_nat i < 2 ^ 31 ->
  exists msgs w', serve_clip_messages e rand mounted mount_points client_side (request n offset size) conn w = Some (msgs, [], w')
    /\ delivered msgs = [FileContentsResponse 1 (n_stream_id n) (slice offset size ct)]
    /\ same c (clip w') /\ good e (file_list (clip w')).
Proof.
  intros Hg Hsame Hg' Hf Hd Hct Hle Hn Hi Hi2. destruct (near_request n offset size Hn ltac:(lia)) as (r & -> & Hst & Hr).
  cbn [serve_clip_messages]. destruct (read_good_all e conn r (clip w) Hg') as (c' & E & Hs2 & Hg2). rewrite E.
  rewrite (plain_read_same e conn r c (clip w) Hsame). unfold plain_read. rewrite Hr. unfold plain_answer, nth_local.
  rewrite Hi, Nat2Z.id, Hf, Hd, Hct.
  destruct (proj1 (Forall_lookup _ _) Hg i f Hf) as ([Hk|(ct' & Hct' & Hlen & Hmax)] & _ & Hz); [congruence|].
  rewrite Hct in Hct'. injection Hct' as <-. destruct Hn as (Ho & _ & Hsz). unfold isize_max in *.
  destruct (Z.ltb_spec (ClipFile.size f) offset); [lia|]. rewrite Int.wrap_small by (split; lia).
  replace (2 ^ 63 - 1 <? (if ClipFile.size f <? offset + size then ClipFile.size f - offset else size)) with false
    by (symmetry; apply Z.ltb_ge; destruct (ClipFile.size f <? offset + size); lia).
  cbn [mbind option_bind option_map default from_option id]. eexists _, _. split; [reflexivity|].
  split; [|cbn [clip set_clip]; split; [|done]; destruct Hsame, Hs2; constructor; congruence].
  rewrite map_app. unfold delivered. rewrite omap_app.
  replace (omap _ (map _ (match get_files_for_audit e _ c with Some a => [Ok a] | None => [] end))) with (@nil ClipboardFile); [done|].
  destruct (get_files_for_audit e _ c) as [a|] eqn:Ea; [|done].
  assert (exists l, a = Files l) as [l ->]; [|done]. unfold get_files_for_audit in Ea. destruct offset; [|done..].
  destruct (_ =? first_file_index c); [|done]. destruct (omap _ _) eqn:Eo in Ea; [done|]. injection Ea as <-. eauto.
Qed.

(** An answer for another file. *)
Definition other_stream (n : FuseNode) (a : ClipboardFile) : Prop :=
  match a with FileContentsResponse _ stream _ => stream <> n_stream_id n | _ => False end.
Lemma receive_skips n req retry early rx ch : Forall (other_stream n) early ->
  receive n req retry (early ++ rx) ch = receive n req retry rx ch.
Proof.
  induction 1 as [|a early Ha _ IH]; [done|]. destruct a; try done. simpl in Ha |- *.
  by rewrite (proj2 (Z.eqb_neq _ _) Ha).
Qed.

(** C24: a file that was listed, written into the table, read back from it and
    mounted has the contents it has on the other machine: a read of [size] bytes
    at [offset] gets those bytes once the answer to its request is there, whatever
    answers for other files came before it and whatever follows it.  For offsets
    whose low 32 bits are below 2^31; the copying side still lists the same files
    and every file can be read at the size it has ([honest], [good]).  An answer for the
    same file to an earlier request is taken for this one ([late_answer_taken]). *)
Theorem paste_reads_the_file depth paths c0 c conn ds tree_rand t i f ct offset size ch ch' w client_side conn' n early later :
  honest e -> files c0 <> paths -> sync_files e depth paths c0 = Some (Ok tt, c) -> Z.of_nat (length (file_list c)) < 2 ^ 31 ->
  parse_file_descriptors (files_pdu c) conn = Some (Ok ds) -> build_tree tree_rand ds = Ok t ->
  same c (clip w) -> good e (file_list (clip w)) ->
  file_list c !! i = Some f -> is_dir f = false -> contents e (path f) = Some ct ->
  node_at (Z.of_nat i + 2) t = Some n -> send_data conn (request n offset size) ch = Ok ch' ->
  near offset size -> offset <= Z.of_nat (length ct) -> Forall (other_stream n) early ->
  exists msgs w', serve_clip_messages e rand mounted mount_points client_side (request n offset size) conn' w = Some (msgs, [], w')
    /\ read_node n offset size (early ++ delivered msgs ++ later) ch = (Ok (slice offset size ct), later, ch').
Proof.
  intros He Hne Hsync Hlen Hparse Htree Hsame Hgw Hf Hd Hct Hn Hsend Hnear Hle Hearly.
  destruct (sync_state e depth paths c0 c He Hne Hsync) as (Hg & Hpdu & _).
  pose proof (lookup_lt_Some _ _ _ Hf). pose proof (parse_mirrors (file_list c) (files_pdu c) conn ds Hpdu ltac:(lia) Hparse) as Hm.
  destruct (Forall2_lookup_l _ _ _ _ _ Hm Hf) as (d & Hdi & Hmir).
  destruct (t_nodes _ _ (tree_of_build _ _ _ Htree) _ _ Hdi) as (n' & Hn' & Hof). rewrite Hn in Hn'. injection Hn' as <-.
  destruct Hof as [Hidx Hconn _ _ _ _]. rewrite (m_conn _ _ _ Hmir) in Hconn.
  destruct (served_read conn' client_side w c i f ct offset size n Hg Hsame Hgw Hf Hd Hct Hle Hnear Hidx ltac:(lia)) as (msgs & w' & E & Hdel & _).
  exists msgs, w'. split; [exact E|]. unfold read_node. rewrite Hconn, Hsend, receive_skips, Hdel by done. cbn [receive app]. rewrite Z.eqb_refl. reflexivity.
Qed.

(** *** What goes wrong *)

(** Past two gigabytes every read fails, after three repeated requests. *)
Lemma far_request n offset size : 0 <= index n < 2 ^ 31 -> 2 ^ 31 <= Z.land offset Int.u32_max ->
  exists r, request n offset size = FileContentsRequest r /\ dw_flags r = 2 /\ list_index r = index n
    /\ - 2 ^ 31 <= n_position_low r < 0.
Proof.
  intros Hi Hlow. eexists. split; [reflexivity|]. cbn [dw_flags list_index n_position_low]. split; [done|].
  split; [by apply Int.to_signed_small|]. unfold Int.to_signed. change Int.u32_max with (Z.ones 32) in *.
  assert (0 <= Z.land offset (Z.ones 32) < 2 ^ 32) by (rewrite Z.land_ones by lia; apply Z.mod_pos_bound; lia).
  rewrite Int.wrap_small by (split; lia). cbv zeta. change (32 - 1) with 31.
  change (2 ^ 31) with 2147483648 in *. change (2 ^ 32) with 4294967296 in *.
  destruct (Z.ltb_spec (Z.land offset (Z.ones 32)) 2147483648); lia.
Qed.
Lemma far_reads_refused conn c n offset size f : 0 <= index n < 2 ^ 31 -> 2 ^ 31 <= Z.land offset Int.u32_max ->
  nth_local (index n) (file_list c) = Some f -> ClipFile.size f <= isize_max ->
  exists r q x, request n offset size = FileContentsRequest r /\ request_of r = Some q
    /\ plain_answer e conn q (file_list c) = Some (Err (InvalidRequest x)).
Proof.
  intros Hi Hlow Hf Hs. destruct (far_request n offset size Hi Hlow) as (r & E & Hd & Hl & Hp). rewrite <- Hl in Hi, Hf.
  destruct (beyond_two_gib e conn c r f Hd ltac:(lia) Hf Hp ltac:(lia) Hs) as (x & q & H1 & H2). eauto 8.
Qed.
Lemma four_refusals n req ch : (forall ch0, exists ch', send_data (n_conn_id n) req ch0 = Ok ch') ->
  exists ch', receive n req 0 (repeat (FileContentsResponse 2 (n_stream_id n) []) 4) ch = (Err Failure, [], ch').
Proof.
  intros H. cbn [repeat receive]. rewrite Z.eqb_refl. cbn [negb]. change (Z.land 2 1 =? 0) with true. cbv iota.
  simpl (READ_RETRY <? _). cbv iota. destruct (H ch) as [c1 ->], (H c1) as [c2 ->], (H c2) as [c3 ->]. eauto.
Qed.
(** An answer is known by the file only: one that comes too late for its read
    is taken for the answer to the next, whatever that asked for. *)
Lemma late_answer_taken n offset size stale rx ch ch' : send_data (n_conn_id n) (request n offset size) ch = Ok ch' ->
  (read_node n offset size (FileContentsResponse 1 (n_stream_id n) stale :: rx) ch).1.1 = Ok stale.
Proof. intros H. unfold read_node. rewrite H. cbn [receive]. by rewrite Z.eqb_refl. Qed.
(** The wait always ends: with an answer, an error or nothing left to wait for. *)
Lemma receive_shrinks n req k rx ch : (length (receive n req k rx ch).1.2 <= length rx)%nat.
Proof.
  revert k ch. induction rx as [|m rx IH]; intros k ch; [done|]. destruct m; simpl; try lia.
  destruct (negb _); [etransitivity; [apply IH|lia]|]. destruct (_ =? 0); [|simpl; lia].
  destruct (READ_RETRY <? _); [simpl; lia|]. destruct (send_data _ _ _); [etransitivity; [apply IH|lia]|simpl; lia].
Qed.
End reading.

(** ** The small machine mounted *)
Definition listed : list FileDescription := match parse_file_descriptors (files_pdu synced) 4 with Some (Ok l) => l | _ => [] end.
Definition mounted_tree : list FuseNode := match build_tree (λ i, i + 100) listed with Ok t => t | Err _ => [] end.
Definition line : channels := mkChannels [mkChannel "shop" 4 []] 4.
Lemma tree_mirrors_table_witness : exists t, build_tree (λ i, i + 100) listed = Ok t /\ tree_of listed t.
Proof. apply (tree_mirrors_table (λ i, i + 100) listed). vm_compute. repeat constructor; discriminate. Defined.
Example mounted_names : map (λ n, (n_name n, n_parent n, children n)) mounted_tree
  = [("/"%string, None, [2]); ("x"%string, Some 1, [3; 4]); ("a"%string, Some 2, []); ("b"%string, Some 2, [])].
Proof. vm_compute. reflexivity. Qed.
Definition clicks : list kop := [KOpendir 2; KOpen 3; KOpen 3; KRelease 3 8; KRelease 3 8; KRelease 4 9; KOpen 2; KReleasedir 2 7; KOpen 9].
Lemma mounted_built : build_tree (λ i, i + 100) listed = Ok mounted_tree.
Proof. vm_compute. reflexivity. Qed.
Lemma handles_are_open_files_witness : exists s', kruns clicks (mkServer 1 mounted_tree 7 [])
  = Some ((truns mounted_tree clicks (7, [])).1, s').
Proof. apply (handles_are_open_files (λ i, i + 100) listed mounted_tree 1 7 [] clicks mounted_built); vm_compute; [discriminate|reflexivity]. Defined.
Example clicks_answered : (truns mounted_tree clicks (7, [])).1
  = [ROpened 7; ROpened 8; ROpened 9; ROk; RError EBADF; RError EBADF; RError ENFILE; ROk; RError ENOENT].
Proof. vm_compute. reflexivity. Qed.
Definition third : FuseNode := default (new_root 0) (node_at 3 mounted_tree).
Definition pasting : world := mkWorld None None synced.
Definition mounts (b : bool) : string := "/tmp/paste".
Lemma synced_done : sync_files small 3 ["/d/x"%string] no_files = Some (Ok tt, synced).
Proof. vm_compute. reflexivity. Qed.
Definition file_a : LocalFile := default (mkLocal "" "" None 0 "" 0 0 true 0 false false false false false) (file_list synced !! 1%nat).
Definition line_after : channels := match send_data 4 (request third 1 3) line with Ok c => c | Err _ => line end.
Lemma paste_reads_the_file_witness : exists msgs w',
  serve_clip_messages small (λ _ i, i) true mounts false (request third 1 3) 6 pasting = Some (msgs, [], w')
  /\ read_node third 1 3 ([FileContentsResponse 1 (n_stream_id third + 1) []] ++ delivered msgs ++ [FileContentsResponse 1 0 []]) line
     = (Ok (slice 1 3 (text "hello")), [FileContentsResponse 1 0 []], line_after).
Proof.
  apply (paste_reads_the_file small (λ _ i, i) true mounts 3 ["/d/x"%string] no_files synced 4 listed (λ i, i + 100) mounted_tree
           1 file_a (text "hello") 1 3 line line_after pasting false 6 third
           [FileContentsResponse 1 (n_stream_id third + 1) []] [FileContentsResponse 1 0 []] small_honest).
  - discriminate.
  - exact synced_done.
  - vm_compute. reflexivity.
  - vm_compute. reflexivity.
  - exact mounted_built.
  - apply same_refl.
  - exact (proj1 synced_good).
  - vm_compute. reflexivity.
  - vm_compute. reflexivity.
  - vm_compute. reflexivity.
  - vm_compute. reflexivity.
  - vm_compute. reflexivity.
  - unfold near. split_and!; try (vm_compute; congruence). all: vm_compute; reflexivity.
  - vm_compute. discriminate.
  - constructor; [vm_compute; discriminate|constructor].
Defined.
End Fuse.
