(* ===== verification/Remote.v ===== *)
(** * The loop of a session ([src/src/client/io_loop.rs],
      [src/src/ui_session_interface.rs])

    One loop per connection of the technician's app joins the login handler
    ([Handler]), the frames ([Video]) and the file jobs ([Transfer]) with what is
    left: the answer to the login, the permissions, the clipboard, voice calls,
    message boxes, notices about privacy mode and blocked input, and the end.

    A turn takes one message of the register, one wish of the window (or of the
    session itself, through the same channel), one message of the clipboard, or a
    tick.  The recorder of a voice call is a thread of its own; a step of it lies
    anywhere between the turns.  What keeps the loops of successive
    connections of a session apart is [Rounds]. *)

From Stdlib Require Import Ascii String.
From S2P Require Import Prelude RustStr Store Handler Video Transfer ClipFile.

Module Remote.
#[local] Existing Instance Handler.ConnType_eq_dec.
Local Open Scope string_scope.
Local Open Scope Z_scope.
Local Open Scope list_scope.

(** ** What arrives *)
Record ParsedPeerInfo := mkParsed { p_platform : string; is_installed : bool; idd_impl : string; support_view_camera : bool; support_terminal : bool }.
Definition no_info : ParsedPeerInfo := mkParsed EmptyString false EmptyString false false.
Definition is_support_virtual_display (p : ParsedPeerInfo) : bool :=
  is_installed p && String.eqb (p_platform p) "Windows" && (String.eqb (idd_impl p) "rustdesk_idd" || String.eqb (idd_impl p) "amyuni_idd").
(** [a_]: the additions of the platform, where their text is an object. *)
Record additions := mkAdditions { a_installed : option bool; a_idd : option string; a_camera : option bool }.
Record peer_info := mkPi {
  pi : Handler.PeerInfo; pi_terminal : option bool; pi_additions : option additions;
  pi_current : Z; pi_displays : Z; pi_sessions : option Z }.

Inductive sched_kind := RECEIVED | STATE | ANSWER.
Inductive permission := PKeyboard | PClipboard | PAudio | PFile | PRestart | PRecording | PBlockInput | POther.
Inductive BlockInputState := BlkOnSucceeded | BlkOnFailed | BlkOffSucceeded | BlkOffFailed | BlkStateUnknown.
Inductive PrivacyModeState := PrvOnByOther | PrvNotSupported | PrvOnSucceeded | PrvOnFailedDenied | PrvOnFailedPlugin
  | PrvOnFailed | PrvOffSucceeded | PrvOffByPeer | PrvOffFailed | PrvOffUnknown | PrvStateUnknown.
Inductive notice := BlockInput (s : BlockInputState) | PrivacyMode (s : PrivacyModeState).

(** Contents (pictures, sounds, texts of the clipboard) are numbers. *)
Inductive inbound :=
  | MVideo (vf : Video.VideoFrame) | MHash (hs : Handler.Hash)
  | MLoginError (err : string) (trusted : bool) | MLogin (p : peer_info)
  | MCursor (c : Z) | MClipboard (c : Z) | MCliprdr (c : option ClipFile.cliprdr)
  | MFile (ev : Transfer.event)
  | MAudioFormat (f : Z) | MChat (text : string) | MSched (k : sched_kind) (accepted via_window : bool) (open_until : Z)
  | MPermission (p : permission) (enabled : bool) | MSwitchDisplay (d w h : Z)
  | MCloseReason (c : string) | MNotice (n : notice) (details impl_key : string)
  | MUac (b : bool) | MElevated (b : bool) | MElevationResponse (err : string) | MPortable (b : bool)
  | MSwitchBack | MEncoding (e : Z) | MFollow (d : Z)
  | MTestDelay (from_client : bool) | MAudioFrame (a : Z)
  | MPrint (path : string) | MBox (msgtype title text link : string)
  | MVoiceRequest (is_connect : bool) | MVoiceResponse (req_timestamp : Z) (accepted : bool)
  | MDisplays | MScreenshot (sid msg : string) (data : Z) | MTerminal (service_id : option string) | MUnknown.

(** ** What the channel carries *)
Inductive Data :=
  | DClose | DLogin (os_username os_password password : string) (remember : bool)
  | DVideo (m : Video.message) | DAudio (a : Z) | DMessage (m : Z)
  | DTransfer (ev : Transfer.event) | DRecordScreen (start : bool)
  | DElevateDirect | DElevateWithLogon (username password : string)
  | DNewVoiceCall | DCloseVoiceCall | DResetDecoder (display : option Z) | DTakeScreenshot (display : Z) (sid : string) | DOther.

(** ** What is done *)
Inductive outgoing :=
  | OCloseReason (r : string) | OVideo (m : Video.message) | OAudio (a : Z) | OMessage (m : Z)
  | OElevate (logon : option (string * string)) | OVoiceCall (is_connect : bool) (timestamp : Z) | OScreenshot (d : Z) (sid : string)
  | OToggleVirtualDisplay (i : Z) | OTogglePrivacyMode (impl_key : string) | OClip (c : ClipFile.message) | OTestDelay.
Inductive window :=
  | CloseSuccess | AdaptSize | SetPermission (name : string) (b : bool) | OnVoiceCallWaiting | OnVoiceCallStarted
  | OnVoiceCallClosed (reason : string) | CancelMsgbox (tag : string) | PortableServiceRunning (b : bool) | NewMessage (text : string)
  | SchedAck | SchedState (until : Z) | SchedResult (accepted : bool) (until : Z) | SetDisplay | SwitchDisplay (d : Z)
  | SetPeerInfo | OnConnected | WindowsSessions | SendSession (sid : Z) | SetDisplays | UpdateBlockInput (on : bool) | UpdatePrivacyMode
  | LoadLastJobs | SetCursor (c : Z) | SwitchBack | FollowDisplay (d : Z) | HandleScreenshot (sid msg : string) | TerminalResponse
  | PrinterResponse (id : Z) (path name : string) | PrinterRequest (id : Z) (path : string) | Quality | TextClipboardRequired.
Section effects.
Context {J : Type}.
Inductive effect :=
  | Sent (m : outgoing) | Ui (w : window) | Box (msgtype title text link : string) (retry : bool)
  | EHandler (x : Handler.effect) | EVideo (x : Video.effect) | ETransfer (x : Transfer.effect J)
  | UpdateClipboard (c : Z) | StartClipboard | SyncClipboard (c : Z) | ServerClip (c : ClipFile.ClipboardFile) | ClipStopped
  | PlayFormat (f : Z) | PlayAudio (a : Z) | TrustedDevices (b : bool) | NoteSchedSession | SetScreenshot (d : Z) | InputOsPassword (p : string)
  | InputDevice (d : option string) | Subscribe (id : Z) | Unsubscribe (id : Z).
End effects.
Arguments effect : clear implicits.

(** A recorder: whether it has been told to end (a message, or its sender is
    gone), whether it still runs, what was recorded for it. *)
Record recorder := mkRecorder { r_id : Z; r_told : bool; r_on : bool; r_data : list Z }.

(** What the outside answers in a turn. *)
Record tenv := mkTenv {
  now : Z; helper_url : string -> option string; headless_link : string;
  next_job_id : Z; printer_action : string; allow_auto_print : bool; selected_printer : string;
  default_sound_input : option string; is_current_peer : bool; file_len : string -> option Z;
  sync_init_clipboard : bool; current_clipboard : option Z; windows : bool; errno : Z; password_preset : string }.

Section remote.
Context {ps : Handler.PeerStore} {sha : Sha256} {aq : Video.ArrayQueue} {cj : Transfer.ClientJobs}
  (e : Handler.env) (multi_ui : Z -> bool) (auto_record : bool) (session_kcp direct : bool).

Record remote := mkRemote {
  hw : Handler.world; vw : Video.world; tw : Transfer.world;
  is_connected : bool; first_frame : bool; elevation_requested : bool; info : ParsedPeerInfo; sent_close_reason : bool;
  server_keyboard_enabled : bool; server_clipboard_enabled : bool; server_file_transfer_enabled : bool;
  stop_voice_call_sender : option Z; voice_call_request_timestamp : option Z;
  recorders : list recorder; next_conn_id : Z; VOICE_CALL_INPUT_DEVICE : option string;
  queue : list Data; running : bool; last_recv_time : Z; was_received : bool;
  out : list (effect Transfer.job) }.
(** The parts the loop's own handlers write, by name. *)
Inductive own := IsConnected | FirstFrame | ElevationRequested | SentCloseReason | KeyboardEnabled | ClipboardEnabled | FileEnabled | Running | WasReceived.
#[local] Instance own_eq : EqDecision own.
Proof. solve_decision. Defined.
Definition put (o : own) (b : bool) (r : remote) : remote :=
  let w (k : own) (old : bool) := if decide (k = o) then b else old in
  mkRemote (hw r) (vw r) (tw r) (w IsConnected (is_connected r)) (w FirstFrame (first_frame r)) (w ElevationRequested (elevation_requested r))
    (info r) (w SentCloseReason (sent_close_reason r)) (w KeyboardEnabled (server_keyboard_enabled r))
    (w ClipboardEnabled (server_clipboard_enabled r)) (w FileEnabled (server_file_transfer_enabled r))
    (stop_voice_call_sender r) (voice_call_request_timestamp r) (recorders r) (next_conn_id r) (VOICE_CALL_INPUT_DEVICE r)
    (queue r) (w Running (running r)) (last_recv_time r) (w WasReceived (was_received r)) (out r).
Definition set_worlds h v t r := mkRemote h v t (is_connected r) (first_frame r) (elevation_requested r) (info r) (sent_close_reason r) (server_keyboard_enabled r) (server_clipboard_enabled r) (server_file_transfer_enabled r) (stop_voice_call_sender r) (voice_call_request_timestamp r) (recorders r) (next_conn_id r) (VOICE_CALL_INPUT_DEVICE r) (queue r) (running r) (last_recv_time r) (was_received r) (out r).
Definition set_info i r := mkRemote (hw r) (vw r) (tw r) (is_connected r) (first_frame r) (elevation_requested r) i (sent_close_reason r) (server_keyboard_enabled r) (server_clipboard_enabled r) (server_file_transfer_enabled r) (stop_voice_call_sender r) (voice_call_request_timestamp r) (recorders r) (next_conn_id r) (VOICE_CALL_INPUT_DEVICE r) (queue r) (running r) (last_recv_time r) (was_received r) (out r).
(** What belongs to voice calls. *)
Definition set_call stop ts recs nid dev r := mkRemote (hw r) (vw r) (tw r) (is_connected r) (first_frame r) (elevation_requested r) (info r) (sent_close_reason r) (server_keyboard_enabled r) (server_clipboard_enabled r) (server_file_transfer_enabled r) stop ts recs nid dev (queue r) (running r) (last_recv_time r) (was_received r) (out r).
Definition set_queue q r := mkRemote (hw r) (vw r) (tw r) (is_connected r) (first_frame r) (elevation_requested r) (info r) (sent_close_reason r) (server_keyboard_enabled r) (server_clipboard_enabled r) (server_file_transfer_enabled r) (stop_voice_call_sender r) (voice_call_request_timestamp r) (recorders r) (next_conn_id r) (VOICE_CALL_INPUT_DEVICE r) q (running r) (last_recv_time r) (was_received r) (out r).
Definition set_recv t r := mkRemote (hw r) (vw r) (tw r) (is_connected r) (first_frame r) (elevation_requested r) (info r) (sent_close_reason r) (server_keyboard_enabled r) (server_clipboard_enabled r) (server_file_transfer_enabled r) (stop_voice_call_sender r) (voice_call_request_timestamp r) (recorders r) (next_conn_id r) (VOICE_CALL_INPUT_DEVICE r) (queue r) (running r) t (was_received r) (out r).
Definition set_out o r := mkRemote (hw r) (vw r) (tw r) (is_connected r) (first_frame r) (elevation_requested r) (info r) (sent_close_reason r) (server_keyboard_enabled r) (server_clipboard_enabled r) (server_file_transfer_enabled r) (stop_voice_call_sender r) (voice_call_request_timestamp r) (recorders r) (next_conn_id r) (VOICE_CALL_INPUT_DEVICE r) (queue r) (running r) (last_recv_time r) (was_received r) o.
Definition emit x r := set_out (out r ++ [x]) r.
Definition push d r := set_queue (queue r ++ [d]) r.
Definition ui w r := emit (Ui w) r.
Definition to_peer m r := emit (Sent m) r.

(** ** The three parts in one session

    They share the login handler; what they do is shown in the order it happens,
    and what they send to themselves goes through the one channel. *)
Definition lc (r : remote) : Handler.handler := Handler.hd (hw r).
Definition set_lc (h : Handler.handler) (r : remote) : remote :=
  set_worlds (Handler.mkWorld h (Handler.files (hw r)) (Handler.PENDING_SCHED (hw r)) (Handler.out (hw r))) (vw r) (tw r) r.
Definition retries (msgtype title text : string) (r : remote) : bool :=
  Handler.check_if_retry e msgtype title text (bool_decide (Handler.direct (lc r) = Some true) && negb (Handler.received (lc r))).
Definition msgbox (msgtype title text link : string) (r : remote) : remote := emit (Box msgtype title text link (retries msgtype title text r)) r.
Definition on_error (err : string) (r : remote) : remote := msgbox "error" "Error" err EmptyString r.

Definition of_handler (r : remote) (x : Handler.effect) : effect Transfer.job :=
  match x with Handler.MsgBox ty ti te li => Box ty ti te li (retries ty ti te r) | x => EHandler x end.
Definition lift_h {A} (f : Handler.world -> A * Handler.world) (r : remote) : A * remote :=
  let '(a, h) := f (Handler.mkWorld (lc r) (Handler.files (hw r)) (Handler.PENDING_SCHED (hw r)) []) in
  let r := set_worlds (Handler.mkWorld (Handler.hd h) (Handler.files h) (Handler.PENDING_SCHED h) []) (vw r) (tw r) r in
  (a, set_out (out r ++ map (of_handler r) (Handler.out h)) r).
Definition do_h (f : Handler.world -> Handler.world) (r : remote) : remote := (lift_h (λ h, (tt, f h)) r).2.

Definition of_video (x : Video.effect) : effect Transfer.job := match x with Video.Sent m => Sent (OVideo m) | x => EVideo x end.
Definition do_v (f : Video.world -> Video.world) (r : remote) : remote :=
  let v := vw r in
  let v := f (Video.mkWorld (lc r) (Video.last_auto_fps v) (Video.mark_unsupported v) (Video.video_format v) (Video.chroma v)
                (Video.threads v) (Video.last_record_state v) [] []) in
  let r := set_lc (Video.lc v) r in
  let r := set_worlds (hw r) (Video.mkWorld (Video.lc v) (Video.last_auto_fps v) (Video.mark_unsupported v) (Video.video_format v) (Video.chroma v)
                (Video.threads v) (Video.last_record_state v) [] []) (tw r) r in
  set_queue (queue r ++ map DVideo (Video.to_self v)) (set_out (out r ++ map of_video (Video.out v)) r).

Definition of_transfer (r : remote) (x : Transfer.effect Transfer.job) : effect Transfer.job :=
  match x with Transfer.MsgBox ty ti te => Box ty ti te EmptyString (retries ty ti te r) | x => ETransfer x end.
Definition for_transfer (r : remote) : Transfer.world :=
  let t := tw r in
  Transfer.mkWorld (Transfer.read_jobs t) (Transfer.write_jobs t) (Transfer.remove_jobs t) (Transfer.timer_fast t)
    (Transfer.last_update_jobs_status t) (Handler.version (lc r))
    (String.eqb (Handler.i_platform (Handler.info (Handler.config (lc r)))) "Windows")
    (Transfer.resume_supported t) (Transfer.printer_names t) [] [].
Definition back_transfer (t : Transfer.world) (r : remote) : remote :=
  let r := set_worlds (hw r) (vw r) (Transfer.set_out [] (Transfer.set_to_self [] t)) r in
  set_queue (queue r ++ map (λ '(i, p, n, b), DTransfer (Transfer.RemoveFile i p n b)) (Transfer.to_self t))
    (set_out (out r ++ map (of_transfer r) (Transfer.out t)) r).
Definition do_t (f : Transfer.world -> Transfer.world) (r : remote) : remote := back_transfer (f (for_transfer r)) r.

(** ** Voice calls *)
Definition conn_is (c : Handler.ConnType) (r : remote) : bool := bool_decide (Handler.conn_type (lc r) = c).
Definition is_default := conn_is Handler.DEFAULT_CONN.
Definition is_file_transfer := conn_is Handler.FILE_TRANSFER.
Definition is_view_camera := conn_is Handler.VIEW_CAMERA.
Definition is_terminal := conn_is Handler.TERMINAL.
Definition is_port_forward (r : remote) : bool := conn_is Handler.PORT_FORWARD r || conn_is Handler.RDP r.

(** A recorder is told to end by a message, or because nobody holds its sender. *)
Definition tell (i : option Z) (l : list recorder) : list recorder :=
  match i with
  | Some i => map (λ x, if r_id x =? i then mkRecorder (r_id x) true (r_on x) (r_data x) else x) l
  | None => l
  end.
Definition set_recorders l r := set_call (stop_voice_call_sender r) (voice_call_request_timestamp r) l (next_conn_id r) (VOICE_CALL_INPUT_DEVICE r) r.
Definition set_timestamp ts r := set_call (stop_voice_call_sender r) ts (recorders r) (next_conn_id r) (VOICE_CALL_INPUT_DEVICE r) r.
Definition set_stop s r := set_call s (voice_call_request_timestamp r) (recorders r) (next_conn_id r) (VOICE_CALL_INPUT_DEVICE r) r.
(** The old sender, if any, is dropped. *)
Definition replace_stop (s : option Z) (r : remote) : remote :=
  set_stop s (set_recorders (tell (stop_voice_call_sender r) (recorders r)) r).
Definition stop_voice_call : remote -> remote := replace_stop None.
Definition set_voice_call_input_device (device : option string) (set_if_present : bool) (r : remote) : remote :=
  if negb set_if_present && bool_decide (VOICE_CALL_INPUT_DEVICE r <> None) then r
  else if decide (VOICE_CALL_INPUT_DEVICE r = device) then r
  else emit (InputDevice device) (set_call (stop_voice_call_sender r) (voice_call_request_timestamp r) (recorders r) (next_conn_id r) device r).
Definition start_voice_call (t : tenv) (r : remote) : option Z * remote :=
  if is_file_transfer r || is_port_forward r || is_terminal r then (None, r)
  else
    let r := set_voice_call_input_device (default_sound_input t) false r in
    let i := next_conn_id r in
    let r := set_call (stop_voice_call_sender r) (voice_call_request_timestamp r)
               (recorders r ++ [mkRecorder i false true []]) (i + 1) (VOICE_CALL_INPUT_DEVICE r) r in
    (Some i, emit (Subscribe i) r).
Definition new_voice_call_request (is_connect : bool) (t : tenv) : outgoing := OVoiceCall is_connect (now t).
Definition on_voice_response (t : tenv) (req_timestamp : Z) (accepted : bool) (r : remote) : remote :=
  let ts := voice_call_request_timestamp r in
  let r := set_timestamp None r in
  match ts with
  | Some ts =>
      if negb (req_timestamp =? ts) then r
      else if accepted then
        let '(s, r) := start_voice_call t (ui OnVoiceCallStarted r) in replace_stop s r
      else ui (OnVoiceCallClosed EmptyString) r
  | None => r
  end.
Definition on_voice_request (is_connect : bool) (r : remote) : remote :=
  if is_connect then r
  else match stop_voice_call_sender r with
       | Some _ => ui (OnVoiceCallClosed EmptyString) (stop_voice_call r)
       | None => r
       end.
(** A turn of the recorder's thread. *)
Definition recorder_turn (i : nat) (r : remote) : remote :=
  match recorders r !! i with
  | Some x =>
      if negb (r_on x) then r
      else if r_told x then
        set_voice_call_input_device None true
          (emit (Unsubscribe (r_id x)) (set_recorders (<[i := mkRecorder (r_id x) true false (r_data x)]> (recorders r)) r))
      else match r_data x with
           | a :: l => push (DAudio a) (set_recorders (<[i := mkRecorder (r_id x) false true l]> (recorders r)) r)
           | [] => r
           end
  | None => r
  end.
Definition recorded (i : nat) (a : Z) (r : remote) : remote :=
  set_recorders (alter (λ x, if r_on x then mkRecorder (r_id x) (r_told x) true (r_data x ++ [a]) else x) i (recorders r)) r.

(** ** The wishes of the window *)
Definition send_close_reason (reason : string) (r : remote) : remote :=
  if sent_close_reason r then r else put SentCloseReason true (to_peer (OCloseReason reason) r).
Definition handle_msg_from_ui (t : tenv) (d : Data) (r : remote) : bool * remote :=
  match d with
  | DClose => (false, send_close_reason EmptyString r)
  | DLogin u p pw rem => (true, do_h (Handler.handle_login_from_ui e u p pw rem) r)
  | DVideo m => (true, do_v (Video.on_message m) r)
  | DAudio a => (true, to_peer (OAudio a) r)
  | DMessage m => (true, to_peer (OMessage m) r)
  | DTransfer ev => (true, do_t (Transfer.handle (now t) ev) r)
  | DRecordScreen start => (true, do_v (Video.record_screen start) r)
  | DElevateDirect => (true, put ElevationRequested true (to_peer (OElevate None) r))
  | DElevateWithLogon u p => (true, put ElevationRequested true (to_peer (OElevate (Some (u, p))) r))
  | DNewVoiceCall =>
      (true, ui OnVoiceCallWaiting (to_peer (new_voice_call_request true t) (set_timestamp (Some (now t)) r)))
  | DCloseVoiceCall =>
      (true, to_peer (new_voice_call_request false t) (ui (OnVoiceCallClosed "Closed manually by the peer") (stop_voice_call r)))
  | DResetDecoder d => (true, do_v (Video.reset_decoder d) r)
  | DTakeScreenshot d sid => (true, to_peer (OScreenshot d sid) r)
  | DOther => (true, r)
  end.

(** ** The messages of the register *)
Definition set_peer_info (p : peer_info) (r : remote) : remote :=
  let i := info r in
  let i := mkParsed (Handler.pi_platform (pi p)) (is_installed i) (idd_impl i) (support_view_camera i)
             (default (support_terminal i) (pi_terminal p)) in
  let i := match pi_additions p with
           | Some a => mkParsed (p_platform i) (default false (a_installed a)) (default EmptyString (a_idd a)) (default false (a_camera a)) (support_terminal i)
           | None => i
           end in
  set_info i r.
Definition below (v w : string) : bool := Handler.get_version_number e v <? Handler.get_version_number e w.
Definition check_view_camera_support (v platform : string) (r : remote) : bool * remote :=
  if support_view_camera (info r) then (true, r)
  else if below v "1.3.9" && (String.eqb platform "Windows" || String.eqb platform "Linux")
  then (false, msgbox "error" "Download new version" "upgrade_remote_rustdesk_client_to_{1.3.9}_tip" EmptyString r)
  else (false, on_error "view_camera_unsupported_tip" r).
Definition check_terminal_support (v : string) (r : remote) : bool * remote :=
  if support_terminal (info r) then (true, r)
  else if below v "1.4.1"
  then (false, msgbox "error" "Remote terminal not supported"
                 "Remote terminal is not supported by the remote side. Please upgrade to version 1.4.1 or higher." EmptyString r)
  else (false, on_error "Remote terminal is not supported by the remote side" r).

(** [Session::handle_peer_info]. *)
Definition welcome (p : peer_info) (r : remote) : remote :=
  let r := ui UpdatePrivacyMode r in
  let r := ui SetPeerInfo (do_h (Handler.handle_peer_info e (pi p)) r) in
  let r := if is_file_transfer r then ui CloseSuccess r
           else if negb (is_port_forward r) && negb (is_terminal r)
           then msgbox "success" "Successful" "Connected, waiting for image..." EmptyString r else r in
  let r := ui OnConnected r in
  match pi_sessions p with
  | Some current_sid =>
      if bool_decide (Handler.selected_windows_session_id (lc r) = Some current_sid) then ui (SendSession current_sid) r else ui WindowsSessions r
  | None => r
  end.
Definition handle_peer_info (p : peer_info) (r : remote) : remote :=
  let r := if below (Handler.pi_version (pi p)) "1.1.10" then ui (SetPermission "restart" false) r else r in
  if is_file_transfer r then
    if is_empty (Handler.pi_username (pi p)) && bool_decide (pi_sessions p = None)
    then on_error "No active console user logged on, please connect and logon first." r
    else welcome p r
  else if negb (is_port_forward r) && negb (is_terminal r) then
    if pi_displays p =? 0 then
      let r := ui UpdatePrivacyMode (do_h (Handler.handle_peer_info e (pi p)) r) in
      msgbox "error" "Error" (if is_view_camera r then "No cameras" else "No displays") EmptyString r
    else
      let a := Handler.should_auto_login (lc r) in
      let r := if is_empty a then r else emit (InputOsPassword a) r in
      welcome p (ui SetDisplay r)
  else welcome p r.
Definition is_text_clipboard_required (r : remote) : bool :=
  server_clipboard_enabled r && server_keyboard_enabled r && negb (Handler.toggles (Handler.config (lc r)) Handler.disable_clipboard).
(** The task spawned at the login, for the contents of the clipboard then. *)
Definition sync_clipboard (c : Z) (r : remote) : remote := if is_text_clipboard_required r then push (DMessage c) r else r.
Definition on_login (t : tenv) (p : peer_info) (r : remote) : bool * remote :=
  let v := Handler.pi_version (pi p) in
  let r := set_peer_info p r in
  let '(ok, r) := if is_view_camera r then check_view_camera_support v (Handler.pi_platform (pi p)) r else (true, r) in
  let '(ok, r) := if ok && is_terminal r then check_terminal_support v r else (ok, r) in
  if negb ok then (false, do_h (Handler.handle_peer_info e (pi p)) r)
  else
    let r := handle_peer_info p r in
    let r := if is_default r then
               let r := emit StartClipboard r in
               let r := match current_clipboard t with
                        | Some c => if sync_init_clipboard t then emit (SyncClipboard c) r else r
                        | None => r
                        end in
               ui TextClipboardRequired r
             else r in
    let r := if is_file_transfer r then ui LoadLastJobs r else r in
    (true, put IsConnected true r).

Definition update_privacy_mode (impl_key : string) (on : bool) (r : remote) : remote :=
  let f c :=
    let c := Handler.set_toggle Handler.privacy_mode on c in
    if on then Handler.set_options (<["privacy-mode-impl-key" := if is_empty impl_key then "privacy_mode_impl_mag" else impl_key]> (Handler.options c)) c
    else c in
  ui UpdatePrivacyMode (do_h (Handler.edit f) r).
Definition or_else (details other : string) : string := if is_empty details then other else details.
Definition handle_back_msg_block_input (s : BlockInputState) (details : string) (r : remote) : remote :=
  match s with
  | BlkOnSucceeded => ui (UpdateBlockInput true) r
  | BlkOnFailed => ui (UpdateBlockInput false) (msgbox "custom-error" "Block user input" (or_else details "Failed") EmptyString r)
  | BlkOffSucceeded => ui (UpdateBlockInput false) r
  | BlkOffFailed => msgbox "custom-error" "Unblock user input" (or_else details "Failed") EmptyString r
  | BlkStateUnknown => r
  end.
Definition handle_back_msg_privacy_mode (s : PrivacyModeState) (details impl_key : string) (r : remote) : bool * remote :=
  let failed text := (true, update_privacy_mode impl_key false (msgbox "custom-error" "Privacy mode" text EmptyString r)) in
  match s with
  | PrvOnByOther => (false, msgbox "error" "Connecting..." "Someone turns on privacy mode, exit" EmptyString r)
  | PrvNotSupported => failed "Unsupported"
  | PrvOnSucceeded => (true, update_privacy_mode impl_key true (msgbox "custom-nocancel" "Privacy mode" "Enter privacy mode" EmptyString r))
  | PrvOnFailedDenied => failed "Peer denied"
  | PrvOnFailedPlugin => failed "Please install plugins"
  | PrvOnFailed => failed (or_else details "Failed")
  | PrvOffSucceeded => (true, update_privacy_mode impl_key false (msgbox "custom-nocancel" "Privacy mode" "Exit privacy mode" EmptyString r))
  | PrvOffByPeer => failed "Peer exit"
  | PrvOffFailed => (true, msgbox "custom-error" "Privacy mode" (or_else details "Failed to turn off") EmptyString r)
  | PrvOffUnknown => failed "Turned off"
  | PrvStateUnknown => (true, r)
  end.

Definition parse_indices (s : string) : list Z := omap Handler.parse_i32 (split ","%char s).
Definition send_toggle_virtual_display_msg (r : remote) : remote :=
  if negb (is_support_virtual_display (info r)) then r
  else foldl (λ r i, to_peer (OToggleVirtualDisplay i) r) r (parse_indices (Handler.get_option (lc r) "virtual-display")).
Definition send_toggle_privacy_mode_msg (r : remote) : remote :=
  if (Handler.get_version_number e "1.2.4" <=? Handler.version (lc r)) && Handler.get_toggle_option (lc r) "privacy-mode" then
    let impl_key := Handler.get_option (lc r) "privacy-mode-impl-key" in
    if String.eqb impl_key "privacy_mode_impl_virtual_display" && negb (is_support_virtual_display (info r)) then r
    else to_peer (OTogglePrivacyMode impl_key) r
  else r.
Definition on_video (vf : Video.VideoFrame) (r : remote) : remote :=
  let r := if first_frame r then r
           else send_toggle_privacy_mode_msg (send_toggle_virtual_display_msg (ui AdaptSize (ui CloseSuccess (put FirstFrame true r)))) in
  do_v (Video.on_video_frame multi_ui auto_record vf) r.
Definition on_permission (p : permission) (enabled : bool) (r : remote) : remote :=
  match p with
  | PKeyboard => ui (SetPermission "keyboard" enabled) (ui TextClipboardRequired (put KeyboardEnabled enabled r))
  | PClipboard => ui (SetPermission "clipboard" enabled) (ui TextClipboardRequired (put ClipboardEnabled enabled r))
  | PAudio => ui (SetPermission "audio" enabled) r
  | PFile =>
      let r := put FileEnabled enabled r in
      if negb enabled && is_file_transfer r then r else ui (SetPermission "file" enabled) r
  | PRestart => ui (SetPermission "restart" enabled) r
  | PRecording => ui (SetPermission "recording" enabled) (do_v (Video.recording_permission enabled) r)
  | PBlockInput => ui (SetPermission "block_input" enabled) r
  | POther => r
  end.
Definition on_sched (k : sched_kind) (accepted via_window : bool) (open_until : Z) (r : remote) : remote :=
  match k with
  | RECEIVED => ui SchedAck r
  | STATE =>
      let r := ui (SchedState open_until) r in
      if via_window then emit NoteSchedSession r else r
  | ANSWER => ui (SchedState open_until) (ui (SchedResult accepted open_until) (do_h Handler.clear_cr_sched_req r))
  end.
(** A prompt of the register that its user has to see to. *)
Definition on_prompt (tag text : string) (b : bool) (r : remote) : remote :=
  if b && server_keyboard_enabled r then msgbox tag "Prompt" text EmptyString r
  else ui (CancelMsgbox "elevation-error") (ui (CancelMsgbox "wait-uac") (ui (CancelMsgbox tag) r)).
Definition is_file_clipboard_required (r : remote) : bool :=
  server_keyboard_enabled r && server_file_transfer_enabled r && Handler.toggles (Handler.config (lc r)) Handler.enable_file_copy_paste.
Definition handle_cliprdr_msg (t : tenv) (c : option ClipFile.cliprdr) (r : remote) : remote :=
  let other := match c with Some (ClipFile.CFormatList _) => negb (is_current_peer t) | _ => false end in
  if other then r
  else match ClipFile.msg_2_clip c with
       | None => r
       | Some clip =>
           let stop := ClipFile.is_beginning_message clip && negb (is_file_clipboard_required r) in
           if stop then r else emit (ServerClip clip) r
       end.
Definition on_print (t : tenv) (path : string) (r : remote) : remote :=
  if String.eqb (printer_action t) "dismiss" then r
  else if allow_auto_print t
  then ui (PrinterResponse (next_job_id t) path (if is_empty (printer_action t) then EmptyString else selected_printer t)) r
  else ui (PrinterRequest (next_job_id t) path) r.
Definition from_register (ev : Transfer.event) : bool :=
  match ev with
  | Transfer.EmptyDirs _ | Transfer.Dir _ _ _ | Transfer.Digest _ | Transfer.Block _ | Transfer.Done _ _ | Transfer.Error _ _ _
  | Transfer.SendConfirm _ => true
  | _ => false
  end.
Definition handle_msg_from_peer (t : tenv) (m : inbound) (r : remote) : bool * remote :=
  match m with
  | MVideo vf => (true, on_video vf r)
  | MHash hs => (true, do_h (Handler.handle_hash e (password_preset t) hs) r)
  | MLoginError err trusted =>
      lift_h (Handler.handle_login_error (headless_link t) err) (if String.eqb err Handler.REQUIRE_2FA then emit (TrustedDevices trusted) r else r)
  | MLogin p => on_login t p r
  | MCursor c => (true, ui (SetCursor c) r)
  | MClipboard c => (true, if Handler.toggles (Handler.config (lc r)) Handler.disable_clipboard then r else emit (UpdateClipboard c) r)
  | MCliprdr c => (true, handle_cliprdr_msg t c r)
  | MFile ev => (true, if from_register ev then do_t (Transfer.handle (now t) ev) r else r)
  | MAudioFormat f => (true, emit (PlayFormat f) r)
  | MChat text => (true, ui (NewMessage text) r)
  | MSched k accepted via_window until => (true, on_sched k accepted via_window until r)
  | MPermission p enabled => (true, on_permission p enabled r)
  | MSwitchDisplay d w h =>
      let r := do_v (Video.on_thread (Video.as_usize d) (Video.send Video.Reset)) (ui (SwitchDisplay d) r) in
      (true, if (0 <? w) && (0 <? h) then ui SetDisplay r else r)
  | MCloseReason c =>
      let r := put SentCloseReason true r in
      (false, if String.eqb c "Closed manually by the peer" then msgbox "info-nocancel" "원격 종료" c EmptyString r
              else msgbox "error" "Connection Error" c EmptyString r)
  | MNotice (BlockInput s) details _ => (true, handle_back_msg_block_input s details r)
  | MNotice (PrivacyMode s) details impl_key => handle_back_msg_privacy_mode s details impl_key r
  | MUac b => (true, on_prompt "on-uac" "Please wait for confirmation of UAC..." b r)
  | MElevated b => (true, on_prompt "on-foreground-elevated" "elevated_foreground_window_tip" b r)
  | MElevationResponse err =>
      (true, if is_empty err then msgbox "wait-uac" EmptyString EmptyString EmptyString r
             else msgbox "elevation-error" "Elevation Error" err EmptyString (ui (CancelMsgbox "wait-uac") r))
  | MPortable b =>
      let r := ui (PortableServiceRunning b) r in
      (true, if elevation_requested r && b then msgbox "custom-nocancel-success" "Successful" "Elevate successfully" EmptyString r else r)
  | MSwitchBack => (true, ui SwitchBack r)
  | MEncoding x => (true, set_lc (Handler.set_supported_encoding x (lc r)) r)
  | MFollow d => (true, ui (FollowDisplay d) r)
  | MTestDelay from_client => (true, if from_client then r else to_peer OTestDelay (ui Quality r))
  | MAudioFrame a => (true, if Handler.toggles (Handler.config (lc r)) Handler.disable_audio then r else emit (PlayAudio a) r)
  | MPrint path => (true, on_print t path r)
  | MBox ty ti te link => (true, msgbox ty ti te (default EmptyString (helper_url t link)) r)
  | MVoiceRequest c => (true, on_voice_request c r)
  | MVoiceResponse ts accepted => (true, on_voice_response t ts accepted r)
  | MDisplays => (true, ui SetDisplays r)
  | MScreenshot sid msg d => (true, ui (HandleScreenshot sid msg) (emit (SetScreenshot d) r))
  | MTerminal service_id =>
      let r := match service_id with
               | Some s => if is_empty s then r else do_h (Handler.set_option (Handler.get_key_terminal_service_id (lc r)) s) r
               | None => r
               end in
      (true, ui TerminalResponse r)
  | MUnknown => (true, r)
  end.

(** ** The loop *)
Definition handle_local_clipboard_msg (t : tenv) (clip : ClipFile.ClipboardFile) (r : remote) : remote :=
  match clip with
  | ClipFile.NotifyCallback ty ti te => msgbox ty ti te EmptyString r
  | _ =>
      let c := Handler.config (lc r) in
      let stop := ClipFile.is_stopping_allowed clip
        && (Handler.toggles c Handler.view_only || negb (is_connected r)
            || negb (server_file_transfer_enabled r && Handler.toggles c Handler.enable_file_copy_paste)) in
      if stop then emit ClipStopped r else to_peer (OClip (ClipFile.clip_2_msg (file_len t) clip)) r
  end.
(** After the loop: the recorder is told, and over KCP the register too. *)
Definition end_loop (r : remote) : remote :=
  let r := stop_voice_call r in
  put Running false (if session_kcp then send_close_reason "kcp" r else r).
Definition goes_on (x : bool * remote) : remote := if x.1 then x.2 else end_loop x.2.
Inductive received := Nothing | Broken (err : string) | Bytes (m : option inbound).
Definition on_received (t : tenv) (x : received) (r : remote) : remote :=
  match x with
  | Broken err => end_loop (do_h (Handler.on_establish_connection_error (windows t) (errno t) err) r)
  | Bytes m =>
      let r := set_recv (now t) r in
      let r := if was_received r then r else do_h (Handler.update_received true) (put WasReceived true r) in
      match m with Some m => goes_on (handle_msg_from_peer t m r) | None => r end
  | Nothing =>
      end_loop (if Handler.restarting_remote_device (lc r)
                then msgbox "restarting" "Restarting remote device" "remote_restarting_tip" EmptyString r
                else msgbox "error" "Connection Error" "Reset by the peer" EmptyString r)
  end.
Definition SEC30 : Z := 30000.
Definition on_timer (t : tenv) (r : remote) : remote :=
  if SEC30 <=? now t - last_recv_time r then end_loop (msgbox "error" "Connection Error" "Timeout" EmptyString r)
  else match Transfer.timer_tick (now t) (for_transfer r) with
       | Ok w => back_transfer w r
       | Err err => end_loop (msgbox "error" "Connection Error" err EmptyString r)
       end.
Definition on_queue (t : tenv) (r : remote) : remote :=
  match queue r with [] => r | d :: l => goes_on (handle_msg_from_ui t d (set_queue l r)) end.

Inductive event :=
  | EReceived (t : tenv) (x : received) | EQueue (t : tenv) | EClip (t : tenv) (c : ClipFile.ClipboardFile)
  | ETimer (t : tenv) | EStatus (t : tenv) (elapsed : Z)
  | EWish (d : Data) | ESync (c : Z) | ERecorder (i : nat) | ERecorded (i : nat) (a : Z) | EThread (k : Z) (a : Video.decoding).
Definition is_turn (ev : event) : bool := match ev with EReceived _ _ | EQueue _ | EClip _ _ | ETimer _ | EStatus _ _ => true | _ => false end.
Definition step (r : remote) (ev : event) : remote :=
  if is_turn ev && negb (running r) then r
  else match ev with
       | EReceived t x => on_received t x r
       | EQueue t => on_queue t r
       | EClip t c => handle_local_clipboard_msg t c r
       | ETimer t => on_timer t r
       | EStatus t elapsed => do_v (Video.status_tick multi_ui direct elapsed (now t)) r
       | EWish d => push d r
       | ESync c => sync_clipboard c r
       | ERecorder i => recorder_turn i r
       | ERecorded i a => recorded i a r
       | EThread k a => do_v (Video.take multi_ui k a) r
       end.
Definition run (l : list event) (r : remote) : remote := foldl step r l.

(** ** What a turn does to the calls, the links and the farewell *)
Section relation.
Context (K : string -> Prop) (K_none : K EmptyString).

Definition is_close (x : effect Transfer.job) : bool := match x with Sent (OCloseReason _) => true | _ => false end.
Definition is_start (x : effect Transfer.job) : bool := match x with Subscribe _ => true | _ => false end.
Definition is_ask (x : effect Transfer.job) : bool := match x with Sent (OVoiceCall true _) => true | _ => false end.
Definition count (p : effect Transfer.job -> bool) (l : list (effect Transfer.job)) : nat := length (List.filter p l).
Definition link_known (x : effect Transfer.job) : Prop := match x with Box _ _ _ link _ => K link | _ => True end.
(** The recorders that are heard, as the trace tells it and as the state has it. *)
Definition hear (l : list Z) (x : effect Transfer.job) : list Z :=
  match x with Subscribe i => l ++ [i] | Unsubscribe i => List.filter (λ j, negb (j =? i)) l | _ => l end.
Definition heard (r : remote) : list Z := map r_id (List.filter r_on (recorders r)).

Record well (r : remote) : Prop := {
  w_ids : NoDup (map r_id (recorders r));
  w_next : Forall (λ x, r_id x < next_conn_id r) (recorders r);
  w_told : Forall (λ x, r_told x = false -> stop_voice_call_sender r = Some (r_id x)) (recorders r);
  w_off : Forall (λ x, r_on x = false -> r_told x = true) (recorders r);
  w_end : running r = false -> stop_voice_call_sender r = None }.
Definition owed (r : remote) : nat := if sent_close_reason r then 0 else 1.
Definition pending (r : remote) : nat := match voice_call_request_timestamp r with Some _ => 1 | None => 0 end.
Record fine (r : remote) (k : list (effect Transfer.job)) (r' : remote) : Prop := {
  f_out : out r' = out r ++ k;
  f_links : Forall link_known k;
  f_close : (count is_close k + owed r' <= owed r)%nat;
  f_calls : (count is_start k + pending r' <= count is_ask k + pending r)%nat;
  f_heard : well r -> foldl hear (heard r) k = heard r';
  f_well : well r -> well r';
  f_end : running r = false -> running r' = false }.
Definition goes (r r' : remote) : Prop := exists k, fine r k r'.
(** ... and no bytes of the register came. *)
Definition via (r r' : remote) : Prop := exists k, fine r k r' /\ last_recv_time r' = last_recv_time r.

Lemma count_app p l1 l2 : count p (l1 ++ l2) = (count p l1 + count p l2)%nat.
Proof. unfold count. by rewrite List.filter_app, length_app. Qed.
Lemma via_refl r : via r r.
Proof. exists []. split; [|done]. split; try done. by rewrite app_nil_r. Qed.
Lemma fine_trans r1 k r2 k' r3 : fine r1 k r2 -> fine r2 k' r3 -> fine r1 (k ++ k') r3.
Proof.
  intros [H1 H2 H3 H4 H5 H6 H7] [G1 G2 G3 G4 G5 G6 G7]. split.
  - by rewrite G1, H1, app_assoc.
  - by rewrite Forall_app.
  - rewrite count_app. lia.
  - rewrite !count_app. lia.
  - intros W. rewrite foldl_app, H5 by done. by apply G5, H6.
  - auto.
  - auto.
Qed.
Lemma via_trans r1 r2 r3 : via r1 r2 -> via r2 r3 -> via r1 r3.
Proof.
  intros (k & F & E) (k' & F' & E'). exists (k ++ k'). split; [by apply (fine_trans _ _ r2)|by rewrite E'].
Qed.
Lemma remote_goes_trans r1 r2 r3 : goes r1 r2 -> goes r2 r3 -> goes r1 r3.
Proof. intros (k & F) (k' & F'). exists (k ++ k'). by apply (fine_trans _ _ r2). Qed.
Lemma via_goes r r' : via r r' -> goes r r'.
Proof. intros (k & F & _). by exists k. Qed.

(** Handlers that leave all of it alone. *)
Definition calm (x : effect Transfer.job) : Prop :=
  is_close x = false /\ is_start x = false /\ is_ask x = false /\ link_known x /\ forall l, hear l x = l.
Definition parts (r : remote) := (sent_close_reason r, running r, stop_voice_call_sender r, voice_call_request_timestamp r, recorders r, next_conn_id r, last_recv_time r).
Definition same_parts (r r' : remote) : Prop := parts r' = parts r.
Lemma calm_list k : Forall calm k -> count is_close k = 0%nat /\ count is_start k = 0%nat /\ count is_ask k = 0%nat /\ Forall link_known k
  /\ forall l, foldl hear l k = l.
Proof.
  induction 1 as [|x k (H1 & H2 & H3 & H4 & H5) F (IH1 & IH2 & IH3 & IH4 & IH5)]; [done|]. unfold count in *. cbn [List.filter].
  rewrite H1, H2, H3. repeat split; try done; [by constructor|]. intros l. cbn. by rewrite H5.
Qed.
Lemma via_calm r r' k : out r' = out r ++ k -> Forall calm k -> same_parts r r' -> via r r'.
Proof.
  intros Ho F [= E1 E2 E3 E4 E5 E6 E7]. destruct (calm_list k F) as (C1 & C2 & C3 & C4 & C5). exists k.
  split; [|done]. split; [done|done| | | | |by rewrite E2].
  - unfold owed. rewrite C1, E1. lia.
  - unfold pending. rewrite C2, C3, E4. lia.
  - intros _. unfold heard. by rewrite C5, E5.
  - intros [W1 W2 W3 W4 W5]. split; rewrite ?E2, ?E3, ?E5, ?E6; done.
Qed.
Lemma via_same r r' : out r' = out r -> same_parts r r' -> via r r'.
Proof. intros Ho Hs. apply (via_calm r r' []); [by rewrite app_nil_r|done|done]. Qed.
Lemma via_emit x r : calm x -> via r (emit x r).
Proof. intros Hx. apply (via_calm r _ [x]); [done|constructor; [exact Hx|constructor]|done]. Qed.
Lemma via_ui w r : via r (ui w r).
Proof. by apply via_emit. Qed.
Lemma via_msgbox ty ti te link r : K link -> via r (msgbox ty ti te link r).
Proof. intros H. by apply via_emit. Qed.
Lemma via_put o b r : o <> SentCloseReason -> o <> Running -> via r (put o b r).
Proof. intros H1 H2. apply via_same; [done|]. unfold same_parts, parts, put. cbn. by destruct o. Qed.

(** *** The lifted parts *)
Definition h_calm (x : Handler.effect) : Prop := match x with Handler.MsgBox _ _ _ link => K link | _ => True end.
(** [f] adds only effects with known links. *)
Definition h_adds (f : Handler.world -> Handler.world) : Prop :=
  forall w, Forall h_calm (Handler.out w) -> Forall h_calm (Handler.out (f w)).
Lemma of_handler_calm r x : h_calm x -> calm (of_handler r x).
Proof. by destruct x. Qed.
Lemma via_lift_h {A} (f : Handler.world -> A * Handler.world) r : h_adds (λ w, (f w).2) -> via r (lift_h f r).2.
Proof.
  intros Hf. unfold lift_h. set (w0 := Handler.mkWorld _ _ _ _). specialize (Hf w0 (Forall_nil_2 _)). cbn beta in Hf. destruct (f w0) as [a h]. cbn [fst snd] in Hf |- *.
  set (r1 := set_worlds _ _ _ _). apply (via_calm r _ (map (of_handler r1) (Handler.out h))); [done| |done].
  apply Forall_map. eapply Forall_impl; [exact Hf|]. intros x. apply of_handler_calm.
Qed.
Lemma via_do_h f r : h_adds f -> via r (do_h f r).
Proof. intros Hf. apply (via_lift_h (λ h, (tt, f h))). exact Hf. Qed.
Lemma via_do_v f r : via r (do_v f r).
Proof.
  unfold do_v. cbv zeta. set (v := f _). eapply (via_calm r _ (map of_video (Video.out v))); [done| |done].
  apply Forall_map, Forall_true. by intros [].
Qed.
Lemma via_back_transfer w r : via r (back_transfer w r).
Proof.
  unfold back_transfer. cbv zeta. eapply (via_calm r _ (map (of_transfer _) (Transfer.out w))); [done| |done].
  apply Forall_map, Forall_true. by intros [].
Qed.
Lemma via_do_t f r : via r (do_t f r).
Proof. apply via_back_transfer. Qed.

Lemma h_emit x w : h_calm x -> Forall h_calm (Handler.out w) -> Forall h_calm (Handler.out (Handler.emit x w)).
Proof. intros Hx Hw. apply Forall_app. split; [done|]. by repeat constructor. Qed.
Lemma h_same f : (forall w, Handler.out (f w) = Handler.out w) -> h_adds f.
Proof. intros H w Hw. by rewrite H. Qed.
Lemma send_login_adds u p pw : h_adds (Handler.send_login e u p pw).
Proof.
  intros w Hw. destruct (Handler.send_login_frame e u p pw w) as (f & lr & [E _]). rewrite E. by apply h_emit.
Qed.
Lemma chosen_out pp hs w : Handler.out (Handler.chosen e pp hs w).2 = Handler.out w.
Proof.
  unfold Handler.chosen.
  assert (B : forall x, Handler.out (Handler.builtin e hs x).2 = Handler.out x.2).
  { intros [[|b p] h]; [|done]. cbn. by destruct (is_empty _). }
  assert (P : forall x, Handler.out (Handler.personal e x).2 = Handler.out x.2).
  { intros [[|b p] h]; [|done]. cbn. unfold Handler.try_get_password_from_personal_ab. destruct (_ && _); [|done].
    destruct (Handler.personal_ab e) as [l|]; [|done]. destruct (List.find _ l) as [x|]; [|done].
    by destruct (Handler.base64_decode e x.2) as [[|c q]|]. }
  assert (S : forall x, Handler.out (Handler.stored x).2 = Handler.out x.2).
  { intros [[|b p] h]; [|done]. cbn. by destruct (Handler.password _). }
  rewrite B, P, S. unfold Handler.shared. destruct (Handler.preset pp hs (Handler.h_password (Handler.hd w), w)) as [p h] eqn:E.
  assert (Eh : Handler.out h = Handler.out w).
  { revert E. unfold Handler.preset. destruct (Handler.h_password _); [destruct (is_empty pp)|]; by intros [= <- <-]. }
  cbv zeta. destruct (Handler.shared_password _) as [s|]; [destruct (is_empty s)|]; done.
Qed.
Lemma handle_hash_adds pp hs : h_adds (Handler.handle_hash e pp hs).
Proof.
  intros w Hw. unfold Handler.handle_hash. cbv zeta.
  destruct (match Handler.switch_uuid _ with Some u => Handler.uuid_parse e u | None => None end) as [u|].
  - destruct (Handler.send_switch_frame e u (Handler.upd (Handler.set_switch_uuid None) (Handler.upd (Handler.set_hash hs) w))) as (f & lr & [E _]).
    unfold Handler.upd in *. cbn in *. rewrite E. by apply h_emit.
  - set (w1 := Handler.upd (Handler.set_switch_uuid None) _).
    destruct (Handler.chosen e pp hs w1) as [p w2] eqn:E2.
    assert (H2 : Forall h_calm (Handler.out w2)).
    { change w2 with (p, w2).2. rewrite <- E2, chosen_out. exact Hw. }
    destruct (_ && _); [by apply h_emit; [destruct p|]|].
    destruct p; cbv zeta; [|by destruct (bool_decide _); apply send_login_adds].
    by destruct (bool_decide _); apply send_login_adds, h_emit.
Qed.
Lemma login_from_ui_adds u p pw rem : h_adds (Handler.handle_login_from_ui e u p pw rem).
Proof.
  intros w Hw. unfold Handler.handle_login_from_ui.
  destruct (if is_empty pw then _ else _) as [q w1] eqn:E.
  assert (H1 : Handler.out w1 = Handler.out w).
  { revert E. destruct (is_empty pw); [|by intros [= <- <-]]. destruct (Handler.h_password _); [|by intros [= <- <-]].
    destruct (Handler.password _); by intros [= <- <-]. }
  apply send_login_adds. cbn. by rewrite H1.
Qed.
Lemma peer_info_adds i : h_adds (Handler.handle_peer_info e i).
Proof.
  intros w Hw. unfold Handler.handle_peer_info. cbv zeta. cbn.
  repeat match goal with |- context [match ?x with _ => _ end] => destruct x; cbn end; try done; by apply h_emit.
Qed.
Context (K_login : K "https://rustdesk.com/docs/en/manual/linux/#login-screen") (K_x11 : K Handler.SCRAP_X11_REF_URL).
(** The links of the program's own tables, as a turn finds them. *)
Definition tables (t : tenv) : Prop := K (headless_link t) /\ forall l v, helper_url t l = Some v -> K v.

Lemma set_option_out k v w : Handler.out (Handler.set_option k v w) = Handler.out w.
Proof. unfold Handler.set_option. cbv zeta. repeat case_match; done. Qed.
Lemma login_error_adds link err : K link -> h_adds (λ w, (Handler.handle_login_error link err w).2).
Proof.
  intros Hl w Hw. unfold Handler.handle_login_error. destruct (String.eqb _ _); [by apply h_emit|].
  destruct (String.eqb _ _); [by apply h_emit|].
  destruct (_ || _); [cbv zeta; destruct (String.eqb _ _); (apply h_emit; [exact K_none|by rewrite ?set_option_out])|].
  destruct (List.find _ _) as [[s b]|] eqn:E; [|apply h_emit; [by cbn; destruct (contains _ _)|done]].
  apply List.find_some in E as [Hin _]. apply h_emit; [|done]. cbn.
  repeat (destruct Hin as [[= _ <-]|Hin]; [done|]). destruct Hin.
Qed.
Lemma establish_adds b n err : h_adds (Handler.on_establish_connection_error b n err).
Proof. intros w Hw. unfold Handler.on_establish_connection_error. cbv zeta. destruct (_ && _); by apply h_emit. Qed.

Create HintDb via discriminated.
#[local] Hint Resolve via_refl via_ui via_msgbox via_do_h via_do_v via_do_t via_back_transfer via_emit : via.
#[local] Hint Resolve handle_hash_adds login_from_ui_adds peer_info_adds login_error_adds establish_adds K_none : via.
#[local] Hint Extern 2 (via _ (ui _ _)) => eapply via_trans; [|apply via_ui] : via.
#[local] Hint Extern 2 (via _ (msgbox _ _ _ _ _)) => eapply via_trans; [|apply via_msgbox] : via.
#[local] Hint Extern 2 (via _ (do_h _ _)) => eapply via_trans; [|apply via_do_h] : via.
#[local] Hint Extern 2 (via _ (do_v _ _)) => eapply via_trans; [|apply via_do_v] : via.
#[local] Hint Extern 2 (via _ (emit _ _)) => eapply via_trans; [|apply via_emit] : via.
#[local] Hint Extern 2 (via _ (to_peer _ _)) => eapply via_trans; [|apply via_emit] : via.
#[local] Hint Extern 2 (via _ (put _ _ _)) => eapply via_trans; [|apply via_put] : via.
#[local] Hint Extern 3 (via _ (if ?b then _ else _)) => destruct b : via.
#[local] Hint Extern 3 (via _ (match ?x with _ => _ end)) => destruct x : via.
#[local] Hint Extern 1 (calm _) => (repeat split; done) : via.
#[local] Hint Extern 1 (h_adds _) => (apply h_same; done) : via.
#[local] Hint Extern 1 (_ <> _) => discriminate : via.
Ltac via := cbv zeta; eauto 20 with via.

Lemma via_set_info i r : via r (set_info i r).
Proof. by apply via_same. Qed.
Lemma via_set_lc h r : via r (set_lc h r).
Proof. by apply via_same. Qed.
Lemma via_set_queue q r : via r (set_queue q r).
Proof. by apply via_same. Qed.
Lemma via_on_error err r : via r (on_error err r).
Proof. unfold on_error. via. Qed.
Lemma via_welcome p r : via r (welcome p r).
Proof.
  unfold welcome. cbv zeta. set (r1 := ui SetPeerInfo _). eapply (via_trans _ r1); [subst r1; via|].
  set (r2 := if is_file_transfer r1 then _ else _). eapply (via_trans _ r2); [subst r2; via|].
  via.
Qed.
#[local] Hint Resolve via_set_info via_set_lc via_set_queue via_on_error via_welcome : via.
#[local] Hint Extern 2 (via _ (set_queue _ _)) => eapply via_trans; [|apply via_set_queue] : via.
#[local] Hint Extern 2 (via _ (push _ _)) => eapply via_trans; [|apply via_set_queue] : via.
#[local] Hint Extern 2 (via _ (on_error _ _)) => eapply via_trans; [|apply via_on_error] : via.
#[local] Hint Extern 2 (via _ (welcome _ _)) => eapply via_trans; [|apply via_welcome] : via.
#[local] Hint Extern 2 (via _ (do_t _ _)) => eapply via_trans; [|apply via_do_t] : via.
Lemma via_handle_peer_info p r : via r (handle_peer_info p r).
Proof.
  unfold handle_peer_info. cbv zeta. set (r1 := if below _ _ then _ else _). apply (via_trans _ r1); [subst r1; via|].
  destruct (is_file_transfer r1); [via|]. destruct (_ && _); [|via]. destruct (_ =? _); [via|]. via.
Qed.
Lemma via_on_login t p r : via r (on_login t p r).2.
Proof.
  unfold on_login. cbv zeta. apply (via_trans _ (set_peer_info p r)); [apply via_set_info|]. generalize (set_peer_info p r). clear r. intros r.
  destruct (if is_view_camera r then _ else _) as [ok r1] eqn:E1.
  assert (H1 : via r r1).
  { change r1 with (ok, r1).2. rewrite <- E1. unfold check_view_camera_support. repeat case_match; cbn [snd]; via. }
  destruct (if ok && is_terminal r1 then _ else _) as [ok2 r2] eqn:E2.
  assert (H2 : via r r2).
  { apply (via_trans _ r1); [done|]. change r2 with (ok2, r2).2. rewrite <- E2. unfold check_terminal_support. repeat case_match; cbn [snd]; via. }
  apply (via_trans _ r2); [done|]. destruct (negb ok2); [by via|]. cbn [snd].
  set (r3 := handle_peer_info p r2). apply (via_trans _ r3); [apply via_handle_peer_info|].
  set (r4 := if is_default r3 then _ else _). apply (via_trans _ r4); [|via].
  subst r4. destruct (is_default r3); [|via]. cbv zeta. eapply via_trans; [|apply via_ui]. destruct (current_clipboard t); [destruct (sync_init_clipboard t)|]; via.
Qed.
Lemma via_update_privacy_mode k on r : via r (update_privacy_mode k on r).
Proof. unfold update_privacy_mode. via. Qed.
#[local] Hint Extern 2 (via _ (update_privacy_mode _ _ _)) => eapply via_trans; [|apply via_update_privacy_mode] : via.
Lemma via_block_input s d r : via r (handle_back_msg_block_input s d r).
Proof. destruct s; cbn [handle_back_msg_block_input]; via. Qed.
Lemma via_privacy s d k r : via r (handle_back_msg_privacy_mode s d k r).2.
Proof. destruct s; cbn [handle_back_msg_privacy_mode fst snd]; cbv zeta; cbn [snd]; via. Qed.
Lemma via_foldl {A} (f : remote -> A -> remote) l r : (forall x a, via x (f x a)) -> via r (foldl f r l).
Proof. intros H. revert r. induction l as [|a l IH]; intros r; [apply via_refl|]. cbn. eapply via_trans; [apply H|apply IH]. Qed.
Lemma via_toggle_display r : via r (send_toggle_virtual_display_msg r).
Proof. unfold send_toggle_virtual_display_msg. destruct (negb _); [via|]. apply via_foldl. via. Qed.
Lemma via_toggle_privacy r : via r (send_toggle_privacy_mode_msg r).
Proof. unfold send_toggle_privacy_mode_msg. via. Qed.
Lemma via_on_video vf r : via r (on_video vf r).
Proof.
  unfold on_video. cbv zeta. eapply via_trans; [|apply via_do_v]. destruct (first_frame r); [via|].
  eapply via_trans; [|apply via_toggle_privacy]. eapply via_trans; [|apply via_toggle_display]. via.
Qed.
Lemma via_on_permission p b r : via r (on_permission p b r).
Proof. destruct p; cbn [on_permission]; via. Qed.
Lemma via_on_sched k a v u r : via r (on_sched k a v u r).
Proof.
  destruct k; cbn [on_sched]; [via|via|]. eapply via_trans; [|apply via_ui]. eapply via_trans; [|apply via_ui]. apply via_do_h.
  intros w Hw. unfold Handler.clear_cr_sched_req. cbv zeta. repeat case_match; cbn; done.
Qed.
Lemma via_on_prompt g x b r : via r (on_prompt g x b r).
Proof. unfold on_prompt. via. Qed.
Lemma via_cliprdr t c r : via r (handle_cliprdr_msg t c r).
Proof. unfold handle_cliprdr_msg. cbv zeta. repeat case_match; via. Qed.
Lemma via_on_print t p r : via r (on_print t p r).
Proof. unfold on_print. via. Qed.
Lemma via_local_clipboard t c r : via r (handle_local_clipboard_msg t c r).
Proof. unfold handle_local_clipboard_msg. destruct c; cbv zeta; via. Qed.
Lemma via_sync_clipboard c r : via r (sync_clipboard c r).
Proof. unfold sync_clipboard. via. Qed.

(** *** The calls *)
Lemma via_set_timestamp_none r : via r (set_timestamp None r).
Proof.
  exists []. split; [|done]. split; try done; [by rewrite app_nil_r|unfold pending; cbn; lia|]. by intros [W1 W2 W3 W4 W5].
Qed.
Lemma via_ask t r : via r (to_peer (new_voice_call_request true t) (set_timestamp (Some (now t)) r)).
Proof.
  exists [Sent (new_voice_call_request true t)]. split; [|done]. split; try done.
  - by constructor.
  - unfold pending, count. cbn. lia.
  - by intros [W1 W2 W3 W4 W5].
Qed.
Lemma tell_ids s l : map r_id (tell s l) = map r_id l.
Proof. destruct s as [s|]; [|done]. cbn. rewrite map_map. apply map_ext. intros x. by destruct (_ =? _). Qed.
Lemma tell_heard s l : map r_id (List.filter r_on (tell s l)) = map r_id (List.filter r_on l).
Proof.
  destruct s as [s|]; [|done]. cbn. induction l as [|x l IH]; [done|]. cbn. destruct (r_id x =? s); cbn; destruct (r_on x); cbn; by rewrite IH.
Qed.
Lemma tell_spec s l x : In x (tell s l) -> exists y, In y l /\ r_id x = r_id y /\ r_on x = r_on y /\ (r_told y = true -> r_told x = true) /\ (r_told x = false -> s <> Some (r_id y)).
Proof.
  destruct s as [s|]; cbn; [|intros H; exists x; by repeat split]. intros (y & <- & H)%in_map_iff. exists y.
  destruct (Z.eqb_spec (r_id y) s) as [E|E]; repeat split; try done. by intros _ [= ->].
Qed.
(** Once the held sender is used, every recorder is told. *)
Lemma tell_all r : well r -> Forall (λ x, r_told x = true) (tell (stop_voice_call_sender r) (recorders r)).
Proof.
  intros [_ _ W _ _]. apply List.Forall_forall. intros x (y & Hy & _ & _ & Ht & H)%tell_spec.
  rewrite List.Forall_forall in W. destruct (r_told x) eqn:E; [done|]. exfalso. apply (H eq_refl), W; [done|].
  destruct (r_told y) eqn:E'; [by specialize (Ht eq_refl)|done].
Qed.
Lemma tell_below r s : Forall (λ x, r_id x < next_conn_id r) (recorders r) -> Forall (λ x, r_id x < next_conn_id r) (tell s (recorders r)).
Proof.
  rewrite !List.Forall_forall. intros W x (y & Hy & -> & _)%tell_spec. by apply W.
Qed.
Lemma tell_off s l : Forall (λ x, r_on x = false -> r_told x = true) l -> Forall (λ x, r_on x = false -> r_told x = true) (tell s l).
Proof.
  rewrite !List.Forall_forall. intros W x (y & Hy & _ & -> & H & _)%tell_spec Hon. by apply H, W.
Qed.
Lemma via_stop r : via r (stop_voice_call r).
Proof.
  exists []. split; [|done]. split; try done.
  - by rewrite app_nil_r.
  - intros _. unfold heard. cbn. by rewrite tell_heard.
  - intros W. pose proof (tell_all r W) as T. destruct W as [W1 W2 W3 W4 W5]. split; cbn.
    + by rewrite tell_ids.
    + by apply tell_below.
    + eapply Forall_impl; [exact T|]. by intros x ->.
    + by apply tell_off.
    + done.
Qed.
Lemma via_device d b r : via r (set_voice_call_input_device d b r).
Proof.
  unfold set_voice_call_input_device. destruct (_ && _); [apply via_refl|]. destruct (decide _); [apply via_refl|].
  apply (via_calm r _ [InputDevice d]); [done| |done]. by repeat constructor.
Qed.
(** A call that was asked for begins: the recorder of the one before is told. *)
Definition begun (r : remote) : remote :=
  let i := next_conn_id r in
  replace_stop (Some i) (emit (Subscribe i) (set_call (stop_voice_call_sender r) None (recorders r ++ [mkRecorder i false true []]) (i + 1) (VOICE_CALL_INPUT_DEVICE r) r)).
Lemma hear_not_heard i l : ~ In i l -> List.filter (λ j, negb (j =? i)) l = l.
Proof.
  induction l as [|j l IH]; intros H; [done|]. cbn. destruct (Z.eqb_spec j i) as [->|]; [by destruct H; left|]. cbn. rewrite IH; [done|].
  intros Hin. apply H. by right.
Qed.
Lemma via_begun r ts : running r = true -> voice_call_request_timestamp r = Some ts -> via r (begun r).
Proof.
  intros Hrun Hts. exists [Subscribe (next_conn_id r)]. split; [|done]. split.
  - done.
  - by constructor.
  - unfold count, owed. cbn. lia.
  - unfold count, pending. cbn. rewrite Hts. cbn. lia.
  - intros _. unfold heard. cbn. rewrite tell_heard, List.filter_app, map_app. done.
  - intros W. pose proof (tell_all r W) as T. destruct W as [W1 W2 W3 W4 W5]. split; cbn.
    + rewrite tell_ids, map_app. apply NoDup_app. split_and!; [done| |by apply NoDup_singleton].
      intros i Hi Hin. apply list_elem_of_singleton in Hin as ->. apply list_elem_of_In, in_map_iff in Hi as (x & E & Hx).
      rewrite List.Forall_forall in W2. specialize (W2 x Hx). cbn in E, W2. lia.
    + apply List.Forall_forall. intros x (y & Hy & -> & _)%tell_spec. apply in_app_iff in Hy as [Hy|[<-|[]]]; [|cbn; lia].
      rewrite List.Forall_forall in W2. specialize (W2 y Hy). lia.
    + apply List.Forall_forall. intros x (y & Hy & -> & _ & Ht & Hs)%tell_spec E. apply in_app_iff in Hy as [Hy|[<-|[]]]; [|done].
      exfalso. apply (Hs E). rewrite List.Forall_forall in W3. apply W3; [done|]. destruct (r_told y); [by rewrite Ht in E|done].
    + apply tell_off, Forall_app. split; [done|]. by repeat constructor.
    + by rewrite Hrun.
  - done.
Qed.
Lemma via_start_voice_call t r ts :
  running r = true -> voice_call_request_timestamp r = Some ts ->
  via r (let '(s, r') := start_voice_call t (ui OnVoiceCallStarted (set_timestamp None r)) in replace_stop s r').
Proof.
  intros Hrun Hts. unfold start_voice_call. set (q := ui OnVoiceCallStarted (set_timestamp None r)).
  destruct (is_file_transfer q || is_port_forward q || is_terminal q).
  { apply (via_trans _ (set_timestamp None r)); [apply via_set_timestamp_none|]. eapply via_trans; [|apply via_stop]. apply via_ui. }
  cbv zeta. set (d := default_sound_input t).
  (* the device first, then what the call adds *)
  set (r1 := set_voice_call_input_device d false (ui OnVoiceCallStarted r)).
  apply (via_trans _ r1); [eapply via_trans; [apply via_ui|apply via_device]|].
  assert (E : set_voice_call_input_device d false q = set_timestamp None r1).
  { subst r1 q. unfold set_voice_call_input_device. cbn. destruct (bool_decide _); [done|]. cbn. by destruct (decide _). }
  rewrite E. change (via r1 (begun r1)). apply (via_begun _ ts).
  - subst r1. unfold set_voice_call_input_device. cbn. destruct (bool_decide _); [done|]. cbn. by destruct (decide _).
  - subst r1. unfold set_voice_call_input_device. cbn. destruct (bool_decide _); [done|]. cbn. by destruct (decide _).
Qed.
Lemma via_voice_response t ts b r : running r = true -> via r (on_voice_response t ts b r).
Proof.
  intros Hrun. unfold on_voice_response. cbv zeta. destruct (voice_call_request_timestamp r) as [ts'|] eqn:E; [|apply via_set_timestamp_none].
  destruct (negb _); [apply via_set_timestamp_none|]. destruct b; [by apply (via_start_voice_call t r ts')|].
  eapply via_trans; [apply via_set_timestamp_none|apply via_ui].
Qed.
Lemma via_voice_request b r : via r (on_voice_request b r).
Proof.
  unfold on_voice_request. destruct b; [via|]. destruct (stop_voice_call_sender r); [|via].
  eapply via_trans; [apply via_stop|apply via_ui].
Qed.
Lemma via_send_close_reason c r : via r (send_close_reason c r).
Proof.
  unfold send_close_reason. destruct (sent_close_reason r) eqn:E; [via|]. exists [Sent (OCloseReason c)]. split; [|done]. split; try done.
  - by constructor.
  - unfold owed, count. cbn. by rewrite E.
  - by intros [W1 W2 W3 W4 W5].
Qed.
Lemma via_told_close r : via r (put SentCloseReason true r).
Proof.
  exists []. split; [|done]. split; try done; [by rewrite app_nil_r| |by intros [W1 W2 W3 W4 W5]].
  change (owed (put SentCloseReason true r)) with 0%nat. cbn. lia.
Qed.
Lemma via_end r : via r (end_loop r).
Proof.
  unfold end_loop. cbv zeta. set (q := if session_kcp then _ else _).
  assert (V : via r q).
  { subst q. destruct session_kcp; [|apply via_stop]. eapply via_trans; [apply via_stop|apply via_send_close_reason]. }
  assert (N : stop_voice_call_sender q = None).
  { subst q. destruct session_kcp; [|done]. unfold send_close_reason. by destruct (sent_close_reason _). }
  apply (via_trans _ q); [done|]. exists []. split; [|done]. split; try done; [by rewrite app_nil_r|]. by intros [W1 W2 W3 W4 W5].
Qed.
Lemma via_goes_on r x : via r x.2 -> via r (goes_on x).
Proof. intros H. unfold goes_on. destruct x.1; [done|]. eapply via_trans; [exact H|apply via_end]. Qed.
#[local] Hint Resolve via_block_input via_privacy via_on_video via_on_permission via_on_sched via_on_prompt via_cliprdr via_on_print
  via_local_clipboard via_sync_clipboard via_voice_request via_send_close_reason via_on_login via_stop : via.
Lemma via_ui_message t d r : via r (handle_msg_from_ui t d r).2.
Proof.
  destruct d; cbn [handle_msg_from_ui snd]; try via.
  eapply via_trans; [apply via_ask|apply via_ui].
Qed.
Lemma via_peer_message t m r : running r = true -> tables t -> via r (handle_msg_from_peer t m r).2.
Proof.
  intros Hrun [T1 T2]. destruct m; cbn [handle_msg_from_peer snd]; try (by via).
  - eapply via_trans; [|apply via_lift_h; by apply login_error_adds]. via.
  - cbv zeta. set (r1 := put SentCloseReason true r). apply (via_trans _ r1); [apply via_told_close|]. cbn [snd]. via.
  - destruct n; cbn [snd]; via.
  - eapply via_trans; [|apply via_msgbox]; [via|]. destruct (helper_url t link) eqn:E; [by apply (T2 _ _ E)|done].
  - by apply via_voice_response.
  - cbv zeta. eapply via_trans; [|apply via_ui]. destruct service_id as [s|]; [|via]. destruct (is_empty s); [via|].
    apply via_do_h, h_same. intros w. apply set_option_out.
Qed.
(** One recorder changes, its name stays. *)
Lemma heard_update l i x y :
  l !! i = Some x -> r_id y = r_id x -> r_on x = true -> NoDup (map r_id l) ->
  map r_id (List.filter r_on (<[i := y]> l))
  = if r_on y then map r_id (List.filter r_on l) else List.filter (λ j, negb (j =? r_id x)) (map r_id (List.filter r_on l)).
Proof.
  intros Hi Hy Hx. revert i Hi. induction l as [|z l IH]; intros i Hi N; [done|]. apply NoDup_cons in N as [N1 N2]. destruct i as [|i].
  - injection Hi as ->. cbn. rewrite Hx. destruct (r_on y); cbn; rewrite ?Hy; [done|]. rewrite Z.eqb_refl. cbn.
    symmetry. apply hear_not_heard. intros (q & Hq & Hin)%in_map_iff. apply N1, list_elem_of_In, in_map_iff. exists q.
    by apply filter_In in Hin as [??].
  - change (<[S i := y]> (z :: l)) with (z :: <[i := y]> l). cbn [List.filter map]. assert (Hne : r_id z <> r_id x).
    { intros Hne. apply N1. rewrite Hne. apply list_elem_of_In, in_map, list_elem_of_In. by apply (list_elem_of_lookup_2 _ i). }
    specialize (IH i Hi N2). destruct (r_on z); cbn [List.filter map]; rewrite IH; destruct (r_on y); rewrite ?(proj2 (Z.eqb_neq _ _) Hne); done.
Qed.
Lemma ids_update l i x y : l !! i = Some x -> r_id y = r_id x -> map r_id (<[i := y]> l) = map r_id l.
Proof. intros Hi Hy. rewrite list_fmap_insert, Hy. apply list_insert_id. by rewrite list_lookup_fmap, Hi. Qed.
Lemma well_update r i x y :
  recorders r !! i = Some x -> r_id y = r_id x -> (r_told x = true -> r_told y = true) -> (r_on y = false -> r_told y = true) ->
  well r -> well (set_recorders (<[i := y]> (recorders r)) r).
Proof.
  intros Hi Hid Ht Ho [W1 W2 W3 W4 W5]. split; cbn.
  - by rewrite (ids_update _ _ _ _ Hi Hid).
  - apply Forall_insert; [done|]. rewrite Hid. by apply (Forall_lookup_1 _ _ _ _ W2 Hi).
  - apply Forall_insert; [done|]. intros E. rewrite Hid. apply (Forall_lookup_1 _ _ _ _ W3 Hi).
    destruct (r_told x); [by specialize (Ht eq_refl); rewrite E in Ht|done].
  - by apply Forall_insert.
  - done.
Qed.
Lemma via_recorder_turn i r : via r (recorder_turn i r).
Proof.
  unfold recorder_turn. destruct (recorders r !! i) as [x|] eqn:E; [|via]. destruct (r_on x) eqn:Eon; cbn [negb]; [|via].
  destruct (r_told x) eqn:Et.
  - eapply via_trans; [|apply via_device]. exists [Unsubscribe (r_id x)]. split; [|done]. split; try done.
    + by constructor.
    + intros [N _ _ _ _]. unfold heard. cbn. by rewrite (heard_update _ i x) by done.
    + intros W. apply (well_update r i x (mkRecorder (r_id x) true false (r_data x))) in W; [|done..]. by destruct W.
  - destruct (r_data x) as [|a l]; [via|]. eapply via_trans; [|apply via_set_queue].
    exists []. split; [|done]. split; try done.
    + by rewrite app_nil_r.
    + intros [N _ _ _ _]. unfold heard. cbn. by rewrite (heard_update _ i x) by done.
    + apply (well_update r i x); cbn; congruence.
Qed.
Lemma via_recorded i a r : via r (recorded i a r).
Proof.
  unfold recorded. destruct (recorders r !! i) as [x|] eqn:E.
  - set (f := λ x : recorder, _).
    assert (A : alter f i (recorders r) = <[i := f x]> (recorders r)).
    { apply list_eq. intros j. destruct (decide (i = j)) as [<-|N].
      - rewrite list_lookup_alter_eq, E, list_lookup_insert_eq; [done|]. by apply lookup_lt_Some in E.
      - by rewrite list_lookup_alter_ne, list_lookup_insert_ne. }
    rewrite A. subst f. cbn beta. destruct (r_on x) eqn:Eon.
    + exists []. split; [|done]. split; try done.
      * by rewrite app_nil_r.
      * intros [N _ _ _ _]. unfold heard. cbn. by rewrite (heard_update _ i x) by done.
      * intros W. by apply (well_update r i x).
    + rewrite list_insert_id by done. by apply via_same.
  - assert (A : forall f, alter f i (recorders r) = recorders r).
    { intros f. apply list_eq. intros j. destruct (decide (i = j)) as [<-|N]; [by rewrite list_lookup_alter_eq, E|by rewrite list_lookup_alter_ne]. }
    rewrite A. by apply via_same.
Qed.
(** *** Turns *)
Definition tenv_of (ev : event) : option tenv :=
  match ev with EReceived t _ | EQueue t | EClip t _ | ETimer t | EStatus t _ => Some t | _ => None end.
Definition known (ev : event) : Prop := forall t, tenv_of ev = Some t -> tables t.
Definition listens (ev : event) : bool := match ev with EReceived _ (Bytes _) => true | _ => false end.
Lemma goes_set_recv n r : goes r (set_recv n r).
Proof. exists []. split; try done; [by rewrite app_nil_r|]. by intros [W1 W2 W3 W4 W5]. Qed.
Lemma via_peer_turn t m r : running r = true -> tables t -> via r (goes_on (handle_msg_from_peer t m r)).
Proof. intros H T. by apply via_goes_on, via_peer_message. Qed.
Lemma via_step r ev : known ev -> listens ev = false -> via r (step r ev).
Proof.
  intros T L. unfold step. destruct (is_turn ev && negb (running r)); [via|].
  destruct ev as [t x|t|t c|t|t el|d|c|i|i a|k a]; try (by via).
  - destruct x as [|err|m]; cbn [on_received]; [| |done]; eapply via_trans; [|apply via_end| |apply via_end]; via.
  - unfold on_queue. destruct (queue r) as [|d l]; [via|]. apply via_goes_on. eapply via_trans; [apply via_set_queue|apply via_ui_message].
  - unfold on_timer. destruct (_ <=? _); [eapply via_trans; [|apply via_end]; via|].
    destruct (Transfer.timer_tick _ _); [via|]. eapply via_trans; [|apply via_end]. via.
  - apply via_recorder_turn.
  - apply via_recorded.
Qed.
Lemma via_first_bytes r : via r (if was_received r then r else do_h (Handler.update_received true) (put WasReceived true r)).
Proof. via. Qed.
Lemma first_bytes_running r : running (if was_received r then r else do_h (Handler.update_received true) (put WasReceived true r)) = running r.
Proof. by destruct (was_received r). Qed.
Lemma goes_step r ev : known ev -> goes r (step r ev).
Proof.
  intros T. destruct (listens ev) eqn:L; [|by apply via_goes, via_step]. destruct ev as [t [| |m]|t|t c|t|t el|d|c|i|i a|k a]; try done.
  unfold step. cbn [is_turn andb]. destruct (running r) eqn:Hrun; cbn [negb]; [|apply via_goes, via_refl].
  unfold on_received. apply (remote_goes_trans _ (set_recv (now t) r)); [apply goes_set_recv|]. apply via_goes.
  assert (Hr := first_bytes_running (set_recv (now t) r)).
  eapply via_trans; [apply via_first_bytes|]. cbv zeta. revert Hr. generalize (if was_received (set_recv (now t) r) then set_recv (now t) r
    else do_h (Handler.update_received true) (put WasReceived true (set_recv (now t) r))). intros r1 Hr.
  destruct m as [m|]; [|apply via_refl]. apply via_peer_turn; [by rewrite Hr|]. by apply T.
Qed.
Lemma goes_run l r : Forall known l -> goes r (run l r).
Proof.
  intros H. revert r. induction H as [|ev l Hev H IH]; intros r; [apply via_goes, via_refl|].
  cbn. eapply remote_goes_trans; [by apply goes_step|apply IH].
Qed.
Lemma via_run l r : Forall known l -> Forall (λ ev, listens ev = false) l -> via r (run l r).
Proof.
  intros H. revert r. induction H as [|ev l Hev H IH]; intros r L; [via|]. apply Forall_cons in L as [L1 L2].
  cbn. eapply via_trans; [by apply via_step|by apply IH].
Qed.
End relation.

(** ** Theorems *)
Lemma any_known l : Forall (known (λ _, True)) l.
Proof. apply Forall_true. by intros ev t _. Qed.
Lemma run_does l r : goes (λ _, True) r (run l r).
Proof. apply goes_run; try done. apply any_known. Qed.
Lemma step_goes r ev : goes (λ _, True) r (step r ev).
Proof. by apply goes_step. Qed.
Lemma told_at_close t c r : running r = true -> exists k, out (step r (EReceived t (Bytes (Some (MCloseReason c))))) = out r ++ k
  /\ count is_close k = 0%nat /\ sent_close_reason (step r (EReceived t (Bytes (Some (MCloseReason c))))) = true.
Proof.
  intros Hrun. unfold step. cbn [is_turn andb]. rewrite Hrun. cbn [negb].
  unfold on_received. cbv zeta. set (r0 := set_recv (now t) r). set (r1 := if was_received r0 then r0 else _).
  assert (exists k, out r1 = out r ++ k /\ count is_close k = 0%nat) as (k & Ek & Ck).
  { subst r1. destruct (was_received r0); [exists []; by rewrite app_nil_r|]. exists []. split; [|done]. cbn. by rewrite !app_nil_r. }
  cbn [handle_msg_from_peer]. cbv zeta. unfold goes_on. cbn [fst snd].
  set (r2 := put SentCloseReason true r1). set (r3 := if String.eqb c _ then _ else _).
  assert (V : goes (λ _, True) r2 (end_loop r3)).
  { apply via_goes. eapply via_trans; [|apply via_end]. subst r3. destruct (String.eqb c _); by apply via_msgbox. }
  destruct V as (k' & [V1 _ V2 _ _ _ _]). change (owed r2) with 0%nat in V2. exists (k ++ k'). split_and!.
  - rewrite V1. change (out r2) with (out r1). by rewrite Ek, app_assoc.
  - rewrite count_app. lia.
  - unfold owed in V2. destruct (sent_close_reason (end_loop r3)); [done|lia].
Qed.

(** Whatever the register, the window and the recorders do, and in whatever order, a connection bids farewell at
    most once, also over KCP, where the end of the loop says it if nobody has; and once the register has given its own
    reason for closing, nothing is said any more. *)
Theorem farewell_once l r :
  exists k, out (run l r) = out r ++ k /\ (count is_close k <= owed r)%nat
  /\ forall t c, running r = true ->
     exists k', out (run (EReceived t (Bytes (Some (MCloseReason c))) :: l) r) = out r ++ k' /\ count is_close k' = 0%nat.
Proof.
  destruct (run_does l r) as (k & [H1 _ H2 _ _ _ _]). exists k. split; [done|]. split; [lia|]. intros t c Hrun.
  destruct (told_at_close t c r Hrun) as (k1 & E1 & C1 & S1). set (r1 := step r _) in *.
  destruct (run_does l r1) as (k2 & [G1 _ G2 _ _ _ _]). exists (k1 ++ k2). split.
  - change (run (_ :: l) r) with (run l r1). by rewrite G1, E1, app_assoc.
  - rewrite count_app. unfold owed in G2. rewrite S1 in G2. lia.
Qed.

Lemma untold_is_held r x : well r -> In x (recorders r) -> r_told x = false -> stop_voice_call_sender r = Some (r_id x).
Proof. intros [_ _ W _ _] Hx. rewrite List.Forall_forall in W. by apply W. Qed.
Lemma same_id_same r x y : well r -> In x (recorders r) -> In y (recorders r) -> r_id x = r_id y -> x = y.
Proof.
  intros [W _ _ _ _]. generalize (recorders r) W. clear r W. intros l. induction l as [|z l IH]; intros N Hx Hy E; [by destruct Hx|].
  apply NoDup_cons in N as [N1 N2].
  assert (D : forall q, In q l -> r_id q <> r_id z).
  { intros q Hq Eq. apply N1, list_elem_of_In. rewrite <- Eq. by apply in_map. }
  destruct Hx as [<-|Hx], Hy as [<-|Hy]; [done| | |by apply IH].
  - by destruct (D y Hy).
  - by destruct (D x Hx).
Qed.
Lemma in_heard r x : well r -> In x (recorders r) -> r_on x = false -> ~ In (r_id x) (heard r).
Proof.
  intros W Hx Hoff (y & E & Hy)%in_map_iff. apply filter_In in Hy as [Hy Hon].
  rewrite (same_id_same r y x W Hy Hx E) in Hon. congruence.
Qed.

(** C21: the microphone.  Whoever listens to it was put there by a call, and no more calls begin than this side has
    asked for: the register cannot start one by itself, nor twice by answering twice.  At any time at most one recorder
    has not been told to end; once the loop has ended every one has been; and a told recorder leaves the microphone with
    its next turn. *)
Theorem microphone_by_request l r :
  well r -> voice_call_request_timestamp r = None ->
  let r' := run l r in
  exists k, out r' = out r ++ k
  /\ (count is_start k <= count is_ask k)%nat /\ foldl hear (heard r) k = heard r'
  /\ (forall x y, In x (recorders r') -> In y (recorders r') -> r_told x = false -> r_told y = false -> x = y)
  /\ (running r' = false -> forall x, In x (recorders r') -> r_told x = true)
  /\ (forall i x, recorders r' !! i = Some x -> r_told x = true -> ~ In (r_id x) (heard (step r' (ERecorder i)))).
Proof.
  intros W Hp r'. destruct (run_does l r) as (k & [H1 _ _ H2 H3 H4 _]). fold r' in H1, H2, H3, H4. specialize (H4 W). exists k. split_and!.
  - done.
  - unfold pending in H2. rewrite Hp in H2. lia.
  - by apply H3.
  - intros x y Hx Hy Tx Ty. apply (same_id_same r'); [done..|]. pose proof (untold_is_held r' x H4 Hx Tx). pose proof (untold_is_held r' y H4 Hy Ty). congruence.
  - intros Hend x Hx. destruct (r_told x) eqn:T; [done|]. pose proof (untold_is_held r' x H4 Hx T) as Hs. by rewrite (w_end _ H4 Hend) in Hs.
  - intros i x Hi Ht. destruct (step_goes r' (ERecorder i)) as (k' & [_ _ _ _ _ G _]). specialize (G H4).
    assert (exists y, In y (recorders (step r' (ERecorder i))) /\ r_id y = r_id x /\ r_on y = false) as (y & Hy & <- & Hoff); [|by apply in_heard].
    unfold step. cbn [is_turn andb]. unfold recorder_turn. rewrite Hi. destruct (r_on x) eqn:Hon; cbn [negb].
    + rewrite Ht. exists (mkRecorder (r_id x) true false (r_data x)). split_and!; [|done..].
      unfold set_voice_call_input_device. cbn [negb andb]. destruct (decide _); cbn [recorders emit set_out set_call set_recorders];
        apply list_elem_of_In, list_elem_of_lookup; exists i; apply list_lookup_insert_eq; by apply lookup_lt_Some in Hi.
    + exists x. split_and!; [|done..]. apply list_elem_of_In. by apply (list_elem_of_lookup_2 _ i).
Qed.

(** No message box of a session carries a link the register chose: the register names a link, and the box shows what
    the program's own tables hold under that name, the two fixed pages, or none. *)
Theorem links_of_the_tables (K : string -> Prop) l r :
  K EmptyString -> K "https://rustdesk.com/docs/en/manual/linux/#login-screen" -> K Handler.SCRAP_X11_REF_URL ->
  Forall (known K) l ->
  exists k, out (run l r) = out r ++ k /\ forall ty ti te link b, In (Box ty ti te link b) k -> K link.
Proof.
  intros K1 K2 K3 Hl. destruct (goes_run K K1 K2 K3 l r Hl) as (k & [H1 H2 _ _ _ _ _]). exists k. split; [done|].
  intros ty ti te link b Hin. rewrite List.Forall_forall in H2. apply (H2 _ Hin).
Qed.

Lemma ended_stays l r : running r = false -> running (run l r) = false.
Proof. destruct (run_does l r) as (k & [_ _ _ _ _ _ H]). done. Qed.
Lemma ended_is_over r ev : running r = false -> is_turn ev = true -> step r ev = r.
Proof. intros H Ht. unfold step. by rewrite Ht, H. Qed.
Lemma end_loop_ends r : running (end_loop r) = false.
Proof. done. Qed.
(** A register that falls silent cannot hold a session: whatever else happens in between (wishes, the clipboard, a
    call, job traffic), the first tick thirty seconds after the last bytes ends the loop, with a message for the user if
    it was still running, and after that no turn does anything. *)
Theorem silence_ends t l r :
  Forall (λ ev, listens ev = false) l -> last_recv_time r + 30000 <= now t ->
  let r' := run l r in let r'' := step r' (ETimer t) in
  running r'' = false
  /\ (running r' = true -> In (Box "error" "Connection Error" "Timeout" EmptyString (retries "error" "Connection Error" "Timeout" r')) (out r''))
  /\ forall l' ev, is_turn ev = true -> step (run l' r'') ev = run l' r''.
Proof.
  intros Hl Ht r' r''.
  assert (E : last_recv_time r' = last_recv_time r).
  { assert (via (λ _, True) r r') as (k & _ & E); [|exact E]. by apply via_run; [..|apply any_known|]. }
  assert (D : running r' = true -> r'' = end_loop (msgbox "error" "Connection Error" "Timeout" EmptyString r')).
  { intros Hrun. subst r''. unfold step. cbn [is_turn andb]. rewrite Hrun. cbn [negb]. unfold on_timer.
    replace (SEC30 <=? now t - last_recv_time r') with true; [done|]. symmetry. apply Z.leb_le. rewrite E. unfold SEC30. lia. }
  assert (Hend : running r'' = false).
  { destruct (running r') eqn:Hrun; [by rewrite D|]. subst r''. by rewrite ended_is_over. }
  split_and!; [done| |].
  - intros Hrun. rewrite D by done. destruct (via_end (λ _, True) (msgbox "error" "Connection Error" "Timeout" EmptyString r')) as (k & [-> _ _ _ _ _ _] & _).
    apply in_app_iff. left. cbn. apply in_app_iff. right. by left.
  - intros l' ev Hev. apply ended_is_over; [by apply ended_stays|done].
Qed.
End remote.

(** ** Inputs *)
#[local] Existing Instances Handler.toy_store Handler.marked_sha Video.list_queue Transfer.toy_jobs.
Definition begun_session : remote :=
  mkRemote (Handler.opened None) Video.opened Transfer.window false false false no_info false true true true None None [] 7 None [] true 0 false [].
Definition at_ms (n : Z) : tenv :=
  mkTenv n (λ l, if String.eqb l "wiki" then Some "https://rustdesk.com/wiki" else None) "https://rustdesk.com/headless" 1 EmptyString false
    EmptyString (Some "mic") true (λ _, None) false None true 0 EmptyString.
Definition session (kcp : bool) (l : list event) : remote := run Handler.desk (λ _, true) false kcp true l begun_session.
(** A call is asked for and granted, sound is recorded, and the user hangs up. *)
Definition calling : list event :=
  [EWish DNewVoiceCall; EQueue (at_ms 5); EReceived (at_ms 9) (Bytes (Some (MVoiceResponse 5 true)));
   EReceived (at_ms 9) (Bytes (Some (MVoiceResponse 5 true))); ERecorded 0 33; ERecorder 0; EWish DCloseVoiceCall; EQueue (at_ms 20);
   EQueue (at_ms 20)].
Lemma begun_well : well begun_session.
Proof. split; try constructor; done. Qed.

(** A call given up before the answer is begun all the same by a late one. *)
Lemma hung_up_call_begins :
  let r' := session false [EWish DNewVoiceCall; EQueue (at_ms 5); EWish DCloseVoiceCall; EQueue (at_ms 8);
                           EReceived (at_ms 9) (Bytes (Some (MVoiceResponse 5 true)))] in
  heard r' = [7] /\ map r_told (recorders r') = [false].
Proof. vm_compute. done. Qed.
(** A recorder that ends late takes the input device from the call that follows. *)
Lemma late_recorder_takes_device :
  let r' := session false [EWish DNewVoiceCall; EQueue (at_ms 5); EReceived (at_ms 6) (Bytes (Some (MVoiceResponse 5 true)));
                           EWish DCloseVoiceCall; EQueue (at_ms 7); EWish DNewVoiceCall; EQueue (at_ms 8);
                           EReceived (at_ms 9) (Bytes (Some (MVoiceResponse 8 true))); ERecorder 0] in
  heard r' = [8] /\ VOICE_CALL_INPUT_DEVICE r' = None.
Proof. vm_compute. done. Qed.

Lemma farewell_once_witness :
  let r' := session true [EWish DClose; EQueue (at_ms 5)] in
  running r' = false /\ count is_close (out r') = 1%nat
  /\ count is_close (out (session true (EReceived (at_ms 3) (Bytes (Some (MCloseReason "bye"))) :: [EWish DClose; EQueue (at_ms 5)]))) = 0%nat.
Proof.
  destruct (farewell_once Handler.desk (λ _, true) false true true [EWish DClose; EQueue (at_ms 5)] begun_session) as (k & E & H & G).
  destruct (G (at_ms 3) "bye" eq_refl) as (k' & E' & H').
  split_and!; [reflexivity|vm_compute; reflexivity|]. unfold session. rewrite E'. exact H'.
Defined.
Lemma microphone_by_request_witness :
  let r' := session true calling in
  exists k, out r' = out begun_session ++ k /\ count is_start k = 1%nat /\ count is_ask k = 1%nat
  /\ map r_told (recorders r') = [true] /\ heard r' = [7] /\ ~ In 7 (heard (step Handler.desk (λ _, true) false true true r' (ERecorder 0))).
Proof.
  cbv zeta. destruct (microphone_by_request Handler.desk (λ _, true) false true true calling begun_session begun_well eq_refl) as (k & E & H1 & H2 & H3 & H4 & H5).
  exists k. split_and!; [exact E| | |vm_compute; reflexivity|vm_compute; reflexivity|].
  - change (out begun_session ++ k) with k in E. rewrite <- E. vm_compute. reflexivity.
  - change (out begun_session ++ k) with k in E. rewrite <- E. vm_compute. reflexivity.
  - apply (H5 0%nat (mkRecorder 7 true true [])); vm_compute; reflexivity.
Defined.
Lemma links_of_the_tables_witness :
  let K l := l = EmptyString \/ contains "https://rustdesk.com/" l = true \/ l = Handler.SCRAP_X11_REF_URL in
  exists k, out (session false [EReceived (at_ms 1) (Bytes (Some (MBox "info" "a" "b" "http://evil")));
                                EReceived (at_ms 1) (Bytes (Some (MBox "info" "a" "b" "wiki")))]) = k
  /\ k = [Box "info" "a" "b" EmptyString false; Box "info" "a" "b" "https://rustdesk.com/wiki" false]
  /\ forall ty ti te link b, In (Box ty ti te link b) k -> K link.
Proof.
  intros K.
  destruct (links_of_the_tables Handler.desk (λ _, true) false false true K
    [EReceived (at_ms 1) (Bytes (Some (MBox "info" "a" "b" "http://evil"))); EReceived (at_ms 1) (Bytes (Some (MBox "info" "a" "b" "wiki")))]
    begun_session) as (k & E & H).
  - by left.
  - right; left. reflexivity.
  - by right; right.
  - assert (T : tables K (at_ms 1)).
    { split; [right; left; reflexivity|]. intros l v. cbn. destruct (String.eqb l "wiki"); [|done]. intros [= <-]. right; left. reflexivity. }
    do 2 (apply Forall_cons; split; [by intros t [= <-]|]). constructor.
  - exists k. unfold session. rewrite E. split; [done|]. split; [|exact H].
    change (out begun_session ++ k) with k in E. rewrite <- E. vm_compute. reflexivity.
Defined.
Lemma silence_ends_witness :
  let r0 := session false [EReceived (at_ms 40000) (Bytes (Some (MChat "hello")))] in
  let r' := run Handler.desk (λ _, true) false false true [EWish (DAudio 3); EQueue (at_ms 50000)] r0 in
  let r'' := step Handler.desk (λ _, true) false false true r' (ETimer (at_ms 70000)) in
  running r' = true /\ running r'' = false /\ running (step Handler.desk (λ _, true) false false true r' (ETimer (at_ms 69999))) = true.
Proof.
  intros r0 r'.
  destruct (silence_ends Handler.desk (λ _, true) false false true (at_ms 70000) [EWish (DAudio 3); EQueue (at_ms 50000)] r0) as (H1 & H2 & H3).
  - repeat constructor.
  - vm_compute. discriminate.
  - split; [vm_compute; reflexivity|]. split; [exact H1|vm_compute; reflexivity].
Defined.
End Remote.
