(* ===== verification/Rounds.v ===== *)
(** * The rounds of a session ([src/src/ui_session_interface.rs])

    A session outlives its connections.  Each connection runs a loop in a thread
    of its own, with the number of its round; [ConnectionRoundState] says how the
    current one stands, and a loop that ends late must not speak for it. *)
From S2P Require Import Prelude.

Module Rounds.
Local Open Scope Z_scope.

Inductive ConnectionState := Connecting | Connected | Disconnected.
#[export] Instance state_eq_dec : EqDecision ConnectionState.
Proof. solve_decision. Defined.
Record ConnectionRoundState := mkCrs { round : Z; state : ConnectionState }.
Definition new_round (c : ConnectionRoundState) : Z * ConnectionRoundState :=
  let r := (round c + 1) mod (Int.u32_max + 1) in (r, mkCrs r Connecting).
Definition set_connected (c : ConnectionRoundState) : ConnectionRoundState := mkCrs (round c) Connected.
Definition is_round_gt (r : Z) (c : ConnectionRoundState) : bool :=
  if (r =? Int.u32_max) && (round c =? 0) then true else r <? round c.
Definition set_disconnected (r : Z) (c : ConnectionRoundState) : bool * ConnectionRoundState :=
  if is_round_gt r c then (false, c) else (true, mkCrs (round c) Disconnected).

(** The loops in the order they were begun: where each one is, whether its channel
    carries [Data::Close].  The window sends to the loop begun last. *)
Record loop := mkLoop { l_round : Z; l_at : ConnectionState; l_close : bool }.
Record session := mkSession {
  crs : ConnectionRoundState; thread : bool; loops : list loop;
  force_relay : bool; peer_info : option Z; reconnect_count : Z;
  clipboard_stops : list Z }.
Definition set_loops l s := mkSession (crs s) (thread s) l (force_relay s) (peer_info s) (reconnect_count s) (clipboard_stops s).
Definition set_crs c s := mkSession c (thread s) (loops s) (force_relay s) (peer_info s) (reconnect_count s) (clipboard_stops s).
Definition begin (s : session) : session :=
  let '(r, c) := new_round (crs s) in set_loops (loops s ++ [mkLoop r Connecting false]) (set_crs c s).
Definition send_close (s : session) : session :=
  set_loops (alter (λ x, mkLoop (l_round x) (l_at x) true) (length (loops s) - 1)%nat (loops s)) s.
(** The first loop of the window is begun beside [reconnect], its thread is not kept. *)
Definition session_start (s : session) : session := begin s.
Definition reconnect (force : bool) (s : session) : session :=
  if thread s && bool_decide (state (crs s) = Connecting) then s
  else
    let s := if thread s && bool_decide (state (crs s) = Connected) then send_close s else s in
    let s := begin s in
    mkSession (crs s) true (loops s) (force || force_relay s) None (reconnect_count s + 1) (clipboard_stops s).
(** The end of a loop: the clipboard (of an ordinary session) is let go only if no newer round has begun. *)
Definition finish (i : nat) (x : loop) (s : session) : session :=
  let '(ok, c) := set_disconnected (l_round x) (crs s) in
  mkSession c (thread s) (<[i := mkLoop (l_round x) Disconnected (l_close x)]> (loops s)) (force_relay s) (peer_info s) (reconnect_count s)
    (if ok then clipboard_stops s ++ [l_round x] else clipboard_stops s).
(** [Client::start] has an answer for loop [i]. *)
Definition started (i : nat) (ok : bool) (s : session) : session :=
  match loops s !! i with
  | Some x =>
      if decide (l_at x = Connecting) then
        if ok then set_loops (<[i := mkLoop (l_round x) Connected (l_close x)]> (loops s)) (set_crs (set_connected (crs s)) s)
        else finish i x s
      else s
  | None => s
  end.
(** Loop [i] leaves its turns. *)
Definition left_turns (i : nat) (s : session) : session :=
  match loops s !! i with
  | Some x => if decide (l_at x = Connected) then finish i x s else s
  | None => s
  end.
Inductive event := SessionStart | Reconnect (force : bool) | Started (i : nat) (ok : bool) | Left (i : nat).
Definition step (s : session) (ev : event) : session :=
  match ev with
  | SessionStart => session_start s
  | Reconnect force => reconnect force s
  | Started i ok => started i ok s
  | Left i => left_turns i s
  end.
Definition run (l : list event) (s : session) : session := foldl step s l.
Definition default : session := mkSession (mkCrs 0 Connecting) false [] false None 0 [].

(** The window asks for a connection of its own only at the start, and, as long as no thread is kept, for the first
    reconnection only after the end of the first loop. *)
Definition allowed (s : session) (ev : event) : bool :=
  match ev with
  | SessionStart => bool_decide (loops s = [])
  | Reconnect _ => thread s || bool_decide (loops s = []) || bool_decide (state (crs s) = Disconnected)
  | _ => true
  end.
Fixpoint all_allowed (l : list event) (s : session) : bool :=
  match l with [] => true | ev :: l => allowed s ev && all_allowed l (step s ev) end.

Record good (c : ConnectionRoundState) (kept : bool) (l : list loop) : Prop := {
  g_rounds : forall i x, l !! i = Some x -> l_round x = Z.of_nat i + 1;
  g_round : round c = Z.of_nat (length l);
  g_state : forall i x, l !! i = Some x -> S i = length l -> state c = l_at x;
  g_none : l = [] -> kept = false;
  g_older : forall i x, l !! i = Some x -> (S i < length l)%nat -> l_at x <> Connecting /\ (l_at x = Connected -> l_close x = true) }.
Definition inv (s : session) : Prop := good (crs s) (thread s) (loops s).

Lemma good_kept c k l : good c k l -> l <> [] -> good c true l.
Proof. intros [G1 G2 G3 G4 G5] H. by split. Qed.
Lemma good_begin c k l :
  good c k l -> Z.of_nat (length l) < Int.u32_max ->
  (forall i x, l !! i = Some x -> S i = length l -> l_at x <> Connecting /\ (l_at x = Connected -> l_close x = true)) ->
  forall k', good (new_round c).2 k' (l ++ [mkLoop (new_round c).1 Connecting false]).
Proof.
  intros [G1 G2 G3 G4 G5] Hb Hl k'. unfold new_round. cbn [fst snd].
  assert (E : (round c + 1) mod (Int.u32_max + 1) = Z.of_nat (length l) + 1) by (rewrite G2, Z.mod_small; lia). rewrite E.
  split; [| | |by destruct l|].
  - intros i x [Hi|[Hn Hx]]%lookup_app_Some; [by apply G1|]. apply list_lookup_singleton_Some in Hx as [? <-]. cbn. lia.
  - cbn. rewrite length_app. cbn. lia.
  - intros i x [Hi|[Hn Hx]]%lookup_app_Some Hs; rewrite length_app in Hs; cbn in Hs; [apply lookup_lt_Some in Hi; lia|].
    by apply list_lookup_singleton_Some in Hx as [? <-].
  - intros i x [Hi|[Hn Hx]]%lookup_app_Some Hs; rewrite length_app in Hs; cbn in Hs; [|lia].
    destruct (decide (S i = length l)); [by apply (Hl i)|]. apply (G5 i); [done|]. apply lookup_lt_Some in Hi. lia.
Qed.
Lemma good_update c c' k l i x y :
  good c k l -> l !! i = Some x -> l_round y = l_round x -> round c' = round c ->
  ((S i < length l)%nat -> state c' = state c /\ l_at y <> Connecting /\ (l_at y = Connected -> l_close y = true)) ->
  (S i = length l -> state c' = l_at y) -> good c' k (<[i := y]> l).
Proof.
  intros [G1 G2 G3 G4 G5] Hi Hy Hc Ho Hl. pose proof (lookup_lt_Some _ _ _ Hi) as Hlt. split.
  - intros j z [(<- & <- & _)|[_ Hz]]%list_lookup_insert_Some; [|by apply G1]. rewrite Hy. by apply G1.
  - by rewrite length_insert, Hc.
  - rewrite length_insert. intros j z [(<- & <- & _)|[Hn Hz]]%list_lookup_insert_Some Hs; [by apply Hl|].
    destruct Ho as [-> _]; [|by apply (G3 j)]. apply lookup_lt_Some in Hz. lia.
  - intros E. apply (f_equal length) in E. rewrite length_insert in E. apply G4. by destruct l.
  - rewrite length_insert. intros j z [(<- & <- & _)|[Hn Hz]]%list_lookup_insert_Some Hs; [by apply Ho|by apply (G5 j)].
Qed.
Lemma not_gt i (l : list loop) : (i < length l)%nat -> Z.of_nat (length l) <= Int.u32_max ->
  forall c, round c = Z.of_nat (length l) -> is_round_gt (Z.of_nat i + 1) c = bool_decide (S i < length l)%nat.
Proof.
  intros Hi Hb c Hc. unfold is_round_gt. rewrite Hc. rewrite (proj2 (Z.eqb_neq (Z.of_nat (length l)) 0)) by lia. rewrite andb_false_r.
  case_bool_decide; [apply Z.ltb_lt|apply Z.ltb_ge]; lia.
Qed.
Lemma gt_of i x s : inv s -> Z.of_nat (length (loops s)) <= Int.u32_max -> loops s !! i = Some x ->
  is_round_gt (l_round x) (crs s) = bool_decide (S i < length (loops s))%nat.
Proof. intros G Hb Hi. rewrite (g_rounds _ _ _ G i x Hi). apply not_gt; [by apply lookup_lt_Some in Hi|done|apply G]. Qed.
Lemma finish_inv i x s : inv s -> Z.of_nat (length (loops s)) <= Int.u32_max -> loops s !! i = Some x -> inv (finish i x s).
Proof.
  intros G Hb Hi. pose proof (lookup_lt_Some _ _ _ Hi) as Hlt. unfold finish, set_disconnected.
  rewrite (gt_of i x s G Hb Hi). case_bool_decide as Ho.
  - apply (good_update (crs s) _ _ _ i x); try done. lia.
  - apply (good_update (crs s) _ _ _ i x); try done; by intros.
Qed.
Lemma finish_older i x s : inv s -> Z.of_nat (length (loops s)) <= Int.u32_max -> loops s !! i = Some x -> (S i < length (loops s))%nat ->
  crs (finish i x s) = crs s /\ clipboard_stops (finish i x s) = clipboard_stops s.
Proof.
  intros G Hb Hi Ho. unfold finish, set_disconnected. rewrite (gt_of i x s G Hb Hi), bool_decide_true by done. done.
Qed.
Lemma send_close_last s i x : loops s !! i = Some x -> S i = length (loops s) ->
  loops (send_close s) = <[i := mkLoop (l_round x) (l_at x) true]> (loops s).
Proof.
  intros Hi Hs. cbn. replace (length (loops s) - 1)%nat with i by lia. apply list_eq. intros j. destruct (decide (i = j)) as [<-|N].
  - rewrite list_lookup_alter_eq, Hi, list_lookup_insert_eq; [done|]. by apply lookup_lt_Some in Hi.
  - by rewrite list_lookup_alter_ne, list_lookup_insert_ne.
Qed.
Lemma last_loop (l : list loop) : l <> [] -> exists i x, l !! i = Some x /\ S i = length l.
Proof.
  intros H. assert (is_Some (l !! (length l - 1)%nat)) as [x Hx]; [apply lookup_lt_is_Some_2; destruct l; [done|cbn; lia]|].
  exists (length l - 1)%nat, x. split; [done|]. apply lookup_lt_Some in Hx. lia.
Qed.
Lemma begin_inv s : inv s -> Z.of_nat (length (loops s)) < Int.u32_max ->
  (forall i x, loops s !! i = Some x -> S i = length (loops s) -> l_at x <> Connecting /\ (l_at x = Connected -> l_close x = true)) ->
  forall k, good (crs (begin s)) k (loops (begin s)).
Proof.
  intros G Hb Hl k. unfold begin. destruct (new_round (crs s)) as [r c] eqn:E. pose proof (good_begin _ _ _ G Hb Hl k) as H. by rewrite E in H.
Qed.
Lemma reconnect_inv f s : inv s -> Z.of_nat (length (loops s)) < Int.u32_max -> allowed s (Reconnect f) = true -> inv (reconnect f s).
Proof.
  intros G Hb Ha. unfold reconnect. destruct (thread s && _) eqn:E1; [done|]. cbv zeta.
  destruct (decide (loops s = [])) as [En|Hne].
  { rewrite (g_none _ _ _ G En). cbn [andb]. apply begin_inv; try done. rewrite En. done. }
  destruct (last_loop _ Hne) as (i & x & Hi & Hs). pose proof (g_state _ _ _ G i x Hi Hs) as Hst.
  destruct (thread s && bool_decide (state (crs s) = Connected)) eqn:E2.
  - apply andb_true_iff in E2 as [Ht E2]. apply bool_decide_eq_true in E2.
    pose proof (send_close_last s i x Hi Hs) as El. assert (G' : inv (send_close s)).
    { unfold inv. rewrite El. apply (good_update (crs s) _ _ _ i x); try done. lia. }
    apply begin_inv; [done|cbn; by rewrite length_alter|]. rewrite El, length_insert.
    intros j y [(<- & <- & _)|[Hn Hy]]%list_lookup_insert_Some Hj; [|lia]. cbn. split; [congruence|done].
  - apply begin_inv; try done. intros j y Hy Hj. assert (j = i) as -> by lia. rewrite Hi in Hy. injection Hy as <-. rewrite <- Hst.
    cbn [allowed] in Ha. rewrite (bool_decide_false (loops s = [])), orb_false_r in Ha by done. destruct (thread s); cbn [andb orb] in *.
    + apply bool_decide_eq_false in E1, E2. done.
    + apply bool_decide_eq_true in Ha. by rewrite Ha.
Qed.
Lemma step_inv s ev : inv s -> Z.of_nat (length (loops s)) < Int.u32_max -> allowed s ev = true -> inv (step s ev).
Proof.
  intros G Hb Ha. destruct ev as [|f|i ok|i]; cbn [step].
  - cbn [allowed] in Ha. apply bool_decide_eq_true in Ha. apply begin_inv; try done. by rewrite Ha.
  - by apply reconnect_inv.
  - unfold started. destruct (loops s !! i) as [x|] eqn:Hi; [|done]. destruct (decide _) as [Ec|]; [|done].
    destruct ok; [|apply finish_inv; [done|lia|done]]. unfold inv. cbn.
    apply (good_update (crs s) _ _ _ i x); try done. intros Ho. by destruct (g_older _ _ _ G i x Hi Ho).
  - unfold left_turns. destruct (loops s !! i) as [x|] eqn:Hi; [|done]. destruct (decide _); [|done]. apply finish_inv; [done|lia|done].
Qed.
Lemma step_loops s ev : (length (loops (step s ev)) <= S (length (loops s)))%nat.
Proof.
  destruct ev as [|f|i ok|i]; cbn [step].
  - unfold session_start, begin. cbn. rewrite length_app. cbn. lia.
  - unfold reconnect. destruct (_ && _); [lia|]. cbv zeta. unfold begin. cbn. rewrite length_app. destruct (_ && _); cbn; rewrite ?length_alter; lia.
  - unfold started. destruct (loops s !! i) as [x|]; [|lia]. destruct (decide _); [|lia].
    destruct ok; [|unfold finish; destruct (set_disconnected _ _)]; cbn; rewrite length_insert; lia.
  - unfold left_turns. destruct (loops s !! i) as [x|]; [|lia]. destruct (decide _); [|lia].
    unfold finish. destruct (set_disconnected _ _). cbn. rewrite length_insert. lia.
Qed.
Lemma rounds_run_inv l s : inv s -> Z.of_nat (length (loops s)) + Z.of_nat (length l) <= Int.u32_max -> all_allowed l s = true ->
  inv (run l s) /\ Z.of_nat (length (loops (run l s))) <= Int.u32_max.
Proof.
  revert s. induction l as [|ev l IH]; intros s G Hb Ha; [cbn in *; split; [done|lia]|].
  cbn in Ha. apply andb_true_iff in Ha as [Ha1 Ha2]. cbn [length] in Hb.
  pose proof (step_loops s ev). apply (IH (step s ev)); [apply step_inv; [done|lia|done]|lia|done].
Qed.

(** C29: the connections of a session stay apart, as long as the session is not told to reconnect before its first loop
    has ended ([all_allowed]: that loop's thread is not kept, see [first_thread_unkept]), and for fewer than 2^32 events
    (the number of a round is a u32).  However the ends of the old loops then fall among the new rounds, the session says of itself what the loop of the current round is doing; no older loop is still on its way to a
    connection, and one that still takes turns has been told to close; and whatever such a loop does, it neither changes
    that account nor lets the clipboard of the new connection go. *)
Theorem rounds_apart l :
  Z.of_nat (length l) <= Int.u32_max -> all_allowed l default = true ->
  let s := run l default in
  (forall i x, loops s !! i = Some x -> S i = length (loops s) -> state (crs s) = l_at x)
  /\ (forall i x, loops s !! i = Some x -> (S i < length (loops s))%nat ->
        l_at x <> Connecting /\ (l_at x = Connected -> l_close x = true)
        /\ forall ev, ev = Left i \/ ev = Started i true \/ ev = Started i false ->
            crs (step s ev) = crs s /\ clipboard_stops (step s ev) = clipboard_stops s).
Proof.
  intros Hb Ha s. destruct (rounds_run_inv l default) as [G Hl]; [by split|done|done|]. fold s in G, Hl. split; [apply G|].
  intros i x Hi Ho. destruct (g_older _ _ _ G i x Hi Ho) as [H1 H2]. split_and!; [done..|].
  assert (Hs : forall ok, step s (Started i ok) = s).
  { intros ok. cbn. unfold started. rewrite Hi. by destruct (decide _). }
  intros ev [-> | [-> | ->]]; [|by rewrite Hs..]. cbn. unfold left_turns. rewrite Hi. destruct (decide _); [|done]. by apply finish_older.
Qed.
Lemma rounds_apart_witness :
  let s := run [SessionStart; Started 0 false; Reconnect false; Started 1 true; Reconnect true; Started 2 true; Left 1] default in
  state (crs s) = Connected /\ map l_at (loops s) = [Disconnected; Disconnected; Connected] /\ clipboard_stops s = [1].
Proof.
  intros s. destruct (rounds_apart [SessionStart; Started 0 false; Reconnect false; Started 1 true; Reconnect true; Started 2 true; Left 1])
    as [H _]; [done|vm_compute; reflexivity|]. fold s in H.
  split; [|split; vm_compute; reflexivity]. rewrite (H 2%nat (mkLoop 3 Connected false)); vm_compute; reflexivity.
Defined.

(** Why the order of the window matters: the first loop's thread is not kept, so a reconnection before its end neither
    waits nor tells it to close, and its answer is taken for the new round's. *)
Lemma first_thread_unkept :
  let s := run [SessionStart; Reconnect false; Started 0 true] default in
  state (crs s) = Connected /\ map l_at (loops s) = [Connected; Connecting] /\ map l_close (loops s) = [false; false].
Proof. vm_compute. done. Qed.
End Rounds.
