(* ===== verification/Enigo.v ===== *)
(** * Simulated keys and the mouse ([src/libs/enigo])

    [Device] is the pair of traits [KeyboardControllable] and
    [MouseControllable] ([lib.rs]); [Windows] is what their implementation for
    Windows ([win/win_impl.rs]) asks of the system, and [windows_device] that
    implementation.  [dsl.rs], the language in which key strokes are written
    down, is evaluated on any device. *)
From Stdlib Require Import Ascii String.
From S2P Require Import Prelude.

Module Enigo.
Local Open Scope Z_scope.
Local Open Scope list_scope.

(** A [char] is its number. *)
Inductive Key :=
  | Alt | Backspace | CapsLock | Command | Control | Delete | DownArrow | End_ | Escape | F1 | F10 | F11 | F12 | F2 | F3 | F4 | F5 | F6
  | F7 | F8 | F9 | Home | LeftArrow | Meta | Option_ | PageDown | PageUp | Return_ | RightArrow | Shift | Space | Super | Tab | UpArrow
  | Windows_ | Numpad0 | Numpad1 | Numpad2 | Numpad3 | Numpad4 | Numpad5 | Numpad6 | Numpad7 | Numpad8 | Numpad9 | Cancel | Clear
  | Pause | Kana | Hangul | Junja | Final | Hanja | Kanji | Convert | Select | Print_ | Execute | Snapshot | Insert | Help | Sleep
  | Separator | VolumeUp | VolumeDown | Mute | Scroll | NumLock | RWin | Apps | Multiply | Add_ | Subtract | Decimal | Divide
  | Equals | NumpadEnter | RightShift | RightControl | RightAlt | Layout (c : Z) | Raw (code : Z).
#[export] Instance Key_eq_dec : EqDecision Key.
Proof. solve_decision. Defined.
Inductive MouseButton := Left | Middle | Right | Back | Forward | ScrollUp | ScrollDown | ScrollLeft | ScrollRight.
#[export] Instance MouseButton_eq_dec : EqDecision MouseButton.
Proof. solve_decision. Defined.

(** What the traits offer; [true] stands for [Ok]. *)
Class Device := {
  dev : Type;
  get_key_state : Key -> dev -> bool;
  key_down : Key -> dev -> bool * dev;
  key_up : Key -> dev -> dev;
  key_click : Key -> dev -> dev;
  key_sequence : list Z -> dev -> dev;
  mouse_move_to : Z -> Z -> dev -> dev;
  mouse_move_relative : Z -> Z -> dev -> dev;
  mouse_down : MouseButton -> dev -> bool * dev;
  mouse_up : MouseButton -> dev -> dev;
  mouse_scroll_x : Z -> dev -> dev;
  mouse_scroll_y : Z -> dev -> dev;
}.

(** ** The language of key strokes *)
Inductive ParseError := UnknownTag (tag : list Z) | UnexpectedOpen | UnmatchedOpen | UnmatchedClose.
Inductive Token := Sequence (s : list Z) | Unicode (s : list Z) | KeyUp (k : Key) | KeyDown (k : Key).
Definition chars (s : string) : list Z := map (λ c, Z.of_nat (nat_of_ascii c)) (list_ascii_of_string s).
Definition OPEN : Z := 123.
Definition CLOSE : Z := 125.
Definition flush (tokens : list Token) (buffer : list Z) (unicode : bool) : list Token :=
  match buffer with [] => tokens | _ => tokens ++ [if unicode then Unicode buffer else Sequence buffer] end.
Inductive tag_meaning := SetUnicode (b : bool) | Emit (t : Token).
Definition tags : list (string * tag_meaning) :=
  [("+UNICODE", SetUnicode true); ("-UNICODE", SetUnicode false);
   ("+SHIFT", Emit (KeyDown Shift)); ("-SHIFT", Emit (KeyUp Shift)); ("+CTRL", Emit (KeyDown Control)); ("-CTRL", Emit (KeyUp Control));
   ("+META", Emit (KeyDown Meta)); ("-META", Emit (KeyUp Meta)); ("+ALT", Emit (KeyDown Alt)); ("-ALT", Emit (KeyUp Alt))]%string.
Definition meaning (tag : list Z) : option tag_meaning := snd <$> List.find (λ x, bool_decide (chars x.1 = tag)) tags.
(** [tag]: inside a tag, what was read of it. *)
Fixpoint scan (unicode : bool) (tokens : list Token) (buffer : list Z) (tag : option (list Z)) (l : list Z) : result (list Token) ParseError :=
  match tag, l with
  | None, [] => Ok (flush tokens buffer unicode)
  | None, c :: l =>
      if c =? OPEN then
        match l with
        | d :: l => if d =? OPEN then scan unicode tokens (buffer ++ [OPEN]) None l
                    else scan unicode (flush tokens buffer unicode) [] (Some [d]) l
        | [] => Err UnmatchedOpen
        end
      else if c =? CLOSE then
        match l with
        | d :: l => if d =? CLOSE then scan unicode tokens (buffer ++ [CLOSE]) None l else Err UnmatchedClose
        | [] => Err UnmatchedClose
        end
      else scan unicode tokens (buffer ++ [c]) None l
  | Some _, [] => Err UnmatchedOpen
  | Some tag, c :: l =>
      let closed :=
        match meaning tag with
        | Some (SetUnicode b) => scan b tokens [] None l
        | Some (Emit t) => scan unicode (tokens ++ [t]) [] None l
        | None => Err (UnknownTag tag)
        end in
      if c =? OPEN then
        match l with
        | d :: l => if d =? OPEN then scan unicode tokens buffer (Some (tag ++ [OPEN])) l else Err UnexpectedOpen
        | [] => Err UnexpectedOpen
        end
      else if c =? CLOSE then
        match l with
        | d :: l => if d =? CLOSE then scan unicode tokens buffer (Some (tag ++ [CLOSE])) l else closed
        | [] => closed
        end
      else scan unicode tokens buffer (Some (tag ++ [c])) l
  end.
Definition tokenize (input : list Z) : result (list Token) ParseError := scan false [] [] None input.
Section eval.
Context {D : Device}.
Definition run_token (t : Token) (d : dev) : dev :=
  match t with
  | Sequence s => foldl (λ d c, key_click (Layout c) d) d s
  | Unicode s => key_sequence s d
  | KeyUp k => key_up k d
  | KeyDown k => (key_down k d).2
  end.
Definition eval (input : list Z) (d : dev) : result unit ParseError * dev :=
  match tokenize input with
  | Ok l => (Ok tt, foldl (λ d t, run_token t d) d l)
  | Err e => (Err e, d)
  end.
End eval.

(** *** What is written is what is typed *)
Definition escape (s : list Z) : list Z := concat (map (λ c, if (c =? OPEN) || (c =? CLOSE) then [c; c] else [c]) s).
Definition tag (s : string) : list Z := OPEN :: chars s ++ [CLOSE].
Definition key_tag (k : Key) : option string :=
  match k with Shift => Some "SHIFT"%string | Control => Some "CTRL"%string | Meta => Some "META"%string | Alt => Some "ALT"%string | _ => None end.
Definition write (t : Token) : list Z :=
  match t with
  | Sequence s => tag "-UNICODE" ++ escape s
  | Unicode s => tag "+UNICODE" ++ escape s
  | KeyUp k => tag (String "-" (default EmptyString (key_tag k)))
  | KeyDown k => tag (String "+" (default EmptyString (key_tag k)))
  end.
(** A text is not empty and does not begin with a closing brace. *)
Definition writable (t : Token) : bool :=
  match t with
  | Sequence s | Unicode s => match s with c :: _ => negb (c =? CLOSE) | [] => false end
  | KeyUp k | KeyDown k => bool_decide (is_Some (key_tag k))
  end.
Definition ready (l : list Z) : Prop := match l with c :: _ => c <> CLOSE | [] => True end.
Lemma scan_text u ts buf s l : scan u ts buf None (escape s ++ l) = scan u ts (buf ++ s) None l.
Proof.
  revert buf. induction s as [|c s IH]; intros buf; [by rewrite app_nil_r|].
  change (escape (c :: s)) with ((if (c =? OPEN) || (c =? CLOSE) then [c; c] else [c]) ++ escape s).
  rewrite <- app_assoc. destruct (Z.eqb_spec c OPEN) as [->|Ho]; [|destruct (Z.eqb_spec c CLOSE) as [->|Hc]]; cbn [orb app scan].
  - rewrite Z.eqb_refl. by rewrite IH, <- app_assoc.
  - change (CLOSE =? OPEN) with false. rewrite Z.eqb_refl. cbn. by rewrite IH, <- app_assoc.
  - rewrite (proj2 (Z.eqb_neq _ _) Ho), (proj2 (Z.eqb_neq _ _) Hc). by rewrite IH, <- app_assoc.
Qed.
Definition plain (l : list Z) : bool := forallb (λ c, negb (c =? OPEN) && negb (c =? CLOSE)) l.
Lemma scan_name u ts buf tg s l :
  plain s = true -> ready l ->
  scan u ts buf (Some tg) (s ++ CLOSE :: l)
  = match meaning (tg ++ s) with
    | Some (SetUnicode b) => scan b ts [] None l
    | Some (Emit t) => scan u (ts ++ [t]) [] None l
    | None => Err (UnknownTag (tg ++ s))
    end.
Proof.
  revert tg. induction s as [|c s IH]; intros tg Hs Hl.
  - rewrite app_nil_r. cbn [app scan]. change (CLOSE =? OPEN) with false. rewrite Z.eqb_refl. destruct l as [|d l]; [done|].
    cbn in Hl. by rewrite (proj2 (Z.eqb_neq _ _) Hl).
  - cbn in Hs. apply andb_true_iff in Hs as [[Ho Hc]%andb_true_iff Hs]. apply negb_true_iff in Ho, Hc.
    cbn [app scan]. rewrite Ho, Hc. rewrite IH, <- app_assoc by done. done.
Qed.
Lemma scan_tag u ts buf nm l :
  nm <> EmptyString -> plain (chars nm) = true -> ready l ->
  scan u ts buf None (tag nm ++ l)
  = match meaning (chars nm) with
    | Some (SetUnicode b) => scan b (flush ts buf u) [] None l
    | Some (Emit t) => scan u (flush ts buf u ++ [t]) [] None l
    | None => Err (UnknownTag (chars nm))
    end.
Proof.
  intros Hn Hs Hl. destruct nm as [|c nm]; [done|]. unfold tag. change (chars (String c nm)) with (Z.of_nat (nat_of_ascii c) :: chars nm) in *.
  set (z := Z.of_nat _) in *. cbn in Hs. apply andb_true_iff in Hs as [[Ho Hc]%andb_true_iff Hs]. apply negb_true_iff in Ho.
  cbn [app]. rewrite <- app_assoc. cbn [app scan]. rewrite Z.eqb_refl, Ho. by rewrite scan_name.
Qed.
Lemma ready_write ts : ready (concat (map write ts)).
Proof. by destruct ts as [|[s|s|k|k] ts]. Qed.
Lemma ready_text s l : writable (Sequence s) = true -> ready (escape s ++ l).
Proof. destruct s as [|c s]; [done|]. cbn. intros H%negb_true_iff%Z.eqb_neq. by destruct ((c =? OPEN) || (c =? CLOSE)). Qed.
Lemma flush_some ts c s (u : bool) : flush ts (c :: s) u = ts ++ [if u then Unicode (c :: s) else Sequence (c :: s)].
Proof. done. Qed.
Lemma scan_written ts u toks buf : forallb writable ts = true ->
  scan u toks buf None (concat (map write ts)) = Ok (flush toks buf u ++ ts).
Proof.
  revert u toks buf. induction ts as [|t ts IH]; intros u toks buf H; [by rewrite app_nil_r|].
  cbn [forallb] in H. apply andb_true_iff in H as [Ht Hts]. change (concat (map write (t :: ts))) with (write t ++ concat (map write ts)).
  destruct t as [s|s|k|k]; cbn [write].
  - rewrite <- app_assoc, scan_tag by (try done; by apply ready_text). change (meaning (chars "-UNICODE")) with (Some (SetUnicode false)).
    cbn match. rewrite scan_text, IH by done. destruct s as [|c s]; [done|]. cbn [app flush]. by rewrite <- app_assoc.
  - rewrite <- app_assoc, scan_tag by (try done; by apply ready_text). change (meaning (chars "+UNICODE")) with (Some (SetUnicode true)).
    cbn match. rewrite scan_text, IH by done. destruct s as [|c s]; [done|]. cbn [app flush]. by rewrite <- app_assoc.
  - cbn in Ht. apply bool_decide_eq_true in Ht as [nm Hk]. rewrite Hk. change (default EmptyString (Some nm)) with nm.
    rewrite scan_tag by (try apply ready_write; destruct k; try done; by injection Hk as <-).
    assert (meaning (chars (String "-" nm)) = Some (Emit (KeyUp k))) as -> by (destruct k; try done; by injection Hk as <-).
    cbn match. rewrite IH by done. cbn [flush]. by rewrite <- app_assoc.
  - cbn in Ht. apply bool_decide_eq_true in Ht as [nm Hk]. rewrite Hk. change (default EmptyString (Some nm)) with nm.
    rewrite scan_tag by (try apply ready_write; destruct k; try done; by injection Hk as <-).
    assert (meaning (chars (String "+" nm)) = Some (Emit (KeyDown k))) as -> by (destruct k; try done; by injection Hk as <-).
    cbn match. rewrite IH by done. cbn [flush]. by rewrite <- app_assoc.
Qed.
(** C40: the language of key strokes loses nothing: every sequence of texts (typed by keys or as characters) and of the
    four modifiers going down and up in which no text is empty or begins with a closing brace ([writable]), written token by token with
    braces doubled, is read back as it was.  A text that begins with a closing brace is not ([brace_after_tag]). *)
Theorem written_is_typed ts : forallb writable ts = true -> tokenize (concat (map write ts)) = Ok ts.
Proof. intros H. by apply (scan_written ts false [] []). Qed.
Lemma written_is_typed_witness :
  forallb writable [KeyDown Control; Sequence (chars "a{}"); KeyUp Control; Unicode [54620]] = true
  /\ tokenize (concat (map write [KeyDown Control; Sequence (chars "a{}"); KeyUp Control; Unicode [54620]]))
     = Ok [KeyDown Control; Sequence (chars "a{}"); KeyUp Control; Unicode [54620]].
Proof. split; [reflexivity|]. apply (written_is_typed [KeyDown Control; Sequence (chars "a{}"); KeyUp Control; Unicode [54620]]). reflexivity. Defined.
(** A closing brace after a tag is taken for a part of the tag. *)
Lemma brace_after_tag : tokenize (chars "{+CTRL}}}{-CTRL}") = Err (UnknownTag (chars "+CTRL}")).
Proof. reflexivity. Qed.

(** ** Windows *)
Inductive input := Mouse (flags data dx dy : Z) | Keybd (flags vk scan : Z).
Class Windows := {
  os : Type;
  SendInput : input -> os -> bool * os;
  GetKeyState : Z -> os -> Z;
  has_error : os -> bool;                      (** [get_error] has a text *)
  foreground_layout : os -> Z;                 (** [GetKeyboardLayout] of the foreground window *)
  MapVirtualKeyEx : Z -> Z -> Z;
  VkKeyScanEx : Z -> Z -> Z;
  virtual_screen : os -> (Z * Z) * (Z * Z);    (** its corner and its size *)
}.
Definition KEYEVENTF_EXTENDEDKEY : Z := 1.
Definition KEYEVENTF_KEYUP : Z := 2.
Definition KEYEVENTF_UNICODE : Z := 4.
Definition key_to_keycode (key : Key) : Z :=
  match key with
  | Alt => 0x12 | Backspace => 0x08 | CapsLock => 0x14 | Control => 0xa2 | Delete => 0x2E | DownArrow => 0x28 | End_ => 0x23
  | Escape => 0x1b | F1 => 0x70 | F10 => 0x79 | F11 => 0x7a | F12 => 0x7b | F2 => 0x71 | F3 => 0x72 | F4 => 0x73 | F5 => 0x74
  | F6 => 0x75 | F7 => 0x76 | F8 => 0x77 | F9 => 0x78 | Home => 0x24 | LeftArrow => 0x25 | Option_ => 0x12 | PageDown => 0x22
  | PageUp => 0x21 | Return_ => 0x0D | RightArrow => 0x27 | Shift => 0x10 | Space => 0x20 | Tab => 0x09 | UpArrow => 0x26
  | Numpad0 => 0x60 | Numpad1 => 0x61 | Numpad2 => 0x62 | Numpad3 => 0x63 | Numpad4 => 0x64 | Numpad5 => 0x65 | Numpad6 => 0x66
  | Numpad7 => 0x67 | Numpad8 => 0x68 | Numpad9 => 0x69 | Cancel => 0x03 | Clear => 0x0C | Pause => 0x13 | Kana => 0x15
  | Hangul => 0x15 | Junja => 0x17 | Final => 0x18 | Hanja => 0x19 | Kanji => 0x19 | Convert => 0x1C | Select => 0x29
  | Print_ => 0x2A | Execute => 0x2B | Snapshot => 0x2C | Insert => 0x2D | Help => 0x2F | Sleep => 0x5F | Separator => 0x6C
  | Mute => 0xAD | VolumeDown => 0xAE | VolumeUp => 0xAF | Scroll => 0x91 | NumLock => 0x90 | RWin => 0x5C | Apps => 0x5D
  | Add_ => 0x6B | Multiply => 0x6A | Decimal => 0x6E | Subtract => 0x6D | Divide => 0x6F | NumpadEnter => 0x0D | Equals => 61
  | RightShift => 0xa1 | RightControl => 0xa3 | RightAlt => 0xa5 | Raw code => code
  | Super | Command | Windows_ | Meta => 0x5b | Layout _ => 0
  end.
(** [char::encode_utf16]. *)
Definition encode_utf16 (c : Z) : list Z :=
  if c <? 0x10000 then [c] else [0xD800 + Z.shiftr (c - 0x10000) 10; 0xDC00 + Z.land (c - 0x10000) 0x3FF].
Definition button_flags (down : bool) (b : MouseButton) : option (Z * Z) :=
  match b with
  | Left => Some (if down then 0x02 else 0x04, 0)
  | Right => Some (if down then 0x08 else 0x10, 0)
  | Middle => Some (if down then 0x20 else 0x40, 0)
  | Back => Some (if down then 0x80 else 0x100, 1)
  | Forward => Some (if down then 0x80 else 0x100, 2)
  | _ => None
  end.

Section windows.
Context {W : Windows}.
(** The static [LAYOUT] and the system. *)
Record enigo := mkEnigo { LAYOUT : option Z; sys : os }.
Definition send (i : input) (d : enigo) : bool * enigo := let '(ok, s) := SendInput i (sys d) in (ok, mkEnigo (LAYOUT d) s).
Definition mouse_event (flags data dx dy : Z) : enigo -> bool * enigo := send (Mouse flags data dx dy).
Definition keybd_event (flags vk scan : Z) (d : enigo) : bool * enigo :=
  let '(scan, d) :=
    if scan =? 0 then
      let l := default (foreground_layout (sys d)) (LAYOUT d) in (Int.wrap 16 (MapVirtualKeyEx vk l), mkEnigo (Some l) (sys d))
    else (scan, d) in
  let extended := (Z.land flags KEYEVENTF_UNICODE =? 0) && ((Z.shiftr scan 8 =? 0xE0) || (Z.shiftr scan 8 =? 0xE1)) in
  send (Keybd (if extended then Z.lor flags KEYEVENTF_EXTENDEDKEY else flags) vk scan) d.
Definition failed (ok : bool) (d : enigo) : bool := negb ok && has_error (sys d).
Definition get_layoutdependent_keycode (c : Z) (d : enigo) : Z * enigo :=
  let l := foreground_layout (sys d) in (Int.wrap 16 (VkKeyScanEx (Int.wrap 16 c) l), mkEnigo (Some l) (sys d)).
Definition unicode_key_down (u : Z) (d : enigo) : enigo := (keybd_event KEYEVENTF_UNICODE 0 u d).2.
Definition unicode_key_up (u : Z) (d : enigo) : enigo := (keybd_event (Z.lor KEYEVENTF_UNICODE KEYEVENTF_KEYUP) 0 u d).2.
Definition unicode_key_click (u : Z) (d : enigo) : enigo := unicode_key_up u (unicode_key_down u d).
Definition type_char (d : enigo) (c : Z) : enigo :=
  match encode_utf16 c with
  | [u] => unicode_key_click u d
  | us => foldl (λ d u, unicode_key_down u d) d us
  end.
Definition win_key_sequence (s : list Z) (d : enigo) : enigo := foldl type_char d s.
Definition win_key_click (k : Key) (d : enigo) : enigo :=
  let vk := key_to_keycode k in (keybd_event KEYEVENTF_KEYUP vk 0 (keybd_event 0 vk 0 d).2).2.
Definition press_code (k : Key) (d : enigo) : bool * enigo :=
  let code := key_to_keycode k in
  if (code =? 0) || (code =? 65535) then (false, d) else let '(ok, d) := keybd_event 0 code 0 d in (negb (failed ok d), d).
Definition release_code (k : Key) (d : enigo) : enigo := (keybd_event KEYEVENTF_KEYUP (key_to_keycode k) 0 d).2.
Definition layout_modifiers (flag : Z) : list Key :=
  (if Z.testbit flag 0 then [Shift] else []) ++ (if Z.testbit flag 1 then [Control] else []) ++ (if Z.testbit flag 2 then [Alt] else []).
Fixpoint press_all (l : list Key) (d : enigo) : bool * enigo :=
  match l with [] => (true, d) | k :: l => let '(ok, d) := press_code k d in if ok then press_all l d else (false, d) end.
Definition win_key_down (k : Key) (d : enigo) : bool * enigo :=
  match k with
  | Layout c =>
      let '(code, d) := get_layoutdependent_keycode c d in
      if code =? 0xFFFF then (false, d)
      else
        let ms := layout_modifiers (Z.shiftr code 8) in
        let '(ok, d) := press_all ms d in
        if negb ok then (false, d)
        else
          let '(ok, d) := keybd_event 0 (Z.land code 0xFF) 0 d in
          let err := failed ok d in
          (negb err, foldl (λ d k, release_code k d) d (rev ms))
  | _ => press_code k d
  end.
Definition win_key_up (k : Key) (d : enigo) : enigo :=
  match k with
  | Layout c =>
      let '(code, d) := get_layoutdependent_keycode c d in
      if code =? 0xFFFF then d else (keybd_event KEYEVENTF_KEYUP (Z.land code 0xFF) 0 d).2
  | _ => release_code k d
  end.
Definition win_get_key_state (k : Key) (d : enigo) : bool :=
  let x := GetKeyState (key_to_keycode k) (sys d) in
  if decide (k = CapsLock \/ k = NumLock \/ k = Scroll) then Z.land x 1 =? 1 else Z.land (Int.wrap 16 x) 0x8000 =? 0x8000.
(** To 65535ths of the virtual screen, in 32 bits. *)
Definition normalized (at_ from size : Z) : Z := Z.quot (Int.to_signed 32 (Int.to_signed 32 (at_ - from) * 65535)) size.
Definition win_mouse_move_to (x y : Z) (d : enigo) : enigo :=
  let '((sx, sy), (w, h)) := virtual_screen (sys d) in (mouse_event 0xC001 0 (normalized x sx w) (normalized y sy h) d).2.
Definition win_mouse_down (b : MouseButton) (d : enigo) : bool * enigo :=
  match button_flags true b with
  | Some (f, x) => let '(ok, d) := mouse_event f x 0 0 d in (negb (failed ok d), d)
  | None => (true, d)
  end.
Definition win_mouse_up (b : MouseButton) (d : enigo) : enigo :=
  match button_flags false b with Some (f, x) => (mouse_event f x 0 0 d).2 | None => d end.
#[export] Instance windows_device : Device := {
  dev := enigo; get_key_state := win_get_key_state; key_down := win_key_down; key_up := win_key_up; key_click := win_key_click;
  key_sequence := win_key_sequence; mouse_move_to := win_mouse_move_to; mouse_move_relative x y d := (mouse_event 0x01 0 x y d).2;
  mouse_down := win_mouse_down; mouse_up := win_mouse_up; mouse_scroll_x n d := (mouse_event 0x1000 (Int.wrap 32 n) 0 0 d).2;
  mouse_scroll_y n d := (mouse_event 0x800 (Int.wrap 32 n) 0 0 d).2;
}.
End windows.

(** The numbers fit: whatever pixel of the screen is asked for, the system gets a point of it. *)
Lemma point_of_the_screen at_ from size :
  0 < size <= 32768 -> from <= at_ < from + size -> 0 <= normalized at_ from size < 65535.
Proof.
  intros Hs Ha. unfold normalized. rewrite (Int.to_signed_small 32 (at_ - from)) by lia. rewrite Int.to_signed_small by lia.
  rewrite Z.quot_div_nonneg by lia. split; [apply Z.div_pos; lia|apply Z.div_lt_upper_bound; lia].
Qed.
(** A system that keeps a log; a key is down after its last event, a light is on after an odd number of presses. *)
Definition is_key (vk : Z) (up : bool) (i : input) : bool :=
  match i with Keybd f v _ => (v =? vk) && Bool.eqb (Z.testbit f 1) up | _ => false end.
Fixpoint down_after (vk : Z) (l : list input) (b : bool) : bool :=
  match l with [] => b | i :: l => down_after vk l (if is_key vk false i then true else if is_key vk true i then false else b) end.
#[export] Instance logged : Windows := {
  os := list input; SendInput i s := (true, s ++ [i]);
  GetKeyState vk s := (if down_after vk s false then 0x8000 else 0) + Z.of_nat (length (List.filter (is_key vk false) s)) mod 2;
  has_error _ := false; foreground_layout _ := 1; MapVirtualKeyEx vk _ := vk; VkKeyScanEx c _ := if c <? 128 then c else 0xFFFF;
  virtual_screen _ := ((0, 0), (1920, 1080));
}.
Definition blank : enigo := mkEnigo None [].
(** A character outside the basic plane goes down in two halves and never up. *)
Lemma half_keys_stay_down : sys (win_key_sequence [0x1F600] blank) = [Keybd 4 0 0xD83D; Keybd 4 0 0xDE00].
Proof. reflexivity. Qed.
End Enigo.
