(* ===== verification/Input.v ===== *)
(** * The register's keyboard and mouse ([src/src/server/input_service.rs])

    The technician's key and mouse events are played on a [Device] (the crate
    [enigo], here with any behaviour) and through the [rdev] crate, on Windows.
    [KEYS_DOWN] remembers what went down, so that keys whose release never comes
    are released in the end: by a thread every ten seconds, and at exit.

    A step is one event with its locks held, or one elementary step of a thread
    that releases keys; [EUser] is whatever else happens to the keyboard. *)
From S2P Require Import Prelude Enigo.

Module Input.
Import Enigo.
Local Open Scope Z_scope.
Local Open Scope list_scope.

(** ** The protocol's names *)
Inductive ControlKey :=
  | CK_Unknown | CK_Alt | CK_Backspace | CK_CapsLock | CK_Control | CK_Delete | CK_DownArrow | CK_End | CK_Escape | CK_F1 | CK_F10
  | CK_F11 | CK_F12 | CK_F2 | CK_F3 | CK_F4 | CK_F5 | CK_F6 | CK_F7 | CK_F8 | CK_F9 | CK_Home | CK_LeftArrow | CK_Meta | CK_Option
  | CK_PageDown | CK_PageUp | CK_Return | CK_RightArrow | CK_Shift | CK_Space | CK_Tab | CK_UpArrow | CK_Numpad0 | CK_Numpad1
  | CK_Numpad2 | CK_Numpad3 | CK_Numpad4 | CK_Numpad5 | CK_Numpad6 | CK_Numpad7 | CK_Numpad8 | CK_Numpad9 | CK_Cancel | CK_Clear
  | CK_Menu | CK_Pause | CK_Kana | CK_Hangul | CK_Junja | CK_Final | CK_Hanja | CK_Kanji | CK_Convert | CK_Select | CK_Print
  | CK_Execute | CK_Snapshot | CK_Insert | CK_Help | CK_Sleep | CK_Separator | CK_Scroll | CK_NumLock | CK_RWin | CK_Apps
  | CK_Multiply | CK_Add | CK_Subtract | CK_Decimal | CK_Divide | CK_Equals | CK_NumpadEnter | CK_RAlt | CK_RControl | CK_RShift
  | CK_CtrlAltDel | CK_LockScreen.
#[export] Instance ControlKey_eq_dec : EqDecision ControlKey.
Proof. solve_decision. Defined.
Definition KEY_CHAR_START : Z := 9999.
(** The numbers of the generated enum. *)
Class ControlKeys := {
  ck_value : ControlKey -> Z;
  ck_of_value : Z -> option ControlKey;
  ck_known k : ck_of_value (ck_value k) = Some k;
  ck_small k : 0 <= ck_value k < KEY_CHAR_START;
}.
Inductive KeyboardMode := Legacy | Map | Translate | Auto | UnknownMode.
Inductive key_union := UControlKey (v : Z) | UChr (c : Z) | UUnicode (c : Z) | USeq (s : list Z) | UWin2winHotkey (c : Z).
Record KeyEvent := mkKey { mode : KeyboardMode; down : bool; modifiers : list Z; union : option key_union }.
Record MouseEvent := mkMouse { mask : Z; m_x : Z; m_y : Z; m_modifiers : list Z }.

(** ** [rdev] *)
Inductive RawKey := ScanCode (c : Z) | WinVirtualKeycode (c : Z).
#[export] Instance RawKey_eq_dec : EqDecision RawKey.
Proof. solve_decision. Defined.
#[export] Instance RawKey_countable : Countable RawKey.
Proof.
  apply (inj_countable' (λ r, match r with ScanCode c => inl c | WinVirtualKeycode c => inr c end)
           (λ x : Z + Z, match x with inl c => ScanCode c | inr c => WinVirtualKeycode c end)). by intros [].
Defined.
Inductive RdevKey := ControlLeft | ControlRight | MetaLeft | MetaRight | ShiftLeft | ShiftRight | AltLeft | AltGr | TabKey | ReturnKey
  | Kp0 | Kp1 | Kp2 | Kp3 | Kp4 | Kp5 | Kp6 | Kp7 | Kp8 | Kp9 | KpMinus | KpMultiply | KpDivide | KpPlus | KpDecimal | OtherKey.
Class Rdev {D : Device} := {
  simulate : bool -> RawKey -> dev -> dev;
  simulate_shift_release : bool -> dev -> dev;
  simulate_char : Z -> dev -> dev;
  simulate_unicode : Z -> dev -> dev;
  simulate_key_unicode : Z -> dev -> bool * dev;
  vk_to_scancode : Z -> Z;
  simulate_code : Z -> bool -> dev -> dev;
  as_keycode : Z -> Z;
  win_key_from_scancode : Z -> RdevKey;
}.

(** ** State *)
Inductive KeysDown := DRdevKey (r : RawKey) | DEnigoKey (n : Z).
#[export] Instance KeysDown_eq_dec : EqDecision KeysDown.
Proof. solve_decision. Defined.
#[export] Instance KeysDown_countable : Countable KeysDown.
Proof.
  apply (inj_countable' (λ r, match r with DRdevKey c => inl c | DEnigoKey c => inr c end)
           (λ x : RawKey + Z, match x with inl c => DRdevKey c | inr c => DEnigoKey c end)). by intros [].
Defined.
Inductive effect :=
  | KDown (k : Key) (ok : bool) | KUp (k : Key) | KClick (k : Key) | KSeq (s : list Z)
  | MTo (x y : Z) | MRel (x y : Z) | MDown (b : MouseButton) | MUp (b : MouseButton) | ScrollX (n : Z) | ScrollY (n : Z)
  | Sim (press : bool) (r : RawKey) | SimShift (left : bool) | SimChar (c : Z) | SimUnicode (c : Z) | SimKeyUnicode (u : Z) | SimCode (scan : Z) (press : bool)
  | ChangeDesktop | SendSas | LockScreen | Whiteboard (conn x y btns : Z).
Record last_input := mkInput { i_conn : Z; i_time : Z; i_x : Z; i_y : Z }.

Section input.
Context {D : Device} {R : Rdev} {CK : ControlKeys} (to_uppercase : list Z -> list Z) (get_cursor_pos : dev -> option (Z * Z)).
Record world := mkWorld {
  en : dev; KEYS_DOWN : gmap KeysDown Z; LATEST_PEER_INPUT_CURSOR : last_input; RELATIVE_MOUSE_CONNS : gset Z; EXITING : bool;
  pending : list (KeysDown * bool);     (** what the releasing threads have found, and whether it is forgotten already *)
  out : list effect }.
Definition set_keys k w := mkWorld (en w) k (LATEST_PEER_INPUT_CURSOR w) (RELATIVE_MOUSE_CONNS w) (EXITING w) (pending w) (out w).
Definition set_peer p w := mkWorld (en w) (KEYS_DOWN w) p (RELATIVE_MOUSE_CONNS w) (EXITING w) (pending w) (out w).
Definition set_relative s w := mkWorld (en w) (KEYS_DOWN w) (LATEST_PEER_INPUT_CURSOR w) s (EXITING w) (pending w) (out w).
Definition set_pending p w := mkWorld (en w) (KEYS_DOWN w) (LATEST_PEER_INPUT_CURSOR w) (RELATIVE_MOUSE_CONNS w) (EXITING w) p (out w).
Definition act (x : effect) (d : dev) (w : world) : world :=
  mkWorld d (KEYS_DOWN w) (LATEST_PEER_INPUT_CURSOR w) (RELATIVE_MOUSE_CONNS w) (EXITING w) (pending w) (out w ++ [x]).
Definition note (x : effect) (w : world) : world := act x (en w) w.
(** Calls of the device and of [rdev], noted down. *)
Definition kdown (k : Key) (w : world) : bool * world := let '(ok, d) := key_down k (en w) in (ok, act (KDown k ok) d w).
Definition kup (k : Key) (w : world) : world := act (KUp k) (key_up k (en w)) w.
Definition kclick (k : Key) (w : world) : world := act (KClick k) (key_click k (en w)) w.
Definition kseq (s : list Z) (w : world) : world := act (KSeq s) (key_sequence s (en w)) w.
Definition sim (press : bool) (r : RawKey) (w : world) : world := act (Sim press r) (simulate press r (en w)) w.

(** ** Keys that stay down *)
Definition record_pressed_key (now : Z) (k : KeysDown) (down : bool) (w : world) : world :=
  set_keys (if down then <[k := now]> (KEYS_DOWN w) else delete k (KEYS_DOWN w)) w.
Definition KEY_MAP : list (ControlKey * Key) :=
  [(CK_Alt, Alt); (CK_Backspace, Backspace); (CK_CapsLock, CapsLock); (CK_Control, Control); (CK_Delete, Delete); (CK_DownArrow, DownArrow);
   (CK_End, End_); (CK_Escape, Escape); (CK_F1, F1); (CK_F10, F10); (CK_F11, F11); (CK_F12, F12); (CK_F2, F2); (CK_F3, F3); (CK_F4, F4);
   (CK_F5, F5); (CK_F6, F6); (CK_F7, F7); (CK_F8, F8); (CK_F9, F9); (CK_Home, Home); (CK_LeftArrow, LeftArrow); (CK_Meta, Meta);
   (CK_Option, Option_); (CK_PageDown, PageDown); (CK_PageUp, PageUp); (CK_Return, Return_); (CK_RightArrow, RightArrow); (CK_Shift, Shift);
   (CK_Space, Space); (CK_Tab, Tab); (CK_UpArrow, UpArrow); (CK_Numpad0, Numpad0); (CK_Numpad1, Numpad1); (CK_Numpad2, Numpad2);
   (CK_Numpad3, Numpad3); (CK_Numpad4, Numpad4); (CK_Numpad5, Numpad5); (CK_Numpad6, Numpad6); (CK_Numpad7, Numpad7); (CK_Numpad8, Numpad8);
   (CK_Numpad9, Numpad9); (CK_Cancel, Cancel); (CK_Clear, Clear); (CK_Menu, Alt); (CK_Pause, Pause); (CK_Kana, Kana); (CK_Hangul, Hangul);
   (CK_Junja, Junja); (CK_Final, Final); (CK_Hanja, Hanja); (CK_Kanji, Kanji); (CK_Convert, Convert); (CK_Select, Select); (CK_Print, Print_);
   (CK_Execute, Execute); (CK_Snapshot, Snapshot); (CK_Insert, Insert); (CK_Help, Help); (CK_Sleep, Sleep); (CK_Separator, Separator);
   (CK_Scroll, Scroll); (CK_NumLock, NumLock); (CK_RWin, RWin); (CK_Apps, Apps); (CK_Multiply, Multiply); (CK_Add, Add_);
   (CK_Subtract, Subtract); (CK_Decimal, Decimal); (CK_Divide, Divide); (CK_Equals, Equals); (CK_NumpadEnter, NumpadEnter);
   (CK_RAlt, RightAlt); (CK_RControl, RightControl); (CK_RShift, RightShift)].
Definition NUMPAD_KEY_MAP : list ControlKey :=
  [CK_Home; CK_UpArrow; CK_PageUp; CK_LeftArrow; CK_RightArrow; CK_End; CK_DownArrow; CK_PageDown; CK_Insert; CK_Delete].
Definition control_key_value_to_key (v : Z) : option Key := snd <$> List.find (λ x, ck_value x.1 =? v) KEY_MAP.
#[local] Arguments control_key_value_to_key v : simpl never.
(** [char::from_u32]. *)
Definition from_u32 (c : Z) : option Z :=
  if (0 <=? c) && (c <? 0x110000) && negb ((0xD800 <=? c) && (c <? 0xE000)) then Some c else None.
Definition char_value_to_key (c : Z) : Key := Layout (default 0 (from_u32 c)).
Definition record_key_to_key (n : Z) : option Key :=
  if n <? KEY_CHAR_START then control_key_value_to_key (Int.to_signed 32 n) else Some (char_value_to_key (Int.wrap 32 (n - KEY_CHAR_START))).
Definition release_record_key (k : KeysDown) (w : world) : world :=
  match k with
  | DRdevKey r => sim false r w
  | DEnigoKey n => match record_key_to_key n with Some key => kup key w | None => w end
  end.
Definition TIMEOUT : Z := 360000.
(** What [fix_key_down_timeout] finds; the rest of it are [forget] and [release], for each. *)
Definition fix_key_down_timeout (now : Z) (force : bool) (w : world) : world :=
  set_pending (pending w ++ omap (λ '(k, t), if force || (TIMEOUT <=? now - t) then Some (k, false) else None) (map_to_list (KEYS_DOWN w))) w.
Definition forget (i : nat) (w : world) : world :=
  match pending w !! i with
  | Some (k, false) => set_pending (<[i := (k, true)]> (pending w)) (record_pressed_key 0 k false w)
  | _ => w
  end.
Definition release (i : nat) (w : world) : world :=
  match pending w !! i with
  | Some (k, true) => release_record_key k (set_pending (delete i (pending w)) w)
  | _ => w
  end.
Definition fix_key_down_timeout_at_exit (now : Z) (w : world) : world :=
  if EXITING w then w
  else fix_key_down_timeout now true (mkWorld (en w) (KEYS_DOWN w) (LATEST_PEER_INPUT_CURSOR w) (RELATIVE_MOUSE_CONNS w) true (pending w) (out w)).

(** ** Modifiers *)
Definition get_modifier_state (k : Key) (d : dev) : bool :=
  let x := get_key_state k d in
  match k with
  | Shift => x || get_key_state RightShift d | Control => x || get_key_state RightControl d
  | Alt => x || get_key_state RightAlt d | Meta => x || get_key_state RWin d
  | RightShift => x || get_key_state Shift d | RightControl => x || get_key_state Control d
  | RightAlt => x || get_key_state Alt d | RWin => x || get_key_state Meta d
  | _ => x
  end.
Definition is_in (k : ControlKey) (l : list Z) : bool := existsb (λ v, v =? ck_value k) l.
Definition fix_modifier (ms : list Z) (k0 : ControlKey) (k1 : Key) (w : world) : world :=
  if get_modifier_state k1 (en w) && negb (is_in k0 ms) then
    if bool_decide (k0 = CK_Control) && get_modifier_state Alt (en w) then w else kup k1 w
  else w.
Definition pairs : list (ControlKey * ControlKey * Key) :=
  [(CK_Shift, CK_Shift, Shift); (CK_RShift, CK_Shift, RightShift); (CK_Alt, CK_Alt, Alt); (CK_RAlt, CK_Alt, RightAlt);
   (CK_Control, CK_Control, Control); (CK_RControl, CK_Control, RightControl); (CK_Meta, CK_Meta, Meta); (CK_RWin, CK_Meta, RWin)].
Definition fix_modifiers (ms : list Z) (ck : Z) (w : world) : world :=
  foldl (λ w '(own, k0, k1), if ck =? ck_value own then w else fix_modifier ms k0 k1 w) w pairs.
Definition release_device_modifiers (w : world) : world :=
  foldl (λ w k, if get_modifier_state k (en w) then kup k w else w) w [Shift; Control; Alt; Meta; RightShift; RightControl; RightAlt; RWin].
(** Presses what is not pressed; returns what is to be released, in order. *)
Definition press_missing (wanted : Key -> bool) (ms : list Z) (w : world) : list Key * world :=
  foldl (λ '(l, w) v, match control_key_value_to_key v with
                      | Some k => if wanted k && negb (get_modifier_state k (en w)) then (l ++ [k], (kdown k w).2) else (l, w)
                      | None => (l, w)
                      end) ([], w) ms.
Definition release_keys (l : list Key) (w : world) : world := foldl (λ w k, kup k w) w l.
Definition get_control_key_value (evt : KeyEvent) : Z := match union evt with Some (UControlKey v) => v | _ => -1 end.
Definition has_hotkey_modifiers (evt : KeyEvent) : bool :=
  existsb (λ v, existsb (λ k, v =? ck_value k) [CK_Control; CK_RControl; CK_Meta; CK_RWin; CK_Alt; CK_RAlt]) (modifiers evt).
Definition sync_modifiers (evt : KeyEvent) (w : world) : list Key * world :=
  if down evt then press_missing (λ _, true) (modifiers evt) (fix_modifiers (modifiers evt) (get_control_key_value evt) w) else ([], w).

(** ** Keys *)
Definition is_legacy_mode (evt : KeyEvent) : bool := match mode evt with Legacy | UnknownMode => true | _ => false end.
Definition should_disable_numlock (evt : KeyEvent) : bool :=
  match union evt, is_legacy_mode evt with
  | Some (UControlKey v), true => existsb (λ k, ck_value k =? v) NUMPAD_KEY_MAP
  | _, _ => false
  end.
(** [LockModesHandler]: the lights of the register are made those of the technician while the event lasts. *)
Definition caps_changed (evt : KeyEvent) (w : world) : bool := xorb (is_in CK_CapsLock (modifiers evt)) (get_key_state CapsLock (en w)).
Definition num_changed (evt : KeyEvent) (is_numpad_key : bool) (w : world) : bool :=
  if is_numpad_key then xorb (is_in CK_NumLock (modifiers evt)) (get_key_state NumLock (en w))
  else is_legacy_mode evt && should_disable_numlock evt && get_key_state NumLock (en w).
Definition click_if (b : bool) (k : Key) (w : world) : world := if b then kclick k w else w.
Definition new_handler (evt : KeyEvent) (is_numpad_key : bool) (w : world) : (bool * bool) * world :=
  let caps := caps_changed evt w in
  let w := click_if caps CapsLock w in
  let num := num_changed evt is_numpad_key w in
  ((caps, num), click_if num NumLock w).
Definition drop_handler (h : bool * bool) (w : world) : world := click_if h.2 NumLock (click_if h.1 CapsLock w).
Definition skip_led_sync_control_key (k : ControlKey) : bool :=
  bool_decide (k ∈ [CK_Control; CK_RControl; CK_Meta; CK_Shift; CK_RShift; CK_Alt; CK_RAlt; CK_Tab; CK_Return]).
Definition is_numpad_control_key (k : ControlKey) : bool :=
  bool_decide (k ∈ [CK_Numpad0; CK_Numpad1; CK_Numpad2; CK_Numpad3; CK_Numpad4; CK_Numpad5; CK_Numpad6; CK_Numpad7; CK_Numpad8; CK_Numpad9; CK_NumpadEnter]).
Definition skip_led_sync_rdev_key (k : RdevKey) : bool :=
  match k with ControlLeft | ControlRight | MetaLeft | MetaRight | ShiftLeft | ShiftRight | AltLeft | AltGr | TabKey | ReturnKey => true | _ => false end.
Definition is_numpad_rdev_key (k : RdevKey) : bool :=
  match k with Kp0 | Kp1 | Kp2 | Kp3 | Kp4 | Kp5 | Kp6 | Kp7 | Kp8 | Kp9 | KpMinus | KpMultiply | KpDivide | KpPlus | KpDecimal => true | _ => false end.
(** Whether lights are looked after, and whether as for a key of the number pad. *)
Definition led_sync (evt : KeyEvent) : option bool :=
  match union evt with
  | Some (UUnicode _) | Some (USeq _) => Some false
  | Some (UControlKey v) =>
      let k := default CK_Unknown (ck_of_value v) in if skip_led_sync_control_key k then None else Some (is_numpad_control_key k)
  | Some (UChr c) =>
      if is_legacy_mode evt then Some false
      else let k := win_key_from_scancode c in if skip_led_sync_rdev_key k then None else Some (is_numpad_rdev_key k)
  | _ => None
  end.

Definition chr (evt : KeyEvent) : Z := match union evt with Some (UChr c) => c | _ => 0 end.
Definition sim_rdev_rawkey (now : Z) (r : RawKey) (keydown : bool) (w : world) : world :=
  sim keydown r (record_pressed_key now (DRdevKey r) keydown w).
Definition sim_rdev_rawkey_position (now c : Z) : bool -> world -> world := sim_rdev_rawkey now (ScanCode (as_keycode c)).
Definition sim_rdev_rawkey_virtual (now c : Z) : bool -> world -> world := sim_rdev_rawkey now (WinVirtualKeycode c).
Definition map_keyboard_mode (now : Z) (evt : KeyEvent) (w : world) : world :=
  sim_rdev_rawkey_position now (chr evt) (down evt) (note ChangeDesktop w).
Definition translate_process_code (now code : Z) (down : bool) (w : world) : world :=
  let w := note ChangeDesktop w in
  if Z.shiftr code 16 =? 0 then sim_rdev_rawkey_position now code down w else sim_rdev_rawkey_virtual now (Z.shiftr code 16) down w.
Definition is_hot_key_modifiers_down (d : dev) : bool :=
  existsb (λ k, get_key_state k d) [Control; RightControl; Alt; RightAlt; Meta; RWin].
Definition shift_release (left : bool) (w : world) : world := act (SimShift left) (simulate_shift_release left (en w)) w.
Definition type_seq (s : list Z) (w : world) : world :=
  let hot := is_hot_key_modifiers_down (en w) in
  let w := if hot then w
           else let w := if get_modifier_state Shift (en w) then shift_release true w else w in
                if get_modifier_state RightShift (en w) then shift_release false w else w in
  foldl (λ w c, if hot then act (SimChar c) (simulate_char c (en w)) w
                else act (SimUnicode (Int.wrap 16 c)) (simulate_unicode (Int.wrap 16 c) (en w)) w) w s.
Definition simulate_win2win_hotkey (code : Z) (down : bool) (w : world) : world :=
  let u := Z.land code 0xFFFF in
  let '(done, w) := if down then let '(ok, d) := simulate_key_unicode u (en w) in (ok, act (SimKeyUnicode u) d w) else (false, w) in
  if done then w
  else let scan := vk_to_scancode (Z.land (Z.shiftr code 16) 0xFFFF) in act (SimCode scan down) (simulate_code scan down (en w)) w.
Definition translate_keyboard_mode (now : Z) (evt : KeyEvent) (w : world) : world :=
  match union evt with
  | Some (USeq s) => type_seq s w
  | Some (UChr c) => translate_process_code now c (down evt) w
  | Some (UWin2winHotkey c) => simulate_win2win_hotkey c (down evt) w
  | _ => w
  end.

Definition is_function_key (v : Z) : option effect :=
  if v =? ck_value CK_CtrlAltDel then Some SendSas else if v =? ck_value CK_LockScreen then Some LockScreen else None.
Definition process_control_key (v : Z) (down : bool) (w : world) : world :=
  match control_key_value_to_key v with
  | Some k => if down then (kdown k w).2 else kup k w
  | None => w
  end.
Definition need_to_uppercase (d : dev) : bool := get_modifier_state Shift d || get_modifier_state CapsLock d.
Definition process_chr (c : Z) (down hotkey : bool) (w : world) : world :=
  if negb hotkey then
    if down then match from_u32 c with Some c => kseq [c] w | None => w end else w
  else
    let k := char_value_to_key c in
    if down then
      let '(ok, w) := kdown k w in
      if ok then w
      else match from_u32 c with
           | Some c => kseq (if need_to_uppercase (en w) then to_uppercase [c] else [c]) w
           | None => w
           end
    else kup k w.
Definition process_unicode (c : Z) (w : world) : world := match from_u32 c with Some c => kseq [c] w | None => w end.
Definition legacy_keyboard_mode (now : Z) (evt : KeyEvent) (w : world) : world :=
  let '(to_release, w) := sync_modifiers evt (note ChangeDesktop w) in
  let go_on w := release_keys to_release w in
  match union evt with
  | Some (UControlKey v) =>
      match is_function_key v with
      | Some x => note x w
      | None => go_on (process_control_key v (down evt) (record_pressed_key now (DEnigoKey (Int.wrap 64 v)) (down evt) w))
      end
  | Some (UChr c) =>
      go_on (process_chr c (down evt) (has_hotkey_modifiers evt) (record_pressed_key now (DEnigoKey (c + KEY_CHAR_START)) (down evt) w))
  | Some (UUnicode c) => go_on (process_unicode c w)
  | Some (USeq s) => go_on (kseq s w)
  | _ => go_on w
  end.
Definition handle_key_ (now : Z) (evt : KeyEvent) (w : world) : world :=
  if EXITING w then w
  else
    let '(h, w) := match led_sync evt with
                   | Some pad => let '(h, w) := new_handler evt pad w in (Some h, w)
                   | None => (None, w)
                   end in
    let w := match mode evt with
             | Map => map_keyboard_mode now evt w
             | Translate => translate_keyboard_mode now evt w
             | _ => legacy_keyboard_mode now evt w
             end in
    match h with Some h => drop_handler h w | None => w end.

(** ** The mouse *)
Definition MOUSE_TYPE_MOVE : Z := 0.
Definition MOUSE_TYPE_DOWN : Z := 1.
Definition MOUSE_TYPE_UP : Z := 2.
Definition MOUSE_TYPE_WHEEL : Z := 3.
Definition MOUSE_TYPE_TRACKPAD : Z := 4.
Definition MOUSE_TYPE_MOVE_RELATIVE : Z := 5.
Definition MOUSE_TYPE_MASK : Z := 7.
Definition MOUSE_BUTTON_LEFT : Z := 1.
Definition MAX_RELATIVE_MOUSE_DELTA : Z := 10000.
Definition WHEEL_DELTA : Z := 120.
Definition button_of (b : Z) : option MouseButton :=
  if b =? 1 then Some Left else if b =? 2 then Some Right else if b =? 4 then Some Middle
  else if b =? 8 then Some Back else if b =? 16 then Some Forward else None.
Definition buttons (evt : MouseEvent) : Z := Z.shiftr (mask evt) 3.
Definition evt_type (evt : MouseEvent) : Z := Z.land (mask evt) MOUSE_TYPE_MASK.
Definition clamp (lo hi z : Z) : Z := Z.max lo (Z.min hi z).
Definition set_relative_mouse_active (conn : Z) (active : bool) (w : world) : world :=
  set_relative (if active then {[conn]} ∪ RELATIVE_MOUSE_CONNS w else RELATIVE_MOUSE_CONNS w ∖ {[conn]}) w.
Definition is_relative_mouse_active (conn : Z) (w : world) : bool := bool_decide (conn ∈ RELATIVE_MOUSE_CONNS w).
Definition move_relative (now conn : Z) (evt : MouseEvent) (w : world) : world :=
  let w := set_relative_mouse_active conn true w in
  let c := clamp (- MAX_RELATIVE_MOUSE_DELTA) MAX_RELATIVE_MOUSE_DELTA in
  let w := act (MRel (c (m_x evt)) (c (m_y evt))) (mouse_move_relative (c (m_x evt)) (c (m_y evt)) (en w)) w in
  match get_cursor_pos (en w) with Some (x, y) => set_peer (mkInput conn now x y) w | None => w end.
Definition scroll (evt : MouseEvent) (w : world) : world :=
  let k := if evt_type evt =? MOUSE_TYPE_TRACKPAD then 1 else WHEEL_DELTA in
  let x := Int.to_signed 32 (Int.to_signed 32 (- m_x evt) * k) in
  let y := Int.to_signed 32 (m_y evt * k) in
  let w := if y =? 0 then w else act (ScrollY y) (mouse_scroll_y y (en w)) w in
  if x =? 0 then w else act (ScrollX x) (mouse_scroll_x x (en w)) w.
Definition mouse_action (now conn : Z) (evt : MouseEvent) (w : world) : world :=
  let t := evt_type evt in
  if t =? MOUSE_TYPE_MOVE then
    let w := set_relative_mouse_active conn false w in
    set_peer (mkInput conn now (m_x evt) (m_y evt)) (act (MTo (m_x evt) (m_y evt)) (mouse_move_to (m_x evt) (m_y evt) (en w)) w)
  else if t =? MOUSE_TYPE_MOVE_RELATIVE then move_relative now conn evt w
  else if t =? MOUSE_TYPE_DOWN then
    match button_of (buttons evt) with Some b => act (MDown b) (mouse_down b (en w)).2 w | None => w end
  else if t =? MOUSE_TYPE_UP then
    match button_of (buttons evt) with Some b => act (MUp b) (mouse_up b (en w)) w | None => w end
  else if (t =? MOUSE_TYPE_WHEEL) || (t =? MOUSE_TYPE_TRACKPAD) then scroll evt w
  else w.
Definition handle_mouse_simulation_ (now conn : Z) (evt : MouseEvent) (w : world) : world :=
  if EXITING w then w
  else
    let w := note ChangeDesktop w in
    let '(to_release, w) :=
      if evt_type evt =? MOUSE_TYPE_DOWN
      then press_missing (λ k, negb (bool_decide (k = CapsLock)) && negb (bool_decide (k = NumLock))) (m_modifiers evt) (fix_modifiers (m_modifiers evt) 0 w)
      else ([], w) in
    release_keys to_release (mouse_action now conn evt w).
Definition handle_mouse_show_cursor_ (conn : Z) (evt : MouseEvent) (w : world) : world :=
  if evt_type evt =? MOUSE_TYPE_MOVE then note (Whiteboard conn (m_x evt) (m_y evt) 0) w
  else if (evt_type evt =? MOUSE_TYPE_UP) && (buttons evt =? MOUSE_BUTTON_LEFT) then
    let p := LATEST_PEER_INPUT_CURSOR w in
    let '(x, y) := if (m_x evt =? 0) && (m_y evt =? 0) then (i_x p, i_y p) else (m_x evt, m_y evt) in
    note (Whiteboard conn x y (buttons evt)) w
  else w.
Definition handle_mouse_ (now conn : Z) (evt : MouseEvent) (simulate show_cursor : bool) (w : world) : world :=
  let w := if simulate then handle_mouse_simulation_ now conn evt w else w in
  if show_cursor && negb (is_relative_mouse_active conn w) && negb (evt_type evt =? MOUSE_TYPE_MOVE_RELATIVE)
  then handle_mouse_show_cursor_ conn evt w else w.
Definition handle_scale (scale : Z) (w : world) : world :=
  if scale =? 0 then kup Control w
  else let '(ok, w) := kdown Control w in if ok then act (ScrollY scale) (mouse_scroll_y scale (en w)) w else w.
Definition handle_pointer_ (scale : option Z) (w : world) : world :=
  if EXITING w then w else match scale with Some s => handle_scale s w | None => w end.

Inductive event :=
  | EKey (now : Z) (evt : KeyEvent) | EMouse (now conn : Z) (evt : MouseEvent) (simulate show_cursor : bool) | EPointer (scale : option Z)
  | EReleaseModifiers | EScan (now : Z) | EExit (now : Z) | EForget (i : nat) | ERelease (i : nat) | EUser (f : dev -> dev) | EClear (conn : Z).
Definition step (w : world) (ev : event) : world :=
  match ev with
  | EKey now evt => handle_key_ now evt w
  | EMouse now conn evt s c => handle_mouse_ now conn evt s c w
  | EPointer scale => handle_pointer_ scale w
  | EReleaseModifiers => release_device_modifiers w
  | EScan now => fix_key_down_timeout now false w
  | EExit now => fix_key_down_timeout_at_exit now w
  | EForget i => forget i w
  | ERelease i => release i w
  | EUser f => mkWorld (f (en w)) (KEYS_DOWN w) (LATEST_PEER_INPUT_CURSOR w) (RELATIVE_MOUSE_CONNS w) (EXITING w) (pending w) (out w)
  | EClear conn => set_relative_mouse_active conn false w
  end.
Definition run (l : list event) (w : world) : world := foldl step w l.

(** ** What is down, by the trace *)
Definition raw_after (r : RawKey) (b : bool) (x : effect) : bool := match x with Sim p r' => if decide (r' = r) then p else b | _ => b end.
Definition key_after (k : Key) (b : bool) (x : effect) : bool :=
  match x with
  | KDown k' ok => if decide (k' = k) then ok || b else b
  | KUp k' | KClick k' => if decide (k' = k) then false else b
  | _ => b
  end.
Definition raw_held (r : RawKey) (w : world) : bool := foldl (raw_after r) false (out w).
Definition key_held (k : Key) (w : world) : bool := foldl (key_after k) false (out w).
Definition is_layout (k : Key) : bool := match k with Layout _ => true | _ => false end.
(** [k] is going to be released: it is remembered, or a thread has it in hand. *)
Definition noted (w : world) (k : KeysDown) : Prop := is_Some (KEYS_DOWN w !! k) \/ (k, true) ∈ pending w.
Definition noted_key (w : world) (k : Key) : Prop := exists n, record_key_to_key n = Some k /\ noted w (DEnigoKey n).
(** [T]: what the event at work has pressed for itself. *)
Record inv (T : list Key) (w : world) : Prop := {
  inv_raw : forall r, raw_held r w = true -> noted w (DRdevKey r);
  inv_key : forall k, is_layout k = false -> key_held k w = true -> k ∈ T \/ noted_key w k }.
Definition is_click (x : effect) : bool := match x with KClick _ => true | _ => false end.
(** From [w] to [w'], perhaps without clicks. *)
Section quiet.
Context {q : bool}.
Definition allowed (x : effect) : Prop := q = true -> is_click x = false.
Record ok (T : list Key) (w : world) (T' : list Key) (w' : world) : Prop := {
  ok_inv : inv T w -> inv T' w';
  ok_exiting : EXITING w' = EXITING w;
  ok_pending : pending w' = pending w;
  ok_out : exists k, out w' = out w ++ k /\ Forall allowed k }.

Lemma ok_refl T w : ok T w T w.
Proof. split; try done. exists []. by rewrite app_nil_r. Qed.
Lemma ok_trans T1 w1 T2 w2 T3 w3 : ok T1 w1 T2 w2 -> ok T2 w2 T3 w3 -> ok T1 w1 T3 w3.
Proof.
  intros [H1 H2 H3 (k & H4 & H5)] [G1 G2 G3 (k' & G4 & G5)]. split; [auto|by rewrite G2|by rewrite G3|].
  exists (k ++ k'). split; [by rewrite G4, H4, app_assoc|by apply Forall_app].
Qed.
(** Most steps leave the device alone, or add one effect. *)
Lemma ok_silent T T' w w' : (inv T w -> inv T' w') -> EXITING w' = EXITING w -> pending w' = pending w -> out w' = out w -> ok T w T' w'.
Proof. intros H1 H2 H3 H4. split; try done. exists []. by rewrite app_nil_r. Qed.
Lemma ok_one T T' x d w w' : (inv T w -> inv T' w') -> w' = act x d w -> allowed x -> ok T w T' w'.
Proof. intros H1 -> H2. split; try done. exists [x]. split; [done|by constructor]. Qed.
Lemma raw_held_act r x d w : raw_held r (act x d w) = raw_after r (raw_held r w) x.
Proof. unfold raw_held. cbn. by rewrite foldl_app. Qed.
Lemma key_held_act k x d w : key_held k (act x d w) = key_after k (key_held k w) x.
Proof. unfold key_held. cbn. by rewrite foldl_app. Qed.
(** An effect that presses nothing, and may release what [T] holds. *)
Definition lifts (x : effect) : bool := match x with Sim true _ | KDown _ true => false | _ => true end.
Lemma ok_lifts T x d w : lifts x = true -> allowed x -> ok T w T (act x d w).
Proof.
  intros Hx Ha. apply (ok_one _ _ x d); [|done..]. intros [I1 I2]. split.
  - intros r H. apply I1. rewrite raw_held_act in H. destruct x as [| | | | | | | | | |p r'| | | | | | | | |]; try done. cbn in H. by destruct p; [|destruct (decide _)].
  - intros k Hk H. apply (I2 k Hk). rewrite key_held_act in H.
    destruct x as [k' b|k'|k'| | | | | | | | | | | | | | | | |]; try done; cbn in H; destruct (decide _); try done. by destruct b.
Qed.
Lemma ok_kup T k w : ok (k :: T) w T (kup k w).
Proof.
  eapply ok_one; [|done|done]. intros [I1 I2]. split.
  - intros r H. apply I1. unfold kup in H. by rewrite raw_held_act in H.
  - intros k' Hk H. unfold kup in H. rewrite key_held_act in H. cbn in H. destruct (decide _) as [|N]; [done|].
    destruct (I2 k' Hk H) as [Hin|Hn]; [left|by right]. apply list_elem_of_In in Hin as [->|Hin]; [done|by apply list_elem_of_In].
Qed.
Lemma ok_more T T' w : T ⊆ T' -> ok T w T' w.
Proof. intros HT. apply ok_silent; [|done..]. intros [I1 I2]. split; [done|]. intros k Hk H. destruct (I2 k Hk H); [left; by apply HT|by right]. Qed.
Lemma ok_kdown T k w : ok T w (k :: T) (kdown k w).2.
Proof.
  unfold kdown. destruct (key_down k (en w)) as [b d]. eapply ok_one; [|done|done]. intros [I1 I2]. cbn [snd]. split.
  - intros r H. apply I1. by rewrite raw_held_act in H.
  - intros k' Hk H. rewrite key_held_act in H. cbn in H. destruct (decide _) as [<-|N]; [left; by left|].
    destruct (I2 k' Hk H); [left; by right|by right].
Qed.
Lemma ok_kdown_noted T k w : is_layout k = true \/ noted_key w k -> ok T w T (kdown k w).2.
Proof.
  intros Hn. destruct (ok_kdown T k w) as [H1 H2 H3 H4]. split; [|done..]. intros I. specialize (H1 I). destruct H1 as [J1 J2]. split; [done|].
  intros k' Hk H. destruct (J2 k' Hk H) as [Hin|Hr]; [|by right]. apply list_elem_of_In in Hin as [<-|Hin]; [|left; by apply list_elem_of_In].
  right. destruct Hn as [Hn|(n & Hn & Hw)]; [by rewrite Hn in Hk|]. exists n. split; [done|].
  unfold kdown. by destruct (key_down k (en w)).
Qed.
Lemma noted_insert now k w k' : noted w k' -> noted (record_pressed_key now k true w) k'.
Proof.
  intros [[t H]|H]; [left|by right]. cbn. destruct (decide (k = k')) as [->|N]; [by rewrite lookup_insert_eq|by rewrite lookup_insert_ne].
Qed.
Lemma noted_self now k w : noted (record_pressed_key now k true w) k.
Proof. left. cbn. by rewrite lookup_insert_eq. Qed.
Lemma noted_delete now k w k' : k' <> k -> noted w k' -> noted (record_pressed_key now k false w) k'.
Proof. intros N [[t H]|H]; [left|by right]. cbn. by rewrite lookup_delete_ne. Qed.
Lemma ok_remember T now k w : ok T w T (record_pressed_key now k true w).
Proof.
  apply ok_silent; [|done..]. intros [I1 I2]. split.
  - intros r H. by apply noted_insert, I1.
  - intros k' Hk H. destruct (I2 k' Hk H) as [|(n & Hn & Hw)]; [by left|right]. exists n. split; [done|]. by apply noted_insert.
Qed.
(** A key is taken off the list when its release follows. *)
Lemma ok_sim T now r b w : ok T w T (sim_rdev_rawkey now r b w).
Proof.
  unfold sim_rdev_rawkey. split; [|done|done|exists [Sim b r]; split; [done|by constructor]]. intros [I1 I2]. unfold sim. split.
  - intros r' H. rewrite raw_held_act in H. cbn in H. destruct (decide _) as [<-|N].
    + subst b. apply (noted_self now).
    + destruct b; [by apply (noted_insert now), I1|]. apply (noted_delete now); [congruence|by apply I1].
  - intros k Hk H. rewrite key_held_act in H. cbn in H. destruct (I2 k Hk H) as [|(n & Hn & Hw)]; [by left|right]. exists n. split; [done|].
    destruct b; [by apply (noted_insert now)|]. by apply (noted_delete now).
Qed.
Lemma ok_forgotten T now n w : (forall k, record_key_to_key n = Some k -> is_layout k = true \/ key_held k w = false) ->
  ok T w T (record_pressed_key now (DEnigoKey n) false w).
Proof.
  intros Hn. apply ok_silent; [|done..]. intros [I1 I2]. split.
  - intros r H. apply noted_delete; [done|by apply I1].
  - intros k Hk H. destruct (I2 k Hk H) as [|(m & Hm & Hw)]; [by left|right]. exists m. split; [done|]. apply noted_delete; [|done].
    intros [= ->]. change (key_held k w = true) in H. destruct (Hn k Hm); congruence.
Qed.
Lemma ok_let_go T now n k w : record_key_to_key n = Some k -> ok T w T (kup k (record_pressed_key now (DEnigoKey n) false w)).
Proof.
  intros Hn. change (kup k (record_pressed_key now (DEnigoKey n) false w)) with (record_pressed_key now (DEnigoKey n) false (kup k w)).
  eapply ok_trans; [by apply (ok_lifts T (KUp k) (key_up k (en w)))|]. apply ok_forgotten. intros k' Hk. right.
  rewrite Hn in Hk. injection Hk as <-. unfold kup. rewrite key_held_act. cbn. by destruct (decide _).
Qed.
Lemma ok_release_keys l w : ok l w [] (release_keys l w).
Proof.
  revert w. induction l as [|k l IH]; intros w; [apply ok_refl|]. cbn. eapply ok_trans; [apply ok_kup|apply IH].
Qed.
Lemma ok_foldl {A} (f : world -> A -> world) T l w : (forall w a, ok T w T (f w a)) -> ok T w T (foldl f w l).
Proof. intros H. revert w. induction l as [|a l IH]; intros w; [apply ok_refl|]. cbn. eapply ok_trans; [apply H|apply IH]. Qed.
Lemma ok_kup_same T k w : ok T w T (kup k w).
Proof. by apply ok_lifts. Qed.
Lemma ok_fix_modifier T ms k0 k1 w : ok T w T (fix_modifier ms k0 k1 w).
Proof. unfold fix_modifier. destruct (_ && _); [|apply ok_refl]. destruct (_ && _); [apply ok_refl|apply ok_kup_same]. Qed.
Lemma ok_fix_modifiers T ms ck w : ok T w T (fix_modifiers ms ck w).
Proof.
  apply ok_foldl. intros w' [[own k0] k1]. destruct (_ =? _); [apply ok_refl|apply ok_fix_modifier].
Qed.
Lemma ok_press_missing wanted ms w : ok [] w (press_missing wanted ms w).1 (press_missing wanted ms w).2.
Proof.
  unfold press_missing.
  assert (G : forall ms l w0, ok [] w0 l w -> let x := foldl (λ '(l, w) v, match control_key_value_to_key v with
     | Some k => if wanted k && negb (get_modifier_state k (en w)) then (l ++ [k], (kdown k w).2) else (l, w) | None => (l, w) end) (l, w) ms in ok [] w0 x.1 x.2).
  { clear ms. intros ms. revert w. induction ms as [|v ms IH]; intros w l w0 H; [done|]. cbn. destruct (control_key_value_to_key v) as [k|]; [|by apply IH].
    destruct (wanted k && _); [|by apply IH]. apply IH. eapply ok_trans; [exact H|]. eapply ok_trans; [apply ok_kdown|].
    apply ok_more. intros k' Hk. apply list_elem_of_In in Hk. apply list_elem_of_In, in_app_iff. destruct Hk as [->|Hk]; [right; by left|by left]. }
  apply G, ok_refl.
Qed.
Lemma ok_sync evt w : ok [] w (sync_modifiers evt w).1 (sync_modifiers evt w).2.
Proof.
  unfold sync_modifiers. destruct (down evt); [|apply ok_refl]. eapply ok_trans; [apply ok_fix_modifiers|apply ok_press_missing].
Qed.
Lemma ok_note T x w : lifts x = true -> allowed x -> ok T w T (note x w).
Proof. apply ok_lifts. Qed.
Lemma ok_map now evt w : ok [] w [] (map_keyboard_mode now evt w).
Proof. unfold map_keyboard_mode. eapply ok_trans; [by apply (ok_note [] ChangeDesktop)|apply ok_sim]. Qed.
Lemma ok_type_seq s w : ok [] w [] (type_seq s w).
Proof.
  unfold type_seq. cbv zeta. eapply ok_trans; [|apply ok_foldl; intros w' c; destruct (is_hot_key_modifiers_down _); by apply ok_lifts].
  destruct (is_hot_key_modifiers_down _); [apply ok_refl|].
  eapply ok_trans; [|destruct (get_modifier_state RightShift _); [by apply ok_lifts|apply ok_refl]].
  destruct (get_modifier_state Shift _); [by apply ok_lifts|apply ok_refl].
Qed.
Lemma ok_translate now evt w : ok [] w [] (translate_keyboard_mode now evt w).
Proof.
  unfold translate_keyboard_mode. destruct (union evt) as [[v|c|c|s|c]|]; try apply ok_refl.
  - unfold translate_process_code. cbv zeta. eapply ok_trans; [by apply (ok_note [] ChangeDesktop)|]. destruct (_ =? _); apply ok_sim.
  - apply ok_type_seq.
  - unfold simulate_win2win_hotkey. cbv zeta. destruct (down evt); [|by apply ok_lifts].
    destruct (simulate_key_unicode _ _) as [b d]. destruct b; [by apply ok_lifts|]. eapply ok_trans; by apply ok_lifts.
Qed.
Definition in_range (lo hi z : Z) : bool := (lo <=? z) && (z <? hi).
(** The numbers have their width, and a function key comes without modifiers to press. *)
Definition calm_key (evt : KeyEvent) : bool :=
  match union evt with
  | Some (UControlKey v) =>
      in_range (- 2 ^ 31) (2 ^ 31) v && (bool_decide (is_function_key v = None) || negb (down evt) || bool_decide (modifiers evt = []))
  | Some (UChr c) => in_range 0 (2 ^ 32) c
  | _ => true
  end.
Lemma wrap64 v : 0 <= v < 2 ^ 63 -> Int.wrap 64 v = v.
Proof. intros H. apply Int.wrap_small. unfold Int.in_u. lia. Qed.
Lemma key_range v k : control_key_value_to_key v = Some k -> 0 <= v < KEY_CHAR_START.
Proof.
  unfold control_key_value_to_key. destruct (List.find _ _) as [[c k']|] eqn:E; [|done]. intros _.
  apply List.find_some in E as [_ E]. apply Z.eqb_eq in E as <-. apply ck_small.
Qed.
Lemma record_small v : 0 <= v < KEY_CHAR_START -> record_key_to_key (Int.wrap 64 v) = control_key_value_to_key v.
Proof.
  unfold KEY_CHAR_START. intros H. unfold record_key_to_key. rewrite wrap64 by lia. unfold KEY_CHAR_START.
  rewrite (proj2 (Z.ltb_lt _ _)) by lia. by rewrite Int.to_signed_small by lia.
Qed.
Lemma record_large n k : KEY_CHAR_START <= n -> record_key_to_key n = Some k -> is_layout k = true.
Proof. intros H. unfold record_key_to_key. rewrite (proj2 (Z.ltb_ge _ _)) by done. by intros [= <-]. Qed.
Lemma unknown_record v k : - 2 ^ 31 <= v < 2 ^ 31 -> control_key_value_to_key v = None -> record_key_to_key (Int.wrap 64 v) = Some k -> is_layout k = true.
Proof.
  intros Hv Hn Hk. destruct (decide (0 <= v < KEY_CHAR_START)) as [Hs|Hs]; [by rewrite record_small, Hn in Hk by done|].
  apply (record_large (Int.wrap 64 v)); [|done]. destruct (decide (0 <= v)) as [Hp|Hp]; [rewrite wrap64 by lia; unfold KEY_CHAR_START in *; lia|].
  unfold Int.wrap. rewrite <- (Z.mod_add v 1) by lia. rewrite Z.mod_small by lia. unfold KEY_CHAR_START. lia.
Qed.
Lemma ok_control T now v b w : - 2 ^ 31 <= v < 2 ^ 31 ->
  ok T w T (process_control_key v b (record_pressed_key now (DEnigoKey (Int.wrap 64 v)) b w)).
Proof.
  intros Hv. unfold process_control_key. destruct (control_key_value_to_key v) as [k|] eqn:E.
  - pose proof (record_small v (key_range v k E)) as Hr. rewrite E in Hr. destruct b; [|by apply ok_let_go].
    eapply ok_trans; [apply ok_remember|]. apply ok_kdown_noted. right. exists (Int.wrap 64 v). split; [done|apply noted_self].
  - destruct b; [apply ok_remember|]. apply ok_forgotten. intros k Hk. left. by apply (unknown_record v k).
Qed.
Lemma ok_char T now c b hot w : 0 <= c < 2 ^ 32 ->
  ok T w T (process_chr c b hot (record_pressed_key now (DEnigoKey (c + KEY_CHAR_START)) b w)).
Proof.
  intros Hc. apply (ok_trans _ _ T (record_pressed_key now (DEnigoKey (c + KEY_CHAR_START)) b w)).
  - destruct b; [apply ok_remember|]. apply ok_forgotten. intros k Hk. left. apply (record_large (c + KEY_CHAR_START)); [lia|done].
  - generalize (record_pressed_key now (DEnigoKey (c + KEY_CHAR_START)) b w). intros w1. unfold process_chr. destruct (negb hot).
    + destruct b; [|apply ok_refl]. destruct (from_u32 c); [by apply ok_lifts|apply ok_refl].
    + destruct b; [|apply ok_kup_same]. pose proof (ok_kdown_noted T (char_value_to_key c) w1 (or_introl eq_refl)) as H.
      destruct (kdown _ w1) as [b w2]. cbn [snd] in H. destruct b; [done|]. eapply ok_trans; [exact H|].
      destruct (from_u32 c); [by apply ok_lifts|apply ok_refl].
Qed.
Lemma ok_legacy now evt w : calm_key evt = true -> ok [] w [] (legacy_keyboard_mode now evt w).
Proof.
  intros Hc. unfold legacy_keyboard_mode. eapply (ok_trans _ _ []); [by apply (ok_note [] ChangeDesktop)|]. set (w1 := note _ w).
  pose proof (ok_sync evt w1) as S. destruct (sync_modifiers evt w1) as [l w2] eqn:E. cbn [fst snd] in S.
  eapply ok_trans; [exact S|].
  assert (F : forall w3, ok l w2 l w3 -> ok l w2 [] (release_keys l w3)).
  { intros w3 H. eapply ok_trans; [exact H|apply ok_release_keys]. }
  unfold calm_key in Hc. destruct (union evt) as [[v|c|c|s|c]|] eqn:Eu; try (apply F, ok_refl).
  - apply andb_true_iff in Hc as [[Hlo Hhi]%andb_true_iff Hc]. apply Z.leb_le in Hlo. apply Z.ltb_lt in Hhi.
    destruct (is_function_key v) as [x|] eqn:Ef; [|apply F, ok_control; lia].
    assert (l = []) as ->.
    { unfold sync_modifiers in E. destruct (down evt); [|by injection E]. rewrite bool_decide_false in Hc by done. cbn in Hc.
      apply bool_decide_eq_true in Hc. rewrite Hc in E. by injection E. }
    revert Ef. unfold is_function_key. repeat case_match; intros [= <-]; by apply ok_note.
  - apply andb_true_iff in Hc as [Hlo Hhi]. apply Z.leb_le in Hlo. apply Z.ltb_lt in Hhi. apply F, ok_char. lia.
  - apply F. unfold process_unicode. destruct (from_u32 c); [by apply ok_lifts|apply ok_refl].
  - apply F. by apply ok_lifts.
Qed.
Lemma ok_set_relative T s w : ok T w T (set_relative s w).
Proof. apply ok_silent; [|done..]. by intros [I1 I2]. Qed.
Lemma ok_set_peer T s w : ok T w T (set_peer s w).
Proof. apply ok_silent; [|done..]. by intros [I1 I2]. Qed.
Lemma ok_mouse_action T now conn evt w : ok T w T (mouse_action now conn evt w).
Proof.
  unfold mouse_action. cbv zeta. destruct (_ =? _).
  { eapply ok_trans; [apply ok_set_relative|]. eapply ok_trans; [|apply ok_set_peer]. by apply ok_lifts. }
  destruct (_ =? _).
  { unfold move_relative. cbv zeta. eapply ok_trans; [apply ok_set_relative|]. set (w1 := set_relative_mouse_active conn true w).
    set (w2 := act _ _ w1). eapply (ok_trans _ _ T w2); [by apply ok_lifts|]. destruct (get_cursor_pos _) as [[x y]|]; [apply ok_set_peer|apply ok_refl]. }
  destruct (_ =? _); [destruct (button_of _); [by apply ok_lifts|apply ok_refl]|].
  destruct (_ =? _); [destruct (button_of _); [by apply ok_lifts|apply ok_refl]|].
  destruct (_ || _); [|apply ok_refl]. unfold scroll. cbv zeta.
  eapply ok_trans; [|destruct (_ =? 0); [apply ok_refl|by apply ok_lifts]]. destruct (_ =? 0); [apply ok_refl|by apply ok_lifts].
Qed.
Lemma ok_mouse_simulation now conn evt w : ok [] w [] (handle_mouse_simulation_ now conn evt w).
Proof.
  unfold handle_mouse_simulation_. destruct (EXITING w); [apply ok_refl|]. cbv zeta.
  apply (ok_trans _ _ [] (note ChangeDesktop w)); [by apply ok_note|]. set (w1 := note ChangeDesktop w).
  destruct (if evt_type evt =? MOUSE_TYPE_DOWN then _ else _) as [l w2] eqn:E.
  apply (ok_trans _ _ l w2); [|eapply ok_trans; [apply ok_mouse_action|apply ok_release_keys]].
  destruct (_ =? MOUSE_TYPE_DOWN); [|injection E as <- <-; apply ok_refl].
  set (f := λ k, _) in E. pose proof (ok_press_missing f (m_modifiers evt) (fix_modifiers (m_modifiers evt) 0 w1)) as H. rewrite E in H.
  eapply ok_trans; [apply ok_fix_modifiers|exact H].
Qed.
Lemma ok_mouse now conn evt s c w : ok [] w [] (handle_mouse_ now conn evt s c w).
Proof.
  unfold handle_mouse_. cbv zeta. apply (ok_trans _ _ [] (if s then handle_mouse_simulation_ now conn evt w else w)); [destruct s; [apply ok_mouse_simulation|apply ok_refl]|].
  destruct (_ && _); [|apply ok_refl]. unfold handle_mouse_show_cursor_. destruct (_ =? _); [by apply ok_note|].
  destruct (_ && _); [|apply ok_refl]. cbv zeta. destruct (if (m_x evt =? 0) && _ then _ else _) as [x y]. by apply ok_note.
Qed.
End quiet.
Lemma ok_click_if T b k w : ok (q := false) T w T (click_if b k w).
Proof. destruct b; [|apply ok_refl]. by apply ok_lifts. Qed.
Lemma ok_new_handler T evt pad w : ok (q := false) T w T (new_handler evt pad w).2.
Proof. unfold new_handler. cbn [snd]. eapply ok_trans; apply ok_click_if. Qed.
Lemma ok_drop T h w : ok (q := false) T w T (drop_handler h w).
Proof. unfold drop_handler. eapply ok_trans; apply ok_click_if. Qed.
Lemma ok_handle_key now evt w : calm_key evt = true -> ok (q := false) [] w [] (handle_key_ now evt w).
Proof.
  intros Hc. unfold handle_key_. destruct (EXITING w); [apply ok_refl|].
  assert (M : forall w, ok (q := false) [] w [] (match mode evt with Map => map_keyboard_mode now evt w | Translate => translate_keyboard_mode now evt w
                                     | _ => legacy_keyboard_mode now evt w end)).
  { intros w'. destruct (mode evt); [by apply ok_legacy|apply ok_map|apply ok_translate|by apply ok_legacy|by apply ok_legacy]. }
  destruct (led_sync evt) as [pad|]; [|apply M]. pose proof (ok_new_handler [] evt pad w) as H. destruct (new_handler evt pad w) as [h w1]. cbn [snd] in H.
  eapply ok_trans; [exact H|]. eapply ok_trans; [apply M|apply ok_drop].
Qed.
Definition calm_pointer (s : option Z) : bool := match s with Some s => s =? 0 | None => true end.
Lemma ok_pointer s w : calm_pointer s = true -> ok (q := false) [] w [] (handle_pointer_ s w).
Proof.
  unfold handle_pointer_. intros H. destruct (EXITING w); [apply ok_refl|]. destruct s as [s|]; [|apply ok_refl].
  unfold handle_scale. cbn in H. rewrite H. apply ok_kup_same.
Qed.
Lemma ok_release_modifiers w : ok (q := false) [] w [] (release_device_modifiers w).
Proof. apply ok_foldl. intros w' k. destruct (get_modifier_state k _); [apply ok_kup_same|apply ok_refl]. Qed.

(** ** Runs *)
(** What the theorem below leaves out: a function key that presses modifiers, and a pinch that has begun. *)
Definition calm (ev : event) : bool :=
  match ev with
  | EKey _ evt => calm_key evt
  | EPointer s => calm_pointer s
  | _ => true
  end.
Definition gone_when_exiting (w : world) : Prop := EXITING w = true -> forall k, is_Some (KEYS_DOWN w !! k) -> (k, false) ∈ pending w.
Definition start (d : dev) : world := mkWorld d ∅ (mkInput 0 0 0 0) ∅ false [] [].
Lemma noted_pending w p k : (forall x, x ∈ pending w -> x ∈ p) -> noted w k -> noted (set_pending p w) k.
Proof. intros H [Hk|Hp]; [by left|right; by apply H]. Qed.
Lemma inv_noted w w' : out w' = out w -> (forall k, noted w k -> noted w' k) -> inv [] w -> inv [] w'.
Proof.
  intros Ho Hn [I1 I2]. split.
  - intros r H. apply Hn, I1. unfold raw_held in *. by rewrite <- Ho.
  - intros k Hk H. destruct (I2 k Hk) as [|(n & E & Hw)]; [unfold key_held in *; by rewrite <- Ho|by left|right]. exists n. split; [done|by apply Hn].
Qed.
Lemma inv_scan now force w : inv [] w -> inv [] (fix_key_down_timeout now force w).
Proof.
  apply inv_noted; [done|]. intros k Hk. apply noted_pending; [|done]. intros x Hx. apply list_elem_of_In, in_app_iff. left. by apply list_elem_of_In.
Qed.
Lemma inv_forget i w : inv [] w -> inv [] (forget i w).
Proof.
  unfold forget. destruct (pending w !! i) as [[k []]|] eqn:E; [done| |done]. apply inv_noted; [done|].
  intros k' [[t H]|H].
  - destruct (decide (k = k')) as [<-|N].
    + right. cbn. apply list_elem_of_lookup. exists i. apply list_lookup_insert_eq. by apply lookup_lt_Some in E.
    + left. cbn. by rewrite lookup_delete_ne.
  - right. cbn. apply list_elem_of_lookup in H as [j H]. apply list_elem_of_lookup. exists j.
    rewrite list_lookup_insert_ne; [done|]. intros <-. rewrite E in H. done.
Qed.
Lemma elem_of_delete {A} (l : list A) i x : x ∈ l -> l !! i = Some x \/ x ∈ delete i l.
Proof.
  intros [j H]%list_elem_of_lookup. destruct (decide (i = j)) as [<-|N]; [by left|right]. apply list_elem_of_lookup.
  destruct (decide (j < i)%nat); [exists j; by rewrite list_lookup_delete_lt by lia|].
  exists (j - 1)%nat. rewrite list_lookup_delete_ge by lia. by replace (S (j - 1)) with j by lia.
Qed.
Lemma delete_subset {A} (l : list A) i x : x ∈ delete i l -> x ∈ l.
Proof.
  intros [j H]%list_elem_of_lookup. apply list_elem_of_lookup. destruct (decide (j < i)%nat).
  - exists j. by rewrite list_lookup_delete_lt in H by lia.
  - exists (S j). by rewrite list_lookup_delete_ge in H by lia.
Qed.
Lemma inv_release i w : inv [] w -> inv [] (release i w).
Proof.
  unfold release. destruct (pending w !! i) as [[k []]|] eqn:E; [|done..]. intros [I1 I2].
  assert (N : forall k', k' <> k -> noted w k' -> noted (release_record_key k (set_pending (delete i (pending w)) w)) k').
  { intros k' Hne Hk'. assert (noted (set_pending (delete i (pending w)) w) k') as H.
    { destruct Hk' as [?|H]; [by left|right]. apply (elem_of_delete _ i) in H as [H|H]; [|done]. rewrite E in H. congruence. }
    destruct k as [r|n]; [exact H|]. cbn. by destruct (record_key_to_key n). }
  split.
  - intros r H. destruct k as [r'|n]; cbn [release_record_key] in H.
    + unfold sim in H. rewrite raw_held_act in H. cbn in H. destruct (decide _); [done|]. apply N; [congruence|by apply I1].
    + apply N; [done|]. apply I1. destruct (record_key_to_key n); [|done]. unfold kup in H. by rewrite raw_held_act in H.
  - intros k' Hk' H. assert (key_held k' w = true /\ forall n, k = DEnigoKey n -> record_key_to_key n <> Some k') as [H1 H2].
    { destruct k as [r'|n]; cbn [release_record_key] in H.
      - unfold sim in H. rewrite key_held_act in H. by split.
      - destruct (record_key_to_key n) as [k0|] eqn:Ek; [|split; [done|by intros ? [= <-]; rewrite Ek]].
        unfold kup in H. rewrite key_held_act in H. cbn in H. destruct (decide _) as [|Hne]; [done|]. split; [done|]. intros ? [= <-]. rewrite Ek. congruence. }
    destruct (I2 k' Hk' H1) as [|(n & Hn & Hw)]; [by left|right]. exists n. split; [done|]. apply N; [|done]. intros <-. by apply (H2 n).
Qed.
Lemma keys_inv_step w ev : calm ev = true -> inv [] w -> inv [] (step w ev).
Proof.
  intros Hc I. destruct ev as [now evt|now conn evt s c|s| |now|now|i|i|f|conn]; cbn [step].
  - by apply (ok_handle_key now evt w).
  - by apply (ok_mouse (q := false) now conn evt s c w).
  - by apply (ok_pointer s w).
  - by apply (ok_release_modifiers w).
  - by apply inv_scan.
  - unfold fix_key_down_timeout_at_exit. destruct (EXITING w); [done|]. apply inv_scan. by destruct I.
  - by apply inv_forget.
  - by apply inv_release.
  - by destruct I.
  - by destruct I.
Qed.
(** Nothing is remembered any more once the program is at its end; what was, is in hand. *)
Lemma frame_exit w w' : EXITING w' = EXITING w -> (EXITING w = true -> KEYS_DOWN w' = KEYS_DOWN w) -> pending w' = pending w ->
  gone_when_exiting w -> gone_when_exiting w'.
Proof. intros E1 E2 E3 G E k Hk. rewrite E3. rewrite E1 in E. apply G; [done|]. by rewrite <- E2. Qed.
Lemma keys_of_mouse now conn evt s c w : EXITING w = true -> KEYS_DOWN (handle_mouse_ now conn evt s c w) = KEYS_DOWN w.
Proof.
  intros E. unfold handle_mouse_, handle_mouse_simulation_. rewrite E. replace (if s then w else w) with w by (by destruct s). cbv zeta.
  destruct (_ && _); [|done]. unfold handle_mouse_show_cursor_. destruct (_ =? _); [done|]. destruct (_ && _); [|done]. cbv zeta.
  by destruct (if (m_x evt =? 0) && _ then _ else _).
Qed.
Lemma exiting_step w ev : calm ev = true -> gone_when_exiting w -> gone_when_exiting (step w ev).
Proof.
  intros Hc G. destruct ev as [now evt|now conn evt s c|s| |now|now|i|i|f|conn]; cbn [step]; try done.
  - destruct (ok_handle_key now evt w Hc) as [_ E1 E2 _]. apply (frame_exit w); [done| |done|done]. intros E. unfold handle_key_. by rewrite E.
  - destruct (ok_mouse (q := false) now conn evt s c w) as [_ E1 E2 _]. apply (frame_exit w); [done| |done|done]. apply keys_of_mouse.
  - destruct (ok_pointer s w Hc) as [_ E1 E2 _]. apply (frame_exit w); [done| |done|done]. intros E. unfold handle_pointer_. by rewrite E.
  - destruct (ok_release_modifiers w) as [_ E1 E2 _]. apply (frame_exit w); [done| |done|done]. intros _. unfold release_device_modifiers. cbn [foldl].
    repeat (destruct (get_modifier_state _ _)); done.
  - intros E k Hk. cbn in *. apply list_elem_of_In, in_app_iff. left. by apply list_elem_of_In, G.
  - unfold fix_key_down_timeout_at_exit. destruct (EXITING w) eqn:E; [done|]. intros _ k [t Hk]. cbn in *.
    apply list_elem_of_In, in_app_iff. right. apply list_elem_of_In, list_elem_of_omap. exists (k, t). split; [by apply elem_of_map_to_list|done].
  - unfold forget. destruct (pending w !! i) as [[k []]|] eqn:Ei; [done| |done]. intros E k' Hk'. cbn in *.
    assert (k' <> k) as N by (intros ->; rewrite lookup_delete_eq in Hk'; by destruct Hk'). rewrite lookup_delete_ne in Hk' by done.
    specialize (G E k' Hk'). apply list_elem_of_lookup in G as [j G]. apply list_elem_of_lookup. exists j.
    rewrite list_lookup_insert_ne; [done|]. intros <-. congruence.
  - unfold release. destruct (pending w !! i) as [[k []]|] eqn:Ei; [|done..]. intros E k' Hk'.
    assert (K : KEYS_DOWN (release_record_key k (set_pending (delete i (pending w)) w)) = KEYS_DOWN w
                /\ pending (release_record_key k (set_pending (delete i (pending w)) w)) = delete i (pending w)
                /\ EXITING (release_record_key k (set_pending (delete i (pending w)) w)) = EXITING w).
    { destruct k as [r|n]; [done|]. cbn. by destruct (record_key_to_key n). }
    destruct K as (K1 & K2 & K3). rewrite K2. rewrite K1 in Hk'. rewrite K3 in E. specialize (G E k' Hk').
    apply (elem_of_delete _ i) in G as [G|G]; [congruence|done].
Qed.
Lemma run_inv_keys l w : forallb calm l = true -> inv [] w -> gone_when_exiting w -> inv [] (run l w) /\ gone_when_exiting (run l w).
Proof.
  revert w. induction l as [|ev l IH]; intros w H I G; [done|]. cbn in H. apply andb_true_iff in H as [H1 H2].
  cbn. apply IH; [done|by apply keys_inv_step|by apply exiting_step].
Qed.
Lemma exiting_stays w ev : EXITING w = true -> calm ev = true -> EXITING (step w ev) = true.
Proof.
  intros E Hc. destruct ev as [now evt|now conn evt s c|s| |now|now|i|i|f|conn]; cbn [step]; try done.
  - by destruct (ok_handle_key now evt w Hc) as [_ -> _ _].
  - by destruct (ok_mouse (q := false) now conn evt s c w) as [_ -> _ _].
  - by destruct (ok_pointer s w Hc) as [_ -> _ _].
  - by destruct (ok_release_modifiers w) as [_ -> _ _].
  - unfold fix_key_down_timeout_at_exit. by rewrite E.
  - unfold forget. by destruct (pending w !! i) as [[k []]|].
  - unfold release. destruct (pending w !! i) as [[k []]|]; [|done..]. destruct k as [r|n]; [done|]. cbn. by destruct (record_key_to_key n).
Qed.
Lemma exiting_run l w : EXITING w = true -> forallb calm l = true -> EXITING (run l w) = true.
Proof.
  revert w. induction l as [|ev l IH]; intros w E H; [done|]. cbn in H. apply andb_true_iff in H as [H1 H2]. cbn. apply IH; [by apply exiting_stays|done].
Qed.

(** The releasing thread finishes: two steps for each key. *)
Definition drain (n : nat) : list event := concat (repeat [EForget 0; ERelease 0] n).
Lemma release_pending k w : pending (release_record_key k w) = pending w.
Proof. destruct k as [r|n]; [done|]. cbn. by destruct (record_key_to_key n). Qed.
Lemma drained n w : length (pending w) = n -> pending (run (drain n) w) = [].
Proof.
  revert w. induction n as [|n IH]; intros w Hn; [by apply nil_length_inv|]. cbn. apply IH.
  destruct (pending w) as [|[k b] p] eqn:E; [done|]. injection Hn as Hn. unfold forget, release. rewrite E. cbn. destruct b.
  - rewrite E. cbn. by rewrite release_pending.
  - cbn. by rewrite release_pending.
Qed.

(** ** The lights *)
Definition clicks (h : bool * bool) : list effect := (if h.1 then [KClick CapsLock] else []) ++ (if h.2 then [KClick NumLock] else []).
Lemma out_click_if b k w : out (click_if b k w) = out w ++ (if b then [KClick k] else []).
Proof. destruct b; [done|]. by rewrite app_nil_r. Qed.
Lemma out_new_handler evt pad w : out (new_handler evt pad w).2 = out w ++ clicks (new_handler evt pad w).1.
Proof. unfold new_handler, clicks. cbn [fst snd]. by rewrite !out_click_if, app_assoc. Qed.
Lemma out_drop h w : out (drop_handler h w) = out w ++ clicks h.
Proof. unfold drop_handler, clicks. by rewrite !out_click_if, app_assoc. Qed.
Lemma play_out now evt w : calm_key evt = true ->
  exists k, out (match mode evt with Map => map_keyboard_mode now evt w | Translate => translate_keyboard_mode now evt w
                 | _ => legacy_keyboard_mode now evt w end) = out w ++ k /\ Forall (λ x, is_click x = false) k.
Proof.
  intros Hc. assert (F : forall k, Forall (allowed (q := true)) k -> Forall (λ x, is_click x = false) k).
  { intros k H. eapply Forall_impl; [exact H|]. intros x Hx. by apply Hx. }
  destruct (mode evt).
  - destruct (ok_legacy (q := true) now evt w Hc) as [_ _ _ (k & H & Hk)]. eauto.
  - destruct (ok_map (q := true) now evt w) as [_ _ _ (k & H & Hk)]. eauto.
  - destruct (ok_translate (q := true) now evt w) as [_ _ _ (k & H & Hk)]. eauto.
  - destruct (ok_legacy (q := true) now evt w Hc) as [_ _ _ (k & H & Hk)]. eauto.
  - destruct (ok_legacy (q := true) now evt w Hc) as [_ _ _ (k & H & Hk)]. eauto.
Qed.
(** The lights of the register's keyboard are the technician's only while a key is played.  CapsLock and NumLock are
    clicked before the event exactly where they differ from what the event says (NumLock for keys of the number pad, or
    where it would turn an arrow into a digit), the same clicks follow it, and nothing in between clicks; keys that only
    modify, Tab and Return change no light. *)
Theorem lights_are_put_back now evt w :
  EXITING w = false -> calm_key evt = true ->
  exists h body, out (handle_key_ now evt w) = out w ++ clicks h ++ body ++ clicks h
  /\ Forall (λ x, is_click x = false) body
  /\ match led_sync evt with
     | None => h = (false, false)
     | Some pad =>
         h.1 = xorb (is_in CK_CapsLock (modifiers evt)) (get_key_state CapsLock (en w))
         /\ (pad = true -> h.2 = xorb (is_in CK_NumLock (modifiers evt)) (get_key_state NumLock (en (click_if h.1 CapsLock w))))
         /\ (pad = false -> h.2 = true -> is_legacy_mode evt = true /\ should_disable_numlock evt = true)
     end.
Proof.
  intros E Hc. unfold handle_key_. rewrite E. destruct (led_sync evt) as [pad|].
  - pose proof (out_new_handler evt pad w) as Hn.
    assert (Hh : (new_handler evt pad w).1 = (caps_changed evt w, num_changed evt pad (click_if (caps_changed evt w) CapsLock w))) by done.
    destruct (new_handler evt pad w) as [h w1]. cbn [fst snd] in Hn, Hh.
    destruct (play_out now evt w1 Hc) as (k & Hk & Fk). exists h, k. split_and!; [|done|by rewrite Hh| |].
    + rewrite out_drop, Hk, Hn. by rewrite <- !app_assoc.
    + intros ->. by rewrite Hh.
    + intros ->. rewrite Hh. cbn. by intros [[H1 H2]%andb_true_iff H3]%andb_true_iff.
  - destruct (play_out now evt w Hc) as (k & Hk & Fk). exists (false, false), k. split_and!; [|done|done]. cbn. by rewrite app_nil_r.
Qed.
End input.

(** ** Where the pointer is *)
Definition INVALID_CURSOR_POS : Z := - 2 ^ 31.
Definition INVALID_DISPLAY_IDX : Z := -1.
Record sys_cursor := mkSys { moved_at : option Z; c_x : Z; c_y : Z }.
Definition no_cursor : sys_cursor := mkSys None INVALID_CURSOR_POS INVALID_CURSOR_POS.
Definition update_last_cursor_pos (now x y : Z) (c : sys_cursor) : sys_cursor :=
  if negb (c_x c =? x) || negb (c_y c =? y) then mkSys (Some now) x y else c.
(** What a turn of a service hands out: to all but one connection, or to the newcomers. *)
Inductive handed := SendWithout (x y exclude : Z) | ToNewcomers (x y : Z) | Follow (display : Z).
Definition is_moved (pos : Z * Z) (x y : Z) : bool := negb (pos.1 =? INVALID_CURSOR_POS) && (negb (pos.1 =? x) || negb (pos.2 =? y)).
Definition run_pos (now : Z) (c : sys_cursor) (p : last_input) (pos : Z * Z) : list handed * (Z * Z) :=
  if (c_x c =? INVALID_CURSOR_POS) || (c_y c =? INVALID_CURSOR_POS) then ([], pos)
  else
    let exclude := if now - i_time p <? 300 then i_conn p else 0 in
    ((if is_moved pos (c_x c) (c_y c) then [SendWithout (c_x c) (c_y c) exclude] else []) ++ [ToNewcomers (c_x c) (c_y c)], (c_x c, c_y c)).
Definition run_window_focus (displays : Z) (focused : option Z) (display_idx : Z) : list handed * Z :=
  if displays <=? 1 then ([], display_idx)
  else match focused with
       | Some d => ((if negb (display_idx =? INVALID_DISPLAY_IDX) && negb (display_idx =? d) then [Follow d] else []), d)
       | None => ([], display_idx)
       end.
(** A technician who moved the mouse a moment ago is not sent the position it went to; the others learn every position
    the service saw, once. *)
Lemma positions_are_not_echoed now c p pos x y e :
  In (SendWithout x y e) (run_pos now c p pos).1 ->
  (x, y) <> pos /\ (run_pos now c p pos).2 = (x, y) /\ (now - i_time p < 300 -> e = i_conn p).
Proof.
  unfold run_pos. destruct (_ || _); [done|]. cbv zeta. cbn [fst snd]. intros [H|H]%in_app_iff; [|by destruct H].
  destruct (is_moved pos (c_x c) (c_y c)) eqn:M; [|done]. destruct H as [[= <- <- <-]|[]]. split_and!; [|done|].
  - intros <-. unfold is_moved in M. cbn in M. rewrite !Z.eqb_refl in M. by rewrite andb_false_r in M.
  - intros H. by rewrite (proj2 (Z.ltb_lt _ _)).
Qed.

(** ** Inputs *)
Definition all_keys : list ControlKey :=
  [CK_Unknown; CK_CtrlAltDel; CK_LockScreen; CK_Alt; CK_Backspace; CK_CapsLock; CK_Control; CK_Delete; CK_DownArrow; CK_End; CK_Escape; CK_F1;
   CK_F10; CK_F11; CK_F12; CK_F2; CK_F3; CK_F4; CK_F5; CK_F6; CK_F7; CK_F8; CK_F9; CK_Home; CK_LeftArrow; CK_Meta; CK_Option; CK_PageDown;
   CK_PageUp; CK_Return; CK_RightArrow; CK_Shift; CK_Space; CK_Tab; CK_UpArrow; CK_Numpad0; CK_Numpad1; CK_Numpad2; CK_Numpad3; CK_Numpad4;
   CK_Numpad5; CK_Numpad6; CK_Numpad7; CK_Numpad8; CK_Numpad9; CK_Cancel; CK_Clear; CK_Menu; CK_Pause; CK_Kana; CK_Hangul; CK_Junja; CK_Final;
   CK_Hanja; CK_Kanji; CK_Convert; CK_Select; CK_Print; CK_Execute; CK_Snapshot; CK_Insert; CK_Help; CK_Sleep; CK_Separator; CK_Scroll;
   CK_NumLock; CK_RWin; CK_Apps; CK_Multiply; CK_Add; CK_Subtract; CK_Decimal; CK_Divide; CK_Equals; CK_NumpadEnter; CK_RAlt; CK_RControl; CK_RShift].
Fixpoint index (k : ControlKey) (l : list ControlKey) : Z :=
  match l with [] => 0 | k' :: l => if decide (k = k') then 0 else 1 + index k l end.
#[export] Program Instance numbered : ControlKeys := {
  ck_value k := index k all_keys; ck_of_value v := if v <? 0 then None else all_keys !! Z.to_nat v;
}.
Next Obligation. by intros []. Qed.
Next Obligation. intros []; by vm_compute. Qed.
#[export] Instance silent : @Rdev windows_device := {
  simulate _ _ d := d; simulate_shift_release _ d := d; simulate_char _ d := d; simulate_unicode _ d := d; simulate_key_unicode _ d := (true, d);
  vk_to_scancode v := v; simulate_code _ _ d := d; as_keycode c := Int.wrap 16 c; win_key_from_scancode _ := OtherKey;
}.
Definition key (m : KeyboardMode) (b : bool) (ms : list ControlKey) (u : key_union) : KeyEvent := mkKey m b (map ck_value ms) (Some u).
Definition ctrl (b : bool) : KeyEvent := key Legacy b [] (UControlKey (ck_value CK_Control)).
Definition played (l : list event) : world := run (λ s, s) (λ _, None) l (start blank).

Lemma lights_are_put_back_witness :
  exists h body, out (handle_key_ (λ s, s) 0 (key Legacy true [CK_CapsLock] (UChr 97)) (start blank)) = clicks h ++ body ++ clicks h
  /\ Forall (λ x, is_click x = false) body /\ h.1 = true.
Proof.
  destruct (lights_are_put_back (D := @windows_device logged) (λ s, s) 0 (key Legacy true [CK_CapsLock] (UChr 97)) (start (D := @windows_device logged) blank)) as (h & body & E & F & C);
    [reflexivity|vm_compute; reflexivity|].
  exists h, body. split; [exact E|]. split; [exact F|]. destruct C as [C _]. rewrite C. vm_compute. reflexivity.
Defined.

Definition gone (w : world) : world := run (λ s, s) (λ _, None) (drain 9) (step (λ s, s) (λ _, None) w (EExit 9)).
(** What the theorem leaves out, and why: these keys are still down at the end. *)
Lemma function_key_keeps_modifiers :
  key_held Shift (gone (played [EKey 0 (key Legacy true [CK_Shift] (UControlKey (ck_value CK_LockScreen)))])) = true.
Proof. vm_compute. reflexivity. Qed.
Lemma pinch_keeps_control : key_held Control (gone (played [EPointer (Some 5)])) = true.
Proof. vm_compute. reflexivity. Qed.
Lemma shortcut_letter_stays_down :
  key_held (Layout 99) (gone (played [EKey 0 (ctrl true); EKey 1 (key Legacy true [CK_Control] (UChr 99)); EKey 2 (ctrl false);
                                      EKey 3 (key Legacy false [] (UChr 99))])) = true.
Proof. vm_compute. reflexivity. Qed.
(** A letter typed with NumLock lit at the technician's lights it at the register for good. *)
Lemma letter_lights_numlock :
  let w := played [EKey 0 (key Legacy true [CK_NumLock] (UChr 97)); EKey 1 (key Legacy false [] (UChr 97))] in
  get_key_state NumLock (en (start blank)) = false /\ get_key_state NumLock (en w) = true.
Proof. vm_compute. done. Qed.
End Input.
