(* ===== verification/Upload.v ===== *)
(** * Uploading a recording ([src/src/hbbs_http/record_upload.rs])

    A thread follows the file a recorder is writing and sends it to the panel
    piece by piece.  The recorder appends; when it is done it may rewrite the
    header, and the last step sends the first bytes once more.  Each step looks
    at the file anew, first at its length and a moment later at its contents. *)
From Stdlib Require Import String.
From S2P Require Import Prelude.

Module Upload.
Local Open Scope list_scope.
Local Open Scope nat_scope.

Definition MAX_HEADER_LEN : nat := 1024.
Definition SHOULD_SEND_TIME : Z := 1000.
Definition SHOULD_SEND_SIZE : nat := Z.to_nat 1048576.
Abbreviation byte := Z (only parsing).

Inductive request :=
  | New (file : string) | Part (file : string) (offset : nat) (data : list byte) | Tail (file : string) (data : list byte) | Remove (file : string).
(** The panel's answer: none, or one whose body is, or is not, a JSON object; an
    object's fields are its keys with their values as text. *)
Inductive reply := Unsent (err : string) | Replied (body : option (list (string * string))).
(** What a look at the file shows: its length, then its contents. *)
Inductive look := Fails (err : string) | Seen (len : nat) (contents : list byte).
Inductive RecordState := NewFile (filepath : string) | NewFrame | WriteTail | RemoveFile.
(** A turn: the message, the time, the looks at the file; the answers to the
    piece (or to the first request) and to the header. *)
Record turn := mkTurn { msg : RecordState; now : Z; seen : look; header : look; answer : reply; answer_tail : reply }.

Section upload.
(** [PathBuf::file_name], if it is a string. *)
Context (file_name : string -> option string).
Record RecordUploader := mkUploader { filepath : string; filename : string; upload_size : nat; running : bool; last_send : Z }.
Definition set_running b u := mkUploader (filepath u) (filename u) (upload_size u) b (last_send u).
Definition set_sent n t u := mkUploader (filepath u) (filename u) n (running u) t.
(** The uploader and the requests made. *)
Record world := mkWorld { up : RecordUploader; sent : list request }.
Definition set_up u w := mkWorld u (sent w).
Definition json_get (k : string) (m : list (string * string)) : option string := snd <$> List.find (λ e, String.eqb (fst e) k) m.
Definition send (r : request) (a : reply) (w : world) : result unit string * world :=
  (match a with
   | Replied (Some m) => match json_get "error" m with Some e => Err e | None => Ok tt end
   | Replied None => Ok tt
   | Unsent e => Err e
   end, mkWorld (up w) (sent w ++ [r])).
Definition handle_new_file (t : turn) (path : string) (w : world) : result unit string * world :=
  match file_name path with
  | Some f => send (New f) (answer t) (set_up (mkUploader path f 0 true (now t)) w)
  | None => (Err "can't parse filepath"%string, w)
  end.
Definition handle_frame (t : turn) (flush : bool) (w : world) : result unit string * world :=
  let u := up w in
  if negb flush && (now t - last_send u <? SHOULD_SEND_TIME)%Z then (Ok tt, w)
  else match seen t with
       | Fails err => (Err err, w)
       | Seen len contents =>
           if len <=? upload_size u then (Ok tt, w)
           else if negb flush && (len - upload_size u <? SHOULD_SEND_SIZE) then (Ok tt, w)
           else
             let '(a, w) := send (Part (filename u) (upload_size u) (drop (upload_size u) contents)) (answer t) w in
             match a with Ok _ => (Ok tt, set_up (set_sent len (now t) (up w)) w) | Err e => (Err e, w) end
       end.
Definition handle_tail (t : turn) (w : world) : result unit string * world :=
  match handle_frame t true w with
  | (Ok _, w) => match header t with
                 | Fails err => (Err err, w)
                 | Seen _ contents => send (Tail (filename (up w)) (take MAX_HEADER_LEN contents)) (answer_tail t) w
                 end
  | (Err e, w) => (Err e, w)
  end.
Definition handle_remove (t : turn) (w : world) : result unit string * world := send (Remove (filename (up w))) (answer t) w.
Definition when_running (f : world -> result unit string * world) (w : world) : result unit string * world :=
  if running (up w) then f w else (Ok tt, w).
Definition step (t : turn) (w : world) : world :=
  let '(r, w) := match msg t with
                 | NewFile path => handle_new_file t path w
                 | NewFrame => when_running (handle_frame t false) w
                 | WriteTail => when_running (handle_tail t) w
                 | RemoveFile => when_running (handle_remove t) w
                 end in
  match r with Ok _ => w | Err _ => set_up (set_running false (up w)) w end.
Definition run (l : list turn) (w : world) : world := foldl (λ w t, step t w) w l.

(** ** What was sent, put together

    Each piece written where it says it belongs; a new file starts empty. *)
Definition write_at (off : nat) (data copy : list byte) : list byte :=
  take off (copy ++ replicate (off - length copy) 0%Z) ++ data ++ drop (off + length data) copy.
Definition put (copy : list byte) (r : request) : list byte :=
  match r with
  | New _ => []
  | Part _ off data => write_at off data copy
  | Tail _ data => write_at 0 data copy
  | Remove _ => copy
  end.
Definition copy_of (l : list request) : list byte := foldl put [] l.
Definition about (r : request) : string := match r with New f | Part f _ _ | Tail f _ | Remove f => f end.
Definition consents (a : reply) : Prop :=
  match a with Replied (Some m) => json_get "error" m = None | Replied None => True | Unsent _ => False end.

(** ** The recorder *)
(** What the turns saw of the file. *)
Definition looks (l : list turn) : list (list byte) := omap (λ t, match seen t with Seen _ c => Some c | Fails _ => None end) l.
Section recorder.
(** [F]: the finished file; [Cs]: the contents it has had. *)
Context (F : list byte) (Cs : list (list byte)).
(** A look while the recorder works, which the panel consents to: at least as much
    as was there at the last look, whatever has been rewritten in between. *)
Definition grows (before : nat) (t : turn) (after : nat) : Prop :=
  exists len c, msg t = NewFrame /\ seen t = Seen len c /\ before <= len <= length c /\ length c <= length F /\ after = length c /\ consents (answer t).
Inductive recorded : nat -> list turn -> nat -> Prop :=
  | recorded_none n : recorded n [] n
  | recorded_frame n t k l m : grows n t k -> recorded k l m -> recorded n (t :: l) m.
(** The last turn, when the file is finished. *)
Definition finishes (t : turn) : Prop :=
  msg t = WriteTail /\ seen t = Seen (length F) F /\ header t = Seen (length F) F /\ consents (answer t) /\ consents (answer_tail t).

(** Every byte of [c] behind the header is one the file has had in its place. *)
Definition agrees (c : list byte) : Prop :=
  length c <= length F /\ forall i, MAX_HEADER_LEN <= i < length c -> exists c', c' ∈ Cs /\ i < length c' /\ c !! i = c' !! i.
Lemma agrees_seen c : c ∈ Cs -> length c <= length F -> agrees c.
Proof. intros Hc Hl. split; [done|]. intros i Hi. exists c. split_and!; [done|lia|done]. Qed.
(** The pieces sent of the file [f], after the [old] requests. *)
Record inv (f : string) (old : list request) (before : nat) (w : world) : Prop := {
  i_running : running (up w) = true;
  i_name : filename (up w) = f;
  i_sent : exists l, sent w = old ++ l /\ Forall (λ r, about r = f) l /\ upload_size (up w) <= length (copy_of l) <= before /\ agrees (copy_of l) }.
Lemma write_length off data copy : off <= length copy -> length (write_at off data copy) = Nat.max (off + length data) (length copy).
Proof.
  intros H. unfold write_at. replace (off - length copy) with 0 by lia. cbn [replicate]. rewrite app_nil_r.
  rewrite !length_app, length_take, length_drop. lia.
Qed.
Lemma write_lookup off data copy i : off <= length copy ->
  write_at off data copy !! i = if decide (off <= i < off + length data) then data !! (i - off) else copy !! i.
Proof.
  intros H. unfold write_at. replace (off - length copy) with 0 by lia. cbn [replicate]. rewrite app_nil_r.
  assert (L : length (take off copy) = off) by (rewrite length_take; lia).
  destruct (decide (i < off)).
  - rewrite lookup_app_l, lookup_take_lt by lia. destruct (decide _); [lia|done].
  - rewrite lookup_app_r, L by lia. destruct (decide (i - off < length data)).
    + rewrite lookup_app_l by lia. destruct (decide _); [done|lia].
    + rewrite lookup_app_r, lookup_drop by lia. destruct (decide _); [lia|]. f_equal. lia.
Qed.
(** A piece of a file that agrees, put where the copy has got to. *)
Lemma put_agrees f off c copy : off <= length copy -> length copy <= length c -> agrees c -> agrees copy ->
  let copy' := put copy (Part f off (drop off c)) in length copy' = length c /\ agrees copy'.
Proof.
  intros H Hc [A1 A2] [B1 B2]. cbn. assert (L : length (write_at off (drop off c) copy) = length c).
  { rewrite write_length, length_drop by done. lia. }
  split; [done|]. split; [by rewrite L|]. rewrite L. intros i Hi. rewrite write_lookup, length_drop by done. destruct (decide _).
  - rewrite lookup_drop. replace (off + (i - off)) with i by lia. by apply A2.
  - apply B2. lia.
Qed.
Lemma copy_snoc l r : copy_of (l ++ [r]) = put (copy_of l) r.
Proof. unfold copy_of. by rewrite foldl_app. Qed.
Lemma sends r a w : consents a -> send r a w = (Ok tt, mkWorld (up w) (sent w ++ [r])).
Proof. unfold send. destruct a as [|[m|]]; cbn [consents]; intros H; [done| |done]. by rewrite H. Qed.
(** One attempt with the panel's consent. *)
Lemma frame_inv f old t flush before len c w :
  inv f old before w -> seen t = Seen len c -> before <= len <= length c -> agrees c -> consents (answer t) ->
  exists w', handle_frame t flush w = (Ok tt, w') /\ inv f old (length c) w' /\
    (flush = true -> exists l, sent w' = old ++ l /\ len <= length (copy_of l)).
Proof.
  intros [I1 I2 (l & I3 & I4 & I5 & I6)] Hs Hl Hc Ha. unfold handle_frame. rewrite Hs.
  destruct (negb flush && (now t - last_send (up w) <? SHOULD_SEND_TIME)%Z) eqn:E1.
  { exists w. split_and!; [done|split; [done..|exists l; split_and!; [done..|lia|lia|done]]|]. by intros ->. }
  destruct (Nat.leb_spec len (upload_size (up w))) as [E2|E2].
  { exists w. split_and!; [done|split; [done..|exists l; split_and!; [done..|lia|lia|done]]|]. exists l. split; [done|lia]. }
  destruct (negb flush && (len - upload_size (up w) <? SHOULD_SEND_SIZE)) eqn:E3.
  { exists w. split_and!; [done|split; [done..|exists l; split_and!; [done..|lia|lia|done]]|]. by intros ->. }
  rewrite sends by done. eexists. split; [reflexivity|]. cbn [up sent set_up set_sent running filename upload_size].
  destruct (put_agrees (filename (up w)) (upload_size (up w)) c (copy_of l)) as [P1 P2]; [lia|lia|done|done|].
  rewrite <- copy_snoc in P1, P2. split.
  - split; [done..|]. exists (l ++ [Part (filename (up w)) (upload_size (up w)) (drop (upload_size (up w)) c)]).
    cbn [up sent set_up set_sent running filename upload_size]. split_and!.
    + by rewrite I3, app_assoc.
    + apply Forall_app. split; [done|]. by constructor.
    + lia.
    + lia.
    + done.
  - intros _. eexists. split; [rewrite I3, <- app_assoc; reflexivity|]. lia.
Qed.
Lemma step_frame f old n m t w : grows n t m -> incl (looks [t]) Cs -> inv f old n w -> inv f old m (step t w) /\ m <= length F.
Proof.
  intros (len & c & Hm & Hs & Hl & HlF & -> & Ha) Hc I.
  assert (c ∈ Cs) as Hin by (apply list_elem_of_In, Hc; unfold looks; cbn; rewrite Hs; by left).
  destruct (frame_inv f old t false n len c w) as (w' & E & I' & _); [done|done|lia|apply agrees_seen; [done|lia]|done|].
  unfold step, when_running. rewrite Hm, (i_running _ _ _ _ I), E. split; [done|lia].
Qed.
Lemma run_frames f old n l m w : recorded n l m -> incl (looks l) Cs -> n <= length F -> inv f old n w ->
  inv f old m (run l w) /\ m <= length F.
Proof.
  intros H. revert w. induction H as [n|n t k l m Hg H IH]; intros w Hc Hn I; [done|].
  change (t :: l) with ([t] ++ l) in Hc. unfold looks in Hc. rewrite omap_app in Hc. apply incl_app_inv in Hc as [Hc1 Hc2].
  destruct (step_frame f old n k t w Hg Hc1 I) as [I' Hk]. cbn. by apply IH.
Qed.
(** [c] is the finished file, but for bytes that were rewritten behind the header
    after they had been sent. *)
Definition arrived (c : list byte) : Prop :=
  length c = length F /\ take MAX_HEADER_LEN c = take MAX_HEADER_LEN F
  /\ (forall i, MAX_HEADER_LEN <= i < length F -> exists c', c' ∈ Cs /\ i < length c' /\ c !! i = c' !! i)
  /\ ((forall c' i, c' ∈ Cs -> MAX_HEADER_LEN <= i < length c' -> c' !! i = F !! i) -> c = F).
(** The copy is whole once it is long enough and the first bytes are sent again. *)
Lemma header_completes f copy : agrees copy -> length F <= length copy -> arrived (put copy (Tail f (take MAX_HEADER_LEN F))).
Proof.
  intros [A1 A2] Hl. cbn [put]. set (c := write_at 0 _ copy).
  assert (L : length c = length F) by (unfold c; rewrite write_length, length_take by lia; lia).
  assert (E : forall i, c !! i = if decide (i < MAX_HEADER_LEN /\ i < length F) then F !! i else copy !! i).
  { intros i. unfold c. rewrite write_lookup by lia. rewrite length_take, Nat.sub_0_r. cbn [Nat.add].
    destruct (decide (0 <= i < _)); [rewrite lookup_take_lt by lia|]; destruct (decide (i < MAX_HEADER_LEN /\ _)); (done || lia). }
  assert (S : forall i, MAX_HEADER_LEN <= i < length F -> exists c', c' ∈ Cs /\ i < length c' /\ c !! i = c' !! i).
  { intros i Hi. rewrite E. destruct (decide _); [lia|]. apply A2. lia. }
  split_and!; [done| |done|].
  - apply list_eq. intros i. destruct (decide (i < MAX_HEADER_LEN)) as [Hi|Hi]; [|by rewrite !lookup_take_ge by lia].
    rewrite !lookup_take_lt, E by lia. destruct (decide _); [done|]. rewrite !lookup_ge_None_2; [done|lia..].
  - intros H. apply list_eq. intros i. destruct (decide (i < length F)) as [Hi|Hi]; [|rewrite !lookup_ge_None_2; [done|lia..]].
    destruct (decide (i < MAX_HEADER_LEN)) as [Hm|Hm]; [rewrite E; destruct (decide _); [done|lia]|].
    destruct (S i) as (c' & Hc & Hl' & ->); [lia|]. apply H; [done|lia].
Qed.
Lemma step_tail f old n t w : finishes t -> F ∈ Cs -> inv f old n w -> n <= length F ->
  exists l, sent (step t w) = old ++ l /\ Forall (λ r, about r = f) l /\ arrived (copy_of l).
Proof.
  intros (Hm & Hs & Hh & Ha & Hb) HF I Hn.
  destruct (frame_inv f old t true n (length F) F w) as (w' & E & [J1 J2 (l & J3 & J4 & J5 & J6)] & L); [done..|lia|by apply agrees_seen|done|].
  destruct (L eq_refl) as (l' & L1 & L2). rewrite J3 in L1. apply app_inv_head in L1 as <-.
  unfold step, when_running. rewrite Hm, (i_running _ _ _ _ I). unfold handle_tail. rewrite E, Hh, sends by done. cbn [sent].
  exists (l ++ [Tail (filename (up w')) (take MAX_HEADER_LEN F)]). split_and!.
  - by rewrite J3, app_assoc.
  - apply Forall_app. split; [done|]. by constructor.
  - rewrite copy_snoc. by apply header_completes.
Qed.
End recorder.

(** C39: whatever came before, once a recording begins, the panel consents to each
    request and every look at the file succeeds, the requests made for it put
    together are as long as the finished file and begin with its first 1024 bytes,
    as they were at the end; every other byte is the one the file had at that
    place at one of the looks at it.  So they are the finished file if behind its
    first 1024 bytes nothing is rewritten once it has been seen, which is what
    [MAX_HEADER_LEN] counts on ([rewritten_byte_stays]): however the file grew
    between a look at its length and the reading of it, whichever frames were
    skipped as too soon or too little, and though the header was rewritten. *)
Theorem recording_arrives F path f t ls m tz w :
  msg t = NewFile path -> file_name path = Some f -> consents (answer t) -> recorded F 0 ls m -> finishes F tz ->
  exists l, sent (run (t :: ls ++ [tz]) w) = sent w ++ l /\ Forall (λ r, about r = f) l /\ arrived F (looks (ls ++ [tz])) (copy_of l).
Proof.
  intros Hm Hf Ha Hr Hz. cbn [run foldl]. rewrite foldl_app. cbn [foldl].
  set (w0 := step t w). set (Cs := looks (ls ++ [tz])). assert (I : inv F Cs f (sent w) 0 w0).
  { subst w0. unfold step. rewrite Hm. unfold handle_new_file. rewrite Hf, sends by done. cbn [sent up set_up].
    split; [done..|]. exists [New f]. cbn. split_and!; [done|by constructor|lia|lia|]. split; [cbn; lia|]. intros i; cbn; lia. }
  assert (E : Cs = looks ls ++ [F]).
  { unfold Cs, looks. rewrite omap_app. cbn. destruct Hz as (_ & -> & _). done. }
  destruct (run_frames F Cs f (sent w) 0 ls m w0 Hr) as [I' Hn]; [rewrite E; by apply incl_appl, incl_refl|apply Nat.le_0_l|done|].
  eapply step_tail; [done| |done|done]. rewrite E. apply elem_of_app. right. by apply list_elem_of_singleton.
Qed.
(** After a refusal nothing more is sent until the next recording. *)
Lemma refusal_ends_it t w : running (up w) = false -> (forall path, msg t <> NewFile path) -> step t w = w.
Proof. intros H Hn. unfold step, when_running. rewrite H. destruct (msg t) as [path| | |]; [by destruct (Hn path)|done..]. Qed.
(** Only what is written as a JSON object with an error is a refusal. *)
Lemma refused_is_json r a w : (send r a w).1 <> Ok tt ->
  (exists e, a = Unsent e) \/ exists m e, a = Replied (Some m) /\ json_get "error" m = Some e.
Proof. destruct a as [e|[m|]]; cbn; [eauto| |done]. destruct (json_get "error" m) eqn:E; [eauto|done]. Qed.
(** An answer that is no JSON object counts as consent, whatever its status: a
    piece the panel refused so is taken for delivered, and never sent again. *)
Lemma refused_piece_is_lost t w len c :
  running (up w) = true -> msg t = NewFrame -> answer t = Replied None -> seen t = Seen len c ->
  (SHOULD_SEND_TIME <= now t - last_send (up w))%Z -> SHOULD_SEND_SIZE <= len - upload_size (up w) ->
  running (up (step t w)) = true /\ upload_size (up (step t w)) = len.
Proof.
  intros Hr Hm Ha Hs Ht Hl. assert (0 < SHOULD_SEND_SIZE) by (unfold SHOULD_SEND_SIZE; lia).
  unfold step, when_running. rewrite Hm, Hr. unfold handle_frame. rewrite Hs, Ha. cbn [negb andb].
  rewrite (proj2 (Z.ltb_ge _ _)) by done. rewrite (proj2 (Nat.leb_gt _ _)) by lia. rewrite (proj2 (Nat.ltb_ge _ _)) by done. by rewrite sends.
Qed.
End upload.

Definition byte_at (i : nat) : byte := (Z.of_nat i mod 251)%Z.
Definition long_file : list byte := map byte_at (seq 0 1500).
Definition base (p : string) : option string := match String.eqb p EmptyString with true => None | false => Some "r.webm"%string end.
Definition ok : reply := Replied None.
Definition begun : turn := mkTurn (NewFile "/tmp/r.webm") 0 (Fails "") (Fails "") ok ok.
Definition frame_at (t : Z) (len : nat) : turn := mkTurn NewFrame t (Seen len (replicate 1024 0%Z ++ drop 1024 long_file)) (Fails "") ok ok.
Definition ended : turn := mkTurn WriteTail 3000 (Seen 1500 long_file) (Seen 1500 long_file) ok ok.
Definition idle : world := mkWorld (mkUploader "" "" 0 false 0) [].
Lemma recording_arrives_witness : exists l, sent (run base (begun :: [frame_at 1500 1100; frame_at 1600 1500] ++ [ended]) idle) = sent idle ++ l
  /\ Forall (λ r, about r = "r.webm"%string) l /\ arrived long_file (looks ([frame_at 1500 1100; frame_at 1600 1500] ++ [ended])) (copy_of l).
Proof.
  apply (recording_arrives base long_file "/tmp/r.webm" "r.webm" begun [frame_at 1500 1100; frame_at 1600 1500] 1500 ended idle); [done..| |done].
  apply recorded_frame with 1500.
  - exists 1100, (replicate 1024 0%Z ++ drop 1024 long_file). split_and!; [done|done|lia|vm_compute; lia|vm_compute; lia|done|done].
  - apply recorded_frame with 1500; [|constructor].
    exists 1500, (replicate 1024 0%Z ++ drop 1024 long_file). split_and!; [done|done|lia|vm_compute; lia|vm_compute; lia|done|done].
Defined.
(** A byte behind the header that is rewritten after it was sent stays as it was. *)
Example rewritten_byte_stays :
  let big := replicate (Z.to_nat 1048577) 0%Z in
  let frame := mkTurn NewFrame 1500 (Seen (Z.to_nat 1048577) big) (Fails "") ok ok in
  let final := <[2000%nat := 1%Z]> big in
  let l := sent (run base [begun; frame; mkTurn WriteTail 3000 (Seen (Z.to_nat 1048577) final) (Seen (Z.to_nat 1048577) final) ok ok] idle) in
  copy_of l !! 2000%nat = Some 0%Z.
Proof. vm_compute. reflexivity. Qed.
End Upload.
