(* ===== verification/Privacy.v ===== *)
(** * Privacy mode of a register ([src/src/privacy_mode.rs] and what is under it)

    At most one technician may hide the screen of a register and lock its
    keyboard and mouse.  Two implementations do it on Windows: one covers the
    screen with a window, the other moves everything to a virtual display and
    switches the physical ones off.  Both lock the input with a thread that
    holds the hooks. *)
From Stdlib Require Import String.
From S2P Require Import Prelude RustStr.

Module Privacy.
Local Open Scope list_scope.
Local Open Scope Z_scope.

Definition INVALID_PRIVACY_MODE_CONN_ID : Z := 0.
Definition OCCUPIED : string := "Privacy occupied by another one.".
Definition TURN_OFF_OTHER_ID : string := "Failed to turn off privacy mode that belongs to someone else.".
Definition NO_PHYSICAL_DISPLAYS : string := "no_need_privacy_mode_no_physical_displays_tip".
Definition PRIVACY_MODE_IMPL_WIN_MAG : string := "privacy_mode_impl_mag".
Definition PRIVACY_MODE_IMPL_WIN_EXCLUDE_FROM_CAPTURE : string := "privacy_mode_impl_exclude_from_capture".
Definition PRIVACY_MODE_IMPL_WIN_VIRTUAL_DISPLAY : string := "privacy_mode_impl_virtual_display".
Inductive PrivacyModeState := OffSucceeded | OffByPeer | OffUnknown.

(** The thread that holds the hooks: it leaves some time after it is asked to. *)
Inductive hook_thread := NoThread | Hooked | Leaving.
(** What the register shows and lets in; what was told to the connections. *)
Record screen := mkScreen {
  thread : hook_thread; window_shown : bool; physical_off : bool; reg_recovery : string;
  told : list (Z * PrivacyModeState * string) }.
Definition set_thread v s := mkScreen v (window_shown s) (physical_off s) (reg_recovery s) (told s).
Definition set_window v s := mkScreen (thread s) v (physical_off s) (reg_recovery s) (told s).
Definition set_physical_off v s := mkScreen (thread s) (window_shown s) v (reg_recovery s) (told s).
Definition set_recovery v s := mkScreen (thread s) (window_shown s) (physical_off s) v (told s).
Definition set_told v s := mkScreen (thread s) (window_shown s) (physical_off s) (reg_recovery s) v.

(** The answers of the system during one call; [None] where nothing fails. *)
Record os := mkOs {
  self_service_running : bool; impl_option : string;
  leaves_meanwhile : bool;                  (** the old hooks' thread is gone when new hooks are asked for *)
  hook_fails : option string; post_fails : option string;
  dll_exists : option bool;                 (** [None]: the program has no folder *)
  window_found : bool; launch_fails : option string; window_started : bool; window_now : bool;
  idd_supported : bool; amyuni : bool;
  first_look : nat * nat; second_look : nat * nat; last_look : nat * nat;  (** displays, virtual ones *)
  plug_in : result (list Z) string; plug_out_fails : option string;
  primary_fails : option string; disable_fails : option string; commit_fails : option string;
  restore_fails : option string;
  reg_before : result string string; reg_after : result string string;
  diff_recent_connectivity : string -> string -> option string;
  timed_out : bool; capturer_err : string }.

(** ** The hooks ([win_input.rs]) *)
Definition thread_exits (s : screen) : screen := match thread s with Leaving => set_thread NoThread s | _ => s end.
Definition hook (e : os) (s : screen) : result unit string * screen :=
  let s := if leaves_meanwhile e then thread_exits s else s in
  match thread s with
  | NoThread => match hook_fails e with Some err => (Err err, s) | None => (Ok tt, set_thread Hooked s) end
  | Hooked | Leaving => (Err "Already hooked"%string, s)
  end.
Definition unhook (e : os) (s : screen) : result unit string * screen :=
  match thread s with
  | NoThread => (Ok tt, s)
  | Hooked | Leaving => match post_fails e with Some err => (Err err, s) | None => (Ok tt, set_thread Leaving s) end
  end.

Inductive key_message := WM_KEYDOWN | WM_KEYUP | WM_SYSKEYDOWN | WM_SYSKEYUP.
Inductive verdict := Swallowed | Passed (turn_off : bool).
Definition privacy_mode_hook_keyboard (simulated alt_down ctrl_down : bool) (m : key_message) (vk : Z) : verdict :=
  if simulated then Passed false
  else if alt_down then Swallowed
  else match m with
       | WM_KEYDOWN =>
           if negb (existsb (Z.eqb vk) [80; 162; 163]) then Swallowed
           else Passed (ctrl_down && ((vk mod 256 =? 112) || (vk mod 256 =? 80)))
       | _ => Passed false
       end.
Definition privacy_mode_hook_mouse (simulated : bool) : verdict := if simulated then Passed false else Swallowed.

(** ** What every implementation offers *)
Class PrivacyMode (M : Type) := {
  is_async_privacy_mode : os -> M -> bool;
  pre_conn_id : M -> Z;
  get_impl_key : M -> string;
  turn_on_privacy : os -> Z -> M -> screen -> result bool string * (M * screen);
  turn_off_privacy : os -> Z -> option PrivacyModeState -> M -> screen -> result unit string * (M * screen) }.
Definition check_on (pre conn_id : Z) : result bool string :=
  if pre =? conn_id then Ok true else if negb (pre =? INVALID_PRIVACY_MODE_CONN_ID) then Err OCCUPIED else Ok false.
Definition check_off (pre conn_id : Z) : result unit string :=
  if negb (pre =? INVALID_PRIVACY_MODE_CONN_ID) && negb (conn_id =? INVALID_PRIVACY_MODE_CONN_ID) && negb (pre =? conn_id)
  then Err TURN_OFF_OTHER_ID else Ok tt.
Definition check_on_conn_id `{PrivacyMode M} (m : M) (conn_id : Z) : result bool string := check_on (pre_conn_id m) conn_id.
(** [Drop] of the implementations; [clear] leaves the object in place. *)
Definition clear `{PrivacyMode M} (e : os) (m : M) (s : screen) : M * screen := (turn_off_privacy e (pre_conn_id m) None m s).2.
Definition drop_mode `{PrivacyMode M} (e : os) (m : M) (s : screen) : screen :=
  if negb (pre_conn_id m =? INVALID_PRIVACY_MODE_CONN_ID) then (turn_off_privacy e (pre_conn_id m) None m s).2.2 else s.

(** ** A window over everything ([win_topmost_window.rs]) *)
Record topmost := mkTopmost { t_key : string; t_conn : Z; t_started : bool }.
Definition set_t_conn c t := mkTopmost (t_key t) c (t_started t).
Definition set_started t := mkTopmost (t_key t) (t_conn t) true.
Definition start (e : os) (t : topmost) : result unit string * topmost :=
  if t_started t then (Ok tt, t)
  else match dll_exists e with
       | None => (Err "Cannot get parent of current exe file"%string, t)
       | Some false => (Err "Failed to find required file"%string, t)
       | Some true =>
           if window_found e then (Ok tt, t)
           else match launch_fails e with
                | Some err => (Err err, t)
                | None => if window_started e then (Ok tt, set_started t) else (Err "Failed to get hwnd after started"%string, set_started t)
                end
       end.
Definition show_window (e : os) (conn_id : Z) (t : topmost) (s : screen) : result bool string * (topmost * screen) :=
  if negb (window_now e) then (Err "No privacy window created"%string, (t, s))
  else match hook e s with
       | (Err err, s) => (Err err, (t, s))
       | (Ok _, s) => (Ok true, (set_t_conn conn_id t, set_window true s))
       end.
Definition topmost_turn_on (e : os) (conn_id : Z) (t : topmost) (s : screen) : result bool string * (topmost * screen) :=
  match check_on (t_conn t) conn_id with
  | Err err => (Err err, (t, s))
  | Ok true => (Ok true, (t, s))
  | Ok false =>
      match dll_exists e with
      | None => (Err "Invalid exe parent"%string, (t, s))
      | Some false => (Ok false, (t, s))
      | Some true =>
          match (if t_started t then (Ok tt, t) else start e t) with
          | (Err err, t) => (Err err, (t, s))
          | (Ok _, t) => show_window e conn_id t s
          end
      end
  end.
(** The owner is told, if there is one, and there is none any more. *)
Definition tell (pre conn_id : Z) (st : option PrivacyModeState) (key : string) (s : screen) : screen :=
  match st with
  | Some st => if negb (pre =? INVALID_PRIVACY_MODE_CONN_ID) then set_told (told s ++ [(conn_id, st, key)]) s else s
  | None => s
  end.
Definition topmost_turn_off (e : os) (conn_id : Z) (st : option PrivacyModeState) (t : topmost) (s : screen) : result unit string * (topmost * screen) :=
  match check_off (t_conn t) conn_id with
  | Err err => (Err err, (t, s))
  | Ok _ =>
      match unhook e s with
      | (Err err, s) => (Err err, (t, s))
      | (Ok _, s) => (Ok tt, (set_t_conn INVALID_PRIVACY_MODE_CONN_ID t, tell (t_conn t) conn_id st PRIVACY_MODE_IMPL_WIN_MAG (set_window false s)))
      end
  end.
#[export] Instance topmost_mode : PrivacyMode topmost := {
  is_async_privacy_mode _ _ := false; pre_conn_id := t_conn; get_impl_key := t_key;
  turn_on_privacy := topmost_turn_on; turn_off_privacy := topmost_turn_off }.

(** ** A display that is not there ([win_virtual_display.rs]) *)
Record virtual := mkVirtual { v_key : string; v_conn : Z; displays : nat; virtual_displays : nat; virtual_displays_added : list Z }.
Definition set_v_conn c v := mkVirtual (v_key v) c (displays v) (virtual_displays v) (virtual_displays_added v).
Definition set_displays (look : nat * nat) v := mkVirtual (v_key v) (v_conn v) look.1 look.2 (virtual_displays_added v).
Definition set_added l v := mkVirtual (v_key v) (v_conn v) (displays v) (virtual_displays v) l.
Definition ensure_virtual_display (e : os) (is_async_mode : bool) (v : virtual) : result unit string * virtual :=
  match virtual_displays v with
  | S _ => (Ok tt, v)
  | O =>
      match plug_in e with
      | Err err => (Err err, v)
      | Ok l =>
          let v := set_displays (second_look e) v in
          match displays v with
          | O => (Err (match plug_out_fails e with Some err => err | None => NO_PHYSICAL_DISPLAYS end), v)
          | S _ =>
              let v := if is_async_mode && Nat.eqb (virtual_displays v) 0 then set_displays (last_look e) v else v in
              (Ok tt, set_added (virtual_displays_added v ++ l) v)
          end
      end
  end.
Definition restore (e : os) (v : virtual) (s : screen) : virtual * screen :=
  (mkVirtual (v_key v) (v_conn v) 0 0 [], match restore_fails e with None => set_physical_off false s | Some _ => s end).
Definition restore_reg_connectivity (s : screen) : screen := if is_empty (reg_recovery s) then s else set_recovery "" s.
Definition virtual_turn_off (e : os) (conn_id : Z) (st : option PrivacyModeState) (v : virtual) (s : screen) : result unit string * (virtual * screen) :=
  match check_off (v_conn v) conn_id with
  | Err err => (Err err, (v, s))
  | Ok _ =>
      match unhook e s with
      | (Err err, s) => (Err err, (v, s))
      | (Ok _, s) =>
          let '(v', s) := restore e v s in
          (Ok tt, (set_v_conn INVALID_PRIVACY_MODE_CONN_ID v', tell (v_conn v) conn_id st PRIVACY_MODE_IMPL_WIN_VIRTUAL_DISPLAY (restore_reg_connectivity s)))
      end
  end.
(** What is done under the guard. *)
Definition rearrange (e : os) (v : virtual) (s : screen) : result unit string * (virtual * screen) :=
  match ensure_virtual_display e (amyuni e) v with
  | (Err err, v) => (Err err, (v, s))
  | (Ok _, v) =>
      match virtual_displays v with
      | O => (Err "No virtual displays."%string, (v, s))
      | S _ =>
          match reg_before e, primary_fails e, disable_fails e, commit_fails e with
          | Err err, _, _, _ => (Err err, (v, s))
          | Ok _, Some err, _, _ => (Err err, (v, s))
          | Ok _, None, Some err, _ => (Err err, (v, s))
          | Ok _, None, None, Some err => (Err err, (v, s))
          | Ok before, None, None, None =>
              let s := set_physical_off true s in
              match reg_after e with
              | Err err => (Err err, (v, s))
              | Ok after => (Ok tt, (v, set_recovery (match diff_recent_connectivity e before after with Some r => r | None => "" end) s))
              end
          end
      end
  end.
Definition virtual_turn_on (e : os) (conn_id : Z) (v : virtual) (s : screen) : result bool string * (virtual * screen) :=
  if negb (idd_supported e) then (Err "idd_not_support_under_win10_2004_tip"%string, (v, s))
  else match check_on (v_conn v) conn_id with
       | Err err => (Err err, (v, s))
       | Ok true => (Ok true, (v, s))
       | Ok false =>
           let v := set_displays (first_look e) v in
           match displays v with
           | O => (Err NO_PHYSICAL_DISPLAYS, (v, s))
           | S _ =>
               match rearrange e v s with
               | (Err err, (v, s)) => (Err err, (virtual_turn_off e INVALID_PRIVACY_MODE_CONN_ID None v s).2)
               | (Ok _, (v, s)) => (Ok true, (set_v_conn conn_id v, (hook e s).2))
               end
           end
       end.
#[export] Instance virtual_mode : PrivacyMode virtual := {
  is_async_privacy_mode e _ := amyuni e; pre_conn_id := v_conn; get_impl_key := v_key;
  turn_on_privacy := virtual_turn_on; turn_off_privacy := virtual_turn_off }.

(** ** The one in use ([privacy_mode.rs]) *)
Inductive mode := Topmost (t : topmost) | Virtual (v : virtual).
Definition lift {A B} (f : A -> mode) (x : B * (A * screen)) : B * (mode * screen) := (x.1, (f x.2.1, x.2.2)).
#[export] Instance dyn_mode : PrivacyMode mode := {
  is_async_privacy_mode e m := match m with Topmost t => is_async_privacy_mode e t | Virtual v => is_async_privacy_mode e v end;
  pre_conn_id m := match m with Topmost t => pre_conn_id t | Virtual v => pre_conn_id v end;
  get_impl_key m := match m with Topmost t => get_impl_key t | Virtual v => get_impl_key v end;
  turn_on_privacy e c m s := match m with Topmost t => lift Topmost (turn_on_privacy e c t s) | Virtual v => lift Virtual (turn_on_privacy e c v s) end;
  turn_off_privacy e c st m s := match m with Topmost t => lift Topmost (turn_off_privacy e c st t s) | Virtual v => lift Virtual (turn_off_privacy e c st v s) end }.

Section privacy.
(** The system: can it exclude a window from captures, magnify, is the program installed? *)
Context (exclude_supported mag_supported installed : bool).
Definition DEFAULT_PRIVACY_MODE_IMPL : string :=
  if exclude_supported then PRIVACY_MODE_IMPL_WIN_EXCLUDE_FROM_CAPTURE
  else if mag_supported then PRIVACY_MODE_IMPL_WIN_MAG
  else if installed then PRIVACY_MODE_IMPL_WIN_VIRTUAL_DISPLAY else "".
Definition is_privacy_mode_supported : bool := negb (is_empty DEFAULT_PRIVACY_MODE_IMPL).
Definition creator (key : string) : option mode :=
  if String.eqb key (if exclude_supported then PRIVACY_MODE_IMPL_WIN_EXCLUDE_FROM_CAPTURE else PRIVACY_MODE_IMPL_WIN_MAG)
  then Some (Topmost (mkTopmost key INVALID_PRIVACY_MODE_CONN_ID false))
  else if String.eqb key PRIVACY_MODE_IMPL_WIN_VIRTUAL_DISPLAY then Some (Virtual (mkVirtual key INVALID_PRIVACY_MODE_CONN_ID 0 0 []))
  else None.
Definition get_supported_privacy_mode_impl (e : os) : list string :=
  (if exclude_supported then [PRIVACY_MODE_IMPL_WIN_EXCLUDE_FROM_CAPTURE] else if mag_supported then [PRIVACY_MODE_IMPL_WIN_MAG] else [])
  ++ (if installed && self_service_running e then [PRIVACY_MODE_IMPL_WIN_VIRTUAL_DISPLAY] else []).
Definition supports (e : os) (key : string) : bool := existsb (String.eqb key) (get_supported_privacy_mode_impl e).
Definition get_supported_impl (e : os) (impl_key : string) : string :=
  if supports e impl_key then impl_key
  else if supports e (impl_option e) then impl_option e else DEFAULT_PRIVACY_MODE_IMPL.

Record world := mkWorld { current : option mode; scr : screen }.
(** The first use of [PRIVACY_MODE]. *)
Definition init_mode (e : os) : option mode := creator (if supports e (impl_option e) then impl_option e else DEFAULT_PRIVACY_MODE_IMPL).
Definition get_privacy_mode_conn_id (w : world) : option Z := pre_conn_id <$> current w.
Definition is_in_privacy_mode (w : world) : bool :=
  match get_privacy_mode_conn_id w with Some c => negb (c =? INVALID_PRIVACY_MODE_CONN_ID) | None => false end.
Definition get_cur_impl_key (w : world) : option string := get_impl_key <$> current w.
Definition is_current_privacy_mode_impl (key : string) (w : world) : bool :=
  match get_cur_impl_key w with Some k => String.eqb k key | None => false end.
(** Another object takes the place: the old one is dropped. *)
Definition replace (e : os) (m : mode) (w : world) : world :=
  mkWorld (Some m) (match current w with Some old => drop_mode e old (scr w) | None => scr w end).
Definition switch (e : os) (impl_key : string) (w : world) : world :=
  if is_current_privacy_mode_impl impl_key w then w
  else match creator impl_key with Some m => replace e m w | None => w end.
Definition cleared (e : os) (w : world) : world :=
  match current w with Some m => let x := clear e m (scr w) in mkWorld (Some x.1) x.2 | None => w end.
Definition turn_on_current (e : os) (conn_id : Z) (w : world) : option (result bool string) * world :=
  match current w with
  | Some m => let '(r, (m, s)) := turn_on_privacy e conn_id m (scr w) in (Some r, mkWorld (Some m) s)
  | None => (None, w)
  end.
Definition ensure_impl (e : os) (key : string) (w : world) : option world :=
  if is_current_privacy_mode_impl key w || (bool_decide (current w = None) && is_empty key) then Some w
  else match creator key with Some m => Some (replace e m (cleared e w)) | None => None end.
Definition turn_on_privacy_sync (e : os) (impl_key : string) (conn_id : Z) (w : world) : option (result bool string) * world :=
  let impl_key := get_supported_impl e impl_key in
  let go :=
    match ensure_impl e impl_key w with
    | Some w => turn_on_current e conn_id w
    | None => (Some (Err ("Unsupported privacy mode: " +:+ impl_key)), w)
    end in
  match current w with
  | Some m =>
      match check_on_conn_id m conn_id with
      | Err err => (Some (Err err), w)
      | Ok true => if String.eqb (get_impl_key m) impl_key then (Some (Ok true), w) else go
      | Ok false => go
      end
  | None => go
  end.
(** The answer of a thread that takes too long is not waited for; what it does stands. *)
Definition turn_on (e : os) (impl_key : string) (conn_id : Z) (w : world) : option (result bool string) * world :=
  let async := match current w with Some m => is_async_privacy_mode e m | None => false end in
  let '(r, w) := turn_on_privacy_sync e impl_key conn_id w in
  (if async && timed_out e then Some (Err "deadline has elapsed"%string) else r, w).
Definition turn_off (e : os) (conn_id : Z) (st : option PrivacyModeState) (w : world) : option (result unit string) * world :=
  match current w with
  | Some m => let '(r, (m, s)) := turn_off_privacy e conn_id st m (scr w) in (Some r, mkWorld (Some m) s)
  | None => (None, w)
  end.
Definition check_privacy_mode_err (e : os) (w : world) : string :=
  if is_current_privacy_mode_impl PRIVACY_MODE_IMPL_WIN_MAG w then capturer_err e else "".

(** ** What a connection does with it ([server/connection.rs]) *)
Inductive notice := PrvNotSupported | PrvOffSucceeded | PrvOnSucceeded | PrvOnFailed (details : string) | PrvOnFailedPlugin | PrvOffFailed (details : string).
Definition turn_off_privacy_to_msg (e : os) (conn_id : Z) (w : world) : notice * world :=
  let '(r, w) := turn_off e conn_id None w in
  (match r with Some (Ok _) => PrvOffSucceeded | Some (Err err) => PrvOffFailed err | None => PrvOffFailed "Not supported" end, w).
Definition handle_turn_on (e : os) (impl_key : string) (conn_id : Z) (w : world) : list notice * world :=
  if negb is_privacy_mode_supported then ([PrvNotSupported], w)
  else
    let before := match is_in_privacy_mode w, get_cur_impl_key w with
                  | true, Some pre => if negb (is_current_privacy_mode_impl pre w) then [PrvOffSucceeded] else []
                  | _, _ => []
                  end in
    let '(r, w) := turn_on e impl_key conn_id w in
    let '(m, w) := match r with
                   | Some (Ok true) =>
                       if is_empty (check_privacy_mode_err e w) then (PrvOnSucceeded, w)
                       else (PrvOnFailed (check_privacy_mode_err e w), (turn_off_privacy_to_msg e conn_id w).2)
                   | Some (Ok false) => (PrvOnFailedPlugin, w)
                   | Some (Err err) =>
                       (PrvOnFailed err, if is_in_privacy_mode w then (turn_off_privacy_to_msg e INVALID_PRIVACY_MODE_CONN_ID w).2 else w)
                   | None => (PrvOffFailed "Not supported", w)
                   end in
    (before ++ [m], w).
Definition handle_turn_off (e : os) (conn_id : Z) (w : world) : list notice * world :=
  if negb is_privacy_mode_supported then ([PrvNotSupported], w)
  else let '(m, w) := turn_off_privacy_to_msg e conn_id w in ([m], w).
Definition connection_ends (e : os) (conn_id : Z) (w : world) : world :=
  match get_privacy_mode_conn_id w with
  | Some c => if c =? conn_id then (turn_off_privacy_to_msg e conn_id w).2 else w
  | None => w
  end.
(** What becomes of a key or a movement of the mouse: the hooks are in place until
    their thread is gone, also while it is leaving. *)
Definition key_at (s : screen) (simulated alt ctrl : bool) (m : key_message) (vk : Z) : verdict :=
  match thread s with
  | NoThread => Passed false
  | Hooked | Leaving => privacy_mode_hook_keyboard simulated alt ctrl m vk
  end.
Definition mouse_at (s : screen) (simulated : bool) : verdict :=
  match thread s with NoThread => Passed false | Hooked | Leaving => privacy_mode_hook_mouse simulated end.
(** A key of the register's own keyboard. *)
Definition local_key (e : os) (alt ctrl : bool) (m : key_message) (vk : Z) (w : world) : world :=
  match key_at (scr w) false alt ctrl m vk with
  | Passed true => (turn_off e INVALID_PRIVACY_MODE_CONN_ID (Some OffByPeer) w).2
  | _ => w
  end.
Inductive event :=
  | TurnOn (impl_key : string) (conn_id : Z) | TurnOff (conn_id : Z) | ConnectionEnds (conn_id : Z)
  | OptionsChange (impl_key : string) | LocalKey (alt ctrl : bool) (m : key_message) (vk : Z)
  | ProgramCloses | MonitorsReset | ThreadExits.
Definition step (x : os * event) (w : world) : world :=
  let '(e, ev) := x in
  match ev with
  | TurnOn key c => (handle_turn_on e key c w).2
  | TurnOff c => (handle_turn_off e c w).2
  | ConnectionEnds c => connection_ends e c w
  | OptionsChange key => switch e key w
  | LocalKey alt ctrl m vk => local_key e alt ctrl m vk w
  | ProgramCloses => (turn_off e INVALID_PRIVACY_MODE_CONN_ID (Some OffByPeer) w).2
  | MonitorsReset => (turn_off e INVALID_PRIVACY_MODE_CONN_ID None w).2
  | ThreadExits => mkWorld (current w) (thread_exits (scr w))
  end.
Definition run (l : list (os * event)) (w : world) : world := foldl (λ w x, step x w) w l.

(** ** What an implementation promises

    The system does what it is asked to when privacy mode ends. *)
Definition obeys (e : os) : Prop := post_fails e = None /\ restore_fails e = None.
(** Nothing is hidden, and the hooks are gone or their thread has been told to go. *)
Definition quiet (s : screen) : Prop := thread s <> Hooked /\ window_shown s = false /\ physical_off s = false.
Class PrivacyModeLaws M `{PrivacyMode M} := {
  (** what the object may have done to the screen *)
  holds : M -> screen -> Prop;
  holds_idle m s : pre_conn_id m = INVALID_PRIVACY_MODE_CONN_ID -> holds m s -> quiet s;
  idle_holds m s : quiet s -> holds m s;
  exit_holds m s : holds m s -> holds m (thread_exits s);
  on_busy e c m s : pre_conn_id m <> INVALID_PRIVACY_MODE_CONN_ID -> (turn_on_privacy e c m s).2 = (m, s);
  on_free e c m s : obeys e -> pre_conn_id m = INVALID_PRIVACY_MODE_CONN_ID -> quiet s ->
    let '(r, (m', s')) := turn_on_privacy e c m s in
    holds m' s' /\ (pre_conn_id m' = INVALID_PRIVACY_MODE_CONN_ID \/ pre_conn_id m' = c) /\ (r = Ok true -> pre_conn_id m' = c);
  off_own e c st m s : obeys e -> check_off (pre_conn_id m) c = Ok tt -> holds m s ->
    let '(r, (m', s')) := turn_off_privacy e c st m s in r = Ok tt /\ pre_conn_id m' = INVALID_PRIVACY_MODE_CONN_ID /\ quiet s';
  off_other e c st m s err : check_off (pre_conn_id m) c = Err err -> turn_off_privacy e c st m s = (Err err, (m, s)) }.

Lemma check_on_busy pre c : pre <> INVALID_PRIVACY_MODE_CONN_ID -> check_on pre c <> Ok false.
Proof. unfold check_on. intros H. destruct (Z.eqb_spec pre c); [done|]. by destruct (Z.eqb_spec pre INVALID_PRIVACY_MODE_CONN_ID). Qed.
Lemma check_on_free c : check_on INVALID_PRIVACY_MODE_CONN_ID c = Ok (INVALID_PRIVACY_MODE_CONN_ID =? c).
Proof. unfold check_on. by destruct (_ =? c). Qed.
Lemma check_off_all pre : check_off pre INVALID_PRIVACY_MODE_CONN_ID = Ok tt.
Proof. unfold check_off. by destruct (pre =? _). Qed.
Lemma check_off_own pre : check_off pre pre = Ok tt.
Proof. unfold check_off. rewrite Z.eqb_refl. by destruct (pre =? _). Qed.
Lemma check_off_free c : check_off INVALID_PRIVACY_MODE_CONN_ID c = Ok tt.
Proof. done. Qed.
(** The hooks go when they are asked to. *)
Lemma unhook_obeyed e s : obeys e -> exists h, unhook e s = (Ok tt, set_thread h s) /\ h <> Hooked.
Proof.
  intros [H _]. unfold unhook. rewrite H. destruct s as [[] ? ? ? ?]; [by exists NoThread|by exists Leaving|by exists Leaving].
Qed.
Lemma hook_effect e s : exists h, (hook e s).2 = set_thread h s /\ ((hook e s).1 = Ok tt \/ h <> Hooked \/ h = thread s).
Proof.
  unfold hook, thread_exits. destruct s as [[] w p r t], (leaves_meanwhile e), (hook_fails e); cbn; eexists; (split; [reflexivity|]); auto.
Qed.
Lemma tell_screen pre c st key s : thread (tell pre c st key s) = thread s /\ window_shown (tell pre c st key s) = window_shown s
  /\ physical_off (tell pre c st key s) = physical_off s.
Proof. unfold tell. destruct st; [|done]. by destruct (negb _). Qed.
Lemma recovery_screen s : thread (restore_reg_connectivity s) = thread s /\ window_shown (restore_reg_connectivity s) = window_shown s
  /\ physical_off (restore_reg_connectivity s) = physical_off s.
Proof. unfold restore_reg_connectivity. by destruct (is_empty _). Qed.
Lemma exit_hooked s : thread (thread_exits s) = Hooked -> thread s = Hooked.
Proof. unfold thread_exits. by destruct s as [[] ? ? ? ?]. Qed.
Lemma exit_screen s : window_shown (thread_exits s) = window_shown s /\ physical_off (thread_exits s) = physical_off s.
Proof. unfold thread_exits. by destruct s as [[] ? ? ? ?]. Qed.

Definition topmost_holds (t : topmost) (s : screen) : Prop :=
  physical_off s = false /\ (t_conn t = INVALID_PRIVACY_MODE_CONN_ID -> thread s <> Hooked /\ window_shown s = false).
Lemma started_conn e t : t_conn (start e t).2 = t_conn t.
Proof.
  unfold start. destruct (t_started t); [done|]. destruct (dll_exists e) as [[]|]; [|done..].
  destruct (window_found e); [done|]. destruct (launch_fails e); [done|]. by destruct (window_started e).
Qed.
Lemma topmost_idle t s : quiet s -> topmost_holds t s.
Proof. intros (H1 & H2 & H3). by split. Qed.
Lemma show_window_on e c t s : t_conn t = INVALID_PRIVACY_MODE_CONN_ID -> c <> INVALID_PRIVACY_MODE_CONN_ID -> quiet s ->
  let '(r, (t', s')) := show_window e c t s in
  topmost_holds t' s' /\ (t_conn t' = INVALID_PRIVACY_MODE_CONN_ID \/ t_conn t' = c) /\ (r = Ok true -> t_conn t' = c).
Proof.
  intros Ht Hc Q. unfold show_window. destruct (window_now e); cbn [negb]; [|by split_and!; [apply topmost_idle|left|]].
  destruct (hook_effect e s) as (h & Hs & Hr). destruct (hook e s) as [[u|err] s'] eqn:E; cbn [fst snd] in Hs, Hr; subst s'.
  - split_and!; [|by right|done]. split; [apply Q|]. intros E'. by destruct (Hc E').
  - destruct Hr as [Hr|Hr]; [done|]. split_and!; [|by left|done]. apply topmost_idle. destruct Q as (Q1 & Q2 & Q3).
    split_and!; [|done..]. by destruct Hr as [Hr| ->].
Qed.
#[export] Instance topmost_laws : PrivacyModeLaws topmost.
Proof.
  refine {| holds := topmost_holds |}; cbn [turn_on_privacy turn_off_privacy pre_conn_id topmost_mode].
  - intros m s Hm [H1 H2]. destruct (H2 Hm). by split.
  - apply topmost_idle.
  - intros m s [H1 H2]. destruct (exit_screen s) as [E1 E2]. split; [by rewrite E2|]. intros Hm. destruct (H2 Hm) as [H3 H4].
    split; [intros E; by apply H3, exit_hooked|by rewrite E1].
  - intros e c m s Hm. unfold topmost_turn_on. by destruct (check_on (t_conn m) c) as [[]|] eqn:E; [|destruct (check_on_busy _ c Hm)|].
  - intros e c m s He Hm Q. unfold topmost_turn_on. rewrite Hm, check_on_free. destruct (Z.eqb_spec INVALID_PRIVACY_MODE_CONN_ID c) as [<-|Hc].
    { split_and!; [by apply topmost_idle|by left|done]. }
    destruct (dll_exists e) as [[]|]; [|split_and!; [by apply topmost_idle|by left|done]..].
    assert (Hs : forall x, x = (if t_started m then (Ok tt, m) else start e m) -> t_conn x.2 = INVALID_PRIVACY_MODE_CONN_ID).
    { intros x ->. destruct (t_started m); [done|]. by rewrite started_conn. }
    specialize (Hs _ eq_refl). destruct (if t_started m then _ else _) as [[u|err] t]; cbn [snd] in Hs.
    + by apply show_window_on.
    + split_and!; [by apply topmost_idle|by left|done].
  - intros e c st m s He Hc [H1 H2]. unfold topmost_turn_off. rewrite Hc. destruct (unhook_obeyed e s He) as (h & -> & Hh).
    split_and!; [done|done|]. unfold quiet. by destruct (tell_screen (t_conn m) c st PRIVACY_MODE_IMPL_WIN_MAG (set_window false (set_thread h s))) as (-> & -> & ->).
  - intros e c st m s err E. unfold topmost_turn_off. by rewrite E.
Defined.

Definition virtual_holds (v : virtual) (s : screen) : Prop :=
  window_shown s = false /\ (v_conn v = INVALID_PRIVACY_MODE_CONN_ID -> thread s <> Hooked /\ physical_off s = false).
Lemma virtual_idle v s : quiet s -> virtual_holds v s.
Proof. intros (H1 & H2 & H3). by split. Qed.
Lemma ensured_conn e b v : v_conn (ensure_virtual_display e b v).2 = v_conn v.
Proof.
  unfold ensure_virtual_display. destruct (virtual_displays v); [|done]. destruct (plug_in e); [|done].
  destruct (displays (set_displays (second_look e) v)); [done|]. by destruct (b && _).
Qed.
(** What is done under the guard leaves the input and the window alone. *)
Lemma rearranged e v s : let '(r, (v', s')) := rearrange e v s in
  v_conn v' = v_conn v /\ thread s' = thread s /\ window_shown s' = window_shown s.
Proof.
  unfold rearrange. pose proof (ensured_conn e (amyuni e) v) as H. destruct (ensure_virtual_display e (amyuni e) v) as [[u|err] v']; cbn [snd] in H; [|done].
  destruct (virtual_displays v'); [done|]. destruct (reg_before e), (primary_fails e), (disable_fails e), (commit_fails e); try done.
  by destruct (reg_after e).
Qed.
Lemma virtual_off e c st v s : obeys e -> check_off (v_conn v) c = Ok tt -> window_shown s = false ->
  let '(r, (v', s')) := virtual_turn_off e c st v s in r = Ok tt /\ v_conn v' = INVALID_PRIVACY_MODE_CONN_ID /\ quiet s'.
Proof.
  intros He Hc Hw. unfold virtual_turn_off. rewrite Hc. destruct (unhook_obeyed e s He) as (h & -> & Hh).
  unfold restore. rewrite (proj2 He). split_and!; [done..|]. unfold quiet.
  set (s1 := set_physical_off false (set_thread h s)).
  destruct (tell_screen (v_conn v) c st PRIVACY_MODE_IMPL_WIN_VIRTUAL_DISPLAY (restore_reg_connectivity s1)) as (-> & -> & ->).
  by destruct (recovery_screen s1) as (-> & -> & ->).
Qed.
#[export] Instance virtual_laws : PrivacyModeLaws virtual.
Proof.
  refine {| holds := virtual_holds |}; cbn [turn_on_privacy turn_off_privacy pre_conn_id virtual_mode].
  - intros m s Hm [H1 H2]. destruct (H2 Hm). by split.
  - apply virtual_idle.
  - intros m s [H1 H2]. destruct (exit_screen s) as [E1 E2]. split; [by rewrite E1|]. intros Hm. destruct (H2 Hm) as [H3 H4].
    split; [intros E; by apply H3, exit_hooked|by rewrite E2].
  - intros e c m s Hm. unfold virtual_turn_on. destruct (idd_supported e); [|done]. cbn [negb].
    by destruct (check_on (v_conn m) c) as [[]|] eqn:E; [|destruct (check_on_busy _ c Hm)|].
  - intros e c m s He Hm Q. unfold virtual_turn_on. destruct (idd_supported e); cbn [negb]; [|split_and!; [by apply virtual_idle|by left|done]].
    rewrite Hm, check_on_free. destruct (Z.eqb_spec INVALID_PRIVACY_MODE_CONN_ID c) as [<-|Hc].
    { split_and!; [by apply virtual_idle|by left|done]. }
    destruct (displays (set_displays (first_look e) m)); [split_and!; [by apply virtual_idle|by left|done]|].
    pose proof (rearranged e (set_displays (first_look e) m) s) as R. destruct (rearrange e _ s) as [[u|err] [v' s']]; destruct R as (R1 & R2 & R3).
    + split_and!; [|by right|done]. destruct (hook_effect e s') as (h & -> & _). split; [cbn; rewrite R3; apply Q|]. intros E'. by destruct Hc.
    + assert (Hw : window_shown s' = false) by (rewrite R3; apply Q).
      pose proof (virtual_off e INVALID_PRIVACY_MODE_CONN_ID None v' s' He (check_off_all _) Hw) as O.
      destruct (virtual_turn_off e _ None v' s') as [r [v2 s2]]. destruct O as (O1 & O2 & O3). cbn [snd]. split_and!; [by apply virtual_idle|by left|done].
  - intros e c st m s He Hc [H1 H2]. by apply virtual_off.
  - intros e c st m s err E. unfold virtual_turn_off. by rewrite E.
Defined.
#[export] Instance dyn_laws : PrivacyModeLaws mode.
Proof.
  refine {| holds m s := match m with Topmost t => holds t s | Virtual v => holds v s end |};
    cbn [turn_on_privacy turn_off_privacy pre_conn_id dyn_mode].
  - intros [m|m] s; apply holds_idle.
  - intros [m|m] s; apply idle_holds.
  - intros [m|m] s; apply exit_holds.
  - intros e c [m|m] s Hm; unfold lift; by rewrite on_busy.
  - intros e c [m|m] s He Hm Q; [pose proof (on_free e c m s He Hm Q) as L|pose proof (on_free e c m s He Hm Q) as L];
      unfold lift; by destruct (turn_on_privacy e c m s) as [r [m' s']].
  - intros e c st [m|m] s He Hc Hh; pose proof (off_own e c st m s He Hc Hh) as L; unfold lift; by destruct (turn_off_privacy e c st m s) as [r [m' s']].
  - intros e c st [m|m] s err E; unfold lift; by rewrite (off_other e c st m s err E).
Defined.

(** ** Whoever uses it *)
Definition owner (w : world) : Z := default INVALID_PRIVACY_MODE_CONN_ID (get_privacy_mode_conn_id w).
Definition sound (w : world) : Prop := match current w with Some m => holds m (scr w) | None => quiet (scr w) end.
Lemma sound_idle w : sound w -> owner w = INVALID_PRIVACY_MODE_CONN_ID -> quiet (scr w).
Proof. destruct w as [[m|] s]; [|done]. intros H E. exact (holds_idle m s E H). Qed.
Lemma idle_sound m s : quiet s -> sound (mkWorld m s).
Proof. destruct m as [m|]; [|done]. intros Q. exact (idle_holds m s Q). Qed.
Lemma creator_idle key m : creator key = Some m -> pre_conn_id m = INVALID_PRIVACY_MODE_CONN_ID.
Proof. unfold creator. destruct (String.eqb key _); [by intros [= <-]|]. destruct (String.eqb key _); [by intros [= <-]|done]. Qed.
Lemma drop_quiet e m s : obeys e -> holds m s -> quiet (drop_mode e m s).
Proof.
  intros He Hm. unfold drop_mode. destruct (Z.eqb_spec (pre_conn_id m) INVALID_PRIVACY_MODE_CONN_ID) as [E|E]; cbn [negb]; [exact (holds_idle m s E Hm)|].
  pose proof (off_own e (pre_conn_id m) None m s He (check_off_own _) Hm) as L. destruct (turn_off_privacy e _ None m s) as [r [m' s']]. apply L.
Qed.
Lemma replace_quiet e m w : obeys e -> sound w -> quiet (scr (replace e m w)).
Proof. intros He Hw. unfold replace. destruct w as [[old|] s]; [by apply drop_quiet|done]. Qed.
Lemma replace_sound e m w : obeys e -> sound w -> sound (replace e m w).
Proof. intros He Hw. exact (idle_sound (Some m) _ (replace_quiet e m w He Hw)). Qed.
Lemma cleared_sound e w : obeys e -> sound w -> sound (cleared e w).
Proof.
  intros He Hw. unfold cleared. destruct w as [[m|] s]; [|done]. unfold clear. cbn [current scr].
  pose proof (off_own e (pre_conn_id m) None m s He (check_off_own _) Hw) as L. destruct (turn_off_privacy e _ None m s) as [r [m' s']].
  apply idle_sound, L.
Qed.
(** Turning on what nobody uses. *)
Lemma on_current e c w : obeys e -> sound w -> owner w = INVALID_PRIVACY_MODE_CONN_ID ->
  let '(r, w') := turn_on_current e c w in
  sound w' /\ (owner w' = INVALID_PRIVACY_MODE_CONN_ID \/ owner w' = c) /\ (r = Some (Ok true) -> owner w' = c).
Proof.
  intros He Hw Ho. pose proof (sound_idle w Hw Ho) as Q. unfold turn_on_current. destruct w as [[m|] s]; [|by split_and!; [|left|]].
  pose proof (on_free e c m s He Ho Q) as L. cbn [current scr]. destruct (turn_on_privacy e c m s) as [r [m' s']].
  destruct L as (L1 & L2 & L3). split_and!; [done|done|]. intros [= ->]. by apply L3.
Qed.
Lemma ensured e key w w' : obeys e -> sound w -> ensure_impl e key w = Some w' ->
  sound w' /\ (owner w = INVALID_PRIVACY_MODE_CONN_ID \/ is_current_privacy_mode_impl key w = false -> owner w' = INVALID_PRIVACY_MODE_CONN_ID).
Proof.
  intros He Hw. unfold ensure_impl. destruct (is_current_privacy_mode_impl key w) eqn:E; cbn [orb].
  { intros [= <-]. split; [done|]. by intros [H|H]. }
  destruct (bool_decide (current w = None)) eqn:E2; cbn [andb].
  { apply bool_decide_eq_true in E2. destruct (is_empty key).
    - intros [= <-]. split; [done|]. intros _. unfold owner, get_privacy_mode_conn_id. by rewrite E2.
    - destruct (creator key) as [m|] eqn:Ec; [|done]. intros [= <-]. split; [apply replace_sound; [done|by apply cleared_sound]|].
      intros _. exact (creator_idle key m Ec). }
  destruct (creator key) as [m|] eqn:Ec; [|done]. intros [= <-]. split; [apply replace_sound; [done|by apply cleared_sound]|].
  intros _. exact (creator_idle key m Ec).
Qed.
(** A request is granted to one connection, or refused without effect. *)
Definition one_owner (c : Z) (w : world) (r : option (result bool string)) (w' : world) : Prop :=
  sound w' /\
  ((owner w = INVALID_PRIVACY_MODE_CONN_ID \/ owner w = c) /\ (owner w' = INVALID_PRIVACY_MODE_CONN_ID \/ owner w' = c) /\
     (r = Some (Ok true) -> owner w' = c)
   \/ owner w <> INVALID_PRIVACY_MODE_CONN_ID /\ owner w <> c /\ w' = w /\ exists err, r = Some (Err err)).
Lemma go_on e key c w : obeys e -> sound w -> owner w = INVALID_PRIVACY_MODE_CONN_ID \/ owner w = c /\ is_current_privacy_mode_impl key w = false ->
  let '(r, w') := match ensure_impl e key w with
                  | Some w => turn_on_current e c w
                  | None => (Some (Err ("Unsupported privacy mode: " +:+ key)), w)
                  end in one_owner c w r w'.
Proof.
  intros He Hw Ho. assert (Ho' : owner w = INVALID_PRIVACY_MODE_CONN_ID \/ owner w = c) by (destruct Ho as [|[]]; auto).
  destruct (ensure_impl e key w) as [w2|] eqn:E.
  - destruct (ensured e key w w2 He Hw E) as [H1 H2]. pose proof (on_current e c w2 He H1) as L. destruct (turn_on_current e c w2) as [r w'].
    destruct L as (L1 & L2 & L3); [apply H2; destruct Ho as [|[]]; auto|]. split; [done|]. by left.
  - split; [done|]. left. by split_and!.
Qed.
Lemma sync_one_owner e key c w : obeys e -> sound w ->
  let '(r, w') := turn_on_privacy_sync e key c w in one_owner c w r w'.
Proof.
  intros He Hw. unfold turn_on_privacy_sync. set (k := get_supported_impl e key). destruct (current w) as [m|] eqn:Em.
  2:{ apply go_on; [done..|]. left. unfold owner, get_privacy_mode_conn_id. by rewrite Em. }
  assert (Ho : owner w = pre_conn_id m) by (unfold owner, get_privacy_mode_conn_id; by rewrite Em).
  assert (Hk : is_current_privacy_mode_impl k w = String.eqb (get_impl_key m) k) by (unfold is_current_privacy_mode_impl, get_cur_impl_key; by rewrite Em).
  unfold check_on_conn_id, check_on. destruct (Z.eqb_spec (pre_conn_id m) c) as [Ec|Ec].
  - destruct (String.eqb (get_impl_key m) k) eqn:Ek.
    + split; [done|]. left. rewrite Ho. by split_and!; [right|right|].
    + apply go_on; [done..|]. right. by rewrite Ho.
  - destruct (Z.eqb_spec (pre_conn_id m) INVALID_PRIVACY_MODE_CONN_ID) as [E0|E0]; cbn [negb].
    + apply go_on; [done..|]. left. by rewrite Ho.
    + split; [done|]. right. rewrite Ho. by split_and!; [..|eexists].
Qed.
Lemma turn_on_one_owner e key c w : obeys e -> sound w -> let '(r, w') := turn_on e key c w in one_owner c w r w'.
Proof.
  intros He Hw. unfold turn_on. pose proof (sync_one_owner e key c w He Hw) as L. destruct (turn_on_privacy_sync e key c w) as [r w'] eqn:E.
  destruct (_ && timed_out e); [|done]. destruct L as [L1 [(L2 & L3 & L4)|(L2 & L3 & L4 & L5)]]; split; [done|by left|done|].
  right. by split_and!; [..|eexists].
Qed.

Lemma off_effect e c st w : obeys e -> sound w -> sound (turn_off e c st w).2 /\
  (check_off (owner w) c = Ok tt -> owner (turn_off e c st w).2 = INVALID_PRIVACY_MODE_CONN_ID).
Proof.
  intros He Hw. unfold turn_off. destruct w as [[m|] s]; [|done]. cbn [current scr].
  change (owner (mkWorld (Some m) s)) with (pre_conn_id m). destruct (check_off (pre_conn_id m) c) as [u|err] eqn:E; [destruct u|].
  - pose proof (off_own e c st m s He E Hw) as L. destruct (turn_off_privacy e c st m s) as [r [m' s']]. destruct L as (L1 & L2 & L3).
    split; [exact (idle_sound (Some m') _ L3)|by intros _].
  - rewrite (off_other e c st m s err E). by split.
Qed.
Lemma in_use w : is_in_privacy_mode w = negb (owner w =? INVALID_PRIVACY_MODE_CONN_ID).
Proof. by destruct w as [[m|] s]. Qed.
Lemma never_announced w : match is_in_privacy_mode w, get_cur_impl_key w with
  | true, Some pre => if negb (is_current_privacy_mode_impl pre w) then [PrvOffSucceeded] else []
  | _, _ => [] end = [].
Proof.
  destruct (is_in_privacy_mode w); [|done]. unfold is_current_privacy_mode_impl. destruct (get_cur_impl_key w); [|done]. by rewrite String.eqb_refl.
Qed.
Lemma msg_effect e c w : (turn_off_privacy_to_msg e c w).2 = (turn_off e c None w).2.
Proof. unfold turn_off_privacy_to_msg. by destruct (turn_off e c None w). Qed.
(** A connection's request: what holds afterwards, and when it is granted. *)
Lemma turn_on_effect e key c w : obeys e -> sound w -> let '(l, w') := handle_turn_on e key c w in
  sound w' /\ (In PrvOnSucceeded l -> owner w' = c /\ (owner w = INVALID_PRIVACY_MODE_CONN_ID \/ owner w = c)) /\
  (is_privacy_mode_supported = true -> owner w <> INVALID_PRIVACY_MODE_CONN_ID -> owner w <> c -> owner w' = INVALID_PRIVACY_MODE_CONN_ID).
Proof.
  intros He Hw. unfold handle_turn_on. destruct is_privacy_mode_supported; cbn [negb]; [|by split_and!; [|intros [[=]|[]]|]].
  rewrite never_announced. cbn [app]. pose proof (turn_on_one_owner e key c w He Hw) as L. destruct (turn_on e key c w) as [r w'].
  destruct L as [L1 L]. destruct r as [[[]|err]|].
  - destruct (is_empty (check_privacy_mode_err e w')); (split_and!;
      [try done; rewrite msg_effect; by apply off_effect|try by intros [[=]|[]]|intros _ H1 H2; destruct L as [([H3|H3] & _)|(_ & _ & _ & err & [=])]; done]).
    intros _. destruct L as [(L2 & L3 & L4)|(_ & _ & _ & err & [=])]. split; [by apply L4|done].
  - split_and!; [done|by intros [[=]|[]]|]. intros _ H1 H2. destruct L as [([H3|H3] & _)|(_ & _ & _ & err & [=])]; done.
  - rewrite in_use. destruct (Z.eqb_spec (owner w') INVALID_PRIVACY_MODE_CONN_ID) as [E|E]; cbn [negb].
    + split_and!; [done|by intros [[=]|[]]|done].
    + rewrite msg_effect. destruct (off_effect e INVALID_PRIVACY_MODE_CONN_ID None w' He L1) as [O1 O2].
      split_and!; [done|by intros [[=]|[]]|]. intros _ _ _. apply O2, check_off_all.
  - split_and!; [done|by intros [[=]|[]]|]. intros _ H1 H2. destruct L as [([H3|H3] & _)|(_ & _ & _ & err & [=])]; done.
Qed.
Lemma step_sound x w : obeys x.1 -> sound w -> sound (step x w).
Proof.
  destruct x as [e ev]. cbn [fst]. intros He Hw. destruct ev; cbn [step].
  - pose proof (turn_on_effect e impl_key conn_id w He Hw) as L. destruct (handle_turn_on e impl_key conn_id w). apply L.
  - unfold handle_turn_off. destruct (negb _); [done|]. pose proof (msg_effect e conn_id w) as E. destruct (turn_off_privacy_to_msg e conn_id w) as [n w'].
    cbn [snd] in *. subst w'. by apply off_effect.
  - unfold connection_ends. destruct (get_privacy_mode_conn_id w); [|done]. destruct (_ =? _); [|done]. rewrite msg_effect. by apply off_effect.
  - unfold switch. destruct (is_current_privacy_mode_impl impl_key w); [done|]. destruct (creator impl_key); [by apply replace_sound|done].
  - unfold local_key. destruct (key_at _ _ _ _ _ _) as [|[]]; [done|by apply off_effect|done].
  - by apply off_effect.
  - by apply off_effect.
  - destruct w as [[m|] s]; [exact (exit_holds m s Hw)|]. destruct Hw as (H1 & H2 & H3). destruct (exit_screen s) as [E1 E2].
    split; [intros E; by apply H1, exit_hooked|]. cbn [current scr]. by rewrite E1, E2.
Qed.
Lemma run_stays_sound l w : Forall (λ x, obeys x.1) l -> sound w -> sound (run l w).
Proof. intros H. revert w. induction H as [|x l Hx H IH]; intros w Hw; [done|]. by apply IH, step_sound. Qed.

(** C28: whatever connections, options, the register's keyboard and the hooks'
    thread do, in any order and with whichever implementation, as long as the
    system obeys when privacy mode ends (the request to leave reaches the hooks'
    thread, the displays can be restored): while no connection owns privacy mode
    no window covers the register's screen, its displays are on, and the hooks
    are gone or their thread has been told to leave; until it has left the hooks
    still swallow keys and the mouse, and once it has left every key and every
    movement of the mouse gets through and the screen is as it was. *)
Theorem nothing_left_on l w e :
  quiet (scr w) -> Forall (λ x, obeys x.1) l -> owner (run l w) = INVALID_PRIVACY_MODE_CONN_ID ->
  let s := scr (run l w) in
  let w' := step (e, ThreadExits) (run l w) in
  window_shown s = false /\ physical_off s = false /\ (thread s = NoThread \/ thread s = Leaving)
  /\ owner w' = INVALID_PRIVACY_MODE_CONN_ID /\ window_shown (scr w') = false /\ physical_off (scr w') = false
  /\ (forall simulated, mouse_at (scr w') simulated = Passed false)
  /\ forall simulated alt ctrl m vk, key_at (scr w') simulated alt ctrl m vk = Passed false.
Proof.
  intros Q H Ho. assert (Hq : quiet (scr (run l w)))
    by (apply sound_idle; [apply run_stays_sound; [done|]; destruct w as [m s]; by apply idle_sound|done]).
  destruct (run l w) as [m s]. cbn [scr step current] in *. destruct Hq as (Ht & Hw & Hp).
  destruct (exit_screen s) as [E1 E2]. rewrite E1, E2. unfold mouse_at, key_at, thread_exits.
  destruct (thread s) eqn:E; [|done|]; cbn [thread set_thread]; rewrite ?E; split_and!; auto.
Qed.

(** C35: whenever a connection is told that privacy mode is on for it, it owns it,
    and before that nobody else did. *)
Theorem granted_alone l w e key c :
  quiet (scr w) -> Forall (λ x, obeys x.1) l -> obeys e ->
  In PrvOnSucceeded (handle_turn_on e key c (run l w)).1 ->
  owner (handle_turn_on e key c (run l w)).2 = c /\ (owner (run l w) = INVALID_PRIVACY_MODE_CONN_ID \/ owner (run l w) = c).
Proof.
  intros Q H He. assert (Hw : sound (run l w)) by (apply run_stays_sound; [done|]; destruct w as [m s]; by apply idle_sound).
  pose proof (turn_on_effect e key c (run l w) He Hw) as L. destruct (handle_turn_on e key c (run l w)) as [n w']. apply L.
Qed.
(** A connection that has ended owns nothing. *)
Lemma ended_owns_nothing e c w : obeys e -> sound w -> c <> INVALID_PRIVACY_MODE_CONN_ID -> owner (connection_ends e c w) <> c.
Proof.
  intros He Hw Hc. unfold connection_ends. destruct (get_privacy_mode_conn_id w) as [o|] eqn:E.
  - assert (Ho : owner w = o) by (unfold owner; by rewrite E). destruct (Z.eqb_spec o c) as [->|Hn]; [|by rewrite Ho].
    rewrite msg_effect. destruct (off_effect e c None w He Hw) as [_ O]. rewrite O; [done|]. rewrite Ho. apply check_off_own.
  - unfold owner. by rewrite E.
Qed.
(** The request of another connection is refused, and ends the owner's privacy. *)
Lemma refused_request_ends_privacy e key c w : obeys e -> sound w -> is_privacy_mode_supported = true ->
  owner w <> INVALID_PRIVACY_MODE_CONN_ID -> owner w <> c ->
  owner (handle_turn_on e key c w).2 = INVALID_PRIVACY_MODE_CONN_ID /\ quiet (scr (handle_turn_on e key c w).2).
Proof.
  intros He Hw Hs H1 H2. pose proof (turn_on_effect e key c w He Hw) as L. destruct (handle_turn_on e key c w) as [n w'].
  destruct L as (L1 & _ & L3). split; [by apply L3|]. apply sound_idle; [done|]. by apply L3.
Qed.
(** While the old hooks' thread is leaving, the virtual display reports success
    with the register's keyboard free. *)
Lemma unlocked_privacy e c v s v' s' : leaves_meanwhile e = false -> thread s = Leaving -> virtual_turn_on e c v s = (Ok true, (v', s')) -> thread s' = Leaving.
Proof.
  intros Hm Hs. unfold virtual_turn_on. destruct (negb _); [done|]. destruct (check_on (v_conn v) c) as [[]|]; [by intros [= <- <-]| |done].
  destruct (displays _); [done|]. pose proof (rearranged e (set_displays (first_look e) v) s) as R.
  destruct (rearrange e _ s) as [[u|err] [v2 s2]]; destruct R as (R1 & R2 & R3).
  - intros E. injection E as <- <-. unfold hook. rewrite Hm, R2, Hs. cbn. by rewrite R2.
  - intros E. discriminate E.
Qed.
(** F10 comes as a system key and is let through. *)
Lemma f10_passes ctrl : privacy_mode_hook_keyboard false false ctrl WM_SYSKEYDOWN 121 = Passed false.
Proof. done. Qed.
End privacy.

Definition calm : os := mkOs true PRIVACY_MODE_IMPL_WIN_MAG true None None (Some true) false None true true true false
  (1, 0)%nat (1, 1)%nat (1, 1)%nat (Ok [1]) None None None None None (Ok EmptyString) (Ok EmptyString) (λ _ _, None) false EmptyString.
Definition bare : world := mkWorld None (mkScreen NoThread false false EmptyString []).
Definition a_day : list (os * event) :=
  [(calm, TurnOn PRIVACY_MODE_IMPL_WIN_MAG 7); (calm, ThreadExits); (calm, TurnOn PRIVACY_MODE_IMPL_WIN_VIRTUAL_DISPLAY 7);
   (calm, ThreadExits); (calm, LocalKey false true WM_KEYDOWN 80)].
Lemma a_calm_day : Forall (λ x, obeys x.1) a_day.
Proof. unfold a_day. by repeat (apply Forall_cons; split; [done|]). Qed.
Lemma nothing_left_on_witness :
  window_shown (scr (run false true true a_day bare)) = false
  /\ key_at (scr (step false true true (calm, ThreadExits) (run false true true a_day bare))) false true false WM_KEYDOWN 65 = Passed false.
Proof.
  destruct (nothing_left_on false true true a_day bare calm) as (H1 & _ & _ & _ & _ & _ & _ & H2);
    [by split_and!|apply a_calm_day|by vm_compute|].
  split; [exact H1|apply H2].
Defined.
(** Until the thread has left, the keyboard of a register nobody controls is dead. *)
Example still_swallowed : key_at (scr (run false true true a_day bare)) false false false WM_KEYDOWN 65 = Swallowed.
Proof. vm_compute. reflexivity. Qed.
Lemma granted_alone_witness : owner (handle_turn_on false true true calm PRIVACY_MODE_IMPL_WIN_MAG 9 (run false true true a_day bare)).2 = 9
  /\ (owner (run false true true a_day bare) = INVALID_PRIVACY_MODE_CONN_ID \/ owner (run false true true a_day bare) = 9).
Proof. apply (granted_alone false true true a_day bare calm PRIVACY_MODE_IMPL_WIN_MAG 9); [by split_and!|apply a_calm_day|done|by vm_compute; left]. Defined.
(** The keyboard is locked by 7, who is refused by nobody, until 9 asks in vain. *)
Example asked_in_vain : let w := run false true true [(calm, TurnOn PRIVACY_MODE_IMPL_WIN_MAG 7)] bare in
  owner w = 7 /\ thread (scr w) = Hooked /\ window_shown (scr w) = true /\
  (handle_turn_on false true true calm PRIVACY_MODE_IMPL_WIN_MAG 9 w).1 = [PrvOnFailed OCCUPIED] /\
  owner (handle_turn_on false true true calm PRIVACY_MODE_IMPL_WIN_MAG 9 w).2 = 0 /\
  told (scr (handle_turn_on false true true calm PRIVACY_MODE_IMPL_WIN_MAG 9 w).2) = [].
Proof. by vm_compute. Qed.
End Privacy.
