(* ===== verification/Forward.v ===== *)
(** * A port of the technician's machine ([src/src/port_forward.rs])

    A local port stands for a port behind a register.  Each program that
    connects to it gets a connection of its own: login first, while what the
    program says is kept; then the bytes of both sides pass as they are. *)
From Stdlib Require Import String.
From S2P Require Import Prelude.

Module Forward.
Local Open Scope list_scope.

Abbreviation bytes := (list Z) (only parsing).
(** A message of the register, parsed. *)
Inductive message := Hash | LoginError (err : string) | PeerInfo | TestDelay | OtherMessage.
Inductive from_peer := Late | Got (m : option message) (raw : bytes) | Broken (err : string) | Reset.
(** What the interface sends ([Data]). *)
Inductive data := Login | DMessage | Close | NewRDP | OtherData.
Inductive event := Peer (x : from_peer) | Ui (d : data) | Local (x : option bytes).
(** A turn of a loop: what is ready, whether the sends of this turn succeed,
    whether the interface goes on after an error of the login, and what it sends
    to the register in this turn, as it goes over the line (nothing: [[]]). *)
Record turn := mkTurn { what : event; delivered : bool; goes_on : bool; frame : bytes }.
Inductive call :=
  | UpdateReceived | HandleHash | HandleLoginError (err : string) | HandlePeerInfo | HandleTestDelay | HandleLoginFromUi | SendMessage | SendRaw (b : bytes).

(** [line]: what has gone to the register so far. *)
Record login := mkLogin { buffer : bytes; received : bool; calls : list call; line : bytes }.
Definition say (c : list call) (s : login) : login := mkLogin (buffer s) (received s) (calls s ++ c) (line s).
(** A call that has the stream to the register: it may send a message. *)
Definition answer (c : call) (t : turn) (s : login) : login :=
  mkLogin (buffer s) (received s) (calls s ++ [c]) (line s ++ if delivered t then frame t else []).
Definition kept (b : bytes) (s : login) : login := mkLogin (buffer s ++ b) (received s) (calls s) (line s).
(** [None]: go on; otherwise the value of the function, [true] for a stream. *)
Definition login_step (t : turn) (s : login) : option (result bool string) * login :=
  match what t with
  | Peer Late => (Some (Err "Timeout"%string), s)
  | Peer (Got m _) =>
      let s := if received s then s else mkLogin (buffer s) true (calls s ++ [UpdateReceived]) (line s) in
      match m with
      | None => (Some (Err "not a message"%string), s)
      | Some Hash => (None, answer HandleHash t s)
      | Some (LoginError err) =>
          if negb (goes_on t) then (Some (Ok false), say [HandleLoginError err] s) else (None, say [HandleLoginError err] s)
      | Some PeerInfo => (Some (Ok true), say [HandlePeerInfo] s)
      | Some TestDelay => (None, answer HandleTestDelay t s)
      | Some OtherMessage => (None, s)
      end
  | Peer (Broken err) => (Some (Err ("Connection closed: " +:+ err)), s)
  | Peer Reset => (Some (Err "Reset by the peer"%string), s)
  | Ui Login => (None, answer HandleLoginFromUi t s)
  | Ui DMessage => (None, answer SendMessage t s)
  | Ui _ => (None, s)
  | Local (Some b) => (None, kept b s)
  | Local None => (Some (Ok false), s)
  end.
Fixpoint login_loop (l : list turn) (s : login) : option (result bool string) * login * list turn :=
  match l with
  | [] => (None, s, [])
  | t :: l => match login_step t s with (Some r, s) => (Some r, s, l) | (None, s) => login_loop l s end
  end.
(** The streams: what was sent to the register, and to the program. *)
Record streams := mkStreams { to_peer : bytes; to_local : bytes }.
Definition send_bytes (ok : bool) (b : bytes) (s : streams) : streams := if ok then mkStreams (to_peer s ++ b) (to_local s) else s.
Definition forward_send (ok : bool) (b : bytes) (s : streams) : streams := if ok then mkStreams (to_peer s) (to_local s ++ b) else s.
Fixpoint run_forward (l : list turn) (s : streams) : streams :=
  match l with
  | [] => s
  | t :: l => match what t with
              | Local (Some b) => run_forward l (send_bytes (delivered t) b s)
              | Local None => s
              | Peer (Got _ b) => run_forward l (forward_send (delivered t) b s)
              | Peer _ => s
              | Ui _ => run_forward l s
              end
  end.
(** One program's connection, from the accepted socket on. *)
Definition connect_and_login (flushed : bool) (l : list turn) : option (result bool string) * login * streams * list turn :=
  let '(r, s, rest) := login_loop l (mkLogin [] false [] []) in
  let out := mkStreams (line s) [] in
  match r with
  | Some (Ok true) => (r, s, match buffer s with [] => out | b => send_bytes flushed b out end, rest)
  | _ => (r, s, out, rest)
  end.
Definition connection (flushed : bool) (l : list turn) : streams :=
  let '(r, _, s, rest) := connect_and_login flushed l in
  match r with Some (Ok true) => run_forward rest s | _ => s end.

(** ** The register's end ([try_port_forward_loop] of [server/connection.rs]) *)
Inductive manager_data := CmClose | CmErr (err : string) | CmOther.
Inductive server_event :=
  | FromCm (d : manager_data) | FromService (b : option (result bytes string)) | FromClient (b : option (result bytes string))
  | Tick (now : Z) | FromConsole (ids : list Z).
(** What is ready, when, and the error of its send, if there is one. *)
Record server_turn := mkServerTurn { ready : server_event; at_time : Z; send_error : option string }.
Definition H1 : Z := 3600000.
Record relay := mkRelay { to_client : bytes; to_service : bytes; last_recv_time : Z }.
Definition server_step (id : Z) (t : server_turn) (s : relay) : option string * relay :=
  match ready t with
  | FromCm CmClose => (Some "Close requested from connection manager"%string, s)
  | FromCm (CmErr e) => (Some e, s)
  | FromCm CmOther => (None, s)
  | FromService (Some (Ok b)) =>
      match send_error t with
      | None => (None, mkRelay (to_client s ++ b) (to_service s) (at_time t))
      | Some e => (Some e, mkRelay (to_client s) (to_service s) (at_time t))
      end
  | FromService (Some (Err e)) => (Some e, mkRelay (to_client s) (to_service s) (at_time t))
  | FromService None => (Some "Forward reset by the peer"%string, s)
  | FromClient (Some (Ok b)) =>
      match send_error t with
      | None => (None, mkRelay (to_client s) (to_service s ++ b) (at_time t))
      | Some e => (Some e, mkRelay (to_client s) (to_service s) (at_time t))
      end
  | FromClient (Some (Err e)) => (Some e, mkRelay (to_client s) (to_service s) (at_time t))
  | FromClient None => (Some "Stream reset by the peer"%string, s)
  | Tick now => if (H1 <=? now - last_recv_time s)%Z then (Some "Timeout"%string, s) else (None, s)
  | FromConsole ids => if existsb (Z.eqb id) ids then (Some "Closed manually by the web console"%string, s) else (None, s)
  end.
Fixpoint try_port_forward_loop (id : Z) (l : list server_turn) (s : relay) : option string * relay :=
  match l with
  | [] => (None, s)
  | t :: l => match server_step id t s with (Some e, s) => (Some e, s) | (None, s) => try_port_forward_loop id l s end
  end.

(** ** The listeners of a session ([port_forward.rs], [ui_session_interface.rs])

    Each listener has a queue; [gone] when nobody can send to it any more. *)
Record listener := mkListener { port : Z; queue : list data; gone : bool; logging_in : bool; open : bool }.
Definition set_queue q x := mkListener (port x) q (gone x) (logging_in x) (open x).
Definition set_gone x := mkListener (port x) (queue x) true (logging_in x) (open x).
Definition set_logging_in b x := mkListener (port x) (queue x) (gone x) b (open x).
Definition shut x := mkListener (port x) (queue x) (gone x) (logging_in x) false.
Definition send_to (d : data) (x : listener) : listener := set_queue (queue x ++ [d]) x.
(** The listener looks at its queue: in [connect_and_login] a [Close] is passed
    over; an empty queue nobody sends to answers at once, and changes nothing. *)
Definition listener_turn (x : listener) : listener :=
  match queue x with
  | [] => x
  | d :: q => match d with
              | Close => if logging_in x then set_queue q x else shut (set_queue q x)
              | _ => set_queue q x
              end
  end.
Inductive request := AddPortForward (port : Z) (remote_port : Z) | RemovePortForward (port : Z) | RClose | ROther (d : data).
(** The manager's map from ports to listeners, by their number. *)
Record session := mkSession { queues : gmap Z nat; listeners : list listener; running : bool }.
Definition set_listeners l s := mkSession (queues s) l (running s).
(** The sender of a port is dropped. *)
Definition drop_sender (p : Z) (s : session) : list listener :=
  match queues s !! p with Some i => alter set_gone i (listeners s) | None => listeners s end.
Definition manage (r : request) (s : session) : session :=
  if negb (running s) then s
  else match r with
       | AddPortForward p remote_port =>
           if (p <=? 0)%Z || (remote_port <=? 0)%Z then s
           else mkSession (<[p := length (listeners s)]> (queues s)) (drop_sender p s ++ [mkListener p [] false false true]) true
       | RemovePortForward p =>
           match queues s !! p with
           | Some i => mkSession (delete p (queues s)) (alter (λ x, set_gone (send_to Close x)) i (listeners s)) true
           | None => s
           end
       | RClose => mkSession (queues s) (listeners s) false
       | ROther d => set_listeners (imap (λ i x, if bool_decide (queues s !! port x = Some i) then send_to d x else x) (listeners s)) s
       end.
Inductive happening := Request (r : request) | Turn (i : nat) | Accepted (i : nat) | LoginEnds (i : nat).
Definition happen (h : happening) (s : session) : session :=
  match h with
  | Request r => manage r s
  | Turn i => set_listeners (alter listener_turn i (listeners s)) s
  | Accepted i => set_listeners (alter (λ x, if open x then set_logging_in true x else x) i (listeners s)) s
  | LoginEnds i => set_listeners (alter (set_logging_in false) i (listeners s)) s
  end.
(** The list kept with the peer. *)
Definition add_port_forward (p : Z) (host : string) (remote_port : Z) (l : list (Z * string * Z)) : list (Z * string * Z) :=
  if existsb (λ x, Z.eqb x.1.1 p) l then l else l ++ [(p, host, remote_port)].
Definition remove_port_forward (p : Z) (l : list (Z * string * Z)) : list (Z * string * Z) := List.filter (λ x, negb (Z.eqb x.1.1 p)) l.

(** ** The tunnel *)
(** What the program has said, until it is gone or the tunnel ends. *)
Fixpoint said (l : list turn) : bytes :=
  match l with
  | [] => []
  | t :: l => match what t with Local (Some b) => b ++ said l | Local None => [] | Ui _ => said l | Peer (Got _ _) => said l | Peer _ => [] end
  end.
Fixpoint heard (l : list turn) : bytes :=
  match l with
  | [] => []
  | t :: l => match what t with Peer (Got _ b) => b ++ heard l | Peer _ => [] | Ui _ => heard l | Local (Some _) => heard l | Local None => [] end
  end.
Lemma forwarded l s : Forall (λ t, delivered t = true) l ->
  to_peer (run_forward l s) = to_peer s ++ said l /\ to_local (run_forward l s) = to_local s ++ heard l.
Proof.
  intros H. revert s. induction H as [|t l Ht H IH]; intros s; cbn [run_forward said heard]; [by rewrite !app_nil_r|].
  destruct (what t) as [[]|d|[b|]]; try (by rewrite !app_nil_r); rewrite ?Ht; [| |];
    [destruct (IH (forward_send true raw s)) as [-> ->]|apply IH|destruct (IH (send_bytes true b s)) as [-> ->]]; cbn; by rewrite <- app_assoc.
Qed.
Lemma login_keeps l s : let '(r, s', rest) := login_loop l s in r = Some (Ok true) -> buffer s' ++ said rest = buffer s ++ said l.
Proof.
  revert s. induction l as [|t l IH]; intros s; cbn [login_loop]; [done|]. unfold login_step. cbn [said].
  destruct (what t) as [[|m raw|err|]|[]|[b|]]; try done; try (by apply IH).
  - set (s1 := if received s then s else _). assert (Hb : buffer s1 = buffer s) by (subst s1; by destruct (received s)).
    rewrite <- Hb. destruct m as [[]|]; try done; [apply (IH (answer _ _ s1))|destruct (negb (goes_on t)); [done|apply (IH (say _ s1))]|apply (IH (answer _ _ s1))|apply IH].
  - apply (IH (answer _ _ s)).
  - apply (IH (answer _ _ s)).
  - specialize (IH (kept b s)). destruct (login_loop l (kept b s)) as [[r s'] rest]. intros Hr. rewrite IH by done. cbn. by rewrite <- app_assoc.
Qed.
(** What the client sends to the register before the stream goes raw, whether
    the login succeeds, and what reaches the client raw after it. *)
Definition login_line (l : list turn) : bytes := line (connect_and_login true l).1.1.2.
Definition logged_in (l : list turn) : Prop := (connect_and_login true l).1.1.1 = Some (Ok true).
Definition raw_heard (l : list turn) : bytes := heard (connect_and_login true l).2.
(** Before the login has succeeded nothing the program said is sent. *)
Lemma nothing_before_login flushed l : (connect_and_login flushed l).1.1.1 <> Some (Ok true) ->
  to_peer (connection flushed l) = line (connect_and_login flushed l).1.1.2.
Proof.
  unfold connection, connect_and_login. destruct (login_loop l _) as [[r s] rest]. by destruct r as [[[]|]|].
Qed.
Lemma connection_is_transparent l : Forall (λ t, delivered t = true) l -> logged_in l ->
  to_peer (connection true l) = login_line l ++ said l /\ to_local (connection true l) = raw_heard l.
Proof.
  intros H. unfold logged_in, login_line, connection, raw_heard, connect_and_login. pose proof (login_keeps l (mkLogin [] false [] [])) as K.
  assert (R : Forall (λ t, delivered t = true) (login_loop l (mkLogin [] false [] [])).2).
  { revert H. generalize (mkLogin [] false [] []). clear K. induction l as [|t l IH]; intros s H; [by constructor|]. cbn [login_loop].
    apply Forall_cons in H as [H1 H2]. destruct (login_step t s) as [[r|] s']; [done|]. by apply IH. }
  destruct (login_loop l _) as [[r s] rest]. cbn [snd] in R. destruct r as [[[]|]|]; try done. intros _.
  specialize (K eq_refl). cbn [buffer app] in K. rewrite <- K.
  destruct (forwarded rest (match buffer s with [] => mkStreams (line s) [] | b => send_bytes true b (mkStreams (line s) []) end) R) as [-> ->].
  cbn [fst snd]. destruct (buffer s); cbn; by rewrite <- ?app_assoc.
Qed.
(** What the service and the client have said at the register's end. *)
Definition from_service (t : server_turn) : bytes := match ready t with FromService (Some (Ok b)) => b | _ => [] end.
Definition from_client (t : server_turn) : bytes := match ready t with FromClient (Some (Ok b)) => b | _ => [] end.
Lemma relayed id l s : exists a b, to_client (try_port_forward_loop id l s).2 = to_client s ++ a /\ a `prefix_of` concat (map from_service l) /\
  to_service (try_port_forward_loop id l s).2 = to_service s ++ b /\ b `prefix_of` concat (map from_client l).
Proof.
  revert s. induction l as [|t l IH]; intros s; cbn [try_port_forward_loop map concat].
  { exists [], []. rewrite !app_nil_r. split_and!; [done|apply prefix_nil|done|apply prefix_nil]. }
  assert (S : exists a b, to_client (server_step id t s).2 = to_client s ++ a /\ to_service (server_step id t s).2 = to_service s ++ b /\
    a `prefix_of` from_service t /\ b `prefix_of` from_client t /\ ((server_step id t s).1 = None -> a = from_service t /\ b = from_client t)).
  { unfold server_step, from_service, from_client. destruct (ready t) as [[]|[[x|]|]|[[x|]|]|now|ids]; try destruct (send_error t);
      try destruct (H1 <=? _)%Z; try destruct (existsb _ ids); cbn;
      first [exists [], []; rewrite !app_nil_r; by split_and!; try apply prefix_nil | exists x, []; rewrite app_nil_r; by split_and! | exists [], x; rewrite app_nil_r; by split_and!]. }
  destruct S as (a & b & S1 & S2 & S3 & S4 & S5). destruct (server_step id t s) as [[e|] s']; cbn [fst snd] in *.
  - exists a, b. split_and!; [done|by apply prefix_app_r|done|by apply prefix_app_r].
  - destruct (S5 eq_refl) as [-> ->]. destruct (IH s') as (a' & b' & A1 & A2 & A3 & A4). exists (from_service t ++ a'), (from_client t ++ b').
    rewrite A1, A3, S1, S2, !app_assoc. split_and!; [done|by apply prefix_app|done|by apply prefix_app].
Qed.
Lemma relayed_all id l s : Forall (λ t, send_error t = None) l -> (try_port_forward_loop id l s).1 = None ->
  to_client (try_port_forward_loop id l s).2 = to_client s ++ concat (map from_service l) /\
  to_service (try_port_forward_loop id l s).2 = to_service s ++ concat (map from_client l).
Proof.
  intros H. revert s. induction H as [|t l Ht H IH]; intros s; cbn [try_port_forward_loop map concat]; [by rewrite !app_nil_r|].
  assert (S : (server_step id t s).1 = None -> to_client (server_step id t s).2 = to_client s ++ from_service t
    /\ to_service (server_step id t s).2 = to_service s ++ from_client t).
  { unfold server_step, from_service, from_client. rewrite Ht. destruct (ready t) as [[]|[[x|]|]|[[x|]|]|now|ids]; try done;
      try destruct (H1 <=? _)%Z; try destruct (existsb _ ids); cbn; try done; by rewrite !app_nil_r. }
  destruct (server_step id t s) as [[e|] s']; [done|]. cbn [fst snd] in S. destruct (S eq_refl) as [S1 S2]. intros Hn.
  destruct (IH s' Hn) as [-> ->]. by rewrite S1, S2, !app_assoc.
Qed.

(** C36: a program at the technician's talks to the service behind the register
    as if it were connected to it, from its first byte on and though it spoke
    before the login was over.  [early]: what the register has read of the login
    in its message loop, before its end of the tunnel began.  Whichever end
    closes when and however a send to the service or to the client fails: what
    the service gets is a beginning of the rest of the login and then of what the
    program said, and what the program gets is a beginning of what the service
    said; and while the register's loop runs and no send of it has failed, all
    that has arrived has been passed on, so that with nothing under way between
    the ends the service has got all of it and the program all that the service
    said.  The whole login read early, that is exactly what the program said; a
    message of the login that comes later goes to the service
    ([login_reaches_service]).  The streams between the ends keep bytes in order,
    the login succeeds, and no send of the technician's end fails. *)
Theorem tunnel_is_transparent lc id ls t0 early :
  Forall (λ t, delivered t = true) lc -> logged_in lc ->
  let register := try_port_forward_loop id ls (mkRelay [] [] t0) in
  let wire := drop early (login_line lc) ++ said lc in
  early <= length (login_line lc) ->
  concat (map from_client ls) `prefix_of` drop early (to_peer (connection true lc)) ->
  raw_heard lc `prefix_of` to_client register.2 ->
  (to_service register.2 `prefix_of` wire /\ to_local (connection true lc) `prefix_of` concat (map from_service ls))
  /\ (register.1 = None -> Forall (λ t, send_error t = None) ls ->
      concat (map from_client ls) = drop early (to_peer (connection true lc)) -> raw_heard lc = to_client register.2 ->
      to_service register.2 = wire /\ to_local (connection true lc) = concat (map from_service ls)).
Proof.
  intros H Hl register wire He Hp Hc. destruct (connection_is_transparent lc H Hl) as [C1 C2].
  rewrite C1, drop_app_le in * by lia. rewrite C2. subst register wire. split.
  - destruct (relayed id ls (mkRelay [] [] t0)) as (a & b & A1 & A2 & A3 & A4).
    cbn [to_client to_service app] in A1, A3. rewrite A1 in Hc. rewrite A3. split; by etrans.
  - intros Hn Hs Hp' Hc'. destruct (relayed_all id ls (mkRelay [] [] t0) Hs Hn) as [A1 A2]. cbn [to_client to_service app] in *.
    by rewrite A2, Hp', Hc', A1.
Qed.
Definition sent (e : event) (f : bytes) : turn := mkTurn e true true f.
Definition visit : list turn := [sent (Peer (Got (Some Hash) [])) [9; 9]%Z; sent (Local (Some [1; 2]%Z)) []; sent (Peer (Got (Some PeerInfo) [])) [];
  sent (Local (Some [3]%Z)) []; sent (Peer (Got None [7; 8]%Z)) []; sent (Local None) []].
Definition served : list server_turn := [mkServerTurn (FromClient (Some (Ok [1]%Z))) 1 None; mkServerTurn (FromService (Some (Ok [7; 8]%Z))) 2 None;
  mkServerTurn (FromClient (Some (Ok [2; 3]%Z))) 3 None].
Lemma tunnel_is_transparent_witness : to_service (try_port_forward_loop 5 served (mkRelay [] [] 0)).2 = [1; 2; 3]%Z
  /\ to_local (connection true visit) = [7; 8]%Z.
Proof.
  apply (tunnel_is_transparent visit 5 served 0 2); [by repeat (apply Forall_cons; split; [done|])|by vm_compute|by vm_compute; lia|by exists []|by exists []
    |done|by repeat (apply Forall_cons; split; [done|])|done|done].
Defined.

(** The technician confirms the password a second time while the first is being
    checked: the register takes the first, and the second goes to the service. *)
Example login_reaches_service :
  let lc := [sent (Ui Login) [9; 9]%Z; sent (Ui Login) [9; 9]%Z; sent (Peer (Got (Some PeerInfo) [])) []; sent (Local (Some [1]%Z)) []] in
  drop 2 (to_peer (connection true lc)) = [9; 9; 1]%Z.
Proof. done. Qed.
(** A piece that cannot be sent is logged and the next goes out: the service may
    get bytes the program never said in this order. *)
Example lost_piece_unnoticed : to_peer (run_forward [mkTurn (Local (Some [1]%Z)) false true []; sent (Local (Some [2]%Z)) []] (mkStreams [] [])) = [2]%Z.
Proof. done. Qed.

(** ** The listeners *)
Definition ports_once (l : list (Z * string * Z)) : Prop := NoDup (map (λ x, x.1.1) l).
Lemma add_keeps_once p h r l : ports_once l -> ports_once (add_port_forward p h r l).
Proof.
  intros H. unfold add_port_forward. destruct (existsb _ l) eqn:E; [done|]. unfold ports_once. rewrite map_app. apply NoDup_app. split_and!; [done| |apply NoDup_singleton].
  intros x Hx Hp. cbn in Hp. apply list_elem_of_singleton in Hp as ->. apply list_elem_of_fmap in Hx as (y & Hy & Hin).
  apply not_true_iff_false in E. apply E, existsb_exists. exists y. split; [by apply list_elem_of_In|]. apply Z.eqb_eq. by rewrite Hy.
Qed.
Lemma remove_removes p l : ~ In p (map (λ x, x.1.1) (remove_port_forward p l)).
Proof.
  unfold remove_port_forward. rewrite in_map_iff. intros (x & Hx & Hin). apply filter_In in Hin as [_ Hin]. rewrite Hx, Z.eqb_refl in Hin. done.
Qed.
(** The map leads to the listener of the port. *)
Definition wf (s : session) : Prop := forall q j, queues s !! q = Some j -> port <$> listeners s !! j = Some q.
Lemma alter_port f i (l : list listener) j : (forall x, port (f x) = port x) -> port <$> alter f i l !! j = port <$> l !! j.
Proof.
  intros H. destruct (decide (i = j)) as [->|Hn]; [|by rewrite list_lookup_alter_ne].
  rewrite list_lookup_alter_eq. destruct (l !! j); cbn; [by rewrite H|done].
Qed.
Lemma drop_port p s j : port <$> drop_sender p s !! j = port <$> listeners s !! j.
Proof. unfold drop_sender. destruct (queues s !! p); [by apply alter_port|done]. Qed.
Lemma drop_length p s : length (drop_sender p s) = length (listeners s).
Proof. unfold drop_sender. destruct (queues s !! p); [by rewrite length_alter|done]. Qed.
Lemma turn_port x : port (listener_turn x) = port x.
Proof. unfold listener_turn. destruct (queue x) as [|[] q]; try done. by destruct (logging_in x). Qed.
Lemma happen_wf h s : wf s -> wf (happen h s).
Proof.
  intros H. destruct h as [r|i|i|i]; cbn [happen].
  - unfold manage. destruct (running s); cbn [negb]; [|done]. destruct r as [p rp|p| |d]; [|destruct (queues s !! p) as [i|] eqn:E; [|done]|done|].
    + destruct (_ || _)%bool; [done|]. intros q j. cbn [queues listeners]. rewrite lookup_insert_Some. intros [[-> <-]|[Hn Hq]].
      * rewrite lookup_app_r, drop_length, Nat.sub_diag by (by rewrite drop_length). done.
      * apply H in Hq. rewrite lookup_app_l, drop_port; [done|]. rewrite drop_length. apply lookup_lt_is_Some. by destruct (listeners s !! j).
    + intros q j. cbn [queues listeners]. rewrite lookup_delete_Some. intros [_ Hq]. rewrite alter_port by done. by apply H.
    + intros q j Hq. cbn [queues listeners set_listeners] in *. rewrite list_lookup_imap. specialize (H q j Hq). destruct (listeners s !! j); [|done].
      cbn in *. by destruct (bool_decide _).
  - intros q j Hq. cbn [queues listeners set_listeners] in *. rewrite alter_port by apply turn_port. by apply H.
  - intros q j Hq. cbn [queues listeners set_listeners] in *. rewrite alter_port; [by apply H|]. intros x. by destruct (open x).
  - intros q j Hq. cbn [queues listeners set_listeners] in *. rewrite alter_port by done. by apply H.
Qed.
Lemma turn_closed x : open x = false -> open (listener_turn x) = false.
Proof. unfold listener_turn. intros H. destruct (queue x) as [|[] q]; try done. by destruct (logging_in x). Qed.
Lemma turns_closed n x : open x = false -> open (Nat.iter n listener_turn x) = false.
Proof. intros H. induction n as [|n IH]; [done|]. by apply turn_closed. Qed.
(** A listener that waits at its port closes once it is told to. *)
Lemma told_closes x : logging_in x = false -> open (Nat.iter (S (length (queue x))) listener_turn (send_to Close x)) = false.
Proof.
  destruct x as [p q g lg o]. cbn [logging_in queue]. intros ->. revert g o. induction q as [|d q IH]; intros g o; [done|].
  rewrite Nat.iter_succ_r. change (length (d :: q)) with (S (length q)). unfold send_to. cbn [set_queue app].
  destruct d; [exact (IH g o)|exact (IH g o)|by apply turns_closed|exact (IH g o)|exact (IH g o)].
Qed.
(** Nobody can reach it any more, and it is open. *)
Definition stuck (i : nat) (s : session) : Prop :=
  (exists x, listeners s !! i = Some x /\ queue x = [] /\ open x = true) /\ forall q, queues s !! q <> Some i.
Definition deaf (x : listener) : Prop := queue x = [] /\ open x = true.
Lemma alter_deaf f i (l : list listener) j x : (deaf x -> deaf (f x)) -> l !! j = Some x -> deaf x -> exists y, alter f i l !! j = Some y /\ deaf y.
Proof.
  intros H E D. destruct (decide (i = j)) as [->|Hn]; [|rewrite list_lookup_alter_ne by done; eauto].
  rewrite list_lookup_alter_eq, E. cbn. eauto.
Qed.
Lemma happen_stuck h s i : stuck i s -> stuck i (happen h s).
Proof.
  intros [(x & Hx & D) Hq]. change (deaf x) in D. assert (Hi : i < length (listeners s)) by (apply lookup_lt_is_Some; eauto).
  unfold stuck. change (∃ x, listeners (happen h s) !! i = Some x ∧ queue x = [] ∧ open x = true) with (∃ x, listeners (happen h s) !! i = Some x ∧ deaf x).
  destruct h as [r|j|j|j]; cbn [happen].
  - unfold manage. destruct (running s); cbn [negb]; [|by eauto]. destruct r as [p rp|p| |d].
    + destruct (_ || _)%bool; [by eauto|]. cbn [queues listeners]. split.
      * rewrite lookup_app_l by (by rewrite drop_length). unfold drop_sender. destruct (queues s !! p) as [j|]; [by eapply alter_deaf|by eauto].
      * intros q. rewrite lookup_insert_Some. intros [[_ E]|[_ E]]; [lia|by apply (Hq q)].
    + destruct (queues s !! p) as [j|] eqn:E; [|by eauto]. cbn [queues listeners]. split.
      * rewrite list_lookup_alter_ne; [by eauto|]. intros ->. by apply (Hq p).
      * intros q. rewrite lookup_delete_Some. intros [_ E']. by apply (Hq q).
    + by eauto.
    + cbn [queues listeners set_listeners]. split; [|done]. rewrite list_lookup_imap, Hx. cbn. rewrite bool_decide_eq_false_2 by apply Hq. by eauto.
  - split; [|done]. cbn [listeners set_listeners]. eapply alter_deaf; [|done..]. unfold listener_turn. intros D'. by rewrite (proj1 D').
  - split; [|done]. cbn [listeners set_listeners]. eapply alter_deaf; [|done..]. intros [D1 D2]. by rewrite D2.
  - split; [|done]. cbn [listeners set_listeners]. by eapply alter_deaf.
Qed.
(** A port removed while a program is being logged in is never closed: the login
    passes over the [Close], and the sender is gone. *)
Lemma removal_lost p i x s l : wf s -> running s = true -> queues s !! p = Some i -> listeners s !! i = Some x ->
  logging_in x = true -> queue x = [] -> open x = true ->
  open <$> listeners (foldl (λ s h, happen h s) (happen (Turn i) (happen (Request (RemovePortForward p)) s)) l) !! i = Some true.
Proof.
  intros W Hr Hp Hx Hl Hq Ho. assert (S : stuck i (happen (Turn i) (happen (Request (RemovePortForward p)) s))).
  { cbn [happen]. unfold manage. rewrite Hr, Hp. cbn [negb set_listeners queues listeners]. split.
    - exists (listener_turn (set_gone (send_to Close x))). cbn [set_listeners listeners]. rewrite !list_lookup_alter_eq, Hx. split; [done|].
      unfold listener_turn. cbn. rewrite Hq, Hl. done.
    - intros q. cbn [set_listeners queues]. rewrite lookup_delete_Some. intros [Hn Hq2]. apply W in Hp, Hq2. rewrite Hp in Hq2. by injection Hq2. }
  revert S. generalize (happen (Turn i) (happen (Request (RemovePortForward p)) s)). clear. induction l as [|h l IH]; intros s S.
  - destruct S as [(x & Hx & _ & Ho) _]. cbn. rewrite Hx. cbn. by rewrite Ho.
  - apply IH. by apply happen_stuck.
Qed.
End Forward.
