(* ===== verification/Sync.v ===== *)
(** * Keeping in touch with the panel ([src/src/hbbs_http/sync.rs])

    Every three seconds the register may send what it is (its "sysinfo"), and
    that it is alive; the answer may end connections and change options. *)
From Stdlib Require Import String Ascii.
From S2P Require Import Prelude RustStr.

Module Sync.
Local Open Scope list_scope.
Local Open Scope Z_scope.

Definition TIME_HEARTBEAT : Z := 15000.
Definition UPLOAD_SYSINFO_TIMEOUT : Z := 120000.

(** The panel's answer to a heartbeat, where it is a JSON object; [None] for
    what is absent or of another type. *)
Record answer := mkAnswer { a_sysinfo : bool; a_disconnect : option (list Z); a_modified_at : option Z; a_strategy : option (gmap string string) }.
(** What one turn finds: the clock before the uploads, after them and at the heartbeat. *)
Record env := mkEnv {
  now : Z; uploaded_at : Z; later : Z;
  api_server : string; config_id : string; stopped : bool; alive_conns : list Z;
  sys_username : string; sysinfo : string;               (** as it is sent, the presets included *)
  ver_answer : result string string; info_answer : result string string; beat_answer : result (option answer) string }.
Record InfoUploaded := mkInfo { uploaded : bool; url : string; last_uploaded : option Z; info_id : string; username : option string }.
Definition info_default : InfoUploaded := mkInfo false "" None "" None.
Definition info_uploaded (u i n : string) : InfoUploaded := mkInfo true u None i (Some n).
Definition set_uploaded b x := mkInfo b (url x) (last_uploaded x) (info_id x) (username x).
Definition set_last_uploaded t x := mkInfo (uploaded x) (url x) t (info_id x) (username x).
Inductive request :=
  | AskVersion (url : string) | SendInfo (url : string) (info : string) (at_ : Z)
  | Beat (url : string) (conns : list Z) (modified_at : Z) (at_ : Z).
Record world := mkWorld {
  pro : bool; last_sent : option Z; info : InfoUploaded; sysinfo_ver : string;
  status_hash : string; status_ver : string; strategy_timestamp : Z; options : gmap string string;
  disconnected : list (list Z); requests : list request }.
Definition set_pro b w := mkWorld b (last_sent w) (info w) (sysinfo_ver w) (status_hash w) (status_ver w) (strategy_timestamp w) (options w) (disconnected w) (requests w).
Definition set_last_sent t w := mkWorld (pro w) t (info w) (sysinfo_ver w) (status_hash w) (status_ver w) (strategy_timestamp w) (options w) (disconnected w) (requests w).
Definition set_info i w := mkWorld (pro w) (last_sent w) i (sysinfo_ver w) (status_hash w) (status_ver w) (strategy_timestamp w) (options w) (disconnected w) (requests w).
Definition set_sysinfo_ver v w := mkWorld (pro w) (last_sent w) (info w) v (status_hash w) (status_ver w) (strategy_timestamp w) (options w) (disconnected w) (requests w).
Definition set_status h v w := mkWorld (pro w) (last_sent w) (info w) (sysinfo_ver w) h v (strategy_timestamp w) (options w) (disconnected w) (requests w).
Definition set_timestamp t w := mkWorld (pro w) (last_sent w) (info w) (sysinfo_ver w) (status_hash w) (status_ver w) t (options w) (disconnected w) (requests w).
Definition set_options o w := mkWorld (pro w) (last_sent w) (info w) (sysinfo_ver w) (status_hash w) (status_ver w) (strategy_timestamp w) o (disconnected w) (requests w).
Definition disconnect c w := mkWorld (pro w) (last_sent w) (info w) (sysinfo_ver w) (status_hash w) (status_ver w) (strategy_timestamp w) (options w) (disconnected w ++ [c]) (requests w).
Definition post r w := mkWorld (pro w) (last_sent w) (info w) (sysinfo_ver w) (status_hash w) (status_ver w) (strategy_timestamp w) (options w) (disconnected w) (requests w ++ [r]).

(** [common.rs] *)
Definition is_public (url : string) : bool :=
  let url := to_ascii_lowercase url in contains "rustdesk.com/" url || ends_with "rustdesk.com" url.
Definition heartbeat_url (api : string) : string :=
  if is_empty api || is_public api then "" else api +:+ "/api/heartbeat".

Section sync.
(** SHA-256 in base 64, [str::replace] on the URL, [DEFAULT_SETTINGS]. *)
Context (hash_of : string -> string -> string) (replace : string -> string -> string -> string) (default_settings : gmap string string).
Definition handle_config_options (config_options : gmap string string) (w : world) : world :=
  set_options (map_fold (λ k v opts,
    if is_empty v && is_empty (default EmptyString (default_settings !! k)) then delete k opts else <[k := v]> opts) (options w) config_options) w.

(** The first part of a turn, up to the upload: [None] where the turn ends. *)
Definition start_turn (e : env) (u : string) (w : world) : option world :=
  if is_empty u then None
  else if stopped e then None
  else Some (if uploaded (info w) && (negb (String.eqb u (url (info w))) || negb (String.eqb (config_id e) (info_id (info w))))
             then set_pro false (set_info (set_uploaded false (info w)) w) else w).
Definition need_upload (e : env) (w : world) : bool :=
  (negb (uploaded (info w)) || negb (bool_decide (username (info w) = Some (sys_username e)))) &&
  match last_uploaded (info w) with Some x => UPLOAD_SYSINFO_TIMEOUT <=? now e - x | None => true end.
(** For public servers what was sent last is not sent again; [true]: the turn ends. *)
Definition skip_unchanged (e : env) (u hash : string) (w : world) : bool * world :=
  if String.eqb hash (status_hash w) then
    let ver := status_ver w in
    let w := post (AskVersion (replace u "heartbeat" "sysinfo_ver")) w in
    match ver_answer e with
    | Ok x =>
        let w := set_pro true (set_sysinfo_ver x w) in
        if String.eqb x ver then (true, set_info (info_uploaded u (config_id e) (sys_username e)) w) else (false, w)
    | Err _ => (false, w)
    end
  else (false, w).
Definition send_info (e : env) (u hash : string) (w : world) : world :=
  let w := post (SendInfo (replace u "heartbeat" "sysinfo") (sysinfo e) (uploaded_at e)) w in
  match info_answer e with
  | Ok x =>
      if String.eqb x "SYSINFO_UPDATED" then
        let w := set_info (info_uploaded u (config_id e) (sys_username e)) w in
        set_pro true (if negb (is_empty hash) then set_status hash (sysinfo_ver w) w else w)
      else if String.eqb x "ID_NOT_FOUND" then set_info (set_last_uploaded None (info w)) w
      else set_info (set_last_uploaded (Some (uploaded_at e)) (info w)) w
  | Err _ => set_info (set_last_uploaded (Some (uploaded_at e)) (info w)) w
  end.
Definition upload (e : env) (u : string) (w : world) : bool * world :=
  if need_upload e w then
    if is_public u then
      let hash := hash_of u (sysinfo e) in
      let '(ends, w) := skip_unchanged e u hash w in
      if ends then (true, w) else (false, send_info e u hash w)
    else (false, send_info e u "" w)
  else (false, w).
Definition apply_answer (a : answer) (modified_at : Z) (w : world) : world :=
  let w := if a_sysinfo a then set_status "" (status_ver w) (set_info (set_uploaded false (info w)) w) else w in
  let w := match a_disconnect a with Some c => disconnect c w | None => w end in
  let w := match a_modified_at a with Some t => if negb (t =? modified_at) then set_timestamp t w else w | None => w end in
  match a_strategy a with Some o => handle_config_options o w | None => w end.
Definition beat_due (e : env) (w : world) : bool :=
  negb (bool_decide (alive_conns e = []) && match last_sent w with Some x => later e - x <? TIME_HEARTBEAT | None => false end).
Definition beat (e : env) (u : string) (w : world) : world :=
  if beat_due e w then
    let w := set_last_sent (Some (later e)) w in
    let modified_at := strategy_timestamp w in
    let w := post (Beat u (alive_conns e) modified_at (later e)) w in
    match beat_answer e with Ok (Some a) => apply_answer a modified_at w | _ => w end
  else w.
Definition tick (e : env) (w : world) : world :=
  let u := heartbeat_url (api_server e) in
  match start_turn e u w with
  | None => if is_empty u then set_pro false w else w
  | Some w => let '(ends, w) := upload e u w in if ends then w else beat e u w
  end.
Definition run (l : list env) (w : world) : world := foldl (λ w e, tick e w) w l.
Definition begun (opts : gmap string string) (h v : string) (t : Z) : world := mkWorld false None info_default "" h v t opts [] [].

(** ** Options

    An option of the panel is put in place; an empty one is taken out unless the
    program's own defaults would then show. *)
Lemma strategy_takes_effect c w k : options (handle_config_options c w) !! k =
  match c !! k with
  | Some v => if is_empty v && is_empty (default EmptyString (default_settings !! k)) then None else Some v
  | None => options w !! k
  end.
Proof.
  unfold handle_config_options. cbn [options set_options].
  refine (map_fold_weak_ind (λ opts c, opts !! k = match c !! k with
    | Some v => if is_empty v && is_empty (default EmptyString (default_settings !! k)) then None else Some v
    | None => options w !! k end) _ _ _ _ c); [by rewrite lookup_empty|].
  intros i x m opts Hi IH. destruct (decide (i = k)) as [->|Hn].
  - rewrite lookup_insert_eq. destruct (_ && _); [by rewrite lookup_delete_eq|by rewrite lookup_insert_eq].
  - rewrite lookup_insert_ne by done. rewrite <- IH. destruct (_ && _); [by rewrite lookup_delete_ne|by rewrite lookup_insert_ne].
Qed.

(** ** Heartbeats *)
Definition beats (w : world) : list (list Z * Z) := omap (λ r, match r with Beat _ c _ t => Some (c, t) | _ => None end) (requests w).
Definition paced (l : list (list Z * Z)) : Prop :=
  forall i a b, l !! i = Some a -> l !! S i = Some b -> b.1 = [] -> TIME_HEARTBEAT <= b.2 - a.2.
Lemma paced_snoc l b : paced l -> (forall a, last l = Some a -> b.1 = [] -> TIME_HEARTBEAT <= b.2 - a.2) -> paced (l ++ [b]).
Proof.
  intros H Hb i a b' Ha Hb' Hc. destruct (decide (S i < length l)%nat) as [Hi|Hi].
  - rewrite lookup_app_l in Ha by lia. rewrite lookup_app_l in Hb' by lia. by eapply H.
  - assert (E : S i = length l). { apply lookup_lt_Some in Hb'. rewrite length_app in Hb'. cbn in Hb'. lia. }
    rewrite lookup_app_r, E, Nat.sub_diag in Hb' by lia. injection Hb' as <-. rewrite lookup_app_l in Ha by lia.
    apply Hb; [|done]. rewrite last_lookup, <- E. done.
Qed.
(** What a turn adds: uploads first, then at most one heartbeat. *)
Definition keeps (w w' : world) : Prop := beats w' = beats w /\ last_sent w' = last_sent w.
Lemma start_keeps e u w w' : start_turn e u w = Some w' -> keeps w w'.
Proof. unfold start_turn. destruct (is_empty u); [done|]. destruct (stopped e); [done|]. intros [= <-]. by destruct (_ && _). Qed.
Lemma beats_post r w : beats (post r w) = beats w ++ match r with Beat _ c _ t => [(c, t)] | _ => [] end.
Proof. unfold beats. cbn [requests post]. rewrite omap_app. by destruct r. Qed.
Lemma skip_keeps e u h w : keeps w (skip_unchanged e u h w).2.
Proof.
  unfold skip_unchanged. destruct (String.eqb h (status_hash w)); [|done].
  assert (K : keeps w (post (AskVersion (replace u "heartbeat" "sysinfo_ver")) w)) by (split; [by rewrite beats_post, app_nil_r|done]).
  destruct (ver_answer e); [|done]. by destruct (String.eqb _ _).
Qed.
Lemma send_keeps e u h w : keeps w (send_info e u h w).
Proof.
  unfold send_info. assert (K : keeps w (post (SendInfo (replace u "heartbeat" "sysinfo") (sysinfo e) (uploaded_at e)) w)) by (split; [by rewrite beats_post, app_nil_r|done]).
  destruct (info_answer e) as [x|]; [|done]. destruct (String.eqb x "SYSINFO_UPDATED"); [by destruct (negb (is_empty h))|]. by destruct (String.eqb x "ID_NOT_FOUND").
Qed.
Lemma keeps_trans a b c : keeps a b -> keeps b c -> keeps a c.
Proof. intros [H1 H2] [H3 H4]. split; congruence. Qed.
Lemma upload_keeps e u w : keeps w (upload e u w).2.
Proof.
  unfold upload. destruct (need_upload e w); [|done]. destruct (is_public u); [|apply send_keeps].
  pose proof (skip_keeps e u (hash_of u (sysinfo e)) w) as K. destruct (skip_unchanged e u _ w) as [[] w']; [done|].
  eapply keeps_trans; [apply K|apply send_keeps].
Qed.
Lemma answer_keeps a t w : keeps w (apply_answer a t w).
Proof.
  unfold apply_answer, handle_config_options. destruct (a_sysinfo a), (a_disconnect a), (a_modified_at a); try destruct (negb _); by destruct (a_strategy a).
Qed.
Definition in_step (w : world) : Prop := last_sent w = snd <$> last (beats w) /\ paced (beats w).
Lemma keeps_in_step w w' : keeps w w' -> in_step w -> in_step w'.
Proof. intros [E1 E2]. unfold in_step. by rewrite E1, E2. Qed.
Lemma beat_in_step e u w : in_step w -> in_step (beat e u w).
Proof.
  intros [H1 H2]. unfold beat. destruct (beat_due e w) eqn:D; [|done].
  set (w1 := post _ _). assert (I : in_step w1).
  { subst w1. unfold in_step. rewrite beats_post. cbn [last_sent post set_last_sent]. change (beats (set_last_sent (Some (later e)) w)) with (beats w).
    split; [by rewrite last_snoc|]. apply paced_snoc; [done|]. intros a Ha Hc. cbn [fst snd] in *. unfold beat_due in D.
    rewrite Hc, H1, Ha, bool_decide_eq_true_2 in D by done. cbn in D. apply negb_true_iff, Z.ltb_ge in D. done. }
  destruct (beat_answer e) as [[a|]|]; [|done..]. eapply keeps_in_step; [apply answer_keeps|done].
Qed.
Lemma tick_in_step e w : in_step w -> in_step (tick e w).
Proof.
  intros I. unfold tick. destruct (start_turn e (heartbeat_url (api_server e)) w) as [w1|] eqn:E; [|by destruct (is_empty _)].
  apply start_keeps in E. pose proof (upload_keeps e (heartbeat_url (api_server e)) w1) as K. destruct (upload e _ w1) as [[] w2]; cbn [snd] in K.
  - eapply keeps_in_step; [|done]. by eapply keeps_trans.
  - apply beat_in_step. eapply keeps_in_step; [|done]. by eapply keeps_trans.
Qed.
(** ** Public servers *)
Lemma starts_app p a b : starts_with p a = true -> starts_with p (a +:+ b) = true.
Proof.
  unfold starts_with. revert a. induction p as [|c p IH]; intros [|d a]; [done..|]. cbn [strip_prefix String.append]. destruct (Ascii.eqb c d); [apply IH|done].
Qed.
Lemma ends_cons p c s : ends_with p s = true -> ends_with p (String c s) = true.
Proof. unfold ends_with. rewrite rev_cons. apply starts_app. Qed.
Lemma contains_cons p c s : contains p (String c s) = starts_with p (String c s) || contains p s.
Proof. unfold contains. cbn [find_split]. destruct (starts_with p (String c s)); [done|]. by destruct (find_split p s) as [[]|]. Qed.
Lemma contains_nil p : contains p EmptyString = starts_with p EmptyString.
Proof. unfold contains. cbn [find_split]. by destruct (starts_with p EmptyString). Qed.
(** A text that ends with a slash is met within [s], or ends where [s] ends. *)
Lemma starts_across n s t : no_char "/"%char n = true -> starts_with (n +:+ "/") (s +:+ String "/"%char t) = true ->
  starts_with (n +:+ "/") s = true \/ s = n.
Proof.
  revert s. unfold starts_with. induction n as [|c n IH]; intros [|d s] Hn; [by right| | |].
  - cbn [String.append strip_prefix]. destruct (Ascii.eqb "/" d); [by left|done].
  - cbn [String.append strip_prefix no_char all_chars] in *. apply andb_prop in Hn as [Hn _]. apply negb_true_iff in Hn. by rewrite Hn.
  - cbn [String.append strip_prefix no_char all_chars] in *. apply andb_prop in Hn as [_ Hn]. destruct (Ascii.eqb_spec c d) as [->|]; [|done].
    intros H. destruct (IH s Hn H) as [H'| ->]; [by left|by right].
Qed.
Lemma ends_self n : ends_with n n = true.
Proof. unfold ends_with, starts_with. generalize (String.rev n). intros r. induction r as [|c r IH]; [done|]. cbn. by rewrite Ascii.eqb_refl. Qed.
Lemma contains_across n s t : no_char "/"%char n = true -> contains (n +:+ "/") (String "/"%char t) = false ->
  contains (n +:+ "/") (s +:+ String "/"%char t) = true -> contains (n +:+ "/") s = true \/ ends_with n s = true.
Proof.
  intros Hn Ht. induction s as [|c s IH]; [cbn [String.append]; by rewrite Ht|]. cbn [String.append]. rewrite !contains_cons.
  destruct (starts_with (n +:+ "/") (String c (s +:+ String "/" t))) eqn:E; cbn [orb].
  - intros _. destruct (starts_across n (String c s) t Hn E) as [-> | <-]; [by left|right; apply ends_self].
  - intros H. destruct (IH H) as [-> | H']; [left; apply orb_true_r|right; by apply ends_cons].
Qed.
Lemma lower_app a b : to_ascii_lowercase (a +:+ b) = to_ascii_lowercase a +:+ to_ascii_lowercase b.
Proof. induction a as [|c a IH]; [done|]. cbn. by rewrite IH. Qed.
Lemma rev_app_distr a b : String.rev (a +:+ b) = String.rev b +:+ String.rev a.
Proof.
  induction a as [|c a IH]; [cbn [String.append]; unfold String.rev at 3; cbn; by induction (String.rev b) as [|d r IHr]; [|cbn; rewrite <- IHr]|].
  cbn [String.append]. by rewrite !rev_cons, IH, string_app_assoc.
Qed.
(** The address of the heartbeat is never one of a public server: the part of
    the upload that is meant for those never runs. *)
Lemma never_public api : is_public (heartbeat_url api) = false.
Proof.
  unfold heartbeat_url. destruct (is_empty api || is_public api) eqn:E; [done|]. apply orb_false_iff in E as [_ E].
  unfold is_public in *. rewrite lower_app. set (s := to_ascii_lowercase api) in *. apply orb_false_iff in E as [E1 E2]. apply orb_false_iff. split.
  - apply not_true_iff_false. intros H. destruct (contains_across "rustdesk.com" s "api/heartbeat" eq_refl eq_refl H) as [H'|H']; [|by rewrite E2 in H'].
    change (contains "rustdesk.com/" s = true) in H'. by rewrite E1 in H'.
  - unfold ends_with. rewrite rev_app_distr. done.
Qed.
(** With something to report, every turn reports. *)
Lemma due_beats e w : is_empty (heartbeat_url (api_server e)) = false -> stopped e = false -> beat_due e w = true ->
  beats (tick e w) = beats w ++ [(alive_conns e, later e)].
Proof.
  intros Hu Hs D. unfold tick. unfold start_turn. rewrite Hu, Hs. set (w1 := if _ && _ then _ else w).
  assert (K1 : keeps w w1) by (subst w1; by destruct (_ && _)). unfold upload. rewrite never_public.
  set (u := heartbeat_url (api_server e)) in *.
  assert (K2 : keeps w (if need_upload e w1 then send_info e u "" w1 else w1)).
  { destruct (need_upload e w1); [|done]. eapply keeps_trans; [done|apply send_keeps]. }
  replace (if need_upload e w1 then (false, send_info e u "" w1) else (false, w1)) with (false, if need_upload e w1 then send_info e u "" w1 else w1) by (by destruct (need_upload e w1)).
  set (w2 := if need_upload e w1 then _ else w1) in *. destruct K2 as [K2 K3]. unfold beat.
  assert (D2 : beat_due e w2 = true) by (unfold beat_due in *; by rewrite K3). rewrite D2.
  set (w3 := post _ _). assert (B : beats w3 = beats w ++ [(alive_conns e, later e)]).
  { subst w3. rewrite beats_post. change (beats (set_last_sent (Some (later e)) w2)) with (beats w2). by rewrite K2. }
  destruct (beat_answer e) as [[a|]|]; [|done..]. destruct (answer_keeps a (strategy_timestamp (set_last_sent (Some (later e)) w2)) w3) as [A _]. by rewrite A.
Qed.
(** C37: a register that talks to a panel reports at every turn the connections
    it has, and without any it says that it is alive when fifteen seconds have
    passed since the last time, and not before, whatever the panel answers. *)
Theorem beats_are_paced l opts h v t :
  let w := run l (begun opts h v t) in
  paced (beats w) /\
  forall e, is_empty (heartbeat_url (api_server e)) = false -> stopped e = false ->
    beats (tick e w) = beats w ++ (if bool_decide (alive_conns e = []) && match last (beats w) with Some b => later e - b.2 <? TIME_HEARTBEAT | None => false end
                                   then [] else [(alive_conns e, later e)]).
Proof.
  assert (H : in_step (begun opts h v t)) by (split; [done|]; intros i a b Ha; done).
  assert (I : in_step (run l (begun opts h v t))).
  { revert H. generalize (begun opts h v t). induction l as [|e l IH]; intros w H; [done|]. by apply IH, tick_in_step. }
  cbv zeta. split; [apply I|]. intros e Hu Hs. set (w := run l _) in *.
  assert (D : negb (beat_due e w) = bool_decide (alive_conns e = []) && match last (beats w) with Some b => later e - b.2 <? TIME_HEARTBEAT | None => false end).
  { unfold beat_due. rewrite negb_involutive, (proj1 I). by destruct (last (beats w)). }
  rewrite <- D. destruct (beat_due e w) eqn:E; cbn [negb]; [by apply due_beats|]. rewrite app_nil_r.
  unfold tick. destruct (start_turn e (heartbeat_url (api_server e)) w) as [w1|] eqn:E1; [|by rewrite Hu].
  apply start_keeps in E1. pose proof (upload_keeps e (heartbeat_url (api_server e)) w1) as K. destruct (upload e _ w1) as [[] w2]; cbn [snd] in K.
  - destruct (keeps_trans _ _ _ E1 K) as [-> _]. done.
  - destruct (keeps_trans _ _ _ E1 K) as [K1 K2]. unfold beat. assert (D2 : beat_due e w2 = false) by (unfold beat_due in *; by rewrite K2). by rewrite D2.
Qed.
(** What the panel asked for by "sysinfo" hides a change of the server: the mark
    of a professional server stays when the register moves to another one. *)
Lemma pro_survives_the_move e w : pro w = true -> uploaded (info w) = false -> info_answer e = Err "" -> beat_answer e = Err "" ->
  is_empty (heartbeat_url (api_server e)) = false -> pro (tick e w) = true.
Proof.
  intros Hp Hi H1 H2 Hu. unfold tick, start_turn. rewrite Hu. destruct (stopped e); [done|]. rewrite Hi. cbn [andb]. unfold upload. rewrite never_public.
  assert (P : pro (send_info e (heartbeat_url (api_server e)) "" w) = true) by (unfold send_info; by rewrite H1).
  destruct (need_upload e w); unfold beat; rewrite H2; by destruct (beat_due e _).
Qed.
End sync.

Definition plain_hash (u v : string) : string := u +:+ v.
Definition same_url (u a b : string) : string := u.
Definition turn_at (t : Z) (conns : list Z) : env := mkEnv t t t "https://panel" "123" false conns "kim" "{}" (Err EmptyString) (Ok "SYSINFO_UPDATED"%string)
  (Ok (Some (mkAnswer false (Some [7]) (Some 4) (Some {["a"%string := "b"%string]})))).
Lemma beats_are_paced_witness : let w := run plain_hash same_url ∅ [turn_at 3000 [5]; turn_at 6000 []] (begun ∅ EmptyString EmptyString 0) in
  beats (tick plain_hash same_url ∅ (turn_at 18000 []) w) = [([5], 3000); ([], 18000)].
Proof. exact (proj2 (beats_are_paced plain_hash same_url ∅ [turn_at 3000 [5]; turn_at 6000 []] ∅ EmptyString EmptyString 0) (turn_at 18000 []) eq_refl eq_refl). Defined.
End Sync.
